(* ===== verification/_CoqProject ===== *)
-Q . S2P
Prelude.v
GoStrings.v
Effects.v
Faults.v
Table.v
Regex.v
Json.v
GraphQL.v
Grpc.v
Authz.v
RoleMap.v
Identity.v
OpenAPI.v
ApiSpec.v
ApiGroups.v
Crypto.v
ApiHistory.v
ApiPublish.v
AuthStore.v
MLStudio.v
MLSync.v
MLHandlers.v
MLTenants.v
MLConfined.v
MLLife.v
MLDemo.v
Float64.v
Billing.v
AwsBilling.v
BillingStore.v
BillingSync.v
BillingLife.v
BillingSteps.v
BillingFlow.v
BillingDemo.v
Middleware.v
OAuth.v
Enterprise.v
Session.v
Members.v
Accounts.v
Orgs.v
Users.v
Teams.v
ProviderAdmin.v
GithubStore.v
ImportLife.v
GithubApp.v
WorkerLiveness.v
Dependencies.v
Requests.v
TestPacks.v
TestHandlers.v
TestLife.v
TestFlow.v
TestDemo.v
ServiceStore.v
ServiceHandlers.v
ServiceLife.v
ServiceFlow.v
ServiceDemo.v
QueryStore.v
QueryHandlers.v
QueryLife.v
QuerySteps.v
QueryFlow.v
QueryDemo.v
AgentStore.v
AgentHandlers.v
AgentLife.v
AgentFlow.v
AgentDemo.v
