(* ===== verification/Prelude.v ===== *)
(** * A verification development for the uigraph API server

    The repository is the Go backend of UiGraph, a catalog of services and
    their diagrams: HTTP handlers over PostgreSQL, with sessions and API keys,
    SSO through OpenID Connect and SAML, scoped authorization per organization,
    a GitHub App that imports repositories through workflow runs, and a graph
    of service dependencies.  This library models the parts that decide who may
    do what, the parts with a state machine or a graph algorithm, and the catalogs
    with history, and proves what makes them correct.  Paths below are relative to
    src/internal/.

    How the program is modelled

    A function of the source is a function here, of the same name where Rocq
    allows it (a trailing underscore marks a clash).  Pure code is a plain
    Definition or Fixpoint.  Code that talks to the database, reads the clock
    or draws random bytes runs in the monads of Effects on a [World]: the
    tables, the clock, and streams the environment chooses - which statements
    fail in transport, how time passes, what the random source yields.  A
    theorem about a world holds for every failure pattern.  A Go body with
    early returns is a [Go] computation; [try m on_err] is the idiom
    [x, err := m; if err != nil { return on_err(err) }].  A SQL statement, and
    a transaction as a whole, is one function on tables ([gmap]s by primary
    key, Table) that fails and changes nothing or takes effect; the constraints
    of the migrations are checked by the statement, and a violation is a driver
    error.  Go's nil pointers are [option]s, its errors the sum types
    [store_err], [auth_err] and [app_err], and time is in nanoseconds (that the
    database rounds to microseconds is not modelled).

    The files

    - Prelude: results, tactics, string membership, and stable sorting with its
      uniqueness, filtering and exchange lemmas.
    - GoStrings: the functions of Go's strings, strconv and hex packages the
      program uses, on byte strings.  Regex: the fixed patterns, by derivatives.
    - Effects: the monads, their weakest preconditions, the world, httputil.
      Faults: whether a statement failed between two worlds, for the error branches.
      Table: rows, WHERE, ORDER BY, LIMIT 1, UNIQUE.
    - Authz (authz/, api/router.go): the scope catalog, roles, [Has], the
      authorizer over a store interface, the route guards [requireScope] and
      [serverAdmin].  The class [AuthzStore] and its laws are what the guards
      need of the store; AuthStore discharges them.
    - RoleMap (rolemap/): mapping identity-provider attributes to a role.
    - Identity (identity/): providers, slugs, domains, tokens.
    - AuthStore (store/postgres/*_store.go): fourteen identity tables and every
      statement on them that the handlers below use.
    - Middleware (middleware/): from credential to principal.
    - OAuth (oauth/), Enterprise (enterprise/): the code flow, plan limits.
    - Session (api/auth/session.go): every sign-in, SSO and sign-out handler.
    - Crypto (crypto/cipher.go, api/auth/password.go): base64, the sealing of
      secrets with AES-GCM, temporary passwords.
    - Members, Accounts, Orgs, Users, Teams, ProviderAdmin (api/auth/): the
      administration of members, service accounts and their tokens, avatars,
      organizations, users and sign-up, teams, identity providers with their
      role rules and domains.  Each states what its statements and handlers
      preserve, and a [serve] function runs the requests of its routes.
    - Json: the subset of encoding/json the spec parsers use.  GraphQL and Grpc
      (specparser/): the catalog entries of a GraphQL schema and of proto files,
      with the example requests and responses shown for them.
    - OpenAPI (api/catalog/openapi_*.go, json_storage.go): references, examples
      and payloads of an OpenAPI document, and the order of its operations.
      ApiSpec (api/catalog/service_logic.go): from a specification in one of
      three protocols to API endpoints.  ApiGroups (api/catalog/apigroup*.go,
      endpoint.go, store/postgres/catalog.go): API groups, their numbered
      versions and their endpoints.  ApiHistory and ApiPublish: what every
      request keeps of them, what publishing and restoring a version do.
    - MLStudio (mlstudio/, store/postgres/mlstudio_managed.go, the single-row
      reads, the deployment log): the ten tables of the machine-learning
      registry and their statements.  MLSync (store/postgres/mlstudio.go): the
      upserts by MLflow id.  MLHandlers (api/mlstudio/): the handlers over both.
      MLTenants: what a row refers to, and the invariant that it stays in its
      organization.  MLConfined: every statement and handler keeps it.  MLLife:
      the life cycle of a version, and synchronisation counted and repeated.
      MLDemo: the registry on concrete requests.
    - Float64: binary64 arithmetic and comparison.  Billing (billing/billing.go,
      match.go): cloud costs, the matching of tags and the dashboard's summary.
      AwsBilling (billing/providers/aws): resources by their ARN, the sharing of
      costs.  BillingStore (store/postgres/billing.go): connections, rules,
      resources, daily costs, runs.  BillingSync (billing/runsync.go,
      billing/sync/worker.go, api/billing): the sync, the worker and the handlers.
      BillingLife and BillingSteps: the invariant, what grows and what other
      organizations keep, for every statement and body.  BillingFlow: the
      properties.  BillingDemo: two organizations at work.
    - Requests (api/catalog/service_logic.go, httputil/): what the stores and
      handlers of the catalog share - query parameters, JSONB columns, lists with an
      exact match, statements, who made and changed a row when, the service of the
      path - with a rule ([ends_*]) per step a handler can take, and the tactic
      [ends_step] that applies them.  The class [Services] is what its rules need of
      the tables of a component.
    - TestPacks (store/postgres/service_tests.go, the test types of catalog/catalog.go):
      test packs, cases, runs and results, and every statement on them.
      TestHandlers (api/catalog/testpack.go, byid.go): the handlers.  TestLife: the
      invariant and what every statement and handler changes.  TestFlow: the
      properties.  TestDemo: two organizations at work.
    - ServiceStore (store/postgres/catalog.go), ServiceHandlers
      (api/catalog/service.go, httputil/list.go): the services of an organization, and
      the dependencies a new one adopts.  ServiceLife, ServiceFlow and ServiceDemo as
      for test packs.
    - QueryStore (store/postgres/service_dbs.go, saved_queries.go), QueryHandlers
      (api/catalog/db.go, saved_query.go): the databases of a service, the versions of
      their schemas, and the personal and shared queries saved for them.  QueryLife: the
      invariant and what requests may change.  QuerySteps: every statement and handler
      keeps to it.  QueryFlow: the properties.  QueryDemo: two users at work.
    - AgentStore (agentsession/, modelpricing/, store/postgres/agent_sessions.go),
      AgentHandlers (api/agentsession/): the runs of agents, their steps and what
      these cost.  AgentLife, AgentFlow and AgentDemo as for test packs.
    - GithubStore (githubapp/domain.go, store/postgres/githubapp_store.go):
      imports, jobs with leases, install states, webhook log, and the services the
      catalog creates, renames and deletes beside them.
    - ImportLife: the statements of GithubStore and those of the catalog on services as
      operations of a state machine; invariants and traces.
    - GithubApp (githubapp/worker.go, api/githubapp/handler.go): the worker and
      the handlers over them.  WorkerLiveness: the queue drains.
    - Dependencies (store/postgres/service_dependencies.go,
      api/catalog/service_dependencies.go): the dependency graph.

    How the parts interact: a request passes [Middleware.Handler], which reads
    the identity tables and puts a principal in the context, then a guard of
    Authz, which reads roles and scopes, then a handler.  Session writes the
    sessions the middleware reads; its SSO callbacks use OAuth or SAML, RoleMap
    for the role and Identity for the allow-list.  GithubApp's webhook, polling
    and retry handlers and its worker share the tables of GithubStore.

    What the theorems show

    - Access: a guarded handler runs exactly for the principals the tables
      allow ([requireScope_correct], [serverAdmin_correct]); a principal is what
      its credential is worth ([Handler_correct]); scopes stay within the
      resources they name ([valid_scopes_confined]); the roles are a ladder.
    - Sign-in: password and SSO sign-ins create one session of an enabled
      user under the stated conditions and change nothing but what these theorems list
      ([Login_correct], [completeLogin_safe]);
      a login state works once ([consumeState_once]); sessions stay well keyed
      in every reachable state ([reachable_sessions_ok]); sign-out revokes
      ([Logout_revokes]).
    - Pure components: role resolution, slugs, domains, tokens, claims, limits,
      the sealing of secrets ([Encrypt_Decrypt]).
    - Administration: invariants of every reachable state of the tables
      ([reachable_accounts_ok], [reachable_users_ok], [reachable_teams_ok],
      [reachable_providers_ok]); requests on the providers of one organization
      leave the others alone and show no secret ([requests_confined]); what
      creating, deleting, provisioning and resetting achieve on each branch, in
      particular which prefix of the statements remains when one fails
      ([Create_correct], [ProvisionAccount_correct]).
    - Spec parsers: the selection tree built with one shared table of visited
      types is a function of the path ([buildSelectionTree_correct]); trees are well
      typed in the schema ([root_selection_typed]); example responses answer the
      selection with every field of it and variables have every argument, to the
      depths the source expands ([examples_conform], [method_examples_typed]);
      the request is a sentence of the grammar ([request_wellformed]).
    - Imports: an invariant of the tables in every reachable state, the edges of
      the life cycle, finality of completion, exclusivity of leases, the effect
      of every kind of event, the outcome of a turn of the worker, the
      authenticity and at-most-once application of webhooks, and liveness: the
      worker drains the queue within the attempts left ([queue_drains]).
    - Catalog: following references returns exactly for documents without
      circular references ([resolve_terminates]); a document gives one endpoint
      per operation ([parseSpecEndpoints_correct]); generated examples are
      values of their schemas ([examples_inhabit]); publishing and restoring
      are all or nothing and number versions one by one ([publish_correct],
      [Restore_correct]), and history is kept ([history_kept]).
    - Machine-learning registry: a request stays in its organization, erases
      nothing and leaves the runs, datasets and artifacts of MLflow to
      synchronisation ([requests_confined_to_org]); the references the code checks
      stay inside an organization ([reachable_registries_ok]); versions move
      by allowed steps only ([version_moves_correct]); a repeated
      synchronisation changes nothing and the counts add up
      ([repeated_sync_changes_nothing], [sync_counts_bounded]).
    - Billing: a sync stores all its provider reported, or exactly the statements
      before the one that failed took effect ([RunSync_correct]); requests and syncs
      stay in their organization, the figures they show included
      ([billing_requests_confined], [reachable_billing_ok]); dashboards show what
      the rules choose ([dashboard_follows_rules], [trend_correct],
      [ComputeSummary_correct], [sync_result_correct]); credentials come back after
      any requests and syncs ([credentials_survive]).
    - Dependencies: the sync is exact and atomic; the graph query is reachability
      within the depth; the two directions are dual.
    - Test packs: requests stay within their service ([test_requests_confined]); the
      tables stay well formed and keep their rows ([reachable_tests_ok]); the summary
      of runs counts their results ([run_summary_correct]); a run reads back as it was
      created ([created_run_reads_back]).
    - Services: the tables stay well formed and keep their rows
      ([reachable_services_ok]); as long as the billing service answers the requests
      that create services, none of them exceeds the limit the plan has at that time; an
      unreachable billing service lets requests pass ([service_limit_kept]); a new,
      active service is found by those that waited for it ([CreateService_correct]);
      lists are complete, ordered and cut into pages that make them up
      ([pages_correct]).
    - Databases and saved queries: personal queries stay private, and only the
      deletion of their folder by another user touches them
      ([personal_queries_private]); versions are never changed and the tables stay well
      formed ([reachable_databases_ok]); a synchronisation finds its query again
      ([SyncSavedQuery_correct]); restoring a version keeps the state before it, unless
      a statement failed or its row is refused ([RestoreDBVersion_correct]).
    - Runs of agents: runs end once, and steps are numbered without gaps and never
      change ([reachable_agents_ok]); requests stay in their organization
      ([agent_requests_confined]); what recording a step and ending a run leave, also
      when a statement fails ([CreateStep_correct], [Finish_correct]); every figure of a
      summary is what the rows of the runs and their steps say ([summary_adds_up]).
    - Defects: theorems that exhibit behaviour the code does not intend, among
      them [superseded_run_stuck], [Webhook_lost], [RetryJob_without_lease],
      [disabled_user_keeps_access], [UpdateMember_keeps_email],
      [update_crosses_tenants], [team_crosses_tenants], [token_crosses_tenants],
      [recursive_field_bare], [union_response_empty], [short_name_shadows],
      [dataset_crosses_tenants], [recreated_project_stays_deleted],
      [failed_sync_keeps_syncing], [rule_of_another_org], [deleted_name_taken],
      [bare_update_sets_flags], [result_crosses_tenants],
      [service_crosses_tenants], [versions_unlisted].

    Parameters

    Code outside the repository is a class or an argument: SHA-256, HMAC,
    bcrypt, the UUID generator, the regexp engine, Unicode tables, the database
    collation, JSON decoding, AES-GCM, SAML and its key generation, the RFC 3339
    parser, presigned URLs, HTTP round trips, the parsers of GraphQL and of proto
    files, and the GitHub API behind the handlers' Client interface, the adapter of a cloud
    provider, the JSON of its credentials, the order in which Go visits a map or
    evaluates the operands of a return, the pattern matching of ILIKE,
    the sum of float8s, and the NUMERIC, DATE, UUID and JSONB columns of the database.  The laws
    assumed of them are lengths and byte ranges of digests, that opening what
    was sealed with the same key and nonce gives the text, that a password
    matches its own hash, and that the collation is a strict weak order.  The Demo modules instantiate them with concrete functions, and every
    theorem with a hypothesis has a witness there.

    Bounds and fuel

    [RoleMap.Lookup] recurses on the rest of a dotted key with the key's length
    as fuel; [Lookup_unfold] is its recursion equation without fuel.
    [GoStrings.strip_all], behind TrimSpace, has the length of the string and
    drops at least a byte a step.  [Dependencies.walk] has the depth bound of the
    query itself; [walk_within] shows that it finds all a path of that length
    reaches.  The selection trees and examples of the spec parsers recurse with
    the depth limits of the source.  [OpenAPI.resolveRefsInDoc] has no bound in
    the source; [resolve_terminates] says when some fuel is enough.  Everything
    else is structural.  Machine integers are wrapped or
    clamped where the source can leave their range (the back-off shift, parsed
    numbers); elsewhere Z is used for counters and times far from the bounds.

    Not modelled, and why

    Concurrency inside a transaction is that of its atomicity: row locks are not
    modelled, and the statements of a handler interleave only through traces.
    Response headers other than cookies and redirects, logging and metrics are
    left out.  Of the machine-learning registry the searches with paging are left
    out, of billing the calls of the AWS SDK, of services the counts on the dashboard,
    which ask the database for its own schema and are served from a cache.  A sync in
    the background runs as one step between requests; the network is given anew for each
    request to a service catalog, so a plan can change or become unreachable between two; deleting an organization, which
    takes its rows along, is modelled with the identity tables only.

    Left aside on purpose: the documents, diagrams, maps,
    folders, comments, timelines and Figma links, whose handlers move JSON between
    requests, tables and object storage; chat and usage, which append to logs
    and add them up; the GitHub, AWS, LDAP and SCIM clients, which are
    calls of libraries; configuration, caching, queues, storage and process start. *)

From Stdlib Require Export String Ascii ZArith.
From stdpp Require Export base gmap strings list pretty sorting.
#[global] Arguments String.append : simpl nomatch.


Create HintDb uig.
Create Rewrite HintDb gostr.
Create Rewrite HintDb tbl.

(** ** Results: Go's [(T, error)] *)

Inductive result (E A : Type) : Type :=
| Ok (a : A)
| Err (e : E).
Arguments Ok {E A} a.
Arguments Err {E A} e.

(** ** Tactics *)

(** Split on the matches of the goal and close what computes away. *)
Ltac split_matches :=
  repeat (case_match; simplify_eq/=; try done).

(** Turn boolean hypotheses of the shapes the guards of the code produce into
    propositions. *)
Ltac bool_to_prop :=
  repeat match goal with
  | H : andb _ _ = true |- _ => apply andb_true_iff in H as [? ?]
  | H : orb _ _ = false |- _ => apply orb_false_iff in H as [? ?]
  | H : negb _ = true |- _ => apply negb_true_iff in H
  | H : negb _ = false |- _ => apply negb_false_iff in H
  | H : String.eqb _ _ = true |- _ => apply String.eqb_eq in H
  | H : String.eqb _ _ = false |- _ => apply String.eqb_neq in H
  | H : Z.ltb _ _ = true |- _ => apply Z.ltb_lt in H
  | H : Z.ltb _ _ = false |- _ => apply Z.ltb_ge in H
  | H : Z.leb _ _ = true |- _ => apply Z.leb_le in H
  | H : Z.leb _ _ = false |- _ => apply Z.leb_gt in H
  | H : Z.eqb _ _ = true |- _ => apply Z.eqb_eq in H
  | H : Z.eqb _ _ = false |- _ => apply Z.eqb_neq in H
  | H : bool_decide _ = true |- _ => apply bool_decide_eq_true in H
  | H : bool_decide _ = false |- _ => apply bool_decide_eq_false in H
  end.

(** Whether a pointer is not nil. *)
Definition found {V} (o : option V) : bool := match o with Some _ => true | None => false end.

Lemma found_false {V} (o : option V) : found o = false <-> o = None.
Proof. by destruct o. Qed.
Lemma found_true {V} (o : option V) : found o = true <-> exists v, o = Some v.
Proof. destruct o as [v|]; (split; [|by intros [v' Hv]]); [by exists v|done]. Qed.

Lemma Forall2_elem_r {A B} (P : A -> B -> Prop) l k y : Forall2 P l k -> y ∈ k -> exists x, x ∈ l /\ P x y.
Proof.
  induction 1 as [|x y' l k Hxy Hl IH]; intros Hy; [by apply not_elem_of_nil in Hy|].
  apply elem_of_cons in Hy as [->|Hin]; [by exists x; split; [left|]|].
  destruct (IH Hin) as (z & Hz & HP). exists z. by split; [right|].
Qed.

(** ** Strings as map keys and list members *)

Definition mem_str (x : string) (l : list string) : bool := existsb (String.eqb x) l.

Lemma mem_str_In x l : mem_str x l = true <-> x ∈ l.
Proof.
  unfold mem_str. rewrite existsb_exists. split.
  - intros (y & Hy & Heq). apply String.eqb_eq in Heq as ->. by apply list_elem_of_In.
  - intros Hx. exists x. split; [by apply list_elem_of_In|]. apply String.eqb_refl.
Qed.

Lemma mem_str_not_In x l : mem_str x l = false <-> x ∉ l.
Proof. rewrite <-mem_str_In. by destruct (mem_str x l). Qed.

(** The empty string is Go's zero value; [ptr_or_empty] reads a [*string]. *)
Definition str_empty (s : string) : bool := String.eqb s EmptyString.

Lemma str_empty_true s : str_empty s = true <-> s = EmptyString.
Proof. apply String.eqb_eq. Qed.
Lemma str_empty_false s : str_empty s = false <-> s <> EmptyString.
Proof. apply String.eqb_neq. Qed.

(** ** Stable sorting: [sort.SliceStable] and, on total orders, [sort.Slice]

    [less] is the comparison closure of the call.  [sort_stable] is the
    insertion sort that keeps equal elements in order; for a strict weak order
    its result is the only stable sort. *)

Class StrictWeak {A} (less : A -> A -> bool) : Prop := {
  less_irrefl x : less x x = false;
  less_trans x y z : less x y = true -> less y z = true -> less x z = true;
  less_negtrans x y z : less x y = false -> less y z = false -> less x z = false
}.

#[export] Hint Mode StrictWeak - ! : typeclass_instances.

Section StableSort.
Context {A : Type} (less : A -> A -> bool).

Fixpoint insert_stable (x : A) (l : list A) : list A :=
  match l with
  | [] => [x]
  | y :: l' => if less y x then y :: insert_stable x l' else x :: l
  end.

Definition sort_stable (l : list A) : list A := foldr insert_stable [] l.

(** No element is less than an earlier one. *)
Definition sorted_by : list A -> Prop := StronglySorted (fun x y => less y x = false).

Lemma insert_stable_perm x l : insert_stable x l ≡ₚ x :: l.
Proof.
  induction l as [|y l IH]; cbn; [done|]. destruct (less y x); [|done].
  rewrite IH. apply Permutation_swap.
Qed.

Lemma sort_stable_perm l : sort_stable l ≡ₚ l.
Proof. induction l as [|x l IH]; cbn; [done|]. by rewrite insert_stable_perm, IH. Qed.

Lemma sort_stable_elem x l : x ∈ sort_stable l <-> x ∈ l.
Proof. by rewrite sort_stable_perm. Qed.

Lemma sort_stable_length l : length (sort_stable l) = length l.
Proof. apply Permutation_length, sort_stable_perm. Qed.

Context `{!StrictWeak less}.

Lemma less_asym x y : less x y = true -> less y x = false.
Proof.
  intros Hxy. destruct (less y x) eqn:E; [|done].
  pose proof (less_trans x y x Hxy E) as Hxx. by rewrite less_irrefl in Hxx.
Qed.

Lemma insert_stable_sorted x l : sorted_by l -> sorted_by (insert_stable x l).
Proof.
  induction 1 as [|y l Hl IH Hy]; cbn; [by repeat constructor|].
  destruct (less y x) eqn:E.
  - constructor; [done|]. rewrite insert_stable_perm. constructor; [|done].
    by apply less_asym.
  - constructor; [by constructor|]. constructor; [done|].
    eapply Forall_impl; [exact Hy|]. intros z Hz. by apply (less_negtrans z y x).
Qed.

Lemma sort_stable_sorted l : sorted_by (sort_stable l).
Proof. induction l; cbn; [constructor|]. by apply insert_stable_sorted. Qed.

(** A sorted list is a fixed point of the sort. *)
Lemma sort_stable_id l : sorted_by l -> sort_stable l = l.
Proof.
  unfold sort_stable. induction 1 as [|x l Hl IH Hx]; [done|]. cbn. rewrite IH.
  destruct l as [|y l]; [done|]. cbn. inversion Hx as [|?? Hyx]. by rewrite Hyx.
Qed.

(** Sorting first changes nothing, and filtering commutes with sorting. *)
Lemma insert_stable_comm x y l :
  less y x = true -> insert_stable x (insert_stable y l) = insert_stable y (insert_stable x l).
Proof.
  intros Hyx. induction l as [|z l IH]; cbn.
  - by rewrite Hyx, less_asym.
  - destruct (less z y) eqn:Ezy; cbn.
    + rewrite (less_trans z y x) by done. cbn. by rewrite Ezy, IH.
    + rewrite Hyx. destruct (less z x) eqn:Ezx; cbn; [by rewrite Ezy|].
      by rewrite less_asym.
Qed.

Lemma sort_stable_app l m : sort_stable (l ++ m) = foldr insert_stable (sort_stable m) l.
Proof. apply foldr_app. Qed.

Lemma foldr_insert_stable x l s :
  foldr insert_stable s (insert_stable x l) = insert_stable x (foldr insert_stable s l).
Proof.
  induction l as [|y l IH]; cbn; [done|]. destruct (less y x) eqn:E; [|done].
  cbn. rewrite IH. symmetry. by apply insert_stable_comm.
Qed.

Lemma sort_stable_app_sort l m : sort_stable (sort_stable l ++ m) = sort_stable (l ++ m).
Proof.
  rewrite !sort_stable_app. induction l as [|x l IH]; [done|].
  change (sort_stable (x :: l)) with (insert_stable x (sort_stable l)).
  by rewrite foldr_insert_stable, IH.
Qed.

Lemma filter_insert_stable p x l :
  sorted_by l ->
  List.filter p (insert_stable x l) =
  if p x then insert_stable x (List.filter p l) else List.filter p l.
Proof.
  induction 1 as [|y l Hl IH Hy]; cbn; [done|]. destruct (less y x) eqn:E; cbn.
  - rewrite IH. destruct (p x), (p y); cbn; by rewrite ?E.
  - destruct (p x) eqn:Ex; [|done]. destruct (p y); cbn; [by rewrite E|].
    assert (Forall (fun z => less z x = false) (List.filter p l)) as Hz.
    { apply Forall_forall. intros z Hz. rewrite list_elem_of_In, List.filter_In, <-list_elem_of_In in Hz.
      rewrite Forall_forall in Hy. apply (less_negtrans z y x); [apply Hy, Hz|done]. }
    destruct Hz as [|z l' Hz _]; cbn; [done|by rewrite Hz].
Qed.

Lemma filter_sort_stable p l : List.filter p (sort_stable l) = sort_stable (List.filter p l).
Proof.
  induction l as [|x l IH]; [done|].
  change (sort_stable (x :: l)) with (insert_stable x (sort_stable l)).
  rewrite filter_insert_stable, IH by apply sort_stable_sorted. cbn. by destruct (p x).
Qed.

(** Two groups no two elements of which tie can be listed in either order. *)
Lemma sort_stable_swap l m :
  (forall x y, x ∈ l -> y ∈ m -> less x y = true \/ less y x = true) ->
  sort_stable (l ++ m) = sort_stable (m ++ l).
Proof.
  intros Hlm. rewrite !sort_stable_app. revert m Hlm. induction l as [|x l IH]; intros m Hlm; cbn.
  - by induction m as [|y m IH]; cbn; rewrite <-?IH by (intros ?? H; inversion H).
  - rewrite IH by (intros; apply Hlm; [by right|done]). clear IH.
    induction m as [|y m IH]; cbn; [done|].
    destruct (Hlm x y) as [E|E]; [left|left|..].
    + rewrite <-insert_stable_comm by done. rewrite IH; [done|]. intros; apply Hlm; [done|by right].
    + rewrite insert_stable_comm by done. rewrite IH; [done|]. intros; apply Hlm; [done|by right].
Qed.

(** Searching the sorted list finds the least hit, the earliest among equals. *)
Definition better (p : A -> bool) (x : A) (best : option A) : option A :=
  if p x then
    match best with
    | Some y => if less y x then Some y else Some x
    | None => Some x
    end
  else best.
Definition best_hit (p : A -> bool) (l : list A) : option A := foldr (better p) None l.

Lemma best_hit_cons p x l : best_hit p (x :: l) = better p x (best_hit p l).
Proof. done. Qed.

Lemma find_insert_stable p x l :
  sorted_by l -> List.find p (insert_stable x l) = better p x (List.find p l).
Proof.
  unfold better. induction 1 as [|y l Hl IH Hy]; cbn; [by destruct (p x)|].
  destruct (less y x) eqn:E; cbn.
  - destruct (p y) eqn:Epy; [|exact IH]. rewrite E. by destruct (p x).
  - destruct (p x) eqn:Epx, (p y) eqn:Epy; cbn; try rewrite E; try done.
    destruct (List.find p l) as [z|] eqn:Ez; [|done].
    apply List.find_some in Ez as [Hz _]. rewrite Forall_forall in Hy.
    rewrite (less_negtrans z y x); [done| |done]. apply Hy. by apply list_elem_of_In.
Qed.

Lemma find_sort_stable p l : List.find p (sort_stable l) = best_hit p l.
Proof.
  induction l as [|x l IH]; [done|].
  change (sort_stable (x :: l)) with (insert_stable x (sort_stable l)).
  rewrite find_insert_stable by apply sort_stable_sorted. by rewrite IH.
Qed.

(** What [best_hit] is: a hit such that no hit is less, and none of the
    earlier elements is an equally good hit. *)
Lemma best_hit_Some p l x :
  best_hit p l = Some x ->
  exists pre post, l = pre ++ x :: post /\ p x = true /\
    Forall (fun y => p y = true -> less x y = true) pre /\
    Forall (fun y => p y = true -> less y x = false) post.
Proof.
  revert x. induction l as [|a l IH]; intros x; [done|]. rewrite best_hit_cons. unfold better.
  destruct (best_hit p l) as [y|] eqn:Ey.
  - destruct (IH y eq_refl) as (pre & post & -> & Hpy & Hpre & Hpost).
    destruct (p a) eqn:Epa; [destruct (less y a) eqn:Eya|]; intros Hx; injection Hx as Hx; subst x.
    + exists (a :: pre), post. repeat split; try done. by constructor.
    + exists [], (pre ++ y :: post). repeat split; [done|constructor|].
      assert (forall z, less z y = false -> less z a = false) as Hz
        by (intros z Hz; by apply (less_negtrans z y a)).
      apply Forall_app. split; [|constructor; [done|]].
      * eapply Forall_impl; [exact Hpre|]. intros z Hzp Hpz. apply Hz, less_asym; auto.
      * eapply Forall_impl; [exact Hpost|]. intros z Hzp Hpz. apply Hz; auto.
    + exists (a :: pre), post. repeat split; try done. constructor; [|done]. congruence.
  - destruct (p a) eqn:Epa; intros Hx; [injection Hx as Hx; subst x|done]. exists [], l. repeat split; [done|constructor|].
    clear IH. induction l as [|z l IH]; [constructor|]. rewrite best_hit_cons in Ey.
    unfold better in Ey.
    destruct (p z) eqn:Epz; [by repeat case_match|]. constructor; [congruence|auto].
Qed.

Lemma best_hit_None p l : best_hit p l = None <-> Forall (fun y => p y = false) l.
Proof.
  induction l as [|a l IH]; [done|]. rewrite best_hit_cons. unfold better.
  rewrite Forall_cons, <-IH. destruct (p a); [|tauto].
  split; [|by intros [? _]]. by repeat case_match.
Qed.
End StableSort.

#[global] Hint Resolve sort_stable_sorted : uig.
#[export] Hint Rewrite @sort_stable_elem @sort_stable_length : gostr.

(** Orders by an integer key, and lexicographic refinement. *)
Definition by_key {A} (key : A -> Z) (x y : A) : bool := (key x <? key y)%Z.

#[export] Instance by_key_strict_weak {A} (key : A -> Z) : StrictWeak (by_key key).
Proof. split; unfold by_key; intros; bool_to_prop; lia. Qed.

(** The order of Go's [<] on strings: bytes, left to right. *)
Definition str_less (s t : string) : bool := String.ltb s t.

Lemma ascii_compare_refl a : Ascii.compare a a = Eq.
Proof. apply N.compare_refl. Qed.
Lemma string_compare_refl s : String.compare s s = Eq.
Proof. induction s as [|a s IH]; cbn; [done|]. by rewrite ascii_compare_refl. Qed.

Lemma ascii_compare_lt_trans a b c :
  Ascii.compare a b = Lt -> Ascii.compare b c = Lt -> Ascii.compare a c = Lt.
Proof. unfold Ascii.compare. rewrite !N.compare_lt_iff. apply N.lt_trans. Qed.

Lemma string_compare_lt_trans s : forall t u,
  String.compare s t = Lt -> String.compare t u = Lt -> String.compare s u = Lt.
Proof.
  induction s as [|a s IH]; intros [|b t] [|c u]; cbn; try done.
  destruct (Ascii.compare a b) eqn:Eab; try done;
    destruct (Ascii.compare b c) eqn:Ebc; try done; intros Hst Htu.
  - apply Ascii.compare_eq_iff in Eab as ->, Ebc as ->.
    rewrite ascii_compare_refl. eauto.
  - apply Ascii.compare_eq_iff in Eab as ->. by rewrite Ebc.
  - apply Ascii.compare_eq_iff in Ebc as ->. by rewrite Eab.
  - by rewrite (ascii_compare_lt_trans a b c).
Qed.

Lemma str_less_iff s t : str_less s t = true <-> String.compare s t = Lt.
Proof. unfold str_less, String.ltb. by destruct (String.compare s t). Qed.

Lemma str_less_total s t : str_less s t = false -> s = t \/ str_less t s = true.
Proof.
  unfold str_less, String.ltb. rewrite (String.compare_antisym t s).
  destruct (String.compare s t) eqn:E; cbn; try done; auto.
  apply String.compare_eq_iff in E. auto.
Qed.

#[export] Instance str_less_strict_weak : StrictWeak str_less.
Proof.
  assert (forall x, str_less x x = false) as Hirr.
  { intros x. unfold str_less, String.ltb. by rewrite string_compare_refl. }
  assert (forall x y z, str_less x y = true -> str_less y z = true -> str_less x z = true) as Htr.
  { intros x y z. rewrite !str_less_iff. apply string_compare_lt_trans. }
  split; [done|done|]. intros x y z Hxy Hyz.
  destruct (str_less x z) eqn:Hxz; [|done]. symmetry.
  destruct (str_less_total _ _ Hxy) as [->|Hyx]; [congruence|].
  by rewrite <-Hyz, (Htr y x z).
Qed.

(** Orders by a string key, alone or before another order. *)
Lemma by_str_strict {A} (key : A -> string) : StrictWeak (fun x y => str_less (key x) (key y)).
Proof. split; intros *; [apply less_irrefl|apply less_trans|apply less_negtrans]. Qed.

Lemma str_lex_strict {A} (key : A -> string) (less : A -> A -> bool) :
  StrictWeak less ->
  StrictWeak (fun x y => if negb (String.eqb (key x) (key y)) then str_less (key x) (key y) else less x y).
Proof.
  intros Hless. split.
  - intros x. rewrite String.eqb_refl. apply less_irrefl.
  - intros x y z. destruct (String.eqb_spec (key x) (key y)) as [->|Hxy];
      destruct (String.eqb_spec (key y) (key z)) as [Hyz|Hyz]; cbn [negb]; try rewrite <-Hyz.
    + apply less_trans.
    + done.
    + by destruct (String.eqb_spec (key x) (key y)).
    + intros H1 H2. pose proof (less_trans _ _ _ H1 H2) as H3.
      destruct (String.eqb_spec (key x) (key z)) as [He|]; [|done].
      by rewrite He, less_irrefl in H3.
  - intros x y z. destruct (String.eqb_spec (key x) (key y)) as [->|Hxy];
      destruct (String.eqb_spec (key y) (key z)) as [Hyz|Hyz]; cbn [negb]; try rewrite <-Hyz.
    + apply less_negtrans.
    + done.
    + by destruct (String.eqb_spec (key x) (key y)).
    + intros H1 H2. pose proof (less_negtrans _ _ _ H1 H2) as H3.
      destruct (String.eqb_spec (key x) (key z)) as [He|]; [|done].
      destruct (str_less_total _ _ H1) as [?|H1']; [done|].
      destruct (str_less_total _ _ H2) as [?|H2']; [done|].
      rewrite He in H1'. by rewrite (less_asym _ _ _ H1') in H2'.
Qed.
