(* ===== verification/GoStrings.v ===== *)
(** * GoStrings: the parts of Go's [strings] package the program uses

    Go strings are byte strings; a [string] here is a sequence of bytes.
    Every function below is total and executable.  Case mapping of non-ASCII
    strings depends on the Unicode tables of the Go release: it is the class
    [UnicodeCase], an argument of [ToLower] and [ToUpper], and the theorems of
    the development hold for every instance. *)

From S2P Require Import Prelude.

(** ** Prefixes, suffixes, substrings *)

Definition HasPrefix (s p : string) : bool := String.prefix p s.

Fixpoint HasSuffix (s p : string) : bool :=
  String.eqb s p || match s with
                    | EmptyString => false
                    | String _ s' => HasSuffix s' p
                    end.

Fixpoint Contains (s sub : string) : bool :=
  String.prefix sub s || match s with
                         | EmptyString => false
                         | String _ s' => Contains s' sub
                         end.

(** [strip_prefix p s] is the rest of [s] after the prefix [p]. *)
Fixpoint strip_prefix (p s : string) : option string :=
  match p, s with
  | EmptyString, _ => Some s
  | String a p', String b s' => if Ascii.eqb a b then strip_prefix p' s' else None
  | String _ _, EmptyString => None
  end.

Definition TrimPrefix (s p : string) : string :=
  match strip_prefix p s with Some r => r | None => s end.

Fixpoint rev_string_app (s acc : string) : string :=
  match s with
  | EmptyString => acc
  | String a s' => rev_string_app s' (String a acc)
  end.
Definition rev_string (s : string) : string := rev_string_app s EmptyString.
#[global] Arguments rev_string : simpl never.

(** ** Splitting at a one-byte separator *)

(** [strings.Cut]: the text before and after the first [sep], and whether it
    occurs. *)
Fixpoint Cut (s : string) (sep : ascii) : string * string * bool :=
  match s with
  | EmptyString => (EmptyString, EmptyString, false)
  | String a s' =>
      if Ascii.eqb a sep then (EmptyString, s', true)
      else let '(b, r, ok) := Cut s' sep in (String a b, r, ok)
  end.

(** [strings.Split] with a one-byte separator: never the empty list. *)
Fixpoint Split (s : string) (sep : ascii) : list string :=
  match s with
  | EmptyString => [EmptyString]
  | String a s' =>
      if Ascii.eqb a sep then EmptyString :: Split s' sep
      else match Split s' sep with
           | [] => [String a EmptyString]
           | w :: ws => String a w :: ws
           end
  end.

(** [strings.SplitN(s, sep, 2)]. *)
Definition SplitN2 (s : string) (sep : ascii) : list string :=
  let '(b, r, ok) := Cut s sep in if ok then [b; r] else [s].

(** [strings.Join]. *)
Fixpoint Join (ws : list string) (sep : string) : string :=
  match ws with
  | [] => EmptyString
  | [w] => w
  | w :: ws' => w +:+ sep +:+ Join ws' sep
  end.

(** [strings.LastIndex] of a one-byte string; [None] is Go's -1. *)
Fixpoint LastIndexByte (s : string) (c : ascii) : option nat :=
  match s with
  | EmptyString => None
  | String a s' =>
      match LastIndexByte s' c with
      | Some i => Some (S i)
      | None => if Ascii.eqb a c then Some 0 else None
      end
  end.

(** [s[n:]] for [n <= len(s)]. *)
Fixpoint drop_bytes (n : nat) (s : string) : string :=
  match n, s with
  | O, _ => s
  | S n', String _ s' => drop_bytes n' s'
  | S _, EmptyString => EmptyString
  end.

Fixpoint take_bytes (n : nat) (s : string) : string :=
  match n, s with
  | S n', String a s' => String a (take_bytes n' s')
  | _, _ => EmptyString
  end.

(** ** Trimming *)

Definition byte_of (n : nat) : ascii := ascii_of_nat n.
Definition str_of (bs : list nat) : string :=
  foldr (fun n acc => String (byte_of n) acc) EmptyString bs.

(** The UTF-8 encodings of the runes with Unicode property White_Space, the
    test [unicode.IsSpace] that [strings.TrimSpace] applies.  Each encoding
    starts with a byte no other one continues with, so stripping encodings
    byte-wise and decoding runes agree at both ends of a string. *)
Definition space_encodings : list string :=
  map str_of
    ([[9]; [10]; [11]; [12]; [13]; [32]; [194; 133]; [194; 160]; [225; 154; 128]]
     ++ map (fun k => [226; 128; 128 + k]) (seq 0 11)
     ++ [[226; 128; 168]; [226; 128; 169]; [226; 128; 175]; [226; 129; 159];
         [227; 128; 128]]).

Fixpoint strip_any (ps : list string) (s : string) : option string :=
  match ps with
  | [] => None
  | p :: ps' => match strip_prefix p s with
                | Some r => Some r
                | None => strip_any ps' s
                end
  end.

Fixpoint strip_all (fuel : nat) (ps : list string) (s : string) : string :=
  match fuel with
  | O => s
  | S f => match strip_any ps s with
           | Some r => strip_all f ps r
           | None => s
           end
  end.

Definition TrimLeftSpace (s : string) : string :=
  strip_all (String.length s) space_encodings s.
Definition TrimRightSpace (s : string) : string :=
  rev_string (strip_all (String.length s) (map rev_string space_encodings) (rev_string s)).
Definition TrimSpace (s : string) : string := TrimRightSpace (TrimLeftSpace s).

(** [time.Parse(time.RFC3339, s)], in nanoseconds. *)
Class TimeParser := { ParseRFC3339 : string -> option Z }.

(** [strings.TrimLeft]/[TrimRight]/[Trim] with a cutset of one ASCII byte. *)
Fixpoint TrimLeftByte (s : string) (c : ascii) : string :=
  match s with
  | EmptyString => EmptyString
  | String a s' => if Ascii.eqb a c then TrimLeftByte s' c else s
  end.
Definition TrimRightByte (s : string) (c : ascii) : string :=
  rev_string (TrimLeftByte (rev_string s) c).
Definition TrimByte (s : string) (c : ascii) : string :=
  TrimRightByte (TrimLeftByte s c) c.

(** ** Case *)

Definition in_range (lo hi : nat) (a : ascii) : bool :=
  (lo <=? nat_of_ascii a) && (nat_of_ascii a <=? hi).
Definition is_ascii (a : ascii) : bool := nat_of_ascii a <? 128.
Definition is_lower (a : ascii) : bool := in_range 97 122 a.
Definition is_upper (a : ascii) : bool := in_range 65 90 a.
Definition is_digit (a : ascii) : bool := in_range 48 57 a.
Definition lower_byte (a : ascii) : ascii :=
  if is_upper a then ascii_of_nat (nat_of_ascii a + 32) else a.
Definition upper_byte (a : ascii) : ascii :=
  if is_lower a then ascii_of_nat (nat_of_ascii a - 32) else a.

Fixpoint forall_byte (p : ascii -> bool) (s : string) : bool :=
  match s with
  | EmptyString => true
  | String a s' => p a && forall_byte p s'
  end.
Fixpoint exists_byte (p : ascii -> bool) (s : string) : bool :=
  match s with
  | EmptyString => false
  | String a s' => p a || exists_byte p s'
  end.
Fixpoint map_bytes (f : ascii -> ascii) (s : string) : string :=
  match s with
  | EmptyString => EmptyString
  | String a s' => String (f a) (map_bytes f s')
  end.

(** Case mapping of strings with a non-ASCII rune. *)
Class UnicodeCase := {
  unicode_lower : string -> string;
  unicode_upper : string -> string
}.

(** Go's functions take the ASCII path exactly when every byte is ASCII. *)
Definition ToLower `{UnicodeCase} (s : string) : string :=
  if forall_byte is_ascii s then map_bytes lower_byte s else unicode_lower s.
Definition ToUpper `{UnicodeCase} (s : string) : string :=
  if forall_byte is_ascii s then map_bytes upper_byte s else unicode_upper s.

(** [strings.EqualFold(s, t)] for an ASCII [t] without the letters k and s
    (the only ones a non-ASCII rune folds to). *)
Definition EqualFold (s t : string) : bool :=
  String.eqb (map_bytes lower_byte s) (map_bytes lower_byte t).

(** An instance for closed examples: non-ASCII strings are left alone. *)
Definition ascii_only_case : UnicodeCase :=
  {| unicode_lower := id; unicode_upper := id |}.

(** ** Hexadecimal *)

Definition hex_digit (n : N) : ascii :=
  if (n <? 10)%N then ascii_of_N (48 + n) else ascii_of_N (87 + n).
(** [hex.EncodeToString]: two lower-case digits per byte. *)
Definition hex_byte (b : N) : string :=
  String (hex_digit (b / 16)) (String (hex_digit (b mod 16)) EmptyString).
Definition hex_encode (bs : list N) : string :=
  foldr (fun b acc => hex_byte b +:+ acc) EmptyString bs.
Definition is_lower_hex (a : ascii) : bool := is_digit a || in_range 97 102 a.

(** [hex.DecodeString]: digits of either case, two per byte. *)
Definition hex_value (a : ascii) : option N :=
  let n := N_of_ascii a in
  if is_digit a then Some (n - 48)%N
  else if in_range 97 102 a then Some (n - 87)%N
  else if in_range 65 70 a then Some (n - 55)%N
  else None.
Fixpoint hex_decode (s : string) : option (list N) :=
  match s with
  | EmptyString => Some []
  | String a (String b s') =>
      match hex_value a, hex_value b, hex_decode s' with
      | Some x, Some y, Some l => Some ((16 * x + y)%N :: l)
      | _, _, _ => None
      end
  | _ => None
  end.

(** ** Quoting *)

(** [strconv.Quote] on text whose non-ASCII characters are printable. *)
Definition quote_byte (a : ascii) : string :=
  let n := N_of_ascii a in
  let esc (c : N) := String (ascii_of_N 92) (String (ascii_of_N c) EmptyString) in
  if N.eqb n 34 || N.eqb n 92 then esc n
  else if N.eqb n 7 then esc 97%N else if N.eqb n 8 then esc 98%N else if N.eqb n 12 then esc 102%N
  else if N.eqb n 10 then esc 110%N else if N.eqb n 13 then esc 114%N else if N.eqb n 9 then esc 116%N
  else if N.eqb n 11 then esc 118%N
  else if (n <? 32)%N || N.eqb n 127
  then String (ascii_of_N 92) (String (ascii_of_N 120) (hex_byte n))
  else String a EmptyString.
Fixpoint quote_body (s : string) : string :=
  match s with EmptyString => EmptyString | String a s' => quote_byte a +:+ quote_body s' end.
Definition Quote (s : string) : string :=
  let q := String (ascii_of_N 34) EmptyString in q +:+ quote_body s +:+ q.

(** ** Decimal printing *)

(** [strconv.Itoa] / [%d]. *)
Definition Itoa (z : Z) : string := pretty z.

(** [strconv.Atoi]: an optional sign, then digits; [None] on a syntax or range error. *)
Fixpoint digits_value (acc : Z) (s : string) : option Z :=
  match s with
  | EmptyString => Some acc
  | String a s' => if is_digit a then digits_value (acc * 10 + (Z.of_N (N_of_ascii a) - 48))%Z s' else None
  end.
Definition Atoi (s : string) : option Z :=
  let '(neg, digits) := match s with
                        | String a s' => if Ascii.eqb a "-" then (true, s')
                                         else if Ascii.eqb a "+" then (false, s') else (false, s)
                        | EmptyString => (false, s)
                        end in
  if str_empty digits then None
  else match digits_value 0 digits with
       | None => None
       | Some n => let v := if neg then (- n)%Z else n in
                   if ((- 2 ^ 63 <=? v) && (v <=? 2 ^ 63 - 1))%Z then Some v else None
       end.

(** ** Lemmas *)

Lemma append_nil_r (s : string) : s +:+ EmptyString = s.
Proof. induction s as [|a s IH]; [done|]. cbn. by rewrite IH. Qed.

Lemma append_assoc (s t u : string) : (s +:+ t) +:+ u = s +:+ t +:+ u.
Proof. induction s as [|a s IH]; [done|]. cbn. by rewrite IH. Qed.

Lemma length_append (s t : string) :
  String.length (s +:+ t) = String.length s + String.length t.
Proof. induction s as [|a s IH]; [done|]. cbn. by rewrite IH. Qed.

Lemma eqb_refl_str (s : string) : String.eqb s s = true.
Proof. by apply String.eqb_eq. Qed.

Lemma strip_prefix_Some p s r : strip_prefix p s = Some r <-> s = p +:+ r.
Proof.
  revert s. induction p as [|a p IH]; intros s; cbn; [split; congruence|].
  destruct s as [|b s]; [split; congruence|].
  destruct (Ascii.eqb_spec a b) as [->|Hne]; [rewrite IH|]; split; congruence.
Qed.

Lemma HasPrefix_iff s p : HasPrefix s p = true <-> exists r, s = p +:+ r.
Proof.
  unfold HasPrefix. revert s. induction p as [|a p IH]; intros s; cbn.
  - destruct s; split; eauto.
  - destruct s as [|b s]; cbn; [split; [done|by intros [r ?]]|].
    destruct (ascii_dec a b) as [->|Hne].
    + rewrite IH. split; intros [r Hr]; exists r; congruence.
    + split; [done|]. intros [r Hr]. congruence.
Qed.

Lemma HasSuffix_nil p : HasSuffix EmptyString p = String.eqb EmptyString p.
Proof. destruct p; reflexivity. Qed.
Lemma HasSuffix_cons a s p :
  HasSuffix (String a s) p = String.eqb (String a s) p || HasSuffix s p.
Proof. reflexivity. Qed.
Lemma Contains_nil p : Contains EmptyString p = HasPrefix EmptyString p.
Proof. destruct p; reflexivity. Qed.
Lemma Contains_cons a s p :
  Contains (String a s) p = HasPrefix (String a s) p || Contains s p.
Proof. reflexivity. Qed.

Lemma HasSuffix_iff s p : HasSuffix s p = true <-> exists r, s = r +:+ p.
Proof.
  induction s as [|a s IH].
  - rewrite HasSuffix_nil, String.eqb_eq. split.
    + intros <-. by exists EmptyString.
    + intros [[|??] Hr]; [done|by inversion Hr].
  - rewrite HasSuffix_cons, orb_true_iff, String.eqb_eq, IH. split.
    + intros [<-|[r ->]]; [by exists EmptyString|by exists (String a r)].
    + intros [[|b r] Hr]; [by left|]. right. exists r. by inversion Hr.
Qed.

Lemma Contains_iff s p : Contains s p = true <-> exists l r, s = l +:+ p +:+ r.
Proof.
  induction s as [|a s IH].
  - rewrite Contains_nil, HasPrefix_iff. split.
    + intros [r Hr]. by exists EmptyString, r.
    + intros ([|??] & r & Hr); [by exists r|by inversion Hr].
  - rewrite Contains_cons, orb_true_iff, IH, HasPrefix_iff. split.
    + intros [[r Hr]|(l & r & ->)]; [by exists EmptyString, r|by exists (String a l), r].
    + intros ([|b l] & r & Hr); [left; by exists r|]. right. exists l, r. by inversion Hr.
Qed.

(** What [Cut] returns determines the string, and the text before the
    separator does not contain it. *)
Lemma Cut_true s sep b r :
  Cut s sep = (b, r, true) <->
  s = b +:+ String sep r /\ exists_byte (Ascii.eqb sep) b = false.
Proof.
  revert b r. induction s as [|a s IH]; intros b r; cbn.
  - split; [done|]. intros [Hs _]. destruct b; done.
  - destruct (Ascii.eqb_spec a sep) as [->|Hne].
    + split; [intros [= <- <-]; done|]. intros [Hs Hb]. destruct b as [|c b]; cbn in *.
      * congruence.
      * injection Hs as -> ->. by rewrite Ascii.eqb_refl in Hb.
    + destruct (Cut s sep) as [[b' r'] ok] eqn:E. split.
      * intros [= <- <- ->]. destruct (IH b' r') as [H1 _].
        destruct (H1 eq_refl) as [-> Hb]. split; [done|]. cbn.
        rewrite Hb, orb_false_r. apply Ascii.eqb_neq. congruence.
      * intros [Hs Hb]. destruct b as [|c b]; cbn in *; [congruence|].
        injection Hs as -> Hs. apply orb_false_iff in Hb as [_ Hb].
        destruct (IH b r) as [_ H2]. by injection (H2 (conj Hs Hb)) as -> -> ->.
Qed.

Lemma Cut_false s sep b r :
  Cut s sep = (b, r, false) -> b = s /\ exists_byte (Ascii.eqb sep) s = false.
Proof.
  revert b r. induction s as [|a s IH]; intros b r; cbn; [by intros [= <- <-]|].
  destruct (Ascii.eqb_spec a sep) as [->|Hne]; [done|].
  destruct (Cut s sep) as [[b' r'] ok] eqn:E. intros [= <- <- ->].
  destruct (IH b' r' eq_refl) as [-> Hs]. split; [done|].
  rewrite Hs, orb_false_r. apply Ascii.eqb_neq. congruence.
Qed.

Lemma Cut_before s sep b r ok :
  Cut s sep = (b, r, ok) -> exists_byte (Ascii.eqb sep) b = false.
Proof.
  destruct ok; intros E.
  - by apply Cut_true in E as [_ ?].
  - by apply Cut_false in E as [-> ?].
Qed.

Lemma Cut_append s sep t :
  exists_byte (Ascii.eqb sep) s = false -> Cut (s +:+ String sep t) sep = (s, t, true).
Proof. intros Hs. by apply Cut_true. Qed.

Lemma Split_nonempty s sep : Split s sep <> [].
Proof. destruct s as [|a s]; cbn; [done|]. repeat case_match; done. Qed.

(** [Join] of [Split] is the identity. *)
Lemma Join_Split s sep : Join (Split s sep) (String sep EmptyString) = s.
Proof.
  induction s as [|a s IH]; cbn; [done|].
  destruct (Ascii.eqb_spec a sep) as [->|Hne].
  - destruct (Split s sep) as [|w ws] eqn:E; [by destruct (Split_nonempty s sep)|].
    cbn. cbn in IH. by rewrite IH.
  - destruct (Split s sep) as [|w ws] eqn:E; [by destruct (Split_nonempty s sep)|].
    destruct ws as [|w' ws]; cbn in *; by rewrite IH.
Qed.

Lemma Split_pieces s sep :
  Forall (fun w => exists_byte (Ascii.eqb sep) w = false) (Split s sep).
Proof.
  induction s as [|a s IH]; cbn; [by constructor|].
  destruct (Ascii.eqb_spec a sep) as [->|Hne]; [by constructor|].
  destruct (Split s sep) as [|w ws]; [constructor; [|done]|].
  - cbn. rewrite orb_false_r. apply Ascii.eqb_neq. congruence.
  - inversion IH; subst. constructor; [|done]. cbn.
    apply orb_false_iff. split; [|done]. apply Ascii.eqb_neq. congruence.
Qed.

Lemma forall_byte_append p s t :
  forall_byte p (s +:+ t) = forall_byte p s && forall_byte p t.
Proof. induction s as [|a s IH]; cbn; [done|]. by rewrite IH, andb_assoc. Qed.

Lemma exists_byte_append p s t :
  exists_byte p (s +:+ t) = exists_byte p s || exists_byte p t.
Proof. induction s as [|a s IH]; cbn; [done|]. by rewrite IH, orb_assoc. Qed.

Lemma rev_string_app_length s acc :
  String.length (rev_string_app s acc) = String.length s + String.length acc.
Proof. revert acc. induction s as [|a s IH]; intros acc; cbn; [done|]. rewrite IH. cbn. lia. Qed.

Lemma rev_string_length s : String.length (rev_string s) = String.length s.
Proof. unfold rev_string. rewrite rev_string_app_length. cbn. lia. Qed.

Lemma rev_string_app_spec s acc : rev_string_app s acc = rev_string s +:+ acc.
Proof.
  unfold rev_string. revert acc. induction s as [|a s IH]; intros acc; cbn; [done|].
  rewrite IH, (IH (String a EmptyString)), append_assoc. done.
Qed.

Lemma rev_string_cons a s : rev_string (String a s) = rev_string s +:+ String a EmptyString.
Proof. unfold rev_string at 1. cbn. by rewrite rev_string_app_spec. Qed.

Lemma rev_string_append s t : rev_string (s +:+ t) = rev_string t +:+ rev_string s.
Proof.
  induction s as [|a s IH]; cbn.
  - by rewrite append_nil_r.
  - rewrite !rev_string_cons, IH, append_assoc. done.
Qed.

Lemma rev_string_involutive s : rev_string (rev_string s) = s.
Proof.
  induction s as [|a s IH]; [done|].
  by rewrite rev_string_cons, rev_string_append, IH.
Qed.

Lemma forall_byte_rev p s : forall_byte p (rev_string s) = forall_byte p s.
Proof.
  induction s as [|a s IH]; [done|].
  rewrite rev_string_cons, forall_byte_append, IH. cbn. rewrite andb_true_r. apply andb_comm.
Qed.

Lemma forall_byte_impl (p q : ascii -> bool) s :
  (forall a, p a = true -> q a = true) -> forall_byte p s = true -> forall_byte q s = true.
Proof.
  intros Hpq. induction s as [|a s IH]; cbn; [done|].
  rewrite !andb_true_iff. intros [??]. auto.
Qed.

Lemma map_bytes_length f s : String.length (map_bytes f s) = String.length s.
Proof. induction s as [|a s IH]; cbn; [done|]. by rewrite IH. Qed.

Lemma hex_encode_length bs : String.length (hex_encode bs) = 2 * length bs.
Proof.
  induction bs as [|b bs IH]; [done|].
  change (hex_encode (b :: bs)) with (hex_byte b +:+ hex_encode bs).
  rewrite length_append, IH. cbn. lia.
Qed.

Lemma hex_digit_is_hex n : (n < 16)%N -> is_lower_hex (hex_digit n) = true.
Proof.
  intros Hn.
  assert (forallb (fun n => is_lower_hex (hex_digit n)) (map N.of_nat (seq 0 16)) = true)
    as Hall by (vm_compute; reflexivity).
  rewrite forallb_forall in Hall. apply Hall. apply in_map_iff.
  exists (N.to_nat n). split; [lia|]. apply in_seq. lia.
Qed.

Lemma hex_encode_is_hex bs :
  Forall (fun b => (b < 256)%N) bs -> forall_byte is_lower_hex (hex_encode bs) = true.
Proof.
  induction 1 as [|b bs Hb _ IH]; [done|].
  change (hex_encode (b :: bs)) with (hex_byte b +:+ hex_encode bs).
  rewrite forall_byte_append. apply andb_true_iff. split; [|exact IH].
  cbn. rewrite !hex_digit_is_hex; [done| |].
  - apply N.mod_lt. lia.
  - apply N.Div0.div_lt_upper_bound. lia.
Qed.

#[export] Hint Rewrite append_nil_r append_assoc rev_string_involutive : gostr.
#[export] Hint Rewrite forall_byte_append exists_byte_append : gostr.

Lemma hex_value_digit n : (n < 16)%N -> hex_value (hex_digit n) = Some n.
Proof.
  intros Hn. assert (forallb (fun k => bool_decide (hex_value (hex_digit k) = Some k))
    (map N.of_nat (seq 0 16)) = true) as Hall by (vm_compute; reflexivity).
  rewrite forallb_forall in Hall. eapply bool_decide_eq_true_1, Hall.
  apply in_map_iff. exists (N.to_nat n). rewrite N2Nat.id. split; [done|]. apply in_seq. lia.
Qed.

Lemma hex_decode_encode bs : Forall (fun b => (b < 256)%N) bs -> hex_decode (hex_encode bs) = Some bs.
Proof.
  induction 1 as [|b bs Hb _ IH]; [done|].
  change (hex_encode (b :: bs)) with (hex_byte b +:+ hex_encode bs). unfold hex_byte. cbn [String.append].
  assert (b / 16 < 16)%N as Hq by (apply N.Div0.div_lt_upper_bound; lia).
  assert (b mod 16 < 16)%N as Hr by (apply N.mod_lt; lia).
  cbn [hex_decode]. rewrite IH, !hex_value_digit by done.
  do 2 f_equal. symmetry. apply N.div_mod'.
Qed.
