(* ===== verification/Effects.v ===== *)
(** * Effects: the process state a Go function runs in

    A Go function that talks to Postgres, reads the clock or draws random
    bytes is a function on a [World]: the database it is connected to, the
    clock, and three streams the environment chooses - which store calls fail
    in transport ([w_faults]), how much time passes between two clock readings
    ([w_ticks]), and the bytes of [crypto/rand] ([w_entropy]).  Theorems
    quantify over the world, hence over every failure pattern.

    [Eff S A] is a call that returns an [A]; [Go S R A] is a stretch of a
    function body that may leave the function early with an [R] (Go's
    [return], or writing a response and returning). *)

From S2P Require Import Prelude GoStrings.

Declare Scope go_scope.
Delimit Scope go_scope with go.

(** ** The monads *)

Definition Eff (S A : Type) : Type := S -> A * S.
Definition Go (S R A : Type) : Type := S -> (R + A) * S.

Definition gret {S R A} (a : A) : Go S R A := fun s => (inr a, s).
Definition greturn {S R A} (r : R) : Go S R A := fun s => (inl r, s).
Definition gbind {S R A B} (m : Go S R A) (f : A -> Go S R B) : Go S R B :=
  fun s => match m s with
           | (inl r, s') => (inl r, s')
           | (inr a, s') => f a s'
           end.
Definition call {S R A} (m : Eff S A) : Go S R A :=
  fun s => let '(a, s') := m s in (inr a, s').
(** The function whose body is [m]: falling off the end returns too. *)
Definition func {S R} (m : Go S R R) : Eff S R :=
  fun s => match m s with
           | (inl r, s') => (r, s')
           | (inr r, s') => (r, s')
           end.

Notation "x <- m ;; k" := (gbind m (fun x => k))
  (at level 100, m at next level, right associativity) : go_scope.
Notation "m ;;; k" := (gbind m (fun _ => k))
  (at level 100, right associativity) : go_scope.
Open Scope go_scope.

(** [if cond { return r }] *)
Definition return_if {S R} (c : bool) (r : R) : Go S R unit :=
  if c then greturn r else gret tt.

(** [x, err := m; if err != nil { return on_err(err) }] *)
Definition try {S R E A} (m : Eff S (result E A)) (on_err : E -> R) : Go S R A :=
  x <- call m ;;
  match x with
  | Ok a => gret a
  | Err e => greturn (on_err e)
  end.

(** [if p == nil { return r }], continuing with the value *)
Definition non_nil {S R A} (p : option A) (r : R) : Go S R A :=
  match p with Some a => gret a | None => greturn r end.

Fixpoint gfor {S R A} (l : list A) (body : A -> Go S R unit) : Go S R unit :=
  match l with
  | [] => gret tt
  | x :: l' => body x ;;; gfor l' body
  end.

(** The results of the calls made for the elements of a list, in order. *)
Fixpoint geach {S R A B} (f : A -> Go S R B) (l : list A) : Go S R (list B) :=
  match l with
  | [] => gret []
  | x :: l' => y <- f x ;; ys <- geach f l' ;; gret (y :: ys)
  end.

(** ** Reasoning: weakest preconditions of a body

    [Qr] is the condition at an early return, [Q] at the end of the body. *)

Definition wp {S R A} (m : Go S R A) (Qr : R -> S -> Prop) (Q : A -> S -> Prop) (s : S) : Prop :=
  match m s with
  | (inl r, s') => Qr r s'
  | (inr a, s') => Q a s'
  end.

Section Wp.
Context {S R : Type}.
Implicit Types Qr : R -> S -> Prop.

Lemma wp_ret {A} (a : A) Qr Q s : wp (gret a) Qr Q s <-> Q a s.
Proof. done. Qed.

Lemma wp_return {A} (r : R) Qr (Q : A -> S -> Prop) s : wp (greturn r) Qr Q s <-> Qr r s.
Proof. done. Qed.

Lemma wp_bind {A B} (m : Go S R A) (f : A -> Go S R B) Qr Q s :
  wp (gbind m f) Qr Q s <-> wp m Qr (fun a s' => wp (f a) Qr Q s') s.
Proof. unfold wp, gbind. by destruct (m s) as [[r|a] s']. Qed.

Lemma wp_call {A} (m : Eff S A) Qr Q s :
  wp (call m) Qr Q s <-> Q (m s).1 (m s).2.
Proof. unfold wp, call. by destruct (m s). Qed.

Lemma wp_func (m : Go S R R) (P : R -> S -> Prop) s :
  P (func m s).1 (func m s).2 <-> wp m P P s.
Proof. unfold wp, func. by destruct (m s) as [[r|r] s']. Qed.

Lemma wp_let (m : Go S R R) (P : R -> S -> Prop) s :
  wp m P P s -> let '(r, s') := func m s in P r s'.
Proof. unfold wp, func. by destruct (m s) as [[r|r] s']. Qed.

Lemma wp_return_if c (r : R) Qr Q s :
  wp (return_if c r) Qr Q s <-> (c = true -> Qr r s) /\ (c = false -> Q tt s).
Proof. unfold wp. destruct c; cbn; split; try (intros [? ?]); auto; intuition congruence. Qed.

Lemma wp_non_nil {A} (p : option A) (r : R) Qr Q s :
  wp (non_nil p r) Qr Q s <->
  (p = None -> Qr r s) /\ (forall a, p = Some a -> Q a s).
Proof.
  destruct p as [a|]; cbn.
  - split; [intros HQ; split; [done|by intros ? [= <-]]|intros [_ HQ]; by apply HQ].
  - split; [by intros HQ|intros [HQ _]; by apply HQ].
Qed.

Lemma wp_try {E A} (m : Eff S (result E A)) (on_err : E -> R) Qr Q s :
  wp (try m on_err) Qr Q s <->
  match m s with
  | (Ok a, s') => Q a s'
  | (Err e, s') => Qr (on_err e) s'
  end.
Proof. unfold try, wp, gbind, call. destruct (m s) as [[a|e] s']; done. Qed.

Lemma wp_mono {A} (m : Go S R A) Qr Qr' Q Q' s :
  wp m Qr Q s ->
  (forall r s', Qr r s' -> Qr' r s') -> (forall a s', Q a s' -> Q' a s') ->
  wp m Qr' Q' s.
Proof. unfold wp. destruct (m s) as [[r|a] s']; auto. Qed.

(** A loop with an invariant on the state. *)
Lemma wp_for {A} (l : list A) (body : A -> Go S R unit) (I : S -> Prop) Qr s :
  (forall x s', x ∈ l -> I s' -> wp (body x) Qr (fun _ => I) s') ->
  I s -> wp (gfor l body) Qr (fun _ => I) s.
Proof.
  revert s. induction l as [|x l IH]; intros s Hbody HI; cbn; [done|].
  apply wp_bind. eapply wp_mono; [apply Hbody; [left|done]|done|].
  cbn. intros _ s' HI'. apply IH; [|done]. intros y s'' Hy. apply Hbody. by right.
Qed.

(** A loop that collects: [P] holds of each element with its result. *)
Lemma wp_each {A B} (f : A -> Go S R B) l (P : A -> B -> Prop) (I : S -> Prop) Qr s :
  (forall x s', x ∈ l -> I s' -> wp (f x) Qr (fun y s'' => P x y /\ I s'') s') ->
  I s -> wp (geach f l) Qr (fun ys s' => Forall2 P l ys /\ I s') s.
Proof.
  revert s. induction l as [|x l IH]; intros s Hf HI; cbn; [by split; [constructor|]|].
  apply wp_bind. eapply wp_mono; [apply Hf; [left|done]|done|]. cbn. intros y s' [HP HI'].
  apply wp_bind. eapply wp_mono; [apply IH; [|done]|done|].
  { intros x' s'' Hx'. apply Hf. by right. } cbn. intros ys s'' [HP' HI''].
  split; [by constructor|done].
Qed.
End Wp.

Create Rewrite HintDb wp.
#[export] Hint Rewrite @wp_ret @wp_return @wp_bind @wp_call @wp_return_if
  @wp_non_nil @wp_try : wp.

(** Push a [wp] through the body, then split on what the store answered. *)
Ltac wp_norm := repeat (autorewrite with wp in *; cbn beta iota in *).

(** One step of a body: the call that is next, with the two outcomes. *)
Ltac wp_step := rewrite ?wp_bind, ?wp_try, ?wp_call, ?wp_return_if, ?wp_non_nil, ?wp_ret, ?wp_return;
  cbn beta iota.

(** Sequencing, with the early returns held to the same condition. *)
Ltac wp_keep :=
  lazymatch goal with
  | |- wp ?m ?Qr ?Q ?s => refine (wp_mono m Qr Qr _ Q s _ (fun _ _ Hx => Hx) _)
  end.

(** Run a body in a hypothesis or in the goal, splitting on every answer. *)
Ltac go_run H :=
  unfold func, try, gbind, call, non_nil, return_if, gret, greturn in H;
  repeat (case_match; simplify_eq/=).

(** ** The world *)

Record World (DB : Type) := mkWorld {
  w_db : DB;
  w_faults : list bool;
  w_clock : Z;
  w_ticks : list N;
  w_entropy : list N
}.
Arguments mkWorld {DB}.
Arguments w_db {DB}.
Arguments w_faults {DB}.
Arguments w_clock {DB}.
Arguments w_ticks {DB}.
Arguments w_entropy {DB}.

Definition with_db {DB} (w : World DB) (d : DB) : World DB :=
  mkWorld d (w_faults w) (w_clock w) (w_ticks w) (w_entropy w).
Definition with_faults {DB} (w : World DB) (fs : list bool) : World DB :=
  mkWorld (w_db w) fs (w_clock w) (w_ticks w) (w_entropy w).

(** Errors of store calls: the sentinels of [store.go], and the driver's own. *)
Inductive store_err : Type :=
| ErrNotFound
| ErrConflict
| ErrTeamNotFound
| ErrServiceNameExists (name : string)
| ErrDataSourceNameExists (name : string)
| ErrInvalidDependency
| ErrDriver
| ErrOther (msg : string).

(** [if t.IsZero() { t = now }] *)
Definition or_now (t now : Z) : Z := if Z.eqb t 0 then now else t.

(** A statement refused by a constraint the code does not name. *)
Definition violation {A} : result store_err A := Err (ErrOther "pq: constraint violation").

(** One statement against the database: it fails in transport and changes
    nothing, or it runs at the database clock. *)
Definition db_op {DB A} (f : Z -> DB -> result store_err A * DB) :
    Eff (World DB) (result store_err A) :=
  fun w =>
    match w_faults w with
    | true :: fs => (Err ErrDriver, with_faults w fs)
    | fs => let '(a, d) := f (w_clock w) (w_db w) in
            (a, with_faults (with_db w d) (tail fs))
    end.

(** A statement that cannot miss: a query, an unconditional update. *)
Definition db_read {DB A} (f : Z -> DB -> A) : Eff (World DB) (result store_err A) :=
  db_op (fun t d => (Ok (f t d), d)).
Definition db_write {DB} (f : Z -> DB -> DB) : Eff (World DB) (result store_err unit) :=
  db_op (fun t d => (Ok tt, f t d)).

(** [time.Now()] *)
Definition time_now {DB} : Eff (World DB) Z :=
  fun w =>
    match w_ticks w with
    | dt :: ts =>
        let t := (w_clock w + Z.of_N dt)%Z in
        (t, mkWorld (w_db w) (w_faults w) t ts (w_entropy w))
    | [] => (w_clock w, w)
    end.

(** [rand.Read(b)] with [len(b) = n]: all of [b], or an error. *)
Definition rand_read {DB} (n : nat) : Eff (World DB) (result store_err (list N)) :=
  fun w =>
    if n <=? length (w_entropy w)
    then (Ok (take n (w_entropy w)),
          mkWorld (w_db w) (w_faults w) (w_clock w) (w_ticks w) (drop n (w_entropy w)))
    else (Err ErrDriver, w).

Lemma db_op_cases {DB A} (f : Z -> DB -> result store_err A * DB) w a w' :
  db_op f w = (a, w') ->
  (a = Err ErrDriver /\ w_db w' = w_db w) \/
  (exists d, f (w_clock w) (w_db w) = (a, d) /\ w_db w' = d).
Proof.
  unfold db_op. intros H. destruct (w_faults w) as [|[] fs].
  2: { left. by simplify_eq/=. }
  all: destruct (f _ _) as [a' d] eqn:E; simplify_eq/=; right; eauto.
Qed.

(** What a statement establishes: of the tables as they were, and as it leaves them. *)
Lemma db_op_post {DB A} (f : Z -> DB -> result store_err A * DB) (P : DB -> Prop) w :
  P (w_db w) -> P (f (w_clock w) (w_db w)).2 -> P (w_db (db_op f w).2).
Proof.
  intros H0 H1. unfold db_op. destruct (w_faults w) as [|[] fs]; [|done|];
    by destruct (f _ _).
Qed.

Lemma db_write_post {DB} (f : Z -> DB -> DB) (P : DB -> Prop) w :
  P (w_db w) -> P (f (w_clock w) (w_db w)) -> P (w_db (db_write f w).2).
Proof. intros. by apply (db_op_post (fun t d => (Ok tt, f t d)) P). Qed.

Lemma db_op_ok {DB A} (f : Z -> DB -> result store_err A * DB) w a w' :
  db_op f w = (Ok a, w') -> f (w_clock w) (w_db w) = (Ok a, w_db w').
Proof. intros H. apply db_op_cases in H as [[? _]|(d & Hf & <-)]; [done|exact Hf]. Qed.

Lemma db_op_clock {DB A} (f : Z -> DB -> result store_err A * DB) w r w' :
  db_op f w = (r, w') -> w_clock w' = w_clock w.
Proof.
  unfold db_op. destruct (w_faults w) as [|[] fs]; [|by intros; simplify_eq|];
    destruct (f _ _); by intros; simplify_eq.
Qed.

Lemma db_read_db {DB A} (f : Z -> DB -> A) w r w' :
  db_read f w = (r, w') -> w_db w' = w_db w.
Proof. intros H. apply db_op_cases in H as [[_ ->]|(d & Hf & ->)]; [done|congruence]. Qed.

Lemma db_read_ok {DB A} (f : Z -> DB -> A) w a w' :
  db_read f w = (Ok a, w') -> a = f (w_clock w) (w_db w) /\ w_db w' = w_db w.
Proof. intros H. pose proof (db_read_db _ _ _ _ H). apply db_op_ok in H. by simplify_eq. Qed.

Lemma db_write_ok {DB} (f : Z -> DB -> DB) w u w' :
  db_write f w = (Ok u, w') -> w_db w' = f (w_clock w) (w_db w).
Proof. intros H. apply db_op_ok in H. by simplify_eq. Qed.

Lemma time_now_db {DB} (w : World DB) : w_db (time_now w).2 = w_db w.
Proof. unfold time_now. by destruct (w_ticks w). Qed.

Lemma time_now_clock {DB} (w : World DB) :
  (time_now w).1 = w_clock (time_now w).2 /\ (w_clock w <= (time_now w).1)%Z.
Proof. unfold time_now. destruct (w_ticks w); cbn; lia. Qed.

Lemma rand_read_db {DB} n (w : World DB) : w_db (rand_read n w).2 = w_db w.
Proof. unfold rand_read. by destruct (n <=? _). Qed.

Lemma rand_read_clock {DB} n (w : World DB) : w_clock (rand_read n w).2 = w_clock w.
Proof. unfold rand_read. by destruct (n <=? _). Qed.

(** ** Invariants of the tables

    [keeps P m]: the call [m] preserves [P] of the tables, whatever it returns;
    [gkeeps] is the same of a stretch of a body.  [solve_keeps] walks through a
    body down to its statements. *)

Section Keeps.
Context {DB : Type} (P : DB -> Prop).

Definition keeps {A} (m : Eff (World DB) A) : Prop := forall w, P (w_db w) -> P (w_db (m w).2).
Definition gkeeps {R A} (m : Go (World DB) R A) : Prop := forall w, P (w_db w) -> P (w_db (m w).2).

Lemma keeps_func {R} (m : Go (World DB) R R) : gkeeps m -> keeps (func m).
Proof. intros Hm w Hw. specialize (Hm w Hw). unfold func. by destruct (m w) as [[r|r] w']. Qed.

Lemma gkeeps_bind {R A B} (m : Go (World DB) R A) (f : A -> Go (World DB) R B) :
  gkeeps m -> (forall a, gkeeps (f a)) -> gkeeps (gbind m f).
Proof.
  intros Hm Hf w Hw. specialize (Hm w Hw). unfold gbind.
  destruct (m w) as [[r|a] w']; [done|]. by apply Hf.
Qed.

Lemma gkeeps_call {R A} (m : Eff (World DB) A) : keeps m -> gkeeps (call (R:=R) m).
Proof. intros Hm w Hw. specialize (Hm w Hw). unfold call. by destruct (m w). Qed.

Lemma gkeeps_try {R E A} (m : Eff (World DB) (result E A)) (on_err : E -> R) :
  keeps m -> gkeeps (try m on_err).
Proof.
  intros Hm. apply gkeeps_bind; [by apply gkeeps_call|]. by intros [a|e] w Hw.
Qed.

Lemma gkeeps_each {R A B} (f : A -> Go (World DB) R B) l :
  (forall x, gkeeps (f x)) -> gkeeps (geach f l).
Proof.
  intros Hf. induction l as [|x l IH]; [by intros w|]. apply gkeeps_bind; [done|]. intros y.
  apply gkeeps_bind; [done|]. by intros ys w.
Qed.
Lemma gkeeps_ret {R A} (a : A) : gkeeps (R:=R) (gret a).
Proof. by intros w. Qed.
Lemma gkeeps_return {R A} (r : R) : gkeeps (A:=A) (greturn r).
Proof. by intros w. Qed.
Lemma gkeeps_return_if {R} c (r : R) : gkeeps (return_if c r).
Proof. destruct c; [apply gkeeps_return|apply gkeeps_ret]. Qed.
Lemma gkeeps_non_nil {R A} (p : option A) (r : R) : gkeeps (non_nil p r).
Proof. destruct p; [apply gkeeps_ret|apply gkeeps_return]. Qed.

(** Past a guard its condition is known to fail. *)
Lemma gkeeps_guard {R A} c (r : R) (m : Go (World DB) R A) :
  (c = false -> gkeeps m) -> gkeeps (return_if c r ;;; m).
Proof.
  intros Hm. destruct c; [|by apply Hm]. by intros w.
Qed.

Lemma keeps_read {A} (f : Z -> DB -> A) : keeps (db_read f).
Proof. intros w Hw. unfold db_read. by apply (db_op_post _ P). Qed.
Lemma keeps_op {A} (f : Z -> DB -> result store_err A * DB) :
  (forall t d, P d -> P (f t d).2) -> keeps (db_op f).
Proof. intros Hf w Hw. apply (db_op_post _ P); auto. Qed.
Lemma keeps_write (f : Z -> DB -> DB) : (forall t d, P d -> P (f t d)) -> keeps (db_write f).
Proof. intros Hf. apply keeps_op. auto. Qed.
Lemma keeps_time : keeps time_now.
Proof. intros w Hw. by rewrite time_now_db. Qed.
Lemma keeps_rand n : keeps (rand_read n).
Proof. intros w Hw. by rewrite rand_read_db. Qed.
End Keeps.

Create HintDb keeps.
#[global] Hint Resolve keeps_read keeps_time keeps_rand : keeps.

Ltac keeps_step :=
  first
    [ progress intros
    | solve [auto with keeps]
    | apply keeps_func | apply gkeeps_guard | apply gkeeps_bind | apply gkeeps_ret | apply gkeeps_return
    | apply gkeeps_each | apply gkeeps_return_if | apply gkeeps_non_nil | apply gkeeps_try | apply gkeeps_call
    | case_match ].
Ltac solve_keeps := repeat keeps_step.

(** ** What a call yields

    [yields m Q]: whenever [m] ends normally, its value satisfies [Q]. *)

Section Yields.
Context {S : Type}.

Definition yields {R A} (m : Go S R A) (Q : A -> Prop) : Prop := forall s a s', m s = (inr a, s') -> Q a.
Definition yields_ok {E A} (m : Eff S (result E A)) (Q : A -> Prop) : Prop :=
  forall s a s', m s = (Ok a, s') -> Q a.

Lemma yields_ret {R A} (a : A) (Q : A -> Prop) : Q a -> yields (R := R) (gret a) Q.
Proof. by intros HQ s a' s' [= <- <-]. Qed.
Lemma yields_bind {R A B} (m : Go S R A) (f : A -> Go S R B) (P : A -> Prop) (Q : B -> Prop) :
  yields m P -> (forall a, P a -> yields (f a) Q) -> yields (gbind m f) Q.
Proof.
  intros Hm Hf s b s'. unfold gbind. destruct (m s) as [[r|a] s1] eqn:E; [done|].
  apply Hf. by apply (Hm s a s1).
Qed.
Lemma yields_any {R A} (m : Go S R A) : yields m (fun _ => True).
Proof. done. Qed.
Lemma yields_then {R A B} (m : Go S R A) (f : A -> Go S R B) (Q : B -> Prop) :
  (forall a, yields (f a) Q) -> yields (gbind m f) Q.
Proof. intros Hf. apply (yields_bind _ _ (fun _ => True)); [done|auto]. Qed.
Lemma yields_try {R E A} (m : Eff S (result E A)) (on_err : E -> R) (Q : A -> Prop) :
  yields_ok m Q -> yields (try m on_err) Q.
Proof.
  intros Hm s a s'. unfold try, gbind, call. destruct (m s) as [[x|e] s1] eqn:Em; [|done].
  intros [= <- <-]. by apply (Hm s x s1).
Qed.
Lemma yields_each {R A B} (f : A -> Go S R B) l (Q : B -> Prop) :
  (forall x, x ∈ l -> yields (f x) Q) -> yields (geach f l) (Forall Q).
Proof.
  induction l as [|x l IH]; intros Hf; [by apply yields_ret|].
  apply (yields_bind _ _ Q); [apply Hf; left|]. intros y Hy.
  apply (yields_bind _ _ (Forall Q)); [apply IH; intros; apply Hf; by right|]. intros ys Hys.
  apply yields_ret. by constructor.
Qed.
(** Of a function that returns an error or a value: its body and its early returns. *)
Lemma yields_func {E A} (m : Go S (result E A) (result E A)) (Q : A -> Prop) :
  (forall s, wp m (fun r _ => match r with Ok a => Q a | Err _ => True end)
               (fun r _ => match r with Ok a => Q a | Err _ => True end) s) ->
  yields_ok (func m) Q.
Proof.
  intros Hm s a s' Hs. specialize (Hm s). unfold func, wp in *.
  destruct (m s) as [[r|r] s1]; by simplify_eq/=.
Qed.
End Yields.

(** The value is known from the tables it was read from, or without them. *)
Lemma gkeeps_bind_knows {DB} (P : DB -> Prop) {R A B} (m : Go (World DB) R A) (f : A -> Go (World DB) R B)
  (Q : A -> Prop) :
  gkeeps P m -> (forall w a w', P (w_db w) -> m w = (inr a, w') -> Q a) -> (forall a, Q a -> gkeeps P (f a)) ->
  gkeeps P (gbind m f).
Proof.
  intros Hm HQ Hf w Hw. pose proof (Hm w Hw) as Hw'. unfold gbind.
  destruct (m w) as [[r|a] w'] eqn:E; [done|]. apply Hf; [exact (HQ w a w' Hw E)|done].
Qed.
Lemma gkeeps_bind_yields {DB} (P : DB -> Prop) {R A B} (m : Go (World DB) R A) (f : A -> Go (World DB) R B)
  (Q : A -> Prop) :
  gkeeps P m -> yields m Q -> (forall a, Q a -> gkeeps P (f a)) -> gkeeps P (gbind m f).
Proof. intros Hm HQ. apply gkeeps_bind_knows; [done|]. intros w a w' _. by apply HQ. Qed.

(** ** HTTP responses: [internal/httputil/respond.go] *)

Inductive body (B : Type) : Type :=
| ApiError (code msg : string)
| Json (b : B)
| NoContent
| RedirectTo (url : string)
| RawError (error : string).
Arguments ApiError {B}.
Arguments Json {B}.
Arguments NoContent {B}.
Arguments RedirectTo {B}.
Arguments RawError {B}.

Record Response (B : Type) := mkResponse { status : Z; payload : body B }.
Arguments mkResponse {B}.
Arguments status {B}.
Arguments payload {B}.

Section HttpUtil.
Context {B : Type}.
Local Open Scope Z_scope.

Definition JSON (st : Z) (b : B) : Response B := mkResponse st (Json b).

Definition err_text (e : store_err) : string :=
  match e with
  | ErrNotFound => "not found"
  | ErrConflict => "conflict"
  | ErrTeamNotFound => "team not found"
  | ErrInvalidDependency => "invalid service dependency: dependency must not reference its own service"
  | ErrServiceNameExists n => "service name already exists: " +:+ n
  | ErrDataSourceNameExists n => "data source name already exists: " +:+ n
  | ErrDriver => "driver error"
  | ErrOther m => m
  end.

(** [httputil.Error]: only the two sentinels are told to the client. *)
Definition HttpError (e : store_err) : Response B :=
  match e with
  | ErrNotFound => mkResponse 404 (ApiError "not_found" (err_text e))
  | ErrConflict => mkResponse 409 (ApiError "conflict" (err_text e))
  | _ => mkResponse 500 (ApiError "internal_error" "an unexpected error occurred")
  end.
Definition BadRequest (msg : string) : Response B :=
  mkResponse 400 (ApiError "bad_request" msg).
Definition Conflict (msg : string) : Response B :=
  mkResponse 409 (ApiError "conflict" msg).
Definition Forbidden : Response B :=
  mkResponse 403 (ApiError "forbidden" "insufficient permissions").
Definition Unauthorized : Response B :=
  mkResponse 401 (ApiError "unauthenticated" "authentication required").
Definition TooManyRequests (msg : string) : Response B :=
  mkResponse 429 (ApiError "too_many_requests" msg).
(** A panic: the connection is closed without a response. *)
Definition panicked : Response B := mkResponse 0 NoContent.
Definition no_content : Response B := mkResponse 204 NoContent.
End HttpUtil.

(** A driver error is never shown to a client. *)
Lemma HttpError_driver_opaque {B} m :
  payload (HttpError (B:=B) (ErrOther m)) = payload (HttpError ErrDriver).
Proof. done. Qed.
Lemma HttpError_not_200 {B} e : status (HttpError (B := B) e) <> 200%Z.
Proof. by destruct e. Qed.
