(* ===== verification/Faults.v ===== *)
(** * Faults: when a request met a failing statement

    [w_faults] says which of the next statements fail in transport.  What was
    consumed of it between two worlds tells whether a statement failed on the
    way; the theorems on error branches use it to say that a request stopped
    half way only because a statement failed. *)

From S2P Require Import Prelude GoStrings Effects.

Section Faults.
Context {DB : Type}.
Implicit Types w : World DB.

(** [w'] is [w] some statements later. *)
Definition later w w' : Prop := exists p, w_faults w = p ++ w_faults w'.

(** One of the statements between [w] and [w'] failed. *)
Definition failed_between w w' : Prop := exists p, w_faults w = p ++ w_faults w' /\ true ∈ p.

Lemma later_refl w : later w w.
Proof. by exists []. Qed.

Lemma later_same w w' : w_faults w' = w_faults w -> later w w'.
Proof. intros E. exists []. by rewrite E. Qed.

Lemma later_trans w1 w2 w3 : later w1 w2 -> later w2 w3 -> later w1 w3.
Proof. intros [p Hp] [q Hq]. exists (p ++ q). by rewrite Hp, Hq, app_assoc. Qed.

Lemma failed_later w1 w2 : failed_between w1 w2 -> later w1 w2.
Proof. intros (p & Hp & _). by exists p. Qed.

Lemma failed_after w1 w2 w3 : later w1 w2 -> failed_between w2 w3 -> failed_between w1 w3.
Proof.
  intros [p Hp] (q & Hq & Hin). exists (p ++ q). split; [by rewrite Hp, Hq, app_assoc|].
  apply elem_of_app. by right.
Qed.

Lemma failed_before w1 w2 w3 : failed_between w1 w2 -> later w2 w3 -> failed_between w1 w3.
Proof.
  intros (p & Hp & Hin) [q Hq]. exists (p ++ q). split; [by rewrite Hp, Hq, app_assoc|].
  apply elem_of_app. by left.
Qed.

(** Without faults ahead none happens. *)
Lemma not_failed w w' : true ∉ w_faults w -> ~ failed_between w w'.
Proof. intros Hno (p & Hp & Hin). apply Hno. rewrite Hp. apply elem_of_app. by left. Qed.

(** A statement either ran, or failed and changed nothing. *)
Lemma db_op_split {A} (f : Z -> DB -> result store_err A * DB) w r w' :
  db_op f w = (r, w') ->
  later w w' /\
  ((failed_between w w' /\ r = Err ErrDriver /\ w_db w' = w_db w) \/
   f (w_clock w) (w_db w) = (r, w_db w')).
Proof.
  unfold db_op. destruct (w_faults w) as [|[] fs] eqn:E.
  - destruct (f _ _) as [a d]. intros [= <- <-]. split; [apply later_same; by rewrite E|by right].
  - intros [= <- <-]. assert (failed_between w (with_faults w fs)) as Hf.
    { exists [true]. rewrite E. split; [done|by left]. }
    split; [by apply failed_later|]. by left.
  - destruct (f _ _) as [a d]. intros [= <- <-]. split; [|by right]. exists [false]. by rewrite E.
Qed.

Lemma db_op_later {A} (f : Z -> DB -> result store_err A * DB) w : later w (db_op f w).2.
Proof. destruct (db_op f w) as [r w'] eqn:E. by destruct (db_op_split _ _ _ _ E). Qed.

Lemma time_now_later w : later w (time_now w).2.
Proof. apply later_same. unfold time_now. by destruct (w_ticks w). Qed.

Lemma rand_read_later n w : later w (rand_read n w).2.
Proof. apply later_same. unfold rand_read. by destruct (_ <=? _). Qed.

Lemma db_write_split (f : Z -> DB -> DB) w r w' :
  db_write f w = (r, w') ->
  later w w' /\
  ((failed_between w w' /\ r = Err ErrDriver /\ w_db w' = w_db w) \/
   (r = Ok tt /\ w_db w' = f (w_clock w) (w_db w))).
Proof.
  intros Hw. destruct (db_op_split _ _ _ _ Hw) as [Hl [Hf|Hr]]; (split; [done|]); [by left|].
  right. by injection Hr as <- <-.
Qed.

Lemma db_read_split {A} (f : Z -> DB -> A) w r w' :
  db_read f w = (r, w') ->
  later w w' /\ w_db w' = w_db w /\
  ((failed_between w w' /\ r = Err ErrDriver) \/ r = Ok (f (w_clock w) (w_db w))).
Proof.
  intros Hw. pose proof (db_read_db _ _ _ _ Hw) as Hd.
  destruct (db_op_split _ _ _ _ Hw) as [Hl [(Hf & Hr & _)|Hr]]; (split_and!; [done..|]); [by left|].
  right. by injection Hr as <- _.
Qed.
End Faults.

(** A body up to its first call. *)
Lemma try_then {S R E A B} (m : Eff S (Prelude.result E A)) (g : E -> R) (k : A -> Go S R B) s :
  gbind (try m g) k s = match m s with (Ok a, s') => k a s' | (Err e, s') => (inl (g e), s') end.
Proof. unfold try, gbind, call. by destruct (m s) as [[a|e] s']. Qed.
Lemma call_then {S R A B} (m : Eff S A) (k : A -> Go S R B) s : gbind (call m) k s = let '(a, s') := m s in k a s'.
Proof. unfold gbind, call. by destruct (m s). Qed.

#[export] Hint Resolve later_refl time_now_later rand_read_later db_op_later : core.
