(* ===== verification/Table.v ===== *)
(** * Table: database tables and the statements run on them

    A table is a finite map from primary key to row; a statement is a function
    on tables.  [select] lists the rows that satisfy a WHERE clause, in an
    order the database chooses; [order_by] sorts them.  The order of texts is
    the database collation, an argument. *)

From S2P Require Import Prelude.

(** The collation of the database: the order of texts, and [LOWER]. *)
Class Collation := {
  text_less : string -> string -> bool;
  text_lower : string -> string;
  #[global] text_less_strict :: StrictWeak text_less
}.

(** What the [uuid] type accepts, and what [gen_random_uuid] draws for a table that has the ids of a set. *)
Class UuidText := {
  valid_uuid : string -> bool;
  gen_random_uuid : gset string -> string;
  valid_uuid_empty : valid_uuid "" = false;
  gen_random_uuid_new : forall X, gen_random_uuid X ∉ X;
  gen_random_uuid_valid : forall X, valid_uuid (gen_random_uuid X) = true
}.

Section Table.
Context {K : Type} `{Countable K} {R : Type}.
Implicit Types (t : gmap K R) (p : R -> bool) (r : R) (k : K).

Definition rows t : list R := (map_to_list t).*2.
Definition select p t : list R := List.filter p (rows t).
Definition select_one p t : option R := head (select p t).
Definition exists_row p t : bool := existsb p (rows t).

(** UPDATE and DELETE with a WHERE clause. *)
Definition update_where p (f : R -> R) t : gmap K R := (fun r => if p r then f r else r) <$> t.
Definition delete_where p t : gmap K R := base.filter (fun kr => p kr.2 = false) t.

(** A row other than that of [k] satisfies [p]: a UNIQUE violation. *)
Definition other_row k p t : bool := exists_row p (delete k t).

Lemma rows_elem r t : r ∈ rows t <-> exists k, t !! k = Some r.
Proof.
  unfold rows. rewrite list_elem_of_fmap. split.
  - intros ([k r'] & -> & Hin). exists k. by apply elem_of_map_to_list.
  - intros [k Hk]. exists (k, r). split; [done|]. by apply elem_of_map_to_list.
Qed.

Lemma select_elem r p t : r ∈ select p t <-> (exists k, t !! k = Some r) /\ p r = true.
Proof.
  unfold select. rewrite list_elem_of_In, List.filter_In, <-list_elem_of_In, rows_elem. done.
Qed.

(** A new row, in no particular place. *)
Lemma select_insert k r p t :
  t !! k = None -> select p (<[k := r]> t) ≡ₚ (if p r then [r] else []) ++ select p t.
Proof.
  intros Hk. unfold select, rows. transitivity (List.filter p (r :: (map_to_list t).*2)).
  - generalize (map_to_list_insert t k r Hk). generalize (map_to_list t) (map_to_list (<[k := r]> t)).
    intros l l' Hl. assert (l'.*2 ≡ₚ r :: l.*2) as Hp by (by rewrite Hl). clear Hl.
    revert Hp. generalize (l'.*2) (r :: l.*2). intros a b. induction 1 as [|x a b _ IH|x y a|a b c _ IH1 _ IH2]; cbn;
      [done|by case_match; rewrite IH| |by rewrite IH1]. repeat case_match; try done. apply Permutation_swap.
  - cbn. by destruct (p r).
Qed.
Lemma select_nil p t : (forall k r, t !! k = Some r -> p r = false) -> select p t = [].
Proof.
  intros Hp. destruct (select p t) as [|r l] eqn:E; [done|].
  assert (r ∈ select p t) as [[k Hk] Hr]%select_elem by (rewrite E; left). by rewrite (Hp k r Hk) in Hr.
Qed.
Lemma select_ext p q t : (forall r, p r = q r) -> select p t = select q t.
Proof. intros Hpq. unfold select. by apply filter_ext. Qed.

Lemma select_one_Some r p t :
  select_one p t = Some r -> (exists k, t !! k = Some r) /\ p r = true.
Proof.
  unfold select_one. intros Hr. apply select_elem.
  destruct (select p t); simplify_eq/=. left.
Qed.

Lemma select_one_None p t :
  select_one p t = None <-> forall k r, t !! k = Some r -> p r = false.
Proof.
  unfold select_one. split.
  - intros Hn k r Hk. destruct (select p t) eqn:E; [|done]. apply not_true_iff_false. intros Hp.
    assert (r ∈ select p t) as Hin by (apply select_elem; eauto). rewrite E in Hin. inversion Hin.
  - intros Hn. destruct (select p t) as [|r l] eqn:E; [done|].
    assert (r ∈ select p t) as Hin by (rewrite E; left).
    apply select_elem in Hin as [[k Hk] Hp]. by rewrite (Hn k r Hk) in Hp.
Qed.

(** When at most one row qualifies, that row is selected. *)
Lemma select_one_unique r p t k :
  t !! k = Some r -> p r = true ->
  (forall k' r', t !! k' = Some r' -> p r' = true -> r' = r) ->
  select_one p t = Some r.
Proof.
  intros Hk Hp Hu. destruct (select_one p t) as [r'|] eqn:E.
  - apply select_one_Some in E as [[k' Hk'] Hp']. f_equal. eauto.
  - rewrite select_one_None in E. by rewrite (E k r Hk) in Hp.
Qed.

Lemma exists_row_true p t : exists_row p t = true <-> exists k r, t !! k = Some r /\ p r = true.
Proof.
  unfold exists_row. rewrite existsb_exists. split.
  - intros (r & Hin & Hp). apply list_elem_of_In, rows_elem in Hin as [k Hk]. eauto.
  - intros (k & r & Hk & Hp). exists r. split; [|done]. apply list_elem_of_In, rows_elem. eauto.
Qed.

Lemma exists_row_false p t : exists_row p t = false <-> forall k r, t !! k = Some r -> p r = false.
Proof.
  rewrite <-not_true_iff_false, exists_row_true. split.
  - intros Hn k r Hk. apply not_true_iff_false. naive_solver.
  - intros Hn (k & r & Hk & Hp). by rewrite (Hn k r Hk) in Hp.
Qed.

Lemma other_row_false k p t :
  other_row k p t = false <-> forall k' r, k' <> k -> t !! k' = Some r -> p r = false.
Proof.
  unfold other_row. rewrite exists_row_false. split; intros Hn k' r.
  - intros Hne Hk. apply (Hn k'). by rewrite lookup_delete_ne.
  - intros Hk. apply lookup_delete_Some in Hk as [Hne Hk]. by apply (Hn k').
Qed.

Lemma lookup_update_where p f t k :
  update_where p f t !! k = (fun r => if p r then f r else r) <$> t !! k.
Proof. unfold update_where. apply lookup_fmap. Qed.

Lemma lookup_delete_where p t k r :
  delete_where p t !! k = Some r <-> t !! k = Some r /\ p r = false.
Proof. unfold delete_where. apply map_lookup_filter_Some. Qed.
End Table.

(** ** Order *)

Definition order_by {R} (less : R -> R -> bool) (l : list R) : list R := sort_stable less l.

(** [ORDER BY key] on a text column, [ORDER BY key DESC] on a number. *)
Definition by_text `{Collation} {R} (key : R -> string) (x y : R) : bool :=
  text_less (key x) (key y).
Definition desc {R} (less : R -> R -> bool) (x y : R) : bool := less y x.
#[export] Typeclasses Opaque by_key by_text desc.

#[export] Instance by_text_strict `{Collation} {R} (key : R -> string) : StrictWeak (by_text key).
Proof.
  split; unfold by_text; intros.
  - apply less_irrefl.
  - eapply less_trans; eauto.
  - eapply less_negtrans; eauto.
Qed.

#[export] Instance desc_strict {R} (less : R -> R -> bool) `{!StrictWeak less} : StrictWeak (desc less).
Proof.
  split; unfold desc; intros.
  - apply less_irrefl.
  - eapply less_trans; eauto.
  - eapply less_negtrans; eauto.
Qed.

(** Refinement of an order by a second key. *)
Definition then_by {R} (less1 less2 : R -> R -> bool) (x y : R) : bool :=
  less1 x y || (negb (less1 y x) && less2 x y).
#[export] Typeclasses Opaque then_by.

#[export] Instance then_by_strict {R} (less1 less2 : R -> R -> bool)
  `{S1 : !StrictWeak less1} `{S2 : !StrictWeak less2} : StrictWeak (then_by less1 less2).
Proof.
  destruct S1 as [I1 T1 N1], S2 as [I2 T2 N2]. split; unfold then_by.
  - intros x. by rewrite I1, I2.
  - intros x y z Hxy Hyz. destruct (less1 x z) eqn:Exz; [done|]. cbn.
    destruct (less1 x y) eqn:Exy; [|cbn in Hxy]; bool_to_prop.
    + destruct (less1 y z) eqn:Eyz; cbn in Hyz; bool_to_prop.
      * pose proof (T1 x y z). intuition congruence.
      * pose proof (N1 x z y). intuition congruence.
    + destruct (less1 y z) eqn:Eyz; cbn in Hyz; bool_to_prop.
      * pose proof (N1 y x z). intuition congruence.
      * apply andb_true_iff. split; [|by apply (T2 x y z)]. apply negb_true_iff. by apply (N1 z y x).
  - intros x y z Hxy Hyz. apply orb_false_iff in Hxy as [Exy Hxy], Hyz as [Eyz Hyz].
    rewrite (N1 x y z) by done. cbn. destruct (less1 z x) eqn:Ezx; [done|]. cbn.
    destruct (less1 y x) eqn:Eyx; [pose proof (N1 y z x); intuition congruence|].
    destruct (less1 z y) eqn:Ezy; [pose proof (N1 z x y); intuition congruence|].
    cbn in Hxy, Hyz. by apply (N2 x y z).
Qed.

#[export] Hint Rewrite @lookup_update_where : tbl.

(** ORDER BY ... LIMIT 1: a row that qualifies, and none before it. *)
Lemma first_by_Some {K R} `{Countable K} (less : R -> R -> bool) `{!StrictWeak less} p (t : gmap K R) r :
  head (order_by less (select p t)) = Some r ->
  (exists k, t !! k = Some r) /\ p r = true /\
  forall k r', t !! k = Some r' -> p r' = true -> less r' r = false.
Proof.
  unfold order_by. intros Hr. pose proof (sort_stable_sorted less (select p t)) as Hs.
  pose proof (fun x => sort_stable_elem less x (select p t)) as Hin.
  destruct (sort_stable less (select p t)) as [|r0 l]; simplify_eq/=.
  destruct (proj1 (select_elem r p t)) as [Hk Hp]; [apply Hin; left|].
  split_and!; [done..|]. intros k r' Hk' Hp'.
  assert (r' ∈ r :: l) as Hl by (apply Hin, select_elem; eauto).
  inversion Hs as [|?? _ Hall]; subst. apply elem_of_cons in Hl as [->|Hl]; [apply less_irrefl|].
  rewrite Forall_forall in Hall. by apply Hall.
Qed.

Lemma first_by_None {K R} `{Countable K} (less : R -> R -> bool) p (t : gmap K R) :
  head (order_by less (select p t)) = None <-> forall k r, t !! k = Some r -> p r = false.
Proof.
  rewrite <-select_one_None. unfold select_one, order_by.
  pose proof (sort_stable_length less (select p t)) as Hl.
  by destruct (select p t), (sort_stable less _).
Qed.

(** ** How a table changes

    Rows stay, changed only as [kept] says; rows that are not [mine] are the same. *)

Definition all_kept {K V} `{Countable K} (kept : V -> V -> Prop) (t t' : gmap K V) : Prop :=
  forall k v, t !! k = Some v -> exists v', t' !! k = Some v' /\ kept v v'.
Definition untouched {K V} `{Countable K} (mine : V -> Prop) (t t' : gmap K V) : Prop :=
  forall k v, ~ mine v -> (t' !! k = Some v <-> t !! k = Some v).

Lemma all_kept_refl {K V} `{Countable K} (kept : V -> V -> Prop) (t : gmap K V) : (forall v, kept v v) -> all_kept kept t t.
Proof. intros Hk k v Hv. eauto. Qed.
Lemma all_kept_trans {K V} `{Countable K} (kept : V -> V -> Prop) (t1 t2 t3 : gmap K V) :
  (forall a b c, kept a b -> kept b c -> kept a c) -> all_kept kept t1 t2 -> all_kept kept t2 t3 -> all_kept kept t1 t3.
Proof. intros Ht H12 H23 k v Hv. destruct (H12 k v Hv) as (v2 & Hv2 & K2), (H23 k v2 Hv2) as (v3 & Hv3 & K3). eauto. Qed.
Lemma all_kept_insert {K V} `{Countable K} (kept : V -> V -> Prop) (t : gmap K V) k v :
  (forall v, kept v v) -> (forall v0, t !! k = Some v0 -> kept v0 v) -> all_kept kept t (<[k := v]> t).
Proof.
  intros Hr Hk k' v' Hv. destruct (decide (k' = k)) as [->|Hne].
  - rewrite lookup_insert_eq. eauto.
  - rewrite lookup_insert_ne by done. eauto.
Qed.
Lemma untouched_refl {K V} `{Countable K} (mine : V -> Prop) (t : gmap K V) : untouched mine t t.
Proof. by intros k v _. Qed.
Lemma untouched_trans {K V} `{Countable K} (mine mine' : V -> Prop) (t1 t2 t3 : gmap K V) :
  (forall v, mine' v -> mine v) -> untouched mine' t1 t2 -> untouched mine t2 t3 -> untouched mine t1 t3.
Proof. intros Hm H12 H23 k v Hv. rewrite (H23 k v Hv). apply H12. auto. Qed.
Lemma untouched_insert {K V} `{Countable K} (mine : V -> Prop) (t : gmap K V) k v :
  mine v -> (forall v0, t !! k = Some v0 -> mine v0) -> untouched mine t (<[k := v]> t).
Proof.
  intros Hv Hold k' v' Hn. destruct (decide (k' = k)) as [->|Hne].
  - rewrite lookup_insert_eq. split; [by intros [= <-]|]. intros Hk. destruct Hn. auto.
  - by rewrite lookup_insert_ne.
Qed.
Lemma untouched_delete {K V} `{Countable K} (mine : V -> Prop) (t : gmap K V) k :
  (forall v0, t !! k = Some v0 -> mine v0) -> untouched mine t (delete k t).
Proof.
  intros Hold k' v' Hn. rewrite lookup_delete_Some. split; [by intros []|]. intros Hk. split; [|done].
  intros ->. destruct Hn. auto.
Qed.

Definition evolves {K V} `{Countable K} (mine : V -> Prop) (kept : V -> V -> Prop) (t t' : gmap K V) : Prop :=
  untouched mine t t' /\ all_kept kept t t'.
Lemma evolves_refl {K V} `{Countable K} (mine : V -> Prop) (kept : V -> V -> Prop) (t : gmap K V) :
  (forall v, kept v v) -> evolves mine kept t t.
Proof. split; [apply untouched_refl|by apply all_kept_refl]. Qed.
Lemma evolves_insert {K V} `{Countable K} (mine : V -> Prop) (kept : V -> V -> Prop) (t : gmap K V) k v :
  (forall v, kept v v) -> mine v -> (forall v0, t !! k = Some v0 -> mine v0 /\ kept v0 v) ->
  evolves mine kept t (<[k := v]> t).
Proof.
  intros Hr Hm Hk. split; [apply untouched_insert; [done|]|apply all_kept_insert; [done|]]; intros v0 Hv; by apply Hk.
Qed.
