(* ===== verification/Regex.v ===== *)
(** * Regex: the fixed patterns of the program

    [regexp.MustCompile] patterns that are literals in the source are written
    as terms of [re] and matched by Brzozowski derivatives.  A pattern anchored
    with [^] and [$] is a full match ([full_match]). *)

From S2P Require Import Prelude GoStrings.

Inductive re : Type :=
| RVoid
| REps
| RClass (p : ascii -> bool)
| RCat (r1 r2 : re)
| RAlt (r1 r2 : re)
| RStar (r : re).

Definition RPlus (r : re) : re := RCat r (RStar r).
Definition ROpt (r : re) : re := RAlt REps r.
Definition RChar (c : ascii) : re := RClass (Ascii.eqb c).

Fixpoint nullable (r : re) : bool :=
  match r with
  | RVoid => false
  | REps => true
  | RClass _ => false
  | RCat r1 r2 => nullable r1 && nullable r2
  | RAlt r1 r2 => nullable r1 || nullable r2
  | RStar _ => true
  end.

Fixpoint deriv (a : ascii) (r : re) : re :=
  match r with
  | RVoid => RVoid
  | REps => RVoid
  | RClass p => if p a then REps else RVoid
  | RCat r1 r2 =>
      if nullable r1 then RAlt (RCat (deriv a r1) r2) (deriv a r2) else RCat (deriv a r1) r2
  | RAlt r1 r2 => RAlt (deriv a r1) (deriv a r2)
  | RStar r => RCat (deriv a r) (RStar r)
  end.

Fixpoint full_match (r : re) (s : string) : bool :=
  match s with
  | EmptyString => nullable r
  | String a s' => full_match (deriv a r) s'
  end.

(** ** The language of a pattern *)

Inductive lang : re -> string -> Prop :=
| lang_eps : lang REps EmptyString
| lang_class p a : p a = true -> lang (RClass p) (String a EmptyString)
| lang_cat r1 r2 s1 s2 : lang r1 s1 -> lang r2 s2 -> lang (RCat r1 r2) (s1 +:+ s2)
| lang_alt_l r1 r2 s : lang r1 s -> lang (RAlt r1 r2) s
| lang_alt_r r1 r2 s : lang r2 s -> lang (RAlt r1 r2) s
| lang_star_nil r : lang (RStar r) EmptyString
| lang_star_cons r s1 s2 : lang r s1 -> lang (RStar r) s2 -> lang (RStar r) (s1 +:+ s2).
#[export] Hint Constructors lang : uig.

Lemma append_empty (s t : string) : s +:+ t = EmptyString -> s = EmptyString /\ t = EmptyString.
Proof. destruct s; cbn; [done|done]. Qed.

Lemma nullable_lang r : nullable r = true <-> lang r EmptyString.
Proof.
  split.
  - induction r as [| | |r1 IH1 r2 IH2|r1 IH1 r2 IH2|r IH]; cbn; try done; eauto with uig.
    + intros [H1 H2]%andb_true_iff. change EmptyString with (EmptyString +:+ EmptyString).
      eauto with uig.
    + intros [H|H]%orb_true_iff; eauto with uig.
  - remember EmptyString as s eqn:Hs. intros Hl. revert Hs.
    induction Hl; intros Hs; cbn; try done.
    + apply append_empty in Hs as [-> ->]. by rewrite IHHl1, IHHl2.
    + by rewrite IHHl.
    + by rewrite IHHl, orb_true_r.
Qed.

Lemma deriv_sound a r s : lang (deriv a r) s -> lang r (String a s).
Proof.
  revert s. induction r as [| |p|r1 IH1 r2 IH2|r1 IH1 r2 IH2|r IH]; intros s; cbn.
  - inversion 1.
  - inversion 1.
  - destruct (p a) eqn:E; inversion 1; subst. by constructor.
  - assert (forall s, lang (RCat (deriv a r1) r2) s -> lang (RCat r1 r2) (String a s)) as Hcat.
    { intros s'. inversion 1 as [| |? ? s1 s2 H1 H2| | | |]; subst.
      apply (lang_cat r1 r2 (String a s1) s2); auto. }
    destruct (nullable r1) eqn:E; [|apply Hcat].
    inversion 1; subst; [by apply Hcat|]. apply (lang_cat r1 r2 EmptyString); [|auto].
    by apply nullable_lang.
  - inversion 1; subst; eauto with uig.
  - inversion 1 as [| |? ? s1 s2 H1 H2| | | |]; subst.
    apply (lang_star_cons r (String a s1) s2); auto.
Qed.

Lemma deriv_complete a r s : lang r (String a s) -> lang (deriv a r) s.
Proof.
  remember (String a s) as w eqn:Hw. intros Hl. revert s Hw.
  induction Hl as [|p b Hb|r1 r2 s1 s2 H1 IH1 H2 IH2|r1 r2 s' H IH|r1 r2 s' H IH|r
                  |r s1 s2 H1 IH1 H2 IH2]; intros s Hw; cbn; try done.
  - injection Hw as -> <-. rewrite Hb. constructor.
  - destruct s1 as [|b s1]; cbn in Hw.
    + apply nullable_lang in H1 as ->. apply lang_alt_r. auto.
    + injection Hw as -> <-. assert (lang (RCat (deriv a r1) r2) (s1 +:+ s2)) by eauto with uig.
      destruct (nullable r1); eauto with uig.
  - apply lang_alt_l. auto.
  - apply lang_alt_r. auto.
  - destruct s1 as [|b s1]; cbn in Hw; [by auto|]. injection Hw as -> <-. eauto with uig.
Qed.

Lemma full_match_lang r s : full_match r s = true <-> lang r s.
Proof.
  revert r. induction s as [|a s IH]; intros r; cbn; [apply nullable_lang|].
  rewrite IH. split; [apply deriv_sound|apply deriv_complete].
Qed.

(** ** Shapes of languages *)

Lemma lang_class_inv p s : lang (RClass p) s <-> exists a, s = String a EmptyString /\ p a = true.
Proof. split; [inversion 1; eauto|]. intros (a & -> & Ha). by constructor. Qed.

Lemma lang_star_class p s : lang (RStar (RClass p)) s <-> forall_byte p s = true.
Proof.
  split.
  - remember (RStar (RClass p)) as r eqn:Hr. intros Hl. revert Hr.
    induction Hl as [| | | | | |r s1 s2 H1 _ H2 IH]; intros Hr; simplify_eq; [done|].
    rewrite forall_byte_append, IH by done. apply lang_class_inv in H1 as (a & -> & Ha).
    cbn. by rewrite Ha.
  - induction s as [|a s IH]; cbn; [constructor|]. intros [Ha Hs]%andb_true_iff.
    apply (lang_star_cons _ (String a EmptyString) s); [by constructor|auto].
Qed.

Lemma lang_cat_inv r1 r2 s :
  lang (RCat r1 r2) s <-> exists s1 s2, s = s1 +:+ s2 /\ lang r1 s1 /\ lang r2 s2.
Proof. split; [inversion 1; eauto|]. intros (s1 & s2 & -> & ? & ?). by constructor. Qed.

Lemma lang_plus_class p s :
  lang (RPlus (RClass p)) s <-> s <> EmptyString /\ forall_byte p s = true.
Proof.
  unfold RPlus. rewrite lang_cat_inv. split.
  - intros (s1 & s2 & -> & H1 & H2). apply lang_class_inv in H1 as (a & -> & Ha).
    apply lang_star_class in H2. cbn. by rewrite Ha.
  - intros [Hne Hs]. destruct s as [|a s]; [done|]. cbn in Hs. bool_to_prop.
    exists (String a EmptyString), s. split_and!; [done|by constructor|].
    by apply lang_star_class.
Qed.
