(* ===== verification/Json.v ===== *)
(** * Json: values, Go's encoder, and the grammar of JSON texts

    Parts of [encoding/json] that the program uses on values it builds itself:
    [Marshal] and [MarshalIndent] of [any] values made of maps, slices and
    scalars.  A [map[string]any] is kept in the order the encoder prints it, by
    ascending key ([obj_set] is the assignment [m[k] = v]).  [json_text] is the
    grammar of JSON (RFC 8259), stated independently of the printers; the
    printers are shown to produce texts of it that denote the printed value. *)

From S2P Require Import Prelude GoStrings.
Set Warnings "-register-all,-clear-no-such-hyp".

Inductive json : Type :=
| JNull
| JBool (b : bool)
| JNumber (lit : string)
| JString (s : string)
| JArray (l : list json)
| JObject (l : list (string * json)).

#[export] Instance json_eq_dec : EqDecision json.
Proof.
  refine (fix go x y {struct x} : Decision (x = y) :=
    match x, y with
    | JNull, JNull => left eq_refl
    | JBool a, JBool b => cast_if (decide (a = b))
    | JNumber a, JNumber b => cast_if (decide (a = b))
    | JString a, JString b => cast_if (decide (a = b))
    | JArray l, JArray l' => cast_if (@list_eq_dec _ go l l')
    | JObject l, JObject l' => cast_if (@list_eq_dec _ (@prod_eq_dec _ _ _ go) l l')
    | _, _ => right _
    end); clear go; congruence.
Defined.

(** Induction with hypotheses for the members. *)
Section JsonInd.
Variable P : json -> Prop.
Hypothesis HNull : P JNull.
Hypothesis HBool : forall b, P (JBool b).
Hypothesis HNumber : forall n, P (JNumber n).
Hypothesis HString : forall s, P (JString s).
Hypothesis HArray : forall l, Forall P l -> P (JArray l).
Hypothesis HObject : forall l, Forall (fun kv => P kv.2) l -> P (JObject l).

Fixpoint json_rec_all (v : json) : P v :=
  match v with
  | JNull => HNull
  | JBool b => HBool b
  | JNumber n => HNumber n
  | JString s => HString s
  | JArray l => HArray l ((fix go l : Forall P l :=
      match l with [] => Forall_nil_2 _ | x :: l => Forall_cons_2 _ _ _ (json_rec_all x) (go l) end) l)
  | JObject l => HObject l ((fix go l : Forall (fun kv => P kv.2) l :=
      match l with [] => Forall_nil_2 _
      | (k, x) :: l => Forall_cons_2 _ (k, x) _ (json_rec_all x) (go l) end) l)
  end.
End JsonInd.

(** ** Maps with string keys, in ascending order of the key *)

Section Members.
Context {A : Type}.

Fixpoint obj_set (k : string) (v : A) (m : list (string * A)) : list (string * A) :=
  match m with
  | [] => [(k, v)]
  | (k', v') :: m' =>
      if String.eqb k k' then (k, v) :: m'
      else if str_less k k' then (k, v) :: m
      else (k', v') :: obj_set k v m'
  end.

Fixpoint obj_get (k : string) (m : list (string * A)) : option A :=
  match m with
  | [] => None
  | (k', v') :: m' => if String.eqb k k' then Some v' else obj_get k m'
  end.

(** Keys strictly ascending. *)
Definition keys_sorted (m : list (string * A)) : Prop :=
  StronglySorted (fun k k' => str_less k k' = true) (map fst m).

Lemma obj_set_keys k v m k' : k' ∈ map fst (obj_set k v m) <-> k' = k \/ k' ∈ map fst m.
Proof.
  induction m as [|[k1 v1] m IH]; cbn; [by rewrite !list_elem_of_In; cbn; naive_solver|].
  destruct (String.eqb_spec k k1) as [->|Hk]; cbn; [rewrite !elem_of_cons; tauto|].
  destruct (str_less k k1); cbn; rewrite ?elem_of_cons, ?IH, ?elem_of_cons; tauto.
Qed.

Lemma obj_get_set k v m k' :
  obj_get k' (obj_set k v m) = if String.eqb k' k then Some v else obj_get k' m.
Proof.
  induction m as [|[k1 v1] m IH]; cbn; [done|].
  destruct (String.eqb_spec k k1) as [->|Hk]; cbn; [by destruct (String.eqb k' k1)|].
  destruct (str_less k k1); cbn; [done|]. rewrite IH.
  destruct (String.eqb_spec k' k1) as [->|]; [|done].
  destruct (String.eqb_spec k1 k) as [->|]; done.
Qed.

Lemma obj_get_elem k v m : obj_get k m = Some v -> (k, v) ∈ m.
Proof.
  induction m as [|[k1 v1] m IH]; cbn; [done|].
  destruct (String.eqb_spec k k1) as [->|]; intros Hm; [injection Hm as ->; by left|right; auto].
Qed.

Lemma obj_set_sorted k v m : keys_sorted m -> keys_sorted (obj_set k v m).
Proof.
  unfold keys_sorted. induction m as [|[k1 v1] m IH]; cbn; intros Hm; [by repeat constructor|].
  apply StronglySorted_inv in Hm as [Hm Hk1]. rewrite Forall_forall in Hk1.
  destruct (String.eqb_spec k k1) as [->|Hk]; cbn; [by constructor; [|apply Forall_forall]|].
  destruct (str_less k k1) eqn:E; cbn.
  - repeat constructor; [done|by apply Forall_forall|done|]. apply Forall_forall. intros y Hy.
    eapply less_trans; [exact E|auto].
  - constructor; [by apply IH|]. apply Forall_forall. intros y [->|Hy]%obj_set_keys; [|auto].
    destruct (str_less_total _ _ E); [done|auto].
Qed.
End Members.

Definition obj_of {A} (l : list (string * A)) : list (string * A) :=
  fold_left (fun m kv => obj_set kv.1 kv.2 m) l [].

Lemma obj_fold_sorted {A B} (f : B -> string * A) l m :
  keys_sorted m -> keys_sorted (fold_left (fun m x => obj_set (f x).1 (f x).2 m) l m).
Proof. revert m. induction l; cbn; intros; [done|]. by apply IHl, obj_set_sorted. Qed.

Lemma obj_fold_keys {A B} (f : B -> string * A) l m k :
  k ∈ map fst (fold_left (fun m x => obj_set (f x).1 (f x).2 m) l m) <->
  k ∈ map (fun x => (f x).1) l \/ k ∈ map fst m.
Proof.
  revert m. induction l as [|x l IH]; cbn; intros m.
  - split; [auto|]. intros [H|H]; [by apply not_elem_of_nil in H|done].
  - rewrite IH, obj_set_keys, elem_of_cons. tauto.
Qed.

Lemma obj_set_Forall {A} (P : string * A -> Prop) k v m :
  P (k, v) -> Forall P m -> Forall P (obj_set k v m).
Proof.
  intros Hkv. induction 1 as [|[k1 v1] m Hx Hm IH]; cbn; [by constructor|].
  repeat case_match; by repeat constructor.
Qed.

Lemma obj_fold_Forall {A B} (P : string * A -> Prop) (f : B -> string * A) l m :
  Forall P m -> Forall (fun x => P (f x)) l ->
  Forall P (fold_left (fun m x => obj_set (f x).1 (f x).2 m) l m).
Proof.
  intros Hm Hl. revert m Hm. induction Hl as [|x l Hx Hl IH]; cbn; intros m Hm; [done|].
  apply IH, obj_set_Forall; [by destruct (f x)|done].
Qed.

(** *** A sorted map is determined by its lookups *)

Lemma obj_get_head_less {A} k k' (v : A) m :
  keys_sorted ((k', v) :: m) -> str_less k k' = true -> obj_get k ((k', v) :: m) = None.
Proof.
  intros [Hm Hk]%StronglySorted_inv Hlt. rewrite Forall_forall in Hk. cbn.
  destruct (String.eqb_spec k k') as [->|_]; [by rewrite less_irrefl in Hlt|].
  destruct (obj_get k m) as [x|] eqn:E; [|done]. apply obj_get_elem in E.
  assert (str_less k' k = true) as Hgt by (apply Hk, list_elem_of_fmap; by exists (k, x)).
  pose proof (less_trans _ _ _ Hlt Hgt) as Hbad. by rewrite less_irrefl in Hbad.
Qed.

Lemma obj_ext {A} (m m' : list (string * A)) :
  keys_sorted m -> keys_sorted m' -> (forall k, obj_get k m = obj_get k m') -> m = m'.
Proof.
  revert m'. induction m as [|[k v] m IH]; intros [|[k' v'] m'] Hm Hm' Hget.
  - done.
  - specialize (Hget k'). cbn in Hget. by rewrite String.eqb_refl in Hget.
  - specialize (Hget k). cbn in Hget. by rewrite String.eqb_refl in Hget.
  - assert (k' = k) as ->.
    { destruct (str_less k k') eqn:E.
      - specialize (Hget k). rewrite (obj_get_head_less _ _ _ _ Hm' E) in Hget. cbn in Hget.
        by rewrite String.eqb_refl in Hget.
      - destruct (str_less_total _ _ E) as [->|E']; [done|].
        specialize (Hget k'). rewrite (obj_get_head_less _ _ _ _ Hm E') in Hget. cbn in Hget.
        by rewrite String.eqb_refl in Hget. }
    pose proof (Hget k) as Hk. cbn in Hk. rewrite String.eqb_refl in Hk. injection Hk as ->.
    f_equal. pose proof (proj1 (StronglySorted_inv Hm)). pose proof (proj1 (StronglySorted_inv Hm')).
    apply IH; [done..|]. intros k0. specialize (Hget k0). cbn in Hget.
    destruct (String.eqb_spec k0 k) as [Hk0|]; [|done]. clear Hget. subst k0.
    destruct (StronglySorted_inv Hm) as [_ F]. destruct (StronglySorted_inv Hm') as [_ F'].
    rewrite Forall_forall in F, F'.
    destruct (obj_get k m) as [x|] eqn:E1.
    { apply obj_get_elem in E1. assert (str_less k k = true) as Hbad
        by (apply F, list_elem_of_fmap; by exists (k, x)). by rewrite less_irrefl in Hbad. }
    destruct (obj_get k m') as [x|] eqn:E2; [|done].
    apply obj_get_elem in E2. assert (str_less k k = true) as Hbad
      by (apply F', list_elem_of_fmap; by exists (k, x)). by rewrite less_irrefl in Hbad.
Qed.

Lemma obj_fold_get {A} (l m : list (string * A)) k :
  NoDup l.*1 ->
  obj_get k (fold_left (fun acc kv => obj_set kv.1 kv.2 acc) l m) =
  match obj_get k l with Some v => Some v | None => obj_get k m end.
Proof.
  revert m. induction l as [|[k1 v1] l IH]; intros m Hl; [done|].
  cbn in *. apply NoDup_cons in Hl as [Hk1 Hl]. rewrite IH by done. rewrite obj_get_set.
  destruct (String.eqb_spec k k1) as [->|]; [|done].
  destruct (obj_get k1 l) as [x|] eqn:E; [|done].
  exfalso. apply Hk1, list_elem_of_fmap. exists (k1, x). by split; [|apply obj_get_elem].
Qed.

Lemma obj_get_unique {A} k (v : A) l : NoDup l.*1 -> (k, v) ∈ l -> obj_get k l = Some v.
Proof.
  induction l as [|[k1 v1] l IH]; cbn; [by intros _ ?%not_elem_of_nil|].
  intros [Hk1 Hl]%NoDup_cons [[= -> ->]|Hin]%elem_of_cons; [by rewrite String.eqb_refl|].
  destruct (String.eqb_spec k k1) as [->|]; [|by apply IH].
  destruct Hk1. apply list_elem_of_fmap. by exists (k1, v).
Qed.

Lemma obj_get_perm {A} (l l' : list (string * A)) k : NoDup l.*1 -> l ≡ₚ l' -> obj_get k l = obj_get k l'.
Proof.
  intros Hl Hp. assert (NoDup l'.*1) as Hl' by (by rewrite <-Hp).
  destruct (obj_get k l) as [v|] eqn:E.
  - symmetry. apply obj_get_unique; [done|]. rewrite <-Hp. by apply obj_get_elem.
  - destruct (obj_get k l') as [v|] eqn:E'; [|done]. apply obj_get_elem in E'. rewrite <-Hp in E'.
    by rewrite (obj_get_unique _ _ _ Hl E') in E.
Qed.

Lemma obj_fold_perm {A} (l l' : list (string * A)) :
  NoDup l.*1 -> l ≡ₚ l' ->
  fold_left (fun acc kv => obj_set kv.1 kv.2 acc) l [] =
  fold_left (fun acc kv => obj_set kv.1 kv.2 acc) l' [].
Proof.
  intros Hl Hp. apply obj_ext; [by apply obj_fold_sorted; constructor..|].
  intros k. rewrite !obj_fold_get by (done || by rewrite <-Hp). by rewrite (obj_get_perm l l').
Qed.

Lemma keys_sorted_NoDup {A} (m : list (string * A)) : keys_sorted m -> NoDup m.*1.
Proof.
  unfold keys_sorted. induction m as [|[k v] m IH]; cbn in *; [constructor|].
  intros [Hm Hk]%StronglySorted_inv. apply NoDup_cons. split; [|by apply IH].
  intros Hin. rewrite Forall_forall in Hk. specialize (Hk k Hin). by rewrite less_irrefl in Hk.
Qed.

(** ** The encoder *)

Section Encode.
Local Open Scope string_scope.

Definition quote_mark : string := String (ascii_of_N 34) EmptyString.
Definition backslash (t : string) : string := String (ascii_of_N 92) t.
Definition unicode_escape (h : string) : string := backslash ("u" +:+ h).

(** An ASCII byte inside a string; <, > and & are escaped for HTML. *)
Definition json_byte (a : ascii) : string :=
  let n := N_of_ascii a in
  if N.eqb n 34 || N.eqb n 92 then backslash (String a EmptyString)
  else if N.eqb n 8 then backslash "b" else if N.eqb n 12 then backslash "f"
  else if N.eqb n 10 then backslash "n" else if N.eqb n 13 then backslash "r"
  else if N.eqb n 9 then backslash "t"
  else if (n <? 32)%N || N.eqb n 60 || N.eqb n 62 || N.eqb n 38
  then unicode_escape ("00" +:+ hex_byte n)
  else String a EmptyString.

Definition continuation (a : ascii) : bool := in_range 128 191 a.
Definition utf8_2 (a b : ascii) : bool := in_range 194 223 a && continuation b.
Definition utf8_3 (a b c : ascii) : bool :=
  let n := nat_of_ascii a in
  in_range 224 239 a && continuation c &&
  in_range (if Nat.eqb n 224 then 160 else 128) (if Nat.eqb n 237 then 159 else 191) b.
Definition utf8_4 (a b c d : ascii) : bool :=
  let n := nat_of_ascii a in
  in_range 240 244 a && continuation c && continuation d &&
  in_range (if Nat.eqb n 240 then 144 else 128) (if Nat.eqb n 244 then 143 else 191) b.

(** U+2028 and U+2029 are escaped, bytes that are not UTF-8 replaced. *)
Definition json_rune3 (a b c : ascii) : string :=
  let abc := String a (String b (String c EmptyString)) in
  if String.eqb abc (str_of [226; 128; 168]) then unicode_escape "2028"
  else if String.eqb abc (str_of [226; 128; 169]) then unicode_escape "2029"
  else abc.

Fixpoint json_body (s : string) : string :=
  match s with
  | EmptyString => EmptyString
  | String a s1 =>
      let invalid := unicode_escape "fffd" +:+ json_body s1 in
      if is_ascii a then json_byte a +:+ json_body s1 else
      match s1 with
      | String b s2 =>
          if utf8_2 a b then String a (String b (json_body s2)) else
          match s2 with
          | String c s3 =>
              if utf8_3 a b c then json_rune3 a b c +:+ json_body s3 else
              match s3 with
              | String d s4 =>
                  if utf8_4 a b c d
                  then String a (String b (String c (String d (json_body s4)))) else invalid
              | EmptyString => invalid
              end
          | EmptyString => invalid
          end
      | EmptyString => invalid
      end
  end.

Definition json_quote (s : string) : string := quote_mark +:+ json_body s +:+ quote_mark.

Definition json_bool (b : bool) : string := if b then "true" else "false".

(** [json.Marshal]. *)
Fixpoint Marshal (v : json) : string :=
  match v with
  | JNull => "null"
  | JBool b => json_bool b
  | JNumber lit => lit
  | JString s => json_quote s
  | JArray l => "[" +:+ Join (map Marshal l) "," +:+ "]"
  | JObject l =>
      "{" +:+ Join (map (fun kv => match kv with (k, x) => json_quote k +:+ ":" +:+ Marshal x end) l) ","
      +:+ "}"
  end.

Fixpoint Repeat (s : string) (n : nat) : string :=
  match n with 0 => EmptyString | S n => s +:+ Repeat s n end.
Definition line (ind : string) (n : nat) : string := String (ascii_of_N 10) (Repeat ind n).

(** [json.MarshalIndent] with an empty prefix, at nesting depth [n]. *)
Fixpoint indented (ind : string) (n : nat) (v : json) : string :=
  match v with
  | JArray ((_ :: _) as l) =>
      "[" +:+ line ind (S n) +:+ Join (map (indented ind (S n)) l) ("," +:+ line ind (S n))
      +:+ line ind n +:+ "]"
  | JObject ((_ :: _) as l) =>
      "{" +:+ line ind (S n)
      +:+ Join (map (fun kv => match kv with (k, x) => json_quote k +:+ ": " +:+ indented ind (S n) x end) l)
            ("," +:+ line ind (S n))
      +:+ line ind n +:+ "}"
  | _ => Marshal v
  end.
Definition MarshalIndent (v : json) (ind : string) : string := indented ind 0 v.
End Encode.

(** ** The grammar of JSON texts *)

Section Grammar.
Local Open Scope string_scope.

Definition is_ws (a : ascii) : bool :=
  let n := nat_of_ascii a in Nat.eqb n 32 || Nat.eqb n 10 || Nat.eqb n 13 || Nat.eqb n 9.
Definition ws (s : string) : Prop := forall_byte is_ws s = true.

(** The character an escape denotes. *)
Definition short_escape (a : ascii) : option ascii :=
  let n := nat_of_ascii a in
  if Nat.eqb n 34 || Nat.eqb n 92 || Nat.eqb n 47 then Some a
  else if Nat.eqb n 98 then Some (byte_of 8) else if Nat.eqb n 102 then Some (byte_of 12)
  else if Nat.eqb n 110 then Some (byte_of 10) else if Nat.eqb n 114 then Some (byte_of 13)
  else if Nat.eqb n 116 then Some (byte_of 9) else None.
Definition hex4 (a b c d : ascii) : option N :=
  match hex_value a, hex_value b, hex_value c, hex_value d with
  | Some w, Some x, Some y, Some z => Some (4096 * w + 256 * x + 16 * y + z)%N
  | _, _, _, _ => None
  end.
(** UTF-8 of a code point below 65536. *)
Definition utf8_encode (n : N) : string :=
  let b (x : N) := String (ascii_of_N x) EmptyString in
  (if n <? 128 then b n
   else if n <? 2048 then b (192 + n / 64) +:+ b (128 + n mod 64)
   else b (224 + n / 4096) +:+ b (128 + n / 64 mod 64) +:+ b (128 + n mod 64))%N.

(** [str_text s t]: between quotation marks, [t] denotes [s]. *)
Inductive str_text : string -> string -> Prop :=
| str_nil : str_text EmptyString EmptyString
| str_char a s t :
    32 <= nat_of_ascii a -> nat_of_ascii a <> 34 -> nat_of_ascii a <> 92 ->
    str_text s t -> str_text (String a s) (String a t)
| str_short a b s t :
    short_escape a = Some b -> str_text s t -> str_text (String b s) (backslash (String a t))
| str_unicode a b c d n s t :
    hex4 a b c d = Some n -> str_text s t ->
    str_text (utf8_encode n +:+ s)
             (unicode_escape (String a (String b (String c (String d t))))).

Definition digits (s : string) : bool := negb (str_empty s) && forall_byte is_digit s.
(** Numbers, without exponent. *)
Definition number_lit (s : string) : bool :=
  let '(i, f, dot) := Cut (TrimPrefix s "-") "." in
  digits i && (negb (HasPrefix i "0") || String.eqb i "0") && (negb dot || digits f).

Inductive json_text : json -> string -> Prop :=
| text_ws v w1 t w2 : ws w1 -> ws w2 -> json_text v t -> json_text v (w1 +:+ t +:+ w2)
| text_null : json_text JNull "null"
| text_bool b : json_text (JBool b) (json_bool b)
| text_number lit : number_lit lit = true -> json_text (JNumber lit) lit
| text_string s t : str_text s t -> json_text (JString s) (quote_mark +:+ t +:+ quote_mark)
| text_array_nil w : ws w -> json_text (JArray []) ("[" +:+ w +:+ "]")
| text_array l t : items_text l t -> json_text (JArray l) ("[" +:+ t +:+ "]")
| text_object_nil w : ws w -> json_text (JObject []) ("{" +:+ w +:+ "}")
| text_object l t : members_text l t -> json_text (JObject l) ("{" +:+ t +:+ "}")
with items_text : list json -> string -> Prop :=
| items_one v t : json_text v t -> items_text [v] t
| items_more v t l u : json_text v t -> items_text l u -> items_text (v :: l) (t +:+ "," +:+ u)
with members_text : list (string * json) -> string -> Prop :=
| members_one k v t : member_text k v t -> members_text [(k, v)] t
| members_more k v t l u :
    member_text k v t -> members_text l u -> members_text ((k, v) :: l) (t +:+ "," +:+ u)
with member_text : string -> json -> string -> Prop :=
| member k v w1 kt w2 t :
    ws w1 -> str_text k kt -> ws w2 -> json_text v t ->
    member_text k v (w1 +:+ (quote_mark +:+ kt +:+ quote_mark) +:+ w2 +:+ ":" +:+ t).

(** Values whose strings are ASCII and whose numbers are literals. *)
Fixpoint plain (v : json) : bool :=
  match v with
  | JNull | JBool _ => true
  | JNumber lit => number_lit lit
  | JString s => forall_byte is_ascii s
  | JArray l => forallb plain l
  | JObject l => forallb (fun kv => match kv with (k, x) => forall_byte is_ascii k && plain x end) l
  end.
End Grammar.

(** ** The encoder writes texts of the grammar *)

Section Sound.
Local Open Scope string_scope.

Lemma hex_byte_unicode a :
  is_ascii a = true ->
  exists c d, hex_byte (N_of_ascii a) = String c (String d EmptyString) /\
    hex4 "0" "0" c d = Some (N_of_ascii a) /\
    utf8_encode (N_of_ascii a) = String a EmptyString.
Proof.
  destruct a as [[] [] [] [] [] [] [] []]; cbn; try done; intros _;
    (do 2 eexists; split; [reflexivity|split; reflexivity]).
Qed.

Lemma json_byte_text a s t :
  is_ascii a = true -> str_text s t -> str_text (String a s) (json_byte a +:+ t).
Proof.
  intros Ha Ht. destruct (hex_byte_unicode a Ha) as (c & d & Hx & Hh & Hu).
  unfold json_byte.
  repeat match goal with |- context [if N.eqb (N_of_ascii a) ?k || N.eqb (N_of_ascii a) ?l then _ else _] =>
    destruct (N.eqb_spec (N_of_ascii a) k), (N.eqb_spec (N_of_ascii a) l); cbn [orb] end;
  repeat match goal with |- context [if N.eqb (N_of_ascii a) ?k then _ else _] =>
    destruct (N.eqb_spec (N_of_ascii a) k) end;
  try (match goal with H : N_of_ascii a = ?k |- _ =>
    rewrite <-(ascii_N_embedding a), H; by apply str_short end).
  destruct ((N_of_ascii a <? 32)%N || _ || _ || _) eqn:E.
  - rewrite Hx. cbn. rewrite <-(append_nil_r (String a s)).
    change (String a s) with (String a "" +:+ s). rewrite append_nil_r, <-Hu.
    by apply str_unicode.
  - rewrite !orb_false_iff, N.ltb_ge in E. cbn. apply str_char; [..|done];
      unfold nat_of_ascii; lia.
Qed.

Lemma json_body_ascii a s :
  is_ascii a = true -> json_body (String a s) = json_byte a +:+ json_body s.
Proof. intros Ha. cbn [json_body]. by rewrite Ha. Qed.

Lemma json_body_text s : forall_byte is_ascii s = true -> str_text s (json_body s).
Proof.
  induction s as [|a s IH]; cbn; [constructor|]. intros [Ha Hs]%andb_true_iff.
  rewrite Ha. apply json_byte_text; auto.
Qed.

Lemma json_quote_text s :
  forall_byte is_ascii s = true -> json_text (JString s) (json_quote s).
Proof. intros. by apply text_string, json_body_text. Qed.

Lemma ws_nil : ws "". Proof. done. Qed.
Lemma ws_append s t : ws s -> ws t -> ws (s +:+ t).
Proof. unfold ws. rewrite forall_byte_append. by intros -> ->. Qed.
Lemma ws_Repeat s n : ws s -> ws (Repeat s n).
Proof. intros. induction n; cbn; [done|by apply ws_append]. Qed.
Lemma ws_line s n : ws s -> ws (line s n).
Proof. intros. by apply (ws_append (String (ascii_of_N 10) "")), ws_Repeat. Qed.

Lemma text_ws_l v w t : ws w -> json_text v t -> json_text v (w +:+ t).
Proof. intros. rewrite <-(append_nil_r t). by apply text_ws. Qed.
Lemma text_ws_r v t w : ws w -> json_text v t -> json_text v (t +:+ w).
Proof. intros. by apply (text_ws v "" t w). Qed.

Lemma Join_cons w x l sep : Join (w :: x :: l) sep = w +:+ sep +:+ Join (x :: l) sep.
Proof. done. Qed.

(** A separated list of items, each printed between [pre] and the separator. *)
Lemma items_join (f : json -> string) pre post l :
  l <> [] -> ws pre -> ws post -> Forall (fun v => json_text v (f v)) l ->
  items_text l (pre +:+ Join (map f l) ("," +:+ pre) +:+ post).
Proof.
  intros Hl Hpre Hpost. induction 1 as [|v l Hv Hvs IH]; [done|].
  destruct l as [|v' l].
  - apply items_one, text_ws_l, text_ws_r; done.
  - cbn [map Join]. rewrite !append_assoc, <-(append_assoc pre (f v)).
    apply items_more; [by apply text_ws_l|]. by apply IH.
Qed.

Lemma member_ws k v sep t w :
  forall_byte is_ascii k = true -> ws sep -> ws w -> json_text v t ->
  member_text k v (json_quote k +:+ ":" +:+ sep +:+ t +:+ w).
Proof.
  intros. apply (member k v "" (json_body k) "" (sep +:+ t +:+ w));
    [done|by apply json_body_text|done|by apply text_ws].
Qed.

Lemma members_join (f : json -> string) sep pre post l :
  l <> [] -> ws sep -> ws pre -> ws post ->
  Forall (fun kv => forall_byte is_ascii kv.1 = true /\ json_text kv.2 (f kv.2)) l ->
  members_text l (pre +:+ Join (map (fun kv => match kv with (k, x) =>
      json_quote k +:+ ":" +:+ sep +:+ f x end) l) ("," +:+ pre) +:+ post).
Proof.
  intros Hl Hsep Hpre Hpost.
  assert (forall k v t, member_text k v t -> member_text k v (pre +:+ t)) as Hw.
  { intros k v t Ht. inversion_clear Ht. rewrite <-append_assoc. constructor; [by apply ws_append|done..]. }
  set (g := fun kv : string * json => match kv with (k, x) => json_quote k +:+ ":" +:+ sep +:+ f x end).
  assert (forall k v w, forall_byte is_ascii k = true -> json_text v (f v) -> ws w ->
            member_text k v (pre +:+ g (k, v) +:+ w)) as Hg.
  { intros. unfold g. rewrite !append_assoc. by apply Hw, member_ws. }
  clearbody g. induction 1 as [|[k v] l [Hk Hv] Hvs IH]; [done|]. cbn in Hk, Hv.
  destruct l as [|x l].
  - by apply members_one, Hg.
  - rewrite 2!map_cons, Join_cons, <-map_cons, !append_assoc.
    specialize (Hg k v "" Hk Hv ws_nil). rewrite append_nil_r in Hg.
    rewrite <-(append_assoc pre (g (k, v))). apply members_more; [done|]. by apply IH.
Qed.

Lemma forallb_Forall {A} (p : A -> bool) l : forallb p l = true <-> Forall (fun x => p x = true) l.
Proof. induction l; cbn; [done|]. by rewrite andb_true_iff, Forall_cons, IHl. Qed.

(** Plain members print as texts, if the members do. *)
Lemma plain_members (f : json -> string) l :
  Forall (fun kv => plain kv.2 = true -> json_text kv.2 (f kv.2)) l ->
  plain (JObject l) = true ->
  Forall (fun kv => forall_byte is_ascii kv.1 = true /\ json_text kv.2 (f kv.2)) l.
Proof.
  intros Hl Hp%forallb_Forall. rewrite Forall_forall in *. intros [k v] Hkv.
  specialize (Hp _ Hkv). apply andb_true_iff in Hp as [Hk Hv].
  split; [done|]. by apply (Hl _ Hkv).
Qed.

Lemma plain_items (f : json -> string) l :
  Forall (fun v => plain v = true -> json_text v (f v)) l ->
  plain (JArray l) = true -> Forall (fun v => json_text v (f v)) l.
Proof. intros Hl Hp%forallb_Forall. rewrite Forall_forall in *. auto. Qed.

Lemma Marshal_text v : plain v = true -> json_text v (Marshal v).
Proof.
  induction v as [| | |s|l IH|l IH] using json_rec_all; intros Hp.
  - constructor.
  - constructor.
  - by constructor.
  - by apply json_quote_text.
  - destruct l as [|x l]; [by apply (text_array_nil "")|]. apply text_array.
    pose proof (items_join Marshal "" "" (x :: l)) as H. rewrite append_nil_r in H.
    apply H; [done..|]. by apply plain_items.
  - destruct l as [|x l]; [by apply (text_object_nil "")|]. apply text_object.
    pose proof (members_join Marshal "" "" "" (x :: l)) as H. rewrite append_nil_r in H.
    apply H; [done..|]. by apply plain_members.
Qed.

Lemma indented_text ind v : ws ind -> plain v = true -> forall n, json_text v (indented ind n v).
Proof.
  intros Hind.
  induction v as [| | |s|l IH|l IH] using json_rec_all; intros Hp m;
    try (exact (Marshal_text _ Hp)).
  - destruct l as [|x l]; [by apply (text_array_nil "")|].
    cut (items_text (x :: l) (line ind (S m) +:+ Join (map (indented ind (S m)) (x :: l))
           ("," +:+ line ind (S m)) +:+ line ind m)).
    { intros H%text_array. rewrite !append_assoc in H. exact H. }
    apply items_join; [done|by apply ws_line..|].
    apply plain_items; [|done]. eapply Forall_impl; [exact IH|]. cbn. auto.
  - destruct l as [|x l]; [by apply (text_object_nil "")|].
    assert (ws " ") as Hsp by done.
    pose proof (members_join (indented ind (S m)) " " (line ind (S m)) (line ind m) (x :: l)
      ltac:(done) Hsp (ws_line _ _ Hind) (ws_line _ _ Hind)) as H.
    cut (members_text (x :: l) (line ind (S m) +:+ Join (map (fun kv => match kv with (k, v) =>
           json_quote k +:+ ": " +:+ indented ind (S m) v end) (x :: l))
           ("," +:+ line ind (S m)) +:+ line ind m)).
    { intros Ht%text_object. rewrite !append_assoc in Ht. exact Ht. }
    apply H, plain_members; [|done]. eapply Forall_impl; [exact IH|]. cbn. auto.
Qed.

Lemma MarshalIndent_text ind v : ws ind -> plain v = true -> json_text v (MarshalIndent v ind).
Proof. intros. by apply indented_text. Qed.
End Sound.
