(* ===== verification/GraphQL.v ===== *)
(** * GraphQL: example operations derived from a GraphQL schema

    Models [internal/specparser/graphql.go].  Parsing and validating SDL is
    gqlparser's: [LoadSchema] is a parameter, and of its syntax tree the fields
    the code reads are records here.  gqlparser leaves no nil in the lists and
    types of a loaded schema, so the nil tests of the source have no
    counterpart, except for the three root types.  Maps that are only built,
    sorted and printed are kept sorted (Json); [visited], which one tree of
    calls shares and mutates, is threaded as state. *)

From S2P Require Import Prelude GoStrings Effects Json.
Set Warnings "-register-all,-clear-no-such-hyp".
Open Scope string_scope.

(** ** The syntax tree of a schema *)

Inductive Type_ : Type := mkType {
  NamedType : string; Elem : option Type_; NonNull : bool
}.
Record Value := mkValue { Raw : string }.
Record Argument := mkArgument { ar_Name : string; ar_Value : option Value }.
Record Directive := mkDirective { di_Name : string; di_Arguments : list Argument }.
Record ArgumentDefinition := mkArgumentDefinition { ad_Name : string; ad_Type : Type_ }.
Record FieldDefinition := mkFieldDefinition {
  fd_Name : string; fd_Description : string; fd_Arguments : list ArgumentDefinition;
  fd_Type : Type_; fd_Directives : list Directive
}.
Inductive DefinitionKind := Scalar | Object | Interface | Union | Enum | InputObject.
Record Definition_ := mkDefinition {
  Kind : DefinitionKind; Fields : list FieldDefinition; MemberTypes : list string;
  EnumValues : list string
}.
Record Schema := mkSchema {
  Types : gmap string Definition_;
  Query : option Definition_; Mutation : option Definition_; Subscription : option Definition_
}.
Record Source := mkSource { so_Name : string; so_Input : string }.

(** gqlparser. *)
Class GraphQLParser := { LoadSchema : list Source -> result string Schema }.

#[export] Instance DefinitionKind_eq_dec : EqDecision DefinitionKind.
Proof. solve_decision. Defined.

Definition is_leaf_kind (k : DefinitionKind) : bool :=
  match k with Scalar | Enum => true | _ => false end.
Definition is_composite_kind (k : DefinitionKind) : bool :=
  match k with Object | Interface | Union => true | _ => false end.

(** ** Types and signatures *)

Fixpoint formatType (t : Type_) : string :=
  match Elem t with
  | Some e =>
      let inner := "[" +:+ formatType e +:+ "]" in
      if NonNull t then inner +:+ "!" else inner
  | None => if NonNull t then NamedType t +:+ "!" else NamedType t
  end.

Fixpoint getBaseTypeName (t : Type_) : string :=
  match Elem t with Some e => getBaseTypeName e | None => NamedType t end.

Definition args_list (l : list string) : string :=
  match l with [] => "" | _ => "(" +:+ Join l ", " +:+ ")" end.

Definition buildFieldSignature (field : FieldDefinition) : string :=
  fd_Name field
  +:+ args_list (map (fun a => ad_Name a +:+ ": " +:+ formatType (ad_Type a)) (fd_Arguments field))
  +:+ ": " +:+ formatType (fd_Type field).

Definition directive (name : string) (ds : list Directive) : option Directive :=
  List.find (fun d => String.eqb (di_Name d) name) ds.
Definition argument (name : string) (l : list Argument) : option Argument :=
  List.find (fun a => String.eqb (ar_Name a) name) l.

Definition buildTags (field : FieldDefinition) (kind : string) : list string :=
  [kind]
  ++ (match directive "deprecated" (fd_Directives field) with Some _ => ["deprecated"] | None => [] end)
  ++ map (fun d => "@" +:+ di_Name d)
       (List.filter (fun d => negb (str_empty (di_Name d) || String.eqb (di_Name d) "deprecated"))
          (fd_Directives field))
  ++ (let ret := getBaseTypeName (fd_Type field) in
      if str_empty ret then [] else ["returns:" +:+ ret]).

(** The reason of a deprecation, and the description with it. *)
Definition deprecation_reason (dep : Directive) : string :=
  match argument "reason" (di_Arguments dep) with
  | Some (mkArgument _ (Some v)) =>
      if str_empty (TrimSpace (Raw v)) then "No reason provided"
      else TrimByte (Raw v) (ascii_of_nat 34)
  | _ => "No reason provided"
  end.
Definition newline : string := String (ascii_of_nat 10) EmptyString.
Definition describe (field : FieldDefinition) : string :=
  let desc := TrimSpace (fd_Description field) in
  match directive "deprecated" (fd_Directives field) with
  | Some dep =>
      (if str_empty desc then desc else desc +:+ newline +:+ newline)
      +:+ "DEPRECATED: " +:+ deprecation_reason dep
  | None => desc
  end.

(** ** The selection tree *)

(** [Fragments] is sorted by type name. *)
Inductive selNode : Type := mkNode {
  FieldName : string; Children : list selNode; Fragments : list (string * list selNode);
  IsLeaf : bool; ReturnType : option Type_
}.

(** [map[string]bool], where a missing key reads as false. *)
#[local] Abbreviation visited_map := (gmap string bool).
Definition visited_at (v : visited_map) (b : string) : bool := default false (v !! b).

Definition kind_of (sch : Schema) (name : string) : option DefinitionKind :=
  Kind <$> Types sch !! name.
Definition has_kind (sch : Schema) (p : DefinitionKind -> bool) (t : Type_) : bool :=
  match kind_of sch (getBaseTypeName t) with Some k => p k | None => false end.

Section Selection.
Context (sch : Schema) (MaxScalarFields MaxObjectFields : nat).

(** The loop over the fields without a selection; [n] are selected so far. *)
Fixpoint scalar_fields (n : nat) (fs : list FieldDefinition) : list selNode :=
  match fs with
  | [] => []
  | f :: fs =>
      if has_kind sch is_leaf_kind (fd_Type f) then
        mkNode (fd_Name f) [] [] true (Some (fd_Type f))
        :: (if MaxScalarFields <=? S n then [] else scalar_fields (S n) fs)%nat
      else scalar_fields n fs
  end.

(** The loop over the fields with one; [rec] is the recursive call. *)
Fixpoint object_fields (rec : Type_ -> visited_map -> list selNode * visited_map)
    (n : nat) (fs : list FieldDefinition) (visited : visited_map) : list selNode * visited_map :=
  match fs with
  | [] => ([], visited)
  | f :: fs =>
      if has_kind sch is_composite_kind (fd_Type f) then
        let '(child, visited1) := rec (fd_Type f) visited in
        let node := mkNode (fd_Name f) child [] (match child with [] => true | _ => false end)
                      (Some (fd_Type f)) in
        if (MaxObjectFields <=? S n)%nat then ([node], visited1)
        else let '(rest, visited2) := object_fields rec (S n) fs visited1 in (node :: rest, visited2)
      else object_fields rec n fs visited
  end.

Definition object_selection (rec : Type_ -> visited_map -> list selNode * visited_map)
    (MaxDepth : nat) (def : Definition_) (visited : visited_map) : list selNode * visited_map :=
  let scalars := scalar_fields 0 (Fields def) in
  let '(objects, visited1) :=
    if (1 <? MaxDepth)%nat && (0 <? MaxObjectFields)%nat
    then object_fields rec 0 (Fields def) visited else ([], visited) in
  (app scalars objects, visited1).

(** Fragments on the member types that the schema defines. *)
Fixpoint fragments (sel : Definition_ -> visited_map -> list selNode * visited_map)
    (members : list string) (m : list (string * list selNode)) (visited : visited_map) :
    list (string * list selNode) * visited_map :=
  match members with
  | [] => (m, visited)
  | mt :: members =>
      match Types sch !! mt with
      | None => fragments sel members m visited
      | Some mtDef =>
          let '(child, visited1) := sel mtDef visited in
          fragments sel members (obj_set mt child m) visited1
      end
  end.

Definition union_node (m : list (string * list selNode)) : selNode := mkNode "" [] m false None.

Fixpoint buildSelectionTree (MaxDepth : nat) (returnType : Type_) (visited : visited_map) :
    list selNode * visited_map :=
  let base := getBaseTypeName returnType in
  if str_empty base then ([], visited) else
  if visited_at visited base then ([], visited) else
  let visited1 : visited_map := <[base := true]> visited in
  let leave (r : list selNode * visited_map) : list selNode * visited_map :=
    (r.1, <[base := false]> r.2) in
  match Types sch !! base with
  | None => leave ([], visited1)
  | Some def =>
      if is_leaf_kind (Kind def) then leave ([], visited1) else
      match MaxDepth with
      | O => leave ([], visited1)
      | S d =>
          match Kind def with
          | Object | Interface =>
              leave (object_selection (buildSelectionTree d) MaxDepth def visited1)
          | Union =>
              let '(m, visited2) :=
                fragments (object_selection (buildSelectionTree (Nat.pred d)) d)
                  (take 2 (MemberTypes def)) [] visited1 in
              leave ([union_node m], visited2)
          | _ => leave ([], visited1)
          end
      end
  end.

Definition buildObjectSelection (MaxDepth : nat) (def : Definition_) (visited : visited_map) :
    list selNode * visited_map :=
  object_selection (buildSelectionTree (Nat.pred MaxDepth)) MaxDepth def visited.
End Selection.

(** ** The request document *)

Section Render.

Definition nonempty {A} (l : list A) : bool := match l with [] => false | _ => true end.

Fixpoint render_node (indentSpaces : nat) (n : selNode) : string :=
  let indent := Repeat " " indentSpaces in
  let inner ns := Join (map (render_node (indentSpaces + 2)) ns) newline in
  match n with
  | mkNode name children frags leaf _ =>
      if str_empty name && nonempty frags then
        Join (map (fun kf => match kf with (k, ns) =>
          let child := inner ns in
          indent +:+ "... on " +:+ k +:+ " {" +:+ newline
          +:+ (if str_empty (TrimSpace child) then "" else child +:+ newline) +:+ indent +:+ "}"
        end) frags) newline
      else
        indent +:+ name +:+
        (if leaf || negb (nonempty children) then "" else
         let child := inner children in
         if str_empty (TrimSpace child) then ""
         else " {" +:+ newline +:+ child +:+ newline +:+ indent +:+ "}")
  end.

Definition renderSelectionSet (nodes : list selNode) (indentSpaces : nat) : string :=
  Join (map (render_node indentSpaces) nodes) newline.

Definition renderVarDefs (args : list ArgumentDefinition) : string :=
  args_list (map (fun a => "$" +:+ ad_Name a +:+ ": " +:+ formatType (ad_Type a)) args).
Definition renderArgCalls (args : list ArgumentDefinition) : string :=
  args_list (map (fun a => ad_Name a +:+ ": $" +:+ ad_Name a) args).

(** [regexp.Split(s, -1)] by runs of the bytes in [p]. *)
Fixpoint split_runs (p : ascii -> bool) (s : string) : list string :=
  match s with
  | EmptyString => [EmptyString]
  | String a s' =>
      if p a then
        match s' with
        | String b _ => if p b then split_runs p s' else "" :: split_runs p s'
        | EmptyString => "" :: split_runs p s'
        end
      else match split_runs p s' with w :: ws => String a w :: ws | [] => [String a EmptyString] end
  end.
Definition is_alnum (a : ascii) : bool := is_lower a || is_upper a || is_digit a.

(** [strings.ToUpper] of the first byte, which is a letter or a digit. *)
Definition capitalize (s : string) : string :=
  match s with EmptyString => EmptyString | String a s' => String (upper_byte a) s' end.
Definition toPascal (s : string) : string :=
  String.concat "" (map capitalize (split_runs (fun a => negb (is_alnum a)) (TrimSpace s))).

Definition renderRequestExample (kind fieldName : string) (args : list ArgumentDefinition)
    (selectionSet : string) : string :=
  map_bytes lower_byte kind +:+ " " +:+ (toPascal kind +:+ toPascal fieldName) +:+ renderVarDefs args
  +:+ " {" +:+ newline +:+ "  " +:+ fieldName +:+ renderArgCalls args
  +:+ (if str_empty (TrimSpace selectionSet) then ""
       else " {" +:+ newline +:+ selectionSet +:+ newline +:+ "  }")
  +:+ newline +:+ "}".
End Render.

(** ** Example values *)

Definition builtin_example (name : string) : option json :=
  if String.eqb name "String" || String.eqb name "ID" then Some (JString "example")
  else if String.eqb name "Int" then Some (JNumber "123")
  else if String.eqb name "Float" then Some (JNumber "123.45")
  else if String.eqb name "Boolean" then Some (JBool true)
  else None.

Section Values.
Context (sch : Schema).

(** Input values, two levels of input objects deep. *)
Fixpoint exampleJSONValueForType (depth : nat) : Type_ -> json :=
  fix go (t : Type_) : json :=
    match Elem t with
    | Some e => JArray [go e]
    | None =>
        match builtin_example (NamedType t) with
        | Some v => v
        | None =>
            match Types sch !! NamedType t with
            | None => JObject []
            | Some def =>
                match Kind def, EnumValues def, depth with
                | Enum, v :: _, _ => JString v
                | InputObject, _, S d =>
                    JObject (fold_left (fun m f =>
                      obj_set (fd_Name f) (exampleJSONValueForType d (fd_Type f)) m) (Fields def) [])
                | _, _, _ => JObject []
                end
            end
        end
    end.

Definition variables (args : list ArgumentDefinition) : list (string * json) :=
  fold_left (fun m a => obj_set (ad_Name a) (exampleJSONValueForType 2 (ad_Type a)) m) args [].

Definition buildVariablesJSON (args : list ArgumentDefinition) (indentSpaces : nat) : string :=
  match args with
  | [] => "{}"
  | _ =>
      "{" +:+ newline
      +:+ Join (map (fun kv => match kv with (k, v) =>
                  Repeat " " indentSpaces +:+ Quote k +:+ ": " +:+ Marshal v end) (variables args))
            ("," +:+ newline)
      +:+ newline +:+ "}"
  end.

Definition field_index (fs : list FieldDefinition) : gmap string FieldDefinition :=
  fold_left (fun m f => <[fd_Name f := f]> m) fs ∅.

(** One member per selected field the type has; [value] is the recursive call. *)
Definition object_with (value : Type_ -> list selNode -> json) (baseType : string)
    (sel : list selNode) : list (string * json) :=
  match Types sch !! baseType with
  | None => []
  | Some def =>
      fold_left (fun obj n =>
        if str_empty (FieldName n) then obj else
        match field_index (Fields def) !! FieldName n with
        | None => obj
        | Some fd => obj_set (FieldName n) (value (fd_Type fd) (Children n)) obj
        end) sel []
  end.

(** The selection a composite value is built from: of fragments the first. *)
Definition response_selection (sel : list selNode) : list selNode :=
  match sel with
  | [mkNode name _ ((_, frag) :: _) _ _] => if str_empty name then frag else sel
  | _ => sel
  end.

Fixpoint exampleResponseValue (depth : nat) : Type_ -> list selNode -> json :=
  fix go (t : Type_) (sel : list selNode) : json :=
    match Elem t with
    | Some e => JArray [go e sel]
    | None =>
        match builtin_example (NamedType t) with
        | Some v => v
        | None =>
            match Types sch !! NamedType t with
            | None => JObject []
            | Some def =>
                match Kind def, EnumValues def, depth, sel with
                | Enum, v :: _, _, _ => JString v
                | Enum, [], _, _ => JString "ENUM_VALUE"
                | _, _, S d, _ :: _ =>
                    JObject (object_with (exampleResponseValue d) (NamedType t) (response_selection sel))
                | _, _, _, _ => JObject []
                end
            end
        end
    end.

Definition objectFromSelection (baseType : string) (sel : list selNode) (depth : nat) :
    list (string * json) :=
  object_with (exampleResponseValue depth) baseType sel.

Definition response_value (rootFieldName : string) (returnType : Type_) (sel : list selNode) : json :=
  JObject [("data", JObject [(rootFieldName, exampleResponseValue 3 returnType sel)])].
Definition renderResponseExample (rootFieldName : string) (returnType : Type_)
    (sel : list selNode) (indentSpaces : nat) : string :=
  MarshalIndent (response_value rootFieldName returnType sel) (Repeat " " indentSpaces).
End Values.

(** ** Operations *)

Record ParsedGraphQLOperation := mkOperation {
  op_OperationID : string; op_Name : string; op_Kind : string; op_Signature : string;
  op_Description : string; op_Variables : string; op_RequestExample : string;
  op_ResponseExample : string; op_Tags : list string
}.

Definition no_limit : nat := 100 * 100.

(** The selection of a root field: depth 10, and 10000 fields of either sort. *)
Definition root_selection (sch : Schema) (field : FieldDefinition) : list selNode :=
  (buildSelectionTree sch no_limit no_limit 10 (fd_Type field) ∅).1.

Definition parseFieldAsOperation (sch : Schema) (field : FieldDefinition) (kind : string) :
    ParsedGraphQLOperation :=
  let sel := root_selection sch field in
  let selectionSet := renderSelectionSet sel 2 in
  {| op_OperationID := fd_Name field;
     op_Name := fd_Name field;
     op_Kind := kind;
     op_Signature := buildFieldSignature field;
     op_Description := describe field;
     op_Variables := buildVariablesJSON sch (fd_Arguments field) 2;
     op_RequestExample := renderRequestExample kind (fd_Name field) (fd_Arguments field) selectionSet;
     op_ResponseExample := renderResponseExample sch (fd_Name field) (fd_Type field) sel 2;
     op_Tags := buildTags field kind |}.

Definition extractOperationsFromType (sch : Schema) (typeDef : option Definition_) (kind : string) :
    list ParsedGraphQLOperation :=
  match typeDef with
  | None => []
  | Some def =>
      map (fun f => parseFieldAsOperation sch f kind)
        (List.filter (fun f => negb (HasPrefix (fd_Name f) "__")) (Fields def))
  end.

Definition by_kind_name (x y : ParsedGraphQLOperation) : bool :=
  if String.eqb (op_Kind x) (op_Kind y) then str_less (op_Name x) (op_Name y)
  else str_less (op_Kind x) (op_Kind y).

Definition operations (sch : Schema) : list ParsedGraphQLOperation :=
  app (extractOperationsFromType sch (Query sch) "Query")
    (app (extractOperationsFromType sch (Mutation sch) "Mutation")
      (extractOperationsFromType sch (Subscription sch) "Subscription")).

Definition ParseGraphQLSchemas `{GraphQLParser} (schemaContents : list string) :
    result string (list ParsedGraphQLOperation) :=
  match schemaContents with
  | [] => Err "no schema contents provided"
  | _ =>
      match LoadSchema (imap (fun i content =>
              mkSource ("schema_" +:+ Itoa (Z.of_nat i) +:+ ".graphql") content) schemaContents) with
      | Err e => Err ("failed to parse GraphQL schemas: " +:+ e)
      | Ok schema => Ok (sort_stable by_kind_name (operations schema))
      end
  end.

Definition ParseGraphQL `{GraphQLParser} (specContent : string) :
    result string (list ParsedGraphQLOperation) :=
  ParseGraphQLSchemas [specContent].

(** ** The selection without the shared map

    [select] is the same tree as a function of the types on the path from the
    root: fields without a selection, then fields with one, each sort cut at
    its limit. *)

Definition path_of (v : visited_map) (path : list string) : Prop :=
  forall b, visited_at v b = mem_str b path.

Lemma path_of_empty : path_of ∅ [].
Proof. intros b. unfold visited_at. by rewrite lookup_empty. Qed.

Lemma path_of_enter v path b : path_of v path -> path_of (<[b := true]> v) (b :: path).
Proof.
  intros Hv b'. specialize (Hv b'). unfold visited_at in *. cbn.
  destruct (String.eqb_spec b' b) as [->|Hb]; [by rewrite lookup_insert_eq|].
  by rewrite lookup_insert_ne by congruence.
Qed.

Lemma path_of_leave v path b :
  mem_str b path = false -> path_of v (b :: path) -> path_of (<[b := false]> v) path.
Proof.
  intros Hb Hv b'. specialize (Hv b'). unfold visited_at in *. cbn in Hv.
  destruct (decide (b' = b)) as [Heq|Hne]; [subst b'; by rewrite lookup_insert_eq|].
  rewrite lookup_insert_ne by congruence. by destruct (String.eqb_spec b' b).
Qed.

Section Reference.
Context (sch : Schema) (MaxScalarFields MaxObjectFields : nat).
#[local] Abbreviation build := (buildSelectionTree sch MaxScalarFields MaxObjectFields).
#[local] Abbreviation objsel := (object_selection sch MaxScalarFields MaxObjectFields).

Definition leaf_node (f : FieldDefinition) : selNode :=
  mkNode (fd_Name f) [] [] true (Some (fd_Type f)).
Definition composite_node (rec : Type_ -> list selNode) (f : FieldDefinition) : selNode :=
  let child := rec (fd_Type f) in
  mkNode (fd_Name f) child [] (negb (nonempty child)) (Some (fd_Type f)).

Definition select_fields (rec : Type_ -> list selNode) (deep : bool) (def : Definition_) :
    list selNode :=
  app (take (Nat.max 1 MaxScalarFields)
         (map leaf_node (List.filter (fun f => has_kind sch is_leaf_kind (fd_Type f)) (Fields def))))
      (if deep
       then take MaxObjectFields (map (composite_node rec)
              (List.filter (fun f => has_kind sch is_composite_kind (fd_Type f)) (Fields def)))
       else []).

Definition select_fragments (sel : Definition_ -> list selNode) (members : list string) :
    list (string * list selNode) :=
  fold_left (fun m mt => match Types sch !! mt with
    | Some def => obj_set mt (sel def) m | None => m end) members [].

Fixpoint select (d : nat) (path : list string) (t : Type_) : list selNode :=
  let base := getBaseTypeName t in
  if str_empty base || mem_str base path then [] else
  match Types sch !! base, d with
  | Some def, S d =>
      let path := base :: path in
      match Kind def with
      | Object | Interface => select_fields (select d path) (0 <? d)%nat def
      | Union =>
          [union_node (select_fragments (select_fields (select (Nat.pred d) path) (1 <? d)%nat)
             (take 2 (MemberTypes def)))]
      | _ => []
      end
  | _, _ => []
  end.

(** A call that behaves as [r] on every map for [path], and restores it. *)
Definition implements {A} (path : list string) (call : visited_map -> A * visited_map) (r : A) : Prop :=
  forall v, path_of v path -> (call v).1 = r /\ path_of (call v).2 path.

Lemma scalar_fields_spec fs n :
  scalar_fields sch MaxScalarFields n fs =
  take (Nat.max 1 (MaxScalarFields - n))
    (map leaf_node (List.filter (fun f => has_kind sch is_leaf_kind (fd_Type f)) fs)).
Proof.
  revert n. induction fs as [|f fs IH]; intros n; cbn; [by rewrite take_nil|].
  destruct (has_kind sch is_leaf_kind (fd_Type f)); [|apply IH]. cbn.
  destruct (Nat.leb_spec MaxScalarFields (S n)) as [Hle|Hgt].
  - replace (Nat.max 1 (MaxScalarFields - n)) with 1 by lia. done.
  - replace (Nat.max 1 (MaxScalarFields - n)) with (S (Nat.max 1 (MaxScalarFields - S n))) by lia.
    cbn. by rewrite IH.
Qed.

Lemma object_fields_spec path rec r fs n :
  (forall t, implements path (rec t) (r t)) -> n < MaxObjectFields ->
  implements path (object_fields sch MaxObjectFields rec n fs)
    (take (MaxObjectFields - n) (map (composite_node r)
       (List.filter (fun f => has_kind sch is_composite_kind (fd_Type f)) fs))).
Proof.
  intros Hrec. revert n. induction fs as [|f fs IH]; intros n Hn v Hv; cbn; [by rewrite take_nil|].
  destruct (has_kind sch is_composite_kind (fd_Type f)); [|by apply IH].
  destruct (Hrec (fd_Type f) v Hv) as [Hr Hv1]. destruct (rec (fd_Type f) v) as [child v1].
  cbn in Hr, Hv1. subst child. cbn [map].
  replace (MaxObjectFields - n) with (S (MaxObjectFields - S n)) by lia. cbn [take].
  assert ((match r (fd_Type f) with [] => true | _ => false end) = negb (nonempty (r (fd_Type f))))
    as -> by (by destruct (r (fd_Type f))).
  destruct (Nat.leb_spec MaxObjectFields (S n)) as [Hle|Hgt].
  - replace (MaxObjectFields - S n) with 0 by lia. done.
  - destruct (IH (S n) Hgt v1 Hv1) as [Hrest Hv2].
    destruct (object_fields _ _ rec (S n) fs v1) as [rest v2]. cbn in *. by subst rest.
Qed.

Lemma object_selection_spec path rec r d def :
  (forall t, implements path (rec t) (r t)) ->
  implements path (objsel rec d def) (select_fields r (1 <? d)%nat def).
Proof.
  intros Hrec v Hv. unfold object_selection, select_fields.
  rewrite scalar_fields_spec, Nat.sub_0_r.
  destruct (1 <? d)%nat; cbn [andb]; [|done].
  destruct (Nat.ltb_spec 0 MaxObjectFields) as [Hpos|Hz].
  - destruct (object_fields_spec path rec r (Fields def) 0 Hrec Hpos v Hv) as [Hr Hv1].
    rewrite Nat.sub_0_r in Hr. destruct (object_fields _ _ _ _ _ _). cbn in *. by subst.
  - by replace MaxObjectFields with 0 by lia.
Qed.

Lemma fragments_spec path sel r members :
  (forall def, implements path (sel def) (r def)) ->
  forall m, implements path (fragments sch sel members m)
    (fold_left (fun m mt => match Types sch !! mt with
       | Some def => obj_set mt (r def) m | None => m end) members m).
Proof.
  intros Hsel. induction members as [|mt members IH]; intros m v Hv; cbn; [done|].
  destruct (Types sch !! mt) as [def|]; [|by apply IH].
  destruct (Hsel def v Hv) as [Hr Hv1]. destruct (sel def v) as [child v1]. cbn in *. subst child.
  by apply IH.
Qed.

Lemma build_spec d : forall path t, implements path (build d t) (select d path t).
Proof.
  induction (lt_wf d) as [d _ IH]. intros path t v Hv.
  assert (forall d', d' < d -> forall path t, implements path (build d' t) (select d' path t)) as Hrec
    by (intros d' Hd'; exact (IH d' Hd')). clear IH.
  pose (base := getBaseTypeName t).
  assert (forall r : list selNode * visited_map, path_of r.2 (base :: path) ->
            mem_str base path = false -> path_of (<[base := false]> r.2) path) as Hleave
    by (intros; by apply path_of_leave).
  pose proof (path_of_enter v path base Hv) as Hin.
  destruct d as [|d]; cbn [buildSelectionTree select]; fold base;
    (destruct (str_empty base); cbn [orb]; [done|]);
    rewrite (Hv base); (destruct (mem_str base path) eqn:Hb; [done|]);
    (destruct (Types sch !! base) as [def|]; [|by split; [|apply path_of_leave]]).
  - destruct (is_leaf_kind (Kind def)); by split; [|apply path_of_leave].
  - assert (forall t, implements (base :: path) (build d t) (select d (base :: path) t)) as Hd
      by (intros; apply Hrec; lia).
    assert (forall t, implements (base :: path) (build (Nat.pred d) t) (select (Nat.pred d) (base :: path) t))
      as Hp by (intros; apply Hrec; lia).
    destruct (Kind def) eqn:Hk; cbn [is_leaf_kind]; try (by split; [|apply path_of_leave]).
    + pose proof (object_selection_spec _ _ _ (S d) def Hd _ Hin) as [Hr Hv1].
      split; [exact Hr|]. by apply path_of_leave.
    + pose proof (object_selection_spec _ _ _ (S d) def Hd _ Hin) as [Hr Hv1].
      split; [exact Hr|]. by apply path_of_leave.
    + pose proof (fragments_spec _ _ _ (take 2 (MemberTypes def))
        (fun def => object_selection_spec _ _ _ d def Hp) [] _ Hin) as [Hr Hv1].
      destruct (fragments _ _ _ _ _) as [m v2]. cbn in *. subst m.
      split; [done|by apply path_of_leave].
Qed.
End Reference.

(** ** Typing of selection trees

    [node_ok sch d path parent n]: [n] selects, on the type [parent], a field
    that type has, with at most [d] levels of fields from here on, and entering
    no type of [path] by a field. *)

Inductive node_ok (sch : Schema) : nat -> list string -> string -> selNode -> Prop :=
| leaf_ok d path parent def f :
    Types sch !! parent = Some def -> f ∈ Fields def ->
    has_kind sch is_leaf_kind (fd_Type f) = true -> (0 < d)%nat ->
    node_ok sch d path parent (leaf_node f)
| composite_ok d e path parent def f children :
    Types sch !! parent = Some def -> f ∈ Fields def ->
    has_kind sch is_composite_kind (fd_Type f) = true -> (e < d)%nat ->
    (children <> [] -> getBaseTypeName (fd_Type f) ∉ path) ->
    Forall (node_ok sch e (getBaseTypeName (fd_Type f) :: path) (getBaseTypeName (fd_Type f))) children ->
    node_ok sch d path parent
      (mkNode (fd_Name f) children [] (negb (nonempty children)) (Some (fd_Type f)))
| fragments_ok d e path parent def m :
    Types sch !! parent = Some def -> Kind def = Union -> keys_sorted m -> (e <= d)%nat ->
    Forall (fun kf => kf.1 ∈ take 2 (MemberTypes def) /\ is_Some (Types sch !! kf.1) /\
                      Forall (node_ok sch e path kf.1) kf.2) m ->
    node_ok sch d path parent (union_node m).

Section Typing.
Context (sch : Schema) (MaxScalarFields MaxObjectFields : nat).
#[local] Abbreviation sel := (select sch MaxScalarFields MaxObjectFields).

Lemma select_fields_ok d e path parent def (rec : Type_ -> list selNode) (deep : bool) :
  Types sch !! parent = Some def -> e < d ->
  (forall t, rec t <> [] -> getBaseTypeName t ∉ path) ->
  (deep = true -> forall t,
     Forall (node_ok sch e (getBaseTypeName t :: path) (getBaseTypeName t)) (rec t)) ->
  Forall (node_ok sch d path parent) (select_fields sch MaxScalarFields MaxObjectFields rec deep def).
Proof.
  intros Hdef He Hin Hrec. unfold select_fields. apply Forall_app. split.
  - apply Forall_take, Forall_forall. intros n (f & -> & Hf)%list_elem_of_fmap_1.
    rewrite list_elem_of_In, List.filter_In, <-list_elem_of_In in Hf. destruct Hf. eapply leaf_ok; eauto; lia.
  - destruct deep; [|constructor]. apply Forall_take, Forall_forall.
    intros n (f & -> & Hf)%list_elem_of_fmap_1.
    rewrite list_elem_of_In, List.filter_In, <-list_elem_of_In in Hf. destruct Hf.
    eapply composite_ok; eauto.
Qed.

Lemma select_fragments_ok d path members (r : Definition_ -> list selNode) (P : string -> Prop) :
  (forall mt def, Types sch !! mt = Some def -> Forall (node_ok sch d path mt) (r def)) ->
  Forall P members ->
  let m := select_fragments sch r members in
  keys_sorted m /\
  Forall (fun kf => P kf.1 /\ is_Some (Types sch !! kf.1) /\ Forall (node_ok sch d path kf.1) kf.2) m.
Proof.
  intros Hr Hm. cbn zeta. unfold select_fragments.
  assert (keys_sorted (@nil (string * list selNode)) /\
    Forall (fun kf => P kf.1 /\ is_Some (Types sch !! kf.1) /\ Forall (node_ok sch d path kf.1) kf.2)
      (@nil (string * list selNode))) as Hnil by (by split; constructor).
  revert Hnil. generalize (@nil (string * list selNode)). induction Hm as [|mt members Hmt Hm IH];
    cbn; intros m [Hs Hall]; [done|].
  destruct (Types sch !! mt) as [def|] eqn:Hdef; [|by apply IH].
  apply IH. split; [by apply obj_set_sorted|]. apply obj_set_Forall; [|done]. cbn. eauto.
Qed.

(** What is selected of a type is typed by it; nothing is selected of a type
    on the path. *)
Lemma select_ok d : forall path t,
  (sel d path t <> [] -> getBaseTypeName t ∉ path) /\
  Forall (node_ok sch d (getBaseTypeName t :: path) (getBaseTypeName t)) (sel d path t).
Proof.
  induction (lt_wf d) as [d _ IH]. intros path t.
  pose (base := getBaseTypeName t).
  destruct d as [|d]; cbn [select]; fold base;
    destruct (str_empty base); cbn [orb]; try (by split; [|constructor]);
    (destruct (mem_str base path) eqn:Hb; [by split; [|constructor]|apply mem_str_not_In in Hb]);
    (destruct (Types sch !! base) as [def|] eqn:Hdef; [|by split; [|constructor]]);
    [by split; [|constructor]|]. split; [done|].
  assert (forall e k deep mt def', (deep = true -> e < S k)%nat -> (k = e \/ deep = false) -> e <= d ->
    Types sch !! mt = Some def' ->
    Forall (node_ok sch (S k) (base :: path) mt)
      (select_fields sch MaxScalarFields MaxObjectFields (sel e (base :: path)) deep def')) as Hobj.
  { intros e k deep mt def' Hek Hk He Hmt. destruct deep.
    - destruct Hk as [->|]; [|done]. apply (select_fields_ok _ e); [done|lia| |].
      + intros. by apply (proj1 (IH e ltac:(lia) _ _)).
      + intros _ t'. apply (IH e); lia.
    - apply (select_fields_ok _ 0); [done|lia| |done].
      intros. by apply (proj1 (IH e ltac:(lia) _ _)). }
  destruct (Kind def) eqn:Hk; try constructor; try (by apply Hobj; auto); [|constructor].
  pose (k := if (1 <? d)%nat then Nat.pred d else 0).
  destruct (select_fragments_ok (S k) (base :: path) (take 2 (MemberTypes def))
    (select_fields sch MaxScalarFields MaxObjectFields (sel (Nat.pred d) (base :: path)) (1 <? d)%nat)
    (fun k => k ∈ take 2 (MemberTypes def))) as [Hs Hall].
  - intros mt def' Hmt. apply Hobj; [|..|lia|done]; unfold k; destruct (Nat.ltb_spec 1 d); auto; lia.
  - by apply Forall_forall.
  - eapply (fragments_ok _ _ (S k)); [done|done|done| |done].
    unfold k. destruct (Nat.ltb_spec 1 d); lia.
Qed.
End Typing.

(** ** Typing of example values *)

Lemma Type_rec_elem (P : Type_ -> Prop) :
  (forall n nn, P (mkType n None nn)) -> (forall n e nn, P e -> P (mkType n (Some e) nn)) ->
  forall t, P t.
Proof. intros Hn He. fix IH 1. intros [n [e|] nn]; [apply He, IH|apply Hn]. Qed.

Definition builtin_ok (name : string) (v : json) : bool :=
  match v with
  | JString _ => String.eqb name "String" || String.eqb name "ID"
  | JNumber lit =>
      number_lit lit && (String.eqb name "Float" || (String.eqb name "Int" && negb (Contains lit ".")))
  | JBool _ => String.eqb name "Boolean"
  | _ => false
  end.
Definition is_builtin (name : string) : bool :=
  mem_str name ["String"; "ID"; "Int"; "Float"; "Boolean"].

(** [input_value sch d t v]: [v] is an input of the type [t], input objects complete down to
    [d] levels: a list for a list, one of its values for an enum, and for an input object a member
    for each of its fields and no other.  An empty object stands for an input object below
    that level, and for a type with nothing to choose from: one the schema has not, a scalar
    of its own, an enum without values, a type of results. *)
Inductive input_value (sch : Schema) : nat -> Type_ -> json -> Prop :=
| input_list d n e nn v : input_value sch d e v -> input_value sch d (mkType n (Some e) nn) (JArray [v])
| input_builtin d n nn v : builtin_ok n v = true -> plain v = true -> input_value sch d (mkType n None nn) v
| input_enum d n nn def s :
    is_builtin n = false -> Types sch !! n = Some def -> Kind def = Enum -> s ∈ EnumValues def ->
    input_value sch d (mkType n None nn) (JString s)
| input_object d n nn def m :
    is_builtin n = false -> Types sch !! n = Some def -> Kind def = InputObject -> keys_sorted m ->
    (forall k, k ∈ map fst m <-> k ∈ map fd_Name (Fields def)) ->
    Forall (fun kv => exists f, f ∈ Fields def /\ fd_Name f = kv.1 /\ input_value sch d (fd_Type f) kv.2) m ->
    input_value sch (S d) (mkType n None nn) (JObject m)
| input_nothing d n nn :
    is_builtin n = false ->
    (forall def, Types sch !! n = Some def ->
       match Kind def with Enum => EnumValues def = [] | InputObject => d = 0 | _ => True end) ->
    input_value sch d (mkType n None nn) (JObject []).

(** The field [k] is one the selection asks for and the type has. *)
Definition asked_for (def : Definition_) (sel : list selNode) (k : string) : Prop :=
  k <> "" /\ k ∈ map FieldName sel /\ k ∈ map fd_Name (Fields def).

(** [result_value sch d t sel v]: [v] answers the selection [sel] on a field of the type [t],
    complete down to [d] levels of objects: the members of an object are the fields of its
    type that are selected - of a union, those the first fragment selects on the union itself - and no others,
    each with an answer to its own selection.  An empty object stands for a type the schema
    has not, and for an object below that level or of which nothing is selected. *)
Inductive result_value (sch : Schema) : nat -> Type_ -> list selNode -> json -> Prop :=
| result_list d n e nn sel v :
    result_value sch d e sel v -> result_value sch d (mkType n (Some e) nn) sel (JArray [v])
| result_builtin d n nn sel v :
    builtin_ok n v = true -> plain v = true -> result_value sch d (mkType n None nn) sel v
| result_enum d n nn sel def s :
    is_builtin n = false -> Types sch !! n = Some def -> Kind def = Enum ->
    (EnumValues def = [] /\ s = "ENUM_VALUE") \/ s ∈ EnumValues def ->
    result_value sch d (mkType n None nn) sel (JString s)
| result_object d n nn sel def m :
    is_builtin n = false -> Types sch !! n = Some def -> Kind def <> Enum -> sel <> [] -> keys_sorted m ->
    (forall k, k ∈ map fst m <-> asked_for def (response_selection sel) k) ->
    Forall (fun kv => exists f x, f ∈ Fields def /\ fd_Name f = kv.1 /\ x ∈ response_selection sel /\
                        FieldName x = kv.1 /\ result_value sch d (fd_Type f) (Children x) kv.2) m ->
    result_value sch (S d) (mkType n None nn) sel (JObject m)
| result_nothing d n nn sel :
    is_builtin n = false ->
    (forall def, Types sch !! n = Some def -> Kind def <> Enum /\ (d = 0 \/ sel = [])) ->
    result_value sch d (mkType n None nn) sel (JObject []).

Lemma builtin_example_spec name :
  match builtin_example name with
  | Some v => builtin_ok name v = true /\ plain v = true
  | None => is_builtin name = false
  end.
Proof.
  unfold builtin_example, is_builtin, mem_str. cbn [existsb].
  destruct (String.eqb_spec name "String") as [->|]; [done|].
  destruct (String.eqb_spec name "ID") as [->|]; [done|].
  destruct (String.eqb_spec name "Int") as [->|]; [done|].
  destruct (String.eqb_spec name "Float") as [->|]; [done|].
  by destruct (String.eqb_spec name "Boolean") as [->|].
Qed.

Lemma keys_sorted_nil {A} : keys_sorted (@nil (string * A)).
Proof. constructor. Qed.
#[local] Hint Resolve keys_sorted_nil : core.

Section ValueTyping.
Context (sch : Schema).

Lemma exampleJSONValueForType_input depth t :
  input_value sch depth t (exampleJSONValueForType sch depth t).
Proof.
  revert t. induction depth as [|d IH]; intros t;
    (induction t as [n nn|n e nn IHt] using Type_rec_elem;
     [|by apply input_list]); cbn;
    generalize (builtin_example_spec n);
    (destruct (builtin_example n) as [v|]; [intros [? ?]; by apply input_builtin|intros Hb]);
    (destruct (Types sch !! n) as [def|] eqn:Hdef; [|apply input_nothing; [done|congruence]]);
    (destruct (Kind def) eqn:Hk, (EnumValues def) as [|v vs] eqn:Hv;
       try (apply input_nothing; [done|intros ?; rewrite Hdef; intros [= <-]; by rewrite Hk]);
       try (apply (input_enum _ _ _ _ def); [done..|]; rewrite Hv; by left)).
  all: pose (g := fun f => (fd_Name f, exampleJSONValueForType sch d (fd_Type f))).
  all: apply (input_object _ _ _ _ def); [done..|by apply (obj_fold_sorted g)| |].
  all: try (apply (obj_fold_Forall _ g); [done|]; apply Forall_forall; intros f Hf; cbn; eauto).
  all: intros k; pose proof (obj_fold_keys g (Fields def) [] k) as H; cbn in H; rewrite H;
    split; [|auto]; intros [Hin|Hin]; [done|by apply not_elem_of_nil in Hin].
Qed.

Lemma field_index_elem fs k f : field_index fs !! k = Some f -> f ∈ fs /\ fd_Name f = k.
Proof.
  unfold field_index.
  assert (forall m : gmap string FieldDefinition,
    (forall k f, m !! k = Some f -> fd_Name f = k) ->
    fold_left (fun m f => <[fd_Name f := f]> m) fs m !! k = Some f ->
    (f ∈ fs \/ m !! k = Some f) /\ fd_Name f = k) as H.
  { induction fs as [|g fs IH]; cbn; intros m Hm Hk; [eauto|].
    destruct (IH _ ltac:(intros k' f'; rewrite lookup_insert_Some; naive_solver) Hk) as [Hor Hn].
    split; [|done]. rewrite lookup_insert_Some in Hor. set_solver. }
  intros Hk. destruct (H ∅ ltac:(by intros ??; rewrite lookup_empty) Hk) as [[?|Hf] ?]; [done|].
  by rewrite lookup_empty in Hf.
Qed.

Lemma field_index_none fs k : field_index fs !! k = None <-> k ∉ map fd_Name fs.
Proof.
  unfold field_index.
  assert (forall m : gmap string FieldDefinition,
    fold_left (fun m f => <[fd_Name f := f]> m) fs m !! k = None <-> (k ∉ map fd_Name fs) /\ m !! k = None) as H.
  { induction fs as [|g fs IH]; cbn; intros m; [set_solver|]. rewrite IH, lookup_insert_None. set_solver. }
  rewrite H, lookup_empty. naive_solver.
Qed.

(** The members of an object are the fields of its type that are selected, each with the
    value of its type for the selection below it. *)
Lemma object_with_spec (value : Type_ -> list selNode -> json) base def sel
    (P : Type_ -> list selNode -> json -> Prop) :
  Types sch !! base = Some def -> (forall t s, P t s (value t s)) ->
  let m := object_with sch value base sel in
  keys_sorted m /\ (forall k, k ∈ map fst m <-> asked_for def sel k) /\
  Forall (fun kv => exists f x, f ∈ Fields def /\ fd_Name f = kv.1 /\ x ∈ sel /\ FieldName x = kv.1 /\
                      P (fd_Type f) (Children x) kv.2) m.
Proof.
  intros Hdef HP. cbn zeta. unfold object_with, asked_for. rewrite Hdef.
  set (step := fun obj n => _).
  assert (forall s m0, keys_sorted m0 ->
    (forall x, x ∈ s -> x ∈ sel) ->
    Forall (fun kv => exists f x, f ∈ Fields def /\ fd_Name f = kv.1 /\ x ∈ sel /\ FieldName x = kv.1 /\
              P (fd_Type f) (Children x) kv.2) m0 ->
    let m := fold_left step s m0 in
    keys_sorted m /\
    (forall k, k ∈ map fst m <-> (k <> "" /\ k ∈ map FieldName s /\ k ∈ map fd_Name (Fields def)) \/ k ∈ map fst m0) /\
    Forall (fun kv => exists f x, f ∈ Fields def /\ fd_Name f = kv.1 /\ x ∈ sel /\ FieldName x = kv.1 /\
              P (fd_Type f) (Children x) kv.2) m) as H.
  2:{ destruct (H sel [] ltac:(done) ltac:(done) ltac:(constructor)) as (Hs & Hk & Hall). split_and!; [done| |done].
      intros k. rewrite Hk. set_solver. }
  induction s as [|x s IH]; cbn [fold_left map]; intros m0 Hs Hin Hall; [split_and!; [done|set_solver|done]|].
  assert (step m0 x = m0 /\ ~ (FieldName x <> "" /\ FieldName x ∈ map fd_Name (Fields def)) \/
    FieldName x <> "" /\ exists f, f ∈ Fields def /\ fd_Name f = FieldName x /\
      step m0 x = obj_set (FieldName x) (value (fd_Type f) (Children x)) m0) as [[-> Hno]|(Hne & f & Hf & Hn & ->)].
  { unfold step. destruct (str_empty (FieldName x)) eqn:He; [left; split; [done|]; destruct (FieldName x); naive_solver|].
    destruct (field_index (Fields def) !! FieldName x) as [f|] eqn:Hi.
    - apply field_index_elem in Hi as [Hf Hn]. right. split; [intros E; by rewrite E in He|]. by exists f.
    - apply field_index_none in Hi. left. split; [done|]. naive_solver. }
  - destruct (IH m0 Hs ltac:(set_solver) Hall) as (Hs' & Hk & Hall'). split_and!; [done| |done].
    intros k. rewrite Hk, elem_of_cons. clear -Hno. destruct (decide (k = FieldName x)); naive_solver.
  - destruct (IH (obj_set (FieldName x) (value (fd_Type f) (Children x)) m0)) as (Hs' & Hk & Hall').
    { by apply obj_set_sorted. } { set_solver. }
    { apply obj_set_Forall; [|done]. exists f, x. split_and!; [done..|set_solver|done|apply HP]. }
    split_and!; [done| |done]. intros k. rewrite Hk, obj_set_keys.
    assert (FieldName x ∈ map fd_Name (Fields def)) as Hx
      by (rewrite <-Hn; by apply list_elem_of_fmap_2). rewrite elem_of_cons. clear -Hne Hx. destruct (decide (k = FieldName x)); naive_solver.
Qed.

Lemma exampleResponseValue_result depth t sel :
  result_value sch depth t sel (exampleResponseValue sch depth t sel).
Proof.
  revert t sel. induction depth as [|d IH]; intros t sel;
    (induction t as [n nn|n e nn IHt] using Type_rec_elem;
     [|by apply result_list]); cbn;
    generalize (builtin_example_spec n);
    (destruct (builtin_example n) as [v|]; [intros [? ?]; by apply result_builtin|intros Hb]);
    (destruct (Types sch !! n) as [def|] eqn:Hdef; [|apply result_nothing; [done|congruence]]).
  - destruct (Kind def) eqn:Hk, (EnumValues def) as [|v vs] eqn:Hv;
      try (apply result_nothing; [done|]; intros ?; rewrite Hdef; intros [= <-]; rewrite Hk; by auto);
      apply (result_enum _ _ _ _ _ def); rewrite ?Hv; auto. right. by left.
  - destruct (object_with_spec (exampleResponseValue sch d) n def (response_selection sel) (result_value sch d))
      as (Hs & Hkeys & Hall); [done..|].
    destruct (Kind def) eqn:Hk, (EnumValues def) as [|v vs] eqn:Hv, sel as [|x xs];
      try (apply result_nothing; [done|]; intros ?; rewrite Hdef; intros [= <-]; rewrite Hk; by auto);
      try (apply (result_object _ _ _ _ _ def); by rewrite ?Hk);
      apply (result_enum _ _ _ _ _ def); rewrite ?Hv; auto; right; by left.
Qed.
End ValueTyping.

(** ** The printed examples are JSON *)

(** A GraphQL name: letters, digits and underscores, no digit first. *)
Definition is_word (a : ascii) : bool := is_alnum a || Ascii.eqb a "_".
Definition is_name (s : string) : bool :=
  match s with
  | EmptyString => false
  | String a _ => negb (is_digit a) && forall_byte is_word s
  end.

Lemma is_word_ascii a : is_word a = true -> is_ascii a = true.
Proof. by destruct a as [[] [] [] [] [] [] [] []]. Qed.
Lemma is_name_word s : is_name s = true -> forall_byte is_word s = true.
Proof. destruct s; [done|]. by intros [_ ?]%andb_true_iff. Qed.
Lemma is_name_ascii s : is_name s = true -> forall_byte is_ascii s = true.
Proof. intros Hs%is_name_word. by apply (forall_byte_impl is_word); [apply is_word_ascii|]. Qed.

(** On a name, [%q] writes what the JSON encoder writes. *)
Lemma Quote_name s : forall_byte is_word s = true -> Quote s = json_quote s.
Proof.
  intros Hs. unfold Quote, json_quote, quote_mark. f_equal. f_equal.
  induction s as [|a s IH]; [done|]. apply andb_true_iff in Hs as [Ha Hs].
  rewrite json_body_ascii, <-IH by auto using is_word_ascii. cbn [quote_body append]. f_equal.
  by destruct a as [[] [] [] [] [] [] [] []].
Qed.

(** The names and enum values of a schema are ASCII, as its grammar has it. *)
Definition ascii_schema (sch : Schema) : Prop :=
  forall n def, Types sch !! n = Some def ->
    Forall (fun f => forall_byte is_ascii (fd_Name f) = true) (Fields def) /\
    Forall (fun s => forall_byte is_ascii s = true) (EnumValues def).

Lemma input_plain sch v : ascii_schema sch -> forall d t, input_value sch d t v -> plain v = true.
Proof.
  intros Hsch. induction v as [|b|lit|s|l IH|l IH] using json_rec_all; intros d t Ht; inversion Ht; subst; try done.
  - match goal with Hd : Types sch !! _ = Some _ |- _ => destruct (Hsch _ _ Hd) as [_ Hall] end.
    rewrite Forall_forall in Hall. by apply Hall.
  - cbn. match goal with He : input_value _ _ _ _ |- _ => by rewrite (Forall_inv IH _ _ He) end.
  - match goal with Hd : Types sch !! _ = Some _, Hm : Forall _ l |- _ =>
      destruct (Hsch _ _ Hd) as [Hall _]; rename Hm into Hmem end.
    apply forallb_Forall. rewrite Forall_forall in Hall. rewrite Forall_forall in Hmem, IH |- *. intros [k x] Hkx.
    destruct (Hmem _ Hkx) as (f & Hf & Hname & Hx). cbn in Hname. subst k. rewrite (Hall f Hf). by apply (IH _ Hkx _ _ Hx).
Qed.

Lemma result_plain sch v : ascii_schema sch -> forall d t sel, result_value sch d t sel v -> plain v = true.
Proof.
  intros Hsch. induction v as [|b|lit|s|l IH|l IH] using json_rec_all; intros d t sel Ht; inversion Ht; subst; try done.
  - match goal with Hv : _ \/ _ ∈ _ |- _ => destruct Hv as [[_ ->]|Hv]; [done|] end.
    match goal with Hd : Types sch !! _ = Some _ |- _ => destruct (Hsch _ _ Hd) as [_ Hall] end.
    rewrite Forall_forall in Hall. by apply Hall.
  - cbn. match goal with He : result_value _ _ _ _ _ |- _ => by rewrite (Forall_inv IH _ _ _ He) end.
  - match goal with Hd : Types sch !! _ = Some _, Hm : Forall _ l |- _ =>
      destruct (Hsch _ _ Hd) as [Hall _]; rename Hm into Hmem end.
    apply forallb_Forall. rewrite Forall_forall in Hall. rewrite Forall_forall in Hmem, IH |- *. intros [k x] Hkx.
    destruct (Hmem _ Hkx) as (f & y & Hf & Hname & _ & _ & Hx). cbn in Hname. subst k. rewrite (Hall f Hf).
    by apply (IH _ Hkx _ _ _ Hx).
Qed.

Lemma ws_spaces n : ws (Repeat " " n).
Proof. by apply ws_Repeat. Qed.

Lemma renderResponseExample_text sch root t sel k :
  ascii_schema sch -> forall_byte is_ascii root = true ->
  json_text (response_value sch root t sel) (renderResponseExample sch root t sel k).
Proof.
  intros Hsch Hroot. apply MarshalIndent_text; [apply ws_spaces|].
  unfold response_value. cbn [plain forallb]. rewrite Hroot.
  by rewrite (result_plain sch _ Hsch 3 t sel (exampleResponseValue_result sch 3 t sel)).
Qed.

Lemma Join_prefix (g : string * json -> string) ind sep l :
  l <> [] ->
  ind +:+ Join (map g l) (sep +:+ ind) = Join (map (fun x => ind +:+ g x) l) sep.
Proof.
  induction l as [|x l IH]; [done|]. intros _. destruct l as [|y l]; [done|].
  specialize (IH ltac:(done)). rewrite !map_cons in *. rewrite !Join_cons, <-IH. by rewrite !append_assoc.
Qed.

Lemma variables_spec sch args :
  let m := variables sch args in
  keys_sorted m /\ (forall k, k ∈ map fst m <-> k ∈ map ad_Name args) /\
  Forall (fun kv => exists a, a ∈ args /\ ad_Name a = kv.1 /\ input_value sch 2 (ad_Type a) kv.2) m.
Proof.
  pose (f := fun a => (ad_Name a, exampleJSONValueForType sch 2 (ad_Type a))). cbn zeta. split_and!.
  - by apply (obj_fold_sorted f).
  - intros k. pose proof (obj_fold_keys f args [] k) as H. cbn in H. unfold variables. rewrite H.
    split; [|auto]. intros [Hk|Hk]; [done|by apply not_elem_of_nil in Hk].
  - apply (obj_fold_Forall _ f); [constructor|]. apply Forall_forall. intros a Ha.
    exists a. split_and!; [done|done|]. apply exampleJSONValueForType_input.
Qed.

Lemma buildVariablesJSON_text sch args k :
  ascii_schema sch -> Forall (fun a => is_name (ad_Name a) = true) args ->
  json_text (JObject (variables sch args)) (buildVariablesJSON sch args k).
Proof.
  intros Hsch Hargs. destruct args as [|a args]; [by apply (text_object_nil "")|].
  destruct (variables_spec sch (a :: args)) as (_ & Hkeys & Hall).
  unfold buildVariablesJSON. set (m := variables sch (a :: args)) in *. clearbody m.
  rewrite Forall_forall in Hargs. rewrite Forall_forall in Hall.
  assert (m <> []) as Hm.
  { intros ->. apply (not_elem_of_nil (ad_Name a)), Hkeys. by left. }
  assert (Forall (fun kv => is_name kv.1 = true /\ plain kv.2 = true) m) as Hkv.
  { apply Forall_forall. intros kv Hin. destruct (Hall kv Hin) as (b & Hb & <- & Hc).
    split; [by apply Hargs|]. by eapply input_plain. }
  rewrite (map_ext_Forall _ (fun kv => Repeat " " k +:+
    match kv with (k, x) => json_quote k +:+ ":" +:+ " " +:+ Marshal x end)).
  2:{ eapply Forall_impl; [exact Hkv|]. intros [key v] [Hn _]. by rewrite Quote_name by (by apply is_name_word). }
  rewrite <-Join_prefix by done.
  pose proof (members_join Marshal " " (newline +:+ Repeat " " k) newline m Hm) as H.
  assert (members_text m ((newline +:+ Repeat " " k) +:+ Join (map (fun kv => match kv with (k, x) =>
      json_quote k +:+ ":" +:+ " " +:+ Marshal x end) m) ("," +:+ newline +:+ Repeat " " k) +:+ newline)) as Ht.
  { apply H; [done|by apply (ws_append newline), ws_spaces|done|].
    eapply Forall_impl; [exact Hkv|]. intros kv [Hn Hp]. split; [by apply is_name_ascii|by apply Marshal_text]. }
  apply text_object in Ht. rewrite !append_assoc in Ht. rewrite !append_assoc. exact Ht.
Qed.

(** ** The grammar of requests

    The executable part of GraphQL's grammar that a request uses.  Spaces,
    line breaks and commas are ignored tokens. *)

Definition is_ignored (a : ascii) : bool := is_ws a || Ascii.eqb a ",".
Definition ign (s : string) : Prop := forall_byte is_ignored s = true.

Inductive type_text : string -> Prop :=
| type_name n : is_name n = true -> type_text n
| type_name_nn n : is_name n = true -> type_text (n +:+ "!")
| type_list t : type_text t -> type_text ("[" +:+ t +:+ "]")
| type_list_nn t : type_text t -> type_text ("[" +:+ t +:+ "]!").

Inductive selection_text : string -> Prop :=
| field_plain n : is_name n = true -> selection_text n
| field_nested n w s :
    is_name n = true -> ign w -> set_text s -> selection_text (n +:+ w +:+ s)
| fragment_inline n w s :
    is_name n = true -> ign w -> set_text s -> selection_text ("... on " +:+ n +:+ w +:+ s)
with selections_text : string -> Prop :=
| selections_one w s : ign w -> selection_text s -> selections_text (w +:+ s)
| selections_more s w t :
    selections_text s -> ign w -> w <> "" -> selections_text t -> selections_text (s +:+ w +:+ t)
with set_text : string -> Prop :=
| set_braces s w : selections_text s -> ign w -> set_text ("{" +:+ s +:+ w +:+ "}").

(** [fmt] maps the items of a list between parentheses; none without items. *)
Inductive listed_text (item : string -> Prop) : string -> Prop :=
| listed_none : listed_text item ""
| listed_some l w :
    l <> [] -> Forall item l -> ign w -> w <> "" -> listed_text item ("(" +:+ Join l w +:+ ")").

Definition variable_definition_text (s : string) : Prop :=
  exists n t, s = "$" +:+ n +:+ ": " +:+ t /\ is_name n = true /\ type_text t.
Definition argument_text (s : string) : Prop :=
  exists n, s = n +:+ ": $" +:+ n /\ is_name n = true.

(** An operation with one root field, the field with a selection set or none. *)
Inductive operation_text : string -> Prop :=
| operation kind name vars field args w1 w2 set w3 :
    kind ∈ ["query"; "mutation"; "subscription"] -> is_name name = true ->
    listed_text variable_definition_text vars -> is_name field = true ->
    listed_text argument_text args -> ign w1 -> ign w2 -> ign w3 -> set = "" \/ set_text set ->
    operation_text (kind +:+ " " +:+ name +:+ vars +:+ " {" +:+ w1 +:+ field +:+ args
                    +:+ (w2 +:+ set) +:+ w3 +:+ "}").

(** Trees every fragment of which selects something. *)
Fixpoint printable (n : selNode) : bool :=
  match n with
  | mkNode name children frags _ _ =>
      if str_empty name
      then nonempty frags && forallb (fun kf => match kf with (k, ns) =>
             is_name k && nonempty ns && forallb printable ns end) frags
      else is_name name && forallb printable children
  end.

Section SelNodeInd.
Variable P : selNode -> Prop.
Hypothesis HNode : forall name children frags leaf t,
  Forall P children -> Forall (fun kf => Forall P kf.2) frags ->
  P (mkNode name children frags leaf t).
Fixpoint selNode_rec_all (n : selNode) : P n :=
  let fix go (l : list selNode) : Forall P l :=
    match l with [] => Forall_nil_2 _ | x :: l => Forall_cons_2 _ _ _ (selNode_rec_all x) (go l) end in
  match n with
  | mkNode name children frags leaf t =>
      HNode name children frags leaf t (go children)
        ((fix gof (l : list (string * list selNode)) : Forall (fun kf => Forall P kf.2) l :=
            match l with
            | [] => Forall_nil_2 _
            | (k, ns) :: l => Forall_cons_2 _ (k, ns) _ (go ns) (gof l)
            end) frags)
  end.
End SelNodeInd.

(** Trimming keeps the bytes of words. *)
Lemma strip_any_some ps s r : strip_any ps s = Some r -> exists p, p ∈ ps /\ s = p +:+ r.
Proof.
  induction ps as [|p ps IH]; cbn; [done|]. destruct (strip_prefix p s) as [r'|] eqn:E.
  - intros [= ->]. apply strip_prefix_Some in E. exists p. split; [by left|done].
  - intros (q & Hq & ->)%IH. exists q. split; [by right|done].
Qed.

Lemma strip_all_word n ps s :
  Forall (fun p => exists_byte is_word p = false) ps ->
  exists_byte is_word (strip_all n ps s) = exists_byte is_word s.
Proof.
  intros Hps. rewrite Forall_forall in Hps. revert s. induction n as [|n IH]; intros s; cbn; [done|].
  destruct (strip_any ps s) as [r|] eqn:E; [|done].
  apply strip_any_some in E as (p & Hp & ->). rewrite IH, exists_byte_append.
  by rewrite (Hps p Hp).
Qed.

Lemma exists_byte_rev p s : exists_byte p (rev_string s) = exists_byte p s.
Proof.
  induction s as [|a s IH]; [done|]. rewrite rev_string_cons, exists_byte_append, IH. cbn.
  rewrite orb_false_r. apply orb_comm.
Qed.

Lemma forallb_Forall_neg {A} (p : A -> bool) l :
  forallb (fun x => negb (p x)) l = true -> Forall (fun x => p x = false) l.
Proof.
  intros Hl%forallb_Forall. eapply Forall_impl; [exact Hl|]. intros x Hx. by apply negb_true_iff in Hx.
Qed.

Lemma space_encodings_word :
  Forall (fun p => exists_byte is_word p = false) space_encodings /\
  Forall (fun p => exists_byte is_word p = false) (map rev_string space_encodings).
Proof. split; apply forallb_Forall_neg; vm_compute; reflexivity. Qed.

Lemma TrimSpace_word s : exists_byte is_word s = true -> str_empty (TrimSpace s) = false.
Proof.
  intros Hs. apply str_empty_false. intros He. destruct space_encodings_word as [Hl Hr].
  assert (exists_byte is_word (TrimSpace s) = true) as Hw; [|by rewrite He in Hw].
  unfold TrimSpace, TrimRightSpace, TrimLeftSpace.
  by rewrite exists_byte_rev, (strip_all_word _ _ _ Hr), exists_byte_rev, (strip_all_word _ _ _ Hl).
Qed.

Lemma ign_append s t : ign s -> ign t -> ign (s +:+ t).
Proof. unfold ign. rewrite forall_byte_append. by intros -> ->. Qed.
Lemma ign_spaces n : ign (Repeat " " n).
Proof. induction n; [done|]. by apply (ign_append " "). Qed.
#[local] Hint Resolve ign_append ign_spaces : core.

Lemma selections_ign w s : ign w -> selections_text s -> selections_text (w +:+ s).
Proof.
  intros Hw. induction 1 as [w' s Hw' Hs|w' s t Hs IH Hw' Hne Ht _].
  - rewrite <-append_assoc. apply selections_one; auto.
  - rewrite <-append_assoc. by apply selections_more.
Qed.

Lemma set_text_lines c ind :
  selections_text c -> set_text ("{" +:+ newline +:+ c +:+ newline +:+ Repeat " " ind +:+ "}").
Proof.
  intros Hc. pose proof (set_braces (newline +:+ c) (newline +:+ Repeat " " ind)) as H.
  rewrite !append_assoc in H. apply H; [by apply selections_ign|by apply (ign_append newline)].
Qed.

(** A nonempty list of nodes that render well renders well. *)
Definition renders (ind : nat) (n : selNode) : Prop :=
  selections_text (render_node ind n) /\ exists_byte is_word (render_node ind n) = true.

Lemma join_renders {A} (f : A -> string) l :
  l <> [] -> Forall (fun x => selections_text (f x) /\ exists_byte is_word (f x) = true) l ->
  selections_text (Join (map f l) newline) /\ exists_byte is_word (Join (map f l) newline) = true.
Proof.
  intros Hl Hall. induction Hall as [|x l [Hs Hw] Hall IH]; [done|].
  destruct l as [|y l]; [done|]. rewrite !map_cons, Join_cons in *.
  destruct (IH ltac:(done)) as [Hs' Hw']. split; [by apply selections_more|].
  by rewrite !exists_byte_append, Hw.
Qed.

Lemma is_name_exists s : is_name s = true -> exists_byte is_word s = true.
Proof. destruct s as [|a s]; [done|]. cbn. intros [_ [Ha _]%andb_true_iff]%andb_true_iff. by rewrite Ha. Qed.

Lemma render_node_text n : printable n = true -> forall ind, renders ind n.
Proof.
  induction n as [name children frags leaf t IHc IHf] using selNode_rec_all. intros Hp ind.
  cbn [printable] in Hp. unfold renders. cbn [render_node].
  destruct (str_empty name) eqn:Hname; cbn [andb].
  - apply andb_true_iff in Hp as [Hne Hp]. rewrite Hne.
    apply join_renders; [by destruct frags|]. apply Forall_forall. intros [k ns] Hkn.
    apply forallb_Forall in Hp. rewrite Forall_forall in Hp, IHf.
    specialize (Hp _ Hkn). specialize (IHf _ Hkn). cbn in Hp, IHf.
    apply andb_true_iff in Hp as [[Hk Hns]%andb_true_iff Hp%forallb_Forall].
    destruct (join_renders (render_node (ind + 2)) ns) as [Hs Hw]; [by destruct ns| |].
    { rewrite Forall_forall in IHf, Hp |- *. intros n Hn. by apply (IHf n Hn (Hp n Hn)). }
    rewrite TrimSpace_word by done. split.
    + apply selections_one; [auto|].
      pose proof (fragment_inline k " " _ Hk ltac:(done) (set_text_lines _ ind Hs)) as H.
      rewrite !append_assoc in *. exact H.
    + rewrite !exists_byte_append, (is_name_exists k Hk). by rewrite !orb_true_r.
  - apply andb_true_iff in Hp as [Hn Hp%forallb_Forall]. split.
    + apply selections_one; [auto|].
      destruct (leaf || negb (nonempty children)) eqn:Hleaf; [rewrite append_nil_r; by apply field_plain|].
      apply orb_false_iff in Hleaf as [_ Hc%negb_false_iff].
      destruct (join_renders (render_node (ind + 2)) children) as [Hs Hw]; [by destruct children| |].
      { rewrite Forall_forall in IHc, Hp |- *. intros n Hin. by apply (IHc n Hin (Hp n Hin)). }
      rewrite TrimSpace_word by done.
      pose proof (field_nested name " " _ Hn ltac:(done) (set_text_lines _ ind Hs)) as H. exact H.
    + rewrite !exists_byte_append, (is_name_exists name Hn). by rewrite orb_true_r.
Qed.

Lemma renderSelectionSet_text ns ind :
  ns <> [] -> forallb printable ns = true ->
  selections_text (renderSelectionSet ns ind) /\ exists_byte is_word (renderSelectionSet ns ind) = true.
Proof.
  intros Hns Hp%forallb_Forall. apply join_renders; [done|].
  eapply Forall_impl; [exact Hp|]. intros n Hn. by apply render_node_text.
Qed.

(** Types, variables and arguments. *)
Fixpoint type_named (t : Type_) : bool :=
  match Elem t with Some e => type_named e | None => is_name (NamedType t) end.

Lemma formatType_text t : type_named t = true -> type_text (formatType t).
Proof.
  induction t as [n nn|n e nn IH] using Type_rec_elem; cbn; intros Ht.
  - destruct nn; by constructor.
  - destruct nn; [|apply type_list; auto].
    rewrite !append_assoc. apply type_list_nn. auto.
Qed.

Definition well_named_args (args : list ArgumentDefinition) : Prop :=
  Forall (fun a => is_name (ad_Name a) = true /\ type_named (ad_Type a) = true) args.

Lemma args_list_text (item : string -> Prop) {A} (f : A -> string) l :
  Forall (fun x => item (f x)) l -> listed_text item (args_list (map f l)).
Proof.
  intros Hl. destruct l as [|x l]; [constructor|].
  apply (listed_some _ (map f (x :: l))); [done|by apply Forall_map|done|done].
Qed.

Lemma renderVarDefs_text args :
  well_named_args args -> listed_text variable_definition_text (renderVarDefs args).
Proof.
  intros Hargs. apply args_list_text. eapply Forall_impl; [exact Hargs|]. intros a [Hn Ht].
  exists (ad_Name a), (formatType (ad_Type a)). split; [done|]. split; [done|by apply formatType_text].
Qed.

Lemma renderArgCalls_text args :
  well_named_args args -> listed_text argument_text (renderArgCalls args).
Proof.
  intros Hargs. apply args_list_text. eapply Forall_impl; [exact Hargs|]. intros a [Hn _].
  by exists (ad_Name a).
Qed.

(** Operation names. *)
Lemma split_runs_pieces p s : Forall (fun w => forall_byte (fun a => negb (p a)) w = true) (split_runs p s).
Proof.
  induction s as [|a s IH]; cbn; [by repeat constructor|]. destruct (p a) eqn:Ha.
  - destruct s as [|b s]; [by constructor|]. destruct (p b); [done|by constructor].
  - destruct (split_runs p s) as [|w ws]; cbn; [repeat constructor; cbn; by rewrite Ha|].
    inversion_clear IH. constructor; [|done]. cbn. by rewrite Ha.
Qed.

Lemma toPascal_word s : forall_byte is_word (toPascal s) = true.
Proof.
  unfold toPascal. induction (split_runs_pieces (fun a => negb (is_alnum a)) (TrimSpace s))
    as [|w ws Hw Hws IH]; [done|].
  assert (forall_byte is_word (capitalize w) = true) as Hc.
  { assert (forall a, negb (negb (is_alnum a)) = true -> is_word (upper_byte a) = true /\ is_word a = true)
      as Hup by (by intros [[] [] [] [] [] [] [] []]).
    destruct w as [|a w]; [done|]. cbn in Hw |- *. apply andb_true_iff in Hw as [Ha Hw].
    rewrite (proj1 (Hup a Ha)). cbn. eapply forall_byte_impl; [|exact Hw]. intros b Hb. by apply Hup. }
  cbn [map]. destruct (map capitalize ws) as [|v vs] eqn:Ev; [exact Hc|].
  cbn [String.concat] in *. by rewrite !forall_byte_append, Hc, IH.
Qed.

Definition root_kinds : list string := ["Query"; "Mutation"; "Subscription"].

Lemma renderRequestExample_text kind field args sel :
  kind ∈ root_kinds -> is_name field = true -> well_named_args args ->
  forallb printable sel = true ->
  operation_text (renderRequestExample kind field args (renderSelectionSet sel 2)).
Proof.
  intros Hkind Hfield Hargs Hsel. unfold renderRequestExample.
  assert (is_name (toPascal kind +:+ toPascal field) = true /\
          map_bytes lower_byte kind ∈ ["query"; "mutation"; "subscription"]) as [Hname Hk].
  { assert (is_name (toPascal kind) = true /\
      map_bytes lower_byte kind ∈ ["query"; "mutation"; "subscription"]) as [Hk Hl].
    { unfold root_kinds in Hkind. rewrite !elem_of_cons, elem_of_nil in Hkind.
      destruct Hkind as [->|[->|[->|[]]]]; (split; [done|]); vm_compute; set_solver. }
    split; [|done]. destruct (toPascal kind) as [|a s]; [done|]. cbn in *.
    apply andb_true_iff in Hk as [Ha Hk]. rewrite Ha. cbn. 
    rewrite forall_byte_append, toPascal_word, andb_true_r. done. }
  set (opName := toPascal kind +:+ toPascal field) in *.
  destruct sel as [|n sel].
  - pose proof (operation _ opName _ field _ (newline +:+ "  ") "" "" newline Hk Hname
      (renderVarDefs_text args Hargs) Hfield (renderArgCalls_text args Hargs)) as H.
    rewrite !append_assoc in *. apply H; auto; done.
  - destruct (renderSelectionSet_text (n :: sel) 2 ltac:(done) Hsel) as [Hs Hw].
    rewrite TrimSpace_word by done.
    pose proof (operation _ opName _ field _ (newline +:+ "  ") " "
      ("{" +:+ newline +:+ renderSelectionSet (n :: sel) 2 +:+ newline +:+ Repeat " " 2 +:+ "}")
      newline Hk Hname
      (renderVarDefs_text args Hargs) Hfield (renderArgCalls_text args Hargs)) as H.
    rewrite !append_assoc in *. apply H; try done. right. by apply set_text_lines.
Qed.

(** ** What a parsed operation promises *)

Lemma root_selection_select sch field :
  root_selection sch field = select sch no_limit no_limit 10 [] (fd_Type field).
Proof. apply (build_spec sch no_limit no_limit 10 [] (fd_Type field) ∅ path_of_empty). Qed.

Lemma select_on_path sch m n d path t :
  getBaseTypeName t ∈ path -> select sch m n d path t = [].
Proof. intros Hin%mem_str_In. destruct d; cbn [select]; by rewrite Hin, orb_true_r. Qed.

Lemma select_object sch m n d path t def :
  let base := getBaseTypeName t in
  base <> "" -> base ∉ path -> Types sch !! base = Some def -> Kind def = Object ->
  select sch m n (S d) path t =
  select_fields sch m n (select sch m n d (base :: path)) (0 <? d)%nat def.
Proof.
  cbn zeta. intros Hne%str_empty_false Hin%mem_str_not_In Hdef Hk. cbn [select].
  by rewrite Hne, Hin, Hdef, Hk.
Qed.

(** (C36) The selection is a function of the types on the path: for a map of
    visited types that stands for the path, the call that reads and mutates the
    map returns [select], and leaves the map standing for the same path, so that
    no field's selection depends on the fields before it. *)
Theorem buildSelectionTree_correct sch MaxScalarFields MaxObjectFields d path t visited :
  path_of visited path ->
  let r := buildSelectionTree sch MaxScalarFields MaxObjectFields d t visited in
  r.1 = select sch MaxScalarFields MaxObjectFields d path t /\ path_of r.2 path.
Proof. apply build_spec. Qed.

(** (lemma) The selection tree of a root field is well typed in the schema: every
    node selects a field its type has, leaves are scalars and enums or composite
    fields cut off, fragments are on members of the union, the fields are at most
    ten levels deep, and no type is entered by a field inside itself. *)
Theorem root_selection_typed sch field :
  let base := getBaseTypeName (fd_Type field) in
  Forall (node_ok sch 10 [base] base) (root_selection sch field).
Proof. cbn zeta. rewrite root_selection_select. apply select_ok. Qed.


(** (lemma) The request of an operation is a GraphQL operation: its kind in lower
    case, a name, the variables with their types, and the root field with its
    arguments and its selection set, when every fragment of the tree selects
    something. *)
Theorem request_wellformed sch field kind :
  kind ∈ root_kinds -> is_name (fd_Name field) = true -> well_named_args (fd_Arguments field) ->
  forallb printable (root_selection sch field) = true ->
  operation_text (op_RequestExample (parseFieldAsOperation sch field kind)).
Proof. apply renderRequestExample_text. Qed.

(** (lemma) A field whose type is the type it belongs to is selected without a
    selection set, which GraphQL does not allow for a composite field, so the
    example request of such a schema is refused by the server it documents. *)
Theorem recursive_field_bare sch field def f :
  let base := getBaseTypeName (fd_Type field) in
  base <> "" -> Types sch !! base = Some def -> Kind def = Object ->
  f ∈ Fields def -> getBaseTypeName (fd_Type f) = base ->
  (length (Fields def) <= no_limit)%nat ->
  has_kind sch is_composite_kind (fd_Type f) = true /\
  mkNode (fd_Name f) [] [] true (Some (fd_Type f)) ∈ root_selection sch field.
Proof.
  cbn zeta. intros Hne Hdef Hk Hf Hbase Hlen.
  assert (has_kind sch is_composite_kind (fd_Type f) = true) as Hc.
  { unfold has_kind, kind_of. by rewrite Hbase, Hdef; cbn; rewrite Hk. }
  split; [done|]. rewrite root_selection_select.
  rewrite (select_object _ _ _ _ _ _ def); [|done|by apply not_elem_of_nil|done|done].
  apply elem_of_app. right. rewrite take_ge.
  - apply list_elem_of_fmap_2' with f.
    + apply list_elem_of_In, List.filter_In. split; [by apply list_elem_of_In|done].
    + unfold composite_node. rewrite select_on_path; [done|]. rewrite Hbase. by left.
  - rewrite length_map. etrans; [apply List.filter_length_le|done].
Qed.

(** Kinds first, then names. *)
#[export] Instance by_kind_name_strict_weak : StrictWeak by_kind_name.
Proof.
  pose proof (str_lex_strict op_Kind _ (by_str_strict op_Name)) as H.
  split; intros *; unfold by_kind_name; [pose proof (less_irrefl (StrictWeak := H) x) as Hx
    |pose proof (less_trans (StrictWeak := H) x y z) as Hx|pose proof (less_negtrans (StrictWeak := H) x y z) as Hx];
    cbn beta in Hx; rewrite !if_negb in Hx; exact Hx.
Qed.

(** (lemma) The operations of a schema are one per root field whose name does not
    start with two underscores, of the kind of its root type, sorted by kind and
    name; a schema that does not load, or none, is an error. *)
Theorem ParseGraphQLSchemas_correct `{GraphQLParser} contents :
  match ParseGraphQLSchemas contents with
  | Ok ops =>
      exists sch, LoadSchema (imap (fun i c =>
          mkSource ("schema_" +:+ Itoa (Z.of_nat i) +:+ ".graphql") c) contents) = Ok sch /\
        sorted_by by_kind_name ops /\
        Permutation (map (fun op => (op_Kind op, op_Name op)) ops)
          (flat_map (fun root => match root with
             | (kind, Some def) => map (fun f => (kind, fd_Name f))
                 (List.filter (fun f => negb (HasPrefix (fd_Name f) "__")) (Fields def))
             | _ => [] end)
           [("Query", Query sch); ("Mutation", Mutation sch); ("Subscription", Subscription sch)])
  | Err _ =>
      contents = [] \/ exists e, LoadSchema (imap (fun i c =>
          mkSource ("schema_" +:+ Itoa (Z.of_nat i) +:+ ".graphql") c) contents) = Err e
  end.
Proof.
  unfold ParseGraphQLSchemas. destruct contents as [|c cs]; [by left|].
  destruct (LoadSchema _) as [sch|e]; [|right; eauto]. exists sch. split; [done|]. split.
  - apply (sort_stable_sorted by_kind_name).
  - rewrite sort_stable_perm. unfold operations, extractOperationsFromType. cbn.
    rewrite !map_app, app_nil_r. destruct (Query sch), (Mutation sch), (Subscription sch);
      cbn; by rewrite ?map_map.
Qed.

(** (lemma) A union has no fields of its own, so the example response of a union is
    the empty object whatever its fragments select: the shape of the first
    fragment is looked up on the union. *)
Theorem union_response_empty sch def n nn depth sel :
  is_builtin n = false -> Types sch !! n = Some def -> Kind def = Union -> Fields def = [] ->
  exampleResponseValue sch depth (mkType n None nn) sel = JObject [].
Proof.
  intros Hn Hdef Hk Hf.
  assert (builtin_example n = None) as Hb.
  { generalize (builtin_example_spec n). destruct (builtin_example n) as [v|]; [|done].
    intros [Hv _]. exfalso. unfold is_builtin, mem_str in Hn. cbn in Hn.
    rewrite !orb_false_iff in Hn. destruct Hn as (H1 & H2 & H3 & H4 & H5 & _).
    destruct v; cbn in Hv; rewrite ?H1, ?H2, ?H3, ?H4, ?H5 in Hv; try done.
    by rewrite andb_false_r in Hv. }
  assert (forall v s, object_with sch v n s = []) as Ho.
  { intros v s. unfold object_with. rewrite Hdef, Hf. cbn.
    induction s as [|x s IH]; cbn; [done|]. destruct (str_empty (FieldName x)); [done|].
    by rewrite lookup_empty. }
  destruct depth, sel; cbn; rewrite Hb, Hdef, Hk; try done. by rewrite Ho.
Qed.

(** ** A schema *)

Module GraphQLDemo.

Definition named (n : string) : Type_ := mkType n None false.
Definition required (t : Type_) : Type_ := mkType (NamedType t) (Elem t) true.
Definition list_of (t : Type_) : Type_ := mkType "" (Some t) false.
Definition fld (n : string) (args : list ArgumentDefinition) (t : Type_) : FieldDefinition :=
  mkFieldDefinition n "" args t [].
Definition scalar : Definition_ := mkDefinition Scalar [] [] [].

Definition users : FieldDefinition :=
  mkFieldDefinition "users" " All users. "
    [mkArgumentDefinition "role" (named "Role"); mkArgumentDefinition "by" (required (named "UserInput"))]
    (required (list_of (required (named "User"))))
    [mkDirective "deprecated" [mkArgument "reason" (Some (mkValue "use people"))]; mkDirective "auth" []].
Definition friend : FieldDefinition := fld "friend" [] (named "User").
Definition UserType : Definition_ :=
  mkDefinition Object
    [fld "id" [] (required (named "ID")); fld "role" [] (named "Role"); friend;
     fld "pet" [] (named "Pet")] [] [].
Definition sch : Schema :=
  let q := mkDefinition Object [fld "__schema" [] (named "ID"); users] [] [] in
  {| Types := list_to_map
       [("ID", scalar); ("String", scalar); ("Query", q); ("User", UserType);
        ("Role", mkDefinition Enum [] [] ["ADMIN"; "VIEWER"]);
        ("UserInput", mkDefinition InputObject [fld "name" [] (named "String")] [] []);
        ("Pet", mkDefinition Union [] ["Dog"; "Cat"] []);
        ("Cat", mkDefinition Object [fld "lives" [] (named "String")] [] []);
        ("Dog", mkDefinition Object [fld "name" [] (named "String")] [] [])];
     Query := Some q; Mutation := None; Subscription := None |}.

#[local] Instance parser : GraphQLParser := {| LoadSchema _ := Ok sch |}.

Definition lines (l : list string) : string := Join l newline.

Example users_operation :
  (op_Signature <$> [parseFieldAsOperation sch users "Query"],
   op_Tags <$> [parseFieldAsOperation sch users "Query"],
   op_RequestExample <$> [parseFieldAsOperation sch users "Query"]) =
  (["users(role: Role, by: UserInput!): [User!]!"],
   [["Query"; "deprecated"; "@auth"; "returns:User"]],
   [lines ["query QueryUsers($role: Role, $by: UserInput!) {";
           "  users(role: $role, by: $by) {"; "  id"; "  role"; "  friend"; "  pet {";
           "    ... on Cat {"; "      lives"; "    }"; "    ... on Dog {"; "      name"; "    }";
           "  }"; "  }"; "}"]]).
Proof. vm_compute. reflexivity. Qed.

Lemma ascii_sch : ascii_schema sch.
Proof.
  intros n def Hn. apply elem_of_list_to_map_2 in Hn.
  assert (Forall (fun p : string * Definition_ =>
    Forall (fun f => forall_byte is_ascii (fd_Name f) = true) (Fields p.2) /\
    Forall (fun s => forall_byte is_ascii s = true) (EnumValues p.2))
    [("ID", scalar); ("String", scalar);
     ("Query", mkDefinition Object [fld "__schema" [] (named "ID"); users] [] []); ("User", UserType);
     ("Role", mkDefinition Enum [] [] ["ADMIN"; "VIEWER"]);
     ("UserInput", mkDefinition InputObject [fld "name" [] (named "String")] [] []);
     ("Pet", mkDefinition Union [] ["Dog"; "Cat"] []);
     ("Cat", mkDefinition Object [fld "lives" [] (named "String")] [] []);
     ("Dog", mkDefinition Object [fld "name" [] (named "String")] [] [])]) as H
    by (repeat constructor).
  rewrite Forall_forall in H. exact (H _ Hn).
Qed.

Lemma buildSelectionTree_correct_witness :
  path_of ∅ [] /\
  (buildSelectionTree sch 10 10 3 (named "User") ∅).1 = select sch 10 10 3 [] (named "User").
Proof.
  split; [exact path_of_empty|].
  exact (proj1 (buildSelectionTree_correct sch 10 10 3 [] (named "User") ∅ path_of_empty)).
Defined.


Lemma request_wellformed_witness :
  operation_text (op_RequestExample (parseFieldAsOperation sch users "Query")).
Proof.
  apply (request_wellformed sch users "Query");
    [left|reflexivity|repeat constructor|vm_compute; reflexivity].
Defined.

Lemma recursive_field_bare_witness :
  has_kind sch is_composite_kind (named "User") = true /\
  mkNode "friend" [] [] true (Some (named "User")) ∈ root_selection sch users.
Proof.
  apply (recursive_field_bare sch users UserType friend);
    [done|vm_compute; reflexivity|reflexivity|right; right; left|reflexivity|].
  apply Nat.leb_le. vm_compute. reflexivity.
Defined.

Lemma union_response_empty_witness :
  exampleResponseValue sch 3 (named "Pet") (select sch 10 10 3 [] (named "Pet")) = JObject [].
Proof.
  apply (union_response_empty sch (mkDefinition Union [] ["Dog"; "Cat"] []) "Pet" false);
    vm_compute; reflexivity.
Defined.
End GraphQLDemo.
