(* ===== verification/Grpc.v ===== *)
(** * Grpc: methods and examples derived from protobuf files

    Models [internal/specparser/grpc.go].  Parsing is protocompile's: [Parse] is
    a parameter, and of its syntax tree the nodes and fields the code reads are
    data here.  The rules on which message a type name means are the code's
    own, an index by several keys in which the first definition of a key wins. *)

From S2P Require Import Prelude GoStrings Effects Json GraphQL.
Set Warnings "-register-all,-clear-no-such-hyp".
Open Scope string_scope.

(** ** The syntax tree *)

(** A field's type is a name; [None] is a missing type. *)
Inductive IdentValueNode : Type :=
| IdentNode (val : string)
| CompoundIdentNode (Components : list string).
Record FieldNode := mkFieldNode {
  fn_Name : string; fn_Type : option IdentValueNode; fn_Label : option string
}.
Inductive MessageNode : Type :=
| mkMessageNode (Name : string) (Decls : list MessageElement)
with MessageElement : Type :=
| FieldElement (f : FieldNode)
| MessageElement_ (m : MessageNode)
| OtherElement.
Definition mn_Decls (m : MessageNode) : list MessageElement :=
  match m with mkMessageNode _ decls => decls end.
(** [MessageType] is the text of the type's identifier. *)
Record RPCTypeNode := mkRPCTypeNode { Stream : bool; MessageType : option string }.
Record RPCNode := mkRPCNode {
  rpc_Name : string; Input : option RPCTypeNode; Output : option RPCTypeNode
}.
(** [None] is a declaration of a service other than an rpc. *)
Record ServiceNode := mkServiceNode { svc_Name : string; svc_Decls : list (option RPCNode) }.
Inductive FileElement : Type :=
| PackageElement (Name : string)
| FileMessage (m : MessageNode)
| FileService (s : ServiceNode)
| OtherFileElement.
Record FileNode := mkFileNode { Decls : list FileElement }.

(** protocompile. *)
Class ProtoParser := { Parse : string -> string -> result string FileNode }.

(** ** Types *)

Record msgField := mkMsgField { mf_Name : string; TypeName : string; IsList : bool }.
Record msgDef := mkMsgDef { FullName : string; md_Fields : list msgField }.
#[local] Abbreviation typeIndex := (gmap string msgDef).

Definition fieldTypeName (f : FieldNode) : string :=
  match fn_Type f with
  | None => ""
  | Some (IdentNode v) => v
  | Some (CompoundIdentNode parts) => Join parts "."
  end.

Definition isRepeated (f : FieldNode) : bool :=
  match fn_Label f with Some l => EqualFold l "repeated" | None => false end.

Fixpoint message_fields (decls : list MessageElement) : list msgField :=
  match decls with
  | [] => []
  | FieldElement f :: decls =>
      if str_empty (fn_Name f) || str_empty (fieldTypeName f) then message_fields decls
      else mkMsgField (fn_Name f) (fieldTypeName f) (isRepeated f) :: message_fields decls
  | _ :: decls => message_fields decls
  end.
Definition extractMessageFields (m : MessageNode) : list msgField := message_fields (mn_Decls m).

Definition qualify (pkg t : string) : string :=
  let t := TrimPrefix (TrimSpace t) "." in
  if str_empty pkg || Contains t "." then t else pkg +:+ "." +:+ t.

Definition storeType (idx : typeIndex) (key : string) (def : msgDef) : typeIndex :=
  let key := TrimSpace (TrimPrefix key ".") in
  if str_empty key then idx
  else match idx !! key with Some _ => idx | None => <[key := def]> idx end.

(** The definition of a message and the keys it is stored under. *)
Definition full_name (prefix name : string) : string :=
  if str_empty prefix then name else prefix +:+ "." +:+ name.
Definition lookup_keys (pkg name full : string) : list string :=
  app [name; full] (if str_empty pkg then [] else [pkg +:+ "." +:+ name; pkg +:+ "." +:+ full]).

Fixpoint indexMessageRecursive (pkg prefix : string) (m : MessageNode) (idx : typeIndex) : typeIndex :=
  match m with
  | mkMessageNode name decls =>
      let full := full_name prefix name in
      let def := mkMsgDef (qualify pkg full) (extractMessageFields m) in
      let idx := fold_left (fun idx key => storeType idx key def) (lookup_keys pkg name full) idx in
      (fix nested (decls : list MessageElement) (idx : typeIndex) : typeIndex :=
         match decls with
         | [] => idx
         | MessageElement_ n :: decls => nested decls (indexMessageRecursive pkg full n idx)
         | _ :: decls => nested decls idx
         end) decls idx
  end.

Definition indexFileMessages (idx : typeIndex) (file : FileNode) (pkg : string) : typeIndex :=
  fold_left (fun idx decl => match decl with
    | FileMessage m => indexMessageRecursive pkg "" m idx
    | _ => idx end) (Decls file) idx.

Record fileInfo := mkFileInfo { fi_name : string; fi_content : string; fi_node : FileNode; fi_pkg : string }.

Definition buildMergedTypeIndex (files : list fileInfo) : typeIndex :=
  fold_left (fun idx f => indexFileMessages idx (fi_node f) (fi_pkg f)) files ∅.

Definition isScalarProtoType (t : string) : bool :=
  mem_str t ["string"; "bytes"; "int32"; "int64"; "uint32"; "uint64"; "sint32"; "sint64";
             "fixed32"; "fixed64"; "sfixed32"; "sfixed64"; "float"; "double"; "bool";
             "google.protobuf.Timestamp"; "Timestamp"].

Definition exampleScalar (t : string) : json :=
  if String.eqb t "string" then JString "example"
  else if String.eqb t "bytes" then JString "ZXhhbXBsZQ=="
  else if mem_str t ["int32"; "int64"; "uint32"; "uint64"; "sint32"; "sint64"; "fixed32"; "fixed64";
                     "sfixed32"; "sfixed64"] then JNumber "123"
  else if mem_str t ["float"; "double"] then JNumber "123.45"
  else if String.eqb t "bool" then JBool true
  else if mem_str t ["google.protobuf.Timestamp"; "Timestamp"] then JString "2025-01-01T00:00:00Z"
  else JString "example".

Definition resolveTypeName (idx : typeIndex) (pkg raw : string) : string :=
  let raw := TrimSpace (TrimPrefix raw ".") in
  if str_empty raw then raw
  else if isScalarProtoType raw then raw
  else match idx !! raw with
  | Some _ => raw
  | None =>
      if str_empty pkg then raw
      else match idx !! (pkg +:+ "." +:+ raw) with
           | Some _ => pkg +:+ "." +:+ raw
           | None => raw
           end
  end.

(** The message a name stands for: the name itself, then in the package. *)
Definition find_message (idx : typeIndex) (pkg typeName : string) : option msgDef :=
  match idx !! typeName with
  | Some d => Some d
  | None =>
      if negb (str_empty pkg) && negb (Contains typeName ".") then idx !! (pkg +:+ "." +:+ typeName)
      else None
  end.

Fixpoint exampleValueForType (idx : typeIndex) (pkg : string) (depth : nat) (typeName : string) :
    json * bool :=
  let typeName := TrimSpace (TrimPrefix typeName ".") in
  if str_empty typeName then (JObject [], false)
  else if isScalarProtoType typeName then (exampleScalar typeName, true)
  else match depth with
  | O => (JObject [], true)
  | S d =>
      match find_message idx pkg typeName with
      | None => (JObject [], false)
      | Some def =>
          (JObject (fold_left (fun obj f =>
             let ft := TrimSpace (TrimPrefix (TypeName f) ".") in
             let val := (exampleValueForType idx pkg d ft).1 in
             obj_set (mf_Name f) (if IsList f then JArray [val] else val) obj) (md_Fields def) []),
           true)
      end
  end.

Definition exampleJSONForType (idx : typeIndex) (pkg typeName : string) (depth : nat) : string :=
  match exampleValueForType idx pkg depth typeName with
  | (v, true) => MarshalIndent v "  "
  | (_, false) => "{}"
  end.

(** ** Methods *)

Definition extractProtoPackage (file : FileNode) : string :=
  match List.find (fun d => match d with PackageElement _ => true | _ => false end) (Decls file) with
  | Some (PackageElement n) => n
  | _ => ""
  end.

Definition methodIdentifier (pkg svc method : string) : string :=
  if str_empty (TrimSpace pkg) then svc +:+ "/" +:+ method
  else pkg +:+ "." +:+ svc +:+ "/" +:+ method.

Definition rpcTypeRefString (t : option RPCTypeNode) : string * bool :=
  match t with
  | None => ("", false)
  | Some t => (default "" (MessageType t), Stream t)
  end.

Definition classifyStreaming (reqStream resStream : bool) : string :=
  match reqStream, resStream with
  | true, true => "BIDIRECTIONAL_STREAMING"
  | true, false => "CLIENT_STREAMING"
  | false, true => "SERVER_STREAMING"
  | false, false => "UNARY"
  end.

Definition snippetForRPC (rpc : RPCNode) : string :=
  let '(req, reqStream) := rpcTypeRefString (Input rpc) in
  let '(res, resStream) := rpcTypeRefString (Output rpc) in
  let stream (b : bool) := if b then "stream " else "" in
  "rpc " +:+ rpc_Name rpc +:+ "(" +:+ stream reqStream +:+ TrimPrefix req "." +:+ ") returns ("
  +:+ stream resStream +:+ TrimPrefix res "." +:+ ");".

Record ParsedGrpcMethod := mkMethod {
  MethodID : string; PackageName : string; ServiceName : string; MethodName : string;
  RequestType : string; ResponseType : string; StreamingType : string; mt_Description : string;
  ProtoSnippet : string; RequestExample : string; ResponseExample : string; mt_Tags : list string
}.

Definition method_of (idx : typeIndex) (pkg svcName : string) (rpc : RPCNode) : ParsedGrpcMethod :=
  let '(reqRaw, reqStream) := rpcTypeRefString (Input rpc) in
  let '(resRaw, resStream) := rpcTypeRefString (Output rpc) in
  let reqType := resolveTypeName idx pkg reqRaw in
  let resType := resolveTypeName idx pkg resRaw in
  {| MethodID := methodIdentifier pkg svcName (rpc_Name rpc);
     PackageName := pkg; ServiceName := svcName; MethodName := rpc_Name rpc;
     RequestType := reqType; ResponseType := resType;
     StreamingType := classifyStreaming reqStream resStream;
     mt_Description := "";
     ProtoSnippet := snippetForRPC rpc;
     RequestExample := exampleJSONForType idx pkg reqType 3;
     ResponseExample := exampleJSONForType idx pkg resType 3;
     mt_Tags := ["gRPC"; svcName] |}.

Definition service_methods (idx : typeIndex) (pkg : string) (svc : ServiceNode) : list ParsedGrpcMethod :=
  map (method_of idx pkg (svc_Name svc)) (omap id (svc_Decls svc)).

Definition file_services (f : FileNode) : list ServiceNode :=
  omap (fun d => match d with FileService s => Some s | _ => None end) (Decls f).

Definition extractAllMethods (files : list fileInfo) (idx : typeIndex) : list ParsedGrpcMethod :=
  flat_map (fun f => flat_map (service_methods idx (fi_pkg f)) (file_services (fi_node f))) files.

Definition by_path (x y : ParsedGrpcMethod) : bool :=
  if negb (String.eqb (PackageName x) (PackageName y)) then str_less (PackageName x) (PackageName y)
  else if negb (String.eqb (ServiceName x) (ServiceName y)) then str_less (ServiceName x) (ServiceName y)
  else str_less (MethodName x) (MethodName y).

Section Parsing.
Context `{ProtoParser}.

Definition proto_name (i : nat) : string := "schema_" +:+ Itoa (Z.of_nat i) +:+ ".proto".

(** The files in order; the first that does not parse is the error. *)
Fixpoint parse_files (i : nat) (contents : list string) : result string (list fileInfo) :=
  match contents with
  | [] => Ok []
  | c :: contents =>
      match Parse (proto_name i) c with
      | Err e => Err ("failed to parse " +:+ proto_name i +:+ ": " +:+ e)
      | Ok fn =>
          match parse_files (S i) contents with
          | Err e => Err e
          | Ok fs => Ok (mkFileInfo (proto_name i) c fn (extractProtoPackage fn) :: fs)
          end
      end
  end.

Definition ParseGrpcSchemas (protoContents : list string) : result string (list ParsedGrpcMethod) :=
  match protoContents with
  | [] => Err "no proto contents provided"
  | _ =>
      match parse_files 0 protoContents with
      | Err e => Err e
      | Ok files =>
          Ok (sort_stable by_path (extractAllMethods files (buildMergedTypeIndex files)))
      end
  end.

Definition ParseGrpc (specContent : string) : result string (list ParsedGrpcMethod) :=
  ParseGrpcSchemas [specContent].
End Parsing.

(** ** The index as an association list

    [entries] lists the keys and definitions in the order the files are read;
    the index holds, for a key, the first. *)

Section Index.

Fixpoint message_entries (pkg prefix : string) (m : MessageNode) : list (string * msgDef) :=
  match m with
  | mkMessageNode name decls =>
      let full := full_name prefix name in
      let def := mkMsgDef (qualify pkg full) (extractMessageFields m) in
      app (map (fun key => (key, def)) (lookup_keys pkg name full))
        ((fix nested (decls : list MessageElement) : list (string * msgDef) :=
            match decls with
            | [] => []
            | MessageElement_ n :: decls => app (message_entries pkg full n) (nested decls)
            | _ :: decls => nested decls
            end) decls)
  end.

Definition file_entries (file : FileNode) (pkg : string) : list (string * msgDef) :=
  flat_map (fun decl => match decl with FileMessage m => message_entries pkg "" m | _ => [] end)
    (Decls file).

(** Keys as stored: trimmed, and none that is blank. *)
Definition stored (l : list (string * msgDef)) : list (string * msgDef) :=
  List.filter (fun kd => negb (str_empty kd.1)) (map (fun kd => (TrimSpace (TrimPrefix kd.1 "."), kd.2)) l).

Definition entries (files : list fileInfo) : list (string * msgDef) :=
  stored (flat_map (fun f => file_entries (fi_node f) (fi_pkg f)) files).

Definition store_all (l : list (string * msgDef)) (idx : typeIndex) : typeIndex :=
  fold_left (fun idx kd => storeType idx kd.1 kd.2) l idx.

Lemma store_all_app l l' idx : store_all (app l l') idx = store_all l' (store_all l idx).
Proof. apply fold_left_app. Qed.

Lemma store_all_lookup l : forall idx k,
  store_all l idx !! k = match idx !! k with Some d => Some d | None => obj_get k (stored l) end.
Proof.
  induction l as [|[key d] l IH]; intros idx k; [by cbn; destruct (idx !! k)|].
  change (store_all ((key, d) :: l) idx) with (store_all l (storeType idx key d)). rewrite IH.
  unfold storeType, stored. cbn [map List.filter fst snd].
  set (key' := TrimSpace (TrimPrefix key ".")). clearbody key'.
  destruct (str_empty key'); cbn [negb]; [done|]. cbn [obj_get].
  destruct (decide (k = key')) as [->|Hk].
  - rewrite String.eqb_refl. destruct (idx !! key') as [d'|] eqn:E; [by rewrite E|].
    by rewrite lookup_insert_eq.
  - rewrite (proj2 (String.eqb_neq _ _) Hk).
    destruct (idx !! key'); [done|]. by rewrite lookup_insert_ne by congruence.
Qed.

(** Induction over messages and the messages nested in them. *)
Lemma MessageNode_rec_all (P : MessageNode -> Prop) :
  (forall name decls, Forall (fun d => match d with MessageElement_ n => P n | _ => True end) decls ->
     P (mkMessageNode name decls)) -> forall m, P m.
Proof.
  intros H. fix IH 1. intros [name decls]. apply H.
  revert decls. fix IHl 1. intros [|[f|n|] decls]; constructor; try exact I; try apply IHl. apply IH.
Qed.

Lemma indexMessage_store pkg m : forall prefix idx,
  indexMessageRecursive pkg prefix m idx = store_all (message_entries pkg prefix m) idx.
Proof.
  induction m as [name decls IH] using MessageNode_rec_all. intros prefix idx.
  cbn [indexMessageRecursive message_entries]. rewrite store_all_app.
  set (full := full_name prefix name).
  set (def := mkMsgDef _ _).
  assert (fold_left (fun idx key => storeType idx key def) (lookup_keys pkg name full) idx =
          store_all (map (fun key => (key, def)) (lookup_keys pkg name full)) idx) as ->.
  { unfold store_all. generalize idx. by induction (lookup_keys pkg name full); intros; cbn. }
  generalize (store_all (map (fun key => (key, def)) (lookup_keys pkg name full)) idx). clear idx.
  clearbody def full. induction IH as [|d decls Hd Hds IH]; intros idx; [done|].
  destruct d as [f|n|]; [apply IH| |apply IH]. by rewrite store_all_app, <-Hd.
Qed.

Lemma buildMergedTypeIndex_lookup files k :
  buildMergedTypeIndex files !! k = obj_get k (entries files).
Proof.
  assert (forall fs idx, fold_left (fun idx f => indexFileMessages idx (fi_node f) (fi_pkg f)) fs idx =
    store_all (flat_map (fun f => file_entries (fi_node f) (fi_pkg f)) fs) idx) as H.
  { induction fs as [|f fs IH]; intros idx; cbn [fold_left flat_map]; [done|].
    rewrite store_all_app, IH. f_equal. unfold indexFileMessages, file_entries.
    revert idx. induction (Decls (fi_node f)) as [|d ds IHd]; intros idx; cbn [fold_left flat_map]; [done|].
    rewrite store_all_app, IHd. f_equal. destruct d; try done. apply indexMessage_store. }
  unfold buildMergedTypeIndex. by rewrite H, store_all_lookup, lookup_empty.
Qed.
End Index.

(** ** Typing of examples *)

Definition scalar_value (t : string) (v : json) : bool :=
  match v with
  | JString _ => mem_str t ["string"; "bytes"; "google.protobuf.Timestamp"; "Timestamp"]
  | JNumber lit =>
      number_lit lit &&
      (mem_str t ["float"; "double"] ||
       (negb (Contains lit ".") &&
        mem_str t ["int32"; "int64"; "uint32"; "uint64"; "sint32"; "sint64"; "fixed32"; "fixed64";
                   "sfixed32"; "sfixed64"]))
  | JBool _ => String.eqb t "bool"
  | _ => false
  end.

(** A type name without its leading dot and surrounding space. *)
Definition clean (t : string) : string := TrimSpace (TrimPrefix t ".").

(** [proto_value idx pkg t v]: [v] is a value of the type named [t] seen from
    the package: of a message, some of its fields with values of theirs, a
    one-element list for a repeated field; of an unknown type, no fields. *)
Inductive proto_value (idx : typeIndex) (pkg : string) (t : string) : json -> Prop :=
| value_scalar v :
    isScalarProtoType (clean t) = true -> scalar_value (clean t) v = true -> plain v = true ->
    proto_value idx pkg t v
| value_unknown :
    clean t = "" \/ find_message idx pkg (clean t) = None -> proto_value idx pkg t (JObject [])
| value_message def m :
    isScalarProtoType (clean t) = false -> find_message idx pkg (clean t) = Some def -> keys_sorted m ->
    Forall (fun kv => exists f, f ∈ md_Fields def /\ mf_Name f = kv.1 /\
      exists v, kv.2 = (if IsList f then JArray [v] else v) /\
        proto_value idx pkg (clean (TypeName f)) v) m ->
    proto_value idx pkg t (JObject m).

Lemma exampleScalar_value t :
  isScalarProtoType t = true -> scalar_value t (exampleScalar t) = true /\ plain (exampleScalar t) = true.
Proof.
  intros Ht%mem_str_In. rewrite !elem_of_cons, elem_of_nil in Ht.
  repeat (destruct Ht as [->|Ht]; [done|]). done.
Qed.

Section ProtoTyping.
Context (idx : typeIndex) (pkg : string).

(** The member of a field in the example of its message. *)
Definition field_example (d : nat) (f : msgField) : string * json :=
  let val := (exampleValueForType idx pkg d (clean (TypeName f))).1 in
  (mf_Name f, if IsList f then JArray [val] else val).
Definition message_example (d : nat) (def : msgDef) : list (string * json) :=
  fold_left (fun obj f => obj_set (field_example d f).1 (field_example d f).2 obj) (md_Fields def) [].

Lemma exampleValueForType_unfold d t :
  exampleValueForType idx pkg d t =
  if str_empty (clean t) then (JObject [], false)
  else if isScalarProtoType (clean t) then (exampleScalar (clean t), true)
  else match d with
  | O => (JObject [], true)
  | S d => match find_message idx pkg (clean t) with
           | None => (JObject [], false)
           | Some def => (JObject (message_example d def), true)
           end
  end.
Proof. by destruct d. Qed.

Lemma message_example_keys d def :
  keys_sorted (message_example d def) /\
  forall k, k ∈ map fst (message_example d def) <-> k ∈ map mf_Name (md_Fields def).
Proof.
  split; [apply (obj_fold_sorted (field_example d)); constructor|]. intros k.
  pose proof (obj_fold_keys (field_example d) (md_Fields def) [] k) as H. cbn in H.
  unfold message_example. rewrite H. split; [|auto].
  intros [Hk|Hk]; [done|by apply not_elem_of_nil in Hk].
Qed.

Lemma exampleValueForType_value d : forall t, proto_value idx pkg t (exampleValueForType idx pkg d t).1.
Proof.
  induction d as [|d IH]; intros t; rewrite exampleValueForType_unfold;
    (destruct (str_empty (clean t)) eqn:He; [apply str_empty_true in He; by apply value_unknown; left|]);
    (destruct (isScalarProtoType (clean t)) eqn:Hs;
      [destruct (exampleScalar_value _ Hs); by apply value_scalar|]);
    (destruct (find_message idx pkg (clean t)) as [def|] eqn:Hf; [|by apply value_unknown; right]).
  - apply (value_message _ _ _ def); [done..|constructor|constructor].
  - apply (value_message _ _ _ def); [done..| |].
    + apply message_example_keys.
    + apply (obj_fold_Forall _ (field_example d)); [constructor|]. apply Forall_forall.
      intros f Hf'. exists f. split_and!; [done|done|]. eexists. split; [done|apply IH].
Qed.

(** Field names are ASCII, as the grammar of protobuf has it. *)
Definition ascii_index : Prop :=
  forall k def, idx !! k = Some def ->
    Forall (fun f => forall_byte is_ascii (mf_Name f) = true) (md_Fields def).

Lemma find_message_elem t def : find_message idx pkg t = Some def -> exists k, idx !! k = Some def.
Proof. unfold find_message. repeat case_match; intros; simplify_eq; eauto. Qed.

Lemma exampleValueForType_plain d :
  ascii_index -> forall t, plain (exampleValueForType idx pkg d t).1 = true.
Proof.
  intros Hidx. induction d as [|d IH]; intros t; rewrite exampleValueForType_unfold;
    destruct (str_empty (clean t)), (isScalarProtoType (clean t)) eqn:Hs; try done;
    try (by apply exampleScalar_value).
  destruct (find_message idx pkg (clean t)) as [def|] eqn:Hf; [|done].
  apply find_message_elem in Hf as [k Hk]. apply forallb_Forall.
  apply (obj_fold_Forall _ (field_example d)); [constructor|].
  eapply Forall_impl; [apply (Hidx k def Hk)|]. intros f Hf. cbn. rewrite Hf.
  destruct (IsList f); cbn; by rewrite IH.
Qed.

Lemma exampleJSONForType_text d t :
  ascii_index ->
  exists v, json_text v (exampleJSONForType idx pkg t d) /\ proto_value idx pkg t v /\
    forall def d', d = S d' -> isScalarProtoType (clean t) = false ->
      find_message idx pkg (clean t) = Some def -> clean t <> "" ->
      exists m, v = JObject m /\ forall k, k ∈ map fst m <-> k ∈ map mf_Name (md_Fields def).
Proof.
  intros Hidx. exists (exampleValueForType idx pkg d t).1. split_and!.
  - unfold exampleJSONForType. pose proof (exampleValueForType_plain d Hidx t) as Hp.
    destruct (exampleValueForType idx pkg d t) as [v []] eqn:E; [by apply MarshalIndent_text|].
    rewrite exampleValueForType_unfold in E. repeat case_match; simplify_eq; by apply (text_object_nil "").
  - apply exampleValueForType_value.
  - intros def d' -> Hs Hf Hne%str_empty_false. rewrite exampleValueForType_unfold, Hne, Hs, Hf.
    eexists. split; [done|]. apply message_example_keys.
Qed.
End ProtoTyping.

(** ** Method identifiers *)

(** A dotted package name, or none. *)
Definition package_byte (a : ascii) : bool := is_word a || Ascii.eqb a ".".
Definition is_package (pkg : string) : bool :=
  str_empty pkg || (exists_byte is_word pkg && forall_byte package_byte pkg).

Lemma forall_byte_no (p : ascii -> bool) c s :
  p c = false -> forall_byte p s = true -> exists_byte (Ascii.eqb c) s = false.
Proof.
  intros Hc. induction s as [|a s IH]; cbn; [done|]. intros [Ha Hs]%andb_true_iff.
  rewrite (IH Hs), orb_false_r. destruct (Ascii.eqb_spec c a) as [->|]; [congruence|done].
Qed.

Lemma Cut_false_rest s sep b r : Cut s sep = (b, r, false) -> r = "".
Proof.
  revert b r. induction s as [|a s IH]; intros b r; cbn; [by intros [= <- <-]|].
  destruct (Ascii.eqb a sep); [done|]. destruct (Cut s sep) as [[b' r'] ok].
  intros [= <- <- ->]. eauto.
Qed.

(** The part of an identifier before the method. *)
Definition service_path (pkg svc : string) : string :=
  if str_empty pkg then svc else pkg +:+ "." +:+ svc.

Lemma methodIdentifier_path pkg svc m :
  is_package pkg = true -> methodIdentifier pkg svc m = service_path pkg svc +:+ "/" +:+ m.
Proof.
  unfold methodIdentifier, service_path, is_package. destruct (str_empty pkg) eqn:He.
  - intros _. by apply str_empty_true in He as ->.
  - cbn. intros [Hw _]%andb_true_iff. rewrite TrimSpace_word by done. by rewrite !append_assoc.
Qed.

Lemma service_path_clean pkg svc :
  is_package pkg = true -> is_name svc = true -> exists_byte (Ascii.eqb "/") (service_path pkg svc) = false.
Proof.
  intros Hp Hs%is_name_word. unfold service_path, is_package in *.
  destruct (str_empty pkg); cbn in Hp; [by apply (forall_byte_no is_word)|].
  apply andb_true_iff in Hp as [_ Hp]. rewrite !exists_byte_append.
  by rewrite (forall_byte_no package_byte "/" pkg), (forall_byte_no is_word "/" svc).
Qed.

Lemma service_path_inj pkg svc pkg' svc' :
  is_name svc = true -> is_name svc' = true ->
  service_path pkg svc = service_path pkg' svc' -> pkg = pkg' /\ svc = svc'.
Proof.
  intros Hs%is_name_word Hs'%is_name_word H.
  assert (forall p s, forall_byte is_word s = true ->
    Cut (rev_string (service_path p s)) "." =
    (rev_string s, rev_string p, negb (str_empty p))) as Hcut.
  { intros p s Hw. rewrite <-forall_byte_rev in Hw. unfold service_path.
    destruct (str_empty p) eqn:Hp.
    - apply str_empty_true in Hp as ->. destruct (Cut (rev_string s) ".") as [[b r] []] eqn:E.
      + apply Cut_true in E as [E _]. rewrite E, forall_byte_append in Hw. cbn in Hw.
        by rewrite andb_false_r in Hw.
      + pose proof E as E'. apply Cut_false in E as [-> _]. f_equal. f_equal.
        by apply Cut_false_rest in E'.
    - rewrite !rev_string_append, append_assoc. apply Cut_append.
      by apply (forall_byte_no is_word). }
  pose proof (Hcut pkg svc Hs) as H1. rewrite H, Hcut in H1 by done. injection H1 as H1 H2 _.
  apply (f_equal rev_string) in H1, H2. by rewrite !rev_string_involutive in *.
Qed.

(** ** What the parser promises *)

#[export] Instance by_path_strict_weak : StrictWeak by_path.
Proof.
  apply (str_lex_strict PackageName), (str_lex_strict ServiceName), (by_str_strict MethodName).
Qed.

Lemma parse_files_spec `{ProtoParser} contents : forall i,
  match parse_files i contents with
  | Ok files => Forall2 (fun c f => fi_content f = c /\ Parse (fi_name f) c = Ok (fi_node f) /\
                                    fi_pkg f = extractProtoPackage (fi_node f)) contents files
  | Err e =>
      exists k c e', contents !! k = Some c /\ Parse (proto_name (i + k)) c = Err e' /\
        e = "failed to parse " +:+ proto_name (i + k) +:+ ": " +:+ e' /\
        forall j c', (j < k)%nat -> contents !! j = Some c' -> exists fn, Parse (proto_name (i + j)) c' = Ok fn
  end.
Proof.
  induction contents as [|c contents IH]; intros i; cbn [parse_files]; [constructor|].
  destruct (Parse (proto_name i) c) as [fn|e'] eqn:Hp.
  - specialize (IH (S i)). destruct (parse_files (S i) contents) as [fs|e].
    + by constructor.
    + destruct IH as (k & c' & e' & Hk & He' & -> & Hall). exists (S k), c', e'.
      rewrite Nat.add_succ_r. split_and!; [done..|]. intros [|j] c'' Hj Hc''.
      * rewrite Nat.add_0_r. injection Hc'' as ->. eauto.
      * rewrite Nat.add_succ_r. apply (Hall j c''); [lia|done].
  - exists 0%nat, c, e'. rewrite Nat.add_0_r. split_and!; try done. intros j c' Hj. lia.
Qed.

Lemma extractAllMethods_paths files idx :
  map (fun m => (PackageName m, ServiceName m, MethodName m)) (extractAllMethods files idx) =
  flat_map (fun f => flat_map (fun svc => map (fun rpc => (fi_pkg f, svc_Name svc, rpc_Name rpc))
     (omap id (svc_Decls svc))) (file_services (fi_node f))) files.
Proof.
  unfold extractAllMethods. induction files as [|f files IH]; cbn [flat_map]; [done|].
  rewrite map_app, IH. f_equal. clear IH.
  induction (file_services (fi_node f)) as [|svc svcs IH]; cbn [flat_map]; [done|].
  rewrite map_app, IH. f_equal. unfold service_methods. rewrite map_map.
  apply map_ext. intros rpc. unfold method_of.
  by destruct (rpcTypeRefString (Input rpc)), (rpcTypeRefString (Output rpc)).
Qed.

(** (lemma) Every rpc of every service becomes one method of its file's package and
    service; the methods are sorted by package, service and name.  No input is
    an error, and otherwise the error is that of the first file protocompile
    refuses. *)
Theorem ParseGrpcSchemas_correct `{ProtoParser} contents :
  match ParseGrpcSchemas contents with
  | Ok ms =>
      exists files, Forall2 (fun c f => fi_content f = c /\ Parse (fi_name f) c = Ok (fi_node f) /\
                                        fi_pkg f = extractProtoPackage (fi_node f)) contents files /\
        sorted_by by_path ms /\
        Permutation (map (fun m => (PackageName m, ServiceName m, MethodName m)) ms)
          (flat_map (fun f => flat_map (fun svc => map (fun rpc => (fi_pkg f, svc_Name svc, rpc_Name rpc))
             (omap id (svc_Decls svc))) (file_services (fi_node f))) files)
  | Err e =>
      contents = [] \/
      exists i c e', contents !! i = Some c /\ Parse (proto_name i) c = Err e' /\
        e = "failed to parse " +:+ proto_name i +:+ ": " +:+ e' /\
        forall j c', (j < i)%nat -> contents !! j = Some c' -> exists fn, Parse (proto_name j) c' = Ok fn
  end.
Proof.
  unfold ParseGrpcSchemas. destruct contents as [|c0 cs]; [by left|].
  generalize (parse_files_spec (c0 :: cs) 0). destruct (parse_files 0 (c0 :: cs)) as [files|e].
  - intros Hf. exists files. split; [done|]. split; [apply (sort_stable_sorted by_path)|].
    rewrite sort_stable_perm. by rewrite extractAllMethods_paths.
  - intros Hf. by right.
Qed.

(** (lemma) The index is the association list of the messages' keys in the order
    of the files: a key stands for the first message stored under it. *)
Theorem index_first_wins files k : buildMergedTypeIndex files !! k = obj_get k (entries files).
Proof. apply buildMergedTypeIndex_lookup. Qed.

(** (lemma) The examples of a method are JSON texts of values of its request and
    response types, every field of the message present at the top level. *)
Theorem method_examples_typed idx pkg svc rpc :
  ascii_index idx ->
  let m := method_of idx pkg svc rpc in
  (exists v, json_text v (RequestExample m) /\ proto_value idx pkg (RequestType m) v) /\
  (exists v, json_text v (ResponseExample m) /\ proto_value idx pkg (ResponseType m) v /\
     forall def, isScalarProtoType (clean (ResponseType m)) = false -> clean (ResponseType m) <> "" ->
       find_message idx pkg (clean (ResponseType m)) = Some def ->
       exists l, v = JObject l /\ forall k, k ∈ map fst l <-> k ∈ map mf_Name (md_Fields def)).
Proof.
  intros Hidx. cbn zeta. unfold method_of.
  destruct (rpcTypeRefString (Input rpc)) as [req rs], (rpcTypeRefString (Output rpc)) as [res ss].
  cbn [RequestExample ResponseExample RequestType ResponseType]. split.
  - destruct (exampleJSONForType_text idx pkg 3 (resolveTypeName idx pkg req) Hidx) as (v & Hv & Ht & _).
    eauto.
  - destruct (exampleJSONForType_text idx pkg 3 (resolveTypeName idx pkg res) Hidx) as (v & Hv & Ht & Hall).
    exists v. split_and!; [done|done|]. intros def Hs Hne Hf. by apply (Hall def 2).
Qed.

(** (lemma) A method's identifier determines its package, service and name. *)
Theorem methodIdentifier_injective pkg svc m pkg' svc' m' :
  is_package pkg = true -> is_package pkg' = true -> is_name svc = true -> is_name svc' = true ->
  methodIdentifier pkg svc m = methodIdentifier pkg' svc' m' -> (pkg, svc, m) = (pkg', svc', m').
Proof.
  intros Hp Hp' Hs Hs'. rewrite !methodIdentifier_path by done. intros H.
  apply (f_equal (fun s => Cut s "/")) in H.
  change ("/" +:+ m) with (String "/" m) in H. change ("/" +:+ m') with (String "/" m') in H.
  rewrite !Cut_append in H by (by apply service_path_clean). injection H as H ->.
  by apply service_path_inj in H as [-> ->].
Qed.

(** (lemma) A short name stands for the first message of that name in any file,
    whatever the package it is used in: a package's own message of the name is
    passed over, although protobuf resolves names from the innermost scope. *)
Theorem short_name_shadows files pkg raw d :
  clean raw = raw -> raw <> "" -> isScalarProtoType raw = false ->
  obj_get raw (entries files) = Some d ->
  let idx := buildMergedTypeIndex files in
  resolveTypeName idx pkg raw = raw /\ find_message idx pkg raw = Some d.
Proof.
  unfold clean. intros Hc Hne%str_empty_false Hs Hd. cbn zeta.
  unfold resolveTypeName, find_message. by rewrite Hc, Hne, Hs, buildMergedTypeIndex_lookup, Hd.
Qed.

(** ** Two files *)

Module GrpcDemo.
Definition msg (n : string) (fs : list FieldNode) (nested : list MessageNode) : MessageNode :=
  mkMessageNode n (app (map FieldElement fs) (map MessageElement_ nested)).
Definition fld (n t : string) : FieldNode := mkFieldNode n (Some (IdentNode t)) None.
Definition ref (t : string) : option RPCTypeNode := Some (mkRPCTypeNode false (Some t)).

Definition file_a : FileNode :=
  mkFileNode [PackageElement "a"; FileMessage (msg "User" [fld "id" "string"] [])].
Definition file_b : FileNode :=
  mkFileNode [PackageElement "b";
    FileMessage (msg "User" [fld "name" "string"; fld "age" "int32";
                             mkFieldNode "tags" (Some (IdentNode "Tag")) (Some "repeated")]
                   [msg "Tag" [fld "label" "string"] []]);
    FileService (mkServiceNode "Users"
      [Some (mkRPCNode "Get" (ref "User") (ref "b.User")); None])].
#[local] Instance parser : ProtoParser :=
  {| Parse n c := if String.eqb c "a" then Ok file_a else if String.eqb c "b" then Ok file_b else Err "syntax" |}.

Definition files : list fileInfo :=
  [mkFileInfo "schema_0.proto" "a" file_a "a"; mkFileInfo "schema_1.proto" "b" file_b "b"].
Definition idx := buildMergedTypeIndex files.
Definition rpc : RPCNode := mkRPCNode "Get" (ref "User") (ref "b.User").

Example parsed :
  match ParseGrpcSchemas ["a"; "b"] with
  | Ok ms => map (fun m => (MethodID m, StreamingType m, ProtoSnippet m, RequestType m, ResponseType m)) ms
  | Err _ => []
  end = [("b.Users/Get", "UNARY", "rpc Get(User) returns (b.User);", "User", "b.User")].
Proof. vm_compute. reflexivity. Qed.

Example examples :
  ((exampleValueForType idx "b" 3 "User").1, (exampleValueForType idx "b" 3 "b.User").1) =
  (JObject [("id", JString "example")],
   JObject [("age", JNumber "123"); ("name", JString "example");
            ("tags", JArray [JObject [("label", JString "example")]])]).
Proof. vm_compute. reflexivity. Qed.

Lemma ascii_idx : ascii_index idx.
Proof.
  intros k def Hk. unfold idx in Hk. rewrite buildMergedTypeIndex_lookup in Hk. apply obj_get_elem in Hk.
  assert (Forall (fun kd : string * msgDef =>
    Forall (fun f => forall_byte is_ascii (mf_Name f) = true) (md_Fields kd.2)) (entries files)) as H
    by (vm_compute; repeat constructor).
  rewrite Forall_forall in H. exact (H _ Hk).
Qed.

Lemma method_examples_typed_witness :
  exists v, json_text v (RequestExample (method_of idx "b" "Users" rpc)) /\ proto_value idx "b" "User" v.
Proof. exact (proj1 (method_examples_typed idx "b" "Users" rpc ascii_idx)). Defined.

Lemma methodIdentifier_injective_witness :
  methodIdentifier "b.v1" "Users" "Get" = methodIdentifier "b.v1" "Users" "Get" /\
  ("b.v1", "Users", "Get") = ("b.v1", "Users", "Get").
Proof.
  split; [reflexivity|].
  apply (methodIdentifier_injective "b.v1" "Users" "Get" "b.v1" "Users" "Get"); reflexivity.
Defined.

(** [User] in package b is a's message, though b declares its own. *)
Lemma short_name_shadows_witness :
  FullName <$> find_message idx "b" "User" = Some "a.User" /\
  FullName <$> idx !! "b.User" = Some "b.User" /\
  resolveTypeName idx "b" "User" = "User".
Proof.
  split; [vm_compute; reflexivity|]. split; [vm_compute; reflexivity|].
  refine (proj1 (short_name_shadows files "b" "User" (mkMsgDef "a.User" [mkMsgField "id" "string" false])
    _ _ _ _)); [reflexivity|discriminate|reflexivity|vm_compute; reflexivity].
Defined.
End GrpcDemo.
