(* ===== verification/Authz.v ===== *)
(** * Authz: scopes, roles and the authorizer

    Models [internal/authz]: the catalog of scopes and the role table
    ([scope.go]), [Has] and [ValidScope], the authorizer over a store
    ([authorizer.go]), and the guard the router puts before every scoped
    handler ([principalScopes] and [requireScope] of [internal/api/router.go]). *)

From S2P Require Import Prelude GoStrings Effects.
Set Warnings "-clear-no-such-hyp".

(** ** Roles and scopes *)

(** [type Role string], [type Scope string]: any string can occur. *)
Definition Role : Type := string.
Definition RoleAdmin : Role := "admin".
Definition RoleEditor : Role := "editor".
Definition RoleViewer : Role := "viewer".

Definition Scope : Type := string.

Definition AllScopes : list Scope :=
  ["diagrams:read"; "diagrams:write";
   "docs:read"; "docs:write";
   "maps:read"; "maps:write";
   "services:read"; "services:write";
   "chat:read"; "chat:write";
   "folders:read"; "folders:write";
   "members:read"; "members:add"; "members:remove"; "members:update-role";
   "teams:read"; "teams:create"; "teams:edit"; "teams:delete"; "teams:add-member";
   "teams:remove-member";
   "serviceaccounts:read"; "serviceaccounts:create"; "serviceaccounts:edit";
   "serviceaccounts:delete";
   "serviceaccounts:create-token"; "serviceaccounts:revoke-token";
   "mlstudio:read"; "mlstudio:write";
   "billing:read"; "billing:write";
   "agents:read"; "agents:write";
   "timeline:read"; "timeline:write";
   "org:update"; "org:delete";
   "authproviders:read"; "authproviders:write";
   "integrations:read"; "integrations:write"].

Definition viewer_scopes : list Scope :=
  ["diagrams:read"; "docs:read"; "maps:read"; "services:read"; "chat:read"; "folders:read";
   "members:read"; "teams:read"; "serviceaccounts:read"; "mlstudio:read"; "billing:read";
   "agents:read"; "timeline:read"; "integrations:read"].

Definition editor_scopes : list Scope :=
  ["diagrams:read"; "docs:read"; "maps:read"; "services:read"; "chat:read"; "folders:read";
   "members:read"; "teams:read"; "serviceaccounts:read"; "mlstudio:read"; "billing:read";
   "agents:read"; "timeline:read"; "integrations:read";
   "diagrams:write"; "docs:write"; "maps:write"; "services:write"; "chat:write";
   "folders:write"; "mlstudio:write"; "billing:write"; "agents:write"; "timeline:write"].

Definition admin_scopes : list Scope :=
  ["diagrams:*"; "docs:*"; "maps:*"; "services:*"; "chat:*"; "folders:*";
   "members:*"; "teams:*"; "serviceaccounts:*"; "mlstudio:*"; "billing:*"; "agents:*";
   "timeline:*"; "org:*"; "authproviders:*"; "integrations:*"].

(** The map [RoleScopes]; a missing key reads as the nil slice. *)
Definition ScopesForRole (role : Role) : list Scope :=
  if String.eqb role RoleViewer then viewer_scopes
  else if String.eqb role RoleEditor then editor_scopes
  else if String.eqb role RoleAdmin then admin_scopes
  else [].

Definition cut_scope (s : Scope) : string * string * bool := Cut s ":".

Definition knownResources (res : string) : bool :=
  existsb (fun s => let '(r, _, ok) := cut_scope s in ok && String.eqb r res) AllScopes.

Definition validScopes (s : Scope) : bool := mem_str s AllScopes.

Definition ValidScope (s : string) : bool :=
  let '(res, action, ok) := cut_scope s in
  if ok && String.eqb action "*" then knownResources res else validScopes s.

Definition grants (wantRes : string) (want : Scope) (s : string) : bool :=
  if String.eqb s want then true
  else let '(res, action, ok) := cut_scope s in
       ok && String.eqb action "*" && String.eqb res wantRes.

Definition Has (scopes : list string) (want : Scope) : bool :=
  let '(wantRes, _, _) := cut_scope want in
  existsb (grants wantRes want) scopes.

(** ** The authorizer *)

Record OrgMember := mkOrgMember {
  om_UserID : string;
  om_OrgID : string;
  om_Role : Role;
  om_Source : string
}.

(** The columns of a [users] row the authorizer reads. *)
Record UserRow := mkUserRow { ur_Disabled : bool; ur_Role : string }.

(** [rbacQuerier] and [userRoleQuerier]: what the authorizer asks of a store. *)
Class AuthzStore (S E : Type) := {
  GetOrgMember : string -> string -> Eff S (result E OrgMember);
  GetUser : string -> Eff S (result E (option UserRow));
  is_not_found : E -> bool
}.

Section Authorizer.
Context {S E : Type} `{AuthzStore S E}.

Definition IsUserServerAdmin (userID : string) : Eff S (result E bool) :=
  func (
    u <- try (GetUser userID) (fun err => Err err) ;;
    u <- non_nil u (Ok false) ;;
    return_if (ur_Disabled u) (Ok false) ;;;
    gret (Ok (String.eqb (ur_Role u) "server_admin"))).

Definition ScopesForUser (userID orgID : string) : Eff S (result E (list Scope)) :=
  func (
    serverAdmin <- try (IsUserServerAdmin userID) (fun err => Err err) ;;
    return_if serverAdmin (Ok (ScopesForRole RoleAdmin)) ;;;
    m <- call (GetOrgMember userID orgID) ;;
    match m with
    | Err err => if is_not_found err then greturn (Ok []) else greturn (Err err)
    | Ok m => gret (Ok (ScopesForRole (om_Role m)))
    end).
End Authorizer.

(** ** Principals and the route guard *)

Definition PrincipalUser : string := "user".
Definition PrincipalServiceAccount : string := "service_account".

Record Principal := mkPrincipal {
  p_Kind : string;
  p_UserID : string;
  p_OrgID : string;
  p_IsServerAdmin : bool;
  p_ServiceAccountID : string;
  p_Scopes : list string;
  p_AuthProvider : string
}.

Section Guard.
Context {S E : Type} `{AuthzStore S E}.

(** [None] is the Go result [(nil, false)]. *)
Definition principalScopes (principal : Principal) (orgID : string) :
    Eff S (option (list string)) :=
  func (
    if String.eqb (p_Kind principal) PrincipalServiceAccount then
      return_if (str_empty (p_OrgID principal) ||
                 negb (String.eqb (p_OrgID principal) orgID)) None ;;;
      gret (Some (p_Scopes principal))
    else
      resolved <- try (ScopesForUser (p_UserID principal) orgID) (fun _ => None) ;;
      gret (Some resolved)).

Context {B : Type}.

(** The closure [guarded] of [requireScope], around the handler [h]. *)
Definition requireScope (scope : Scope) (ctx : option Principal) (orgID : string)
    (h : Principal -> Eff S (Response B)) : Eff S (Response B) :=
  func (
    p <- non_nil ctx (mkResponse 401 (RawError "unauthenticated")) ;;
    scopes <- call (principalScopes p orgID) ;;
    scopes <- non_nil scopes (mkResponse 403 (RawError "forbidden")) ;;
    return_if (negb (Has scopes scope)) (mkResponse 403 (RawError "forbidden")) ;;;
    call (h p)).

(** The closure [guarded] of [serverAdmin]. *)
Definition serverAdmin (ctx : option Principal)
    (h : Principal -> Eff S (Response B)) : Eff S (Response B) :=
  func (
    p <- non_nil ctx (mkResponse 401 (RawError "unauthenticated")) ;;
    ok <- try (IsUserServerAdmin (p_UserID p))
              (fun _ => mkResponse 403 (RawError "forbidden")) ;;
    return_if (negb ok) (mkResponse 403 (RawError "forbidden")) ;;;
    call (h p)).
End Guard.

(** ** What the authorizer is promised by its store

    [view] is the part of the store's tables the two queries read; [healthy]
    holds of the states in which no store call fails. *)

Record AuthzView := mkView {
  v_user : string -> option UserRow;
  v_role : string -> string -> option Role
}.

Class AuthzStoreLaws (S E : Type) `{AuthzStore S E} := {
  view : S -> AuthzView;
  healthy : S -> Prop;
  GetUser_ok id s r s' : GetUser id s = (Ok r, s') -> r = v_user (view s) id;
  GetUser_view id s : view (GetUser id s).2 = view s;
  GetUser_healthy id s :
    healthy s -> exists r s', GetUser id s = (Ok r, s') /\ healthy s';
  GetOrgMember_ok u o s m s' :
    GetOrgMember u o s = (Ok m, s') -> v_role (view s) u o = Some (om_Role m);
  GetOrgMember_nf u o s e s' :
    GetOrgMember u o s = (Err e, s') -> is_not_found e = true -> v_role (view s) u o = None;
  GetOrgMember_view u o s : view (GetOrgMember u o s).2 = view s;
  GetOrgMember_healthy u o s r s' :
    healthy s -> GetOrgMember u o s = (r, s') ->
    healthy s' /\ forall e, r = Err e -> is_not_found e = true
}.

(** The policy: the scopes the tables give a user in an org. *)
Definition is_server_admin (v : AuthzView) (userID : string) : bool :=
  match v_user v userID with
  | Some u => negb (ur_Disabled u) && String.eqb (ur_Role u) "server_admin"
  | None => false
  end.

Definition granted_scopes (v : AuthzView) (userID orgID : string) : list Scope :=
  if is_server_admin v userID then admin_scopes
  else match v_role v userID orgID with
       | Some role => ScopesForRole role
       | None => []
       end.

(** Who may use a route of org [orgID] guarded by [scope]. *)
Definition may_use (v : AuthzView) (p : Principal) (orgID : string) (scope : Scope) : bool :=
  if String.eqb (p_Kind p) PrincipalServiceAccount
  then negb (str_empty (p_OrgID p)) && String.eqb (p_OrgID p) orgID && Has (p_Scopes p) scope
  else Has (granted_scopes v (p_UserID p) orgID) scope.

(** ** Lemmas *)

Lemma grants_iff wantRes want s :
  grants wantRes want s = true <->
  s = want \/ (s = wantRes +:+ ":*" /\ exists_byte (Ascii.eqb ":") wantRes = false).
Proof.
  unfold grants, cut_scope. destruct (String.eqb_spec s want) as [->|Hne]; [tauto|].
  destruct (Cut s ":") as [[res action] ok] eqn:E.
  rewrite !andb_true_iff, !String.eqb_eq. split.
  - intros [[-> ->] ->]. right. by apply Cut_true in E as [-> ?].
  - intros [?|[-> Hres]]; [done|].
    change (":*") with (String ":" "*") in E.
    rewrite Cut_append in E by done. by simplify_eq.
Qed.

(** The text of a scope before the first colon. *)
Definition resource_of (s : Scope) : string := (cut_scope s).1.1.

Lemma resource_no_colon s : exists_byte (Ascii.eqb ":") (resource_of s) = false.
Proof.
  unfold resource_of, cut_scope. destruct (Cut s ":") as [[r a] ok] eqn:E. by eapply Cut_before.
Qed.

Lemma resource_of_wildcard r :
  exists_byte (Ascii.eqb ":") r = false -> resource_of (r +:+ ":*") = r.
Proof.
  intros Hr. unfold resource_of, cut_scope. change (":*") with (String ":" "*").
  by rewrite Cut_append.
Qed.

Lemma Has_existsb scopes want :
  Has scopes want = existsb (grants (resource_of want) want) scopes.
Proof. unfold Has, resource_of. by destruct (cut_scope want) as [[??] ?]. Qed.

Lemma Has_app s1 s2 want : Has (s1 ++ s2) want = Has s1 want || Has s2 want.
Proof. rewrite !Has_existsb. apply existsb_app. Qed.

Lemma forallb_scopes (P : Scope -> bool) want l :
  forallb P l = true -> want ∈ l -> P want = true.
Proof. intros Hall Hin. rewrite forallb_forall in Hall. by apply Hall, list_elem_of_In. Qed.

Section AuthorizerLemmas.
Context {S E : Type} `{AuthzStoreLaws S E}.

Lemma GetUser_healthy_ok userID s r s' :
  GetUser userID s = (r, s') -> healthy s -> healthy s' /\ exists ou, r = Ok ou.
Proof. intros EU Hs. destruct (GetUser_healthy userID s Hs) as (r1 & s1 & E1 & ?).
  rewrite EU in E1. simplify_eq. eauto. Qed.

Lemma IsUserServerAdmin_spec userID s r s' :
  IsUserServerAdmin userID s = (r, s') ->
  view s' = view s /\
  (healthy s -> healthy s' /\ exists b, r = Ok b) /\
  forall b, r = Ok b -> b = is_server_admin (view s) userID.
Proof.
  unfold IsUserServerAdmin, func, try, gbind, call, is_server_admin.
  pose proof (GetUser_view userID s) as Hview.
  destruct (GetUser userID s) as [[ou|e] s1] eqn:EU; cbn in Hview;
    pose proof (GetUser_healthy_ok _ _ _ _ EU) as Hh.
  - rewrite <-(GetUser_ok _ _ _ _ EU).
    destruct ou as [u|]; cbn; [destruct (ur_Disabled u); cbn|]; naive_solver.
  - cbn. intros [= <- <-]. naive_solver.
Qed.

Lemma ScopesForUser_spec userID orgID s r s' :
  ScopesForUser userID orgID s = (r, s') ->
  view s' = view s /\
  (healthy s -> healthy s' /\ exists l, r = Ok l) /\
  forall l, r = Ok l -> l = granted_scopes (view s) userID orgID.
Proof.
  unfold ScopesForUser, func, try, gbind, call, granted_scopes.
  destruct (IsUserServerAdmin userID s) as [r1 s1] eqn:EA.
  apply IsUserServerAdmin_spec in EA as (Hv1 & Hh1 & Hb1).
  destruct r1 as [b|e]; cbn; [|naive_solver].
  rewrite <-(Hb1 b eq_refl). destruct b; cbn; [naive_solver|].
  pose proof (GetOrgMember_view userID orgID s1) as Hv2.
  destruct (GetOrgMember userID orgID s1) as [rm s2] eqn:EM; cbn in Hv2.
  assert (healthy s -> healthy s2 /\ forall e, rm = Err e -> is_not_found e = true) as Hh.
  { intros Hs. destruct (Hh1 Hs) as [Hs1 _].
    exact (GetOrgMember_healthy userID orgID s1 rm s2 Hs1 EM). }
  destruct rm as [m|e]; cbn; [|destruct (is_not_found e) eqn:Enf; cbn];
    intros [= <- <-]; rewrite Hv2; (split; [done|]); split; try done;
    try (intros Hs; destruct (Hh Hs) as [? Hnf]; eauto); try intros l [= <-].
  - pose proof (GetOrgMember_ok _ _ _ _ _ EM) as Hm. rewrite Hv1 in Hm. by rewrite Hm.
  - pose proof (GetOrgMember_nf _ _ _ _ _ EM Enf) as Hm. rewrite Hv1 in Hm. by rewrite Hm.
  - specialize (Hnf e eq_refl). congruence.
Qed.

Lemma principalScopes_spec p orgID s r s' :
  principalScopes p orgID s = (r, s') ->
  view s' = view s /\ (healthy s -> healthy s') /\
  (forall l scope, r = Some l -> Has l scope = may_use (view s) p orgID scope) /\
  (healthy s -> r = None -> forall scope, may_use (view s) p orgID scope = false).
Proof.
  unfold principalScopes, func, may_use.
  destruct (String.eqb (p_Kind p) PrincipalServiceAccount).
  - unfold gbind, return_if.
    destruct (str_empty (p_OrgID p)); cbn; [naive_solver|].
    destruct (String.eqb (p_OrgID p) orgID); cbn; naive_solver.
  - unfold try, gbind, call.
    destruct (ScopesForUser _ _ s) as [[l|e] s1] eqn:ES; cbn; intros [= <- <-];
      apply ScopesForUser_spec in ES as (Hv & Hh & Hl).
    + rewrite (Hl l eq_refl). naive_solver.
    + naive_solver.
Qed.
End AuthorizerLemmas.

(** ** Properties *)

(** (lemma) What a granted list satisfies: [want] itself, or the wildcard of its
    resource, which is the text before its first colon; nothing else. *)
Theorem Has_iff scopes want :
  Has scopes want = true <->
  want ∈ scopes \/ resource_of want +:+ ":*" ∈ scopes.
Proof.
  rewrite Has_existsb, existsb_exists. setoid_rewrite grants_iff.
  setoid_rewrite <-list_elem_of_In. split.
  - intros (s & Hs & [->|[-> _]]); auto.
  - intros [Hs|Hs]; eexists; (split; [exact Hs|]); auto using resource_no_colon.
Qed.

(** (lemma) The role table is a ladder: a viewer's scopes are an editor's, an
    editor's are an admin's, an admin clears every scope of the catalog, every
    listed scope is valid, and an unknown role grants nothing at all. *)
Theorem role_ladder want role :
  (Has (ScopesForRole RoleViewer) want = true -> Has (ScopesForRole RoleEditor) want = true) /\
  (Has (ScopesForRole RoleEditor) want = true -> Has (ScopesForRole RoleAdmin) want = true) /\
  (want ∈ AllScopes -> Has (ScopesForRole RoleAdmin) want = true) /\
  forallb ValidScope (ScopesForRole role) = true /\
  (role ∉ [RoleAdmin; RoleEditor; RoleViewer] -> Has (ScopesForRole role) want = false).
Proof.
  split_and!.
  - change (ScopesForRole RoleEditor) with (viewer_scopes ++ drop 14 editor_scopes).
    change (ScopesForRole RoleViewer) with viewer_scopes.
    rewrite Has_app. by intros ->.
  - rewrite Has_iff. intros [Hin|Hin].
    + revert Hin. apply (forallb_scopes (Has (ScopesForRole RoleAdmin))).
      vm_compute. reflexivity.
    + apply mem_str_In in Hin. exfalso. unfold mem_str in Hin.
      apply existsb_exists in Hin as (s & Hs & Heq). apply String.eqb_eq in Heq.
      assert (forallb (fun s => negb (HasSuffix s ":*")) (ScopesForRole RoleEditor) = true)
        as Hall by (vm_compute; reflexivity).
      rewrite forallb_forall in Hall. specialize (Hall s Hs). subst s.
      assert (HasSuffix (resource_of want +:+ ":*") ":*" = true) as Hsuf
        by (apply HasSuffix_iff; eauto). by rewrite Hsuf in Hall.
  - apply (forallb_scopes (Has (ScopesForRole RoleAdmin))). vm_compute. reflexivity.
  - unfold ScopesForRole. repeat case_match; vm_compute; reflexivity.
  - intros Hrole. unfold ScopesForRole.
    repeat case_match; bool_to_prop; subst;
      try (destruct Hrole; apply list_elem_of_In; cbn; tauto).
    by rewrite Has_existsb.
Qed.

(** (lemma) A list of valid scopes never reaches outside the resources it names:
    whatever it satisfies has the resource of one of its members, a resource
    of the catalog.  In particular no valid scope is a catch-all. *)
Theorem valid_scopes_confined scopes want :
  forallb ValidScope scopes = true -> Has scopes want = true ->
  knownResources (resource_of want) = true /\
  exists s, s ∈ scopes /\ resource_of s = resource_of want.
Proof.
  intros Hvalid Hhas. rewrite forallb_forall in Hvalid.
  assert (forall s, s ∈ scopes -> knownResources (resource_of s) = true) as Hknown.
  { intros s Hs. apply list_elem_of_In in Hs. specialize (Hvalid s Hs).
    unfold ValidScope, resource_of in *. destruct (cut_scope s) as [[res action] ok] eqn:E.
    destruct (ok && String.eqb action "*"); [done|]. unfold validScopes in Hvalid.
    apply mem_str_In in Hvalid.
    assert (knownResources (cut_scope s).1.1 = true) as Hk
      by (revert Hvalid; apply (forallb_scopes (fun s => knownResources (cut_scope s).1.1));
          vm_compute; reflexivity).
    by rewrite E in Hk. }
  apply Has_iff in Hhas as [Hs|Hs].
  - split; [auto|]. exists want. auto.
  - assert (resource_of (resource_of want +:+ ":*") = resource_of want) as Hres
      by (apply resource_of_wildcard, resource_no_colon).
    split; [rewrite <-Hres; auto|]. eauto.
Qed.

Lemma valid_scopes_confined_witness :
  knownResources (resource_of "diagrams:write") = true /\
  exists s, s ∈ ["diagrams:*"; "maps:read"] /\ resource_of s = resource_of "diagrams:write".
Proof. apply valid_scopes_confined; reflexivity. Defined.

Section GuardTheorems.
Context {S E : Type} `{AuthzStoreLaws S E} {B : Type}.

(** (C1) The route guard is sound and complete for the policy [may_use]: the
    handler runs only with a principal the tables allow, on unchanged tables;
    otherwise the response is 401 without a principal and 403 with one, the
    handler's effects do not happen, and - unless a store call failed - the
    tables indeed refuse. *)
Theorem requireScope_correct scope ctx orgID (h : Principal -> Eff S (Response B)) s :
  let '(r, s') := requireScope scope ctx orgID h s in
  (exists p s0, ctx = Some p /\ may_use (view s) p orgID scope = true /\
     view s0 = view s /\ h p s0 = (r, s')) \/
  (view s' = view s /\
   ((ctx = None /\ status r = 401%Z) \/
    (exists p, ctx = Some p /\ status r = 403%Z /\
       (healthy s -> may_use (view s) p orgID scope = false)))).
Proof.
  unfold requireScope, func, gbind, call. destruct ctx as [p|]; cbn; [|by right; auto].
  destruct (principalScopes p orgID s) as [[l|] s1] eqn:EP;
    apply principalScopes_spec in EP as (Hv & _ & Hl & Hn); cbn.
  - pose proof (Hl l scope eq_refl) as Hmay. destruct (Has l scope) eqn:EH; cbn.
    + destruct (h p s1) as [r s2] eqn:Eh. left. by exists p, s1.
    + right. split; [done|]. right. exists p. auto.
  - right. split; [done|]. right. exists p. auto.
Qed.

(** (lemma) The instance-admin guard lets exactly the enabled users with the role
    [server_admin] through, whatever kind of principal they come as. *)
Theorem serverAdmin_correct ctx (h : Principal -> Eff S (Response B)) s :
  let '(r, s') := serverAdmin ctx h s in
  (exists p s0, ctx = Some p /\ is_server_admin (view s) (p_UserID p) = true /\
     view s0 = view s /\ h p s0 = (r, s')) \/
  (view s' = view s /\
   ((ctx = None /\ status r = 401%Z) \/
    (exists p, ctx = Some p /\ status r = 403%Z /\
       (healthy s -> is_server_admin (view s) (p_UserID p) = false)))).
Proof.
  unfold serverAdmin, func, try, gbind, call. destruct ctx as [p|]; cbn; [|by right; auto].
  destruct (IsUserServerAdmin (p_UserID p) s) as [[b|e] s1] eqn:EA;
    apply IsUserServerAdmin_spec in EA as (Hv & Hh & Hb); cbn.
  - pose proof (Hb b eq_refl) as Hadm. destruct b; cbn.
    + destruct (h p s1) as [r s2] eqn:Eh. left. by exists p, s1.
    + right. split; [done|]. right. by exists p.
  - right. split; [done|]. right. exists p. split_and!; [done|done|].
    intros Hs. destruct (Hh Hs) as [_ [? ?]]. done.
Qed.
End GuardTheorems.
