(* ===== verification/RoleMap.v ===== *)
(** * RoleMap: resolving an org role from identity-provider attributes

    Models [internal/rolemap/rolemap.go]: the rule operators, attribute lookup
    along dotted paths, rule validation and the priority-ordered resolution
    that the SSO callback runs.  Go's [regexp] engine and the [%v] printer are
    arguments (class [Regexp], [fmt_v]); everything else is defined here. *)

From S2P Require Import Prelude GoStrings Authz.
Set Warnings "-register-all".

(** ** Data *)

(** An attribute value: what [encoding/json] decodes a claim to, or what the
    SAML assertion reader stores ([string], [[]string]).  Numbers and booleans
    matter only through their printed form. *)
Inductive attr : Type :=
| ANil
| AString (s : string)
| AStrings (l : list string)
| AList (l : list attr)
| AMap (m : gmap string attr)
| AScalar (repr : string).

Record Rule := mkRule {
  r_ID : string;
  r_ProviderID : string;
  r_Priority : Z;
  r_AttributeKey : string;
  r_Operator : string;
  r_AttributeValue : string;
  r_Role : Role
}.

Definition OpEquals := "equals".
Definition OpNotEquals := "notEquals".
Definition OpContains := "contains".
Definition OpNotContains := "notContains".
Definition OpStartsWith := "startsWith".
Definition OpEndsWith := "endsWith".
Definition OpExists := "exists".
Definition OpNotExists := "notExists".
Definition OpRegex := "regex".

Definition ValidOperators : list string :=
  [OpEquals; OpNotEquals; OpContains; OpNotContains; OpStartsWith; OpEndsWith;
   OpExists; OpNotExists; OpRegex].

Inductive rolemap_err : Type :=
| KeyRequired
| UnknownOperator (op : string)
| ValueRequired (op : string)
| InvalidRegex (re : string)
| UnknownRole (role : Role).

(** [regexp.Compile]: the matcher of a pattern, or a syntax error. *)
Class Regexp := { regexp_compile : string -> option (string -> bool) }.

(** ** Validation *)

Definition ValidOperator (op : string) : bool := mem_str op ValidOperators.

Definition TakesValue (op : string) : bool :=
  if String.eqb op OpExists || String.eqb op OpNotExists then false else true.

Definition known_role (role : Role) : bool :=
  negb (negb (String.eqb role RoleAdmin) && negb (String.eqb role RoleEditor) &&
        negb (String.eqb role RoleViewer)).

Definition ValidateRule `{Regexp} (r : Rule) : option rolemap_err :=
  if str_empty (TrimSpace (r_AttributeKey r)) then Some KeyRequired
  else if negb (ValidOperator (r_Operator r)) then Some (UnknownOperator (r_Operator r))
  else if TakesValue (r_Operator r) && str_empty (r_AttributeValue r)
       then Some (ValueRequired (r_Operator r))
  else if String.eqb (r_Operator r) OpRegex &&
          bool_decide (regexp_compile (r_AttributeValue r) = None)
       then Some (InvalidRegex (r_AttributeValue r))
  else if negb (known_role (r_Role r)) then Some (UnknownRole (r_Role r))
  else None.

(** ** Attribute lookup *)

(** A nil interface, a missing key and a stored nil all read as [ANil]. *)
Definition attr_get (attrs : gmap string attr) (key : string) : option attr := attrs !! key.

Fixpoint Lookup_fuel (fuel : nat) (attrs : gmap string attr) (key : string) : attr :=
  match fuel with
  | O => ANil
  | S fuel =>
      match attr_get attrs key with
      | Some val => val
      | None =>
          match SplitN2 key "." with
          | [part] => match attr_get attrs part with Some val => val | None => ANil end
          | [part; rest] =>
              match attr_get attrs part with
              | None => ANil
              | Some (AMap nested) => Lookup_fuel fuel nested rest
              | Some _ => ANil
              end
          | _ => ANil
          end
      end
  end.

(** Each step drops at least the dot, so the key's length bounds the depth. *)
Definition Lookup (attrs : gmap string attr) (key : string) : attr :=
  Lookup_fuel (S (String.length key)) attrs key.
#[global] Arguments Lookup : simpl never.

Section Match.
Context (fmt_v : attr -> string) `{Regexp}.

Definition stringValues (raw : attr) : list string :=
  match raw with
  | ANil => []
  | AString v => [v]
  | AStrings v => v
  | AList v =>
      omap (fun item => match item with
                        | ANil => None
                        | AString s => Some s
                        | item => Some (fmt_v item)
                        end) v
  | v => [fmt_v v]
  end.

Definition present (raw : attr) : bool :=
  match raw with ANil => false | _ => true end.

Definition Match (r : Rule) (attrs : gmap string attr) : result rolemap_err bool :=
  let raw := Lookup attrs (r_AttributeKey r) in
  let values := stringValues raw in
  let val := r_AttributeValue r in
  let op := r_Operator r in
  if String.eqb op OpExists then Ok (present raw)
  else if String.eqb op OpNotExists then Ok (negb (present raw))
  else if String.eqb op OpEquals then Ok (existsb (fun v => String.eqb v val) values)
  else if String.eqb op OpNotEquals then
    if negb (present raw) then Ok false
    else Ok (negb (existsb (fun v => String.eqb v val) values))
  else if String.eqb op OpContains then Ok (existsb (fun v => Contains v val) values)
  else if String.eqb op OpNotContains then
    if negb (present raw) then Ok false
    else Ok (negb (existsb (fun v => Contains v val) values))
  else if String.eqb op OpStartsWith then Ok (existsb (fun v => HasPrefix v val) values)
  else if String.eqb op OpEndsWith then Ok (existsb (fun v => HasSuffix v val) values)
  else if String.eqb op OpRegex then
    match regexp_compile val with
    | None => Err (InvalidRegex val)
    | Some re => Ok (existsb re values)
    end
  else Err (UnknownOperator op).

(** The loop over the ordered rules. *)
Fixpoint first_match (ordered : list Rule) (attrs : gmap string attr) (defaultRole : Role) :
    result rolemap_err Role :=
  match ordered with
  | [] => Ok defaultRole
  | r :: rest =>
      match Match r attrs with
      | Err e => Err e
      | Ok true => Ok (r_Role r)
      | Ok false => first_match rest attrs defaultRole
      end
  end.

Definition Resolve (rules : list Rule) (attrs : gmap string attr) (defaultRole : Role) :
    result rolemap_err Role :=
  first_match (sort_stable (by_key r_Priority) rules) attrs defaultRole.

(** ** Lemmas *)

(** A rule that stops the loop: it matches or fails. *)
Definition hit (attrs : gmap string attr) (r : Rule) : bool :=
  match Match r attrs with Ok false => false | _ => true end.

Lemma first_match_find rules attrs d :
  first_match rules attrs d =
  match List.find (hit attrs) rules with
  | None => Ok d
  | Some r => match Match r attrs with Ok _ => Ok (r_Role r) | Err e => Err e end
  end.
Proof.
  induction rules as [|r rules IH]; cbn; [done|]. unfold hit at 1.
  destruct (Match r attrs) as [[]|e] eqn:E; try rewrite E; done.
Qed.

Lemma Match_valid_ok r attrs :
  ValidateRule r = None -> exists b, Match r attrs = Ok b.
Proof.
  unfold ValidateRule, Match. intros Hv.
  destruct (str_empty _); [done|].
  destruct (ValidOperator (r_Operator r)) eqn:Hop; [|done].
  destruct (TakesValue _ && _); [done|]. cbn in Hv.
  destruct (String.eqb (r_Operator r) OpRegex && _) eqn:Hre; [done|]. clear Hv.
  unfold ValidOperator in Hop. apply mem_str_In, list_elem_of_In in Hop. cbn in Hop.
  repeat destruct Hop as [Hop|Hop]; try rewrite <-Hop in *; cbn in *; try case_match; eauto.
  - by apply bool_decide_eq_false in Hre.
  - done.
Qed.
End Match.

Lemma Cut_rest_length s sep b r : Cut s sep = (b, r, true) -> String.length r < String.length s.
Proof. intros E. apply Cut_true in E as [-> _]. rewrite length_append. cbn. lia. Qed.

Lemma Lookup_fuel_S fuel attrs key :
  Lookup_fuel (S fuel) attrs key =
  match attr_get attrs key with
  | Some val => val
  | None =>
      let '(part, rest, dotted) := Cut key "." in
      match attr_get attrs part with
      | Some val =>
          if dotted then match val with AMap nested => Lookup_fuel fuel nested rest | _ => ANil end
          else val
      | None => ANil
      end
  end.
Proof.
  cbn. destruct (attr_get attrs key); [done|]. unfold SplitN2.
  destruct (Cut key ".") as [[b r] []] eqn:E; [done|]. by apply Cut_false in E as [-> _].
Qed.

Lemma Lookup_fuel_enough fuel fuel' attrs key :
  String.length key < fuel -> String.length key < fuel' ->
  Lookup_fuel fuel attrs key = Lookup_fuel fuel' attrs key.
Proof.
  revert fuel' attrs key. induction fuel as [|fuel IH]; intros [|fuel'] attrs key H1 H2; try lia.
  rewrite !Lookup_fuel_S. destruct (attr_get attrs key); [done|].
  destruct (Cut key ".") as [[b r] []] eqn:E; [|done].
  apply Cut_rest_length in E. repeat case_match; try done. apply IH; lia.
Qed.

(** The recursion equation of the source, free of fuel. *)
Lemma Lookup_unfold attrs key :
  Lookup attrs key =
  match attr_get attrs key with
  | Some val => val
  | None =>
      let '(part, rest, dotted) := Cut key "." in
      match attr_get attrs part with
      | Some val => if dotted then match val with AMap nested => Lookup nested rest | _ => ANil end
                    else val
      | None => ANil
      end
  end.
Proof.
  unfold Lookup at 1. rewrite Lookup_fuel_S. destruct (attr_get attrs key); [done|].
  destruct (Cut key ".") as [[b r] []] eqn:E; [|done].
  destruct (attr_get attrs b) as [[]|]; try done. apply Lookup_fuel_enough; [|lia].
  by apply Cut_rest_length in E.
Qed.

(** The value at the end of a path of nested objects. *)
Fixpoint descend (attrs : gmap string attr) (path : list string) : option attr :=
  match path with
  | [] => None
  | [k] => attrs !! k
  | k :: path' =>
      match attrs !! k with
      | Some (AMap nested) => descend nested path'
      | _ => None
      end
  end.

(** No object on the way has a key containing the separator. *)
Fixpoint plain_keys (attrs : gmap string attr) (path : list string) : Prop :=
  (forall k, is_Some (attrs !! k) -> exists_byte (Ascii.eqb ".") k = false) /\
  match path with
  | k :: path' => match attrs !! k with Some (AMap nested) => plain_keys nested path' | _ => True end
  | [] => True
  end.

Section Theorems.
Context (fmt_v : attr -> string) `{Regexp}.

(** (lemma) Priority order: [Resolve] answers with the first rule that matches or
    fails in the order of ascending priority, the earlier rule first among
    equal priorities, and with the default role when no rule does.  A rule that
    fails decides too: it is never skipped. *)
Theorem Resolve_correct rules attrs defaultRole :
  let stops r := Match fmt_v r attrs <> Ok false in
  let decides r := exists pre post, rules = pre ++ r :: post /\
    Forall (fun r' => stops r' -> (r_Priority r < r_Priority r')%Z) pre /\
    Forall (fun r' => stops r' -> (r_Priority r <= r_Priority r')%Z) post in
  match Resolve fmt_v rules attrs defaultRole with
  | Ok role =>
      (role = defaultRole /\ Forall (fun r => Match fmt_v r attrs = Ok false) rules) \/
      (exists r, decides r /\ Match fmt_v r attrs = Ok true /\ role = r_Role r)
  | Err e => exists r, decides r /\ Match fmt_v r attrs = Err e
  end.
Proof.
  cbn zeta. unfold Resolve. rewrite first_match_find, find_sort_stable by apply _.
  assert (forall r, hit fmt_v attrs r = true <-> Match fmt_v r attrs <> Ok false) as Hhit.
  { intros r. unfold hit. by destruct (Match fmt_v r attrs) as [[]|]. }
  destruct (best_hit _ _ _) as [r|] eqn:Eb.
  - apply best_hit_Some in Eb as (pre & post & Hrules & Hr & Hpre & Hpost); [|apply _].
    assert (exists pre post, rules = pre ++ r :: post /\
      Forall (fun r' => Match fmt_v r' attrs <> Ok false -> (r_Priority r < r_Priority r')%Z) pre /\
      Forall (fun r' => Match fmt_v r' attrs <> Ok false -> (r_Priority r <= r_Priority r')%Z) post)
      as Hd.
    { exists pre, post. split; [done|]. unfold by_key in *.
      split; (eapply Forall_impl; [eassumption|]); cbn; intros r' Hr' Hs;
        apply Hhit, Hr' in Hs; bool_to_prop; lia. }
    apply Hhit in Hr. destruct (Match fmt_v r attrs) as [[]|e] eqn:E; [right|done|]; eauto.
  - left. split; [done|]. apply best_hit_None in Eb. eapply Forall_impl; [exact Eb|]. cbn.
    intros r. unfold hit. by destruct (Match fmt_v r attrs) as [[]|].
Qed.

(** (lemma) Rules that passed [ValidateRule] never fail at sign-in, and the role
    they resolve to is one of the three org roles whenever the default is. *)
Theorem valid_rules_resolve rules attrs defaultRole :
  Forall (fun r => ValidateRule r = None) rules -> known_role defaultRole = true ->
  exists role, Resolve fmt_v rules attrs defaultRole = Ok role /\ known_role role = true.
Proof.
  intros Hv Hd. unfold Resolve. rewrite first_match_find.
  destruct (List.find _ _) as [r|] eqn:Ef; [|eauto].
  apply List.find_some in Ef as [Hr _]. apply list_elem_of_In, sort_stable_elem in Hr.
  rewrite Forall_forall in Hv. specialize (Hv r Hr).
  destruct (Match_valid_ok fmt_v r attrs Hv) as [b ->]. eexists. split; [done|].
  unfold ValidateRule in Hv. repeat case_match; try done. by bool_to_prop.
Qed.

(** (lemma) The negative operators need the attribute: on a present attribute they
    are the exact negation of their positives, and an absent attribute
    satisfies [notExists] and nothing else, so a missing claim cannot grant a
    role through [notEquals] or [notContains]. *)
Theorem negation_needs_presence r attrs op nop :
  (op, nop) ∈ [(OpEquals, OpNotEquals); (OpContains, OpNotContains); (OpExists, OpNotExists)] ->
  let on o := Match fmt_v (mkRule (r_ID r) (r_ProviderID r) (r_Priority r) (r_AttributeKey r) o
                             (r_AttributeValue r) (r_Role r)) attrs in
  if present (Lookup attrs (r_AttributeKey r))
  then exists b, on op = Ok b /\ on nop = Ok (negb b)
  else forall o, on o = Ok true <-> o = OpNotExists.
Proof.
  intros Hop on. subst on. unfold Match. cbn.
  destruct (present _) eqn:Ep.
  - repeat (apply elem_of_cons in Hop as [Hop|Hop]; [injection Hop as -> ->; cbn; eauto|]).
    by apply not_elem_of_nil in Hop.
  - intros o. assert (Lookup attrs (r_AttributeKey r) = ANil) as ->
      by (by destruct (Lookup attrs (r_AttributeKey r))). cbn.
    repeat case_match; bool_to_prop; subst; split; congruence || done.
Qed.

(** (lemma) A dotted key reaches the value at the end of its path of nested
    objects, when no object on the way has a key with a dot in it. *)
Theorem Lookup_path attrs path :
  path <> [] -> Forall (fun k => exists_byte (Ascii.eqb ".") k = false) path ->
  plain_keys attrs path ->
  Lookup attrs (Join path ".") = default ANil (descend attrs path).
Proof.
  revert attrs. induction path as [|k path IH]; intros attrs Hne Hnd Hpl; [done|].
  inversion Hnd as [|?? Hk Hnd']; subst. destruct Hpl as [Hkeys Hpl].
  rewrite Lookup_unfold. unfold attr_get. destruct path as [|k' path].
  - cbn. destruct (attrs !! k) eqn:Ek; [done|].
    destruct (Cut k ".") as [[b r] []] eqn:E.
    + apply Cut_true in E as [-> _]. by rewrite exists_byte_append, orb_true_r in Hk.
    + apply Cut_false in E as [-> _]. by rewrite Ek.
  - change (Join (k :: k' :: path) ".") with (k +:+ String "." (Join (k' :: path) ".")).
    destruct (attrs !! (k +:+ String "." _)) eqn:Ekk.
    + assert (exists_byte (Ascii.eqb ".") (k +:+ String "." (Join (k' :: path) ".")) = false)
        as Hbad by (apply Hkeys; eauto).
      by rewrite exists_byte_append, orb_true_r in Hbad.
    + rewrite Cut_append by done. cbn [descend].
      destruct (attrs !! k) as [[| | | |nested|]|] eqn:Ek; try done. by apply IH.
Qed.
End Theorems.

(** ** Witnesses *)

Definition w_regexp : Regexp := {| regexp_compile := fun p => if str_empty p then None else Some (String.eqb p) |}.
Definition w_fmt (a : attr) : string := match a with AScalar s => s | _ => "%v" end.
Definition w_unit : gmap string attr := {[ "unit" := AString "core" ]}.
Definition w_attrs : gmap string attr :=
  {[ "groups" := AStrings ["eng"; "ops"]; "org" := AMap w_unit ]}.
Definition w_rules : list Rule :=
  [mkRule "1" "p" 20 "groups" OpEquals "ops" RoleAdmin;
   mkRule "2" "p" 10 "org.unit" OpStartsWith "co" RoleEditor].

Lemma valid_rules_resolve_witness :
  exists role, Resolve (H:=w_regexp) w_fmt w_rules w_attrs RoleViewer = Ok role /\
               known_role role = true.
Proof.
  apply (valid_rules_resolve (H:=w_regexp) w_fmt w_rules w_attrs RoleViewer).
  - repeat constructor.
  - reflexivity.
Defined.

Lemma negation_needs_presence_witness :
  let on o := Match (H:=w_regexp) w_fmt (mkRule "1" "p" 20 "groups" o "ops" RoleAdmin) w_attrs in
  exists b, on OpEquals = Ok b /\ on OpNotEquals = Ok (negb b).
Proof.
  exact (negation_needs_presence (H:=w_regexp) w_fmt
           (mkRule "1" "p" 20 "groups" OpEquals "ops" RoleAdmin) w_attrs OpEquals OpNotEquals
           (list_elem_of_here _ _)).
Defined.

Lemma Lookup_path_witness :
  Lookup w_attrs (Join ["org"; "unit"] ".") = default ANil (descend w_attrs ["org"; "unit"]).
Proof.
  apply Lookup_path; [done|by repeat constructor|].
  assert (w_attrs !! "org" = Some (AMap w_unit)) as E by reflexivity.
  assert (w_unit !! "unit" = Some (AString "core")) as E' by reflexivity.
  cbn [plain_keys]. rewrite E, E'. unfold w_attrs, w_unit.
  split_and!; [|intros k [v Hk]..|done].
  - intros k [v Hk]. apply lookup_insert_Some in Hk as [[<- _]|[_ Hk]]; [done|].
    by apply lookup_singleton_Some in Hk as [<- _].
  - by apply lookup_singleton_Some in Hk as [<- _].
Defined.

Example Resolve_prefers_low_priority :
  Resolve (H:=w_regexp) w_fmt w_rules w_attrs RoleViewer = Ok RoleEditor.
Proof. reflexivity. Qed.
