(* ===== verification/Identity.v ===== *)
(** * Identity: auth providers, organization domains, API tokens

    Models [internal/identity]: validation of provider configurations and
    slugs, the domain allow-list, normalization of organization domains
    ([provider.go]), and API tokens ([token.go], [serviceaccount.go]).
    SHA-256 and the UUID generator are arguments.  Times are nanoseconds since
    Go's zero time, which is 0. *)

From S2P Require Import Prelude GoStrings Effects Regex Authz.
Set Warnings "-clear-no-such-hyp".
#[local] Arguments HasPrefix : simpl never.

Class Sha256 := {
  sha256 : string -> list N;
  sha256_length s : length (sha256 s) = 32;
  sha256_bytes s : Forall (fun b => (b < 256)%N) (sha256 s)
}.

(** [uuid.NewString] of the google/uuid package, from 16 random bytes. *)
Class UuidGen := { uuid_of : list N -> string }.

(** ** Providers *)

Definition KindOIDC := "oidc".
Definition KindSAML := "saml".
Definition TypeGeneric := "generic".
Definition TypeEntra := "entra".
Definition TypeOkta := "okta".

Record AuthProvider := mkAuthProvider {
  ap_ID : string; ap_Slug : string; ap_OrgID : string;
  ap_Kind : string; ap_Type : string; ap_DisplayName : string;
  ap_IconAssetID : string; ap_IconURL : string;
  ap_Enabled : bool; ap_AllowSignUp : bool;
  ap_AllowedDomains : string; ap_DefaultRole : Role;

  ap_ClientID : string; ap_ClientSecret : string;
  ap_AuthURL : string; ap_TokenURL : string; ap_UserinfoURL : string; ap_APIURL : string;
  ap_Scopes : string; ap_EmailClaim : string; ap_NameClaim : string; ap_SubClaim : string;
  ap_GroupsClaim : string;

  ap_IDPMetadataURL : string; ap_IDPMetadataXML : string;
  ap_IDPEntityID : string; ap_IDPSSOURL : string; ap_IDPCert : string;
  ap_SPEntityID : string; ap_SPCert : string; ap_SPKey : string;
  ap_SignRequests : bool; ap_NameIDFormat : string;
  ap_EmailAttribute : string; ap_NameAttribute : string; ap_GroupsAttribute : string;

  ap_CreatedAt : Z; ap_UpdatedAt : Z
}.

Record OrgDomain := mkOrgDomain {
  od_ID : string; od_OrgID : string; od_Domain : string; od_CreatedAt : Z; od_UpdatedAt : Z
}.

Record LoginState := mkLoginState {
  ls_ID : string;
  ls_State : string;
  ls_OrgID : string;
  ls_ProviderID : string;
  ls_Nonce : string;
  ls_SAMLRequestID : string;
  ls_RedirectTo : string;
  ls_CreatedAt : Z;
  ls_ExpiresAt : Z
}.

Record Session := mkSession {
  s_ID : string;
  s_UserID : string;
  s_TokenHash : string;
  s_PrevTokenHash : string;
  s_AuthTokenSeen : bool;
  s_SeenAt : option Z;
  s_UserAgent : string;
  s_ClientIP : string;
  s_RotatedAt : Z;
  s_CreatedAt : Z;
  s_ExpiresAt : Z;
  s_LastActiveAt : Z;
  s_SAMLSessionIdx : string;
  s_SAMLNameIDHash : string;
  s_AuthProvider : string
}.

Inductive identity_err : Type :=
| SlugRequired | SlugLength | SlugPattern
| OrgIDRequired | DisplayNameRequired | UnknownDefaultRole (role : Role)
| UnknownOIDCType (t : string) | ClientIDRequired | URLsRequired
| IDPSSOURLRequired | IDPCertRequired | UnknownKind (k : string)
| InvalidOrgDomain.

(** [[a-z0-9]] *)
Definition slug_byte (a : ascii) : bool := is_lower a || is_digit a.

(** [^[a-z0-9]+(-[a-z0-9]+)*$] *)
Definition slugPattern : re :=
  RCat (RPlus (RClass slug_byte)) (RStar (RCat (RChar "-") (RPlus (RClass slug_byte)))).

(** [^[a-z0-9]([a-z0-9-]*[a-z0-9])?$] *)
Definition label_byte (a : ascii) : bool := slug_byte a || Ascii.eqb "-" a.
Definition domainLabelPattern : re :=
  RCat (RClass slug_byte) (ROpt (RCat (RStar (RClass label_byte)) (RClass slug_byte))).

(** [[a-z]], not anchored. *)
Definition domainLetterPattern (s : string) : bool := exists_byte is_lower s.

Definition ValidateSlug (slug : string) : option identity_err :=
  if str_empty slug then Some SlugRequired
  else if (String.length slug <? 2) || (63 <? String.length slug) then Some SlugLength
  else if negb (full_match slugPattern slug) then Some SlugPattern
  else None.

Definition blank (s : string) : bool := str_empty (TrimSpace s).

Definition Validate (p : AuthProvider) : option identity_err :=
  if blank (ap_OrgID p) then Some OrgIDRequired
  else match ValidateSlug (ap_Slug p) with
  | Some err => Some err
  | None =>
  if blank (ap_DisplayName p) then Some DisplayNameRequired
  else if negb (String.eqb (ap_DefaultRole p) RoleAdmin) &&
          negb (String.eqb (ap_DefaultRole p) RoleEditor) &&
          negb (String.eqb (ap_DefaultRole p) RoleViewer)
       then Some (UnknownDefaultRole (ap_DefaultRole p))
  else if String.eqb (ap_Kind p) KindOIDC then
    if negb (String.eqb (ap_Type p) TypeGeneric) && negb (String.eqb (ap_Type p) TypeEntra) &&
       negb (String.eqb (ap_Type p) TypeOkta)
    then Some (UnknownOIDCType (ap_Type p))
    else if blank (ap_ClientID p) then Some ClientIDRequired
    else if blank (ap_AuthURL p) || blank (ap_TokenURL p) then Some URLsRequired
    else None
  else if String.eqb (ap_Kind p) KindSAML then
    if blank (ap_IDPSSOURL p) then Some IDPSSOURLRequired
    else if blank (ap_IDPCert p) then Some IDPCertRequired
    else None
  else Some (UnknownKind (ap_Kind p))
  end.

Section Domains.
Context `{UnicodeCase}.

Definition EmailAllowed (p : AuthProvider) (email : string) : bool :=
  if str_empty (TrimSpace (ap_AllowedDomains p)) then true
  else match LastIndexByte email "@" with
       | None => false
       | Some at_ =>
           let domain := ToLower (drop_bytes (S at_) email) in
           existsb (fun d => String.eqb (ToLower (TrimSpace d)) domain)
                   (Split (ap_AllowedDomains p) ",")
       end.

Definition bad_label (label : string) : bool :=
  (String.length label <? 1) || (63 <? String.length label) ||
  negb (full_match domainLabelPattern label).

Definition NormalizeOrgDomain (value : string) : result identity_err string :=
  let domain := TrimSpace value in
  let domain := TrimPrefix domain "@" in
  let domain := ToLower (TrimSpace domain) in
  if (String.length domain <? 3) || (253 <? String.length domain) then Err InvalidOrgDomain
  else
    let labels := Split domain "." in
    if length labels <? 2 then Err InvalidOrgDomain
    else if existsb bad_label labels then Err InvalidOrgDomain
    else if negb (domainLetterPattern (List.last labels EmptyString)) then Err InvalidOrgDomain
    else Ok domain.
End Domains.

(** ** Tokens *)

Record ServiceAccount := mkServiceAccount {
  sa_ID : string;
  sa_OrgID : string;
  sa_Name : string;
  sa_Description : string;
  sa_Scopes : list string;
  sa_Disabled : bool;
  sa_IsInternal : bool;
  sa_AvatarAssetID : option string;
  sa_CreatedBy : string;
  sa_CreatedAt : Z;
  sa_UpdatedAt : Z
}.

Record Token := mkToken {
  tok_ID : string;
  tok_ServiceAccountID : string;
  tok_Name : string;
  tok_Prefix : string;
  tok_Hash : string;
  tok_ExpiresAt : option Z;
  tok_LastUsedAt : option Z;
  tok_Revoked : bool;
  tok_CreatedBy : string;
  tok_CreatedAt : Z
}.

Definition SystemServiceAccountName := "System Service".
Definition systemServiceAccountDescription :=
  "Built-in account used for internal service-level tasks (e.g. screenshot rendering).".

Definition tokenPrefix := "uig_".
Definition tokenRandBytes := 32.
Definition prefixLen := String.length tokenPrefix + 8.

Definition Prefix (plaintext : string) : string :=
  if String.length plaintext <? prefixLen then plaintext else take_bytes prefixLen plaintext.

(** The bytes of a string, and the XOR-accumulating comparison loop. *)
Fixpoint bytes_of (s : string) : list N :=
  match s with
  | EmptyString => []
  | String a s' => N_of_ascii a :: bytes_of s'
  end.

Definition xor_diff (xs ys : list N) : N :=
  foldl (fun diff '(x, y) => N.lor diff (N.lxor x y)) 0%N (zip xs ys).

Section Tokens.
Context `{Sha256}.

Definition Hash (plaintext : string) : string := hex_encode (sha256 plaintext).

Definition Verify (plaintext storedHash : string) : bool :=
  let computed := Hash plaintext in
  if negb (String.length computed =? String.length storedHash) then false
  else N.eqb (xor_diff (bytes_of computed) (bytes_of storedHash)) 0.

Context `{UuidGen} {DB : Type}.

(** [uuid.NewString()].  The package panics when the entropy source fails; the
    model returns an error there, which ends the request too. *)
Definition new_uuid : Eff (World DB) (result store_err string) :=
  fun w => let '(r, w') := rand_read 16 w in
           (match r with Ok b => Ok (uuid_of b) | Err e => Err e end, w').

Definition Generate : Eff (World DB) (result store_err (string * string * string)) :=
  func (
    b <- try (rand_read tokenRandBytes) (fun err => Err err) ;;
    id <- try new_uuid (fun err => Err err) ;;
    let plaintext := tokenPrefix +:+ hex_encode b in
    gret (Ok (id, plaintext, Hash plaintext))).

Definition NewSystemServiceAccount (id orgID : string) (scopes : list string) : ServiceAccount :=
  {| sa_ID := id; sa_OrgID := orgID; sa_Name := SystemServiceAccountName;
     sa_Description := systemServiceAccountDescription; sa_Scopes := scopes;
     sa_Disabled := false; sa_IsInternal := true; sa_AvatarAssetID := None;
     sa_CreatedBy := EmptyString;
     sa_CreatedAt := 0; sa_UpdatedAt := 0 |}.
End Tokens.

(** ** Lemmas on patterns *)

Lemma slug_byte_not_dash a : slug_byte a = true -> Ascii.eqb "-" a = false.
Proof. intros Ha. apply Ascii.eqb_neq. by intros <-. Qed.

Lemma exists_byte_cons p a s : exists_byte p (String a s) = p a || exists_byte p s.
Proof. done. Qed.

Lemma slug_bytes_no_dash s : forall_byte slug_byte s = true -> exists_byte (Ascii.eqb "-") s = false.
Proof.
  induction s as [|a s IH]; [done|]. rewrite exists_byte_cons. cbn [forall_byte].
  intros [Ha Hs]%andb_true_iff. by rewrite slug_byte_not_dash, IH.
Qed.

Lemma Split_append s sep t :
  exists_byte (Ascii.eqb sep) s = false -> Split (s +:+ String sep t) sep = s :: Split t sep.
Proof.
  induction s as [|a s IH]; cbn; [by rewrite Ascii.eqb_refl|].
  intros [Ha Hs]%orb_false_iff. rewrite IH by done.
  destruct (Ascii.eqb_spec a sep) as [->|]; [|done]. by rewrite Ascii.eqb_refl in Ha.
Qed.

Lemma Split_single s sep : exists_byte (Ascii.eqb sep) s = false -> Split s sep = [s].
Proof.
  induction s as [|a s IH]; cbn; [done|]. intros [Ha Hs]%orb_false_iff. rewrite IH by done.
  destruct (Ascii.eqb_spec a sep) as [->|]; [|done]. by rewrite Ascii.eqb_refl in Ha.
Qed.

Definition slug_label (w : string) : Prop := w <> EmptyString /\ forall_byte slug_byte w = true.

Lemma slug_tail_split s :
  lang (RStar (RCat (RChar "-") (RPlus (RClass slug_byte)))) s ->
  s = EmptyString \/ exists ws, ws <> [] /\ Forall slug_label ws /\
    s = String "-" (Join ws "-").
Proof.
  remember (RStar _) as r eqn:Hr. intros Hl. revert Hr.
  induction Hl as [| | | | | |r s1 s2 H1 _ H2 IH]; intros Hr; simplify_eq; [by left|]. right.
  apply lang_cat_inv in H1 as (d & w & -> & Hd & Hw). apply lang_class_inv in Hd as (a & -> & Ha).
  apply Ascii.eqb_eq in Ha as <-. apply lang_plus_class in Hw.
  destruct (IH eq_refl) as [->|(ws & Hne & Hws & ->)].
  - exists [w]. split_and!; [done|by constructor|]. cbn. by rewrite append_nil_r.
  - exists (w :: ws). split_and!; [done|by constructor|]. by destruct ws.
Qed.

Lemma slug_tail_join ws :
  Forall slug_label ws ->
  lang (RStar (RCat (RChar "-") (RPlus (RClass slug_byte))))
       (foldr (fun w acc => String "-" w +:+ acc) EmptyString ws).
Proof.
  induction 1 as [|w ws Hw _ IH]; [constructor|]. cbn [foldr].
  apply lang_star_cons; [|done]. apply (lang_cat _ _ (String "-" EmptyString) w).
  - by constructor.
  - by apply lang_plus_class.
Qed.

Lemma Join_cons_foldr w ws :
  Join (w :: ws) "-" = w +:+ foldr (fun w acc => String "-" w +:+ acc) EmptyString ws.
Proof.
  revert w. induction ws as [|w' ws IH]; intros w; [cbn; by rewrite append_nil_r|].
  change (Join (w :: w' :: ws) "-") with (w +:+ String "-" (Join (w' :: ws) "-")).
  rewrite IH. cbn. done.
Qed.

Lemma slug_match_iff s :
  full_match slugPattern s = true <-> Forall slug_label (Split s "-").
Proof.
  rewrite full_match_lang. unfold slugPattern. rewrite lang_cat_inv. split.
  - intros (w & t & -> & Hw & Ht). apply lang_plus_class in Hw.
    assert (exists_byte (Ascii.eqb "-") w = false) by (apply slug_bytes_no_dash, Hw).
    apply slug_tail_split in Ht as [->|(ws & Hne & Hws & ->)].
    + rewrite append_nil_r, Split_single by done. by constructor.
    + rewrite Split_append by done. constructor; [done|]. clear Hw.
      induction Hws as [|w' ws Hw' Hws IH]; [done|].
      pose proof (slug_bytes_no_dash _ (proj2 Hw')). destruct ws as [|w'' ws].
      * cbn [Join]. rewrite Split_single by done. by constructor.
      * change (Join (w' :: w'' :: ws) "-") with (w' +:+ String "-" (Join (w'' :: ws) "-")).
        rewrite Split_append by done. constructor; [done|]. by apply IH.
  - intros HF. pose proof (Join_Split s "-") as HJ.
    destruct (Split s "-") as [|w ws] eqn:E; [by destruct (Split_nonempty s "-")|].
    inversion HF as [|?? Hw Hws]; subst. rewrite Join_cons_foldr.
    eexists _, _. split_and!; [done|by apply lang_plus_class|by apply slug_tail_join].
Qed.

(** Bytes a normalized domain is made of. *)
Definition domain_byte (a : ascii) : bool := label_byte a || Ascii.eqb "." a.

Lemma label_match_bytes s :
  full_match domainLabelPattern s = true ->
  forall_byte label_byte s = true /\ s <> EmptyString.
Proof.
  rewrite full_match_lang. unfold domainLabelPattern, ROpt. rewrite lang_cat_inv.
  intros (s1 & s2 & -> & H1 & H2). apply lang_class_inv in H1 as (a & -> & Ha).
  assert (forall a, slug_byte a = true -> label_byte a = true) as Hsl
    by (intros b Hb; unfold label_byte; by rewrite Hb).
  split; [|done]. cbn. rewrite Hsl by done. cbn.
  inversion H2 as [| | |? ? ? H3|? ? ? H3| |]; subst; [by inversion H3|].
  apply lang_cat_inv in H3 as (t1 & t2 & -> & H3 & H4). apply lang_star_class in H3.
  apply lang_class_inv in H4 as (b & -> & Hb). rewrite forall_byte_append, H3. cbn.
  by rewrite Hsl.
Qed.

Lemma strip_any_none (q : ascii -> bool) ps a s :
  forallb (fun p => match p with EmptyString => false | String b _ => negb (q b) end) ps = true ->
  q a = true -> strip_any ps (String a s) = None.
Proof.
  intros Hps Ha. induction ps as [|p ps IH]; [done|]. cbn in Hps |- *.
  apply andb_true_iff in Hps as [Hp Hps]. destruct p as [|b p]; [done|].
  destruct (Ascii.eqb_spec b a) as [->|]; [by rewrite Ha in Hp|].
  cbn. destruct (Ascii.eqb_spec b a); [done|]. by apply IH.
Qed.

Lemma strip_all_none (q : ascii -> bool) ps n s :
  forallb (fun p => match p with EmptyString => false | String b _ => negb (q b) end) ps = true ->
  forall_byte q s = true -> strip_all n ps s = s.
Proof.
  intros Hps Hs. destruct n; [done|]. destruct s as [|a s]; cbn.
  - assert (strip_any ps EmptyString = None) as ->; [|done].
    induction ps as [|[|b p] ps IH]; [done|done|]. cbn in Hps |- *. apply IH. by bool_to_prop.
  - cbn in Hs. bool_to_prop. by rewrite (strip_any_none q).
Qed.

(** No byte of a domain starts or ends the encoding of a space. *)
Lemma TrimSpace_domain s : forall_byte domain_byte s = true -> TrimSpace s = s.
Proof.
  intros Hs. unfold TrimSpace, TrimLeftSpace, TrimRightSpace.
  rewrite (strip_all_none domain_byte space_encodings) by done.
  rewrite (strip_all_none domain_byte (map rev_string space_encodings)).
  - apply rev_string_involutive.
  - reflexivity.
  - by rewrite forall_byte_rev.
Qed.

Lemma in_range_spec lo hi a : in_range lo hi a = true <-> lo <= nat_of_ascii a <= hi.
Proof. unfold in_range. rewrite andb_true_iff, !Nat.leb_le. done. Qed.

Lemma domain_byte_props a :
  domain_byte a = true -> is_ascii a = true /\ is_upper a = false /\ Ascii.eqb "@" a = false.
Proof.
  unfold domain_byte, label_byte, slug_byte, is_ascii. rewrite !orb_true_iff.
  unfold is_lower, is_digit, is_upper. rewrite !in_range_spec, !Ascii.eqb_eq.
  intros [[[Ha|Ha]|<-]|<-]; try done.
  all: split_and!; [apply Nat.ltb_lt; lia| |apply Ascii.eqb_neq; intros <-; vm_compute in Ha; intuition (try lia; try congruence)].
  all: apply not_true_iff_false; rewrite in_range_spec; lia.
Qed.

Lemma ToLower_domain `{UnicodeCase} s : forall_byte domain_byte s = true -> ToLower s = s.
Proof.
  intros Hs. unfold ToLower.
  rewrite (forall_byte_impl domain_byte is_ascii) by (done || apply domain_byte_props).
  induction s as [|a s IH]; [done|]. cbn in *. bool_to_prop. rewrite IH by done.
  unfold lower_byte. destruct (domain_byte_props a) as (_ & -> & _); done.
Qed.

Lemma Split_bytes (p : ascii -> bool) s sep :
  Forall (fun w => forall_byte p w = true) (Split s sep) ->
  forall_byte (fun a => p a || Ascii.eqb sep a) s = true.
Proof.
  induction s as [|a s IH]; cbn; [done|].
  destruct (Ascii.eqb_spec a sep) as [->|Hne].
  - inversion 1; subst. rewrite Ascii.eqb_refl, orb_true_r. auto.
  - destruct (Split s sep) as [|w ws]; [inversion 1; subst; cbn in *; bool_to_prop|].
    + rewrite IH by done. by rewrite andb_true_r in *; apply orb_true_iff; left.
    + inversion 1 as [|?? Hw Hws]; subst. cbn in Hw. bool_to_prop.
      rewrite IH by (by constructor). apply andb_true_iff. split; [|done].
      apply orb_true_iff. by left.
Qed.

Lemma existsb_false {A} (p : A -> bool) l : existsb p l = false -> Forall (fun x => p x = false) l.
Proof. induction l as [|x l IH]; cbn; [constructor|]. intros [? ?]%orb_false_iff. auto. Qed.

Section DomainLemmas.
Context `{UnicodeCase}.

Lemma NormalizeOrgDomain_bytes value d :
  NormalizeOrgDomain value = Ok d -> forall_byte domain_byte d = true /\ 3 <= String.length d.
Proof.
  unfold NormalizeOrgDomain. intros Hd. repeat case_match; simplify_eq.
  match goal with E : existsb bad_label (Split ?x ".") = false |- _ =>
    set (y := x) in *; apply existsb_false in E; split
  end.
  - apply (Split_bytes label_byte). eapply Forall_impl; [eassumption|]. cbn. intros w Hw.
    unfold bad_label in Hw. bool_to_prop. by apply label_match_bytes.
  - bool_to_prop. match goal with E : (_ <? 3) = false |- _ => apply Nat.ltb_ge in E end. lia.
Qed.
End DomainLemmas.

(** ** Lemmas on bytes *)

Lemma bytes_of_length s : length (bytes_of s) = String.length s.
Proof. induction s as [|a s IH]; cbn; [done|]. by rewrite IH. Qed.

Lemma bytes_of_inj s t : bytes_of s = bytes_of t -> s = t.
Proof.
  revert t. induction s as [|a s IH]; intros [|b t]; cbn; try done.
  intros [= Ha Hs]. f_equal; [|auto].
  by rewrite <-(ascii_N_embedding a), <-(ascii_N_embedding b), Ha.
Qed.

Lemma xor_diff_acc xs ys d :
  foldl (fun diff '(x, y) => N.lor diff (N.lxor x y)) d (zip xs ys) = N.lor d (xor_diff xs ys).
Proof.
  unfold xor_diff. revert ys d. induction xs as [|x xs IH]; intros [|y ys] d; cbn;
    try (by rewrite N.lor_0_r).
  rewrite (IH ys (N.lor d _)), (IH ys (N.lor 0 _)), N.lor_0_l, N.lor_assoc. done.
Qed.

(** The accumulated difference is zero exactly for equal sequences. *)
Lemma xor_diff_zero xs ys : length xs = length ys -> xor_diff xs ys = 0%N <-> xs = ys.
Proof.
  revert ys. induction xs as [|x xs IH]; intros [|y ys] Hlen; try done.
  unfold xor_diff. cbn. rewrite xor_diff_acc, N.lor_0_l, N.lor_eq_0_iff, N.lxor_eq_0_iff, IH by (cbn in *; lia).
  split; [intros [-> ->]; done|]. by intros [= -> ->].
Qed.

Lemma take_bytes_append n s t : String.length s = n -> take_bytes n (s +:+ t) = s.
Proof. revert n. induction s as [|a s IH]; intros [|n] Hn; cbn in *; try done. f_equal. auto. Qed.

Lemma take_bytes_length n s : String.length (take_bytes n s) = Nat.min n (String.length s).
Proof. revert n. induction s as [|a s IH]; intros [|n]; cbn; try done. by rewrite IH. Qed.

Lemma take_drop_bytes n s : take_bytes n s +:+ drop_bytes n s = s.
Proof. revert n. induction s as [|a s IH]; intros [|n]; cbn; try done. by rewrite IH. Qed.

Lemma append_length (s t : string) : String.length (s +:+ t) = String.length s + String.length t.
Proof. induction s as [|a s IH]; cbn; [done|]. by rewrite IH. Qed.

Lemma Prefix_spec s :
  12 <= String.length s -> String.length (Prefix s) = 12 /\ HasPrefix s (Prefix s) = true.
Proof.
  intros Hs. unfold Prefix. change prefixLen with 12. destruct (Nat.ltb_spec (String.length s) 12); [lia|].
  split; [rewrite take_bytes_length; lia|]. apply HasPrefix_iff.
  exists (drop_bytes 12 s). by rewrite take_drop_bytes.
Qed.

(** ** Properties *)

(** (lemma) A slug is accepted exactly when it has 2 to 63 bytes and its
    dash-separated parts are all non-empty runs of lower-case letters and
    digits: no leading, trailing or doubled dash. *)
Theorem ValidateSlug_iff slug :
  ValidateSlug slug = None <->
  2 <= String.length slug <= 63 /\ Forall slug_label (Split slug "-").
Proof.
  rewrite <-slug_match_iff. unfold ValidateSlug.
  destruct (str_empty slug) eqn:E0.
  - apply str_empty_true in E0 as ->. cbn. split; [done|lia].
  - destruct (_ || _) eqn:El.
    + apply orb_true_iff in El. rewrite !Nat.ltb_lt in El. split; [done|lia].
    + apply orb_false_iff in El. rewrite !Nat.ltb_ge in El.
      destruct (full_match slugPattern slug); cbn; intuition (lia || congruence).
Qed.

Section DomainTheorems.
Context `{UnicodeCase}.

(** The checks of [NormalizeOrgDomain] on the trimmed, lower-cased domain. *)
Definition accept_domain (domain : string) : result identity_err string :=
  if (String.length domain <? 3) || (253 <? String.length domain) then Err InvalidOrgDomain
  else if length (Split domain ".") <? 2 then Err InvalidOrgDomain
  else if existsb bad_label (Split domain ".") then Err InvalidOrgDomain
  else if negb (domainLetterPattern (List.last (Split domain ".") EmptyString))
       then Err InvalidOrgDomain
  else Ok domain.

Lemma accept_domain_Ok d d' :
  accept_domain d = Ok d' ->
  d = d' /\ String.length d <= 253 /\ 2 <= length (Split d ".") /\
  Forall (fun w => bad_label w = false) (Split d ".").
Proof.
  unfold accept_domain. destruct (_ || _) eqn:E1; [done|].
  destruct (_ <? 2) eqn:E2; [done|]. destruct (existsb _ _) eqn:E3; [done|].
  destruct (negb _); intros; simplify_eq.
  apply orb_false_iff in E1 as [_ E1]. rewrite Nat.ltb_ge in E1, E2.
  split_and!; [done|done|done|by apply existsb_false].
Qed.

(** (lemma) Normalization of an organization domain is idempotent and its results
    are host names: at least two labels, each of 1 to 63 bytes in
    [a-z0-9-] not starting or ending with a dash, no upper case, no [@], at
    most 253 bytes. *)
Theorem NormalizeOrgDomain_normal value :
  match NormalizeOrgDomain value with
  | Ok d =>
      NormalizeOrgDomain d = Ok d /\
      forall_byte domain_byte d = true /\
      3 <= String.length d <= 253 /\
      2 <= length (Split d ".") /\
      Forall (fun w => bad_label w = false) (Split d ".")
  | Err _ => True
  end.
Proof.
  destruct (NormalizeOrgDomain value) as [d|] eqn:Ed; [|done].
  destruct (NormalizeOrgDomain_bytes _ _ Ed) as [Hb H3].
  assert (TrimSpace d = d) as Htrim by (by apply TrimSpace_domain).
  assert (TrimPrefix d "@" = d) as Hat.
  { destruct d as [|a d]; [done|]. cbn in Hb. bool_to_prop.
    destruct (domain_byte_props a) as (_ & _ & Ha); [done|].
    unfold TrimPrefix. cbn [strip_prefix]. by rewrite Ha. }
  assert (ToLower d = d) as Hlow by (by apply ToLower_domain).
  assert (NormalizeOrgDomain d = accept_domain d) as ->
    by (unfold NormalizeOrgDomain; by rewrite Htrim, Hat, Htrim, Hlow).
  destruct (accept_domain_Ok _ _ Ed) as (<- & Hlen & Hn & Hl). split_and!; try done; lia.
Qed.

(** (lemma) The allow-list of a provider: an empty list admits every address;
    otherwise the part after the last [@] must equal, ignoring case, one of
    the comma-separated entries (spaces around an entry are ignored), and an
    address without [@] is refused. *)
Theorem EmailAllowed_iff p email :
  EmailAllowed p email = true <->
  TrimSpace (ap_AllowedDomains p) = EmptyString \/
  (exists at_ d, LastIndexByte email "@" = Some at_ /\
     d ∈ Split (ap_AllowedDomains p) "," /\
     ToLower (TrimSpace d) = ToLower (drop_bytes (S at_) email)).
Proof.
  unfold EmailAllowed. destruct (str_empty _) eqn:E0.
  - apply str_empty_true in E0. tauto.
  - apply str_empty_false in E0. destruct (LastIndexByte email "@") as [at_|].
    + rewrite existsb_exists. setoid_rewrite String.eqb_eq. setoid_rewrite <-list_elem_of_In.
      naive_solver.
    + naive_solver.
Qed.
End DomainTheorems.

Section TokenTheorems.
Context `{Sha256}.

Lemma Hash_length s : String.length (Hash s) = 64.
Proof. unfold Hash. rewrite hex_encode_length, sha256_length. done. Qed.

Lemma Verify_iff plaintext storedHash :
  Verify plaintext storedHash = true <-> Hash plaintext = storedHash.
Proof.
  unfold Verify. set (c := Hash plaintext). clearbody c. destruct (Nat.eqb_spec (String.length c) (String.length storedHash))
    as [Hlen|Hlen]; cbn.
  - rewrite N.eqb_eq, xor_diff_zero by (by rewrite !bytes_of_length).
    split; [apply bytes_of_inj|by intros ->].
  - split; [done|]. by intros ->.
Qed.

Lemma Generate_spec `{UuidGen} {DB} (w : World DB) :
  match Generate w with
  | (Ok (id, plaintext, hash), w') => w_db w' = w_db w /\ hash = Hash plaintext
  | (Err e, w') => w_db w' = w_db w /\ True
  end.
Proof.
  unfold Generate, func, try, gbind, call, new_uuid.
  pose proof (rand_read_db tokenRandBytes w) as Hdb.
  destruct (rand_read tokenRandBytes w) as [[b|e] w1]; cbn in Hdb |- *; [|done].
  pose proof (rand_read_db 16 w1) as Hdb1.
  destruct (rand_read 16 w1) as [[u|e] w2]; cbn in Hdb1 |- *; split; congruence || done.
Qed.

(** (lemma) A generated token: 4 + 64 bytes, stored under its first 12 bytes and
    its hash, and the verifier accepts against the stored hash exactly the
    strings with the same SHA-256 digest - the token itself among them. *)
Theorem Generate_verify `{UuidGen} {DB} (w : World DB) :
  match Generate w with
  | (Ok (id, plaintext, hash), w') =>
      HasPrefix plaintext tokenPrefix = true /\
      String.length plaintext = 68 /\ String.length hash = 64 /\
      String.length (Prefix plaintext) = 12 /\ HasPrefix plaintext (Prefix plaintext) = true /\
      (forall q, Verify q hash = true <-> Hash q = Hash plaintext) /\
      w_db w' = w_db w
  | (Err _, w') => w_db w' = w_db w
  end.
Proof.
  unfold Generate, func, try, gbind, call, new_uuid.
  pose proof (rand_read_db tokenRandBytes w) as Hdb.
  destruct (rand_read tokenRandBytes w) as [[b|e] w1] eqn:E1; cbn in Hdb |- *; [|done].
  pose proof (rand_read_db 16 w1) as Hdb1.
  destruct (rand_read 16 w1) as [[u|e] w2]; cbn in Hdb1 |- *; [|congruence].
  assert (length b = 32) as Hlen.
  { unfold rand_read in E1. destruct (_ <=? _) eqn:El; [|done]. simplify_eq.
    apply Nat.leb_le in El. rewrite length_take. unfold tokenRandBytes in *. lia. }
  assert (String.length (hex_encode b) = 64) as Hhex by (rewrite hex_encode_length; lia).
  split_and!; [apply HasPrefix_iff; by eexists| |apply Hash_length| | | |congruence].
  - change (4 + String.length (hex_encode b) = 68). lia.
  - apply Prefix_spec. cbn. lia.
  - apply Prefix_spec. cbn. lia.
  - intros q. apply Verify_iff.
Qed.
End TokenTheorems.
