(* ===== verification/OpenAPI.v ===== *)
(** * OpenAPI: from an OpenAPI document to the examples stored for its operations

    Models [internal/api/catalog/openapi_refs.go], [openapi_examples.go],
    [openapi_normalize.go], [openapi_order.go] and [json_storage.go].  A value
    of type [interface{}] is a [json] of Json, [nil] is [JNull], a
    [map[string]interface{}] a [JObject] in ascending order of the keys.  Go
    ranges over a map in any order: where the order can show, it is the class
    [MapRange].  Following references is a recursion without a bound in the
    source; it has fuel here, and the theorems say for which documents some
    fuel is enough. *)

From S2P Require Import Prelude GoStrings Json.
Set Warnings "-register-all,-clear-no-such-hyp".

Definition is_null (v : json) : bool := match v with JNull => true | _ => false end.
(** [v.(map[string]interface{})], [v.([]interface{})], [v.(string)]. *)
Definition as_object (v : json) : option (list (string * json)) :=
  match v with JObject m => Some m | _ => None end.
Definition as_array (v : json) : option (list json) := match v with JArray l => Some l | _ => None end.
Definition as_string (v : json) : option string := match v with JString s => Some s | _ => None end.

(** A typed read of a key of a map. *)
Definition get_object (k : string) (m : list (string * json)) := obj_get k m ≫= as_object.
Definition get_array (k : string) (m : list (string * json)) := obj_get k m ≫= as_array.
Definition get_string (k : string) (m : list (string * json)) := obj_get k m ≫= as_string.
(** [m[k]]: [nil] when the key is missing. *)
Definition index (k : string) (m : list (string * json)) : json := default JNull (obj_get k m).

(** ** References *)

Section Refs.
Context (doc : list (string * json)).

Fixpoint follow_path (parts : list string) (current : json) : json :=
  match parts with
  | [] => current
  | part :: parts =>
      match as_object current with
      | None => JNull
      | Some m => match obj_get part m with None => JNull | Some v => follow_path parts v end
      end
  end.

Definition resolveJSONPointer (ref : string) : json :=
  match strip_prefix "#/" ref with
  | None => JNull
  | Some rest => follow_path (Split rest "/") (JObject doc)
  end.

(** The reference of a map, when it is one. *)
Definition ref_of (m : list (string * json)) : option string := get_string "$ref" m.

Fixpoint resolveRefsInDoc (fuel : nat) (v : json) : option json :=
  match fuel with
  | O => None
  | S fuel =>
      match v with
      | JObject m =>
          match ref_of m with
          | Some ref =>
              let resolved := resolveJSONPointer ref in
              if is_null resolved then Some v else resolveRefsInDoc fuel resolved
          | None =>
              option_map JObject
                (mapM (fun kv => option_map (pair kv.1) (resolveRefsInDoc fuel kv.2)) m)
          end
      | JArray l => option_map JArray (mapM (resolveRefsInDoc fuel) l)
      | _ => Some v
      end
  end.

(** ** When it returns

    [refs v]: the references met in [v] before any is followed. *)

Fixpoint refs (v : json) : list string :=
  match v with
  | JObject m =>
      match ref_of m with
      | Some ref => [ref]
      | None => flat_map (fun kv => match kv with (_, x) => refs x end) m
      end
  | JArray l => flat_map refs l
  | _ => []
  end.

(** [follows r' r]: resolving [r] comes to [r']. *)
Definition follows (r' r : string) : Prop := r' ∈ refs (resolveJSONPointer r).

Definition returns (v : json) : Prop := exists fuel r, resolveRefsInDoc fuel v = Some r.

Lemma refs_object m :
  refs (JObject m) = match ref_of m with Some r => [r] | None => flat_map (fun kv : string * json => refs kv.2) m end.
Proof. cbn. destruct (ref_of m); [done|]. induction m as [|[k x] m IH]; [done|]. cbn. by rewrite IH. Qed.

Lemma elem_of_refs_object m r :
  r ∈ flat_map (fun kv : string * json => refs kv.2) m <-> exists kv, kv ∈ m /\ r ∈ refs kv.2.
Proof.
  rewrite list_elem_of_In, in_flat_map. split.
  - intros (kv & Hin & Hr). exists kv. by rewrite !list_elem_of_In.
  - intros (kv & Hin & Hr). exists kv. by rewrite <-!list_elem_of_In.
Qed.

Lemma elem_of_refs_array l r : r ∈ refs (JArray l) <-> exists x, x ∈ l /\ r ∈ refs x.
Proof.
  cbn. rewrite list_elem_of_In, in_flat_map. split.
  - intros (x & Hin & Hr). exists x. by rewrite !list_elem_of_In.
  - intros (x & Hin & Hr). exists x. by rewrite <-!list_elem_of_In.
Qed.

(** *** More fuel gives the same *)

Lemma mapM_weaken {A B} (f g : A -> option B) l r :
  (forall x y, x ∈ l -> f x = Some y -> g x = Some y) -> mapM f l = Some r -> mapM g l = Some r.
Proof.
  rewrite !mapM_Some. intros Hfg. induction 1 as [|x y l r Hxy Hl IH]; constructor.
  - apply Hfg; [by left|done].
  - apply IH. intros x' y' Hin. apply Hfg. by right.
Qed.

Lemma resolve_more fuel fuel' v r :
  resolveRefsInDoc fuel v = Some r -> fuel <= fuel' -> resolveRefsInDoc fuel' v = Some r.
Proof.
  revert fuel' v r. induction fuel as [|fuel IH]; intros fuel' v r; cbn; [done|].
  intros Hv Hle. destruct fuel' as [|fuel']; [lia|]. cbn. destruct v as [| | | |l|m]; try done.
  - destruct (mapM (resolveRefsInDoc fuel) l) as [l'|] eqn:E; [|done].
    rewrite (mapM_weaken _ (resolveRefsInDoc fuel') _ _) with (2 := E); [done|].
    intros x y _ Hx. apply IH; [done|lia].
  - destruct (ref_of m) as [ref|].
    + destruct (is_null _); [done|]. apply IH; [done|lia].
    + destruct (mapM _ m) as [m'|] eqn:E; [|done].
      erewrite mapM_weaken; [exact Hv| |exact E].
      intros x y _ Hx. cbn in Hx |- *. destruct (resolveRefsInDoc fuel x.2) eqn:Ex in Hx; [|done].
      rewrite (IH fuel' _ _ Ex); [done|lia].
Qed.

(** Fuel that is enough for every element. *)
Lemma uniform_fuel {A} (P : nat -> A -> Prop) l :
  (forall n n' x, P n x -> n <= n' -> P n' x) ->
  (forall x, x ∈ l -> exists n, P n x) -> exists n, Forall (P n) l.
Proof.
  intros Hmono. induction l as [|x l IH]; intros Hl; [by exists 0|].
  destruct (Hl x) as [n1 Hx]; [by left|].
  destruct IH as [n2 Hl2]; [intros; apply Hl; by right|].
  exists (Nat.max n1 n2). constructor; [by apply (Hmono n1); [|lia]|].
  apply (Forall_impl _ _ _ Hl2). intros y Hy. apply (Hmono n2); [done|lia].
Qed.

Lemma mapM_bound {A B} (f : nat -> A -> option B) l :
  (forall n n' x y, f n x = Some y -> n <= n' -> f n' x = Some y) ->
  (forall x, x ∈ l -> exists n y, f n x = Some y) -> exists n l', mapM (f n) l = Some l'.
Proof.
  intros Hmono Hl. destruct (uniform_fuel (fun n x => exists y, f n x = Some y) l) as [n Hn]; [|done|].
  - intros n n' x [y Hy] Hle. exists y. by eapply Hmono.
  - exists n. clear Hl. induction Hn as [|x l [y Hy] _ [l' Hl']]; [by exists []|].
    exists (y :: l'). apply mapM_Some. constructor; [done|]. by apply mapM_Some.
Qed.

(** *** References that head no endless chain *)

Lemma returns_children v :
  (forall r, r ∈ refs v -> is_null (resolveJSONPointer r) = false -> returns (resolveJSONPointer r)) ->
  returns v.
Proof.
  induction v as [| | | |l IH|m IH] using json_rec_all; intros Hr; try by exists 1; eexists.
  - rewrite Forall_forall in IH. destruct (mapM_bound resolveRefsInDoc l) as (n & l' & Hl').
    + intros. by eapply resolve_more.
    + intros x Hx. apply IH; [done|]. intros r Hin. apply Hr, elem_of_refs_array. eauto.
    + exists (S n), (JArray l'). cbn. by rewrite Hl'.
  - rewrite Forall_forall in IH. rewrite refs_object in Hr.
    destruct (ref_of m) as [ref|] eqn:E.
    + destruct (is_null (resolveJSONPointer ref)) eqn:En.
      * exists 1, (JObject m). cbn. by rewrite E, En.
      * destruct (Hr ref) as (n & r & Hn); [by left|done|]. exists (S n), r. cbn. by rewrite E, En.
    + destruct (mapM_bound (fun n kv => option_map (pair kv.1) (resolveRefsInDoc n kv.2)) m)
        as (n & m' & Hm').
      * intros n n' x y Hx Hle. destruct (resolveRefsInDoc n x.2) eqn:Ex in Hx; [|done].
        by rewrite (resolve_more n n' _ _ Ex).
      * intros x Hx. destruct (IH x Hx) as (n & y & Hn).
        { intros r Hin. apply Hr, elem_of_refs_object. eauto. }
        exists n, (x.1, y). by rewrite Hn.
      * exists (S n), (JObject m'). cbn. by rewrite E, Hm'.
Qed.

Lemma returns_acc r : Acc follows r -> is_null (resolveJSONPointer r) = false ->
  returns (resolveJSONPointer r).
Proof.
  induction 1 as [r _ IH]. intros _. apply returns_children. intros r' Hr' Hn. by apply IH.
Qed.

Lemma mapM_inv {A B} (f : A -> option B) l r x : mapM f l = Some r -> x ∈ l -> exists y, f x = Some y.
Proof.
  rewrite mapM_Some. induction 1 as [|x' y l r Hxy Hl IH]; [by intros ?%not_elem_of_nil|].
  intros [->|Hin]%elem_of_cons; eauto.
Qed.

Lemma returns_refs fuel v r : resolveRefsInDoc fuel v = Some r -> forall ref, ref ∈ refs v -> Acc follows ref.
Proof.
  revert v r. induction fuel as [|fuel IH]; intros v r; cbn [resolveRefsInDoc]; [done|].
  destruct v as [| | | |l|m]; intros Hv ref Hin; try by apply not_elem_of_nil in Hin.
  - apply elem_of_refs_array in Hin as (x & Hx & Hin).
    destruct (mapM (resolveRefsInDoc fuel) l) as [l'|] eqn:E; [|done].
    destruct (mapM_inv _ _ _ x E Hx) as [y Hy]. by apply (IH x y).
  - rewrite refs_object in Hin. destruct (ref_of m) as [ref'|].
    + apply list_elem_of_singleton in Hin as ->. constructor. intros ref Hf.
      unfold follows in Hf. destruct (is_null (resolveJSONPointer ref')) eqn:En.
      * destruct (resolveJSONPointer ref'); [|discriminate En..]. by apply not_elem_of_nil in Hf.
      * by apply (IH _ _ Hv).
    + apply elem_of_refs_object in Hin as (kv & Hkv & Hin).
      destruct (mapM _ m) as [m'|] eqn:E; [|done].
      destruct (mapM_inv _ _ _ kv E Hkv) as [y Hy].
      destruct (resolveRefsInDoc fuel kv.2) as [z|] eqn:Ez in Hy; [|done]. by apply (IH kv.2 z).
Qed.

(** (C38) Inlining the references of a value returns exactly when none of them
    heads an endless chain of references: with a schema that reaches itself,
    however deep, the server recurses until its stack is exhausted. *)
Theorem resolve_terminates v : returns v <-> forall r, r ∈ refs v -> Acc follows r.
Proof.
  split.
  - intros (fuel & r & Hr). by apply (returns_refs fuel v r).
  - intros Hacc. apply returns_children. intros r Hr. by apply returns_acc, Hacc.
Qed.

Lemma tc_last {A} (R : relation A) x z : tc R x z -> exists y, R y z /\ (x = y \/ tc R x y).
Proof.
  induction 1 as [x z Hxz|x y z Hxy _ (u & Hu & IH)]; [by exists x; split; [|left]|].
  exists u. split; [done|right]. destruct IH as [->|IH]; [by apply tc_once|by eapply tc_l].
Qed.

Lemma Acc_tc {A} (R : relation A) x : Acc R x -> Acc (tc R) x.
Proof.
  induction 1 as [x _ IH]. constructor. intros y (z & Hz & Hy)%tc_last.
  destruct Hy as [->|Hy]; [by apply IH|]. by apply (Acc_inv (IH z Hz)).
Qed.

(** (lemma) A value with a reference on a cycle of references is never returned
    from: no depth of recursion is enough. *)
Theorem reference_cycle_diverges v r fuel :
  r ∈ refs v -> tc follows r r -> resolveRefsInDoc fuel v = None.
Proof.
  intros Hr Hc. destruct (resolveRefsInDoc fuel v) as [x|] eqn:E; [|done]. exfalso.
  assert (Acc (tc follows) r) as Ha by (apply Acc_tc, (returns_refs fuel v x); done).
  revert Hc. induction Ha as [r _ IH]. intros Hc. by apply (IH r Hc).
Qed.

(** ** What it returns

    [ref_strings v]: a member named $ref is always text. *)

Fixpoint ref_strings (v : json) : Prop :=
  match v with
  | JObject m =>
      match obj_get "$ref" m with None | Some (JString _) => True | _ => False end /\
      Forall id (map (fun kv => match kv with (_, x) => ref_strings x end) m)
  | JArray l => Forall id (map ref_strings l)
  | _ => True
  end.

Lemma ref_strings_object m :
  ref_strings (JObject m) <->
  match obj_get "$ref" m with None | Some (JString _) => True | _ => False end /\
  Forall (fun kv : string * json => ref_strings kv.2) m.
Proof.
  cbn. rewrite Forall_map. split; (intros [? Hm]; split; [done|]);
    apply (Forall_impl _ _ _ Hm); by intros [k x].
Qed.
Lemma ref_strings_array l : ref_strings (JArray l) <-> Forall ref_strings l.
Proof. cbn. by rewrite Forall_map. Qed.

Lemma follow_path_ref_strings parts v : ref_strings v -> ref_strings (follow_path parts v).
Proof.
  revert v. induction parts as [|part parts IH]; cbn [follow_path]; intros v Hv; [done|].
  destruct v as [| | | | |m]; cbn [as_object]; try done. apply ref_strings_object in Hv as [_ Hm].
  destruct (obj_get part m) as [x|] eqn:E; [|done]. apply IH.
  rewrite Forall_forall in Hm. by apply (Hm (part, x)), obj_get_elem.
Qed.

(** No reference of [v] leads anywhere in the document. *)
Definition inlined (v : json) : Prop := forall r, r ∈ refs v -> is_null (resolveJSONPointer r) = true.

Lemma inlined_fixed v : inlined v -> exists fuel, resolveRefsInDoc fuel v = Some v.
Proof.
  unfold inlined. induction v as [| | | |l IH|m IH] using json_rec_all; intros Hv; try by exists 1.
  - rewrite Forall_forall in IH.
    destruct (uniform_fuel (fun n x => resolveRefsInDoc n x = Some x) l) as [n Hn].
    + intros n n' x Hx Hle. by apply (resolve_more n).
    + intros x Hx. apply IH; [done|]. intros r Hr. apply Hv, elem_of_refs_array. eauto.
    + exists (S n). cbn. rewrite (proj2 (mapM_Some _ _ l)); [done|]. by apply Forall_Forall2_diag.
  - rewrite refs_object in Hv. destruct (ref_of m) as [ref|] eqn:E.
    { exists 1. cbn. by rewrite E, (Hv ref) by (by left). }
    rewrite Forall_forall in IH.
    destruct (uniform_fuel (fun n (kv : string * json) => resolveRefsInDoc n kv.2 = Some kv.2) m) as [n Hn].
    + intros n n' x Hx Hle. by apply (resolve_more n).
    + intros x Hx. apply IH; [done|]. intros r Hr. apply Hv, elem_of_refs_object. eauto.
    + exists (S n). cbn. rewrite E, (proj2 (mapM_Some _ _ m)); [done|].
      apply Forall_Forall2_diag. apply (Forall_impl _ _ _ Hn). intros [k x] Hx. cbn in *. by rewrite Hx.
Qed.

Lemma mapM_members (f : json -> option json) m m' :
  mapM (fun kv : string * json => option_map (pair kv.1) (f kv.2)) m = Some m' ->
  Forall2 (fun kv kv' => kv'.1 = kv.1 /\ f kv.2 = Some kv'.2) m m'.
Proof.
  rewrite mapM_Some. intros Hm. apply (Forall2_impl _ _ _ _ Hm). intros [k x] [k' x'].
  cbn. destruct (f x); cbn; [|done]. by intros [= <- <-].
Qed.

Lemma members_missing (R : string * json -> string * json -> Prop) k m m' :
  Forall2 R m m' -> (forall x y, R x y -> y.1 = x.1) -> obj_get k m = None -> obj_get k m' = None.
Proof.
  intros Hm HR. induction Hm as [|[k1 x1] [k2 x2] m m' Hx Hm IH]; [done|]. apply HR in Hx. cbn in *.
  subst k2. by destruct (String.eqb k k1).
Qed.

Lemma resolve_inlined fuel v r :
  ref_strings (JObject doc) -> ref_strings v -> resolveRefsInDoc fuel v = Some r -> inlined r.
Proof.
  intros Hdoc. unfold inlined. revert v r. induction fuel as [|fuel IH]; intros v r Hv; [done|].
  cbn [resolveRefsInDoc]. destruct v as [| | | |l|m]; try (by intros [= <-] ref ?%not_elem_of_nil).
  - destruct (mapM _ l) as [l'|] eqn:E; [|done]. intros [= <-] ref.
    apply ref_strings_array in Hv. rewrite Forall_forall in Hv. apply mapM_Some in E.
    intros (x' & Hx' & Hin)%elem_of_refs_array.
    destruct (Forall2_elem_r _ _ _ _ E Hx') as (x & Hx & Hr). by apply (IH x x' (Hv x Hx)).
  - apply ref_strings_object in Hv as [Hr Hm]. destruct (ref_of m) as [ref|] eqn:Hm0.
    + destruct (is_null _) eqn:En.
      * intros [= <-] ref'. rewrite refs_object, Hm0. by intros ->%list_elem_of_singleton.
      * apply IH. unfold resolveJSONPointer. destruct (strip_prefix _ ref); [|done].
        by apply follow_path_ref_strings.
    + destruct (mapM _ m) as [m'|] eqn:E; [|done]. intros [= <-] ref. apply mapM_members in E.
      assert (obj_get "$ref" m = None) as Hn.
      { unfold ref_of, get_string in Hm0. destruct (obj_get "$ref" m) as [[]|]; done. }
      rewrite refs_object. unfold ref_of, get_string.
      rewrite (members_missing _ _ _ _ E (fun _ _ H => proj1 H) Hn). cbn.
      intros (kv' & Hkv' & Hin)%elem_of_refs_object. rewrite Forall_forall in Hm.
      destruct (Forall2_elem_r _ _ _ _ E Hkv') as (kv & Hkv & _ & Hr').
      by apply (IH kv.2 kv'.2 (Hm kv Hkv)).
Qed.

(** (lemma) What comes back has no reference left that leads anywhere in the
    document, whatever references it followed; resolving it again changes
    nothing, and a value without such references is returned as it is. *)
Theorem resolve_correct fuel v r :
  ref_strings (JObject doc) -> ref_strings v -> resolveRefsInDoc fuel v = Some r ->
  inlined r /\ (exists fuel', resolveRefsInDoc fuel' r = Some r) /\ (inlined v -> r = v).
Proof.
  intros Hdoc Hv Hr. pose proof (resolve_inlined fuel v r Hdoc Hv Hr) as Hi. split_and!; [done| |].
  - by apply inlined_fixed.
  - intros Hiv. destruct (inlined_fixed v Hiv) as [n Hn].
    apply (resolve_more _ (Nat.max fuel n)) in Hr, Hn; [|lia..]. congruence.
Qed.
End Refs.

(** ** Examples: [openapi_examples.go]

    [levels] counts down from 7, where the source counts [depth] up to 6. *)

Section Examples.

Definition string_example (format : string) : string :=
  if String.eqb format "email" then "user@example.com"
  else if String.eqb format "date-time" then "2024-01-01T00:00:00Z"
  else if String.eqb format "date" then "2024-01-01"
  else if String.eqb format "password" then "********"
  else if String.eqb format "uuid" then "00000000-0000-0000-0000-000000000000"
  else if String.eqb format "uri" then "https://example.com"
  else "string".

Definition scalar_example (typ format : string) : json :=
  if String.eqb typ "string" then JString (string_example format)
  else if String.eqb typ "integer" || String.eqb typ "number" then JNumber "0"
  else if String.eqb typ "boolean" then JBool true
  else JNull.

(** The members of the subschemas of [allOf], a later one over an earlier. *)
Definition merged (subs : list json) : list (string * json) :=
  fold_left (fun acc item =>
    match as_object item with
    | Some sub => fold_left (fun acc kv => obj_set kv.1 kv.2 acc) sub acc
    | None => acc
    end) subs [].

(** The first combiner with alternatives, as the schema to go on with. *)
Fixpoint combined (combiners : list string) (m : list (string * json)) : option json :=
  match combiners with
  | [] => None
  | c :: cs =>
      match get_array c m with
      | Some (first :: rest) =>
          Some (if String.eqb c "allOf" then JObject (merged (first :: rest)) else first)
      | _ => combined cs m
      end
  end.

Fixpoint schemaToExample (levels : nat) (schema : json) : json :=
  match levels, schema with
  | O, _ | _, JNull => JNull
  | S levels, JObject m =>
      match obj_get "example" m, get_array "enum" m with
      | Some example, _ => example
      | None, Some (v :: _) => v
      | None, _ =>
          match combined ["allOf"; "anyOf"; "oneOf"] m with
          | Some s => schemaToExample levels s
          | None =>
              let typ := default "" (get_string "type" m) in
              if String.eqb typ "object" || negb (is_null (index "properties" m)) then
                JObject (map (fun kv => (kv.1, schemaToExample levels kv.2))
                             (default [] (get_object "properties" m)))
              else if String.eqb typ "array" || negb (is_null (index "items" m)) then
                let items := index "items" m in
                JArray [schemaToExample levels (if is_null items then JObject [] else items)]
              else scalar_example typ (default "" (get_string "format" m))
          end
      end
  | S _, _ => schema
  end.

(** *** Examples inhabit their schemas

    [shape]: the schemas made of a type with its members or items, of an
    enumeration, or of alternatives. *)

Inductive shape : Type :=
| ShString (format : string)
| ShInteger
| ShNumber
| ShBoolean
| ShEnum (first : json) (rest : list json)
| ShArray (items : shape)
| ShObject (props : list (string * shape))
| ShAny (combiner : bool) (first : shape) (rest : list shape).

Fixpoint schema_of (s : shape) : json :=
  match s with
  | ShString f => JObject [("format", JString f); ("type", JString "string")]
  | ShInteger => JObject [("type", JString "integer")]
  | ShNumber => JObject [("type", JString "number")]
  | ShBoolean => JObject [("type", JString "boolean")]
  | ShEnum v vs => JObject [("enum", JArray (v :: vs))]
  | ShArray items => JObject [("items", schema_of items); ("type", JString "array")]
  | ShObject props =>
      JObject [("properties", JObject (map (fun kv => match kv with (k, x) => (k, schema_of x) end) props));
               ("type", JString "object")]
  | ShAny c s ss =>
      JObject [((if c then "anyOf" else "oneOf"), JArray (schema_of s :: map schema_of ss))]
  end.

(** [inhabits n s v]: [v] is a value of [s] in its first [n] levels, and [null] below. *)
Fixpoint inhabits (n : nat) (s : shape) (v : json) : Prop :=
  match n with
  | O => v = JNull
  | S n =>
      match s with
      | ShString _ => exists t, v = JString t
      | ShInteger | ShNumber => exists lit, v = JNumber lit /\ number_lit lit = true
      | ShBoolean => exists b, v = JBool b
      | ShEnum x xs => v ∈ x :: xs
      | ShArray items => exists xs, v = JArray xs /\ xs <> [] /\ Forall (inhabits n items) xs
      | ShObject props =>
          exists m, v = JObject m /\
            Forall2 (fun p kv => kv.1 = p.1 /\ inhabits n p.2 kv.2) props m
      | ShAny _ x xs => exists y, y ∈ x :: xs /\ inhabits n y v
      end
  end.

(** (lemma) The example made for a schema is a value of it: of its type, with all
    its properties, one item, a listed value or one of the alternatives, with
    null where the schema is deeper than the limit. *)
Theorem examples_inhabit n s : inhabits n s (schemaToExample n (schema_of s)).
Proof.
  revert s. induction n as [|n IH]; intros s; [done|]. destruct s; cbn.
  - by eexists.
  - by eexists.
  - by eexists.
  - by eexists.
  - by left.
  - eexists. split; [done|]. split; [done|]. constructor; [|done].
    replace (is_null (schema_of s)) with false; [apply IH|]. by destruct s.
  - eexists. split; [done|]. induction props as [|[k x] props IHp]; cbn; constructor; [by split|done].
  - destruct combiner; cbn; exists s; (split; [by left|apply IH]).
Qed.

(** (lemma) Of several object schemas under allOf only the properties of the last
    appear in the example. *)
Theorem allOf_keeps_last n props props' :
  schemaToExample (S n) (JObject [("allOf", JArray [schema_of (ShObject props); schema_of (ShObject props')])]) =
  schemaToExample n (schema_of (ShObject props')).
Proof. done. Qed.
End Examples.

(** ** Payloads: [openapi_normalize.go] *)

(** The order in which a map is ranged over. *)
Class MapRange := {
  range : forall {A}, list (string * A) -> list (string * A);
  range_perm : forall {A} (m : list (string * A)), range m ≡ₚ m
}.

(** [unicode.IsDigit] of a rune outside ASCII, given by its bytes. *)
Class UnicodeDigits := { wide_digit : string -> bool }.

Section Normalize.
Context `{MapRange} `{UnicodeDigits}.

(** The first value a range meets that has the key. *)
Fixpoint first_with (k : string) (entries : list (string * json)) : option json :=
  match entries with
  | [] => None
  | (_, x) :: rest =>
      match as_object x ≫= obj_get k with
      | Some v => Some v
      | None => first_with k rest
      end
  end.

Definition pickContentSchema (content : list (string * json)) : json :=
  match get_object "application/json" content ≫= obj_get "schema" with
  | Some schema => schema
  | None => default JNull (first_with "schema" (range content))
  end.

Definition pickContentExample (content : list (string * json)) : json :=
  match get_object "application/json" content with
  | None => JNull
  | Some jsonContent =>
      match obj_get "example" jsonContent, get_object "examples" jsonContent with
      | Some example, _ => example
      | None, Some examples => default JNull (first_with "value" (range examples))
      | None, None => JNull
      end
  end.

(** [for _, r := range s { if !unicode.IsDigit(r) { return false } }] *)
Fixpoint all_digits (s : string) : bool :=
  match s with
  | EmptyString => true
  | String a s1 =>
      if is_ascii a then is_digit a && all_digits s1 else
      match s1 with
      | EmptyString => false
      | String b s2 =>
          if utf8_2 a b then wide_digit (String a (String b EmptyString)) && all_digits s2 else
          match s2 with
          | EmptyString => false
          | String c s3 =>
              if utf8_3 a b c
              then wide_digit (String a (String b (String c EmptyString))) && all_digits s3 else
              match s3 with
              | EmptyString => false
              | String d s4 =>
                  utf8_4 a b c d &&
                  wide_digit (String a (String b (String c (String d EmptyString)))) && all_digits s4
              end
          end
      end
  end.

Definition isHTTPStatusKey (s : string) : bool :=
  String.eqb s "default" || (Nat.eqb (String.length s) 3 && all_digits s).

Definition normalizeRequestBodyForStorage (v : json) : json :=
  match v with
  | JNull => JNull
  | JObject m =>
      match get_object "content" m with
      | Some content =>
          let example := pickContentExample content in
          let schema := pickContentSchema content in
          if negb (is_null example) then example
          else if negb (is_null schema) then schemaToExample 7 schema
          else JNull
      | None => schemaToExample 7 v
      end
  | _ => schemaToExample 7 v
  end.

(** The example of one documented response. *)
Definition response_example (entryMap : list (string * json)) : json :=
  match get_object "content" entryMap with
  | Some content =>
      let example := pickContentExample content in
      let schema := pickContentSchema content in
      if negb (is_null example) then example
      else if negb (is_null schema) then schemaToExample 7 schema else JNull
  | None =>
      match obj_get "example" entryMap, obj_get "schema" entryMap with
      | Some ex, _ => ex
      | None, Some schema => schemaToExample 7 schema
      | None, None => JNull
      end
  end.

Definition status_example (kv : string * json) : option (string * json) :=
  if negb (isHTTPStatusKey kv.1) then None
  else match as_object kv.2 with
       | None => None
       | Some entryMap =>
           let example := response_example entryMap in
           if is_null example then None else Some (kv.1, example)
       end.

Definition normalizeResponsesForStorage (v : json) : json :=
  match as_object v with
  | None => JObject []
  | Some m =>
      let examplesByStatus := fold_left (fun acc kv => obj_set kv.1 kv.2 acc)
                                (omap status_example (range m)) [] in
      match examplesByStatus with
      | [] => JObject []
      | [(_, ex)] => ex
      | _ => JObject examplesByStatus
      end
  end.
End Normalize.

(** *** Where the order of a range cannot show *)

Definition has_key (k : string) (kv : string * json) : Prop := is_Some (as_object kv.2 ≫= obj_get k).
(** At most one entry has the key. *)
Definition one_with (k : string) (l : list (string * json)) : Prop :=
  forall x y, x ∈ l -> y ∈ l -> has_key k x -> has_key k y -> x = y.

Lemma first_with_spec k l :
  match first_with k l with
  | Some v => exists kv, kv ∈ l /\ as_object kv.2 ≫= obj_get k = Some v
  | None => forall kv, kv ∈ l -> ~ has_key k kv
  end.
Proof.
  induction l as [|[k1 x] l IH]; cbn; [by intros kv ?%not_elem_of_nil|].
  destruct (as_object x ≫= obj_get k) as [v|] eqn:E; [by exists (k1, x); split; [left|]|].
  destruct (first_with k l) as [v|].
  - destruct IH as (kv & Hin & Hv). exists kv. by split; [right|].
  - intros kv [->|Hin]%elem_of_cons; [|by apply IH]. unfold has_key. cbn. rewrite E. by intros [? ?].
Qed.

Lemma first_with_perm k l l' : one_with k l -> l ≡ₚ l' -> first_with k l = first_with k l'.
Proof.
  intros Hone Hp. pose proof (first_with_spec k l) as H1. pose proof (first_with_spec k l') as H2.
  destruct (first_with k l) as [v|], (first_with k l') as [v'|].
  - destruct H1 as (x & Hx & Ex), H2 as (y & Hy & Ey). rewrite <-Hp in Hy.
    rewrite (Hone x y) in Ex; [congruence|done..| |]; eexists; eassumption.
  - destruct H1 as (x & Hx & Ex). rewrite Hp in Hx. by destruct (H2 x Hx); eexists.
  - destruct H2 as (x & Hx & Ex). rewrite <-Hp in Hx. by destruct (H1 x Hx); eexists.
  - done.
Qed.

(** The choice among media types and examples is forced. *)
Definition settled (content : list (string * json)) : Prop :=
  (is_Some (get_object "application/json" content ≫= obj_get "schema") \/ one_with "schema" content) /\
  (forall j examples, get_object "application/json" content = Some j ->
     get_object "examples" j = Some examples -> is_Some (obj_get "example" j) \/ one_with "value" examples).

Definition entry_settled (v : json) : Prop :=
  forall m content, v = JObject m -> get_object "content" m = Some content -> settled content.

Section OrderFree.
Context `{UnicodeDigits} (r1 r2 : MapRange).

Lemma range_agree {A} (l : list (string * A)) : range (MapRange := r1) l ≡ₚ range (MapRange := r2) l.
Proof. by rewrite (range_perm (MapRange := r1)), (range_perm (MapRange := r2)). Qed.

Lemma one_with_range k l : one_with k l -> one_with k (range (MapRange := r1) l).
Proof. intros Ho x y. rewrite !(range_perm (MapRange := r1)). apply Ho. Qed.

Lemma pick_agree content :
  settled content ->
  pickContentSchema (H := r1) content = pickContentSchema (H := r2) content /\
  pickContentExample (H := r1) content = pickContentExample (H := r2) content.
Proof.
  intros [Hs He]. split.
  - unfold pickContentSchema. destruct (_ ≫= _) as [v|]; [done|]. destruct Hs as [[v Hv]|Hs]; [done|].
    f_equal. apply first_with_perm; [by apply one_with_range|apply range_agree].
  - unfold pickContentExample. destruct (get_object _ content) as [j|]; [|done].
    destruct (obj_get "example" j) as [e|] eqn:Ee; [done|].
    destruct (get_object "examples" j) as [exs|] eqn:Ex; [|done].
    destruct (He j exs eq_refl Ex) as [[e' He']|Ho]; [by rewrite Ee in He'|].
    f_equal. apply first_with_perm; [by apply one_with_range|apply range_agree].
Qed.

Lemma status_example_agree kv :
  entry_settled kv.2 -> status_example (H := r1) kv = status_example (H := r2) kv.
Proof.
  intros Hs. unfold status_example. destruct (isHTTPStatusKey _); cbn [negb]; [|reflexivity].
  destruct (as_object kv.2) as [m|] eqn:E; [|done].
  assert (kv.2 = JObject m) as Hm by (destruct kv.2; by simplify_eq/=).
  assert (response_example (H := r1) m = response_example (H := r2) m) as ->; [|done].
  unfold response_example. destruct (get_object "content" m) as [c|] eqn:Ec; [|done].
  destruct (pick_agree c) as [-> ->]; [|done]. by apply (Hs m).
Qed.

Lemma omap_keys {A} (f : string * A -> option (string * json)) l :
  (forall kv kv', f kv = Some kv' -> kv'.1 = kv.1) -> NoDup l.*1 -> NoDup (omap f l).*1.
Proof.
  intros Hf. induction l as [|kv l IH]; cbn; [constructor|]. intros [Hk Hl]%NoDup_cons.
  destruct (f kv) as [kv'|] eqn:E; [|auto]. cbn. apply NoDup_cons. split; [|auto].
  rewrite (Hf _ _ E). intros (x & Hx & Hin)%list_elem_of_fmap.
  apply list_elem_of_omap in Hin as (y & Hy & Hfy). apply Hk, list_elem_of_fmap.
  exists y. split; [|done]. by rewrite Hx, (Hf _ _ Hfy).
Qed.

(** (lemma) The payload stored for the responses of an operation does not depend
    on the order Go ranges over the maps of the document, when in every response
    application/json has the schema or one media type at most has one, and when
    one named example at most has a value. *)
Theorem normalizeResponses_order_free m :
  keys_sorted m -> Forall (fun kv => entry_settled kv.2) m ->
  normalizeResponsesForStorage (H := r1) (JObject m) = normalizeResponsesForStorage (H := r2) (JObject m).
Proof.
  intros Hm Hs. unfold normalizeResponsesForStorage. cbn [as_object].
  pose proof (keys_sorted_NoDup _ Hm) as Hnd.
  rewrite (obj_fold_perm _ (omap (status_example (H := r2)) (range (MapRange := r2) m))); [done| |].
  - apply omap_keys; [|by rewrite (range_perm (MapRange := r1))].
    intros kv kv'. unfold status_example. by repeat case_match; intros; simplify_eq.
  - rewrite range_agree. erewrite list_omap_ext; [reflexivity|].
    apply Forall_Forall2_diag. rewrite (range_perm (MapRange := r2)).
    apply (Forall_impl _ _ _ Hs). intros kv. apply status_example_agree.
Qed.
End OrderFree.

(** ** Order in the document: [openapi_order.go] *)

Inductive NodeKind := DocumentNode | SequenceNode | MappingNode | ScalarNode | AliasNode.
#[export] Instance NodeKind_eq_dec : EqDecision NodeKind.
Proof. solve_decision. Defined.

(** [yaml.Node]: a mapping has its keys and values in turn. *)
Inductive yaml_node : Type := mkNode { nd_Kind : NodeKind; nd_Value : string; nd_Content : list yaml_node }.

Fixpoint pairs {A} (l : list A) : list (A * A) :=
  match l with
  | k :: v :: rest => (k, v) :: pairs rest
  | _ => []
  end.

Definition is_mapping (n : yaml_node) : bool := bool_decide (nd_Kind n = MappingNode).
Definition documentContent (root : yaml_node) : option yaml_node := head (nd_Content root).
Definition mappingValue (m : yaml_node) (key : string) : option yaml_node :=
  if is_mapping m
  then option_map snd (List.find (fun kv => String.eqb (nd_Value kv.1) key) (pairs (nd_Content m)))
  else None.

Definition httpMethods : list string := ["get"; "post"; "put"; "delete"; "patch"; "head"; "options"; "trace"].
Definition isHTTPMethodKey (s : string) : bool := mem_str s httpMethods.

(** [interface{}] decoders of the specification text: encoding/json and yaml.v3.
    [None] is an error; the value null decodes to an empty map. *)
Class SpecDecoder := {
  json_object : string -> option (list (string * json));
  yaml_object : string -> option (list (string * json));
  yaml_tree : string -> option yaml_node;
  json_any : string -> option json;
  json_valid : string -> bool
}.

Section Order.
Context `{UnicodeCase} `{SpecDecoder}.

Definition item_methods (item : yaml_node) : list string :=
  List.filter isHTTPMethodKey (map (fun kv => ToLower (nd_Value kv.1)) (pairs (nd_Content item))).

(** The loop over the paths, [acc] being [methodsByPath]. *)
Fixpoint path_order (entries : list (yaml_node * yaml_node)) (acc : gmap string (list string)) :
    list string * gmap string (list string) :=
  match entries with
  | [] => ([], acc)
  | (k, item) :: rest =>
      let acc := if is_mapping item then <[nd_Value k := item_methods item]> acc else acc in
      let r := path_order rest acc in
      (nd_Value k :: r.1, r.2)
  end.

Definition parseOpenAPIDocumentOrder (spec : string) : option (list string * gmap string (list string)) :=
  match yaml_tree spec with
  | None => None
  | Some root =>
      Some match documentContent root ≫= fun doc => mappingValue doc "paths" with
           | Some pathsNode =>
               if is_mapping pathsNode then path_order (pairs (nd_Content pathsNode)) ∅ else ([], ∅)
           | None => ([], ∅)
           end
  end.

Definition sortedPathKeys (paths : list (string * json)) : list string := sort_stable str_less paths.*1.

Definition methodsForPathItem (path : string) (item : list (string * json))
    (methodsByPath : gmap string (list string)) : list string :=
  let present := List.filter (fun method => found (obj_get method item)) in
  match methodsByPath !! path with
  | Some ((_ :: _) as ordered) => present ordered
  | _ => present httpMethods
  end.

(** The paths in the order they are gone through, and the methods in order. *)
Definition document_order (spec : string) (rawPaths : list (string * json)) :
    list string * gmap string (list string) :=
  match parseOpenAPIDocumentOrder spec with
  | None => (sortedPathKeys rawPaths, ∅)
  | Some (pathOrder, methodsByPath) =>
      let extras := List.filter (fun path => negb (mem_str path pathOrder)) rawPaths.*1 in
      (pathOrder ++ sort_stable str_less extras, methodsByPath)
  end.

(** [seedExampleSamplesJSON], [normalizeStoredJSON]: [json_storage.go]. *)
Definition seedExampleSamplesJSON (payload : string) : string :=
  if str_empty payload || mem_str payload ["{}"; "null"; "[]"] then "[]"
  else match json_any payload with
       | None => "[]"
       | Some v => Marshal (JArray [v])
       end.

Definition normalizeStoredJSON (raw : string) : string :=
  if str_empty raw then raw
  else match json_any raw with
       | Some (JString asString) => if json_valid asString then asString else raw
       | Some JNull => if json_valid EmptyString then EmptyString else raw
       | _ => raw
       end.

(** ** Operations *)

(** One operation of the document, before its examples are made. *)
Record operation_ref := mkOperationRef {
  or_Method : string; or_Path : string; or_Op : list (string * json)
}.

Definition path_operations (rawPaths : list (string * json)) (methodsByPath : gmap string (list string))
    (path : string) : list operation_ref :=
  match get_object path rawPaths with
  | None => []
  | Some item =>
      omap (fun method => option_map (mkOperationRef method path) (get_object method item))
           (methodsForPathItem path item methodsByPath)
  end.

Definition operations_of (spec : string) (rawPaths : list (string * json)) : list operation_ref :=
  let '(pathOrder, methodsByPath) := document_order spec rawPaths in
  flat_map (path_operations rawPaths methodsByPath) pathOrder.
End Order.

(** *** The operations found

    [faithful]: the tree of the document names each path, and under a path each
    method of its item, once - what a YAML parser gives for a document without
    repeated keys. *)

Section Operations.
Context `{UnicodeCase} `{SpecDecoder}.

Definition faithful (spec : string) (rawPaths : list (string * json)) : Prop :=
  match parseOpenAPIDocumentOrder spec with
  | None => True
  | Some (pathOrder, methodsByPath) =>
      NoDup pathOrder /\
      forall path methods item, methodsByPath !! path = Some methods -> get_object path rawPaths = Some item ->
        NoDup methods /\
        forall method, method ∈ httpMethods -> is_Some (obj_get method item) -> method ∈ methods
  end.

Lemma keep_elem {A} (p : A -> bool) l x : x ∈ List.filter p l <-> x ∈ l /\ p x = true.
Proof. by rewrite !list_elem_of_In, filter_In. Qed.

Lemma filter_NoDup {A} (p : A -> bool) l : NoDup l -> NoDup (List.filter p l).
Proof. rewrite !NoDup_ListNoDup. apply List.NoDup_filter. Qed.

Lemma path_order_methods entries acc :
  (forall path ms, acc !! path = Some ms -> Forall (fun m => m ∈ httpMethods) ms) ->
  forall path ms, (path_order entries acc).2 !! path = Some ms -> Forall (fun m => m ∈ httpMethods) ms.
Proof.
  revert acc. induction entries as [|[k item] rest IH]; intros acc Hacc; [done|]. cbn.
  apply IH. intros path ms. destruct (is_mapping item); [|apply Hacc].
  intros [[<- <-]|[_ Hp]]%lookup_insert_Some; [|by eapply Hacc].
  apply Forall_forall. intros m [_ Hm]%keep_elem. by apply mem_str_In.
Qed.

Lemma document_order_methods spec path ms pathOrder methodsByPath :
  parseOpenAPIDocumentOrder spec = Some (pathOrder, methodsByPath) ->
  methodsByPath !! path = Some ms -> Forall (fun m => m ∈ httpMethods) ms.
Proof.
  unfold parseOpenAPIDocumentOrder. intros Hp Hm.
  destruct (yaml_tree spec) as [root|]; [|done].
  destruct (documentContent root ≫= _) as [n|]; [destruct (is_mapping n)|]; simplify_eq.
  eapply path_order_methods; [|by rewrite Hp]. intros ? ?. by rewrite lookup_empty.
Qed.

Lemma methods_elem path item mbp method :
  (forall ms, mbp !! path = Some ms -> Forall (fun m => m ∈ httpMethods) ms /\ NoDup ms /\
     forall m, m ∈ httpMethods -> is_Some (obj_get m item) -> m ∈ ms) ->
  NoDup (methodsForPathItem path item mbp) /\
  (method ∈ methodsForPathItem path item mbp <-> method ∈ httpMethods /\ is_Some (obj_get method item)).
Proof.
  intros Hmbp. assert (NoDup httpMethods) as Hnd by (by apply (bool_decide_unpack _)).
  assert (forall l, method ∈ List.filter (fun m => found (obj_get m item)) l <->
                    method ∈ l /\ is_Some (obj_get method item)) as Hf.
  { intros l. rewrite keep_elem, found_true. unfold is_Some. done. }
  unfold methodsForPathItem. destruct (mbp !! path) as [[|m ms]|] eqn:E; try (split; [by apply filter_NoDup|apply Hf]).
  destruct (Hmbp _ eq_refl) as (Hall & Hms & Hin). split; [by apply filter_NoDup|].
  rewrite Hf. rewrite Forall_forall in Hall. naive_solver.
Qed.

Lemma document_order_paths spec rawPaths :
  NoDup rawPaths.*1 -> faithful spec rawPaths ->
  NoDup (document_order spec rawPaths).1 /\ rawPaths.*1 ⊆ (document_order spec rawPaths).1.
Proof.
  intros Hnd Hf. unfold document_order, faithful in *.
  destruct (parseOpenAPIDocumentOrder spec) as [[po mbp]|]; cbn.
  - destruct Hf as [Hpo _]. split.
    + apply NoDup_app. split_and!; [done| |].
      * intros x Hx Hin. apply sort_stable_elem, keep_elem in Hin as [_ Hn].
        apply negb_true_iff, mem_str_not_In in Hn. done.
      * rewrite sort_stable_perm. by apply filter_NoDup.
    + intros x Hx. apply elem_of_app. destruct (mem_str x po) eqn:E; [left; by apply mem_str_In|].
      right. apply sort_stable_elem, keep_elem. by rewrite E.
  - unfold sortedPathKeys. split; [by rewrite sort_stable_perm|]. intros x. apply sort_stable_elem.
Qed.

Definition op_key (o : operation_ref) : string * string := (or_Path o, or_Method o).

Lemma path_operations_spec rawPaths mbp path :
  (forall ms item, mbp !! path = Some ms -> get_object path rawPaths = Some item ->
     Forall (fun m => m ∈ httpMethods) ms /\ NoDup ms /\
     forall m, m ∈ httpMethods -> is_Some (obj_get m item) -> m ∈ ms) ->
  NoDup (map op_key (path_operations rawPaths mbp path)) /\
  forall o, o ∈ path_operations rawPaths mbp path <->
    or_Path o = path /\ or_Method o ∈ httpMethods /\
    exists item, get_object path rawPaths = Some item /\ get_object (or_Method o) item = Some (or_Op o).
Proof.
  intros Hmbp. unfold path_operations. destruct (get_object path rawPaths) as [item|].
  2: { split; [constructor|]. intros o. split; [by intros ?%not_elem_of_nil|naive_solver]. }
  pose proof (fun m => methods_elem path item mbp m (fun ms E => Hmbp ms item E eq_refl)) as Hm.
  split.
  - destruct (Hm EmptyString) as [Hnd _]. clear Hm Hmbp. induction Hnd as [|m l Hml Hl IH]; cbn; [constructor|].
    destruct (get_object m item) as [op|] eqn:E; cbn; [|done]. constructor; [|done].
    intros (o & Ho & Hin)%list_elem_of_fmap. apply list_elem_of_omap in Hin as (m' & Hm' & Ho').
    destruct (get_object m' item); simplify_eq/=. unfold op_key in *. cbn in *. by simplify_eq.
  - intros [m p op]. rewrite list_elem_of_omap. cbn. split.
    + intros (m' & Hm' & Ho). destruct (get_object m' item) as [op'|] eqn:E; simplify_eq/=.
      apply Hm in Hm' as [? _]. eauto.
    + intros (-> & Hin & item' & [= <-] & Hop). exists m. rewrite Hop. split; [|done].
      apply Hm. split; [done|]. unfold get_object in Hop. by destruct (obj_get m item).
Qed.

Lemma operations_of_spec spec rawPaths :
  keys_sorted rawPaths -> faithful spec rawPaths ->
  NoDup (map op_key (operations_of spec rawPaths)) /\
  forall o, o ∈ operations_of spec rawPaths <->
    or_Method o ∈ httpMethods /\
    exists item, get_object (or_Path o) rawPaths = Some item /\ get_object (or_Method o) item = Some (or_Op o).
Proof.
  intros Hs Hf. apply keys_sorted_NoDup in Hs.
  pose proof (document_order_paths spec rawPaths Hs Hf) as [Hnd Hsub].
  assert (forall path ms item, (document_order spec rawPaths).2 !! path = Some ms ->
     get_object path rawPaths = Some item ->
     Forall (fun m => m ∈ httpMethods) ms /\ NoDup ms /\
     forall m, m ∈ httpMethods -> is_Some (obj_get m item) -> m ∈ ms) as Hmbp.
  { unfold document_order, faithful in *.
    destruct (parseOpenAPIDocumentOrder spec) as [[po mbp]|] eqn:E; cbn; intros path ms item Hms Hit.
    - destruct Hf as [_ Hf]. destruct (Hf _ _ _ Hms Hit). split_and!; [|done..].
      by eapply document_order_methods.
    - by rewrite lookup_empty in Hms. }
  unfold operations_of. destruct (document_order spec rawPaths) as [po mbp]. cbn in *.
  pose proof (fun path => path_operations_spec rawPaths mbp path (Hmbp path)) as Hp. split.
  - clear Hsub. induction Hnd as [|p po Hpo Hnd IH]; cbn; [constructor|].
    rewrite map_app. apply NoDup_app. split_and!; [apply Hp| |done].
    intros k (o & -> & Ho)%list_elem_of_fmap (o' & Hk & Ho')%list_elem_of_fmap.
    apply Hp in Ho as [Ho _]. apply list_elem_of_In, in_flat_map in Ho' as (p' & Hp' & Ho').
    apply list_elem_of_In in Hp', Ho'. apply Hp in Ho' as [Ho' _]. injection Hk as Hk _. congruence.
  - intros o. rewrite list_elem_of_In, in_flat_map. split.
    + intros (p & _ & Ho). apply list_elem_of_In, Hp in Ho as (-> & ?). done.
    + intros (Hm & item & Hit & Hop). exists (or_Path o). split.
      * apply list_elem_of_In, Hsub. unfold get_object in Hit.
        destruct (obj_get (or_Path o) rawPaths) as [x|] eqn:E; [|done].
        apply list_elem_of_fmap. exists (or_Path o, x). split; [done|by apply obj_get_elem].
      * apply list_elem_of_In, Hp. eauto.
Qed.
End Operations.

(** ** Concrete documents *)

Module OpenAPIDemo.

Definition ref_to (s : string) : json := JObject [("$ref", JString ("#/components/schemas/" +:+ s))].

(** A list node that refers to itself, and a pet with an owner. *)
Definition linked : json := JObject [("properties", JObject [("next", ref_to "Node")]); ("type", JString "object")].
Definition pet : json :=
  JObject [("properties", JObject [("name", JObject [("type", JString "string")]); ("owner", ref_to "Owner")]);
           ("type", JString "object")].
Definition owner : json := JObject [("type", JString "string")].
Definition schemas : list (string * json) :=
  [("components", JObject [("schemas", JObject [("Node", linked); ("Owner", owner); ("Pet", pet)])])].

Lemma reference_cycle_diverges_witness : resolveRefsInDoc schemas 1000 (ref_to "Node") = None.
Proof.
  apply (reference_cycle_diverges schemas (ref_to "Node") "#/components/schemas/Node").
  - by left.
  - apply tc_once. vm_compute. left.
Defined.

Definition inlined_pet : json :=
  JObject [("properties", JObject [("name", JObject [("type", JString "string")]); ("owner", owner)]);
           ("type", JString "object")].

Lemma resolve_correct_witness :
  resolveRefsInDoc schemas 10 (ref_to "Pet") = Some inlined_pet /\ inlined schemas inlined_pet.
Proof.
  split; [vm_compute; reflexivity|].
  destruct (resolve_correct schemas 10 (ref_to "Pet") inlined_pet) as [Hi _]; [| | |exact Hi];
    vm_compute; repeat constructor.
Defined.

(** JSON Pointer's escapes are not undone: a path with a slash cannot be referred to. *)
Lemma escapes_ignored :
  resolveJSONPointer [("paths", JObject [("/pets", owner)])] "#/paths/~1pets" = JNull.
Proof. reflexivity. Qed.

Definition ascending : MapRange := {| range := fun A m => m; range_perm := fun A m => reflexivity m |}.
Definition descending : MapRange :=
  {| range := fun A m => reverse m; range_perm := fun A m => reverse_Permutation m |}.
#[local] Instance no_wide_digits : UnicodeDigits := {| wide_digit := fun _ => false |}.

Definition media (schema : json) : json := JObject [("schema", schema)].
Definition responses : list (string * json) :=
  [("200", JObject [("content", JObject [("application/json", media inlined_pet); ("text/plain", media owner)])]);
   ("404", JObject [("description", JString "none")]); ("default", JObject [("example", JString "oops")])].

Lemma normalizeResponses_order_free_witness :
  normalizeResponsesForStorage (H := ascending) (JObject responses) =
  normalizeResponsesForStorage (H := descending) (JObject responses) /\
  normalizeResponsesForStorage (H := ascending) (JObject responses) =
  JObject [("200", JObject [("name", JString "string"); ("owner", JString "string")]);
           ("default", JString "oops")].
Proof.
  split; [|vm_compute; reflexivity].
  apply (normalizeResponses_order_free ascending descending responses).
  - repeat (constructor; [|repeat constructor]). constructor.
  - constructor; [|constructor; [|constructor; [|constructor]]]; intros m content [= <-]; try done.
    intros [= <-]. split; [left; by eexists|]. by intros j examples [= <-].
Defined.

(** Without application/json the payload stored is the media type Go meets first. *)
Definition ambiguous : json :=
  JObject [("content", JObject [("application/xml", media inlined_pet); ("text/plain", media owner)])].
Lemma payload_by_order :
  normalizeRequestBodyForStorage (H := ascending) ambiguous <>
  normalizeRequestBodyForStorage (H := descending) ambiguous.
Proof. vm_compute. discriminate. Qed.
End OpenAPIDemo.
