(* ===== verification/ApiSpec.v ===== *)
(** * ApiSpec: from a specification file to API endpoints

    Models the records of [internal/catalog/catalog.go] for API groups and
    endpoints, and the parsing half of [internal/api/catalog/service_logic.go]:
    a specification in one of three protocols becomes a list of endpoints.  The
    columns an UPDATE of an endpoint sets are the record [EndpointContent]; who
    made and changed a row when is [Audit].  [float64] values are rationals. *)

From S2P Require Import Prelude GoStrings Effects Json GraphQL Grpc Identity OpenAPI.
From Stdlib Require Import QArith.
Set Warnings "-register-all,-clear-no-such-hyp".
#[local] Open Scope nat_scope.
#[local] Open Scope string_scope.

(** ** Records *)

Record Audit := mkAudit {
  au_CreatedBy : string; au_UpdatedBy : option string;
  au_CreatedByCommitHash : option string; au_UpdatedByCommitHash : option string;
  au_CreatedAt : Z; au_UpdatedAt : Z; au_DeletedAt : option Z; au_DeletedBy : option string
}.

Record LoadTestThreshold := mkThreshold {
  th_ID : string; th_Metric : string; th_Comparator : string; th_Value : Q
}.
Record EndpointSLA := mkSLA { Thresholds : list LoadTestThreshold }.

(** [json.RawMessage] is [option string]: [None] is nil. *)
Record EndpointContent := mkContent {
  ec_OperationID : string; ec_Method : string; ec_Path : string; ec_Summary : string;
  ec_Description : string; ec_Tags : list string; ec_TokenCount : Z;
  ec_Parameters : option string; ec_RequestBody : option string; ec_Responses : option string;
  ec_ExampleRequests : option string; ec_ExampleResponses : option string;
  ec_Order : Q; ec_SLA : option EndpointSLA
}.

Record APIEndpoint := mkEndpoint {
  ep_ID : string; ep_APIGroupID : string; ep_APIGroupVersionID : option string;
  ep_ServiceID : string; ep_OrgID : string; ep_Content : EndpointContent; ep_Audit : Audit
}.

Record APIGroup := mkGroup {
  gr_ID : string; gr_ServiceID : string; gr_OrgID : string; gr_Name : string; gr_Version : string;
  gr_Label : option string; gr_Protocol : string; gr_SpecKey : option string;
  gr_SpecHash : option string; gr_Audit : Audit
}.

Record APIGroupVersion := mkVersion {
  vr_ID : string; vr_APIGroupID : string; vr_VersionNumber : Z; vr_Label : option string;
  vr_SpecKey : string; vr_SpecHash : string; vr_IsAutoVersion : bool; vr_CreatedBy : string;
  vr_CreatedByCommitHash : option string; vr_CreatedAt : Z
}.

Definition set_sla (c : EndpointContent) (sla : option EndpointSLA) : EndpointContent :=
  mkContent (ec_OperationID c) (ec_Method c) (ec_Path c) (ec_Summary c) (ec_Description c) (ec_Tags c)
    (ec_TokenCount c) (ec_Parameters c) (ec_RequestBody c) (ec_Responses c) (ec_ExampleRequests c)
    (ec_ExampleResponses c) (ec_Order c) sla.
Definition set_content (e : APIEndpoint) (c : EndpointContent) : APIEndpoint :=
  mkEndpoint (ep_ID e) (ep_APIGroupID e) (ep_APIGroupVersionID e) (ep_ServiceID e) (ep_OrgID e) c (ep_Audit e).
Definition set_audit (e : APIEndpoint) (a : Audit) : APIEndpoint :=
  mkEndpoint (ep_ID e) (ep_APIGroupID e) (ep_APIGroupVersionID e) (ep_ServiceID e) (ep_OrgID e)
    (ep_Content e) a.

(** A row as the code makes it: both times are now. *)
Definition new_audit (actorID : string) (now : Z) : Audit :=
  mkAudit actorID None None None now now None None.

(** ** Errors of a call that may not return

    [Panicked]: the goroutine panicked.  [Exhausted]: the recursion went deeper
    than the fuel, which in the program exhausts the stack. *)
Inductive go_err : Type := Failed (e : store_err) | Panicked | Exhausted.

Definition failing {S A} (m : Eff S (result store_err A)) : Eff S (result go_err A) :=
  fun s => let '(r, s') := m s in (match r with Ok a => Ok a | Err e => Err (Failed e) end, s').

Section Parse.
Context `{UnicodeCase} `{UnicodeDigits} `{MapRange} `{SpecDecoder} `{GraphQLParser} `{ProtoParser}
  `{UuidGen} {DB : Type}.
#[local] Abbreviation W := (World DB).

(** [uuid.NewString()] *)
Definition NewString : Eff W (result go_err string) :=
  fun w => let '(r, w') := new_uuid w in (match r with Ok id => Ok id | Err _ => Err Panicked end, w').

Definition normalizeProtocol (protocol : string) : string :=
  let p := ToLower (TrimSpace protocol) in
  if String.eqb p "graphql" then "graphql" else if String.eqb p "grpc" then "grpc" else "openapi".

Section Target.
Context (apiGroupID serviceID orgID actorID : string) (now : Z).

Definition new_endpoint (id : string) (c : EndpointContent) : APIEndpoint :=
  mkEndpoint id apiGroupID None serviceID orgID c (new_audit actorID now).

(** *** OpenAPI *)

Definition tags_of (op : list (string * json)) : list string :=
  match get_array "tags" op with Some rawTags => omap as_string rawTags | None => [] end.

Definition operation_content (fuel : nat) (doc : list (string * json)) (order : Q) (o : operation_ref) :
    option EndpointContent :=
  let op := or_Op o in
  let operationID := default "" (get_string "operationId" op) in
  match resolveRefsInDoc doc fuel (index "requestBody" op), resolveRefsInDoc doc fuel (index "responses" op) with
  | Some resolvedReqBody, Some resolvedResponses =>
      let reqBody := Marshal (normalizeRequestBodyForStorage resolvedReqBody) in
      let responses := Marshal (normalizeResponsesForStorage resolvedResponses) in
      Some (mkContent
        (if str_empty operationID then ToUpper (or_Method o) +:+ " " +:+ or_Path o else operationID)
        (ToUpper (or_Method o)) (or_Path o) (default "" (get_string "summary" op))
        (default "" (get_string "description" op)) (tags_of op) 0
        (Some (Marshal (index "parameters" op))) (Some reqBody) (Some responses)
        (Some (seedExampleSamplesJSON reqBody)) (Some (seedExampleSamplesJSON responses)) order None)
  | _, _ => None
  end.

(** The decoded document: JSON, or else YAML. *)
Definition decode_spec (spec : string) : option (list (string * json)) :=
  match json_object spec with Some doc => Some doc | None => yaml_object spec end.

Definition parseSpecEndpoints (fuel : nat) (spec : string) : Eff W (result go_err (list APIEndpoint)) :=
  func (
    doc <- non_nil (decode_spec spec) (Err (Failed (ErrOther "spec is not valid JSON or YAML"))) ;;
    rawPaths <- non_nil (get_object "paths" doc) (Ok []) ;;
    endpoints <- geach (fun io =>
        c <- non_nil (operation_content fuel doc (inject_Z (Z.of_nat io.1)) io.2) (Err Exhausted) ;;
        id <- try NewString (fun e => Err e) ;;
        gret (new_endpoint id c))
      (imap pair (operations_of spec rawPaths)) ;;
    gret (Ok endpoints)).

(** *** GraphQL and gRPC *)

(** A payload the parser made, or [{}] when it is not JSON. *)
Definition valid_or_empty (payload : string) : string :=
  if json_valid payload then payload else Marshal (JObject []).

Definition parseGraphQLSpecEndpoints (spec : string) : Eff W (result go_err (list APIEndpoint)) :=
  func (
    ops <- try (fun w => (ParseGraphQL spec, w)) (fun msg => Err (Failed (ErrOther msg))) ;;
    endpoints <- geach (fun iop =>
        let op := iop.2 in
        let requestBody := Marshal (JObject [("query", JString (op_RequestExample op))]) in
        let responses := valid_or_empty (op_ResponseExample op) in
        let parameters := valid_or_empty (op_Variables op) in
        id <- try NewString (fun e => Err e) ;;
        gret (new_endpoint id (mkContent (op_OperationID op) (op_Kind op) (op_Signature op) ""
                (op_Description op) (op_Tags op) 0 (Some parameters) (Some requestBody) (Some responses)
                (Some (seedExampleSamplesJSON requestBody)) (Some (seedExampleSamplesJSON responses))
                (inject_Z (Z.of_nat iop.1)) None)))
      (imap pair ops) ;;
    gret (Ok endpoints)).

Definition method_path (m : ParsedGrpcMethod) : string :=
  let path := MethodID m in
  if negb (str_empty path) && negb (HasPrefix path "/") then "/" +:+ path else path.

Definition parseGrpcSpecEndpoints (spec : string) : Eff W (result go_err (list APIEndpoint)) :=
  func (
    methods <- try (fun w => (ParseGrpc spec, w)) (fun msg => Err (Failed (ErrOther msg))) ;;
    endpoints <- geach (fun im =>
        let m := im.2 in
        let grpcMeta := Marshal (JObject [("packageName", JString (PackageName m));
                                          ("requestType", JString (RequestType m));
                                          ("responseType", JString (ResponseType m));
                                          ("serviceName", JString (ServiceName m))]) in
        let requestExample := valid_or_empty (RequestExample m) in
        let responseExample := valid_or_empty (ResponseExample m) in
        id <- try NewString (fun e => Err e) ;;
        gret (new_endpoint id (mkContent (MethodName m) (StreamingType m) (method_path m) (ProtoSnippet m)
                (mt_Description m) (mt_Tags m) 0 (Some grpcMeta) (Some requestExample) (Some responseExample)
                (Some (seedExampleSamplesJSON requestExample)) (Some (seedExampleSamplesJSON responseExample))
                (inject_Z (Z.of_nat im.1)) None)))
      (imap pair methods) ;;
    gret (Ok endpoints)).

Definition parseSpecEndpointsForProtocol (fuel : nat) (spec protocol : string) :
    Eff W (result go_err (list APIEndpoint)) :=
  let p := normalizeProtocol protocol in
  if String.eqb p "graphql" then parseGraphQLSpecEndpoints spec
  else if String.eqb p "grpc" then parseGrpcSpecEndpoints spec
  else parseSpecEndpoints fuel spec.
End Target.

(** ** Agreements kept across a re-import *)

Definition endpointSLAKey (e : APIEndpoint) : string :=
  let c := ep_Content e in
  if negb (str_empty (ec_OperationID c)) then "op:" +:+ ec_OperationID c
  else "mp:" +:+ ToUpper (ec_Method c) +:+ " " +:+ ec_Path c.

Definition sla_index (existing : list APIEndpoint) : gmap string EndpointSLA :=
  fold_left (fun byKey e =>
    match ec_SLA (ep_Content e) with Some sla => <[endpointSLAKey e := sla]> byKey | None => byKey end)
    existing ∅.

Definition preserveEndpointSLAs (existing fresh : list APIEndpoint) : list APIEndpoint :=
  map (fun e => match sla_index existing !! endpointSLAKey e with
                | Some sla => set_content e (set_sla (ep_Content e) (Some sla))
                | None => e
                end) fresh.
End Parse.

(** ** What is parsed *)

Section Correct.
Context `{UnicodeCase} `{UnicodeDigits} `{MapRange} `{SpecDecoder} `{UuidGen} {DB : Type}.
Context (apiGroupID serviceID orgID actorID : string) (now : Z).
#[local] Abbreviation parse := (parseSpecEndpoints (DB := DB) apiGroupID serviceID orgID actorID now).

Lemma NewString_db (w : World DB) : w_db (NewString w).2 = w_db w.
Proof.
  unfold NewString, new_uuid. pose proof (rand_read_db 16 w). by destruct (rand_read 16 w) as [[] ?].
Qed.

(** One endpoint per operation found, in order. *)
Definition parsed_from (fuel : nat) (doc : list (string * json)) (io : nat * operation_ref) (e : APIEndpoint) :
    Prop :=
  exists c, operation_content fuel doc (inject_Z (Z.of_nat io.1)) io.2 = Some c /\
    ep_Content e = c /\ ep_APIGroupID e = apiGroupID /\ ep_APIGroupVersionID e = None /\
    ep_ServiceID e = serviceID /\ ep_OrgID e = orgID /\ ep_Audit e = new_audit actorID now.

Lemma parse_spec fuel spec w :
  let '(r, w') := parse fuel spec w in
  w_db w' = w_db w /\
  match r with
  | Ok eps =>
      exists doc, decode_spec spec = Some doc /\
        match get_object "paths" doc with
        | None => eps = []
        | Some rawPaths => Forall2 (parsed_from fuel doc) (imap pair (operations_of spec rawPaths)) eps
        end
  | Err (Failed _) => decode_spec spec = None
  | Err Exhausted =>
      exists doc rawPaths o, decode_spec spec = Some doc /\ get_object "paths" doc = Some rawPaths /\
        o ∈ operations_of spec rawPaths /\
        (resolveRefsInDoc doc fuel (index "requestBody" (or_Op o)) = None \/
         resolveRefsInDoc doc fuel (index "responses" (or_Op o)) = None)
  | Err Panicked => True
  end.
Proof.
  unfold parseSpecEndpoints. apply wp_let. wp_step. split; [intros ->; by split|]. intros doc Hdoc.
  wp_step. split; [intros Hp; split; [done|]; exists doc; by rewrite Hp|]. intros rawPaths Hp.
  wp_step. wp_keep.
  - apply (wp_each _ _ (parsed_from fuel doc) (fun w' => w_db w' = w_db w)); [|done].
    intros [i o] w' Hin Hw'. wp_step. split.
    + unfold operation_content. intros Hc. split; [done|]. exists doc, rawPaths, o.
      apply elem_of_lookup_imap in Hin as (i' & o' & [= -> ->] & Ho). split_and!; [done..| |].
      { by eapply list_elem_of_lookup_2. }
      cbn in Hc. revert Hc.
      destruct (resolveRefsInDoc doc fuel (index "requestBody" (or_Op o'))); [|by left].
      destruct (resolveRefsInDoc doc fuel (index "responses" (or_Op o'))); [done|by right].
    + intros c Hc. wp_step. pose proof (NewString_db w') as Hd. unfold NewString in *.
      destruct (new_uuid w') as [[id|e] w'']; cbn in *; [|split; [congruence|done]].
      split; [|congruence]. by exists c.
  - cbn. intros eps w' [Heps Hw']. split; [done|]. exists doc. by rewrite Hp.
Qed.

Lemma parsed_lookup fuel doc ops eps i e :
  Forall2 (parsed_from fuel doc) (imap pair ops) eps -> eps !! i = Some e ->
  exists o c, ops !! i = Some o /\ parsed_from fuel doc (i, o) e /\
    operation_content fuel doc (inject_Z (Z.of_nat i)) o = Some c /\ ep_Content e = c.
Proof.
  intros Hf Hi. destruct (Forall2_lookup_r _ _ _ _ _ Hf Hi) as (io & Hio & Hp).
  apply list_lookup_imap_Some in Hio as (o & Ho & ->). destruct Hp as (c & Hc & He & Hr).
  exists o, c. split_and!; [done| |done|done]. by exists c.
Qed.

Lemma content_fields fuel doc order o c :
  operation_content fuel doc order o = Some c ->
  ec_Path c = or_Path o /\ ec_Method c = ToUpper (or_Method o) /\ ec_Order c = order /\
  ec_SLA c = None /\ ec_OperationID c <> "".
Proof.
  unfold operation_content. destruct (resolveRefsInDoc _ _ _) as [b|]; [|done].
  destruct (resolveRefsInDoc _ _ _) as [r|]; [|done]. intros [= <-]. split_and!; try done. cbn.
  destruct (str_empty (default "" (get_string "operationId" (or_Op o)))) eqn:E; [|by apply str_empty_false].
  intros Hx. apply (f_equal String.length) in Hx. rewrite !length_append in Hx. cbn in Hx. lia.
Qed.

Lemma ToUpper_methods : NoDup (map ToUpper httpMethods).
Proof. apply (bool_decide_unpack _). vm_compute. done. Qed.

Lemma ToUpper_method_inj m m' : m ∈ httpMethods -> m' ∈ httpMethods -> ToUpper m = ToUpper m' -> m = m'.
Proof.
  assert (forall x y, x ∈ httpMethods -> y ∈ httpMethods -> String.eqb (ToUpper x) (ToUpper y) = true -> x = y)
    as Hall.
  { intros x y Hx Hy. rewrite !list_elem_of_In in Hx, Hy. cbn in Hx, Hy.
    repeat (destruct Hx as [<-|Hx]; [repeat (destruct Hy as [<-|Hy]; [by vm_compute|]); done|]). done. }
  intros Hm Hm' Heq. apply Hall; [done..|]. by rewrite Heq, String.eqb_refl.
Qed.

(** No reference in the payloads of an operation heads an endless chain. *)
Definition acyclic (doc : list (string * json)) (o : operation_ref) : Prop :=
  forall r, r ∈ refs (index "requestBody" (or_Op o)) \/ r ∈ refs (index "responses" (or_Op o)) ->
    Acc (follows doc) r.

Definition endpoint_key (e : APIEndpoint) : string * string := (ec_Path (ep_Content e), ec_Method (ep_Content e)).

Lemma enough_fuel doc ops :
  Forall (acyclic doc) ops ->
  exists n, forall fuel o, n <= fuel -> o ∈ ops ->
    resolveRefsInDoc doc fuel (index "requestBody" (or_Op o)) <> None /\
    resolveRefsInDoc doc fuel (index "responses" (or_Op o)) <> None.
Proof.
  intros Hall. rewrite Forall_forall in Hall.
  destruct (uniform_fuel (fun n o =>
      is_Some (resolveRefsInDoc doc n (index "requestBody" (or_Op o))) /\
      is_Some (resolveRefsInDoc doc n (index "responses" (or_Op o)))) ops) as [n Hn].
  - intros n n' o [[x Hx] [y Hy]] Hle. split; eexists; by eapply resolve_more.
  - intros o Ho. pose proof (Hall o Ho) as Ha.
    destruct (proj2 (resolve_terminates doc (index "requestBody" (or_Op o)))) as (n1 & x & Hx).
    { intros r Hr. apply Ha. by left. }
    destruct (proj2 (resolve_terminates doc (index "responses" (or_Op o)))) as (n2 & y & Hy).
    { intros r Hr. apply Ha. by right. }
    exists (Nat.max n1 n2). split; eexists; (eapply resolve_more; [eassumption|lia]).
  - exists n. intros fuel o Hle Ho. rewrite Forall_forall in Hn.
    destruct (Hn o Ho) as [[x Hx] [y Hy]].
    rewrite (resolve_more doc n fuel _ _ Hx Hle), (resolve_more doc n fuel _ _ Hy Hle). done.
Qed.

(** What the endpoints of a document are. *)
Definition one_per_operation (rawPaths : list (string * json)) (eps : list APIEndpoint) : Prop :=
  NoDup (map endpoint_key eps) /\
  (forall i e, eps !! i = Some e -> ec_Order (ep_Content e) = inject_Z (Z.of_nat i)) /\
  (forall path method, method ∈ httpMethods ->
     (path, ToUpper method) ∈ map endpoint_key eps <->
     exists item op, get_object path rawPaths = Some item /\ get_object method item = Some op) /\
  Forall (fun e => exists method, method ∈ httpMethods /\ ec_Method (ep_Content e) = ToUpper method) eps.

Lemma parsed_one_per_operation fuel doc spec rawPaths eps :
  keys_sorted rawPaths -> faithful spec rawPaths ->
  Forall2 (parsed_from fuel doc) (imap pair (operations_of spec rawPaths)) eps ->
  one_per_operation rawPaths eps.
Proof.
  intros Hk Hf Heps. destruct (operations_of_spec spec rawPaths Hk Hf) as [Hnd Hops].
  assert (forall i o e, operations_of spec rawPaths !! i = Some o -> eps !! i = Some e ->
            endpoint_key e = (or_Path o, ToUpper (or_Method o)) /\ or_Method o ∈ httpMethods /\
            ec_Order (ep_Content e) = inject_Z (Z.of_nat i)) as Hat.
  { intros i o e Ho He. destruct (parsed_lookup _ _ _ _ _ _ Heps He) as (o' & c & Ho' & _ & Hc & <-).
    simplify_eq. apply content_fields in Hc as (Hp & Hm & Hor & _).
    unfold endpoint_key. rewrite Hp, Hm. split_and!; [done| |done].
    apply Hops. by eapply list_elem_of_lookup_2. }
  assert (forall i e, eps !! i = Some e -> exists o, operations_of spec rawPaths !! i = Some o) as Hop.
  { intros i e He. destruct (parsed_lookup _ _ _ _ _ _ Heps He) as (o & c & Ho & _). eauto. }
  split_and!.
  - apply NoDup_alt. intros i j k Hi Hj. apply list_lookup_fmap_Some in Hi as (e & -> & Hi), Hj as (e' & Hk' & Hj).
    destruct (Hop _ _ Hi) as [o Ho], (Hop _ _ Hj) as [o' Ho'].
    destruct (Hat _ _ _ Ho Hi) as (E & M & _), (Hat _ _ _ Ho' Hj) as (E' & M' & _).
    rewrite E, E' in Hk'. injection Hk' as Hpath Hmeth. apply ToUpper_method_inj in Hmeth; [|done..].
    apply (proj1 (NoDup_alt _) Hnd i j (op_key o)); rewrite list_lookup_fmap;
      [by rewrite Ho|rewrite Ho'; cbn; unfold op_key; congruence].
  - intros i e Hi. destruct (Hop _ _ Hi) as [o Ho]. by destruct (Hat _ _ _ Ho Hi) as (_ & _ & ?).
  - intros path method Hm. split.
    + intros (e & Hke & He)%list_elem_of_fmap. apply list_elem_of_lookup in He as [i Hi].
      destruct (Hop _ _ Hi) as [o Ho]. destruct (Hat _ _ _ Ho Hi) as (E & M & _).
      rewrite E in Hke. injection Hke as -> Hmeth. apply ToUpper_method_inj in Hmeth as ->; [|done..].
      apply list_elem_of_lookup_2, Hops in Ho as (_ & item & ? & ?). eauto.
    + intros (item & op & Hit & Hopp).
      assert (mkOperationRef method path op ∈ operations_of spec rawPaths) as Hin.
      { apply Hops. cbn. eauto. }
      apply list_elem_of_lookup in Hin as [i Hi].
      pose proof (Forall2_length _ _ _ Heps) as Hlen. rewrite length_imap in Hlen.
      destruct (lookup_lt_is_Some_2 eps i) as [e He].
      { rewrite <-Hlen. by eapply lookup_lt_Some. }
      destruct (Hat _ _ _ Hi He) as (E & _). apply list_elem_of_fmap. exists e.
      split; [by rewrite E|by eapply list_elem_of_lookup_2].
  - apply Forall_forall. intros e [i Hi]%list_elem_of_lookup. destruct (Hop _ _ Hi) as [o Ho].
    destruct (Hat _ _ _ Ho Hi) as (E & M & _). exists (or_Method o). split; [done|]. by injection E.
Qed.

(** (lemma) A document whose references are not circular is parsed, and gives
    one endpoint per operation: with distinct path and method, in the order of
    the document, for exactly the HTTP methods whose value is an object. *)
Theorem parseSpecEndpoints_correct spec w doc rawPaths :
  decode_spec spec = Some doc -> get_object "paths" doc = Some rawPaths -> keys_sorted rawPaths ->
  faithful spec rawPaths -> Forall (acyclic doc) (operations_of spec rawPaths) ->
  exists n, forall fuel, n <= fuel ->
    match (parse fuel spec w).1 with
    | Ok eps => one_per_operation rawPaths eps
    | Err e => e = Panicked
    end.
Proof.
  intros Hdoc Hp Hk Hf Ha. destruct (enough_fuel doc _ Ha) as [n Hn]. exists n. intros fuel Hle.
  pose proof (parse_spec fuel spec w) as Hs. destruct (parse fuel spec w) as [r w']. cbn.
  destruct Hs as [_ Hs]. destruct r as [eps|[e| |]]; [|congruence|done|].
  - destruct Hs as (doc' & Hdoc' & Hs). simplify_eq. rewrite Hp in Hs.
    by eapply parsed_one_per_operation.
  - destruct Hs as (doc' & rp & o & Hd & Hp' & Ho & Hr). simplify_eq.
    destruct (Hn fuel o Hle Ho) as [Hb Hres]. by destruct Hr.
Qed.
End Correct.

(** ** A concrete document *)

Module ApiSpecDemo.
Import OpenAPIDemo.
#[local] Existing Instance ascending.
#[local] Existing Instance no_wide_digits.
#[export] Instance case : UnicodeCase := ascii_only_case.
#[export] Instance uuid : UuidGen := {| uuid_of := hex_encode |}.

Definition ok_response : json :=
  JObject [("200", JObject [("content", JObject [("application/json", media (ref_to "Pet"))])])].
Definition pets : list (string * json) :=
  [("components", JObject [("schemas", JObject [("Owner", owner); ("Pet", pet)])]);
   ("paths", JObject
      [("/owners", JObject [("get", JObject [("responses", ok_response)])]);
       ("/pets", JObject [("get", JObject [("operationId", JString "listPets"); ("responses", ok_response)]);
                          ("parameters", JArray []);
                          ("post", JObject [("requestBody", ref_to "Pet")])])])].

(** The same document in the order it is written: /pets before /owners, post before get. *)
Definition scalar (s : string) : yaml_node := mkNode ScalarNode s [].
Definition mapping (l : list (string * yaml_node)) : yaml_node :=
  mkNode MappingNode "" (flat_map (fun kv => [scalar kv.1; kv.2]) l).
Definition pets_tree : yaml_node :=
  mkNode DocumentNode "" [mapping [("paths", mapping
    [("/pets", mapping [("post", mapping []); ("parameters", scalar ""); ("get", mapping [])]);
     ("/owners", mapping [("get", mapping [])])])]].

#[export] Instance decoder : SpecDecoder := {|
  json_object s := if String.eqb s "pets" then Some pets else None;
  yaml_object _ := None; yaml_tree s := if String.eqb s "pets" then Some pets_tree else None;
  json_any _ := None; json_valid _ := true |}.

Definition paths : list (string * json) := default [] (get_object "paths" pets).
Definition noise : World unit := mkWorld tt [] 0 [] (map N.of_nat (seq 0 100)).
Definition parsed (fuel : nat) : result go_err (list APIEndpoint) :=
  (parseSpecEndpoints "group" "svc" "org" "ann" 5 fuel "pets" noise).1.

Lemma pets_in_order :
  match parsed 20 with
  | Ok eps => map endpoint_key eps = [("/pets", "POST"); ("/pets", "GET"); ("/owners", "GET")]
  | Err _ => False
  end.
Proof. vm_compute. reflexivity. Qed.

Lemma schema_acyclic r : r ∈ ["#/components/schemas/Pet"; "#/components/schemas/Owner"] -> Acc (follows pets) r.
Proof.
  assert (Acc (follows pets) "#/components/schemas/Owner") as Ho.
  { constructor. intros y Hy. vm_compute in Hy. by apply not_elem_of_nil in Hy. }
  intros [->|[->|Hr]%elem_of_cons]%elem_of_cons; [|done|by apply not_elem_of_nil in Hr].
  constructor. intros y Hy. vm_compute in Hy. apply list_elem_of_singleton in Hy as ->. done.
Qed.

Lemma tree_order :
  parseOpenAPIDocumentOrder "pets" =
  Some (["/pets"; "/owners"], <["/owners" := ["get"]]> (<["/pets" := ["post"; "get"]]> ∅)).
Proof. reflexivity. Qed.

Lemma parseSpecEndpoints_correct_witness :
  exists n, forall fuel, n <= fuel ->
    match parsed fuel with Ok eps => one_per_operation paths eps | Err e => e = Panicked end.
Proof.
  apply (parseSpecEndpoints_correct "group" "svc" "org" "ann" 5 "pets" noise pets paths); try reflexivity.
  - repeat (constructor; [|repeat constructor]). constructor.
  - unfold faithful. rewrite tree_order. split; [by apply (bool_decide_unpack _)|].
    intros path methods item [[<- <-]|[_ [[<- <-]|[_ Hm]]%lookup_insert_Some]]%lookup_insert_Some Hi;
      [| |by rewrite lookup_empty in Hm]; injection Hi as <-;
      (split; [by apply (bool_decide_unpack _)|]);
      (intros method Hm [x Hs]; rewrite !list_elem_of_In in Hm |- *; cbn in Hm; cbn;
       repeat (destruct Hm as [<-|Hm]; [first [tauto|discriminate Hs]|]); done).
  - assert (Forall (fun o => forallb (fun r => mem_str r ["#/components/schemas/Pet"; "#/components/schemas/Owner"])
        (refs (index "requestBody" (or_Op o)) ++ refs (index "responses" (or_Op o))) = true)
      (operations_of "pets" paths)) as Hall by (vm_compute; repeat constructor).
    apply (Forall_impl _ _ _ Hall). intros o Ho r Hr. apply schema_acyclic, mem_str_In.
    rewrite forallb_forall in Ho. apply Ho, list_elem_of_In, elem_of_app. done.
Defined.
End ApiSpecDemo.
