(* ===== verification/ApiGroups.v ===== *)
(** * ApiGroups: API groups, their versions and their endpoints

    Models the API-group half of [internal/store/postgres/catalog.go] and
    [internal/api/catalog/apigroup.go], [apigroup_version.go], [endpoint.go],
    [byid.go] and [service_logic.go] (publishing).  A group has a working copy -
    its row, its specification in object storage, its endpoints without a
    version - and numbered snapshots of it.  Of [services] and [orgs] only the
    ids matter, for foreign keys.  Object storage is part of the state; an
    upload or download fails in transport like a statement. *)

From S2P Require Import Prelude GoStrings Effects Json GraphQL Grpc Table Authz Identity OpenAPI ApiSpec.
From Stdlib Require Import QArith.
Set Warnings "-register-all,-clear-no-such-hyp".
#[local] Open Scope nat_scope.
#[local] Open Scope string_scope.

(** A [jsonb] column keeps a text of its own for a document, or refuses the input. *)
Class Jsonb := {
  jsonb : string -> option string;
  jsonb_idem : forall s t, jsonb s = Some t -> jsonb t = Some t
}.

Record ApiDB := mkApiDB {
  a_orgs : gset string; a_services : gset string;
  a_groups : gmap string APIGroup; a_versions : gmap string APIGroupVersion;
  a_endpoints : gmap string APIEndpoint; a_blobs : gmap string string
}.
Definition set_groups (d : ApiDB) t := mkApiDB (a_orgs d) (a_services d) t (a_versions d) (a_endpoints d) (a_blobs d).
Definition set_versions (d : ApiDB) t := mkApiDB (a_orgs d) (a_services d) (a_groups d) t (a_endpoints d) (a_blobs d).
Definition set_endpoints (d : ApiDB) t := mkApiDB (a_orgs d) (a_services d) (a_groups d) (a_versions d) t (a_blobs d).
Definition set_blobs (d : ApiDB) t := mkApiDB (a_orgs d) (a_services d) (a_groups d) (a_versions d) (a_endpoints d) t.

Definition ApiEff (A : Type) : Type := Eff (World ApiDB) (result store_err A).

(** ** Columns who and when *)

Definition au_live (a : Audit) : bool := negb (found (au_DeletedAt a)).
Definition inserted_audit (now : Z) (a : Audit) : Audit :=
  mkAudit (au_CreatedBy a) None (au_CreatedByCommitHash a) None (or_now (au_CreatedAt a) now)
    (or_now (au_UpdatedAt a) now) None None.
Definition updated_audit (by_ hash : option string) (now : Z) (a : Audit) : Audit :=
  mkAudit (au_CreatedBy a) by_ (au_CreatedByCommitHash a) hash (au_CreatedAt a) now (au_DeletedAt a) (au_DeletedBy a).
Definition deleted_audit (by_ : string) (now : Z) (a : Audit) : Audit :=
  mkAudit (au_CreatedBy a) (au_UpdatedBy a) (au_CreatedByCommitHash a) (au_UpdatedByCommitHash a)
    (au_CreatedAt a) (au_UpdatedAt a) (Some now) (Some by_).

Definition gr_live (g : APIGroup) : bool := au_live (gr_Audit g).
Definition ep_live (e : APIEndpoint) : bool := au_live (ep_Audit e).
Definition gr_with_audit (g : APIGroup) (a : Audit) : APIGroup :=
  mkGroup (gr_ID g) (gr_ServiceID g) (gr_OrgID g) (gr_Name g) (gr_Version g) (gr_Label g) (gr_Protocol g)
    (gr_SpecKey g) (gr_SpecHash g) a.

Section Store.
Context `{Collation} `{Jsonb}.

(** ** Groups *)

Definition protocol_check (p : string) : bool := mem_str p ["REST"; "GraphQL"; "gRPC"].

Definition insert_group (now : Z) (g : APIGroup) (d : ApiDB) : result store_err unit * ApiDB :=
  if found (a_groups d !! gr_ID g) || negb (bool_decide (gr_ServiceID g ∈ a_services d)) ||
     negb (bool_decide (gr_OrgID g ∈ a_orgs d)) || negb (protocol_check (gr_Protocol g))
  then (violation, d)
  else (Ok tt, set_groups d (<[gr_ID g := gr_with_audit g (inserted_audit now (gr_Audit g))]> (a_groups d))).

Definition CreateAPIGroup (g : APIGroup) : ApiEff unit :=
  func (now <- call time_now ;; call (db_op (fun _ d => insert_group now g d))).

Definition GetAPIGroup (id : string) : ApiEff (option APIGroup) := db_read (fun _ d => a_groups d !! id).

(** Exact matches of the name first, when a name is asked for. *)
Definition ListAPIGroups (serviceID : string) (exactName : option string) : ApiEff (list APIGroup) :=
  db_read (fun _ d =>
    order_by (then_by (fun x y => match exactName with
                                  | Some n => String.eqb (gr_Name x) n && negb (String.eqb (gr_Name y) n)
                                  | None => false
                                  end)
             (then_by (by_key (fun g => au_CreatedAt (gr_Audit g))) (by_text gr_ID)))
      (select (fun g => String.eqb (gr_ServiceID g) serviceID && gr_live g &&
                 match exactName with
                 | Some n => String.eqb (text_lower (gr_Name g)) (text_lower n)
                 | None => true
                 end) (a_groups d))).

(** The columns an UPDATE of a group sets. *)
Definition updated_group (now : Z) (g old : APIGroup) : APIGroup :=
  mkGroup (gr_ID old) (gr_ServiceID old) (gr_OrgID old) (gr_Name g) (gr_Version g) (gr_Label g) (gr_Protocol g)
    (gr_SpecKey g) (gr_SpecHash g)
    (updated_audit (au_UpdatedBy (gr_Audit g)) (au_UpdatedByCommitHash (gr_Audit g)) now (gr_Audit old)).

Definition update_group (now : Z) (g : APIGroup) (d : ApiDB) : result store_err unit * ApiDB :=
  match a_groups d !! gr_ID g with
  | Some old =>
      if negb (gr_live old) then (Ok tt, d)
      else if negb (protocol_check (gr_Protocol g)) then (violation, d)
      else (Ok tt, set_groups d (<[gr_ID g := updated_group now g old]> (a_groups d)))
  | None => (Ok tt, d)
  end.

Definition UpdateAPIGroup (g : APIGroup) : ApiEff unit :=
  func (now <- call time_now ;; call (db_op (fun _ d => update_group now g d))).

Definition SoftDeleteAPIGroup (id deletedBy : string) : ApiEff unit :=
  func (now <- call time_now ;;
        call (db_write (fun _ d => set_groups d (update_where
          (fun g => String.eqb (gr_ID g) id && gr_live g)
          (fun g => gr_with_audit g (deleted_audit deletedBy now (gr_Audit g))) (a_groups d))))).

(** ** Versions *)

Definition GetAPIGroupVersion (id : string) : ApiEff (option APIGroupVersion) :=
  db_read (fun _ d => a_versions d !! id).

Definition of_group (apiGroupID : string) (v : APIGroupVersion) : bool := String.eqb (vr_APIGroupID v) apiGroupID.

Definition ListAPIGroupVersions (apiGroupID : string) : ApiEff (list APIGroupVersion) :=
  db_read (fun _ d => order_by (desc (by_key vr_VersionNumber)) (select (of_group apiGroupID) (a_versions d))).

(** COALESCE(MAX(version_number), 0) *)
Definition latest_number (apiGroupID : string) (d : ApiDB) : Z :=
  foldr Z.max 0%Z (map vr_VersionNumber (select (of_group apiGroupID) (a_versions d))).

Definition LatestAPIGroupVersionNumber (apiGroupID : string) : ApiEff Z :=
  db_read (fun _ d => latest_number apiGroupID d).

Definition max_int4 : Z := 2147483647.

Definition insert_version (v : APIGroupVersion) (d : ApiDB) : result store_err unit * ApiDB :=
  if found (a_versions d !! vr_ID v) || negb (found (a_groups d !! vr_APIGroupID v)) ||
     exists_row (fun x => of_group (vr_APIGroupID v) x && (vr_VersionNumber x =? vr_VersionNumber v)%Z) (a_versions d) ||
     (max_int4 <? vr_VersionNumber v)%Z
  then (violation, d)
  else (Ok tt, set_versions d (<[vr_ID v := v]> (a_versions d))).

(** ** Endpoints *)

(** The rows of the working copy of a group. *)
Definition working (apiGroupID : string) (e : APIEndpoint) : bool :=
  String.eqb (ep_APIGroupID e) apiGroupID && negb (found (ep_APIGroupVersionID e)) && ep_live e.
Definition of_version (apiGroupID versionID : string) (e : APIEndpoint) : bool :=
  String.eqb (ep_APIGroupID e) apiGroupID && bool_decide (ep_APIGroupVersionID e = Some versionID) && ep_live e.

(** The index on (group, method, path) of working copies. *)
Definition same_route (e x : APIEndpoint) : bool :=
  working (ep_APIGroupID e) x && String.eqb (ec_Method (ep_Content x)) (ec_Method (ep_Content e)) &&
  String.eqb (ec_Path (ep_Content x)) (ec_Path (ep_Content e)).

Definition with_json (c : EndpointContent) (p b r xq xr : string) : EndpointContent :=
  mkContent (ec_OperationID c) (ec_Method c) (ec_Path c) (ec_Summary c) (ec_Description c) (ec_Tags c)
    (ec_TokenCount c) (Some p) (Some b) (Some r) (Some xq) (Some xr) (ec_Order c) (ec_SLA c).

(** The content as the columns hold it; [None]: a column refuses it. *)
Definition stored_content (c : EndpointContent) : option EndpointContent :=
  p ← ec_Parameters c ≫= jsonb; b ← ec_RequestBody c ≫= jsonb; r ← ec_Responses c ≫= jsonb;
  xq ← ec_ExampleRequests c ≫= jsonb; xr ← ec_ExampleResponses c ≫= jsonb;
  Some (with_json c p b r xq xr).

(** An INSERT replaces nil payloads. *)
Definition or_default (c : EndpointContent) : EndpointContent :=
  let or (o : option string) (s : string) := default s o in
  with_json c (or (ec_Parameters c) "[]") (or (ec_RequestBody c) "{}") (or (ec_Responses c) "{}")
    (or (ec_ExampleRequests c) "[]") (or (ec_ExampleResponses c) "[]").

Definition endpoint_fks (e : APIEndpoint) (d : ApiDB) : bool :=
  found (a_groups d !! ep_APIGroupID e) && bool_decide (ep_ServiceID e ∈ a_services d) &&
  bool_decide (ep_OrgID e ∈ a_orgs d) &&
  match ep_APIGroupVersionID e with Some v => found (a_versions d !! v) | None => true end.

(** [insertAPIEndpointTx] *)
Definition insert_endpoint (now : Z) (e : APIEndpoint) (d : ApiDB) : result store_err ApiDB :=
  match stored_content (or_default (ep_Content e)) with
  | None => violation
  | Some c =>
      let row := set_audit (set_content e c) (inserted_audit now (ep_Audit e)) in
      if found (a_endpoints d !! ep_ID e) || negb (endpoint_fks e d) ||
         (negb (found (ep_APIGroupVersionID e)) && exists_row (same_route row) (a_endpoints d))
      then violation
      else Ok (set_endpoints d (<[ep_ID e := row]> (a_endpoints d)))
  end.

Definition as_statement (f : ApiDB -> result store_err ApiDB) (d : ApiDB) : result store_err unit * ApiDB :=
  match f d with Ok d' => (Ok tt, d') | Err e => (Err e, d) end.

Definition CreateAPIEndpoint (e : APIEndpoint) : ApiEff unit :=
  func (now <- call time_now ;; call (db_op (fun _ => as_statement (insert_endpoint now e)))).

Definition GetAPIEndpoint (id : string) : ApiEff (option APIEndpoint) := db_read (fun _ d => a_endpoints d !! id).

Definition endpoint_order : APIEndpoint -> APIEndpoint -> bool :=
  then_by (fun x y => negb (Qle_bool (ec_Order (ep_Content y)) (ec_Order (ep_Content x))))
    (then_by (by_key (fun e => au_CreatedAt (ep_Audit e))) (by_text ep_ID)).

Definition named (exactOperationID : option string) (e : APIEndpoint) : bool :=
  match exactOperationID with Some n => String.eqb (ec_OperationID (ep_Content e)) n | None => true end.

Definition ListAPIEndpoints (apiGroupID : string) (exactOperationID : option string) : ApiEff (list APIEndpoint) :=
  db_read (fun _ d => order_by endpoint_order
    (select (fun e => working apiGroupID e && named exactOperationID e) (a_endpoints d))).

Definition ListAPIEndpointsForVersion (apiGroupID versionID : string) (exactOperationID : option string) :
    ApiEff (list APIEndpoint) :=
  db_read (fun _ d => order_by endpoint_order
    (select (fun e => of_version apiGroupID versionID e && named exactOperationID e) (a_endpoints d))).

Definition update_endpoint (now : Z) (e : APIEndpoint) (d : ApiDB) : result store_err ApiDB :=
  match a_endpoints d !! ep_ID e with
  | None => Ok d
  | Some old =>
      if negb (ep_live old) then Ok d else
      match stored_content (ep_Content e) with
      | None => violation
      | Some c =>
          let row := set_audit (set_content old c)
            (updated_audit (au_UpdatedBy (ep_Audit e)) (au_UpdatedByCommitHash (ep_Audit e)) now (ep_Audit old)) in
          if negb (found (ep_APIGroupVersionID old)) && other_row (ep_ID e) (same_route row) (a_endpoints d)
          then violation
          else Ok (set_endpoints d (<[ep_ID e := row]> (a_endpoints d)))
      end
  end.

Definition UpdateAPIEndpoint (e : APIEndpoint) : ApiEff unit :=
  func (now <- call time_now ;; call (db_op (fun _ => as_statement (update_endpoint now e)))).

Definition delete_endpoints (p : APIEndpoint -> bool) (by_ : string) (now : Z) (d : ApiDB) : ApiDB :=
  set_endpoints d (update_where p (fun e => set_audit e (deleted_audit by_ now (ep_Audit e))) (a_endpoints d)).

Definition SoftDeleteAPIEndpoint (id deletedBy : string) : ApiEff unit :=
  func (now <- call time_now ;;
        call (db_write (fun _ d => delete_endpoints (fun e => String.eqb (ep_ID e) id && ep_live e) deletedBy now d))).

(** ** Publishing: one transaction *)

Record PublishInput := mkPublish {
  pi_Group : APIGroup; pi_ReplaceEndpoints : bool; pi_NewEndpoints : list APIEndpoint;
  pi_Version : APIGroupVersion; pi_ActorID : string
}.

Fixpoint insert_endpoints (now : Z) (es : list APIEndpoint) (d : ApiDB) : result store_err ApiDB :=
  match es with
  | [] => Ok d
  | e :: es => match insert_endpoint now e d with Ok d' => insert_endpoints now es d' | Err x => Err x end
  end.

(** The row INSERT ... SELECT makes of a row of the working copy; [t] is NOW(). *)
Definition snapshot_row (versionID actorID : string) (t : Z) (id : string) (e : APIEndpoint) : APIEndpoint :=
  mkEndpoint id (ep_APIGroupID e) (Some versionID) (ep_ServiceID e) (ep_OrgID e) (ep_Content e)
    (mkAudit (au_CreatedBy (ep_Audit e)) (Some actorID) (au_CreatedByCommitHash (ep_Audit e))
       (au_UpdatedByCommitHash (ep_Audit e)) (au_CreatedAt (ep_Audit e)) t None None).

Definition copy_rows (versionID actorID : string) (t : Z) (l : list APIEndpoint) (eps : gmap string APIEndpoint) :
    gmap string APIEndpoint :=
  fold_left (fun eps e => let id := fresh (dom eps) in <[id := snapshot_row versionID actorID t id e]> eps) l eps.

Definition CopyEndpointsForVersion (apiGroupID versionID actorID : string) (t : Z) (d : ApiDB) : ApiDB :=
  set_endpoints d (copy_rows versionID actorID t (select (working apiGroupID) (a_endpoints d)) (a_endpoints d)).

Definition set_number (v : APIGroupVersion) (n : Z) (now : Z) : APIGroupVersion :=
  mkVersion (vr_ID v) (vr_APIGroupID v) n
    (Some match vr_Label v with Some l => l | None => "v" +:+ Itoa n end)
    (vr_SpecKey v) (vr_SpecHash v) (vr_IsAutoVersion v) (vr_CreatedBy v) (vr_CreatedByCommitHash v)
    (or_now (vr_CreatedAt v) now).
Definition set_version_label (g : APIGroup) (label : string) : APIGroup :=
  mkGroup (gr_ID g) (gr_ServiceID g) (gr_OrgID g) (gr_Name g) label (gr_Label g) (gr_Protocol g)
    (gr_SpecKey g) (gr_SpecHash g) (gr_Audit g).

Definition publish_tx (now : Z) (inp : PublishInput) (t : Z) (d : ApiDB) : result store_err APIGroupVersion * ApiDB :=
  let g := pi_Group inp in
  let replaced :=
    if pi_ReplaceEndpoints inp
    then insert_endpoints now (pi_NewEndpoints inp)
           (delete_endpoints (working (gr_ID g)) (pi_ActorID inp) now d)
    else Ok d in
  match replaced with
  | Err e => (Err e, d)
  | Ok d1 =>
      let n := if (vr_VersionNumber (pi_Version inp) <=? 0)%Z then (latest_number (gr_ID g) d1 + 1)%Z
               else vr_VersionNumber (pi_Version inp) in
      let v := set_number (pi_Version inp) n now in
      match insert_version v d1 with
      | (Err e, _) => (Err e, d)
      | (Ok _, d2) =>
          let d3 := CopyEndpointsForVersion (gr_ID g) (vr_ID v) (pi_ActorID inp) t d2 in
          match update_group now (set_version_label g (default "" (vr_Label v))) d3 with
          | (Err e, _) => (Err e, d)
          | (Ok _, d4) => (Ok v, d4)
          end
      end
  end.

Definition PublishAPIGroupVersion (inp : PublishInput) : ApiEff APIGroupVersion :=
  func (now <- call time_now ;; call (db_op (publish_tx now inp))).
End Store.

(** ** Object storage: [internal/storage/storage.go] *)

Definition APIGroupSpecKey (orgID serviceID apiGroupID : string) : string :=
  orgID +:+ "/services/" +:+ serviceID +:+ "/api-groups/" +:+ apiGroupID +:+ "/spec".
Definition APIGroupVersionSpecKey (orgID serviceID apiGroupID versionID : string) : string :=
  orgID +:+ "/services/" +:+ serviceID +:+ "/api-groups/" +:+ apiGroupID +:+ "/versions/" +:+ versionID +:+ "/spec".
Definition AssetKey_ (assetID : string) : string := "assets/" +:+ assetID.

(** [h.storage.Upload], [h.storage.Download] read to the end. *)
Definition Upload (key content : string) : ApiEff unit :=
  db_write (fun _ d => set_blobs d (<[key := content]> (a_blobs d))).
Definition Download (key : string) : ApiEff string :=
  db_op (fun _ d => (match a_blobs d !! key with Some c => Ok c | None => Err (ErrOther "no such object") end, d)).

(** ** Handlers *)

Record createGroupRequest := mkCreateGroup {
  cg_Name : string; cg_Version : string; cg_Label : option string; cg_Protocol : string; cg_Spec : string;
  cg_SpecAssetID : option string
}.
Record updateGroupRequest := mkUpdateGroup {
  ug_Name : option string; ug_Version : option string; ug_Label : option string; ug_Protocol : option string;
  ug_Spec : option string; ug_SpecAssetID : option string
}.
Record syncGroupRequest := mkSyncGroup {
  sg_APIGroupID : option string; sg_Name : string; sg_Version : string; sg_Protocol : string; sg_Spec : string;
  sg_SpecAssetID : option string; sg_CommitHash : option string
}.
Record versionRequest := mkVersionRequest {
  vq_Label : option string; vq_Spec : string; vq_SpecAssetID : option string
}.
Record updateEndpointRequest := mkUpdateEndpoint {
  ue_OperationID : option string; ue_Method : option string; ue_Path : option string; ue_Summary : option string;
  ue_Description : option string; ue_Tags : option (list string); ue_Parameters : option string;
  ue_RequestBody : option string; ue_Responses : option string; ue_ExampleRequests : option string;
  ue_ExampleResponses : option string; ue_Order : option Q; ue_SLA : option EndpointSLA
}.

Inductive api_body : Type :=
| GroupList (l : list APIGroup)
| OneGroup (g : APIGroup)
| SpecContent (apiGroupID fileName content : string)
| SyncResult (apiGroupID : string) (versionCreated : bool)
| VersionList (l : list APIGroupVersion)
| OneVersion (v : APIGroupVersion)
| EndpointList (l : list APIEndpoint)
| OneEndpoint (e : APIEndpoint).
Definition Reply : Type := Response api_body.

Record publishParams := mkPublishParams {
  pp_group : APIGroup; pp_serviceID : string; pp_spec : string; pp_endpoints : option (list APIEndpoint);
  pp_label : option string; pp_isAuto : bool; pp_actorID : string; pp_commitHash : option string
}.

Definition set_spec (g : APIGroup) (key hash : string) : APIGroup :=
  mkGroup (gr_ID g) (gr_ServiceID g) (gr_OrgID g) (gr_Name g) (gr_Version g) (gr_Label g) (gr_Protocol g)
    (Some key) (Some hash) (gr_Audit g).
Definition touched (g : APIGroup) (actorID : string) (hash : option string) : APIGroup :=
  let a := gr_Audit g in
  gr_with_audit g (mkAudit (au_CreatedBy a) (Some actorID) (au_CreatedByCommitHash a) hash (au_CreatedAt a)
                     (au_UpdatedAt a) (au_DeletedAt a) (au_DeletedBy a)).
Definition with_commit (hash : option string) (e : APIEndpoint) : APIEndpoint :=
  let a := ep_Audit e in
  set_audit e (mkAudit (au_CreatedBy a) (au_UpdatedBy a) hash (au_UpdatedByCommitHash a) (au_CreatedAt a)
                 (au_UpdatedAt a) (au_DeletedAt a) (au_DeletedBy a)).
(** A row of a snapshot as a new row of the working copy. *)
Definition restored (id actorID : string) (now : Z) (e : APIEndpoint) : APIEndpoint :=
  let a := ep_Audit e in
  mkEndpoint id (ep_APIGroupID e) None (ep_ServiceID e) (ep_OrgID e) (ep_Content e)
    (mkAudit actorID None (au_CreatedByCommitHash a) (au_UpdatedByCommitHash a) now now (au_DeletedAt a)
       (au_DeletedBy a)).

Definition opt_str (s : string) : option string := if str_empty s then None else Some s.
Definition non_empty (o : option string) : option string := o ≫= opt_str.

Definition fail (e : go_err) : Reply := match e with Failed e => HttpError e | _ => panicked end.

Section Handlers.
Context `{Collation} `{Jsonb} `{UnicodeCase} `{UnicodeDigits} `{MapRange} `{SpecDecoder} `{GraphQLParser}
  `{ProtoParser} `{UuidGen} `{Sha256}.
(** [storage]: object storage is configured; [fuel]: the depth of recursion the stack allows. *)
Context (storage : bool) (fuel : nat).
#[local] Abbreviation W := (World ApiDB).

Definition specHash (s : string) : string := hex_encode (sha256 s).

Definition resolveSpec (spec : string) (specAssetID : option string) : Eff W (result go_err string) :=
  func (
    match specAssetID with
    | None => gret (Ok spec)
    | Some id =>
        return_if (negb storage) (Err Panicked) ;;;
        data <- try (failing (Download (AssetKey_ id))) (fun e => Err e) ;;
        gret (Ok data)
    end).

Definition replace_from (p : publishParams) (g : APIGroup) (now : Z) :
    Go W (result go_err (APIGroupVersion * APIGroup)) (list APIEndpoint) :=
  match pp_endpoints p with
  | Some eps => gret eps
  | None => try (parseSpecEndpointsForProtocol (gr_ID g) (pp_serviceID p) (gr_OrgID g) (pp_actorID p) now fuel
                   (pp_spec p) (gr_Protocol g)) (fun e => Err e)
  end.

(** The result is the version and the group as the call leaves it. *)
Definition publishAPIGroupVersion (p : publishParams) : Eff W (result go_err (APIGroupVersion * APIGroup)) :=
  func (
    let g := pp_group p in
    now <- call time_now ;;
    versionID <- try NewString (fun e => Err e) ;;
    let vKey := APIGroupVersionSpecKey (gr_OrgID g) (pp_serviceID p) (gr_ID g) versionID in
    let version hash := mkVersion versionID (gr_ID g) 0 (pp_label p) vKey hash (pp_isAuto p) (pp_actorID p)
                          (pp_commitHash p) now in
    inp <-
      (if negb (str_empty (pp_spec p)) then
         let hash := specHash (pp_spec p) in
         let wcKey := APIGroupSpecKey (gr_OrgID g) (pp_serviceID p) (gr_ID g) in
         return_if (negb storage) (Err Panicked) ;;;
         _ <- try (failing (Upload wcKey (pp_spec p))) (fun e => Err e) ;;
         _ <- try (failing (Upload vKey (pp_spec p))) (fun e => Err e) ;;
         eps <- replace_from p g now ;;
         gret (mkPublish (set_spec g wcKey hash) true eps (version hash) (pp_actorID p))
       else
         let no_spec := Err (Failed (ErrOther ("api group " +:+ gr_ID g +:+ " has no spec to version"))) in
         key <- non_nil (gr_SpecKey g) no_spec ;;
         hash <- non_nil (gr_SpecHash g) no_spec ;;
         return_if (negb storage) (Err Panicked) ;;;
         content <- try (failing (Download key)) (fun e => Err e) ;;
         _ <- try (failing (Upload vKey content)) (fun e => Err e) ;;
         gret (mkPublish g (found (pp_endpoints p)) (default [] (pp_endpoints p)) (version hash) (pp_actorID p))) ;;
    let eps := map (with_commit (pp_commitHash p)) (pi_NewEndpoints inp) in
    eps <- (if pi_ReplaceEndpoints inp then
              existing <- call (ListAPIEndpoints (gr_ID g) None) ;;
              gret match existing with Ok l => preserveEndpointSLAs l eps | Err _ => eps end
            else gret eps) ;;
    let inp := mkPublish (pi_Group inp) (pi_ReplaceEndpoints inp) eps (pi_Version inp) (pi_ActorID inp) in
    v <- try (failing (PublishAPIGroupVersion inp)) (fun e => Err e) ;;
    gret (Ok (v, set_version_label (pi_Group inp) (default "" (vr_Label v))))).

(** *** Groups *)

Definition ListAPIGroups_ (serviceID : string) (exact_name : option string) : Eff W Reply :=
  func (groups <- try (ListAPIGroups serviceID exact_name) HttpError ;; gret (JSON 200 (GroupList groups))).

(** The group of the path, unless deleted. *)
Definition live_group (apiGroupID : string) : Go W Reply APIGroup :=
  o <- try (GetAPIGroup apiGroupID) HttpError ;;
  g <- non_nil o (HttpError ErrNotFound) ;;
  return_if (negb (gr_live g)) (HttpError ErrNotFound) ;;;
  gret g.

Definition CreateAPIGroup_ (ctx : option Principal) (orgID serviceID : string) (req : option createGroupRequest) :
    Eff W Reply :=
  func (
    p <- non_nil ctx Unauthorized ;;
    body <- non_nil req (BadRequest "invalid request body") ;;
    return_if (str_empty (cg_Name body)) (BadRequest "name is required") ;;;
    let protocol := if str_empty (cg_Protocol body) then "REST" else cg_Protocol body in
    let label := opt_str (cg_Version body) in
    let version := default "v1" label in
    specContent <- try (resolveSpec (cg_Spec body) (cg_SpecAssetID body)) fail ;;
    id <- try NewString fail ;;
    now <- call time_now ;;
    let g := mkGroup id serviceID orgID (cg_Name body) version (cg_Label body) protocol None None
               (new_audit (p_UserID p) now) in
    _ <- try (CreateAPIGroup g) HttpError ;;
    if negb (str_empty specContent) && storage then
      vg <- try (publishAPIGroupVersion (mkPublishParams (touched g (p_UserID p) None) serviceID specContent None
                                           label true (p_UserID p) None)) fail ;;
      gret (JSON 201 (OneGroup vg.2))
    else gret (JSON 201 (OneGroup g))).

Definition GetAPIGroup_ (apiGroupID : string) : Eff W Reply :=
  func (g <- live_group apiGroupID ;; gret (JSON 200 (OneGroup g))).

Definition GetAPIGroupSpec (orgID serviceID apiGroupID versionID : string) : Eff W Reply :=
  func (
    g <- live_group apiGroupID ;;
    let key := if negb (str_empty versionID) then APIGroupVersionSpecKey orgID serviceID (gr_ID g) versionID
               else default "" (gr_SpecKey g) in
    return_if (str_empty key) (HttpError ErrNotFound) ;;;
    return_if (negb storage) panicked ;;;
    content <- try (Download key) HttpError ;;
    gret (JSON 200 (SpecContent (gr_ID g) (gr_Name g) content))).

Definition apply_group_request (b : updateGroupRequest) (g : APIGroup) : APIGroup :=
  mkGroup (gr_ID g) (gr_ServiceID g) (gr_OrgID g) (default (gr_Name g) (ug_Name b))
    (default (gr_Version g) (ug_Version b)) (match ug_Label b with Some l => Some l | None => gr_Label g end)
    (default (gr_Protocol g) (ug_Protocol b)) (gr_SpecKey g) (gr_SpecHash g) (gr_Audit g).

(** [g.SpecHash == nil || newHash != *g.SpecHash] *)
Definition spec_changed (g : APIGroup) (content : string) : bool :=
  negb (bool_decide (gr_SpecHash g = Some (specHash content))).

Definition UpdateAPIGroup_ (ctx : option Principal) (serviceID apiGroupID : string)
    (req : option updateGroupRequest) : Eff W Reply :=
  func (
    p <- non_nil ctx Unauthorized ;;
    g <- live_group apiGroupID ;;
    body <- non_nil req (BadRequest "invalid request body") ;;
    let g := touched (apply_group_request body g) (p_UserID p) None in
    specContent <-
      (if (found (ug_Spec body) || found (ug_SpecAssetID body)) && storage
       then try (resolveSpec (default "" (ug_Spec body)) (ug_SpecAssetID body)) fail
       else gret "") ;;
    if negb (str_empty specContent) && spec_changed g specContent then
      vg <- try (publishAPIGroupVersion (mkPublishParams g serviceID specContent None (non_empty (ug_Version body))
                                           true (p_UserID p) None)) fail ;;
      gret (JSON 200 (OneGroup vg.2))
    else
      _ <- try (UpdateAPIGroup g) HttpError ;;
      gret (JSON 200 (OneGroup g))).

Definition DeleteAPIGroup (ctx : option Principal) (apiGroupID : string) : Eff W Reply :=
  func (
    p <- non_nil ctx Unauthorized ;;
    _ <- try (SoftDeleteAPIGroup apiGroupID (p_UserID p)) HttpError ;;
    gret no_content).

Definition synced_group (body : syncGroupRequest) (protocol : string) (label : option string) (actorID : string)
    (g : APIGroup) : APIGroup :=
  touched (mkGroup (gr_ID g) (gr_ServiceID g) (gr_OrgID g) (sg_Name body) (default (gr_Version g) label)
             (gr_Label g) protocol (gr_SpecKey g) (gr_SpecHash g) (gr_Audit g)) actorID (sg_CommitHash body).

Definition SyncAPIGroup (ctx : option Principal) (orgID serviceID : string) (req : option syncGroupRequest) :
    Eff W Reply :=
  func (
    p <- non_nil ctx Unauthorized ;;
    body <- non_nil req (BadRequest "invalid request body") ;;
    return_if (str_empty (sg_Name body)) (BadRequest "name is required") ;;;
    let protocol := if str_empty (sg_Protocol body) then "REST" else sg_Protocol body in
    let label := opt_str (sg_Version body) in
    specContent <- try (resolveSpec (sg_Spec body) (sg_SpecAssetID body)) fail ;;
    match sg_APIGroupID body with
    | Some apiGroupID =>
        g <- live_group apiGroupID ;;
        return_if (negb (str_empty specContent) && negb (spec_changed g specContent))
          (JSON 200 (SyncResult (gr_ID g) false)) ;;;
        let g := synced_group body protocol label (p_UserID p) g in
        if negb (str_empty specContent) && storage then
          _ <- try (publishAPIGroupVersion (mkPublishParams g serviceID specContent None label true (p_UserID p)
                                              (sg_CommitHash body))) fail ;;
          gret (JSON 200 (SyncResult (gr_ID g) true))
        else
          _ <- try (UpdateAPIGroup g) HttpError ;;
          gret (JSON 200 (SyncResult (gr_ID g) false))
    | None =>
        id <- try NewString fail ;;
        now <- call time_now ;;
        let g := mkGroup id serviceID orgID (sg_Name body) (default "v1" label) None protocol None None
                   (mkAudit (p_UserID p) (Some (p_UserID p)) (sg_CommitHash body) None now now None None) in
        _ <- try (CreateAPIGroup g) HttpError ;;
        if negb (str_empty specContent) && storage then
          _ <- try (publishAPIGroupVersion (mkPublishParams g serviceID specContent None label true (p_UserID p)
                                              (sg_CommitHash body))) fail ;;
          gret (JSON 201 (SyncResult id true))
        else gret (JSON 201 (SyncResult id false))
    end).

(** *** Versions *)

Definition ListAPIGroupVersions_ (apiGroupID : string) : Eff W Reply :=
  func (versions <- try (ListAPIGroupVersions apiGroupID) HttpError ;; gret (JSON 200 (VersionList versions))).

(** A body that does not decode counts as empty. *)
Definition CreateAPIGroupVersion (ctx : option Principal) (serviceID apiGroupID : string) (body : versionRequest) :
    Eff W Reply :=
  func (
    p <- non_nil ctx Unauthorized ;;
    g <- live_group apiGroupID ;;
    specContent <- try (resolveSpec (vq_Spec body) (vq_SpecAssetID body)) fail ;;
    vg <- try (publishAPIGroupVersion (mkPublishParams (touched g (p_UserID p) None) serviceID specContent None
                                         (non_empty (vq_Label body)) false (p_UserID p) None)) fail ;;
    gret (JSON 201 (OneVersion vg.1))).

Definition RestoreAPIGroupVersion (ctx : option Principal) (serviceID apiGroupID versionID : string) : Eff W Reply :=
  func (
    p <- non_nil ctx Unauthorized ;;
    g <- live_group apiGroupID ;;
    o <- try (GetAPIGroupVersion versionID) HttpError ;;
    v <- non_nil o (HttpError ErrNotFound) ;;
    return_if (negb (String.eqb (vr_APIGroupID v) (gr_ID g))) (HttpError ErrNotFound) ;;;
    return_if (negb storage) panicked ;;;
    specContent <- try (Download (vr_SpecKey v)) HttpError ;;
    snapshot <- try (ListAPIEndpointsForVersion (gr_ID g) (vr_ID v) None) HttpError ;;
    now <- call time_now ;;
    working <- geach (fun e =>
        id <- try NewString fail ;;
        gret (restored id (p_UserID p) now e)) snapshot ;;
    vg <- try (publishAPIGroupVersion (mkPublishParams (touched g (p_UserID p) None) serviceID specContent
                                         (Some working) None true (p_UserID p) None)) fail ;;
    gret (JSON 200 (OneGroup vg.2))).

(** *** Endpoints *)

Definition ListAPIEndpoints_ (apiGroupID versionID : string) (exact : option string) : Eff W Reply :=
  func (
    endpoints <- try (if negb (str_empty versionID) then ListAPIEndpointsForVersion apiGroupID versionID exact
                      else ListAPIEndpoints apiGroupID exact) HttpError ;;
    gret (JSON 200 (EndpointList endpoints))).

Definition stored_json (o : option string) : option string := option_map normalizeStoredJSON o.
Definition stored_payloads (c : EndpointContent) : EndpointContent :=
  mkContent (ec_OperationID c) (ec_Method c) (ec_Path c) (ec_Summary c) (ec_Description c) (ec_Tags c)
    (ec_TokenCount c) (stored_json (ec_Parameters c)) (stored_json (ec_RequestBody c)) (stored_json (ec_Responses c))
    (stored_json (ec_ExampleRequests c)) (stored_json (ec_ExampleResponses c)) (ec_Order c) (ec_SLA c).

(** The body of the request has the fields of a content, without the token count. *)
Definition CreateAPIEndpoint_ (ctx : option Principal) (orgID serviceID apiGroupID : string)
    (req : option EndpointContent) : Eff W Reply :=
  func (
    p <- non_nil ctx Unauthorized ;;
    body <- non_nil req (BadRequest "invalid request body") ;;
    return_if (str_empty (ec_Method body) || str_empty (ec_Path body)) (BadRequest "method and path are required") ;;;
    now <- call time_now ;;
    id <- try NewString fail ;;
    let e := new_endpoint apiGroupID serviceID orgID (p_UserID p) now id (stored_payloads body) in
    _ <- try (CreateAPIEndpoint e) HttpError ;;
    gret (JSON 201 (OneEndpoint e))).

Definition live_endpoint (endpointID : string) : Go W Reply APIEndpoint :=
  o <- try (GetAPIEndpoint endpointID) HttpError ;;
  e <- non_nil o (HttpError ErrNotFound) ;;
  return_if (negb (ep_live e)) (HttpError ErrNotFound) ;;;
  gret e.

Definition GetAPIEndpoint_ (endpointID : string) : Eff W Reply :=
  func (e <- live_endpoint endpointID ;; gret (JSON 200 (OneEndpoint e))).

Definition GetAPIEndpointByID (orgID endpointID : string) : Eff W Reply :=
  func (
    e <- live_endpoint endpointID ;;
    return_if (negb (String.eqb (ep_OrgID e) orgID)) (HttpError ErrNotFound) ;;;
    gret (JSON 200 (OneEndpoint e))).

Definition apply_endpoint_request (b : updateEndpointRequest) (c : EndpointContent) : EndpointContent :=
  let json (new old : option string) := match new with Some raw => Some (normalizeStoredJSON raw) | None => old end in
  mkContent (default (ec_OperationID c) (ue_OperationID b)) (default (ec_Method c) (ue_Method b))
    (default (ec_Path c) (ue_Path b)) (default (ec_Summary c) (ue_Summary b))
    (default (ec_Description c) (ue_Description b)) (default (ec_Tags c) (ue_Tags b)) (ec_TokenCount c)
    (json (ue_Parameters b) (ec_Parameters c)) (json (ue_RequestBody b) (ec_RequestBody c))
    (json (ue_Responses b) (ec_Responses c)) (json (ue_ExampleRequests b) (ec_ExampleRequests c))
    (json (ue_ExampleResponses b) (ec_ExampleResponses c)) (default (ec_Order c) (ue_Order b))
    (match ue_SLA b with Some s => Some s | None => ec_SLA c end).

Definition edited_by (actorID : string) (a : Audit) : Audit :=
  mkAudit (au_CreatedBy a) (Some actorID) (au_CreatedByCommitHash a) None (au_CreatedAt a) (au_UpdatedAt a)
    (au_DeletedAt a) (au_DeletedBy a).

Definition UpdateAPIEndpoint_ (ctx : option Principal) (endpointID : string) (req : option updateEndpointRequest) :
    Eff W Reply :=
  func (
    p <- non_nil ctx Unauthorized ;;
    e <- live_endpoint endpointID ;;
    body <- non_nil req (BadRequest "invalid request body") ;;
    let e := set_audit (set_content e (apply_endpoint_request body (ep_Content e)))
               (edited_by (p_UserID p) (ep_Audit e)) in
    _ <- try (UpdateAPIEndpoint e) HttpError ;;
    gret (JSON 200 (OneEndpoint e))).

Definition DeleteAPIEndpoint (ctx : option Principal) (endpointID : string) : Eff W Reply :=
  func (
    p <- non_nil ctx Unauthorized ;;
    _ <- try (SoftDeleteAPIEndpoint endpointID (p_UserID p)) HttpError ;;
    gret no_content).

(** *** The routes that can change something *)

Inductive api_request : Type :=
| RCreateGroup (orgID serviceID : string) (req : option createGroupRequest)
| RUpdateGroup (serviceID apiGroupID : string) (req : option updateGroupRequest)
| RDeleteGroup (apiGroupID : string)
| RSyncGroup (orgID serviceID : string) (req : option syncGroupRequest)
| RCreateVersion (serviceID apiGroupID : string) (req : versionRequest)
| RRestoreVersion (serviceID apiGroupID versionID : string)
| RCreateEndpoint (orgID serviceID apiGroupID : string) (req : option EndpointContent)
| RUpdateEndpoint (endpointID : string) (req : option updateEndpointRequest)
| RDeleteEndpoint (endpointID : string).

Definition serve (ctx : option Principal) (rq : api_request) : Eff W Reply :=
  match rq with
  | RCreateGroup o s r => CreateAPIGroup_ ctx o s r
  | RUpdateGroup s g r => UpdateAPIGroup_ ctx s g r
  | RDeleteGroup g => DeleteAPIGroup ctx g
  | RSyncGroup o s r => SyncAPIGroup ctx o s r
  | RCreateVersion s g r => CreateAPIGroupVersion ctx s g r
  | RRestoreVersion s g v => RestoreAPIGroupVersion ctx s g v
  | RCreateEndpoint o s g r => CreateAPIEndpoint_ ctx o s g r
  | RUpdateEndpoint e r => UpdateAPIEndpoint_ ctx e r
  | RDeleteEndpoint e => DeleteAPIEndpoint ctx e
  end.
End Handlers.
