(* ===== verification/Crypto.v ===== *)
(** * Crypto: base64 and the cipher for stored secrets

    Models [internal/crypto/aesgcm.go]: the cipher that keeps provider secrets
    and private keys in the database, over the base64 of [encoding/base64].
    AES-GCM is an argument, of which only the law that [Open] undoes [Seal] is
    assumed.  [generateTemporaryPassword] of [api/auth/user.go] is here for its
    encoding. *)

From S2P Require Import Prelude GoStrings Effects Identity.

(** ** base64 *)

Section Base64.
Local Open Scope N_scope.

(** The alphabets of [StdEncoding] and, with [url], of [URLEncoding]. *)
Definition b64_char (url : bool) (n : N) : ascii :=
  ascii_of_N
    (if n <? 26 then 65 + n else if n <? 52 then 71 + n else if n <? 62 then n - 4
     else if n =? 62 then (if url then 45 else 43) else (if url then 95 else 47)).
Definition b64_value (url : bool) (a : ascii) : option N :=
  let n := N_of_ascii a in
  if (65 <=? n) && (n <=? 90) then Some (n - 65)
  else if (97 <=? n) && (n <=? 122) then Some (n - 71)
  else if (48 <=? n) && (n <=? 57) then Some (n + 4)
  else if n =? (if url then 45 else 43) then Some 62
  else if n =? (if url then 95 else 47) then Some 63
  else None.

Definition pad_char : ascii := "=".
Definition text (cs : list ascii) : string := string_of_list_ascii cs.

Fixpoint b64_encode (url pad : bool) (bs : list N) : string :=
  let ch := b64_char url in
  match bs with
  | [] => EmptyString
  | [a] => text ([ch (a / 4); ch (a mod 4 * 16)] ++ if pad then [pad_char; pad_char] else [])
  | [a; b] =>
      text ([ch (a / 4); ch (a mod 4 * 16 + b / 16); ch (b mod 16 * 4)]
            ++ if pad then [pad_char] else [])
  | a :: b :: c :: bs =>
      String (ch (a / 4)) (String (ch (a mod 4 * 16 + b / 16))
        (String (ch (b mod 16 * 4 + c / 64)) (String (ch (c mod 64)) (b64_encode url pad bs))))
  end.

(** Quanta of four characters; padding ends the input. *)
Fixpoint b64_quanta (s : string) : option (list N) :=
  match s with
  | EmptyString => Some []
  | String a (String b (String c (String d r))) =>
      match b64_value false a, b64_value false b with
      | Some x, Some y =>
          let first := x * 4 + y / 16 in
          if Ascii.eqb c pad_char && Ascii.eqb d pad_char
          then (if str_empty r then Some [first] else None)
          else match b64_value false c with
               | None => None
               | Some z =>
                   let second := y mod 16 * 16 + z / 4 in
                   if Ascii.eqb d pad_char
                   then (if str_empty r then Some [first; second] else None)
                   else match b64_value false d, b64_quanta r with
                        | Some v, Some l => Some (first :: second :: z mod 4 * 64 + v :: l)
                        | _, _ => None
                        end
               end
      | _, _ => None
      end
  | _ => None
  end.

Fixpoint without_newlines (s : string) : string :=
  match s with
  | EmptyString => EmptyString
  | String a s =>
      let n := N_of_ascii a in
      if (n =? 10) || (n =? 13) then without_newlines s else String a (without_newlines s)
  end.

(** [base64.StdEncoding.EncodeToString], [DecodeString], and [RawURLEncoding]. *)
Definition StdEncode (bs : list N) : string := b64_encode false true bs.
Definition StdDecode (s : string) : option (list N) := b64_quanta (without_newlines s).
Definition RawURLEncode (bs : list N) : string := b64_encode true false bs.

Lemma small_bytes (p : N -> bool) k :
  forallb p (map N.of_nat (seq 0 k)) = true -> forall n, n < N.of_nat k -> p n = true.
Proof.
  intros H n Hn. rewrite List.forallb_forall in H. apply H, in_map_iff.
  exists (N.to_nat n). split; [apply N2Nat.id|]. apply in_seq. lia.
Qed.

Lemma b64_value_char n : n < 64 -> b64_value false (b64_char false n) = Some n.
Proof.
  intros Hn.
  pose proof (small_bytes (fun n => match b64_value false (b64_char false n) with
    Some m => N.eqb m n | None => false end) 64 eq_refl n Hn) as H.
  cbn beta in H. destruct (b64_value _ _) as [m|]; [|done]. by apply N.eqb_eq in H as ->.
Qed.

Lemma b64_char_props n :
  n < 64 -> Ascii.eqb (b64_char false n) pad_char = false /\
            (N_of_ascii (b64_char false n) =? 10) || (N_of_ascii (b64_char false n) =? 13) = false.
Proof.
  intros Hn. rewrite <-!negb_true_iff, <-andb_true_iff.
  apply (small_bytes (fun n => negb (Ascii.eqb (b64_char false n) pad_char) &&
    negb ((N_of_ascii (b64_char false n) =? 10) || (N_of_ascii (b64_char false n) =? 13))) 64); [|done].
  vm_compute. reflexivity.
Qed.

Lemma without_newlines_cons a s :
  (N_of_ascii a =? 10) || (N_of_ascii a =? 13) = false ->
  without_newlines (String a s) = String a (without_newlines s).
Proof. intros Ha. cbn. by rewrite Ha. Qed.

(** Three bytes at a time. *)
Lemma bytes_ind3 (P : list N -> Prop) :
  P [] -> (forall a, P [a]) -> (forall a b, P [a; b]) ->
  (forall a b c l, P l -> P (a :: b :: c :: l)) -> forall l, P l.
Proof.
  intros H0 H1 H2 H3. fix IH 1. intros [|a [|b [|c l]]]; [done|apply H1|apply H2|]. apply H3, IH.
Qed.

#[local] Ltac Zify.zify_post_hook ::= Z.to_euclidean_division_equations.

Lemma StdDecode_StdEncode bs : Forall (fun b => b < 256) bs -> StdDecode (StdEncode bs) = Some bs.
Proof.
  unfold StdDecode, StdEncode.
  induction bs as [|a|a b|a b c l IH] using bytes_ind3; intros Hb; [done|..];
    repeat match goal with H : Forall _ (_ :: _) |- _ => inversion_clear H end.
  - assert (a / 4 < 64 /\ a mod 4 * 16 < 64) as [Hx Hy] by lia.
    pose proof (b64_char_props _ Hx) as [Px Nx]. pose proof (b64_char_props _ Hy) as [Py Ny].
    cbn [b64_encode text string_of_list_ascii app]. rewrite !without_newlines_cons by done.
    cbn [without_newlines b64_quanta]. rewrite !b64_value_char by done. cbn. repeat f_equal. lia.
  - assert (a / 4 < 64 /\ a mod 4 * 16 + b / 16 < 64 /\ b mod 16 * 4 < 64) as (Hx & Hy & Hz) by lia.
    pose proof (b64_char_props _ Hx) as [Px Nx]. pose proof (b64_char_props _ Hy) as [Py Ny].
    pose proof (b64_char_props _ Hz) as [Pz Nz].
    cbn [b64_encode text string_of_list_ascii app]. rewrite !without_newlines_cons by done.
    cbn [without_newlines b64_quanta]. rewrite !b64_value_char, Pz by done. cbn. repeat f_equal; lia.
  - assert (a / 4 < 64 /\ a mod 4 * 16 + b / 16 < 64 /\ b mod 16 * 4 + c / 64 < 64 /\ c mod 64 < 64)
      as (Hx & Hy & Hz & Hv) by lia.
    pose proof (b64_char_props _ Hx) as [Px Nx]. pose proof (b64_char_props _ Hy) as [Py Ny].
    pose proof (b64_char_props _ Hz) as [Pz Nz]. pose proof (b64_char_props _ Hv) as [Pv Nv].
    cbn [b64_encode]. rewrite !without_newlines_cons by done. cbn [b64_quanta].
    rewrite !b64_value_char, Pz, Pv, IH by done. cbn. repeat f_equal; lia.
Qed.
End Base64.

(** ** Bytes of a string *)

Definition of_bytes (bs : list N) : string := string_of_list_ascii (map ascii_of_N bs).

Lemma of_bytes_of s : of_bytes (bytes_of s) = s.
Proof.
  unfold of_bytes. induction s as [|a s IH]; [done|]. cbn. by rewrite ascii_N_embedding, IH.
Qed.

Lemma bytes_of_range s : Forall (fun b => (b < 256)%N) (bytes_of s).
Proof. induction s as [|a s IH]; constructor; [apply N_ascii_bounded|done]. Qed.

(** ** AES-256-GCM *)

(** [aead.Seal] and [aead.Open] of [cipher.NewGCM(aes.NewCipher(key))], without
    additional data: sealing bytes yields bytes that open to them again. *)
Class Aead := {
  gcm_seal : list N -> list N -> list N -> list N;
  gcm_open : list N -> list N -> list N -> option (list N);
  gcm_seal_bytes key nonce p :
    Forall (fun b => (b < 256)%N) p -> Forall (fun b => (b < 256)%N) (gcm_seal key nonce p);
  gcm_open_seal key nonce p :
    length key = 32 -> length nonce = 12 -> Forall (fun b => (b < 256)%N) p ->
    gcm_open key nonce (gcm_seal key nonce p) = Some p
}.
Definition NonceSize : nat := 12.

(** [type Cipher struct { aead cipher.AEAD }]: the key the AEAD was made with. *)
Record Cipher := mkCipher { ci_key : list N }.

Section Cipher.
Context `{Sha256} `{Aead}.

(** A key of 32 bytes is one AES accepts. *)
Definition NewCipher (secret : string) : result string Cipher :=
  if str_empty secret then Err "crypto: secret key is empty" else Ok (mkCipher (sha256 secret)).

Definition Encrypt {DB} (c : Cipher) (plaintext : string) : Eff (World DB) (result store_err string) :=
  func (
    nonce <- try (rand_read NonceSize) Err ;;
    let sealed := nonce ++ gcm_seal (ci_key c) nonce (bytes_of plaintext) in
    gret (Ok (StdEncode sealed))).

Definition Decrypt (c : Cipher) (encoded : string) : result string string :=
  match StdDecode encoded with
  | None => Err "crypto: decode"
  | Some raw =>
      if length raw <? NonceSize then Err "crypto: ciphertext too short"
      else match gcm_open (ci_key c) (take NonceSize raw) (drop NonceSize raw) with
           | None => Err "crypto: decrypt"
           | Some plaintext => Ok (of_bytes plaintext)
           end
  end.

(** A cipher [NewCipher] made; entropy is bytes. *)
Definition made_cipher (c : Cipher) : Prop := exists secret, NewCipher secret = Ok c.
Definition byte_entropy {DB} (w : World DB) : Prop := Forall (fun b => (b < 256)%N) (w_entropy w).

Lemma Encrypt_db {DB} c plaintext (w : World DB) : w_db (Encrypt c plaintext w).2 = w_db w.
Proof.
  unfold Encrypt, func, gbind, try, call. cbn. pose proof (rand_read_db NonceSize w) as Hd.
  unfold gbind, call. destruct (rand_read NonceSize w) as [[n|e] w1]; exact Hd.
Qed.

Lemma rand_read_bytes {DB} n (w : World DB) :
  byte_entropy w -> byte_entropy (rand_read n w).2 /\
  forall b, (rand_read n w).1 = Ok b -> length b = n /\ Forall (fun b => (b < 256)%N) b.
Proof.
  unfold byte_entropy, rand_read. intros Hw. destruct (n <=? length (w_entropy w)) eqn:E; cbn.
  - apply Nat.leb_le in E. split; [by apply Forall_drop|]. intros b [= <-].
    split; [by apply length_take_le|by apply Forall_take].
  - by split.
Qed.

(** What [Encrypt] returns opens to the plaintext. *)
Lemma Encrypt_spec {DB} c plaintext (w : World DB) :
  made_cipher c -> byte_entropy w ->
  byte_entropy (Encrypt c plaintext w).2 /\
  forall enc, (Encrypt c plaintext w).1 = Ok enc -> Decrypt c enc = Ok plaintext.
Proof.
  intros [secret Hc] Hw. destruct (rand_read_bytes NonceSize w Hw) as [Hw' Hb].
  unfold Encrypt, func, try, gbind, call.
  destruct (rand_read NonceSize w) as [[nonce|e] w1]; cbn in *; [|by split].
  split; [done|]. intros enc [= <-]. destruct (Hb nonce eq_refl) as [Hl Hn].
  unfold Decrypt. rewrite StdDecode_StdEncode
    by (apply Forall_app; split; [done|apply gcm_seal_bytes, bytes_of_range]).
  assert ((length (nonce ++ gcm_seal (ci_key c) nonce (bytes_of plaintext)) <? NonceSize) = false) as ->.
  { apply Nat.ltb_ge. rewrite length_app. lia. }
  rewrite take_app_length' by done. rewrite drop_app_length' by done.
  unfold NewCipher in Hc. destruct (str_empty secret); [done|]. injection Hc as <-.
  rewrite gcm_open_seal by (done || apply sha256_length || apply bytes_of_range).
  by rewrite of_bytes_of.
Qed.

(** (lemma) Secrets survive storage: whatever a cipher encrypts, with whatever nonce,
    it decrypts to the same text.  Encryption fails only without entropy, a
    cipher is refused only for an empty secret, and a text that is not base64
    or too short for a nonce is an error, never a wrong plaintext. *)
Theorem Encrypt_Decrypt {DB} secret plaintext (w : World DB) :
  byte_entropy w ->
  match NewCipher secret with
  | Err _ => secret = EmptyString
  | Ok c =>
      (forall enc, (Encrypt c plaintext w).1 = Ok enc -> Decrypt c enc = Ok plaintext) /\
      ((exists e, (Encrypt c plaintext w).1 = Err e) <-> length (w_entropy w) < NonceSize) /\
      (forall s, StdDecode s = None -> Decrypt c s = Err "crypto: decode") /\
      (forall bs, Forall (fun b => (b < 256)%N) bs -> length bs < NonceSize ->
         Decrypt c (StdEncode bs) = Err "crypto: ciphertext too short")
  end.
Proof.
  intros Hw. destruct (NewCipher secret) as [c|e] eqn:Hc.
  - split_and!.
    + apply Encrypt_spec; [by exists secret|done].
    + unfold Encrypt, func, try, gbind, call, rand_read.
      destruct (NonceSize <=? length (w_entropy w)) eqn:E; cbn.
      * apply Nat.leb_le in E. split; [by intros [? ?]|lia].
      * apply Nat.leb_gt in E. split; [done|]. intros _. by eexists.
    + intros s Hs. unfold Decrypt. by rewrite Hs.
    + intros bs Hb Hl. unfold Decrypt. rewrite StdDecode_StdEncode by done.
      by rewrite (proj2 (Nat.ltb_lt _ _) Hl).
  - unfold NewCipher in Hc. by destruct secret.
Qed.

(** [generateTemporaryPassword]: 18 bytes, 24 characters. *)
Definition generateTemporaryPassword {DB} : Eff (World DB) (result store_err string) :=
  func (b <- try (rand_read 18) Err ;; gret (Ok (RawURLEncode b))).
End Cipher.

(** A toy cipher, to evaluate the model with. *)
Module CryptoDemo.
Local Open Scope N_scope.
#[local] Ltac Zify.zify_post_hook ::= Z.to_euclidean_division_equations.
#[export] Instance toy_aead : Aead.
Proof.
  refine {| gcm_seal _ _ p := map (fun b => (b + 90) mod 256) p;
            gcm_open _ _ p := Some (map (fun b => (b + 166) mod 256) p) |}.
  - intros _ _ p _. apply Forall_map, Forall_true. intros b. cbn. lia.
  - intros _ _ p _ _ Hp. f_equal. rewrite map_map. rewrite <-(map_id p) at 2.
    apply map_ext_in. intros b Hb. rewrite Forall_forall in Hp.
    apply list_elem_of_In in Hb. specialize (Hp b Hb). cbn. lia.
Defined.

#[export] Instance toy_sha : Sha256.
Proof.
  refine {| sha256 s := replicate 32 (N.of_nat (String.length s) mod 256) |}.
  - intros s. apply length_replicate.
  - intros s. apply Forall_replicate. lia.
Defined.

Definition noise : World unit := mkWorld tt [] 0 [] (map N.of_nat (seq 0 40)).

Lemma Encrypt_Decrypt_witness :
  byte_entropy noise /\
  match NewCipher "hunter2" with
  | Err _ => False
  | Ok c => exists enc, (Encrypt c "s3cret" noise).1 = Ok enc /\ enc <> "s3cret" /\
                        Decrypt c enc = Ok "s3cret"
  end.
Proof.
  assert (byte_entropy noise) as Hn by (vm_compute; repeat constructor).
  split; [exact Hn|]. pose proof (Encrypt_Decrypt "hunter2" "s3cret" noise Hn) as H.
  cbn [NewCipher str_empty] in H |- *. destruct H as [Hrt _].
  exists "AAECAwQFBgcICQoLzY29zL/O"%string. split; [vm_compute; reflexivity|].
  split; [done|]. apply Hrt. vm_compute. reflexivity.
Defined.
End CryptoDemo.
