(* ===== verification/ApiHistory.v ===== *)
(** * ApiHistory: what the operations on API groups preserve

    The statements of ApiGroups as steps on the tables; the invariant of the
    tables; the history of versions and snapshots; what publishing and restoring
    a version achieve. *)

From S2P Require Import Prelude GoStrings Effects Json GraphQL Grpc Table Authz Identity OpenAPI ApiSpec ApiGroups.
From Stdlib Require Import QArith.
Set Warnings "-register-all,-clear-no-such-hyp".
#[local] Open Scope nat_scope.
#[local] Open Scope string_scope.

(** ** The invariant *)

Section Invariant.
Context `{Collation} `{Jsonb}.

(** A content as the columns hold it. *)
Definition content_ok (c : EndpointContent) : Prop := stored_content c = Some c.

Record api_ok (d : ApiDB) : Prop := mkApiOk {
  ok_groups : forall k g, a_groups d !! k = Some g -> gr_ID g = k;
  ok_versions : forall k v, a_versions d !! k = Some v ->
    vr_ID v = k /\ is_Some (a_groups d !! vr_APIGroupID v) /\ (vr_VersionNumber v <= max_int4)%Z;
  ok_numbers : forall k k' v v', a_versions d !! k = Some v -> a_versions d !! k' = Some v' ->
    vr_APIGroupID v = vr_APIGroupID v' -> vr_VersionNumber v = vr_VersionNumber v' -> k = k';
  ok_endpoints : forall k e, a_endpoints d !! k = Some e ->
    ep_ID e = k /\ is_Some (a_groups d !! ep_APIGroupID e) /\ content_ok (ep_Content e);
  ok_snapshots : forall k e v, a_endpoints d !! k = Some e -> ep_APIGroupVersionID e = Some v ->
    exists r, a_versions d !! v = Some r /\ vr_APIGroupID r = ep_APIGroupID e;
  ok_routes : forall k k' e e', a_endpoints d !! k = Some e -> a_endpoints d !! k' = Some e' ->
    working (ep_APIGroupID e) e = true -> same_route e e' = true -> k = k'
}.

Lemma stored_content_ok c c' : stored_content c = Some c' -> content_ok c'.
Proof.
  unfold content_ok, stored_content. intros Hc.
  destruct (ec_Parameters c ≫= jsonb) as [p|] eqn:E1; [|done]. cbn in Hc.
  destruct (ec_RequestBody c ≫= jsonb) as [b|] eqn:E2; [|done]. cbn in Hc.
  destruct (ec_Responses c ≫= jsonb) as [r|] eqn:E3; [|done]. cbn in Hc.
  destruct (ec_ExampleRequests c ≫= jsonb) as [xq|] eqn:E4; [|done]. cbn in Hc.
  destruct (ec_ExampleResponses c ≫= jsonb) as [xr|] eqn:E5; [|done]. cbn in Hc.
  injection Hc as <-. cbn.
  destruct (ec_Parameters c), (ec_RequestBody c), (ec_Responses c), (ec_ExampleRequests c),
    (ec_ExampleResponses c); try done. cbn in *.
  by rewrite (jsonb_idem _ _ E1), (jsonb_idem _ _ E2), (jsonb_idem _ _ E3), (jsonb_idem _ _ E4), (jsonb_idem _ _ E5).
Qed.

(** The content of a row is already what an INSERT makes of it. *)
Lemma or_default_ok c : content_ok c -> or_default c = c.
Proof.
  unfold content_ok, stored_content. intros Hc. destruct c as [? ? ? ? ? ? ? p b r xq xr ? ?]. cbn in *.
  destruct p as [p|]; [|done]. cbn in Hc. destruct (jsonb p); [|done]. cbn in Hc.
  destruct b as [b|]; [|done]. cbn in Hc. destruct (jsonb b); [|done]. cbn in Hc.
  destruct r as [r|]; [|done]. cbn in Hc. destruct (jsonb r); [|done]. cbn in Hc.
  destruct xq as [xq|]; [|done]. cbn in Hc. destruct (jsonb xq); [|done]. cbn in Hc.
  by destruct xr as [xr|].
Qed.

Lemma same_route_working e x : same_route e x = true -> working (ep_APIGroupID e) x = true.
Proof. unfold same_route. intros Hs. by bool_to_prop. Qed.

Lemma working_split gid e :
  working gid e = true <-> ep_APIGroupID e = gid /\ ep_APIGroupVersionID e = None /\ ep_live e = true.
Proof. unfold working. rewrite !andb_true_iff, String.eqb_eq, negb_true_iff, found_false. tauto. Qed.

(** *** Statements *)

Lemma ok_set_groups d t :
  api_ok d -> (forall k g, t !! k = Some g -> gr_ID g = k) ->
  (forall k, is_Some (a_groups d !! k) -> is_Some (t !! k)) -> api_ok (set_groups d t).
Proof.
  intros [Hg Hv Hn He Hs Hr] Hk Hd. split; cbn; [done| |done| |done|done].
  - intros k v Hkv. destruct (Hv k v Hkv) as (? & ? & ?). auto.
  - intros k e Hke. destruct (He k e Hke) as (? & ? & ?). auto.
Qed.

Lemma ok_set_blobs d t : api_ok d -> api_ok (set_blobs d t).
Proof. by intros []. Qed.

Lemma insert_group_ok now g d : api_ok d -> api_ok (insert_group now g d).2.
Proof.
  intros Hd. unfold insert_group. destruct (_ || _); [done|]. apply ok_set_groups; [done| |].
  - intros k x [[<- <-]|[_ Hx]]%lookup_insert_Some; [done|]. by eapply ok_groups.
  - intros k [x Hx]. destruct (decide (gr_ID g = k)) as [<-|Hne];
      [rewrite lookup_insert_eq|rewrite lookup_insert_ne by done]; eauto.
Qed.

Lemma update_group_ok now g d : api_ok d -> api_ok (update_group now g d).2.
Proof.
  intros Hd. unfold update_group. destruct (a_groups d !! gr_ID g) as [old|] eqn:Eo; [|done].
  destruct (negb (gr_live old)); [done|]. destruct (negb _); [done|]. apply ok_set_groups; [done| |].
  - intros k x [[<- <-]|[_ Hx]]%lookup_insert_Some; [cbn; by eapply ok_groups|]. by eapply ok_groups.
  - intros k [x Hx]. destruct (decide (gr_ID g = k)) as [<-|Hne];
      [rewrite lookup_insert_eq|rewrite lookup_insert_ne by done]; eauto.
Qed.

Lemma update_groups_ok p f d :
  (forall g, gr_ID (f g) = gr_ID g) -> api_ok d -> api_ok (set_groups d (update_where p f (a_groups d))).
Proof.
  intros Hf Hd. apply ok_set_groups; [done| |].
  - intros k x. rewrite lookup_update_where. destruct (a_groups d !! k) as [g|] eqn:E; cbn; [|done].
    intros [= <-]. rewrite <-(ok_groups d Hd k g E). by destruct (p g); rewrite ?Hf.
  - intros k [x Hx]. rewrite lookup_update_where, Hx. by eexists.
Qed.

Lemma insert_version_ok v d : api_ok d -> api_ok (insert_version v d).2.
Proof.
  intros [Hg Hv Hn He Hs Hr]. unfold insert_version. destruct (_ || _) eqn:E; [done|].
  rewrite !orb_false_iff in E. destruct E as [[[E1 E2] E3] E4].
  apply negb_false_iff, found_true in E2. rewrite exists_row_false in E3. apply Z.ltb_ge in E4.
  apply found_false in E1.
  assert (forall k x, a_versions d !! k = Some x -> vr_APIGroupID x = vr_APIGroupID v ->
            vr_VersionNumber x = vr_VersionNumber v -> False) as Hfree.
  { intros k x Hx Hgx Hnx. specialize (E3 k x Hx). unfold of_group in E3.
    by rewrite Hgx, Hnx, String.eqb_refl, Z.eqb_refl in E3. }
  split; cbn; try done.
  - intros k x [[<- <-]|[_ Hx]]%lookup_insert_Some; [|by apply Hv]. split_and!; [done| |done].
    destruct E2 as [y Hy]. by exists y.
  - intros k k' x x' [[<- <-]|[_ Hx]]%lookup_insert_Some [[<- <-]|[_ Hx']]%lookup_insert_Some Hgx Hnx; [done| | |].
    + by destruct (Hfree k' x').
    + by destruct (Hfree k x).
    + by apply (Hn k k' x x').
  - intros k e w Hke Hw. destruct (Hs k e w Hke Hw) as (r & Hrw & Hrg). exists r. split; [|done].
    rewrite lookup_insert_ne; [done|]. intros <-. congruence.
Qed.

(** Rows that keep id, group, version and content, and do not come back to life. *)
Lemma ok_shrink d t :
  api_ok d ->
  (forall k e', t !! k = Some e' -> exists e, a_endpoints d !! k = Some e /\ ep_ID e' = ep_ID e /\
     ep_APIGroupID e' = ep_APIGroupID e /\ ep_APIGroupVersionID e' = ep_APIGroupVersionID e /\
     ep_Content e' = ep_Content e /\ (ep_live e' = true -> ep_live e = true)) ->
  api_ok (set_endpoints d t).
Proof.
  intros [Hg Hv Hn He Hs Hr] Ht. split; cbn; [done..| | |].
  - intros k e' Hk. destruct (Ht k e' Hk) as (e & Hke & -> & -> & _ & -> & _). apply (He k e Hke).
  - intros k e' v Hk. destruct (Ht k e' Hk) as (e & Hke & _ & -> & -> & _). apply (Hs k e v Hke).
  - intros k k' e1 e2 H1 H2.
    destruct (Ht k e1 H1) as (x1 & Hx1 & _ & G1 & V1 & C1 & L1), (Ht k' e2 H2) as (x2 & Hx2 & _ & G2 & V2 & C2 & L2).
    unfold same_route. rewrite !working_split, !andb_true_iff, working_split, G1, V1, C1, G2, V2, C2.
    intros (_ & Hv1 & Hl1) [[(Hg2 & Hv2 & Hl2) Hm] Hp]. apply (Hr k k' x1 x2); [done..| |].
    + rewrite working_split. auto.
    + unfold same_route. rewrite !andb_true_iff, working_split. split_and!; auto.
Qed.

Lemma delete_endpoints_ok p by_ now d : api_ok d -> api_ok (delete_endpoints p by_ now d).
Proof.
  intros Hd. apply ok_shrink; [done|]. intros k e'. rewrite lookup_update_where.
  destruct (a_endpoints d !! k) as [e|] eqn:E; cbn; [|done]. intros [= <-]. exists e.
  destruct (p e); cbn; split_and!; try done.
Qed.

(** A row is added: sound, of an existing version of its group, and not in the way of another. *)
Lemma ok_add d e :
  api_ok d -> a_endpoints d !! ep_ID e = None -> is_Some (a_groups d !! ep_APIGroupID e) ->
  content_ok (ep_Content e) ->
  (forall v, ep_APIGroupVersionID e = Some v ->
     exists r, a_versions d !! v = Some r /\ vr_APIGroupID r = ep_APIGroupID e) ->
  (ep_APIGroupVersionID e = None -> exists_row (same_route e) (a_endpoints d) = false) ->
  api_ok (set_endpoints d (<[ep_ID e := e]> (a_endpoints d))).
Proof.
  intros [Hg Hv Hn He Hs Hr] Hfree Hgr Hc Hver Hro. split; cbn; [done..| | |].
  - intros k x [[<- <-]|[_ Hx]]%lookup_insert_Some; [done|]. exact (He k x Hx).
  - intros k x v [[<- <-]|[_ Hx]]%lookup_insert_Some; [by apply Hver|]. exact (Hs k x v Hx).
  - assert (forall k x, a_endpoints d !! k = Some x -> working (ep_APIGroupID e) e = true ->
              same_route e x = true -> False) as Hno.
    { intros k x Hx Hw Hsr. apply working_split in Hw as (_ & Hv0 & _). specialize (Hro Hv0).
      rewrite exists_row_false in Hro. by rewrite (Hro k x Hx) in Hsr. }
    intros k k' x x' [[<- <-]|[_ Hx]]%lookup_insert_Some [[<- <-]|[_ Hx']]%lookup_insert_Some Hw Hsr; [done| | |].
    + by destruct (Hno k' x').
    + exfalso. revert Hw Hsr. unfold same_route. rewrite !andb_true_iff, !working_split, !String.eqb_eq.
      intros (_ & Hv1 & Hl1) [[(Hg2 & Hv2 & Hl2) Hm] Hp]. apply (Hno k x Hx).
      * by rewrite working_split.
      * unfold same_route. rewrite !andb_true_iff, working_split, !String.eqb_eq. split_and!; auto.
    + by apply (Hr k k' x x').
Qed.

Lemma insert_endpoint_ok now e d d' :
  api_ok d -> ep_APIGroupVersionID e = None -> insert_endpoint now e d = Ok d' -> api_ok d'.
Proof.
  intros Hd Hv. unfold insert_endpoint. destruct (stored_content _) as [c|] eqn:Ec; [|done].
  destruct (_ || _) eqn:E; [done|]. intros [= <-]. rewrite !orb_false_iff in E. destruct E as [[E1 E2] E3].
  apply found_false in E1. apply negb_false_iff in E2. unfold endpoint_fks in E2. bool_to_prop.
  apply (ok_add d (set_audit (set_content e c) _)); cbn; try done.
  - by destruct (a_groups d !! ep_APIGroupID e).
  - by eapply stored_content_ok.
  - intros v Hv'. by rewrite Hv in Hv'.
  - intros _. by rewrite Hv in E3.
Qed.

Lemma update_endpoint_ok now e d d' : api_ok d -> update_endpoint now e d = Ok d' -> api_ok d'.
Proof.
  intros Hd. unfold update_endpoint. destruct (a_endpoints d !! ep_ID e) as [old|] eqn:Eo; [|by intros [= <-]].
  destruct (negb (ep_live old)) eqn:El; [by intros [= <-]|]. apply negb_false_iff in El.
  destruct (stored_content (ep_Content e)) as [c|] eqn:Ec; [|done].
  set (row := set_audit _ _). destruct (negb _ && _) eqn:E; [done|]. intros [= <-].
  destruct Hd as [Hg Hv Hn He Hs Hr]. pose proof (He _ _ Eo) as (Hid & Hgr & _).
  assert (ep_APIGroupVersionID old = None -> forall k x, k <> ep_ID e -> a_endpoints d !! k = Some x ->
            same_route row x = true -> False) as Hno.
  { intros Hv0 k x Hne Hx Hsr. rewrite Hv0 in E. cbn in E. rewrite other_row_false in E.
    by rewrite (E k x Hne Hx) in Hsr. }
  split; cbn; [done..| | |].
  - intros k x [[<- <-]|[_ Hx]]%lookup_insert_Some; [|exact (He k x Hx)]. cbn. split_and!; [done..|].
    by eapply stored_content_ok.
  - intros k x v [[<- <-]|[_ Hx]]%lookup_insert_Some; [cbn; exact (Hs _ _ v Eo)|exact (Hs k x v Hx)].
  - intros k k' x x' [[<- <-]|[Hne Hx]]%lookup_insert_Some [[<- <-]|[Hne' Hx']]%lookup_insert_Some Hw Hsr; [done| | |].
    + exfalso. apply working_split in Hw as (_ & Hv0 & _). by apply (Hno Hv0 k' x').
    + exfalso. revert Hw Hsr. unfold same_route. rewrite !andb_true_iff, !working_split, !String.eqb_eq.
      intros (_ & Hv1 & Hl1) [[(Hg2 & Hv2 & Hl2) Hm] Hp]. apply (Hno Hv2 k x); [done..|].
      unfold same_route. rewrite !andb_true_iff, working_split, !String.eqb_eq. split_and!; auto.
    + by apply (Hr k k' x x').
Qed.

Lemma insert_endpoints_ok now es d d' :
  Forall (fun e => ep_APIGroupVersionID e = None) es -> api_ok d -> insert_endpoints now es d = Ok d' -> api_ok d'.
Proof.
  intros Hes. revert d. induction Hes as [|e es He Hes IH]; intros d Hd; cbn; [by intros [= <-]|].
  destruct (insert_endpoint now e d) as [d1|] eqn:E; [|done]. apply IH. by eapply insert_endpoint_ok.
Qed.

Definition copied (vid actor : string) (t : Z) (e : APIEndpoint) (eps : gmap string APIEndpoint) : APIEndpoint :=
  snapshot_row vid actor t (fresh (dom eps)) e.

Lemma copy_rows_cons vid actor t e l eps :
  copy_rows vid actor t (e :: l) eps =
  copy_rows vid actor t l (<[ep_ID (copied vid actor t e eps) := copied vid actor t e eps]> eps).
Proof. reflexivity. Qed.

(** Copies of sound rows of a group into a version of it. *)
Lemma copy_rows_ok vid actor t r l d :
  api_ok d -> a_versions d !! vid = Some r ->
  Forall (fun e => ep_APIGroupID e = vr_APIGroupID r /\ content_ok (ep_Content e)) l ->
  api_ok (set_endpoints d (copy_rows vid actor t l (a_endpoints d))).
Proof.
  intros Hd Hv Hl. revert d Hd Hv. induction Hl as [|e l [Hg Hc] Hl IH]; intros d Hd Hv; [by destruct d|].
  rewrite copy_rows_cons. set (row := copied _ _ _ _ _).
  change (api_ok (set_endpoints (set_endpoints d (<[ep_ID row := row]> (a_endpoints d)))
    (copy_rows vid actor t l (a_endpoints (set_endpoints d (<[ep_ID row := row]> (a_endpoints d))))))).
  apply IH; [|done].
  apply (ok_add d row); [done| | |done| |done].
  - apply not_elem_of_dom, is_fresh.
  - cbn. rewrite Hg. by apply (ok_versions d Hd vid r Hv).
  - intros v [= <-]. by exists r.
Qed.

Definition pub_ok (inp : PublishInput) : Prop :=
  vr_APIGroupID (pi_Version inp) = gr_ID (pi_Group inp) /\
  Forall (fun e => ep_APIGroupVersionID e = None) (pi_NewEndpoints inp).

(** The transaction commits all of its statements, or none. *)
Definition replaced_tx (now : Z) (inp : PublishInput) (d : ApiDB) : result store_err ApiDB :=
  if pi_ReplaceEndpoints inp
  then insert_endpoints now (pi_NewEndpoints inp)
         (delete_endpoints (working (gr_ID (pi_Group inp))) (pi_ActorID inp) now d)
  else Ok d.

Lemma publish_tx_inv now inp t d r d' :
  publish_tx now inp t d = (r, d') ->
  match r with
  | Err _ => d' = d
  | Ok v => exists d1 d2,
      let gid := gr_ID (pi_Group inp) in
      replaced_tx now inp d = Ok d1 /\
      v = set_number (pi_Version inp)
            (if (vr_VersionNumber (pi_Version inp) <=? 0)%Z then (latest_number gid d1 + 1)%Z
             else vr_VersionNumber (pi_Version inp)) now /\
      insert_version v d1 = (Ok tt, d2) /\
      update_group now (set_version_label (pi_Group inp) (default "" (vr_Label v)))
        (CopyEndpointsForVersion gid (vr_ID v) (pi_ActorID inp) t d2) = (Ok tt, d')
  end.
Proof.
  unfold publish_tx. fold (replaced_tx now inp d). destruct (replaced_tx now inp d) as [d1|e]; [|by intros [= <- <-]].
  cbv zeta. set (v := set_number _ _ _). destruct (insert_version v d1) as [[[]|e] d2] eqn:E2; [|by intros [= <- <-]].
  destruct (update_group _ _ _) as [[[]|e] d4] eqn:E4; [|by intros [= <- <-]].
  intros [= <- <-]. by exists d1, d2.
Qed.

Lemma replaced_tx_ok now inp d d1 : pub_ok inp -> api_ok d -> replaced_tx now inp d = Ok d1 -> api_ok d1.
Proof.
  intros [_ Hes] Hd. unfold replaced_tx. destruct (pi_ReplaceEndpoints inp); [|by intros [= <-]].
  apply insert_endpoints_ok; [done|]. by apply delete_endpoints_ok.
Qed.

Lemma insert_version_Ok v d d' :
  insert_version v d = (Ok tt, d') ->
  d' = set_versions d (<[vr_ID v := v]> (a_versions d)) /\ a_versions d !! vr_ID v = None /\
  is_Some (a_groups d !! vr_APIGroupID v).
Proof.
  unfold insert_version. destruct (_ || _) eqn:E; [done|]. intros [= <-].
  rewrite !orb_false_iff in E. destruct E as [[[E1 E2] E3] E4].
  apply found_false in E1. apply negb_false_iff, found_true in E2. split_and!; [done..|].
  destruct E2 as [x Hx]. by exists x.
Qed.

Lemma publish_tx_ok now inp t d : pub_ok inp -> api_ok d -> api_ok (publish_tx now inp t d).2.
Proof.
  intros Hp Hd. destruct (publish_tx now inp t d) as [r d'] eqn:E. apply publish_tx_inv in E. cbn.
  destruct r as [v|]; [|by subst]. destruct E as (d1 & d2 & H1 & Hv & H2 & H4). cbn in *.
  assert (api_ok d1) as Hd1 by (by eapply replaced_tx_ok).
  pose proof (insert_version_ok v d1 Hd1) as Hd2. rewrite H2 in Hd2. cbn in Hd2.
  apply insert_version_Ok in H2 as (Hd2' & _).
  set (d3 := CopyEndpointsForVersion _ _ _ _ _) in H4.
  assert (api_ok d3) as Hd3.
  { apply (copy_rows_ok _ _ _ v); [done| |].
    - rewrite Hd2'. cbn. by rewrite lookup_insert_eq.
    - apply Forall_forall. intros e [[k Hk] Hw]%select_elem. apply working_split in Hw as (Hg & _).
      split; [rewrite Hg, Hv; cbn; symmetry; apply Hp|]. by apply (ok_endpoints d2 Hd2 k e Hk). }
  pose proof (update_group_ok now (set_version_label (pi_Group inp) (default "" (vr_Label v))) d3 Hd3) as Hd4.
  by rewrite H4 in Hd4.
Qed.
End Invariant.

(** ** Steps on the tables

    [names]: the endpoint a request names, when it edits or deletes one. *)

Section Steps.
Context `{Collation} `{Jsonb}.

Inductive api_op (names : option string) : ApiDB -> ApiDB -> Prop :=
| op_blobs d t : api_op names d (set_blobs d t)
| op_insert_group now g d : api_op names d (insert_group now g d).2
| op_update_group now g d : api_op names d (update_group now g d).2
| op_delete_group p by_ now d :
    api_op names d (set_groups d (update_where p
      (fun g => gr_with_audit g (deleted_audit by_ now (gr_Audit g))) (a_groups d)))
| op_publish now inp t d : pub_ok inp -> api_op names d (publish_tx now inp t d).2
| op_insert_endpoint now e d :
    ep_APIGroupVersionID e = None -> api_op names d (as_statement (insert_endpoint now e) d).2
| op_update_endpoint now e d :
    names = Some (ep_ID e) -> api_op names d (as_statement (update_endpoint now e) d).2
| op_delete_endpoint id by_ now d :
    names = Some id -> api_op names d (delete_endpoints (fun e => String.eqb (ep_ID e) id && ep_live e) by_ now d).

Lemma api_op_ok n d d' : api_op n d d' -> api_ok d -> api_ok d'.
Proof.
  intros [] Hd.
  - by apply ok_set_blobs.
  - by apply insert_group_ok.
  - by apply update_group_ok.
  - by apply update_groups_ok.
  - by apply publish_tx_ok.
  - unfold as_statement. destruct (insert_endpoint _ _ _) eqn:E; [|done]. by eapply insert_endpoint_ok.
  - unfold as_statement. destruct (update_endpoint _ _ _) eqn:E; [|done]. by eapply update_endpoint_ok.
  - by apply delete_endpoints_ok.
Qed.

Lemma api_ops_ok n d d' : rtc (api_op n) d d' -> api_ok d -> api_ok d'.
Proof. induction 1 as [|d d1 d' Hop _ IH]; [done|]. intros Hd. by apply IH, (api_op_ok n d). Qed.

(** Versions stay as they are, and so do the rows of their snapshots, save the named one. *)
Definition keeps_history (names : option string) (d d' : ApiDB) : Prop :=
  (forall k v, a_versions d !! k = Some v -> a_versions d' !! k = Some v) /\
  forall v r k e, a_versions d !! v = Some r -> names <> Some k -> ep_APIGroupVersionID e = Some v ->
    a_endpoints d' !! k = Some e <-> a_endpoints d !! k = Some e.

Lemma keeps_history_refl n d : keeps_history n d d.
Proof. done. Qed.
Lemma keeps_history_trans n d1 d2 d3 : keeps_history n d1 d2 -> keeps_history n d2 d3 -> keeps_history n d1 d3.
Proof.
  intros [V1 R1] [V2 R2]. split; [auto|]. intros v r k e Hv Hn He.
  rewrite (R2 v r k e (V1 v r Hv) Hn He). by apply (R1 v r).
Qed.

Lemma history_same n d d' :
  a_versions d' = a_versions d -> a_endpoints d' = a_endpoints d -> keeps_history n d d'.
Proof. intros Hv He. split; [by rewrite Hv|]. by intros; rewrite He. Qed.

Lemma history_delete n d p by_ now :
  (forall k e, a_endpoints d !! k = Some e -> p e = true -> n = Some k \/ ep_APIGroupVersionID e = None) ->
  keeps_history n d (delete_endpoints p by_ now d).
Proof.
  intros Hp. split; [done|]. intros v r k e Hv Hn He. cbn. rewrite lookup_update_where.
  destruct (a_endpoints d !! k) as [x|] eqn:Ex; cbn; [|done].
  destruct (p x) eqn:Epx; [|done]. destruct (Hp k x Ex Epx) as [?|Hx]; [done|].
  split; intros [= <-]; cbn in *; congruence.
Qed.

Lemma history_insert n d e : 
  a_endpoints d !! ep_ID e = None -> (forall v r, ep_APIGroupVersionID e = Some v -> a_versions d !! v <> Some r) ->
  keeps_history n d (set_endpoints d (<[ep_ID e := e]> (a_endpoints d))).
Proof.
  intros Hfree Hnew. split; [done|]. intros v r k x Hv Hn Hx. cbn.
  destruct (decide (ep_ID e = k)) as [<-|Hne]; [|by rewrite lookup_insert_ne].
  rewrite lookup_insert_eq, Hfree. split; [|done]. intros [= <-]. by destruct (Hnew v r).
Qed.

Lemma insert_endpoint_shape now e d d' :
  insert_endpoint now e d = Ok d' ->
  exists c a, stored_content (or_default (ep_Content e)) = Some c /\
    a = inserted_audit now (ep_Audit e) /\ a_endpoints d !! ep_ID e = None /\
    d' = set_endpoints d (<[ep_ID e := set_audit (set_content e c) a]> (a_endpoints d)).
Proof.
  unfold insert_endpoint. destruct (stored_content _) as [c|] eqn:Ec; [|done].
  destruct (_ || _) eqn:E; [done|]. intros [= <-]. rewrite !orb_false_iff in E. destruct E as [[E1 _] _].
  apply found_false in E1. by exists c, (inserted_audit now (ep_Audit e)).
Qed.

Lemma insert_endpoint_history n now e d d' :
  ep_APIGroupVersionID e = None -> insert_endpoint now e d = Ok d' -> keeps_history n d d'.
Proof.
  intros Hv Hi. apply insert_endpoint_shape in Hi as (c & a & _ & _ & Hfree & ->).
  apply (history_insert n d (set_audit (set_content e c) a)); [done|]. cbn. by rewrite Hv.
Qed.

Lemma insert_endpoints_history n now es d d' :
  Forall (fun e => ep_APIGroupVersionID e = None) es -> insert_endpoints now es d = Ok d' -> keeps_history n d d'.
Proof.
  intros Hes. revert d. induction Hes as [|e es He Hes IH]; intros d; cbn; [by intros [= <-]|].
  destruct (insert_endpoint now e d) as [d1|] eqn:E; [|done]. intros Hd'.
  apply (keeps_history_trans n d d1); [by eapply insert_endpoint_history|by apply IH].
Qed.

Lemma replaced_tx_history n now inp d d1 :
  pub_ok inp -> replaced_tx now inp d = Ok d1 -> keeps_history n d d1.
Proof.
  intros [_ Hes]. unfold replaced_tx. destruct (pi_ReplaceEndpoints inp); [|by intros [= <-]].
  intros Hi. eapply keeps_history_trans; [|by eapply insert_endpoints_history].
  apply history_delete. intros k e _ Hw. right. by apply working_split in Hw as (_ & ? & _).
Qed.

(** Copying into one version leaves the rows of the others. *)
Lemma copy_rows_other vid actor t l eps k e :
  ep_APIGroupVersionID e <> Some vid -> copy_rows vid actor t l eps !! k = Some e <-> eps !! k = Some e.
Proof.
  intros He. revert eps. induction l as [|x l IH]; intros eps; [done|].
  rewrite copy_rows_cons, IH. set (row := copied _ _ _ _ _).
  assert (eps !! ep_ID row = None) as Hfree by (apply not_elem_of_dom, is_fresh).
  destruct (decide (ep_ID row = k)) as [<-|Hne]; [|by rewrite lookup_insert_ne].
  rewrite lookup_insert_eq, Hfree. split; [|done]. by intros [= <-].
Qed.

Lemma update_group_same now g d :
  a_versions (update_group now g d).2 = a_versions d /\ a_endpoints (update_group now g d).2 = a_endpoints d.
Proof.
  unfold update_group. destruct (a_groups d !! gr_ID g) as [old|]; [|done].
  destruct (negb (gr_live old)); [done|]. by destruct (negb _).
Qed.

Lemma publish_tx_history n now inp t d : pub_ok inp -> keeps_history n d (publish_tx now inp t d).2.
Proof.
  intros Hp. destruct (publish_tx now inp t d) as [r d'] eqn:E. apply publish_tx_inv in E. cbn.
  destruct r as [v|]; [|by subst]. destruct E as (d1 & d2 & H1 & Hv & H2 & H4). cbn in *.
  apply (keeps_history_trans n d d1); [by eapply replaced_tx_history|].
  apply insert_version_Ok in H2 as (-> & Hnew & _).
  set (d3 := CopyEndpointsForVersion _ _ _ _ _) in H4.
  destruct (update_group_same now (set_version_label (pi_Group inp) (default "" (vr_Label v))) d3) as [Sv Se].
  rewrite H4 in Sv, Se. cbn in Sv, Se. split.
  - intros k x Hk. rewrite Sv. rewrite lookup_insert_ne; [done|]. intros <-. congruence.
  - intros x r k e Hx _ He. rewrite Se. apply copy_rows_other. rewrite He. intros [= ->]. congruence.
Qed.

Lemma api_op_history n d d' : api_ok d -> api_op n d d' -> keeps_history n d d'.
Proof.
  intros Hd Hop. revert Hd. destruct Hop; intros Hd.
  - by apply history_same.
  - unfold insert_group. destruct (_ || _); by apply history_same.
  - destruct (update_group_same now g d). by apply history_same.
  - by apply history_same.
  - by apply publish_tx_history.
  - unfold as_statement. destruct (insert_endpoint _ _ _) eqn:E; [|done]. by eapply insert_endpoint_history.
  - unfold as_statement, update_endpoint. destruct (a_endpoints d !! ep_ID e) as [old|]; [|done].
    destruct (negb (ep_live old)); [done|]. destruct (stored_content _); [|done]. destruct (negb _ && _); [done|].
    split; [done|]. intros v r k x Hv Hn Hx. cbn. rewrite lookup_insert_ne; [done|]. congruence.
  - apply history_delete. intros k e Hk Hp. left. apply andb_true_iff in Hp as [<-%String.eqb_eq _].
    destruct (ok_endpoints d Hd k e Hk) as (Hid & _). congruence.
Qed.

Lemma api_ops_history n d d' : api_ok d -> rtc (api_op n) d d' -> keeps_history n d d'.
Proof.
  intros Hd. induction 1 as [|d d1 d' Hop _ IH]; [done|].
  eapply keeps_history_trans; [by apply api_op_history|]. apply IH. by eapply api_op_ok.
Qed.
End Steps.

(** ** Requests are such steps *)

Section Serve.
Context `{Collation} `{Jsonb} `{UnicodeCase} `{UnicodeDigits} `{MapRange} `{SpecDecoder} `{GraphQLParser}
  `{ProtoParser} `{UuidGen} `{Sha256} (storage : bool) (fuel : nat).
#[local] Abbreviation serve := (serve storage fuel).
#[local] Abbreviation publish := (publishAPIGroupVersion storage fuel).

Definition in_working_copy (e : APIEndpoint) : Prop := ep_APIGroupVersionID e = None.

(** The endpoints of a parsed specification belong to the working copy. *)
Section Parsed.
Context {DB : Type} (gid sid oid actor : string) (now : Z).
#[local] Abbreviation fresh_eps := (fun (r : result go_err (list APIEndpoint)) (_ : World DB) =>
  match r with Ok eps => Forall in_working_copy eps | Err _ => True end).

Lemma each_in_working_copy {A} (f : A -> Go (World DB) (result go_err (list APIEndpoint)) APIEndpoint) l s :
  (forall x s', wp (f x) fresh_eps (fun e _ => in_working_copy e) s') ->
  wp (eps <- geach f l ;; gret (Ok eps)) fresh_eps fresh_eps s.
Proof.
  intros Hf. apply wp_bind. wp_keep.
  - apply (wp_each f l (fun _ e => in_working_copy e) (fun _ => True)); [|done].
    intros x s' _ _. eapply wp_mono; [apply Hf|done|]. by intros e s'' He.
  - cbn. intros eps s' [Heps _]. apply Forall_forall. intros e He.
    by destruct (Forall2_elem_r _ _ _ _ Heps He) as (_ & _ & ?).
Qed.

Lemma new_endpoint_fresh c (s : World DB) :
  wp (id <- try NewString (fun e => Err e) ;; gret (new_endpoint gid sid oid actor now id c))
    fresh_eps (fun e _ => in_working_copy e) s.
Proof. wp_step. by destruct (NewString s) as [[] ?]. Qed.

Lemma parsed_in_working_copy spec protocol :
  yields_ok (parseSpecEndpointsForProtocol (DB := DB) gid sid oid actor now fuel spec protocol) (Forall in_working_copy).
Proof.
  unfold parseSpecEndpointsForProtocol. destruct (String.eqb _ _); [|destruct (String.eqb _ _)];
    apply yields_func; intros s.
  - wp_step. destruct (ParseGraphQL spec); [|done]. apply each_in_working_copy. intros x s'. apply new_endpoint_fresh.
  - wp_step. destruct (ParseGrpc spec); [|done]. apply each_in_working_copy. intros x s'. apply new_endpoint_fresh.
  - wp_step. split; [done|]. intros doc _. wp_step. split; [by constructor|]. intros paths _.
    apply each_in_working_copy. intros x s'. wp_step. split; [done|]. intros c _. apply new_endpoint_fresh.
Qed.
End Parsed.

Context (n : option string) (d0 : ApiDB).
#[local] Abbreviation reach := (rtc (api_op n) d0).

Lemma NewString_keeps {DB} (P : DB -> Prop) : keeps P NewString.
Proof. intros w Hw. by rewrite NewString_db. Qed.
Lemma failing_keeps {DB A} (P : DB -> Prop) (m : Eff (World DB) (result store_err A)) :
  keeps P m -> keeps P (failing m).
Proof. intros Hm w Hw. specialize (Hm w Hw). unfold failing. by destruct (m w). Qed.
#[local] Hint Resolve NewString_keeps failing_keeps : keeps.

Lemma parse_keeps P gid sid oid actor now spec protocol :
  keeps (DB := ApiDB) P (parseSpecEndpointsForProtocol gid sid oid actor now fuel spec protocol).
Proof.
  unfold parseSpecEndpointsForProtocol, parseGraphQLSpecEndpoints, parseGrpcSpecEndpoints, parseSpecEndpoints.
  solve_keeps; by intros w.
Qed.

Lemma step_op {A} (f : Z -> ApiDB -> result store_err A * ApiDB) :
  (forall t d, api_op n d (f t d).2) -> keeps reach (db_op f).
Proof. intros Hf. apply keeps_op. intros t d Hd. by eapply rtc_r. Qed.

Lemma Upload_reach key c : keeps reach (Upload key c).
Proof. apply step_op. intros t d. apply (op_blobs n d). Qed.
Lemma Download_reach key : keeps reach (Download key).
Proof. by apply keeps_op. Qed.
Lemma CreateAPIGroup_reach g : keeps reach (CreateAPIGroup g).
Proof. unfold CreateAPIGroup. solve_keeps. apply step_op. intros t d. apply op_insert_group. Qed.
Lemma UpdateAPIGroup_reach g : keeps reach (UpdateAPIGroup g).
Proof. unfold UpdateAPIGroup. solve_keeps. apply step_op. intros t d. apply op_update_group. Qed.
Lemma SoftDeleteAPIGroup_reach id by_ : keeps reach (SoftDeleteAPIGroup id by_).
Proof. unfold SoftDeleteAPIGroup. solve_keeps. apply step_op. intros t d. apply (op_delete_group n _ _ _ d). Qed.
Lemma CreateAPIEndpoint_reach e : in_working_copy e -> keeps reach (CreateAPIEndpoint e).
Proof. intros He. unfold CreateAPIEndpoint. solve_keeps. apply step_op. intros t d. by apply op_insert_endpoint. Qed.
Lemma UpdateAPIEndpoint_reach e : n = Some (ep_ID e) -> keeps reach (UpdateAPIEndpoint e).
Proof. intros He. unfold UpdateAPIEndpoint. solve_keeps. apply step_op. intros t d. by apply op_update_endpoint. Qed.
Lemma SoftDeleteAPIEndpoint_reach id by_ : n = Some id -> keeps reach (SoftDeleteAPIEndpoint id by_).
Proof. intros He. unfold SoftDeleteAPIEndpoint. solve_keeps. apply step_op. intros t d. by apply (op_delete_endpoint n id). Qed.
Lemma PublishAPIGroupVersion_reach inp : pub_ok inp -> keeps reach (PublishAPIGroupVersion inp).
Proof. intros Hp. unfold PublishAPIGroupVersion. solve_keeps. apply step_op. intros t d. by apply op_publish. Qed.
#[local] Hint Resolve parse_keeps Upload_reach Download_reach CreateAPIGroup_reach UpdateAPIGroup_reach
  SoftDeleteAPIGroup_reach CreateAPIEndpoint_reach UpdateAPIEndpoint_reach SoftDeleteAPIEndpoint_reach
  PublishAPIGroupVersion_reach : keeps.

Lemma list_endpoints_keeps P gid ex : keeps P (ListAPIEndpoints gid ex).
Proof. apply keeps_read. Qed.
Lemma resolveSpec_reach spec asset : keeps reach (resolveSpec storage spec asset).
Proof. unfold resolveSpec. solve_keeps. Qed.
#[local] Hint Resolve list_endpoints_keeps resolveSpec_reach : keeps.

Lemma replace_from_reach p g now : gkeeps reach (replace_from fuel p g now).
Proof. unfold replace_from. solve_keeps. Qed.
#[local] Hint Resolve replace_from_reach : keeps.

Lemma replace_from_fresh p g now :
  from_option (Forall in_working_copy) True (pp_endpoints p) ->
  yields (replace_from fuel p g now) (Forall in_working_copy).
Proof.
  intros Hp. unfold replace_from. destruct (pp_endpoints p) as [eps|]; [by apply yields_ret|].
  apply yields_try, parsed_in_working_copy.
Qed.

Lemma preserve_fresh existing eps :
  Forall in_working_copy eps -> Forall in_working_copy (preserveEndpointSLAs existing eps).
Proof.
  intros He. unfold preserveEndpointSLAs. apply Forall_map, (Forall_impl _ _ _ He).
  intros e Hx. by destruct (sla_index existing !! _).
Qed.

Lemma publish_reach p :
  from_option (Forall in_working_copy) True (pp_endpoints p) -> keeps reach (publish p).
Proof.
  intros Hp. unfold publishAPIGroupVersion. apply keeps_func. apply gkeeps_bind; [solve_keeps|]. intros now.
  apply gkeeps_bind; [solve_keeps|]. intros versionID.
  apply (gkeeps_bind_yields _ _ _ pub_ok).
  - solve_keeps.
  - destruct (negb (str_empty (pp_spec p))).
    + apply yields_then. intros _. apply yields_then. intros _. apply yields_then. intros _.
      eapply yields_bind; [by apply replace_from_fresh|]. intros eps Heps. by apply yields_ret.
    + repeat (apply yields_then; intros ?). apply yields_ret. split; [done|]. cbn.
      by destruct (pp_endpoints p); [|constructor].
  - intros inp [Hv Hf]. set (eps := map _ _).
    assert (Forall in_working_copy eps) as Heps.
    { apply Forall_map, (Forall_impl _ _ _ Hf). by intros e. }
    apply (gkeeps_bind_yields _ _ _ (Forall in_working_copy)).
    + solve_keeps.
    + destruct (pi_ReplaceEndpoints inp); [|by apply yields_ret].
      apply yields_then. intros [l|e]; apply yields_ret; [by apply preserve_fresh|done].
    + intros eps' Heps'. apply gkeeps_bind; [|intros v; apply gkeeps_ret].
      apply gkeeps_try, failing_keeps, PublishAPIGroupVersion_reach. by split.
Qed.

Lemma publish_spec_reach g s spec label auto actor hash :
  keeps reach (publish (mkPublishParams g s spec None label auto actor hash)).
Proof. by apply publish_reach. Qed.
#[local] Hint Resolve publish_spec_reach : keeps.

Lemma live_group_reach gid : gkeeps reach (live_group gid).
Proof. unfold live_group, GetAPIGroup. solve_keeps. Qed.
Lemma live_endpoint_reach id : gkeeps reach (live_endpoint id).
Proof. unfold live_endpoint, GetAPIEndpoint. solve_keeps. Qed.
#[local] Hint Resolve live_group_reach live_endpoint_reach : keeps.

(** A live endpoint is found under its own id. *)
Lemma live_endpoint_id id w e w' :
  api_ok (w_db w) -> live_endpoint id w = (inr e, w') -> ep_ID e = id.
Proof.
  unfold live_endpoint, try, gbind, call. intros Hd.
  destruct (GetAPIEndpoint id w) as [[[x|]|er] w1] eqn:Eg; cbn; [|done..].
  destruct (negb (ep_live x)); cbn; [done|]. intros [= <- _].
  apply db_read_ok in Eg as [Eg _]. by apply (ok_endpoints _ Hd id x).
Qed.

Definition named_endpoint (rq : api_request) : option string :=
  match rq with RUpdateEndpoint id _ | RDeleteEndpoint id => Some id | _ => None end.

Lemma Restore_reach ctx sid gid vid : keeps reach (RestoreAPIGroupVersion storage fuel ctx sid gid vid).
Proof.
  unfold RestoreAPIGroupVersion, GetAPIGroupVersion, ListAPIEndpointsForVersion. apply keeps_func.
  do 4 (apply gkeeps_bind; [by solve_keeps|intros ?]).
  do 2 (apply gkeeps_guard; intros _). do 3 (apply gkeeps_bind; [by solve_keeps|intros ?]).
  apply (gkeeps_bind_yields _ _ _ (Forall in_working_copy)).
  - solve_keeps.
  - apply yields_each. intros e _. apply yields_then. intros id. by apply yields_ret.
  - intros eps Heps. apply gkeeps_bind; [|intros vg; apply gkeeps_ret].
    apply gkeeps_try. by apply publish_reach.
Qed.

Lemma UpdateAPIEndpoint_request_reach ctx id req :
  api_ok d0 -> n = Some id -> keeps reach (UpdateAPIEndpoint_ ctx id req).
Proof.
  intros Hd Hn. unfold UpdateAPIEndpoint_. apply keeps_func.
  apply gkeeps_bind; [by solve_keeps|intros p].
  apply (gkeeps_bind_knows _ _ _ (fun e => ep_ID e = id)); [by solve_keeps| |].
  - intros w e w' Hw. apply live_endpoint_id. by eapply api_ops_ok.
  - intros e He. apply gkeeps_bind; [by solve_keeps|intros body].
    apply gkeeps_bind; [|intros []; apply gkeeps_ret]. apply gkeeps_try, UpdateAPIEndpoint_reach. cbn. congruence.
Qed.

Lemma serve_reach ctx rq : api_ok d0 -> n = named_endpoint rq -> keeps reach (serve ctx rq).
Proof.
  intros Hd Hn. destruct rq; cbn [ApiGroups.serve]; try (unfold CreateAPIGroup_, UpdateAPIGroup_, DeleteAPIGroup,
    SyncAPIGroup, CreateAPIGroupVersion; by solve_keeps).
  - by apply Restore_reach.
  - unfold CreateAPIEndpoint_. apply keeps_func. do 2 (apply gkeeps_bind; [by solve_keeps|intros ?]).
    apply gkeeps_guard; intros _. do 2 (apply gkeeps_bind; [by solve_keeps|intros ?]).
    apply gkeeps_bind; [|intros ?; apply gkeeps_ret]. by apply gkeeps_try, CreateAPIEndpoint_reach.
  - by apply UpdateAPIEndpoint_request_reach.
Qed.
End Serve.
