(* ===== verification/ApiPublish.v ===== *)
(** * ApiPublish: what publishing and restoring a version achieve

    The contents of the working copy and of the snapshots after a publication;
    a restored version; and the cases in which the tables and object storage
    part ways. *)

From S2P Require Import Prelude GoStrings Effects Json GraphQL Grpc Crypto Table Authz Identity OpenAPI ApiSpec ApiGroups ApiHistory.
From Stdlib Require Import QArith.
Set Warnings "-register-all,-clear-no-such-hyp".
#[local] Open Scope nat_scope.
#[local] Open Scope string_scope.

Section Publish.
Context `{Collation} `{Jsonb}.

(** The endpoints a client is shown, without who and when. *)
Definition contents (p : APIEndpoint -> bool) (eps : gmap string APIEndpoint) : list EndpointContent :=
  map ep_Content (select p eps).

Lemma contents_insert p k e eps :
  eps !! k = None -> contents p (<[k := e]> eps) ≡ₚ (if p e then [ep_Content e] else []) ++ contents p eps.
Proof. intros Hk. unfold contents. rewrite select_insert by done. rewrite map_app. by destruct (p e). Qed.

Lemma of_version_split gid vid e :
  of_version gid vid e = true <-> ep_APIGroupID e = gid /\ ep_APIGroupVersionID e = Some vid /\ ep_live e = true.
Proof. unfold of_version. rewrite !andb_true_iff, String.eqb_eq, bool_decide_eq_true. tauto. Qed.

(** Each row stands for the endpoint given, with the content as the columns hold it. *)
Definition stored (e : APIEndpoint) (c : EndpointContent) : Prop :=
  stored_content (or_default (ep_Content e)) = Some c.

Lemma insert_endpoints_contents gid now es d d' :
  Forall (fun e => ep_APIGroupID e = gid /\ ep_APIGroupVersionID e = None) es -> insert_endpoints now es d = Ok d' ->
  exists cs, Forall2 stored es cs /\
    contents (working gid) (a_endpoints d') ≡ₚ cs ++ contents (working gid) (a_endpoints d) /\
    a_versions d' = a_versions d /\ a_groups d' = a_groups d /\ a_blobs d' = a_blobs d.
Proof.
  intros Hes. revert d. induction Hes as [|e es [Hg Hv] Hes IH]; intros d; cbn; [intros [= <-]; by exists []|].
  destruct (insert_endpoint now e d) as [d1|] eqn:E; [|done]. intros Hd'.
  apply insert_endpoint_shape in E as (c & a & Hc & -> & Hfree & ->).
  destruct (IH _ Hd') as (cs & Hcs & Hp & Sv & Sg & Sb). exists (c :: cs). split; [by constructor|].
  split; [|done]. rewrite Hp. cbn [a_endpoints set_endpoints]. rewrite contents_insert by done.
  assert (working gid (set_audit (set_content e c) (inserted_audit now (ep_Audit e))) = true) as ->.
  { apply working_split. by rewrite <-Hg. }
  cbn. by rewrite <-Permutation_middle.
Qed.

Lemma delete_working_contents gid by_ now d :
  contents (working gid) (a_endpoints (delete_endpoints (working gid) by_ now d)) = [].
Proof.
  unfold contents. rewrite select_nil; [done|]. intros k e. cbn. rewrite lookup_update_where.
  destruct (a_endpoints d !! k) as [x|]; cbn; [|done]. intros [= <-].
  destruct (working gid x) eqn:Ew; [|done]. unfold working, ep_live, au_live. cbn. by rewrite andb_false_r.
Qed.

Lemma copy_rows_contents gid vid actor t l eps :
  Forall (fun e => ep_APIGroupID e = gid) l ->
  contents (of_version gid vid) (copy_rows vid actor t l eps) ≡ₚ
    map ep_Content l ++ contents (of_version gid vid) eps /\
  contents (working gid) (copy_rows vid actor t l eps) ≡ₚ contents (working gid) eps.
Proof.
  intros Hl. revert eps. induction Hl as [|e l Hg Hl IH]; intros eps; [done|].
  rewrite copy_rows_cons. set (row := copied _ _ _ _ _).
  assert (eps !! ep_ID row = None) as Hfree by (apply not_elem_of_dom, is_fresh).
  destruct (IH (<[ep_ID row := row]> eps)) as [-> ->]. rewrite !contents_insert by done.
  assert (of_version gid vid row = true) as -> by by apply of_version_split.
  assert (working gid row = false) as ->.
  { apply not_true_iff_false. intros Hw. by apply working_split in Hw as (_ & ? & _). }
  split; [|done]. cbn. by rewrite <-Permutation_middle.
Qed.

(** What the transaction does when it commits. *)
Record published (now : Z) (inp : PublishInput) (d : ApiDB) (v : APIGroupVersion) (d' : ApiDB) : Prop := mkPublished {
  pub_number : vr_VersionNumber v =
    if (vr_VersionNumber (pi_Version inp) <=? 0)%Z then (latest_number (gr_ID (pi_Group inp)) d + 1)%Z
    else vr_VersionNumber (pi_Version inp);
  pub_version : a_versions d !! vr_ID v = None /\ a_versions d' = <[vr_ID v := v]> (a_versions d);
  pub_working : if pi_ReplaceEndpoints inp
    then exists cs, Forall2 stored (pi_NewEndpoints inp) cs /\
           contents (working (gr_ID (pi_Group inp))) (a_endpoints d') ≡ₚ cs
    else contents (working (gr_ID (pi_Group inp))) (a_endpoints d') ≡ₚ
           contents (working (gr_ID (pi_Group inp))) (a_endpoints d);
  pub_snapshot : contents (of_version (gr_ID (pi_Group inp)) (vr_ID v)) (a_endpoints d') ≡ₚ
    contents (working (gr_ID (pi_Group inp))) (a_endpoints d');
  pub_blobs : a_blobs d' = a_blobs d
}.

Lemma update_group_blobs now g d : a_blobs (update_group now g d).2 = a_blobs d.
Proof.
  unfold update_group. destruct (a_groups d !! gr_ID g) as [old|]; [|done].
  destruct (negb (gr_live old)); [done|]. by destruct (negb _).
Qed.

Lemma replaced_tx_contents now inp d d1 :
  Forall (fun e => ep_APIGroupID e = gr_ID (pi_Group inp) /\ ep_APIGroupVersionID e = None) (pi_NewEndpoints inp) ->
  replaced_tx now inp d = Ok d1 ->
  (if pi_ReplaceEndpoints inp
   then exists cs, Forall2 stored (pi_NewEndpoints inp) cs /\
          contents (working (gr_ID (pi_Group inp))) (a_endpoints d1) ≡ₚ cs
   else contents (working (gr_ID (pi_Group inp))) (a_endpoints d1) ≡ₚ
          contents (working (gr_ID (pi_Group inp))) (a_endpoints d)) /\
  a_versions d1 = a_versions d /\ a_blobs d1 = a_blobs d.
Proof.
  intros Hes. unfold replaced_tx. destruct (pi_ReplaceEndpoints inp); [|by intros [= <-]].
  intros Hi. destruct (insert_endpoints_contents _ _ _ _ _ Hes Hi) as (cs & Hcs & Hp & Sv & Sg & Sb).
  rewrite delete_working_contents, app_nil_r in Hp. split; [|done]. by exists cs.
Qed.

Lemma latest_same gid d d1 : a_versions d1 = a_versions d -> latest_number gid d1 = latest_number gid d.
Proof. unfold latest_number. by intros ->. Qed.

Lemma publish_spec now inp t d v d' :
  api_ok d -> pub_ok inp -> Forall (fun e => ep_APIGroupID e = gr_ID (pi_Group inp)) (pi_NewEndpoints inp) ->
  publish_tx now inp t d = (Ok v, d') -> published now inp d v d'.
Proof.
  intros Hd Hp Hg E. apply publish_tx_inv in E as (d1 & d2 & H1 & Hv & H2 & H4). cbn in *.
  pose proof (replaced_tx_ok _ _ _ _ Hp Hd H1) as Hd1.
  destruct (replaced_tx_contents now inp d d1) as (Hw & Sv & Sb); [|done|].
  { apply Forall_and; split; [done|apply Hp]. }
  apply insert_version_Ok in H2 as (-> & Hnew & _).
  set (d3 := CopyEndpointsForVersion _ _ _ _ _) in H4.
  destruct (update_group_same now (set_version_label (pi_Group inp) (default "" (vr_Label v))) d3) as [Tv Te].
  pose proof (update_group_blobs now (set_version_label (pi_Group inp) (default "" (vr_Label v))) d3) as Tb.
  rewrite H4 in Tv, Te, Tb. cbn [snd] in Tv, Te, Tb.
  destruct (copy_rows_contents (gr_ID (pi_Group inp)) (vr_ID v) (pi_ActorID inp) t
    (select (working (gr_ID (pi_Group inp))) (a_endpoints d1)) (a_endpoints d1)) as [Cs Cw].
  { apply Forall_forall. intros e [_ He]%select_elem. by apply working_split in He as (? & _). }
  split.
  - rewrite Hv. cbn. by rewrite (latest_same _ d d1).
  - rewrite Tv. cbn. by rewrite <-Sv.
  - rewrite Te. cbn. destruct (pi_ReplaceEndpoints inp); [|by rewrite Cw].
    destruct Hw as (cs & Hcs & Hw). exists cs. split; [done|]. by rewrite Cw.
  - rewrite Te. cbn. rewrite Cs, Cw. unfold contents.
    rewrite (select_nil (of_version _ _)), app_nil_r; [done|].
    intros k e Hk. apply not_true_iff_false. intros (_ & Hev & _)%of_version_split.
    destruct (ok_snapshots d1 Hd1 k e _ Hk Hev) as (r & Hr & _). congruence.
  - by rewrite Tb.
Qed.

(** Numbers in use are at most the latest one. *)
Lemma latest_number_max gid d k v :
  a_versions d !! k = Some v -> vr_APIGroupID v = gid -> (vr_VersionNumber v <= latest_number gid d)%Z.
Proof.
  intros Hk Hg. unfold latest_number.
  assert (v ∈ select (of_group gid) (a_versions d)) as Hv.
  { apply select_elem. split; [by exists k|]. unfold of_group. by rewrite Hg, String.eqb_refl. }
  induction (select _ _) as [|x l IH]; [by apply not_elem_of_nil in Hv|]. cbn.
  apply elem_of_cons in Hv as [->|Hv]; [lia|]. specialize (IH Hv). lia.
Qed.
End Publish.

(** ** Requests that publish *)

Section Requests.
Context `{Collation} `{Jsonb} `{UnicodeCase} `{UnicodeDigits} `{MapRange} `{SpecDecoder} `{GraphQLParser}
  `{ProtoParser} `{UuidGen} `{Sha256} (storage : bool) (fuel : nat).
#[local] Abbreviation publish := (publishAPIGroupVersion storage fuel).

(** Object storage apart, nothing changed. *)
Definition only_blobs (d d' : ApiDB) : Prop := d' = set_blobs d (a_blobs d').

Lemma only_blobs_refl d : only_blobs d d.
Proof. by destruct d. Qed.
Lemma only_blobs_trans d1 d2 d3 : only_blobs d1 d2 -> only_blobs d2 d3 -> only_blobs d1 d3.
Proof. unfold only_blobs. intros -> ->. by destruct d1. Qed.
Lemma only_blobs_ok d d' : only_blobs d d' -> api_ok d -> api_ok d'.
Proof. intros ->. apply ok_set_blobs. Qed.

Lemma Upload_blobs key c w r w' : Upload key c w = (r, w') -> only_blobs (w_db w) (w_db w').
Proof. intros [[_ ->]|(d & [= <- <-] & ->)]%db_op_cases; [apply only_blobs_refl|]. by unfold only_blobs. Qed.
Lemma Download_blobs key w r w' : Download key w = (r, w') -> w_db w' = w_db w.
Proof. intros [[_ ->]|(d & Hd & ->)]%db_op_cases; [done|]. by destruct (a_blobs (w_db w) !! key); simplify_eq. Qed.
Lemma failing_db {DB A} (m : Eff (World DB) (result store_err A)) w r w' :
  failing m w = (r, w') -> exists r', m w = (r', w') /\ (forall a, r = Ok a -> r' = Ok a).
Proof. unfold failing. destruct (m w) as [[a|e] w1]; intros [= <- <-]; eexists; (split; [done|]); by intros ? [= ->]. Qed.

(** An endpoint put back: its content, with the agreement of a live endpoint of the working copy
    that has the same operation, if there is one. *)
Definition carried (gid : string) (d : ApiDB) (e e' : APIEndpoint) : Prop :=
  ep_APIGroupID e' = ep_APIGroupID e /\ ep_APIGroupVersionID e' = ep_APIGroupVersionID e /\
  (ep_Content e' = ep_Content e \/
   exists x sla, x ∈ select (working gid) (a_endpoints d) /\ endpointSLAKey x = endpointSLAKey e /\
     ec_SLA (ep_Content x) = Some sla /\ ep_Content e' = set_sla (ep_Content e) (Some sla)).

Lemma sla_index_elem l k sla :
  sla_index l !! k = Some sla -> exists x, x ∈ l /\ endpointSLAKey x = k /\ ec_SLA (ep_Content x) = Some sla.
Proof.
  unfold sla_index. assert (forall m : gmap string EndpointSLA,
    fold_left (fun byKey e => match ec_SLA (ep_Content e) with Some s => <[endpointSLAKey e := s]> byKey
                              | None => byKey end) l m !! k = Some sla ->
    m !! k = Some sla \/ exists x, x ∈ l /\ endpointSLAKey x = k /\ ec_SLA (ep_Content x) = Some sla) as Hf.
  { induction l as [|e l IH]; intros m; cbn; [auto|]. intros [Hm|(x & Hx & Hk)]%IH.
    - destruct (ec_SLA (ep_Content e)) as [s|] eqn:Es; [|auto].
      apply lookup_insert_Some in Hm as [[<- <-]|[_ ?]]; [|auto]. right. exists e. split; [left|done].
    - right. exists x. split; [by right|done]. }
  intros [Hm|?]%Hf; [by rewrite lookup_empty in Hm|done].
Qed.

Lemma preserve_carried gid d l hash eps :
  (forall x, x ∈ l -> x ∈ select (working gid) (a_endpoints d)) ->
  Forall2 (carried gid d) eps (preserveEndpointSLAs l (map (with_commit hash) eps)).
Proof.
  intros Hl. unfold preserveEndpointSLAs. induction eps as [|e eps IH]; cbn; constructor; [|done].
  destruct (sla_index l !! _) as [sla|] eqn:Es; [|by repeat split; left].
  apply sla_index_elem in Es as (x & Hx & Hk & Hs). split_and!; [done..|]. right. exists x, sla. auto.
Qed.
Lemma unpreserved_carried gid d hash eps : Forall2 (carried gid d) eps (map (with_commit hash) eps).
Proof. induction eps as [|e eps IH]; cbn; constructor; [|done]. repeat split. by left. Qed.

(** [publishAPIGroupVersion], given the endpoints. *)
Definition put_back (gid : string) (eps : list APIEndpoint) (d : ApiDB) (v : APIGroupVersion) (d' : ApiDB) : Prop :=
  vr_VersionNumber v = (latest_number gid d + 1)%Z /\
  a_versions d !! vr_ID v = None /\ a_versions d' = <[vr_ID v := v]> (a_versions d) /\
  (exists eps' cs, Forall2 (carried gid d) eps eps' /\ Forall2 stored eps' cs /\
     contents (working gid) (a_endpoints d') ≡ₚ cs) /\
  contents (of_version gid (vr_ID v)) (a_endpoints d') ≡ₚ contents (working gid) (a_endpoints d').

(** What is known when the input of the transaction is ready. *)
Definition input_for (gid : string) (eps : list APIEndpoint) (inp : PublishInput) : Prop :=
  gr_ID (pi_Group inp) = gid /\ pi_ReplaceEndpoints inp = true /\ pi_NewEndpoints inp = eps /\
  vr_APIGroupID (pi_Version inp) = gid /\ vr_VersionNumber (pi_Version inp) = 0%Z.

Lemma carried_fresh gid d eps eps' :
  Forall (fun e => ep_APIGroupID e = gid /\ ep_APIGroupVersionID e = None) eps -> Forall2 (carried gid d) eps eps' ->
  Forall (fun e => ep_APIGroupID e = gid /\ ep_APIGroupVersionID e = None) eps'.
Proof.
  intros He Hc. revert He. induction Hc as [|e e' eps eps' (Hg & Hv & _) _ IH]; [done|].
  intros [? ?]%Forall_cons. constructor; [by rewrite Hg, Hv|auto].
Qed.

Lemma put_back_tx now inp gid d0 eps eps' t d v d' :
  only_blobs d0 d -> api_ok d0 -> Forall (fun e => ep_APIGroupID e = gid /\ ep_APIGroupVersionID e = None) eps ->
  input_for gid eps' inp -> Forall2 (carried gid d0) eps eps' -> publish_tx now inp t d = (Ok v, d') ->
  put_back gid eps d0 v d'.
Proof.
  intros Hd Hok He (Hg & Hr & Hn & Hvg & Hv0) Hc Htx. pose proof (carried_fresh _ _ _ _ He Hc) as He'.
  destruct (publish_spec now inp t d v d') as [Pn Pv Pw Ps _].
  - by eapply only_blobs_ok.
  - split; [congruence|]. rewrite Hn. apply (Forall_impl _ _ _ He'). by intros e [_ ?].
  - rewrite Hn, Hg. apply (Forall_impl _ _ _ He'). by intros e [? _].
  - done.
  - rewrite Hg, Hr, Hn, Hv0 in *. destruct Pw as (cs & Hcs & Pw). rewrite Hd in Pn, Pv.
    split_and!; [done|apply Pv|apply Pv| |done]. by exists eps', cs.
Qed.

Lemma publish_given p eps w v g' w' :
  pp_endpoints p = Some eps -> api_ok (w_db w) ->
  Forall (fun e => ep_APIGroupID e = gr_ID (pp_group p) /\ ep_APIGroupVersionID e = None) eps ->
  publish p w = (Ok (v, g'), w') -> put_back (gr_ID (pp_group p)) eps (w_db w) v (w_db w').
Proof.
  intros Hp Hok He Hw. set (gid := gr_ID (pp_group p)) in *. set (d0 := w_db w) in *.
  pose (post := fun (r : result go_err (APIGroupVersion * APIGroup)) (s : World ApiDB) =>
    match r with Ok vg => put_back gid eps d0 vg.1 (w_db s) | Err _ => True end).
  enough (post (publish p w).1 (publish p w).2) as Hpost by (by rewrite Hw in Hpost). clear v g' w' Hw.
  unfold publishAPIGroupVersion. apply wp_func.
  wp_step. pose proof (time_now_db w) as Ht. destruct (time_now w) as [now w1]. cbn [fst snd] in *.
  wp_step. pose proof (NewString_db w1) as Hid. destruct (NewString w1) as [[vid|er] w2]; [|done]. cbn [fst snd] in *.
  assert (only_blobs d0 (w_db w2)) as Hb by (rewrite Hid, Ht; apply only_blobs_refl). clear Ht Hid.
  rewrite wp_bind. eapply (wp_mono _ post _ (fun inp s => input_for gid eps inp /\ only_blobs d0 (w_db s))); [|done|].
  - destruct (negb (str_empty (pp_spec p))).
    + wp_step. split; [done|]. intros _.
      wp_step. destruct (failing (Upload _ _) w2) as [[[]|er] w3] eqn:E3; [|done].
      apply failing_db in E3 as (r3 & E3 & _). apply Upload_blobs in E3.
      wp_step. destruct (failing (Upload _ _) w3) as [[[]|er] w4] eqn:E4; [|done].
      apply failing_db in E4 as (r4 & E4 & _). apply Upload_blobs in E4.
      unfold replace_from. rewrite Hp. wp_step. split; [done|]. eauto using only_blobs_trans.
    + wp_step. split; [done|]. intros key _. wp_step. split; [done|]. intros hash _. wp_step. split; [done|]. intros _.
      wp_step. destruct (failing (Download _) w2) as [[content|er] w3] eqn:E3; [|done].
      apply failing_db in E3 as (r3 & E3 & _). apply Download_blobs in E3.
      wp_step. destruct (failing (Upload _ _) w3) as [[[]|er] w4] eqn:E4; [|done].
      apply failing_db in E4 as (r4 & E4 & _). apply Upload_blobs in E4. rewrite E3 in E4.
      wp_step. rewrite Hp. split; [done|]. eauto using only_blobs_trans.
  - intros inp s (Hin & Hs). destruct Hin as (Hg & Hr & Hn & Hvg & Hv0). rewrite Hr, Hn.
    rewrite wp_bind. eapply (wp_mono _ post _ (fun eps' s => Forall2 (carried gid d0) eps eps' /\ only_blobs d0 (w_db s)));
      [|done|].
    + wp_step. destruct (ListAPIEndpoints _ _ s) as [[l|er] s1] eqn:El; cbn [fst snd].
      * apply db_read_ok in El as [-> ->]. split; [|done]. apply preserve_carried. intros x Hx.
        apply sort_stable_elem in Hx. rewrite Hs in Hx. apply select_elem in Hx as [Hx Hw2]. apply select_elem.
        split; [done|]. by apply andb_true_iff in Hw2 as [? _].
      * apply db_read_db in El as ->. split; [|done]. apply unpreserved_carried.
    + intros eps' s1 (Hc & Hs1). wp_step.
      destruct (failing (PublishAPIGroupVersion _) s1) as [[v1|er] s2] eqn:Ep; [|done].
      apply failing_db in Ep as (r & Ep & Hr'). rewrite (Hr' v1 eq_refl) in Ep.
      unfold PublishAPIGroupVersion, func, gbind, call in Ep. pose proof (time_now_db s1) as Ht.
      destruct (time_now s1) as [now' s1']. cbn [fst snd] in *. destruct (db_op _ s1') as [r1 s2'] eqn:Eo.
      injection Ep as -> ->. apply db_op_ok in Eo. cbn.
      refine (put_back_tx now' _ gid d0 eps eps' _ _ _ _ _ Hok He _ Hc Eo); [by rewrite Ht|by split].
Qed.

Lemma set_sla_stored c s : content_ok c -> content_ok (set_sla c s).
Proof.
  unfold content_ok, stored_content. cbn. intros Hc.
  destruct (ec_Parameters c ≫= jsonb); [|done]. cbn in *. destruct (ec_RequestBody c ≫= jsonb); [|done]. cbn in *.
  destruct (ec_Responses c ≫= jsonb); [|done]. cbn in *. destruct (ec_ExampleRequests c ≫= jsonb); [|done]. cbn in *.
  destruct (ec_ExampleResponses c ≫= jsonb); [|done]. cbn in *. injection Hc as Hc. by rewrite <-Hc.
Qed.

Definition content_key (c : EndpointContent) : string :=
  if negb (str_empty (ec_OperationID c)) then "op:" +:+ ec_OperationID c
  else "mp:" +:+ ToUpper (ec_Method c) +:+ " " +:+ ec_Path c.

(** A content of a snapshot as it comes back. *)
Definition comes_back (now_working : list EndpointContent) (c c' : EndpointContent) : Prop :=
  c' = c \/ exists x sla, x ∈ now_working /\ content_key x = content_key c /\ ec_SLA x = Some sla /\
              c' = set_sla c (Some sla).

Lemma carried_comes_back gid d eps eps' cs :
  Forall (fun e => content_ok (ep_Content e)) eps -> Forall2 (carried gid d) eps eps' -> Forall2 stored eps' cs ->
  Forall2 (comes_back (contents (working gid) (a_endpoints d))) (map ep_Content eps) cs.
Proof.
  intros Hok Hc. revert cs Hok.
  induction Hc as [|e e' eps eps' (_ & _ & Hcar) _ IH]; intros cs Hok Hcs; inversion Hcs as [|? c ? cs' Hst Hcs']; subst;
    [constructor|].
  apply Forall_cons in Hok as [He Hok]. cbn. constructor; [|by apply IH].
  assert (content_ok (ep_Content e')) as He'.
  { destruct Hcar as [->|(x & sla & _ & _ & _ & ->)]; [done|by apply set_sla_stored]. }
  unfold stored in Hst. rewrite or_default_ok, He' in Hst by done. injection Hst as <-.
  destruct Hcar as [?|(x & sla & Hx & Hk & Hs & ?)]; [by left|]. right. exists (ep_Content x), sla.
  split_and!; try done. apply list_elem_of_fmap. by exists x.
Qed.

Lemma fail_not_200 e : status (fail e) <> 200%Z.
Proof. destruct e; [apply HttpError_not_200|done..]. Qed.

Lemma live_group_wp gid w (post : Reply -> World ApiDB -> Prop) (Q : APIGroup -> World ApiDB -> Prop) :
  (forall r s, status r <> 200%Z -> post r s) ->
  (forall g s, w_db s = w_db w -> a_groups (w_db w) !! gid = Some g -> gr_live g = true -> Q g s) ->
  wp (live_group gid) post Q w.
Proof.
  intros Hr HQ. unfold live_group. wp_step. destruct (GetAPIGroup gid w) as [[o|e] w1] eqn:E;
    [|apply Hr, HttpError_not_200].
  apply db_read_ok in E as [-> Hw]. wp_step. split; [by intros _; apply Hr|]. intros g Hg. wp_step.
  rewrite negb_true_iff, negb_false_iff. split; [by intros _; apply Hr|]. intros Hl. by apply HQ.
Qed.

Lemma restored_copies gid actor now l eps :
  Forall (fun e => ep_APIGroupID e = gid /\ content_ok (ep_Content e)) l ->
  Forall2 (fun e e' => exists id, e' = restored id actor now e) l eps ->
  Forall (fun e => ep_APIGroupID e = gid /\ ep_APIGroupVersionID e = None) eps /\
  Forall (fun e => content_ok (ep_Content e)) eps /\ map ep_Content eps = map ep_Content l.
Proof.
  intros Hl. induction 1 as [|e e' l eps [id ->] _ IH]; [done|]. apply Forall_cons in Hl as [[Hg Hc] Hl].
  destruct (IH Hl) as (? & ? & Hm). split_and!; [by constructor|by constructor|]. cbn. by rewrite Hm.
Qed.

Definition put_back_version (gid vid : string) (d d' : ApiDB) : Prop :=
  exists old v l cs,
    a_versions d !! vid = Some old /\ vr_APIGroupID old = gid /\
    vr_VersionNumber v = (latest_number gid d + 1)%Z /\
    a_versions d !! vr_ID v = None /\ a_versions d' = <[vr_ID v := v]> (a_versions d) /\
    l ≡ₚ contents (of_version gid vid) (a_endpoints d) /\
    Forall2 (comes_back (contents (working gid) (a_endpoints d))) l cs /\
    contents (working gid) (a_endpoints d') ≡ₚ cs /\ contents (of_version gid (vr_ID v)) (a_endpoints d') ≡ₚ cs.

Lemma Restore_spec ctx sid gid vid w r w' :
  api_ok (w_db w) -> RestoreAPIGroupVersion storage fuel ctx sid gid vid w = (r, w') -> status r = 200%Z ->
  put_back_version gid vid (w_db w) (w_db w').
Proof.
  intros Hok. set (d0 := w_db w) in *.
  pose (post := fun (r : Reply) (s : World ApiDB) => status r = 200%Z -> put_back_version gid vid d0 (w_db s)).
  intros Hw. enough (post (RestoreAPIGroupVersion storage fuel ctx sid gid vid w).1
    (RestoreAPIGroupVersion storage fuel ctx sid gid vid w).2) as Hpost by (by rewrite Hw in Hpost). clear r w' Hw.
  assert (forall r s, status r <> 200%Z -> post r s) as Hno by (by intros ????).
  unfold RestoreAPIGroupVersion. apply wp_func. wp_step. split; [by intros _; apply Hno|]. intros p _.
  rewrite wp_bind. apply live_group_wp; [done|]. intros g w1 Hw1 Hg _. fold d0 in Hw1, Hg.
  apply (ok_groups d0 Hok) in Hg. subst gid.
  wp_step. destruct (GetAPIGroupVersion vid w1) as [[o|e] w2] eqn:E2; [|apply Hno, HttpError_not_200].
  apply db_read_ok in E2 as [-> Hw2]. rewrite Hw1 in *.
  wp_step. split; [by intros _; apply Hno|]. intros old Hold.
  wp_step. split; [by intros _; apply Hno|]. intros Hgv%negb_false_iff%String.eqb_eq.
  wp_step. split; [by intros _; apply Hno|]. intros _.
  wp_step. destruct (Download (vr_SpecKey old) w2) as [[content|e] w3] eqn:E3; [|apply Hno, HttpError_not_200].
  apply Download_blobs in E3. rewrite Hw2 in E3.
  wp_step. destruct (ListAPIEndpointsForVersion _ _ _ w3) as [[l|e] w4] eqn:E4; [|apply Hno, HttpError_not_200].
  apply db_read_ok in E4 as [Hl Hw4]. rewrite E3 in Hl, Hw4.
  wp_step. pose proof (time_now_db w4) as Ht. destruct (time_now w4) as [now w5]. cbn [fst snd] in *. rewrite Hw4 in Ht.
  assert (vr_ID old = vid) as Hvid by (apply (ok_versions d0 Hok vid old Hold)).
  rewrite wp_bind. eapply (wp_mono _ post _); [|done|].
  - apply (wp_each _ l (fun e e' => exists id, e' = restored id (p_UserID p) now e) (fun s => w_db s = d0)); [|done].
    intros e s _ Hs. wp_step. pose proof (NewString_db s) as Hid. destruct (NewString s) as [[id|er] s1];
      [|apply Hno, fail_not_200]. wp_step. cbn in Hid. split; [by exists id|congruence].
  - intros eps s [Heps Hs].
    assert (l ≡ₚ select (of_version (gr_ID g) vid) (a_endpoints d0)) as Hperm.
    { rewrite Hl, Hvid. unfold order_by. rewrite sort_stable_perm. rewrite (select_ext _ (of_version (gr_ID g) vid)); [done|].
      intros e. cbn. apply andb_true_r. }
    destruct (restored_copies (gr_ID g) (p_UserID p) now l eps) as (He1 & He2 & He3); [|done|].
    { rewrite Hperm. apply Forall_forall. intros e [[k Hk] Hv]%select_elem. apply of_version_split in Hv as (? & _).
      split; [done|]. by apply (ok_endpoints d0 Hok k e Hk). }
    wp_step. destruct (publish _ s) as [[[v g']|er] s1] eqn:Ep; [|apply Hno, fail_not_200].
    eapply publish_given in Ep; [|done|by rewrite Hs|done]. rewrite Hs in Ep. wp_step. intros _.
    destruct Ep as (Hn & Hfree & Hvs & (eps' & cs & Hc & Hst & Hwk) & Hsn).
    exists old, v, (map ep_Content l), cs. split_and!; try done.
    + unfold contents. by rewrite Hperm.
    + rewrite <-He3. by eapply carried_comes_back.
    + by rewrite Hsn.
Qed.

(** ** The theorems *)

(** Requests served one after the other; each may fail anywhere. *)
Definition served (rqs : list (option Principal * api_request)) (w : World ApiDB) : World ApiDB :=
  fold_left (fun w cr => (serve storage fuel cr.1 cr.2 w).2) rqs w.

Lemma serve_ok ctx rq w : api_ok (w_db w) -> api_ok (w_db (serve storage fuel ctx rq w).2).
Proof. intros Hw. eapply api_ops_ok; [|exact Hw]. by apply (serve_reach storage fuel (named_endpoint rq)). Qed.

Lemma served_ok rqs w : api_ok (w_db w) -> api_ok (w_db (served rqs w)).
Proof. revert w. induction rqs as [|[ctx rq] rqs IH]; intros w Hw; [done|]. by apply IH, serve_ok. Qed.

(** (C17) Whatever requests are served, and wherever they fail: version numbers are unique in a
    group and fit their column, a snapshot row belongs to a version of its own group, no two live endpoints
    of a working copy share method and path, every row refers to a group that exists, and its content is
    what its columns hold. *)
Theorem groups_always_ok rqs w : api_ok (w_db w) -> api_ok (w_db (served rqs w)).
Proof. apply served_ok. Qed.

Lemma served_history k rqs w :
  api_ok (w_db w) -> Forall (fun cr => named_endpoint cr.2 <> Some k) rqs ->
  (forall v r, a_versions (w_db w) !! v = Some r -> a_versions (w_db (served rqs w)) !! v = Some r) /\
  (forall v r e, a_versions (w_db w) !! v = Some r -> ep_APIGroupVersionID e = Some v ->
     a_endpoints (w_db (served rqs w)) !! k = Some e <-> a_endpoints (w_db w) !! k = Some e).
Proof.
  revert w. induction rqs as [|[ctx rq] rqs IH]; intros w Hw Hr; [done|].
  apply Forall_cons in Hr as [Hn Hr]. cbn in Hn. set (w1 := (serve storage fuel ctx rq w).2).
  destruct (api_ops_history (named_endpoint rq) (w_db w) (w_db w1) Hw) as [V E].
  { by apply (serve_reach storage fuel (named_endpoint rq)). }
  destruct (IH w1 (serve_ok ctx rq w Hw) Hr) as [V' E']. split; [auto|].
  intros v r e Hv He. change (served ((ctx, rq) :: rqs) w) with (served rqs w1). rewrite (E' v r e); [|auto|done].
  by apply (E v r).
Qed.

(** (lemma) History is kept.  Once a version exists, no request changes it; and a row of its snapshot
    stays exactly as it is under every request that does not name it as an endpoint to edit or delete -
    publishing, restoring, updating, synchronising and deleting groups included - and no row joins the
    snapshot later. *)
Theorem history_kept k rqs w :
  api_ok (w_db w) -> Forall (fun cr => named_endpoint cr.2 <> Some k) rqs ->
  (forall v r, a_versions (w_db w) !! v = Some r -> a_versions (w_db (served rqs w)) !! v = Some r) /\
  (forall v r e, a_versions (w_db w) !! v = Some r -> ep_APIGroupVersionID e = Some v ->
     a_endpoints (w_db (served rqs w)) !! k = Some e <-> a_endpoints (w_db w) !! k = Some e).
Proof. apply served_history. Qed.

Lemma publish_call inp w r w' :
  api_ok (w_db w) -> pub_ok inp -> Forall (fun e => ep_APIGroupID e = gr_ID (pi_Group inp)) (pi_NewEndpoints inp) ->
  PublishAPIGroupVersion inp w = (r, w') ->
  match r with
  | Ok v => exists now, published now inp (w_db w) v (w_db w')
  | Err _ => w_db w' = w_db w
  end.
Proof.
  intros Hok Hp Hg. unfold PublishAPIGroupVersion, func, gbind, call.
  pose proof (time_now_db w) as Ht. destruct (time_now w) as [now w1]. cbn in Ht. destruct (db_op _ w1) as [r1 w2] eqn:E.
  intros [= -> ->]. apply db_op_cases in E as [[-> Hw]|(d & Hd & Hw)]; [congruence|]. rewrite Hw. rewrite Ht in Hd.
  destruct r as [v|e]; [|by apply publish_tx_inv in Hd]. exists now. by eapply publish_spec.
Qed.

(** (C18) Publishing is all or nothing.  On an error no table changes.  On success there is one new
    version, numbered one above the highest of its group unless the caller gives a number; the working copy holds
    exactly the new endpoints' contents as the columns keep them, or what it held, if none were given; and the
    snapshot of the version has exactly the contents of the working copy. *)
Theorem publish_correct inp w r w' :
  api_ok (w_db w) -> pub_ok inp -> Forall (fun e => ep_APIGroupID e = gr_ID (pi_Group inp)) (pi_NewEndpoints inp) ->
  PublishAPIGroupVersion inp w = (r, w') ->
  match r with
  | Ok v => exists now, published now inp (w_db w) v (w_db w')
  | Err _ => w_db w' = w_db w
  end.
Proof. apply publish_call. Qed.

(** (C19) A successful restore brings the snapshot of the version back.  The working copy's contents
    are those of the snapshot, one for one, except that an endpoint may carry the agreement (SLA) an endpoint of
    the replaced working copy had for the same operation; a new version is cut with the same contents, numbered
    one above the latest; and the restored version itself is still there. *)
Theorem Restore_correct ctx sid gid vid w r w' :
  api_ok (w_db w) -> RestoreAPIGroupVersion storage fuel ctx sid gid vid w = (r, w') -> status r = 200%Z ->
  put_back_version gid vid (w_db w) (w_db w').
Proof. apply Restore_spec. Qed.
End Requests.

(** ** A concrete instance *)

Module ApiDemo.
Import OpenAPIDemo.
#[local] Existing Instance ascending.
#[local] Existing Instance no_wide_digits.
#[local] Existing Instance ApiSpecDemo.case.
#[local] Existing Instance ApiSpecDemo.uuid.
#[local] Existing Instance ApiSpecDemo.decoder.
#[local] Existing Instance CryptoDemo.toy_sha.
#[local] Instance demo_collation : Collation :=
  {| text_less := by_key (fun s => Z.of_nat (String.length s)); text_lower := map_bytes lower_byte;
     text_less_strict := by_key_strict_weak _ |}.
#[local] Instance plain_jsonb : Jsonb := {| jsonb s := Some s; jsonb_idem _ _ _ := eq_refl |}.
#[local] Instance no_graphql : GraphQLParser := {| LoadSchema _ := Err "no parser" |}.
#[local] Instance no_proto : ProtoParser := {| Parse _ _ := Err "no parser" |}.

Definition ann : option Principal := Some (mkPrincipal "user" "ann" "org" false "" [] "local").
Definition empty_db : ApiDB := mkApiDB {[ "org" ]} {[ "svc" ]} ∅ ∅ ∅ ∅.
Definition start : World ApiDB := mkWorld empty_db [] 100 [] (map N.of_nat (seq 0 160)).

Definition create : option Principal * api_request :=
  (ann, RCreateGroup "org" "svc" (Some (mkCreateGroup "shop" "" None "" "pets" None))).
Definition gid : string := hex_encode (map N.of_nat (seq 0 16)).
Definition v1 : string := hex_encode (map N.of_nat (seq 16 16)).
Definition created : World ApiDB := served true 20 [create] start.
Definition snap (w : World ApiDB) : list EndpointContent := contents (of_version gid v1) (a_endpoints (w_db w)).
Definition d_created : ApiDB := w_db created.

Lemma empty_ok : api_ok empty_db.
Proof. by split. Qed.
Lemma demo_created_ok : api_ok d_created.
Proof. apply (served_ok true 20 [create] start), empty_ok. Qed.

Lemma groups_always_ok_witness : api_ok (w_db (served true 20 [create; create] start)).
Proof. apply groups_always_ok, empty_ok. Defined.

(** Deleting an endpoint, restoring the version, deleting the group: the snapshot stays. *)
Definition pets_id : string := hex_encode (map N.of_nat (seq 64 16)).
Definition drop_pets : option Principal * api_request := (ann, RDeleteEndpoint pets_id).
Definition restore : option Principal * api_request := (ann, RRestoreVersion "svc" gid v1).
Definition drop_group : option Principal * api_request := (ann, RDeleteGroup gid).

Lemma history_kept_witness :
  exists e, a_endpoints d_created !! "1" = Some e /\
    a_endpoints (w_db (served true 20 [drop_pets; restore; drop_group] created)) !! "1" = Some e.
Proof.
  destruct (a_endpoints d_created !! "1") as [e|] eqn:Ee; [|by vm_compute in Ee].
  destruct (a_versions d_created !! v1) as [r|] eqn:Er; [|by vm_compute in Er].
  exists e. split; [done|].
  apply (history_kept true 20 "1" [drop_pets; restore; drop_group] created demo_created_ok) with (v := v1) (r := r).
  - repeat constructor; discriminate.
  - exact Er.
  - vm_compute in Ee. by injection Ee as <-.
  - exact Ee.
Defined.

(** A snapshot can be edited after all, through the endpoint routes: they take the id of any row. *)
Definition edit : option Principal * api_request :=
  (ann, RUpdateEndpoint "1" (Some (mkUpdateEndpoint None None (Some "/changed") None None None None None None None
                                     None None None))).

(** (lemma) An endpoint request that names a row of a snapshot edits the snapshot: the version, whose
    row is unchanged, then lists a path it was not published with. *)
Theorem snapshot_edited :
  (serve true 20 edit.1 edit.2 created).1 <> HttpError ErrNotFound /\
  a_versions (w_db (served true 20 [edit] created)) = a_versions d_created /\
  ("/changed" ∉ map ec_Path (snap created)) /\ "/changed" ∈ map ec_Path (snap (served true 20 [edit] created)).
Proof.
  split_and!; [vm_compute; discriminate|vm_compute; reflexivity| |]; apply (bool_decide_unpack _); vm_compute; exact I.
Qed.

(** The endpoints of the first version published again, by hand, and the same twice over. *)
Definition the_group : APIGroup :=
  default (mkGroup "" "" "" "" "" None "" None None (new_audit "" 0)) (a_groups d_created !! gid).
Definition fresh_copies : list APIEndpoint :=
  imap (fun i e => restored (Itoa (Z.of_nat i) +:+ "-new") "ann" 5 e) (select (of_version gid v1) (a_endpoints d_created)).
Definition third : PublishInput :=
  mkPublish the_group true fresh_copies (mkVersion "v2" gid 0 None "k" "h" false "ann" None 5) "ann".

Definition twice : PublishInput :=
  mkPublish the_group true (fresh_copies ++ fresh_copies) (pi_Version third) "ann".

Definition is_ok {E A} (r : result E A) : bool := match r with Ok _ => true | Err _ => false end.

Lemma inputs_ok inp : inp = third \/ inp = twice ->
  pub_ok inp /\ Forall (fun e => ep_APIGroupID e = gr_ID (pi_Group inp)) (pi_NewEndpoints inp).
Proof. intros [->| ->]; (split; [split; [reflexivity|]|]); vm_compute; repeat constructor. Qed.

Lemma publish_correct_witness :
  match PublishAPIGroupVersion third created with
  | (Ok v, w') => exists now, published now third d_created v (w_db w')
  | (Err _, _) => False
  end /\
  match PublishAPIGroupVersion twice created with
  | (Ok _, _) => False
  | (Err _, w') => w_db w' = d_created
  end.
Proof.
  pose proof (publish_correct third created _ _ demo_created_ok (proj1 (inputs_ok third (or_introl eq_refl)))
    (proj2 (inputs_ok third (or_introl eq_refl))) (surjective_pairing _)) as H3.
  pose proof (publish_correct twice created _ _ demo_created_ok (proj1 (inputs_ok twice (or_intror eq_refl)))
    (proj2 (inputs_ok twice (or_intror eq_refl))) (surjective_pairing _)) as H2.
  assert (is_ok (PublishAPIGroupVersion third created).1 = true) as E3 by (vm_compute; reflexivity).
  assert (is_ok (PublishAPIGroupVersion twice created).1 = false) as E2 by (vm_compute; reflexivity).
  destruct (PublishAPIGroupVersion third created) as [[v|e] w3]; [|discriminate E3].
  destruct (PublishAPIGroupVersion twice created) as [[v'|e] w2]; [discriminate E2|].
  split; [exact H3|exact H2].
Defined.

Definition short : World ApiDB := served true 20 [drop_pets] created.

Lemma Restore_correct_witness :
  status (serve true 20 restore.1 restore.2 short).1 = 200%Z /\
  length (contents (working gid) (a_endpoints (w_db short))) = 2 /\
  put_back_version gid v1 (w_db short) (w_db (served true 20 [restore] short)).
Proof.
  split; [vm_compute; reflexivity|]. split; [vm_compute; reflexivity|].
  apply (Restore_correct true 20 ann "svc" gid v1 short (serve true 20 restore.1 restore.2 short).1).
  - apply served_ok, demo_created_ok.
  - apply surjective_pairing.
  - vm_compute. reflexivity.
Defined.

Definition broken : option Principal * api_request :=
  (ann, RUpdateGroup "svc" gid (Some (mkUpdateGroup None None None None (Some "broken") None))).
Definition refused : Reply * World ApiDB := serve true 20 broken.1 broken.2 created.

(** (lemma) A specification that does not parse is refused with an internal error and no table changes;
    but object storage already holds it under the group's own key, beside the hash of the specification it
    replaced. *)
Theorem refused_spec_stored :
  status refused.1 = 500%Z /\ w_db refused.2 = set_blobs d_created (a_blobs (w_db refused.2)) /\
  exists g key, a_groups (w_db refused.2) !! gid = Some g /\ gr_SpecKey g = Some key /\
    gr_SpecHash g = Some (specHash "pets") /\
    a_blobs d_created !! key = Some "pets" /\ a_blobs (w_db refused.2) !! key = Some "broken".
Proof.
  split; [vm_compute; reflexivity|]. split; [vm_compute; reflexivity|].
  exists the_group, (APIGroupSpecKey "org" "svc" gid). split_and!; vm_compute; reflexivity.
Qed.
End ApiDemo.
