(* ===== verification/AuthStore.v ===== *)
(** * AuthStore: the identity tables of Postgres and the store that reads them

    Models [internal/store/postgres] for users, sessions, organizations,
    members, auth providers, role mappings, login states, service accounts
    and tokens, with the constraints of [migrations/].  A nullable text column
    that is written with [NULLIF] and read with [COALESCE] is a string.  The
    process clock and the database clock are one ([w_clock]); times are
    nanoseconds since Go's zero time. *)

From S2P Require Import Prelude GoStrings Effects Table Authz RoleMap Identity.
Set Warnings "-clear-no-such-hyp".

(** ** Rows: [internal/org], [internal/identity] *)

Record User := mkUser {
  u_ID : string;
  u_Email : string;
  u_Name : string;
  u_Login : string;
  u_PasswordHash : string;
  u_MustChangePassword : bool;
  u_Disabled : bool;
  u_Role : string;
  u_AvatarAssetID : option string;
  u_LastSeenAt : option Z;
  u_CreatedAt : Z;
  u_UpdatedAt : Z
}.

Record Org := mkOrg {
  o_ID : string;
  o_Name : string;
  o_LogoAssetID : option string;
  o_Disabled : bool;
  o_AutoJoin : bool;
  o_OnboardingDone : bool;
  o_CreatedAt : Z;
  o_UpdatedAt : Z
}.

(** [org.OrgMember]; Email, Name and TeamID are filled by [ListMembers]. *)
Record Member := mkMember {
  m_UserID : string;
  m_OrgID : string;
  m_Role : string;
  m_Source : string;
  m_Email : string;
  m_Name : string;
  m_TeamID : option string;
  m_CreatedAt : Z;
  m_UpdatedAt : Z
}.

Record OrgMembershipView := mkMembershipView { mv_Org : Org; mv_Role : string }.

Record Team := mkTeam {
  t_ID : string; t_OrgID : string; t_Name : string; t_Email : string; t_ExternalID : string;
  t_CreatedAt : Z; t_UpdatedAt : Z
}.

Record TeamMember := mkTeamMember {
  tm_TeamID : string; tm_UserID : string; tm_OrgID : string; tm_Permission : string;
  tm_CreatedAt : Z; tm_UpdatedAt : Z
}.

Record AuthIdentity := mkAuthIdentity { ai_UserID : string; ai_ProviderID : string; ai_Sub : string }.

(** A role mapping and the column [created_at] that orders it. *)
Record RuleRow := mkRuleRow { rr_Rule : Rule; rr_CreatedAt : Z }.

(** A service account and its soft-delete column. *)
Record SARow := mkSARow { sar : ServiceAccount; sar_DeletedAt : option Z }.

Record Attempt := mkAttempt { at_Username : string; at_IP : string; at_CreatedAt : Z }.

Record AuthDB := mkAuthDB {
  users : gmap string User;
  orgs : gmap string Org;
  domains : gmap string OrgDomain;
  members : gmap (string * string) Member;
  teams : gmap string Team;
  team_members : gmap (string * string) TeamMember;
  sessions : gmap string Session;
  providers : gmap string AuthProvider;
  rules : gmap string RuleRow;
  states : gmap string LoginState;
  identities : gmap (string * string) AuthIdentity;
  attempts : list Attempt;
  accounts : gmap string SARow;
  tokens : gmap string Token
}.

Definition set_users (d : AuthDB) t : AuthDB :=
  mkAuthDB t (orgs d) (domains d) (members d) (teams d) (team_members d) (sessions d)
           (providers d) (rules d) (states d) (identities d) (attempts d) (accounts d) (tokens d).
Definition set_orgs (d : AuthDB) t : AuthDB :=
  mkAuthDB (users d) t (domains d) (members d) (teams d) (team_members d) (sessions d)
           (providers d) (rules d) (states d) (identities d) (attempts d) (accounts d) (tokens d).
Definition set_domains (d : AuthDB) t : AuthDB :=
  mkAuthDB (users d) (orgs d) t (members d) (teams d) (team_members d) (sessions d)
           (providers d) (rules d) (states d) (identities d) (attempts d) (accounts d) (tokens d).
Definition set_members (d : AuthDB) t : AuthDB :=
  mkAuthDB (users d) (orgs d) (domains d) t (teams d) (team_members d) (sessions d)
           (providers d) (rules d) (states d) (identities d) (attempts d) (accounts d) (tokens d).
Definition set_teams (d : AuthDB) t : AuthDB :=
  mkAuthDB (users d) (orgs d) (domains d) (members d) t (team_members d) (sessions d)
           (providers d) (rules d) (states d) (identities d) (attempts d) (accounts d) (tokens d).
Definition set_team_members (d : AuthDB) t : AuthDB :=
  mkAuthDB (users d) (orgs d) (domains d) (members d) (teams d) t (sessions d)
           (providers d) (rules d) (states d) (identities d) (attempts d) (accounts d) (tokens d).
Definition set_sessions (d : AuthDB) t : AuthDB :=
  mkAuthDB (users d) (orgs d) (domains d) (members d) (teams d) (team_members d) t
           (providers d) (rules d) (states d) (identities d) (attempts d) (accounts d) (tokens d).
Definition set_providers (d : AuthDB) t : AuthDB :=
  mkAuthDB (users d) (orgs d) (domains d) (members d) (teams d) (team_members d) (sessions d)
           t (rules d) (states d) (identities d) (attempts d) (accounts d) (tokens d).
Definition set_rules (d : AuthDB) t : AuthDB :=
  mkAuthDB (users d) (orgs d) (domains d) (members d) (teams d) (team_members d) (sessions d)
           (providers d) t (states d) (identities d) (attempts d) (accounts d) (tokens d).
Definition set_states (d : AuthDB) t : AuthDB :=
  mkAuthDB (users d) (orgs d) (domains d) (members d) (teams d) (team_members d) (sessions d)
           (providers d) (rules d) t (identities d) (attempts d) (accounts d) (tokens d).
Definition set_identities (d : AuthDB) t : AuthDB :=
  mkAuthDB (users d) (orgs d) (domains d) (members d) (teams d) (team_members d) (sessions d)
           (providers d) (rules d) (states d) t (attempts d) (accounts d) (tokens d).
Definition set_attempts (d : AuthDB) t : AuthDB :=
  mkAuthDB (users d) (orgs d) (domains d) (members d) (teams d) (team_members d) (sessions d)
           (providers d) (rules d) (states d) (identities d) t (accounts d) (tokens d).
Definition set_accounts (d : AuthDB) t : AuthDB :=
  mkAuthDB (users d) (orgs d) (domains d) (members d) (teams d) (team_members d) (sessions d)
           (providers d) (rules d) (states d) (identities d) (attempts d) t (tokens d).
Definition set_tokens (d : AuthDB) t : AuthDB :=
  mkAuthDB (users d) (orgs d) (domains d) (members d) (teams d) (team_members d) (sessions d)
           (providers d) (rules d) (states d) (identities d) (attempts d) (accounts d) t.

Definition AuthEff (A : Type) : Type := Eff (World AuthDB) (result store_err A).

Section Store.
Context `{Collation} `{UnicodeCase}.

(** ** Users: [user_store.go] *)

(** The UNIQUE constraints on email and login, for a row of id [id]. *)
Definition user_clash (id email login : string) (t : gmap string User) : bool :=
  other_row id (fun r => String.eqb (u_Email r) email || String.eqb (u_Login r) login) t.

Definition insert_user (u : User) (d : AuthDB) : result store_err unit * AuthDB :=
  if found (users d !! u_ID u) || user_clash (u_ID u) (u_Email u) (u_Login u) (users d)
  then (violation, d)
  else (Ok tt, set_users d (<[u_ID u := u]> (users d))).

Definition stamp_user (u : User) (now : Z) : User :=
  mkUser (u_ID u) (u_Email u) (u_Name u) (u_Login u) (u_PasswordHash u) (u_MustChangePassword u)
         (u_Disabled u) (u_Role u) None None (or_now (u_CreatedAt u) now) (or_now (u_UpdatedAt u) now).

Definition CreateUser (u : User) : AuthEff unit :=
  func (now <- call time_now ;; call (db_op (fun _ => insert_user (stamp_user u now)))).

(** [ON CONFLICT (email) DO UPDATE]: the row with that email keeps its id. *)
Definition overwrite_user (u : User) (t : Z) (r : User) : User :=
  mkUser (u_ID r) (u_Email r) (u_Name u) (u_Login u) (u_PasswordHash u) (u_MustChangePassword u)
         (u_Disabled u) (u_Role u) (u_AvatarAssetID r) (u_LastSeenAt r) (u_CreatedAt r) t.

Definition UpsertUser (u : User) : AuthEff unit :=
  func (
    now <- call time_now ;;
    call (db_op (fun t d =>
      match select_one (fun r => String.eqb (u_Email r) (u_Email u)) (users d) with
      | None => insert_user (stamp_user u now) d
      | Some r =>
          if other_row (u_ID r) (fun r' => String.eqb (u_Login r') (u_Login u)) (users d)
          then (violation, d)
          else (Ok tt, set_users d (<[u_ID r := overwrite_user u t r]> (users d)))
      end))).

Definition GetUser (id : string) : AuthEff (option User) :=
  db_read (fun _ d => users d !! id).

Definition GetUserByEmail (email : string) : AuthEff (option User) :=
  db_read (fun _ d => select_one (fun r => String.eqb (u_Email r) email) (users d)).

Definition GetUserByLogin (login : string) : AuthEff (option User) :=
  db_read (fun _ d => select_one (fun r => String.eqb (u_Login r) login) (users d)).

Definition ListUsers (orgID : string) : AuthEff (list User) :=
  db_read (fun _ d =>
    order_by (by_text u_Name)
      (select (fun u => found (members d !! (u_ID u, orgID))) (users d))).

Definition ListAllUsers : AuthEff (list User) :=
  db_read (fun _ d => order_by (by_text u_Name) (rows (users d))).

Definition CountAllUsers : AuthEff nat := db_read (fun _ d => length (rows (users d))).

Definition CountActiveUsers : AuthEff nat :=
  db_read (fun _ d => length (select (fun u => negb (u_Disabled u)) (users d))).

Definition AnyUserExists : AuthEff bool :=
  db_read (fun _ d => found (head (rows (users d)))).

(** The statement sets neither the email nor the avatar. *)
Definition update_user_row (u : User) (t : Z) (r : User) : User :=
  mkUser (u_ID r) (u_Email r) (u_Name u) (u_Login u) (u_PasswordHash u) (u_MustChangePassword u)
         (u_Disabled u) (u_Role u) (u_AvatarAssetID r) (u_LastSeenAt r) (u_CreatedAt r) t.

Definition UpdateUser (u : User) : AuthEff unit :=
  db_op (fun t d =>
    if found (users d !! u_ID u) &&
       other_row (u_ID u) (fun r => String.eqb (u_Login r) (u_Login u)) (users d)
    then (violation, d)
    else (Ok tt, set_users d (alter (update_user_row u t) (u_ID u) (users d)))).

Definition disable_row (t : Z) (r : User) : User :=
  mkUser (u_ID r) (u_Email r) (u_Name r) (u_Login r) (u_PasswordHash r) (u_MustChangePassword r)
         true (u_Role r) (u_AvatarAssetID r) (u_LastSeenAt r) (u_CreatedAt r) t.

Definition DisableUser (id : string) : AuthEff unit :=
  db_write (fun t d => set_users d (alter (disable_row t) id (users d))).

Definition touch_row (t : Z) (r : User) : User :=
  mkUser (u_ID r) (u_Email r) (u_Name r) (u_Login r) (u_PasswordHash r) (u_MustChangePassword r)
         (u_Disabled r) (u_Role r) (u_AvatarAssetID r) (Some t) (u_CreatedAt r) (u_UpdatedAt r).

Definition TouchUser (id : string) : AuthEff unit :=
  db_write (fun t d => set_users d (alter (touch_row t) id (users d))).

Definition avatar_row (assetID : option string) (t : Z) (r : User) : User :=
  mkUser (u_ID r) (u_Email r) (u_Name r) (u_Login r) (u_PasswordHash r) (u_MustChangePassword r)
         (u_Disabled r) (u_Role r) assetID (u_LastSeenAt r) (u_CreatedAt r) t.

Definition SetUserAvatar (userID : string) (assetID : option string) : AuthEff unit :=
  db_write (fun t d => set_users d (alter (avatar_row assetID t) userID (users d))).

(** ** Sessions: [session_store.go] *)

Definition stamp_session (s : Session) (now : Z) : Session :=
  mkSession (s_ID s) (s_UserID s) (s_TokenHash s) (s_PrevTokenHash s) (s_AuthTokenSeen s)
            (s_SeenAt s) (s_UserAgent s) (s_ClientIP s)
            (or_now (s_RotatedAt s) now) (or_now (s_CreatedAt s) now) (s_ExpiresAt s)
            (or_now (s_LastActiveAt s) now) (s_SAMLSessionIdx s) (s_SAMLNameIDHash s)
            (if str_empty (s_AuthProvider s) then "password" else s_AuthProvider s).

Definition insert_session (s : Session) (d : AuthDB) : result store_err unit * AuthDB :=
  if found (sessions d !! s_ID s) || negb (found (users d !! s_UserID s)) ||
     exists_row (fun r => String.eqb (s_TokenHash r) (s_TokenHash s)) (sessions d)
  then (violation, d)
  else (Ok tt, set_sessions d (<[s_ID s := s]> (sessions d))).

Definition CreateSession (s : Session) : AuthEff unit :=
  func (now <- call time_now ;; call (db_op (fun _ => insert_session (stamp_session s now)))).

(** The WHERE clause of [GetSessionByToken]; a NULL hash equals nothing. *)
Definition session_live (hash : string) (now : Z) (s : Session) : bool :=
  (String.eqb (s_TokenHash s) hash ||
   (negb (str_empty (s_PrevTokenHash s)) && String.eqb (s_PrevTokenHash s) hash &&
    negb (s_AuthTokenSeen s))) &&
  (now <? s_ExpiresAt s)%Z.

Definition GetSessionByToken (hash : string) : AuthEff (option Session) :=
  db_read (fun t d => select_one (session_live hash t) (sessions d)).

Definition rotate_row (newHash prevHash : string) (t : Z) (s : Session) : Session :=
  mkSession (s_ID s) (s_UserID s) newHash prevHash false (s_SeenAt s) (s_UserAgent s) (s_ClientIP s)
            t (s_CreatedAt s) (s_ExpiresAt s) t (s_SAMLSessionIdx s) (s_SAMLNameIDHash s)
            (s_AuthProvider s).

Definition RotateSession (id newHash prevHash : string) : AuthEff unit :=
  db_op (fun t d =>
    if found (sessions d !! id) &&
       other_row id (fun r => String.eqb (s_TokenHash r) newHash) (sessions d)
    then (violation, d)
    else (Ok tt, set_sessions d (alter (rotate_row newHash prevHash t) id (sessions d)))).

Definition seen_row (t : Z) (s : Session) : Session :=
  mkSession (s_ID s) (s_UserID s) (s_TokenHash s) (s_PrevTokenHash s) true (Some t)
            (s_UserAgent s) (s_ClientIP s) (s_RotatedAt s) (s_CreatedAt s) (s_ExpiresAt s)
            (s_LastActiveAt s) (s_SAMLSessionIdx s) (s_SAMLNameIDHash s) (s_AuthProvider s).

Definition MarkTokenSeen (id : string) : AuthEff unit :=
  db_write (fun t d => set_sessions d (alter (seen_row t) id (sessions d))).

Definition DeleteSession (id : string) : AuthEff unit :=
  db_write (fun _ d => set_sessions d (delete id (sessions d))).

Definition DeleteUserSessions (userID : string) : AuthEff unit :=
  db_write (fun _ d =>
    set_sessions d (delete_where (fun s => String.eqb (s_UserID s) userID) (sessions d))).

Definition ListUserSessions (userID : string) : AuthEff (list Session) :=
  db_read (fun _ d =>
    order_by (desc (by_key s_LastActiveAt))
      (select (fun s => String.eqb (s_UserID s) userID) (sessions d))).

(** ** Organizations: [org_store.go] *)

Definition stamp_org (o : Org) (now : Z) : Org :=
  mkOrg (o_ID o) (o_Name o) (o_LogoAssetID o) (o_Disabled o) (o_AutoJoin o) (o_OnboardingDone o)
        (or_now (o_CreatedAt o) now) (or_now (o_UpdatedAt o) now).

Definition CreateOrg (o : Org) : AuthEff unit :=
  func (
    now <- call time_now ;;
    call (db_op (fun _ d =>
      if found (orgs d !! o_ID o) then (violation, d)
      else (Ok tt, set_orgs d (<[o_ID o := stamp_org o now]> (orgs d)))))).

Definition GetOrg (id : string) : AuthEff (option Org) := db_read (fun _ d => orgs d !! id).

Definition ListOrgs : AuthEff (list Org) :=
  db_read (fun _ d => order_by (by_text o_Name) (rows (orgs d))).

Definition ListAutoJoinOrgs : AuthEff (list Org) :=
  db_read (fun _ d =>
    order_by (by_text o_Name) (select (fun o => o_AutoJoin o && negb (o_Disabled o)) (orgs d))).

Definition CountAllOrgs : AuthEff nat := db_read (fun _ d => length (rows (orgs d))).

Definition UpdateOrg (o : Org) : AuthEff unit :=
  db_write (fun t d =>
    set_orgs d (alter (fun r => mkOrg (o_ID r) (o_Name o) (o_LogoAssetID r) (o_Disabled o)
                                      (o_AutoJoin o) (o_OnboardingDone r) (o_CreatedAt r) t)
                      (o_ID o) (orgs d))).

Definition SetOrgLogo (id : string) (assetID : option string) : AuthEff unit :=
  db_write (fun t d =>
    set_orgs d (alter (fun r => mkOrg (o_ID r) (o_Name r) assetID (o_Disabled r) (o_AutoJoin r)
                                      (o_OnboardingDone r) (o_CreatedAt r) t) id (orgs d))).

Definition SetOnboardingDone (id : string) : AuthEff unit :=
  db_write (fun t d =>
    set_orgs d (alter (fun r => mkOrg (o_ID r) (o_Name r) (o_LogoAssetID r) (o_Disabled r)
                                      (o_AutoJoin r) true (o_CreatedAt r) t) id (orgs d))).

(** DELETE with the ON DELETE CASCADE references to [orgs], and through them. *)
Definition cascade_org (id : string) (d : AuthDB) : AuthDB :=
  let gone_provider p :=
    match providers d !! p with Some r => String.eqb (ap_OrgID r) id | None => false end in
  let gone_team a :=
    match teams d !! a with Some r => String.eqb (t_OrgID r) id | None => false end in
  let gone_sa a :=
    match accounts d !! a with Some r => String.eqb (sa_OrgID (sar r)) id | None => false end in
  mkAuthDB (users d) (delete id (orgs d))
    (delete_where (fun x => String.eqb (od_OrgID x) id) (domains d))
    (delete_where (fun x => String.eqb (m_OrgID x) id) (members d))
    (delete_where (fun x => String.eqb (t_OrgID x) id) (teams d))
    (delete_where (fun x => String.eqb (tm_OrgID x) id || gone_team (tm_TeamID x)) (team_members d))
    (sessions d)
    (delete_where (fun x => String.eqb (ap_OrgID x) id) (providers d))
    (delete_where (fun x => gone_provider (r_ProviderID (rr_Rule x))) (rules d))
    (delete_where (fun x => String.eqb (ls_OrgID x) id || gone_provider (ls_ProviderID x)) (states d))
    (identities d) (attempts d)
    (delete_where (fun x => String.eqb (sa_OrgID (sar x)) id) (accounts d))
    (delete_where (fun x => gone_sa (tok_ServiceAccountID x)) (tokens d)).

Definition DeleteOrg (id : string) : AuthEff unit := db_write (fun _ d => cascade_org id d).

Definition AnyOrgExists : AuthEff bool := db_read (fun _ d => found (head (rows (orgs d)))).

(** ** Members: [member_store.go], [authz_store.go] *)

Definition fk_member (u o : string) (d : AuthDB) : bool :=
  found (users d !! u) && found (orgs d !! o).

Definition member_row (u o role source : string) (created updated : Z) : Member :=
  mkMember u o role source EmptyString EmptyString None created updated.

Definition AddMember (m : Member) : AuthEff unit :=
  db_op (fun t d =>
    if found (members d !! (m_UserID m, m_OrgID m)) || negb (fk_member (m_UserID m) (m_OrgID m) d)
    then (violation, d)
    else (Ok tt, set_members d
            (<[(m_UserID m, m_OrgID m) :=
                 member_row (m_UserID m) (m_OrgID m) (m_Role m) (m_Source m) t t]> (members d)))).

(** [ON CONFLICT (user_id, org_id) DO UPDATE SET role, source]. *)
Definition upsert_member (u o role source : string) (t : Z) (d : AuthDB) :
    result store_err unit * AuthDB :=
  match members d !! (u, o) with
  | Some r =>
      (Ok tt, set_members d (<[(u, o) := member_row u o role source (m_CreatedAt r) t]> (members d)))
  | None =>
      if negb (fk_member u o d) then (violation, d)
      else (Ok tt, set_members d (<[(u, o) := member_row u o role source t t]> (members d)))
  end.

Definition UpsertMember (m : Member) : AuthEff unit :=
  db_op (upsert_member (m_UserID m) (m_OrgID m) (m_Role m) (m_Source m)).

Definition UpsertOrgMember (userID orgID : string) (role : Role) (source : string) : AuthEff unit :=
  db_op (upsert_member userID orgID role source).

Definition GetMember (userID orgID : string) : AuthEff (option Member) :=
  db_read (fun _ d => members d !! (userID, orgID)).

Definition GetOrgMember (userID orgID : string) : AuthEff Authz.OrgMember :=
  db_op (fun _ d =>
    (match members d !! (userID, orgID) with
     | Some r => Ok (Authz.mkOrgMember userID orgID (m_Role r) (m_Source r))
     | None => Err ErrNotFound
     end, d)).

(** JOIN users, LEFT JOIN the first team by creation. *)
Definition enrich_member (d : AuthDB) (m : Member) : option Member :=
  match users d !! m_UserID m with
  | Some u =>
      let tm := head (order_by (by_key tm_CreatedAt)
        (select (fun x => String.eqb (tm_UserID x) (m_UserID m) &&
                          String.eqb (tm_OrgID x) (m_OrgID m)) (team_members d))) in
      Some (mkMember (m_UserID m) (m_OrgID m) (m_Role m) (m_Source m) (u_Email u) (u_Name u)
                     (option_map tm_TeamID tm) (m_CreatedAt m) (m_UpdatedAt m))
  | None => None
  end.

Definition ListMembers (orgID : string) : AuthEff (list Member) :=
  db_read (fun _ d =>
    omap (enrich_member d)
      (order_by (by_key m_CreatedAt) (select (fun m => String.eqb (m_OrgID m) orgID) (members d)))).

Definition UpdateMemberRole (userID orgID role source : string) : AuthEff unit :=
  db_write (fun t d =>
    set_members d (alter (fun r => member_row (m_UserID r) (m_OrgID r) role source (m_CreatedAt r) t)
                         (userID, orgID) (members d))).

(** The query leaves [auto_join] out. *)
Definition membership_view (d : AuthDB) (m : Member) : option OrgMembershipView :=
  match orgs d !! m_OrgID m with
  | Some o => Some (mkMembershipView
      (mkOrg (o_ID o) (o_Name o) (o_LogoAssetID o) (o_Disabled o) false (o_OnboardingDone o)
             (o_CreatedAt o) (o_UpdatedAt o)) (m_Role m))
  | None => None
  end.

Definition ListOrgsForUser (userID : string) : AuthEff (list OrgMembershipView) :=
  db_read (fun _ d =>
    order_by (by_text (fun v => o_Name (mv_Org v)))
      (omap (membership_view d) (select (fun m => String.eqb (m_UserID m) userID) (members d)))).

Definition RemoveMember (userID orgID : string) : AuthEff unit :=
  db_write (fun _ d => set_members d (delete (userID, orgID) (members d))).

(** ** Team membership: [team_store.go] *)

Definition AddTeamMember (m : TeamMember) : AuthEff unit :=
  db_op (fun t d =>
    let k := (tm_TeamID m, tm_UserID m) in
    match team_members d !! k with
    | Some r =>
        (Ok tt, set_team_members d
           (<[k := mkTeamMember (tm_TeamID r) (tm_UserID r) (tm_OrgID r) (tm_Permission m)
                                (tm_CreatedAt r) t]> (team_members d)))
    | None =>
        if negb (found (teams d !! tm_TeamID m)) || negb (fk_member (tm_UserID m) (tm_OrgID m) d)
        then (violation, d)
        else (Ok tt, set_team_members d
                (<[k := mkTeamMember (tm_TeamID m) (tm_UserID m) (tm_OrgID m) (tm_Permission m) t t]>
                   (team_members d)))
    end).

Definition RemoveUserFromOrgTeams (orgID userID : string) : AuthEff unit :=
  db_write (fun _ d =>
    set_team_members d
      (delete_where (fun x => String.eqb (tm_OrgID x) orgID && String.eqb (tm_UserID x) userID)
                    (team_members d))).

(** ** Auth providers: [provider_store.go] *)

Definition stamp_provider (p : AuthProvider) (iconAssetID : string) (created updated : Z) :
    AuthProvider :=
  mkAuthProvider (ap_ID p) (ap_Slug p) (ap_OrgID p) (ap_Kind p) (ap_Type p) (ap_DisplayName p)
    iconAssetID EmptyString (ap_Enabled p) (ap_AllowSignUp p) (ap_AllowedDomains p)
    (ap_DefaultRole p) (ap_ClientID p) (ap_ClientSecret p) (ap_AuthURL p) (ap_TokenURL p)
    (ap_UserinfoURL p) (ap_APIURL p) (ap_Scopes p) (ap_EmailClaim p) (ap_NameClaim p)
    (ap_SubClaim p) (ap_GroupsClaim p) (ap_IDPMetadataURL p) (ap_IDPMetadataXML p)
    (ap_IDPEntityID p) (ap_IDPSSOURL p) (ap_IDPCert p) EmptyString (ap_SPCert p) (ap_SPKey p)
    (ap_SignRequests p) (ap_NameIDFormat p) (ap_EmailAttribute p) (ap_NameAttribute p)
    (ap_GroupsAttribute p) created updated.

Definition same_org (p r : AuthProvider) : bool := String.eqb (ap_OrgID r) (ap_OrgID p).

Definition CreateAuthProvider (p : AuthProvider) : AuthEff unit :=
  db_op (fun t d =>
    if found (providers d !! ap_ID p) || negb (found (orgs d !! ap_OrgID p)) then (violation, d)
    else if exists_row (fun r => same_org p r && String.eqb (ap_Slug r) (ap_Slug p)) (providers d)
    then (Err ErrConflict, d)
    else if exists_row (fun r => same_org p r && String.eqb (ap_DisplayName r) (ap_DisplayName p))
                       (providers d)
    then (Err ErrConflict, d)
    else (Ok tt, set_providers d
            (<[ap_ID p := stamp_provider p (ap_IconAssetID p) t t]> (providers d)))).

(** The statement keeps the slug and the icon. *)
Definition update_provider_row (p : AuthProvider) (t : Z) (r : AuthProvider) : AuthProvider :=
  mkAuthProvider (ap_ID r) (ap_Slug r) (ap_OrgID r) (ap_Kind p) (ap_Type p) (ap_DisplayName p)
    (ap_IconAssetID r) EmptyString (ap_Enabled p) (ap_AllowSignUp p) (ap_AllowedDomains p)
    (ap_DefaultRole p) (ap_ClientID p) (ap_ClientSecret p) (ap_AuthURL p) (ap_TokenURL p)
    (ap_UserinfoURL p) (ap_APIURL p) (ap_Scopes p) (ap_EmailClaim p) (ap_NameClaim p)
    (ap_SubClaim p) (ap_GroupsClaim p) (ap_IDPMetadataURL p) (ap_IDPMetadataXML p)
    (ap_IDPEntityID p) (ap_IDPSSOURL p) (ap_IDPCert p) EmptyString (ap_SPCert p) (ap_SPKey p)
    (ap_SignRequests p) (ap_NameIDFormat p) (ap_EmailAttribute p) (ap_NameAttribute p)
    (ap_GroupsAttribute p) (ap_CreatedAt r) t.

Definition UpdateAuthProvider (p : AuthProvider) : AuthEff unit :=
  db_op (fun t d =>
    match providers d !! ap_ID p with
    | Some r =>
        if negb (String.eqb (ap_OrgID r) (ap_OrgID p)) then (Err ErrNotFound, d)
        else if other_row (ap_ID p)
                  (fun r' => same_org p r' && String.eqb (ap_DisplayName r') (ap_DisplayName p))
                  (providers d)
        then (Err ErrConflict, d)
        else (Ok tt, set_providers d (<[ap_ID p := update_provider_row p t r]> (providers d)))
    | None => (Err ErrNotFound, d)
    end).

Definition GetAuthProviderBySlug (orgID slug : string) : AuthEff (option AuthProvider) :=
  db_read (fun _ d =>
    select_one (fun r => String.eqb (ap_OrgID r) orgID && String.eqb (ap_Slug r) slug) (providers d)).

Definition ListAuthProviders (orgID : string) : AuthEff (list AuthProvider) :=
  db_read (fun _ d =>
    order_by (by_text ap_DisplayName)
      (select (fun r => String.eqb (ap_OrgID r) orgID) (providers d))).

Definition ListEnabledAuthProviders (orgID : string) : AuthEff (list AuthProvider) :=
  db_read (fun _ d =>
    order_by (by_text ap_DisplayName)
      (select (fun r => String.eqb (ap_OrgID r) orgID && ap_Enabled r) (providers d))).

(** With the ON DELETE CASCADE references to [auth_providers]. *)
Definition DeleteAuthProvider (orgID providerID : string) : AuthEff unit :=
  db_write (fun _ d =>
    match providers d !! providerID with
    | Some r =>
        if String.eqb (ap_OrgID r) orgID then
          set_states
            (set_rules (set_providers d (delete providerID (providers d)))
               (delete_where (fun x => String.eqb (r_ProviderID (rr_Rule x)) providerID) (rules d)))
            (delete_where (fun x => String.eqb (ls_ProviderID x) providerID) (states d))
        else d
    | None => d
    end).

Definition SetAuthProviderIcon (orgID providerID : string) (assetID : option string) : AuthEff unit :=
  db_write (fun t d =>
    set_providers d
      (alter (fun r => if String.eqb (ap_OrgID r) orgID
                       then stamp_provider r (default EmptyString assetID) (ap_CreatedAt r) t
                       else r) providerID (providers d))).

(** ** Role mappings, organization domains *)

Definition CreateRoleMapping (m : Rule) : AuthEff unit :=
  db_op (fun t d =>
    if found (rules d !! r_ID m) || negb (found (providers d !! r_ProviderID m)) then (violation, d)
    else (Ok tt, set_rules d (<[r_ID m := mkRuleRow m t]> (rules d)))).

Definition UpdateRoleMapping (m : Rule) : AuthEff unit :=
  db_op (fun _ d =>
    match rules d !! r_ID m with
    | Some r =>
        if String.eqb (r_ProviderID (rr_Rule r)) (r_ProviderID m)
        then (Ok tt, set_rules d (<[r_ID m := mkRuleRow m (rr_CreatedAt r)]> (rules d)))
        else (Err ErrNotFound, d)
    | None => (Err ErrNotFound, d)
    end).

Definition rule_order : RuleRow -> RuleRow -> bool :=
  then_by (by_key (fun r => r_Priority (rr_Rule r))) (by_key rr_CreatedAt).

Definition ListRoleMappings (providerID : string) : AuthEff (list Rule) :=
  db_read (fun _ d =>
    map rr_Rule (order_by rule_order
      (select (fun r => String.eqb (r_ProviderID (rr_Rule r)) providerID) (rules d)))).

Definition DeleteRoleMapping (providerID mappingID : string) : AuthEff unit :=
  db_write (fun _ d =>
    match rules d !! mappingID with
    | Some r => if String.eqb (r_ProviderID (rr_Rule r)) providerID
                then set_rules d (delete mappingID (rules d)) else d
    | None => d
    end).

(** The CHECK constraint [org_domains_domain_format_check]. *)
Definition domain_check (domain : string) : bool :=
  match accept_domain domain with Ok _ => true | Err _ => false end.

Definition same_domain (orgID domain : string) (r : OrgDomain) : bool :=
  String.eqb (od_OrgID r) orgID && String.eqb (od_Domain r) domain.

Definition CreateOrgDomain (dom : OrgDomain) : AuthEff unit :=
  db_op (fun t d =>
    let v := text_lower (od_Domain dom) in
    if negb (domain_check v) || negb (found (orgs d !! od_OrgID dom)) then (violation, d)
    else if exists_row (same_domain (od_OrgID dom) v) (domains d) then (Ok tt, d)
    else if found (domains d !! od_ID dom) then (violation, d)
    else (Ok tt, set_domains d
            (<[od_ID dom := mkOrgDomain (od_ID dom) (od_OrgID dom) v t t]> (domains d)))).

Definition UpdateOrgDomain (dom : OrgDomain) : AuthEff unit :=
  db_op (fun t d =>
    match domains d !! od_ID dom with
    | Some r =>
        let v := text_lower (od_Domain dom) in
        if negb (String.eqb (od_OrgID r) (od_OrgID dom)) then (Err ErrNotFound, d)
        else if negb (domain_check v) || other_row (od_ID dom) (same_domain (od_OrgID dom) v) (domains d)
        then (violation, d)
        else (Ok tt, set_domains d
                (<[od_ID dom := mkOrgDomain (od_ID r) (od_OrgID r) v (od_CreatedAt r) t]> (domains d)))
    | None => (Err ErrNotFound, d)
    end).

Definition ListOrgDomains (orgID : string) : AuthEff (list OrgDomain) :=
  db_read (fun _ d =>
    order_by (by_text od_Domain) (select (fun r => String.eqb (od_OrgID r) orgID) (domains d))).

Definition DeleteOrgDomain (orgID domainID : string) : AuthEff unit :=
  db_write (fun _ d =>
    match domains d !! domainID with
    | Some r => if String.eqb (od_OrgID r) orgID
                then set_domains d (delete domainID (domains d)) else d
    | None => d
    end).

Definition enabled_org (d : AuthDB) (od : OrgDomain) : option Org :=
  match orgs d !! od_OrgID od with
  | Some o => if o_Disabled o then None else Some o
  | None => None
  end.

Definition ListOrgsByDomain (domain : string) : AuthEff (list Org) :=
  db_read (fun _ d =>
    order_by (by_text o_Name)
      (omap (enabled_org d)
        (select (fun r => String.eqb (od_Domain r) (text_lower domain)) (domains d)))).

(** ** Login states *)

Definition CreateLoginState (s : LoginState) : AuthEff unit :=
  db_op (fun t d =>
    if found (states d !! ls_ID s) ||
       exists_row (fun r => String.eqb (ls_State r) (ls_State s)) (states d) ||
       negb (found (orgs d !! ls_OrgID s)) || negb (found (providers d !! ls_ProviderID s))
    then (violation, d)
    else (Ok tt, set_states d
            (<[ls_ID s := mkLoginState (ls_ID s) (ls_State s) (ls_OrgID s) (ls_ProviderID s)
                            (ls_Nonce s) (ls_SAMLRequestID s) (ls_RedirectTo s) t (ls_ExpiresAt s)]>
               (states d)))).

(** [DELETE ... RETURNING]: the row is gone even when it has expired. *)
Definition delete_state (state : string) (d : AuthDB) : option LoginState * AuthDB :=
  let hit r := String.eqb (ls_State r) state in
  (select_one hit (states d), set_states d (delete_where hit (states d))).

Definition ConsumeLoginState (state : string) : AuthEff (option LoginState) :=
  func (
    s <- try (db_op (fun _ d => let '(s, d') := delete_state state d in (Ok s, d')))
             (fun err => Err err) ;;
    s <- non_nil s (Ok None) ;;
    now <- call time_now ;;
    return_if (ls_ExpiresAt s <? now)%Z (Ok None) ;;;
    gret (Ok (Some s))).

Definition PurgeExpiredLoginState : AuthEff unit :=
  db_write (fun t d => set_states d (delete_where (fun s => (ls_ExpiresAt s <? t)%Z) (states d))).

(** ** Linked identities and login attempts: [login_store.go] *)

(** [provider] is the provider's id. *)
Definition UpsertAuthIdentity (a : AuthIdentity) : AuthEff unit :=
  db_op (fun _ d =>
    if negb (found (users d !! ai_UserID a)) then (violation, d)
    else (Ok tt, set_identities d (<[(ai_ProviderID a, ai_Sub a) := a]> (identities d)))).

Definition RecordLoginAttempt (username ip : string) : AuthEff unit :=
  db_write (fun t d => set_attempts d (mkAttempt username ip t :: attempts d)).

Definition count_attempts (username : string) (since : Z) (l : list Attempt) : nat :=
  length (List.filter (fun a => String.eqb (at_Username a) username && (since <? at_CreatedAt a)%Z) l).

Definition CountLoginAttempts (username : string) (since : Z) : AuthEff nat :=
  db_read (fun _ d => count_attempts username since (attempts d)).

(** ** Service accounts and tokens: [serviceaccount_store.go] *)

Definition sa_visible (r : SARow) : bool := negb (found (sar_DeletedAt r)).

Definition stamp_sa (sa : ServiceAccount) (avatar : option string) (created updated : Z) :
    ServiceAccount :=
  mkServiceAccount (sa_ID sa) (sa_OrgID sa) (sa_Name sa) (sa_Description sa) (sa_Scopes sa)
    (sa_Disabled sa) (sa_IsInternal sa) avatar (sa_CreatedBy sa) created updated.

(** Deleted accounts keep their name taken. *)
Definition CreateServiceAccount (sa : ServiceAccount) : AuthEff unit :=
  func (
    now <- call time_now ;;
    call (db_op (fun _ d =>
      if found (accounts d !! sa_ID sa) || negb (found (orgs d !! sa_OrgID sa)) ||
         exists_row (fun r => String.eqb (sa_OrgID (sar r)) (sa_OrgID sa) &&
                              String.eqb (sa_Name (sar r)) (sa_Name sa)) (accounts d) ||
         (negb (str_empty (sa_CreatedBy sa)) && negb (found (users d !! sa_CreatedBy sa)))
      then (violation, d)
      else (Ok tt, set_accounts d
              (<[sa_ID sa := mkSARow (stamp_sa sa None now now) None]> (accounts d)))))).

Definition GetServiceAccount (id : string) : AuthEff (option ServiceAccount) :=
  db_read (fun _ d =>
    match accounts d !! id with
    | Some r => if sa_visible r then Some (sar r) else None
    | None => None
    end).

Definition GetSystemServiceAccount (orgID : string) : AuthEff (option ServiceAccount) :=
  db_read (fun _ d =>
    option_map sar
      (select_one (fun r => String.eqb (sa_OrgID (sar r)) orgID &&
                            String.eqb (sa_Name (sar r)) SystemServiceAccountName &&
                            sa_IsInternal (sar r) && sa_visible r) (accounts d))).

Definition ListServiceAccounts (orgID : string) : AuthEff (list ServiceAccount) :=
  db_read (fun _ d =>
    order_by (desc (by_key sa_CreatedAt))
      (map sar (select (fun r => String.eqb (sa_OrgID (sar r)) orgID && sa_visible r) (accounts d)))).

Definition update_sa_row (sa : ServiceAccount) (t : Z) (r : ServiceAccount) : ServiceAccount :=
  mkServiceAccount (sa_ID r) (sa_OrgID r) (sa_Name sa) (sa_Description sa) (sa_Scopes sa)
    (sa_Disabled sa) (sa_IsInternal r) (sa_AvatarAssetID r) (sa_CreatedBy r) (sa_CreatedAt r) t.

Definition UpdateServiceAccount (sa : ServiceAccount) : AuthEff unit :=
  db_op (fun t d =>
    match accounts d !! sa_ID sa with
    | Some r =>
        if negb (sa_visible r) then (Ok tt, d)
        else if other_row (sa_ID sa) (fun r' => String.eqb (sa_OrgID (sar r')) (sa_OrgID (sar r)) &&
                                                String.eqb (sa_Name (sar r')) (sa_Name sa)) (accounts d)
        then (violation, d)
        else (Ok tt, set_accounts d
                (<[sa_ID sa := mkSARow (update_sa_row sa t (sar r)) None]> (accounts d)))
    | None => (Ok tt, d)
    end).

Definition SetServiceAccountAvatar (saID : string) (assetID : option string) : AuthEff unit :=
  db_write (fun t d =>
    set_accounts d
      (alter (fun r => if sa_visible r
                       then mkSARow (stamp_sa (sar r) assetID (sa_CreatedAt (sar r)) t) None
                       else r) saID (accounts d))).

Definition DeleteServiceAccount (id : string) : AuthEff unit :=
  db_write (fun t d =>
    set_accounts d (alter (fun r => mkSARow (sar r) (Some t)) id (accounts d))).

Definition CreateToken (t : Token) : AuthEff unit :=
  func (
    now <- call time_now ;;
    call (db_op (fun _ d =>
      if found (tokens d !! tok_ID t) || negb (found (accounts d !! tok_ServiceAccountID t)) ||
         exists_row (fun r => String.eqb (tok_Prefix r) (tok_Prefix t)) (tokens d) ||
         (negb (str_empty (tok_CreatedBy t)) && negb (found (users d !! tok_CreatedBy t)))
      then (violation, d)
      else (Ok tt, set_tokens d
              (<[tok_ID t := mkToken (tok_ID t) (tok_ServiceAccountID t) (tok_Name t) (tok_Prefix t)
                               (tok_Hash t) (tok_ExpiresAt t) None false (tok_CreatedBy t) now]>
                 (tokens d)))))).

(** The queries on tokens leave [created_by] out. *)
Definition scan_token (r : Token) : Token :=
  mkToken (tok_ID r) (tok_ServiceAccountID r) (tok_Name r) (tok_Prefix r) (tok_Hash r)
          (tok_ExpiresAt r) (tok_LastUsedAt r) (tok_Revoked r) EmptyString (tok_CreatedAt r).

Definition GetTokenByPrefix (prefix : string) : AuthEff (option Token) :=
  db_read (fun _ d =>
    option_map scan_token (select_one (fun r => String.eqb (tok_Prefix r) prefix) (tokens d))).

Definition ListTokens (serviceAccountID : string) : AuthEff (list Token) :=
  db_read (fun _ d =>
    map scan_token (order_by (desc (by_key tok_CreatedAt))
      (select (fun r => String.eqb (tok_ServiceAccountID r) serviceAccountID) (tokens d)))).

Definition revoke_row (r : Token) : Token :=
  mkToken (tok_ID r) (tok_ServiceAccountID r) (tok_Name r) (tok_Prefix r) (tok_Hash r)
          (tok_ExpiresAt r) (tok_LastUsedAt r) true (tok_CreatedBy r) (tok_CreatedAt r).

Definition RevokeToken (tokenID : string) : AuthEff unit :=
  db_write (fun _ d => set_tokens d (alter revoke_row tokenID (tokens d))).

Definition touch_token_row (t : Z) (r : Token) : Token :=
  mkToken (tok_ID r) (tok_ServiceAccountID r) (tok_Name r) (tok_Prefix r) (tok_Hash r)
          (tok_ExpiresAt r) (Some t) (tok_Revoked r) (tok_CreatedBy r) (tok_CreatedAt r).

Definition TouchToken (tokenID : string) : AuthEff unit :=
  db_write (fun t d => set_tokens d (alter (touch_token_row t) tokenID (tokens d))).
End Store.

(** ** The store as the authorizer sees it *)

Definition user_row (u : User) : UserRow := mkUserRow (u_Disabled u) (u_Role u).

#[export] Instance auth_authz_store : AuthzStore (World AuthDB) store_err := {
  Authz.GetOrgMember := GetOrgMember;
  Authz.GetUser id := db_read (fun _ d => option_map user_row (users d !! id));
  is_not_found e := match e with ErrNotFound => true | _ => false end
}.

(** No store call fails any more. *)
Definition no_faults (w : World AuthDB) : Prop := Forall (eq false) (w_faults w).

Definition auth_view (w : World AuthDB) : AuthzView :=
  mkView (fun id => option_map user_row (users (w_db w) !! id))
         (fun u o => option_map m_Role (members (w_db w) !! (u, o))).

(** The authorizer's query on users is [GetUser] followed by a projection. *)
Lemma authz_GetUser id w :
  Authz.GetUser id w =
  (let '(r, w') := GetUser id w in
   (match r with Ok u => Ok (option_map user_row u) | Err e => Err e end, w')).
Proof. unfold GetUser, db_read, db_op. cbn. unfold db_read, db_op. by destruct (w_faults w) as [|[]]. Qed.

Lemma db_op_no_faults {A} (f : Z -> AuthDB -> result store_err A * AuthDB) w r w' :
  no_faults w -> db_op f w = (r, w') ->
  no_faults w' /\ f (w_clock w) (w_db w) = (r, w_db w').
Proof.
  unfold no_faults, db_op. intros Hw. destruct (w_faults w) as [|b fs]; [|inversion Hw; subst].
  - destruct (f _ _); intros; simplify_eq/=. by split; [constructor|].
  - destruct (f _ _); intros; simplify_eq/=. done.
Qed.

#[export] Instance auth_authz_laws : AuthzStoreLaws (World AuthDB) store_err.
Proof.
  refine {| view := auth_view; healthy := no_faults |}.
  - intros id w r w' Hr. cbn in Hr. by apply db_read_ok in Hr as [-> _].
  - intros id w. cbn. destruct (db_read _ w) as [r w'] eqn:E. apply db_read_db in E.
    unfold auth_view. cbn. by rewrite E.
  - intros id w Hw. cbn. destruct (db_read _ w) as [r w'] eqn:E.
    destruct (db_op_no_faults _ _ _ _ Hw E) as [Hw' ?]. simplify_eq. eauto.
  - intros u o w m w' Hm. apply db_op_ok in Hm. cbn. cbn in Hm.
    by destruct (members (w_db w) !! (u, o)); simplify_eq/=.
  - intros u o w e w' Hm Hnf. cbn in Hnf. destruct e; try done.
    apply db_op_cases in Hm as [[? _]|(d & Hm & _)]; [done|]. cbn in *.
    revert Hm. destruct (_ !! _); [discriminate|done].
  - intros u o w. cbn. unfold GetOrgMember. destruct (db_op _ w) as [r w'] eqn:E. cbn.
    apply db_op_cases in E as [[_ E]|(d & Hm & E)]; unfold auth_view; rewrite E; [done|].
    by injection Hm as _ <-.
  - intros u o w r w' Hw Hr. cbn in Hr.
    destruct (db_op_no_faults _ _ _ _ Hw Hr) as [Hw' Hf]. split; [done|].
    intros e ->. revert Hf. destruct (_ !! _); intros; simplify_eq; done.
Defined.
