(* ===== verification/MLStudio.v ===== *)
(** * MLStudio: the registry of projects, models, experiments and runs

    Models [internal/mlstudio] and the statements of
    [internal/store/postgres/mlstudio_managed.go], [mlstudio_version_deployments.go]
    and the single-row reads of [mlstudio_reads.go].  Each of the ten tables with
    soft delete is a map of [Row]s: id, org, MLflow id, origin, who and when, and
    a content of its own ([ModelData], [RunData], ...); the columns [source] and
    [origin] are [r_Origin].  What the statements need of a table is the class
    [MLTable].  Ids are canonical texts of UUIDs; [valid_uuid] tells which texts
    the database takes for one.  Numbers of metrics are literals. *)

From S2P Require Import Prelude GoStrings Effects Json Table Authz Identity AuthStore.
Set Warnings "-register-all,-clear-no-such-hyp".
#[local] Open Scope nat_scope.
#[local] Open Scope string_scope.

(** ** Rows *)

Record Stamp := mkStamp {
  st_CreatedBy : string; st_UpdatedBy : option string; st_CreatedAt : Z; st_UpdatedAt : Z;
  st_SyncedAt : option Z; st_DeletedAt : option Z; st_DeletedBy : option string
}.
Record Row (C : Type) := mkRow {
  r_ID : string; r_OrgID : string; r_MLflowID : option string; r_Origin : string; r_Content : C; r_Stamp : Stamp
}.
Arguments mkRow {C}.
Arguments r_ID {C}.
Arguments r_OrgID {C}.
Arguments r_MLflowID {C}.
Arguments r_Origin {C}.
Arguments r_Content {C}.
Arguments r_Stamp {C}.

Record ProjectData := mkProject {
  pj_Name : string; pj_Type : string; pj_Description : string; pj_SourceType : string; pj_SourceURL : string;
  pj_TeamID : option string
}.
Record ModelCard := mkCard {
  mc_License : string; mc_References : list string; mc_IntendedUse : string; mc_Limitations : string;
  mc_Considerations : string; mc_Recommendations : string
}.
Record ModelData := mkModel {
  md_ProjectID : option string; md_Name : string; md_Description : string; md_Domain : string;
  md_ProblemType : string; md_Tags : list string; md_Card : ModelCard; md_ProductionVersionID : option string;
  md_MLflowCreatedAt : option Z; md_MLflowUpdatedAt : option Z
}.
Record VersionData := mkVersionData {
  vd_ModelID : string; vd_Version : string; vd_Description : string; vd_RunID : option string;
  vd_MLflowCreatedAt : option Z
}.
Record ExperimentData := mkExperiment {
  ed_ProjectID : option string; ed_Name : string; ed_Description : string; ed_Status : string; ed_Tags : list string
}.
Record RunData := mkRun {
  rd_ExperimentID : string; rd_Name : string; rd_Status : string; rd_StartedAt : Z; rd_EndedAt : option Z;
  rd_Notes : string; rd_Tags : list string; rd_DatasetID : option string
}.
Record SchemaField := mkSchemaField { sf_Name : string; sf_Type : string; sf_Description : string }.
Record DatasetData := mkDataset {
  dd_ExperimentID : string; dd_Name : string; dd_Digest : string; dd_Source : string; dd_SourceType : string;
  dd_Context : string; dd_RowCount : Z; dd_Schema : list SchemaField; dd_Tags : list string
}.
Record ArtifactData := mkArtifact {
  fd_RunID : string; fd_Name : string; fd_Type : string; fd_URI : string; fd_DownloadURI : string; fd_Size : string;
  fd_Format : string; fd_StorageKey : string; fd_MimeType : string; fd_SizeBytes : option Z
}.
Record EvaluationData := mkEvaluation {
  ev_VersionID : string; ev_ExperimentID : string; ev_DatasetID : option string; ev_Name : string; ev_Type : string;
  ev_Description : string; ev_Summary : string; ev_StartedAt : Z; ev_EndedAt : option Z; ev_Evaluator : string;
  ev_Tags : list string
}.
Record DeploymentData := mkDeployment {
  dp_ModelID : string; dp_VersionID : string; dp_Name : string; dp_Environment : string; dp_Status : string;
  dp_Endpoint : string; dp_Region : string; dp_DeployedAt : option Z; dp_RolledBackAt : option Z
}.
Record FindingData := mkFinding {
  fi_ModelID : string; fi_VersionID : option string; fi_Title : string; fi_Summary : string; fi_Description : string
}.

Record VersionDeploymentUpdate := mkDeploymentUpdate {
  du_ID : string; du_OrgID : string; du_VersionID : string; du_FromStatus : option string; du_ToStatus : string;
  du_ChangedBy : string; du_ChangedAt : Z
}.

(** ** Tables

    Parameters and metrics are keyed by the id of their run or evaluation and
    their name; a parameter's column holds the JSON text of the value. *)

Record MLDB := mkMLDB {
  m_auth : AuthDB;
  m_projects : gmap string (Row ProjectData); m_models : gmap string (Row ModelData);
  m_versions : gmap string (Row VersionData); m_experiments : gmap string (Row ExperimentData);
  m_runs : gmap string (Row RunData); m_datasets : gmap string (Row DatasetData);
  m_artifacts : gmap string (Row ArtifactData); m_evaluations : gmap string (Row EvaluationData);
  m_deployments : gmap string (Row DeploymentData); m_findings : gmap string (Row FindingData);
  m_updates : gmap string VersionDeploymentUpdate;
  m_run_params : gmap (string * string) json; m_run_metrics : gmap (string * string) string;
  m_eval_params : gmap (string * string) json; m_eval_metrics : gmap (string * string) string;
  m_finding_runs : gset (string * string); m_finding_evals : gset (string * string);
  m_blobs : gmap string string
}.

Section Setters.
Context (d : MLDB).
#[local] Abbreviation rest x := (x (m_updates d) (m_run_params d) (m_run_metrics d) (m_eval_params d)
  (m_eval_metrics d) (m_finding_runs d) (m_finding_evals d) (m_blobs d)).
#[local] Abbreviation heads x := (x (m_auth d) (m_projects d) (m_models d) (m_versions d) (m_experiments d) (m_runs d)
  (m_datasets d) (m_artifacts d) (m_evaluations d) (m_deployments d) (m_findings d)).
Definition set_projects t := rest (mkMLDB (m_auth d) t (m_models d) (m_versions d) (m_experiments d) (m_runs d)
  (m_datasets d) (m_artifacts d) (m_evaluations d) (m_deployments d) (m_findings d)).
Definition set_models t := rest (mkMLDB (m_auth d) (m_projects d) t (m_versions d) (m_experiments d) (m_runs d)
  (m_datasets d) (m_artifacts d) (m_evaluations d) (m_deployments d) (m_findings d)).
Definition set_model_versions t := rest (mkMLDB (m_auth d) (m_projects d) (m_models d) t (m_experiments d) (m_runs d)
  (m_datasets d) (m_artifacts d) (m_evaluations d) (m_deployments d) (m_findings d)).
Definition set_experiments t := rest (mkMLDB (m_auth d) (m_projects d) (m_models d) (m_versions d) t (m_runs d)
  (m_datasets d) (m_artifacts d) (m_evaluations d) (m_deployments d) (m_findings d)).
Definition set_runs t := rest (mkMLDB (m_auth d) (m_projects d) (m_models d) (m_versions d) (m_experiments d) t
  (m_datasets d) (m_artifacts d) (m_evaluations d) (m_deployments d) (m_findings d)).
Definition set_datasets t := rest (mkMLDB (m_auth d) (m_projects d) (m_models d) (m_versions d) (m_experiments d)
  (m_runs d) t (m_artifacts d) (m_evaluations d) (m_deployments d) (m_findings d)).
Definition set_artifacts t := rest (mkMLDB (m_auth d) (m_projects d) (m_models d) (m_versions d) (m_experiments d)
  (m_runs d) (m_datasets d) t (m_evaluations d) (m_deployments d) (m_findings d)).
Definition set_evaluations t := rest (mkMLDB (m_auth d) (m_projects d) (m_models d) (m_versions d) (m_experiments d)
  (m_runs d) (m_datasets d) (m_artifacts d) t (m_deployments d) (m_findings d)).
Definition set_deployments t := rest (mkMLDB (m_auth d) (m_projects d) (m_models d) (m_versions d) (m_experiments d)
  (m_runs d) (m_datasets d) (m_artifacts d) (m_evaluations d) t (m_findings d)).
Definition set_findings t := rest (mkMLDB (m_auth d) (m_projects d) (m_models d) (m_versions d) (m_experiments d)
  (m_runs d) (m_datasets d) (m_artifacts d) (m_evaluations d) (m_deployments d) t).
Definition set_updates t := heads mkMLDB t (m_run_params d) (m_run_metrics d) (m_eval_params d) (m_eval_metrics d)
  (m_finding_runs d) (m_finding_evals d) (m_blobs d).
Definition set_run_values p m := heads mkMLDB (m_updates d) p m (m_eval_params d) (m_eval_metrics d)
  (m_finding_runs d) (m_finding_evals d) (m_blobs d).
Definition set_eval_values p m := heads mkMLDB (m_updates d) (m_run_params d) (m_run_metrics d) p m
  (m_finding_runs d) (m_finding_evals d) (m_blobs d).
Definition set_finding_links r e := heads mkMLDB (m_updates d) (m_run_params d) (m_run_metrics d) (m_eval_params d)
  (m_eval_metrics d) r e (m_blobs d).
Definition set_ml_blobs b := heads mkMLDB (m_updates d) (m_run_params d) (m_run_metrics d) (m_eval_params d)
  (m_eval_metrics d) (m_finding_runs d) (m_finding_evals d) b.
End Setters.

(** What a statement needs of a table: where it is, which columns of a content
    are UUIDs, and which rows its foreign keys ask for. *)
Class MLTable (C : Type) := {
  tbl : MLDB -> gmap string (Row C);
  set_tbl : MLDB -> gmap string (Row C) -> MLDB;
  uuids : C -> list string;
  fks : MLDB -> C -> bool
}.

Definition opt_list (o : option string) : list string := match o with Some s => [s] | None => [] end.
Definition has {C} (t : gmap string C) (id : string) : bool := found (t !! id).
Definition has_opt {C} (t : gmap string C) (o : option string) : bool :=
  match o with Some id => has t id | None => true end.

#[export] Instance projects_table : MLTable ProjectData := {|
  tbl := m_projects; set_tbl := set_projects; uuids c := opt_list (pj_TeamID c);
  fks d c := has_opt (teams (m_auth d)) (pj_TeamID c) |}.
#[export] Instance models_table : MLTable ModelData := {|
  tbl := m_models; set_tbl := set_models; uuids c := (opt_list (md_ProjectID c) ++ opt_list (md_ProductionVersionID c))%list;
  fks d c := has_opt (m_projects d) (md_ProjectID c) && has_opt (m_versions d) (md_ProductionVersionID c) |}.
#[export] Instance versions_table : MLTable VersionData := {|
  tbl := m_versions; set_tbl := set_model_versions; uuids c := vd_ModelID c :: opt_list (vd_RunID c);
  fks d c := has (m_models d) (vd_ModelID c) && has_opt (m_runs d) (vd_RunID c) |}.
#[export] Instance experiments_table : MLTable ExperimentData := {|
  tbl := m_experiments; set_tbl := set_experiments; uuids c := opt_list (ed_ProjectID c);
  fks d c := has_opt (m_projects d) (ed_ProjectID c) |}.
#[export] Instance runs_table : MLTable RunData := {|
  tbl := m_runs; set_tbl := set_runs; uuids c := rd_ExperimentID c :: opt_list (rd_DatasetID c);
  fks d c := has (m_experiments d) (rd_ExperimentID c) && has_opt (m_datasets d) (rd_DatasetID c) |}.
#[export] Instance datasets_table : MLTable DatasetData := {|
  tbl := m_datasets; set_tbl := set_datasets; uuids c := [dd_ExperimentID c];
  fks d c := has (m_experiments d) (dd_ExperimentID c) |}.
#[export] Instance artifacts_table : MLTable ArtifactData := {|
  tbl := m_artifacts; set_tbl := set_artifacts; uuids c := [fd_RunID c]; fks d c := has (m_runs d) (fd_RunID c) |}.
#[export] Instance evaluations_table : MLTable EvaluationData := {|
  tbl := m_evaluations; set_tbl := set_evaluations;
  uuids c := ev_VersionID c :: ev_ExperimentID c :: opt_list (ev_DatasetID c);
  fks d c := has (m_versions d) (ev_VersionID c) && has (m_experiments d) (ev_ExperimentID c) &&
             has_opt (m_datasets d) (ev_DatasetID c) |}.
#[export] Instance deployments_table : MLTable DeploymentData := {|
  tbl := m_deployments; set_tbl := set_deployments; uuids c := [dp_ModelID c; dp_VersionID c];
  fks d c := has (m_models d) (dp_ModelID c) && has (m_versions d) (dp_VersionID c) |}.
#[export] Instance findings_table : MLTable FindingData := {|
  tbl := m_findings; set_tbl := set_findings; uuids c := fi_ModelID c :: opt_list (fi_VersionID c);
  fks d c := has (m_models d) (fi_ModelID c) && has_opt (m_versions d) (fi_VersionID c) |}.

(** ** Errors and statements *)

(** The errors of [mlstudio/errors.go] with what follows the sentinel;
    [Refused]: a foreign key or a CHECK of Postgres, with its message. *)
Inductive ml_err : Type :=
| Store (e : store_err)
| ErrParentNotFound (prefix what : string)
| ErrUnknownUser (emails : string)
| ErrInvalidValue (prefix what : string)
| Refused (msg : string).

Definition MLEff (A : Type) : Type := Eff (World MLDB) (result ml_err A).

Definition ml_op {A} (f : Z -> MLDB -> result ml_err A * MLDB) : MLEff A :=
  fun w => match db_op (fun t d => let '(r, d') := f t d in (Ok r, d')) w with
           | (Ok r, w') => (r, w')
           | (Err e, w') => (Err (Store e), w')
           end.

Definition bad_uuid {A} : result ml_err A := Err (Store (ErrOther "pq: invalid input syntax for type uuid")).
Definition duplicate {A} : result ml_err A := Err (Store (ErrOther "pq: duplicate key value")).
Definition fk_refused {A} : result ml_err A := Err (Refused "violates foreign key constraint").

Definition live (s : Stamp) : bool := negb (found (st_DeletedAt s)).
Definition row_live {C} (r : Row C) : bool := live (r_Stamp r).
Definition with_content {C} (c : C) (s : Stamp) (r : Row C) : Row C :=
  mkRow (r_ID r) (r_OrgID r) (r_MLflowID r) (r_Origin r) c s.

(** Both times are now; [synced_at] has its default, where there is such a column. *)
Definition created (by_ : string) (updated_by : option string) (now : Z) (synced : option Z) : Stamp :=
  mkStamp by_ updated_by now now synced None None.
Definition updated (now : Z) (s : Stamp) : Stamp :=
  mkStamp (st_CreatedBy s) (st_UpdatedBy s) (st_CreatedAt s) now (st_SyncedAt s) (st_DeletedAt s) (st_DeletedBy s).
Definition updated_by (by_ : option string) (now : Z) (s : Stamp) : Stamp :=
  mkStamp (st_CreatedBy s) by_ (st_CreatedAt s) now (st_SyncedAt s) (st_DeletedAt s) (st_DeletedBy s).
Definition soft_deleted (by_ : string) (now : Z) (s : Stamp) : Stamp :=
  mkStamp (st_CreatedBy s) (st_UpdatedBy s) (st_CreatedAt s) (st_UpdatedAt s) (st_SyncedAt s) (Some now) (Some by_).

Section Statements.
Context `{Collation} `{UuidText}.

(** WHERE org_id = .. AND id = .. AND deleted_at IS NULL *)
Definition live_row {C} `{MLTable C} (orgID id : string) (d : MLDB) : option (Row C) :=
  match tbl d !! id with
  | Some r => if String.eqb (r_OrgID r) orgID && row_live r then Some r else None
  | None => None
  end.

Definition get {C} `{MLTable C} (orgID id : string) : MLEff (option (Row C)) :=
  ml_op (fun _ d => (if valid_uuid orgID && valid_uuid id then Ok (live_row orgID id d) else bad_uuid, d)).

Definition insert_row {C} `{MLTable C} (r : Row C) (d : MLDB) : result ml_err MLDB :=
  if negb (forallb valid_uuid (r_ID r :: r_OrgID r :: st_CreatedBy (r_Stamp r) :: uuids (r_Content r))) then bad_uuid
  else if has (tbl (C := C) d) (r_ID r) then duplicate
  else if negb (has (orgs (m_auth d)) (r_OrgID r) && fks d (r_Content r)) then fk_refused
  else Ok (set_tbl d (<[r_ID r := r]> (tbl d))).

(** UPDATE of one row; [ids] are the UUIDs among the arguments. *)
Definition update_row {C} `{MLTable C} (orgID id : string) (ids : list string) (f : Row C -> Row C) (d : MLDB) :
    result ml_err MLDB :=
  if negb (forallb valid_uuid (orgID :: id :: ids)) then bad_uuid
  else match live_row orgID id d with
       | None => Ok d
       | Some r => if fks d (r_Content (f r)) then Ok (set_tbl d (<[id := f r]> (tbl d))) else fk_refused
       end.

Definition statement (f : MLDB -> result ml_err MLDB) (d : MLDB) : result ml_err unit * MLDB :=
  match f d with Ok d' => (Ok tt, d') | Err e => (Err e, d) end.

(** Statements of one transaction, at the time of day [now] of the process. *)
Definition exec (f : Z -> Z -> MLDB -> result ml_err MLDB) : MLEff unit :=
  func (now <- call time_now ;; call (ml_op (fun t => statement (f now t)))).

Definition delete_row {C} `{MLTable C} (orgID id deletedBy : string) : MLEff unit :=
  exec (fun now _ => update_row (C := C) orgID id [deletedBy]
    (fun r => with_content (r_Content r) (soft_deleted deletedBy now (r_Stamp r)) r)).

(** ** Values of runs and evaluations

    A Go map is given by its entries in the order it is ranged over. *)

Definition of_parent {V} (id : string) (t : gmap (string * string) V) : list (string * V) :=
  omap (fun kv => if String.eqb kv.1.1 id then Some (kv.1.2, kv.2) else None) (map_to_list t).
(** The entries of [id] become [l]; a later entry wins, as it would in the map. *)
Definition replace_values {V} (id : string) (l : list (string * V)) (t : gmap (string * string) V) :
    gmap (string * string) V :=
  fold_left (fun t kv => <[(id, kv.1) := kv.2]> t) l (base.filter (fun kv => kv.1.1 <> id) t).

Definition replaceMLParams (id : string) (params : list (string * json)) (t : gmap (string * string) json) :=
  replace_values id params t.

Fixpoint numbers (metrics : list (string * json)) : result ml_err (list (string * string)) :=
  match metrics with
  | [] => Ok []
  | (key, JNumber n) :: ms => match numbers ms with Ok l => Ok ((key, n) :: l) | Err e => Err e end
  | (key, _) :: _ => Err (ErrInvalidValue "" ("metric " +:+ Quote key +:+ " must be a number"))
  end.
Definition replaceMLMetrics (id : string) (metrics : list (string * json)) (t : gmap (string * string) string) :
    result ml_err (gmap (string * string) string) :=
  match numbers metrics with Ok l => Ok (replace_values id l t) | Err e => Err e end.

(** [fmt.Errorf(prefix + ": %w", err)] *)
Definition wrap {A} (prefix : string) (r : result ml_err A) : result ml_err A :=
  match r with
  | Err (ErrParentNotFound p w) => Err (ErrParentNotFound (prefix +:+ ": " +:+ p) w)
  | Err (ErrInvalidValue p w) => Err (ErrInvalidValue (prefix +:+ ": " +:+ p) w)
  | _ => r
  end.

Definition set_run_entries (label id : string) (params metrics : list (string * json)) (d : MLDB) : result ml_err MLDB :=
  match wrap label (replaceMLMetrics id metrics (m_run_metrics d)) with
  | Ok ms => Ok (set_run_values d (replaceMLParams id params (m_run_params d)) ms)
  | Err e => Err e
  end.
Definition set_eval_entries (label id : string) (params metrics : list (string * json)) (d : MLDB) : result ml_err MLDB :=
  match wrap label (replaceMLMetrics id metrics (m_eval_metrics d)) with
  | Ok ms => Ok (set_eval_values d (replaceMLParams id params (m_eval_params d)) ms)
  | Err e => Err e
  end.

Definition and_then (r : result ml_err MLDB) (f : MLDB -> result ml_err MLDB) : result ml_err MLDB :=
  match r with Ok d => f d | Err e => Err e end.

(** ** Deployments *)

Definition CreateMLDeployment (dep : Row DeploymentData) : MLEff unit :=
  exec (fun now _ => insert_row (mkRow (r_ID dep) (r_OrgID dep) None "" (r_Content dep)
    (created (st_CreatedBy (r_Stamp dep)) None now None))).
Definition GetMLDeployment : string -> string -> MLEff (option (Row DeploymentData)) := get.
Definition in_org {C} (orgID : string) (r : Row C) : bool := String.eqb (r_OrgID r) orgID && row_live r.
Definition wanted (arg value : string) : bool := str_empty arg || String.eqb value arg.
Definition filter_ids (ids : list string) : bool := forallb (fun s => str_empty s || valid_uuid s) ids.

Definition list_rows {C} `{MLTable C} (orgID : string) (ids : list string) (p : MLDB -> C -> bool)
    (less : Row C -> Row C -> bool) : MLEff (list (Row C)) :=
  ml_op (fun _ d => (if valid_uuid orgID && filter_ids ids
                     then Ok (order_by less (select (fun r => in_org orgID r && p d (r_Content r)) (tbl d)))
                     else bad_uuid, d)).

Definition newest_first {C} : Row C -> Row C -> bool := desc (by_key (fun r => st_CreatedAt (r_Stamp r))).

Definition ListMLDeployments (orgID modelID versionID : string) : MLEff (list (Row DeploymentData)) :=
  list_rows orgID [modelID; versionID]
    (fun _ c => wanted modelID (dp_ModelID c) && wanted versionID (dp_VersionID c)) newest_first.

Definition deployment_columns (n old : DeploymentData) : DeploymentData :=
  mkDeployment (dp_ModelID old) (dp_VersionID old) (dp_Name n) (dp_Environment n) (dp_Status n) (dp_Endpoint n)
    (dp_Region n) (dp_DeployedAt n) (dp_RolledBackAt n).
Definition UpdateMLDeployment (dep : Row DeploymentData) : MLEff unit :=
  exec (fun now _ => update_row (r_OrgID dep) (r_ID dep) []
    (fun r => with_content (deployment_columns (r_Content dep) (r_Content r)) (updated now (r_Stamp r)) r)).
Definition DeleteMLDeployment : string -> string -> string -> MLEff unit := delete_row (C := DeploymentData).

(** ** Findings, with their links to runs and evaluations *)

Record Finding := mkFindingRow { f_Row : Row FindingData; f_RunIDs : list string; f_EvaluationIDs : list string }.

(** DELETE of the links of a finding, then INSERT ... ON CONFLICT DO NOTHING of each. *)
Definition replace_links {C} (t : gmap string C) (id : string) (ids : list string) (links : gset (string * string)) :
    result ml_err (gset (string * string)) :=
  if negb (forallb valid_uuid ids) then bad_uuid
  else if negb (forallb (has t) ids) then fk_refused
  else Ok (base.filter (fun l => l.1 <> id) links ∪ list_to_set (map (pair id) ids)).

Definition replaceMLFindingLinks (f : Finding) (d : MLDB) : result ml_err MLDB :=
  let id := r_ID (f_Row f) in
  match replace_links (m_runs d) id (f_RunIDs f) (m_finding_runs d) with
  | Err e => Err e
  | Ok rs => match replace_links (m_evaluations d) id (f_EvaluationIDs f) (m_finding_evals d) with
             | Err e => Err e
             | Ok es => Ok (set_finding_links d rs es)
             end
  end.

Definition CreateMLFinding (f : Finding) : MLEff unit :=
  let r := f_Row f in
  exec (fun now _ d =>
    and_then (insert_row (mkRow (r_ID r) (r_OrgID r) None "" (r_Content r)
                            (created (st_CreatedBy (r_Stamp r)) None now None)) d)
      (replaceMLFindingLinks f)).

Definition links_of (id : string) (links : gset (string * string)) : list string :=
  order_by (fun x y => str_less x y) (omap (fun l => if String.eqb l.1 id then Some l.2 else None) (elements links)).
Definition with_links (d : MLDB) (r : Row FindingData) : Finding :=
  mkFindingRow r (links_of (r_ID r) (m_finding_runs d)) (links_of (r_ID r) (m_finding_evals d)).

Definition GetMLFinding (orgID id : string) : MLEff (option Finding) :=
  func (
    o <- try (get orgID id) (fun e => Err e) ;;
    match o with
    | None => gret (Ok None)
    | Some r =>
        runIDs <- try (ml_op (fun _ d => (Ok (links_of (r_ID r) (m_finding_runs d)), d))) (fun e => Err e) ;;
        evaluationIDs <- try (ml_op (fun _ d => (Ok (links_of (r_ID r) (m_finding_evals d)), d))) (fun e => Err e) ;;
        gret (Ok (Some (mkFindingRow r runIDs evaluationIDs)))
    end).

Definition model_in_project (projectID : string) (d : MLDB) (modelID : string) : bool :=
  str_empty projectID ||
  match m_models d !! modelID with
  | Some m => bool_decide (md_ProjectID (r_Content m) = Some projectID)
  | None => false
  end.

(** The links are read only when there are findings, each kind by one query. *)
Definition ListMLFindings (orgID modelID projectID : string) : MLEff (list Finding) :=
  func (
    rs <- try (list_rows orgID [modelID; projectID]
                 (fun d c => wanted modelID (fi_ModelID c) && model_in_project projectID d (fi_ModelID c))
                 newest_first) (fun e => Err e) ;;
    match rs with
    | [] => gret (Ok [])
    | _ =>
        runs <- try (ml_op (fun _ d => (Ok (m_finding_runs d), d))) (fun e => Err e) ;;
        evals <- try (ml_op (fun _ d => (Ok (m_finding_evals d), d))) (fun e => Err e) ;;
        gret (Ok (map (fun r => mkFindingRow r (links_of (r_ID r) runs) (links_of (r_ID r) evals)) rs))
    end).

Definition finding_columns (n old : FindingData) : FindingData :=
  mkFinding (fi_ModelID old) (fi_VersionID n) (fi_Title n) (fi_Summary n) (fi_Description n).
Definition UpdateMLFinding (f : Finding) : MLEff unit :=
  let n := f_Row f in
  exec (fun now _ d =>
    and_then (update_row (r_OrgID n) (r_ID n) (opt_list (fi_VersionID (r_Content n)))
                (fun r => with_content (finding_columns (r_Content n) (r_Content r)) (updated now (r_Stamp r)) r) d)
      (replaceMLFindingLinks f)).
Definition DeleteMLFinding : string -> string -> string -> MLEff unit := delete_row (C := FindingData).

(** ** Models and versions *)

Definition CreateMLModel (m : Row ModelData) : MLEff unit :=
  let by_ := st_CreatedBy (r_Stamp m) in
  let c := r_Content m in
  exec (fun now t => insert_row (mkRow (r_ID m) (r_OrgID m) None (r_Origin m)
    (mkModel (md_ProjectID c) (md_Name c) (md_Description c) (md_Domain c) (md_ProblemType c) (md_Tags c)
       (mkCard "" [] "" "" "" "") None (Some now) None)
    (created by_ (Some by_) now (Some t)))).
Definition GetMLModel : string -> string -> MLEff (option (Row ModelData)) := get.
Definition ListMLModels (orgID projectID : string) : MLEff (list (Row ModelData)) :=
  list_rows orgID [projectID]
    (fun _ c => str_empty projectID || bool_decide (md_ProjectID c = Some projectID)) (by_text (fun r => md_Name (r_Content r))).

Definition model_info (n old : ModelData) : ModelData :=
  mkModel (md_ProjectID old) (md_Name n) (md_Description n) (md_Domain n) (md_ProblemType n) (md_Tags n)
    (md_Card old) (md_ProductionVersionID old) (md_MLflowCreatedAt old) (md_MLflowUpdatedAt old).
Definition UpdateMLModelInfo (m : Row ModelData) : MLEff unit :=
  exec (fun now _ => update_row (r_OrgID m) (r_ID m) []
    (fun r => with_content (model_info (r_Content m) (r_Content r)) (updated now (r_Stamp r)) r)).
Definition DeleteMLModel : string -> string -> string -> MLEff unit := delete_row (C := ModelData).

Record ModelUpdateInput := mkModelUpdate { mu_Domain : string; mu_ProblemType : string; mu_Card : ModelCard }.
Definition model_card (n : ModelUpdateInput) (old : ModelData) : ModelData :=
  mkModel (md_ProjectID old) (md_Name old) (md_Description old) (mu_Domain n) (mu_ProblemType n) (md_Tags old)
    (mu_Card n) (md_ProductionVersionID old) (md_MLflowCreatedAt old) (md_MLflowUpdatedAt old).
Definition UpdateMLModel (orgID id actorID : string) (n : ModelUpdateInput) : MLEff unit :=
  ml_op (fun t => statement (update_row orgID id [actorID]
    (fun r => with_content (model_card n (r_Content r)) (updated_by (Some actorID) t (r_Stamp r)) r))).

(** The status of a version is that of the latest row of its deployment log. *)
Definition latest_first : VersionDeploymentUpdate -> VersionDeploymentUpdate -> bool :=
  then_by (desc (by_key du_ChangedAt)) (desc (fun x y => str_less (du_ID x) (du_ID y))).
Definition of_ml_version (versionID : string) (u : VersionDeploymentUpdate) : bool := String.eqb (du_VersionID u) versionID.
Definition deployment_status (versionID : string) (d : MLDB) : string :=
  match head (order_by latest_first (select (of_ml_version versionID) (m_updates d))) with
  | Some u => du_ToStatus u
  | None => "candidate"
  end.
Record ModelVersion := mkModelVersion { mv_Row : Row VersionData; mv_DeploymentStatus : string }.
Definition with_status (d : MLDB) (r : Row VersionData) : ModelVersion := mkModelVersion r (deployment_status (r_ID r) d).

Definition CreateMLModelVersion (v : Row VersionData) : MLEff unit :=
  let by_ := st_CreatedBy (r_Stamp v) in
  exec (fun now t => insert_row (mkRow (r_ID v) (r_OrgID v) None (r_Origin v) (r_Content v)
    (created by_ (Some by_) now (Some t)))).
Definition GetMLModelVersion (orgID id : string) : MLEff (option ModelVersion) :=
  ml_op (fun _ d => (if valid_uuid orgID && valid_uuid id then Ok (option_map (with_status d) (live_row orgID id d))
                     else bad_uuid, d)).
Definition ListMLModelVersions (orgID modelID projectID : string) : MLEff (list ModelVersion) :=
  ml_op (fun _ d => (if valid_uuid orgID && filter_ids [modelID; projectID]
    then Ok (map (with_status d) (order_by (by_text (fun r => vd_Version (r_Content r)))
           (select (fun r => in_org orgID r && wanted modelID (vd_ModelID (r_Content r)) &&
                             model_in_project projectID d (vd_ModelID (r_Content r))) (m_versions d))))
    else bad_uuid, d)).

Definition set_version_run (runID : option string) (c : VersionData) : VersionData :=
  mkVersionData (vd_ModelID c) (vd_Version c) (vd_Description c) runID (vd_MLflowCreatedAt c).
Definition SetMLModelVersionRun (orgID versionID : string) (runID : option string) (actorID : string) : MLEff unit :=
  exec (fun now _ => update_row orgID versionID (actorID :: opt_list runID)
    (fun r => with_content (set_version_run runID (r_Content r)) (updated_by (Some actorID) now (r_Stamp r)) r)).

Definition CreateVersionDeploymentUpdate (u : VersionDeploymentUpdate) : MLEff unit :=
  exec (fun now _ d =>
    if negb (forallb valid_uuid [du_ID u; du_OrgID u; du_VersionID u; du_ChangedBy u]) then bad_uuid
    else if found (m_updates d !! du_ID u) then duplicate
    else if negb (has (orgs (m_auth d)) (du_OrgID u) && has (m_versions d) (du_VersionID u)) then fk_refused
    else Ok (set_updates d (<[du_ID u := mkDeploymentUpdate (du_ID u) (du_OrgID u) (du_VersionID u) (du_FromStatus u)
                                           (du_ToStatus u) (du_ChangedBy u) now]> (m_updates d)))).
Definition ListVersionDeploymentUpdates (orgID versionID projectID : string) : MLEff (list VersionDeploymentUpdate) :=
  ml_op (fun _ d => (if valid_uuid orgID && filter_ids [versionID; projectID]
    then Ok (order_by latest_first (select (fun u => String.eqb (du_OrgID u) orgID && wanted versionID (du_VersionID u) &&
           (str_empty projectID ||
            match m_versions d !! du_VersionID u with
            | Some v => model_in_project projectID d (vd_ModelID (r_Content v))
            | None => false
            end)) (m_updates d)))
    else bad_uuid, d)).

(** ** Projects, experiments, datasets, artifacts *)

Definition GetMLProject : string -> string -> MLEff (option (Row ProjectData)) := get.

Definition CreateMLExperiment (e : Row ExperimentData) : MLEff unit :=
  let by_ := st_CreatedBy (r_Stamp e) in
  exec (fun now t => insert_row (mkRow (r_ID e) (r_OrgID e) None (r_Origin e) (r_Content e)
    (created by_ (Some by_) now (Some t)))).
Definition GetMLExperiment : string -> string -> MLEff (option (Row ExperimentData)) := get.
Definition ListMLExperiments (orgID projectID : string) : MLEff (list (Row ExperimentData)) :=
  list_rows orgID [projectID] (fun _ c => str_empty projectID || bool_decide (ed_ProjectID c = Some projectID))
    (then_by newest_first (by_text (fun r => ed_Name (r_Content r)))).
Definition UpdateMLExperiment (e : Row ExperimentData) : MLEff unit :=
  exec (fun now _ => update_row (r_OrgID e) (r_ID e)
    (opt_list (ed_ProjectID (r_Content e)) ++ opt_list (st_UpdatedBy (r_Stamp e)))%list
    (fun r => with_content (r_Content e) (updated_by (st_UpdatedBy (r_Stamp e)) now (r_Stamp r)) r)).
Definition DeleteMLExperiment : string -> string -> string -> MLEff unit := delete_row (C := ExperimentData).

Definition CreateMLDataset (ds : Row DatasetData) : MLEff unit :=
  exec (fun now t => insert_row (mkRow (r_ID ds) (r_OrgID ds) None (r_Origin ds) (r_Content ds)
    (created (st_CreatedBy (r_Stamp ds)) None now (Some t)))).
Definition GetMLDataset : string -> string -> MLEff (option (Row DatasetData)) := get.
Definition ListMLDatasets (orgID experimentID : string) : MLEff (list (Row DatasetData)) :=
  list_rows orgID [experimentID] (fun _ c => wanted experimentID (dd_ExperimentID c)) (by_text (fun r => dd_Name (r_Content r))).
Definition dataset_columns (n old : DatasetData) : DatasetData :=
  mkDataset (dd_ExperimentID old) (dd_Name n) (dd_Digest n) (dd_Source n) (dd_SourceType n) (dd_Context n)
    (dd_RowCount n) (dd_Schema n) (dd_Tags n).
Definition UpdateMLDataset (ds : Row DatasetData) : MLEff unit :=
  exec (fun now _ => update_row (r_OrgID ds) (r_ID ds) []
    (fun r => with_content (dataset_columns (r_Content ds) (r_Content r)) (updated now (r_Stamp r)) r)).
Definition DeleteMLDataset : string -> string -> string -> MLEff unit := delete_row (C := DatasetData).

Definition CreateMLArtifact (a : Row ArtifactData) : MLEff unit :=
  exec (fun now t => insert_row (mkRow (r_ID a) (r_OrgID a) None (r_Origin a) (r_Content a)
    (created (st_CreatedBy (r_Stamp a)) None now (Some t)))).
Definition GetMLArtifact : string -> string -> MLEff (option (Row ArtifactData)) := get.
Definition ListMLArtifacts (orgID runID : string) : MLEff (list (Row ArtifactData)) :=
  list_rows orgID [runID] (fun _ c => wanted runID (fd_RunID c)) (by_text (fun r => fd_Name (r_Content r))).
Definition artifact_columns (n old : ArtifactData) : ArtifactData :=
  mkArtifact (fd_RunID old) (fd_Name n) (fd_Type n) (fd_URI n) (fd_DownloadURI n) (fd_Size n) (fd_Format n)
    (fd_StorageKey old) (fd_MimeType old) (fd_SizeBytes old).
Definition UpdateMLArtifact (a : Row ArtifactData) : MLEff unit :=
  exec (fun now _ => update_row (r_OrgID a) (r_ID a) []
    (fun r => with_content (artifact_columns (r_Content a) (r_Content r)) (updated now (r_Stamp r)) r)).
Definition DeleteMLArtifact : string -> string -> string -> MLEff unit := delete_row (C := ArtifactData).

(** ** Runs *)

Record Run := mkRunRow {
  ru_Row : Row RunData; ru_Parameters : list (string * json); ru_Metrics : list (string * json)
}.
Definition as_numbers (l : list (string * string)) : list (string * json) := map (fun kv => (kv.1, JNumber kv.2)) l.

Definition CreateMLRun (run : Run) : MLEff unit :=
  let r := ru_Row run in
  exec (fun now t d =>
    and_then (insert_row (mkRow (r_ID r) (r_OrgID r) None (r_Origin r) (r_Content r)
                            (created (st_CreatedBy (r_Stamp r)) None now (Some t))) d)
      (set_run_entries "postgres: CreateMLRun metrics" (r_ID r) (ru_Parameters run) (ru_Metrics run))).

(** The row, then its parameters, then its metrics. *)
Definition load_values {C} (id : C -> string) (params : MLDB -> gmap (string * string) json)
    (metrics : MLDB -> gmap (string * string) string) (r : C) :
    MLEff (list (string * json) * list (string * json)) :=
  func (
    ps <- try (ml_op (fun _ d => (Ok (of_parent (id r) (params d)), d))) (fun e => Err e) ;;
    ms <- try (ml_op (fun _ d => (Ok (of_parent (id r) (metrics d)), d))) (fun e => Err e) ;;
    gret (Ok (ps, as_numbers ms))).

Definition GetMLRun (orgID id : string) : MLEff (option Run) :=
  func (
    o <- try (get orgID id) (fun e => Err e) ;;
    match o with
    | None => gret (Ok None)
    | Some r => vs <- try (load_values r_ID m_run_params m_run_metrics r) (fun e => Err e) ;;
                gret (Ok (Some (mkRunRow r vs.1 vs.2)))
    end).

Definition run_columns (n old : RunData) : RunData :=
  mkRun (rd_ExperimentID old) (rd_Name n) (rd_Status n) (rd_StartedAt n) (rd_EndedAt n) (rd_Notes n) (rd_Tags n)
    (rd_DatasetID n).
Definition UpdateMLRun (run : Run) : MLEff unit :=
  let n := ru_Row run in
  exec (fun now _ d =>
    and_then (update_row (r_OrgID n) (r_ID n) (opt_list (rd_DatasetID (r_Content n)))
                (fun r => with_content (run_columns (r_Content n) (r_Content r)) (updated now (r_Stamp r)) r) d)
      (set_run_entries "postgres: UpdateMLRun metrics" (r_ID n) (ru_Parameters run) (ru_Metrics run))).
Definition DeleteMLRun : string -> string -> string -> MLEff unit := delete_row (C := RunData).

(** ** Evaluations *)

(** A row with the names of its model and version. *)
Record Evaluation := mkEvaluationRow {
  el_Row : Row EvaluationData; el_ModelName : string; el_Version : string;
  el_Parameters : list (string * json); el_Metrics : list (string * json)
}.

Definition joined (d : MLDB) (r : Row EvaluationData) : option Evaluation :=
  v ← m_versions d !! ev_VersionID (r_Content r); m ← m_models d !! vd_ModelID (r_Content v);
  Some (mkEvaluationRow r (md_Name (r_Content m)) (vd_Version (r_Content v)) [] []).
Definition with_values (vs : list (string * json) * list (string * json)) (e : Evaluation) : Evaluation :=
  mkEvaluationRow (el_Row e) (el_ModelName e) (el_Version e) vs.1 vs.2.
Definition el_ID (e : Evaluation) : string := r_ID (el_Row e).

Definition CreateMLEvaluation (e : Evaluation) : MLEff unit :=
  let r := el_Row e in
  exec (fun now t d =>
    and_then (insert_row (mkRow (r_ID r) (r_OrgID r) None (r_Origin r) (r_Content r)
                            (created (st_CreatedBy (r_Stamp r)) None now (Some t))) d)
      (set_eval_entries "postgres: CreateMLEvaluation metrics" (r_ID r) (el_Parameters e) (el_Metrics e))).

Definition GetMLEvaluation (orgID id : string) : MLEff (option Evaluation) :=
  func (
    o <- try (ml_op (fun _ d => (if valid_uuid orgID && valid_uuid id
                                 then Ok (live_row orgID id d ≫= joined d) else bad_uuid, d))) (fun e => Err e) ;;
    match o with
    | None => gret (Ok None)
    | Some e => vs <- try (load_values el_ID m_eval_params m_eval_metrics e) (fun e => Err e) ;;
                gret (Ok (Some (with_values vs e)))
    end).

Definition evaluation_columns (n old : EvaluationData) : EvaluationData :=
  mkEvaluation (ev_VersionID old) (ev_ExperimentID old) (ev_DatasetID n) (ev_Name n) (ev_Type n) (ev_Description n)
    (ev_Summary n) (ev_StartedAt n) (ev_EndedAt n) (ev_Evaluator n) (ev_Tags n).
Definition UpdateMLEvaluation (e : Evaluation) : MLEff unit :=
  let n := el_Row e in
  exec (fun now _ d =>
    and_then (update_row (r_OrgID n) (r_ID n) (opt_list (ev_DatasetID (r_Content n)))
                (fun r => with_content (evaluation_columns (r_Content n) (r_Content r)) (updated now (r_Stamp r)) r) d)
      (set_eval_entries "postgres: UpdateMLEvaluation metrics" (r_ID n) (el_Parameters e) (el_Metrics e))).
Definition DeleteMLEvaluation : string -> string -> string -> MLEff unit := delete_row (C := EvaluationData).

Definition set_eval_version (versionID : string) (c : EvaluationData) : EvaluationData :=
  mkEvaluation versionID (ev_ExperimentID c) (ev_DatasetID c) (ev_Name c) (ev_Type c) (ev_Description c)
    (ev_Summary c) (ev_StartedAt c) (ev_EndedAt c) (ev_Evaluator c) (ev_Tags c).
(** id = ANY(..): one statement for all of them. *)
Definition SetMLEvaluationsVersion (orgID versionID : string) (evaluationIDs : list string) (actorID : string) :
    MLEff unit :=
  exec (fun now _ d =>
    if negb (forallb valid_uuid (orgID :: versionID :: actorID :: evaluationIDs)) then bad_uuid
    else let hit r := in_org orgID r && mem_str (r_ID r) evaluationIDs in
         if exists_row hit (m_evaluations d) && negb (has (m_versions d) versionID) then fk_refused
         else Ok (set_evaluations d (update_where hit
                (fun r => with_content (set_eval_version versionID (r_Content r)) (updated_by (Some actorID) now (r_Stamp r)) r)
                (m_evaluations d)))).

(** The evaluations of a version or an experiment, latest first, all of them. *)
Definition ListMLVersionEvaluations (orgID versionID : string) : MLEff (list Evaluation) :=
  func (
    _ <- try (ml_op (fun _ d => (if valid_uuid orgID && valid_uuid versionID then Ok tt else bad_uuid, d))) (fun e => Err e) ;;
    es <- try (ml_op (fun _ d => (Ok (omap (joined d) (order_by (desc (by_key (fun r => ev_StartedAt (r_Content r))))
           (select (fun r => in_org orgID r && String.eqb (ev_VersionID (r_Content r)) versionID) (m_evaluations d)))), d)))
          (fun e => Err e) ;;
    match es with
    | [] => gret (Ok [])
    | _ =>
        ps <- try (ml_op (fun _ d => (Ok (m_eval_params d), d))) (fun e => Err e) ;;
        ms <- try (ml_op (fun _ d => (Ok (m_eval_metrics d), d))) (fun e => Err e) ;;
        gret (Ok (map (fun e => with_values (of_parent (el_ID e) ps, as_numbers (of_parent (el_ID e) ms)) e) es))
    end).
End Statements.
