(* ===== verification/MLSync.v ===== *)
(** * MLSync: synchronising the registry with MLflow

    Models [internal/store/postgres/mlstudio.go]: projects, and the statements
    that insert or update rows by the ids MLflow has for them.  Each call is one
    transaction over its inputs, in order, and counts the rows it created and
    changed. *)

From S2P Require Import Prelude GoStrings Effects Json Table Authz Identity AuthStore MLStudio.
Set Warnings "-register-all,-clear-no-such-hyp".
#[local] Open Scope nat_scope.
#[local] Open Scope string_scope.

#[export] Instance ProjectData_eq_dec : EqDecision ProjectData.
Proof. solve_decision. Defined.
#[export] Instance ModelCard_eq_dec : EqDecision ModelCard.
Proof. solve_decision. Defined.
#[export] Instance ModelData_eq_dec : EqDecision ModelData.
Proof. solve_decision. Defined.
#[export] Instance VersionData_eq_dec : EqDecision VersionData.
Proof. solve_decision. Defined.
#[export] Instance ExperimentData_eq_dec : EqDecision ExperimentData.
Proof. solve_decision. Defined.
#[export] Instance RunData_eq_dec : EqDecision RunData.
Proof. solve_decision. Defined.
#[export] Instance SchemaField_eq_dec : EqDecision SchemaField.
Proof. solve_decision. Defined.
#[export] Instance DatasetData_eq_dec : EqDecision DatasetData.
Proof. solve_decision. Defined.
#[export] Instance ArtifactData_eq_dec : EqDecision ArtifactData.
Proof. solve_decision. Defined.
#[export] Instance EvaluationData_eq_dec : EqDecision EvaluationData.
Proof. solve_decision. Defined.

(** ** Inputs: [internal/mlstudio/ingest.go] *)

Record SyncCounts := mkCounts { sc_Created : Z; sc_Updated : Z }.

Record ProjectInput := mkProjectInput { pi_Data : ProjectData; pi_TeamName : string }.
Record ModelInput := mkModelInput {
  mi_MLflowID : string; mi_ProjectName : string; mi_Name : string; mi_Description : string; mi_Tags : list string;
  mi_ProblemType : string; mi_Domain : string; mi_License : string; mi_IntendedUse : string; mi_Limitations : string;
  mi_Recommendations : string; mi_Considerations : string; mi_ProductionVersionMLflowID : option string;
  mi_CreatedAt : option Z; mi_UpdatedAt : option Z; mi_UserEmail : string; mi_ActorID : string
}.
Record ModelVersionInput := mkVersionInput {
  vi_MLflowID : string; vi_ModelMLflowID : string; vi_RunMLflowID : option string; vi_Version : string;
  vi_Description : string; vi_CreatedAt : option Z; vi_UserEmail : string; vi_ActorID : string
}.
Record ExperimentInput := mkExperimentInput {
  ei_MLflowID : string; ei_ProjectName : string; ei_Name : string; ei_Description : string; ei_Status : string;
  ei_Tags : list string; ei_UserEmail : string; ei_ActorID : string
}.
Record RunInput := mkRunInput {
  ri_MLflowID : string; ri_ExperimentMLflowID : string; ri_DatasetMLflowID : option string; ri_Name : string;
  ri_Status : string; ri_StartedAt : option Z; ri_EndedAt : option Z; ri_Notes : string; ri_Tags : list string;
  ri_Parameters : list (string * json); ri_Metrics : list (string * json); ri_UserEmail : string; ri_ActorID : string
}.
Record ArtifactInput := mkArtifactInput {
  ai_MLflowID : string; ai_RunMLflowID : string; ai_Name : string; ai_Type : string; ai_URI : string;
  ai_DownloadURI : string; ai_Size : string; ai_Format : string; ai_UserEmail : string; ai_ActorID : string
}.
Record DatasetInput := mkDatasetInput {
  di_MLflowID : string; di_ExperimentMLflowID : string; di_Name : string; di_Digest : string; di_Source : string;
  di_SourceType : string; di_Context : string; di_RowCount : Z; di_Schema : list SchemaField; di_Tags : list string;
  di_UserEmail : string; di_ActorID : string
}.
Record EvaluationInput := mkEvaluationInput {
  li_MLflowID : string; li_VersionMLflowID : string; li_ExperimentMLflowID : string; li_DatasetMLflowID : option string;
  li_Name : string; li_Type : string; li_Description : string; li_Summary : string; li_StartedAt : option Z;
  li_EndedAt : option Z; li_Evaluator : string; li_Tags : list string; li_Parameters : list (string * json);
  li_Metrics : list (string * json); li_UserEmail : string; li_ActorID : string
}.

Section Sync.
Context `{Collation} `{UuidText}.

(** ** Looking up *)

Definition resolveTeamID (orgID name : string) (d : MLDB) : result ml_err string :=
  match select_one (fun t => String.eqb (t_OrgID t) orgID && String.eqb (t_Name t) name) (teams (m_auth d)) with
  | Some t => Ok (t_ID t)
  | None => Err (Store ErrTeamNotFound)
  end.

Definition of_mlflow {C} (orgID mlflowID : string) (r : Row C) : bool :=
  String.eqb (r_OrgID r) orgID && bool_decide (r_MLflowID r = Some mlflowID).
Definition resolveMLID {C} `{MLTable C} (orgID mlflowID : string) (d : MLDB) : option string :=
  option_map r_ID (select_one (fun r => of_mlflow orgID mlflowID r && row_live r) (tbl (C := C) d)).
(** A parent that MLflow may not have named, or that is not there yet. *)
Definition resolve_optional {C} `{MLTable C} (orgID : string) (o : option string) (d : MLDB) : option string :=
  match o with Some id => if str_empty id then None else resolveMLID (C := C) orgID id d | None => None end.
Definition resolve_dataset (orgID experimentID : string) (o : option string) (d : MLDB) : option string :=
  match o with
  | Some id =>
      if str_empty id then None
      else option_map r_ID (select_one (fun r => of_mlflow orgID id r && String.eqb (dd_ExperimentID (r_Content r)) experimentID
                                                && row_live r) (m_datasets d))
  | None => None
  end.

Definition resolveProjectID (orgID projectName : string) (d : MLDB) : result ml_err (option string) :=
  if str_empty projectName then Ok None
  else match select_one (fun r => in_org orgID r && String.eqb (pj_Name (r_Content r)) projectName) (m_projects d) with
       | Some r => Ok (Some (r_ID r))
       | None => Err (ErrParentNotFound "" ("project " +:+ Quote projectName))
       end.

Definition ResolveOrgUserIDsByEmail (orgID : string) (emails : list string) : MLEff (gmap string string) :=
  match emails with
  | [] => fun w => (Ok ∅, w)
  | _ => ml_op (fun _ d => (if valid_uuid orgID then
      Ok (list_to_map (omap (fun u =>
            let email := text_lower (u_Email u) in
            if mem_str email emails && found (members (m_auth d) !! (u_ID u, orgID)) then Some (email, u_ID u) else None)
          (rows (users (m_auth d)))))
      else bad_uuid, d))
  end.

(** ** Insert or update *)

(** The result of one upsert: was there a row, did it change, and the row's id. *)
Record Upserted := mkUpserted { us_Existed : bool; us_Changed : bool; us_ID : string; us_DB : MLDB }.

Definition resynced (actor : string) (t : Z) (s : Stamp) : Stamp :=
  mkStamp (st_CreatedBy s) (Some actor) (st_CreatedAt s) t (Some t) (st_DeletedAt s) (st_DeletedBy s).

(** INSERT ... ON CONFLICT (key) DO UPDATE SET .. WHERE ROW(..) IS DISTINCT FROM ROW(..): [merge] gives the
    columns that are set, which are the columns compared. *)
Definition upsert_row {C} `{MLTable C} `{EqDecision C} (t : Z) (orgID : string) (mlflowID : option string)
    (origin actor : string) (key : Row C -> bool) (new : C) (merge : C -> C) (d : MLDB) : result ml_err Upserted :=
  if negb (forallb valid_uuid (orgID :: actor :: uuids new)) then bad_uuid
  else match select_one key (tbl d) with
       | Some r =>
           let c := merge (r_Content r) in
           if bool_decide (c = r_Content r) then Ok (mkUpserted true false (r_ID r) d)
           else if negb (fks d c) then fk_refused
           else Ok (mkUpserted true true (r_ID r)
                  (set_tbl d (<[r_ID r := with_content c (resynced actor t (r_Stamp r)) r]> (tbl d))))
       | None =>
           let id := gen_random_uuid (dom (tbl (C := C) d)) in
           if negb (has (orgs (m_auth d)) orgID && fks d new) then fk_refused
           else Ok (mkUpserted false true id
                  (set_tbl d (<[id := mkRow id orgID mlflowID origin new (created actor (Some actor) t (Some t))]> (tbl d))))
       end.

Definition count (u : Upserted) (c : SyncCounts) : SyncCounts :=
  mkCounts (sc_Created c + if us_Existed u then 0 else 1)%Z
    (sc_Updated c + if us_Existed u && us_Changed u then 1 else 0)%Z.

Fixpoint upsert_all {I} (f : I -> MLDB -> result ml_err Upserted) (l : list I) (c : SyncCounts) (d : MLDB) :
    result ml_err (SyncCounts * MLDB) :=
  match l with
  | [] => Ok (c, d)
  | x :: l => match f x d with
              | Ok u => upsert_all f l (count u c) (us_DB u)
              | Err e => Err e
              end
  end.

Definition upsert_tx {I} (f : Z -> I -> MLDB -> result ml_err Upserted) (l : list I) : MLEff SyncCounts :=
  ml_op (fun t d => match upsert_all (f t) l (mkCounts 0 0) d with
                    | Ok (c, d') => (Ok c, d')
                    | Err e => (Err e, d)
                    end).

Definition actor_of (actorID override : string) : string := if str_empty override then actorID else override.

(** ** Projects *)

(** A team by name, when there is no id. *)
Definition resolve_team (orgID : string) (p : ProjectInput) (d : MLDB) : result ml_err ProjectData :=
  let c := pi_Data p in
  let no_id := match pj_TeamID c with Some id => str_empty id | None => true end in
  if no_id && negb (str_empty (pi_TeamName p)) then
    match resolveTeamID orgID (pi_TeamName p) d with
    | Ok id => Ok (mkProject (pj_Name c) (pj_Type c) (pj_Description c) (pj_SourceType c) (pj_SourceURL c) (Some id))
    | Err e => Err e
    end
  else Ok c.

Definition project_named (orgID name : string) (r : Row ProjectData) : bool :=
  String.eqb (r_OrgID r) orgID && String.eqb (pj_Name (r_Content r)) name.

Definition mark_synced (orgID name : string) (t : Z) (d : MLDB) : MLDB :=
  set_projects d (update_where (project_named orgID name)
    (fun r => let s := r_Stamp r in
       with_content (r_Content r) (mkStamp (st_CreatedBy s) (st_UpdatedBy s) (st_CreatedAt s) (st_UpdatedAt s) (Some t)
                                     (st_DeletedAt s) (st_DeletedBy s)) r) (m_projects d)).

Definition upsert_project (orgID actorID : string) (t : Z) (p : ProjectInput) (d : MLDB) : result ml_err Upserted :=
  match resolve_team orgID p d with
  | Err e => Err e
  | Ok c =>
      match upsert_row t orgID None "" actorID (project_named orgID (pj_Name c)) c (fun _ => c) d with
      | Ok u => Ok (mkUpserted (us_Existed u) (us_Changed u) (us_ID u) (mark_synced orgID (pj_Name c) t (us_DB u)))
      | Err e => Err e
      end
  end.
Definition UpsertMLProjects (orgID actorID : string) : list ProjectInput -> MLEff SyncCounts :=
  upsert_tx (upsert_project orgID actorID).

(** ON CONFLICT (org_id, name) DO UPDATE, without a WHERE. *)
Definition put_project (orgID actorID : string) (c : ProjectData) (t : Z) (d : MLDB) : result ml_err (string * MLDB) :=
  if negb (forallb valid_uuid (orgID :: actorID :: uuids c)) then bad_uuid
  else if negb (has (orgs (m_auth d)) orgID && fks d c) then fk_refused
  else match select_one (project_named orgID (pj_Name c)) (m_projects d) with
       | Some r => Ok (r_ID r, set_projects d (<[r_ID r := with_content c (resynced actorID t (r_Stamp r)) r]> (m_projects d)))
       | None => let id := gen_random_uuid (dom (m_projects d)) in
                 Ok (id, set_projects d (<[id := mkRow id orgID None "" c (created actorID (Some actorID) t (Some t))]>
                                           (m_projects d)))
       end.

Definition CreateMLProject (orgID actorID : string) (p : ProjectInput) : MLEff (option (Row ProjectData)) :=
  func (
    c <- try (ml_op (fun _ d => (resolve_team orgID p d, d))) (fun e => Err e) ;;
    id <- try (ml_op (fun t d => match put_project orgID actorID c t d with
                                 | Ok (id, d') => (Ok id, d')
                                 | Err e => (Err e, d)
                                 end)) (fun e => Err e) ;;
    r <- try (GetMLProject orgID id) (fun e => Err e) ;;
    gret (Ok r)).

Definition project_columns (n old : ProjectData) : ProjectData :=
  mkProject (pj_Name n) (pj_Type n) (pj_Description n) (pj_SourceType old) (pj_SourceURL old) (pj_TeamID n).
(** The name is unique in the org, deleted projects included. *)
Definition update_project (orgID id actorID : string) (n : ProjectData) (t : Z) (d : MLDB) : result ml_err MLDB :=
  if found (live_row (C := ProjectData) orgID id d) &&
     other_row id (project_named orgID (pj_Name n)) (m_projects d) && forallb valid_uuid (orgID :: id :: actorID :: uuids n)
  then duplicate
  else update_row orgID id (actorID :: uuids n)
         (fun r => with_content (project_columns n (r_Content r)) (updated_by (Some actorID) t (r_Stamp r)) r) d.
Definition UpdateMLProject (orgID id actorID : string) (p : ProjectInput) : MLEff (option (Row ProjectData)) :=
  func (
    c <- try (ml_op (fun _ d => (resolve_team orgID p d, d))) (fun e => Err e) ;;
    _ <- try (ml_op (fun t => statement (update_project orgID id actorID c t))) (fun e => Err e) ;;
    r <- try (GetMLProject orgID id) (fun e => Err e) ;;
    gret (Ok r)).

Definition project_gone (actorID : string) (t : Z) (s : Stamp) : Stamp :=
  mkStamp (st_CreatedBy s) (Some actorID) (st_CreatedAt s) t (st_SyncedAt s) (Some t) (Some actorID).
Definition DeleteMLProject (orgID id actorID : string) : MLEff unit :=
  ml_op (fun t => statement (update_row (C := ProjectData) orgID id [actorID]
    (fun r => with_content (r_Content r) (project_gone actorID t (r_Stamp r)) r))).

Definition project_back (actorID : string) (t : Z) (s : Stamp) : Stamp :=
  mkStamp (st_CreatedBy s) (Some actorID) (st_CreatedAt s) t (st_SyncedAt s) None None.
Definition restorable (orgID : string) (names : list string) (r : Row ProjectData) : bool :=
  String.eqb (r_OrgID r) orgID && mem_str (pj_Name (r_Content r)) names && negb (row_live r).
Definition RestoreMLProjects (orgID actorID : string) (names : list string) : MLEff Z :=
  ml_op (fun t d =>
    if negb (forallb valid_uuid [orgID; actorID]) then (bad_uuid, d)
    else (Ok (Z.of_nat (length (select (restorable orgID names) (m_projects d)))),
          set_projects d (update_where (restorable orgID names)
            (fun r => with_content (r_Content r) (project_back actorID t (r_Stamp r)) r) (m_projects d)))).

(** ** Models, versions, experiments *)

Definition or_else (new old : option string) : option string := match new with Some x => Some x | None => old end.

Definition model_of_input (projectID productionVersionID : option string) (m : ModelInput) : ModelData :=
  mkModel projectID (mi_Name m) (mi_Description m) (mi_Domain m)
    (if str_empty (mi_ProblemType m) then "other" else mi_ProblemType m) (mi_Tags m)
    (mkCard (mi_License m) [] (mi_IntendedUse m) (mi_Limitations m) (mi_Considerations m) (mi_Recommendations m))
    productionVersionID (mi_CreatedAt m) (mi_UpdatedAt m).
(** COALESCE on the references; the reference links are not synchronised. *)
Definition merge_model (n old : ModelData) : ModelData :=
  let k := md_Card n in
  mkModel (or_else (md_ProjectID n) (md_ProjectID old)) (md_Name n) (md_Description n) (md_Domain n) (md_ProblemType n)
    (md_Tags n)
    (mkCard (mc_License k) (mc_References (md_Card old)) (mc_IntendedUse k) (mc_Limitations k) (mc_Considerations k)
       (mc_Recommendations k))
    (or_else (md_ProductionVersionID n) (md_ProductionVersionID old)) (md_MLflowCreatedAt n) (md_MLflowUpdatedAt n).

Definition upsert_model (orgID actorID : string) (t : Z) (m : ModelInput) (d : MLDB) : result ml_err Upserted :=
  let pv := resolve_optional (C := VersionData) orgID (mi_ProductionVersionMLflowID m) d in
  match wrap "postgres: UpsertMLModels resolve project" (resolveProjectID orgID (mi_ProjectName m) d) with
  | Err e => Err e
  | Ok projectID =>
      let new := model_of_input projectID pv m in
      upsert_row t orgID (Some (mi_MLflowID m)) "mlflow" (actor_of actorID (mi_ActorID m))
        (of_mlflow orgID (mi_MLflowID m)) new (merge_model new) d
  end.
Definition UpsertMLModels (orgID actorID : string) : list ModelInput -> MLEff SyncCounts :=
  upsert_tx (upsert_model orgID actorID).

Definition parent {C} `{MLTable C} (kind orgID mlflowID : string) (d : MLDB) : result ml_err string :=
  match resolveMLID (C := C) orgID mlflowID d with
  | Some id => Ok id
  | None => Err (ErrParentNotFound "" (kind +:+ " " +:+ Quote mlflowID))
  end.

Definition merge_version (n old : VersionData) : VersionData :=
  mkVersionData (vd_ModelID n) (vd_Version n) (vd_Description n) (or_else (vd_RunID n) (vd_RunID old))
    (vd_MLflowCreatedAt n).
Definition upsert_version (orgID actorID : string) (t : Z) (v : ModelVersionInput) (d : MLDB) : result ml_err Upserted :=
  match parent (C := ModelData) "model" orgID (vi_ModelMLflowID v) d with
  | Err e => Err e
  | Ok modelID =>
      let new := mkVersionData modelID (vi_Version v) (vi_Description v)
                   (resolve_optional (C := RunData) orgID (vi_RunMLflowID v) d) (vi_CreatedAt v) in
      upsert_row t orgID (Some (vi_MLflowID v)) "mlflow" (actor_of actorID (vi_ActorID v))
        (of_mlflow orgID (vi_MLflowID v)) new (merge_version new) d
  end.
Definition UpsertMLModelVersions (orgID actorID : string) : list ModelVersionInput -> MLEff SyncCounts :=
  upsert_tx (upsert_version orgID actorID).

Definition merge_experiment (n old : ExperimentData) : ExperimentData :=
  mkExperiment (or_else (ed_ProjectID n) (ed_ProjectID old)) (ed_Name n) (ed_Description n) (ed_Status n) (ed_Tags n).
Definition upsert_experiment (orgID actorID : string) (t : Z) (e : ExperimentInput) (d : MLDB) : result ml_err Upserted :=
  match wrap "postgres: UpsertMLExperiments resolve project" (resolveProjectID orgID (ei_ProjectName e) d) with
  | Err x => Err x
  | Ok projectID =>
      let new := mkExperiment projectID (ei_Name e) (ei_Description e) (ei_Status e) (ei_Tags e) in
      upsert_row t orgID (Some (ei_MLflowID e)) "mlflow" (actor_of actorID (ei_ActorID e))
        (of_mlflow orgID (ei_MLflowID e)) new (merge_experiment new) d
  end.
Definition UpsertMLExperiments (orgID actorID : string) : list ExperimentInput -> MLEff SyncCounts :=
  upsert_tx (upsert_experiment orgID actorID).

(** ** Runs, artifacts, datasets, evaluations *)

(** The row, then its parameters, then its metrics; it changed when one of them did. *)
Definition with_entries (r : result ml_err Upserted)
    (set : string -> MLDB -> result ml_err (MLDB * bool)) : result ml_err Upserted :=
  match r with
  | Err e => Err e
  | Ok u => match set (us_ID u) (us_DB u) with
            | Ok (d', b) => Ok (mkUpserted (us_Existed u) (us_Changed u || b) (us_ID u) d')
            | Err e => Err e
            end
  end.
Definition run_entries_changed (label : string) (ps ms : list (string * json)) (id : string) (d : MLDB) :
    result ml_err (MLDB * bool) :=
  match set_run_entries label id ps ms d with
  | Ok d' => Ok (d', negb (bool_decide (m_run_params d' = m_run_params d) && bool_decide (m_run_metrics d' = m_run_metrics d)))
  | Err e => Err e
  end.
Definition eval_entries_changed (label : string) (ps ms : list (string * json)) (id : string) (d : MLDB) :
    result ml_err (MLDB * bool) :=
  match set_eval_entries label id ps ms d with
  | Ok d' => Ok (d', negb (bool_decide (m_eval_params d' = m_eval_params d) &&
                           bool_decide (m_eval_metrics d' = m_eval_metrics d)))
  | Err e => Err e
  end.

(** A NULL in a NOT NULL column. *)
Definition not_null {A B} (o : option A) (f : A -> result ml_err B) : result ml_err B :=
  match o with Some x => f x | None => Err (Store (ErrOther "pq: null value")) end.

Definition merge_run (n old : RunData) : RunData :=
  mkRun (rd_ExperimentID n) (rd_Name n) (rd_Status n) (rd_StartedAt n) (rd_EndedAt n) (rd_Notes n) (rd_Tags n)
    (or_else (rd_DatasetID n) (rd_DatasetID old)).
Definition upsert_run (orgID actorID : string) (t : Z) (i : RunInput) (d : MLDB) : result ml_err Upserted :=
  match parent (C := ExperimentData) "experiment" orgID (ri_ExperimentMLflowID i) d with
  | Err e => Err e
  | Ok experimentID =>
      not_null (ri_StartedAt i) (fun startedAt =>
        let new := mkRun experimentID (ri_Name i) (ri_Status i) startedAt (ri_EndedAt i) (ri_Notes i) (ri_Tags i)
                     (resolve_dataset orgID experimentID (ri_DatasetMLflowID i) d) in
        with_entries
          (upsert_row t orgID (Some (ri_MLflowID i)) "mlflow" (actor_of actorID (ri_ActorID i))
             (of_mlflow orgID (ri_MLflowID i)) new (merge_run new) d)
          (run_entries_changed "postgres: UpsertMLRuns metrics" (ri_Parameters i) (ri_Metrics i)))
  end.
Definition UpsertMLRuns (orgID actorID : string) : list RunInput -> MLEff SyncCounts :=
  upsert_tx (upsert_run orgID actorID).

Definition merge_artifact (n old : ArtifactData) : ArtifactData :=
  mkArtifact (fd_RunID n) (fd_Name n) (fd_Type n) (fd_URI n) (fd_DownloadURI n) (fd_Size n) (fd_Format n)
    (fd_StorageKey old) (fd_MimeType old) (fd_SizeBytes old).
Definition upsert_artifact (orgID actorID : string) (t : Z) (a : ArtifactInput) (d : MLDB) : result ml_err Upserted :=
  match parent (C := RunData) "run" orgID (ai_RunMLflowID a) d with
  | Err e => Err e
  | Ok runID =>
      let new := mkArtifact runID (ai_Name a) (ai_Type a) (ai_URI a) (ai_DownloadURI a) (ai_Size a) (ai_Format a)
                   "" "" None in
      upsert_row t orgID (Some (ai_MLflowID a)) "mlflow" (actor_of actorID (ai_ActorID a))
        (of_mlflow orgID (ai_MLflowID a)) new (merge_artifact new) d
  end.
Definition UpsertMLArtifacts (orgID actorID : string) : list ArtifactInput -> MLEff SyncCounts :=
  upsert_tx (upsert_artifact orgID actorID).

Definition merge_dataset (n old : DatasetData) : DatasetData :=
  mkDataset (dd_ExperimentID old) (dd_Name n) (dd_Digest n) (dd_Source n) (dd_SourceType n) (dd_Context n)
    (dd_RowCount n) (dd_Schema n) (dd_Tags n).
Definition upsert_dataset (orgID actorID : string) (t : Z) (i : DatasetInput) (d : MLDB) : result ml_err Upserted :=
  match parent (C := ExperimentData) "experiment" orgID (di_ExperimentMLflowID i) d with
  | Err e => Err e
  | Ok experimentID =>
      let new := mkDataset experimentID (di_Name i) (di_Digest i) (di_Source i) (di_SourceType i) (di_Context i)
                   (di_RowCount i) (di_Schema i) (di_Tags i) in
      upsert_row t orgID (Some (di_MLflowID i)) "mlflow" (actor_of actorID (di_ActorID i))
        (fun r => of_mlflow orgID (di_MLflowID i) r && String.eqb (dd_ExperimentID (r_Content r)) experimentID)
        new (merge_dataset new) d
  end.
Definition UpsertMLDatasets (orgID actorID : string) : list DatasetInput -> MLEff SyncCounts :=
  upsert_tx (upsert_dataset orgID actorID).

Definition merge_evaluation (n old : EvaluationData) : EvaluationData :=
  mkEvaluation (ev_VersionID n) (ev_ExperimentID n) (or_else (ev_DatasetID n) (ev_DatasetID old)) (ev_Name n) (ev_Type n)
    (ev_Description n) (ev_Summary n) (ev_StartedAt n) (ev_EndedAt n) (ev_Evaluator n) (ev_Tags n).
Definition upsert_evaluation (orgID actorID : string) (t : Z) (i : EvaluationInput) (d : MLDB) : result ml_err Upserted :=
  match parent (C := VersionData) "version" orgID (li_VersionMLflowID i) d with
  | Err e => Err e
  | Ok versionID =>
      match parent (C := ExperimentData) "experiment" orgID (li_ExperimentMLflowID i) d with
      | Err e => Err e
      | Ok experimentID =>
          not_null (li_StartedAt i) (fun startedAt =>
            let new := mkEvaluation versionID experimentID (resolve_dataset orgID experimentID (li_DatasetMLflowID i) d)
                         (li_Name i) (li_Type i) (li_Description i) (li_Summary i) startedAt (li_EndedAt i)
                         (li_Evaluator i) (li_Tags i) in
            with_entries
              (upsert_row t orgID (Some (li_MLflowID i)) "mlflow" (actor_of actorID (li_ActorID i))
                 (of_mlflow orgID (li_MLflowID i)) new (merge_evaluation new) d)
              (eval_entries_changed "postgres: UpsertMLEvaluations metrics" (li_Parameters i) (li_Metrics i)))
      end
  end.
Definition UpsertMLEvaluations (orgID actorID : string) : list EvaluationInput -> MLEff SyncCounts :=
  upsert_tx (upsert_evaluation orgID actorID).
End Sync.
