(* ===== verification/MLHandlers.v ===== *)
(** * MLHandlers: the handlers of the registry

    Models [internal/api/mlstudio]: [handler.go], [managed.go], [ingest.go] and
    the single-row half of [reads.go].  A request's JSON is a record whose
    optional fields are pointers; a body that does not decode is [None]. *)

From S2P Require Import Prelude GoStrings Effects Json Table Authz Identity AuthStore MLStudio MLSync.
Set Warnings "-register-all,-clear-no-such-hyp".
#[local] Open Scope nat_scope.
#[local] Open Scope string_scope.

(** Object storage can mint a URL for a key, or fail to. *)
Class Presigner := { PresignURL : string -> option string }.

(** ** Requests *)

Record deploymentRequest := mkDeploymentRequest {
  dq_ModelID : string; dq_VersionID : string; dq_Name : string; dq_Environment : string; dq_Status : string;
  dq_Endpoint : string; dq_Region : string; dq_DeployedAt : option Z; dq_RolledBackAt : option Z
}.
Record deploymentUpdate := mkDeploymentChange {
  dc_Name : option string; dc_Environment : option string; dc_Status : option string; dc_Endpoint : option string;
  dc_Region : option string; dc_DeployedAt : option Z; dc_RolledBackAt : option Z
}.
Record findingRequest := mkFindingRequest {
  fq_ModelID : string; fq_VersionID : option string; fq_Title : string; fq_Summary : string; fq_Description : string;
  fq_RunIDs : list string; fq_EvaluationIDs : list string
}.
Record findingUpdate := mkFindingChange {
  fc_VersionID : option string; fc_Title : option string; fc_Summary : option string; fc_Description : option string;
  fc_RunIDs : option (list string); fc_EvaluationIDs : option (list string)
}.
Record modelRequest := mkModelRequest {
  mq_ProjectID : string; mq_Name : string; mq_Description : string; mq_Domain : string; mq_ProblemType : string;
  mq_Tags : list string
}.
Record modelUpdate := mkModelChange {
  mu_Name : option string; mu_Description : option string; mu_NewDomain : option string;
  mu_NewProblemType : option string; mu_Tags : option (list string)
}.
Record experimentRequest := mkExperimentRequest {
  eq_ProjectID : string; eq_Name : string; eq_Description : string; eq_Status : string; eq_Tags : list string
}.
Record experimentUpdate := mkExperimentChange {
  eu_ProjectID : option string; eu_Name : option string; eu_Description : option string; eu_Status : option string;
  eu_Tags : option (list string)
}.
Record runRequest := mkRunRequest {
  rq_Name : string; rq_Status : string; rq_StartedAt : option Z; rq_EndedAt : option Z; rq_Notes : string;
  rq_Tags : list string; rq_Parameters : list (string * json); rq_Metrics : list (string * json);
  rq_DatasetID : option string
}.
Record runUpdate := mkRunChange {
  rc_Name : option string; rc_Status : option string; rc_StartedAt : option Z; rc_EndedAt : option Z;
  rc_Notes : option string; rc_Tags : option (list string); rc_Parameters : option (list (string * json));
  rc_Metrics : option (list (string * json)); rc_DatasetID : option string
}.
Record datasetRequest := mkDatasetRequest {
  sq_Name : string; sq_Digest : string; sq_Source : string; sq_SourceType : string; sq_Context : string;
  sq_RowCount : Z; sq_Tags : list string
}.
Record datasetUpdate := mkDatasetChange {
  su_Name : option string; su_Digest : option string; su_Source : option string; su_SourceType : option string;
  su_Context : option string; su_RowCount : option Z; su_Tags : option (list string)
}.
Record artifactRequest := mkArtifactRequest {
  aq_Name : string; aq_Type : string; aq_URI : string; aq_DownloadURI : string; aq_Size : string; aq_Format : string;
  aq_MimeType : string; aq_SizeBytes : option Z
}.
Record artifactUpdate := mkArtifactChange {
  au_Name : option string; au_Type : option string; au_URI : option string; au_DownloadURI : option string;
  au_Size : option string; au_Format : option string
}.
(** A multipart form: how long the body is, the part "file", the other fields. *)
Record uploadFile := mkUpload { uf_Filename : string; uf_ContentType : string; uf_Content : string }.
Record uploadForm := mkUploadForm {
  up_Length : Z; up_File : option uploadFile; up_Name : string; up_Type : string; up_Size : string; up_Format : string
}.
Record evaluationRequest := mkEvaluationRequest {
  lq_VersionID : string; lq_DatasetID : option string; lq_Name : string; lq_Type : string; lq_Description : string;
  lq_Summary : string; lq_StartedAt : option Z; lq_EndedAt : option Z; lq_Evaluator : string; lq_Tags : list string;
  lq_Parameters : list (string * json); lq_Metrics : list (string * json)
}.
Record evaluationUpdate := mkEvaluationChange {
  lu_DatasetID : option string; lu_Name : option string; lu_Type : option string; lu_Description : option string;
  lu_Summary : option string; lu_StartedAt : option Z; lu_EndedAt : option Z; lu_Evaluator : option string;
  lu_Tags : option (list string); lu_Parameters : option (list (string * json));
  lu_Metrics : option (list (string * json))
}.
Record projectRequest := mkProjectRequest {
  pq_Name : string; pq_Type : string; pq_Description : string; pq_TeamID : option string; pq_TeamName : string
}.
Record projectUpdate := mkProjectChange {
  pc_Name : option string; pc_Type : option string; pc_Description : option string; pc_TeamID : option string;
  pc_TeamName : string
}.

(** A pointer to a row that may be nil is shown as null. *)
Inductive ml_body : Type :=
| OneMLDeployment (o : option (Row DeploymentData)) | MLDeployments (l : list (Row DeploymentData))
| OneFinding (o : option Finding) | Findings (l : list Finding)
| OneModel (o : option (Row ModelData)) | Models (l : list (Row ModelData))
| OneModelVersion (o : option ModelVersion) | ModelVersions (l : list ModelVersion)
| OneExperiment (o : option (Row ExperimentData)) | Experiments (l : list (Row ExperimentData))
| OneRun (o : option Run) | OneDataset (o : option (Row DatasetData)) | Datasets (l : list (Row DatasetData))
| OneArtifact (o : option (Row ArtifactData)) | Artifacts (l : list (Row ArtifactData))
| OneEvaluation (o : option Evaluation) | Evaluations (l : list Evaluation)
| OneUpdate (u : VersionDeploymentUpdate) | Updates (l : list VersionDeploymentUpdate)
| OneProject (o : option (Row ProjectData)) | Synced (synced : Z) (c : SyncCounts) | Restored (n : Z)
| FileTooLarge.
Definition MLReply : Type := Response ml_body.

Section Handlers.
Context `{Collation} `{UuidText} `{UuidGen} `{UnicodeCase} `{Presigner}.
#[local] Abbreviation W := (World MLDB).

(** ** [handler.go] *)

(** [uuid.NewString()]; it panics without entropy. *)
Definition uuid_new {A} (k : string -> Go W MLReply A) : Go W MLReply A :=
  id <- try new_uuid (fun _ => panicked) ;; k id.

Definition authorizeOrg (ctx : option Principal) (orgID : string) : Go W MLReply Principal :=
  p <- non_nil ctx Unauthorized ;;
  return_if (String.eqb (p_Kind p) PrincipalServiceAccount && negb (String.eqb (p_OrgID p) orgID)) Forbidden ;;;
  gret p.

(** [httputil.Error] *)
Definition httpError (e : ml_err) : MLReply :=
  match e with Store e => HttpError e | _ => HttpError (ErrOther "") end.

Definition writeErr (e : ml_err) : MLReply :=
  match e with
  | ErrParentNotFound prefix what => BadRequest (prefix +:+ "mlstudio: parent entity not found: " +:+ what)
  | ErrUnknownUser emails => BadRequest ("mlstudio: unknown uigraph.user email: " +:+ emails)
  | ErrInvalidValue prefix what => BadRequest (prefix +:+ "mlstudio: invalid value: " +:+ what)
  | Store ErrTeamNotFound => BadRequest (err_text ErrTeamNotFound)
  | Refused msg => BadRequest msg
  | Store e => HttpError e
  end.

(** A row the handler needs, or the answer that it is not there. *)
Definition existing {A} (m : MLEff (option A)) : Go W MLReply A :=
  o <- try m httpError ;; non_nil o (HttpError ErrNotFound).
Definition ensure {A} (m : MLEff (option A)) (msg : string) : Go W MLReply A :=
  o <- try m httpError ;; non_nil o (BadRequest msg).

Definition ensureModelInOrg (orgID modelID : string) := ensure (GetMLModel orgID modelID) "model not found in org".
Definition ensureVersionInOrg (orgID versionID : string) :=
  ensure (GetMLModelVersion orgID versionID) "version not found in org".
Definition ensureProjectInOrg (orgID projectID : string) := ensure (GetMLProject orgID projectID) "project not found in org".
Definition ensureExperimentInOrg (orgID experimentID : string) :=
  ensure (GetMLExperiment orgID experimentID) "experiment not found in org".
Definition ensureRunsInOrg (orgID : string) (runIDs : list string) : Go W MLReply unit :=
  gfor runIDs (fun runID => _ <- ensure (GetMLRun orgID runID) ("run not found in org: " +:+ runID) ;; gret tt).
Definition ensureEvaluationsInOrg (orgID : string) (ids : list string) : Go W MLReply unit :=
  gfor ids (fun id => _ <- ensure (GetMLEvaluation orgID id) ("evaluation not found in org: " +:+ id) ;; gret tt).

Definition decode {A} (body : option A) : Go W MLReply A := non_nil body (BadRequest "invalid request body").
Definition one_of (values : list string) (s msg : string) : Go W MLReply unit :=
  return_if (negb (mem_str s values)) (BadRequest msg).
Definition or_default (s dflt : string) : string := if str_empty s then dflt else s.

(** The row as it is after the write, under the status given. *)
Definition answer {A} (status : Z) (m : MLEff (option A)) (f : option A -> ml_body) : Go W MLReply MLReply :=
  o <- try m httpError ;; gret (JSON status (f o)).

(** A new row as the handler fills it: the columns the statement sets are left open. *)
Definition draft {C} (id orgID origin actorID : string) (c : C) : Row C :=
  mkRow id orgID None origin c (mkStamp actorID None 0 0 None None None).
Definition edited {C} (c : C) (r : Row C) : Row C := with_content c (r_Stamp r) r.

(** ** Deployments *)

Definition deployment_statuses := ["live"; "rolling-out"; "rolled-back"; "stopped"].
Definition deployment_status_msg := "status must be one of live, rolling-out, rolled-back, stopped".

Definition CreateDeployment (ctx : option Principal) (orgID : string) (req : option deploymentRequest) : Eff W MLReply :=
  func (
    p <- authorizeOrg ctx orgID ;;
    b <- decode req ;;
    return_if (str_empty (dq_ModelID b) || str_empty (dq_VersionID b) || str_empty (dq_Name b))
      (BadRequest "modelId, versionId and name are required") ;;;
    _ <- ensureModelInOrg orgID (dq_ModelID b) ;;
    _ <- ensureVersionInOrg orgID (dq_VersionID b) ;;
    uuid_new (fun id =>
    let status := or_default (dq_Status b) "live" in
    one_of deployment_statuses status deployment_status_msg ;;;
    let dep := draft id orgID "" (p_UserID p)
      (mkDeployment (dq_ModelID b) (dq_VersionID b) (dq_Name b) (dq_Environment b) status (dq_Endpoint b) (dq_Region b)
         (dq_DeployedAt b) (dq_RolledBackAt b)) in
    _ <- try (CreateMLDeployment dep) writeErr ;;
    answer 201 (GetMLDeployment orgID id) OneMLDeployment)).

Definition ListDeployments (ctx : option Principal) (orgID modelID versionID : string) : Eff W MLReply :=
  func (
    _ <- authorizeOrg ctx orgID ;;
    l <- try (ListMLDeployments orgID modelID versionID) httpError ;;
    gret (JSON 200 (MLDeployments l))).

Definition GetDeployment (ctx : option Principal) (orgID id : string) : Eff W MLReply :=
  func (_ <- authorizeOrg ctx orgID ;; r <- existing (GetMLDeployment orgID id) ;; gret (JSON 200 (OneMLDeployment (Some r)))).

Definition change_deployment (b : deploymentUpdate) (c : DeploymentData) : DeploymentData :=
  mkDeployment (dp_ModelID c) (dp_VersionID c) (default (dp_Name c) (dc_Name b))
    (default (dp_Environment c) (dc_Environment b)) (default (dp_Status c) (dc_Status b))
    (default (dp_Endpoint c) (dc_Endpoint b)) (default (dp_Region c) (dc_Region b))
    (match dc_DeployedAt b with Some t => Some t | None => dp_DeployedAt c end)
    (match dc_RolledBackAt b with Some t => Some t | None => dp_RolledBackAt c end).
(** A field that is checked only when it is there. *)
Definition one_of_opt (values : list string) (o : option string) (msg : string) : Go W MLReply unit :=
  match o with Some s => one_of values s msg | None => gret tt end.

Definition UpdateDeployment (ctx : option Principal) (orgID id : string) (req : option deploymentUpdate) : Eff W MLReply :=
  func (
    _ <- authorizeOrg ctx orgID ;;
    r <- existing (GetMLDeployment orgID id) ;;
    b <- decode req ;;
    one_of_opt deployment_statuses (dc_Status b) deployment_status_msg ;;;
    _ <- try (UpdateMLDeployment (edited (change_deployment b (r_Content r)) r)) writeErr ;;
    answer 200 (GetMLDeployment orgID (r_ID r)) OneMLDeployment).

Definition DeleteDeployment (ctx : option Principal) (orgID id : string) : Eff W MLReply :=
  func (
    p <- authorizeOrg ctx orgID ;;
    _ <- try (DeleteMLDeployment orgID id (p_UserID p)) httpError ;;
    gret no_content).

(** ** Findings *)

Definition CreateFinding (ctx : option Principal) (orgID : string) (req : option findingRequest) : Eff W MLReply :=
  func (
    p <- authorizeOrg ctx orgID ;;
    b <- decode req ;;
    return_if (str_empty (fq_ModelID b) || str_empty (fq_Title b)) (BadRequest "modelId and title are required") ;;;
    _ <- ensureModelInOrg orgID (fq_ModelID b) ;;
    (match fq_VersionID b with
     | Some v => if str_empty v then gret tt else _ <- ensureVersionInOrg orgID v ;; gret tt
     | None => gret tt
     end) ;;;
    ensureRunsInOrg orgID (fq_RunIDs b) ;;;
    ensureEvaluationsInOrg orgID (fq_EvaluationIDs b) ;;;
    uuid_new (fun id =>
    let f := mkFindingRow (draft id orgID "" (p_UserID p)
      (mkFinding (fq_ModelID b) (fq_VersionID b) (fq_Title b) (fq_Summary b) (fq_Description b)))
      (fq_RunIDs b) (fq_EvaluationIDs b) in
    _ <- try (CreateMLFinding f) writeErr ;;
    answer 201 (GetMLFinding orgID id) OneFinding)).

Definition ListFindings (ctx : option Principal) (orgID modelID projectID : string) : Eff W MLReply :=
  func (
    _ <- authorizeOrg ctx orgID ;;
    l <- try (ListMLFindings orgID modelID projectID) httpError ;;
    gret (JSON 200 (Findings l))).
Definition GetFinding (ctx : option Principal) (orgID id : string) : Eff W MLReply :=
  func (_ <- authorizeOrg ctx orgID ;; f <- existing (GetMLFinding orgID id) ;; gret (JSON 200 (OneFinding (Some f)))).

Definition change_finding (b : findingUpdate) (f : Finding) : Finding :=
  let c := r_Content (f_Row f) in
  mkFindingRow (edited (mkFinding (fi_ModelID c)
      (match fc_VersionID b with Some v => Some v | None => fi_VersionID c end)
      (default (fi_Title c) (fc_Title b)) (default (fi_Summary c) (fc_Summary b))
      (default (fi_Description c) (fc_Description b))) (f_Row f))
    (default (f_RunIDs f) (fc_RunIDs b)) (default (f_EvaluationIDs f) (fc_EvaluationIDs b)).

Definition UpdateFinding (ctx : option Principal) (orgID id : string) (req : option findingUpdate) : Eff W MLReply :=
  func (
    _ <- authorizeOrg ctx orgID ;;
    f <- existing (GetMLFinding orgID id) ;;
    b <- decode req ;;
    (match fc_VersionID b with
     | Some v => if str_empty v then gret tt else _ <- ensureVersionInOrg orgID v ;; gret tt
     | None => gret tt
     end) ;;;
    ensureRunsInOrg orgID (default [] (fc_RunIDs b)) ;;;
    ensureEvaluationsInOrg orgID (default [] (fc_EvaluationIDs b)) ;;;
    _ <- try (UpdateMLFinding (change_finding b f)) writeErr ;;
    answer 200 (GetMLFinding orgID (r_ID (f_Row f))) OneFinding).

Definition DeleteFinding (ctx : option Principal) (orgID id : string) : Eff W MLReply :=
  func (
    p <- authorizeOrg ctx orgID ;;
    _ <- try (DeleteMLFinding orgID id (p_UserID p)) httpError ;;
    gret no_content).

(** ** Models *)

Definition problem_types := ["classification"; "regression"; "ranking"; "generation"; "embedding"; "other"].
Definition problem_type_msg :=
  "problemType must be one of classification, regression, ranking, generation, embedding, other".

(** The model and its first version: two statements. *)
Definition CreateModel (ctx : option Principal) (orgID : string) (req : option modelRequest) : Eff W MLReply :=
  func (
    p <- authorizeOrg ctx orgID ;;
    b <- decode req ;;
    return_if (str_empty (mq_ProjectID b) || str_empty (mq_Name b)) (BadRequest "projectId and name are required") ;;;
    _ <- ensureProjectInOrg orgID (mq_ProjectID b) ;;
    let problemType := or_default (mq_ProblemType b) "other" in
    one_of problem_types problemType problem_type_msg ;;;
    uuid_new (fun id =>
    let m := draft id orgID "manual" (p_UserID p)
      (mkModel (Some (mq_ProjectID b)) (mq_Name b) (mq_Description b) (mq_Domain b) problemType (mq_Tags b)
         (mkCard "" [] "" "" "" "") None None None) in
    _ <- try (CreateMLModel m) writeErr ;;
    uuid_new (fun versionID =>
    let v := draft versionID orgID "manual" (p_UserID p) (mkVersionData id "1" "" None None) in
    _ <- try (CreateMLModelVersion v) writeErr ;;
    answer 201 (GetMLModel orgID id) OneModel))).

Definition manual {C} (r : Row C) (msg : string) : Go W MLReply unit :=
  return_if (negb (String.eqb (r_Origin r) "manual")) (BadRequest msg).

Definition change_model (b : modelUpdate) (c : ModelData) : ModelData :=
  mkModel (md_ProjectID c) (default (md_Name c) (mu_Name b)) (default (md_Description c) (mu_Description b))
    (default (md_Domain c) (mu_NewDomain b)) (default (md_ProblemType c) (mu_NewProblemType b))
    (default (md_Tags c) (mu_Tags b)) (md_Card c) (md_ProductionVersionID c) (md_MLflowCreatedAt c) (md_MLflowUpdatedAt c).

Definition UpdateModelInfo (ctx : option Principal) (orgID id : string) (req : option modelUpdate) : Eff W MLReply :=
  func (
    _ <- authorizeOrg ctx orgID ;;
    r <- existing (GetMLModel orgID id) ;;
    manual r "only manually registered models can be edited" ;;;
    b <- decode req ;;
    one_of_opt problem_types (mu_NewProblemType b) problem_type_msg ;;;
    _ <- try (UpdateMLModelInfo (edited (change_model b (r_Content r)) r)) writeErr ;;
    answer 200 (GetMLModel orgID (r_ID r)) OneModel).

Definition DeleteModel (ctx : option Principal) (orgID id : string) : Eff W MLReply :=
  func (
    p <- authorizeOrg ctx orgID ;;
    r <- existing (GetMLModel orgID id) ;;
    manual r "only manually registered models can be deleted" ;;;
    _ <- try (DeleteMLModel orgID (r_ID r) (p_UserID p)) httpError ;;
    gret no_content).

Definition UpdateModel (ctx : option Principal) (orgID id : string) (req : option ModelUpdateInput) : Eff W MLReply :=
  func (
    p <- authorizeOrg ctx orgID ;;
    b <- decode req ;;
    let b := mkModelUpdate (mu_Domain b) (or_default (mu_ProblemType b) "other") (mu_Card b) in
    one_of problem_types (mu_ProblemType b) problem_type_msg ;;;
    _ <- existing (GetMLModel orgID id) ;;
    _ <- try (UpdateMLModel orgID id (p_UserID p) b) writeErr ;;
    answer 200 (GetMLModel orgID id) OneModel).

Definition ListModels (ctx : option Principal) (orgID projectID : string) : Eff W MLReply :=
  func (_ <- authorizeOrg ctx orgID ;; l <- try (ListMLModels orgID projectID) httpError ;; gret (JSON 200 (Models l))).
Definition GetModel (ctx : option Principal) (orgID id : string) : Eff W MLReply :=
  func (_ <- authorizeOrg ctx orgID ;; r <- existing (GetMLModel orgID id) ;; gret (JSON 200 (OneModel (Some r)))).
Definition ListVersions (ctx : option Principal) (orgID modelID projectID : string) : Eff W MLReply :=
  func (
    _ <- authorizeOrg ctx orgID ;;
    l <- try (ListMLModelVersions orgID modelID projectID) httpError ;;
    gret (JSON 200 (ModelVersions l))).
Definition GetVersion (ctx : option Principal) (orgID id : string) : Eff W MLReply :=
  func (_ <- authorizeOrg ctx orgID ;; v <- existing (GetMLModelVersion orgID id) ;; gret (JSON 200 (OneModelVersion (Some v)))).

(** ** Experiments *)

Definition experiment_statuses := ["active"; "concluded"; "archived"].
Definition experiment_status_msg := "status must be one of active, concluded, archived".

Definition CreateExperiment (ctx : option Principal) (orgID : string) (req : option experimentRequest) : Eff W MLReply :=
  func (
    p <- authorizeOrg ctx orgID ;;
    b <- decode req ;;
    return_if (str_empty (eq_ProjectID b) || str_empty (eq_Name b)) (BadRequest "projectId and name are required") ;;;
    _ <- ensureProjectInOrg orgID (eq_ProjectID b) ;;
    let status := or_default (eq_Status b) "active" in
    one_of experiment_statuses status experiment_status_msg ;;;
    uuid_new (fun id =>
    let e := draft id orgID "manual" (p_UserID p)
      (mkExperiment (Some (eq_ProjectID b)) (eq_Name b) (eq_Description b) status (eq_Tags b)) in
    _ <- try (CreateMLExperiment e) writeErr ;;
    answer 201 (GetMLExperiment orgID id) OneExperiment)).

Definition change_experiment (b : experimentUpdate) (c : ExperimentData) : ExperimentData :=
  mkExperiment (match eu_ProjectID b with Some p => Some p | None => ed_ProjectID c end)
    (default (ed_Name c) (eu_Name b)) (default (ed_Description c) (eu_Description b))
    (default (ed_Status c) (eu_Status b)) (default (ed_Tags c) (eu_Tags b)).
Definition by_actor {C} (actorID : string) (r : Row C) : Row C :=
  let s := r_Stamp r in
  with_content (r_Content r) (mkStamp (st_CreatedBy s) (Some actorID) (st_CreatedAt s) (st_UpdatedAt s) (st_SyncedAt s)
                                (st_DeletedAt s) (st_DeletedBy s)) r.

Definition UpdateExperiment (ctx : option Principal) (orgID id : string) (req : option experimentUpdate) : Eff W MLReply :=
  func (
    p <- authorizeOrg ctx orgID ;;
    r <- existing (GetMLExperiment orgID id) ;;
    b <- decode req ;;
    let syncedFields := found (eu_ProjectID b) || found (eu_Name b) || found (eu_Description b) || found (eu_Status b) in
    return_if (negb (String.eqb (r_Origin r) "manual") && syncedFields)
      (BadRequest "only tags can be edited on synced experiments") ;;;
    (match eu_ProjectID b with
     | Some pr => if str_empty pr then gret tt else _ <- ensureProjectInOrg orgID pr ;; gret tt
     | None => gret tt
     end) ;;;
    one_of_opt experiment_statuses (eu_Status b) experiment_status_msg ;;;
    _ <- try (UpdateMLExperiment (by_actor (p_UserID p) (edited (change_experiment b (r_Content r)) r))) writeErr ;;
    answer 200 (GetMLExperiment orgID (r_ID r)) OneExperiment).

Definition DeleteExperiment (ctx : option Principal) (orgID id : string) : Eff W MLReply :=
  func (
    p <- authorizeOrg ctx orgID ;;
    r <- existing (GetMLExperiment orgID id) ;;
    manual r "only manually created experiments can be deleted" ;;;
    _ <- try (DeleteMLExperiment orgID (r_ID r) (p_UserID p)) httpError ;;
    gret no_content).

Definition ListExperiments (ctx : option Principal) (orgID projectID : string) : Eff W MLReply :=
  func (
    _ <- authorizeOrg ctx orgID ;;
    l <- try (ListMLExperiments orgID projectID) httpError ;;
    gret (JSON 200 (Experiments l))).
Definition GetExperiment (ctx : option Principal) (orgID id : string) : Eff W MLReply :=
  func (_ <- authorizeOrg ctx orgID ;; r <- existing (GetMLExperiment orgID id) ;; gret (JSON 200 (OneExperiment (Some r)))).

(** ** Runs *)

Definition run_statuses := ["running"; "completed"; "failed"; "cancelled"].
Definition run_status_msg := "status must be one of running, completed, failed, cancelled".
(** [endedAt.Before(startedAt)] *)
Definition in_order (startedAt : Z) (endedAt : option Z) : Go W MLReply unit :=
  return_if (match endedAt with Some e => (e <? startedAt)%Z | None => false end)
    (BadRequest "endedAt must not be before startedAt").

Definition CreateRun (ctx : option Principal) (orgID experimentID : string) (req : option runRequest) : Eff W MLReply :=
  func (
    p <- authorizeOrg ctx orgID ;;
    _ <- ensureExperimentInOrg orgID experimentID ;;
    b <- decode req ;;
    return_if (str_empty (rq_Name b)) (BadRequest "name is required") ;;;
    startedAt <- non_nil (rq_StartedAt b) (BadRequest "startedAt is required") ;;
    in_order startedAt (rq_EndedAt b) ;;;
    let status := or_default (rq_Status b) "running" in
    one_of run_statuses status run_status_msg ;;;
    uuid_new (fun id =>
    let run := mkRunRow (draft id orgID "manual" (p_UserID p)
      (mkRun experimentID (rq_Name b) status startedAt (rq_EndedAt b) (rq_Notes b) (rq_Tags b) (rq_DatasetID b)))
      (rq_Parameters b) (rq_Metrics b) in
    _ <- try (CreateMLRun run) writeErr ;;
    answer 201 (GetMLRun orgID id) OneRun)).

Definition change_run (b : runUpdate) (startedAt : Z) (run : Run) : Run :=
  let c := r_Content (ru_Row run) in
  mkRunRow (edited (mkRun (rd_ExperimentID c) (default (rd_Name c) (rc_Name b)) (default (rd_Status c) (rc_Status b))
      startedAt (rc_EndedAt b) (default (rd_Notes c) (rc_Notes b)) (default (rd_Tags c) (rc_Tags b))
      (match rc_DatasetID b with Some i => Some i | None => rd_DatasetID c end)) (ru_Row run))
    (default (ru_Parameters run) (rc_Parameters b)) (default (ru_Metrics run) (rc_Metrics b)).

Definition UpdateRun (ctx : option Principal) (orgID id : string) (req : option runUpdate) : Eff W MLReply :=
  func (
    _ <- authorizeOrg ctx orgID ;;
    run <- existing (GetMLRun orgID id) ;;
    manual (ru_Row run) "only manually created runs can be edited" ;;;
    b <- decode req ;;
    one_of_opt run_statuses (rc_Status b) run_status_msg ;;;
    startedAt <- non_nil (rc_StartedAt b) (BadRequest "startedAt is required") ;;
    in_order startedAt (rc_EndedAt b) ;;;
    _ <- try (UpdateMLRun (change_run b startedAt run)) writeErr ;;
    answer 200 (GetMLRun orgID (r_ID (ru_Row run))) OneRun).

Definition DeleteRun (ctx : option Principal) (orgID id : string) : Eff W MLReply :=
  func (
    p <- authorizeOrg ctx orgID ;;
    run <- existing (GetMLRun orgID id) ;;
    manual (ru_Row run) "only manually created runs can be deleted" ;;;
    _ <- try (DeleteMLRun orgID (r_ID (ru_Row run)) (p_UserID p)) httpError ;;
    gret no_content).
Definition GetRun (ctx : option Principal) (orgID id : string) : Eff W MLReply :=
  func (_ <- authorizeOrg ctx orgID ;; r <- existing (GetMLRun orgID id) ;; gret (JSON 200 (OneRun (Some r)))).

(** ** Datasets *)

Definition contexts := ["training"; "evaluation"].
Definition context_msg := "context must be one of training, evaluation".

Definition CreateDataset (ctx : option Principal) (orgID experimentID : string) (req : option datasetRequest) : Eff W MLReply :=
  func (
    p <- authorizeOrg ctx orgID ;;
    _ <- ensureExperimentInOrg orgID experimentID ;;
    b <- decode req ;;
    return_if (str_empty (sq_Name b)) (BadRequest "name is required") ;;;
    let context := or_default (sq_Context b) "training" in
    one_of contexts context context_msg ;;;
    uuid_new (fun id =>
    let ds := draft id orgID "manual" (p_UserID p)
      (mkDataset experimentID (sq_Name b) (sq_Digest b) (sq_Source b) (sq_SourceType b) context (sq_RowCount b) []
         (sq_Tags b)) in
    _ <- try (CreateMLDataset ds) writeErr ;;
    answer 201 (GetMLDataset orgID id) OneDataset)).

Definition change_dataset (b : datasetUpdate) (c : DatasetData) : DatasetData :=
  mkDataset (dd_ExperimentID c) (default (dd_Name c) (su_Name b)) (default (dd_Digest c) (su_Digest b))
    (default (dd_Source c) (su_Source b)) (default (dd_SourceType c) (su_SourceType b))
    (default (dd_Context c) (su_Context b)) (default (dd_RowCount c) (su_RowCount b)) (dd_Schema c)
    (default (dd_Tags c) (su_Tags b)).

Definition UpdateDataset (ctx : option Principal) (orgID id : string) (req : option datasetUpdate) : Eff W MLReply :=
  func (
    _ <- authorizeOrg ctx orgID ;;
    r <- existing (GetMLDataset orgID id) ;;
    manual r "only manually logged datasets can be edited" ;;;
    b <- decode req ;;
    one_of_opt contexts (su_Context b) context_msg ;;;
    _ <- try (UpdateMLDataset (edited (change_dataset b (r_Content r)) r)) writeErr ;;
    answer 200 (GetMLDataset orgID (r_ID r)) OneDataset).

Definition DeleteDataset (ctx : option Principal) (orgID id : string) : Eff W MLReply :=
  func (
    p <- authorizeOrg ctx orgID ;;
    r <- existing (GetMLDataset orgID id) ;;
    manual r "only manually logged datasets can be deleted" ;;;
    _ <- try (DeleteMLDataset orgID (r_ID r) (p_UserID p)) httpError ;;
    gret no_content).
Definition ListDatasets (ctx : option Principal) (orgID experimentID : string) : Eff W MLReply :=
  func (
    _ <- authorizeOrg ctx orgID ;;
    l <- try (ListMLDatasets orgID experimentID) httpError ;;
    gret (JSON 200 (Datasets l))).
Definition GetDataset (ctx : option Principal) (orgID id : string) : Eff W MLReply :=
  func (_ <- authorizeOrg ctx orgID ;; r <- existing (GetMLDataset orgID id) ;; gret (JSON 200 (OneDataset (Some r)))).

(** ** Artifacts *)

Definition MLArtifactKey (orgID runID artifactID filename : string) : string :=
  orgID +:+ "/ml/runs/" +:+ runID +:+ "/artifacts/" +:+ artifactID +:+ "/" +:+ filename.
Definition StoreObject (key content : string) : Eff W (result store_err unit) :=
  db_write (fun _ d => set_ml_blobs d (<[key := content]> (m_blobs d))).
Definition DeleteObject (key : string) : Eff W (result store_err unit) :=
  db_write (fun _ d => set_ml_blobs d (delete key (m_blobs d))).

Definition presignArtifactDownload (r : Row ArtifactData) : Row ArtifactData :=
  let c := r_Content r in
  if str_empty (fd_StorageKey c) then r
  else match PresignURL (fd_StorageKey c) with
       | None => r
       | Some url => edited (mkArtifact (fd_RunID c) (fd_Name c) (fd_Type c) (fd_URI c) url (fd_Size c) (fd_Format c)
                               (fd_StorageKey c) (fd_MimeType c) (fd_SizeBytes c)) r
       end.
(** The row is dereferenced: nil panics. *)
Definition answer_artifact (status : Z) (m : MLEff (option (Row ArtifactData))) : Go W MLReply MLReply :=
  o <- try m httpError ;; r <- non_nil o panicked ;; gret (JSON status (OneArtifact (Some (presignArtifactDownload r)))).

Definition CreateArtifact (ctx : option Principal) (orgID runID : string) (req : option artifactRequest) : Eff W MLReply :=
  func (
    p <- authorizeOrg ctx orgID ;;
    ensureRunsInOrg orgID [runID] ;;;
    b <- decode req ;;
    return_if (str_empty (aq_Name b)) (BadRequest "name is required") ;;;
    return_if (str_empty (aq_Type b)) (BadRequest "type is required") ;;;
    uuid_new (fun id =>
    let a := draft id orgID "manual" (p_UserID p)
      (mkArtifact runID (aq_Name b) (aq_Type b) (aq_URI b) (aq_DownloadURI b) (aq_Size b) (aq_Format b) "" (aq_MimeType b)
         (aq_SizeBytes b)) in
    _ <- try (CreateMLArtifact a) writeErr ;;
    answer 201 (GetMLArtifact orgID id) OneArtifact)).

Definition maxArtifactUploadBytes : Z := Z.shiftl 5 20.

(** [r.FormFile] behind [http.MaxBytesReader]. *)
Definition form_file (f : uploadForm) : Go W MLReply uploadFile :=
  return_if (maxArtifactUploadBytes <? up_Length f)%Z (JSON 413 FileTooLarge) ;;;
  non_nil (up_File f) (BadRequest "missing file").

Definition UploadArtifact (ctx : option Principal) (orgID runID : string) (f : uploadForm) : Eff W MLReply :=
  func (
    p <- authorizeOrg ctx orgID ;;
    ensureRunsInOrg orgID [runID] ;;;
    file <- form_file f ;;
    let contentType := or_default (uf_ContentType file) "application/octet-stream" in
    uuid_new (fun id =>
    let key := MLArtifactKey orgID runID id (uf_Filename file) in
    _ <- try (StoreObject key (uf_Content file)) HttpError ;;
    let name := or_default (up_Name f) (uf_Filename file) in
    return_if (str_empty (up_Type f)) (BadRequest "type is required") ;;;
    let a := draft id orgID "manual" (p_UserID p)
      (mkArtifact runID name (up_Type f) "" "" (up_Size f) (up_Format f) key contentType
         (Some (Z.of_nat (String.length (uf_Content file))))) in
    created <- call (CreateMLArtifact a) ;;
    (match created with
     | Ok _ => gret tt
     | Err e => _ <- call (DeleteObject key) ;; greturn (writeErr e)
     end) ;;;
    answer_artifact 201 (GetMLArtifact orgID id))).

Definition change_artifact (b : artifactUpdate) (c : ArtifactData) : ArtifactData :=
  mkArtifact (fd_RunID c) (default (fd_Name c) (au_Name b)) (default (fd_Type c) (au_Type b))
    (default (fd_URI c) (au_URI b)) (default (fd_DownloadURI c) (au_DownloadURI b)) (default (fd_Size c) (au_Size b))
    (default (fd_Format c) (au_Format b)) (fd_StorageKey c) (fd_MimeType c) (fd_SizeBytes c).

Definition UpdateArtifact (ctx : option Principal) (orgID id : string) (req : option artifactUpdate) : Eff W MLReply :=
  func (
    _ <- authorizeOrg ctx orgID ;;
    r <- existing (GetMLArtifact orgID id) ;;
    manual r "only manually added artifacts can be edited" ;;;
    b <- decode req ;;
    _ <- try (UpdateMLArtifact (edited (change_artifact b (r_Content r)) r)) writeErr ;;
    answer_artifact 200 (GetMLArtifact orgID (r_ID r))).

Definition DeleteArtifact (ctx : option Principal) (orgID id : string) : Eff W MLReply :=
  func (
    p <- authorizeOrg ctx orgID ;;
    r <- existing (GetMLArtifact orgID id) ;;
    manual r "only manually added artifacts can be deleted" ;;;
    _ <- try (DeleteMLArtifact orgID (r_ID r) (p_UserID p)) httpError ;;
    (if str_empty (fd_StorageKey (r_Content r)) then gret tt
     else _ <- call (DeleteObject (fd_StorageKey (r_Content r))) ;; gret tt) ;;;
    gret no_content).

Definition ListRunArtifacts (ctx : option Principal) (orgID runID : string) : Eff W MLReply :=
  func (
    _ <- authorizeOrg ctx orgID ;;
    l <- try (ListMLArtifacts orgID runID) httpError ;;
    gret (JSON 200 (Artifacts (map presignArtifactDownload l)))).

(** ** Evaluations *)

Definition evaluation_types := ["Offline Benchmark"; "Online A/B Test"; "Human Review"; "Production Monitoring"].
Definition evaluation_type_msg :=
  "type must be one of Offline Benchmark, Online A/B Test, Human Review, Production Monitoring".

Definition CreateEvaluation (ctx : option Principal) (orgID experimentID : string) (req : option evaluationRequest) :
    Eff W MLReply :=
  func (
    p <- authorizeOrg ctx orgID ;;
    _ <- ensureExperimentInOrg orgID experimentID ;;
    b <- decode req ;;
    return_if (str_empty (lq_Name b)) (BadRequest "name is required") ;;;
    return_if (str_empty (lq_VersionID b)) (BadRequest "versionId is required") ;;;
    one_of evaluation_types (lq_Type b) evaluation_type_msg ;;;
    startedAt <- non_nil (lq_StartedAt b) (BadRequest "startedAt is required") ;;
    in_order startedAt (lq_EndedAt b) ;;;
    _ <- ensure (GetMLModelVersion orgID (lq_VersionID b)) "version not found in org" ;;
    uuid_new (fun id =>
    let e := mkEvaluationRow (draft id orgID "manual" (p_UserID p)
      (mkEvaluation (lq_VersionID b) experimentID (lq_DatasetID b) (lq_Name b) (lq_Type b) (lq_Description b)
         (lq_Summary b) startedAt (lq_EndedAt b) (lq_Evaluator b) (lq_Tags b))) "" "" (lq_Parameters b) (lq_Metrics b) in
    _ <- try (CreateMLEvaluation e) writeErr ;;
    answer 201 (GetMLEvaluation orgID id) OneEvaluation)).

Definition change_evaluation (b : evaluationUpdate) (startedAt : Z) (e : Evaluation) : Evaluation :=
  let c := r_Content (el_Row e) in
  mkEvaluationRow (edited (mkEvaluation (ev_VersionID c) (ev_ExperimentID c)
      (match lu_DatasetID b with Some i => Some i | None => ev_DatasetID c end)
      (default (ev_Name c) (lu_Name b)) (default (ev_Type c) (lu_Type b)) (default (ev_Description c) (lu_Description b))
      (default (ev_Summary c) (lu_Summary b)) startedAt (lu_EndedAt b) (default (ev_Evaluator c) (lu_Evaluator b))
      (default (ev_Tags c) (lu_Tags b))) (el_Row e))
    (el_ModelName e) (el_Version e) (default (el_Parameters e) (lu_Parameters b))
    (default (el_Metrics e) (lu_Metrics b)).

Definition UpdateEvaluation (ctx : option Principal) (orgID id : string) (req : option evaluationUpdate) : Eff W MLReply :=
  func (
    _ <- authorizeOrg ctx orgID ;;
    e <- existing (GetMLEvaluation orgID id) ;;
    manual (el_Row e) "only manually logged evaluations can be edited" ;;;
    b <- decode req ;;
    one_of_opt evaluation_types (lu_Type b) evaluation_type_msg ;;;
    startedAt <- non_nil (lu_StartedAt b) (BadRequest "startedAt is required") ;;
    in_order startedAt (lu_EndedAt b) ;;;
    _ <- try (UpdateMLEvaluation (change_evaluation b startedAt e)) writeErr ;;
    answer 200 (GetMLEvaluation orgID (el_ID e)) OneEvaluation).

Definition DeleteEvaluation (ctx : option Principal) (orgID id : string) : Eff W MLReply :=
  func (
    p <- authorizeOrg ctx orgID ;;
    e <- existing (GetMLEvaluation orgID id) ;;
    manual (el_Row e) "only manually logged evaluations can be deleted" ;;;
    _ <- try (DeleteMLEvaluation orgID (el_ID e) (p_UserID p)) httpError ;;
    gret no_content).
Definition GetEvaluation (ctx : option Principal) (orgID id : string) : Eff W MLReply :=
  func (_ <- authorizeOrg ctx orgID ;; e <- existing (GetMLEvaluation orgID id) ;; gret (JSON 200 (OneEvaluation (Some e)))).

(** ** The life of a version *)

Definition allowedVersionTransitions (from : string) : list string :=
  if String.eqb from "candidate" then ["staging"]
  else if String.eqb from "staging" then ["production"; "candidate"]
  else if String.eqb from "production" then ["staging"; "retired"]
  else if String.eqb from "retired" then ["staging"]
  else [].

Definition CreateVersionDeploymentUpdate_ (ctx : option Principal) (orgID versionID : string) (toStatus : option string) :
    Eff W MLReply :=
  func (
    p <- authorizeOrg ctx orgID ;;
    version <- ensure (GetMLModelVersion orgID versionID) "version not found in org" ;;
    to <- decode toStatus ;;
    let from := mv_DeploymentStatus version in
    return_if (negb (mem_str to (allowedVersionTransitions from)))
      (BadRequest ("invalid transition from " +:+ Quote from +:+ " to " +:+ Quote to)) ;;;
    uuid_new (fun id =>
    let u := mkDeploymentUpdate id orgID versionID (Some from) to (p_UserID p) 0 in
    _ <- try (CreateVersionDeploymentUpdate u) writeErr ;;
    updates <- try (ListVersionDeploymentUpdates orgID versionID "") httpError ;;
    match updates with u :: _ => gret (JSON 201 (OneUpdate u)) | [] => greturn panicked end)).

Definition ListVersionDeploymentUpdates_ (ctx : option Principal) (orgID versionID projectID : string) : Eff W MLReply :=
  func (
    _ <- authorizeOrg ctx orgID ;;
    l <- try (ListVersionDeploymentUpdates orgID versionID projectID) httpError ;;
    gret (JSON 200 (Updates l))).

(** The body is a run, or none. *)
Definition SetVersionRun (ctx : option Principal) (orgID versionID : string) (req : option (option string)) : Eff W MLReply :=
  func (
    p <- authorizeOrg ctx orgID ;;
    _ <- ensureVersionInOrg orgID versionID ;;
    b <- decode req ;;
    let runID := match b with Some r => if str_empty r then None else Some r | None => None end in
    ensureRunsInOrg orgID (opt_list runID) ;;;
    _ <- try (SetMLModelVersionRun orgID versionID runID (p_UserID p)) writeErr ;;
    answer 200 (GetMLModelVersion orgID versionID) OneModelVersion).

Definition LinkVersionEvaluations (ctx : option Principal) (orgID versionID : string) (req : option (list string)) :
    Eff W MLReply :=
  func (
    p <- authorizeOrg ctx orgID ;;
    _ <- ensureVersionInOrg orgID versionID ;;
    ids <- decode req ;;
    return_if (match ids with [] => true | _ => false end) (BadRequest "evaluationIds is required") ;;;
    ensureEvaluationsInOrg orgID ids ;;;
    _ <- try (SetMLEvaluationsVersion orgID versionID ids (p_UserID p)) writeErr ;;
    evals <- try (ListMLVersionEvaluations orgID versionID) httpError ;;
    gret (JSON 200 (Evaluations evals))).

(** ** [ingest.go]: projects *)

Definition project_types := ["model"; "training"].
Definition project_type_msg := "type must be one of model, training".

Definition SyncProjects (ctx : option Principal) (orgID : string) (req : option (list ProjectInput)) : Eff W MLReply :=
  func (
    p <- authorizeOrg ctx orgID ;;
    l <- decode req ;;
    gfor l (fun i => one_of project_types (pj_Type (pi_Data i)) project_type_msg) ;;;
    counts <- try (UpsertMLProjects orgID (p_UserID p) l) writeErr ;;
    gret (JSON 200 (Synced (Z.of_nat (length l)) counts))).

Definition RestoreProjects (ctx : option Principal) (orgID : string) (req : option (list string)) : Eff W MLReply :=
  func (
    p <- authorizeOrg ctx orgID ;;
    names <- decode req ;;
    gfor names (fun name => return_if (str_empty name) (BadRequest "name is required")) ;;;
    restored <- try (RestoreMLProjects orgID (p_UserID p) names) writeErr ;;
    gret (JSON 200 (Restored restored))).

Definition CreateProject (ctx : option Principal) (orgID : string) (req : option projectRequest) : Eff W MLReply :=
  func (
    p <- authorizeOrg ctx orgID ;;
    b <- decode req ;;
    return_if (str_empty (pq_Name b) || str_empty (pq_Type b)) (BadRequest "name and type are required") ;;;
    one_of project_types (pq_Type b) project_type_msg ;;;
    let hasTeamID := negb (str_empty (default "" (pq_TeamID b))) in
    let hasTeamName := negb (str_empty (pq_TeamName b)) in
    return_if (hasTeamID && hasTeamName) (BadRequest "provide either teamId or teamName, not both") ;;;
    return_if (negb hasTeamID && negb hasTeamName) (BadRequest "team is required") ;;;
    created <- try (CreateMLProject orgID (p_UserID p)
      (mkProjectInput (mkProject (pq_Name b) (pq_Type b) (pq_Description b) "" "" (pq_TeamID b)) (pq_TeamName b))) writeErr ;;
    gret (JSON 201 (OneProject created))).

Definition UpdateProject (ctx : option Principal) (orgID id : string) (req : option projectUpdate) : Eff W MLReply :=
  func (
    p <- authorizeOrg ctx orgID ;;
    r <- existing (GetMLProject orgID id) ;;
    b <- decode req ;;
    let c := r_Content r in
    return_if (match pc_Name b with Some n => str_empty n | None => false end) (BadRequest "name cannot be empty") ;;;
    one_of_opt project_types (pc_Type b) project_type_msg ;;;
    return_if (match pc_TeamID b with Some t => str_empty t | None => false end) (BadRequest "team is required") ;;;
    return_if (found (pc_TeamID b) && negb (str_empty (pc_TeamName b)))
      (BadRequest "provide either teamId or teamName, not both") ;;;
    updated <- try (UpdateMLProject orgID (r_ID r) (p_UserID p)
      (mkProjectInput (mkProject (default (pj_Name c) (pc_Name b)) (default (pj_Type c) (pc_Type b))
         (default (pj_Description c) (pc_Description b)) "" ""
         (match pc_TeamID b with Some t => Some t | None => pj_TeamID c end)) (pc_TeamName b))) writeErr ;;
    gret (JSON 200 (OneProject updated))).

Definition DeleteProject (ctx : option Principal) (orgID id : string) : Eff W MLReply :=
  func (
    p <- authorizeOrg ctx orgID ;;
    r <- existing (GetMLProject orgID id) ;;
    _ <- try (DeleteMLProject orgID (r_ID r) (p_UserID p)) writeErr ;;
    gret no_content).
Definition GetProject (ctx : option Principal) (orgID id : string) : Eff W MLReply :=
  func (_ <- authorizeOrg ctx orgID ;; r <- existing (GetMLProject orgID id) ;; gret (JSON 200 (OneProject (Some r)))).

(** ** [ingest.go]: what MLflow knows *)

Definition normal_email (email : string) : string := ToLower (TrimSpace email).

(** The users behind the addresses; an address nobody in the org has is an error. *)
Definition resolveActors (orgID : string) (emails : list string) : MLEff (gmap string string) :=
  let wanted : gset string := list_to_set (base.filter (fun e => str_empty e = false) (map normal_email emails)) in
  func (
    match elements wanted with
    | [] => gret (Ok ∅)
    | list =>
        resolved <- try (ResolveOrgUserIDsByEmail orgID list) (fun e => Err e) ;;
        let missing := base.filter (fun e => resolved !! e = None) list in
        match sort_stable str_less missing with
        | [] => gret (Ok resolved)
        | m => gret (Err (ErrUnknownUser (Join m ", ")))
        end
    end).

(** The actor of an input: the user its email names, if it has one. *)
Definition actor_for (actors : gmap string string) (email override : string) : string :=
  if str_empty email then override else default "" (actors !! normal_email email).

Definition sync_reply (n : nat) (m : MLEff SyncCounts) : Go W MLReply MLReply :=
  counts <- try m writeErr ;; gret (JSON 200 (Synced (Z.of_nat n) counts)).

Definition SyncModels (ctx : option Principal) (orgID : string) (req : option (list ModelInput)) : Eff W MLReply :=
  func (
    p <- authorizeOrg ctx orgID ;;
    l <- decode req ;;
    actors <- try (resolveActors orgID (map mi_UserEmail l)) writeErr ;;
    let l := map (fun i => mkModelInput (mi_MLflowID i) (mi_ProjectName i) (mi_Name i) (mi_Description i) (mi_Tags i)
      (or_default (mi_ProblemType i) "other") (mi_Domain i) (mi_License i) (mi_IntendedUse i) (mi_Limitations i)
      (mi_Recommendations i) (mi_Considerations i) (mi_ProductionVersionMLflowID i) (mi_CreatedAt i) (mi_UpdatedAt i)
      (mi_UserEmail i) (actor_for actors (mi_UserEmail i) (mi_ActorID i))) l in
    gfor l (fun i => one_of problem_types (mi_ProblemType i) problem_type_msg) ;;;
    sync_reply (length l) (UpsertMLModels orgID (p_UserID p) l)).

Definition SyncVersions (ctx : option Principal) (orgID : string) (req : option (list ModelVersionInput)) : Eff W MLReply :=
  func (
    p <- authorizeOrg ctx orgID ;;
    l <- decode req ;;
    actors <- try (resolveActors orgID (map vi_UserEmail l)) writeErr ;;
    let l := map (fun i => mkVersionInput (vi_MLflowID i) (vi_ModelMLflowID i) (vi_RunMLflowID i) (vi_Version i)
      (vi_Description i) (vi_CreatedAt i) (vi_UserEmail i) (actor_for actors (vi_UserEmail i) (vi_ActorID i))) l in
    sync_reply (length l) (UpsertMLModelVersions orgID (p_UserID p) l)).

Definition SyncExperiments (ctx : option Principal) (orgID : string) (req : option (list ExperimentInput)) : Eff W MLReply :=
  func (
    p <- authorizeOrg ctx orgID ;;
    l <- decode req ;;
    actors <- try (resolveActors orgID (map ei_UserEmail l)) writeErr ;;
    let l := map (fun i => mkExperimentInput (ei_MLflowID i) (ei_ProjectName i) (ei_Name i) (ei_Description i)
      (or_default (ei_Status i) "active") (ei_Tags i) (ei_UserEmail i)
      (actor_for actors (ei_UserEmail i) (ei_ActorID i))) l in
    gfor l (fun i => one_of experiment_statuses (ei_Status i) experiment_status_msg) ;;;
    sync_reply (length l) (UpsertMLExperiments orgID (p_UserID p) l)).

Definition or_time (o : option Z) (now : Z) : option Z := Some (default now o).

Definition SyncRuns (ctx : option Principal) (orgID : string) (req : option (list RunInput)) : Eff W MLReply :=
  func (
    p <- authorizeOrg ctx orgID ;;
    l <- decode req ;;
    now <- call time_now ;;
    actors <- try (resolveActors orgID (map ri_UserEmail l)) writeErr ;;
    let l := map (fun i => mkRunInput (ri_MLflowID i) (ri_ExperimentMLflowID i) (ri_DatasetMLflowID i) (ri_Name i)
      (or_default (ri_Status i) "running") (or_time (ri_StartedAt i) now) (ri_EndedAt i) (ri_Notes i) (ri_Tags i)
      (ri_Parameters i) (ri_Metrics i) (ri_UserEmail i) (actor_for actors (ri_UserEmail i) (ri_ActorID i))) l in
    gfor l (fun i => one_of run_statuses (ri_Status i) run_status_msg) ;;;
    sync_reply (length l) (UpsertMLRuns orgID (p_UserID p) l)).

Definition SyncArtifacts (ctx : option Principal) (orgID : string) (req : option (list ArtifactInput)) : Eff W MLReply :=
  func (
    p <- authorizeOrg ctx orgID ;;
    l <- decode req ;;
    actors <- try (resolveActors orgID (map ai_UserEmail l)) writeErr ;;
    let l := map (fun i => mkArtifactInput (ai_MLflowID i) (ai_RunMLflowID i) (ai_Name i) (ai_Type i) (ai_URI i)
      (ai_DownloadURI i) (ai_Size i) (ai_Format i) (ai_UserEmail i)
      (actor_for actors (ai_UserEmail i) (ai_ActorID i))) l in
    sync_reply (length l) (UpsertMLArtifacts orgID (p_UserID p) l)).

Definition SyncDatasets (ctx : option Principal) (orgID : string) (req : option (list DatasetInput)) : Eff W MLReply :=
  func (
    p <- authorizeOrg ctx orgID ;;
    l <- decode req ;;
    actors <- try (resolveActors orgID (map di_UserEmail l)) writeErr ;;
    let l := map (fun i => mkDatasetInput (di_MLflowID i) (di_ExperimentMLflowID i) (di_Name i) (di_Digest i) (di_Source i)
      (di_SourceType i) (or_default (di_Context i) "training") (di_RowCount i) (di_Schema i) (di_Tags i) (di_UserEmail i)
      (actor_for actors (di_UserEmail i) (di_ActorID i))) l in
    gfor l (fun i => one_of contexts (di_Context i) context_msg) ;;;
    sync_reply (length l) (UpsertMLDatasets orgID (p_UserID p) l)).

Definition SyncEvaluations (ctx : option Principal) (orgID : string) (req : option (list EvaluationInput)) : Eff W MLReply :=
  func (
    p <- authorizeOrg ctx orgID ;;
    l <- decode req ;;
    now <- call time_now ;;
    actors <- try (resolveActors orgID (map li_UserEmail l)) writeErr ;;
    let l := map (fun i => mkEvaluationInput (li_MLflowID i) (li_VersionMLflowID i) (li_ExperimentMLflowID i)
      (li_DatasetMLflowID i) (li_Name i) (li_Type i) (li_Description i) (li_Summary i) (or_time (li_StartedAt i) now)
      (li_EndedAt i) (li_Evaluator i) (li_Tags i) (li_Parameters i) (li_Metrics i) (li_UserEmail i)
      (actor_for actors (li_UserEmail i) (li_ActorID i))) l in
    gfor l (fun i => one_of evaluation_types (li_Type i) evaluation_type_msg) ;;;
    sync_reply (length l) (UpsertMLEvaluations orgID (p_UserID p) l)).

(** ** The routes that can change something *)

Inductive ml_request : Type :=
| QCreateDeployment (req : option deploymentRequest) | QUpdateDeployment (id : string) (req : option deploymentUpdate)
| QDeleteDeployment (id : string)
| QCreateFinding (req : option findingRequest) | QUpdateFinding (id : string) (req : option findingUpdate)
| QDeleteFinding (id : string)
| QCreateModel (req : option modelRequest) | QUpdateModelInfo (id : string) (req : option modelUpdate)
| QUpdateModel (id : string) (req : option ModelUpdateInput) | QDeleteModel (id : string)
| QCreateExperiment (req : option experimentRequest) | QUpdateExperiment (id : string) (req : option experimentUpdate)
| QDeleteExperiment (id : string)
| QCreateRun (experimentID : string) (req : option runRequest) | QUpdateRun (id : string) (req : option runUpdate)
| QDeleteRun (id : string)
| QCreateDataset (experimentID : string) (req : option datasetRequest)
| QUpdateDataset (id : string) (req : option datasetUpdate) | QDeleteDataset (id : string)
| QCreateArtifact (runID : string) (req : option artifactRequest) | QUploadArtifact (runID : string) (f : uploadForm)
| QUpdateArtifact (id : string) (req : option artifactUpdate) | QDeleteArtifact (id : string)
| QCreateEvaluation (experimentID : string) (req : option evaluationRequest)
| QUpdateEvaluation (id : string) (req : option evaluationUpdate) | QDeleteEvaluation (id : string)
| QCreateUpdate (versionID : string) (toStatus : option string)
| QSetRun (versionID : string) (req : option (option string))
| QLinkEvaluations (versionID : string) (req : option (list string))
| QSyncProjects (req : option (list ProjectInput)) | QRestoreProjects (req : option (list string))
| QCreateProject (req : option projectRequest) | QUpdateProject (id : string) (req : option projectUpdate)
| QDeleteProject (id : string)
| QSyncModels (req : option (list ModelInput)) | QSyncVersions (req : option (list ModelVersionInput))
| QSyncExperiments (req : option (list ExperimentInput)) | QSyncRuns (req : option (list RunInput))
| QSyncArtifacts (req : option (list ArtifactInput)) | QSyncDatasets (req : option (list DatasetInput))
| QSyncEvaluations (req : option (list EvaluationInput)).

Definition serve (ctx : option Principal) (o : string) (q : ml_request) : Eff W MLReply :=
  match q with
  | QCreateDeployment r => CreateDeployment ctx o r | QUpdateDeployment i r => UpdateDeployment ctx o i r
  | QDeleteDeployment i => DeleteDeployment ctx o i
  | QCreateFinding r => CreateFinding ctx o r | QUpdateFinding i r => UpdateFinding ctx o i r
  | QDeleteFinding i => DeleteFinding ctx o i
  | QCreateModel r => CreateModel ctx o r | QUpdateModelInfo i r => UpdateModelInfo ctx o i r
  | QUpdateModel i r => UpdateModel ctx o i r | QDeleteModel i => DeleteModel ctx o i
  | QCreateExperiment r => CreateExperiment ctx o r | QUpdateExperiment i r => UpdateExperiment ctx o i r
  | QDeleteExperiment i => DeleteExperiment ctx o i
  | QCreateRun e r => CreateRun ctx o e r | QUpdateRun i r => UpdateRun ctx o i r | QDeleteRun i => DeleteRun ctx o i
  | QCreateDataset e r => CreateDataset ctx o e r | QUpdateDataset i r => UpdateDataset ctx o i r
  | QDeleteDataset i => DeleteDataset ctx o i
  | QCreateArtifact e r => CreateArtifact ctx o e r | QUploadArtifact e f => UploadArtifact ctx o e f
  | QUpdateArtifact i r => UpdateArtifact ctx o i r | QDeleteArtifact i => DeleteArtifact ctx o i
  | QCreateEvaluation e r => CreateEvaluation ctx o e r | QUpdateEvaluation i r => UpdateEvaluation ctx o i r
  | QDeleteEvaluation i => DeleteEvaluation ctx o i
  | QCreateUpdate v t => CreateVersionDeploymentUpdate_ ctx o v t
  | QSetRun v r => SetVersionRun ctx o v r | QLinkEvaluations v r => LinkVersionEvaluations ctx o v r
  | QSyncProjects r => SyncProjects ctx o r | QRestoreProjects r => RestoreProjects ctx o r
  | QCreateProject r => CreateProject ctx o r | QUpdateProject i r => UpdateProject ctx o i r
  | QDeleteProject i => DeleteProject ctx o i
  | QSyncModels r => SyncModels ctx o r | QSyncVersions r => SyncVersions ctx o r
  | QSyncExperiments r => SyncExperiments ctx o r | QSyncRuns r => SyncRuns ctx o r
  | QSyncArtifacts r => SyncArtifacts ctx o r | QSyncDatasets r => SyncDatasets ctx o r
  | QSyncEvaluations r => SyncEvaluations ctx o r
  end.
End Handlers.
