(* ===== verification/MLTenants.v ===== *)
(** * MLTenants: the registry keeps organizations apart

    What every request of [MLHandlers] keeps: a reference of a row leads to a
    row of the same organization; a row is never erased and never changes its
    owner or provenance; the deployment log grows only, by the moves the life
    cycle of a version allows; what other organizations have is untouched;
    the runs, datasets and artifacts of MLflow are edited by synchronisation
    alone.

    [Brief] is what these say of a row, and [brief k] that of the table of
    kind [k], so that the ten tables are treated alike.  [safe fs m]: under the
    facts [fs] the handler has established, [m] keeps all of it. *)

From S2P Require Import Prelude GoStrings Effects Json Table Authz Identity AuthStore MLStudio MLSync MLHandlers.
Set Warnings "-register-all,-clear-no-such-hyp".
#[local] Open Scope nat_scope.
#[local] Open Scope string_scope.

(** ** Views of the tables *)

Inductive kind : Type :=
| KProject | KModel | KVersion | KExperiment | KRun | KDataset | KArtifact | KEvaluation | KDeployment | KFinding.
#[export] Instance kind_eq_dec : EqDecision kind.
Proof. solve_decision. Defined.

(** A row without its columns, but for the rows it refers to. *)
Record Brief := mkBrief {
  b_ID : string; b_OrgID : string; b_MLflowID : option string; b_Origin : string; b_CreatedBy : string;
  b_CreatedAt : Z; b_Refs : list (kind * string)
}.

(** The references of a content.  The dataset of a run or an evaluation and the
    team of a project are missing: nothing checks them (see [MLDemo]). *)
Class Refs (C : Type) := { kind_of : kind; refs : C -> list (kind * string); locked : bool }.
Arguments kind_of C {_}.
Arguments locked C {_}.
Definition opt_ref (k : kind) (o : option string) : list (kind * string) := map (pair k) (opt_list o).

#[export] Instance projects_refs : Refs ProjectData := {| kind_of := KProject; refs _ := []; locked := false |}.
#[export] Instance models_refs : Refs ModelData := {|
  kind_of := KModel; refs c := (opt_ref KProject (md_ProjectID c) ++ opt_ref KVersion (md_ProductionVersionID c))%list;
  locked := false |}.
#[export] Instance versions_refs : Refs VersionData := {|
  kind_of := KVersion; refs c := (KModel, vd_ModelID c) :: opt_ref KRun (vd_RunID c); locked := false |}.
#[export] Instance experiments_refs : Refs ExperimentData := {|
  kind_of := KExperiment; refs c := opt_ref KProject (ed_ProjectID c); locked := false |}.
#[export] Instance runs_refs : Refs RunData := {|
  kind_of := KRun; refs c := [(KExperiment, rd_ExperimentID c)]; locked := true |}.
#[export] Instance datasets_refs : Refs DatasetData := {|
  kind_of := KDataset; refs c := [(KExperiment, dd_ExperimentID c)]; locked := true |}.
#[export] Instance artifacts_refs : Refs ArtifactData := {|
  kind_of := KArtifact; refs c := [(KRun, fd_RunID c)]; locked := true |}.
#[export] Instance evaluations_refs : Refs EvaluationData := {|
  kind_of := KEvaluation; refs c := [(KVersion, ev_VersionID c); (KExperiment, ev_ExperimentID c)]; locked := false |}.
#[export] Instance deployments_refs : Refs DeploymentData := {|
  kind_of := KDeployment; refs c := [(KModel, dp_ModelID c); (KVersion, dp_VersionID c)]; locked := false |}.
#[export] Instance findings_refs : Refs FindingData := {|
  kind_of := KFinding; refs c := (KModel, fi_ModelID c) :: opt_ref KVersion (fi_VersionID c); locked := false |}.

Definition summary {C} `{Refs C} (r : Row C) : Brief :=
  mkBrief (r_ID r) (r_OrgID r) (r_MLflowID r) (r_Origin r) (st_CreatedBy (r_Stamp r)) (st_CreatedAt (r_Stamp r))
    (refs (r_Content r)).
Definition brief (k : kind) (d : MLDB) : gmap string Brief :=
  match k with
  | KProject => summary <$> m_projects d | KModel => summary <$> m_models d | KVersion => summary <$> m_versions d
  | KExperiment => summary <$> m_experiments d | KRun => summary <$> m_runs d | KDataset => summary <$> m_datasets d
  | KArtifact => summary <$> m_artifacts d | KEvaluation => summary <$> m_evaluations d
  | KDeployment => summary <$> m_deployments d | KFinding => summary <$> m_findings d
  end.

(** The rows of one organization, and the entries of the maps that belong to them. *)
Definition rows_of {C} (o : string) (t : gmap string (Row C)) : gmap string (Row C) :=
  base.filter (fun kr => r_OrgID kr.2 = o) t.
Definition entries_of {C V} (t : gmap string C) (m : gmap (string * string) V) : gmap (string * string) V :=
  base.filter (fun kv => kv.1.1 ∈ dom t) m.
Definition links_in {C} (t : gmap string C) (l : gset (string * string)) : gset (string * string) :=
  base.filter (fun x => x.1 ∈ dom t) l.
Definition seen (o : string) (d : MLDB) : MLDB :=
  let runs := rows_of o (m_runs d) in
  let evals := rows_of o (m_evaluations d) in
  let findings := rows_of o (m_findings d) in
  mkMLDB (m_auth d) (rows_of o (m_projects d)) (rows_of o (m_models d)) (rows_of o (m_versions d))
    (rows_of o (m_experiments d)) runs (rows_of o (m_datasets d)) (rows_of o (m_artifacts d)) evals
    (rows_of o (m_deployments d)) findings
    (base.filter (fun ku => du_OrgID ku.2 = o) (m_updates d))
    (entries_of runs (m_run_params d)) (entries_of runs (m_run_metrics d))
    (entries_of evals (m_eval_params d)) (entries_of evals (m_eval_metrics d))
    (links_in findings (m_finding_runs d)) (links_in findings (m_finding_evals d)) ∅.

(** What came from MLflow, of the kinds the handlers lock. *)
Definition from_mlflow {C} (t : gmap string (Row C)) : gmap string (Row C) :=
  base.filter (fun kr => r_Origin kr.2 <> "manual") t.
Definition synced (d : MLDB) :=
  let runs := from_mlflow (m_runs d) in
  (runs, from_mlflow (m_datasets d), from_mlflow (m_artifacts d), entries_of runs (m_run_params d),
   entries_of runs (m_run_metrics d)).

(** ** The invariant and the step *)

Definition refers (d : MLDB) (o : string) (x : kind * string) : Prop :=
  exists b, brief x.1 d !! x.2 = Some b /\ b_OrgID b = o.
Definition linked (d : MLDB) (k : kind) (x : string * string) : Prop :=
  exists f, brief KFinding d !! x.1 = Some f /\ refers d (b_OrgID f) (k, x.2).

Record registry_ok (d : MLDB) : Prop := {
  ok_rows k id b : brief k d !! id = Some b -> b_ID b = id /\ Forall (refers d (b_OrgID b)) (b_Refs b);
  ok_ids k i1 i2 b1 b2 m : k <> KDataset ->
    brief k d !! i1 = Some b1 -> brief k d !! i2 = Some b2 ->
    b_OrgID b1 = b_OrgID b2 -> b_MLflowID b1 = Some m -> b_MLflowID b2 = Some m -> i1 = i2;
  ok_log id u : m_updates d !! id = Some u ->
    du_ID u = id /\ refers d (du_OrgID u) (KVersion, du_VersionID u) /\
    exists from, du_FromStatus u = Some from /\ du_ToStatus u ∈ allowedVersionTransitions from;
  ok_runs x : x ∈ m_finding_runs d -> linked d KRun x;
  ok_evals x : x ∈ m_finding_evals d -> linked d KEvaluation x
}.

Definition same_row (b b' : Brief) : Prop :=
  b_ID b' = b_ID b /\ b_OrgID b' = b_OrgID b /\ b_MLflowID b' = b_MLflowID b /\ b_Origin b' = b_Origin b /\
  b_CreatedBy b' = b_CreatedBy b /\ b_CreatedAt b' = b_CreatedAt b.
Definition grows (d d' : MLDB) : Prop :=
  (forall k id b, brief k d !! id = Some b -> exists b', brief k d' !! id = Some b' /\ same_row b b') /\
  m_updates d ⊆ m_updates d'.
(** A step of a request of [o]; [managed]: by a handler that is not a synchronisation. *)
Record extends (managed : bool) (o : string) (d d' : MLDB) : Prop := {
  ext_grows : grows d d';
  ext_others o' : o' <> o -> seen o' d' = seen o' d;
  ext_synced : managed = true -> synced d' = synced d
}.

(** What a handler has found out of rows of its organization. *)
Inductive fact : Type :=
| InOrg (k : kind) (id : string)
| Origin (k : kind) (id origin : string).
Definition holds (o : string) (d : MLDB) (f : fact) : Prop :=
  match f with
  | InOrg k id => id <> "" -> refers d o (k, id)
  | Origin k id s => exists b, brief k d !! id = Some b /\ b_OrgID b = o /\ b_Origin b = s
  end.

(** ** Tables *)

(** What a table has to do with the views. *)
Class TableLaws (C : Type) `{MLTable C} `{Refs C} := {
  tbl_set d t : tbl (C := C) (set_tbl d t) = t;
  brief_tbl d : brief (kind_of C) d = summary <$> tbl (C := C) d;
  brief_set d t k : brief k (set_tbl d t) = if decide (k = kind_of C) then summary <$> t else brief k d;
  updates_set d t : m_updates (set_tbl (C := C) d t) = m_updates d;
  links_set d t : m_finding_runs (set_tbl (C := C) d t) = m_finding_runs d /\
                  m_finding_evals (set_tbl (C := C) d t) = m_finding_evals d;
  auth_set d t : m_auth (set_tbl (C := C) d t) = m_auth d;
  seen_set o d t : rows_of o t = rows_of o (tbl d) -> seen o (set_tbl (C := C) d t) = seen o d;
  synced_set d t : (locked C = true -> from_mlflow t = from_mlflow (tbl d)) -> synced (set_tbl (C := C) d t) = synced d;
  refs_uuids (c : C) x : x ∈ refs c -> x.2 ∈ uuids c
}.

Lemma opt_ref_elem k o x : x ∈ opt_ref k o <-> x.1 = k /\ o = Some x.2.
Proof.
  unfold opt_ref. destruct o as [s|], x as [k' s']; cbn; [|split; [by intros ?%elem_of_nil|naive_solver]].
  rewrite list_elem_of_singleton. naive_solver.
Qed.
Lemma opt_list_elem (o : option string) x : x ∈ opt_list o <-> o = Some x.
Proof.
  destruct o as [s|]; cbn; [rewrite list_elem_of_singleton; naive_solver|].
  split; [by intros ?%elem_of_nil|done].
Qed.
Create Rewrite HintDb refs.
#[export] Hint Rewrite @elem_of_cons @elem_of_nil @elem_of_app opt_ref_elem opt_list_elem : refs.

Ltac solve_table :=
  split; try done; intros;
    first
      [ by match goal with k : kind |- _ => destruct k end
      | unfold seen; cbn; by f_equal; congruence
      | unfold seen; cbn; by match goal with E : rows_of _ _ = _ |- _ => rewrite E end
      | match goal with E : _ = _ -> _ |- _ => cbn in E end; unfold synced; cbn;
        by match goal with E : _ = _ -> _ |- _ => rewrite (E eq_refl) end
      | match goal with x : kind * string, Hx : _ ∈ _ |- _ => destruct x; revert Hx end;
        cbn; autorewrite with refs; cbn; naive_solver ].
#[export] Instance projects_laws : TableLaws ProjectData. Proof. solve_table. Qed.
#[export] Instance models_laws : TableLaws ModelData. Proof. solve_table. Qed.
#[export] Instance versions_laws : TableLaws VersionData. Proof. solve_table. Qed.
#[export] Instance experiments_laws : TableLaws ExperimentData. Proof. solve_table. Qed.
#[export] Instance runs_laws : TableLaws RunData. Proof. solve_table. Qed.
#[export] Instance datasets_laws : TableLaws DatasetData. Proof. solve_table. Qed.
#[export] Instance artifacts_laws : TableLaws ArtifactData. Proof. solve_table. Qed.
#[export] Instance evaluations_laws : TableLaws EvaluationData. Proof. solve_table. Qed.
#[export] Instance deployments_laws : TableLaws DeploymentData. Proof. solve_table. Qed.
#[export] Instance findings_laws : TableLaws FindingData. Proof. solve_table. Qed.

(** ** Steps compose, and keep what is known *)

Lemma same_row_refl b : same_row b b.
Proof. done. Qed.
Lemma same_row_trans a b c : same_row a b -> same_row b c -> same_row a c.
Proof. unfold same_row. intuition congruence. Qed.
#[export] Instance grows_preorder : PreOrder grows.
Proof.
  split.
  - intros d. split; [|done]. intros k id b Hb. eauto using same_row_refl.
  - intros d1 d2 d3 [Hr1 Hu1] [Hr2 Hu2]. split; [|by etrans]. intros k id b Hb.
    destruct (Hr1 k id b Hb) as (b' & Hb' & ?), (Hr2 k id b' Hb') as (b'' & ? & ?). eauto using same_row_trans.
Qed.
#[export] Instance extends_preorder mg o : PreOrder (extends mg o).
Proof.
  split.
  - intros d. by split.
  - intros d1 d2 d3 [G1 O1 S1] [G2 O2 S2]. split; [by etrans| |].
    + intros o' Ho. by rewrite O2, O1.
    + intros Hm. by rewrite S2, S1.
Qed.

Lemma refers_grows d d' o x : grows d d' -> refers d o x -> refers d' o x.
Proof.
  intros [Hr _] (b & Hb & <-). destruct (Hr _ _ _ Hb) as (b' & Hb' & _ & Ho & _). by exists b'.
Qed.
Lemma linked_grows d d' k x : grows d d' -> linked d k x -> linked d' k x.
Proof.
  intros Hg (f & Hf & Hr). destruct (proj1 Hg _ _ _ Hf) as (f' & Hf' & _ & Ho & _).
  exists f'. split; [done|]. rewrite Ho. by eapply refers_grows.
Qed.
Lemma holds_grows o d d' f : grows d d' -> holds o d f -> holds o d' f.
Proof.
  intros Hg. destruct f as [k id|k id s]; cbn.
  - intros Hf Hne. eapply refers_grows; eauto.
  - intros (b & Hb & <- & <-). destruct (proj1 Hg _ _ _ Hb) as (b' & Hb' & _ & Ho & _ & Hs & _). eauto.
Qed.
Lemma facts_grow o d d' fs : grows d d' -> Forall (holds o d) fs -> Forall (holds o d') fs.
Proof. intros Hg Hf. eapply Forall_impl; [exact Hf|]. intros f. by apply holds_grows. Qed.

(** The registry after a step, and the step. *)
Definition good (mg : bool) (o : string) (d d' : MLDB) : Prop := registry_ok d' /\ extends mg o d d'.
Lemma good_refl mg o d : registry_ok d -> good mg o d d.
Proof. done. Qed.
Lemma good_trans mg o d1 d2 d3 : good mg o d1 d2 -> good mg o d2 d3 -> good mg o d1 d3.
Proof. intros [_ E1] [? E2]. split; [done|]. by etrans. Qed.

(** ** Changing one table *)

(** The rows of [t] are those of [d], but for some of [o] that keep their identity. *)
Definition edits {C} `{TableLaws C} (mg : bool) (o : string) (d : MLDB) (t : gmap string (Row C)) : Prop :=
  forall id, t !! id = tbl d !! id \/
    exists r, t !! id = Some r /\ r_ID r = id /\ r_OrgID r = o /\ Forall (refers d o) (refs (r_Content r)) /\
      (forall r0, tbl d !! id = Some r0 -> same_row (summary r0) (summary r)) /\
      (mg = true -> locked C = true -> r_Origin r = "manual").

Lemma rows_of_edits {C} `{TableLaws C} mg o d (t : gmap string (Row C)) o' :
  edits mg o d t -> o' <> o -> rows_of o' t = rows_of o' (tbl d).
Proof.
  intros He Ho. apply map_eq. intros id. unfold rows_of. apply option_eq. intros r.
  rewrite !map_lookup_filter_Some. cbn.
  destruct (He id) as [->|(r' & Hr' & _ & Ho' & _ & Hold & _)]; [done|]. rewrite Hr'. split.
  - intros [[= <-] ?]. congruence.
  - intros [Hr <-]. destruct (Hold r Hr) as (_ & Hs & _). cbn in Hs. congruence.
Qed.
Lemma from_mlflow_edits {C} `{TableLaws C} o d (t : gmap string (Row C)) :
  edits true o d t -> locked C = true -> from_mlflow t = from_mlflow (tbl d).
Proof.
  intros He Hl. apply map_eq. intros id. unfold from_mlflow. apply option_eq. intros r.
  rewrite !map_lookup_filter_Some. cbn.
  destruct (He id) as [->|(r' & Hr' & _ & _ & _ & Hold & Hm)]; [done|]. rewrite Hr'. specialize (Hm eq_refl Hl). split.
  - intros [[= <-] ?]. congruence.
  - intros [Hr ?]. destruct (Hold r Hr) as (_ & _ & _ & Hs & _). cbn in Hs. congruence.
Qed.

Lemma grows_edits {C} `{TableLaws C} mg o d (t : gmap string (Row C)) : edits mg o d t -> grows d (set_tbl d t).
Proof.
  intros He. split; [|by rewrite updates_set]. intros k id b Hb. rewrite brief_set.
  destruct (decide (k = kind_of C)) as [->|_]; [|eauto using same_row_refl].
  rewrite brief_tbl, lookup_fmap in Hb. rewrite lookup_fmap.
  destruct (He id) as [->|(r & -> & _ & _ & _ & Hold & _)]; [eauto using same_row_refl|].
  destruct (tbl d !! id) as [r0|]; simplify_eq/=. eexists. split; [done|]. by apply Hold.
Qed.

(** Of a table with a UNIQUE index on the org and the MLflow id. *)
Definition unique_ids {C} (t : gmap string (Row C)) : Prop :=
  forall i1 i2 r1 r2 m, t !! i1 = Some r1 -> t !! i2 = Some r2 -> r_OrgID r1 = r_OrgID r2 ->
    r_MLflowID r1 = Some m -> r_MLflowID r2 = Some m -> i1 = i2.
Lemma unique_same {C} (t t' : gmap string (Row C)) :
  (forall id r', t' !! id = Some r' -> exists r, t !! id = Some r /\ r_OrgID r = r_OrgID r' /\ r_MLflowID r = r_MLflowID r') ->
  unique_ids t -> unique_ids t'.
Proof.
  intros Hs Hu i1 i2 r1 r2 m H1 H2 Ho Hm1 Hm2. destruct (Hs _ _ H1) as (x1 & ? & ? & ?), (Hs _ _ H2) as (x2 & ? & ? & ?).
  apply (Hu i1 i2 x1 x2 m); congruence.
Qed.
Lemma unique_new {C} (t : gmap string (Row C)) id (r : Row C) :
  (forall m i r', r_MLflowID r = Some m -> t !! i = Some r' -> r_OrgID r' = r_OrgID r -> r_MLflowID r' <> Some m) ->
  unique_ids t -> unique_ids (<[id := r]> t).
Proof.
  intros Hn Hu i1 i2 r1 r2 m H1 H2 Ho Hm1 Hm2. apply lookup_insert_Some in H1 as [[<- <-]|[_ H1]], H2 as [[<- <-]|[_ H2]].
  - done.
  - by destruct (Hn m i2 r2 Hm1 H2 (eq_sym Ho)).
  - by destruct (Hn m i1 r1 Hm2 H1 Ho).
  - by apply (Hu i1 i2 r1 r2 m).
Qed.
Lemma unique_edited {C} (t : gmap string (Row C)) id (r0 r : Row C) :
  t !! id = Some r0 -> r_OrgID r = r_OrgID r0 -> r_MLflowID r = r_MLflowID r0 -> unique_ids t -> unique_ids (<[id := r]> t).
Proof.
  intros H0 Ho Hm. apply unique_same. intros i r'. rewrite lookup_insert_Some. intros [[<- <-]|[_ Hr]]; eauto.
Qed.
Lemma unique_update_where {C} (t : gmap string (Row C)) hit (f : Row C -> Row C) :
  (forall r, hit r = true -> r_OrgID (f r) = r_OrgID r /\ r_MLflowID (f r) = r_MLflowID r) ->
  unique_ids t -> unique_ids (update_where hit f t).
Proof.
  intros Hf. apply unique_same. intros i r'. rewrite lookup_update_where. destruct (t !! i) as [r|]; [|done]. cbn.
  intros [= <-]. exists r. split; [done|]. destruct (hit r) eqn:E; [|done]. by destruct (Hf r E) as [-> ->].
Qed.
Lemma table_unique {C} `{TableLaws C} d : registry_ok d -> kind_of C <> KDataset -> unique_ids (tbl (C := C) d).
Proof.
  intros Hok Hk i1 i2 r1 r2 m E1 E2. apply (ok_ids d Hok (kind_of C) i1 i2 (summary r1) (summary r2) m Hk);
    by rewrite brief_tbl, lookup_fmap, ?E1, ?E2.
Qed.

Lemma edits_good {C} `{TableLaws C} mg o d (t : gmap string (Row C)) :
  registry_ok d -> edits mg o d t -> (kind_of C <> KDataset -> unique_ids (tbl (C := C) d) -> unique_ids t) ->
  good mg o d (set_tbl d t).
Proof.
  intros Hok He Huniq. pose proof (grows_edits _ _ _ _ He) as Hg. destruct (links_set d t) as [Hlr Hle]. split; split.
  - intros k id b Hb.
    assert (brief k d !! id = Some b \/ exists r, b = summary r /\ r_ID r = id /\ r_OrgID r = o /\
              Forall (refers d o) (refs (r_Content r))) as [Hb'|(r & -> & Hid & Ho & Hr)].
    { rewrite brief_set in Hb. destruct (decide (k = kind_of C)) as [->|_]; [|by left].
      rewrite brief_tbl, lookup_fmap. rewrite lookup_fmap in Hb.
      destruct (He id) as [<-|(r & Hr & ? & ? & ? & _)]; [by left|]. rewrite Hr in Hb. simplify_eq/=. right. eauto. }
    + destruct (ok_rows d Hok k id b Hb') as [? Hr]. split; [done|].
      eapply Forall_impl; [exact Hr|]. intros x. by apply refers_grows.
    + split; [done|]. cbn. rewrite Ho. eapply Forall_impl; [exact Hr|]. intros x. by apply refers_grows.
  - intros k i1 i2 b1 b2 m Hk Hb1 Hb2. rewrite brief_set in Hb1, Hb2.
    destruct (decide (k = kind_of C)) as [->|_]; [|by apply (ok_ids d Hok k)].
    rewrite lookup_fmap in Hb1, Hb2. destruct (t !! i1) as [r1|] eqn:E1, (t !! i2) as [r2|] eqn:E2; simplify_eq/=.
    apply (Huniq Hk (table_unique d Hok Hk) i1 i2 r1 r2 m E1 E2).
  - intros id u. rewrite updates_set. intros (Hid & Hv & Hf)%(ok_log d Hok). split_and!; [done| |done].
    by eapply refers_grows.
  - intros x. rewrite Hlr. intros Hx%(ok_runs d Hok). by eapply linked_grows.
  - intros x. rewrite Hle. intros Hx%(ok_evals d Hok). by eapply linked_grows.
  - done.
  - intros o' Ho. apply seen_set. by eapply rows_of_edits.
  - intros ->. apply synced_set. by eapply from_mlflow_edits.
Qed.

Lemma edits_insert {C} `{TableLaws C} mg o d (r : Row C) :
  (forall r0, tbl d !! r_ID r = Some r0 -> same_row (summary r0) (summary r)) ->
  r_OrgID r = o -> Forall (refers d o) (refs (r_Content r)) -> (mg = true -> locked C = true -> r_Origin r = "manual") ->
  edits mg o d (<[r_ID r := r]> (tbl d)).
Proof.
  intros Hold Ho Hr Hm id. destruct (decide (id = r_ID r)) as [->|Hne]; [|left; by rewrite lookup_insert_ne].
  right. exists r. rewrite lookup_insert_eq. done.
Qed.

(** ** The statements *)

Section Statements.
Context `{Collation} `{UuidText}.
Context (mg : bool) (o : string).

Lemma valid_not_empty s : valid_uuid s = true -> s <> "".
Proof. intros Hv ->. by rewrite valid_uuid_empty in Hv. Qed.
Lemma valid_elem ids x : forallb valid_uuid ids = true -> x ∈ ids -> x <> "".
Proof. rewrite forallb_forall. intros Hv Hx. by apply valid_not_empty, Hv, list_elem_of_In. Qed.

Lemma table_row_ok {C} `{TableLaws C} d id (r : Row C) :
  registry_ok d -> tbl d !! id = Some r -> r_ID r = id /\ Forall (refers d (r_OrgID r)) (refs (r_Content r)).
Proof.
  intros Hok Hr. apply (ok_rows d Hok (kind_of C) id (summary r)). by rewrite brief_tbl, lookup_fmap, Hr.
Qed.
Lemma live_row_Some {C} `{MLTable C} d id (r : Row C) :
  live_row o id d = Some r -> tbl d !! id = Some r /\ r_OrgID r = o.
Proof.
  unfold live_row. destruct (tbl d !! id) as [r'|]; [|done]. destruct (_ && _) eqn:E; [|done]. intros [= ->].
  apply andb_true_iff in E as [E _]. by apply String.eqb_eq in E.
Qed.
Lemma refers_row {C} `{TableLaws C} d id (r : Row C) : tbl d !! id = Some r -> refers d (r_OrgID r) (kind_of C, id).
Proof. intros Hr. exists (summary r). split; [|done]. cbn. by rewrite brief_tbl, lookup_fmap, Hr. Qed.

Lemma insert_row_good {C} `{TableLaws C} (r : Row C) d d' :
  insert_row r d = Ok d' -> registry_ok d -> r_OrgID r = o -> r_MLflowID r = None ->
  (forall x, x ∈ refs (r_Content r) -> holds o d (InOrg x.1 x.2)) ->
  (mg = true -> locked C = true -> r_Origin r = "manual") ->
  good mg o d d' /\ tbl d' !! r_ID r = Some r.
Proof.
  unfold insert_row. intros Hi Hok Ho Hn Hx Hm. destruct (forallb _ _) eqn:Ev; [|done]. cbn [negb] in Hi.
  destruct (has _ _) eqn:Eh; [done|]. destruct (negb _); [done|]. injection Hi as <-.
  split; [|rewrite tbl_set; apply lookup_insert_eq].
  apply edits_good; [done| |]; [|intros _; apply unique_new; intros; congruence]. apply edits_insert; try done.
  - unfold has in Eh. intros r0 Hr0. by rewrite Hr0 in Eh.
  - rewrite Forall_forall. intros [k id] Hin. apply (Hx _ Hin). eapply valid_elem; [exact Ev|].
    do 3 right. by apply (refs_uuids _ (k, id)).
Qed.

Lemma update_row_good {C} `{TableLaws C} id ids (f : Row C -> Row C) d d' :
  update_row o id ids f d = Ok d' -> registry_ok d ->
  (forall r, tbl d !! id = Some r -> r_OrgID r = o -> same_row (summary r) (summary (f r)) /\
     (forall x, x ∈ refs (r_Content (f r)) -> x ∈ refs (r_Content r) \/ (x.2 ∈ ids /\ holds o d (InOrg x.1 x.2))) /\
     (mg = true -> locked C = true -> r_Origin r = "manual")) ->
  good mg o d d'.
Proof.
  unfold update_row. intros Hu Hok Hf. destruct (forallb _ _) eqn:Ev; [|done]. cbn [negb] in Hu.
  destruct (live_row o id d) as [r|] eqn:Er; [|by injection Hu as <-].
  apply live_row_Some in Er as [Hr Ho]. destruct (fks _ _); [|done]. injection Hu as <-.
  destruct (Hf r Hr Ho) as (Hs & Hx & Hm). destruct (table_row_ok _ _ _ Hok Hr) as [Hid Hrefs].
  destruct Hs as (Hsid & Hso & Hsm & Hsorig & Hrest). cbn in Hsid, Hso, Hsm, Hsorig.
  assert (r_ID (f r) = id) as Hfid by congruence. rewrite <-Hfid at 1. apply edits_good; [done| |].
  2: { intros _. rewrite Hfid. by apply (unique_edited _ _ r). }
  apply edits_insert; [| |rewrite Forall_forall|].
  - rewrite Hfid. intros r0 Hr0. assert (r0 = r) as -> by congruence. unfold same_row. cbn. tauto.
  - congruence.
  - rewrite Ho in Hrefs. rewrite Forall_forall in Hrefs. intros x Hin. destruct (Hx x Hin) as [|[Hi Hh]]; [by apply Hrefs|].
    destruct x as [k i]. apply Hh. eapply valid_elem; [exact Ev|]. do 2 right. done.
  - intros. rewrite Hsorig. auto.
Qed.

(** *** Entries and links *)

Lemma entries_insert {C V} (t : gmap string C) (id k : string) (v : V) (m : gmap (string * string) V) :
  id ∉ dom t -> entries_of t (<[(id, k) := v]> m) = entries_of t m.
Proof. intros Hid. apply map_filter_insert_not. cbn. done. Qed.
Lemma entries_replace {C V} (t : gmap string C) (id : string) (l : list (string * V)) (m : gmap (string * string) V) :
  id ∉ dom t -> entries_of t (replace_values id l m) = entries_of t m.
Proof.
  intros Hid. unfold replace_values. transitivity (entries_of t (base.filter (fun kv : string * string * V => kv.1.1 <> id) m)).
  - generalize (base.filter (fun kv : string * string * V => kv.1.1 <> id) m). induction l as [|[k v] l IH]; intros m'; cbn; [done|].
    by rewrite IH, entries_insert.
  - apply map_eq. intros x. apply option_eq. intros v. unfold entries_of. rewrite !map_lookup_filter_Some. cbn.
    split; [naive_solver|]. intros [? Hx]. split_and!; try done. intros Hxi. by rewrite Hxi in Hx.
Qed.
Lemma not_seen {C} `{TableLaws C} d id o' : refers d o (kind_of C, id) -> o' <> o -> id ∉ dom (rows_of o' (tbl (C := C) d)).
Proof.
  intros (b & Hb & Ho) Hne [r Hr]%elem_of_dom. apply map_lookup_filter_Some in Hr as [Hr Hro]. cbn in *.
  rewrite brief_tbl, lookup_fmap, Hr in Hb. by simplify_eq/=.
Qed.
Lemma not_synced {C} `{TableLaws C} d id :
  holds o d (Origin (kind_of C) id "manual") -> id ∉ dom (from_mlflow (tbl (C := C) d)).
Proof.
  intros (b & Hb & _ & Ho) [r Hr]%elem_of_dom. apply map_lookup_filter_Some in Hr as [Hr Hro]. cbn in *.
  rewrite brief_tbl, lookup_fmap, Hr in Hb. by simplify_eq/=.
Qed.

Lemma run_values_good d id p m label d' :
  set_run_entries label id p m d = Ok d' -> registry_ok d -> refers d o (KRun, id) ->
  (mg = true -> holds o d (Origin KRun id "manual")) -> good mg o d d'.
Proof.
  unfold set_run_entries, replaceMLMetrics. intros Hs [Hr Hi Hl Hfr Hfe] Hin Hm.
  destruct (numbers m) as [l|e]; [|by destruct e]. cbn in Hs. injection Hs as <-. split; [by split|]. split; [by change (grows d d)| |].
  - intros o' Ho. pose proof (not_seen (C := RunData) _ _ _ Hin Ho). unfold seen. cbn. f_equal; by apply entries_replace.
  - intros Hmg. pose proof (not_synced (C := RunData) _ _ (Hm Hmg)). unfold synced. cbn. f_equal; [f_equal|]; by apply entries_replace.
Qed.
Lemma eval_values_good d id p m label d' :
  set_eval_entries label id p m d = Ok d' -> registry_ok d -> refers d o (KEvaluation, id) -> good mg o d d'.
Proof.
  unfold set_eval_entries, replaceMLMetrics. intros Hs [Hr Hi Hl Hfr Hfe] Hin.
  destruct (numbers m) as [l|e]; [|by destruct e]. cbn in Hs. injection Hs as <-. split; [by split|]. split; [by change (grows d d)| |done].
  intros o' Ho. pose proof (not_seen (C := EvaluationData) _ _ _ Hin Ho). unfold seen. cbn. f_equal; by apply entries_replace.
Qed.

Lemma links_replace {C D} (t : gmap string C) (s : gmap string D) id ids l l' :
  replace_links s id ids l = Ok l' -> id ∉ dom t -> links_in t l' = links_in t l.
Proof.
  unfold replace_links. intros Hl Hid. repeat case_match; try done. injection Hl as <-. apply set_eq. intros x.
  unfold links_in. rewrite !elem_of_filter, elem_of_union, elem_of_filter, elem_of_list_to_set, list_elem_of_fmap.
  split; [|by intros [??]; split; [|left; split; [intros <-|]]].
  intros [Hx [[??]|(y & -> & _)]]; [done|]. by cbn in Hx.
Qed.
Lemma links_linked {D} d (s : gmap string D) (id : string) ids l l' k :
  replace_links s id ids l = Ok l' -> refers d o (KFinding, id) -> (forall x, x ∈ ids -> holds o d (InOrg k x)) ->
  (forall x, x ∈ l -> linked d k x) -> forall x, x ∈ l' -> linked d k x.
Proof.
  unfold replace_links. intros Hr (b & Hb & Hbo) Hids Hl x. destruct (forallb valid_uuid ids) eqn:Ev; [|done]. cbn in Hr.
  case_match; [done|]. injection Hr as <-. rewrite elem_of_union, elem_of_filter, elem_of_list_to_set, list_elem_of_fmap.
  intros [[_ Hx]|(y & -> & Hy)]; [by apply Hl|]. exists b. rewrite Hbo. split; [done|]. apply (Hids y Hy). by eapply valid_elem.
Qed.
Lemma finding_links_good f d d' :
  replaceMLFindingLinks f d = Ok d' -> registry_ok d -> refers d o (KFinding, r_ID (f_Row f)) ->
  (forall x, x ∈ f_RunIDs f -> holds o d (InOrg KRun x)) -> (forall x, x ∈ f_EvaluationIDs f -> holds o d (InOrg KEvaluation x)) ->
  good mg o d d'.
Proof.
  unfold replaceMLFindingLinks. intros Hl [Hr Hi Hlog Hfr Hfe] Hin Hrs Hes.
  destruct (replace_links (m_runs d) _ _ _) as [rs|] eqn:Er; [|done].
  destruct (replace_links (m_evaluations d) _ _ _) as [es|] eqn:Ee; [|done]. injection Hl as <-. split.
  - split; try done; cbn.
    + intros x Hx. by apply (links_linked d _ _ _ _ _ _ Er Hin Hrs Hfr).
    + intros x Hx. by apply (links_linked d _ _ _ _ _ _ Ee Hin Hes Hfe).
  - split; [by change (grows d d)| |done]. intros o' Ho. pose proof (not_seen (C := FindingData) _ _ _ Hin Ho). unfold seen. cbn. f_equal.
    + by eapply links_replace.
    + by eapply links_replace.
Qed.
End Statements.

(** ** What a call keeps, under facts *)

Section Safe.
Context `{Collation} `{UuidText} `{UuidGen}.
Context (mg : bool) (o : string).
#[local] Abbreviation W := (World MLDB).
Implicit Types (fs : list fact).

Definition safe fs {R A} (m : Go W R A) : Prop :=
  forall w, registry_ok (w_db w) -> Forall (holds o (w_db w)) fs -> good mg o (w_db w) (w_db (m w).2).
Definition esafe fs {A} (m : Eff W A) : Prop :=
  forall w, registry_ok (w_db w) -> Forall (holds o (w_db w)) fs -> good mg o (w_db w) (w_db (m w).2).

Lemma safe_ret fs {R A} (a : A) : safe fs (R := R) (gret a).
Proof. intros w Hok _. by apply good_refl. Qed.
Lemma safe_return fs {R A} (r : R) : safe fs (A := A) (greturn r).
Proof. intros w Hok _. by apply good_refl. Qed.
Lemma safe_non_nil fs {R A} (p : option A) (r : R) : safe fs (non_nil p r).
Proof. destruct p; [apply safe_ret|apply safe_return]. Qed.
Lemma safe_func fs {R} (m : Go W R R) : safe fs m -> esafe fs (func m).
Proof. intros Hm w Hok Hf. specialize (Hm w Hok Hf). unfold func. by destruct (m w) as [[r|r] w']. Qed.
Lemma safe_call fs {R A} (m : Eff W A) : esafe fs m -> safe fs (R := R) (call m).
Proof. intros Hm w Hok Hf. specialize (Hm w Hok Hf). unfold call. by destruct (m w). Qed.

(** What [m] finds out is there for the rest. *)
Lemma safe_learn fs {R A B} (m : Go W R A) (f : A -> Go W R B) (Q : A -> Prop) (learn : A -> list fact) :
  safe fs m ->
  (forall w a w', registry_ok (w_db w) -> Forall (holds o (w_db w)) fs -> m w = (inr a, w') ->
     Q a /\ Forall (holds o (w_db w')) (learn a)) ->
  (forall a, Q a -> safe (learn a ++ fs)%list (f a)) ->
  safe fs (gbind m f).
Proof.
  intros Hm Hl Hf w Hok Hfs. pose proof (Hm w Hok Hfs) as Hg. specialize (Hl w). unfold gbind.
  destruct (m w) as [[r|a] w']; [done|]. destruct (Hl a w' Hok Hfs eq_refl) as [HQ Hfacts]. cbn in Hg.
  eapply good_trans; [exact Hg|]. apply Hf; [done|apply Hg|]. apply Forall_app. split; [done|].
  eapply facts_grow; [apply Hg|done].
Qed.
Lemma safe_bind fs {R A B} (m : Go W R A) (f : A -> Go W R B) :
  safe fs m -> (forall a, safe fs (f a)) -> safe fs (gbind m f).
Proof. intros Hm Hf. apply (safe_learn fs m f (fun _ => True) (fun _ => [])); [done|by intros; split|auto]. Qed.
Lemma safe_try fs {R E A} (m : Eff W (result E A)) (on_err : E -> R) : esafe fs m -> safe fs (try m on_err).
Proof.
  intros Hm. apply safe_bind; [by apply safe_call|]. intros [a|e]; [apply safe_ret|apply safe_return].
Qed.
Lemma safe_guard fs {R A} c (r : R) (m : Go W R A) : (c = false -> safe fs m) -> safe fs (return_if c r ;;; m).
Proof. intros Hm. destruct c; [|by apply Hm]. apply safe_return. Qed.
Lemma safe_return_if fs {R} c (r : R) : safe fs (return_if c r).
Proof. destruct c; [apply safe_return|apply safe_ret]. Qed.

(** Calls that read. *)
Definition reads {A} (m : Eff W A) : Prop := forall w, w_db (m w).2 = w_db w.
Lemma reads_safe fs {A} (m : Eff W A) : reads m -> esafe fs m.
Proof. intros Hm w Hok _. rewrite Hm. by apply good_refl. Qed.
Lemma ml_op_reads {A} (f : Z -> MLDB -> result ml_err A) : reads (ml_op (fun t d => (f t d, d))).
Proof. intros w. unfold ml_op, db_op. destruct (w_faults w) as [|[] ?]; by cbn. Qed.
Lemma time_reads : reads time_now.
Proof. intros w. apply time_now_db. Qed.
Lemma reads_keeps {A} (m : Eff W A) : (forall d, keeps (eq d) m) -> reads m.
Proof. intros Hm w. symmetry. by apply (Hm (w_db w) w). Qed.
Lemma keeps_reads d {A} (m : Eff W A) : reads m -> keeps (eq d) m.
Proof. intros Hm w ->. by rewrite Hm. Qed.
Lemma uuid_reads : reads new_uuid.
Proof.
  intros w. unfold new_uuid. pose proof (rand_read_db 16 w) as Hd. by destruct (rand_read 16 w) as [[] ?].
Qed.

Lemma ml_op_safe fs {A} (f : Z -> MLDB -> result ml_err A * MLDB) :
  (forall t d, registry_ok d -> Forall (holds o d) fs -> good mg o d (f t d).2) -> esafe fs (ml_op f).
Proof.
  intros Hf w Hok Hfs. specialize (Hf (w_clock w) (w_db w) Hok Hfs). unfold ml_op, db_op.
  destruct (w_faults w) as [|[] ?]; [|by apply good_refl|]; by destruct (f _ _).
Qed.
Lemma statement_safe fs (f : Z -> MLDB -> result ml_err MLDB) :
  (forall t d d', registry_ok d -> Forall (holds o d) fs -> f t d = Ok d' -> good mg o d d') ->
  esafe fs (ml_op (fun t => statement (f t))).
Proof.
  intros Hf. apply ml_op_safe. intros t d Hok Hfs. unfold statement. specialize (Hf t d).
  destruct (f t d) as [d'|e]; [by apply Hf|by apply good_refl].
Qed.
Lemma exec_safe fs (f : Z -> Z -> MLDB -> result ml_err MLDB) :
  (forall now t d d', registry_ok d -> Forall (holds o d) fs -> f now t d = Ok d' -> good mg o d d') ->
  esafe fs (exec f).
Proof.
  intros Hf. apply safe_func, safe_bind; [apply safe_call, reads_safe, time_reads|]. intros now.
  apply safe_call, statement_safe. intros t. apply Hf.
Qed.
End Safe.

(** ** Rows read, rows written *)

Section Rows.
Context `{Collation} `{UuidText} `{UuidGen}.
Context (mg : bool) (o : string).
#[local] Abbreviation W := (World MLDB).
Implicit Types (fs : list fact).

(** [m] reads the live row of an id, and perhaps more of it. *)
Definition finds {A C} `{MLTable C} (m : MLEff (option A)) (id : string) (row : A -> Row C) : Prop :=
  forall w, w_db (m w).2 = w_db w /\ forall a w', m w = (Ok (Some a), w') -> live_row o id (w_db w) = Some (row a).

Definition learned {C} `{Refs C} (id : string) (r : Row C) : list fact :=
  Origin (kind_of C) id (r_Origin r) :: InOrg (kind_of C) id ::
  map (fun x => InOrg x.1 x.2) (refs (r_Content r)).

Lemma live_row_learned {C} `{TableLaws C} d id (r : Row C) :
  registry_ok d -> live_row o id d = Some r -> (r_ID r = id /\ r_OrgID r = o) /\ Forall (holds o d) (learned id r).
Proof.
  intros Hok [Hr Ho]%live_row_Some. destruct (table_row_ok _ _ _ Hok Hr) as [Hid Hrefs]. split; [done|].
  pose proof (refers_row _ _ _ Hr) as Hin. rewrite Ho in Hin, Hrefs. unfold learned.
  repeat apply Forall_cons_2; cbn; [| |].
  - destruct Hin as (b & Hb & Hbo). cbn in Hb. rewrite brief_tbl, lookup_fmap, Hr in Hb. simplify_eq/=.
    eexists. rewrite brief_tbl, lookup_fmap, Hr. done.
  - done.
  - apply Forall_map. eapply Forall_impl; [exact Hrefs|]. by intros [k i] ? ?.
Qed.

(** A row the handler needs, or it answers. *)
Lemma safe_found fs {A B C} `{TableLaws C} (m : MLEff (option A)) id (row : A -> Row C) e miss (f : A -> Go W MLReply B) :
  finds m id row ->
  (forall a, r_ID (row a) = id -> r_OrgID (row a) = o -> safe mg o (learned id (row a) ++ fs)%list (f a)) ->
  safe mg o fs (a <- (x <- try m e ;; non_nil x miss) ;; f a).
Proof.
  intros Hm Hf. apply (safe_learn _ _ _ _ _ (fun a => r_ID (row a) = id /\ r_OrgID (row a) = o) (fun a => learned id (row a))).
  - apply safe_bind; [|intros x; apply safe_non_nil]. apply safe_try, reads_safe. intros w. apply Hm.
  - intros w a w' Hok _. unfold gbind at 1, try, gbind, call. destruct (Hm w) as [Hd Hl].
    destruct (m w) as [[[a'|]|] w1]; cbn; [|done|done]. intros [= <- <-]. cbn in Hd. rewrite Hd.
    by apply live_row_learned, Hl with w1.
  - intros a [? ?]. by apply Hf.
Qed.
Definition safe_existing fs {A B C} `{TableLaws C} m id row (f : A -> Go W MLReply B) :=
  safe_found fs m id (C := C) row httpError (HttpError ErrNotFound) f.
Definition safe_ensure fs {A B C} `{TableLaws C} m id row msg (f : A -> Go W MLReply B) :=
  safe_found fs m id (C := C) row httpError (BadRequest msg) f.

Lemma get_finds {C} `{MLTable C} id : finds (C := C) (get o id) id (fun r => r).
Proof.
  intros w. split; [apply ml_op_reads|]. intros a w'. unfold get, ml_op, db_op.
  destruct (w_faults w) as [|[] ?]; cbn; [|done|]; destruct (_ && _); by intros [= Hr _].
Qed.
(** Further reads of what was found. *)
Lemma finds_more {A B C} `{MLTable C} (m : MLEff (option A)) id (row : A -> Row C) (row' : B -> Row C)
  (more : A -> Go W (result ml_err (option B)) (result ml_err (option B))) :
  finds m id row ->
  (forall a w, w_db (more a w).2 = w_db w) ->
  (forall a w b w', func (more a) w = (Ok (Some b), w') -> row' b = row a) ->
  finds (func (x <- try m (fun e => Err e) ;; match x with None => gret (Ok None) | Some a => more a end)) id row'.
Proof.
  intros Hm Hd Hr w. destruct (Hm w) as [Hdb Hl]. unfold func, gbind, try, call. specialize (Hl).
  unfold gbind. destruct (m w) as [[[a|]|e] w1]; cbn in *; [|by split|by split].
  pose proof (Hd a w1) as Hd1. split.
  - destruct (more a w1) as [[r|r] w2]; cbn in *; congruence.
  - intros b w' Hb. erewrite Hr; [by eapply Hl|]. unfold func. exact Hb.
Qed.

Definition known fs (x : kind * string) : Prop := InOrg x.1 x.2 ∈ fs.
Lemma known_holds fs x d : Forall (holds o d) fs -> known fs x -> holds o d (InOrg x.1 x.2).
Proof. rewrite Forall_forall. intros Hf Hx. by apply Hf. Qed.

Lemma exec_insert fs {C} `{TableLaws C} (mk : Z -> Z -> Row C) :
  (forall now t, r_OrgID (mk now t) = o /\ r_MLflowID (mk now t) = None /\ Forall (known fs) (refs (r_Content (mk now t))) /\
     (mg = true -> locked C = true -> r_Origin (mk now t) = "manual")) ->
  esafe mg o fs (exec (fun now t => insert_row (mk now t))).
Proof.
  intros Hmk. apply exec_safe. intros now t d d' Hok Hfs Hi. destruct (Hmk now t) as (Ho & Hn & Hx & Hm).
  eapply insert_row_good; try done. rewrite Forall_forall in Hx. intros x Hin. by eapply known_holds, Hx.
Qed.

Definition may_update fs (C : Type) `{Refs C} (id : string) : Prop :=
  mg = true -> locked C = true -> Origin (kind_of C) id "manual" ∈ fs.
Definition edit_ok fs {C} `{Refs C} (ids : list string) (f : Row C -> Row C) : Prop :=
  forall r, same_row (summary r) (summary (f r)) /\
    forall x, x ∈ refs (r_Content (f r)) -> x ∈ refs (r_Content r) \/ (x.2 ∈ ids /\ known fs x).

Lemma update_good fs {C} `{TableLaws C} orgID id ids (f : Row C -> Row C) d d' :
  orgID = o -> edit_ok fs ids f -> may_update fs C id -> registry_ok d -> Forall (holds o d) fs ->
  update_row orgID id ids f d = Ok d' -> good mg o d d'.
Proof.
  intros -> He Hm Hok Hfs Hu. eapply update_row_good; [done..|]. intros r Hr Ho. destruct (He r) as [Hs Hx].
  split_and!; [done| |].
  - intros x Hin. destruct (Hx x Hin) as [|[? ?]]; [by left|]. right. split; [done|]. by eapply known_holds.
  - intros Hmg Hl. specialize (Hm Hmg Hl). rewrite Forall_forall in Hfs.
    destruct (Hfs _ Hm) as (b & Hb & _ & Hbo). rewrite brief_tbl, lookup_fmap, Hr in Hb. by simplify_eq/=.
Qed.
Lemma exec_update fs {C} `{TableLaws C} orgID id ids (f : Z -> Z -> Row C -> Row C) :
  orgID = o -> (forall now t, edit_ok fs ids (f now t)) -> may_update fs C id ->
  esafe mg o fs (exec (fun now t => update_row orgID id ids (f now t))).
Proof. intros. apply exec_safe. intros. by eapply update_good. Qed.
Lemma delete_row_safe fs {C} `{TableLaws C} orgID id by_ : orgID = o -> may_update fs C id -> esafe mg o fs (delete_row (C := C) orgID id by_).
Proof.
  intros. apply (exec_update fs orgID id [by_]
    (fun now _ r => with_content (r_Content r) (soft_deleted by_ now (r_Stamp r)) r)); [done| |done].
  intros now t r. split; [done|]. intros x. by left.
Qed.
End Rows.
