(* ===== verification/MLConfined.v ===== *)
(** * MLConfined: every request stays in its organization

    The invariant of [MLTenants] for every statement and handler, and what
    follows for a request and for any sequence of them. *)

From S2P Require Import Prelude GoStrings Effects Json Table Authz Identity AuthStore MLStudio MLSync MLHandlers MLTenants.
Set Warnings "-register-all,-clear-no-such-hyp".
#[local] Open Scope nat_scope.
#[local] Open Scope string_scope.

Section Reading.
Context `{Collation} `{UuidText}.
Context (o : string).

Lemma GetMLModelVersion_finds id : finds o (GetMLModelVersion o id) id mv_Row.
Proof.
  intros w. split; [apply ml_op_reads|]. intros a w'. unfold GetMLModelVersion, ml_op, db_op.
  destruct (w_faults w) as [|[] ?]; cbn; [|done|]; destruct (_ && _); cbn; try done;
    destruct (live_row o id (w_db w)); cbn; by intros [= <- _].
Qed.

Lemma load_values_reads {C} (id : C -> string) ps ms r : reads (load_values id ps ms r).
Proof.
  apply reads_keeps. intros d. unfold load_values. apply keeps_func.
  repeat (apply gkeeps_bind; [apply gkeeps_try, keeps_reads, ml_op_reads|intros ?]). apply gkeeps_ret.
Qed.
Lemma GetMLRun_finds id : finds o (GetMLRun o id) id ru_Row.
Proof.
  apply (finds_more _ _ id (fun r => r)); [apply get_finds| |].
  - intros r w. pose proof (load_values_reads r_ID m_run_params m_run_metrics r w) as Hl. unfold gbind, try, call.
    unfold gbind. by destruct (load_values _ _ _ r w) as [[?|?] ?].
  - intros r w b w'. unfold func, gbind, try, call. unfold gbind.
    destruct (load_values _ _ _ r w) as [[?|?] ?]; cbn; [|done]. by intros [= <- _].
Qed.
Lemma GetMLFinding_finds id : finds o (GetMLFinding o id) id f_Row.
Proof.
  apply (finds_more _ _ id (fun r => r)); [apply get_finds| |].
  - intros r. apply reads_keeps. intros d w. revert w. apply (gkeeps_bind (eq d)); [apply gkeeps_try, keeps_reads, ml_op_reads|].
    intros ?. apply gkeeps_bind; [apply gkeeps_try, keeps_reads, ml_op_reads|]. intros ?. apply gkeeps_ret.
  - intros r w b w'. unfold func, gbind, try, call. unfold gbind.
    destruct (ml_op _ w) as [[?|?] w1]; cbn; [|done]. destruct (ml_op _ w1) as [[?|?] ?]; cbn; [|done]. by intros [= <- _].
Qed.

Lemma GetMLEvaluation_finds id : finds o (GetMLEvaluation o id) id el_Row.
Proof.
  apply (finds_more _ _ id el_Row).
  - intros w. split; [apply ml_op_reads|]. intros a w'. unfold ml_op, db_op.
    destruct (w_faults w) as [|[] ?]; cbn; [|done|]; destruct (_ && _); cbn; try done;
      destruct (live_row o id (w_db w)) as [r|]; cbn; try done; unfold joined;
      destruct (m_versions _ !! _); cbn; try done; destruct (m_models _ !! _); cbn; try done; by intros [= <- _].
  - intros e w. pose proof (load_values_reads el_ID m_eval_params m_eval_metrics e w) as Hl. unfold gbind, try, call.
    unfold gbind. by destruct (load_values _ _ _ e w) as [[?|?] ?].
  - intros e w b w'. unfold func, gbind, try, call. unfold gbind.
    destruct (load_values _ _ _ e w) as [[?|?] ?]; cbn; [|done]. by intros [= <- _].
Qed.
End Reading.

(** ** The statements of the managed half *)

Section Managed.
Context `{Collation} `{UuidText}.
Context (mg : bool) (o : string) (fs : list fact).

Lemma exec_insert_then {C} `{TableLaws C} (mk : Z -> Z -> Row C) (g : MLDB -> result ml_err MLDB) :
  (forall now t, r_OrgID (mk now t) = o /\ r_MLflowID (mk now t) = None /\ Forall (known fs) (refs (r_Content (mk now t))) /\
     (mg = true -> locked C = true -> r_Origin (mk now t) = "manual")) ->
  (forall now t d d', registry_ok d -> Forall (holds o d) fs -> tbl d !! r_ID (mk now t) = Some (mk now t) ->
     g d = Ok d' -> good mg o d d') ->
  esafe mg o fs (exec (fun now t d => and_then (insert_row (mk now t) d) g)).
Proof.
  intros Hmk Hg. apply exec_safe. intros now t d d'' Hok Hfs Hi. destruct (Hmk now t) as (Ho & Hn & Hx & Hm).
  unfold and_then in Hi. destruct (insert_row _ d) as [d'|] eqn:E; [|done].
  destruct (insert_row_good mg o _ _ _ E Hok Ho Hn) as [Hgood Hrow]; [|done|].
  - rewrite Forall_forall in Hx. intros x Hin. by eapply known_holds, Hx.
  - eapply good_trans; [exact Hgood|]. eapply Hg; [apply Hgood| |exact Hrow|exact Hi]. eapply facts_grow; [apply Hgood|done].
Qed.
Lemma exec_update_then {C} `{TableLaws C} orgID id ids (f : Z -> Z -> Row C -> Row C) (g : MLDB -> result ml_err MLDB) :
  orgID = o -> (forall now t, edit_ok fs ids (f now t)) -> may_update mg fs C id ->
  (forall d d', registry_ok d -> Forall (holds o d) fs -> g d = Ok d' -> good mg o d d') ->
  esafe mg o fs (exec (fun now t d => and_then (update_row orgID id ids (f now t) d) g)).
Proof.
  intros Ho He Hm Hg. apply exec_safe. intros now t d d'' Hok Hfs Hi. unfold and_then in Hi.
  destruct (update_row _ _ _ _ d) as [d'|] eqn:E; [|done].
  assert (good mg o d d') as Hgood by (by eapply (update_good _ _ fs)).
  eapply good_trans; [exact Hgood|]. eapply Hg; [apply Hgood| |done]. eapply facts_grow; [apply Hgood|done].
Qed.

Lemma origin_refers k id s d : Origin k id s ∈ fs -> Forall (holds o d) fs -> refers d o (k, id).
Proof. rewrite Forall_forall. intros Hin Hfs. destruct (Hfs _ Hin) as (b & Hb & Ho & _). by exists b. Qed.
Lemma in_facts f d : f ∈ fs -> Forall (holds o d) fs -> holds o d f.
Proof. rewrite Forall_forall. auto. Qed.

Lemma CreateMLDeployment_safe dep :
  r_OrgID dep = o -> Forall (known fs) (refs (r_Content dep)) -> esafe mg o fs (CreateMLDeployment dep).
Proof. intros Ho Hr. by apply (exec_insert _ _ fs (C := DeploymentData) (fun now _ => _)). Qed.
Lemma UpdateMLDeployment_safe dep : r_OrgID dep = o -> esafe mg o fs (UpdateMLDeployment dep).
Proof. intros Ho. apply (exec_update _ _ fs (C := DeploymentData)); [done| |done]. intros now t r. split; [done|]. intros x. by left. Qed.

Lemma CreateMLFinding_safe f :
  r_OrgID (f_Row f) = o -> Forall (known fs) (refs (r_Content (f_Row f))) ->
  Forall (fun id => known fs (KRun, id)) (f_RunIDs f) -> Forall (fun id => known fs (KEvaluation, id)) (f_EvaluationIDs f) ->
  esafe mg o fs (CreateMLFinding f).
Proof.
  rewrite !Forall_forall. intros Ho Hr Hrs Hes. apply (exec_insert_then (C := FindingData) (fun now _ => _)).
  { intros now _. split_and!; [done|done|by apply Forall_forall|done]. }
  intros now t d d' Hok Hfs Hrow Hl. eapply finding_links_good; [exact Hl|done| | |].
  - apply (refers_row _ _ _) in Hrow. cbn in Hrow. by rewrite Ho in Hrow.
  - intros x Hx. by apply (in_facts (InOrg KRun x)); [apply Hrs|].
  - intros x Hx. by apply (in_facts (InOrg KEvaluation x)); [apply Hes|].
Qed.
Lemma UpdateMLFinding_safe f s :
  r_OrgID (f_Row f) = o -> Origin KFinding (r_ID (f_Row f)) s ∈ fs ->
  Forall (known fs) (opt_ref KVersion (fi_VersionID (r_Content (f_Row f)))) ->
  Forall (fun id => known fs (KRun, id)) (f_RunIDs f) -> Forall (fun id => known fs (KEvaluation, id)) (f_EvaluationIDs f) ->
  esafe mg o fs (UpdateMLFinding f).
Proof.
  rewrite !Forall_forall. intros Ho Hs Hr Hrs Hes. apply (exec_update_then (C := FindingData)); [done| |done|].
  - intros now t r. split; [done|]. cbn. intros [k x]. autorewrite with refs. cbn. intros [E|[-> E]]; [by left; left|].
    right. split; [done|]. apply Hr. by apply opt_ref_elem.
  - intros d d' Hok Hfs Hl. eapply finding_links_good; [exact Hl|done|by eapply origin_refers| |].
    + intros x Hx. by apply (in_facts (InOrg KRun x)); [apply Hrs|].
    + intros x Hx. by apply (in_facts (InOrg KEvaluation x)); [apply Hes|].
Qed.

(** *** Models and versions *)

Lemma CreateMLModel_safe m :
  r_OrgID m = o -> Forall (known fs) (opt_ref KProject (md_ProjectID (r_Content m))) -> esafe mg o fs (CreateMLModel m).
Proof.
  intros Ho Hr. apply (exec_insert _ _ fs (C := ModelData) (fun now t => _)). intros now t.
  split_and!; [done|done| |done]. by apply Forall_app.
Qed.
Lemma UpdateMLModelInfo_safe m : r_OrgID m = o -> esafe mg o fs (UpdateMLModelInfo m).
Proof. intros Ho. apply (exec_update _ _ fs (C := ModelData)); [done| |done]. intros now t r. split; [done|]. intros x. by left. Qed.
Lemma UpdateMLModel_safe id actorID n : esafe mg o fs (UpdateMLModel o id actorID n).
Proof.
  apply statement_safe. intros t d d' Hok Hfs. apply (update_good mg o fs (C := ModelData)); try done.
  intros r. split; [done|]. intros x. by left.
Qed.
Lemma CreateMLModelVersion_safe v :
  r_OrgID v = o -> Forall (known fs) (refs (r_Content v)) -> esafe mg o fs (CreateMLModelVersion v).
Proof. intros Ho Hr. by apply (exec_insert _ _ fs (C := VersionData) (fun now t => _)). Qed.
Lemma SetMLModelVersionRun_safe id runID actorID :
  Forall (known fs) (opt_ref KRun runID) -> esafe mg o fs (SetMLModelVersionRun o id runID actorID).
Proof.
  rewrite Forall_forall. intros Hr. apply (exec_update _ _ fs (C := VersionData)); [done| |done].
  intros now t r. split; [done|]. cbn. intros [k x]. autorewrite with refs. cbn. intros [E|[-> E]]; [by left; left|].
  right. split; [by right|]. apply Hr. by apply opt_ref_elem.
Qed.

Lemma CreateVersionDeploymentUpdate_safe u from :
  du_OrgID u = o -> known fs (KVersion, du_VersionID u) -> du_FromStatus u = Some from ->
  du_ToStatus u ∈ allowedVersionTransitions from -> esafe mg o fs (CreateVersionDeploymentUpdate u).
Proof.
  intros Ho Hv Hfrom Hto. apply exec_safe. intros now t d d' [Hr Hi Hl Hfr Hfe] Hfs.
  destruct (forallb _ _) eqn:Ev; [|done]. destruct (m_updates d !! _) eqn:Eu; [done|].
  destruct (negb (_ && _)); [done|]. intros [= <-]. split.
  - split; try done; cbn. intros id u'. rewrite lookup_insert_Some. intros [[<- <-]|[_ Hu]]; [|by apply Hl].
    cbn. split_and!; [done| |by exists from]. rewrite Ho. apply (known_holds _ _ (KVersion, du_VersionID u) d Hfs Hv).
    eapply valid_elem; [exact Ev|]. cbn. do 2 right. left.
  - split; [| |done].
    + split; [intros k id b Hb; exists b; split; [done|apply same_row_refl]|]. cbn. by apply insert_subseteq.
    + intros o' Hne. unfold seen. cbn. f_equal. apply map_filter_insert_not'; [by cbn; rewrite Ho|]. intros u' Hu'. by rewrite Hu' in Eu.
Qed.

(** *** Experiments, datasets, artifacts *)

Lemma CreateMLExperiment_safe e :
  r_OrgID e = o -> Forall (known fs) (refs (r_Content e)) -> esafe mg o fs (CreateMLExperiment e).
Proof. intros Ho Hr. by apply (exec_insert _ _ fs (C := ExperimentData) (fun now t => _)). Qed.
Lemma UpdateMLExperiment_safe e :
  r_OrgID e = o -> Forall (known fs) (refs (r_Content e)) -> esafe mg o fs (UpdateMLExperiment e).
Proof.
  rewrite Forall_forall. intros Ho Hr. apply (exec_update _ _ fs (C := ExperimentData)); [done| |done].
  intros now t r. split; [done|]. cbn. intros [k x] Hx. right. split; [|by apply Hr].
  apply opt_ref_elem in Hx as [_ E]. apply elem_of_app. left. by apply opt_list_elem.
Qed.
Lemma CreateMLDataset_safe ds :
  r_OrgID ds = o -> r_Origin ds = "manual" -> Forall (known fs) (refs (r_Content ds)) -> esafe mg o fs (CreateMLDataset ds).
Proof. intros Ho Hm Hr. apply (exec_insert _ _ fs (C := DatasetData) (fun now t => _)). intros now t. by split_and!. Qed.
Lemma UpdateMLDataset_safe ds :
  r_OrgID ds = o -> Origin KDataset (r_ID ds) "manual" ∈ fs -> esafe mg o fs (UpdateMLDataset ds).
Proof.
  intros Ho Hm. apply (exec_update _ _ fs (C := DatasetData)); [done| |by intros ? ?].
  intros now t r. split; [done|]. intros x. by left.
Qed.
Lemma CreateMLArtifact_safe a :
  r_OrgID a = o -> r_Origin a = "manual" -> Forall (known fs) (refs (r_Content a)) -> esafe mg o fs (CreateMLArtifact a).
Proof. intros Ho Hm Hr. apply (exec_insert _ _ fs (C := ArtifactData) (fun now t => _)). intros now t. by split_and!. Qed.
Lemma UpdateMLArtifact_safe a :
  r_OrgID a = o -> Origin KArtifact (r_ID a) "manual" ∈ fs -> esafe mg o fs (UpdateMLArtifact a).
Proof.
  intros Ho Hm. apply (exec_update _ _ fs (C := ArtifactData)); [done| |by intros ? ?].
  intros now t r. split; [done|]. intros x. by left.
Qed.

(** *** Runs and evaluations *)

Lemma origin_of_row {C} `{TableLaws C} d (r : Row C) : 
  tbl d !! r_ID r = Some r -> r_OrgID r = o -> r_Origin r = "manual" -> holds o d (Origin (kind_of C) (r_ID r) "manual").
Proof. intros Hr Ho Hm. exists (summary r). cbn. by rewrite brief_tbl, lookup_fmap, Hr. Qed.

Lemma CreateMLRun_safe run :
  r_OrgID (ru_Row run) = o -> r_Origin (ru_Row run) = "manual" -> Forall (known fs) (refs (r_Content (ru_Row run))) ->
  esafe mg o fs (CreateMLRun run).
Proof.
  intros Ho Hm Hr. apply (exec_insert_then (C := RunData) (fun now t => _)); [intros now t; by split_and!|].
  intros now t d d' Hok Hfs Hrow Hs. pose proof (refers_row _ _ _ Hrow) as Hin. cbn in Hin. rewrite Ho in Hin.
  eapply run_values_good; [exact Hs|done|done|]. intros _. exact (origin_of_row d _ Hrow Ho Hm).
Qed.
Lemma UpdateMLRun_safe run :
  r_OrgID (ru_Row run) = o -> Origin KRun (r_ID (ru_Row run)) "manual" ∈ fs -> esafe mg o fs (UpdateMLRun run).
Proof.
  intros Ho Hm. apply (exec_update_then (C := RunData)); [done| |by intros ? ?|].
  - intros now t r. split; [done|]. intros x. by left.
  - intros d d' Hok Hfs Hs. eapply run_values_good; [exact Hs|done|by eapply origin_refers|]. intros _. by apply (in_facts _ d Hm).
Qed.
Lemma CreateMLEvaluation_safe e :
  r_OrgID (el_Row e) = o -> Forall (known fs) (refs (r_Content (el_Row e))) -> esafe mg o fs (CreateMLEvaluation e).
Proof.
  intros Ho Hr. apply (exec_insert_then (C := EvaluationData) (fun now t => _)); [by intros|].
  intros now t d d' Hok Hfs Hrow Hs. pose proof (refers_row _ _ _ Hrow) as Hin. cbn in Hin. rewrite Ho in Hin.
  by eapply eval_values_good.
Qed.
Lemma UpdateMLEvaluation_safe e s :
  r_OrgID (el_Row e) = o -> Origin KEvaluation (r_ID (el_Row e)) s ∈ fs -> esafe mg o fs (UpdateMLEvaluation e).
Proof.
  intros Ho Hm. apply (exec_update_then (C := EvaluationData)); [done| |done|].
  - intros now t r. split; [done|]. intros x. by left.
  - intros d d' Hok Hfs Hs. eapply eval_values_good; [exact Hs|done|by eapply origin_refers].
Qed.

(** A statement over several rows of one table. *)
Lemma update_where_edits {C} `{TableLaws C} d (hit : Row C -> bool) (f : Row C -> Row C) :
  registry_ok d ->
  (forall r, hit r = true -> r_OrgID r = o /\ same_row (summary r) (summary (f r)) /\
     (forall x, x ∈ refs (r_Content (f r)) -> x ∈ refs (r_Content r) \/ refers d o x) /\
     (mg = true -> locked C = true -> r_Origin r = "manual")) ->
  edits mg o d (update_where hit f (tbl d)).
Proof.
  intros Hok Hf id. rewrite lookup_update_where. destruct (tbl d !! id) as [r|] eqn:Hr; [|by left]. cbn.
  destruct (hit r) eqn:Eh; [|by left]. destruct (Hf r Eh) as (Ho & Hs & Hx & Hm). right. exists (f r).
  destruct (table_row_ok _ _ _ Hok Hr) as [Hid Hrefs]. pose proof Hs as (Hs1 & Hs2 & _ & Hs4 & _). cbn in Hs1, Hs2, Hs4.
  split_and!; [done|congruence|congruence| |by intros r0 [= <-]|intros; rewrite Hs4; auto].
  apply Forall_forall. intros x Hin. rewrite Ho in Hrefs. rewrite Forall_forall in Hrefs. destruct (Hx x Hin); auto.
Qed.

Lemma SetMLEvaluationsVersion_safe versionID ids actorID :
  known fs (KVersion, versionID) -> esafe mg o fs (SetMLEvaluationsVersion o versionID ids actorID).
Proof.
  intros Hv. apply exec_safe. intros now t d d' Hok Hfs.
  destruct (forallb _ _) eqn:Ev; [|done]. cbn [negb]. destruct (_ && _); [done|]. intros [= <-].
  refine (edits_good (C := EvaluationData) mg o d _ Hok _ _); [|intros _; by apply unique_update_where].
  refine (update_where_edits (C := EvaluationData) d _ _ Hok _).
  intros r Hr. apply andb_true_iff in Hr as [Hr _]. apply andb_true_iff in Hr as [Hr%String.eqb_eq _].
  split_and!; [done|done| |done]. cbn. intros [k x]. autorewrite with refs. intros [E|[E|[]]]; [|left; right; left; done].
  right. simplify_eq. apply (known_holds _ _ (KVersion, versionID) d Hfs Hv).
  eapply valid_elem; [exact Ev|]. right. left.
Qed.
End Managed.

(** ** The statements of the synchronisation *)

Section Syncing.
Context `{Collation} `{UuidText}.
Context (mg : bool) (o : string).

Definition unlocked (C : Type) `{Refs C} : Prop := mg = true -> locked C = false.

(** What an upsert does: a good step, and its row is in the organization. *)
Definition upserts (k : kind) (d : MLDB) (r : result ml_err Upserted) : Prop :=
  forall u, r = Ok u -> good mg o d (us_DB u) /\ refers (us_DB u) o (k, us_ID u).

Lemma upsert_row_good {C} `{TableLaws C} `{EqDecision C} k t mlflowID origin actor key (new : C) merge d :
  kind_of C = k -> registry_ok d -> unlocked C -> (forall r, key r = true -> r_OrgID r = o) ->
  (forall m r, kind_of C <> KDataset -> mlflowID = Some m -> r_OrgID r = o -> r_MLflowID r = Some m -> key r = true) ->
  Forall (refers d o) (refs new) ->
  (forall old x, x ∈ refs (merge old) -> x ∈ refs old \/ x ∈ refs new) ->
  upserts k d (upsert_row t o mlflowID origin actor key new merge d).
Proof.
  intros <- Hok Hl Hkey Hids Hnew Hmerge u Hu. unfold upsert_row in Hu. destruct (forallb _ _); [|done]. cbn [negb] in Hu.
  assert (forall id r t, set_tbl d (<[id := r]> (tbl d)) = t -> tbl (C := C) t !! id = Some r) as Hset
    by (intros id r t' <-; rewrite tbl_set; apply lookup_insert_eq).
  rewrite Forall_forall in Hnew. destruct (select_one key (tbl d)) as [r|] eqn:Er.
  - apply select_one_Some in Er as [[id Hr] Hk]. specialize (Hkey r Hk).
    destruct (table_row_ok _ _ _ Hok Hr) as [<- Hrefs]. rewrite Hkey, Forall_forall in Hrefs.
    case_bool_decide; [|destruct (negb _); [done|]]; injection Hu as <-; cbn; (split; [|rewrite <-Hkey]).
    + by apply good_refl.
    + by apply refers_row.
    + apply edits_good; [done| |intros _; by apply (unique_edited _ _ r)]. refine (edits_insert mg o d (with_content _ _ r) _ Hkey _ _).
      * intros r0 Hr0. cbn in Hr0. by simplify_eq.
      * rewrite Forall_forall. cbn. intros x Hx. destruct (Hmerge _ _ Hx); auto.
      * intros Hmg Hlk. by rewrite Hl in Hlk.
    + eapply (refers_row _ _ (with_content _ _ r)). rewrite tbl_set. apply lookup_insert_eq.
  - destruct (negb _); [done|]. injection Hu as <-. cbn.
    pose proof (gen_random_uuid_new (dom (tbl (C := C) d))) as Hfresh. apply not_elem_of_dom in Hfresh. split.
    + apply edits_good; [done| |].
      2: { intros Hk. apply unique_new. cbn. intros m i r' -> Hr' Ho Hm. rewrite select_one_None in Er.
        specialize (Er i r' Hr'). by rewrite (Hids m r') in Er. }
      refine (edits_insert mg o d (mkRow _ _ _ _ _ _) _ _ _ _); cbn.
      * intros r0 Hr0. by rewrite Hr0 in Hfresh.
      * done.
      * by apply Forall_forall.
      * intros Hmg Hlk. by rewrite Hl in Hlk.
    + eapply (refers_row _ _ (mkRow _ o _ _ _ _)). rewrite tbl_set. apply lookup_insert_eq.
Qed.

Lemma upsert_all_good {I} (k : kind) (f : I -> MLDB -> result ml_err Upserted) l c d c' d' :
  (forall i d, registry_ok d -> upserts k d (f i d)) -> registry_ok d -> upsert_all f l c d = Ok (c', d') -> good mg o d d'.
Proof.
  intros Hf. revert c d. induction l as [|i l IH]; intros c d Hok Hu; cbn in Hu.
  - injection Hu as _ <-. by apply good_refl.
  - destruct (f i d) as [u|] eqn:E; [|done]. destruct (Hf i d Hok u E) as [Hg _].
    eapply good_trans; [exact Hg|]. eapply IH; [apply Hg|done].
Qed.
Lemma upsert_tx_safe {I} fs (k : kind) (f : Z -> I -> MLDB -> result ml_err Upserted) l :
  (forall t i d, registry_ok d -> upserts k d (f t i d)) -> esafe mg o fs (upsert_tx f l).
Proof.
  intros Hf. apply ml_op_safe. intros t d Hok _. destruct (upsert_all _ _ _ d) as [[c d']|] eqn:E; [|by apply good_refl].
  eapply (upsert_all_good k); [apply Hf|done|exact E].
Qed.

(** *** Parents *)

Lemma resolveMLID_refers {C} `{TableLaws C} mlflowID id d :
  registry_ok d -> resolveMLID (C := C) o mlflowID d = Some id -> refers d o (kind_of C, id).
Proof.
  unfold resolveMLID. destruct (select_one _ _) as [r|] eqn:Er; [|done]. intros Hok [= <-].
  apply select_one_Some in Er as [[i Hr] Hp]. unfold of_mlflow in Hp. rewrite !andb_true_iff in Hp.
  destruct Hp as [[Ho%String.eqb_eq _] _]. destruct (table_row_ok _ _ _ Hok Hr) as [-> _]. rewrite <-Ho. by apply refers_row.
Qed.
Lemma parent_refers {C} `{TableLaws C} k kd mlflowID id d :
  kind_of C = k -> registry_ok d -> parent (C := C) kd o mlflowID d = Ok id -> refers d o (k, id).
Proof.
  unfold parent. destruct (resolveMLID _ _ _) eqn:E; [|done]. intros <- Hok [= <-]. by eapply resolveMLID_refers.
Qed.
Lemma optional_refers {C} `{TableLaws C} k m d :
  kind_of C = k -> registry_ok d -> Forall (refers d o) (opt_ref k (resolve_optional (C := C) o m d)).
Proof.
  intros <- Hok. apply Forall_forall. intros [k id] [Hk E]%opt_ref_elem. cbn in *. subst k. unfold resolve_optional in E.
  destruct m as [s|]; [|done]. destruct (str_empty s); [done|]. by eapply resolveMLID_refers.
Qed.
Lemma project_refers name p d :
  registry_ok d -> resolveProjectID o name d = Ok p -> Forall (refers d o) (opt_ref KProject p).
Proof.
  unfold resolveProjectID. intros Hok Hp. apply Forall_forall. intros [k id] [Hk E]%opt_ref_elem. cbn in *. subst k p.
  destruct (str_empty name); [done|]. destruct (select_one _ _) as [r|] eqn:Er; [|done]. injection Hp as <-.
  apply select_one_Some in Er as [[i Hr] Hp]. unfold in_org in Hp. rewrite !andb_true_iff in Hp.
  destruct Hp as [[Ho%String.eqb_eq _] _]. change (tbl (C := ProjectData) d !! i = Some r) in Hr.
  destruct (table_row_ok _ _ _ Hok Hr) as [-> _]. rewrite <-Ho. exact (refers_row d i r Hr).
Qed.
Lemma or_else_ref k x n old : x ∈ opt_ref k (or_else n old) -> x ∈ opt_ref k old \/ x ∈ opt_ref k n.
Proof. destruct n; cbn; auto. Qed.

Lemma of_mlflow_ids {C} i m (r : Row C) : Some i = Some m -> r_OrgID r = o -> r_MLflowID r = Some m -> of_mlflow o i r = true.
Proof. intros [= ->] <- Hm. unfold of_mlflow. rewrite String.eqb_refl. by apply bool_decide_eq_true. Qed.
Lemma of_mlflow_org {C} i (r : Row C) : of_mlflow o i r = true -> r_OrgID r = o.
Proof. unfold of_mlflow. by intros [E%String.eqb_eq _]%andb_true_iff. Qed.

(** *** The eight calls *)

Lemma mark_synced_good name t d : registry_ok d -> good mg o d (mark_synced o name t d).
Proof.
  intros Hok. refine (edits_good (C := ProjectData) mg o d _ Hok _ _); [|intros _; by apply unique_update_where].
  refine (update_where_edits (C := ProjectData) mg o d _ _ Hok _).
  intros r [Ho%String.eqb_eq _]%andb_true_iff. split_and!; [done|done|by left|done].
Qed.
Lemma upsert_project_upserts actorID t p d : registry_ok d -> upserts KProject d (upsert_project o actorID t p d).
Proof.
  intros Hok u Hu. unfold upsert_project in Hu. destruct (resolve_team o p d) as [c|]; [|done].
  destruct (upsert_row _ _ _ _ _ _ _ _ d) as [u'|] eqn:E; [|done]. injection Hu as <-. cbn.
  assert (upserts KProject d (upsert_row t o None "" actorID (project_named o (pj_Name c)) c (fun _ => c) d)) as Hup.
  { apply (upsert_row_good (C := ProjectData)); [done..| |done|constructor|by right]. by intros r [Ho%String.eqb_eq _]%andb_true_iff. }
  destruct (Hup u' E) as [Hg Hr].
  pose proof (mark_synced_good (pj_Name c) t (us_DB u') ltac:(apply Hg)) as Hm. split; [by eapply good_trans|].
    eapply refers_grows; [apply Hm|done].
Qed.
Lemma UpsertMLProjects_safe fs actorID l : esafe mg o fs (UpsertMLProjects o actorID l).
Proof. apply (upsert_tx_safe fs KProject). intros t i d. apply upsert_project_upserts. Qed.

Lemma UpsertMLModels_safe fs actorID l : esafe mg o fs (UpsertMLModels o actorID l).
Proof.
  apply (upsert_tx_safe fs KModel). intros t m d Hok u Hu. unfold upsert_model in Hu.
  destruct (resolveProjectID _ _ _) as [p|e] eqn:Ep; [|by destruct e]. cbn in Hu.
  revert u Hu. apply (upsert_row_good (C := ModelData)); [done..| | | |].
  - intros r. apply of_mlflow_org.
  - intros m' r _. apply of_mlflow_ids.
  - apply Forall_app. split; [by eapply project_refers|]. by apply (optional_refers (C := VersionData)).
  - intros old x. cbn. rewrite !elem_of_app. intros [E|E]; apply or_else_ref in E as [?|?]; tauto.
Qed.
Lemma UpsertMLModelVersions_safe fs actorID l : esafe mg o fs (UpsertMLModelVersions o actorID l).
Proof.
  apply (upsert_tx_safe fs KVersion). intros t v d Hok u Hu. unfold upsert_version in Hu.
  destruct (parent _ _ _ _) as [m|e] eqn:Em; [|done].
  revert u Hu. apply (upsert_row_good (C := VersionData)); [done..| | | |].
  - intros r. apply of_mlflow_org.
  - intros m' r _. apply of_mlflow_ids.
  - constructor; [exact (parent_refers (C := ModelData) _ _ _ _ _ eq_refl Hok Em)|]. by apply (optional_refers (C := RunData)).
  - intros old x. cbn. rewrite !elem_of_cons. intros [E|E]; [by right; left|]. apply or_else_ref in E as [?|?]; tauto.
Qed.
Lemma UpsertMLExperiments_safe fs actorID l : esafe mg o fs (UpsertMLExperiments o actorID l).
Proof.
  apply (upsert_tx_safe fs KExperiment). intros t m d Hok u Hu. unfold upsert_experiment in Hu.
  destruct (resolveProjectID _ _ _) as [p|e] eqn:Ep; [|by destruct e]. cbn in Hu.
  revert u Hu. apply (upsert_row_good (C := ExperimentData)); [done..| | | |].
  - intros r. apply of_mlflow_org.
  - intros m' r _. apply of_mlflow_ids.
  - by eapply project_refers.
  - intros old x. apply or_else_ref.
Qed.
Lemma UpsertMLArtifacts_safe fs actorID l : mg = false -> esafe mg o fs (UpsertMLArtifacts o actorID l).
Proof.
  intros Hm. apply (upsert_tx_safe fs KArtifact). intros t v d Hok u Hu. unfold upsert_artifact in Hu.
  destruct (parent _ _ _ _) as [m|e] eqn:Em; [|done].
  revert u Hu. apply (upsert_row_good (C := ArtifactData)); [done|done|by intros ?; congruence| | | |by right].
  - intros r. apply of_mlflow_org.
  - intros m' r _. apply of_mlflow_ids.
  - constructor; [|done]. exact (parent_refers (C := RunData) _ _ _ _ _ eq_refl Hok Em).
Qed.
Lemma UpsertMLDatasets_safe fs actorID l : mg = false -> esafe mg o fs (UpsertMLDatasets o actorID l).
Proof.
  intros Hm. apply (upsert_tx_safe fs KDataset). intros t v d Hok u Hu. unfold upsert_dataset in Hu.
  destruct (parent _ _ _ _) as [m|e] eqn:Em; [|done].
  revert u Hu. apply (upsert_row_good (C := DatasetData)); [done|done|by intros ?; congruence| | | |by left].
  - intros r [E _]%andb_true_iff. by eapply of_mlflow_org.
  - done.
  - constructor; [|done]. exact (parent_refers (C := ExperimentData) _ _ _ _ _ eq_refl Hok Em).
Qed.

Lemma with_entries_upserts k d r set :
  upserts k d r -> (forall u d' b, r = Ok u -> set (us_ID u) (us_DB u) = Ok (d', b) -> good mg o (us_DB u) d') ->
  upserts k d (with_entries r set).
Proof.
  intros Hr Hset u. unfold with_entries. destruct r as [u0|]; [|done]. destruct (Hr u0 eq_refl) as [Hg Hrow].
  destruct (set _ _) as [[d' b]|] eqn:E; [|done]. intros [= <-]. cbn.
  pose proof (Hset u0 d' b eq_refl E) as Hg'. split; [by eapply good_trans|]. eapply refers_grows; [apply Hg'|done].
Qed.

Lemma UpsertMLRuns_safe fs actorID l : mg = false -> esafe mg o fs (UpsertMLRuns o actorID l).
Proof.
  intros Hm. apply (upsert_tx_safe fs KRun). intros t i d Hok. unfold upsert_run.
  destruct (parent _ _ _ _) as [m|e] eqn:Em; [|done]. destruct (ri_StartedAt i) as [s|]; [|done]. cbn.
  match goal with |- upserts _ _ (with_entries ?r _) => assert (upserts KRun d r) as Hrow end.
  { apply (upsert_row_good (C := RunData)); [done|done|by intros ?; congruence| | | |by right].
    - intros r. apply of_mlflow_org.
    - intros m' r _. apply of_mlflow_ids.
    - constructor; [|done]. exact (parent_refers (C := ExperimentData) _ _ _ _ _ eq_refl Hok Em). }
  apply with_entries_upserts; [done|]. intros u d' b Hu Hs. destruct (Hrow u Hu) as [Hg Hin].
  unfold run_entries_changed in Hs. destruct (set_run_entries _ _ _ _ _) eqn:E; [|done]. injection Hs as <- _.
  eapply run_values_good; [exact E|apply Hg|done|by rewrite Hm].
Qed.
Lemma UpsertMLEvaluations_safe fs actorID l : esafe mg o fs (UpsertMLEvaluations o actorID l).
Proof.
  apply (upsert_tx_safe fs KEvaluation). intros t i d Hok. unfold upsert_evaluation.
  destruct (parent (C := VersionData) _ _ _ _) as [v|e] eqn:Ev; [|done].
  destruct (parent (C := ExperimentData) _ _ _ _) as [m|e] eqn:Em; [|done]. destruct (li_StartedAt i) as [s|]; [|done]. cbn.
  match goal with |- upserts _ _ (with_entries ?r _) => assert (upserts KEvaluation d r) as Hrow end.
  { apply (upsert_row_good (C := EvaluationData)); [done|done|done| | | |by right].
    - intros r. apply of_mlflow_org.
    - intros m' r _. apply of_mlflow_ids.
    - repeat constructor; [exact (parent_refers (C := VersionData) _ _ _ _ _ eq_refl Hok Ev)|].
      exact (parent_refers (C := ExperimentData) _ _ _ _ _ eq_refl Hok Em). }
  apply with_entries_upserts; [done|]. intros u d' b Hu Hs. destruct (Hrow u Hu) as [Hg Hin].
  unfold eval_entries_changed in Hs. destruct (set_eval_entries _ _ _ _ _) eqn:E; [|done]. injection Hs as <- _.
  eapply eval_values_good; [exact E|apply Hg|done].
Qed.

(** *** Projects one by one *)

Lemma put_project_good actorID c t d id d' :
  registry_ok d -> put_project o actorID c t d = Ok (id, d') -> good mg o d d'.
Proof.
  intros Hok. unfold put_project. destruct (forallb _ _); [|done]. cbn [negb]. destruct (negb _); [done|].
  destruct (select_one _ _) as [r|] eqn:Er; intros [= <- <-].
  - apply select_one_Some in Er as [[i Hr] [Ho%String.eqb_eq _]%andb_true_iff].
    change (tbl (C := ProjectData) d !! i = Some r) in Hr. destruct (table_row_ok _ _ _ Hok Hr) as [<- _].
    refine (edits_good (C := ProjectData) mg o d _ Hok _ _); [|intros _; by apply (unique_edited _ _ r)].
    refine (edits_insert mg o d (with_content _ _ r) _ Ho _ _); try done.
    intros r0 Hr0. change (tbl (C := ProjectData) d !! r_ID r = Some r0) in Hr0. rewrite Hr in Hr0. by injection Hr0 as <-.
  - pose proof (gen_random_uuid_new (dom (m_projects d))) as Hfresh. apply not_elem_of_dom in Hfresh.
    refine (edits_good (C := ProjectData) mg o d _ Hok _ _); [|intros _; by apply unique_new].
    refine (edits_insert mg o d (mkRow _ _ _ _ _ _) _ eq_refl _ _); try done.
    cbn. intros r0 Hr0. by rewrite Hr0 in Hfresh.
Qed.
Lemma CreateMLProject_safe fs actorID p : esafe mg o fs (CreateMLProject o actorID p).
Proof.
  apply safe_func. apply safe_bind; [apply safe_try, reads_safe, ml_op_reads|]. intros c.
  apply safe_bind; [|intros id; apply safe_bind; [apply safe_try, reads_safe, ml_op_reads|intros; apply safe_ret]].
  apply safe_try, ml_op_safe. intros t d Hok _. destruct (put_project _ _ _ _ _) as [[id d']|] eqn:E; [|by apply good_refl].
  by eapply put_project_good.
Qed.
Lemma UpdateMLProject_safe fs id actorID p : esafe mg o fs (UpdateMLProject o id actorID p).
Proof.
  apply safe_func. apply safe_bind; [apply safe_try, reads_safe, ml_op_reads|]. intros c.
  apply safe_bind; [|intros _; apply safe_bind; [apply safe_try, reads_safe, ml_op_reads|intros; apply safe_ret]].
  apply safe_try, statement_safe. intros t d d' Hok Hfs. unfold update_project. destruct (_ && _ && _); [done|].
  apply (update_good mg o fs (C := ProjectData)); try done. intros r. split; [done|]. by left.
Qed.
Lemma DeleteMLProject_safe fs id actorID : esafe mg o fs (DeleteMLProject o id actorID).
Proof.
  apply statement_safe. intros t d d' Hok Hfs. apply (update_good mg o fs (C := ProjectData)); try done.
  intros r. split; [done|]. by left.
Qed.
Lemma RestoreMLProjects_safe fs actorID names : esafe mg o fs (RestoreMLProjects o actorID names).
Proof.
  apply ml_op_safe. intros t d Hok _. destruct (forallb _ _); [|by apply good_refl]. cbn.
  refine (edits_good (C := ProjectData) mg o d _ Hok _ _); [|intros _; by apply unique_update_where].
  refine (update_where_edits (C := ProjectData) mg o d _ _ Hok _).
  intros r [[Ho%String.eqb_eq _]%andb_true_iff _]%andb_true_iff. split_and!; [done|done|by left|done].
Qed.
End Syncing.

(** ** The handlers *)

#[local] Arguments learned : simpl never.

Section Handlers.
Context `{Collation} `{UuidText} `{UuidGen} `{UnicodeCase} `{Presigner}.
Context (o : string).
#[local] Abbreviation W := (World MLDB).

Section Calls.
Context (mg : bool) (fs : list fact).

Lemma authorize_safe {A} ctx (f : Principal -> Go W MLReply A) :
  (forall p, safe mg o fs (f p)) -> safe mg o fs (p <- authorizeOrg ctx o ;; f p).
Proof.
  intros Hf. apply safe_bind; [|done]. apply safe_bind; [apply safe_non_nil|]. intros p.
  apply safe_bind; [apply safe_return_if|]. intros _. apply safe_ret.
Qed.
Lemma uuid_new_safe {A} (k : string -> Go W MLReply A) : (forall id, safe mg o fs (k id)) -> safe mg o fs (uuid_new k).
Proof. intros Hk. apply safe_bind; [apply safe_try, reads_safe, uuid_reads|done]. Qed.
Lemma answer_safe {A} st (m : MLEff (option A)) f : reads m -> safe mg o fs (answer st m f).
Proof. intros Hm. apply safe_bind; [by apply safe_try, reads_safe|]. intros x. apply safe_ret. Qed.
Lemma answer_artifact_safe st m : reads m -> safe mg o fs (answer_artifact st m).
Proof.
  intros Hm. apply safe_bind; [by apply safe_try, reads_safe|]. intros x. apply safe_bind; [apply safe_non_nil|]. intros r.
  apply safe_ret.
Qed.
Lemma finds_reads {A C} `{MLTable C} (m : MLEff (option A)) id (row : A -> Row C) : finds o m id row -> reads m.
Proof. intros Hm w. apply Hm. Qed.
Lemma manual_safe {C A} (r : Row C) msg (m : Go W MLReply A) :
  (r_Origin r = "manual" -> safe mg o fs m) -> safe mg o fs (manual r msg ;;; m).
Proof. intros Hm. apply safe_guard. intros Hr. apply Hm. by apply negb_false_iff, String.eqb_eq in Hr. Qed.
End Calls.

Lemma safe_assoc mg fs {R A B D} (m : Go W R A) (g : A -> Go W R B) (f : B -> Go W R D) :
  safe mg o fs (gbind m (fun a => gbind (g a) f)) -> safe mg o fs (gbind (gbind m g) f).
Proof. intros Hm w Hok Hfs. specialize (Hm w Hok Hfs). unfold gbind in *. by destruct (m w) as [[r|a] w']. Qed.
Lemma safe_mono mg fs fs' {R A} (m : Go W R A) : fs ⊆ fs' -> safe mg o fs m -> safe mg o fs' m.
Proof. intros Hs Hm w Hok Hfs. apply Hm; [done|]. rewrite Forall_forall in *. auto. Qed.

(** All of a list, one by one. *)
Lemma ensure_all {A C R} `{TableLaws C} mg k (find : string -> MLEff (option A)) (row : A -> Row C) (msg : string -> string) ids :
  kind_of C = k -> (forall id, finds o (find id) id row) -> forall fs (f : unit -> Go W MLReply R),
  safe mg o (map (InOrg k) ids ++ fs)%list (f tt) ->
  safe mg o fs (u <- gfor ids (fun id => _ <- ensure (find id) (msg id) ;; gret tt) ;; f u).
Proof.
  intros <- Hfind. induction ids as [|id ids IH]; intros fs f Hf; [exact Hf|]. cbn.
  apply safe_assoc, safe_assoc. apply (safe_ensure _ _ fs _ id row); [done|]. intros a _ _.
  apply (IH (learned id (row a) ++ fs)%list). eapply safe_mono; [|exact Hf].
  unfold learned. set_solver.
Qed.
(** One that may be left out; an empty id stands for none. *)
Lemma ensure_optional {A C R} `{TableLaws C} mg k (m : string -> MLEff (option A)) (row : A -> Row C) msg (v : option string) fs
    (f : unit -> Go W MLReply R) :
  kind_of C = k -> (forall id, finds o (m id) id row) ->
  safe mg o (map (InOrg k) (opt_list v) ++ fs)%list (f tt) ->
  safe mg o fs (u <- match v with
                     | Some v => if str_empty v then gret tt else _ <- ensure (m v) msg ;; gret tt
                     | None => gret tt
                     end ;; f u).
Proof.
  intros <- Hfind Hf. destruct v as [v|]; [|exact Hf]. cbn in Hf. destruct (str_empty v) eqn:Ev.
  - apply str_empty_true in Ev as ->. apply (safe_learn _ _ _ _ _ (fun _ => True) (fun _ => [InOrg (kind_of C) ""]));
      [apply safe_ret| |by intros []]. intros w [] w' _ _ _. split; [done|]. constructor; [by intros ?|constructor].
  - apply safe_assoc. apply (safe_ensure _ _ fs _ v row); [done|]. intros a _ _. eapply safe_mono; [|exact Hf].
    unfold learned. set_solver.
Qed.

Lemma links_of_elem id x links : x ∈ links_of id links -> (id, x) ∈ links.
Proof.
  unfold links_of, order_by. rewrite sort_stable_elem, list_elem_of_omap. intros ([i y] & Hin & Hx).
  cbn in Hx. destruct (String.eqb_spec i id); [|done]. apply elem_of_elements in Hin. by simplify_eq.
Qed.
Lemma GetMLFinding_links id w f w' :
  GetMLFinding o id w = (Ok (Some f), w') ->
  f_RunIDs f = links_of (r_ID (f_Row f)) (m_finding_runs (w_db w)) /\
  f_EvaluationIDs f = links_of (r_ID (f_Row f)) (m_finding_evals (w_db w)).
Proof.
  unfold GetMLFinding. intros Hf. unfold func, gbind, try, call in Hf. unfold gbind in Hf.
  pose proof (get_finds o (C := FindingData) id w) as [Hd _].
  destruct (get o id w) as [[[r|]|] w1]; cbn in *; [|done|done].
  destruct (ml_op (fun _ d => (Ok (links_of (r_ID r) (m_finding_runs d)), d)) w1) as [[rs|] w2] eqn:E2; cbn in *; [|done].
  destruct (ml_op (fun _ d => (Ok (links_of (r_ID r) (m_finding_evals d)), d)) w2) as [[es|] w3] eqn:E3; cbn in *; [|done].
  injection Hf as <- <-. cbn. pose proof (ml_op_reads (fun _ d => Ok (links_of (r_ID r) (m_finding_runs d))) w1) as Hd2.
  cbn beta in Hd2. rewrite E2 in Hd2. cbn in Hd2. unfold ml_op, db_op in E2, E3. rewrite <-Hd. rewrite <-Hd2 at 2.
  destruct (w_faults w1) as [|[] ?]; [|done|]; destruct (w_faults w2) as [|[] ?]; try done; cbn in *; by simplify_eq/=.
Qed.
Lemma existing_finding mg fs {B} id (f : Finding -> Go W MLReply B) :
  (forall a, r_ID (f_Row a) = id -> r_OrgID (f_Row a) = o ->
     safe mg o (learned id (f_Row a) ++ map (InOrg KRun) (f_RunIDs a) ++ map (InOrg KEvaluation) (f_EvaluationIDs a) ++ fs)%list (f a)) ->
  safe mg o fs (a <- existing (GetMLFinding o id) ;; f a).
Proof.
  intros Hf. apply (safe_learn _ _ _ _ _ (fun a => r_ID (f_Row a) = id /\ r_OrgID (f_Row a) = o)
    (fun a => learned id (f_Row a) ++ map (InOrg KRun) (f_RunIDs a) ++ map (InOrg KEvaluation) (f_EvaluationIDs a))%list).
  - apply safe_bind; [|intros x; apply safe_non_nil]. apply safe_try, reads_safe. intros w. apply GetMLFinding_finds.
  - intros w a w' Hok _ Hw. unfold existing, try, gbind, call, non_nil, greturn, gret in Hw.
    destruct (GetMLFinding_finds o id w) as [Hd Hl].
    destruct (GetMLFinding o id w) as [[[x|]|] w1] eqn:E; cbn in Hw, Hd; [|done|done]. injection Hw as -> ->. rewrite Hd.
    pose proof (Hl a w' eq_refl) as Hlive. destruct (live_row_learned _ _ _ _ Hok Hlive) as [[Hid Ho] Hlearned].
    split; [done|]. apply live_row_Some in Hlive as [Hrow _]. destruct (GetMLFinding_links _ _ _ _ E) as [-> ->].
    apply Forall_app. split; [done|]. rewrite Hid. apply Forall_app.
    assert (forall k x, linked (w_db w) k (id, x) -> holds o (w_db w) (InOrg k x)) as Hlink.
    { intros k x (b & Hb & Hr) _. cbn in Hb, Hr. change (tbl (C := FindingData) (w_db w) !! id = Some (f_Row a)) in Hrow.
      cbn in Hrow. rewrite lookup_fmap, Hrow in Hb. injection Hb as <-. cbn in Hr. by rewrite Ho in Hr. }
    split; apply Forall_map, Forall_forall; intros x Hx%links_of_elem; apply Hlink.
    + by apply (ok_runs _ Hok (id, x)).
    + by apply (ok_evals _ Hok (id, x)).
  - intros a [? ?]. rewrite <-!app_assoc. by apply Hf.
Qed.

(** *** One by one *)

Lemma known_list fs k ids : map (InOrg k) ids ⊆ fs -> Forall (fun id => known fs (k, id)) ids.
Proof. intros Hs. apply Forall_forall. intros x Hx. apply Hs, list_elem_of_fmap. by exists x. Qed.
Lemma known_opt fs k v : map (InOrg k) (opt_list v) ⊆ fs -> Forall (known fs) (opt_ref k v).
Proof. intros Hs. by apply Forall_map, known_list. Qed.
Lemma known_refs fs l : map (fun x => InOrg x.1 x.2) l ⊆ fs -> Forall (known fs) l.
Proof. intros Hs. apply Forall_forall. intros x Hx. apply Hs, list_elem_of_fmap. by exists x. Qed.

Ltac solve_known :=
  unfold learned; cbn;
  repeat match goal with
         | |- Forall _ (_ ++ _) => apply Forall_app; split
         | |- Forall _ (_ :: _) => constructor
         | |- Forall _ [] => constructor
         | |- Forall _ (opt_ref _ _) => apply known_opt
         | |- Forall (fun id => known _ (_, id)) _ => apply known_list
         end;
  unfold known; cbn; try set_solver.

(** Walks a handler up to the statement it runs. *)
Ltac safe_step :=
  cbv zeta;
  lazymatch goal with
  | |- esafe _ _ _ (func _) => apply safe_func
  | |- safe _ _ _ (gbind (authorizeOrg _ _) _) => apply authorize_safe; intros ?
  | |- safe _ _ _ (gbind (decode _) _) => apply safe_bind; [apply safe_non_nil|intros ?]
  | |- safe _ _ _ (gbind (non_nil _ _) _) => apply safe_bind; [apply safe_non_nil|intros ?]
  | |- safe _ _ _ (gbind (return_if _ _) _) => apply safe_guard; intros ?
  | |- safe _ _ _ (gbind (one_of _ _ _) _) => apply safe_guard; intros ?
  | |- safe _ _ _ (gbind (in_order _ _) _) => apply safe_guard; intros ?
  | |- safe _ _ _ (gbind (one_of_opt _ ?x _) _) =>
      apply safe_bind; [destruct x; [apply safe_return_if|apply safe_ret]|intros ?]
  | |- safe _ _ _ (gbind (manual _ _) _) => apply manual_safe; let Hm := fresh in intros Hm; rewrite ?Hm
  | |- safe _ _ ?fs (gbind (existing (GetMLRun _ ?i)) _) =>
      apply (safe_existing _ _ fs (GetMLRun o i) i ru_Row); [apply GetMLRun_finds|intros ? ? ?]
  | |- safe _ _ ?fs (gbind (existing (GetMLEvaluation _ ?i)) _) =>
      apply (safe_existing _ _ fs (GetMLEvaluation o i) i el_Row); [apply GetMLEvaluation_finds|intros ? ? ?]
  | |- safe _ _ ?fs (gbind (existing (GetMLFinding _ _)) _) => apply existing_finding; intros ? ? ?
  | |- safe _ _ ?fs (gbind (existing (_ _ ?i)) _) =>
      apply (safe_existing _ _ fs _ i (fun r => r)); [apply get_finds|intros ? ? ?]
  | |- safe _ _ ?fs (gbind (ensure (GetMLModelVersion _ ?i) _) _) =>
      apply (safe_ensure _ _ fs (GetMLModelVersion o i) i mv_Row); [apply GetMLModelVersion_finds|intros ? ? ?]
  | |- safe _ _ ?fs (gbind (ensureVersionInOrg _ ?i) _) =>
      apply (safe_ensure _ _ fs (GetMLModelVersion o i) i mv_Row); [apply GetMLModelVersion_finds|intros ? ? ?]
  | |- safe _ _ ?fs (gbind (ensureModelInOrg _ ?i) _) =>
      apply (safe_ensure _ _ fs (GetMLModel o i) i (fun r => r)); [apply get_finds|intros ? ? ?]
  | |- safe _ _ ?fs (gbind (ensureProjectInOrg _ ?i) _) =>
      apply (safe_ensure _ _ fs (GetMLProject o i) i (fun r => r)); [apply get_finds|intros ? ? ?]
  | |- safe _ _ ?fs (gbind (ensureExperimentInOrg _ ?i) _) =>
      apply (safe_ensure _ _ fs (GetMLExperiment o i) i (fun r => r)); [apply get_finds|intros ? ? ?]
  | |- safe _ _ ?fs (gbind (ensureRunsInOrg _ _) _) =>
      apply (ensure_all _ KRun _ ru_Row); [done|intros; apply GetMLRun_finds|]
  | |- safe _ _ ?fs (gbind (ensureEvaluationsInOrg _ _) _) =>
      apply (ensure_all _ KEvaluation _ el_Row); [done|intros; apply GetMLEvaluation_finds|]
  | |- safe _ _ _ (uuid_new _) => apply uuid_new_safe; intros ?
  | |- safe _ _ _ (answer _ (GetMLRun _ _) _) => apply answer_safe, (finds_reads _ _ _ (GetMLRun_finds o _))
  | |- safe _ _ _ (answer _ (GetMLFinding _ _) _) => apply answer_safe, (finds_reads _ _ _ (GetMLFinding_finds o _))
  | |- safe _ _ _ (answer _ (GetMLEvaluation _ _) _) => apply answer_safe, (finds_reads _ _ _ (GetMLEvaluation_finds o _))
  | |- safe _ _ _ (answer _ _ _) => apply answer_safe, ml_op_reads
  | |- safe _ _ _ (answer_artifact _ _) => apply answer_artifact_safe, ml_op_reads
  | |- safe _ _ _ (gbind (try _ _) _) => apply safe_bind; [apply safe_try|intros ?]
  | |- safe _ _ _ (gbind (gret _) _) => apply safe_bind; [apply safe_ret|intros ?]
  | |- safe _ _ _ (gbind (greturn _) _) => apply safe_bind; [apply safe_return|intros ?]
  | |- safe _ _ _ (gret _) => apply safe_ret
  | |- safe _ _ _ (greturn _) => apply safe_return
  end.
Ltac walk := repeat safe_step.

Lemma CreateDeployment_safe mg ctx req : esafe mg o [] (CreateDeployment ctx o req).
Proof. unfold CreateDeployment. walk. apply CreateMLDeployment_safe; [done|]. solve_known. Qed.
Lemma UpdateDeployment_safe mg ctx id req : esafe mg o [] (UpdateDeployment ctx o id req).
Proof. unfold UpdateDeployment. walk. by apply UpdateMLDeployment_safe. Qed.
Lemma DeleteDeployment_safe mg ctx id : esafe mg o [] (DeleteDeployment ctx o id).
Proof. unfold DeleteDeployment. walk. by apply (delete_row_safe _ _ _ (C := DeploymentData)). Qed.

Lemma CreateFinding_safe mg ctx req : esafe mg o [] (CreateFinding ctx o req).
Proof.
  unfold CreateFinding. walk. apply (ensure_optional _ KVersion _ mv_Row); [done|intros; apply GetMLModelVersion_finds|].
  walk. apply CreateMLFinding_safe; [done|..]; solve_known.
Qed.
Lemma UpdateFinding_safe mg ctx id req : esafe mg o [] (UpdateFinding ctx o id req).
Proof.
  unfold UpdateFinding. walk. apply (ensure_optional _ KVersion _ mv_Row); [done|intros; apply GetMLModelVersion_finds|].
  walk. match goal with f : Finding |- _ => apply (UpdateMLFinding_safe _ _ _ _ (r_Origin (f_Row f))) end; [done|..].
  all: unfold change_finding; cbn.
  - match goal with E : r_ID _ = id |- _ => rewrite E end. unfold learned. set_solver.
  - destruct (fc_VersionID _) as [v|]; [solve_known|]. apply known_refs.
    intros x Hx. unfold learned. cbn. rewrite !elem_of_app, !elem_of_cons, !elem_of_app. tauto.
  - destruct (fc_RunIDs _); apply known_list; set_solver.
  - destruct (fc_EvaluationIDs _); apply known_list; set_solver.
Qed.
Lemma DeleteFinding_safe mg ctx id : esafe mg o [] (DeleteFinding ctx o id).
Proof. unfold DeleteFinding. walk. by apply (delete_row_safe _ _ _ (C := FindingData)). Qed.

Lemma UpdateModelInfo_safe mg ctx id req : esafe mg o [] (UpdateModelInfo ctx o id req).
Proof. unfold UpdateModelInfo. walk. by apply UpdateMLModelInfo_safe. Qed.
Lemma DeleteModel_safe mg ctx id : esafe mg o [] (DeleteModel ctx o id).
Proof. unfold DeleteModel. walk. by apply (delete_row_safe _ _ _ (C := ModelData)). Qed.
Lemma UpdateModel_safe mg ctx id req : esafe mg o [] (UpdateModel ctx o id req).
Proof. unfold UpdateModel. walk. apply UpdateMLModel_safe. Qed.

Lemma CreateExperiment_safe mg ctx req : esafe mg o [] (CreateExperiment ctx o req).
Proof. unfold CreateExperiment. walk. apply CreateMLExperiment_safe; [done|]. solve_known. Qed.
Lemma UpdateExperiment_safe mg ctx id req : esafe mg o [] (UpdateExperiment ctx o id req).
Proof.
  unfold UpdateExperiment. walk. apply (ensure_optional _ KProject _ (fun r => r)); [done|intros; apply get_finds|].
  walk. apply UpdateMLExperiment_safe; [done|]. cbn. destruct (eu_ProjectID _); [solve_known|]. apply known_refs.
  intros x Hx. unfold learned. cbn. rewrite !elem_of_cons, !elem_of_app. tauto.
Qed.
Lemma DeleteExperiment_safe mg ctx id : esafe mg o [] (DeleteExperiment ctx o id).
Proof. unfold DeleteExperiment. walk. by apply (delete_row_safe _ _ _ (C := ExperimentData)). Qed.

Lemma CreateRun_safe mg ctx e req : esafe mg o [] (CreateRun ctx o e req).
Proof. unfold CreateRun. walk. apply CreateMLRun_safe; [done|done|]. solve_known. Qed.
Ltac own_row :=
  cbn; unfold learned; cbn;
  repeat match goal with E : r_ID _ = _ |- _ => rewrite E | E : r_Origin _ = _ |- _ => rewrite E end;
  rewrite ?elem_of_app, ?elem_of_cons; tauto.
Ltac locked_row := intros _ _; own_row.
Lemma UpdateRun_safe mg ctx id req : esafe mg o [] (UpdateRun ctx o id req).
Proof. unfold UpdateRun. walk. apply UpdateMLRun_safe; [done|]. own_row. Qed.
Lemma DeleteRun_safe mg ctx id : esafe mg o [] (DeleteRun ctx o id).
Proof. unfold DeleteRun. walk. apply (delete_row_safe _ _ _ (C := RunData)); [done|]. locked_row. Qed.

Lemma CreateDataset_safe mg ctx e req : esafe mg o [] (CreateDataset ctx o e req).
Proof. unfold CreateDataset. walk. apply CreateMLDataset_safe; [done|done|]. solve_known. Qed.
Lemma UpdateDataset_safe mg ctx id req : esafe mg o [] (UpdateDataset ctx o id req).
Proof. unfold UpdateDataset. walk. apply UpdateMLDataset_safe; [done|]. own_row. Qed.
Lemma DeleteDataset_safe mg ctx id : esafe mg o [] (DeleteDataset ctx o id).
Proof. unfold DeleteDataset. walk. apply (delete_row_safe _ _ _ (C := DatasetData)); [done|]. locked_row. Qed.

(** The model is there when its first version is made. *)
Lemma insert_learn {C} `{TableLaws C} (mk : Z -> Z -> Row C) w w' :
  exec (fun now t => insert_row (mk now t)) w = (Ok tt, w') ->
  exists now t, tbl (C := C) (w_db w') !! r_ID (mk now t) = Some (mk now t).
Proof.
  unfold exec, func, gbind, call, ml_op, statement. destruct (time_now w) as [now w1]. unfold db_op.
  intros Hw. exists now, (w_clock w1). revert Hw. unfold insert_row.
  destruct (w_faults w1) as [|[] ?]; [|done|]; repeat case_match; simplify_eq/=; intros; simplify_eq/=;
    rewrite tbl_set; apply lookup_insert_eq.
Qed.
Lemma CreateModel_safe mg ctx req : esafe mg o [] (CreateModel ctx o req).
Proof.
  unfold CreateModel. do 7 safe_step.
  match goal with |- safe _ _ ?fs (gbind (try (CreateMLModel ?m) _) _) =>
    apply (safe_learn _ _ _ _ _ (fun _ => True) (fun _ => [InOrg KModel (r_ID m)])) end.
  - apply safe_try, CreateMLModel_safe; [done|]. solve_known.
  - intros w [] w' Hok _ Hw. split; [done|]. constructor; [|constructor]. intros _. unfold try, gbind, call in Hw.
    destruct (CreateMLModel _ w) as [[[]|] w1] eqn:E; cbn in Hw; [|done]. injection Hw as <-.
    apply (insert_learn (C := ModelData) (fun now t => mkRow _ o _ _ _ _)) in E as (now & t & E).
    cbn in E. eexists. cbn. rewrite lookup_fmap, E. done.
  - intros [] _. walk. apply CreateMLModelVersion_safe; [done|]. solve_known.
Qed.

Lemma CreateArtifact_safe mg ctx e req : esafe mg o [] (CreateArtifact ctx o e req).
Proof. unfold CreateArtifact. walk. apply CreateMLArtifact_safe; [done|done|]. solve_known. Qed.
Lemma UpdateArtifact_safe mg ctx id req : esafe mg o [] (UpdateArtifact ctx o id req).
Proof. unfold UpdateArtifact. walk. apply UpdateMLArtifact_safe; [done|]. own_row. Qed.
Lemma blobs_safe mg fs f : esafe mg o fs (db_write (fun _ d => set_ml_blobs d (f d))).
Proof.
  intros w [Hr Hi Hl Hfr Hfe] _. apply (db_op_post _ (good mg o (w_db w))); cbn.
  - by apply good_refl.
  - split; [by split|]. split; [by change (grows (w_db w) (w_db w))|done|done].
Qed.
Lemma UploadArtifact_safe mg ctx e f : esafe mg o [] (UploadArtifact ctx o e f).
Proof.
  unfold UploadArtifact. walk. apply safe_bind.
  { apply safe_bind; [apply safe_return_if|]. intros _. apply safe_non_nil. }
  intros file. walk; [apply blobs_safe|]. apply safe_bind.
  { apply safe_call. apply CreateMLArtifact_safe; [done|done|]. solve_known. }
  intros [?|?]; walk. apply safe_assoc. apply safe_bind; [apply safe_call, blobs_safe|]. intros _. walk.
Qed.
Lemma DeleteArtifact_safe mg ctx id : esafe mg o [] (DeleteArtifact ctx o id).
Proof.
  unfold DeleteArtifact. walk. { apply (delete_row_safe _ _ _ (C := ArtifactData)); [done|]. locked_row. }
  apply safe_bind; [|intros _; walk]. destruct (str_empty _); [walk|]. apply safe_bind; [apply safe_call, blobs_safe|]. intros _. walk.
Qed.

Lemma CreateEvaluation_safe mg ctx e req : esafe mg o [] (CreateEvaluation ctx o e req).
Proof. unfold CreateEvaluation. walk. apply CreateMLEvaluation_safe; [done|]. solve_known. Qed.
Lemma UpdateEvaluation_safe mg ctx id req : esafe mg o [] (UpdateEvaluation ctx o id req).
Proof.
  unfold UpdateEvaluation. walk. match goal with e : Evaluation |- _ => apply (UpdateMLEvaluation_safe _ _ _ _ "manual") end; [done|].
  own_row.
Qed.
Lemma DeleteEvaluation_safe mg ctx id : esafe mg o [] (DeleteEvaluation ctx o id).
Proof. unfold DeleteEvaluation. walk. by apply (delete_row_safe _ _ _ (C := EvaluationData)). Qed.

Lemma CreateVersionDeploymentUpdate__safe mg ctx v to : esafe mg o [] (CreateVersionDeploymentUpdate_ ctx o v to).
Proof.
  unfold CreateVersionDeploymentUpdate_. walk.
  - match goal with E : negb (mem_str _ ?l) = false |- _ =>
      apply negb_false_iff in E; eapply CreateVersionDeploymentUpdate_safe; [done| |done|] end; [|by apply mem_str_In].
    unfold known, learned. set_solver.
  - apply reads_safe, ml_op_reads.
  - case_match; walk.
Qed.
Lemma SetVersionRun_safe mg ctx v req : esafe mg o [] (SetVersionRun ctx o v req).
Proof. unfold SetVersionRun. walk. apply SetMLModelVersionRun_safe. solve_known. Qed.
Lemma LinkVersionEvaluations_safe mg ctx v req : esafe mg o [] (LinkVersionEvaluations ctx o v req).
Proof.
  unfold LinkVersionEvaluations. walk.
  - apply SetMLEvaluationsVersion_safe. unfold known, learned. set_solver.
  - apply reads_safe, reads_keeps. intros d. unfold ListMLVersionEvaluations. apply keeps_func.
    apply gkeeps_bind; [apply gkeeps_try, keeps_reads, ml_op_reads|intros _].
    apply gkeeps_bind; [apply gkeeps_try, keeps_reads, ml_op_reads|intros [|? ?]]; [apply gkeeps_ret|].
    apply gkeeps_bind; [apply gkeeps_try, keeps_reads, ml_op_reads|intros ?].
    apply gkeeps_bind; [apply gkeeps_try, keeps_reads, ml_op_reads|intros ?]. apply gkeeps_ret.
Qed.

(** *** Synchronisation and projects *)

Lemma for_guard_safe mg fs {A B} (l : list A) (g : A -> Go W MLReply unit) (f : unit -> Go W MLReply B) :
  (forall x fs, safe mg o fs (g x)) -> (forall u, safe mg o fs (f u)) -> safe mg o fs (u <- gfor l g ;; f u).
Proof.
  intros Hg Hf. apply safe_bind; [|done]. clear Hf. induction l as [|x l IH]; cbn; [apply safe_ret|].
  by apply safe_bind.
Qed.
Lemma resolveActors_reads emails : reads (resolveActors o emails).
Proof.
  apply reads_keeps. intros d. unfold resolveActors. apply keeps_func.
  destruct (elements _) as [|x l]; [apply gkeeps_ret|]. apply gkeeps_bind; [apply gkeeps_try, keeps_reads, ml_op_reads|].
  intros r. case_match; apply gkeeps_ret.
Qed.
Lemma sync_reply_safe mg fs n m : esafe mg o fs m -> safe mg o fs (sync_reply n m).
Proof. intros Hm. apply safe_bind; [by apply safe_try|]. intros c. apply safe_ret. Qed.

Ltac sync_walk :=
  repeat (cbv zeta; lazymatch goal with
    | |- safe _ _ _ (gbind (try (resolveActors _ _) _) _) =>
        apply safe_bind; [apply safe_try, reads_safe, resolveActors_reads|intros ?]
    | |- safe _ _ _ (gbind (call time_now) _) => apply safe_bind; [apply safe_call, reads_safe, time_reads|intros ?]
    | |- safe _ _ _ (gbind (gfor _ _) _) => apply for_guard_safe; [intros ? ?; apply safe_return_if|intros ?]
    | |- safe _ _ _ (sync_reply _ _) => apply sync_reply_safe
    | |- _ => safe_step
    end).

Lemma SyncProjects_safe mg ctx req : esafe mg o [] (SyncProjects ctx o req).
Proof. unfold SyncProjects. sync_walk. apply UpsertMLProjects_safe. Qed.
Lemma SyncModels_safe mg ctx req : esafe mg o [] (SyncModels ctx o req).
Proof. unfold SyncModels. sync_walk. apply UpsertMLModels_safe. Qed.
Lemma SyncVersions_safe mg ctx req : esafe mg o [] (SyncVersions ctx o req).
Proof. unfold SyncVersions. sync_walk. apply UpsertMLModelVersions_safe. Qed.
Lemma SyncExperiments_safe mg ctx req : esafe mg o [] (SyncExperiments ctx o req).
Proof. unfold SyncExperiments. sync_walk. apply UpsertMLExperiments_safe. Qed.
Lemma SyncRuns_safe ctx req : esafe false o [] (SyncRuns ctx o req).
Proof. unfold SyncRuns. sync_walk. by apply UpsertMLRuns_safe. Qed.
Lemma SyncArtifacts_safe ctx req : esafe false o [] (SyncArtifacts ctx o req).
Proof. unfold SyncArtifacts. sync_walk. by apply UpsertMLArtifacts_safe. Qed.
Lemma SyncDatasets_safe ctx req : esafe false o [] (SyncDatasets ctx o req).
Proof. unfold SyncDatasets. sync_walk. by apply UpsertMLDatasets_safe. Qed.
Lemma SyncEvaluations_safe mg ctx req : esafe mg o [] (SyncEvaluations ctx o req).
Proof. unfold SyncEvaluations. sync_walk. apply UpsertMLEvaluations_safe. Qed.

Lemma RestoreProjects_safe mg ctx req : esafe mg o [] (RestoreProjects ctx o req).
Proof. unfold RestoreProjects. sync_walk. apply RestoreMLProjects_safe. Qed.
Lemma CreateProject_safe mg ctx req : esafe mg o [] (CreateProject ctx o req).
Proof. unfold CreateProject. walk. apply CreateMLProject_safe. Qed.
Lemma UpdateProject_safe mg ctx id req : esafe mg o [] (UpdateProject ctx o id req).
Proof. unfold UpdateProject. walk. apply UpdateMLProject_safe. Qed.
Lemma DeleteProject_safe mg ctx id : esafe mg o [] (DeleteProject ctx o id).
Proof. unfold DeleteProject. walk. apply DeleteMLProject_safe. Qed.

(** *** Any request *)

Definition synchronises (q : ml_request) : bool :=
  match q with
  | QSyncProjects _ | QSyncModels _ | QSyncVersions _ | QSyncExperiments _ | QSyncRuns _ | QSyncArtifacts _
  | QSyncDatasets _ | QSyncEvaluations _ => true
  | _ => false
  end.

Lemma serve_safe ctx q : esafe (negb (synchronises q)) o [] (serve ctx o q).
Proof.
  destruct q; cbn [serve synchronises negb];
    eauto using CreateDeployment_safe, UpdateDeployment_safe, DeleteDeployment_safe, CreateFinding_safe, UpdateFinding_safe,
      DeleteFinding_safe, CreateModel_safe, UpdateModelInfo_safe, UpdateModel_safe, DeleteModel_safe;
    eauto using CreateExperiment_safe, UpdateExperiment_safe, DeleteExperiment_safe, CreateRun_safe, UpdateRun_safe,
      DeleteRun_safe, CreateDataset_safe, UpdateDataset_safe, DeleteDataset_safe, CreateArtifact_safe,
      UploadArtifact_safe, UpdateArtifact_safe, DeleteArtifact_safe;
    eauto using CreateEvaluation_safe, UpdateEvaluation_safe, DeleteEvaluation_safe,
      CreateVersionDeploymentUpdate__safe, SetVersionRun_safe, LinkVersionEvaluations_safe, RestoreProjects_safe,
      CreateProject_safe, UpdateProject_safe, DeleteProject_safe;
    eauto using SyncProjects_safe, SyncModels_safe, SyncVersions_safe, SyncExperiments_safe, SyncRuns_safe,
      SyncArtifacts_safe, SyncDatasets_safe, SyncEvaluations_safe.
Qed.
End Handlers.

(** ** Registries in use *)

Section Reach.
Context `{Collation} `{UuidText} `{UuidGen} `{UnicodeCase} `{Presigner}.

Definition with_accounts (d : MLDB) (a : AuthDB) : MLDB :=
  mkMLDB a (m_projects d) (m_models d) (m_versions d) (m_experiments d) (m_runs d) (m_datasets d) (m_artifacts d)
    (m_evaluations d) (m_deployments d) (m_findings d) (m_updates d) (m_run_params d) (m_run_metrics d)
    (m_eval_params d) (m_eval_metrics d) (m_finding_runs d) (m_finding_evals d) (m_blobs d).
Definition no_registry (a : AuthDB) : MLDB := mkMLDB a ∅ ∅ ∅ ∅ ∅ ∅ ∅ ∅ ∅ ∅ ∅ ∅ ∅ ∅ ∅ ∅ ∅ ∅.

(** From empty tables, by requests of any organization, under any failures; accounts come and go. *)
Inductive reachable : MLDB -> Prop :=
| reach_empty a : reachable (no_registry a)
| reach_accounts d a : reachable d -> reachable (with_accounts d a)
| reach_request ctx o q w : reachable (w_db w) -> reachable (w_db (serve ctx o q w).2).

Lemma with_accounts_ok d a : registry_ok d -> registry_ok (with_accounts d a).
Proof. intros [Hr Hi Hl Hfr Hfe]. by split. Qed.
Lemma reachable_keeps d : reachable d -> registry_ok d.
Proof.
  induction 1 as [a|d a _ IH|ctx o q w _ IH].
  - split; [intros [] id b|intros [] i1 i2 b1 b2 m ?|done..]; cbn; by rewrite fmap_empty.
  - by apply with_accounts_ok.
  - apply (serve_safe o ctx q w IH). constructor.
Qed.

(** (C12) In a registry made by requests alone, the references the handlers check
    lead to rows of the same organization: a model's project and production
    version, a version's model and run, an experiment's project, the experiment
    of a run and of a dataset, an artifact's run, an evaluation's version and
    experiment, a deployment's model and version, a finding's model, version,
    runs and evaluations.  The dataset of a run or an evaluation and the team of
    a project are not among them: the code does not check these, and they may
    belong to another organization ([dataset_crosses_tenants],
    [team_of_another_org]).  An MLflow id occurs once per organization in each
    table but that of the datasets, where it is unique per experiment only; and
    every entry of the deployment log is a move the life cycle allows. *)
Theorem reachable_registries_ok d : reachable d -> registry_ok d.
Proof. apply reachable_keeps. Qed.

(** (C11) Whatever a request on one organization does, and however it fails: the
    other organizations see exactly what they saw; no row vanishes or changes
    its owner, MLflow id, origin or creator; the deployment log only grows; and
    unless the request synchronises, the rows of the three tables the handlers
    lock - the runs (with their parameters and metrics), datasets and artifacts
    that came from MLflow - are as they were.  Models, versions, experiments and
    evaluations that came from MLflow are not locked: requests may edit them. *)
Theorem requests_confined_to_org ctx o q w d' :
  reachable (w_db w) -> w_db (serve ctx o q w).2 = d' ->
  (forall o', o' <> o -> seen o' d' = seen o' (w_db w)) /\
  (forall k id b, brief k (w_db w) !! id = Some b -> exists b', brief k d' !! id = Some b' /\ same_row b b') /\
  m_updates (w_db w) ⊆ m_updates d' /\
  (synchronises q = false -> synced d' = synced (w_db w)).
Proof.
  intros Hok%reachable_keeps <-. destruct (serve_safe o ctx q w Hok ltac:(constructor)) as [_ [[Hr Hu] Ho Hs]].
  split_and!; [done..|]. intros Hq. apply Hs. by rewrite Hq.
Qed.
End Reach.
