(* ===== verification/MLLife.v ===== *)
(** * MLLife: versions move through their life cycle, synchronisation repeats

    Two behaviours of [MLHandlers] beyond the invariant of [MLTenants]: what a
    request to move a version does to the deployment log and to the status read
    from it, and how a synchronisation counts and repeats. *)

From S2P Require Import Prelude GoStrings Effects Json Table Authz Identity AuthStore MLStudio MLSync MLHandlers MLTenants MLConfined.
Set Warnings "-register-all,-clear-no-such-hyp".
#[local] Open Scope nat_scope.
#[local] Open Scope string_scope.

(** ** Moving a version *)

#[export] Instance latest_first_strict : StrictWeak latest_first.
Proof. apply then_by_strict; apply desc_strict; [apply by_key_strict_weak|apply (by_str_strict du_ID)]. Qed.

Section Moves.
Context `{Collation} `{UuidText} `{UuidGen} `{UnicodeCase} `{Presigner}.
#[local] Abbreviation W := (World MLDB).

(** The log after a move of [v] from its status. *)
Definition moved (o v to actor : string) (now : Z) (id : string) (d : MLDB) : MLDB :=
  set_updates d (<[id := mkDeploymentUpdate id o v (Some (deployment_status v d)) to actor now]> (m_updates d)).

(** The newest entry decides. *)
Lemma moved_status o v to actor now id d :
  m_updates d !! id = None ->
  (forall id' u, m_updates d !! id' = Some u -> du_VersionID u = v -> (du_ChangedAt u < now)%Z) ->
  deployment_status v (moved o v to actor now id d) = to.
Proof.
  intros Hid Hold. unfold deployment_status, moved. cbn.
  set (u := mkDeploymentUpdate _ _ _ _ _ _ _).
  destruct (head _) as [u'|] eqn:E.
  - apply first_by_Some in E as ([id' Hu'] & Hv & Hfirst); [|apply _].
    apply lookup_insert_Some in Hu' as [[_ <-]|[_ Hu']]; [done|]. exfalso.
    unfold of_ml_version in Hv. apply String.eqb_eq in Hv. specialize (Hold _ _ Hu' Hv).
    specialize (Hfirst id u ltac:(apply lookup_insert_eq)). unfold of_ml_version in Hfirst.
    rewrite String.eqb_refl in Hfirst. specialize (Hfirst eq_refl). unfold latest_first, then_by, desc, by_key in Hfirst.
    cbn in Hfirst. apply orb_false_iff in Hfirst as [Hlt _]. lia.
  - rewrite first_by_None in E. specialize (E id u ltac:(apply lookup_insert_eq)). unfold of_ml_version in E.
    by rewrite String.eqb_refl in E.
Qed.

Lemma CreateVersionDeploymentUpdate_db u w r w' :
  CreateVersionDeploymentUpdate u w = (r, w') ->
  (exists e, r = Err e /\ w_db w' = w_db w) \/
  exists now, r = Ok tt /\ (w_clock w <= now)%Z /\ m_updates (w_db w) !! du_ID u = None /\
    w_db w' = set_updates (w_db w) (<[du_ID u := mkDeploymentUpdate (du_ID u) (du_OrgID u) (du_VersionID u)
      (du_FromStatus u) (du_ToStatus u) (du_ChangedBy u) now]> (m_updates (w_db w))).
Proof.
  unfold CreateVersionDeploymentUpdate, exec, func, gbind, call. pose proof (time_now_clock w) as [_ Hnow].
  pose proof (time_now_db w) as Hdb. destruct (time_now w) as [now w1]. cbn in Hnow, Hdb. unfold ml_op, db_op, statement.
  destruct (w_faults w1) as [|[] ?]; [|intros [= <- <-]; left; eauto|]; cbn; rewrite Hdb;
    repeat case_match; intros; simplify_eq/=; eauto; right; exists now; split_and!; try done;
    by match goal with E : found ?o = false |- _ => destruct o end.
Qed.

(** What the request to move does: refuse and change nothing, or log the move. *)
Definition move_post (o v to : string) (w : W) (r : MLReply) (d' : MLDB) : Prop :=
  (w_db w = d' /\ status r <> 201%Z) \/
  exists row id actor now,
    live_row (C := VersionData) o v (w_db w) = Some row /\
    to ∈ allowedVersionTransitions (deployment_status v (w_db w)) /\ (w_clock w <= now)%Z /\
    m_updates (w_db w) !! id = None /\ d' = moved o v to actor now id (w_db w) /\
    (status r = 201%Z -> exists u, payload r = Json (OneUpdate u)).

Lemma uuid_clock (w : W) : w_clock (new_uuid w).2 = w_clock w.
Proof. unfold new_uuid. pose proof (rand_read_clock 16 w). by destruct (rand_read 16 w) as [[] ?]. Qed.
Lemma ml_op_clock {A} (f : Z -> MLDB -> result ml_err A * MLDB) w : w_clock (ml_op f w).2 = w_clock w.
Proof. unfold ml_op, db_op. destruct (w_faults w) as [|[] ?]; cbn; try done; by destruct (f _ _). Qed.
Lemma httpError_not_201 e : status (httpError e) <> 201%Z.
Proof. by destruct e as [[]| | | |]. Qed.
Lemma writeErr_not_201 e : status (writeErr e) <> 201%Z.
Proof. by destruct e as [[]| | | |]. Qed.

Lemma version_status o v w m w1 :
  registry_ok (w_db w) -> GetMLModelVersion o v w = (Ok (Some m), w1) ->
  mv_DeploymentStatus m = deployment_status v (w_db w).
Proof.
  intros Hok Hm. unfold GetMLModelVersion, ml_op, db_op in Hm.
  assert (option_map (with_status (w_db w)) (live_row o v (w_db w)) = Some m) as Hs.
  { destruct (w_faults w) as [|[] ?]; [|done|]; destruct (_ && _); simplify_eq/=; congruence. }
  destruct (live_row (C := VersionData) o v (w_db w)) as [r|] eqn:Er; simplify_eq/=.
  apply live_row_Some in Er as [Hr _]. by destruct (table_row_ok _ _ _ Hok Hr) as [-> _].
Qed.

Lemma move_spec ctx o v to w r w' :
  registry_ok (w_db w) ->
  CreateVersionDeploymentUpdate_ ctx o v (Some to) w = (r, w') -> move_post o v to w r (w_db w').
Proof.
  intros Hok Hw. enough (move_post o v to w (CreateVersionDeploymentUpdate_ ctx o v (Some to) w).1
    (w_db (CreateVersionDeploymentUpdate_ ctx o v (Some to) w).2)) as Hpost by (by rewrite Hw in Hpost). clear r w' Hw.
  unfold CreateVersionDeploymentUpdate_. apply (wp_func _ (fun r w' => move_post o v to w r (w_db w'))).
  unfold authorizeOrg, ensure, decode, uuid_new. repeat wp_step.
  split; [intros _; by left|]. intros p _. repeat wp_step. split; [intros _; by left|]. intros _. repeat wp_step.
  pose proof (GetMLModelVersion_finds o v w) as [Hd Hl].
  pose proof (ml_op_clock (fun _ d => (if valid_uuid o && valid_uuid v
    then Ok (option_map (with_status d) (live_row o v d)) else bad_uuid, d)) w) as Hc.
  change (ml_op _ w) with (GetMLModelVersion o v w) in Hc.
  destruct (GetMLModelVersion o v w) as [[x|e] w1] eqn:E1; cbn in Hd, Hc; repeat wp_step.
  2: { left. split; [done|apply httpError_not_201]. }
  split; [intros _; by left|]. intros m ->. pose proof (version_status _ _ _ _ _ Hok E1) as Hs.
  specialize (Hl m w1 eq_refl). cbn in Hl. repeat wp_step. split; [done|]. intros to' [= <-]. rewrite Hs. repeat wp_step.
  split; [intros _; left; by rewrite Hd|]. intros Hto%negb_false_iff%mem_str_In.
  pose proof (uuid_reads w1) as Hd2. pose proof (uuid_clock w1) as Hc2.
  destruct (new_uuid w1) as [[id|e] w2]; cbn in Hd2, Hc2; repeat wp_step.
  2: { left. split; [congruence|done]. }
  match goal with |- context [CreateVersionDeploymentUpdate ?u w2] =>
    destruct (CreateVersionDeploymentUpdate u w2) as [r3 w3] eqn:E3 end.
  apply CreateVersionDeploymentUpdate_db in E3 as [(e & -> & Hd3)|(now & -> & Hnow & Hnew & Hd3)]; repeat wp_step.
  { left. split; [congruence|apply writeErr_not_201]. }
  cbn in Hnew, Hd3. rewrite Hd2, Hd in Hd3, Hnew.
  assert (forall r, (status r = 201%Z -> exists u, payload r = Json (OneUpdate u)) -> forall w4, w_db w4 = w_db w3 ->
    move_post o v to w r (w_db w4)) as Hdone.
  { intros r Hr w4 Hd4. right. exists (mv_Row m), id, (p_UserID p), now. rewrite Hd4, Hd3. split_and!; try done. lia. }
  assert (reads (ListVersionDeploymentUpdates o v "")) as Hread by apply ml_op_reads. specialize (Hread w3).
  destruct (ListVersionDeploymentUpdates o v "" w3) as [[[|u l]|e] w4]; cbn in Hread; repeat wp_step;
    (apply Hdone; [|done]); cbn; eauto; [done|by intros ?%httpError_not_201].
Qed.
End Moves.

(** ** How a synchronisation counts *)

Section Counting.
Context `{Collation} `{UuidText} `{UuidGen} `{UnicodeCase} `{Presigner}.
#[local] Abbreviation W := (World MLDB).

Lemma upsert_all_counts {I} (f : I -> MLDB -> result ml_err Upserted) l c d c' d' :
  upsert_all f l c d = Ok (c', d') ->
  (sc_Created c <= sc_Created c' /\ sc_Updated c <= sc_Updated c' /\
   sc_Created c' + sc_Updated c' <= sc_Created c + sc_Updated c + Z.of_nat (length l))%Z.
Proof.
  revert c d. induction l as [|i l IH]; intros c d Hu; cbn in Hu; [injection Hu as <- <-; cbn; lia|].
  destruct (f i d) as [u|]; [|done]. apply IH in Hu. unfold count in Hu. cbn [sc_Created sc_Updated length] in *.
  destruct (us_Existed u), (us_Changed u); cbn in Hu; lia.
Qed.
Lemma upsert_tx_counts {I} (f : Z -> I -> MLDB -> result ml_err Upserted) l w c w' :
  upsert_tx f l w = (Ok c, w') ->
  (0 <= sc_Created c /\ 0 <= sc_Updated c /\ sc_Created c + sc_Updated c <= Z.of_nat (length l))%Z.
Proof.
  unfold upsert_tx, ml_op, db_op. intros Hw.
  destruct (w_faults w) as [|[] ?]; [|done|];
    destruct (upsert_all _ _ _ _) as [[c0 d']|] eqn:E; simplify_eq/=; apply upsert_all_counts in E; cbn in E; lia.
Qed.

(** Counts that are within the number of inputs. *)
Definition within_inputs (n : Z) (c : SyncCounts) : Prop :=
  (0 <= sc_Created c /\ 0 <= sc_Updated c /\ sc_Created c + sc_Updated c <= n)%Z.
Definition counted (r : MLReply) : Prop := forall n c, payload r = Json (Synced n c) -> within_inputs n c.
Lemma httpError_counted e : counted (httpError e).
Proof. intros n c. by destruct e as [[]| | | |]. Qed.
Lemma writeErr_counted e : counted (writeErr e).
Proof. intros n c. by destruct e as [[]| | | |]. Qed.

(** [m] leaves early with such answers only. *)
Definition early {A} (m : Go W MLReply A) : Prop := forall w, match (m w).1 with inl r => counted r | inr _ => True end.
Lemma early_return_if (b : bool) r : counted r -> early (return_if b r).
Proof. intros Hr w. by destruct b. Qed.
Lemma early_try {E A} (m : Eff W (result E A)) on_err : (forall e, counted (on_err e)) -> early (try m on_err).
Proof. intros He w. unfold try, gbind, call. destruct (m w) as [[a|e] w']; cbn; auto. Qed.
Lemma early_non_nil {A} (p : option A) r : counted r -> early (non_nil p r).
Proof. intros Hr w. by destruct p. Qed.
Lemma early_call {A} (m : Eff W A) : early (call m).
Proof. intros w. unfold call. by destruct (m w). Qed.
Lemma early_bind {A B} (m : Go W MLReply A) (f : A -> Go W MLReply B) : early m -> (forall a, early (f a)) -> early (gbind m f).
Proof. intros Hm Hf w. specialize (Hm w). unfold gbind. destruct (m w) as [[r|a] w']; [done|]. apply Hf. Qed.
Lemma early_for {A} (l : list A) g : (forall x, early (g x)) -> early (gfor l g).
Proof. intros Hg. induction l as [|x l IH]; [by intros w|]. by apply early_bind. Qed.
Lemma early_authorize ctx o : early (authorizeOrg ctx o).
Proof.
  apply early_bind; [by apply early_non_nil|]. intros p. apply early_bind; [by apply early_return_if|]. by intros _ w.
Qed.

Definition answers (m : Go W MLReply MLReply) : Prop := forall w, counted (func m w).1.
Lemma answers_bind {A} (m : Go W MLReply A) f : early m -> (forall a, answers (f a)) -> answers (gbind m f).
Proof.
  intros Hm Hf w. specialize (Hm w). unfold func, gbind. destruct (m w) as [[r|a] w']; [done|]. apply Hf.
Qed.
Lemma answers_sync {I} n (f : Z -> I -> MLDB -> result ml_err Upserted) l :
  length l = n -> answers (sync_reply n (upsert_tx f l)).
Proof.
  intros <- w. unfold func, sync_reply, try, gbind, call. destruct (upsert_tx f l w) as [[c|e] w'] eqn:E; cbn.
  - intros n c' [= <- <-]. by eapply upsert_tx_counts.
  - apply writeErr_counted.
Qed.

Ltac early_step :=
  cbv zeta;
  lazymatch goal with
  | |- answers (gbind _ _) => apply answers_bind; [|intros ?]
  | |- answers (sync_reply _ _) => apply answers_sync; by rewrite ?length_map
  | |- early (authorizeOrg _ _) => apply early_authorize
  | |- early (decode _) => by apply early_non_nil
  | |- early (try _ writeErr) => apply early_try, writeErr_counted
  | |- early (gfor _ _) => apply early_for; intros ?; by apply early_return_if
  | |- early (call _) => apply early_call
  end.

(** (lemma) A synchronisation that answers 200 counts what it did: the rows created
    and the rows updated are not negative, and together no more than the inputs. *)
Theorem sync_counts_bounded ctx o q w n c :
  synchronises q = true -> payload (serve ctx o q w).1 = Json (Synced n c) -> within_inputs n c.
Proof.
  intros Hq. revert w n c. change (forall w, counted (serve ctx o q w).1). destruct q; try done; cbn [serve].
  2-8: unfold SyncModels, SyncVersions, SyncExperiments, SyncRuns, SyncArtifacts, SyncDatasets, SyncEvaluations;
    match goal with |- forall w, counted (func ?m w).1 => change (answers m) end; repeat early_step.
  unfold SyncProjects. match goal with |- forall w, counted (func ?m w).1 => change (answers m) end.
  do 3 (apply answers_bind; [early_step|intros ?]). by apply (answers_sync (length _)).
Qed.
End Counting.

(** ** A synchronisation repeated

    What the models, versions, experiments and artifacts have in common: the
    content of an input, found by looking up its parents in other tables, and
    how it merges into a row that is there. *)

Class Syncable (I C : Type) `{UuidText} `{MLTable C} := {
  in_key : I -> string;
  in_actor : I -> string;
  prep : string -> I -> MLDB -> result ml_err C;
  mrg : C -> C -> C;
  prep_set o i d t : prep o i (set_tbl d t) = prep o i d;
  mrg_self n : mrg n n = n;
  mrg_again n old : mrg n (mrg n old) = mrg n old
}.

Section Repeated.
Context `{Collation} `{UuidText}.
Context {I C : Type} `{TableLaws C} `{EqDecision C} `{!Syncable I C}.
Context (o actorID : string).

Definition upsert_input (t : Z) (i : I) (d : MLDB) : result ml_err Upserted :=
  match prep o i d with
  | Ok new => upsert_row t o (Some (in_key i)) "mlflow" (actor_of actorID (in_actor i)) (of_mlflow o (in_key i)) new (mrg new) d
  | Err e => Err e
  end.

(** MLflow ids are unique in an organization. *)
Definition one_row_per_id (d : MLDB) : Prop :=
  forall k i1 i2 (r1 r2 : Row C), tbl d !! i1 = Some r1 -> tbl d !! i2 = Some r2 ->
    of_mlflow o k r1 = true -> of_mlflow o k r2 = true -> i1 = i2.
Definition keyed (d : MLDB) : Prop := forall id (r : Row C), tbl d !! id = Some r -> r_ID r = id.

(** The row of an input is there, and says what the input says. *)
Definition settled (d : MLDB) (i : I) : Prop :=
  exists new r, prep o i d = Ok new /\ forallb valid_uuid (o :: actor_of actorID (in_actor i) :: uuids new) = true /\
    tbl d !! r_ID r = Some r /\ of_mlflow o (in_key i) r = true /\ mrg new (r_Content r) = r_Content r.

Lemma of_mlflow_other k k' (r : Row C) : of_mlflow o k r = true -> of_mlflow o k' r = true -> k = k'.
Proof.
  unfold of_mlflow. rewrite !andb_true_iff, !bool_decide_eq_true. intros [_ E] [_ E']. congruence.
Qed.

Lemma upsert_settles t i d u :
  keyed d -> one_row_per_id d -> upsert_input t i d = Ok u ->
  keyed (us_DB u) /\ one_row_per_id (us_DB u) /\ settled (us_DB u) i /\
  (forall j, in_key j <> in_key i -> settled d j -> settled (us_DB u) j).
Proof.
  intros Hk Hu Hi. unfold upsert_input in Hi. destruct (prep o i d) as [new|] eqn:Ep; [|done].
  unfold upsert_row in Hi. destruct (forallb _ _) eqn:Ev; [|done]. cbn [negb] in Hi.
  destruct (select_one _ (tbl d)) as [r|] eqn:Er.
  - apply select_one_Some in Er as [[id Hr] Hkey]. pose proof (Hk _ _ Hr) as <-.
    case_bool_decide as Hc; [|destruct (negb _); [done|]]; injection Hi as <-; cbn.
    + split_and!; try done. exists new, r. done.
    + set (r' := with_content _ _ r). change (r_ID r) with (r_ID r') at 1 2 3 4.
      assert (forall k, of_mlflow o k r' = of_mlflow o k r) as Hsame by done.
      split_and!.
      * intros id r0. rewrite tbl_set, lookup_insert_Some. intros [[<- <-]|[_ Hold]]; [done|by apply Hk].
      * intros k i1 i2 r1 r2. rewrite !tbl_set, !lookup_insert_Some.
        intros [[<- <-]|[? H1']] [[<- <-]|[? H2']] Hk1 Hk2; [done| | |by eapply Hu]; exfalso; rewrite Hsame in *.
        -- by pose proof (Hu k (r_ID r) i2 r r2 Hr H2' Hk1 Hk2).
        -- by pose proof (Hu k i1 (r_ID r) r1 r H1' Hr Hk1 Hk2).
      * exists new, r'. rewrite prep_set, tbl_set, lookup_insert_eq. split_and!; try done. apply mrg_again.
      * intros j Hj (new' & r0 & Hp & Hv & Hr0 & Hk0 & Hm0). exists new', r0.
        rewrite prep_set, tbl_set, lookup_insert_ne; [done|]. intros Heq. apply Hj.
        change (r_ID r') with (r_ID r) in Heq. rewrite Heq in Hr. assert (r0 = r) as -> by congruence.
        by eapply of_mlflow_other.
  - destruct (negb _); [done|]. injection Hi as <-. cbn. rewrite select_one_None in Er.
    set (r' := mkRow _ _ _ _ _ _). set (id := gen_random_uuid _).
    assert (tbl (C := C) d !! id = None) as Hfresh by (apply not_elem_of_dom, gen_random_uuid_new).
    assert (of_mlflow o (in_key i) r' = true) as Hr'.
    { unfold of_mlflow. cbn. rewrite String.eqb_refl. by apply bool_decide_eq_true. }
    assert (forall k i2 r2, tbl d !! i2 = Some r2 -> of_mlflow o k r' = true -> of_mlflow o k r2 = true -> False) as Hno.
    { intros k i2 r2 Hr2 Hk1 Hk2. rewrite (of_mlflow_other _ _ _ Hk1 Hr') in Hk2. by rewrite (Er i2 r2 Hr2) in Hk2. }
    split_and!.
    + intros id0 r0. rewrite tbl_set, lookup_insert_Some. intros [[<- <-]|[_ Hold]]; [done|by apply Hk].
    + intros k i1 i2 r1 r2. rewrite !tbl_set, !lookup_insert_Some.
      intros [[<- <-]|[? H1']] [[<- <-]|[? H2']] Hk1 Hk2; [done|exfalso; eauto|exfalso; eauto|by eapply Hu].
    + exists new, r'. rewrite prep_set, tbl_set. change (r_ID r') with id. rewrite lookup_insert_eq.
      split_and!; try done. apply mrg_self.
    + intros j Hj (new' & r0 & Hp & Hv & Hr0 & Hk0 & Hm0). exists new', r0. rewrite prep_set, tbl_set.
      rewrite lookup_insert_ne; [done|]. intros Heq. by rewrite <-Heq, Hfresh in Hr0.
Qed.

Lemma upsert_all_settles t l c d c' d' :
  NoDup (map in_key l) -> keyed d -> one_row_per_id d -> upsert_all (upsert_input t) l c d = Ok (c', d') ->
  keyed d' /\ one_row_per_id d' /\ (forall i, i ∈ l -> settled d' i) /\
  (forall j, in_key j ∉ map in_key l -> settled d j -> settled d' j).
Proof.
  revert c d. induction l as [|i l IH]; intros c d Hnd Hk Hu Hall; cbn in Hall.
  { injection Hall as _ <-. split_and!; [done|done|by intros i ?%elem_of_nil|done]. }
  destruct (upsert_input t i d) as [u|] eqn:Ei; [|done]. apply NoDup_cons in Hnd as [Hni Hnd].
  destruct (upsert_settles t i d u Hk Hu Ei) as (Hk' & Hu' & Hi & Hj).
  destruct (IH _ _ Hnd Hk' Hu' Hall) as (Hkd & Hud & Hl & Hkeep). split_and!; [done|done| |].
  - intros j [->|Hin]%elem_of_cons; [|by apply Hl]. by apply Hkeep.
  - intros j [Hne Hnin]%not_elem_of_cons Hs. apply Hkeep; [done|]. by apply Hj.
Qed.

Lemma settled_upsert t i d :
  keyed d -> one_row_per_id d -> settled d i -> exists id, upsert_input t i d = Ok (mkUpserted true false id d).
Proof.
  intros Hk Hu (new & r & Hp & Hv & Hr & Hkey & Hm). unfold upsert_input. rewrite Hp. unfold upsert_row. rewrite Hv. cbn [negb].
  rewrite (select_one_unique r _ _ (r_ID r)); [|done|done|].
  - rewrite bool_decide_true by done. eauto.
  - intros id r2 Hr2 Hkey2. assert (id = r_ID r) as -> by (by eapply Hu). congruence.
Qed.
Lemma settled_all t l c d :
  keyed d -> one_row_per_id d -> (forall i, i ∈ l -> settled d i) -> upsert_all (upsert_input t) l c d = Ok (c, d).
Proof.
  intros Hk Hu Hl. induction l as [|i l IH] in c, Hl |- *; cbn; [done|].
  destruct (settled_upsert t i d Hk Hu) as [id ->]; [apply Hl; left|]. cbn. rewrite IH by (intros; apply Hl; by right).
  unfold count. cbn. rewrite !Z.add_0_r. by destruct c.
Qed.

Lemma registry_keyed d : registry_ok d -> kind_of C <> KDataset -> keyed d /\ one_row_per_id d.
Proof.
  intros Hok Hk. split; [intros id r Hr; by destruct (table_row_ok _ _ _ Hok Hr)|].
  intros k i1 i2 r1 r2 E1 E2. unfold of_mlflow. rewrite !andb_true_iff, !bool_decide_eq_true, !String.eqb_eq.
  intros [Ho1 Hm1] [Ho2 Hm2]. apply (table_unique d Hok Hk i1 i2 r1 r2 k E1 E2); congruence.
Qed.

(** The same inputs again: nothing is created, nothing is changed. *)
Lemma upsert_tx_again l w c w1 w2 r w3 :
  registry_ok (w_db w) -> kind_of C <> KDataset -> NoDup (map in_key l) ->
  upsert_tx upsert_input l w = (Ok c, w1) -> w_db w2 = w_db w1 -> upsert_tx upsert_input l w2 = (r, w3) ->
  w_db w3 = w_db w1 /\ (forall c', r = Ok c' -> c' = mkCounts 0 0).
Proof.
  intros Hok Hkind Hnd Hw Hd Hw2. destruct (registry_keyed _ Hok Hkind) as [Hk Hu].
  assert (exists t, upsert_all (upsert_input t) l (mkCounts 0 0) (w_db w) = Ok (c, w_db w1)) as [t Hall].
  { exists (w_clock w). unfold upsert_tx, ml_op, db_op in Hw. destruct (w_faults w) as [|[] ?]; [|done|];
      destruct (upsert_all _ _ _ _) as [[c0 d']|]; by simplify_eq/=. }
  destruct (upsert_all_settles t l _ _ _ _ Hnd Hk Hu Hall) as (Hk1 & Hu1 & Hs & _).
  unfold upsert_tx, ml_op, db_op in Hw2. rewrite Hd in Hw2.
  destruct (w_faults w2) as [|[] ?]; [|injection Hw2 as <- <-; by split|];
    rewrite (settled_all _ _ _ _ Hk1 Hu1 Hs) in Hw2; injection Hw2 as <- <-; split; try done; by intros ? [= <-].
Qed.
End Repeated.

#[export] Program Instance models_sync `{UuidText} : Syncable ModelInput ModelData := {|
  in_key := mi_MLflowID; in_actor := mi_ActorID;
  prep o m d := match wrap "postgres: UpsertMLModels resolve project" (resolveProjectID o (mi_ProjectName m) d) with
                | Ok p => Ok (model_of_input p (resolve_optional (C := VersionData) o (mi_ProductionVersionMLflowID m) d) m)
                | Err e => Err e
                end;
  mrg := merge_model |}.
Next Obligation. done. Qed.
Next Obligation. intros ? [p ? ? ? ? ? [] v ? ?]. unfold merge_model. cbn. by destruct p, v. Qed.
Next Obligation. intros ? [p ? ? ? ? ? [] v ? ?] [? ? ? ? ? ? [] ? ? ?]. unfold merge_model. cbn. by destruct p, v. Qed.
#[export] Program Instance versions_sync `{UuidText} : Syncable ModelVersionInput VersionData := {|
  in_key := vi_MLflowID; in_actor := vi_ActorID;
  prep o v d := match parent (C := ModelData) "model" o (vi_ModelMLflowID v) d with
                | Ok modelID => Ok (mkVersionData modelID (vi_Version v) (vi_Description v)
                                      (resolve_optional (C := RunData) o (vi_RunMLflowID v) d) (vi_CreatedAt v))
                | Err e => Err e
                end;
  mrg := merge_version |}.
Next Obligation. done. Qed.
Next Obligation. intros ? [? ? ? p ?]. unfold merge_version. cbn. by destruct p. Qed.
Next Obligation. intros ? [? ? ? p ?] [? ? ? ? ?]. unfold merge_version. cbn. by destruct p. Qed.

#[export] Program Instance experiments_sync `{UuidText} : Syncable ExperimentInput ExperimentData := {|
  in_key := ei_MLflowID; in_actor := ei_ActorID;
  prep o e d := match wrap "postgres: UpsertMLExperiments resolve project" (resolveProjectID o (ei_ProjectName e) d) with
                | Ok p => Ok (mkExperiment p (ei_Name e) (ei_Description e) (ei_Status e) (ei_Tags e))
                | Err e => Err e
                end;
  mrg := merge_experiment |}.
Next Obligation. done. Qed.
Next Obligation. intros ? [p ? ? ? ?]. unfold merge_experiment. cbn. by destruct p. Qed.
Next Obligation. intros ? [p ? ? ? ?] [? ? ? ? ?]. unfold merge_experiment. cbn. by destruct p. Qed.

#[export] Program Instance artifacts_sync `{UuidText} : Syncable ArtifactInput ArtifactData := {|
  in_key := ai_MLflowID; in_actor := ai_ActorID;
  prep o a d := match parent (C := RunData) "run" o (ai_RunMLflowID a) d with
                | Ok runID => Ok (mkArtifact runID (ai_Name a) (ai_Type a) (ai_URI a) (ai_DownloadURI a) (ai_Size a)
                                    (ai_Format a) "" "" None)
                | Err e => Err e
                end;
  mrg := merge_artifact |}.
Next Obligation. done. Qed.
Next Obligation. by intros ? []. Qed.
Next Obligation. done. Qed.

Section Again.
Context `{Collation} `{UuidText} `{UuidGen} `{UnicodeCase} `{Presigner}.
#[local] Abbreviation W := (World MLDB).

(** Run, and run again on the tables it left: the second time changes nothing. *)
Definition repeats (m : MLEff SyncCounts) : Prop :=
  forall (w w1 w2 w3 : W) c r, reachable (w_db w) -> m w = (Ok c, w1) -> w_db w2 = w_db w1 -> m w2 = (r, w3) ->
    w_db w3 = w_db w1 /\ (forall c', r = Ok c' -> c' = mkCounts 0 0).

Lemma upsert_tx_ext {I} (f g : Z -> I -> MLDB -> result ml_err Upserted) l w :
  (forall t i d, f t i d = g t i d) -> upsert_tx f l w = upsert_tx g l w.
Proof.
  intros Hfg. assert (forall t l c d, upsert_all (f t) l c d = upsert_all (g t) l c d) as Hall.
  { intros t. induction l0 as [|i l0 IH]; intros c d; cbn; [done|]. rewrite Hfg. destruct (g t i d); [apply IH|done]. }
  unfold upsert_tx, ml_op, db_op. destruct (w_faults w) as [|[] ?]; [|done|]; by rewrite Hall.
Qed.
Lemma repeats_spec {I C} `{TableLaws C} `{EqDecision C} `{!Syncable I C} o actorID
    (f : Z -> I -> MLDB -> result ml_err Upserted) l :
  (forall t i d, f t i d = upsert_input o actorID t i d) -> kind_of C <> KDataset -> NoDup (map in_key l) ->
  repeats (upsert_tx f l).
Proof.
  intros Hf Hk Hnd w w1 w2 w3 c r Hok%reachable_keeps. rewrite !(upsert_tx_ext _ _ _ _ Hf). by apply upsert_tx_again.
Qed.

(** (lemma) A synchronisation is idempotent: when MLflow sends the same models,
    versions, experiments or artifacts again (each with its own MLflow id) to
    the registry the first call left, nothing is created or updated, and no
    table changes. *)
Theorem repeated_sync_changes_nothing o actorID :
  (forall l, NoDup (map mi_MLflowID l) -> repeats (UpsertMLModels o actorID l)) /\
  (forall l, NoDup (map vi_MLflowID l) -> repeats (UpsertMLModelVersions o actorID l)) /\
  (forall l, NoDup (map ei_MLflowID l) -> repeats (UpsertMLExperiments o actorID l)) /\
  (forall l, NoDup (map ai_MLflowID l) -> repeats (UpsertMLArtifacts o actorID l)).
Proof.
  split_and!; intros l Hnd; apply (repeats_spec o actorID); try done; intros t i d; unfold upsert_input; cbn.
  - unfold upsert_model. by destruct (wrap _ _).
  - unfold upsert_version. by destruct (parent _ _ _ _).
  - unfold upsert_experiment. by destruct (wrap _ _).
  - unfold upsert_artifact. by destruct (parent _ _ _ _).
Qed.

(** (C13) A request to move a version to a status either changes nothing and does
    not answer 201, or the status the version has allows the move, one entry is
    added to its log, and - when the log has no entry from the future - the
    status read from then on is the one asked for. *)
Theorem version_moves_correct ctx o v to w r w' :
  reachable (w_db w) -> CreateVersionDeploymentUpdate_ ctx o v (Some to) w = (r, w') ->
  (w_db w' = w_db w /\ status r <> 201%Z) \/
  (to ∈ allowedVersionTransitions (deployment_status v (w_db w)) /\
   (exists id actor now, m_updates (w_db w) !! id = None /\ w_db w' = moved o v to actor now id (w_db w)) /\
   ((forall id u, m_updates (w_db w) !! id = Some u -> du_VersionID u = v -> (du_ChangedAt u < w_clock w)%Z) ->
    deployment_status v (w_db w') = to)).
Proof.
  intros Hok%reachable_keeps Hw. destruct (move_spec _ _ _ _ _ _ _ Hok Hw) as
    [[-> Hs]|(row & id & actor & now & _ & Hto & Hnow & Hid & Hd & _)]; [by left|]. right.
  split_and!; [done|by exists id, actor, now|]. intros Hold. rewrite Hd. apply moved_status; [done|].
  intros id' u Hu Hv. specialize (Hold id' u Hu Hv). lia.
Qed.
End Again.
