(* ===== verification/MLDemo.v ===== *)
(** * MLDemo: the registry at work

    Two organizations, "a" and "b", in a registry built by requests: inputs that
    meet the hypotheses of the theorems of [MLConfined] and [MLLife], and what
    the code lets through. *)

From S2P Require Import Prelude GoStrings Effects Json Table Authz Identity AuthStore MLStudio MLSync MLHandlers MLTenants MLConfined MLLife.
Set Warnings "-register-all,-clear-no-such-hyp".
#[local] Open Scope nat_scope.
#[local] Open Scope string_scope.

Module MLDemo.
#[local] Existing Instance ascii_only_case.
#[local] Instance demo_collation : Collation :=
  {| text_less := by_key (fun s => Z.of_nat (String.length s)); text_lower := map_bytes lower_byte;
     text_less_strict := by_key_strict_weak _ |}.
#[local] Instance hex_uuid : UuidGen := {| uuid_of := hex_encode |}.
#[local] Instance no_urls : Presigner := {| PresignURL _ := None |}.

(** Any text but the empty one is an id; a new one is longer than those there are. *)
Definition new_text (X : gset string) : string := fresh (X ∪ {[ "" ]}).
#[local] Program Instance any_text : UuidText := {|
  valid_uuid s := negb (str_empty s); gen_random_uuid := new_text |}.
Next Obligation. done. Qed.
Next Obligation. intros X Hin. apply (is_fresh (X ∪ {[ "" ]})). set_solver. Qed.
Next Obligation.
  intros X. apply negb_true_iff, str_empty_false. intros E. apply (is_fresh (X ∪ {[ "" ]})).
  unfold new_text in E. rewrite E. set_solver.
Qed.

Definition org_of (id : string) : Org := mkOrg id id None false false false 1 1.
Definition team_of (id org : string) : Team := mkTeam id org id "" "" 1 1.
Definition accounts : AuthDB :=
  mkAuthDB ∅ {[ "a" := org_of "a"; "b" := org_of "b" ]} ∅ ∅ {[ "ta" := team_of "ta" "a"; "tb" := team_of "tb" "b" ]}
    ∅ ∅ ∅ ∅ ∅ ∅ [] ∅ ∅.
Definition start : World MLDB := mkWorld (no_registry accounts) [] 100 (replicate 64 1%N) (map N.of_nat (seq 0 256)).

Definition user (org : string) : option Principal := Some (mkPrincipal "user" "ann" org false "" [] "local").
Fixpoint served (l : list (string * ml_request)) (w : World MLDB) : World MLDB :=
  match l with
  | [] => w
  | (o, q) :: l => served l (serve (user o) o q w).2
  end.
Lemma served_reachable l w : reachable (w_db w) -> reachable (w_db (served l w)).
Proof. revert w. induction l as [|[o q] l IH]; intros w Hw; [done|]. apply IH. by apply reach_request. Qed.
Definition answer_to (o : string) (q : ml_request) (w : World MLDB) : MLReply := (serve (user o) o q w).1.

(** The row of an organization. *)
Definition row_in {C} (o : string) (t : gmap string (Row C)) : option (Row C) :=
  select_one (fun r => String.eqb (r_OrgID r) o) t.
Definition id_in {C} (o : string) (t : gmap string (Row C)) : string := match row_in o t with Some r => r_ID r | None => "" end.

Definition project (name team : string) : ml_request := QCreateProject (Some (mkProjectRequest name "model" "" (Some team) "")).
Definition projects : World MLDB := served [("a", project "p" "ta"); ("b", project "p" "tb")] start.
Definition model (o : string) : string * ml_request :=
  (o, QCreateModel (Some (mkModelRequest (id_in o (m_projects (w_db projects))) "m" "" "" "" []))).
Definition experiment (o : string) : string * ml_request :=
  (o, QCreateExperiment (Some (mkExperimentRequest (id_in o (m_projects (w_db projects))) "e" "" "" []))).
Definition built : World MLDB := served [model "a"; model "b"; experiment "a"; experiment "b"] projects.
Lemma built_reachable : reachable (w_db built).
Proof. apply served_reachable, served_reachable, reach_empty. Qed.

Example built_sizes :
  (size (m_projects (w_db built)), size (m_models (w_db built)), size (m_versions (w_db built)),
   size (m_experiments (w_db built))) = (2, 2, 2, 2).
Proof. vm_compute. reflexivity. Qed.

(** ** The hypotheses of the theorems hold here *)

Lemma reachable_registries_ok_witness : registry_ok (w_db built) /\ size (m_versions (w_db built)) = 2.
Proof. split; [apply reachable_registries_ok, built_reachable|vm_compute; reflexivity]. Defined.

Definition version_a : string := id_in "a" (m_versions (w_db built)).
Definition stage : ml_request := QCreateUpdate version_a (Some "staging").

Lemma requests_confined_to_org_witness :
  seen "b" (w_db (serve (user "a") "a" stage built).2) = seen "b" (w_db built) /\
  synced (w_db (serve (user "a") "a" stage built).2) = synced (w_db built) /\
  m_updates (w_db built) = ∅ /\ size (m_updates (w_db (serve (user "a") "a" stage built).2)) = 1.
Proof.
  pose proof (requests_confined_to_org (user "a") "a" stage built _ built_reachable eq_refl) as (Ho & _ & _ & Hs).
  split; [apply Ho; discriminate|]. split; [apply Hs; reflexivity|]. split; vm_compute; reflexivity.
Defined.

Lemma no_log d : m_updates d = ∅ -> forall id u, m_updates d !! id = Some u -> False.
Proof. intros -> id u. by rewrite lookup_empty. Qed.

Lemma version_moves_correct_witness :
  exists r w', CreateVersionDeploymentUpdate_ (user "a") "a" version_a (Some "staging") built = (r, w') /\
    status r = 201%Z /\ deployment_status version_a (w_db built) = "candidate" /\
    deployment_status version_a (w_db w') = "staging".
Proof.
  assert (status (CreateVersionDeploymentUpdate_ (user "a") "a" version_a (Some "staging") built).1 = 201%Z) as Hs
    by (vm_compute; reflexivity).
  destruct (CreateVersionDeploymentUpdate_ (user "a") "a" version_a (Some "staging") built) as [r w'] eqn:E.
  exists r, w'. split; [reflexivity|]. split; [exact Hs|]. split; [vm_compute; reflexivity|].
  destruct (version_moves_correct (user "a") "a" version_a "staging" built r w' built_reachable E)
    as [[_ Hn]|(_ & _ & Hst)]; [by destruct (Hn Hs)|].
  apply Hst. intros id u Hu. exfalso. refine (no_log (w_db built) _ id u Hu). vm_compute. reflexivity.
Defined.

Definition input (id name : string) : ModelInput :=
  mkModelInput id "p" name "" [] "" "" "" "" "" "" "" None None None "" "".
Definition sync : ml_request := QSyncModels (Some [input "1" "churn"; input "2" "fraud"]).

Lemma sync_counts_bounded_witness :
  exists n c, payload (serve (user "a") "a" sync built).1 = Json (Synced n c) /\ n = 2%Z /\ c = mkCounts 2 0 /\
    (0 <= sc_Created c /\ 0 <= sc_Updated c /\ sc_Created c + sc_Updated c <= n)%Z.
Proof.
  exists 2%Z, (mkCounts 2 0). assert (payload (serve (user "a") "a" sync built).1 = Json (Synced 2 (mkCounts 2 0))) as E
    by (vm_compute; reflexivity).
  split; [exact E|]. split; [reflexivity|]. split; [reflexivity|].
  apply (sync_counts_bounded (user "a") "a" sync built); [reflexivity|exact E].
Defined.

Definition two_models : MLEff SyncCounts := UpsertMLModels "a" "ann" [input "1" "churn"; input "2" "fraud"].
Definition is_ok {E A} (r : result E A) : bool := match r with Ok _ => true | Err _ => false end.

Lemma repeated_sync_changes_nothing_witness :
  is_ok (two_models built).1 = true /\ (two_models (two_models built).2).1 = Ok (mkCounts 0 0) /\
  w_db (two_models (two_models built).2).2 = w_db (two_models built).2.
Proof.
  assert (NoDup (map mi_MLflowID [input "1" "churn"; input "2" "fraud"])) as Hnd
    by (apply (bool_decide_unpack _); vm_compute; exact I).
  pose proof (proj1 (repeated_sync_changes_nothing "a" "ann") _ Hnd) as Hrep. fold two_models in Hrep.
  assert (is_ok (two_models built).1 = true) as E1 by (vm_compute; reflexivity).
  assert (is_ok (two_models (two_models built).2).1 = true) as E2 by (vm_compute; reflexivity).
  destruct (two_models built) as [[c|e] w1] eqn:Ew1; [|discriminate E1]. cbn [fst snd] in E2 |- *.
  destruct (two_models w1) as [[c'|e] w2] eqn:Ew2; [|discriminate E2]. cbn [fst snd].
  destruct (Hrep built w1 w1 w2 c (Ok c') built_reachable Ew1 eq_refl Ew2) as [Hd Hc].
  split; [reflexivity|]. split; [|exact Hd]. f_equal. apply Hc. reflexivity.
Defined.

(** ** What is let through *)

Definition dataset_b : string * ml_request :=
  ("b", QCreateDataset (id_in "b" (m_experiments (w_db built))) (Some (mkDatasetRequest "d" "" "" "" "" 0 []))).
Definition with_dataset : World MLDB := served [dataset_b] built.
Definition borrow : ml_request :=
  QCreateRun (id_in "a" (m_experiments (w_db built)))
    (Some (mkRunRequest "r" "" (Some 5%Z) None "" [] [] [] (Some (id_in "b" (m_datasets (w_db with_dataset)))))).
Definition borrowed : World MLDB := served [("a", borrow)] with_dataset.

(** (lemma) A run takes any dataset, of any organization: the request asks the database only whether the row
    exists, so one organization's run can point at another's dataset. *)
Theorem dataset_crosses_tenants :
  reachable (w_db borrowed) /\ status (answer_to "a" borrow with_dataset) = 201%Z /\
  match row_in "a" (m_runs (w_db borrowed)), row_in "b" (m_datasets (w_db borrowed)) with
  | Some run, Some ds => rd_DatasetID (r_Content run) = Some (r_ID ds)
  | _, _ => False
  end.
Proof.
  split; [apply served_reachable, served_reachable, built_reachable|]. split; vm_compute; reflexivity.
Qed.

(** (lemma) So does a project with a team. *)
Theorem team_of_another_org :
  status (answer_to "a" (project "q" "tb") built) = 201%Z /\
  existsb (fun r => bool_decide (pj_TeamID (r_Content r) = Some "tb") && String.eqb (r_OrgID r) "a")
    (rows (m_projects (w_db (served [("a", project "q" "tb")] built)))) = true.
Proof. split; vm_compute; reflexivity. Qed.

Definition project_a : string := id_in "a" (m_projects (w_db built)).
Definition without_project : World MLDB := served [("a", QDeleteProject project_a)] built.

(** (lemma) Creating a project under the name of a deleted one answers 201 with null: the deleted row takes
    the new columns and stays deleted. *)
Theorem recreated_project_stays_deleted :
  answer_to "a" (project "p" "ta") without_project = JSON 201 (OneProject None) /\
  live_row (C := ProjectData) "a" project_a (w_db (served [("a", project "p" "ta")] without_project)) = None.
Proof. split; vm_compute; reflexivity. Qed.

(** (lemma) Creating a project under the name of a live one answers 201 too: it is an update of that project. *)
Theorem created_project_overwrites :
  status (answer_to "a" (QCreateProject (Some (mkProjectRequest "p" "training" "" (Some "ta") ""))) built) = 201%Z /\
  match live_row (C := ProjectData) "a" project_a
          (w_db (served [("a", QCreateProject (Some (mkProjectRequest "p" "training" "" (Some "ta") "")))] built)) with
  | Some r => pj_Type (r_Content r) = "training"
  | None => False
  end.
Proof. split; vm_compute; reflexivity. Qed.

Definition with_run : World MLDB :=
  served [("a", QCreateRun (id_in "a" (m_experiments (w_db built)))
                  (Some (mkRunRequest "r" "" (Some 5%Z) None "" [] [] [] None)))] built.
Definition upload : ml_request :=
  QUploadArtifact (id_in "a" (m_runs (w_db with_run))) (mkUploadForm 4 (Some (mkUpload "f.txt" "" "data")) "" "" "" "").

(** (lemma) An upload without a type is refused after its bytes are stored: they stay, and no row names them. *)
Theorem refused_upload_leaves_object :
  answer_to "a" upload with_run = BadRequest "type is required" /\
  size (m_artifacts (w_db (served [("a", upload)] with_run))) = 0 /\
  size (m_blobs (w_db (served [("a", upload)] with_run))) = 1.
Proof. split_and!; vm_compute; reflexivity. Qed.
End MLDemo.
