(* ===== verification/Float64.v ===== *)
(** * Float64: the numbers of type [float64]

    IEEE 754 binary64 as the Standard Library specifies it ([SpecFloat], without
    the machine's primitives): the operations the program applies to amounts of
    money, comparison, and sums in the order of a loop.  Comparison is a strict
    order that leaves NaN apart. *)

From Stdlib Require Import SpecFloat.
From S2P Require Import Prelude.

Definition float64 : Type := spec_float.
Definition f_zero : float64 := S754_zero false.

Definition fadd : float64 -> float64 -> float64 := SFadd 53 1024.
Definition fsub : float64 -> float64 -> float64 := SFsub 53 1024.
Definition fmul : float64 -> float64 -> float64 := SFmul 53 1024.
Definition fdiv : float64 -> float64 -> float64 := SFdiv 53 1024.
Definition fltb : float64 -> float64 -> bool := SFltb.
(** [float64(n)] *)
Definition float_of (n : Z) : float64 := binary_normalize 53 1024 n 0 false.

(** [var total float64; for _, x := range l { total += x }] *)
Definition float_sum (l : list float64) : float64 := fold_left fadd l f_zero.

Example float_arithmetic :
  fadd (float_of 100) (float_of 250) = float_of 350 /\
  fmul (fdiv (fsub (float_of 12) (float_of 8)) (float_of 8)) (float_of 100) = float_of 50 /\
  fltb (float_of 100) (float_of 250) = true.
Proof. by vm_compute. Qed.

(** ** Comparison

    [SFcompare] orders the numbers by class, then exponent, then mantissa. *)

Definition rank (x : float64) : Z * Z * Z :=
  match x with
  | S754_infinity true => (-2, 0, 0)
  | S754_finite true m e => (-1, - e, - Z.pos m)
  | S754_zero _ | S754_nan => (0, 0, 0)
  | S754_finite false m e => (1, e, Z.pos m)
  | S754_infinity false => (2, 0, 0)
  end%Z.
Definition is_nan (x : float64) : bool := match x with S754_nan => true | _ => false end.
Definition rank_lt (a b : Z * Z * Z) : Prop :=
  (a.1.1 < b.1.1 \/ a.1.1 = b.1.1 /\ (a.1.2 < b.1.2 \/ a.1.2 = b.1.2 /\ a.2 < b.2))%Z.

Lemma fltb_rank x y : fltb x y = true <-> is_nan x = false /\ is_nan y = false /\ rank_lt (rank x) (rank y).
Proof.
  unfold fltb, SFltb, rank_lt, rank, is_nan, SFcompare.
  destruct x as [[]|[]| |[] m e], y as [[]|[]| |[] m' e']; cbn; try (split; [done|intuition lia]); try (split; [intuition lia|done]).
  all: change (PosDef.Pos.compare_cont Eq m m') with (m ?= m')%positive;
    destruct (Z.compare_spec e e') as [->|He|He], (Pos.compare_spec m m') as [->|Hm|Hm]; cbn;
    (split; [intuition (congruence || lia)|intuition (congruence || lia)]).
Qed.

Lemma fltb_irrefl x : fltb x x = false.
Proof. apply not_true_iff_false. intros (_ & _ & Hl)%fltb_rank. unfold rank_lt in Hl. lia. Qed.
Lemma fltb_trans x y z : fltb x y = true -> fltb y z = true -> fltb x z = true.
Proof. rewrite !fltb_rank. unfold rank_lt. intuition lia. Qed.
Lemma fltb_asym x y : fltb x y = true -> fltb y x = false.
Proof. intros Hxy. apply not_true_iff_false. intros Hyx. pose proof (fltb_trans _ _ _ Hxy Hyx) as E. by rewrite fltb_irrefl in E. Qed.

(** Positive numbers that are not apart are the same. *)
Lemma fltb_positive_eq x y :
  fltb f_zero x = true -> fltb f_zero y = true -> fltb x y = false -> fltb y x = false -> x = y.
Proof.
  intros Hx%fltb_rank Hy%fltb_rank Hxy Hyx. rewrite <-not_true_iff_false, fltb_rank in Hxy, Hyx.
  unfold rank_lt, rank, is_nan in *.
  destruct x as [[]|[]| |[] m e], y as [[]|[]| |[] m' e']; cbn in *; try (intuition lia); try done.
  assert (e = e' /\ Z.pos m = Z.pos m')%Z as [-> [= ->]] by intuition lia. done.
Qed.
