(* ===== verification/Billing.v ===== *)
(** * Billing: cloud costs, tags and the dashboard

    Models [internal/billing/billing.go], [match.go] and [provider.go]: the data
    of cloud connections, tag rules, resources and costs, the check of a
    credential payload, how rules match the tags of resources, and the summary of
    the cost dashboard.  A Go map is ranged over in an order the runtime chooses
    ([RangeOrder]); amounts are [float64]s.  A resource's tags are a map that is
    not nil, as the adapter makes it. *)

From S2P Require Import Prelude GoStrings Table Float64.
Set Warnings "-clear-no-such-hyp".

(** ** Data *)

Definition ProviderAWS := "aws".
Definition ProviderAzure := "azure".
Definition ProviderGCP := "gcp".
Definition ConnectionStatusPending := "pending".
Definition ConnectionStatusConnected := "connected".
Definition ConnectionStatusSyncing := "syncing".
Definition ConnectionStatusError := "error".
Definition ResourceStatusRunning := "running".

Record Connection := mkConnection {
  cn_ID : string; cn_OrgID : string; cn_Provider : string; cn_DisplayName : string; cn_Status : string;
  cn_StatusMessage : string; cn_LastVerifiedAt : option Z; cn_CreatedBy : string; cn_UpdatedBy : option string;
  cn_CreatedAt : Z; cn_UpdatedAt : Z
}.
Record ConnectionInput := mkConnectionInput {
  in_Provider : string; in_DisplayName : string; in_RoleARN : string; in_ExternalID : string;
  in_ServiceAccountJSON : string; in_BillingDataset : string; in_TenantID : string; in_ClientID : string;
  in_ClientSecret : string; in_SubscriptionID : string
}.
Record TagRule := mkTagRule {
  tr_ID : string; tr_OrgID : string; tr_ServiceID : string; tr_TagKey : string; tr_TagValue : string;
  tr_CreatedBy : string; tr_CreatedAt : Z
}.
Record Resource := mkResource {
  rs_ID : string; rs_OrgID : string; rs_CloudConnectionID : string; rs_ExternalResourceID : string; rs_Name : string;
  rs_ResourceType : string; rs_Provider : string; rs_Region : string; rs_Environment : string; rs_Status : string;
  rs_MonthlyCostUSD : float64; rs_Tags : gmap string string; rs_MatchedTags : list string; rs_LastSyncedAt : Z
}.
Record TrendPoint := mkTrendPoint {
  tp_Date : string; tp_TotalUSD : float64; tp_AWSUSD : float64; tp_AzureUSD : float64; tp_GCPUSD : float64
}.
Record ResourceDailyCost := mkDailyCost { dc_Date : string; dc_CostUSD : float64 }.
Record Summary := mkSummary {
  sm_TotalMonthlyCostUSD : float64; sm_MoMChangePct : float64; sm_ResourceCount : Z; sm_ProviderCount : Z;
  sm_TopCostDriverLabel : string; sm_TopCostDriverUSD : float64
}.
Record SyncRun := mkSyncRun {
  sn_ID : string; sn_CloudConnectionID : string; sn_StartedAt : Z; sn_FinishedAt : option Z; sn_Status : string;
  sn_ResourceCount : option Z; sn_ErrorMessage : option string
}.
Record UsagePoint := mkUsagePoint { ug_ExternalResourceID : string; ug_Date : string; ug_CostUSD : float64 }.
Record SyncResult := mkSyncResult { sy_Resources : list Resource; sy_Usage : list UsagePoint }.

Definition with_matched (r : Resource) (m : list string) : Resource :=
  mkResource (rs_ID r) (rs_OrgID r) (rs_CloudConnectionID r) (rs_ExternalResourceID r) (rs_Name r) (rs_ResourceType r)
    (rs_Provider r) (rs_Region r) (rs_Environment r) (rs_Status r) (rs_MonthlyCostUSD r) (rs_Tags r) m
    (rs_LastSyncedAt r).
Definition with_cost (r : Resource) (c : float64) : Resource :=
  mkResource (rs_ID r) (rs_OrgID r) (rs_CloudConnectionID r) (rs_ExternalResourceID r) (rs_Name r) (rs_ResourceType r)
    (rs_Provider r) (rs_Region r) (rs_Environment r) (rs_Status r) c (rs_Tags r) (rs_MatchedTags r) (rs_LastSyncedAt r).

(** The errors of [errors.go]. *)
Inductive billing_sentinel : Type :=
| ErrConnectionNotFound
| ErrTagRuleNotFound
| ErrUnknownProvider
| ErrInvalidCredential.

Definition Validate (i : ConnectionInput) : option billing_sentinel :=
  let missing := fun l => if existsb str_empty l then Some ErrInvalidCredential else None in
  if String.eqb (in_Provider i) ProviderAWS then missing [in_RoleARN i; in_ExternalID i]
  else if String.eqb (in_Provider i) ProviderGCP then missing [in_ServiceAccountJSON i; in_BillingDataset i]
  else if String.eqb (in_Provider i) ProviderAzure
       then missing [in_TenantID i; in_ClientID i; in_ClientSecret i; in_SubscriptionID i]
  else Some ErrUnknownProvider.

(** ** Maps *)

(** The order in which [range] visits a map. *)
Class RangeOrder := {
  ranged {V} (m : gmap string V) : list (string * V);
  ranged_perm {V} (m : gmap string V) : ranged m ≡ₚ map_to_list m
}.

Lemma ranged_elem `{RangeOrder} {V} (m : gmap string V) k v : (k, v) ∈ ranged m <-> m !! k = Some v.
Proof. by rewrite ranged_perm, elem_of_map_to_list. Qed.

(** What a client sees of a resource: its tags as sorted texts. *)
Definition tag_list `{RangeOrder} (tags : gmap string string) : list string :=
  sort_stable str_less (map (fun kv => kv.1 +:+ ":" +:+ kv.2) (ranged tags)).
Record ResourceView := mkResourceView { rv_Resource : Resource; rv_Tags : list string }.
Definition MarshalJSON `{RangeOrder} (r : Resource) : ResourceView := mkResourceView r (tag_list (rs_Tags r)).

(** ** Matching tags: [match.go] *)

Fixpoint MatchTags (tags : gmap string string) (rules : list TagRule) : list string :=
  match rules with
  | [] => []
  | rule :: rules' =>
      match tags !! tr_TagKey rule with
      | Some v => if String.eqb v (tr_TagValue rule)
                  then (tr_TagKey rule +:+ ":" +:+ tr_TagValue rule) :: MatchTags tags rules'
                  else MatchTags tags rules'
      | None => MatchTags tags rules'
      end
  end.

Fixpoint filter_matched (resources : list Resource) (rules : list TagRule) : list Resource :=
  match resources with
  | [] => []
  | r :: rs => match MatchTags (rs_Tags r) rules with
               | [] => filter_matched rs rules
               | matched => with_matched r matched :: filter_matched rs rules
               end
  end.
Definition FilterMatched (resources : list Resource) (rules : list TagRule) : list Resource :=
  match rules with [] => [] | _ => filter_matched resources rules end.

Definition matches (tags : gmap string string) (rule : TagRule) : bool :=
  bool_decide (tags !! tr_TagKey rule = Some (tr_TagValue rule)).

(** ** The dashboard *)

Definition sumRange (points : list TrendPoint) : float64 := float_sum (map tp_TotalUSD points).

Definition add_cost (m : gmap string float64) (r : Resource) : gmap string float64 :=
  <[rs_ResourceType r := fadd (default f_zero (m !! rs_ResourceType r)) (rs_MonthlyCostUSD r)]> m.
Definition type_costs (resources : list Resource) : gmap string float64 := fold_left add_cost resources ∅.
Definition dearer (top entry : string * float64) : string * float64 := if fltb top.2 entry.2 then entry else top.

Definition month_change (trend : list TrendPoint) : float64 :=
  let n := length trend in
  if n <? 60 then f_zero else
  let current := sumRange (drop (n - 30) trend) in
  let previous := sumRange (take 30 (drop (n - 60) trend)) in
  if fltb f_zero previous then fmul (fdiv (fsub current previous) previous) (float_of 100) else f_zero.

Definition ComputeSummary `{RangeOrder} (resources : list Resource) (trend : list TrendPoint) : Summary :=
  let top := fold_left dearer (ranged (type_costs resources)) ("", f_zero) in
  mkSummary (float_sum (map rs_MonthlyCostUSD resources)) (month_change trend) (Z.of_nat (length resources))
    (Z.of_nat (size (list_to_set (map rs_Provider resources) : gset string))) top.1 top.2.

(** ** Facts of matching *)

Lemma MatchTags_filter tags rules :
  MatchTags tags rules = map (fun rule => tr_TagKey rule +:+ ":" +:+ tr_TagValue rule) (List.filter (matches tags) rules).
Proof.
  induction rules as [|rule rules IH]; cbn; [done|]. unfold matches at 1.
  destruct (tags !! tr_TagKey rule) as [v|]; [|by rewrite bool_decide_false].
  destruct (String.eqb_spec v (tr_TagValue rule)) as [->|Hne];
    [rewrite bool_decide_true by done|rewrite bool_decide_false by congruence]; cbn; by rewrite IH.
Qed.

Lemma MatchTags_nil tags rules : MatchTags tags rules = [] <-> existsb (matches tags) rules = false.
Proof.
  rewrite MatchTags_filter. induction rules as [|rule rules IH]; cbn; [done|].
  by destruct (matches tags rule).
Qed.

Lemma filter_matched_spec resources rules :
  filter_matched resources rules =
  map (fun r => with_matched r (MatchTags (rs_Tags r) rules))
    (List.filter (fun r => existsb (matches (rs_Tags r)) rules) resources).
Proof.
  induction resources as [|r rs IH]; cbn; [done|]. pose proof (MatchTags_nil (rs_Tags r) rules) as Hn.
  destruct (MatchTags (rs_Tags r) rules) eqn:E, (existsb (matches (rs_Tags r)) rules); cbn; rewrite ?E, IH; try done;
    naive_solver.
Qed.

Lemma FilterMatched_spec resources rules :
  FilterMatched resources rules =
  map (fun r => with_matched r (MatchTags (rs_Tags r) rules))
    (List.filter (fun r => existsb (matches (rs_Tags r)) rules) resources).
Proof.
  destruct rules as [|rule rules]; [|apply filter_matched_spec]. cbn. by induction resources.
Qed.

(** ** Facts of the dashboard *)

(** The cost of one type: its resources in order. *)
Definition type_cost (ty : string) (resources : list Resource) : float64 :=
  float_sum (map rs_MonthlyCostUSD (List.filter (fun r => String.eqb (rs_ResourceType r) ty) resources)).

Lemma type_costs_fold resources m ty :
  fold_left add_cost resources m !! ty =
  match List.filter (fun r => String.eqb (rs_ResourceType r) ty) resources with
  | [] => m !! ty
  | l => Some (fold_left fadd (map rs_MonthlyCostUSD l) (default f_zero (m !! ty)))
  end.
Proof.
  revert m. induction resources as [|r rs IH]; intros m; cbn; [done|]. rewrite IH. unfold add_cost.
  destruct (String.eqb_spec (rs_ResourceType r) ty) as [->|Hne].
  - rewrite lookup_insert_eq. cbn. by destruct (List.filter _ rs).
  - by rewrite lookup_insert_ne by done.
Qed.

Lemma type_costs_lookup resources ty c :
  type_costs resources !! ty = Some c <-> ty ∈ map rs_ResourceType resources /\ c = type_cost ty resources.
Proof.
  unfold type_costs, type_cost, float_sum. rewrite type_costs_fold, lookup_empty. cbn.
  assert (ty ∈ map rs_ResourceType resources <->
          List.filter (fun r => String.eqb (rs_ResourceType r) ty) resources <> []) as ->.
  { induction resources as [|r rs IH]; cbn; [split; [by intros ?%elem_of_nil|done]|].
    rewrite elem_of_cons, IH. destruct (String.eqb_spec (rs_ResourceType r) ty) as [->|Hne]; cbn; [by split; auto|].
    split; [by intros [?|?]|auto]. }
  destruct (List.filter _ _); split; intros; destruct_and?; simplify_eq/=; done.
Qed.

Lemma dearer_fold l top :
  let best := fold_left dearer l top in
  (best = top \/ best ∈ l /\ fltb top.2 best.2 = true) /\ Forall (fun e => fltb best.2 e.2 = false) (top :: l).
Proof.
  revert top. induction l as [|e l IH]; intros top; cbn.
  { split; [by left|]. repeat constructor. apply fltb_irrefl. }
  destruct (IH (dearer top e)) as [Hb [Ht Hl]%Forall_cons]. unfold dearer in *. destruct (fltb top.2 e.2) eqn:E.
  - split; [right; destruct Hb as [->|[Hin Hlt]]; [by split; [left|]|split; [by right|by eapply fltb_trans]]|].
    repeat constructor; [|done..]. destruct Hb as [->|[_ Hlt]]; [by apply fltb_asym|].
    apply fltb_asym. by eapply fltb_trans.
  - split; [destruct Hb as [->|[Hin Hlt]]; [by left|right; split; [by right|done]]|].
    repeat constructor; [done| |done]. destruct Hb as [->|[_ Hlt]]; [done|].
    apply not_true_iff_false. intros Hbe. by rewrite (fltb_trans _ _ _ Hlt Hbe) in E.
Qed.

(** The type shown as the top cost driver. *)
Definition top_driver (resources : list Resource) (label : string) (usd : float64) : Prop :=
  (forall ty, ty ∈ map rs_ResourceType resources -> fltb usd (type_cost ty resources) = false) /\
  (label = "" /\ usd = f_zero \/
   label ∈ map rs_ResourceType resources /\ usd = type_cost label resources /\ fltb f_zero usd = true).

Lemma ComputeSummary_top `{RangeOrder} resources trend :
  top_driver resources (sm_TopCostDriverLabel (ComputeSummary resources trend))
    (sm_TopCostDriverUSD (ComputeSummary resources trend)).
Proof.
  cbn. pose proof (dearer_fold (ranged (type_costs resources)) ("", f_zero)) as [Hb [_ Hl]%Forall_cons].
  destruct (fold_left dearer _ _) as [label usd]. cbn in *. split.
  - intros ty Hty. rewrite Forall_forall in Hl. apply (Hl (ty, type_cost ty resources)).
    by apply ranged_elem, type_costs_lookup.
  - destruct Hb as [[= -> ->]|[[Hty ->]%ranged_elem%type_costs_lookup Hlt]]; [by left|right; done].
Qed.

Lemma top_driver_usd resources l1 u1 l2 u2 :
  top_driver resources l1 u1 -> top_driver resources l2 u2 -> u1 = u2.
Proof.
  intros [Hm1 Ht1] [Hm2 Ht2]. destruct Ht1 as [[-> ->]|(H1 & E1 & P1)], Ht2 as [[-> ->]|(H2 & E2 & P2)]; [done| | |].
  - specialize (Hm1 l2 H2). by rewrite <-E2, P2 in Hm1.
  - specialize (Hm2 l1 H1). by rewrite <-E1, P1 in Hm2.
  - apply fltb_positive_eq; [done|done|rewrite E2; auto|rewrite E1; auto].
Qed.

(** (lemma) The summary of a dashboard adds up the costs, counts resources and distinct
    providers, names a type of resource whose cost no other type exceeds (no type
    when none costs anything), and compares the last thirty points of the trend
    with the thirty before.  The amounts do not depend on the order in which Go
    visits its maps; which of two equally dear types is named does. *)
Theorem ComputeSummary_correct (o : RangeOrder) resources trend :
  let s := ComputeSummary resources trend in
  sm_TotalMonthlyCostUSD s = float_sum (map rs_MonthlyCostUSD resources) /\
  sm_ResourceCount s = Z.of_nat (length resources) /\
  (exists providers, NoDup providers /\ (forall p, p ∈ providers <-> p ∈ map rs_Provider resources) /\
     sm_ProviderCount s = Z.of_nat (length providers)) /\
  top_driver resources (sm_TopCostDriverLabel s) (sm_TopCostDriverUSD s) /\
  (forall o' : RangeOrder, sm_TopCostDriverUSD (ComputeSummary (H := o') resources trend) = sm_TopCostDriverUSD s) /\
  (length trend < 60 -> sm_MoMChangePct s = f_zero) /\
  (forall older previous current,
     trend = (older ++ previous ++ current)%list -> length previous = 30 -> length current = 30 ->
     sm_MoMChangePct s =
       if fltb f_zero (sumRange previous)
       then fmul (fdiv (fsub (sumRange current) (sumRange previous)) (sumRange previous)) (float_of 100)
       else f_zero).
Proof.
  cbv zeta. split_and!; [done|done| | | | |].
  - exists (elements (list_to_set (map rs_Provider resources) : gset string)).
    split; [apply NoDup_elements|]. split; [|done]. intros p. by rewrite elem_of_elements, elem_of_list_to_set.
  - apply ComputeSummary_top.
  - intros o'. eapply top_driver_usd; apply ComputeSummary_top.
  - intros Hn%Nat.ltb_lt. unfold ComputeSummary. cbn [sm_MoMChangePct]. unfold month_change. by rewrite Hn.
  - intros older previous current -> Hp Hc. unfold ComputeSummary. cbn [sm_MoMChangePct]. unfold month_change.
    assert (length (older ++ previous ++ current) = length older + 60) as -> by (rewrite !length_app; lia).
    replace (length older + 60 <? 60) with false by (symmetry; apply Nat.ltb_ge; lia).
    replace (length older + 60 - 60) with (length older) by lia.
    replace (length older + 60 - 30) with (length (older ++ previous)) by (rewrite length_app; lia).
    rewrite drop_app_length, (take_app_length' previous) by done. by rewrite app_assoc, drop_app_length.
Qed.
