(* ===== verification/AwsBilling.v ===== *)
(** * AwsBilling: resources and their costs at AWS

    Models the pure part of [internal/billing/providers/aws]: classifying a
    tagged resource by its ARN ([resources.go]), sharing a day's total of a
    service among its resources ([costs.go]) and putting the result of a sync
    together ([aws.go]).  The pages of the AWS SDK - resources with their tags,
    totals by day and service - are arguments. *)

From S2P Require Import Prelude GoStrings Float64 Billing.
Set Warnings "-clear-no-such-hyp".

(** ** ARNs *)

(** [strings.SplitN(s, sep, n)] for n > 0. *)
Fixpoint SplitN (n : nat) (s : string) (sep : ascii) : list string :=
  match n with
  | 0 | 1 => [s]
  | S n' => let '(before, after, ok) := Cut s sep in
            if ok then before :: SplitN n' after sep else [s]
  end.

Definition is_separator (a : ascii) : bool := Ascii.eqb a "/" || Ascii.eqb a ":".
(** [s[:IndexAny(s, seps)]], or [s] when there is none. *)
Fixpoint before_separator (s : string) : string :=
  match s with
  | EmptyString => EmptyString
  | String a s' => if is_separator a then EmptyString else String a (before_separator s')
  end.
(** [s[LastIndexAny(s, seps)+1:]], or [s] when there is none. *)
Fixpoint after_separator (s : string) : string :=
  match s with
  | EmptyString => EmptyString
  | String a s' => if exists_byte is_separator s' then after_separator s'
                   else if is_separator a then s' else s
  end.

Record arnInfo := mkArnInfo { ai_resourceType : string; ai_ceServiceName : string }.

Definition arnServiceInfo (service resourceID : string) : option arnInfo :=
  let prefix := before_separator resourceID in
  if String.eqb service "ec2" then
    if String.eqb prefix "instance" then Some (mkArnInfo "compute" "Amazon Elastic Compute Cloud - Compute")
    else if String.eqb prefix "volume" then Some (mkArnInfo "storage" "EC2 - Other")
    else if mem_str prefix ["natgateway"; "vpc"; "vpc-endpoint"; "subnet"] then Some (mkArnInfo "network" "EC2 - Other")
    else None
  else if String.eqb service "rds" then Some (mkArnInfo "database" "Amazon Relational Database Service")
  else if String.eqb service "dynamodb" then Some (mkArnInfo "database" "Amazon DynamoDB")
  else if String.eqb service "s3" then Some (mkArnInfo "storage" "Amazon Simple Storage Service")
  else if String.eqb service "sqs" then Some (mkArnInfo "queue" "Amazon Simple Queue Service")
  else if String.eqb service "elasticloadbalancing" then Some (mkArnInfo "load_balancer" "Amazon Elastic Load Balancing")
  else if String.eqb service "lambda" then Some (mkArnInfo "serverless" "AWS Lambda")
  else if String.eqb service "elasticache" then Some (mkArnInfo "cache" "Amazon ElastiCache")
  else if String.eqb service "eks" then Some (mkArnInfo "kubernetes" "Amazon Elastic Kubernetes Service")
  else None.

(** ** Resources *)

Record ResourceTagMapping := mkMapping { mp_ResourceARN : option string; mp_Tags : list (option string * option string) }.
Record awsResource := mkAwsResource { ar_Resource : Resource; ar_ceServiceName : string }.

Definition tag_map (tags : list (option string * option string)) : gmap string string :=
  fold_left (fun m t => match t with (Some k, Some v) => <[k := v]> m | _ => m end) tags ∅.

Definition first_tag (tags : gmap string string) (keys : list string) : option string := head (omap (tags !!.) keys).

Definition toResource `{UnicodeCase} (m : ResourceTagMapping) : option awsResource :=
  let arnStr := default "" (mp_ResourceARN m) in
  match SplitN 6 arnStr ":" with
  | [_; _; service; region; _; resourceID] =>
      match arnServiceInfo service resourceID with
      | None => None
      | Some info =>
          let tags := tag_map (mp_Tags m) in
          let name := match tags !! "Name" with
                      | Some v => if str_empty v then after_separator resourceID else v
                      | None => after_separator resourceID
                      end in
          let environment := match first_tag tags ["environment"; "Environment"; "env"; "Env"] with
                             | Some v => ToLower v
                             | None => ""
                             end in
          Some (mkAwsResource
            (mkResource "" "" "" arnStr name (ai_resourceType info) ProviderAWS (if str_empty region then "global" else region)
               environment ResourceStatusRunning f_zero tags [] 0)
            (ai_ceServiceName info))
      end
  | _ => None
  end.

(** ** Costs *)

(** Day, then AWS service, to the total of the day. *)
Definition dailyServiceCosts : Type := gmap string (gmap string float64).

Definition ext_of (r : awsResource) : string := rs_ExternalResourceID (ar_Resource r).
Definition of_service (service : string) (resources : list awsResource) : list awsResource :=
  List.filter (fun r => String.eqb (ar_ceServiceName r) service) resources.
(** [countByService] *)
Definition count_service (service : string) (resources : list awsResource) : Z :=
  Z.of_nat (length (of_service service resources)).

Definition share (resources : list awsResource) (date : string) (st : string * float64) : list UsagePoint :=
  let n := count_service st.1 resources in
  if Z.eqb n 0 then [] else
  let perResource := fdiv st.2 (float_of n) in
  map (fun r => mkUsagePoint (ext_of r) date perResource) (of_service st.1 resources).

Definition allocateCosts `{RangeOrder} (resources : list awsResource) (costs : dailyServiceCosts) : list UsagePoint :=
  ranged costs ≫= (fun day => ranged day.2 ≫= share resources day.1).

Definition add_usage (m : gmap string float64) (u : UsagePoint) : gmap string float64 :=
  <[ug_ExternalResourceID u := fadd (default f_zero (m !! ug_ExternalResourceID u)) (ug_CostUSD u)]> m.

(** The end of [Sync]: the window is thirty days, so the month is its sum times one. *)
Definition sync_result `{RangeOrder} (resources : list awsResource) (costs : dailyServiceCosts) : SyncResult :=
  let usage := allocateCosts resources costs in
  let monthly := fold_left add_usage usage ∅ in
  mkSyncResult
    (map (fun r => with_cost (ar_Resource r) (fmul (default f_zero (monthly !! ext_of r)) (float_of 1))) resources)
    usage.

Example arn_table `{UnicodeCase} :
  option_map (fun r => (rs_Name (ar_Resource r), rs_ResourceType (ar_Resource r), ar_ceServiceName r))
    (toResource (mkMapping (Some "arn:aws:ec2:eu-west-1:1234:instance/i-0abc") [])) =
  Some ("i-0abc", "compute", "Amazon Elastic Compute Cloud - Compute") /\
  option_map (fun r => (rs_Name (ar_Resource r), rs_Region (ar_Resource r)))
    (toResource (mkMapping (Some "arn:aws:s3:::bucket") [(Some "Name", Some "logs")])) = Some ("logs", "global") /\
  toResource (mkMapping (Some "arn:aws:iam::1234:role/x") []) = None.
Proof. by vm_compute. Qed.

(** ** What is allocated *)

Section Allocation.
Context `{RangeOrder} (resources : list awsResource) (costs : dailyServiceCosts).

Lemma of_service_elem service r : r ∈ of_service service resources <-> r ∈ resources /\ ar_ceServiceName r = service.
Proof. unfold of_service. by rewrite list_elem_of_In, List.filter_In, <-list_elem_of_In, String.eqb_eq. Qed.

Lemma share_elem date st u :
  u ∈ share resources date st <->
  exists r, r ∈ resources /\ ar_ceServiceName r = st.1 /\
    u = mkUsagePoint (ext_of r) date (fdiv st.2 (float_of (count_service st.1 resources))).
Proof.
  unfold share. destruct (Z.eqb_spec (count_service st.1 resources) 0) as [E|E].
  - split; [by intros ?%elem_of_nil|]. intros (r & Hr & Hs & _).
    assert (r ∈ of_service st.1 resources) as Hin by (by apply of_service_elem).
    unfold count_service in E. destruct (of_service st.1 resources); [by apply elem_of_nil in Hin|cbn in E; lia].
  - rewrite list_elem_of_fmap. setoid_rewrite of_service_elem. naive_solver.
Qed.

Lemma allocateCosts_elem u :
  u ∈ allocateCosts resources costs <->
  exists byService total r, costs !! ug_Date u = Some byService /\ byService !! ar_ceServiceName r = Some total /\
    r ∈ resources /\ ug_ExternalResourceID u = ext_of r /\
    ug_CostUSD u = fdiv total (float_of (count_service (ar_ceServiceName r) resources)).
Proof.
  unfold allocateCosts. rewrite list_elem_of_bind. setoid_rewrite list_elem_of_bind. split.
  - intros ((date & byService) & ((service & total) & Hu & Hs%ranged_elem) & Hd%ranged_elem).
    apply share_elem in Hu as (r & Hr & Hr' & ->). cbn in *. exists byService, total, r. by rewrite Hr'.
  - intros (byService & total & r & Hd & Hs & Hr & He & Hc). exists (ug_Date u, byService).
    split; [|by apply ranged_elem]. exists (ar_ceServiceName r, total). split; [|by apply ranged_elem].
    apply share_elem. exists r. split_and!; [done|done|]. destruct u; cbn in *. by subst.
Qed.

(** The day and the resource of a point, under which the store keeps it. *)
Definition usage_key (u : UsagePoint) : string * string := (ug_ExternalResourceID u, ug_Date u).

Lemma fmap_bind_key {A B} (f : A -> list UsagePoint) (key : UsagePoint -> B) l :
  map key (l ≫= f) = l ≫= (fun x => map key (f x)).
Proof. induction l as [|x l IH]; cbn; [done|]. by rewrite map_app, IH. Qed.

Lemma NoDup_ranged {V} (m : gmap string V) : NoDup (ranged m).
Proof. rewrite ranged_perm. apply NoDup_map_to_list. Qed.

Lemma share_keys date st x : x ∈ map usage_key (share resources date st) -> x.2 = date /\
  exists r, r ∈ resources /\ ext_of r = x.1 /\ ar_ceServiceName r = st.1.
Proof. intros (u & -> & (r & Hr & Hs & ->)%share_elem)%list_elem_of_fmap. cbn. by split; [|exists r]. Qed.

Lemma ext_unique r r' : NoDup (map ext_of resources) -> r ∈ resources -> r' ∈ resources -> ext_of r = ext_of r' -> r = r'.
Proof.
  induction resources as [|x l IH]; cbn; [by intros _ ?%elem_of_nil|]. intros [Hx Hl]%NoDup_cons.
  intros [->|Hr]%elem_of_cons [->|Hr']%elem_of_cons E; [done| | |auto].
  - destruct Hx. rewrite E. by apply list_elem_of_fmap_2.
  - destruct Hx. rewrite <-E. by apply list_elem_of_fmap_2.
Qed.

Lemma allocateCosts_once : NoDup (map ext_of resources) -> NoDup (map usage_key (allocateCosts resources costs)).
Proof.
  intros Hnd. unfold allocateCosts. rewrite fmap_bind_key. apply NoDup_bind; [| |apply NoDup_ranged].
  - intros [d m] [d' m'] x Hm Hm'. rewrite !fmap_bind_key, !list_elem_of_bind. cbn.
    intros (st & Hx & _) (st' & Hx' & _). apply share_keys in Hx as [<- _], Hx' as [E _]. subst d'.
    apply ranged_elem in Hm, Hm'. congruence.
  - intros [d m] _. cbn. rewrite fmap_bind_key. apply NoDup_bind; [| |apply NoDup_ranged].
    + intros [s t] [s' t'] x Hs%ranged_elem Hs'%ranged_elem Hx Hx'.
      apply share_keys in Hx as [_ (r & Hr & E & Es)], Hx' as [_ (r' & Hr' & E' & Es')].
      assert (r = r') as -> by (apply ext_unique; congruence). cbn in *. congruence.
    + intros [s t] _. unfold share. case_match; [constructor|]. rewrite map_map. cbn.
      rewrite <-(map_map ext_of (fun e => (e, d))). apply NoDup_fmap_2; [by intros ?? [=]|].
      unfold of_service. clear -Hnd. induction resources as [|x l IH]; [done|]. cbn in *.
      apply NoDup_cons in Hnd as [Hx Hl]. case_match; cbn; [|auto]. constructor; [|auto].
      intros (y & Hy & Hin)%list_elem_of_fmap. apply list_elem_of_In, List.filter_In in Hin as [Hin%list_elem_of_In _].
      destruct Hx. rewrite Hy. by apply list_elem_of_fmap_2.
Qed.
End Allocation.

(** The points are the same in every order, up to their own. *)
Lemma allocateCosts_order (o o' : RangeOrder) resources costs :
  allocateCosts (H := o) resources costs ≡ₚ allocateCosts (H := o') resources costs.
Proof.
  unfold allocateCosts. rewrite (ranged_perm (RangeOrder := o)), (ranged_perm (RangeOrder := o')).
  match goal with |- ?days ≫= _ ≡ₚ _ => induction days as [|[d m] l IH] end; cbn; [done|]. rewrite IH.
  by rewrite (ranged_perm (RangeOrder := o)), (ranged_perm (RangeOrder := o')).
Qed.

Lemma add_usage_fold usage m ext :
  fold_left add_usage usage m !! ext =
  match List.filter (fun u => String.eqb (ug_ExternalResourceID u) ext) usage with
  | [] => m !! ext
  | l => Some (fold_left fadd (map ug_CostUSD l) (default f_zero (m !! ext)))
  end.
Proof.
  revert m. induction usage as [|u us IH]; intros m; cbn; [done|]. rewrite IH. unfold add_usage.
  destruct (String.eqb_spec (ug_ExternalResourceID u) ext) as [->|Hne].
  - rewrite lookup_insert_eq. cbn. by destruct (List.filter _ us).
  - by rewrite lookup_insert_ne by done.
Qed.

(** The points of one resource. *)
Definition points_of (ext : string) (usage : list UsagePoint) : list UsagePoint :=
  List.filter (fun u => String.eqb (ug_ExternalResourceID u) ext) usage.

(** (lemma) The costs of a sync: each day's total of an AWS service is divided by the
    number of its resources, every one of them gets that share and nothing else
    is given out; a resource has at most one share a day, so storing them
    overwrites none; and the month of a resource is the sum of its shares.  The
    order of Go's maps changes only the order of the shares. *)
Theorem sync_result_correct (o : RangeOrder) resources costs :
  NoDup (map ext_of resources) ->
  let usage := sy_Usage (sync_result resources costs) in
  (forall u, u ∈ usage <->
     exists byService total r, costs !! ug_Date u = Some byService /\ byService !! ar_ceServiceName r = Some total /\
       r ∈ resources /\ ug_ExternalResourceID u = ext_of r /\
       ug_CostUSD u = fdiv total (float_of (count_service (ar_ceServiceName r) resources))) /\
  NoDup (map usage_key usage) /\
  (forall o' : RangeOrder, sy_Usage (sync_result (H := o') resources costs) ≡ₚ usage) /\
  Forall2 (fun r s => rs_ExternalResourceID s = ext_of r /\ rs_Tags s = rs_Tags (ar_Resource r) /\
             rs_MonthlyCostUSD s = fmul (float_sum (map ug_CostUSD (points_of (ext_of r) usage))) (float_of 1))
    resources (sy_Resources (sync_result resources costs)).
Proof.
  intros Hnd. cbn. split_and!.
  - apply allocateCosts_elem.
  - by apply allocateCosts_once.
  - intros o'. apply allocateCosts_order.
  - generalize (allocateCosts resources costs). intros usage.
    assert (forall ext, default f_zero (fold_left add_usage usage ∅ !! ext) = float_sum (map ug_CostUSD (points_of ext usage))) as Hm.
    { intros ext. rewrite add_usage_fold, lookup_empty. unfold points_of. by destruct (List.filter _ usage). }
    clear Hnd. induction resources as [|r rs IH]; cbn; constructor; [|exact IH]. cbn. by rewrite Hm.
Qed.
