(* ===== verification/BillingStore.v ===== *)
(** * BillingStore: the tables of cloud billing and their statements

    Models [internal/store/postgres/billing.go] with the constraints of migration
    0064: connections with their sealed credentials, tag rules, resources, daily
    costs and the log of sync runs.  Of [orgs] and [services] only the ids matter,
    which foreign keys refer to.  Costs are NUMERIC(14,4) and days DATE in the
    database; both conversions are the database's ([CostTypes]).  A daily cost is
    kept under its resource and day, which are unique. *)

From S2P Require Import Prelude GoStrings Effects Table Float64 Billing.
Set Warnings "-clear-no-such-hyp".

(** Columns of types NUMERIC(14,4) and DATE: what is accepted ([None]: refused), and
    what is read back; the day of a time. *)
Class CostTypes := {
  numeric : Type;
  numeric_in : float64 -> option numeric;
  numeric_out : numeric -> float64;
  numeric_sum : list numeric -> numeric;
  numeric_less : numeric -> numeric -> bool;
  date_in : string -> option Z;
  date_out : Z -> string;
  current_date : Z -> Z;
  #[global] numeric_less_strict :: StrictWeak numeric_less;
  #[global] date_out_inj :: Inj eq eq date_out
}.

(** ** Tables *)

Record ConnectionRow := mkConnectionRow { co_Connection : Connection; co_AuthPayload : string; co_DeletedAt : option Z }.
Record CostResource `{CostTypes} := mkCostResource {
  cr_ID : string; cr_OrgID : string; cr_ConnectionID : string; cr_ExternalID : string; cr_Name : string;
  cr_Type : string; cr_Provider : string; cr_Region : string; cr_Environment : string; cr_Status : string;
  cr_MonthlyCost : numeric; cr_Tags : gmap string string; cr_LastSyncedAt : Z; cr_CreatedAt : Z; cr_UpdatedAt : Z
}.
Record UsageDaily `{CostTypes} := mkUsageDaily { ud_OrgID : string; ud_ResourceID : string; ud_Date : Z; ud_Cost : numeric }.

Record BillingDB `{CostTypes} := mkBillingDB {
  b_orgs : gset string;
  b_services : gset string;
  b_connections : gmap string ConnectionRow;
  b_rules : gmap string TagRule;
  b_resources : gmap string CostResource;
  b_usage : gmap (string * Z) UsageDaily;
  b_runs : gmap string SyncRun
}.

Section Setters.
Context `{CostTypes}.
Implicit Types d : BillingDB.
Definition set_connections d t := mkBillingDB _ (b_orgs d) (b_services d) t (b_rules d) (b_resources d) (b_usage d) (b_runs d).
Definition set_rules d t := mkBillingDB _ (b_orgs d) (b_services d) (b_connections d) t (b_resources d) (b_usage d) (b_runs d).
Definition set_resources d t := mkBillingDB _ (b_orgs d) (b_services d) (b_connections d) (b_rules d) t (b_usage d) (b_runs d).
Definition set_usage d t := mkBillingDB _ (b_orgs d) (b_services d) (b_connections d) (b_rules d) (b_resources d) t (b_runs d).
Definition set_runs d t := mkBillingDB _ (b_orgs d) (b_services d) (b_connections d) (b_rules d) (b_resources d) (b_usage d) t.
End Setters.

(** ** Statements *)

(** The sentinels of the package, the store's errors, and texts of other errors. *)
Inductive billing_err : Type :=
| BStore (e : store_err)
| BSentinel (s : billing_sentinel)
| BText (msg : string).

Section Statements.
Context `{CostTypes} `{Collation} `{UuidText}.

Definition BEff (A : Type) : Type := Eff (World BillingDB) (result billing_err A).
Definition b_op {A} (f : Z -> BillingDB -> result billing_err A * BillingDB) : BEff A :=
  fun w => match db_op (fun t d => let '(r, d') := f t d in (Ok r, d')) w with
           | (Ok r, w') => (r, w')
           | (Err e, w') => (Err (BStore e), w')
           end.
Definition b_query {A} (f : Z -> BillingDB -> result billing_err A) : BEff A := b_op (fun t d => (f t d, d)).
Definition b_exec {A} (f : Z -> BillingDB -> result billing_err (A * BillingDB)) : BEff A :=
  b_op (fun t d => match f t d with Ok (a, d') => (Ok a, d') | Err e => (Err e, d) end).

Definition bad_syntax {A} : result billing_err A := Err (BStore (ErrOther "pq: invalid input syntax")).
Definition refused {A} : result billing_err A := Err (BStore (ErrOther "pq: constraint violation")).

(** *** Connections *)

Definition co_ID (c : ConnectionRow) : string := cn_ID (co_Connection c).
Definition co_OrgID (c : ConnectionRow) : string := cn_OrgID (co_Connection c).
Definition co_live (c : ConnectionRow) : bool := negb (found (co_DeletedAt c)).
Definition of_org (orgID : string) (c : ConnectionRow) : bool := String.eqb (co_OrgID c) orgID.

Definition CreateCloudConnection (orgID actorID provider displayName encryptedPayload : string) : BEff Connection :=
  b_exec (fun now d =>
    if negb (forallb valid_uuid [orgID; actorID]) then bad_syntax
    else if negb (mem_str provider [ProviderAWS; ProviderAzure; ProviderGCP]) ||
            negb (bool_decide (orgID ∈ b_orgs d)) ||
            exists_row (fun c => of_org orgID c && String.eqb (cn_DisplayName (co_Connection c)) displayName) (b_connections d)
    then refused
    else let id := gen_random_uuid (dom (b_connections d)) in
         let c := mkConnection id orgID provider displayName ConnectionStatusPending "" None actorID None now now in
         Ok (c, set_connections d (<[id := mkConnectionRow c encryptedPayload None]> (b_connections d)))).

Definition ListCloudConnections (orgID : string) : BEff (list Connection) :=
  b_query (fun _ d =>
    if valid_uuid orgID
    then Ok (map co_Connection
               (order_by (desc (by_key (fun c => cn_CreatedAt (co_Connection c))))
                  (select (fun c => of_org orgID c && co_live c) (b_connections d))))
    else bad_syntax).

(** WHERE org_id = .. AND id = .. AND deleted_at IS NULL *)
Definition live_connection (orgID id : string) (d : BillingDB) : option ConnectionRow :=
  match b_connections d !! id with
  | Some c => if of_org orgID c && co_live c then Some c else None
  | None => None
  end.
Definition GetCloudConnectionAuth (orgID id : string) : BEff (Connection * string) :=
  b_query (fun _ d =>
    if negb (forallb valid_uuid [orgID; id]) then bad_syntax
    else match live_connection orgID id d with
         | Some c => Ok (co_Connection c, co_AuthPayload c)
         | None => Err (BSentinel ErrConnectionNotFound)
         end).
Definition GetCloudConnection (orgID id : string) : BEff Connection :=
  b_query (fun _ d =>
    if negb (forallb valid_uuid [orgID; id]) then bad_syntax
    else match live_connection orgID id d with
         | Some c => Ok (co_Connection c)
         | None => Err (BSentinel ErrConnectionNotFound)
         end).

Definition with_status (status message : string) (now : Z) (c : ConnectionRow) : ConnectionRow :=
  let n := co_Connection c in
  mkConnectionRow (mkConnection (cn_ID n) (cn_OrgID n) (cn_Provider n) (cn_DisplayName n) status message (Some now)
    (cn_CreatedBy n) (cn_UpdatedBy n) (cn_CreatedAt n) now) (co_AuthPayload c) (co_DeletedAt c).
Definition UpdateCloudConnectionStatus (id status message : string) : BEff unit :=
  b_exec (fun now d =>
    if negb (valid_uuid id) then bad_syntax
    else match b_connections d !! id with
         | None => Err (BSentinel ErrConnectionNotFound)
         | Some c =>
             if mem_str status [ConnectionStatusPending; ConnectionStatusConnected; ConnectionStatusSyncing; ConnectionStatusError]
             then Ok (tt, set_connections d (<[id := with_status status message now c]> (b_connections d)))
             else refused
         end).

Definition DeleteCloudConnection (orgID id : string) : BEff unit :=
  b_exec (fun now d =>
    if negb (forallb valid_uuid [orgID; id]) then bad_syntax
    else match live_connection orgID id d with
         | Some c => Ok (tt, set_connections d
                               (<[id := mkConnectionRow (co_Connection c) (co_AuthPayload c) (Some now)]> (b_connections d)))
         | None => Err (BSentinel ErrConnectionNotFound)
         end).

Definition ListActiveCloudConnections : BEff (list Connection) :=
  b_query (fun _ d => Ok (map co_Connection (select co_live (b_connections d)))).

(** *** Tag rules *)

Definition same_rule (serviceID key value : string) (r : TagRule) : bool :=
  String.eqb (tr_ServiceID r) serviceID && String.eqb (tr_TagKey r) key && String.eqb (tr_TagValue r) value.

(** ON CONFLICT (service_id, tag_key, tag_value) DO UPDATE sets the key to itself
    and returns the row that is there. *)
Definition CreateTagRule (orgID serviceID actorID tagKey tagValue : string) : BEff TagRule :=
  b_exec (fun now d =>
    if negb (forallb valid_uuid [orgID; serviceID; actorID]) then bad_syntax
    else match select_one (same_rule serviceID tagKey tagValue) (b_rules d) with
         | Some r => Ok (r, d)
         | None =>
             if bool_decide (orgID ∈ b_orgs d) && bool_decide (serviceID ∈ b_services d)
             then let id := gen_random_uuid (dom (b_rules d)) in
                  let r := mkTagRule id orgID serviceID tagKey tagValue actorID now in
                  Ok (r, set_rules d (<[id := r]> (b_rules d)))
             else refused
         end).

Definition rules_of (orgID serviceID : string) (d : BillingDB) : list TagRule :=
  order_by (by_key tr_CreatedAt)
    (select (fun r => String.eqb (tr_OrgID r) orgID && String.eqb (tr_ServiceID r) serviceID) (b_rules d)).
Definition ListTagRules (orgID serviceID : string) : BEff (list TagRule) :=
  b_query (fun _ d => if forallb valid_uuid [orgID; serviceID] then Ok (rules_of orgID serviceID d) else bad_syntax).

Definition DeleteTagRule (orgID serviceID ruleID : string) : BEff unit :=
  b_exec (fun _ d =>
    if negb (forallb valid_uuid [orgID; serviceID; ruleID]) then bad_syntax
    else match b_rules d !! ruleID with
         | Some r => if String.eqb (tr_OrgID r) orgID && String.eqb (tr_ServiceID r) serviceID
                     then Ok (tt, set_rules d (delete ruleID (b_rules d)))
                     else Err (BSentinel ErrTagRuleNotFound)
         | None => Err (BSentinel ErrTagRuleNotFound)
         end).

(** *** Resources and costs *)

Definition same_resource (connectionID externalID : string) (r : CostResource) : bool :=
  String.eqb (cr_ConnectionID r) connectionID && String.eqb (cr_ExternalID r) externalID.

Definition resource_checks (r : Resource) : bool :=
  mem_str (rs_Provider r) [ProviderAWS; ProviderAzure; ProviderGCP] &&
  mem_str (rs_Status r) [ResourceStatusRunning; "stopped"; "degraded"].

Definition inserted_resource (id orgID connectionID : string) (cost : numeric) (now : Z) (r : Resource) : CostResource :=
  mkCostResource _ id orgID connectionID (rs_ExternalResourceID r) (rs_Name r) (rs_ResourceType r) (rs_Provider r)
    (rs_Region r) (rs_Environment r) (rs_Status r) cost (rs_Tags r) now now now.
(** ON CONFLICT (cloud_connection_id, external_resource_id) DO UPDATE: the org and
    the provider stay. *)
Definition updated_resource (old : CostResource) (cost : numeric) (now : Z) (r : Resource) : CostResource :=
  mkCostResource _ (cr_ID old) (cr_OrgID old) (cr_ConnectionID old) (cr_ExternalID old) (rs_Name r) (rs_ResourceType r)
    (cr_Provider old) (rs_Region r) (rs_Environment r) (rs_Status r) cost (rs_Tags r) now (cr_CreatedAt old) now.

(** One row of the transaction; its id. *)
Definition upsert_resource (orgID connectionID : string) (now : Z) (r : Resource) (d : BillingDB) :
    result billing_err (string * BillingDB) :=
  match numeric_in (rs_MonthlyCostUSD r) with
  | None => refused
  | Some cost =>
      if negb (forallb valid_uuid [orgID; connectionID]) then bad_syntax
      else if negb (resource_checks r) then refused
      else match select_one (same_resource connectionID (rs_ExternalResourceID r)) (b_resources d) with
           | Some old => Ok (cr_ID old, set_resources d (<[cr_ID old := updated_resource old cost now r]> (b_resources d)))
           | None =>
               if bool_decide (orgID ∈ b_orgs d) && found (b_connections d !! connectionID)
               then let id := gen_random_uuid (dom (b_resources d)) in
                    Ok (id, set_resources d (<[id := inserted_resource id orgID connectionID cost now r]> (b_resources d)))
               else refused
           end
  end.

Fixpoint upsert_resources (orgID connectionID : string) (now : Z) (resources : list Resource) (ids : gmap string string)
    (d : BillingDB) : result billing_err (gmap string string * BillingDB) :=
  match resources with
  | [] => Ok (ids, d)
  | r :: rs => match upsert_resource orgID connectionID now r d with
               | Ok (id, d') => upsert_resources orgID connectionID now rs (<[rs_ExternalResourceID r := id]> ids) d'
               | Err e => Err e
               end
  end.
(** One transaction; the ids by external id. *)
Definition UpsertCostResources (orgID connectionID : string) (resources : list Resource) : BEff (gmap string string) :=
  b_exec (fun now => upsert_resources orgID connectionID now resources ∅).

Definition UpsertCostUsageDaily (orgID resourceID usageDate : string) (costUSD : float64) : BEff unit :=
  b_exec (fun _ d =>
    match date_in usageDate, numeric_in costUSD with
    | Some date, Some cost =>
        if negb (forallb valid_uuid [orgID; resourceID]) then bad_syntax
        else match b_usage d !! (resourceID, date) with
             | Some old => Ok (tt, set_usage d (<[(resourceID, date) := mkUsageDaily _ (ud_OrgID old) resourceID date cost]> (b_usage d)))
             | None =>
                 if bool_decide (orgID ∈ b_orgs d) && found (b_resources d !! resourceID)
                 then Ok (tt, set_usage d (<[(resourceID, date) := mkUsageDaily _ orgID resourceID date cost]> (b_usage d)))
                 else refused
             end
    | _, _ => bad_syntax
    end).

(** EXISTS of a rule of the service, of the resource's org, and one of its tags. *)
Definition linked (serviceID : string) (d : BillingDB) (r : CostResource) : bool :=
  exists_row (fun tr => String.eqb (tr_OrgID tr) (cr_OrgID r) && String.eqb (tr_ServiceID tr) serviceID &&
                        matches (cr_Tags r) tr) (b_rules d).

Definition scan_resource (r : CostResource) : Resource :=
  mkResource (cr_ID r) (cr_OrgID r) (cr_ConnectionID r) (cr_ExternalID r) (cr_Name r) (cr_Type r) (cr_Provider r)
    (cr_Region r) (cr_Environment r) (cr_Status r) (numeric_out (cr_MonthlyCost r)) (cr_Tags r) [] (cr_LastSyncedAt r).

Definition by_cost (x y : CostResource) : bool := numeric_less (cr_MonthlyCost x) (cr_MonthlyCost y).
Definition resources_for (orgID serviceID : string) (d : BillingDB) : list Resource :=
  map scan_resource
    (order_by (desc by_cost) (select (fun r => String.eqb (cr_OrgID r) orgID && linked serviceID d r) (b_resources d))).
Definition ListResourcesForService (orgID serviceID : string) : BEff (list Resource) :=
  b_query (fun _ d => if forallb valid_uuid [orgID; serviceID] then Ok (resources_for orgID serviceID d) else bad_syntax).

(** The joined row of a daily cost that counts for a service. *)
Definition counted_usage (orgID serviceID : string) (since : Z) (d : BillingDB) : list (Z * string * numeric) :=
  omap (fun u => match b_resources d !! ud_ResourceID u with
                 | Some r => if String.eqb (ud_OrgID u) orgID && Z.leb since (ud_Date u) && linked serviceID d r
                             then Some (ud_Date u, cr_Provider r, ud_Cost u) else None
                 | None => None
                 end) (rows (b_usage d)).

(** GROUP BY usage_date, provider, with the sums, ORDER BY usage_date. *)
Definition usage_groups (l : list (Z * string * numeric)) : list (Z * string * numeric) :=
  order_by (by_key (fun g => g.1.1))
    (map (fun key => (key, numeric_sum (omap (fun u => if bool_decide (u.1 = key) then Some u.2 else None) l)))
       (elements (list_to_set (map fst l) : gset (Z * string)))).

Definition add_provider (p : TrendPoint) (provider : string) (cost : float64) : TrendPoint :=
  let total := fadd (tp_TotalUSD p) cost in
  if String.eqb provider ProviderAWS then mkTrendPoint (tp_Date p) total cost (tp_AzureUSD p) (tp_GCPUSD p)
  else if String.eqb provider ProviderAzure then mkTrendPoint (tp_Date p) total (tp_AWSUSD p) cost (tp_GCPUSD p)
  else if String.eqb provider ProviderGCP then mkTrendPoint (tp_Date p) total (tp_AWSUSD p) (tp_AzureUSD p) cost
  else mkTrendPoint (tp_Date p) total (tp_AWSUSD p) (tp_AzureUSD p) (tp_GCPUSD p).

(** The loop over the rows: the points by date, and the dates as they came. *)
Definition trend_step (s : gmap string TrendPoint * list string) (g : Z * string * numeric) :
    gmap string TrendPoint * list string :=
  let date := date_out g.1.1 in
  match s.1 !! date with
  | Some p => (<[date := add_provider p g.1.2 (numeric_out g.2)]> s.1, s.2)
  | None => (<[date := add_provider (mkTrendPoint date f_zero f_zero f_zero f_zero) g.1.2 (numeric_out g.2)]> s.1,
             (s.2 ++ [date])%list)
  end.
Definition trend_points (groups : list (Z * string * numeric)) : list TrendPoint :=
  let '(byDate, order) := fold_left trend_step groups (∅, []) in omap (byDate !!.) order.

Definition ListTrendForService (orgID serviceID : string) (days : Z) : BEff (list TrendPoint) :=
  b_query (fun now d =>
    if forallb valid_uuid [orgID; serviceID]
    then Ok (trend_points (usage_groups (counted_usage orgID serviceID (current_date now - days) d)))
    else bad_syntax).

Definition GetResource (orgID resourceID : string) : BEff Resource :=
  b_query (fun _ d =>
    if negb (forallb valid_uuid [orgID; resourceID]) then bad_syntax
    else match b_resources d !! resourceID with
         | Some r => if String.eqb (cr_OrgID r) orgID then Ok (scan_resource r) else Err (BStore ErrNotFound)
         | None => Err (BStore ErrNotFound)
         end).

Definition ListDailyCostsForResource (orgID resourceID : string) (days : Z) : BEff (list ResourceDailyCost) :=
  b_query (fun now d =>
    if negb (forallb valid_uuid [orgID; resourceID]) then bad_syntax
    else Ok (map (fun u => mkDailyCost (date_out (ud_Date u)) (numeric_out (ud_Cost u)))
               (order_by (by_key ud_Date)
                  (select (fun u => String.eqb (ud_OrgID u) orgID && String.eqb (ud_ResourceID u) resourceID &&
                                    Z.leb (current_date now - days) (ud_Date u)) (b_usage d))))).

(** *** The log of sync runs *)

Definition CreateSyncRun (connectionID : string) : BEff SyncRun :=
  b_exec (fun now d =>
    if negb (valid_uuid connectionID) then bad_syntax
    else if negb (found (b_connections d !! connectionID)) then refused
    else let id := gen_random_uuid (dom (b_runs d)) in
         let run := mkSyncRun id connectionID now None "running" None None in
         Ok (run, set_runs d (<[id := run]> (b_runs d)))).

Definition max_int32 : Z := 2147483647.
Definition finished (status : string) (resourceCount : Z) (errMsg : string) (now : Z) (run : SyncRun) : SyncRun :=
  mkSyncRun (sn_ID run) (sn_CloudConnectionID run) (sn_StartedAt run) (Some now) status (Some resourceCount)
    (if str_empty errMsg then None else Some errMsg).
Definition FinishSyncRun (runID status : string) (resourceCount : Z) (errMsg : string) : BEff unit :=
  b_exec (fun now d =>
    if negb (valid_uuid runID) || Z.ltb max_int32 resourceCount then bad_syntax
    else match b_runs d !! runID with
         | None => Ok (tt, d)
         | Some run => if mem_str status ["running"; "success"; "error"]
                       then Ok (tt, set_runs d (<[runID := finished status resourceCount errMsg now run]> (b_runs d)))
                       else refused
         end).
End Statements.
