(* ===== verification/BillingSync.v ===== *)
(** * BillingSync: synchronising a cloud account, and the handlers of billing

    Models [internal/billing/runsync.go], [billing/sync/worker.go] and
    [internal/api/billing].  The adapter of a provider is a record of its two
    operations, whose outcome may depend on the time; how credentials are written
    as JSON is a class.  The manual sync runs in a goroutine of its own: the
    handler answers and hands the [SyncJob] to the process, which runs it later.
    The timeout of a sync is a failure of the statements after it. *)

From S2P Require Import Prelude GoStrings Effects Table Authz Identity Crypto Float64 Billing BillingStore.
Set Warnings "-clear-no-such-hyp".

Record ProviderAdapter := mkAdapter {
  pa_TestConnection : ConnectionInput -> Z -> option string;
  pa_Sync : ConnectionInput -> Z -> result string SyncResult
}.
(** [json.Marshal] and decoding of a [ConnectionInput]: what was decoded once, the
    text of a request, survives being written and read again. *)
Class InputCodec := {
  marshal_input : ConnectionInput -> string;
  unmarshal_input : string -> option ConnectionInput;
  unmarshal_marshal text i : unmarshal_input text = Some i -> unmarshal_input (marshal_input i) = Some i
}.

Record createTagRuleRequest := mkTagRuleRequest { tq_TagKey : string; tq_TagValue : string }.
Record SyncJob := mkSyncJob { sj_Adapter : ProviderAdapter; sj_OrgID : string; sj_Connection : Connection; sj_Payload : string }.

Inductive billing_body : Type :=
| OneConnection (c : Connection) | Connections (l : list Connection)
| OneTagRule (r : TagRule) | TagRules (l : list TagRule)
| TheSummary (s : Summary) | Resources (l : list ResourceView) | Trend (l : list TrendPoint)
| DailyCosts (l : list ResourceDailyCost)
| Tested (error : option string)
| Started.

Section Sync.
Context `{CostTypes} `{Collation} `{UuidText} `{RangeOrder} `{Sha256} `{Aead} `{InputCodec}.
Context (cipher : Cipher) (adapters : gmap string ProviderAdapter).
#[local] Abbreviation W := (World BillingDB).
Definition BReply : Type := Response billing_body.

(** ** [runsync.go] *)

(** A call that only computes. *)
Definition pure {A} (r : A) : Eff W A := fun w => (r, w).
(** A call of the adapter, at the time it is made. *)
Definition adapter_call {A} (f : Z -> A) : Eff W A := fun w => let '(t, w') := time_now w in (f t, w').

Definition err_message (e : billing_err) : string :=
  match e with
  | BStore e => err_text e
  | BSentinel ErrConnectionNotFound => "cloud connection not found"
  | BSentinel ErrTagRuleNotFound => "tag rule not found"
  | BSentinel ErrUnknownProvider => "unknown cloud provider"
  | BSentinel ErrInvalidCredential => "invalid credential payload for provider"
  | BText msg => msg
  end.

Definition decrypted (encrypted : string) : result billing_err ConnectionInput :=
  match Decrypt cipher encrypted with
  | Err msg => Err (BText msg)
  | Ok text => match unmarshal_input text with
               | Some i => Ok i
               | None => Err (BText "invalid character")
               end
  end.

(** The points of known resources; the others are passed over. *)
Definition store_usage (orgID : string) (ids : gmap string string) (usage : list UsagePoint) :
    Go W (result billing_err Z) unit :=
  gfor usage (fun u =>
    match ids !! ug_ExternalResourceID u with
    | None => gret tt
    | Some resourceID => _ <- try (UpsertCostUsageDaily orgID resourceID (ug_Date u) (ug_CostUSD u)) Err ;; gret tt
    end).

Definition RunSync (adapter : ProviderAdapter) (orgID : string) (conn : Connection) (encryptedPayload : string) : BEff Z :=
  func (
    i <- try (pure (decrypted encryptedPayload)) Err ;;
    run <- try (CreateSyncRun (cn_ID conn)) Err ;;
    _ <- call (UpdateCloudConnectionStatus (cn_ID conn) ConnectionStatusSyncing "") ;;
    answer <- call (adapter_call (pa_Sync adapter i)) ;;
    match answer with
    | Err msg =>
        _ <- call (FinishSyncRun (sn_ID run) "error" 0 msg) ;;
        _ <- call (UpdateCloudConnectionStatus (cn_ID conn) ConnectionStatusError msg) ;;
        gret (Err (BText msg))
    | Ok result =>
        stored <- call (UpsertCostResources orgID (cn_ID conn) (sy_Resources result)) ;;
        match stored with
        | Err e => _ <- call (FinishSyncRun (sn_ID run) "error" 0 ("postgres: UpsertCostResources: " +:+ err_message e)) ;;
                   gret (Err e)
        | Ok ids =>
            store_usage orgID ids (sy_Usage result) ;;;
            let n := Z.of_nat (length (sy_Resources result)) in
            _ <- call (FinishSyncRun (sn_ID run) "success" n "") ;;
            _ <- try (UpdateCloudConnectionStatus (cn_ID conn) ConnectionStatusConnected "") Err ;;
            gret (Ok n)
        end
    end).

Definition run_job (j : SyncJob) : BEff Z := RunSync (sj_Adapter j) (sj_OrgID j) (sj_Connection j) (sj_Payload j).

(** ** [sync/worker.go] *)

Definition syncOne (orgID connectionID : string) : BEff unit :=
  func (
    c <- try (GetCloudConnectionAuth orgID connectionID) Err ;;
    match adapters !! cn_Provider c.1 with
    | None => gret (Ok tt)
    | Some adapter => _ <- try (RunSync adapter orgID c.1 c.2) Err ;; gret (Ok tt)
    end).

(** One round over all connections; a failure is logged. *)
Definition syncAll : Eff W unit :=
  func (
    conns <- try ListActiveCloudConnections (fun _ => tt) ;;
    gfor conns (fun conn => _ <- call (syncOne (cn_OrgID conn) (cn_ID conn)) ;; gret tt)).

(** ** [api/billing/handler.go] *)

(** [httputil.Error] *)
Definition http_error (e : billing_err) : BReply :=
  match e with BStore e => HttpError e | _ => HttpError (ErrOther "") end.
Definition writeErr (e : billing_err) : BReply :=
  match e with
  | BSentinel ErrConnectionNotFound | BSentinel ErrTagRuleNotFound => mkResponse 404 (ApiError "not_found" (err_message e))
  | BSentinel _ => BadRequest (err_message e)
  | _ => http_error e
  end.

Definition authorizeOrg {R} (ret : BReply -> R) (ctx : option Principal) (orgID : string) : Go W R Principal :=
  p <- non_nil ctx (ret Unauthorized) ;;
  return_if (String.eqb (p_Kind p) PrincipalServiceAccount && negb (String.eqb (p_OrgID p) orgID)) (ret Forbidden) ;;;
  gret p.

Definition adapterFor (provider : string) : result billing_err ProviderAdapter :=
  match adapters !! provider with
  | Some a => Ok a
  | None => Err (BText ("no provider adapter registered for " +:+ provider))
  end.

(** ** [api/billing/writes.go] *)

Definition CreateConnection (ctx : option Principal) (orgID : string) (body : string) : Eff W BReply :=
  func (
    p <- authorizeOrg id ctx orgID ;;
    i <- non_nil (unmarshal_input body) (BadRequest "invalid request body") ;;
    _ <- try (pure (match Validate i with Some s => Err (BSentinel s) | None => Ok tt end)) writeErr ;;
    encrypted <- try (Encrypt cipher (marshal_input i)) HttpError ;;
    conn <- try (CreateCloudConnection orgID (p_UserID p) (in_Provider i) (in_DisplayName i) encrypted) writeErr ;;
    gret (JSON 201 (OneConnection conn))).

Definition DeleteConnection (ctx : option Principal) (orgID connectionID : string) : Eff W BReply :=
  func (
    _ <- authorizeOrg id ctx orgID ;;
    _ <- try (DeleteCloudConnection orgID connectionID) writeErr ;;
    gret no_content).

Definition loadDecryptedConnection (orgID connectionID : string) : BEff (Connection * ConnectionInput) :=
  func (
    c <- try (GetCloudConnectionAuth orgID connectionID) Err ;;
    i <- try (pure (decrypted c.2)) Err ;;
    gret (Ok (c.1, i))).

Definition TestConnection (ctx : option Principal) (orgID connectionID : string) : Eff W BReply :=
  func (
    _ <- authorizeOrg id ctx orgID ;;
    c <- try (loadDecryptedConnection orgID connectionID) writeErr ;;
    adapter <- try (pure (adapterFor (cn_Provider c.1))) writeErr ;;
    failed <- call (adapter_call (pa_TestConnection adapter c.2)) ;;
    match failed with
    | Some msg =>
        _ <- call (UpdateCloudConnectionStatus (cn_ID c.1) ConnectionStatusError msg) ;;
        gret (JSON 200 (Tested (Some msg)))
    | None =>
        _ <- call (UpdateCloudConnectionStatus (cn_ID c.1) ConnectionStatusConnected "") ;;
        gret (JSON 200 (Tested None))
    end).

(** The answer, and the goroutine started. *)
Definition TriggerSync (ctx : option Principal) (orgID connectionID : string) : Eff W (BReply * option SyncJob) :=
  let ret := fun r : BReply => (r, @None SyncJob) in
  func (
    _ <- authorizeOrg ret ctx orgID ;;
    c <- try (GetCloudConnectionAuth orgID connectionID) (fun e => ret (writeErr e)) ;;
    adapter <- try (pure (adapterFor (cn_Provider c.1))) (fun e => ret (writeErr e)) ;;
    gret (JSON 202 Started, Some (mkSyncJob adapter orgID c.1 c.2))).

Definition CreateRule (ctx : option Principal) (orgID serviceID : string) (body : option createTagRuleRequest) : Eff W BReply :=
  let missing := BadRequest "tagKey and tagValue are required" in
  func (
    p <- authorizeOrg id ctx orgID ;;
    req <- non_nil body missing ;;
    return_if (str_empty (tq_TagKey req) || str_empty (tq_TagValue req)) missing ;;;
    rule <- try (CreateTagRule orgID serviceID (p_UserID p) (tq_TagKey req) (tq_TagValue req)) writeErr ;;
    gret (JSON 201 (OneTagRule rule))).

Definition DeleteRule (ctx : option Principal) (orgID serviceID ruleID : string) : Eff W BReply :=
  func (
    _ <- authorizeOrg id ctx orgID ;;
    _ <- try (DeleteTagRule orgID serviceID ruleID) writeErr ;;
    gret no_content).

(** ** [api/billing/reads.go] *)

Definition defaultTrendDays : Z := 90.
Definition maxTrendDays : Z := 366.
Definition parseTrendDays (raw : string) : Z :=
  if str_empty raw then defaultTrendDays
  else match Atoi raw with
       | None => defaultTrendDays
       | Some n => if (n <=? 0)%Z then defaultTrendDays else if (maxTrendDays <? n)%Z then maxTrendDays else n
       end.

Definition ListConnections (ctx : option Principal) (orgID : string) : Eff W BReply :=
  func (
    _ <- authorizeOrg id ctx orgID ;;
    conns <- try (ListCloudConnections orgID) http_error ;;
    gret (JSON 200 (Connections conns))).

Definition GetConnection (ctx : option Principal) (orgID connectionID : string) : Eff W BReply :=
  func (
    _ <- authorizeOrg id ctx orgID ;;
    conn <- try (GetCloudConnection orgID connectionID) writeErr ;;
    gret (JSON 200 (OneConnection conn))).

Definition ListRules (ctx : option Principal) (orgID serviceID : string) : Eff W BReply :=
  func (
    _ <- authorizeOrg id ctx orgID ;;
    rules <- try (ListTagRules orgID serviceID) http_error ;;
    gret (JSON 200 (TagRules rules))).

Definition resourcesAndRules (orgID serviceID : string) : BEff (list Resource * list TagRule) :=
  func (
    rules <- try (ListTagRules orgID serviceID) Err ;;
    resources <- try (ListResourcesForService orgID serviceID) Err ;;
    gret (Ok (map (fun r => with_matched r (MatchTags (rs_Tags r) rules)) resources, rules))).

Definition GetSummary (ctx : option Principal) (orgID serviceID : string) : Eff W BReply :=
  func (
    _ <- authorizeOrg id ctx orgID ;;
    rr <- try (resourcesAndRules orgID serviceID) http_error ;;
    trend <- try (ListTrendForService orgID serviceID 60) http_error ;;
    gret (JSON 200 (TheSummary (ComputeSummary rr.1 trend)))).

Definition ListResources (ctx : option Principal) (orgID serviceID : string) : Eff W BReply :=
  func (
    _ <- authorizeOrg id ctx orgID ;;
    rr <- try (resourcesAndRules orgID serviceID) http_error ;;
    gret (JSON 200 (Resources (map MarshalJSON rr.1)))).

Definition GetTrend (ctx : option Principal) (orgID serviceID days : string) : Eff W BReply :=
  func (
    _ <- authorizeOrg id ctx orgID ;;
    trend <- try (ListTrendForService orgID serviceID (parseTrendDays days)) http_error ;;
    gret (JSON 200 (Trend trend))).

Definition GetResourceDailyCosts (ctx : option Principal) (orgID resourceID days : string) : Eff W BReply :=
  func (
    _ <- authorizeOrg id ctx orgID ;;
    _ <- try (GetResource orgID resourceID) http_error ;;
    costs <- try (ListDailyCostsForResource orgID resourceID (parseTrendDays days)) http_error ;;
    gret (JSON 200 (DailyCosts costs))).

(** ** The routes: [Register] *)

Inductive billing_request : Type :=
| QCreateConnection (body : string) | QListConnections | QGetConnection (id : string) | QDeleteConnection (id : string)
| QTestConnection (id : string) | QTriggerSync (id : string) | QGetSummary (serviceID : string)
| QListResources (serviceID : string) | QGetTrend (serviceID days : string) | QListTagRules (serviceID : string)
| QCreateTagRule (serviceID : string) (body : option createTagRuleRequest) | QDeleteTagRule (serviceID ruleID : string)
| QDailyCosts (resourceID days : string).

Definition only_reply (m : Eff W BReply) : Eff W (BReply * option SyncJob) :=
  fun w => let '(r, w') := m w in ((r, None), w').

Definition serve (ctx : option Principal) (o : string) (q : billing_request) : Eff W (BReply * option SyncJob) :=
  match q with
  | QCreateConnection b => only_reply (CreateConnection ctx o b)
  | QListConnections => only_reply (ListConnections ctx o)
  | QGetConnection i => only_reply (GetConnection ctx o i)
  | QDeleteConnection i => only_reply (DeleteConnection ctx o i)
  | QTestConnection i => only_reply (TestConnection ctx o i)
  | QTriggerSync i => TriggerSync ctx o i
  | QGetSummary s => only_reply (GetSummary ctx o s)
  | QListResources s => only_reply (ListResources ctx o s)
  | QGetTrend s days => only_reply (GetTrend ctx o s days)
  | QListTagRules s => only_reply (ListRules ctx o s)
  | QCreateTagRule s b => only_reply (CreateRule ctx o s b)
  | QDeleteTagRule s r => only_reply (DeleteRule ctx o s r)
  | QDailyCosts r days => only_reply (GetResourceDailyCosts ctx o r days)
  end.
End Sync.
