(* ===== verification/BillingLife.v ===== *)
(** * BillingLife: what the statements and handlers of billing keep

    The invariant of the tables ([billing_ok]), what only grows ([grows]), what an
    org's requests leave to the others ([others_kept]), and that every statement
    and body keeps them ([does]). *)

From S2P Require Import Prelude GoStrings Effects Table Authz Identity Crypto Float64 Billing BillingStore BillingSync.
Set Warnings "-clear-no-such-hyp".

Section Life.
Context `{CostTypes} `{Collation} `{UuidText} `{RangeOrder} `{Sha256} `{Aead} `{InputCodec}.
Context (cipher : Cipher).
#[local] Abbreviation W := (World BillingDB).
Implicit Types d : BillingDB.

Definition conn_org d (id : string) : option string := co_OrgID <$> b_connections d !! id.
Definition resource_org d (id : string) : option string := cr_OrgID <$> b_resources d !! id.

(** ** The invariant *)

(** A payload that opens to credentials valid for the provider. *)
Definition sealed (provider payload : string) : Prop :=
  exists i, decrypted cipher payload = Ok i /\ Validate i = None /\ in_Provider i = provider.

Record billing_ok d : Prop := {
  ok_connection k c : b_connections d !! k = Some c ->
    co_ID c = k /\ sealed (cn_Provider (co_Connection c)) (co_AuthPayload c);
  ok_names k k' c c' : b_connections d !! k = Some c -> b_connections d !! k' = Some c' ->
    co_OrgID c = co_OrgID c' -> cn_DisplayName (co_Connection c) = cn_DisplayName (co_Connection c') -> k = k';
  ok_rule k r : b_rules d !! k = Some r -> tr_ID r = k;
  ok_rules k k' r r' : b_rules d !! k = Some r -> b_rules d !! k' = Some r' ->
    same_rule (tr_ServiceID r') (tr_TagKey r') (tr_TagValue r') r = true -> k = k';
  ok_resource k r : b_resources d !! k = Some r -> cr_ID r = k /\ conn_org d (cr_ConnectionID r) = Some (cr_OrgID r);
  ok_resources k k' r r' : b_resources d !! k = Some r -> b_resources d !! k' = Some r' ->
    cr_ConnectionID r = cr_ConnectionID r' -> cr_ExternalID r = cr_ExternalID r' -> k = k';
  ok_usage k u : b_usage d !! k = Some u ->
    k = (ud_ResourceID u, ud_Date u) /\ resource_org d (ud_ResourceID u) = Some (ud_OrgID u);
  ok_run k r : b_runs d !! k = Some r ->
    sn_ID r = k /\ is_Some (conn_org d (sn_CloudConnectionID r)) /\ (sn_Status r = "running" <-> sn_FinishedAt r = None)
}.

(** ** What only grows *)

Definition kept_connection (c c' : ConnectionRow) : Prop :=
  co_ID c' = co_ID c /\ co_OrgID c' = co_OrgID c /\ cn_Provider (co_Connection c') = cn_Provider (co_Connection c) /\
  cn_DisplayName (co_Connection c') = cn_DisplayName (co_Connection c) /\ co_AuthPayload c' = co_AuthPayload c /\
  cn_CreatedBy (co_Connection c') = cn_CreatedBy (co_Connection c) /\ (co_live c' = true -> co_live c = true).
Definition kept_resource (r r' : CostResource) : Prop :=
  cr_OrgID r' = cr_OrgID r /\ cr_ConnectionID r' = cr_ConnectionID r /\ cr_ExternalID r' = cr_ExternalID r /\
  cr_Provider r' = cr_Provider r.
Definition kept_run (r r' : SyncRun) : Prop :=
  sn_CloudConnectionID r' = sn_CloudConnectionID r /\ sn_StartedAt r' = sn_StartedAt r.

Record grows d d' : Prop := {
  gr_orgs : b_orgs d' = b_orgs d;
  gr_services : b_services d' = b_services d;
  gr_connections : all_kept kept_connection (b_connections d) (b_connections d');
  gr_resources : all_kept kept_resource (b_resources d) (b_resources d');
  gr_usage : all_kept (fun u u' => ud_OrgID u' = ud_OrgID u) (b_usage d) (b_usage d');
  gr_runs : all_kept kept_run (b_runs d) (b_runs d')
}.

(** ** What the others keep *)

Record others_kept (o : string) d d' : Prop := {
  oth_connections : untouched (fun c => co_OrgID c = o) (b_connections d) (b_connections d');
  oth_rules : untouched (fun r => tr_OrgID r = o) (b_rules d) (b_rules d');
  oth_resources : untouched (fun r => cr_OrgID r = o) (b_resources d) (b_resources d');
  oth_usage : untouched (fun u => ud_OrgID u = o) (b_usage d) (b_usage d');
  oth_runs : untouched (fun r => conn_org d' (sn_CloudConnectionID r) = Some o) (b_runs d) (b_runs d')
}.

Record eff (o : string) d d' : Prop := {
  eff_ok : billing_ok d -> billing_ok d';
  eff_grows : grows d d';
  eff_others : others_kept o d d'
}.

Lemma grows_refl d : grows d d.
Proof. split; try done; apply all_kept_refl; try done; intros v; by repeat split. Qed.
Lemma grows_trans d1 d2 d3 : grows d1 d2 -> grows d2 d3 -> grows d1 d3.
Proof.
  intros [] []. split; try congruence; (eapply all_kept_trans; [|done|done]).
  - unfold kept_connection. intros a b c HA HB; destruct_and!; split_and!; try congruence; auto.
  - unfold kept_resource. intros a b c HA HB; destruct_and!; split_and!; congruence.
  - intros; cbn in *; congruence.
  - unfold kept_run. intros a b c HA HB; destruct_and!; split_and!; congruence.
Qed.

Lemma grows_conn_org d d' id o : grows d d' -> conn_org d id = Some o -> conn_org d' id = Some o.
Proof.
  intros [_ _ Hg _ _ _]. unfold conn_org. intros (c & Hc & ->)%fmap_Some_1.
  destruct (Hg id c Hc) as (c' & -> & Hk). cbn. f_equal. apply Hk.
Qed.
Lemma grows_resource_org d d' id o : grows d d' -> resource_org d id = Some o -> resource_org d' id = Some o.
Proof.
  intros [_ _ _ Hg _ _]. unfold resource_org. intros (c & Hc & ->)%fmap_Some_1.
  destruct (Hg id c Hc) as (c' & -> & Hk). cbn. f_equal. apply Hk.
Qed.

Lemma others_refl o d : others_kept o d d.
Proof. split; apply untouched_refl. Qed.
Lemma others_trans o d1 d2 d3 : grows d2 d3 -> others_kept o d1 d2 -> others_kept o d2 d3 -> others_kept o d1 d3.
Proof.
  intros Hg [] []. split; (eapply untouched_trans; [|done|done]); cbn; try done.
  intros r. by apply grows_conn_org.
Qed.

Lemma eff_refl o d : eff o d d.
Proof. split; [done|apply grows_refl|apply others_refl]. Qed.
Lemma eff_trans o d1 d2 d3 : eff o d1 d2 -> eff o d2 d3 -> eff o d1 d3.
Proof. intros [] []. split; [auto|by eapply grows_trans|by eapply others_trans]. Qed.

(** ** Statements on one table *)

Lemma kept_connection_refl c : kept_connection c c.
Proof. by repeat split. Qed.
Lemma kept_resource_refl r : kept_resource r r.
Proof. by repeat split. Qed.
Lemma kept_run_refl r : kept_run r r.
Proof. by repeat split. Qed.

Lemma grows_connection d k c :
  (forall c0, b_connections d !! k = Some c0 -> kept_connection c0 c) ->
  grows d (set_connections d (<[k := c]> (b_connections d))).
Proof.
  intros Hk. split; try done; cbn; try (apply all_kept_refl; intros ?; by repeat split).
  apply all_kept_insert; [apply kept_connection_refl|done].
Qed.

(** A row of a connection is written: a new one, or an old one in what may change. *)
Lemma eff_connection o d k c :
  co_OrgID c = o -> co_ID c = k -> sealed (cn_Provider (co_Connection c)) (co_AuthPayload c) ->
  (forall c0, b_connections d !! k = Some c0 -> kept_connection c0 c) ->
  (forall k' c', k' <> k -> b_connections d !! k' = Some c' -> co_OrgID c' = o ->
     cn_DisplayName (co_Connection c') = cn_DisplayName (co_Connection c) -> False) ->
  eff o d (set_connections d (<[k := c]> (b_connections d))).
Proof.
  intros Ho Hid Hs Hkept Hname. pose proof (grows_connection d k c Hkept) as Hg. split; [|done|].
  - intros [K N R1 R2 S1 S2 U L]. split; cbn; try done.
    + intros k' c'. rewrite lookup_insert_Some. intros [[<- <-]|[_ Hc']]; [done|by apply K].
    + intros k1 k2 c1 c2. rewrite !lookup_insert_Some. intros [[<- <-]|[Hn1 G1]] [[<- <-]|[Hn2 G2]] Eo En; [done| | |by eapply N].
      * destruct (Hname k2 c2); congruence.
      * destruct (Hname k1 c1); congruence.
    + intros k' r Hr. destruct (S1 k' r Hr) as [? Hc]. split; [done|]. by apply (grows_conn_org d _ _ _ Hg).
    + intros k' r Hr. destruct (L k' r Hr) as (? & [x Hc] & ?). split_and!; [done| |done]. exists x. by apply (grows_conn_org d _ _ _ Hg).
  - split; cbn; try apply untouched_refl. apply untouched_insert; [done|].
    intros c0 Hc0. destruct (Hkept c0 Hc0) as (_ & Ho' & _). congruence.
Qed.

(** An existing one, in what may change. *)
Lemma eff_alter_connection o d k c c' :
  billing_ok d -> b_connections d !! k = Some c -> co_OrgID c = o -> kept_connection c c' ->
  eff o d (set_connections d (<[k := c']> (b_connections d))).
Proof.
  intros Hok Hc Ho Hk. destruct (ok_connection d Hok k c Hc) as [Hid Hs]. pose proof Hk as (E1 & E2 & E3 & E4 & E5 & E6 & _).
  apply eff_connection; [congruence|congruence|congruence|by intros c0 [= <-]%(eq_trans (eq_sym Hc))|].
  intros k' c0 Hne G0 Hoo Hn. apply Hne. apply (ok_names d Hok k' k c0 c); congruence.
Qed.

Lemma eff_rules o d t :
  (billing_ok d -> forall k r, t !! k = Some r -> tr_ID r = k) ->
  (billing_ok d -> forall k k' r r', t !! k = Some r -> t !! k' = Some r' ->
     same_rule (tr_ServiceID r') (tr_TagKey r') (tr_TagValue r') r = true -> k = k') ->
  untouched (fun r => tr_OrgID r = o) (b_rules d) t -> eff o d (set_rules d t).
Proof.
  intros Hid Hu Ht. split.
  - intros Hok. pose proof Hok as [K N R1 R2 S1 S2 U L]. split; cbn; try done; [exact (Hid Hok)|exact (Hu Hok)].
  - split; try done; cbn; try (apply all_kept_refl; intros ?; by repeat split).
  - split; cbn; try apply untouched_refl. done.
Qed.

Lemma grows_resource d k r :
  (forall r0, b_resources d !! k = Some r0 -> kept_resource r0 r) ->
  grows d (set_resources d (<[k := r]> (b_resources d))).
Proof.
  intros Hk. split; try done; cbn; try (apply all_kept_refl; intros ?; by repeat split).
  apply all_kept_insert; [apply kept_resource_refl|done].
Qed.

Lemma eff_resource o d k r :
  cr_OrgID r = o -> cr_ID r = k -> conn_org d (cr_ConnectionID r) = Some o ->
  (forall r0, b_resources d !! k = Some r0 -> kept_resource r0 r) ->
  (forall k' r', k' <> k -> b_resources d !! k' = Some r' -> cr_ConnectionID r' = cr_ConnectionID r ->
     cr_ExternalID r' = cr_ExternalID r -> False) ->
  eff o d (set_resources d (<[k := r]> (b_resources d))).
Proof.
  intros Ho Hid Hc Hkept Hu. pose proof (grows_resource d k r Hkept) as Hg. split; [|done|].
  - intros [K N R1 R2 S1 S2 U L]. split; cbn; try done.
    + intros k' r'. rewrite lookup_insert_Some. intros [[<- <-]|[_ Hr']]; [|by apply S1]. split; [done|]. by rewrite Ho.
    + intros k1 k2 r1 r2. rewrite !lookup_insert_Some. intros [[<- <-]|[Hn1 G1]] [[<- <-]|[Hn2 G2]] Ec Ee; [done| | |by eapply S2].
      * by destruct (Hu k2 r2).
      * by destruct (Hu k1 r1).
    + intros k' u Hu'. destruct (U k' u Hu') as [? Hr]. split; [done|]. by apply (grows_resource_org d _ _ _ Hg).
  - split; cbn; try apply untouched_refl. apply untouched_insert; [done|].
    intros r0 Hr0. destruct (Hkept r0 Hr0) as (Ho' & _). congruence.
Qed.

Lemma eff_usage o d k u :
  ud_OrgID u = o -> k = (ud_ResourceID u, ud_Date u) ->
  (forall u0, b_usage d !! k = Some u0 -> ud_OrgID u0 = o) ->
  (billing_ok d -> resource_org d (ud_ResourceID u) = Some o) ->
  eff o d (set_usage d (<[k := u]> (b_usage d))).
Proof.
  intros Ho Hk Hold Hr. split.
  - intros Hok. pose proof Hok as [K N R1 R2 S1 S2 U L]. split; cbn; try done.
    intros k' u'. rewrite lookup_insert_Some. intros [[<- <-]|[_ Hu']]; [|by apply U]. split; [done|]. rewrite Ho. by apply Hr.
  - split; try done; cbn; try (apply all_kept_refl; intros ?; by repeat split).
    apply all_kept_insert; [done|]. intros u0 Hu0. by rewrite (Hold u0).
  - split; cbn; try apply untouched_refl. by apply untouched_insert.
Qed.

Lemma eff_run o d k r :
  sn_ID r = k -> conn_org d (sn_CloudConnectionID r) = Some o -> (sn_Status r = "running" <-> sn_FinishedAt r = None) ->
  (forall r0, b_runs d !! k = Some r0 -> kept_run r0 r) ->
  eff o d (set_runs d (<[k := r]> (b_runs d))).
Proof.
  intros Hid Hc Hf Hkept. split.
  - intros [K N R1 R2 S1 S2 U L]. split; cbn; try done.
    intros k' r'. rewrite lookup_insert_Some. intros [[<- <-]|[_ Hr']]; [|by apply L]. split_and!; [done| |done]. by exists o.
  - split; try done; cbn; try (apply all_kept_refl; intros ?; by repeat split).
    apply all_kept_insert; [apply kept_run_refl|done].
  - split; cbn; try apply untouched_refl. apply untouched_insert; [done|].
    intros r0 Hr0. destruct (Hkept r0 Hr0) as [E _]. change (conn_org d (sn_CloudConnectionID r0) = Some o). congruence.
Qed.

(** ** Bodies

    [does o F m Q]: from tables that are well formed and satisfy the stable [F],
    [m] has an effect for [o] and ends with [Q] of its result and the tables. *)

Class Stable (F : BillingDB -> Prop) : Prop := stable d d' : grows d d' -> F d -> F d'.
#[export] Instance stable_const (P : Prop) : Stable (fun _ => P).
Proof. by intros d d' _. Qed.
#[export] Instance stable_and (F G : BillingDB -> Prop) `{!Stable F} `{!Stable G} : Stable (fun d => F d /\ G d).
Proof. intros d d' Hg [HF HG]. split; by eapply stable. Qed.
#[export] Instance stable_conn id o : Stable (fun d => conn_org d id = Some o).
Proof. intros d d'. apply grows_conn_org. Qed.
#[export] Instance stable_resource id o : Stable (fun d => resource_org d id = Some o).
Proof. intros d d'. apply grows_resource_org. Qed.
Definition run_in (o id : string) d : Prop :=
  exists r, b_runs d !! id = Some r /\ conn_org d (sn_CloudConnectionID r) = Some o.
#[export] Instance stable_run o id : Stable (run_in o id).
Proof.
  intros d d' Hg (r & Hr & Hc). destruct (gr_runs _ _ Hg id r Hr) as (r' & Hr' & E & _). exists r'. split; [done|].
  rewrite E. by apply (grows_conn_org _ _ _ _ Hg).
Qed.
Definition ids_in (o : string) (ids : gmap string string) d : Prop :=
  forall e id, ids !! e = Some id -> resource_org d id = Some o.
#[export] Instance stable_ids o ids : Stable (ids_in o ids).
Proof. intros d d' Hg Hi e id He. by apply (grows_resource_org _ _ _ _ Hg), (Hi e). Qed.

Definition does {A} (o : string) (F : BillingDB -> Prop) (m : Eff W A) (Q : A -> BillingDB -> Prop) : Prop :=
  forall w, byte_entropy w -> billing_ok (w_db w) -> F (w_db w) ->
    byte_entropy (m w).2 /\ eff o (w_db w) (w_db (m w).2) /\ Q (m w).1 (w_db (m w).2).
Definition gdoes {R A} (o : string) (F : BillingDB -> Prop) (Qr : R -> BillingDB -> Prop) (m : Go W R A)
    (Q : A -> BillingDB -> Prop) : Prop :=
  forall w, byte_entropy w -> billing_ok (w_db w) -> F (w_db w) ->
    byte_entropy (m w).2 /\ eff o (w_db w) (w_db (m w).2) /\
    match (m w).1 with inl r => Qr r (w_db (m w).2) | inr a => Q a (w_db (m w).2) end.
Definition on_ok {A} (Q : A -> BillingDB -> Prop) (r : result billing_err A) d : Prop :=
  match r with Ok a => Q a d | Err _ => True end.

#[export] Instance stable_on_ok {A} (Q : A -> BillingDB -> Prop) r `{!forall a, Stable (Q a)} : Stable (on_ok Q r).
Proof. destruct r; [apply (_ : Stable (Q a))|apply (stable_const True)]. Qed.

Lemma gdoes_bind {R A B} o F (Qr : R -> BillingDB -> Prop) (m : Go W R A) (f : A -> Go W R B) Q Q' `{!Stable F} :
  gdoes o F Qr m Q -> (forall a, gdoes o (fun d => F d /\ Q a d) Qr (f a) Q') -> gdoes o F Qr (gbind m f) Q'.
Proof.
  intros Hm Hf w He Hok HF. destruct (Hm w He Hok HF) as (He' & Heff & Hq). unfold gbind.
  destruct (m w) as [[r|a] w'] eqn:E; cbn in *; [done|].
  destruct (Hf a w' He') as (He2 & Heff2 & Hq2);
    [by apply Heff|split; [by apply (stable _ _ (eff_grows _ _ _ Heff))|done]|].
  split_and!; [done|by eapply eff_trans|done].
Qed.
Lemma gdoes_ret {R A} o F (Qr : R -> BillingDB -> Prop) (a : A) (Q : A -> BillingDB -> Prop) :
  (forall d, F d -> Q a d) -> gdoes o F Qr (gret a) Q.
Proof. intros HQ w He Hok HF. cbn. split_and!; [done|apply eff_refl|auto]. Qed.
Lemma gdoes_return {R A} o F (Qr : R -> BillingDB -> Prop) r (Q : A -> BillingDB -> Prop) :
  (forall d, F d -> Qr r d) -> gdoes o F Qr (greturn r) Q.
Proof. intros HQ w He Hok HF. cbn. split_and!; [done|apply eff_refl|auto]. Qed.
Lemma gdoes_return_if {R} o F (Qr : R -> BillingDB -> Prop) c r :
  (forall d, F d -> Qr r d) -> gdoes o F Qr (return_if c r) (fun _ _ => c = false).
Proof. intros HQ. destruct c; [by apply gdoes_return|by apply gdoes_ret]. Qed.
Lemma gdoes_non_nil {R A} o F (Qr : R -> BillingDB -> Prop) (p : option A) r :
  (forall d, F d -> Qr r d) -> gdoes o F Qr (non_nil p r) (fun a _ => p = Some a).
Proof. intros HQ. destruct p; [by apply gdoes_ret|by apply gdoes_return]. Qed.
Lemma gdoes_call {R A} o F (Qr : R -> BillingDB -> Prop) (m : Eff W A) Q : does o F m Q -> gdoes o F Qr (call m) Q.
Proof. intros Hm w He Hok HF. specialize (Hm w He Hok HF). unfold call. by destruct (m w). Qed.
Lemma gdoes_try {R E A} o F (Qr : R -> BillingDB -> Prop) (m : Eff W (result E A)) (on_err : E -> R) Q :
  does o F m (fun r d => match r with Ok a => Q a d | Err e => Qr (on_err e) d end) -> gdoes o F Qr (try m on_err) Q.
Proof.
  intros Hm w He Hok HF. specialize (Hm w He Hok HF). unfold try, gbind, call. destruct (m w) as [[a|e] w']; done.
Qed.
Lemma gdoes_for {R A} o F (Qr : R -> BillingDB -> Prop) (l : list A) (body : A -> Go W R unit) `{!Stable F} :
  (forall x, gdoes o F Qr (body x) (fun _ _ => True)) -> gdoes o F Qr (gfor l body) (fun _ _ => True).
Proof.
  intros Hb. induction l as [|x l IH]; [by apply gdoes_ret|]. apply gdoes_bind with (Q := fun _ _ => True); [done|done|].
  intros _ w He Hok [HF _]. by apply IH.
Qed.
Lemma does_func {R} o F (m : Go W R R) Q : gdoes o F Q m Q -> does o F (func m) Q.
Proof. intros Hm w He Hok HF. specialize (Hm w He Hok HF). unfold func. by destruct (m w) as [[r|r] w']. Qed.
Lemma does_mono {A} o (F G : BillingDB -> Prop) (m : Eff W A) (Q Q' : A -> BillingDB -> Prop) :
  does o F m Q -> (forall d, G d -> F d) -> (forall a d, Q a d -> Q' a d) -> does o G m Q'.
Proof. intros Hm HF HQ w He Hok HG. destruct (Hm w He Hok (HF _ HG)) as (? & ? & ?). auto. Qed.
Lemma does_pure {A} o F (a : A) (Q : A -> BillingDB -> Prop) : (forall d, F d -> Q a d) -> does o F (pure a) Q.
Proof. intros HQ w He Hok HF. cbn. split_and!; [done|apply eff_refl|auto]. Qed.
Lemma does_adapter {A} o F (f : Z -> A) : does o F (adapter_call f) (fun _ _ => True).
Proof.
  intros w He Hok HF. unfold adapter_call, time_now. destruct (w_ticks w); cbn; (split_and!; [done|apply eff_refl|done]).
Qed.

(** Statements: what they do when they are accepted. *)
Lemma does_exec {A} o F (f : Z -> BillingDB -> result billing_err (A * BillingDB)) Q :
  (forall t d, billing_ok d -> F d -> match f t d with Ok (a, d') => eff o d d' /\ Q a d' | Err _ => True end) ->
  does o F (b_exec f) (on_ok Q).
Proof.
  intros Hf w He Hok HF. unfold b_exec, b_op, db_op. specialize (Hf (w_clock w) (w_db w) Hok HF).
  destruct (w_faults w) as [|[] fs]; cbn; [|split_and!; [done|apply eff_refl|done]|];
    (destruct (f _ _) as [[a d']|e]; cbn; [destruct Hf; by split_and!|split_and!; [done|apply eff_refl|done]]).
Qed.
Lemma does_query {A} o F (f : Z -> BillingDB -> result billing_err A) (Q : A -> BillingDB -> Prop) :
  (forall t d, billing_ok d -> F d -> match f t d with Ok a => Q a d | Err _ => True end) ->
  does o F (b_query f) (on_ok Q).
Proof.
  intros Hf w He Hok HF. unfold b_query, b_op, db_op. specialize (Hf (w_clock w) (w_db w) Hok HF).
  destruct (w_faults w) as [|[] fs]; cbn; (split_and!; [done|apply eff_refl|]); [|done|]; by destruct (f _ _).
Qed.
End Life.
