(* ===== verification/BillingSteps.v ===== *)
(** * BillingSteps: every statement and handler of billing keeps the invariant

    The effect of each statement of BillingStore, of a sync and of each handler of
    BillingSync in the sense of BillingLife, up to the states the process reaches. *)

From S2P Require Import Prelude GoStrings Effects Table Authz Identity Crypto Float64 Billing BillingStore BillingSync BillingLife.
Set Warnings "-clear-no-such-hyp".

Section Steps.
Context `{CostTypes} `{Collation} `{UuidText} `{RangeOrder} `{Sha256} `{Aead} `{InputCodec}.
Context (cipher : Cipher).
#[local] Abbreviation W := (World BillingDB).
#[local] Abbreviation BillingDoes := (does cipher).
#[local] Abbreviation BillingGoes := (gdoes cipher).
#[local] Abbreviation billing_tables_ok := (billing_ok cipher).
#[local] Abbreviation effect := (eff cipher).
Implicit Types d : BillingDB.

(** Past the first check of a statement. *)
#[local] Ltac past :=
  lazymatch goal with
  | |- match (if ?b then _ else _) with _ => _ end => destruct b eqn:?; try done
  | |- (if ?b then _ else _) = _ -> _ => destruct b eqn:?; try done
  end.

Lemma fresh_id {V} (t : gmap string V) : t !! gen_random_uuid (dom t) = None.
Proof. apply not_elem_of_dom, gen_random_uuid_new. Qed.

(** ** Connections *)

Lemma CreateCloudConnection_does o actor provider name payload :
  sealed cipher provider payload ->
  BillingDoes o (fun _ => True) (CreateCloudConnection o actor provider name payload) (on_ok (fun c _ => cn_OrgID c = o)).
Proof.
  intros Hs. apply does_exec. intros t d Hok _. past. destruct (_ || _) eqn:E; [done|].
  apply orb_false_iff in E as [_ Hname]. rewrite exists_row_false in Hname. cbv zeta. split; [|done].
  apply eff_connection; [done|done|done|by intros c0; rewrite fresh_id|].
  intros k c _ Hc Ho Hn. specialize (Hname k c Hc). unfold of_org in Hname. by rewrite Ho, Hn, !String.eqb_refl in Hname.
Qed.

Lemma live_connection_Some o id d c :
  live_connection o id d = Some c <-> b_connections d !! id = Some c /\ co_OrgID c = o /\ co_live c = true.
Proof.
  unfold live_connection, of_org. destruct (b_connections d !! id) as [c'|]; [|split; [done|by intros [? _]]].
  destruct (String.eqb_spec (co_OrgID c') o), (co_live c') eqn:E; cbn; split; try done; naive_solver congruence.
Qed.

Lemma GetCloudConnectionAuth_does o id :
  BillingDoes o (fun _ => True) (GetCloudConnectionAuth o id)
    (on_ok (fun c d => cn_OrgID c.1 = o /\ conn_org d (cn_ID c.1) = Some o /\ sealed cipher (cn_Provider c.1) c.2)).
Proof.
  apply does_query. intros t d Hok _. past. destruct (live_connection o id d) as [c|] eqn:E; [|done].
  apply live_connection_Some in E as (Hc & Ho & _). destruct (ok_connection _ _ Hok id c Hc) as [Hid Hs].
  split_and!; [done| |done]. unfold conn_org. cbn. fold (co_ID c). by rewrite Hid, Hc, <-Ho.
Qed.
Lemma GetCloudConnection_does o id :
  BillingDoes o (fun _ => True) (GetCloudConnection o id) (on_ok (fun c _ => cn_OrgID c = o)).
Proof.
  apply does_query. intros t d Hok _. past. destruct (live_connection o id d) as [c|] eqn:E; [|done].
  by apply live_connection_Some in E as (_ & Ho & _).
Qed.
Lemma ListCloudConnections_does o :
  BillingDoes o (fun _ => True) (ListCloudConnections o) (on_ok (fun l _ => Forall (fun c => cn_OrgID c = o) l)).
Proof.
  apply does_query. intros t d Hok _. past. apply Forall_fmap, Forall_forall. intros c Hc.
  unfold order_by in Hc. rewrite sort_stable_elem, select_elem in Hc. destruct Hc as [_ [Ho _]%andb_true_iff].
  by apply String.eqb_eq.
Qed.

Lemma UpdateCloudConnectionStatus_does o id status msg :
  BillingDoes o (fun d => conn_org d id = Some o) (UpdateCloudConnectionStatus id status msg) (on_ok (fun _ _ => True)).
Proof.
  apply does_exec. intros t d Hok Ho. unfold conn_org in Ho. past.
  destruct (b_connections d !! id) as [c|] eqn:Hc; [|done]. past. split; [|done].
  eapply eff_alter_connection; [done|done|by injection Ho|]. by repeat split.
Qed.
Lemma DeleteCloudConnection_does o id :
  BillingDoes o (fun _ => True) (DeleteCloudConnection o id) (on_ok (fun _ _ => True)).
Proof.
  apply does_exec. intros t d Hok _. past. destruct (live_connection o id d) as [c|] eqn:E; [|done].
  apply live_connection_Some in E as (Hc & Ho & Hl). split; [|done].
  eapply eff_alter_connection; [done|done|done|]. by repeat split.
Qed.

(** ** Tag rules *)

Lemma same_rule_true s k v r :
  same_rule s k v r = true <-> tr_ServiceID r = s /\ tr_TagKey r = k /\ tr_TagValue r = v.
Proof. unfold same_rule. rewrite !andb_true_iff, !String.eqb_eq. tauto. Qed.

Lemma CreateTagRule_does o service actor key value :
  BillingDoes o (fun _ => True) (CreateTagRule o service actor key value) (on_ok (fun _ _ => True)).
Proof.
  apply does_exec. intros t d _ _. past.
  destruct (select_one _ _) as [r|] eqn:E; [split; [apply eff_refl|done]|]. past. cbv zeta. split; [|done].
  rewrite select_one_None in E. apply eff_rules.
  - intros Hok k r. rewrite lookup_insert_Some. intros [[<- <-]|[_ Hr]]; [done|by apply (ok_rule _ _ Hok)].
  - intros Hok k k' r r'. rewrite !lookup_insert_Some. intros [[<- <-]|[Hn Hr]] [[<- <-]|[Hn' Hr']] Hs; [done| | |].
    + apply same_rule_true in Hs as (? & ? & ?). cbn in *. specialize (E k' r' Hr').
      rewrite <-not_true_iff_false, same_rule_true in E. by destruct E.
    + cbn in *. specialize (E k r Hr). congruence.
    + by apply (ok_rules _ _ Hok k k' r r').
  - apply untouched_insert; [done|]. intros r Hr. by rewrite fresh_id in Hr.
Qed.
Lemma DeleteTagRule_does o service id :
  BillingDoes o (fun _ => True) (DeleteTagRule o service id) (on_ok (fun _ _ => True)).
Proof.
  apply does_exec. intros t d _ _. past. destruct (b_rules d !! id) as [r|] eqn:Hr; [|done].
  destruct (_ && _) eqn:E; [|done]. apply andb_true_iff in E as [Ho%String.eqb_eq _]. split; [|done]. apply eff_rules.
  - intros Hok k r0 [_ Hk]%lookup_delete_Some. by apply (ok_rule _ _ Hok).
  - intros Hok k k' r0 r1 [_ Hk]%lookup_delete_Some [_ Hk']%lookup_delete_Some. by apply (ok_rules _ _ Hok).
  - apply untouched_delete. intros r0 Hr0. congruence.
Qed.
Lemma rules_of_elem o s d r : r ∈ rules_of o s d <-> (exists k, b_rules d !! k = Some r) /\ tr_OrgID r = o /\ tr_ServiceID r = s.
Proof. unfold rules_of, order_by. by rewrite sort_stable_elem, select_elem, andb_true_iff, !String.eqb_eq. Qed.
Lemma ListTagRules_does o s :
  BillingDoes o (fun _ => True) (ListTagRules o s) (on_ok (fun l _ => Forall (fun r => tr_OrgID r = o) l)).
Proof.
  apply does_query. intros t d Hok _. past. apply Forall_forall. by intros r [_ [? _]]%rules_of_elem.
Qed.

(** ** Resources and costs *)

Lemma upsert_resource_eff o conn t r d id d' :
  billing_tables_ok d -> conn_org d conn = Some o -> upsert_resource o conn t r d = Ok (id, d') ->
  effect o d d' /\ resource_org d' id = Some o.
Proof.
  intros Hok Hc. unfold upsert_resource. destruct (numeric_in _) as [cost|]; [|done]. do 2 past.
  destruct (select_one _ _) as [old|] eqn:E.
  - apply select_one_Some in E as [[k Hk] Hs]. apply andb_true_iff in Hs as [Hconn%String.eqb_eq Hext%String.eqb_eq].
    destruct (ok_resource _ _ Hok k old Hk) as [<- Ho]. intros [= <- <-].
    assert (cr_OrgID old = o) as Hoo by congruence. split.
    + apply eff_resource; cbn; [done|done|congruence|intros r0 Hr0; rewrite Hk in Hr0; injection Hr0 as <-; by repeat split|].
      intros k' r' Hne Hr' Ec Ee. apply Hne. by apply (ok_resources _ _ Hok k' (cr_ID old) r' old).
    + unfold resource_org. cbn. rewrite lookup_insert_eq. cbn. by rewrite Hoo.
  - rewrite select_one_None in E. past. cbv zeta. intros [= <- <-]. split.
    + apply eff_resource; cbn; [done|done|done|by intros r0; rewrite fresh_id|].
      intros k' r' _ Hr' Ec Ee. specialize (E k' r' Hr'). unfold same_resource in E. by rewrite Ec, Ee, !String.eqb_refl in E.
    + unfold resource_org. cbn. by rewrite lookup_insert_eq.
Qed.
Lemma upsert_resources_eff o conn t rs ids d ids' d' :
  billing_tables_ok d -> conn_org d conn = Some o -> ids_in o ids d -> upsert_resources o conn t rs ids d = Ok (ids', d') ->
  effect o d d' /\ ids_in o ids' d'.
Proof.
  revert ids d. induction rs as [|r rs IH]; intros ids d Hok Hc Hids; cbn; [intros [= <- <-]; split; [apply eff_refl|done]|].
  destruct (upsert_resource o conn t r d) as [[id d1]|] eqn:E; [|done]. intros Hu.
  destruct (upsert_resource_eff o conn t r d id d1 Hok Hc E) as [He Hr].
  destruct (IH (<[rs_ExternalResourceID r := id]> ids) d1 (eff_ok _ _ _ _ He Hok) (grows_conn_org _ _ _ _ (eff_grows _ _ _ _ He) Hc)) as [He2 Hi2]; [|done|].
  - intros e i. rewrite lookup_insert_Some. intros [[_ <-]|[_ Hi]]; [done|].
    apply (grows_resource_org _ _ _ _ (eff_grows _ _ _ _ He)), (Hids e), Hi.
  - split; [by eapply eff_trans|done].
Qed.
Lemma UpsertCostResources_does o conn rs :
  BillingDoes o (fun d => conn_org d conn = Some o) (UpsertCostResources o conn rs) (on_ok (fun ids d => ids_in o ids d)).
Proof.
  apply does_exec. intros t d Hok Hc. destruct (upsert_resources _ _ _ _ _ _) as [[ids d']|] eqn:E; [|done].
  by apply (upsert_resources_eff o conn t rs ∅ d).
Qed.
Lemma UpsertCostUsageDaily_does o res date cost :
  BillingDoes o (fun d => resource_org d res = Some o) (UpsertCostUsageDaily o res date cost) (on_ok (fun _ _ => True)).
Proof.
  apply does_exec. intros t d Hok Hr. destruct (date_in date) as [day|], (numeric_in cost) as [c|]; try done.
  past. destruct (b_usage d !! (res, day)) as [old|] eqn:E.
  - destruct (ok_usage _ _ Hok _ _ E) as [Hk Ho]. injection Hk as Hres _.
    assert (ud_OrgID old = o) as Hoo by congruence. split; [|done].
    apply eff_usage; cbn; [done|done|by intros u0 [= <-]%(eq_trans (eq_sym E))|done].
  - past. split; [|done]. apply eff_usage; cbn; [done|done|by rewrite E|done].
Qed.

Lemma linked_matches s d r : linked s d r = existsb (matches (cr_Tags r)) (rules_of (cr_OrgID r) s d).
Proof.
  apply Bool.eq_iff_eq_true. unfold linked. rewrite exists_row_true, existsb_exists. split.
  - intros (k & tr & Htr & [[Ho%String.eqb_eq Hs%String.eqb_eq]%andb_true_iff Hm]%andb_true_iff).
    exists tr. split; [|done]. apply list_elem_of_In, rules_of_elem. eauto.
  - intros (tr & ((k & Htr) & Ho & Hs)%list_elem_of_In%rules_of_elem & Hm). exists k, tr. split; [done|].
    by rewrite Ho, Hs, !String.eqb_refl, Hm.
Qed.

Lemma resources_for_org o s d : Forall (fun r => rs_OrgID r = o) (resources_for o s d).
Proof.
  apply Forall_fmap, Forall_forall. intros r Hr. unfold order_by in Hr.
  rewrite sort_stable_elem, select_elem in Hr. destruct Hr as [_ [Ho _]%andb_true_iff]. by apply String.eqb_eq.
Qed.
Lemma ListResourcesForService_does o s :
  BillingDoes o (fun _ => True) (ListResourcesForService o s) (on_ok (fun l _ => Forall (fun r => rs_OrgID r = o) l)).
Proof. apply does_query. intros t d Hok _. past. apply resources_for_org. Qed.

(** ** Runs *)

Lemma CreateSyncRun_does o conn :
  BillingDoes o (fun d => conn_org d conn = Some o) (CreateSyncRun conn) (on_ok (fun run d => run_in o (sn_ID run) d)).
Proof.
  apply does_exec. intros t d Hok Hc. do 2 past. cbv zeta. split.
  - apply eff_run; cbn; [done|done|done|by intros r0; rewrite fresh_id].
  - eexists. cbn. rewrite lookup_insert_eq. split; [done|]. exact Hc.
Qed.
Lemma FinishSyncRun_does o run status n msg :
  status <> "running" ->
  BillingDoes o (fun d => run_in o run d) (FinishSyncRun run status n msg) (on_ok (fun _ _ => True)).
Proof.
  intros Hs. apply does_exec. intros t d Hok (r & Hr & Hc). past. rewrite Hr. past.
  split; [|done]. destruct (ok_run _ _ Hok run r Hr) as (Hid & _ & _).
  apply eff_run; cbn; [done|done|done|]. intros r0 Hr0. rewrite Hr in Hr0. injection Hr0 as <-. by repeat split.
Qed.

(** ** Bodies *)

Lemma gdoes_stmt {R A} o (F G : BillingDB -> Prop) (Qr : R -> BillingDB -> Prop) (m : BEff A) on_err Q :
  BillingDoes o F m (on_ok Q) -> (forall d, G d -> F d) -> (forall e d, Qr (on_err e) d) -> BillingGoes o G Qr (try m on_err) Q.
Proof. intros Hm HF Hr. eapply gdoes_try, does_mono; [done|done|]. intros [a|e] d; cbn; auto. Qed.
Lemma gdoes_ignored {R A} o (F G : BillingDB -> Prop) (Qr : R -> BillingDB -> Prop) (m : Eff W A) Q :
  BillingDoes o F m Q -> (forall d, G d -> F d) -> BillingGoes o G Qr (call m) Q.
Proof. intros Hm HF. by eapply gdoes_call, does_mono. Qed.

Lemma gdoes_checked {R E A} o (F : BillingDB -> Prop) (Qr : R -> BillingDB -> Prop) (r : result E A) on_err :
  (forall e d, Qr (on_err e) d) -> BillingGoes o F Qr (try (pure r) on_err) (fun a _ => r = Ok a).
Proof. intros Hr. apply gdoes_try, does_pure. intros d _. by destruct r. Qed.

Definition any {A} (_ : A) (_ : BillingDB) : Prop := True.
#[local] Instance stable_any {A} (a : A) : Stable (any a).
Proof. done. Qed.

Lemma store_usage_does o F ids usage `{!Stable F} :
  (forall d, F d -> ids_in o ids d) -> BillingGoes o F any (store_usage o ids usage) any.
Proof.
  intros HF. apply gdoes_for; [done|]. intros u. destruct (ids !! ug_ExternalResourceID u) as [res|] eqn:E; [|by apply gdoes_ret].
  eapply gdoes_bind; [done| |intros a; by apply gdoes_ret].
  eapply gdoes_stmt; [apply UpsertCostUsageDaily_does| |done]. intros d Hd. by apply (HF d Hd (ug_ExternalResourceID u)).
Qed.

Lemma RunSync_does o adapter conn payload :
  BillingDoes o (fun d => conn_org d (cn_ID conn) = Some o) (RunSync cipher adapter o conn payload) any.
Proof.
  apply does_func. eapply gdoes_bind; [apply _|by apply gdoes_checked|]. intros i.
  eapply gdoes_bind; [apply _|eapply gdoes_stmt; [apply CreateSyncRun_does|naive_solver|done]|].
  intros run. eapply gdoes_bind; [apply _|eapply gdoes_ignored; [apply UpdateCloudConnectionStatus_does|naive_solver]|].
  intros ?.
  eapply gdoes_bind; [apply _|apply gdoes_call, does_adapter|]. intros [result|msg].
  - eapply gdoes_bind; [apply _|eapply gdoes_ignored; [apply UpsertCostResources_does|naive_solver]|].
    intros [ids|e]; cbn [on_ok].
    + eapply gdoes_bind; [apply _|eapply store_usage_does; [apply _|naive_solver]|]. intros ?.
      eapply gdoes_bind; [apply _|eapply gdoes_ignored; [by apply FinishSyncRun_does|naive_solver]|]. intros ?.
      eapply gdoes_bind; [apply _|eapply gdoes_stmt; [apply UpdateCloudConnectionStatus_does|naive_solver|done]|].
      intros ?. by apply gdoes_ret.
    + eapply gdoes_bind; [apply _|eapply gdoes_ignored; [by apply FinishSyncRun_does|naive_solver]|].
      intros ?. by apply gdoes_ret.
  - eapply gdoes_bind; [apply _|eapply gdoes_ignored; [by apply FinishSyncRun_does|naive_solver]|]. intros ?.
    eapply gdoes_bind; [apply _|eapply gdoes_ignored; [apply UpdateCloudConnectionStatus_does|naive_solver]|].
    intros ?. by apply gdoes_ret.
Qed.

(** ** Handlers *)

(** The rows a reply shows are the org's. *)
Definition shown (o : string) (r : BReply) : Prop :=
  match payload r with
  | Json (OneConnection c) => cn_OrgID c = o
  | Json (Connections l) => Forall (fun c => cn_OrgID c = o) l
  | Json (OneTagRule r) => tr_OrgID r = o
  | Json (TagRules l) => Forall (fun r => tr_OrgID r = o) l
  | Json (Resources l) => Forall (fun v => rs_OrgID (rv_Resource v) = o) l
  | _ => True
  end.
Lemma shown_http_error o e : shown o (http_error e).
Proof. by destruct e as [[]| |]. Qed.
Lemma shown_writeErr o e : shown o (writeErr e).
Proof. by destruct e as [[]|[]|]. Qed.
Lemma shown_HttpError o e : shown o (HttpError e).
Proof. by destruct e. Qed.

(** A job that a request of its org left. *)
Definition job_ok (j : SyncJob) d : Prop := conn_org d (cn_ID (sj_Connection j)) = Some (sj_OrgID j).
#[local] Instance stable_job j : Stable (job_ok j).
Proof. apply stable_conn. Qed.

Definition answers (o : string) (r : BReply) (_ : BillingDB) : Prop := shown o r.

Lemma gdoes_authorize {R} o F (Qr : R -> BillingDB -> Prop) ret ctx org :
  (forall d, Qr (ret Unauthorized) d) -> (forall d, Qr (ret Forbidden) d) ->
  BillingGoes o F Qr (authorizeOrg ret ctx org) (fun _ _ => True).
Proof.
  intros Hu Hf. unfold authorizeOrg, gbind, non_nil, return_if. destruct ctx as [p|]; [|by apply gdoes_return].
  intros w He Hok HF. cbn. destruct (_ && _); cbn; (split_and!; [done|apply eff_refl|done]).
Qed.

(** A fact that does not depend on the tables. *)
Lemma gdoes_given {R A} (P : Prop) o F (Qr : R -> BillingDB -> Prop) (m : Go W R A) Q :
  (forall d, F d -> P) -> (P -> BillingGoes o F Qr m Q) -> BillingGoes o F Qr m Q.
Proof. intros HP Hm w He Hok HF. by apply Hm; [apply (HP (w_db w))| | |]. Qed.

Lemma Encrypt_does o text :
  made_cipher cipher ->
  BillingDoes o (fun _ => True) (Encrypt cipher text)
    (fun r _ => match r with Ok enc => Decrypt cipher enc = Ok text | Err _ => True end).
Proof.
  intros Hc w He Hok _. destruct (Encrypt_spec cipher text w Hc He) as [He' Henc]. split_and!; [done| |].
  - rewrite Encrypt_db. apply eff_refl.
  - destruct (Encrypt cipher text w).1; auto.
Qed.

#[local] Ltac hbind := eapply gdoes_bind; [apply _| |intros ?].
#[local] Ltac hauth := hbind; [by apply gdoes_authorize|].
#[local] Ltac hstmt L := hbind; [eapply gdoes_stmt; [apply L|naive_solver|intros; first [apply shown_writeErr|apply shown_http_error]]|].

Lemma CreateConnection_does ctx o body :
  made_cipher cipher -> BillingDoes o (fun _ => True) (CreateConnection cipher ctx o body) (answers o).
Proof.
  intros Hc. apply does_func. hauth. hbind; [by apply gdoes_non_nil|].
  hbind; [apply gdoes_checked; intros; apply shown_writeErr|].
  hbind; [eapply gdoes_try, does_mono; [by apply Encrypt_does|done|intros [enc|e] d Hq; [exact Hq|apply shown_HttpError]]|].
  match goal with a : string, i : ConnectionInput |- _ => apply (gdoes_given (sealed cipher (in_Provider i) a)) end.
  { intros d (((_ & Hbody) & Hv) & Henc). eexists. unfold decrypted. rewrite Henc, (unmarshal_marshal _ _ Hbody).
    split_and!; [done| |done]. by destruct (Validate _). }
  intros Hs. hstmt CreateCloudConnection_does; [exact Hs|]. apply gdoes_ret. by intros d [_ ?].
Qed.

Lemma ListConnections_does ctx o : BillingDoes o (fun _ => True) (ListConnections ctx o) (answers o).
Proof. apply does_func. hauth. hstmt ListCloudConnections_does. apply gdoes_ret. by intros d [_ ?]. Qed.
Lemma GetConnection_does ctx o i : BillingDoes o (fun _ => True) (GetConnection ctx o i) (answers o).
Proof. apply does_func. hauth. hstmt GetCloudConnection_does. apply gdoes_ret. by intros d [_ ?]. Qed.
Lemma DeleteConnection_does ctx o i : BillingDoes o (fun _ => True) (DeleteConnection ctx o i) (answers o).
Proof. apply does_func. hauth. hstmt DeleteCloudConnection_does. by apply gdoes_ret. Qed.
Lemma ListRules_does ctx o s : BillingDoes o (fun _ => True) (ListRules ctx o s) (answers o).
Proof. apply does_func. hauth. hstmt ListTagRules_does. apply gdoes_ret. by intros d [_ ?]. Qed.
Lemma DeleteRule_does ctx o s i : BillingDoes o (fun _ => True) (DeleteRule ctx o s i) (answers o).
Proof. apply does_func. hauth. hstmt DeleteTagRule_does. by apply gdoes_ret. Qed.
(** A rule that is there already is returned whosever it is. *)
Lemma CreateRule_does ctx o s b : BillingDoes o (fun _ => True) (CreateRule ctx o s b) (fun _ _ => True).
Proof.
  apply does_func. hbind; [by apply gdoes_authorize|]. hbind; [by apply gdoes_non_nil|]. hbind; [by apply gdoes_return_if|].
  hbind; [by eapply gdoes_stmt; [apply CreateTagRule_does|naive_solver|]|]. by apply gdoes_ret.
Qed.

Lemma loadDecryptedConnection_does o i :
  BillingDoes o (fun _ => True) (loadDecryptedConnection cipher o i) (on_ok (fun c d => conn_org d (cn_ID c.1) = Some o)).
Proof.
  apply does_func. hbind; [by eapply gdoes_stmt; [apply GetCloudConnectionAuth_does|naive_solver|]|].
  hbind; [by apply gdoes_checked|]. apply gdoes_ret. by intros d [[_ (_ & ? & _)] _].
Qed.
Lemma TestConnection_does adapters ctx o i :
  BillingDoes o (fun _ => True) (TestConnection cipher adapters ctx o i) (answers o).
Proof.
  apply does_func. hauth. hstmt loadDecryptedConnection_does. hbind; [apply gdoes_checked; intros; apply shown_writeErr|].
  hbind; [apply gdoes_call, does_adapter|]. destruct a2 as [msg|];
    (hbind; [eapply gdoes_ignored; [apply UpdateCloudConnectionStatus_does|naive_solver]|]; by apply gdoes_ret).
Qed.
Lemma TriggerSync_does adapters ctx o i :
  BillingDoes o (fun _ => True) (TriggerSync adapters ctx o i)
    (fun rj d => shown o rj.1 /\ forall j, rj.2 = Some j -> job_ok j d /\ sj_OrgID j = o).
Proof.
  apply does_func. hbind; [by apply gdoes_authorize|].
  hbind; [eapply gdoes_stmt; [apply GetCloudConnectionAuth_does|naive_solver|intros; split; [apply shown_writeErr|done]]|].
  hbind; [apply gdoes_checked; intros; split; [apply shown_writeErr|done]|]. apply gdoes_ret.
  intros d [[_ (_ & Hc & _)] _]. split; [done|]. by intros j [= <-].
Qed.

Lemma resourcesAndRules_does o s :
  BillingDoes o (fun _ => True) (resourcesAndRules o s) (on_ok (fun rr _ => Forall (fun r => rs_OrgID r = o) rr.1)).
Proof.
  apply does_func. hbind; [by eapply gdoes_stmt; [apply ListTagRules_does|naive_solver|]|].
  hbind; [by eapply gdoes_stmt; [apply ListResourcesForService_does|naive_solver|]|]. apply gdoes_ret.
  intros d [_ Hr]. cbn in *. apply Forall_fmap. eapply Forall_impl; [exact Hr|done].
Qed.
Lemma ListTrendForService_does o s days :
  BillingDoes o (fun _ => True) (ListTrendForService o s days) (on_ok (fun _ _ => True)).
Proof. apply does_query. intros t d _ _. by case_match. Qed.
Lemma GetSummary_does ctx o s : BillingDoes o (fun _ => True) (GetSummary ctx o s) (answers o).
Proof. apply does_func. hauth. hstmt resourcesAndRules_does. hstmt ListTrendForService_does. by apply gdoes_ret. Qed.
Lemma ListResources_does ctx o s : BillingDoes o (fun _ => True) (ListResources ctx o s) (answers o).
Proof.
  apply does_func. hauth. hstmt resourcesAndRules_does. apply gdoes_ret. intros d [_ Hr]. unfold answers, shown. cbn in *.
  apply Forall_fmap. eapply Forall_impl; [exact Hr|done].
Qed.
Lemma GetTrend_does ctx o s days : BillingDoes o (fun _ => True) (GetTrend ctx o s days) (answers o).
Proof. apply does_func. hauth. hstmt ListTrendForService_does. by apply gdoes_ret. Qed.
Lemma GetResource_does o r : BillingDoes o (fun _ => True) (GetResource o r) (on_ok (fun _ _ => True)).
Proof. apply does_query. intros t d _ _. past. destruct (b_resources d !! r) as [x|]; [|done]. by destruct (String.eqb _ _). Qed.
Lemma ListDailyCosts_does o r days :
  BillingDoes o (fun _ => True) (ListDailyCostsForResource o r days) (on_ok (fun _ _ => True)).
Proof. apply does_query. intros t d _ _. by case_match. Qed.
Lemma GetResourceDailyCosts_does ctx o r days :
  BillingDoes o (fun _ => True) (GetResourceDailyCosts ctx o r days) (answers o).
Proof. apply does_func. hauth. hstmt GetResource_does. hstmt ListDailyCosts_does. by apply gdoes_ret. Qed.

Definition creates_rule (q : billing_request) : bool := match q with QCreateTagRule _ _ => true | _ => false end.

Lemma does_only_reply o m (Q : BReply -> Prop) :
  BillingDoes o (fun _ => True) m (fun r _ => Q r) ->
  BillingDoes o (fun _ => True) (only_reply m) (fun rj d => Q rj.1 /\ forall j, rj.2 = Some j -> job_ok j d /\ sj_OrgID j = o).
Proof.
  intros Hm w He Hok HF. destruct (Hm w He Hok HF) as (? & ? & ?). unfold only_reply. destruct (m w). by split_and!.
Qed.

Lemma serve_does adapters ctx o q :
  made_cipher cipher ->
  BillingDoes o (fun _ => True) (serve cipher adapters ctx o q)
    (fun rj d => (creates_rule q = false -> shown o rj.1) /\ forall j, rj.2 = Some j -> job_ok j d /\ sj_OrgID j = o).
Proof.
  intros Hc. destruct q; cbn [serve creates_rule];
    try (apply (does_only_reply o _ (fun r => false = false -> shown o r))).
  - eapply does_mono; [by apply CreateConnection_does|done|by intros ???].
  - eapply does_mono; [apply ListConnections_does|done|by intros ???].
  - eapply does_mono; [apply GetConnection_does|done|by intros ???].
  - eapply does_mono; [apply DeleteConnection_does|done|by intros ???].
  - eapply does_mono; [apply TestConnection_does|done|by intros ???].
  - eapply does_mono; [apply TriggerSync_does|done|]. intros rj d [? ?]. by split.
  - eapply does_mono; [apply GetSummary_does|done|by intros ???].
  - eapply does_mono; [apply ListResources_does|done|by intros ???].
  - eapply does_mono; [apply GetTrend_does|done|by intros ???].
  - eapply does_mono; [apply ListRules_does|done|by intros ???].
  - apply (does_only_reply o _ (fun r => true = false -> shown o r)).
    eapply does_mono; [apply CreateRule_does|done|by intros ????].
  - eapply does_mono; [apply DeleteRule_does|done|by intros ???].
  - eapply does_mono; [apply GetResourceDailyCosts_does|done|by intros ???].
Qed.
End Steps.
