(* ===== verification/BillingFlow.v ===== *)
(** * BillingFlow: the properties of cloud billing

    The states the process reaches by requests, syncs and rounds of the worker, and
    what holds in them; what one sync stores and how it ends; which resources and
    which costs a dashboard shows. *)

From S2P Require Import Prelude GoStrings Effects Table Authz Identity Crypto Float64 Billing AwsBilling BillingStore BillingSync BillingLife BillingSteps Faults.
Set Warnings "-clear-no-such-hyp".

(** ** What a sync stores *)

Section Stored.
Context `{CostTypes} `{Collation} `{UuidText} `{RangeOrder} `{Sha256} `{Aead} `{InputCodec}.
Context (cipher : Cipher).
#[local] Abbreviation W := (World BillingDB).
Implicit Types d : BillingDB.

(** The columns of a row are those of the resource the adapter reported. *)
Definition reported (connectionID : string) (r : Resource) (row : CostResource) : Prop :=
  same_resource connectionID (rs_ExternalResourceID r) row = true /\ cr_Name row = rs_Name r /\
  cr_Type row = rs_ResourceType r /\ cr_Tags row = rs_Tags r /\ cr_Status row = rs_Status r /\
  numeric_in (rs_MonthlyCostUSD r) = Some (cr_MonthlyCost row).

(** The ids are those of the rows of the connection. *)
Definition ids_good (connectionID : string) (ids : gmap string string) d : Prop :=
  forall e id, ids !! e = Some id -> exists row, b_resources d !! id = Some row /\ same_resource connectionID e row = true.

Lemma same_resource_true c e row : same_resource c e row = true <-> cr_ConnectionID row = c /\ cr_ExternalID row = e.
Proof. unfold same_resource. by rewrite andb_true_iff, !String.eqb_eq. Qed.

Lemma upsert_resource_spec o conn t r d id d' :
  billing_ok cipher d -> conn_org d conn = Some o -> upsert_resource o conn t r d = Ok (id, d') ->
  d' = set_resources d (b_resources d') /\
  (exists row, b_resources d' !! id = Some row /\ reported conn r row) /\
  (forall k row, same_resource conn (rs_ExternalResourceID r) row = false ->
     (b_resources d' !! k = Some row <-> b_resources d !! k = Some row)).
Proof.
  intros Hok Hc. unfold upsert_resource. destruct (numeric_in _) as [cost|] eqn:Hcost; [|done].
  do 2 match goal with |- (if ?b then _ else _) = _ -> _ => destruct b eqn:?; try done end.
  destruct (select_one _ _) as [old|] eqn:E.
  - apply select_one_Some in E as [[k Hk] Hs]. destruct (ok_resource _ _ Hok k old Hk) as [<- Ho].
    intros [= <- <-]. split_and!; [done| |].
    + eexists. cbn. rewrite lookup_insert_eq. split; [done|]. apply same_resource_true in Hs as [Hc' He'].
      unfold reported. rewrite same_resource_true. cbn. by split_and!.
    + intros k' row Hn. cbn. destruct (decide (k' = cr_ID old)) as [->|Hne]; [|by rewrite lookup_insert_ne].
      rewrite lookup_insert_eq, Hk. split; intros [= <-]; [|congruence].
      apply same_resource_true in Hs as [E1 E2]. unfold same_resource in Hn. cbn in Hn. by rewrite E1, E2, !String.eqb_refl in Hn.
  - case_match; [|done]. cbv zeta. intros [= <- <-]. split_and!; [done| |].
    + eexists. cbn. rewrite lookup_insert_eq. split; [done|]. unfold reported. rewrite same_resource_true. cbn. by split_and!.
    + intros k' row Hn. cbn. destruct (decide (k' = gen_random_uuid (dom (b_resources d)))) as [->|Hne]; [|by rewrite lookup_insert_ne].
      rewrite lookup_insert_eq, fresh_id. split; [|done]. intros [= <-].
      unfold same_resource in Hn. cbn in Hn. by rewrite !String.eqb_refl in Hn.
Qed.

Lemma upsert_resources_spec o conn t rs ids d ids' d' :
  billing_ok cipher d -> conn_org d conn = Some o -> ids_good conn ids d ->
  upsert_resources o conn t rs ids d = Ok (ids', d') ->
  d' = set_resources d (b_resources d') /\ ids_good conn ids' d' /\
  (forall e, is_Some (ids' !! e) <-> is_Some (ids !! e) \/ e ∈ map rs_ExternalResourceID rs) /\
  (forall pre r post, rs = (pre ++ r :: post)%list -> rs_ExternalResourceID r ∉ map rs_ExternalResourceID post ->
     exists id row, ids' !! rs_ExternalResourceID r = Some id /\ b_resources d' !! id = Some row /\ reported conn r row) /\
  (forall k row, (forall r, r ∈ rs -> same_resource conn (rs_ExternalResourceID r) row = false) ->
     (b_resources d' !! k = Some row <-> b_resources d !! k = Some row)) /\
  (forall e, e ∉ map rs_ExternalResourceID rs -> ids' !! e = ids !! e).
Proof.
  revert ids d. induction rs as [|r rs IH]; intros ids d Hok Hc Hids; cbn.
  { intros [= <- <-]. split_and!; [by destruct d|done| | |done|done].
    - intros e. split; [by left|]. intros [?|?%elem_of_nil]; done.
    - by intros [] ?? [=]. }
  destruct (upsert_resource o conn t r d) as [[id d1]|] eqn:E; [|done]. intros Hu.
  destruct (upsert_resource_spec o conn t r d id d1 Hok Hc E) as (E1 & (row & Hrow & Hrep) & Hother).
  destruct (upsert_resource_eff cipher o conn t r d id d1 Hok Hc E) as [He _].
  pose proof (eff_grows _ _ _ _ He) as Hg.
  destruct (IH (<[rs_ExternalResourceID r := id]> ids) d1 (eff_ok _ _ _ _ He Hok) (grows_conn_org _ _ _ _ Hg Hc))
    as (E2 & G & D & L & U & N); [|done|].
  { intros e i. rewrite lookup_insert_Some. intros [[<- <-]|[_ Hi]]; [exists row; split; [done|apply Hrep]|].
    destruct (Hids e i Hi) as (x & Hx & Hs). destruct (gr_resources _ _ Hg i x Hx) as (x' & Hx' & K1 & K2 & K3 & _).
    exists x'. split; [done|]. rewrite same_resource_true in *. by rewrite K2, K3. }
  split_and!.
  - rewrite E2, E1. by destruct d.
  - done.
  - intros e. rewrite D, elem_of_cons. destruct (decide (e = rs_ExternalResourceID r)) as [->|Hne].
    + rewrite lookup_insert_eq. split; eauto.
    + rewrite lookup_insert_ne by done. naive_solver.
  - intros [|x pre] r0 post; cbn; intros Heq Hn; injection Heq as Er El.
    + subst r0 post. exists id, row. rewrite N by done. rewrite lookup_insert_eq. split_and!; [done| |done].
      apply U; [|done]. intros r2 Hr2. destruct Hrep as [Hs _]. apply same_resource_true in Hs as [_ Hs].
      apply not_true_iff_false. rewrite same_resource_true. intros [_ Hx]. destruct Hn. rewrite <-Hs, Hx. by apply list_elem_of_fmap_2.
    + subst. by apply (L pre r0 post).
  - intros k x Hx. rewrite U by (intros; apply Hx; by right). apply Hother, Hx. left.
  - intros e He'. rewrite N by (intros ?; apply He'; by right). apply lookup_insert_ne. intros <-. apply He'. left.
Qed.

(** The resource and the day a point is stored under. *)
Definition usage_slot (ids : gmap string string) (u : UsagePoint) : option string * option Z :=
  (ids !! ug_ExternalResourceID u, date_in (ug_Date u)).

(** Each point of a known resource is stored, the last one of a day. *)
Definition usage_stored (ids : gmap string string) (usage : list UsagePoint) d : Prop :=
  forall pre u post res, usage = (pre ++ u :: post)%list -> ids !! ug_ExternalResourceID u = Some res ->
    (forall u', u' ∈ post -> usage_slot ids u' <> usage_slot ids u) ->
    exists day row, date_in (ug_Date u) = Some day /\ b_usage d !! (res, day) = Some row /\
      numeric_in (ug_CostUSD u) = Some (ud_Cost row).

(** A statement that writes ran, or changed nothing, because it failed in transport
    or the tables refused it. *)
Lemma b_exec_split {A} (f : Z -> BillingDB -> result billing_err (A * BillingDB)) w r w' :
  b_exec f w = (r, w') ->
  later w w' /\
  ((exists a, r = Ok a /\ f (w_clock w) (w_db w) = Ok (a, w_db w')) \/
   (exists e, r = Err e /\ w_db w' = w_db w /\ (failed_between w w' \/ f (w_clock w) (w_db w) = Err e))).
Proof.
  unfold b_exec, b_op. destruct (db_op _ w) as [[r0|e] w0] eqn:E; apply db_op_split in E as [Hl [(Hf & Hr & Hd)|E]];
    intros [= <- <-]; (split; [done|]); try done.
  - destruct (f _ _) as [[a d]|e] eqn:Ef; injection E as <- Ed; [left; rewrite Ed|right]; eauto 6.
  - right. eauto.
  - by destruct (f _ _) as [[a d]|?].
Qed.
Lemma b_exec_run {A} (f : Z -> BillingDB -> result billing_err (A * BillingDB)) w r w' :
  b_exec f w = (r, w') ->
  (exists a, r = Ok a /\ f (w_clock w) (w_db w) = Ok (a, w_db w')) \/ (exists e, r = Err e /\ w_db w' = w_db w).
Proof. intros [_ [(a & ? & ?)|(e & ? & ? & _)]]%b_exec_split; eauto. Qed.
Lemma b_query_run {A} (f : Z -> BillingDB -> result billing_err A) w r w' :
  b_query f w = (r, w') -> w_db w' = w_db w /\ forall a, r = Ok a -> f (w_clock w) (w_db w) = Ok a.
Proof.
  unfold b_query, b_op, db_op. destruct (w_faults w) as [|[] fs]; cbn; intros [= <- <-]; done.
Qed.

(** The tables refuse the point whenever it is stored. *)
Definition point_refused (o res : string) (u : UsagePoint) d : Prop :=
  forall w, w_db w = d -> (UpsertCostUsageDaily o res (ug_Date u) (ug_CostUSD u) w).1 <> Ok tt.

Lemma usage_run o res u w r w' :
  UpsertCostUsageDaily o res (ug_Date u) (ug_CostUSD u) w = (r, w') ->
  later w w' /\ w_db w' = set_usage (w_db w) (b_usage (w_db w')) /\
  match r with
  | Ok _ => exists day row, date_in (ug_Date u) = Some day /\
              b_usage (w_db w') = <[(res, day) := row]> (b_usage (w_db w)) /\ numeric_in (ug_CostUSD u) = Some (ud_Cost row)
  | Err _ => w_db w' = w_db w /\ (failed_between w w' \/ point_refused o res u (w_db w'))
  end.
Proof.
  intros [Hl [(a & -> & E)|(e & -> & -> & Hw)]]%b_exec_split; (split; [done|]).
  - destruct (date_in _) as [day|], (numeric_in _) as [c|]; try done. destruct (negb _); [done|].
    destruct a, (b_usage _ !! _); [|destruct (_ && _); [|done]]; injection E as E; rewrite <-E; (split; [done|]); cbn; eauto.
  - split; [by destruct (w_db w)|]. split; [done|]. destruct Hw as [Hw|Hw]; [by left|right]. intros w1 Hd1 Hok.
    destruct (UpsertCostUsageDaily _ _ _ _ w1) as [r1 w2] eqn:E1. cbn in Hok. subst r1.
    apply b_exec_run in E1 as [(a & _ & E1)|(? & [=] & _)]. rewrite Hd1 in E1. congruence.
Qed.

(** The points are stored, the last ones of those that coincide, and nothing else changed. *)
Definition points_stored (ids : gmap string string) (usage : list UsagePoint) d d' : Prop :=
  usage_stored ids usage d' /\
  forall res day row, (forall u, u ∈ usage -> usage_slot ids u <> (Some res, Some day)) ->
    b_usage d' !! (res, day) = Some row <-> b_usage d !! (res, day) = Some row.

Lemma points_known ids u usage d d1 d' res day row :
  ids !! ug_ExternalResourceID u = Some res -> date_in (ug_Date u) = Some day ->
  numeric_in (ug_CostUSD u) = Some (ud_Cost row) -> b_usage d1 = <[(res, day) := row]> (b_usage d) ->
  points_stored ids usage d1 d' -> points_stored ids (u :: usage) d d'.
Proof.
  intros Eid Hday Hcost Hrow [Hu Ho]. split.
  - intros [|x pre] v post res0; cbn; intros Heq Hid Hlast; injection Heq as Ex El.
    + subst v post. assert (res0 = res) as -> by congruence. exists day, row. split_and!; [done| |done].
      apply Ho; [|by rewrite Hrow, lookup_insert_eq]. intros u' Hu' Hslot. destruct (Hlast u' Hu').
      rewrite Hslot. unfold usage_slot. by rewrite Eid, Hday.
    + subst. by apply (Hu pre v post res0).
  - intros res0 day0 row0 Hn. rewrite Ho by (intros; apply Hn; by right). rewrite Hrow, lookup_insert_ne; [done|].
    intros [= -> ->]. destruct (Hn u); [left|]. unfold usage_slot. by rewrite Eid, Hday.
Qed.
Lemma points_unknown ids u usage d d' :
  ids !! ug_ExternalResourceID u = None -> points_stored ids usage d d' -> points_stored ids (u :: usage) d d'.
Proof.
  intros Eid [Hu Ho]. split.
  - intros [|x pre] v post res0; cbn; intros Heq Hid Hlast; injection Heq as Ex El; [congruence|].
    subst. by apply (Hu pre v post res0).
  - intros res0 day0 row0 Hn. apply Ho. intros u' Hu'. apply Hn. by right.
Qed.
Lemma points_nil ids d : points_stored ids [] d d.
Proof. split; [by intros [] ??? [=]|done]. Qed.

Lemma store_usage_run o ids usage w r w' :
  store_usage o ids usage w = (r, w') ->
  later w w' /\ w_db w' = set_usage (w_db w) (b_usage (w_db w')) /\
  match r with
  | inl e => exists err pre u post res, e = Err err /\ usage = (pre ++ u :: post)%list /\
      points_stored ids pre (w_db w) (w_db w') /\ ids !! ug_ExternalResourceID u = Some res /\
      (failed_between w w' \/ point_refused o res u (w_db w'))
  | inr _ => points_stored ids usage (w_db w) (w_db w')
  end.
Proof.
  revert w. induction usage as [|u usage IH]; intros w.
  { intros [= <- <-]. split_and!; [done|by destruct (w_db w)|apply points_nil]. }
  unfold store_usage. cbn [gfor]. fold (store_usage o ids usage). unfold gbind at 1.
  destruct (ids !! ug_ExternalResourceID u) as [res|] eqn:Eid.
  - unfold try, gbind, call. destruct (UpsertCostUsageDaily _ _ _ _ w) as [[a|e] w1] eqn:Eu;
      apply usage_run in Eu as (L1 & Ed & Hs).
    2: { intros [= <- <-]. split_and!; [done|done|]. destruct Hs as [Hd Hs].
         exists e, [], u, usage, res. split_and!; [done|done| |done|done]. rewrite Hd. apply points_nil. }
    destruct Hs as (day & row & Hday & Hrow & Hcost). cbn.
    intros Hr. destruct (IH w1 Hr) as (L2 & Ed' & Hm).
    split_and!; [by eapply later_trans|rewrite Ed', Ed; by destruct (w_db w)|].
    destruct r as [x|?]; [|by eapply points_known].
    destruct Hm as (err & pre & v & post & res' & -> & -> & Hp & Hv & Hw). exists err, (u :: pre), v, post, res'.
    split_and!; [done|done|by eapply points_known|done|]. destruct Hw as [Hw|Hw]; [left|by right]. by eapply failed_after.
  - cbn. intros Hr. destruct (IH w Hr) as (L2 & Ed & Hm). split_and!; [done|done|].
    destruct r as [x|?]; [|by apply points_unknown].
    destruct Hm as (err & pre & v & post & res' & -> & -> & Hp & Hv & Hw). exists err, (u :: pre), v, post, res'.
    split_and!; [done|done|by apply points_unknown|done|done].
Qed.

(** What a sync that succeeds leaves: every resource and every point it reported
    (the last of those that coincide), and nothing else changed. *)
Definition sync_stored (connectionID : string) (result : SyncResult) d d' : Prop :=
  exists ids,
    (forall e, is_Some (ids !! e) <-> e ∈ map rs_ExternalResourceID (sy_Resources result)) /\
    (forall pre r post, sy_Resources result = (pre ++ r :: post)%list ->
       rs_ExternalResourceID r ∉ map rs_ExternalResourceID post ->
       exists id row, ids !! rs_ExternalResourceID r = Some id /\ b_resources d' !! id = Some row /\ reported connectionID r row) /\
    (forall k row, (forall r, r ∈ sy_Resources result -> same_resource connectionID (rs_ExternalResourceID r) row = false) ->
       (b_resources d' !! k = Some row <-> b_resources d !! k = Some row)) /\
    points_stored ids (sy_Usage result) d d'.

(** The status of a connection and its message. *)
Definition shown_status d (id : string) : option (string * string) :=
  (fun c => (cn_Status (co_Connection c), cn_StatusMessage (co_Connection c))) <$> b_connections d !! id.

Lemma create_run_run id w r w' :
  CreateSyncRun id w = (r, w') ->
  later w w' /\ w_db w' = set_runs (w_db w) (b_runs (w_db w')) /\
  match r with
  | Ok _ => valid_uuid id = true
  | Err _ => w_db w' = w_db w /\ (failed_between w w' \/ valid_uuid id = false \/ b_connections (w_db w) !! id = None)
  end.
Proof.
  intros [Hl [(a & -> & E)|(e & -> & -> & Hw)]]%b_exec_split; (split; [done|]).
  - destruct (valid_uuid id); [|done]. cbn [negb] in E. destruct (negb _); [done|]. injection E as _ E. by rewrite <-E.
  - split; [by destruct (w_db w)|]. split; [done|]. destruct Hw as [Hw|Hw]; [by left|right].
    destruct (valid_uuid id); [right|by left]. cbn [negb] in Hw. by destruct (b_connections _ !! id).
Qed.
Lemma status_run id status msg w r w' :
  mem_str status [ConnectionStatusPending; ConnectionStatusConnected; ConnectionStatusSyncing; ConnectionStatusError] = true ->
  valid_uuid id = true -> is_Some (b_connections (w_db w) !! id) ->
  UpdateCloudConnectionStatus id status msg w = (r, w') ->
  later w w' /\ w_db w' = set_connections (w_db w) (b_connections (w_db w')) /\
  match r with
  | Ok _ => shown_status (w_db w') id = Some (status, msg)
  | Err _ => w_db w' = w_db w /\ failed_between w w'
  end.
Proof.
  intros Hm Hv [c Hc] [Hl [(a & -> & E)|(e & -> & -> & Hw)]]%b_exec_split; (split; [done|]);
    rewrite Hv, Hc, Hm in *; cbn [negb] in *.
  - destruct a. injection E as E. rewrite <-E. split; [done|]. unfold shown_status. cbn. by rewrite lookup_insert_eq.
  - split; [by destruct (w_db w)|]. split; [done|]. by destruct Hw.
Qed.
Lemma finish_run_run id status n msg w r w' :
  FinishSyncRun id status n msg w = (r, w') -> later w w' /\ w_db w' = set_runs (w_db w) (b_runs (w_db w')).
Proof.
  intros [Hl [(a & -> & E)|(e & -> & -> & _)]]%b_exec_split; (split; [done|]); [|by destruct (w_db w)].
  destruct (_ || _); [done|]. destruct a, (b_runs _ !! _) as [run|]; [|injection E as <-; by destruct (w_db w)].
  case_match; [|done]. injection E as E. by rewrite <-E.
Qed.
Lemma adapter_run {A} (f : Z -> A) w r w' : adapter_call f w = (r, w') -> later w w' /\ exists t, r = f t /\ w_db w' = w_db w.
Proof.
  unfold adapter_call. pose proof (time_now_later w) as Hl. pose proof (time_now_db w) as Hd.
  destruct (time_now w) as [t w1]. intros [= <- <-]. eauto.
Qed.

(** The connection shows that it is syncing, or what it showed when the statement
    that says so failed. *)
Definition waiting (id : string) w w' : Prop :=
  shown_status (w_db w') id = Some (ConnectionStatusSyncing, "") \/
  (failed_between w w' /\ shown_status (w_db w') id = shown_status (w_db w) id).

(** How a sync fails after it has begun: the adapter refuses; the resources are
    refused, and none is stored; a cost is refused, and the resources and the costs
    before it are stored; or all is stored and the last status is not. *)
Inductive sync_failed (adapter : ProviderAdapter) (i : ConnectionInput) (o id : string) (e : billing_err) w w' : Prop :=
| failed_at_provider t msg :
    pa_Sync adapter i t = Err msg -> e = BText msg ->
    b_resources (w_db w') = b_resources (w_db w) -> b_usage (w_db w') = b_usage (w_db w) ->
    shown_status (w_db w') id = Some (ConnectionStatusError, msg) \/ (failed_between w w' /\ waiting id w w') ->
    sync_failed adapter i o id e w w'
| failed_at_resources t result :
    pa_Sync adapter i t = Ok result -> waiting id w w' ->
    b_resources (w_db w') = b_resources (w_db w) -> b_usage (w_db w') = b_usage (w_db w) ->
    (failed_between w w' \/ exists now d1, b_resources d1 = b_resources (w_db w) /\ b_orgs d1 = b_orgs (w_db w) /\
       upsert_resources o id now (sy_Resources result) ∅ d1 = Err e) ->
    sync_failed adapter i o id e w w'
| failed_at_cost t result pre u post res :
    pa_Sync adapter i t = Ok result -> waiting id w w' -> sy_Usage result = (pre ++ u :: post)%list ->
    sync_stored id (mkSyncResult (sy_Resources result) pre) (w_db w) (w_db w') ->
    failed_between w w' \/ point_refused o res u (w_db w') ->
    sync_failed adapter i o id e w w'
| failed_at_end t result :
    pa_Sync adapter i t = Ok result -> waiting id w w' ->
    sync_stored id result (w_db w) (w_db w') -> failed_between w w' ->
    sync_failed adapter i o id e w w'.

Lemma status_of_set_runs d t id : shown_status (set_runs d t) id = shown_status d id.
Proof. done. Qed.
Lemma status_of_set_usage d t id : shown_status (set_usage d t) id = shown_status d id.
Proof. done. Qed.
Lemma status_of_set_resources d t id : shown_status (set_resources d t) id = shown_status d id.
Proof. done. Qed.
Lemma shown_found d d' id : shown_status d' id = shown_status d id ->
  is_Some (b_connections d !! id) -> is_Some (b_connections d' !! id).
Proof. unfold shown_status. intros E [c Hc]. rewrite Hc in E. by destruct (b_connections d' !! id). Qed.

Lemma waiting_later id w w1 w2 :
  waiting id w w1 -> later w1 w2 -> shown_status (w_db w2) id = shown_status (w_db w1) id -> waiting id w w2.
Proof. intros [Hs|[Hf Hs]] Hl E; [left|right]; rewrite E; [done|split; [by eapply failed_before|done]]. Qed.

(** Up to the answer of the adapter: the run is logged, the status set. *)
Lemma begin_sync o conn w run w1 u w2 :
  byte_entropy w -> billing_ok cipher (w_db w) -> conn_org (w_db w) (cn_ID conn) = Some o ->
  CreateSyncRun (cn_ID conn) w = (Ok run, w1) ->
  UpdateCloudConnectionStatus (cn_ID conn) ConnectionStatusSyncing "" w1 = (u, w2) ->
  later w w2 /\ w_db w2 = set_connections (set_runs (w_db w) (b_runs (w_db w2))) (b_connections (w_db w2)) /\
  waiting (cn_ID conn) w w2 /\ valid_uuid (cn_ID conn) = true /\
  billing_ok cipher (w_db w2) /\ conn_org (w_db w2) (cn_ID conn) = Some o.
Proof.
  intros He Hok Hc E1 E2.
  destruct (CreateSyncRun_does cipher o (cn_ID conn) w He Hok Hc) as (He1 & Heff1 & _). rewrite E1 in He1, Heff1. cbn in *.
  pose proof (eff_ok _ _ _ _ Heff1 Hok) as Hok1. pose proof (grows_conn_org _ _ _ _ (eff_grows _ _ _ _ Heff1) Hc) as Hc1.
  destruct (UpdateCloudConnectionStatus_does cipher o (cn_ID conn) ConnectionStatusSyncing "" w1 He1 Hok1 Hc1) as (_ & Heff2 & _).
  rewrite E2 in Heff2. cbn in *. apply create_run_run in E1 as (L1 & E1 & Hv).
  apply status_run in E2 as (L2 & E2 & Hs); [|done|done|by apply fmap_Some_1 in Hc1 as (c & -> & _)].
  split_and!.
  - by eapply later_trans.
  - rewrite E2, E1. by destruct (w_db w).
  - destruct u; [by left|right]. destruct Hs as [Hs Hf]. split; [by eapply failed_after|]. by rewrite Hs, E1.
  - done.
  - by apply Heff2.
  - apply (grows_conn_org _ _ _ _ (eff_grows _ _ _ _ Heff2) Hc1).
Qed.

(** Storing the answer of the adapter, from tables of a begun sync. *)
Lemma store_result o conn result w ids w1 r w2 :
  billing_ok cipher (w_db w) -> conn_org (w_db w) (cn_ID conn) = Some o ->
  UpsertCostResources o (cn_ID conn) (sy_Resources result) w = (Ok ids, w1) ->
  store_usage o ids (sy_Usage result) w1 = (r, w2) ->
  later w w2 /\ shown_status (w_db w2) (cn_ID conn) = shown_status (w_db w) (cn_ID conn) /\
  match r with
  | inl e => exists err pre u post res, e = Err err /\ sy_Usage result = (pre ++ u :: post)%list /\
      sync_stored (cn_ID conn) (mkSyncResult (sy_Resources result) pre) (w_db w) (w_db w2) /\
      (failed_between w w2 \/ point_refused o res u (w_db w2))
  | inr _ => sync_stored (cn_ID conn) result (w_db w) (w_db w2)
  end.
Proof.
  intros Hok Hc E1 E2. apply b_exec_split in E1 as [L1 [(a & [= <-] & E1)|(? & [=] & _)]].
  destruct (upsert_resources_spec o (cn_ID conn) _ _ ∅ _ _ _ Hok Hc ltac:(intros ? ?; by rewrite lookup_empty) E1)
    as (Ed & _ & D & L & U & _).
  assert (forall usage, points_stored ids usage (w_db w1) (w_db w2) -> w_db w2 = set_usage (w_db w1) (b_usage (w_db w2)) ->
    sync_stored (cn_ID conn) (mkSyncResult (sy_Resources result) usage) (w_db w) (w_db w2)) as Hst.
  { intros usage [Hu Ho] Ed2. exists ids. cbn. split_and!.
    - intros e. rewrite D, lookup_empty. split; [by intros [[? [=]]|]|auto].
    - intros pre r0 post Hr Hn. destruct (L pre r0 post Hr Hn) as (id & row & ? & Hrow & ?). exists id, row.
      split_and!; [done| |done]. by rewrite Ed2.
    - intros k row Hk. rewrite Ed2. cbn. by apply U.
    - split; [done|]. intros res day row Hn. by rewrite (Ho res day row Hn), Ed. }
  apply store_usage_run in E2 as (L2 & Ed2 & Hm).
  split_and!; [by eapply later_trans|by rewrite Ed2, Ed|]. destruct r as [x|?].
  - destruct Hm as (err & pre & u & post & res & -> & Hus & Hp & _ & Hw). exists err, pre, u, post, res.
    split_and!; [done|done|by apply Hst|]. destruct Hw as [Hw|Hw]; [left|by right]. by eapply failed_after.
  - destruct result as [rs us]. by apply Hst.
Qed.

Lemma sync_stored_same d0 d0' id result d d' :
  sync_stored id result d0 d0' -> b_resources d = b_resources d0 -> b_usage d = b_usage d0 ->
  b_resources d' = b_resources d0' -> b_usage d' = b_usage d0' -> sync_stored id result d d'.
Proof.
  unfold sync_stored, points_stored, usage_stored. intros (ids & Hs) Er Eu Er' Eu'. exists ids. by rewrite Er, Eu, Er', Eu'.
Qed.

(** The adapter has answered in [w3]; what becomes of its answer. *)
Lemma provider_refused o conn adapter i t msg run w w3 f w4 v w5 :
  pa_Sync adapter i t = Err msg -> later w w3 -> waiting (cn_ID conn) w w3 -> valid_uuid (cn_ID conn) = true ->
  is_Some (b_connections (w_db w3) !! cn_ID conn) ->
  b_resources (w_db w3) = b_resources (w_db w) -> b_usage (w_db w3) = b_usage (w_db w) ->
  FinishSyncRun run "error" 0 msg w3 = (f, w4) ->
  UpdateCloudConnectionStatus (cn_ID conn) ConnectionStatusError msg w4 = (v, w5) ->
  sync_failed adapter i o (cn_ID conn) (BText msg) w w5.
Proof.
  intros Ha L3 Hw Hv Hc Er Eu E4 E5. apply finish_run_run in E4 as [L4 E4].
  apply status_run in E5 as (L5 & E5 & Hs); [|done|done|by rewrite E4].
  apply (failed_at_provider _ _ _ _ _ _ _ t msg); [done|done|by rewrite E5, E4|by rewrite E5, E4|].
  destruct v; [by left|right]. destruct Hs as [Hs Hf]. split.
  - eapply failed_after; [exact L3|]. by eapply failed_after.
  - eapply waiting_later; [exact Hw|by eapply later_trans|]. by rewrite Hs, E4.
Qed.

Lemma answer_stored o conn adapter i t result run w w3 x w' :
  pa_Sync adapter i t = Ok result -> later w w3 -> waiting (cn_ID conn) w w3 -> valid_uuid (cn_ID conn) = true ->
  billing_ok cipher (w_db w3) -> conn_org (w_db w3) (cn_ID conn) = Some o ->
  b_resources (w_db w3) = b_resources (w_db w) -> b_usage (w_db w3) = b_usage (w_db w) -> b_orgs (w_db w3) = b_orgs (w_db w) ->
  gbind (call (UpsertCostResources o (cn_ID conn) (sy_Resources result))) (fun stored =>
    match stored with
    | Err e => _ <- call (FinishSyncRun run "error" 0 ("postgres: UpsertCostResources: " +:+ err_message e)) ;;
               gret (Err e)
    | Ok ids =>
        store_usage o ids (sy_Usage result) ;;;
        let n := Z.of_nat (length (sy_Resources result)) in
        _ <- call (FinishSyncRun run "success" n "") ;;
        _ <- try (UpdateCloudConnectionStatus (cn_ID conn) ConnectionStatusConnected "") Err ;;
        gret (Ok n)
    end) w3 = (x, w') ->
  match x with
  | inr (Ok n) => n = Z.of_nat (length (sy_Resources result)) /\ sync_stored (cn_ID conn) result (w_db w) (w_db w') /\
              shown_status (w_db w') (cn_ID conn) = Some (ConnectionStatusConnected, "")
  | inl (Err e) | inr (Err e) => sync_failed adapter i o (cn_ID conn) e w w'
  | inl (Ok _) => False
  end.
Proof.
  intros Ha L3 Hw Hv Hok3 Hc3 Er Eu Eo. unfold try, gbind, call.
  destruct (UpsertCostResources _ _ _ w3) as [[ids|e] w4] eqn:E4; cbn [gret greturn].
  - destruct (store_usage _ _ _ w4) as [[x0|[]] w5] eqn:E5;
      destruct (store_result o conn result w3 ids w4 _ w5 Hok3 Hc3 E4 E5) as (L5 & Hst & Hm).
    + destruct Hm as (err & pre & u & post & res & -> & Hus & Hp & Hf). intros [= <- <-].
      eapply (failed_at_cost _ _ _ _ _ _ _ t result pre u post res); [done|by eapply waiting_later|done| |].
      * eapply sync_stored_same; [exact Hp|by symmetry..|done|done].
      * destruct Hf as [Hf|Hf]; [left|by right]. by eapply failed_after.
    + assert (is_Some (b_connections (w_db w5) !! cn_ID conn)) as Hc5.
      { eapply shown_found; [exact Hst|]. by apply fmap_Some_1 in Hc3 as (c & -> & _). }
      destruct (FinishSyncRun _ _ _ _ w5) as [f w6] eqn:E6. apply finish_run_run in E6 as [L6 E6].
      destruct (UpdateCloudConnectionStatus _ _ _ w6) as [v w7] eqn:E7.
      pose proof E7 as E8. apply status_run in E8 as (L7 & D7 & Hs); [|done|done|by rewrite E6].
      assert (sync_stored (cn_ID conn) result (w_db w) (w_db w7)) as Hall.
      { apply (sync_stored_same (w_db w3) (w_db w5)); [done|by symmetry..|by rewrite D7, E6|by rewrite D7, E6]. }
      destruct v as [v|e]; intros [= <- <-]; [by split_and!|]. destruct Hs as [Hs Hf].
      apply (failed_at_end _ _ _ _ _ _ _ t result); [done| |done|].
      * eapply waiting_later; [exact Hw|eapply later_trans; [exact L5|by eapply later_trans]|]. by rewrite Hs, E6.
      * eapply failed_after; [exact L3|]. eapply failed_after; [exact L5|]. by eapply failed_after.
  - apply b_exec_split in E4 as [L4 [(? & [=] & _)|(e' & [= <-] & E4 & Hf)]].
    destruct (FinishSyncRun _ _ _ _ w4) as [f w5] eqn:E5. apply finish_run_run in E5 as [L5 E5]. intros [= <- <-].
    apply (failed_at_resources _ _ _ _ _ _ _ t result); [done| |by rewrite E5, E4|by rewrite E5, E4|].
    + eapply waiting_later; [exact Hw|by eapply later_trans|]. by rewrite E5, E4.
    + destruct Hf as [Hf|Hf]; [left|right; eauto 6]. eapply failed_after; [exact L3|]. by eapply failed_before.
Qed.

Lemma RunSync_spec adapter o conn payload w r w' :
  byte_entropy w -> billing_ok cipher (w_db w) -> conn_org (w_db w) (cn_ID conn) = Some o ->
  RunSync cipher adapter o conn payload w = (r, w') ->
  match r with
  | Ok n => exists i t result, decrypted cipher payload = Ok i /\ pa_Sync adapter i t = Ok result /\
              n = Z.of_nat (length (sy_Resources result)) /\ sync_stored (cn_ID conn) result (w_db w) (w_db w') /\
              shown_status (w_db w') (cn_ID conn) = Some (ConnectionStatusConnected, "")
  | Err e => (w_db w' = w_db w /\
                (decrypted cipher payload = Err e \/ failed_between w w' \/ valid_uuid (cn_ID conn) = false)) \/
             exists i, decrypted cipher payload = Ok i /\ sync_failed adapter i o (cn_ID conn) e w w'
  end.
Proof.
  intros He Hok Hc. unfold RunSync, func. rewrite try_then. unfold pure at 1.
  destruct (decrypted cipher payload) as [i|e] eqn:Edp; [|intros [= <- <-]; left; auto].
  rewrite try_then. destruct (CreateSyncRun (cn_ID conn) w) as [[run|e] w1] eqn:E1.
  2: { apply create_run_run in E1 as (_ & _ & E1 & Hf). intros [= <- <-]. left. split; [done|].
       destruct Hf as [Hf|[Hf|Hf]]; [auto..|]. apply fmap_Some_1 in Hc as (c & Hc & _). congruence. }
  rewrite call_then. destruct (UpdateCloudConnectionStatus _ _ _ w1) as [u w2] eqn:E2.
  destruct (begin_sync o conn w run w1 u w2 He Hok Hc E1 E2) as (L2 & Hd & Hw & Hv & Hok2 & Hc2).
  rewrite call_then. destruct (adapter_call (pa_Sync adapter i) w2) as [answer w3] eqn:E3. apply adapter_run in E3 as (L3 & t & -> & E3).
  assert (later w w3) as L by by eapply later_trans.
  assert (waiting (cn_ID conn) w w3) as Hw3 by (eapply waiting_later; [exact Hw|done|by rewrite E3]).
  assert (b_resources (w_db w3) = b_resources (w_db w) /\ b_usage (w_db w3) = b_usage (w_db w) /\
    b_orgs (w_db w3) = b_orgs (w_db w)) as (Er & Eu & Eo) by (by rewrite E3, Hd).
  rewrite <-E3 in Hok2, Hc2. destruct (pa_Sync adapter i t) as [result|msg] eqn:Ea.
  - match goal with |- context [gbind (call (UpsertCostResources ?a ?b ?c)) ?k w3] =>
      destruct (gbind (call (UpsertCostResources a b c)) k w3) as [x w4] eqn:E4 end.
    apply (answer_stored o conn adapter i t result (sn_ID run) w) in E4; [|done..].
    destruct x as [[n|e]|[n|e]]; intros [= <- <-]; [done|right; eauto| |right; eauto].
    destruct E4 as (-> & Hs & Hst). exists i, t, result. by split_and!.
  - unfold gbind, call, gret. destruct (FinishSyncRun _ _ _ _ w3) as [f w4] eqn:E4.
    destruct (UpdateCloudConnectionStatus _ _ _ w4) as [v w5] eqn:E5. intros [= <- <-]. right. exists i. split; [done|].
    eapply provider_refused; [..|exact E4|exact E5]; try done. by apply fmap_Some_1 in Hc2 as (c & -> & _).
Qed.
End Stored.

(** ** The states of the process *)

Section Flow.
Context `{CostTypes} `{Collation} `{UuidText} `{RangeOrder} `{Sha256} `{Aead} `{InputCodec}.
Context (cipher : Cipher) (adapters : gmap string ProviderAdapter).
#[local] Abbreviation W := (World BillingDB).
Implicit Types d : BillingDB.

Lemma syncOne_does o i : does cipher o (fun _ => True) (syncOne cipher adapters o i) any.
Proof.
  apply does_func. eapply gdoes_bind; [apply _|by eapply gdoes_stmt; [apply GetCloudConnectionAuth_does|naive_solver|]|].
  intros c. destruct (adapters !! cn_Provider c.1) as [a|]; [|by apply gdoes_ret].
  eapply gdoes_bind; [apply _| |intros ?; by apply gdoes_ret].
  eapply gdoes_try, does_mono; [apply RunSync_does|naive_solver|]. intros [n|e] d _; exact I.
Qed.

(** A round of the worker: whatever happens to one connection, the others are synced. *)
Lemma syncAll_keeps w :
  byte_entropy w -> billing_ok cipher (w_db w) ->
  byte_entropy (syncAll cipher adapters w).2 /\ billing_ok cipher (w_db (syncAll cipher adapters w).2) /\
  grows (w_db w) (w_db (syncAll cipher adapters w).2).
Proof.
  intros He Hok.
  apply (wp_func _ (fun _ w' => byte_entropy w' /\ billing_ok cipher (w_db w') /\ grows (w_db w) (w_db w'))).
  rewrite wp_bind, wp_try. destruct (ListActiveCloudConnections w) as [r w1] eqn:E.
  assert (w_db w1 = w_db w /\ byte_entropy w1) as [Ed He1].
  { unfold ListActiveCloudConnections in E. pose proof (b_query_run _ _ _ _ E) as [? _]. split; [done|].
    unfold b_query, b_op, db_op in E. destruct (w_faults w) as [|[] fs]; cbn in E; by injection E as _ <-. }
  destruct r as [conns|e]; [|by rewrite Ed; split_and!; [| |apply grows_refl]].
  refine (wp_for conns _ (fun w' => byte_entropy w' /\ billing_ok cipher (w_db w') /\ grows (w_db w) (w_db w')) _ _ _ _);
    [|rewrite Ed; split_and!; [done|done|apply grows_refl]].
  intros conn w2 _ (He2 & Hok2 & Hg2). rewrite wp_bind, wp_call, wp_ret.
  destruct (syncOne_does (cn_OrgID conn) (cn_ID conn) w2 He2 Hok2 I) as (He3 & Heff & _).
  split_and!; [done|by apply Heff|eapply grows_trans; [done|apply Heff]].
Qed.

Record BState := mkBState { bs_World : W; bs_Jobs : list SyncJob }.

(** What the rest of the program may do to the ids foreign keys refer to. *)
Definition with_parents d (orgs services : gset string) : BillingDB :=
  mkBillingDB _ orgs services (b_connections d) (b_rules d) (b_resources d) (b_usage d) (b_runs d).

Inductive billing_step : BState -> BState -> Prop :=
| step_request ctx o q w js rj w' :
    serve cipher adapters ctx o q w = (rj, w') -> billing_step (mkBState w js) (mkBState w' (js ++ from_option (fun j => [j]) [] rj.2))
| step_job j w js js' r w' :
    run_job cipher j w = (r, w') -> billing_step (mkBState w (js ++ j :: js')) (mkBState w' (js ++ js'))
| step_worker w js u w' :
    syncAll cipher adapters w = (u, w') -> billing_step (mkBState w js) (mkBState w' js)
| step_parents w js orgs services :
    b_orgs (w_db w) ⊆ orgs -> b_services (w_db w) ⊆ services ->
    billing_step (mkBState w js) (mkBState (with_db w (with_parents (w_db w) orgs services)) js)
| step_environment w w' js :
    w_db w' = w_db w -> byte_entropy w' -> billing_step (mkBState w js) (mkBState w' js).

Definition no_rows (orgs services : gset string) : BillingDB := mkBillingDB _ orgs services ∅ ∅ ∅ ∅ ∅.
Inductive billing_reachable : BState -> Prop :=
| reach_start w orgs services : w_db w = no_rows orgs services -> byte_entropy w -> billing_reachable (mkBState w [])
| reach_step s s' : billing_reachable s -> billing_step s s' -> billing_reachable s'.

Definition state_ok (s : BState) : Prop :=
  byte_entropy (bs_World s) /\ billing_ok cipher (w_db (bs_World s)) /\
  Forall (fun j => job_ok j (w_db (bs_World s))) (bs_Jobs s).

Lemma jobs_grow d d' js : grows d d' -> Forall (fun j => job_ok j d) js -> Forall (fun j => job_ok j d') js.
Proof. intros Hg Hj. eapply Forall_impl; [exact Hj|]. intros j. by apply grows_conn_org. Qed.

Lemma billing_step_ok s s' : made_cipher cipher -> billing_step s s' -> state_ok s -> state_ok s'.
Proof.
  intros Hc Hs. unfold state_ok. destruct Hs as [ctx o q w js rj w' E|j w js js' r w' E|w js u w' E|w js orgs services Ho Hse|w w' js E He];
    cbn; intros (He1 & Hok & Hj).
  - destruct (serve_does cipher adapters ctx o q Hc w He1 Hok I) as (He' & Heff & _ & Hjob). rewrite E in *. cbn in *.
    split_and!; [done|by apply Heff|]. apply Forall_app. split; [eapply jobs_grow; [apply Heff|done]|].
    destruct rj.2 as [j|] eqn:Ej; cbn; [|constructor]. constructor; [by apply Hjob|constructor].
  - apply Forall_app in Hj as [Hj1 [Hj Hj2]%Forall_cons].
    destruct (RunSync_does cipher (sj_OrgID j) (sj_Adapter j) (sj_Connection j) (sj_Payload j) w He1 Hok Hj) as (He' & Heff & _).
    unfold run_job in E. rewrite E in *. cbn in *. split_and!; [done|by apply Heff|].
    eapply jobs_grow; [apply Heff|]. by apply Forall_app.
  - destruct (syncAll_keeps w He1 Hok) as (? & ? & Hg). rewrite E in *. split_and!; [done|done|]. by eapply jobs_grow.
  - split_and!; [done| |done]. by destruct Hok.
  - rewrite E. by split_and!.
Qed.

Lemma no_rows_ok orgs services : billing_ok cipher (no_rows orgs services).
Proof. split; cbn; intros *; rewrite ?lookup_empty; done. Qed.

Lemma reachable_state_ok s : made_cipher cipher -> billing_reachable s -> state_ok s.
Proof.
  intros Hc Hr. induction Hr as [w orgs services E He|s s' _ IH Hs]; [|by eapply billing_step_ok].
  unfold state_ok. cbn. rewrite E. split_and!; [done|apply no_rows_ok|constructor].
Qed.

(** (C16) In every state the process reaches by requests of any kind, syncs in the
    background and rounds of the worker, whatever fails: the sealed credentials of
    a connection open and are valid for its provider; connections of an org have
    distinct names, rules of a service and resources of a connection are not
    doubled; a resource belongs to the org of its connection and a daily cost to
    the org of its resource, under its resource and day; a run of the log is
    finished exactly when it no longer counts as running; and a job in the queue
    is about a connection of the org that asked for it. *)
Theorem reachable_billing_ok s :
  made_cipher cipher -> billing_reachable s ->
  billing_ok cipher (w_db (bs_World s)) /\ Forall (fun j => job_ok j (w_db (bs_World s))) (bs_Jobs s).
Proof. intros Hc Hr. by destruct (reachable_state_ok s Hc Hr) as (_ & ? & ?). Qed.


(** ** What a dashboard shows *)

Definition org_resources (o : string) d : list Resource :=
  map scan_resource (select (fun r => String.eqb (cr_OrgID r) o) (b_resources d)).
Definition with_tags (rules : list TagRule) (r : Resource) : Resource := with_matched r (MatchTags (rs_Tags r) rules).

Lemma filter_and {A} (p q : A -> bool) l : List.filter (fun x => p x && q x) l = List.filter q (List.filter p l).
Proof. induction l as [|x l IH]; cbn; [done|]. destruct (p x), (q x) eqn:E; cbn; rewrite ?E, IH; done. Qed.
Lemma filter_map {A B} (f : A -> B) (p : B -> bool) l : List.filter p (map f l) = map f (List.filter (fun x => p (f x)) l).
Proof. induction l as [|x l IH]; cbn; [done|]. destruct (p (f x)); cbn; by rewrite IH. Qed.

(** The query of the database and [FilterMatched] choose the same resources. *)
Lemma resources_for_spec o s d :
  map (with_tags (rules_of o s d)) (resources_for o s d) ≡ₚ FilterMatched (org_resources o d) (rules_of o s d).
Proof.
  rewrite FilterMatched_spec. unfold resources_for, org_resources, order_by. rewrite filter_map, !map_map.
  apply Permutation_map. rewrite sort_stable_perm. unfold select. rewrite filter_and.
  apply Permutation_refl', filter_ext_in. intros r Hr. apply List.filter_In in Hr as [_ Ho%String.eqb_eq].
  cbn. by rewrite linked_matches, Ho.
Qed.

Lemma authorize_run {R} (ret : BReply -> R) ctx o w x w' :
  authorizeOrg ret ctx o w = (x, w') ->
  w' = w /\ match x with inl r => r = ret Unauthorized \/ r = ret Forbidden | inr _ => True end.
Proof.
  unfold authorizeOrg, gbind, non_nil, return_if. destruct ctx as [p|]; [|intros [= <- <-]; auto].
  cbn. destruct (_ && _); intros [= <- <-]; auto.
Qed.
Lemma resourcesAndRules_run o s w r w' :
  resourcesAndRules o s w = (r, w') -> w_db w' = w_db w /\
  forall rr, r = Ok rr -> rr.1 = map (with_tags (rules_of o s (w_db w))) (resources_for o s (w_db w)).
Proof.
  unfold resourcesAndRules, func, try, gbind, call.
  destruct (ListTagRules o s w) as [[rules|e] w1] eqn:E1; apply b_query_run in E1 as [Ed Er]; cbn; [|by intros [= <- <-]].
  specialize (Er rules eq_refl). cbn in Er. destruct (_ && _) eqn:Hv; [|done]. injection Er as <-.
  destruct (ListResourcesForService o s w1) as [[l|e] w2] eqn:E2; apply b_query_run in E2 as [Ed2 El]; cbn; intros [= <- <-];
    (split; [congruence|]); [|done]. intros rr [= <-]. cbn. specialize (El l eq_refl). cbn in El. rewrite Hv in El.
  injection El as <-. by rewrite Ed.
Qed.

(** (lemma) The list of a service's resources is what the rules say: the database's
    query and [FilterMatched], run on all resources of the org with the rules of
    the service in that org, choose the same resources with the same matched
    tags, each with at least one; and the summary counts as many. *)
Theorem dashboard_follows_rules ctx o s w r w' :
  let d := w_db w in
  let expected := FilterMatched (org_resources o d) (rules_of o s d) in
  (ListResources ctx o s w = (r, w') -> forall l, payload r = Json (Resources l) ->
     map rv_Resource l ≡ₚ expected /\ Forall (fun v => rs_MatchedTags (rv_Resource v) <> []) l) /\
  (GetSummary ctx o s w = (r, w') -> forall sm, payload r = Json (TheSummary sm) ->
     sm_ResourceCount sm = Z.of_nat (length expected)).
Proof.
  cbv zeta. split.
  - unfold ListResources, func, try, gbind, call.
    destruct (authorizeOrg id ctx o w) as [[x|p] w1] eqn:Ea; apply authorize_run in Ea as [-> Hx];
      [intros [= <- <-] l Hl; by destruct Hx as [->| ->]|].
    destruct (resourcesAndRules o s w) as [[rr|e] w2] eqn:E; apply resourcesAndRules_run in E as [_ Hrr]; cbn;
      intros [= <- <-] l; [|by destruct e as [[]| |]]. intros [= <-]. rewrite (Hrr rr eq_refl), map_map.
    split; [rewrite map_id; apply resources_for_spec|]. apply Forall_fmap, Forall_forall. intros v Hv. cbn.
    assert (v ∈ FilterMatched (org_resources o (w_db w)) (rules_of o s (w_db w))) as Hin by (by rewrite <-resources_for_spec).
    rewrite FilterMatched_spec in Hin. apply list_elem_of_fmap in Hin as (x & -> & Hin). cbn.
    apply list_elem_of_In, List.filter_In in Hin as [_ Hm]. intros Hn. apply MatchTags_nil in Hn. congruence.
  - unfold GetSummary, func, try, gbind, call.
    destruct (authorizeOrg id ctx o w) as [[x|p] w1] eqn:Ea; apply authorize_run in Ea as [-> Hx];
      [intros [= <- <-] l Hl; by destruct Hx as [->| ->]|].
    destruct (resourcesAndRules o s w) as [[rr|e] w2] eqn:E; apply resourcesAndRules_run in E as [_ Hrr]; cbn;
      [|intros [= <- <-]; by destruct e as [[]| |]].
    destruct (ListTrendForService o s 60 w2) as [[trend|e] w3]; cbn; intros [= <- <-] sm; [|by destruct e as [[]| |]].
    intros [= <-]. cbn. rewrite (Hrr rr eq_refl), <-resources_for_spec. done.
Qed.

(** *** The trend *)

Implicit Types l : list (Z * string * numeric).
Definition costs_of (key : Z * string) l : list numeric := omap (fun u => if bool_decide (u.1 = key) then Some u.2 else None) l.
Definition amount l (day : Z) (provider : string) : float64 :=
  match costs_of (day, provider) l with [] => f_zero | v :: _ => numeric_out v end.
Definition day_total l (day : Z) : float64 :=
  float_sum (map (fun g => numeric_out g.2) (List.filter (fun g => Z.eqb g.1.1 day) l)).
Definition point_of l (day : Z) : TrendPoint :=
  mkTrendPoint (date_out day) (day_total l day) (amount l day ProviderAWS) (amount l day ProviderAzure) (amount l day ProviderGCP).

Lemma costs_of_app key l1 l2 : costs_of key (l1 ++ l2) = (costs_of key l1 ++ costs_of key l2)%list.
Proof. apply omap_app. Qed.
Lemma costs_of_nil key l : key ∉ map fst l <-> costs_of key l = [].
Proof.
  induction l as [|u l IH]; cbn; [split; [done|by intros _ ?%elem_of_nil]|]. rewrite not_elem_of_cons, IH. unfold costs_of.
  cbn. destruct (decide (u.1 = key)) as [->|Hne]; [rewrite bool_decide_true by done|rewrite bool_decide_false by done]; naive_solver.
Qed.
Lemma amount_other l g day provider : g.1 <> (day, provider) -> amount (l ++ [g]) day provider = amount l day provider.
Proof. intros Hne. unfold amount. rewrite costs_of_app. unfold costs_of at 2. cbn. by rewrite bool_decide_false, app_nil_r. Qed.
Lemma amount_new l g day provider :
  g.1 = (day, provider) -> g.1 ∉ map fst l -> amount (l ++ [g]) day provider = numeric_out g.2.
Proof.
  intros E Hn. unfold amount. rewrite E in Hn. apply costs_of_nil in Hn. rewrite costs_of_app, Hn. unfold costs_of. cbn.
  by rewrite bool_decide_true.
Qed.

Lemma point_of_other l g day : g.1.1 <> day -> point_of (l ++ [g]) day = point_of l day.
Proof.
  intros Hne. unfold point_of. rewrite !amount_other by (intros E; apply Hne; by rewrite E). f_equal. unfold day_total.
  rewrite List.filter_app. cbn. destruct (Z.eqb_spec g.1.1 day); [done|]. by rewrite app_nil_r.
Qed.
Lemma point_of_new l g : g.1 ∉ map fst l -> point_of (l ++ [g]) g.1.1 = add_provider (point_of l g.1.1) g.1.2 (numeric_out g.2).
Proof.
  intros Hn. destruct g as [[day provider] v]. cbn in *. unfold point_of, add_provider. cbn.
  assert (day_total (l ++ [(day, provider, v)]) day = fadd (day_total l day) (numeric_out v)) as Ht.
  { unfold day_total. rewrite List.filter_app, map_app. cbn. rewrite Z.eqb_refl. unfold float_sum. by rewrite fold_left_app. }
  rewrite Ht. destruct (String.eqb_spec provider ProviderAWS) as [->|H1'];
    [|destruct (String.eqb_spec provider ProviderAzure) as [->|H2'];
      [|destruct (String.eqb_spec provider ProviderGCP) as [->|H3']]];
    rewrite ?(amount_new l (day, _, v) day _ eq_refl Hn), ?amount_other by (cbn; intros [=]; congruence); done.
Qed.

Lemma trend_spec l :
  NoDup (map fst l) -> StronglySorted (fun g g' => (g.1.1 <= g'.1.1)%Z) l ->
  exists days m, fold_left trend_step l (∅, []) = (m, map date_out days) /\ StronglySorted Z.lt days /\
    (forall day, day ∈ days <-> day ∈ map (fun g => g.1.1) l) /\
    (forall day, m !! date_out day = if decide (day ∈ days) then Some (point_of l day) else None).
Proof.
  induction l as [|g l IH] using rev_ind; intros Hnd Hs.
  { exists [], ∅. split_and!; [done|constructor|done|]. intros day. by rewrite lookup_empty, decide_False by apply not_elem_of_nil. }
  rewrite map_app in Hnd. apply NoDup_app in Hnd as (Hnd & Hn & _).
  assert (g.1 ∉ map fst l) as Hg by (intros Hin; apply (Hn _ Hin); left).
  apply StronglySorted_app in Hs as (Hle & Hs & _).
  destruct (IH Hnd Hs) as (days & m & Hf & Hd & Hin & Hm). rewrite fold_left_app, Hf. cbn [fold_left].
  unfold trend_step. cbn [fst snd]. rewrite Hm. destruct (decide (g.1.1 ∈ days)) as [Hday|Hday].
  - exists days, (<[date_out g.1.1 := add_provider (point_of l g.1.1) g.1.2 (numeric_out g.2)]> m).
    split_and!; [done|done| |].
    + intros day. rewrite map_app, elem_of_app, Hin. cbn. rewrite list_elem_of_singleton. split; [auto|]. intros [?| ->]; [done|].
      by apply Hin.
    + intros day. destruct (decide (g.1.1 = day)) as [<-|Hne].
      * rewrite lookup_insert_eq, decide_True by done. by rewrite point_of_new.
      * rewrite lookup_insert_ne by (by intros ?%date_out_inj). rewrite Hm. by case_decide; [rewrite point_of_other|].
  - exists (days ++ [g.1.1])%list, (<[date_out g.1.1 := add_provider (mkTrendPoint (date_out g.1.1) f_zero f_zero f_zero f_zero) g.1.2 (numeric_out g.2)]> m).
    assert (forall day, day ∈ days -> (day < g.1.1)%Z) as Hlt.
    { intros day Hin'. destruct (decide (day = g.1.1)) as [->|Hne]; [done|]. apply Hin, list_elem_of_fmap in Hin' as (g' & -> & Hg').
      specialize (Hle g' g Hg'). assert (g ∈ [g]) as Hgg by left. specialize (Hle Hgg). lia. }
    split_and!; [by rewrite map_app| | |].
    + apply StronglySorted_app. split_and!; [|done|by repeat constructor]. intros x y Hx ->%list_elem_of_singleton. by apply Hlt.
    + intros day. rewrite map_app, !elem_of_app, Hin. done.
    + intros day. destruct (decide (g.1.1 = day)) as [<-|Hne].
      * rewrite lookup_insert_eq, decide_True by (apply elem_of_app; right; left). rewrite point_of_new by done. f_equal.
        assert (forall provider, costs_of (g.1.1, provider) l = []) as Hz.
        { intros provider. apply costs_of_nil. intros Hx. apply Hday, Hin. apply list_elem_of_fmap in Hx as (g' & E & Hg').
          apply list_elem_of_fmap. exists g'. by rewrite <-E. }
        unfold point_of, amount. rewrite !Hz. f_equal. unfold day_total.
        assert (List.filter (fun g' => Z.eqb g'.1.1 g.1.1) l = []) as ->; [|done].
        destruct (List.filter _ l) as [|g' rest] eqn:E; [done|]. exfalso.
        assert (g' ∈ List.filter (fun g' => Z.eqb g'.1.1 g.1.1) l) as Hg' by (rewrite E; left).
        apply list_elem_of_In, List.filter_In in Hg' as [Hg' He%Z.eqb_eq]. apply Hday, Hin. rewrite <-He.
        apply list_elem_of_fmap. exists g'. split; [done|]. by apply list_elem_of_In.
      * rewrite lookup_insert_ne by (by intros ?%date_out_inj). rewrite Hm, point_of_other by done.
        destruct (decide (day ∈ days)) as [Hx|Hx]; [rewrite decide_True by (apply elem_of_app; by left); done|].
        rewrite decide_False; [done|]. rewrite elem_of_app, list_elem_of_singleton. naive_solver.
Qed.

Lemma usage_groups_elem l g :
  g ∈ usage_groups l <-> g.1 ∈ map fst l /\ g.2 = numeric_sum (costs_of g.1 l).
Proof.
  unfold usage_groups, order_by. rewrite sort_stable_elem, list_elem_of_fmap.
  setoid_rewrite elem_of_elements. setoid_rewrite elem_of_list_to_set. split.
  - by intros (key & -> & Hk).
  - intros [Hk Hv]. exists g.1. split; [|done]. destruct g; cbn in *. by subst.
Qed.
Lemma usage_groups_keys l : NoDup (map fst (usage_groups l)).
Proof.
  unfold usage_groups, order_by. rewrite sort_stable_perm, map_map. cbn. rewrite map_id. apply NoDup_elements.
Qed.
Lemma sorted_days (gs : list (Z * string * numeric)) :
  StronglySorted (fun g g' => (g.1.1 <= g'.1.1)%Z) (sort_stable (by_key (fun g => g.1.1)) gs).
Proof.
  pose proof (sort_stable_sorted (by_key (fun g : Z * string * numeric => g.1.1)) gs) as Hs.
  induction Hs as [|x xs _ IH Hx]; constructor; [done|]. eapply Forall_impl; [exact Hx|].
  intros y. unfold by_key. cbn. intros ?%Z.ltb_ge. lia.
Qed.
Lemma usage_groups_sorted l : StronglySorted (fun g g' => (g.1.1 <= g'.1.1)%Z) (usage_groups l).
Proof. apply sorted_days. Qed.

(** What a provider's resources cost on a day; zero when there is no cost of theirs. *)
Definition day_cost l (day : Z) (provider : string) : float64 :=
  match costs_of (day, provider) l with [] => f_zero | costs => numeric_out (numeric_sum costs) end.

Lemma amount_groups l day provider : amount (usage_groups l) day provider = day_cost l day provider.
Proof.
  unfold amount, day_cost. destruct (costs_of (day, provider) (usage_groups l)) as [|v vs] eqn:E.
  - apply costs_of_nil in E. assert ((day, provider) ∉ map fst l) as ->%costs_of_nil; [|done].
    intros Hin. apply E, list_elem_of_fmap. exists ((day, provider), numeric_sum (costs_of (day, provider) l)).
    split; [done|]. by apply usage_groups_elem.
  - assert (v ∈ costs_of (day, provider) (usage_groups l)) as Hv by (rewrite E; left).
    apply list_elem_of_omap in Hv as (g & Hg & Hb). case_bool_decide as Hk; [|done]. injection Hb as <-.
    apply usage_groups_elem in Hg as [Hin ->]. rewrite Hk in *.
    destruct (costs_of (day, provider) l) eqn:E'; [|done]. by apply costs_of_nil in E'.
Qed.

Lemma parseTrendDays_bounds raw : (1 <= parseTrendDays raw <= 366)%Z.
Proof.
  unfold parseTrendDays, defaultTrendDays, maxTrendDays. case_match; [lia|]. case_match; [|lia].
  case_match eqn:E1; [lia|]. case_match eqn:E2; lia.
Qed.

(** (lemma) The trend of a service has one point for each day in the window asked for,
    between one day and 366, on which resources its rules choose had a cost, in
    the order of the days; a point shows for each of the three providers the sum
    of the costs of its resources on that day. *)
Theorem trend_correct ctx o s raw w r w' points :
  GetTrend ctx o s raw w = (r, w') -> payload r = Json (Trend points) ->
  let l := counted_usage o s (current_date (w_clock w) - parseTrendDays raw) (w_db w) in
  (1 <= parseTrendDays raw <= 366)%Z /\
  exists days, StronglySorted Z.lt days /\ (forall day, day ∈ days <-> day ∈ map (fun u => u.1.1) l) /\
    Forall2 (fun day p => tp_Date p = date_out day /\ tp_AWSUSD p = day_cost l day ProviderAWS /\
      tp_AzureUSD p = day_cost l day ProviderAzure /\ tp_GCPUSD p = day_cost l day ProviderGCP) days points.
Proof.
  unfold GetTrend, func, try, gbind, call.
  destruct (authorizeOrg id ctx o w) as [[x|p] w1] eqn:Ea; apply authorize_run in Ea as [-> Hx];
    [intros [= <- <-] Hl; by destruct Hx as [->| ->]|].
  destruct (ListTrendForService o s (parseTrendDays raw) w) as [[tr|e] w2] eqn:E; apply b_query_run in E as [_ Hq]; cbn;
    intros [= <- <-]; [|by destruct e as [[]| |]]. intros [= <-]. split; [apply parseTrendDays_bounds|].
  specialize (Hq tr eq_refl). cbn in Hq. destruct (_ && _); [|done]. injection Hq as <-.
  set (l := counted_usage _ _ _ _).
  destruct (trend_spec (usage_groups l) (usage_groups_keys l) (usage_groups_sorted l)) as (days & m & Hf & Hd & Hin & Hm).
  exists days. split_and!; [done| |].
  - intros day. rewrite Hin, !list_elem_of_fmap. split.
    + intros (g & -> & [(u & Eu & Hu)%list_elem_of_fmap _]%usage_groups_elem). exists u. by rewrite Eu.
    + intros (u & -> & Hu). exists (u.1, numeric_sum (costs_of u.1 l)). split; [done|]. apply usage_groups_elem.
      split; [|done]. exact (list_elem_of_fmap_2 fst l u Hu).
  - unfold trend_points. rewrite Hf. assert (forall day, day ∈ days -> m !! date_out day = Some (point_of (usage_groups l) day)) as Hall
      by (intros day Hday; by rewrite Hm, decide_True).
    clear -Hall. induction days as [|day days IH]; cbn; [constructor|]. rewrite Hall by left. constructor.
    + by split_and!; [|apply amount_groups..].
    + apply IH. intros day' Hd'. apply Hall. by right.
Qed.

(** *** Costs stay in their organization *)

(** A daily cost of the org, of a resource of the org, as the trend's query counts it. *)
Definition own_cost (o : string) d (g : Z * string * numeric) : Prop :=
  exists k u res, b_usage d !! k = Some u /\ ud_OrgID u = o /\ b_resources d !! ud_ResourceID u = Some res /\
    cr_OrgID res = o /\ g = (ud_Date u, cr_Provider res, ud_Cost u).
Definition own_trend (o : string) d (points : list TrendPoint) : Prop :=
  exists l, points = trend_points (usage_groups l) /\ Forall (own_cost o d) l.
Definition own_resource (o : string) d (x : Resource) : Prop :=
  exists k row tags, b_resources d !! k = Some row /\ cr_OrgID row = o /\ x = with_matched (scan_resource row) tags.
(** The figures of an answer are computed from rows of the org, and from these alone. *)
Definition own_figures (o : string) d (r : BReply) : Prop :=
  match payload r with
  | Json (Trend l) => own_trend o d l
  | Json (TheSummary sm) => exists rs points, sm = ComputeSummary rs points /\ Forall (own_resource o d) rs /\ own_trend o d points
  | Json (DailyCosts l) => Forall (fun c => exists k u, b_usage d !! k = Some u /\ ud_OrgID u = o /\
                             c = mkDailyCost (date_out (ud_Date u)) (numeric_out (ud_Cost u))) l
  | _ => True
  end.

Lemma figures_http_error o d e : own_figures o d (http_error e).
Proof. by destruct e as [[]| |]. Qed.
Lemma figures_writeErr o d e : own_figures o d (writeErr e).
Proof. by destruct e as [[]|[]|]. Qed.
Lemma figures_HttpError o d e : own_figures o d (HttpError e).
Proof. by destruct e. Qed.

Lemma counted_own o s since d : billing_ok cipher d -> Forall (own_cost o d) (counted_usage o s since d).
Proof.
  intros Hok. apply Forall_forall. intros g Hg. apply list_elem_of_omap in Hg as (u & [k Hu]%rows_elem & Hg).
  destruct (b_resources d !! ud_ResourceID u) as [res|] eqn:Er; [|done]. case_match eqn:Ec; [|done]. injection Hg as <-.
  bool_to_prop. destruct (ok_usage _ _ Hok k u Hu) as [_ Ho]. unfold resource_org in Ho. rewrite Er in Ho.
  injection Ho as Ho. exists k, u, res. split_and!; congruence.
Qed.
Lemma trend_own o s days w r w' points :
  billing_ok cipher (w_db w) -> ListTrendForService o s days w = (r, w') -> r = Ok points -> own_trend o (w_db w) points.
Proof.
  intros Hok E ->. apply b_query_run in E as [_ Hq]. specialize (Hq _ eq_refl). cbn in Hq.
  destruct (_ && _); [|done]. injection Hq as <-. eexists. split; [done|by apply counted_own].
Qed.
Lemma resources_own o s rules d : Forall (own_resource o d) (map (with_tags rules) (resources_for o s d)).
Proof.
  unfold resources_for, order_by. rewrite map_map. apply Forall_fmap, Forall_forall. intros row Hrow. cbn.
  rewrite sort_stable_elem in Hrow. apply select_elem in Hrow as [[k Hk] Ho]. bool_to_prop. exists k, row. eauto.
Qed.

#[local] Ltac no_figures :=
  unfold try, gbind, call, authorizeOrg, gbind, non_nil, return_if, gret, greturn, pure;
  repeat (case_match; simplify_eq/=);
  first [done | apply figures_http_error | apply figures_writeErr | apply figures_HttpError].

Lemma GetSummary_figures ctx o s w : billing_ok cipher (w_db w) -> own_figures o (w_db w) (GetSummary ctx o s w).1.
Proof.
  intros Hok. unfold GetSummary, func. unfold gbind at 1.
  destruct (authorizeOrg id ctx o w) as [[x|p] w1] eqn:Ea; apply authorize_run in Ea as [-> Hx];
    [by destruct Hx as [->| ->]|].
  rewrite try_then. destruct (resourcesAndRules o s w) as [[rr|e] w2] eqn:E; apply resourcesAndRules_run in E as [Ed Hrr];
    [|apply figures_http_error].
  rewrite try_then. destruct (ListTrendForService o s 60 w2) as [[points|e] w3] eqn:E3; [|apply figures_http_error]. cbn.
  exists rr.1, points. split_and!; [done| |].
  - rewrite (Hrr rr eq_refl). apply resources_own.
  - rewrite <-Ed in Hok |- *. by eapply trend_own.
Qed.
Lemma GetTrend_figures ctx o s days w : billing_ok cipher (w_db w) -> own_figures o (w_db w) (GetTrend ctx o s days w).1.
Proof.
  intros Hok. unfold GetTrend, func. unfold gbind at 1.
  destruct (authorizeOrg id ctx o w) as [[x|p] w1] eqn:Ea; apply authorize_run in Ea as [-> Hx];
    [by destruct Hx as [->| ->]|].
  rewrite try_then. destruct (ListTrendForService _ _ _ w) as [[points|e] w2] eqn:E; [|apply figures_http_error].
  by eapply trend_own.
Qed.
Lemma DailyCosts_figures ctx o id days w : own_figures o (w_db w) (GetResourceDailyCosts ctx o id days w).1.
Proof.
  unfold GetResourceDailyCosts, func. unfold gbind at 1.
  destruct (authorizeOrg _ ctx o w) as [[x|p] w1] eqn:Ea; apply authorize_run in Ea as [-> Hx];
    [by destruct Hx as [->| ->]|].
  rewrite try_then. destruct (GetResource o id w) as [[res|e] w2] eqn:E; apply b_query_run in E as [Ed _];
    [|apply figures_http_error].
  rewrite try_then. destruct (ListDailyCostsForResource _ _ _ w2) as [[l|e] w3] eqn:E3; [|apply figures_http_error].
  apply b_query_run in E3 as [_ Hq]. specialize (Hq _ eq_refl). cbn in Hq. destruct (negb _); [done|]. injection Hq as <-.
  unfold own_figures. cbn. rewrite <-Ed. apply Forall_fmap, Forall_forall. intros u Hu. cbn.
  unfold order_by in Hu. rewrite sort_stable_elem in Hu. apply select_elem in Hu as [[k Hk] Hp]. bool_to_prop. eauto.
Qed.

Lemma serve_figures ctx o q w :
  billing_ok cipher (w_db w) -> own_figures o (w_db w) (serve cipher adapters ctx o q w).1.1.
Proof.
  intros Hok. destruct q; cbn [serve]; unfold only_reply;
    try match goal with |- context [GetSummary ctx o ?s w] =>
      pose proof (GetSummary_figures ctx o s w Hok) as Hf; by destruct (GetSummary ctx o s w) end;
    try match goal with |- context [GetTrend ctx o ?s ?days w] =>
      pose proof (GetTrend_figures ctx o s days w Hok) as Hf; by destruct (GetTrend ctx o s days w) end;
    try match goal with |- context [GetResourceDailyCosts ctx o ?s ?days w] =>
      pose proof (DailyCosts_figures ctx o s days w) as Hf; by destruct (GetResourceDailyCosts ctx o s days w) end.
  - unfold CreateConnection, func. no_figures.
  - unfold ListConnections, func. no_figures.
  - unfold GetConnection, func. no_figures.
  - unfold DeleteConnection, func. no_figures.
  - unfold TestConnection, func. no_figures.
  - unfold TriggerSync, func. no_figures.
  - unfold ListResources, func. no_figures.
  - unfold ListRules, func. no_figures.
  - unfold CreateRule, func. no_figures.
  - unfold DeleteRule, func. no_figures.
Qed.

(** (C15) A request on one organization leaves the connections, rules, resources,
    costs and runs of all others as they are, erases nothing but rules, and changes
    of a connection only its status and whether it is deleted.  The connections,
    resources and rules it shows are of its own organization - but for the answer
    to a new tag rule, which can be a rule of another one ([rule_of_another_org]) -
    and the summary, the trend and the daily costs it shows are computed from
    resources and costs of its own organization alone.  The sync it starts stays
    within the organization too. *)
Theorem billing_requests_confined w js ctx o q rj w' :
  made_cipher cipher -> billing_reachable (mkBState w js) -> serve cipher adapters ctx o q w = (rj, w') ->
  grows (w_db w) (w_db w') /\ others_kept o (w_db w) (w_db w') /\
  (creates_rule q = false -> shown o rj.1) /\ own_figures o (w_db w) rj.1 /\
  forall j v r v', rj.2 = Some j -> billing_reachable (mkBState v [j]) -> run_job cipher j v = (r, v') ->
    grows (w_db v) (w_db v') /\ others_kept o (w_db v) (w_db v').
Proof.
  intros Hc Hr Hs. destruct (reachable_state_ok _ Hc Hr) as (He & Hok & _). cbn in *.
  destruct (serve_does cipher adapters ctx o q Hc w He Hok I) as (_ & [_ Hg Ho] & Hsh & Hjob). 
  pose proof (serve_figures ctx o q w Hok) as Hfig. rewrite Hs in *. cbn in *.
  split_and!; [done|done|done|done|]. intros j v r v' Hrj Hv Hj. destruct (Hjob j Hrj) as [_ <-].
  destruct (reachable_state_ok _ Hc Hv) as (He' & Hok' & [Hj' _]%Forall_cons).
  destruct (RunSync_does cipher (sj_OrgID j) (sj_Adapter j) (sj_Connection j) (sj_Payload j) v He' Hok' Hj') as (_ & [_ Hg' Ho'] & _).
  unfold run_job in Hj. by rewrite Hj in *.
Qed.

(** A step of the process keeps a connection and its payload. *)
Lemma billing_step_connections s s' :
  made_cipher cipher -> billing_step s s' -> state_ok s ->
  all_kept kept_connection (b_connections (w_db (bs_World s))) (b_connections (w_db (bs_World s'))).
Proof.
  intros Hc Hs. unfold state_ok. destruct Hs as [ctx o q w js rj w' E|j w js js' r w' E|w js u w' E|w js orgs services Ho Hse|w w' js E He];
    cbn; intros (He1 & Hok & Hj).
  - destruct (serve_does cipher adapters ctx o q Hc w He1 Hok I) as (_ & Heff & _). rewrite E in *. apply Heff.
  - apply Forall_app in Hj as [_ [Hj _]%Forall_cons].
    destruct (RunSync_does cipher (sj_OrgID j) (sj_Adapter j) (sj_Connection j) (sj_Payload j) w He1 Hok Hj) as (_ & Heff & _).
    unfold run_job in E. rewrite E in *. apply Heff.
  - destruct (syncAll_keeps w He1 Hok) as (_ & _ & Hg). rewrite E in *. apply Hg.
  - apply all_kept_refl. intros c. apply kept_connection_refl.
  - rewrite E. apply all_kept_refl. intros c. apply kept_connection_refl.
Qed.
Lemma billing_trace_connections s s' :
  made_cipher cipher -> billing_reachable s -> rtc billing_step s s' ->
  all_kept kept_connection (b_connections (w_db (bs_World s))) (b_connections (w_db (bs_World s'))).
Proof.
  intros Hc Hr Ht. induction Ht as [s|s s1 s' Hs _ IH]; [apply all_kept_refl; intros c; apply kept_connection_refl|].
  eapply all_kept_trans; [|by eapply billing_step_connections, reachable_state_ok|apply IH; by eapply reach_step].
  unfold kept_connection. intros x y z HA HB; destruct_and!; split_and!; try congruence; auto.
Qed.

(** (C33) The credentials of a new connection come back as they were given: what a
    request stored under a 201 is sealed, and after whatever requests of any
    organization, syncs in the background and rounds of the worker follow -
    synchronised, failed, deleted - its row opens to the credentials the request
    carried, which are valid for their provider. *)
Theorem credentials_survive w js ctx o body r w1 c s2 :
  made_cipher cipher -> billing_reachable (mkBState w js) -> CreateConnection cipher ctx o body w = (r, w1) ->
  payload r = Json (OneConnection c) -> rtc billing_step (mkBState w1 js) s2 ->
  exists i row, unmarshal_input body = Some i /\ Validate i = None /\
    b_connections (w_db (bs_World s2)) !! cn_ID c = Some row /\
    cn_Provider (co_Connection row) = in_Provider i /\ decrypted cipher (co_AuthPayload row) = Ok i.
Proof.
  intros Hc Hr E Hp Ht.
  assert (billing_reachable (mkBState w1 js)) as Hr1.
  { eapply reach_step; [exact Hr|]. pose proof (step_request ctx o (QCreateConnection body) w js (r, None) w1) as Hs.
    cbn in Hs. rewrite app_nil_r in Hs. apply Hs. unfold only_reply. by rewrite E. }
  pose proof (billing_trace_connections _ _ Hc Hr1 Ht) as Hg. cbn in Hg.
  destruct (reachable_state_ok _ Hc Hr) as (He & _ & _). cbn in He. revert E Hp.
  unfold CreateConnection, func, try, pure, non_nil, gbind, call.
  destruct (authorizeOrg id ctx o w) as [[x|p] w2] eqn:Ea; apply authorize_run in Ea as [-> Hx];
    [intros [= <- <-] Hl; by destruct Hx as [->| ->]|].
  destruct (unmarshal_input body) as [i|] eqn:Eb; cbn [gret greturn]; [|by intros [= <- <-]].
  destruct (Validate i) as [[]|] eqn:Ev; cbn [gret greturn]; try by intros [= <- <-].
  destruct (Encrypt_spec cipher (marshal_input i) w Hc He) as [_ Henc].
  destruct (Encrypt cipher (marshal_input i) w) as [[enc|e] w3] eqn:Ee; cbn [gret greturn]; [|intros [= <- <-]; by destruct e].
  destruct (CreateCloudConnection _ _ _ _ _ w3) as [[c'|e] w4] eqn:Ec; cbn [gret greturn];
    [|intros [= <- <-]; by destruct e as [[]|[]|]]. intros [= <- <-] [= ->].
  apply b_exec_run in Ec as [(a & [= <-] & Ec)|(? & [=] & _)]. destruct (negb _); [done|]. destruct (_ || _); [done|].
  cbv zeta in Ec. injection Ec as Ec Ed.
  assert (b_connections (w_db w4) !! cn_ID c = Some (mkConnectionRow c enc None)) as Hrow.
  { rewrite <-Ed, <-Ec. cbn. apply lookup_insert_eq. }
  destruct (Hg _ _ Hrow) as (row & Hrow' & (_ & _ & Hprov & _ & Hauth & _)).
  exists i, row. split_and!; [done|done|done| |].
  - rewrite Hprov. cbn. by rewrite <-Ec.
  - rewrite Hauth. cbn. unfold decrypted. by rewrite (Henc enc eq_refl), (unmarshal_marshal _ _ Eb).
Qed.
End Flow.
