(* ===== verification/BillingDemo.v ===== *)
(** * BillingDemo: cloud billing at work

    Two organizations with a service each: a connection synced in the background,
    a rule, a dashboard; inputs that meet the hypotheses of the theorems of
    BillingFlow and AwsBilling, and what the code lets through. *)

From Stdlib Require Import SpecFloat.
From S2P Require Import Prelude GoStrings Effects Table Authz Identity Crypto Float64 Billing AwsBilling BillingStore BillingSync BillingLife BillingSteps BillingFlow.
Set Warnings "-register-all,-clear-no-such-hyp".

Module BillingDemo.
Import CryptoDemo.
#[local] Instance demo_collation : Collation :=
  {| text_less := by_key (fun s => Z.of_nat (String.length s)); text_lower := map_bytes lower_byte;
     text_less_strict := by_key_strict_weak _ |}.
Definition new_text (X : gset string) : string := fresh (X ∪ {[ "" ]}).
#[local] Program Instance any_text : UuidText := {|
  valid_uuid s := negb (str_empty s); gen_random_uuid := new_text |}.
Next Obligation. done. Qed.
Next Obligation. intros X Hin. apply (is_fresh (X ∪ {[ "" ]})). set_solver. Qed.
Next Obligation.
  intros X. apply negb_true_iff, str_empty_false. intros E. apply (is_fresh (X ∪ {[ "" ]})).
  unfold new_text in E. rewrite E. set_solver.
Qed.
#[local] Instance in_order : RangeOrder := {| ranged V m := map_to_list m; ranged_perm V m := reflexivity _ |}.

(** Columns hold whole dollars; a day is written as its number. *)
Definition dollars (f : float64) : option Z :=
  match f with
  | S754_zero _ => Some 0%Z
  | S754_finite false m e => Some (Z.shiftl (Z.pos m) e)
  | _ => None
  end.
#[local] Instance whole_dollars : CostTypes := {|
  numeric := Z; numeric_in := dollars; numeric_out := float_of; numeric_sum := foldr Z.add 0%Z;
  numeric_less := by_key id; date_in := Atoi; date_out := Itoa; current_date t := Z.div t 86400000000000 |}.

(** Credentials of AWS, written with bars between the fields. *)
Definition barred (i : ConnectionInput) : string :=
  Join [in_Provider i; in_DisplayName i; in_RoleARN i; in_ExternalID i] "|".
Definition unbarred (text : string) : option ConnectionInput :=
  match Split text "|" with
  | [p; n; r; e] => Some (mkConnectionInput p n r e "" "" "" "" "" "")
  | _ => None
  end.
Lemma unbarred_barred text i : unbarred text = Some i -> unbarred (barred i) = Some i.
Proof.
  unfold unbarred. destruct (Split text "|") as [|p [|n [|r [|e []]]]] eqn:E; try done.
  intros [= <-]. unfold barred. cbn [in_Provider in_DisplayName in_RoleARN in_ExternalID].
  assert (Join [p; n; r; e] "|" = text) as -> by (rewrite <-E; apply Join_Split). by rewrite E.
Qed.
#[local] Instance bars : InputCodec :=
  {| marshal_input := barred; unmarshal_input := unbarred; unmarshal_marshal := unbarred_barred |}.

Definition the_cipher : Cipher := mkCipher (sha256 "hunter2").
Lemma the_cipher_made : made_cipher the_cipher.
Proof. by exists "hunter2". Qed.

(** An account with two machines and a bucket, of one service each day. *)
Definition machine (ext team : string) (cost : Z) : Resource :=
  mkResource "" "" "" ext ext "compute" ProviderAWS "eu" "" ResourceStatusRunning (float_of cost) {[ "team" := team ]} [] 0.
Definition inventory : SyncResult :=
  mkSyncResult [machine "m1" "checkout" 30; machine "m2" "search" 20]
    [mkUsagePoint "m1" "1" (float_of 3); mkUsagePoint "m2" "1" (float_of 2); mkUsagePoint "m1" "2" (float_of 4)].
Definition adapter : ProviderAdapter := mkAdapter (fun _ _ => None) (fun _ _ => Ok inventory).
Definition the_adapters : gmap string ProviderAdapter := {[ ProviderAWS := adapter ]}.

Definition user (org : string) : option Principal := Some (mkPrincipal "user" "ann" org false "" [] "local").
Definition start : World BillingDB :=
  mkWorld (no_rows {[ "a"; "b" ]} {[ "sa"; "sb" ]}) [] 100 (replicate 64 1%N) (map N.of_nat (seq 0 256)).

Definition serving (o : string) (q : billing_request) (w : World BillingDB) := serve the_cipher the_adapters (user o) o q w.
Fixpoint served (l : list (string * billing_request)) (w : World BillingDB) : World BillingDB :=
  match l with
  | [] => w
  | (o, q) :: l => served l (serving o q w).2
  end.
Definition first_connection (o : string) (d : BillingDB) : string :=
  from_option co_ID "" (select_one (of_org o) (b_connections d)).

Definition request_body := "aws|main|role|ext".
Definition rule := QCreateTagRule "sa" (Some (mkTagRuleRequest "team" "checkout")).
Definition connected : World BillingDB := served [("a", QCreateConnection request_body); ("a", rule)] start.
Definition the_id : string := first_connection "a" (w_db connected).
Definition triggered := serving "a" (QTriggerSync the_id) connected.
Definition the_job : SyncJob := default (mkSyncJob adapter "" (mkConnection "" "" "" "" "" "" None "" None 0 0) "") triggered.1.2.
Definition synced := run_job the_cipher the_job triggered.2.

Example job_queued : triggered.1.2 = Some the_job.
Proof. vm_compute. reflexivity. Qed.
Example sync_counts : synced.1 = Ok 2%Z.
Proof. vm_compute. reflexivity. Qed.
Example status_now : shown_status (w_db synced.2) the_id = Some ("connected", "").
Proof. vm_compute. reflexivity. Qed.
Example dashboard :
  match payload (serving "a" (QGetSummary "sa") synced.2).1.1 with
  | Json (TheSummary s) => sm_TotalMonthlyCostUSD s = float_of 30 /\ sm_ResourceCount s = 1%Z /\ sm_TopCostDriverLabel s = "compute"
  | _ => False
  end.
Proof. vm_compute. by split_and!. Qed.

(** ** The states are reached *)

#[local] Abbreviation reached := (billing_reachable the_cipher the_adapters).

Lemma serving_reached o q w js :
  reached (mkBState w js) -> reached (mkBState (serving o q w).2 (js ++ from_option (fun j => [j]) [] (serving o q w).1.2)).
Proof.
  intros Hr. eapply reach_step; [exact Hr|]. destruct (serving o q w) as [rj w'] eqn:E. by eapply step_request.
Qed.
Lemma quiet_reached o q w js : reached (mkBState w js) -> (serving o q w).1.2 = None -> reached (mkBState (serving o q w).2 js).
Proof. intros Hr Hq. pose proof (serving_reached o q w js Hr) as Hs. rewrite Hq, app_nil_r in Hs. exact Hs. Qed.

Lemma start_entropy : byte_entropy start.
Proof. apply (bool_decide_unpack _). vm_compute. reflexivity. Qed.
Lemma start_reached : reached (mkBState start []).
Proof. by eapply reach_start; [reflexivity|apply start_entropy]. Qed.
Lemma connected_reached : reached (mkBState connected []).
Proof.
  unfold connected. cbn [served]. apply quiet_reached; [apply quiet_reached; [apply start_reached|]|]; vm_compute; reflexivity.
Qed.
Lemma triggered_reached : reached (mkBState triggered.2 [the_job]).
Proof.
  pose proof (serving_reached "a" (QTriggerSync the_id) connected [] connected_reached) as Hr.
  change (serving "a" (QTriggerSync the_id) connected) with triggered in Hr. by rewrite job_queued in Hr.
Qed.
Lemma synced_reached : reached (mkBState synced.2 []).
Proof.
  eapply reach_step; [apply triggered_reached|]. apply (step_job _ _ the_job triggered.2 [] [] synced.1 synced.2).
  unfold synced. by destruct (run_job the_cipher the_job triggered.2).
Qed.

(** ** Witnesses *)

Lemma reachable_billing_ok_witness :
  billing_ok the_cipher (w_db synced.2) /\ size (b_resources (w_db synced.2)) = 2.
Proof.
  destruct (reachable_billing_ok the_cipher the_adapters (mkBState synced.2 []) the_cipher_made synced_reached) as [Hok _].
  split; [exact Hok|vm_compute; reflexivity].
Defined.

Lemma billing_requests_confined_witness :
  others_kept "b" (w_db synced.2) (w_db (serving "b" (QCreateConnection request_body) synced.2).2) /\
  (serving "b" (QCreateConnection request_body) synced.2).1.1.(status) = 201%Z.
Proof.
  destruct (billing_requests_confined the_cipher the_adapters synced.2 [] (user "b") "b" (QCreateConnection request_body) _ _
              the_cipher_made synced_reached (surjective_pairing _)) as (_ & Ho & _).
  split; [exact Ho|vm_compute; reflexivity].
Defined.


Definition listed := ListResources (user "a") "a" "sa" synced.2.
(** The shape of an answer is computed without its rows. *)
Definition resources_in (p : body billing_body) : list ResourceView := match p with Json (Resources l) => l | _ => [] end.
Definition lists_resources (p : body billing_body) : bool := match p with Json (Resources _) => true | _ => false end.
Lemma resources_answer p : lists_resources p = true -> p = Json (Resources (resources_in p)).
Proof. destruct p as [? ?|b| |?|?]; [done|by destruct b|done..]. Qed.
Definition listed_rows : list ResourceView := resources_in (payload listed.1).
Lemma listed_answer : payload listed.1 = Json (Resources listed_rows).
Proof. apply resources_answer. vm_compute. reflexivity. Qed.
Lemma dashboard_follows_rules_witness :
  length listed_rows = 1 /\
  map rv_Resource listed_rows ≡ₚ FilterMatched (org_resources "a" (w_db synced.2)) (rules_of "a" "sa" (w_db synced.2)).
Proof.
  split; [vm_compute; reflexivity|].
  destruct (dashboard_follows_rules (user "a") "a" "sa" synced.2 listed.1 listed.2) as [Hl _].
  exact (proj1 (Hl (surjective_pairing _) listed_rows listed_answer)).
Defined.

Definition trend := GetTrend (user "a") "a" "sa" "30" synced.2.
Definition points : list TrendPoint := match payload trend.1 with Json (Trend l) => l | _ => [] end.
Lemma trend_answer : payload trend.1 = Json (Trend points).
Proof. vm_compute. reflexivity. Qed.
Lemma trend_correct_witness :
  map tp_Date points = ["1"; "2"] /\ map tp_AWSUSD points = [float_of 3; float_of 4] /\
  exists days, StronglySorted Z.lt days /\ Forall2 (fun day p => tp_Date p = date_out day) days points.
Proof.
  split; [vm_compute; reflexivity|]. split; [vm_compute; reflexivity|].
  destruct (trend_correct (user "a") "a" "sa" "30" synced.2 trend.1 trend.2 points (surjective_pairing _) trend_answer)
    as (_ & days & Hs & _ & Hp).
  exists days. split; [exact Hs|]. eapply Forall2_impl; [exact Hp|]. by intros day p [? _].
Defined.

Definition created := CreateConnection the_cipher (user "a") "a" request_body start.
Definition the_connection : Connection :=
  match payload created.1 with Json (OneConnection c) => c | _ => mkConnection "" "" "" "" "" "" None "" None 0 0 end.
Lemma created_answer : payload created.1 = Json (OneConnection the_connection).
Proof. vm_compute. reflexivity. Qed.
(** The connection is synced in the background, then deleted. *)
Definition later_trigger := serving "a" (QTriggerSync the_id) created.2.
Definition later_job : SyncJob := default the_job later_trigger.1.2.
Definition later_sync := run_job the_cipher later_job later_trigger.2.
Definition later_delete := serving "a" (QDeleteConnection the_id) later_sync.2.
#[local] Abbreviation step := (billing_step the_cipher the_adapters).
Lemma serving_step o q w js :
  step (mkBState w js) (mkBState (serving o q w).2 (js ++ from_option (fun j => [j]) [] (serving o q w).1.2)).
Proof. destruct (serving o q w) as [rj w'] eqn:E. by eapply step_request. Qed.
Lemma later_trace : rtc step (mkBState created.2 []) (mkBState later_delete.2 []).
Proof.
  eapply (rtc_l _ _ (mkBState later_trigger.2 [later_job])).
  { assert (later_trigger.1.2 = Some later_job) as Hj by (vm_compute; reflexivity).
    pose proof (serving_step "a" (QTriggerSync the_id) created.2 []) as Hs. fold later_trigger in Hs. by rewrite Hj in Hs. }
  eapply (rtc_l _ _ (mkBState later_sync.2 [])).
  { apply (step_job _ _ later_job later_trigger.2 [] [] later_sync.1 later_sync.2). apply surjective_pairing. }
  apply rtc_once. assert (later_delete.1.2 = None) as Hj by (vm_compute; reflexivity).
  pose proof (serving_step "a" (QDeleteConnection the_id) later_sync.2 []) as Hs. fold later_delete in Hs. by rewrite Hj in Hs.
Qed.

Lemma credentials_survive_witness :
  later_sync.1 = Ok 2%Z /\ status later_delete.1.1 = 204%Z /\
  exists i row, unbarred request_body = Some i /\ b_connections (w_db later_delete.2) !! cn_ID the_connection = Some row /\
    decrypted the_cipher (co_AuthPayload row) = Ok i.
Proof.
  split; [vm_compute; reflexivity|]. split; [vm_compute; reflexivity|].
  destruct (credentials_survive the_cipher the_adapters start [] (user "a") "a" request_body created.1 created.2 the_connection
              (mkBState later_delete.2 []) the_cipher_made start_reached (surjective_pairing _) created_answer later_trace)
    as (i & row & Hi & _ & Hrow & _ & Hdec).
  exists i, row. split; [exact Hi|]. split; [exact Hrow|exact Hdec].
Defined.

Definition two_machines : list awsResource :=
  [mkAwsResource (machine "m1" "checkout" 0) "EC2"; mkAwsResource (machine "m2" "search" 0) "EC2"].
Definition a_day : dailyServiceCosts := {[ "1" := {[ "EC2" := float_of 10; "S3" := float_of 7 ]} ]}.
Lemma sync_result_correct_witness :
  map ug_CostUSD (sy_Usage (sync_result two_machines a_day)) = [float_of 5; float_of 5] /\
  NoDup (map usage_key (sy_Usage (sync_result two_machines a_day))).
Proof.
  split; [vm_compute; reflexivity|].
  refine (proj1 (proj2 (sync_result_correct in_order two_machines a_day _))). apply (bool_decide_unpack _). vm_compute. reflexivity.
Defined.

(** ** What the code lets through *)

(** The third statement of the sync fails in transport: the resources. *)
Definition cut_off := run_job the_cipher the_job (with_faults triggered.2 [false; false; true]).
(** The fourth: a daily cost. *)
Definition half_done := run_job the_cipher the_job (with_faults triggered.2 [false; false; false; true]).
Definition run_states (d : BillingDB) : list (string * bool) := map (fun r => (sn_Status r, found (sn_FinishedAt r))) (rows (b_runs d)).

(** (lemma) A sync that fails after the provider has answered leaves its connection
    showing that it is syncing, with no message, although the failure is over;
    when a daily cost could not be stored, the log shows the run as running too. *)
Theorem failed_sync_keeps_syncing :
  (exists e, cut_off.1 = Err e) /\ shown_status (w_db cut_off.2) the_id = Some ("syncing", "") /\
  run_states (w_db cut_off.2) = [("error", true)] /\
  (exists e, half_done.1 = Err e) /\ shown_status (w_db half_done.2) the_id = Some ("syncing", "") /\
  run_states (w_db half_done.2) = [("running", false)].
Proof. split_and!; try (eexists; vm_compute; reflexivity); vm_compute; reflexivity. Qed.

(** An admin of "b" writes a rule for the service of "a", then "a" the same rule. *)
Definition squatted := serving "b" rule start.
Definition own_rule := serving "a" rule squatted.2.

(** (lemma) A tag rule can be written for the service of another organization.  It does
    nothing there, but the owner cannot add the same rule any more: the request
    is answered 201 with the rule of the other organization, and the service has
    no rule. *)
Theorem rule_of_another_org :
  (exists r, payload squatted.1.1 = Json (OneTagRule r) /\ tr_OrgID r = "b" /\ tr_ServiceID r = "sa") /\
  status own_rule.1.1 = 201%Z /\
  (exists r, payload own_rule.1.1 = Json (OneTagRule r) /\ tr_OrgID r = "b") /\
  rules_of "a" "sa" (w_db own_rule.2) = [].
Proof. split_and!; try (eexists; split_and!; vm_compute; reflexivity); vm_compute; reflexivity. Qed.

Definition deleted := serving "a" (QDeleteConnection the_id) synced.2.

(** (lemma) After a connection is deleted, its name is taken for ever: a new connection
    of the same name is answered with an internal error. *)
Theorem deleted_name_taken :
  status deleted.1.1 = 204%Z /\ status (serving "a" QListConnections deleted.2).1.1 = 200%Z /\
  status (serving "a" (QCreateConnection request_body) deleted.2).1.1 = 500%Z.
Proof. split_and!; vm_compute; reflexivity. Qed.

(** (lemma) Its resources go on counting on the dashboards. *)
Theorem deleted_connection_still_counts :
  match payload (serving "a" (QGetSummary "sa") deleted.2).1.1 with
  | Json (TheSummary s) => sm_ResourceCount s = 1%Z /\ sm_TotalMonthlyCostUSD s = float_of 30
  | _ => False
  end.
Proof. vm_compute. by split. Qed.
End BillingDemo.
