(* ===== verification/Middleware.v ===== *)
(** * Middleware: who a request is

    Models [internal/middleware]: the credential of a request (bearer token,
    session cookie, API key, in this order), the verification of each against
    the tables, and the wrapper that answers 401 or calls the next handler
    with the principal in the context. *)

From S2P Require Import Prelude GoStrings Effects Table Authz Identity AuthStore.
Set Warnings "-clear-no-such-hyp".

(** What the handlers read of [*http.Request]: the header values, the session
    cookie when present, and the transport data stored with a session. *)
Record Request := mkRequest {
  rq_Authorization : string;
  rq_Cookie : option string;
  rq_APIKey : string;
  rq_UserAgent : string;
  rq_RemoteAddr : string
}.

Inductive auth_err : Type :=
| ErrForbidden
| StoreError (e : store_err).

(** [extractBearer]: parses "Authorization: Bearer <token>". *)
Definition extractBearer (r : Request) : string :=
  let auth := rq_Authorization r in
  if str_empty auth then EmptyString
  else match SplitN2 auth " " with
       | [scheme; token] => if EqualFold scheme "bearer" then TrimSpace token else EmptyString
       | _ => EmptyString
       end.

Section Middleware.
Context `{Collation} `{Sha256}.

(** ** The session verifier: [session_verifier.go] *)

Definition VerifyBearer (token : string) : Eff (World AuthDB) (result auth_err Principal) :=
  func (
    let hash := Hash token in
    sess <- try (GetSessionByToken hash) (fun err => Err (StoreError err)) ;;
    sess <- non_nil sess (Err ErrForbidden) ;;
    u <- call (GetUser (s_UserID sess)) ;;
    let isServerAdmin :=
      match u with
      | Ok (Some u) => negb (u_Disabled u) && String.eqb (u_Role u) "server_admin"
      | _ => false
      end in
    gret (Ok {| p_Kind := PrincipalUser; p_UserID := s_UserID sess; p_OrgID := EmptyString;
                p_IsServerAdmin := isServerAdmin; p_ServiceAccountID := EmptyString;
                p_Scopes := []; p_AuthProvider := s_AuthProvider sess |})).

(** ** API keys: [middleware.go] *)

Definition expired (at_ : option Z) (now : Z) : bool :=
  match at_ with Some e => (e <? now)%Z | None => false end.

(** [time.Now()] is read only when the token has an expiry. *)
Definition now_if {R} (expiresAt : option Z) : Go (World AuthDB) R Z :=
  match expiresAt with Some _ => call time_now | None => gret 0%Z end.

Definition verifyAPIKey (plaintext : string) : Eff (World AuthDB) (result auth_err Principal) :=
  func (
    let prefix := Prefix plaintext in
    tok <- try (GetTokenByPrefix prefix) (fun err => Err (StoreError err)) ;;
    tok <- non_nil tok (Err ErrForbidden) ;;
    return_if (tok_Revoked tok) (Err ErrForbidden) ;;;
    now <- now_if (tok_ExpiresAt tok) ;;
    return_if (expired (tok_ExpiresAt tok) now) (Err ErrForbidden) ;;;
    return_if (negb (Verify plaintext (tok_Hash tok))) (Err ErrForbidden) ;;;
    _ <- call (TouchToken (tok_ID tok)) ;;
    sa <- try (GetServiceAccount (tok_ServiceAccountID tok)) (fun _ => Err ErrForbidden) ;;
    sa <- non_nil sa (Err ErrForbidden) ;;
    return_if (sa_Disabled sa) (Err ErrForbidden) ;;;
    gret (Ok {| p_Kind := PrincipalServiceAccount; p_UserID := sa_ID sa; p_OrgID := sa_OrgID sa;
                p_IsServerAdmin := false; p_ServiceAccountID := sa_ID sa;
                p_Scopes := sa_Scopes sa; p_AuthProvider := EmptyString |})).

(** [Middleware]: either field may be nil. *)
Record Middleware := mkMiddleware {
  mw_bearer : option (string -> Eff (World AuthDB) (result auth_err Principal));
  mw_saStore : bool
}.

Definition authenticate (m : Middleware) (r : Request) :
    Eff (World AuthDB) (result auth_err Principal) :=
  func (
    let bearer := extractBearer r in
    (match mw_bearer m with
     | Some verify =>
         if negb (str_empty bearer) then p <- call (verify bearer) ;; greturn p else gret tt
     | None => gret tt
     end) ;;;
    (match mw_bearer m, rq_Cookie r with
     | Some verify, Some c =>
         if negb (str_empty c) then p <- call (verify c) ;; greturn p else gret tt
     | _, _ => gret tt
     end) ;;;
    (if negb (str_empty (rq_APIKey r)) && mw_saStore m
     then p <- call (verifyAPIKey (rq_APIKey r)) ;; greturn p else gret tt) ;;;
    gret (Err ErrForbidden)).

(** [Handler]: the wrapper around [next]. *)
Definition Handler {B} (m : Middleware) (r : Request)
    (next : Principal -> Eff (World AuthDB) (Response B)) : Eff (World AuthDB) (Response B) :=
  func (
    principal <- try (authenticate m r)
                     (fun _ => mkResponse 401 (RawError "unauthenticated")) ;;
    call (next principal)).

(** The server's configuration: sessions and API keys, both from Postgres. *)
Definition server_middleware : Middleware := mkMiddleware (Some VerifyBearer) true.

(** ** What a credential is worth on given tables *)

Definition session_grants (d : AuthDB) (t : Z) (token : string) (p : Principal) : Prop :=
  exists k s, sessions d !! k = Some s /\ (t < s_ExpiresAt s)%Z /\
    (s_TokenHash s = Hash token \/
     (s_PrevTokenHash s = Hash token /\ s_AuthTokenSeen s = false)) /\
    p_Kind p = PrincipalUser /\ p_UserID p = s_UserID s /\ p_AuthProvider p = s_AuthProvider s /\
    p_OrgID p = EmptyString /\ p_Scopes p = [] /\
    (p_IsServerAdmin p = true ->
     exists u, users d !! s_UserID s = Some u /\ u_Disabled u = false /\ u_Role u = "server_admin").

Definition key_grants (d : AuthDB) (t : Z) (key : string) (p : Principal) : Prop :=
  exists k tok r, tokens d !! k = Some tok /\
    tok_Prefix tok = Prefix key /\ tok_Hash tok = Hash key /\ tok_Revoked tok = false /\
    (forall e, tok_ExpiresAt tok = Some e -> (t <= e)%Z) /\
    accounts d !! tok_ServiceAccountID tok = Some r /\ sar_DeletedAt r = None /\
    sa_Disabled (sar r) = false /\
    p = {| p_Kind := PrincipalServiceAccount; p_UserID := sa_ID (sar r);
           p_OrgID := sa_OrgID (sar r); p_IsServerAdmin := false;
           p_ServiceAccountID := sa_ID (sar r); p_Scopes := sa_Scopes (sar r);
           p_AuthProvider := EmptyString |}.

(** Equal tables, up to the [last_used_at] column of one token. *)
Definition same_but_touched (d d' : AuthDB) : Prop :=
  d' = d \/ exists n id, d' = set_tokens d (alter (touch_token_row n) id (tokens d)).
End Middleware.

Section Lemmas.
Context `{Collation} `{Sha256}.

Lemma VerifyBearer_grants token w r w' :
  VerifyBearer token w = (r, w') ->
  w_db w' = w_db w /\ forall p, r = Ok p -> session_grants (w_db w) (w_clock w) token p.
Proof.
  unfold VerifyBearer. intros Hr.
  destruct (GetSessionByToken (Hash token) w) as [r1 w1] eqn:E1.
  pose proof (db_read_db _ _ _ _ E1) as Hdb.
  unfold func, try, gbind, call in Hr. rewrite E1 in Hr.
  destruct r1 as [[s|]|e]; cbn in Hr; [|by simplify_eq|by simplify_eq].
  destruct (GetUser (s_UserID s) w1) as [r2 w2] eqn:E2.
  pose proof (db_read_db _ _ _ _ E2) as Hdb2.
  cbn in Hr. simplify_eq. split; [congruence|]. intros p [= <-].
  apply db_read_ok in E1 as [Hs _]. symmetry in Hs.
  apply select_one_Some in Hs as [[k Hk] Hlive]. unfold session_live in Hlive.
  apply andb_true_iff in Hlive as [Hh Ht]. bool_to_prop.
  exists k, s. split_and!; try done; cbn.
  - apply orb_true_iff in Hh as [Hh|Hh]; bool_to_prop; auto.
  - destruct r2 as [[u|]|]; try done. intros Hadm. bool_to_prop. subst.
    apply db_read_ok in E2 as [Hu _]. rewrite Hdb in Hu. eauto.
Qed.

Lemma TouchToken_db id w :
  same_but_touched (w_db w) (w_db (TouchToken id w).2).
Proof.
  unfold TouchToken, db_write. destruct (db_op _ w) as [r w'] eqn:E. cbn.
  apply db_op_cases in E as [[_ ->]|(d & Hd & ->)]; [by left|].
  right. exists (w_clock w), id. by injection Hd as _ <-.
Qed.

Lemma now_if_spec {R} o (Qr : R -> _ -> Prop) w :
  wp (now_if o) Qr (fun now w' => w_db w' = w_db w /\ (w_clock w <= w_clock w')%Z /\
    forall e, o = Some e -> now = w_clock w') w.
Proof.
  destruct o; cbn; [|change (w_db w = w_db w /\ (w_clock w <= w_clock w)%Z /\ forall e : Z, None = Some e -> 0%Z = w_clock w);
    split_and!; [done|lia|done]].
  apply wp_call. pose proof (time_now_db w). pose proof (time_now_clock w).
  destruct (time_now w). cbn in *. split_and!; intuition lia.
Qed.

Lemma same_but_touched_accounts d d' : same_but_touched d d' -> accounts d' = accounts d.
Proof. by intros [->|(? & ? & ->)]. Qed.

Lemma verifyAPIKey_grants key w :
  let '(r, w') := verifyAPIKey key w in
  same_but_touched (w_db w) (w_db w') /\
  forall p, r = Ok p -> exists t, (w_clock w <= t)%Z /\ key_grants (w_db w) t key p.
Proof.
  apply wp_let. wp_step.
  destruct (GetTokenByPrefix (Prefix key) w) as [[ot|e] w1] eqn:E1;
    pose proof (db_read_db _ _ _ _ E1) as Hdb1; pose proof (db_op_clock _ _ _ _ E1) as Hclk; [|by split; [left|]].
  apply db_read_ok in E1 as [Hot _].
  wp_step. split; [intros _; by split; [left|]|]. intros tok ->.
  wp_step. split; [intros _; by split; [left|]|]. intros Hrev.
  wp_step. eapply wp_mono; [apply (now_if_spec (tok_ExpiresAt tok))|intros ? ? HQ; exact HQ|].
  intros now w2 (Hdb2 & Hle & Hnow). wp_step.
  assert (same_but_touched (w_db w) (w_db w2)) as Hsame by (left; congruence).
  split; [by intros _|]. intros Hexp.
  wp_step. split; [by intros _|]. intros Hver. apply negb_false_iff, Verify_iff in Hver.
  wp_step. pose proof (TouchToken_db (tok_ID tok) w2) as Htouch.
  destruct (TouchToken (tok_ID tok) w2) as [r3 w3]. cbn in Htouch |- *.
  rewrite Hdb2, Hdb1 in Htouch. wp_step.
  destruct (GetServiceAccount _ w3) as [[osa|e] w4] eqn:E4;
    pose proof (db_read_db _ _ _ _ E4) as Hdb4; [|by rewrite Hdb4].
  apply db_read_ok in E4 as [Hosa _]. wp_step. rewrite Hdb4.
  split; [done|]. intros sa ->. wp_step. rewrite Hdb4. split; [done|]. intros Hdis.
  wp_step. split; [done|]. intros p [= <-]. exists (w_clock w2).
  split; [lia|]. destruct (select_one _ (tokens (w_db w))) as [row|] eqn:Erow; [|done].
  apply select_one_Some in Erow as [[k Hk] Hpre]. bool_to_prop. injection Hot as ->.
  rewrite (same_but_touched_accounts _ _ Htouch) in Hosa. cbn in *.
  destruct (accounts (w_db w) !! tok_ServiceAccountID row) as [r4|] eqn:Er4; [|done].
  unfold sa_visible in Hosa. destruct (sar_DeletedAt r4) eqn:Edel; [done|].
  injection Hosa as ->. exists k, row, r4. split_and!; try done.
  intros e He. unfold expired in Hexp. rewrite He in Hexp. bool_to_prop.
  by rewrite (Hnow e He) in Hexp.
Qed.
End Lemmas.

(** ** Properties *)

Section Theorems.
Context `{Collation} `{Sha256}.

(** The credential the server looks at, and what it is worth: the bearer token
    if there is one, else the cookie, else the API key. *)
Definition request_grants (rq : Request) (d : AuthDB) (t : Z) (p : Principal) : Prop :=
  let by_key := rq_APIKey rq <> EmptyString /\ key_grants d t (rq_APIKey rq) p in
  if negb (str_empty (extractBearer rq)) then session_grants d t (extractBearer rq) p
  else match rq_Cookie rq with
       | Some c => if negb (str_empty c) then session_grants d t c p else by_key
       | None => by_key
       end.

Lemma authenticate_spec rq w :
  let '(r, w') := authenticate server_middleware rq w in
  same_but_touched (w_db w) (w_db w') /\
  forall p, r = Ok p -> exists t, (w_clock w <= t)%Z /\ request_grants rq (w_db w) t p.
Proof.
  assert (forall tok, let '(r, w') := VerifyBearer tok w in
    same_but_touched (w_db w) (w_db w') /\
    forall p, r = Ok p -> exists t, (w_clock w <= t)%Z /\ session_grants (w_db w) t tok p) as Hb.
  { intros tok. destruct (VerifyBearer tok w) as [r w'] eqn:E.
    apply VerifyBearer_grants in E as [Hdb Hp]. split; [by left|].
    intros p ->. exists (w_clock w). split; [lia|auto]. }
  unfold authenticate, request_grants, func, gbind, call. cbn.
  destruct (str_empty (extractBearer rq)); cbn;
    [|specialize (Hb (extractBearer rq)); by destruct (VerifyBearer _ w)].
  pose proof (verifyAPIKey_grants (rq_APIKey rq) w) as Hk.
  destruct (rq_Cookie rq) as [c|]; [destruct (str_empty c); cbn;
    [|specialize (Hb c); by destruct (VerifyBearer _ w)]|cbn].
  all: destruct (str_empty (rq_APIKey rq)) eqn:Ek; cbn; [by split; [left|]|].
  all: apply str_empty_false in Ek; destruct (verifyAPIKey _ w) as [r w']; cbn;
    destruct Hk as [Hs Hp]; split; [done|]; intros p ->;
    destruct (Hp p eq_refl) as (t & ? & ?); eauto.
Qed.

(** (C2) A handler behind the middleware runs only with a principal that the
    presented credential is worth on the tables: an unexpired session of the
    user, or an unrevoked, unexpired token with the key's digest whose service
    account is neither deleted nor disabled - with exactly that account's org
    and scopes.  The bearer token shadows the cookie, which shadows the API
    key.  Every other request is answered 401, and nothing but a token's
    last-used time has changed in either case. *)
Theorem Handler_correct {B} rq (next : Principal -> Eff (World AuthDB) (Response B)) w :
  let '(resp, w') := Handler server_middleware rq next w in
  (exists p w0 t, next p w0 = (resp, w') /\ same_but_touched (w_db w) (w_db w0) /\
     (w_clock w <= t)%Z /\ request_grants rq (w_db w) t p) \/
  (status resp = 401%Z /\ same_but_touched (w_db w) (w_db w')).
Proof.
  apply wp_let. wp_step. pose proof (authenticate_spec rq w) as Ha.
  destruct (authenticate server_middleware rq w) as [[p|e] w0]; cbn in *;
    destruct Ha as [Hs Hp]; [rewrite wp_call; left|by right].
  destruct (Hp p eq_refl) as (t & Ht & Hg). exists p, w0, t.
  split_and!; try done. by destruct (next p w0).
Qed.

(** (lemma) Disabling a user takes server-admin rights away and nothing else:
    every session of the user authenticates as before, with the same user id
    and expiry, and a member's role still gives the scopes of that role. *)
Theorem disabled_user_keeps_access id w :
  let '(_, w') := DisableUser id w in
  (forall t token p, session_grants (w_db w) t token p ->
     exists p', session_grants (w_db w') t token p' /\ p_UserID p' = p_UserID p) /\
  (forall u o role, v_role (auth_view w) u o = Some role ->
     is_server_admin (auth_view w) u = false ->
     granted_scopes (auth_view w') u o = ScopesForRole role).
Proof.
  unfold DisableUser, db_write. destruct (db_op _ w) as [r w'] eqn:E.
  assert (sessions (w_db w') = sessions (w_db w) /\ members (w_db w') = members (w_db w) /\
    (users (w_db w') = users (w_db w) \/
     users (w_db w') = alter (disable_row (w_clock w)) id (users (w_db w)))) as (Hs & Hm & Hu).
  { apply db_op_cases in E as [[_ ->]|(d & Hd & ->)]; [auto|]. injection Hd as _ <-. cbn. auto. }
  split.
  - intros t token p (k & s & Hk & Ht & Hh & _ & Hu1 & _).
    exists {| p_Kind := PrincipalUser; p_UserID := s_UserID s; p_OrgID := EmptyString;
              p_IsServerAdmin := false; p_ServiceAccountID := EmptyString; p_Scopes := [];
              p_AuthProvider := s_AuthProvider s |}.
    split; [|done]. exists k, s. rewrite Hs. by split_and!.
  - intros u o role Hrole Hadm. unfold granted_scopes.
    assert (is_server_admin (auth_view w') u = false) as ->.
    { unfold is_server_admin in *. cbn in *. destruct Hu as [->| ->]; [done|].
      destruct (decide (u = id)) as [->|Hne].
      - rewrite lookup_alter_eq. by destruct (users (w_db w) !! id).
      - by rewrite lookup_alter_ne. }
    cbn in Hrole |- *. rewrite Hm. by rewrite Hrole.
Qed.
End Theorems.
