(* ===== verification/OAuth.v ===== *)
(** * OAuth: the authorization-code flow of a configured provider

    Models [internal/oauth/oauth.go]: the authorization URL, the code
    exchange, the claims of an id_token, the nonce check and the merge with
    the userinfo response.  HTTP round trips ([HttpClient]: one request, the
    status and the first MiB of the body, or a transport error), JSON and
    base64 decoding and URL parsing are arguments. *)

From S2P Require Import Prelude GoStrings RoleMap.
Set Warnings "-register-all,-clear-no-such-hyp".

Definition Generic := "generic".
Definition Entra := "entra".
Definition Okta := "okta".

Record Provider := mkOAuthProvider {
  op_Name : string;
  op_ClientID : string;
  op_ClientSecret : string;
  op_AuthURL : string;
  op_TokenURL : string;
  op_UserinfoURL : string;
  op_Scopes : string
}.

Record OAuthToken := mkOAuthToken { ot_AccessToken : string; ot_IDToken : string }.

(** The JSON payload of the token endpoint, and one entry of /user/emails. *)
Record TokenPayload := mkTokenPayload {
  tp_AccessToken : string; tp_IDToken : string; tp_Error : string; tp_ErrorDescription : string
}.
Record GitHubEmail := mkGitHubEmail { ge_Email : string; ge_Primary : bool; ge_Verified : bool }.

Record HttpRequest := mkHttpRequest {
  hr_method : string; hr_url : string; hr_headers : list (string * string); hr_body : string
}.

Class HttpClient := { http_do : HttpRequest -> option (Z * string) }.

Class Decoders := {
  decode_token : string -> option TokenPayload;
  decode_object : string -> option (gmap string attr);
  decode_emails : string -> option (list GitHubEmail);
  base64url : string -> option string;
  url_hostname : string -> option string
}.

Inductive oauth_err : Type :=
| RequestFailed (what : string)
| BadStatus (what : string) (code : Z)
| BadJSON (what : string)
| EndpointError (code description : string)
| MissingAccessToken
| NotAJWT | BadPayload | NoNonceIssued | NonceMissing | NonceMismatch.

Definition EntraEndpoints (tenantID : string) : string * string * string :=
  let base := "https://login.microsoftonline.com/" +:+ tenantID +:+ "/oauth2/v2.0" in
  (base +:+ "/authorize", base +:+ "/token", "https://graph.microsoft.com/oidc/userinfo").

Definition OktaEndpoints (domain : string) : string * string * string :=
  let base := "https://" +:+ domain +:+ "/oauth2/v1" in
  (base +:+ "/authorize", base +:+ "/token", base +:+ "/userinfo").

(** ** [url.Values.Encode]: keys in order, values query-escaped *)

Definition unreserved (a : ascii) : bool :=
  is_lower a || is_upper a || is_digit a ||
  existsb (Ascii.eqb a) ["-"; "_"; "."; "~"]%char.

Definition upper_hex_digit (n : N) : ascii :=
  ascii_of_N (if (n <? 10)%N then (48 + n)%N else (55 + n)%N).

Definition escape_byte (a : ascii) : string :=
  if unreserved a then String a EmptyString
  else if Ascii.eqb a " " then "+"
  else String "%" (String (upper_hex_digit (N_of_ascii a / 16))
                          (String (upper_hex_digit (N_of_ascii a mod 16)) EmptyString)).

Fixpoint QueryEscape (s : string) : string :=
  match s with
  | EmptyString => EmptyString
  | String a s' => escape_byte a +:+ QueryEscape s'
  end.

Definition Encode (values : list (string * string)) : string :=
  Join (map (fun '(k, v) => QueryEscape k +:+ "=" +:+ QueryEscape v)
            (sort_stable (fun x y => str_less x.1 y.1) values)) "&".

Definition AuthCodeURL (p : Provider) (redirectURI state nonce : string) : string :=
  let q := [("client_id", op_ClientID p); ("redirect_uri", redirectURI);
            ("response_type", "code"); ("scope", op_Scopes p); ("state", state)] in
  let q := if negb (str_empty nonce) then q ++ [("nonce", nonce)] else q in
  let sep := if Contains (op_AuthURL p) "?" then "&" else "?" in
  op_AuthURL p +:+ sep +:+ Encode q.

Definition userAgent := "uigraph".

Section OAuth.
Context `{HttpClient} `{Decoders}.

Definition Exchange (p : Provider) (code redirectURI : string) : result oauth_err OAuthToken :=
  let form := [("grant_type", "authorization_code"); ("code", code);
               ("redirect_uri", redirectURI); ("client_id", op_ClientID p);
               ("client_secret", op_ClientSecret p)] in
  let req := mkHttpRequest "POST" (op_TokenURL p)
    [("Content-Type", "application/x-www-form-urlencoded"); ("Accept", "application/json");
     ("User-Agent", userAgent)] (Encode form) in
  match http_do req with
  | None => Err (RequestFailed "token")
  | Some (st, body) =>
      if negb (Z.eqb st 200) then Err (BadStatus "token" st)
      else match decode_token body with
           | None => Err (BadJSON "token")
           | Some tok =>
               if str_empty (tp_AccessToken tok) then
                 if negb (str_empty (tp_Error tok))
                 then Err (EndpointError (tp_Error tok) (tp_ErrorDescription tok))
                 else Err MissingAccessToken
               else Ok (mkOAuthToken (tp_AccessToken tok) (tp_IDToken tok))
           end
  end.

Definition IDTokenClaims (idToken : string) : result oauth_err (gmap string attr) :=
  match Split idToken "." with
  | [_; part1; _] =>
      match base64url part1 with
      | None => Err BadPayload
      | Some payload =>
          match decode_object payload with
          | None => Err BadPayload
          | Some claims => Ok claims
          end
      end
  | _ => Err NotAJWT
  end.

Definition VerifyNonce (claims : gmap string attr) (want : string) : option oauth_err :=
  if str_empty want then Some NoNonceIssued
  else match claims !! "nonce" with
       | Some (AString got) =>
           if str_empty got then Some NonceMissing
           else if negb (String.eqb got want) then Some NonceMismatch
           else None
       | _ => Some NonceMissing
       end.

Definition bearer_headers (accessToken : string) : list (string * string) :=
  [("Authorization", "Bearer " +:+ accessToken); ("Accept", "application/json");
   ("User-Agent", userAgent)].

Definition isGitHubHost (rawURL : string) `{UnicodeCase} : bool :=
  match url_hostname rawURL with
  | None => false
  | Some h =>
      let host := ToLower h in
      String.eqb host "api.github.com" || String.eqb host "github.com"
  end.

Definition fetchGitHubPrimaryEmail (accessToken : string) : result oauth_err string :=
  match http_do (mkHttpRequest "GET" "https://api.github.com/user/emails"
                               (bearer_headers accessToken) EmptyString) with
  | None => Err (RequestFailed "github emails")
  | Some (st, body) =>
      if negb (Z.eqb st 200) then Err (BadStatus "github emails" st)
      else match decode_emails body with
           | None => Err (BadJSON "github emails")
           | Some emails =>
               match List.find (fun e => ge_Primary e && ge_Verified e) emails with
               | Some e => Ok (ge_Email e)
               | None =>
                   match List.find ge_Verified emails with
                   | Some e => Ok (ge_Email e)
                   | None => Ok EmptyString
                   end
               end
           end
  end.

(** [claims["email"].(string)], the empty string when it is none. *)
Definition claimString (claims : gmap string attr) (key : string) : string :=
  match claims !! key with
  | Some (AString v) => v
  | _ => EmptyString
  end.

Definition FetchUserInfo (p : Provider) (accessToken : string) `{UnicodeCase} :
    result oauth_err (gmap string attr) :=
  match http_do (mkHttpRequest "GET" (op_UserinfoURL p) (bearer_headers accessToken) EmptyString) with
  | None => Err (RequestFailed "userinfo")
  | Some (st, body) =>
      if negb (Z.eqb st 200) then Err (BadStatus "userinfo" st)
      else match decode_object body with
           | None => Err (BadJSON "userinfo")
           | Some claims =>
               if isGitHubHost (op_UserinfoURL p) && str_empty (claimString claims "email") then
                 match fetchGitHubPrimaryEmail accessToken with
                 | Err e => Err e
                 | Ok email =>
                     Ok (if negb (str_empty email) then <["email" := AString email]> claims
                         else claims)
                 end
               else Ok claims
           end
  end.

(** The userinfo claims overwrite those of the id_token. *)
Definition MergedClaims (p : Provider) (tok : OAuthToken) (nonce : string) `{UnicodeCase} :
    result oauth_err (gmap string attr) :=
  let userinfo merged :=
    match FetchUserInfo p (ot_AccessToken tok) with
    | Err e => Err e
    | Ok u => Ok (u ∪ merged)
    end in
  if negb (str_empty (ot_IDToken tok)) then
    match IDTokenClaims (ot_IDToken tok) with
    | Err e => Err e
    | Ok idClaims =>
        match VerifyNonce idClaims nonce with
        | Some e => Err e
        | None => userinfo idClaims
        end
    end
  else userinfo ∅.

(** ** Properties *)

Lemma VerifyNonce_iff claims want :
  VerifyNonce claims want = None <-> want <> EmptyString /\ claims !! "nonce" = Some (AString want).
Proof.
  unfold VerifyNonce. destruct (str_empty want) eqn:E; [apply str_empty_true in E|apply str_empty_false in E].
  - naive_solver.
  - destruct (claims !! "nonce") as [[|got| | | |]|]; try naive_solver.
    destruct (str_empty got) eqn:Eg; [apply str_empty_true in Eg; naive_solver|].
    destruct (String.eqb_spec got want) as [->|Hne]; naive_solver.
Qed.

(** (lemma) Claims accepted from a provider: when the token response carried an
    id_token, its nonce is the non-empty nonce issued for this login; every
    userinfo claim is taken, and an id_token claim only where userinfo has
    none. *)
Theorem MergedClaims_nonce p tok nonce `{UnicodeCase} :
  match MergedClaims p tok nonce with
  | Ok m =>
      exists u idc, FetchUserInfo p (ot_AccessToken tok) = Ok u /\
        (forall k, m !! k = match u !! k with Some v => Some v | None => idc !! k end) /\
        (ot_IDToken tok = EmptyString /\ idc = ∅ \/
         IDTokenClaims (ot_IDToken tok) = Ok idc /\ nonce <> EmptyString /\
         idc !! "nonce" = Some (AString nonce))
  | Err _ => True
  end.
Proof.
  assert (forall (u m : gmap string attr) k,
    (u ∪ m) !! k = match u !! k with Some v => Some v | None => m !! k end) as Hun
    by (intros u m k; rewrite lookup_union; by destruct (u !! k), (m !! k)).
  unfold MergedClaims. destruct (str_empty (ot_IDToken tok)) eqn:E; cbn.
  - apply str_empty_true in E. destruct (FetchUserInfo _ _) as [u|e]; [|done].
    exists u, ∅. auto.
  - destruct (IDTokenClaims _) as [idc|]; [|done].
    destruct (VerifyNonce idc nonce) eqn:Ev; [done|]. apply VerifyNonce_iff in Ev as [? ?].
    destruct (FetchUserInfo _ _) as [u|e]; [|done]. exists u, idc. auto 6.
Qed.
End OAuth.
