(* ===== verification/Enterprise.v ===== *)
(** * Enterprise: plan limits

    Models [internal/enterprise/client.go] and [seatLimitReached] of
    [internal/api/auth/member.go]: the limits of an org's plan, asked from the
    billing service over HTTP, and the gates in front of adding a member and
    creating a diagram, service or map.  A gate is [None] when the request may
    go on, or the response already written. *)

From S2P Require Import Prelude GoStrings Effects Table Authz Identity AuthStore OAuth.
Set Warnings "-clear-no-such-hyp".

Record SeatLimitInfo := mkSeatLimitInfo {
  sl_Limit : Z;
  sl_PlanID : string;
  sl_MaxDiagrams : Z;
  sl_MaxServices : Z;
  sl_MaxMaps : Z;
  sl_AssistEnabled : bool
}.

Class LimitDecoder := { decode_limits : string -> option SeatLimitInfo }.

(** [Client]; self-hosted servers have none. *)
Record Client := mkClient { c_baseURL : string; c_internalToken : string }.

Definition New (baseURL internalToken : string) : Client :=
  mkClient (TrimRightByte baseURL "/") internalToken.

Inductive client_err : Type := ReqFailed | UnexpectedStatus (st : Z) | DecodeFailed.

(** [http_do] is the network as one request meets it: a theorem about several
    requests gives each its own, so that the plan can change and the billing
    service be silent in between (see ServiceFlow). *)
Section Limits.
Context `{HN : HttpClient} `{LimitDecoder}.

Definition SeatLimit (c : Client) (orgID : string) : result client_err SeatLimitInfo :=
  match http_do (mkHttpRequest "GET" (c_baseURL c +:+ "/internal/v1/orgs/" +:+ orgID +:+ "/seat-limit")
                               [("X-Internal-Token", c_internalToken c)] EmptyString) with
  | None => Err ReqFailed
  | Some (st, body) =>
      if negb (Z.eqb st 200) then Err (UnexpectedStatus st)
      else match decode_limits body with
           | None => Err DecodeFailed
           | Some out => Ok out
           end
  end.

Definition plan_name (info : SeatLimitInfo) : string :=
  if str_empty (sl_PlanID info) then "free" else sl_PlanID info.

Definition ResourceLimitReached {B} (c : option Client) (orgID resourceName : string)
    (currentCount : Z) (limit : SeatLimitInfo -> Z) : option (Response B) :=
  match c with
  | None => None
  | Some c =>
      match SeatLimit c orgID with
      | Err _ => None
      | Ok info =>
          let max := limit info in
          if (max <? 0)%Z || (currentCount <? max)%Z then None
          else Some (mkResponse 409 (ApiError (resourceName +:+ "_limit_reached")
                 ("Your organization has reached its " +:+ resourceName +:+ " limit on the " +:+
                  plan_name info +:+ " plan. Upgrade to create more.")))
      end
  end.

Definition seatLimitReached {B} `{Collation} (ent : option Client) (orgID : string) (st : Z) :
    Eff (World AuthDB) (option (Response B)) :=
  match ent with
  | None => fun w => (None, w)
  | Some c =>
      match SeatLimit c orgID with
      | Err _ => fun w => (None, w)
      | Ok info =>
          if (sl_Limit info <? 0)%Z then fun w => (None, w)
          else func (
            current <- try (ListMembers orgID) (fun err => Some (HttpError err)) ;;
            return_if (Z.of_nat (length current) <? sl_Limit info)%Z None ;;;
            gret (Some (mkResponse st (ApiError "seat_limit_reached"
              ("Your organization has reached its seat limit on the " +:+ plan_name info +:+
               " plan. Upgrade to add more members.")))))
      end
  end.

Lemma seatLimitReached_db {B} `{Collation} c orgID st w :
  w_db (seatLimitReached (B:=B) c orgID st w).2 = w_db w.
Proof.
  unfold seatLimitReached. destruct c as [c|]; [|done]. destruct (SeatLimit c orgID) as [info|]; [|done].
  destruct (_ <? 0)%Z; [done|]. unfold func, try, gbind, call, return_if.
  destruct (ListMembers orgID w) as [[l|e] w1] eqn:EL; cbn;
    pose proof (db_read_db _ _ _ _ EL) as Hdb; [|done]. by destruct (_ <? _)%Z.
Qed.

Lemma seatLimitReached_status {B} `{Collation} c orgID st w r :
  (seatLimitReached (B:=B) c orgID st w).1 = Some r -> status r = st \/ exists e, r = HttpError e.
Proof.
  unfold seatLimitReached. destruct c as [c|]; [|done]. destruct (SeatLimit c orgID) as [info|]; [|done].
  destruct (_ <? 0)%Z; [done|]. unfold func, try, gbind, call, return_if.
  destruct (ListMembers orgID w) as [[l|e] w1]; cbn; [|intros [= <-]; eauto].
  destruct (_ <? _)%Z; cbn; [done|]. intros [= <-]. by left.
Qed.

(** ** Properties *)

(** The limit in force for an org: none without a billing service, when it
    cannot be reached, or when the plan says unlimited. *)
Definition limit_in_force (c : option Client) (orgID : string) (limit : SeatLimitInfo -> Z) : option Z :=
  match c with
  | None => None
  | Some c =>
      match SeatLimit c orgID with
      | Err _ => None
      | Ok info => if (limit info <? 0)%Z then None else Some (limit info)
      end
  end.

(** (lemma) The plan gates fail open and are exact: a resource is refused, with
    409, exactly when a limit is in force and the count has reached it; a new
    member is refused exactly when the org's members have reached the seat
    limit, or they could not be counted. *)
Theorem limits_exact {B} `{Collation} c orgID name count limit st w :
  (match ResourceLimitReached (B:=B) c orgID name count limit with
   | Some r => status r = 409%Z /\
       exists max, limit_in_force c orgID limit = Some max /\ (max <= count)%Z
   | None => forall max, limit_in_force c orgID limit = Some max -> (count < max)%Z
   end) /\
  let '(g, w') := seatLimitReached (B:=B) c orgID st w in
  w_db w' = w_db w /\
  match g with
  | Some r => exists max, limit_in_force c orgID sl_Limit = Some max /\
      ((exists e, (ListMembers orgID w).1 = Err e /\ r = HttpError e) \/
       (exists l, (ListMembers orgID w).1 = Ok l /\ (max <= Z.of_nat (length l))%Z /\ status r = st))
  | None => forall max, limit_in_force c orgID sl_Limit = Some max ->
      exists l, (ListMembers orgID w).1 = Ok l /\ (Z.of_nat (length l) < max)%Z
  end.
Proof.
  unfold ResourceLimitReached, seatLimitReached, limit_in_force.
  destruct c as [c|]; [|done]. destruct (SeatLimit c orgID) as [info|e]; [|done]. split.
  - destruct (limit info <? 0)%Z eqn:E0; cbn; [done|].
    destruct (count <? limit info)%Z eqn:E1; cbn; bool_to_prop; [naive_solver|eauto].
  - destruct (sl_Limit info <? 0)%Z eqn:E0; [done|].
    unfold func, try, gbind, call, return_if.
    destruct (ListMembers orgID w) as [[l|e] w1] eqn:EL; cbn;
      pose proof (db_read_db _ _ _ _ EL) as Hdb; [|eauto 7].
    destruct (Z.of_nat (length l) <? sl_Limit info)%Z eqn:El; cbn; bool_to_prop;
      (split; [done|]); [intros ? [= <-]; eauto|]. eexists. split; [done|]. right. eauto.
Qed.
End Limits.
