(* ===== verification/Session.v ===== *)
(** * Session: sign-in, SSO callbacks, sign-out

    Models [internal/api/auth/session.go], handler by handler.  A handler is a
    function from the decoded request to a reply (response and cookie) in the
    world of [AuthStore].  Arguments: bcrypt, the SAML library wrapper, the
    secret cipher, presigning of avatars, the mail address parser, and what
    [OAuth] and [RoleMap] ask for. *)

From S2P Require Import Prelude GoStrings Effects Table Authz RoleMap Identity.
From S2P Require Import AuthStore Middleware OAuth Enterprise.
Set Warnings "-clear-no-such-hyp".

Definition sessionCookie := "uigraph_session".

(** Durations in nanoseconds. *)
Definition minute : Z := 60000000000.
Definition hour : Z := 60 * minute.
Definition loginStateTTL : Z := 10 * minute.
Definition discoverWindow : Z := 15 * minute.
Definition discoverLimit : nat := 20.
Definition sessionTTL : Z := 30 * 24 * hour.

(** ** Requests and replies *)

Record loginRequest := mkLoginRequest { lr_Email : string; lr_Password : string }.

Record meResponse := mkMe {
  me_UserID : string; me_OrgID : string; me_Email : string; me_Name : string;
  me_Login : string; me_Kind : string; me_Role : string; me_AuthProvider : string;
  me_AvatarURL : string
}.

Record myOrg := mkMyOrg {
  mo_ID : string; mo_Name : string; mo_LogoURL : string; mo_Role : string;
  mo_OnboardingDone : bool
}.

Record discoveredOrg := mkDiscovered { do_ID : string; do_Name : string; do_LogoURL : string }.

Record providerInfo := mkProviderInfo {
  pi_ID : string; pi_Slug : string; pi_Kind : string; pi_DisplayName : string;
  pi_IconURL : string; pi_LoginURL : string
}.

Inductive session_body : Type :=
| LoginResponse (token : string) (mustChangePassword : bool)
| DiscoveredOrgs (orgs : list discoveredOrg)
| ProvidersResponse (l : list providerInfo)
| MetadataXML (doc : string)
| MeResponse (m : meResponse)
| MyOrgsResponse (orgs : list myOrg)
| SessionTokenResponse (token : string) (expiresAt : Z).

Record Cookie := mkCookie {
  ck_Name : string; ck_Value : string; ck_Path : string; ck_Domain : string;
  ck_Expires : option Z; ck_MaxAge : Z; ck_HttpOnly : bool; ck_Secure : bool; ck_SameSite : string
}.

Record Reply := mkReply { rp_resp : Response session_body; rp_cookie : option Cookie }.

Definition plain (r : Response session_body) : Reply := mkReply r None.
Definition errReply (e : store_err) : Reply := plain (HttpError e).

(** ** The SAML wrapper: [internal/saml] *)

Record SamlProvider := mkSamlProvider {
  sp_IDPEntityID : string; sp_IDPSSOURL : string; sp_IDPCert : string;
  sp_SPEntityID : string; sp_SPCert : string; sp_SPKey : string;
  sp_SignRequests : bool; sp_NameIDFormat : string
}.
Record SamlIdentity := mkSamlIdentity { si_NameID : string; si_Attributes : gmap string attr }.
Record acsForm := mkAcsForm { af_RelayState : string; af_SAMLResponse : string }.

Class Saml := {
  AuthnRequest : SamlProvider -> string -> string -> option (string * string);
  ValidateResponse : SamlProvider -> string -> acsForm -> string -> option SamlIdentity;
  SPMetadata : SamlProvider -> string -> string -> option string
}.

(** bcrypt, the address parser, the printer of [%v]. *)
Class SignInLib := {
  CompareHashAndPassword : string -> string -> bool;
  ParseAddress : string -> option string;
  fmt_v : attr -> string
}.

(** [SessionHandler], without its store. *)
Record SessionHandler := mkSessionHandler {
  h_assets : option (string -> option string);
  h_cipher : option (string -> option string);
  h_publicURL : string;
  h_frontendURL : string;
  h_cookieDomain : string;
  h_enterprise : option Client
}.

(** ** Helpers *)

Definition avatarURL (h : SessionHandler) (assetID : option string) : string :=
  match assetID, h_assets h with
  | Some id, Some resolve =>
      if str_empty id then EmptyString else default EmptyString (resolve id)
  | _, _ => EmptyString
  end.

Definition frontendBase (h : SessionHandler) : string :=
  if negb (str_empty (h_frontendURL h)) then h_frontendURL h else h_publicURL h.

Section Random.
Context {DB : Type}.

Definition set_nth (i : nat) (v : N) (b : list N) : list N := <[i := v]> b.

(** The 16 random bytes with the version and variant bits of RFC 4122; a
    failed read leaves zeros. *)
Definition uuid_bytes (b : list N) : list N :=
  let b := set_nth 6 (N.lor (N.land (nth 6 b 0%N) 15) 64) b in
  set_nth 8 (N.lor (N.land (nth 8 b 0%N) 63) 128) b.

Definition format_uuid (b : list N) : string :=
  hex_encode (take 4 b) +:+ "-" +:+ hex_encode (take 2 (drop 4 b)) +:+ "-" +:+
  hex_encode (take 2 (drop 6 b)) +:+ "-" +:+ hex_encode (take 2 (drop 8 b)) +:+ "-" +:+
  hex_encode (drop 10 b).

Definition newID : Eff (World DB) string :=
  fun w => let '(r, w') := rand_read 16 w in
           (format_uuid (uuid_bytes (match r with Ok b => b | Err _ => replicate 16 0%N end)), w').

Definition generateSessionToken `{Sha256} : Eff (World DB) (result store_err (string * string)) :=
  func (
    b <- try (rand_read 32) (fun err => Err err) ;;
    let plaintext := hex_encode b in
    gret (Ok (plaintext, Hash plaintext))).
End Random.

Definition extractBearerToken (r : Request) : string :=
  let auth := rq_Authorization r in
  if (7 <? String.length auth) && String.eqb (take_bytes 7 auth) "Bearer "
  then drop_bytes 7 auth else EmptyString.

Definition org_path (publicURL orgID : string) : string :=
  publicURL +:+ "/api/v1/auth/orgs/" +:+ orgID.
Definition oidcRedirectURI (publicURL orgID slug : string) : string :=
  org_path publicURL orgID +:+ "/callback/" +:+ slug.
Definition acsURL (publicURL orgID slug : string) : string :=
  org_path publicURL orgID +:+ "/saml/" +:+ slug +:+ "/acs".
Definition samlMetadataURL (publicURL orgID slug : string) : string :=
  org_path publicURL orgID +:+ "/saml/" +:+ slug +:+ "/metadata".

Definition decrypt (h : SessionHandler) (ciphertext : string) : result store_err string :=
  if str_empty ciphertext then Ok EmptyString
  else match h_cipher h with
       | None => Err (ErrOther "auth: no secret key configured, provider secrets cannot be read")
       | Some dec => match dec ciphertext with
                     | Some s => Ok s
                     | None => Err (ErrOther "crypto: decrypt")
                     end
       end.

Definition oauthProvider (h : SessionHandler) (p : AuthProvider) : result store_err Provider :=
  match decrypt h (ap_ClientSecret p) with
  | Err e => Err e
  | Ok secret =>
      Ok {| op_Name := ap_DisplayName p; op_ClientID := ap_ClientID p; op_ClientSecret := secret;
            op_AuthURL := ap_AuthURL p; op_TokenURL := ap_TokenURL p;
            op_UserinfoURL := ap_UserinfoURL p; op_Scopes := ap_Scopes p |}
  end.

Definition samlProviderFor (p : AuthProvider) (publicURL spKey : string) : SamlProvider :=
  {| sp_IDPEntityID := ap_IDPEntityID p; sp_IDPSSOURL := ap_IDPSSOURL p; sp_IDPCert := ap_IDPCert p;
     sp_SPEntityID := samlMetadataURL publicURL (ap_OrgID p) (ap_Slug p);
     sp_SPCert := ap_SPCert p; sp_SPKey := spKey; sp_SignRequests := ap_SignRequests p;
     sp_NameIDFormat := ap_NameIDFormat p |}.

Definition samlProvider (h : SessionHandler) (p : AuthProvider) : result store_err SamlProvider :=
  match decrypt h (ap_SPKey p) with
  | Err e => Err e
  | Ok key => Ok (samlProviderFor p (h_publicURL h) key)
  end.

Definition safeRedirect (raw : string) : string :=
  if HasPrefix raw "/" && negb (HasPrefix raw "//") then raw else "/".

Definition claimOr (configured fallback : string) : string :=
  if negb (str_empty configured) then configured else fallback.

Definition secureCookies (h : SessionHandler) : bool := HasPrefix (h_publicURL h) "https://".

Definition setSessionCookie (h : SessionHandler) (token : string) (expires : Z) : Cookie :=
  mkCookie sessionCookie token "/" (h_cookieDomain h) (Some expires) 0 true (secureCookies h) "Lax".

Definition clearCookie (h : SessionHandler) (name path : string) : Cookie :=
  mkCookie name EmptyString path (h_cookieDomain h) None (-1) true (secureCookies h) "Lax".

Definition attrString (attrs : gmap string attr) (key : string) : string :=
  match attrs !! key with
  | Some (AString v) => v
  | Some (AStrings (v :: _)) => v
  | _ => EmptyString
  end.

Definition validEmail `{SignInLib} (raw : string) : option string :=
  let email := TrimSpace raw in
  match ParseAddress email with
  | None => None
  | Some address => if negb (String.eqb address email) then None else Some email
  end.

Record completedAuth := mkCompletedAuth {
  ca_Sub : string; ca_Email : string; ca_Name : string; ca_Attributes : gmap string attr
}.

Section Handlers.
Context `{Collation} `{UnicodeCase} `{Sha256} `{SignInLib} `{Saml} `{HttpClient} `{Decoders}
  `{LimitDecoder} `{Regexp}.
Context (h : SessionHandler).
#[local] Abbreviation W := (World AuthDB).

(** The session literal of the three sign-in handlers: [newID], then four
    readings of the clock. *)
Definition new_session (userID hash : string) (r : Request) (provider : string) :
    Go W Reply Session :=
  id <- call newID ;;
  created <- call time_now ;;
  expires <- call time_now ;;
  lastActive <- call time_now ;;
  rotated <- call time_now ;;
  gret {| s_ID := id; s_UserID := userID; s_TokenHash := hash; s_PrevTokenHash := EmptyString;
          s_AuthTokenSeen := false; s_SeenAt := None; s_UserAgent := rq_UserAgent r;
          s_ClientIP := rq_RemoteAddr r; s_RotatedAt := rotated; s_CreatedAt := created;
          s_ExpiresAt := (expires + sessionTTL)%Z; s_LastActiveAt := lastActive;
          s_SAMLSessionIdx := EmptyString; s_SAMLNameIDHash := EmptyString;
          s_AuthProvider := provider |}.

Definition Login (r : Request) (req : option loginRequest) : Eff W Reply :=
  func (
    req <- non_nil req (plain (BadRequest "invalid JSON")) ;;
    return_if (str_empty (lr_Email req) || str_empty (lr_Password req))
              (plain (BadRequest "email and password are required")) ;;;
    u <- try (GetUserByEmail (lr_Email req)) errReply ;;
    u <- non_nil u (plain Unauthorized) ;;
    return_if (str_empty (u_PasswordHash u)) (plain Unauthorized) ;;;
    return_if (u_Disabled u) (plain Forbidden) ;;;
    return_if (negb (CompareHashAndPassword (u_PasswordHash u) (lr_Password req)))
              (plain Unauthorized) ;;;
    tok <- try generateSessionToken errReply ;;
    sess <- new_session (u_ID u) tok.2 r EmptyString ;;
    _ <- try (CreateSession sess) errReply ;;
    gret (mkReply (JSON 200 (LoginResponse tok.1 (u_MustChangePassword u)))
                  (Some (setSessionCookie h tok.1 (s_ExpiresAt sess))))).

Definition discovered (o : Org) : discoveredOrg :=
  mkDiscovered (o_ID o) (o_Name o) (avatarURL h (o_LogoAssetID o)).

(** The loop that appends the memberships not yet in [seen]. *)
Fixpoint append_unseen (seen : gset string) (ms : list OrgMembershipView) : list discoveredOrg :=
  match ms with
  | [] => []
  | m :: ms =>
      if decide (o_ID (mv_Org m) ∈ seen) then append_unseen seen ms
      else discovered (mv_Org m) :: append_unseen ({[o_ID (mv_Org m)]} ∪ seen) ms
  end.

Definition DiscoverOrgs (r : Request) (req : option string) : Eff W Reply :=
  func (
    req <- non_nil req (plain (BadRequest "invalid JSON")) ;;
    let email := ToLower (TrimSpace req) in
    at_ <- non_nil (LastIndexByte email "@") (plain (BadRequest "a valid email address is required")) ;;
    return_if ((at_ =? 0) || (at_ =? String.length email - 1))
              (plain (BadRequest "a valid email address is required")) ;;;
    now <- call time_now ;;
    n <- try (CountLoginAttempts email (now - discoverWindow)%Z) errReply ;;
    return_if (discoverLimit <=? n) (plain (TooManyRequests "too many attempts, try again later")) ;;;
    _ <- try (RecordLoginAttempt email (rq_RemoteAddr r)) errReply ;;
    byDomain <- try (ListOrgsByDomain (drop_bytes (S at_) email)) errReply ;;
    let seen : gset string := list_to_set (map o_ID byDomain) in
    let orgs := map discovered byDomain in
    u <- try (GetUserByEmail email) errReply ;;
    match u with
    | None => gret (plain (JSON 200 (DiscoveredOrgs orgs)))
    | Some u =>
        memberships <- try (ListOrgsForUser (u_ID u)) errReply ;;
        gret (plain (JSON 200 (DiscoveredOrgs (orgs ++ append_unseen seen memberships))))
    end).

Definition OrgProviders (orgID : string) : Eff W Reply :=
  func (
    providers <- try (ListEnabledAuthProviders orgID) errReply ;;
    gret (plain (JSON 200 (ProvidersResponse
      (map (fun p => mkProviderInfo (ap_ID p) (ap_Slug p) (ap_Kind p) (ap_DisplayName p)
                       (avatarURL h (Some (ap_IconAssetID p)))
                       ("/api/v1/auth/orgs/" +:+ ap_OrgID p +:+ "/login/" +:+ ap_Slug p))
           providers))))).

Definition loadProvider (orgID slug : string) : Eff W (result store_err AuthProvider) :=
  func (
    prov <- try (GetAuthProviderBySlug orgID slug) (fun err => Err err) ;;
    prov <- non_nil prov (Err ErrNotFound) ;;
    return_if (negb (ap_Enabled prov)) (Err ErrNotFound) ;;;
    gret (Ok prov)).

Definition ret_result {S A} (x : result store_err A) : Eff S (result store_err A) := fun s => (x, s).

(** [switch prov.Kind]: the redirect, with the nonce or the request id to keep. *)
Definition begin_login (prov : AuthProvider) (state : string) : Go W Reply (string * string * string) :=
  if String.eqb (ap_Kind prov) KindOIDC then
    nonce <- try generateSessionToken errReply ;;
    p <- try (ret_result (oauthProvider h prov)) errReply ;;
    gret (AuthCodeURL p (oidcRedirectURI (h_publicURL h) (ap_OrgID prov) (ap_Slug prov)) state nonce.1,
          nonce.1, EmptyString)
  else if String.eqb (ap_Kind prov) KindSAML then
    p <- try (ret_result (samlProvider h prov)) errReply ;;
    match AuthnRequest p (acsURL (h_publicURL h) (ap_OrgID prov) (ap_Slug prov)) state with
    | None => greturn (errReply (ErrOther "saml: build authn request"))
    | Some (url, requestID) => gret (url, EmptyString, requestID)
    end
  else greturn (errReply (ErrOther "auth: provider has unknown kind")).

Definition InitiateLogin (orgID slug redirect_to : string) : Eff W Reply :=
  func (
    prov <- try (loadProvider orgID slug) errReply ;;
    state <- try generateSessionToken errReply ;;
    id <- call newID ;;
    created <- call time_now ;;
    expires <- call time_now ;;
    rd <- begin_login prov state.1 ;;
    let '(redirect, nonce, requestID) := rd in
    let ls := {| ls_ID := id; ls_State := state.1; ls_OrgID := ap_OrgID prov;
                 ls_ProviderID := ap_ID prov; ls_Nonce := nonce; ls_SAMLRequestID := requestID;
                 ls_RedirectTo := safeRedirect redirect_to; ls_CreatedAt := created;
                 ls_ExpiresAt := (expires + loginStateTTL)%Z |} in
    _ <- try (CreateLoginState ls) errReply ;;
    gret (plain (mkResponse 302 (RedirectTo redirect)))).

(** The reply on the left, or the provider and the consumed state. *)
Definition consumeState (orgID slug state kind : string) : Go W Reply (AuthProvider * LoginState) :=
  return_if (str_empty state) (plain (BadRequest "missing login state")) ;;;
  ls <- try (ConsumeLoginState state) errReply ;;
  ls <- non_nil ls (plain (BadRequest "login state is unknown or expired")) ;;
  prov <- try (loadProvider orgID slug) errReply ;;
  return_if (negb (String.eqb (ls_ProviderID ls) (ap_ID prov)))
            (plain (BadRequest "login state does not belong to this provider")) ;;;
  return_if (negb (String.eqb (ap_Kind prov) kind))
            (plain (BadRequest "login state does not belong to this provider")) ;;;
  gret (prov, ls).

(** Find or, where the provider allows sign-up, create the user of an address. *)
Definition sso_user (prov : AuthProvider) (auth : completedAuth) (email : string) : Go W Reply User :=
  u <- try (GetUserByEmail email) errReply ;;
  match u with
  | Some u => gret u
  | None =>
      return_if (negb (ap_AllowSignUp prov)) (plain Forbidden) ;;;
      let name := if str_empty (ca_Name auth) then email else ca_Name auth in
      id <- call newID ;;
      let u := {| u_ID := id; u_Email := email; u_Name := name; u_Login := email;
                  u_PasswordHash := EmptyString; u_MustChangePassword := false;
                  u_Disabled := false; u_Role := EmptyString; u_AvatarAssetID := None;
                  u_LastSeenAt := None; u_CreatedAt := 0; u_UpdatedAt := 0 |} in
      _ <- try (CreateUser u) errReply ;;
      gret u
  end.

(** Give the user the role the mapping rules resolve to. *)
Definition sso_membership (prov : AuthProvider) (auth : completedAuth) (u : User) : Go W Reply unit :=
  rules <- try (ListRoleMappings (ap_ID prov)) errReply ;;
  role <- try (fun w => (Resolve fmt_v rules (ca_Attributes auth) (ap_DefaultRole prov), w))
              (fun _ => errReply (ErrOther "rolemap")) ;;
  existingMember <- try (GetMember (u_ID u) (ap_OrgID prov)) errReply ;;
  (match existingMember with
   | Some _ => gret tt
   | None =>
       full <- call (seatLimitReached (h_enterprise h) (ap_OrgID prov) 403) ;;
       match full with
       | Some resp => greturn (plain resp)
       | None => gret tt
       end
   end) ;;;
  try (UpsertMember (member_row (u_ID u) (ap_OrgID prov) role "sso" 0 0)) errReply.

Definition completeLogin (r : Request) (prov : AuthProvider) (ls : LoginState)
    (auth : completedAuth) : Go W Reply Reply :=
  return_if (str_empty (ca_Email auth))
            (plain (BadRequest "the provider returned no email address")) ;;;
  email <- non_nil (validEmail (ca_Email auth))
                   (plain (BadRequest "the provider returned an invalid email address")) ;;
  return_if (negb (EmailAllowed prov email)) (plain Forbidden) ;;;
  u <- sso_user prov auth email ;;
  return_if (u_Disabled u) (plain Forbidden) ;;;
  sso_membership prov auth u ;;;
  (if negb (str_empty (ca_Sub auth))
   then try (UpsertAuthIdentity (mkAuthIdentity (u_ID u) (ap_ID prov) (ca_Sub auth))) errReply
   else gret tt) ;;;
  tok <- try generateSessionToken errReply ;;
  sess <- new_session (u_ID u) tok.2 r (ap_DisplayName prov) ;;
  _ <- try (CreateSession sess) errReply ;;
  gret (mkReply (mkResponse 302 (RedirectTo (frontendBase h +:+ ls_RedirectTo ls)))
                (Some (setSessionCookie h tok.1 (s_ExpiresAt sess)))).

Definition OIDCCallback (r : Request) (orgID slug state code : string) : Eff W Reply :=
  func (
    ps <- consumeState orgID slug state KindOIDC ;;
    let '(prov, ls) := ps in
    return_if (str_empty code) (plain (BadRequest "missing authorization code")) ;;;
    p <- try (ret_result (oauthProvider h prov)) errReply ;;
    tok <- try (fun w => (Exchange p code (oidcRedirectURI (h_publicURL h) (ap_OrgID prov) (ap_Slug prov)), w))
               (fun _ => errReply (ErrOther "oauth: exchange")) ;;
    claims <- try (fun w => (MergedClaims p tok (ls_Nonce ls), w))
                  (fun _ => errReply (ErrOther "oauth: claims")) ;;
    completeLogin r prov ls
      {| ca_Sub := claimString claims (claimOr (ap_SubClaim prov) "sub");
         ca_Email := claimString claims (claimOr (ap_EmailClaim prov) "email");
         ca_Name := claimString claims (claimOr (ap_NameClaim prov) "name");
         ca_Attributes := claims |}).

Definition SAMLACS (r : Request) (orgID slug : string) (form : option acsForm) : Eff W Reply :=
  func (
    form <- non_nil form (plain (BadRequest "invalid ACS form")) ;;
    ps <- consumeState orgID slug (af_RelayState form) KindSAML ;;
    let '(prov, ls) := ps in
    p <- try (ret_result (samlProvider h prov)) errReply ;;
    id <- non_nil (ValidateResponse p (acsURL (h_publicURL h) (ap_OrgID prov) (ap_Slug prov)) form
                                    (ls_SAMLRequestID ls))
                  (errReply (ErrOther "saml: validate response")) ;;
    email <- (if negb (str_empty (ap_EmailAttribute prov)) then
                let email := attrString (si_Attributes id) (ap_EmailAttribute prov) in
                return_if (str_empty email)
                  (plain (BadRequest "configured email attribute was not returned by the SAML provider")) ;;;
                gret email
              else gret (si_NameID id)) ;;
    completeLogin r prov ls
      {| ca_Sub := si_NameID id; ca_Email := email;
         ca_Name := attrString (si_Attributes id) (claimOr (ap_NameAttribute prov) "displayName");
         ca_Attributes := si_Attributes id |}).

Definition SAMLMetadata (orgID slug : string) : Eff W Reply :=
  func (
    prov <- try (loadProvider orgID slug) errReply ;;
    return_if (negb (String.eqb (ap_Kind prov) KindSAML)) (errReply ErrNotFound) ;;;
    p <- try (ret_result (samlProvider h prov)) errReply ;;
    out <- non_nil (SPMetadata p (acsURL (h_publicURL h) (ap_OrgID prov) (ap_Slug prov))
                                 (samlMetadataURL (h_publicURL h) (ap_OrgID prov) (ap_Slug prov)))
                   (errReply (ErrOther "saml: metadata")) ;;
    gret (plain (mkResponse 200 (Json (MetadataXML out))))).

Definition Logout (r : Request) : Eff W Reply :=
  func (
    let bearer := extractBearerToken r in
    let token := if str_empty bearer then default EmptyString (rq_Cookie r) else bearer in
    let done_ := mkReply (mkResponse 204 NoContent) (Some (clearCookie h sessionCookie "/")) in
    return_if (str_empty token) done_ ;;;
    sess <- try (GetSessionByToken (Hash token)) (fun _ => done_) ;;
    sess <- non_nil sess done_ ;;
    _ <- call (DeleteSession (s_ID sess)) ;;
    gret done_).

Definition Me (ctx : option Principal) : Eff W Reply :=
  func (
    p <- non_nil ctx (plain Unauthorized) ;;
    if String.eqb (p_Kind p) PrincipalServiceAccount then
      sa <- try (GetServiceAccount (p_ServiceAccountID p)) errReply ;;
      sa <- non_nil sa (errReply ErrNotFound) ;;
      gret (plain (JSON 200 (MeResponse
        (mkMe (sa_ID sa) (sa_OrgID sa) EmptyString (sa_Name sa) EmptyString "service_account"
              EmptyString EmptyString (avatarURL h (sa_AvatarAssetID sa))))))
    else
      u <- try (GetUser (p_UserID p)) errReply ;;
      u <- non_nil u (errReply ErrNotFound) ;;
      gret (plain (JSON 200 (MeResponse
        (mkMe (p_UserID p) EmptyString (u_Email u) (u_Name u) (u_Login u) "user" (u_Role u)
              (p_AuthProvider p) (avatarURL h (u_AvatarAssetID u))))))).

Definition my_org (o : Org) (role : string) : myOrg :=
  mkMyOrg (o_ID o) (o_Name o) (avatarURL h (o_LogoAssetID o)) role (o_OnboardingDone o).

Definition MyOrgs (ctx : option Principal) : Eff W Reply :=
  func (
    p <- non_nil ctx (plain Unauthorized) ;;
    if String.eqb (p_Kind p) PrincipalServiceAccount then
      sa <- try (GetServiceAccount (p_ServiceAccountID p)) errReply ;;
      sa <- non_nil sa (errReply ErrNotFound) ;;
      o <- try (GetOrg (sa_OrgID sa)) errReply ;;
      o <- non_nil o (errReply ErrNotFound) ;;
      gret (plain (JSON 200 (MyOrgsResponse
        [mkMyOrg (o_ID o) (o_Name o) (avatarURL h (o_LogoAssetID o)) EmptyString false])))
    else
      return_if (negb (String.eqb (p_Kind p) PrincipalUser)) (plain Unauthorized) ;;;
      if p_IsServerAdmin p then
        all <- try ListOrgs errReply ;;
        gret (plain (JSON 200 (MyOrgsResponse (map (fun o => my_org o RoleAdmin) all))))
      else
        memberships <- try (ListOrgsForUser (p_UserID p)) errReply ;;
        gret (plain (JSON 200 (MyOrgsResponse
          (map (fun m => my_org (mv_Org m) (mv_Role m)) memberships))))).

Definition SessionToken (r : Request) (ctx : option Principal) : Eff W Reply :=
  func (
    p <- non_nil ctx (plain Unauthorized) ;;
    return_if (negb (String.eqb (p_Kind p) PrincipalUser)) (plain Unauthorized) ;;;
    tok <- try generateSessionToken errReply ;;
    sess <- new_session (p_UserID p) tok.2 r (p_AuthProvider p) ;;
    _ <- try (CreateSession sess) errReply ;;
    gret (plain (JSON 200 (SessionTokenResponse tok.1 (s_ExpiresAt sess))))).
End Handlers.

(** ** Lemmas *)

Lemma newID_db {DB} (w : World DB) : w_db (newID w).2 = w_db w.
Proof.
  unfold newID. pose proof (rand_read_db 16 w) as Hd. by destruct (rand_read 16 w).
Qed.

Section TokenLemmas.
Context `{Sha256} {DB : Type}.

Lemma generateSessionToken_spec (w : World DB) :
  let '(r, w') := generateSessionToken w in
  w_db w' = w_db w /\ w_clock w' = w_clock w /\ forall p h, r = Ok (p, h) -> h = Hash p.
Proof.
  unfold generateSessionToken. apply wp_let. wp_step.
  pose proof (rand_read_db 32 w) as Hd. pose proof (rand_read_clock 32 w) as Hc.
  destruct (rand_read 32 w) as [[b|e] w1]; cbn in *; [|done].
  split_and!; [done|done|]. by intros p h [= <- <-].
Qed.
End TokenLemmas.

Section StoreLemmas.
Context `{Sha256}.

Lemma new_session_spec uid hash r provider (Qr : Reply -> World AuthDB -> Prop) w :
  wp (new_session uid hash r provider) Qr
     (fun s w' => w_db w' = w_db w /\ (w_clock w <= w_clock w')%Z /\
        s_UserID s = uid /\ s_TokenHash s = hash /\ s_PrevTokenHash s = EmptyString /\
        s_AuthProvider s = provider /\ (w_clock w + sessionTTL <= s_ExpiresAt s)%Z /\
        (s_ExpiresAt s <= w_clock w' + sessionTTL)%Z) w.
Proof.
  unfold new_session. wp_step.
  pose proof (newID_db w) as Hd. assert (w_clock (newID w).2 = w_clock w) as Hc.
  { unfold newID, rand_read. by destruct (16 <=? _). }
  destruct (newID w) as [id w0]. cbn in *. wp_step.
  pose proof (time_now_db w0). pose proof (time_now_clock w0). destruct (time_now w0) as [t1 w1]; cbn in *. wp_step.
  pose proof (time_now_db w1). pose proof (time_now_clock w1). destruct (time_now w1) as [t2 w2]; cbn in *. wp_step.
  pose proof (time_now_db w2). pose proof (time_now_clock w2). destruct (time_now w2) as [t3 w3]; cbn in *. wp_step.
  pose proof (time_now_db w3). pose proof (time_now_clock w3). destruct (time_now w3) as [t4 w4]; cbn in *. wp_step.
  change (sessionTTL) with 2592000000000000%Z. cbn [s_ExpiresAt s_UserID s_TokenHash s_PrevTokenHash s_AuthProvider].
  split_and!; try done; try congruence; intuition lia.
Qed.

Lemma CreateSession_spec s w :
  let '(r, w') := CreateSession s w in
  match r with
  | Ok _ => exists now, w_db w' = set_sessions (w_db w)
                          (<[s_ID s := stamp_session s now]> (sessions (w_db w))) /\
                        sessions (w_db w) !! s_ID s = None /\
                        forall k x, sessions (w_db w) !! k = Some x -> s_TokenHash x <> s_TokenHash s
  | Err _ => w_db w' = w_db w
  end.
Proof.
  unfold CreateSession. apply wp_let. wp_step.
  pose proof (time_now_db w) as Hd. destruct (time_now w) as [now w1]. cbn in Hd |- *. wp_step.
  destruct (db_op _ w1) as [r w2] eqn:E. cbn.
  apply db_op_cases in E as [[-> ->]|(d & Hins & ->)]; [done|].
  unfold insert_session in Hins. rewrite Hd in Hins.
  destruct (_ || _) eqn:Eg; simplify_eq; [done|].
  bool_to_prop. exists now. cbn in *. split_and!; [done| |].
  - by apply found_false.
  - intros k x Hx. rewrite exists_row_false in *. by apply String.eqb_neq; eauto.
Qed.
End StoreLemmas.

(** ** Properties *)

Section Theorems.
Context `{Collation} `{UnicodeCase} `{Sha256} `{SignInLib} `{Saml} `{HttpClient} `{Decoders}
  `{LimitDecoder} `{Regexp}.
Context (h : SessionHandler).

(** The principal of a user's session without server-admin rights. *)
Definition user_principal (uid provider : string) : Principal :=
  {| p_Kind := PrincipalUser; p_UserID := uid; p_OrgID := EmptyString; p_IsServerAdmin := false;
     p_ServiceAccountID := EmptyString; p_Scopes := []; p_AuthProvider := provider |}.

(** The session created for [token]: fresh, of that user, good for 30 days. *)
Definition opens_session (d d' : AuthDB) (t : Z) (uid token : string) : Prop :=
  exists s, sessions d !! s_ID s = None /\ d' = set_sessions d (<[s_ID s := s]> (sessions d)) /\
    s_UserID s = uid /\ s_TokenHash s = Hash token /\ s_PrevTokenHash s = EmptyString /\
    (forall k x, sessions d !! k = Some x -> s_TokenHash x <> s_TokenHash s) /\
    (t + sessionTTL <= s_ExpiresAt s)%Z.

Lemma opens_session_grants d d' t uid token t' :
  opens_session d d' t uid token -> (t' < t + sessionTTL)%Z ->
  exists prov, session_grants d' t' token (user_principal uid prov).
Proof.
  intros (s & _ & -> & <- & Hh & _ & _ & Hle) Ht. exists (s_AuthProvider s), (s_ID s), s. cbn.
  rewrite lookup_insert_eq. split_and!; [done|lia|by left|done..].
Qed.

Lemma create_session_opens s w now w' token uid :
  w_db w' = set_sessions (w_db w) (<[s_ID s := stamp_session s now]> (sessions (w_db w))) ->
  sessions (w_db w) !! s_ID s = None -> s_UserID s = uid -> s_TokenHash s = Hash token ->
  s_PrevTokenHash s = EmptyString ->
  (forall k x, sessions (w_db w) !! k = Some x -> s_TokenHash x <> s_TokenHash s) ->
  forall t, (t + sessionTTL <= s_ExpiresAt s)%Z ->
  opens_session (w_db w) (w_db w') t uid token.
Proof. intros Hdb Hn Hu Hh Hp Hx t Ht. exists (stamp_session s now). cbn. by split_and!. Qed.

Lemma Login_spec r req w :
  let '(rep, w') := Login h r req w in
  match rp_cookie rep with
  | Some c =>
      exists rq k u, req = Some rq /\ users (w_db w) !! k = Some u /\ u_Email u = lr_Email rq /\
        u_Disabled u = false /\ CompareHashAndPassword (u_PasswordHash u) (lr_Password rq) = true /\
        rp_resp rep = JSON 200 (LoginResponse (ck_Value c) (u_MustChangePassword u)) /\
        opens_session (w_db w) (w_db w') (w_clock w) (u_ID u) (ck_Value c) /\
        forall t, (t < w_clock w + sessionTTL)%Z ->
          exists prov, session_grants (w_db w') t (ck_Value c) (user_principal (u_ID u) prov)
  | None => w_db w' = w_db w /\ status (rp_resp rep) <> 200%Z
  end.
Proof.
  assert (forall e, status (rp_resp (errReply e)) <> 200%Z) as Herr by (by intros []).
  unfold Login. apply wp_let. wp_step. split; [by intros ->|]. intros rq ->.
  wp_step. split; [by intros _|intros _].
  wp_step. destruct (GetUserByEmail (lr_Email rq) w) as [[ou|e] w1] eqn:E1;
    pose proof (db_read_db _ _ _ _ E1) as Hd1; pose proof (db_op_clock _ _ _ _ E1) as Hc1;
    [|by split; [|apply Herr]].
  apply db_read_ok in E1 as [Hou _].
  wp_step. split; [by intros _|]. intros u ->. symmetry in Hou.
  apply select_one_Some in Hou as [[k Hk] Hem]. apply String.eqb_eq in Hem.
  wp_step. split; [by intros _|intros _]. wp_step. split; [by intros _|intros Hdis].
  wp_step. split; [by intros _|]. intros Hpw. apply negb_false_iff in Hpw.
  wp_step. pose proof (generateSessionToken_spec w1) as Htok.
  destruct (generateSessionToken w1) as [[[p hash]|e] w2] eqn:E2; destruct Htok as (Hd2 & Hc2 & Hh);
    [|split; [congruence|apply Herr]].
  wp_step. eapply wp_mono; [apply new_session_spec|intros ? ? HQ; exact HQ|]. cbn.
  intros s w3 (Hd3 & Hc3 & Hu & Hth & Hprev & _ & Hexp & _).
  wp_step. pose proof (CreateSession_spec s w3) as Hcs.
  destruct (CreateSession s w3) as [[[]|e] w4]; wp_step;
    [|split; [cbn in Hcs; congruence|apply Herr]].
  destruct Hcs as (now & Hd4 & Hfresh & Huniq). cbn.
  assert (w_db w3 = w_db w) as Hd by congruence. rewrite Hd in Hd4, Hfresh, Huniq.
  assert (opens_session (w_db w) (w_db w4) (w_clock w) (u_ID u) p) as Hopen.
  { eapply create_session_opens; [exact Hd4|done|done| |done|done|lia]. by rewrite Hth, (Hh p hash). }
  exists rq, k, u. split_and!; try done. intros t Ht. by eapply opens_session_grants.
Qed.

(** The user of the address of a request, enabled and with that password. *)
Definition right_password (d : AuthDB) (rq : loginRequest) (u : User) : Prop :=
  lr_Email rq <> "" /\ lr_Password rq <> "" /\ users d !! u_ID u = Some u /\ u_Email u = lr_Email rq /\
  (forall k x, users d !! k = Some x -> u_Email x = lr_Email rq -> x = u) /\
  u_PasswordHash u <> "" /\ u_Disabled u = false /\ CompareHashAndPassword (u_PasswordHash u) (lr_Password rq) = true.
(** The token and the id the random source yields next. *)
Definition next_token (w : World AuthDB) : string := hex_encode (take 32 (w_entropy w)).
Definition next_id (w : World AuthDB) : string := format_uuid (uuid_bytes (take 16 (drop 32 (w_entropy w)))).
(** No statement fails, the random source does not run dry, and what it yields is not in use. *)
Definition can_sign_in (w : World AuthDB) : Prop :=
  w_faults w = [] /\ 48 <= length (w_entropy w) /\ sessions (w_db w) !! next_id w = None /\
  forall k s, sessions (w_db w) !! k = Some s -> s_TokenHash s <> Hash (next_token w).

Lemma db_op_runs {DB A} (f : Z -> DB -> result store_err A * DB) (w : World DB) :
  w_faults w = [] -> db_op f w = let '(a, d) := f (w_clock w) (w_db w) in (a, with_db w d).
Proof. intros Hf. unfold db_op. rewrite Hf. destruct (f _ _) as [a d]. by destruct w; cbn in *; subst. Qed.
Lemma time_now_faults {DB} (w : World DB) : w_faults (time_now w).2 = w_faults w.
Proof. unfold time_now. by destruct (w_ticks w). Qed.
Lemma session_token_drawn {DB} (w : World DB) :
  32 <= length (w_entropy w) ->
  exists w1, generateSessionToken w = (Ok (hex_encode (take 32 (w_entropy w)), Hash (hex_encode (take 32 (w_entropy w)))), w1) /\
    w_db w1 = w_db w /\ w_faults w1 = w_faults w /\ w_entropy w1 = drop 32 (w_entropy w).
Proof.
  intros Hlen%Nat.leb_le. unfold generateSessionToken, func, try, gbind, call, rand_read. rewrite Hlen. by eexists.
Qed.
Lemma newID_runs {DB} (w : World DB) :
  16 <= length (w_entropy w) ->
  exists w1, newID w = (format_uuid (uuid_bytes (take 16 (w_entropy w))), w1) /\ w_db w1 = w_db w /\ w_faults w1 = w_faults w.
Proof. intros Hlen%Nat.leb_le. unfold newID, rand_read. rewrite Hlen. by eexists. Qed.
Lemma Login_succeeds r rq u w :
  right_password (w_db w) rq u -> can_sign_in w -> exists c, rp_cookie (Login h r (Some rq) w).1 = Some c.
Proof.
  intros (He & Hp & Hu & Hem & Huq & Hph & Hdis & Hcmp) (Hf & Hlen & Hid & Htok).
  apply (wp_func _ (fun rep _ => exists c, rp_cookie rep = Some c)).
  apply str_empty_false in He, Hp, Hph. wp_step. split; [done|]. intros rq' [= <-]. rewrite He, Hp.
  wp_step. split; [done|intros _]. wp_step. unfold GetUserByEmail, db_read. rewrite db_op_runs by done. cbn [fst snd].
  assert (select_one (fun r => String.eqb (u_Email r) (lr_Email rq)) (users (w_db w)) = Some u) as ->.
  { apply (select_one_unique _ _ _ (u_ID u)); [done|by apply String.eqb_eq|]. intros k x Hk Hx%String.eqb_eq. by apply (Huq k). }
  wp_step. split; [done|]. intros u' [= <-]. rewrite Hph, Hdis, Hcmp. do 3 (wp_step; split; [done|intros _]). wp_step.
  replace (with_db w (w_db w)) with w by (by destruct w).
  destruct (session_token_drawn w) as (w1 & -> & D1 & F1 & E1); [lia|]. cbn [fst snd].
  wp_step. unfold new_session. wp_step. destruct (newID_runs w1) as (w2 & Hw2 & D2 & F2); [rewrite E1, length_drop; lia|].
  rewrite Hw2. cbn [fst snd]. rewrite E1. fold (next_id w). clear Hw2.
  do 4 (wp_step;
    match goal with |- context [time_now ?x] =>
      pose proof (time_now_db x); pose proof (time_now_faults x); destruct (time_now x) as [? ?]; cbn [fst snd] in * end).
  wp_step. unfold CreateSession, func, gbind, call.
  match goal with |- context [time_now ?x] =>
    pose proof (time_now_db x); pose proof (time_now_faults x); destruct (time_now x) as [now w7]; cbn [fst snd] in * end.
  rewrite db_op_runs by congruence. assert (w_db w7 = w_db w) as -> by congruence. unfold insert_session. cbn.
  rewrite Hid, Hu. cbn. rewrite (proj2 (exists_row_false _ _)); [cbn; by eexists|].
  intros k s Hk. apply String.eqb_neq. cbn. by apply (Htok k).
Qed.

(** (C4) Password sign-in.  A cookie is set exactly with a 200 reply; it is the
    reply's token, the password matches an enabled user with that address, and
    the only change to the tables is one new session of that user that
    authenticates the token for 30 days.  Any other reply changes nothing.  Conversely
    the user of the address signs in with the right password, as long as no statement
    fails and the token drawn is a new one. *)
Theorem Login_correct r req w :
  (let '(rep, w') := Login h r req w in
   match rp_cookie rep with
   | Some c =>
      exists rq k u, req = Some rq /\ users (w_db w) !! k = Some u /\ u_Email u = lr_Email rq /\
        u_Disabled u = false /\ CompareHashAndPassword (u_PasswordHash u) (lr_Password rq) = true /\
        rp_resp rep = JSON 200 (LoginResponse (ck_Value c) (u_MustChangePassword u)) /\
        opens_session (w_db w) (w_db w') (w_clock w) (u_ID u) (ck_Value c) /\
        forall t, (t < w_clock w + sessionTTL)%Z ->
          exists prov, session_grants (w_db w') t (ck_Value c) (user_principal (u_ID u) prov)
   | None => w_db w' = w_db w /\ status (rp_resp rep) <> 200%Z
   end) /\
  (forall rq u, req = Some rq -> right_password (w_db w) rq u -> can_sign_in w ->
     exists c, rp_cookie (Login h r req w).1 = Some c).
Proof. split; [apply Login_spec|]. intros rq u -> Hu Hw. by apply (Login_succeeds r rq u). Qed.

Lemma ConsumeLoginState_spec state w :
  let '(r, w') := ConsumeLoginState state w in
  match r with
  | Err _ => w_db w' = w_db w
  | Ok o =>
      w_db w' = set_states (w_db w)
                  (delete_where (fun x => String.eqb (ls_State x) state) (states (w_db w))) /\
      forall s, o = Some s -> (exists k, states (w_db w) !! k = Some s) /\ ls_State s = state /\
        (w_clock w <= w_clock w' <= ls_ExpiresAt s)%Z
  end.
Proof.
  unfold ConsumeLoginState. apply wp_let. wp_step.
  destruct (db_op _ w) as [[os|e] w1] eqn:E; pose proof (db_op_clock _ _ _ _ E) as Hc.
  2: { apply db_op_cases in E as [[_ ->]|(d & Hd & _)]; [done|]. cbn in Hd. simplify_eq. }
  apply db_op_ok in E. cbn in E. injection E as Hos Hd.
  wp_step. split; [by intros ->|]. intros s ->.
  wp_step. pose proof (time_now_db w1) as Hd1. pose proof (time_now_clock w1) as Hc1.
  destruct (time_now w1) as [now w2]. cbn in Hd1, Hc1 |- *. wp_step.
  apply select_one_Some in Hos as [[k Hk] Hst]. apply String.eqb_eq in Hst.
  split; intros Hexp; bool_to_prop; (split; [congruence|]); [done|].
  intros s' [= <-]. split_and!; [by exists k|done|lia|lia].
Qed.

Lemma loadProvider_spec orgID slug w :
  let '(r, w') := loadProvider orgID slug w in
  w_db w' = w_db w /\ w_clock w' = w_clock w /\
  match r with
  | Ok p => (exists k, providers (w_db w) !! k = Some p) /\ ap_OrgID p = orgID /\
            ap_Slug p = slug /\ ap_Enabled p = true
  | Err _ => True
  end.
Proof.
  unfold loadProvider. apply wp_let. wp_step.
  destruct (GetAuthProviderBySlug orgID slug w) as [[op|e] w1] eqn:E;
    pose proof (db_op_clock _ _ _ _ E) as Hc; pose proof (db_read_db _ _ _ _ E) as Hd; [|done].
  apply db_read_ok in E as [Hp _]. wp_step. split; [done|]. intros p ->.
  wp_step. split; [done|]. intros Hen. apply negb_false_iff in Hen. symmetry in Hp.
  apply select_one_Some in Hp as [Hk Hm]. by bool_to_prop.
Qed.

(** The acceptance of [state] by the callback of a provider. *)
Definition accepts (orgID slug state kind : string) (w : World AuthDB)
    (x : AuthProvider * LoginState) (w' : World AuthDB) : Prop :=
  let '(prov, ls) := x in
  (exists k, states (w_db w) !! k = Some ls) /\ ls_State ls = state /\
  (w_clock w <= w_clock w' <= ls_ExpiresAt ls)%Z /\
  (exists k, providers (w_db w) !! k = Some prov) /\
  ap_OrgID prov = orgID /\ ap_Slug prov = slug /\ ap_Enabled prov = true /\
  ap_Kind prov = kind /\ ls_ProviderID ls = ap_ID prov /\
  w_db w' = set_states (w_db w) (states (w_db w')) /\
  forall k r, states (w_db w') !! k = Some r -> ls_State r <> state.

Lemma consumeState_spec orgID slug state kind w :
  match consumeState orgID slug state kind w with
  | (inr x, w') => accepts orgID slug state kind w x w'
  | (inl rep, w') => rp_cookie rep = None /\ w_db w' = set_states (w_db w) (states (w_db w'))
  end.
Proof.
  change (wp (consumeState orgID slug state kind)
    (fun rep w' => rp_cookie rep = None /\ w_db w' = set_states (w_db w) (states (w_db w')))
    (accepts orgID slug state kind w) w).
  assert (forall w1, w_db w1 = w_db w -> w_db w1 = set_states (w_db w) (states (w_db w1))) as Hsame
    by (intros w1 ->; by destruct (w_db w)).
  unfold consumeState. wp_step. split; [by auto|intros Hne].
  wp_step. pose proof (ConsumeLoginState_spec state w) as Hc.
  destruct (ConsumeLoginState state w) as [[ols|e] w1]; [|by auto].
  destruct Hc as [Hd Hls].
  assert (forall w2, w_db w2 = w_db w1 -> w_db w2 = set_states (w_db w) (states (w_db w2))) as Hset
    by (intros w2 ->; by rewrite Hd).
  wp_step. split; [intros _; auto|]. intros ls ->. destruct (Hls ls eq_refl) as (Hk & Hst & Hclk).
  wp_step. pose proof (loadProvider_spec orgID slug w1) as Hp.
  destruct (loadProvider orgID slug w1) as [[prov|e] w2]; destruct Hp as (Hd2 & Hc2 & Hp); [|by auto].
  destruct Hp as (Hpk & Ho & Hsl & Hen).
  wp_step. split; [by auto|]. intros Hid. wp_step. split; [by auto|]. intros Hkind.
  bool_to_prop. wp_step. unfold accepts. rewrite Hd in Hpk. rewrite Hc2.
  split_and!; try done; try lia; [by apply Hset|].
  intros k r Hr. rewrite Hd2, Hd in Hr. apply lookup_delete_where in Hr as [_ Hr]. by bool_to_prop.
Qed.

(** (lemma) A login state is good for one callback: it is accepted only if it was
    issued, has not expired and was issued for the very provider of the URL -
    enabled, of that org and slug, and of the protocol of the callback.
    Acceptance removes it from the table, so a second callback with the same
    state is refused; a refusal leaves everything but the state table alone
    and sets no cookie. *)
Theorem consumeState_once orgID slug state kind w :
  match consumeState orgID slug state kind w with
  | (inr x, w') => accepts orgID slug state kind w x w'
  | (inl rep, w') => rp_cookie rep = None /\ w_db w' = set_states (w_db w) (states (w_db w'))
  end.
Proof. apply consumeState_spec. Qed.

(** The user of an address. *)
Definition user_at (d : AuthDB) (email uid : string) : Prop :=
  exists k u, users d !! k = Some u /\ u_ID u = uid /\ u_Email u = email /\ u_Disabled u = false.
(** A user that a sign-up creates: enabled, without a password and without a role in the instance. *)
Definition signed_up (auth : completedAuth) (email id : string) : User :=
  {| u_ID := id; u_Email := email; u_Name := if str_empty (ca_Name auth) then email else ca_Name auth; u_Login := email;
     u_PasswordHash := EmptyString; u_MustChangePassword := false; u_Disabled := false; u_Role := EmptyString;
     u_AvatarAssetID := None; u_LastSeenAt := None; u_CreatedAt := 0; u_UpdatedAt := 0 |}.

(** The rules of a provider, in the order the query returns them. *)
Definition provider_rules (d : AuthDB) (providerID : string) : list Rule :=
  map rr_Rule (order_by rule_order
    (select (fun r => String.eqb (r_ProviderID (rr_Rule r)) providerID) (rules d))).

(** What a callback of [prov] may do to the tables besides the session, for the address it
    asserts: at most one new user, where it allows sign-up; the membership of that user in
    its own org, with the role the rules resolve to; the identity it linked to that user. *)
Record sso_frame (prov : AuthProvider) (auth : completedAuth) (email : string) (d d' : AuthDB) : Prop := {
  sf_users : users d' = users d \/
    ap_AllowSignUp prov = true /\ (forall k u, users d !! k = Some u -> u_Email u <> email) /\
    exists id t, users d !! id = None /\ users d' = <[id := stamp_user (signed_up auth email id) t]> (users d);
  sf_members : members d' = members d \/
    exists uid role m, user_at d' email uid /\
      Resolve fmt_v (provider_rules d (ap_ID prov)) (ca_Attributes auth) (ap_DefaultRole prov) = Ok role /\
      m_UserID m = uid /\ m_OrgID m = ap_OrgID prov /\ m_Role m = role /\ m_Source m = "sso" /\
      members d' = <[(uid, ap_OrgID prov) := m]> (members d);
  sf_identities : identities d' = identities d \/
    exists uid, user_at d' email uid /\
      identities d' = <[(ap_ID prov, ca_Sub auth) := mkAuthIdentity uid (ap_ID prov) (ca_Sub auth)]> (identities d);
  sf_rest : orgs d' = orgs d /\ domains d' = domains d /\ teams d' = teams d /\ team_members d' = team_members d /\
            providers d' = providers d /\ rules d' = rules d /\ states d' = states d /\ attempts d' = attempts d /\
            accounts d' = accounts d /\ tokens d' = tokens d
}.

Lemma sso_frame_refl prov auth email d : sso_frame prov auth email d d.
Proof. by split; [left|left|left|]. Qed.

Lemma CreateUser_spec u w :
  let '(r, w') := CreateUser u w in
  match r with
  | Ok _ => exists now, w_db w' = set_users (w_db w) (<[u_ID u := stamp_user u now]> (users (w_db w))) /\
                        users (w_db w) !! u_ID u = None
  | Err _ => w_db w' = w_db w
  end.
Proof.
  unfold CreateUser. apply wp_let. wp_step.
  pose proof (time_now_db w) as Hd. destruct (time_now w) as [now w1]. cbn in Hd |- *. wp_step.
  destruct (db_op _ w1) as [r w2] eqn:E. cbn.
  apply db_op_cases in E as [[-> ->]|(d & Hins & ->)]; [done|].
  unfold insert_user in Hins. rewrite Hd in Hins.
  destruct (_ || _) eqn:Eg; simplify_eq; [done|].
  bool_to_prop. exists now. split; [done|]. by apply found_false.
Qed.

(** A refusal: no cookie, and the tables as they were at this point. *)
Definition refused (w : World AuthDB) (rep : Reply) (w' : World AuthDB) : Prop :=
  rp_cookie rep = None /\ w_db w' = w_db w.

(** The user is there, or signs up. *)
Lemma sso_user_spec prov auth email w :
  wp (sso_user prov auth email) (refused w)
     (fun u w' => (w_db w' = w_db w /\ (exists k, users (w_db w) !! k = Some u) \/
        ap_AllowSignUp prov = true /\ (forall k x, users (w_db w) !! k = Some x -> u_Email x <> email) /\
        u_Disabled u = false /\ users (w_db w) !! u_ID u = None /\
        exists t, w_db w' = set_users (w_db w) (<[u_ID u := stamp_user (signed_up auth email (u_ID u)) t]> (users (w_db w)))) /\
      u_Email u = email) w.
Proof.
  unfold sso_user. wp_step.
  destruct (GetUserByEmail email w) as [[ou|e] w1] eqn:E;
    pose proof (db_read_db _ _ _ _ E) as Hd; [|by split].
  apply db_read_ok in E as [Hou _]. destruct ou as [u|].
  - symmetry in Hou. apply select_one_Some in Hou as [[k Hk] He]. apply String.eqb_eq in He.
    wp_step. split; [|done]. left. by split; [|exists k].
  - wp_step. split; [intros _; by split|]. intros Hsu. apply negb_false_iff in Hsu.
    wp_step. pose proof (newID_db w1) as Hid. destruct (newID w1) as [id w2]. cbn in Hid |- *. wp_step.
    match goal with |- context [CreateUser ?u w2] =>
      pose proof (CreateUser_spec u w2) as Hcu; destruct (CreateUser u w2) as [[[]|e] w3] end;
      [|split; [done|congruence]].
    destruct Hcu as (now & Hd3 & Hn). wp_step.
    assert (w_db w2 = w_db w) as Hd2 by congruence. rewrite Hd2 in Hd3, Hn. cbn in Hd3, Hn.
    split; [|done]. right. split_and!; [done| |done|done|by exists now].
    intros k x Hx. symmetry in Hou. rewrite select_one_None in Hou. by apply String.eqb_neq, (Hou k).
Qed.

Lemma UpsertMember_spec m w :
  let '(r, w') := UpsertMember m w in
  match r with
  | Ok _ => exists x, w_db w' = set_members (w_db w) (<[(m_UserID m, m_OrgID m) := x]> (members (w_db w))) /\
                      m_UserID x = m_UserID m /\ m_OrgID x = m_OrgID m /\ m_Role x = m_Role m /\ m_Source x = m_Source m
  | Err _ => w_db w' = w_db w
  end.
Proof.
  unfold UpsertMember. destruct (db_op _ w) as [r w'] eqn:E.
  apply db_op_cases in E as [[-> ->]|(d & Hu & ->)]; [done|].
  unfold upsert_member in Hu. destruct (members (w_db w) !! _) as [x|].
  - simplify_eq. eexists. by split.
  - destruct (negb _); simplify_eq; [done|]. eexists. by split.
Qed.

Lemma sso_membership_spec prov auth u w :
  wp (sso_membership h prov auth u) (refused w)
     (fun _ w' => exists role x, Resolve fmt_v (provider_rules (w_db w) (ap_ID prov)) (ca_Attributes auth)
                         (ap_DefaultRole prov) = Ok role /\
        w_db w' = set_members (w_db w) (<[(u_ID u, ap_OrgID prov) := x]> (members (w_db w))) /\
        m_UserID x = u_ID u /\ m_OrgID x = ap_OrgID prov /\ m_Role x = role /\ m_Source x = "sso") w.
Proof.
  unfold sso_membership. wp_step.
  destruct (ListRoleMappings (ap_ID prov) w) as [[rs|e] w1] eqn:E1;
    pose proof (db_read_db _ _ _ _ E1) as Hd1; [|by split].
  apply db_read_ok in E1 as [Hrs _]. wp_step.
  destruct (Resolve fmt_v rs (ca_Attributes auth) (ap_DefaultRole prov)) as [role|e] eqn:Er;
    [|by split].
  wp_step. destruct (GetMember _ _ w1) as [[om|e] w2] eqn:E2;
    pose proof (db_read_db _ _ _ _ E2) as Hd2; [|split; [done|congruence]].
  apply wp_bind. apply (wp_mono _ (refused w) _ (fun _ w3 => w_db w3 = w_db w)).
  - destruct om as [m|]; wp_step; [congruence|].
    pose proof (seatLimitReached_db (B:=session_body) (h_enterprise h) (ap_OrgID prov) 403 w2) as Hd3.
    destruct (seatLimitReached _ _ _ w2) as [[resp|] w3]; cbn in Hd3 |- *; wp_step;
      [split; [done|congruence]|congruence].
  - done.
  - intros _ w3 Hd3. wp_step.
    pose proof (UpsertMember_spec (member_row (u_ID u) (ap_OrgID prov) role "sso" 0 0) w3) as Hu.
    destruct (UpsertMember _ w3) as [[[]|e] w4]; [|split; [done|congruence]].
    destruct Hu as (x & Hd4 & Hx). rewrite Hd3 in Hd4. exists role, x. unfold provider_rules. by rewrite <-Hrs.
Qed.

Lemma UpsertAuthIdentity_spec a w :
  let '(r, w') := UpsertAuthIdentity a w in
  match r with
  | Ok _ => w_db w' = set_identities (w_db w) (<[(ai_ProviderID a, ai_Sub a) := a]> (identities (w_db w)))
  | Err _ => w_db w' = w_db w
  end.
Proof.
  unfold UpsertAuthIdentity. destruct (db_op _ w) as [r w'] eqn:E.
  apply db_op_cases in E as [[-> ->]|(d & Hu & ->)]; [done|].
  destruct (negb _); by simplify_eq.
Qed.

(** What a completed sign-in has checked and done. *)
Definition signed_in (r : Request) (prov : AuthProvider) (ls : LoginState) (auth : completedAuth)
    (w : World AuthDB) (rep : Reply) (c : Cookie) (w' : World AuthDB) : Prop :=
  exists email k u uid role m s,
    validEmail (ca_Email auth) = Some email /\ EmailAllowed prov email = true /\
    users (w_db w') !! k = Some u /\ u_ID u = uid /\ u_Email u = email /\ u_Disabled u = false /\
    Resolve fmt_v (provider_rules (w_db w) (ap_ID prov)) (ca_Attributes auth) (ap_DefaultRole prov)
      = Ok role /\
    members (w_db w') !! (uid, ap_OrgID prov) = Some m /\ m_Role m = role /\
    sessions (w_db w') = <[s_ID s := s]> (sessions (w_db w)) /\
    sessions (w_db w) !! s_ID s = None /\ s_UserID s = uid /\ s_TokenHash s = Hash (ck_Value c) /\
    s_PrevTokenHash s = EmptyString /\
    (forall k x, sessions (w_db w) !! k = Some x -> s_TokenHash x <> s_TokenHash s) /\
    rp_resp rep = mkResponse 302 (RedirectTo (frontendBase h +:+ ls_RedirectTo ls)).

(** The tables after the user and, later, the membership are stored. *)
Lemma sso_frame_user prov auth email u w d1 :
  (d1 = w_db w /\ (exists k, users (w_db w) !! k = Some u) \/
   ap_AllowSignUp prov = true /\ (forall k x, users (w_db w) !! k = Some x -> u_Email x <> email) /\
   u_Disabled u = false /\ users (w_db w) !! u_ID u = None /\
   exists t, d1 = set_users (w_db w) (<[u_ID u := stamp_user (signed_up auth email (u_ID u)) t]> (users (w_db w)))) ->
  u_Email u = email ->
  sso_frame prov auth email (w_db w) d1 /\ (u_Disabled u = false -> user_at d1 email (u_ID u)) /\
  sessions d1 = sessions (w_db w) /\ rules d1 = rules (w_db w) /\ members d1 = members (w_db w) /\
  identities d1 = identities (w_db w).
Proof.
  intros [[-> [k Hk]]|(Hs & Hno & Hdis & Hn & t & ->)] He.
  - split_and!; [apply sso_frame_refl| |done..]. intros Hd. by exists k, u.
  - split_and!; try done.
    + split; [right|by left|by left|done]. split_and!; [done|done|]. by exists (u_ID u), t.
    + intros _. eexists (u_ID u), _. cbn. rewrite lookup_insert_eq. by split_and!.
Qed.

Lemma completeLogin_spec r prov ls auth w :
  let '(rep, w') := func (completeLogin h r prov ls auth) w in
  match rp_cookie rep with
  | Some c => signed_in r prov ls auth w rep c w'
  | None => sessions (w_db w') = sessions (w_db w)
  end /\
  (w_db w' = w_db w \/ exists email, validEmail (ca_Email auth) = Some email /\ EmailAllowed prov email = true /\
     sso_frame prov auth email (w_db w) (w_db w')).
Proof.
  apply wp_let. unfold completeLogin.
  set (P := fun rep w' => _ /\ _ : Prop).
  assert (forall rep w', rp_cookie rep = None -> w_db w' = w_db w -> P rep w') as Href.
  { intros rep w' Hc Hd. split; [by rewrite Hc, Hd|by left]. }
  wp_step. split; [intros _; by apply Href|intros _].
  wp_step. split; [intros _; by apply Href|]. intros email Hemail.
  wp_step. split; [intros _; by apply Href|]. intros Hallow. apply negb_false_iff in Hallow.
  assert (forall rep w', rp_cookie rep = None -> sessions (w_db w') = sessions (w_db w) ->
    sso_frame prov auth email (w_db w) (w_db w') -> P rep w') as Hfr.
  { intros rep w' Hc Hs Hf. split; [by rewrite Hc|]. right. by exists email. }
  wp_step. eapply wp_mono; [apply sso_user_spec|by intros ? ? [? ?]; apply Href|]. cbn beta.
  intros u w1 [Hu He]. destruct (sso_frame_user prov auth email u w _ Hu He) as (Hf1 & Hat & Hs1 & Hr1 & Hm1 & Hi1).
  assert (forall rep w', refused w1 rep w' -> P rep w') as Hlate1.
  { intros rep w' [Hc Hd]. apply Hfr; rewrite ?Hd; done. }
  wp_step. split; [intros _; by apply Hlate1|]. intros Hen. specialize (Hat Hen).
  wp_step. eapply wp_mono; [apply sso_membership_spec|done|]. cbn beta.
  intros _ w2 (role & m & Hres & Hd2 & Hmu & Hmo & Hrole & Hsrc).
  assert (user_at (w_db w2) email (u_ID u)) as Hat2 by (by rewrite Hd2).
  assert (sso_frame prov auth email (w_db w) (w_db w2)) as Hf2.
  { rewrite Hd2. destruct Hf1 as [F1 F2 F3 F4]. split; cbn; [done| |destruct F3 as [F3|(uid & F3 & F3')]; [by left|right; by exists uid]|done].
    right. exists (u_ID u), role, m. rewrite Hm1. unfold provider_rules in Hres |- *. rewrite Hr1 in Hres. by split_and!. }
  assert (sessions (w_db w2) = sessions (w_db w)) as Hs2 by (by rewrite Hd2).
  assert (forall rep w', refused w2 rep w' -> P rep w') as Hlate2.
  { intros rep w' [Hc Hd]. apply Hfr; rewrite ?Hd; done. }
  apply wp_bind. apply (wp_mono _ P _ (fun _ w3 =>
    sso_frame prov auth email (w_db w) (w_db w3) /\ sessions (w_db w3) = sessions (w_db w) /\
    users (w_db w3) = users (w_db w2) /\ members (w_db w3) = members (w_db w2))).
  { destruct (negb (str_empty (ca_Sub auth))); [|by split_and!]. wp_step.
    match goal with |- context [UpsertAuthIdentity ?a w2] =>
      pose proof (UpsertAuthIdentity_spec a w2) as Ha; destruct (UpsertAuthIdentity a w2) as [[[]|e] w3] end; cbn in Ha.
    - rewrite Ha. split_and!; [|done..]. destruct Hf2 as [F1 F2 F3 F4]. split; cbn; [done|exact F2| |done].
      right. exists (u_ID u). split; [done|]. by rewrite Hd2, <-Hi1.
    - by apply Hlate2. }
  { done. }
  intros _ w3 (Hf3 & Hs3 & Hu3 & Hm3).
  assert (forall rep w', rp_cookie rep = None -> w_db w' = w_db w3 -> P rep w') as Hlate.
  { intros rep w' Hc Hd. apply Hfr; rewrite ?Hd; done. }
  wp_step. pose proof (generateSessionToken_spec w3) as Htok.
  destruct (generateSessionToken w3) as [[[p hash]|e] w4]; destruct Htok as (Hd4 & _ & Hh);
    [|by apply Hlate].
  wp_step. eapply wp_mono; [apply new_session_spec|intros ? ? HQ; exact HQ|]. cbn beta.
  intros s w5 (Hd5 & _ & Hsu & Hth & Hprev & _).
  wp_step. pose proof (CreateSession_spec s w5) as Hcs.
  destruct (CreateSession s w5) as [[[]|e] w6]; wp_step;
    [|apply Hlate; [done|congruence]].
  destruct Hcs as (now & Hd6 & Hfresh & Huniq).
  assert (w_db w5 = w_db w3) as Hd by congruence. rewrite Hd in Hd6, Hfresh, Huniq. rewrite Hs3 in Hfresh, Huniq.
  split.
  - destruct Hat2 as (k & row & Hk & Hid & Hem & Hdis).
    exists email, k, row, (u_ID u), role, m, (stamp_session s now). rewrite Hd6. cbn.
    rewrite Hs3, Hm3, Hu3. unfold provider_rules in Hres |- *. rewrite Hr1 in Hres.
    split_and!; try done; [|by rewrite Hth, (Hh p hash)]. rewrite Hd2. cbn. apply lookup_insert_eq.
  - right. exists email. split_and!; [done|done|]. rewrite Hd6. destruct Hf3 as [F1 F2 F3 F4]. by split.
Qed.

(** (C3) Completing an SSO sign-in.  A session cookie is set only when the
    asserted address is well-formed and within the provider's allow-list, the
    user of that address is enabled, and the user now has in the provider's
    org exactly the role the mapping rules resolve to; then exactly one session, of
    that user, is created, and without a cookie none.  In every outcome, also when a
    statement fails on the way, nothing else changes in any table but this: where the
    provider allows sign-up and nobody has the address, one user of it is created, enabled,
    with no password and no role in the instance; the membership of the user of the address
    in the provider's own org becomes that role; and the provider's identity is linked to
    that user. *)
Theorem completeLogin_safe r prov ls auth w :
  let '(rep, w') := func (completeLogin h r prov ls auth) w in
  match rp_cookie rep with
  | Some c => signed_in r prov ls auth w rep c w'
  | None => sessions (w_db w') = sessions (w_db w)
  end /\
  (w_db w' = w_db w \/ exists email, validEmail (ca_Email auth) = Some email /\ EmailAllowed prov email = true /\
     sso_frame prov auth email (w_db w) (w_db w')).
Proof. apply completeLogin_spec. Qed.

(** ** The session table in every reachable state *)

(** Keys are ids, no session has a previous hash, token hashes are unique. *)
Definition sessions_ok (d : AuthDB) : Prop :=
  forall k s, sessions d !! k = Some s ->
    s_ID s = k /\ s_PrevTokenHash s = EmptyString /\
    forall k' s', sessions d !! k' = Some s' -> s_TokenHash s' = s_TokenHash s -> k' = k.

(** How a handler may change the session table. *)
Definition sessions_evolve (d d' : AuthDB) : Prop :=
  sessions d' = sessions d \/ (exists id, sessions d' = delete id (sessions d)) \/
  exists s, sessions d' = <[s_ID s := s]> (sessions d) /\ s_PrevTokenHash s = EmptyString /\
    forall k x, sessions d !! k = Some x -> s_TokenHash x <> s_TokenHash s.

Lemma sessions_evolve_ok d d' : sessions_evolve d d' -> sessions_ok d -> sessions_ok d'.
Proof.
  intros [Hs|[[id Hs]|(s & Hs & Hp & Hu)]] Hok k x; rewrite Hs.
  - by apply Hok.
  - intros [Hne Hk]%lookup_delete_Some. destruct (Hok k x Hk) as (Hid & Hpr & Huq).
    split_and!; [done|done|]. intros k' x' [_ Hk']%lookup_delete_Some. eauto.
  - intros [[<- <-]|[Hne Hk]]%lookup_insert_Some.
    + split_and!; [done|done|]. intros k' x'
      [[<- _]|[_ Hk']]%lookup_insert_Some Heq; [done|]. by destruct (Hu k' x' Hk').
    + destruct (Hok k x Hk) as (Hid & Hpr & Huq). split_and!; [done|done|]. intros k' x'
      [[<- <-]|[_ Hk']]%lookup_insert_Some Heq; [|eauto]. by destruct (Hu k x Hk).
Qed.

Lemma opens_session_evolve d d' t uid token :
  opens_session d d' t uid token -> sessions_evolve d d'.
Proof. intros (s & _ & -> & _ & _ & Hp & Hu & _). right. right. by exists s. Qed.

(** The tail shared by the sign-in handlers: at most one new session. *)
Lemma mint_session_evolve uid hash r prov (f : Session -> Reply) w :
  wp (sess <- new_session uid hash r prov ;; _ <- try (CreateSession sess) errReply ;; gret (f sess))
     (fun _ w' => sessions_evolve (w_db w) (w_db w')) (fun _ w' => sessions_evolve (w_db w) (w_db w')) w.
Proof.
  wp_step. eapply wp_mono; [apply new_session_spec|intros ? ? HQ; exact HQ|]. cbn beta.
  intros s w1 (Hd1 & _ & _ & _ & Hprev & _). wp_step.
  pose proof (CreateSession_spec s w1) as Hcs.
  destruct (CreateSession s w1) as [[[]|e] w2]; wp_step; [|left; congruence].
  destruct Hcs as (now & Hd2 & _ & Hu). rewrite Hd1 in Hd2, Hu. right. right.
  exists (stamp_session s now). by rewrite Hd2.
Qed.

Lemma SessionToken_evolve r ctx w : sessions_evolve (w_db w) (w_db (SessionToken r ctx w).2).
Proof.
  apply (wp_func _ (fun _ w' => sessions_evolve (w_db w) (w_db w'))).
  wp_step. split; [by left|]. intros p ->. wp_step. split; [by left|intros _].
  wp_step. pose proof (generateSessionToken_spec w) as Ht.
  destruct (generateSessionToken w) as [[[tok hash]|e] w1]; destruct Ht as (Hd & _); [|left; congruence].
  rewrite <-Hd. apply mint_session_evolve.
Qed.

Lemma Logout_evolve r w : sessions_evolve (w_db w) (w_db (Logout h r w).2).
Proof.
  apply (wp_func _ (fun _ w' => sessions_evolve (w_db w) (w_db w'))).
  wp_step. split; [by left|intros _]. wp_step.
  destruct (GetSessionByToken _ w) as [[os|e] w1] eqn:E; pose proof (db_read_db _ _ _ _ E) as Hd;
    [|left; congruence].
  wp_step. split; [intros _; left; congruence|]. intros s ->. wp_step.
  unfold DeleteSession, db_write. destruct (db_op _ w1) as [r2 w2] eqn:E2. cbn. wp_step.
  apply db_op_cases in E2 as [[_ ->]|(d & Hx & ->)]; [left; congruence|].
  injection Hx as _ <-. cbn. rewrite Hd. right. left. by eexists.
Qed.

Lemma Login_evolve r req w : sessions_evolve (w_db w) (w_db (Login h r req w).2).
Proof.
  pose proof (Login_spec r req w) as Hl. destruct (Login h r req w) as [rep w']. cbn.
  destruct (rp_cookie rep) as [c|]; [|left; by destruct Hl as [-> _]].
  destruct Hl as (? & ? & ? & _ & _ & _ & _ & _ & _ & Ho & _). by eapply opens_session_evolve.
Qed.

Lemma completeLogin_evolve r prov ls auth w :
  wp (completeLogin h r prov ls auth)
     (fun _ w' => sessions_evolve (w_db w) (w_db w')) (fun _ w' => sessions_evolve (w_db w) (w_db w')) w.
Proof.
  pose proof (completeLogin_spec r prov ls auth w) as Hc. unfold wp, func in *.
  destruct (completeLogin h r prov ls auth w) as [[rep|rep] w'];
    destruct Hc as [Hc _]; (destruct (rp_cookie rep) as [c|]; [|by left]);
    destruct Hc as (? & ? & ? & ? & ? & ? & s & Hc); right; right; exists s; by decompose [and] Hc.
Qed.

(** After an accepted state, the rest of a callback. *)
Lemma callback_evolve orgID slug state kind (k : AuthProvider * LoginState -> Go (World AuthDB) Reply Reply) w :
  (forall x w1, w_db w1 = set_states (w_db w) (states (w_db w1)) ->
     wp (k x) (fun _ w' => sessions_evolve (w_db w1) (w_db w'))
              (fun _ w' => sessions_evolve (w_db w1) (w_db w')) w1) ->
  wp (x <- consumeState orgID slug state kind ;; k x)
     (fun _ w' => sessions_evolve (w_db w) (w_db w')) (fun _ w' => sessions_evolve (w_db w) (w_db w')) w.
Proof.
  intros Hk. pose proof (consumeState_spec orgID slug state kind w) as Hc.
  unfold wp, gbind. destruct (consumeState orgID slug state kind w) as [[rep|x] w1].
  - destruct Hc as [_ Hd]. left. by rewrite Hd.
  - assert (w_db w1 = set_states (w_db w) (states (w_db w1))) as Hd by (unfold accepts in Hc; destruct x; tauto).
    specialize (Hk x w1 Hd). assert (sessions (w_db w1) = sessions (w_db w)) as Hs by (by rewrite Hd).
    unfold wp, sessions_evolve in *. rewrite Hs in Hk. by destruct (k x w1) as [[]].
Qed.

Lemma OIDCCallback_evolve r orgID slug state code w :
  sessions_evolve (w_db w) (w_db (OIDCCallback h r orgID slug state code w).2).
Proof.
  apply (wp_func _ (fun _ w' => sessions_evolve (w_db w) (w_db w'))).
  apply callback_evolve. intros [prov ls] w1 _.
  wp_step. split; [by left|intros _]. wp_step. unfold ret_result.
  destruct (oauthProvider h prov) as [p|e]; [|by left]. wp_step.
  destruct (Exchange _ _ _) as [tok|e]; [|by left]. wp_step.
  destruct (MergedClaims _ _ _) as [claims|e]; [|by left]. apply completeLogin_evolve.
Qed.

Lemma SAMLACS_evolve r orgID slug form w :
  sessions_evolve (w_db w) (w_db (SAMLACS h r orgID slug form w).2).
Proof.
  apply (wp_func _ (fun _ w' => sessions_evolve (w_db w) (w_db w'))).
  wp_step. split; [by left|]. intros f ->.
  apply callback_evolve. intros [prov ls] w1 _.
  wp_step. unfold ret_result. destruct (samlProvider h prov) as [p|e]; [|by left].
  wp_step. split; [by left|]. intros id _. apply wp_bind.
  destruct (negb (str_empty (ap_EmailAttribute prov))).
  - wp_step. split; [by left|intros _]. apply completeLogin_evolve.
  - apply wp_ret, completeLogin_evolve.
Qed.

Lemma DiscoverOrgs_evolve r req w : sessions_evolve (w_db w) (w_db (DiscoverOrgs h r req w).2).
Proof.
  apply (wp_func _ (fun _ w' => sessions_evolve (w_db w) (w_db w'))).
  set (Q := fun (_ : Reply) (w' : World AuthDB) => sessions_evolve (w_db w) (w_db w')).
  assert (forall rep w', sessions (w_db w') = sessions (w_db w) -> Q rep w') as HQ by (intros; by left).
  wp_step. split; [by intros; apply HQ|]. intros raw ->. wp_step. split; [by intros; apply HQ|]. intros a Ha.
  wp_step. split; [by intros; apply HQ|intros _]. wp_step.
  pose proof (time_now_db w) as Hd. destruct (time_now w) as [now w1]. cbn in Hd |- *. wp_step.
  destruct (CountLoginAttempts _ _ w1) as [[n|e] w2] eqn:E2; pose proof (db_read_db _ _ _ _ E2) as Hd2;
    [|apply HQ; congruence].
  wp_step. split; [intros; apply HQ; congruence|intros _]. wp_step.
  destruct (RecordLoginAttempt _ _ w2) as [ra w3] eqn:E3.
  assert (sessions (w_db w3) = sessions (w_db w)) as Hs3.
  { apply db_op_cases in E3 as [[_ ->]|(d & Hx & ->)]; [congruence|]. injection Hx as _ <-. cbn. congruence. }
  destruct ra as [[]|e]; [|by apply HQ]. wp_step.
  destruct (ListOrgsByDomain _ w3) as [[l|e] w4] eqn:E4; pose proof (db_read_db _ _ _ _ E4) as Hd4;
    [|apply HQ; congruence]. wp_step.
  destruct (GetUserByEmail _ w4) as [[[u|]|e] w5] eqn:E5; pose proof (db_read_db _ _ _ _ E5) as Hd5;
    wp_step; try (apply HQ; congruence).
  destruct (ListOrgsForUser _ w5) as [[ms|e] w6] eqn:E6; pose proof (db_read_db _ _ _ _ E6) as Hd6;
    wp_step; apply HQ; congruence.
Qed.

Lemma begin_login_same prov state w :
  wp (begin_login h prov state) (fun rep w' => w_db w' = w_db w /\ rp_cookie rep = None)
     (fun _ w' => w_db w' = w_db w /\ w_clock w' = w_clock w) w.
Proof.
  unfold begin_login. destruct (String.eqb _ KindOIDC).
  - wp_step. pose proof (generateSessionToken_spec w) as Ht.
    destruct (generateSessionToken w) as [[n|e] w1]; destruct Ht as (Hd & Hc & _); [|done]. wp_step.
    unfold ret_result. by destruct (oauthProvider h prov).
  - destruct (String.eqb _ KindSAML); [|done]. wp_step. unfold ret_result.
    destruct (samlProvider h prov) as [p|e]; [|done]. by destruct (AuthnRequest _ _ _) as [[url id]|].
Qed.

(** A path on this site: one leading slash. *)
Definition local_path (s : string) : Prop :=
  exists t, s = String "/" t /\ forall u, t <> String "/" u.

Lemma safeRedirect_local raw : local_path (safeRedirect raw).
Proof.
  unfold safeRedirect. destruct (HasPrefix raw "/" && negb (HasPrefix raw "//")) eqn:E.
  - apply andb_true_iff in E as [E1 E2]. apply negb_true_iff in E2.
    apply HasPrefix_iff in E1 as [t ->]. exists t. split; [done|]. intros u ->. cbn in E2. by destruct u.
  - exists EmptyString. by split.
Qed.

Lemma InitiateLogin_spec orgID slug redirect_to w :
  let '(rep, w') := InitiateLogin h orgID slug redirect_to w in
  rp_cookie rep = None /\
  (w_db w' = w_db w \/
   exists ls k prov, status (rp_resp rep) = 302%Z /\
     w_db w' = set_states (w_db w) (<[ls_ID ls := ls]> (states (w_db w))) /\
     states (w_db w) !! ls_ID ls = None /\
     providers (w_db w) !! k = Some prov /\ ap_OrgID prov = orgID /\ ap_Slug prov = slug /\
     ap_Enabled prov = true /\ ls_ProviderID ls = ap_ID prov /\ ls_OrgID ls = orgID /\
     (w_clock w + loginStateTTL <= ls_ExpiresAt ls <= w_clock w' + loginStateTTL)%Z /\
     local_path (ls_RedirectTo ls)).
Proof.
  unfold InitiateLogin. apply wp_let. wp_step.
  pose proof (loadProvider_spec orgID slug w) as Hp.
  destruct (loadProvider orgID slug w) as [[prov|e] w1]; destruct Hp as (Hd1 & Hc1 & Hp);
    [|by split; [|left]].
  destruct Hp as ([k Hk] & Ho & Hsl & Hen). wp_step.
  pose proof (generateSessionToken_spec w1) as Ht.
  destruct (generateSessionToken w1) as [[st|e] w2]; destruct Ht as (Hd2 & Hc2 & _);
    [|split; [done|left; congruence]].
  wp_step. pose proof (newID_db w2) as Hd3. assert (w_clock (newID w2).2 = w_clock w2) as Hc3.
  { unfold newID. pose proof (rand_read_clock 16 w2) as Hx. by destruct (rand_read 16 w2). }
  destruct (newID w2) as [id w3]. cbn in Hd3, Hc3 |- *. wp_step.
  pose proof (time_now_db w3) as Hd4. pose proof (time_now_clock w3) as Hc4.
  destruct (time_now w3) as [t1 w4]. cbn in Hd4, Hc4 |- *. wp_step.
  pose proof (time_now_db w4) as Hd5. pose proof (time_now_clock w4) as Hc5.
  destruct (time_now w4) as [t2 w5]. cbn in Hd5, Hc5 |- *.
  assert (w_db w5 = w_db w) as Hd by congruence.
  apply wp_bind. eapply wp_mono; [apply begin_login_same|cbn|cbn].
  { intros rep w6 [Hd6 Hrep]. split; [done|left; congruence]. }
  intros [[url nonce] reqID] w6 [Hd6 Hc6]. wp_step.
  unfold CreateLoginState. destruct (db_op _ w6) as [r w7] eqn:E.
  pose proof (db_op_clock _ _ _ _ E) as Hc7.
  apply db_op_cases in E as [[-> Hd7]|(d & Hx & Hd7)]; [split; [done|left; congruence]|].
  rewrite Hd6, Hd in Hx. destruct (_ || _) eqn:Eg in Hx; simplify_eq; [by split; [|left]|].
  split; [done|]. right. cbn in *. bool_to_prop.
  match goal with H : set_states _ (<[_ := ?ls]> _) = _ |- _ => exists ls, k, prov; rewrite <-H end.
  cbn. rewrite Hd1 in *.
  split_and!; try done; try lia; [by apply found_false|apply safeRedirect_local].
Qed.

(** (lemma) Starting an SSO sign-in: no cookie and no session; a 302 reply comes
    with exactly one new login state, of an enabled provider of the URL's org
    and slug, valid for ten minutes, whose return path is a path on this site
    - one leading slash, never [//host] - whatever the query asked for. *)
Theorem InitiateLogin_state orgID slug redirect_to w :
  let '(rep, w') := InitiateLogin h orgID slug redirect_to w in
  rp_cookie rep = None /\
  (w_db w' = w_db w \/
   exists ls k prov, status (rp_resp rep) = 302%Z /\
     w_db w' = set_states (w_db w) (<[ls_ID ls := ls]> (states (w_db w))) /\
     states (w_db w) !! ls_ID ls = None /\
     providers (w_db w) !! k = Some prov /\ ap_OrgID prov = orgID /\ ap_Slug prov = slug /\
     ap_Enabled prov = true /\ ls_ProviderID ls = ap_ID prov /\ ls_OrgID ls = orgID /\
     (w_clock w + loginStateTTL <= ls_ExpiresAt ls <= w_clock w' + loginStateTTL)%Z /\
     local_path (ls_RedirectTo ls)).
Proof. apply InitiateLogin_spec. Qed.

Lemma InitiateLogin_evolve orgID slug rd w :
  sessions_evolve (w_db w) (w_db (InitiateLogin h orgID slug rd w).2).
Proof.
  pose proof (InitiateLogin_spec orgID slug rd w) as Hi.
  destruct (InitiateLogin h orgID slug rd w) as [rep w']. cbn. left.
  destruct Hi as [_ [->|(ls & k & prov & _ & -> & _)]]; done.
Qed.

(** One request to a session handler, or a pause in which the environment
    lets time pass and picks the next failures and random bytes. *)
Inductive session_step : World AuthDB -> World AuthDB -> Prop :=
| step_login r req w : session_step w (Login h r req w).2
| step_discover r req w : session_step w (DiscoverOrgs h r req w).2
| step_initiate orgID slug rd w : session_step w (InitiateLogin h orgID slug rd w).2
| step_oidc r orgID slug state code w : session_step w (OIDCCallback h r orgID slug state code w).2
| step_saml r orgID slug form w : session_step w (SAMLACS h r orgID slug form w).2
| step_logout r w : session_step w (Logout h r w).2
| step_token r ctx w : session_step w (SessionToken r ctx w).2
| step_pause w w' : w_db w' = w_db w -> (w_clock w <= w_clock w')%Z -> session_step w w'.

(** (lemma) In every state the session handlers reach from an empty session
    table, sessions are keyed by their ids, no two have the same token hash,
    and none carries a previous hash: a token authenticates at most one
    session. *)
Theorem reachable_sessions_ok w0 w :
  sessions (w_db w0) = ∅ -> rtc session_step w0 w -> sessions_ok (w_db w).
Proof.
  intros Hempty Hr. assert (sessions_ok (w_db w0)) as Hok by (intros k s; by rewrite Hempty).
  clear Hempty. induction Hr as [w|w1 w2 w3 Hs _ IH]; [done|]. apply IH.
  apply (sessions_evolve_ok (w_db w1)); [|done]. destruct Hs.
  - apply Login_evolve.
  - apply DiscoverOrgs_evolve.
  - apply InitiateLogin_evolve.
  - apply OIDCCallback_evolve.
  - apply SAMLACS_evolve.
  - apply Logout_evolve.
  - apply SessionToken_evolve.
  - left. congruence.
Qed.

(** The token a sign-out request presents. *)
Definition logout_token (r : Request) : string :=
  if str_empty (extractBearerToken r) then default EmptyString (rq_Cookie r)
  else extractBearerToken r.

(** (lemma) Sign-out always answers 204 and clears the cookie, and removes at most
    one session, a live one of the presented token.  On a sound session table
    and with no store failure, the token authenticates nobody afterwards. *)
Theorem Logout_revokes r w :
  let '(rep, w') := Logout h r w in
  status (rp_resp rep) = 204%Z /\ option_map ck_Value (rp_cookie rep) = Some EmptyString /\
  (w_db w' = w_db w \/
   exists k s, sessions (w_db w) !! k = Some s /\
     session_live (Hash (logout_token r)) (w_clock w) s = true /\
     w_db w' = set_sessions (w_db w) (delete (s_ID s) (sessions (w_db w)))) /\
  (no_faults w /\ sessions_ok (w_db w) /\ logout_token r <> EmptyString ->
   forall t p, (w_clock w <= t)%Z -> ~ session_grants (w_db w') t (logout_token r) p).
Proof.
  assert (forall d, sessions_ok d -> select_one (session_live (Hash (logout_token r)) (w_clock w)) (sessions d) = None ->
    forall t p, (w_clock w <= t)%Z -> ~ session_grants d t (logout_token r) p) as Hnone.
  { intros d Hok Hn t p Ht (k & s & Hk & Hexp & Hh & _). rewrite select_one_None in Hn.
    specialize (Hn k s Hk). destruct (Hok k s Hk) as (_ & Hprev & _). unfold session_live in Hn.
    destruct Hh as [Hh|[Hh _]]; [|rewrite Hprev in Hh; pose proof (Hash_length (logout_token r)) as Hl;
      by rewrite <-Hh in Hl]. rewrite Hh, String.eqb_refl in Hn. cbn in Hn. bool_to_prop. lia. }
  unfold Logout. apply wp_let. fold (logout_token r). wp_step.
  split; [intros He; apply str_empty_true in He; split_and!; auto; tauto|intros Hne].
  apply str_empty_false in Hne. wp_step.
  destruct (GetSessionByToken (Hash (logout_token r)) w) as [os w1] eqn:E.
  pose proof (db_read_db _ _ _ _ E) as Hd1.
  assert (no_faults w -> no_faults w1 /\
    Ok (select_one (session_live (Hash (logout_token r)) (w_clock w)) (sessions (w_db w))) = os) as Hnf.
  { intros Hw. destruct (db_op_no_faults _ _ _ _ Hw E) as [? Hx]. by simplify_eq. }
  destruct os as [os|e].
  2: { rewrite Hd1. split_and!; auto. intros (Hw & _). by destruct (Hnf Hw). }
  apply db_read_ok in E as [Hos _]. wp_step. split.
  { intros ->. rewrite Hd1. split_and!; auto. intros (_ & Hok & _). by apply Hnone. }
  intros s ->. symmetry in Hos. pose proof Hos as Hsel. apply select_one_Some in Hsel as [[k Hk] Hlive].
  wp_step. unfold DeleteSession, db_write. destruct (db_op _ w1) as [r2 w2] eqn:E2. cbn. wp_step.
  split_and!; [done|done| |].
  - apply db_op_cases in E2 as [[_ ->]|(d & Hx & ->)]; [by left|]. injection Hx as _ <-.
    right. rewrite Hd1. by exists k, s.
  - intros (Hw & Hok & _). destruct (Hnf Hw) as [Hw1 _].
    destruct (db_op_no_faults _ _ _ _ Hw1 E2) as [_ Hx]. injection Hx as _ Hd2.
    intros t p Ht (k' & s' & Hk' & _ & Hh & _). rewrite <-Hd2, Hd1 in Hk'. cbn in Hk'.
    apply lookup_delete_Some in Hk' as [Hne' Hk'].
    destruct (Hok k s Hk) as (Hid & Hp & Huq). destruct (Hok k' s' Hk') as (_ & Hp' & _).
    pose proof (Hash_length (logout_token r)) as Hlen.
    unfold session_live in Hlive. rewrite Hp in Hlive. cbn in Hlive. rewrite orb_false_r in Hlive.
    bool_to_prop. destruct Hh as [Hh|[Hh _]]; [|rewrite Hp' in Hh; by rewrite <-Hh in Hlen].
    rewrite Hid in Hne'. apply Hne'. symmetry. apply (Huq k' s' Hk'). congruence.
Qed.

#[local] Arguments Nat.leb : simpl never.

(** (lemma) The discovery limit: an answer with organizations means fewer than 20
    attempts for the address in the last 15 minutes, and one more attempt is
    recorded; with 20 or more the answer is 429 and nothing is recorded.  No
    other table ever changes. *)
Theorem DiscoverOrgs_limit r req w :
  let '(rep, w') := DiscoverOrgs h r req w in
  w_db w' = set_attempts (w_db w) (attempts (w_db w')) /\
  let recent email t := count_attempts email (t - discoverWindow) (attempts (w_db w)) in
  (status (rp_resp rep) = 200%Z -> exists raw t, req = Some raw /\ (w_clock w <= t)%Z /\
     recent (ToLower (TrimSpace raw)) t < discoverLimit /\
     attempts (w_db w') =
       mkAttempt (ToLower (TrimSpace raw)) (rq_RemoteAddr r) t :: attempts (w_db w)) /\
  (status (rp_resp rep) = 429%Z -> exists raw t, req = Some raw /\ (w_clock w <= t)%Z /\
     discoverLimit <= recent (ToLower (TrimSpace raw)) t /\ w_db w' = w_db w).
Proof.
  assert (forall (rep : Reply) (w' : World AuthDB) (A B : Prop), w_db w' = w_db w ->
    status (rp_resp rep) <> 200%Z -> status (rp_resp rep) <> 429%Z ->
    w_db w' = set_attempts (w_db w) (attempts (w_db w')) /\
    (status (rp_resp rep) = 200%Z -> A) /\ (status (rp_resp rep) = 429%Z -> B)) as Hsame.
  { intros rep w' A B -> ? ?. split_and!; [by destruct (w_db w)|tauto|tauto]. }
  assert (forall e, status (rp_resp (errReply e)) <> 200%Z) as H200 by (by intros []).
  assert (forall e, status (rp_resp (errReply e)) <> 429%Z) as H429 by (by intros []).
  cbn zeta. unfold DiscoverOrgs. apply wp_let.
  wp_step. split; [intros _; by apply Hsame|]. intros raw ->.
  wp_step. split; [intros _; by apply Hsame|]. intros a _.
  wp_step. split; [intros _; by apply Hsame|intros _].
  wp_step. pose proof (time_now_db w) as Hd. pose proof (time_now_clock w) as Hc.
  destruct (time_now w) as [t w1]. cbn in Hd, Hc |- *. wp_step.
  destruct (CountLoginAttempts _ _ w1) as [[n|e] w2] eqn:E2; pose proof (db_read_db _ _ _ _ E2) as Hd2;
    [|apply Hsame; [congruence|done|done]].
  pose proof (db_op_clock _ _ _ _ E2) as Hc2. apply db_read_ok in E2 as [-> _]. rewrite Hd in *.
  wp_step. split.
  { intros Hn. apply Nat.leb_le in Hn. rewrite Hd2. split_and!; [by destruct (w_db w)|done|].
    intros _. exists raw, t. split_and!; [done|lia|done|done]. }
  intros Hn. apply Nat.leb_gt in Hn. wp_step.
  destruct (RecordLoginAttempt _ _ w2) as [[[]|e] w3] eqn:E3.
  2: { apply db_op_cases in E3 as [[_ ?]|(d & Hx & _)]; [apply Hsame; [congruence|done|done]|done]. }
  apply db_write_ok in E3. rewrite Hd2, Hc2 in E3.
  assert (forall (rep : Reply) (w' : World AuthDB), w_db w' = w_db w3 -> status (rp_resp rep) <> 429%Z ->
    w_db w' = set_attempts (w_db w) (attempts (w_db w')) /\
    (status (rp_resp rep) = 200%Z -> exists raw0 t0, Some raw = Some raw0 /\ (w_clock w <= t0)%Z /\
       count_attempts (ToLower (TrimSpace raw0)) (t0 - discoverWindow) (attempts (w_db w)) < discoverLimit /\
       attempts (w_db w') =
         mkAttempt (ToLower (TrimSpace raw0)) (rq_RemoteAddr r) t0 :: attempts (w_db w)) /\
    (status (rp_resp rep) = 429%Z -> exists raw0 t0, Some raw = Some raw0 /\ (w_clock w <= t0)%Z /\
       discoverLimit <= count_attempts (ToLower (TrimSpace raw0)) (t0 - discoverWindow) (attempts (w_db w)) /\
       w_db w' = w_db w)) as Hrec.
  { intros rep w' -> Hne. rewrite E3. cbn. split_and!; [done| |done]. intros _. exists raw, t.
    split_and!; [done|lia|done|]. destruct Hc as [-> _]. done. }
  wp_step. destruct (ListOrgsByDomain _ w3) as [[l|e] w4] eqn:E4; pose proof (db_read_db _ _ _ _ E4) as Hd4;
    [|by apply Hrec]. wp_step.
  destruct (GetUserByEmail _ w4) as [[[u|]|e] w5] eqn:E5; pose proof (db_read_db _ _ _ _ E5) as Hd5;
    wp_step; try (apply Hrec; [congruence|done]).
  destruct (ListOrgsForUser _ w5) as [[ms|e] w6] eqn:E6; pose proof (db_read_db _ _ _ _ E6) as Hd6;
    wp_step; (apply Hrec; [congruence|done]).
Qed.
End Theorems.

Lemma version_digit x : (N.lor (N.land x 15) 64 / 16)%N = 4%N.
Proof.
  change 16%N with (2 ^ 4)%N. rewrite <-N.shiftr_div_pow2, N.shiftr_lor, N.shiftr_land.
  change (N.shiftr 15 4) with 0%N. by rewrite N.land_0_r.
Qed.

Lemma variant_digit x : In (hex_digit (N.lor (N.land x 63) 128 / 16)) ["8"; "9"; "a"; "b"]%char.
Proof.
  change 16%N with (2 ^ 4)%N. rewrite <-N.shiftr_div_pow2, N.shiftr_lor, N.shiftr_land.
  change (N.shiftr 63 4) with (N.ones 2). rewrite N.land_ones. change (N.shiftr 128 4) with 8%N.
  assert (N.shiftr x 4 mod 2 ^ 2 < 4)%N as Hlt by (by apply N.mod_lt).
  revert Hlt. generalize (N.shiftr x 4 mod 2 ^ 2)%N. intros y Hy.
  assert (y = 0 \/ y = 1 \/ y = 2 \/ y = 3)%N as [->|[->|[->| ->]]] by lia; vm_compute; tauto.
Qed.

(** (lemma) Identifiers drawn by [newID] have the form of a version-4 UUID: 36
    bytes, dashes at 8, 13, 18 and 23, version digit 4, variant digit 8 to b -
    whatever the entropy source answers. *)
Theorem newID_uuid {DB} (w : World DB) :
  let id := (newID w).1 in
  String.length id = 36 /\
  map (fun i => String.get i id) [8; 13; 18; 23] = replicate 4 (Some "-"%char) /\
  String.get 14 id = Some "4"%char /\
  exists c, String.get 19 id = Some c /\ In c ["8"; "9"; "a"; "b"]%char.
Proof.
  unfold newID. destruct (rand_read 16 w) as [r w'] eqn:E. cbn [fst].
  assert (length (match r with Ok b => b | Err _ => replicate 16 0%N end) = 16) as Hlen.
  { unfold rand_read in E. destruct (16 <=? length (w_entropy w)) eqn:El; simplify_eq; [|done].
    apply Nat.leb_le in El. rewrite length_take. lia. }
  revert Hlen. generalize (match r with Ok b => b | Err _ => replicate 16 0%N end). clear E r.
  intros b Hlen.
  do 16 (destruct b as [|? b]; [discriminate Hlen|]). destruct b; [|discriminate Hlen]. clear Hlen.
  set (b' := uuid_bytes _). assert (b' = [n; n0; n1; n2; n3; n4; N.lor (N.land n5 15) 64; n6;
    N.lor (N.land n7 63) 128; n8; n9; n10; n11; n12; n13; n14]) as -> by reflexivity.
  unfold format_uuid, hex_encode, hex_byte. cbn -[N.div N.modulo hex_digit N.land N.lor].
  rewrite version_digit. split_and!; [done|done|done|]. eexists. split; [done|].
  apply variant_digit.
Qed.

(** ** Closed instances, for examples *)

Module Demo.
#[export] Instance demo_collation : Collation :=
  {| text_less := by_key (fun s => Z.of_nat (String.length s)); text_lower := map_bytes lower_byte;
     text_less_strict := by_key_strict_weak _ |}.
#[export] Instance demo_case : UnicodeCase := ascii_only_case.
Definition demo_digest (s : string) : list N := take 32 (bytes_of s ++ replicate 32 0%N).
Lemma demo_digest_length s : length (demo_digest s) = 32.
Proof. unfold demo_digest. rewrite length_take, length_app, length_replicate. lia. Qed.
Lemma demo_digest_bytes s : Forall (fun b => (b < 256)%N) (demo_digest s).
Proof.
  apply Forall_take, Forall_app. split; [|by apply Forall_replicate].
  induction s as [|a s IH]; constructor; [apply N_ascii_bounded|done].
Qed.
#[export] Instance demo_sha : Sha256 := Build_Sha256 demo_digest demo_digest_length demo_digest_bytes.
#[export] Instance demo_lib : SignInLib :=
  {| CompareHashAndPassword := String.eqb; ParseAddress := Some; fmt_v := fun _ => EmptyString |}.
#[export] Instance demo_saml : Saml :=
  {| AuthnRequest := fun _ _ _ => None; ValidateResponse := fun _ _ _ _ => None;
     SPMetadata := fun _ _ _ => None |}.
#[export] Instance demo_http : HttpClient := {| http_do := fun _ => None |}.
#[export] Instance demo_decoders : Decoders :=
  {| decode_token := fun _ => None; decode_object := fun _ => None; decode_emails := fun _ => None;
     base64url := Some; url_hostname := Some |}.
#[export] Instance demo_limits : LimitDecoder := {| decode_limits := fun _ => None |}.
#[export] Instance demo_regexp : Regexp := {| regexp_compile := fun _ => None |}.
#[export] Instance demo_uuid : UuidGen := {| uuid_of := hex_encode |}.

Definition demo_handler : SessionHandler :=
  mkSessionHandler None None "https://app.example.com" EmptyString EmptyString None.
Definition ada : User :=
  mkUser "u1" "ada@example.com" "Ada" "ada@example.com" "secret" false false "user" None None 1 1.
Definition empty_db : AuthDB := mkAuthDB ∅ ∅ ∅ ∅ ∅ ∅ ∅ ∅ ∅ ∅ ∅ [] ∅ ∅.
Definition demo_world : World AuthDB :=
  mkWorld (set_users empty_db {[ "u1" := ada ]}) [] 1000 [] (replicate 64 7%N).
Definition demo_request : Request := mkRequest EmptyString None EmptyString "curl" "10.0.0.1".
Definition demo_login := Some (mkLoginRequest "ada@example.com" "secret").

(** The sign-in of the example succeeds. *)
Example demo_login_ok : status (rp_resp (Login demo_handler demo_request demo_login demo_world).1) = 200%Z.
Proof. vm_compute. reflexivity. Qed.

(** Ada signs in. *)
Lemma Login_correct_witness :
  right_password (w_db demo_world) (mkLoginRequest "ada@example.com" "secret") ada /\ can_sign_in demo_world /\
  exists c, rp_cookie (Login demo_handler demo_request demo_login demo_world).1 = Some c.
Proof.
  assert (right_password (w_db demo_world) (mkLoginRequest "ada@example.com" "secret") ada) as Hp.
  { do 2 (split; [discriminate|]). do 2 (split; [reflexivity|]). split; [|split; [discriminate|split; reflexivity]].
    intros k x Hx _. cbn in Hx. apply lookup_singleton_Some in Hx as [_ <-]. reflexivity. }
  assert (can_sign_in demo_world) as Hc.
  { split; [reflexivity|]. split; [vm_compute; lia|]. split; [reflexivity|]. intros k s Hk. discriminate Hk. }
  split_and!; [exact Hp|exact Hc|].
  destruct (Login_correct demo_handler demo_request demo_login demo_world) as [_ Hl]. by apply (Hl _ ada eq_refl).
Defined.

Lemma reachable_sessions_ok_witness :
  sessions (w_db demo_world) = ∅ /\
  sessions_ok (w_db (Login demo_handler demo_request demo_login demo_world).2).
Proof.
  split; [reflexivity|].
  apply (reachable_sessions_ok demo_handler demo_world); [reflexivity|].
  apply rtc_once. apply step_login.
Defined.
End Demo.
