(* ===== verification/Members.v ===== *)
(** * Members: the people of an organization

    Models [internal/api/auth/member.go] over the identity tables: listing,
    adding, editing and removing the members of an org.  bcrypt hashing is an
    argument. *)

From S2P Require Import Prelude GoStrings Effects Table Authz Identity AuthStore.
From S2P Require Import OAuth Enterprise Session.
Set Warnings "-clear-no-such-hyp".

Record memberResponse := mkMemberResponse {
  mr_UserID : string; mr_OrgID : string; mr_Role : string; mr_Source : string;
  mr_Email : string; mr_Name : string; mr_TeamID : option string;
  mr_CreatedAt : Z; mr_UpdatedAt : Z
}.

Definition memberToResponse (m : Member) : memberResponse :=
  mkMemberResponse (m_UserID m) (m_OrgID m) (m_Role m) (m_Source m) (m_Email m) (m_Name m)
                   (m_TeamID m) (m_CreatedAt m) (m_UpdatedAt m).

Record addMemberRequest := mkAddMember {
  am_Name : string; am_Email : string; am_Password : string; am_Role : string
}.
Record updateMemberRequest := mkUpdateMember {
  um_Name : string; um_Email : string; um_Role : string; um_TeamID : string
}.

Inductive member_body : Type :=
| MemberList (l : list memberResponse)
| OneMember (m : memberResponse).

Definition MemberReply : Type := Response member_body.

(** bcrypt refuses passwords of more than 72 bytes. *)
Class PasswordHash := { GenerateFromPassword : string -> option string }.

Section Handlers.
Context `{Collation} `{HttpClient} `{LimitDecoder} `{PasswordHash}.
Context (enterprise : option Client).

Definition List_ (orgID : string) : Eff (World AuthDB) MemberReply :=
  func (
    members <- try (ListMembers orgID) HttpError ;;
    gret (JSON 200 (MemberList (map memberToResponse members)))).

Definition Add (orgID : string) (req : option addMemberRequest) : Eff (World AuthDB) MemberReply :=
  func (
    req <- non_nil req (BadRequest "invalid JSON") ;;
    return_if (str_empty (am_Name req) || str_empty (am_Email req) ||
               str_empty (am_Password req) || str_empty (am_Role req))
              (BadRequest "name, email, password, and role are required") ;;;
    existing <- try (GetUserByEmail (am_Email req)) HttpError ;;
    return_if (found existing) (HttpError ErrConflict) ;;;
    full <- call (seatLimitReached enterprise orgID 409) ;;
    (match full with Some resp => greturn resp | None => gret tt end) ;;;
    hash <- non_nil (GenerateFromPassword (am_Password req)) (HttpError (ErrOther "bcrypt")) ;;
    id <- call newID ;;
    let u := {| u_ID := id; u_Email := am_Email req; u_Name := am_Name req;
                u_Login := am_Email req; u_PasswordHash := hash; u_MustChangePassword := false;
                u_Disabled := false; u_Role := "user"; u_AvatarAssetID := None;
                u_LastSeenAt := None; u_CreatedAt := 0; u_UpdatedAt := 0 |} in
    _ <- try (CreateUser u) HttpError ;;
    let m := member_row id orgID (am_Role req) "manual" 0 0 in
    _ <- try (AddMember m) HttpError ;;
    gret (JSON 201 (OneMember (memberToResponse
      (mkMember id orgID (am_Role req) "manual" (u_Email u) (u_Name u) None 0 0))))).

(** The email is looked up only when it changes; another user's is a conflict. *)
Definition email_clash (userID : string) (req : updateMemberRequest) (u : User) :
    Go (World AuthDB) MemberReply unit :=
  if negb (String.eqb (um_Email req) (u_Email u)) then
    clash <- try (GetUserByEmail (um_Email req)) HttpError ;;
    match clash with
    | Some c => return_if (negb (String.eqb (u_ID c) userID)) (HttpError ErrConflict)
    | None => gret tt
    end
  else gret tt.

Definition UpdateMember (orgID userID : string) (req : option updateMemberRequest) :
    Eff (World AuthDB) MemberReply :=
  func (
    req <- non_nil req (BadRequest "invalid JSON") ;;
    return_if (str_empty (um_Name req) || str_empty (um_Email req) || str_empty (um_Role req))
              (BadRequest "name, email, and role are required") ;;;
    u <- try (GetUser userID) HttpError ;;
    u <- non_nil u (HttpError ErrNotFound) ;;
    email_clash userID req u ;;;
    let u' := mkUser (u_ID u) (um_Email req) (um_Name req) (um_Email req) (u_PasswordHash u)
                     (u_MustChangePassword u) (u_Disabled u) (u_Role u) (u_AvatarAssetID u)
                     (u_LastSeenAt u) (u_CreatedAt u) (u_UpdatedAt u) in
    _ <- try (UpdateUser u') HttpError ;;
    _ <- try (UpdateMemberRole userID orgID (um_Role req) "manual") HttpError ;;
    _ <- try (RemoveUserFromOrgTeams orgID userID) HttpError ;;
    (if negb (str_empty (um_TeamID req))
     then try (AddTeamMember (mkTeamMember (um_TeamID req) userID orgID "member" 0 0)) HttpError
     else gret tt) ;;;
    gret (JSON 200 (OneMember (memberToResponse
      (mkMember userID orgID (um_Role req) "manual" (um_Email req) (um_Name req)
                (if negb (str_empty (um_TeamID req)) then Some (um_TeamID req) else None) 0 0))))).

Definition Remove (orgID userID : string) : Eff (World AuthDB) MemberReply :=
  func (
    _ <- try (RemoveMember userID orgID) HttpError ;;
    gret (mkResponse 204 NoContent)).

(** ** Lemmas *)

Lemma AddMember_spec m w :
  let '(r, w') := AddMember m w in
  match r with
  | Ok _ => exists t, w_db w' = set_members (w_db w)
      (<[(m_UserID m, m_OrgID m) := member_row (m_UserID m) (m_OrgID m) (m_Role m) (m_Source m) t t]>
         (members (w_db w))) /\ members (w_db w) !! (m_UserID m, m_OrgID m) = None
  | Err _ => w_db w' = w_db w
  end.
Proof.
  unfold AddMember. destruct (db_op _ w) as [r w'] eqn:E.
  apply db_op_cases in E as [[-> ->]|(d & Hu & ->)]; [done|].
  destruct (_ || _) eqn:Eg; simplify_eq; [done|]. bool_to_prop. eexists. split; [done|].
  by apply found_false.
Qed.

(** Emails of all users; what no statement of the member handlers writes. *)
Definition emails (d : AuthDB) : gmap string string := u_Email <$> users d.

Lemma UpdateUser_emails u w : emails (w_db (UpdateUser u w).2) = emails (w_db w).
Proof.
  unfold UpdateUser, emails. destruct (db_op _ w) as [r w'] eqn:E. cbn.
  apply db_op_cases in E as [[_ ->]|(d & Hu & ->)]; [done|].
  destruct (_ && _); simplify_eq; [done|]. cbn. apply map_eq. intros k. rewrite !lookup_fmap.
  destruct (decide (k = u_ID u)) as [->|Hne]; [|by rewrite lookup_alter_ne].
  rewrite lookup_alter_eq. by destruct (users (w_db w) !! u_ID u).
Qed.
End Handlers.

Section Theorems.
Context `{Collation} `{HttpClient} `{LimitDecoder} `{PasswordHash}.
Context (enterprise : option Client).

Lemma HttpError_not_created {B} e : status (HttpError (B:=B) e) <> 201%Z /\ status (HttpError (B:=B) e) <> 200%Z.
Proof. by destruct e. Qed.

(** The row [Add] inserts for a request. *)
Definition added_user (rq : addMemberRequest) (id : string) (u : User) : Prop :=
  u_ID u = id /\ u_Email u = am_Email rq /\ u_Login u = am_Email rq /\ u_Name u = am_Name rq /\
  u_Disabled u = false /\ u_Role u = "user" /\
  GenerateFromPassword (am_Password rq) = Some (u_PasswordHash u).

(** (lemma) Adding a member: 201 exactly when one new user - of an address nobody
    had, with the hashed password, never a server admin - and one membership
    in this org with the asked role were created.  Every other reply leaves
    the tables alone, except that a failure between the two statements leaves
    the new user without any membership. *)
Theorem Add_creates orgID req w :
  let '(rep, w') := Add enterprise orgID req w in
  let new_user rq id u :=
    req = Some rq /\ users (w_db w) !! id = None /\ added_user rq id u /\
    forall k x, users (w_db w) !! k = Some x -> u_Email x <> am_Email rq in
  (status rep = 201%Z /\ exists rq id u m, new_user rq id u /\
     m_Role m = am_Role rq /\ m_Source m = "manual" /\
     w_db w' = set_members (set_users (w_db w) (<[id := u]> (users (w_db w))))
                 (<[(id, orgID) := m]> (members (w_db w)))) \/
  (status rep <> 201%Z /\
   (w_db w' = w_db w \/
    exists rq id u, new_user rq id u /\
      w_db w' = set_users (w_db w) (<[id := u]> (users (w_db w))))).
Proof.
  cbn zeta. unfold Add. apply wp_let.
  assert (forall e, status (HttpError (B:=member_body) e) <> 201%Z) as Herr
    by (intros e; apply HttpError_not_created).
  wp_step. split; [intros _; right; auto|]. intros rq ->.
  wp_step. split; [intros _; right; auto|intros _].
  wp_step. destruct (GetUserByEmail _ w) as [[ou|e] w1] eqn:E1;
    pose proof (db_read_db _ _ _ _ E1) as Hd1; [|right; auto].
  apply db_read_ok in E1 as [Hou _].
  wp_step. split; [intros _; right; auto|]. intros Hno. apply found_false in Hno as ->.
  symmetry in Hou. rewrite select_one_None in Hou. wp_step.
  pose proof (seatLimitReached_db (B:=member_body) enterprise orgID 409 w1) as Hd2.
  assert (forall resp, (seatLimitReached (B:=member_body) enterprise orgID 409 w1).1 = Some resp ->
    status resp <> 201%Z) as Hfull by (intros resp; intros [Hs|[e ->]]%seatLimitReached_status; [by rewrite Hs|apply Herr]).
  destruct (seatLimitReached _ _ _ w1) as [[resp|] w2]; cbn in Hd2, Hfull |- *; wp_step;
    [right; split; [auto|left; congruence]|].
  wp_step. split; [intros _; right; split; [auto|left; congruence]|]. intros hash Eh.
  wp_step. pose proof (newID_db w2) as Hd3. destruct (newID w2) as [id w3]. cbn in Hd3 |- *. wp_step.
  match goal with |- context [CreateUser ?u w3] =>
    pose proof (CreateUser_spec u w3) as Hcu; destruct (CreateUser u w3) as [[[]|e] w4] end;
    [|right; split; [auto|left; congruence]].
  assert (w_db w3 = w_db w) as Hd by congruence. rewrite Hd in Hcu. cbn in Hcu.
  destruct Hcu as (now & Hd4 & Hfresh). wp_step.
  match type of Hd4 with _ = set_users _ (<[_ := ?u]> _) => set (usr := u) in Hd4 end.
  assert (added_user rq id usr) as Hu by (by split_and!).
  assert (forall k x, users (w_db w) !! k = Some x -> u_Email x <> am_Email rq) as Hmail
    by (intros k x Hk; apply String.eqb_neq; by apply (Hou k x)).
  match goal with |- context [AddMember ?m w4] =>
    pose proof (AddMember_spec m w4) as Ham; destruct (AddMember m w4) as [[[]|e] w5] end; wp_step.
  - destruct Ham as (t & Hd5 & _). rewrite Hd4 in Hd5. cbn in Hd5. left. split; [done|].
    exists rq, id, usr, (member_row id orgID (am_Role rq) "manual" t t). by split_and!.
  - right. split; [auto|]. right. exists rq, id, usr. split_and!; try done. congruence.
Qed.

(** (lemma) Editing a member never changes the stored email of any user, whatever
    the request asked for: a 200 reply reports the requested address, which
    only became the user's login. *)
Theorem UpdateMember_keeps_email orgID userID req w :
  let '(rep, w') := UpdateMember orgID userID req w in
  emails (w_db w') = emails (w_db w) /\
  (status rep = 200%Z -> exists rq m, req = Some rq /\ rep = JSON 200 (OneMember m) /\
     mr_Email m = um_Email rq /\ mr_UserID m = userID /\ mr_Role m = um_Role rq).
Proof.
  unfold UpdateMember. apply wp_let.
  assert (forall e, status (HttpError (B:=member_body) e) <> 200%Z) as Herr
    by (intros e; apply HttpError_not_created).
  assert (forall (A : Prop) e, status (HttpError (B:=member_body) e) = 200%Z -> A) as Hno
    by (intros A e He; by destruct (Herr e)).
  wp_step. split; [by intros _|]. intros rq ->. wp_step. split; [by intros _|intros _].
  wp_step. destruct (GetUser userID w) as [[ou|e] w1] eqn:E1; pose proof (db_read_db _ _ _ _ E1) as Hd1;
    [|by rewrite Hd1; split; [|apply Hno]].
  wp_step. split; [intros _; rewrite Hd1; by split; [|apply Hno]|]. intros u _.
  apply wp_bind. apply (wp_mono _ (fun rep w' => w_db w' = w_db w /\ exists e, rep = HttpError e) _
                                (fun _ w' => w_db w' = w_db w)).
  { unfold email_clash. destruct (negb _); [|done]. wp_step.
    destruct (GetUserByEmail _ w1) as [[oc|e] w2] eqn:E2; pose proof (db_read_db _ _ _ _ E2) as Hd2;
      [|split; [congruence|eauto]].
    destruct oc as [c|]; wp_step; [|congruence]. split; intros _; [split; [congruence|eauto]|congruence]. }
  { intros rep w2 [-> [e ->]]. split; [done|apply Hno]. }
  intros _ w2 Hd2. wp_step.
  match goal with |- context [UpdateUser ?x w2] =>
    pose proof (UpdateUser_emails x w2) as He3; destruct (UpdateUser x w2) as [[[]|e] w3] end;
    cbn in He3; rewrite Hd2 in He3; [|by rewrite He3; split; [|apply Hno]].
  wp_step. destruct (UpdateMemberRole _ _ _ _ w3) as [r4 w4] eqn:E4.
  assert (emails (w_db w4) = emails (w_db w)) as He4.
  { apply db_op_cases in E4 as [[_ ->]|(d & Hx & ->)]; [done|]. by injection Hx as _ <-. }
  destruct r4 as [[]|e]; [|by rewrite He4; split; [|apply Hno]].
  wp_step. destruct (RemoveUserFromOrgTeams _ _ w4) as [r5 w5] eqn:E5.
  assert (emails (w_db w5) = emails (w_db w)) as He5.
  { apply db_op_cases in E5 as [[_ ->]|(d & Hx & ->)]; [done|]. by injection Hx as _ <-. }
  destruct r5 as [[]|e]; [|by rewrite He5; split; [|apply Hno]].
  wp_step. destruct (negb (str_empty (um_TeamID rq))); wp_step.
  - destruct (AddTeamMember _ w5) as [r6 w6] eqn:E6.
    assert (emails (w_db w6) = emails (w_db w)) as He6.
    { apply db_op_cases in E6 as [[_ ->]|(d & Hx & ->)]; [done|].
      cbn in Hx. repeat case_match; by simplify_eq/=. }
    destruct r6 as [[]|e]; [|by rewrite He6; split; [|apply Hno]]. wp_step. rewrite He6.
    split; [done|]. intros _. by eexists rq, _.
  - rewrite He5. split; [done|]. intros _. by eexists rq, _.
Qed.
End Theorems.

(** ** A request across tenants *)

Module CrossTenant.
Import Session.Demo.
#[local] Instance plain_hash : PasswordHash := {| GenerateFromPassword := Some |}.
Definition two_orgs : World AuthDB :=
  mkWorld (set_members (set_users empty_db {[ "u1" := ada ]})
             {[ ("u1", "org1") := member_row "u1" "org1" "viewer" "manual" 1 1 ]})
          [] 1000 [] [].
Definition rename := Some (mkUpdateMember "Mallory" "mallory@example.com" "admin" EmptyString).

(** (lemma) An editor of members in org2 renames a user that is a member of org1 only:
    the handler answers 200, and the user's name and login have changed. *)
Theorem update_crosses_tenants :
  let '(rep, w') := UpdateMember "org2" "u1" rename two_orgs in
  status rep = 200%Z /\ members (w_db w') = members (w_db two_orgs) /\
  option_map (fun u => (u_Name u, u_Login u, u_Email u)) (users (w_db w') !! "u1")
    = Some ("Mallory", "mallory@example.com", "ada@example.com").
Proof. vm_compute. auto. Qed.
End CrossTenant.
