(* ===== verification/Accounts.v ===== *)
(** * Accounts: service accounts, their API tokens, and avatars

    Models [internal/api/auth/serviceaccount.go] and [avatar.go] over the
    identity tables.  The cache keys and stored objects a handler deletes are
    part of its reply; the presigner and the RFC 3339 parser are arguments.
    [uuid.NewString] panics without entropy, which ends the request with the
    connection closed ([panicked]). *)

From S2P Require Import Prelude GoStrings Effects Table Authz Identity AuthStore.
From S2P Require Import Middleware.
Set Warnings "-clear-no-such-hyp".

(** ** Replies *)

Record AdminReply (B : Type) := mkAdminReply {
  ar_resp : Response B; ar_evicted : list string; ar_deleted : list string
}.
Arguments mkAdminReply {B}.
Arguments ar_resp {B}.
Arguments ar_evicted {B}.
Arguments ar_deleted {B}.
Definition just {B} (r : Response B) : AdminReply B := mkAdminReply r [] [].

(** The keys of [cache] and [storage]. *)
Definition ActorKey (id : string) : string := "actor:" +:+ id.
Definition AssetURLKey (id : string) : string := "asset:url:" +:+ id.
Definition UserAvatarAssetID (userID : string) : string := "user_" +:+ userID.
Definition ServiceAccountAvatarAssetID (saID : string) : string := "sa_" +:+ saID.
Definition OrgLogoAssetID (orgID : string) : string := "org_" +:+ orgID.
Definition AssetKey (assetID : string) : string := "assets/" +:+ assetID.

(** ** Service accounts *)

Record createServiceAccountRequest := mkCreateSA {
  cs_Name : string; cs_Description : string; cs_Scopes : list string
}.
Record updateServiceAccountRequest := mkUpdateSA {
  us_Name : string; us_Description : string; us_Scopes : list string; us_Disabled : bool
}.
Record createTokenRequest := mkCreateToken { ct_Name : string; ct_ExpiresAt : option string }.

Inductive account_body : Type :=
| AccountList (l : list ServiceAccount)
| OneAccount (sa : ServiceAccount)
| TokenList (l : list Token)
| CreatedToken (id name token : string)
| ScopeList (l : list Scope)
| Upload (assetID url : string)
| AssetSet (assetID : string).

(** [knownScopes]: unknown scopes are dropped. *)
Definition knownScopes (scopes : list string) : list string := List.filter ValidScope scopes.

Section Handlers.
Context `{Collation} `{Sha256} `{UuidGen} `{TimeParser}.
Context (cache : bool).

Local Abbreviation W := (World AuthDB).
Local Abbreviation Reply := (AdminReply account_body).
Local Abbreviation fail e := (just (HttpError e)).

(** [h.cache.Del], when there is a cache. *)
Definition evict (keys : list string) : list string := if cache then keys else [].

Definition List_ (orgID : string) : Eff W Reply :=
  func (
    accounts <- try (ListServiceAccounts orgID) (fun e => fail e) ;;
    gret (just (JSON 200 (AccountList accounts)))).

Definition Create (orgID : string) (req : option createServiceAccountRequest) : Eff W Reply :=
  func (
    req <- non_nil req (just (BadRequest "invalid JSON")) ;;
    return_if (str_empty (cs_Name req)) (just (BadRequest "name is required")) ;;;
    id <- try new_uuid (fun _ => just panicked) ;;
    let sa := {| sa_ID := id; sa_OrgID := orgID; sa_Name := cs_Name req;
                 sa_Description := cs_Description req; sa_Scopes := knownScopes (cs_Scopes req);
                 sa_Disabled := false; sa_IsInternal := false; sa_AvatarAssetID := None;
                 sa_CreatedBy := EmptyString; sa_CreatedAt := 0; sa_UpdatedAt := 0 |} in
    _ <- try (CreateServiceAccount sa) (fun e => fail e) ;;
    gret (just (JSON 201 (OneAccount sa)))).

Definition Get (saID : string) : Eff W Reply :=
  func (
    sa <- try (GetServiceAccount saID) (fun e => fail e) ;;
    sa <- non_nil sa (fail ErrNotFound) ;;
    gret (just (JSON 200 (OneAccount sa)))).

(** The account a handler may change: stored, and not a built-in one. *)
Definition editable (saID : string) : Go W Reply ServiceAccount :=
  existing <- try (GetServiceAccount saID) (fun e => fail e) ;;
  existing <- non_nil existing (fail ErrNotFound) ;;
  return_if (sa_IsInternal existing) (just Forbidden) ;;;
  gret existing.

Definition Update (saID : string) (req : option updateServiceAccountRequest) : Eff W Reply :=
  func (
    _ <- editable saID ;;
    req <- non_nil req (just (BadRequest "invalid JSON")) ;;
    return_if (str_empty (us_Name req)) (just (BadRequest "name is required")) ;;;
    let sa := {| sa_ID := saID; sa_OrgID := EmptyString; sa_Name := us_Name req;
                 sa_Description := us_Description req; sa_Scopes := knownScopes (us_Scopes req);
                 sa_Disabled := us_Disabled req; sa_IsInternal := false; sa_AvatarAssetID := None;
                 sa_CreatedBy := EmptyString; sa_CreatedAt := 0; sa_UpdatedAt := 0 |} in
    _ <- try (UpdateServiceAccount sa) (fun e => fail e) ;;
    gret (mkAdminReply no_content (evict [ActorKey saID]) [])).

Definition Delete (saID : string) : Eff W Reply :=
  func (
    _ <- editable saID ;;
    _ <- try (DeleteServiceAccount saID) (fun e => fail e) ;;
    gret (mkAdminReply no_content (evict [ActorKey saID]) [])).

Definition ListTokens_ (saID : string) : Eff W Reply :=
  func (
    tokens <- try (ListTokens saID) (fun e => fail e) ;;
    gret (just (JSON 200 (TokenList tokens)))).

(** The expiry of a request: none, an instant, or [None] for a bad text. *)
Definition token_expiry (req : createTokenRequest) : option (option Z) :=
  match ct_ExpiresAt req with
  | Some s => if str_empty s then Some None
              else match ParseRFC3339 s with Some t => Some (Some t) | None => None end
  | None => Some None
  end.

Definition CreateToken_ (saID : string) (req : option createTokenRequest) : Eff W Reply :=
  func (
    req <- non_nil req (just (BadRequest "invalid JSON")) ;;
    return_if (str_empty (ct_Name req)) (just (BadRequest "name is required")) ;;;
    g <- try Generate (fun e => fail e) ;;
    let '(id, plaintext, hash) := g in
    expiresAt <- non_nil (token_expiry req)
                   (just (BadRequest "expiresAt must be an RFC3339 timestamp")) ;;
    let tok := mkToken id saID (ct_Name req) (Prefix plaintext) hash expiresAt None false
                       EmptyString 0 in
    _ <- try (CreateToken tok) (fun e => fail e) ;;
    gret (just (JSON 201 (CreatedToken id (ct_Name req) plaintext)))).

Definition RevokeToken_ (tokenID : string) : Eff W Reply :=
  func (
    _ <- try (RevokeToken tokenID) (fun e => fail e) ;;
    gret (just no_content)).

Definition ListScopes : Eff W Reply := func (gret (just (JSON 200 (ScopeList AllScopes)))).

(** ** Avatars: [avatar.go] *)

Section Avatars.
Context (PresignPutURL : string -> option string).

Definition presignUpload (assetID : string) : Go W Reply Reply :=
  url <- non_nil (PresignPutURL (AssetKey assetID)) (fail (ErrOther "storage: presign")) ;;
  gret (just (JSON 200 (Upload assetID url))).

(** The caller, who must be a user. *)
Definition caller_user (ctx : option Principal) : Go W Reply Principal :=
  p <- non_nil ctx (just Unauthorized) ;;
  return_if (negb (String.eqb (p_Kind p) PrincipalUser)) (just Forbidden) ;;;
  gret p.

Definition existing_account (saID : string) : Go W Reply unit :=
  sa <- try (GetServiceAccount saID) (fun e => fail e) ;;
  _ <- non_nil sa (fail ErrNotFound) ;;
  gret tt.
Definition existing_org (orgID : string) : Go W Reply unit :=
  o <- try (GetOrg orgID) (fun e => fail e) ;;
  _ <- non_nil o (fail ErrNotFound) ;;
  gret tt.

Definition bust (actorID assetID : string) : list string :=
  evict [ActorKey actorID; AssetURLKey assetID].

Definition PrepareUserAvatarUpload (ctx : option Principal) : Eff W Reply :=
  func (p <- caller_user ctx ;; presignUpload (UserAvatarAssetID (p_UserID p))).
Definition PrepareServiceAccountAvatarUpload (saID : string) : Eff W Reply :=
  func (existing_account saID ;;; presignUpload (ServiceAccountAvatarAssetID saID)).
Definition PrepareOrgLogoUpload (orgID : string) : Eff W Reply :=
  func (existing_org orgID ;;; presignUpload (OrgLogoAssetID orgID)).

Definition PutUserAvatar (ctx : option Principal) : Eff W Reply :=
  func (
    p <- caller_user ctx ;;
    let assetID := UserAvatarAssetID (p_UserID p) in
    _ <- try (SetUserAvatar (p_UserID p) (Some assetID)) (fun e => fail e) ;;
    gret (mkAdminReply (JSON 200 (AssetSet assetID)) (bust (p_UserID p) assetID) [])).

(** The object is deleted before the row is changed. *)
Definition DeleteUserAvatar (ctx : option Principal) : Eff W Reply :=
  func (
    p <- caller_user ctx ;;
    let assetID := UserAvatarAssetID (p_UserID p) in
    _ <- try (SetUserAvatar (p_UserID p) None)
             (fun e => mkAdminReply (HttpError e) [] [AssetKey assetID]) ;;
    gret (mkAdminReply no_content (bust (p_UserID p) assetID) [AssetKey assetID])).

Definition PutServiceAccountAvatar (saID : string) : Eff W Reply :=
  func (
    existing_account saID ;;;
    let assetID := ServiceAccountAvatarAssetID saID in
    _ <- try (SetServiceAccountAvatar saID (Some assetID)) (fun e => fail e) ;;
    gret (mkAdminReply (JSON 200 (AssetSet assetID)) (bust saID assetID) [])).

Definition DeleteServiceAccountAvatar (saID : string) : Eff W Reply :=
  func (
    existing_account saID ;;;
    let assetID := ServiceAccountAvatarAssetID saID in
    _ <- try (SetServiceAccountAvatar saID None)
             (fun e => mkAdminReply (HttpError e) [] [AssetKey assetID]) ;;
    gret (mkAdminReply no_content (bust saID assetID) [AssetKey assetID])).

Definition PutOrgLogo (orgID : string) : Eff W Reply :=
  func (
    existing_org orgID ;;;
    let assetID := OrgLogoAssetID orgID in
    _ <- try (SetOrgLogo orgID (Some assetID)) (fun e => fail e) ;;
    gret (mkAdminReply (JSON 200 (AssetSet assetID)) (bust orgID assetID) [])).

Definition DeleteOrgLogo (orgID : string) : Eff W Reply :=
  func (
    existing_org orgID ;;;
    let assetID := OrgLogoAssetID orgID in
    _ <- try (SetOrgLogo orgID None)
             (fun e => mkAdminReply (HttpError e) [] [AssetKey assetID]) ;;
    gret (mkAdminReply no_content (bust orgID assetID) [AssetKey assetID])).
End Avatars.
End Handlers.

(** ** Invariant: accounts and tokens

    Accounts and tokens are stored under their ids, scopes are scopes of the
    catalog, every token belongs to an account, and no two tokens share the
    prefix they are looked up by. *)

Definition accounts_ok (d : AuthDB) : Prop :=
  (forall k r, accounts d !! k = Some r ->
     sa_ID (sar r) = k /\ Forall (fun s => ValidScope s = true) (sa_Scopes (sar r))) /\
  (forall k t, tokens d !! k = Some t -> tok_ID t = k /\ is_Some (accounts d !! tok_ServiceAccountID t)) /\
  (forall k k' t t', tokens d !! k = Some t -> tokens d !! k' = Some t' ->
     tok_Prefix t = tok_Prefix t' -> k = k').

Lemma knownScopes_valid scopes : Forall (fun s => ValidScope s = true) (knownScopes scopes).
Proof.
  unfold knownScopes. apply Forall_forall. intros s Hs.
  rewrite list_elem_of_In, List.filter_In in Hs. apply Hs.
Qed.

(** An update of an account that keeps its id and valid scopes. *)
Lemma accounts_ok_alter f k d :
  (forall r, sa_ID (sar (f r)) = sa_ID (sar r)) ->
  (forall r, Forall (fun s => ValidScope s = true) (sa_Scopes (sar r)) ->
     Forall (fun s => ValidScope s = true) (sa_Scopes (sar (f r)))) ->
  accounts_ok d -> accounts_ok (set_accounts d (alter f k (accounts d))).
Proof.
  intros Hid Hsc (Ha & Ht & Hu). split_and!; cbn; [|intros k' t Hk'|done].
  - intros k' r [(<- & r0 & Hr0 & ->)|(_ & Hr)]%lookup_alter_Some; [|by apply Ha].
    destruct (Ha _ _ Hr0) as [<- Hv]. by rewrite Hid; auto.
  - destruct (Ht k' t Hk') as [Hi [r Hr]]. split; [done|]. apply lookup_alter_is_Some. eauto.
Qed.

(** A change to a token that keeps what identifies it. *)
Lemma accounts_ok_token f k d :
  (forall t, tok_ID (f t) = tok_ID t) -> (forall t, tok_ServiceAccountID (f t) = tok_ServiceAccountID t) ->
  (forall t, tok_Prefix (f t) = tok_Prefix t) ->
  accounts_ok d -> accounts_ok (set_tokens d (alter f k (tokens d))).
Proof.
  intros Hid Hsa Hp (Ha & Ht & Hu).
  assert (forall k' t, alter f k (tokens d) !! k' = Some t ->
    exists t0, tokens d !! k' = Some t0 /\ tok_ID t = tok_ID t0 /\
      tok_ServiceAccountID t = tok_ServiceAccountID t0 /\ tok_Prefix t = tok_Prefix t0) as Halt.
  { intros k' t [(<- & t0 & Ht0 & ->)|(_ & Ht0)]%lookup_alter_Some;
      [exists t0|exists t]; by split_and!. }
  split_and!; cbn; [done| |].
  - intros k' t (t0 & Ht0 & -> & -> & _)%Halt. by apply Ht.
  - intros k1 k2 t1 t2 (u1 & H1 & _ & _ & ->)%Halt (u2 & H2 & _ & _ & ->)%Halt. by apply Hu.
Qed.

(** Tables an operation leaves alone. *)
Lemma accounts_ok_same d d' :
  accounts d' = accounts d -> tokens d' = tokens d -> accounts_ok d -> accounts_ok d'.
Proof. unfold accounts_ok. by intros -> ->. Qed.

Section Statements.
Context `{Collation}.

Lemma CreateServiceAccount_ok sa :
  Forall (fun s => ValidScope s = true) (sa_Scopes sa) -> keeps accounts_ok (CreateServiceAccount sa).
Proof.
  intros Hs. unfold CreateServiceAccount. solve_keeps. apply keeps_op. intros t d (Ha & Ht & Hu).
  destruct (_ || _) eqn:E; [done|]. split_and!; cbn; [| |done].
  - intros k r [[<- <-]|[_ Hr]]%lookup_insert_Some; [done|by apply Ha].
  - intros k x Hx. destruct (Ht k x Hx) as [Hid Hsome]. split; [done|].
    rewrite lookup_insert_is_Some'. by right.
Qed.

Lemma UpdateServiceAccount_ok sa :
  Forall (fun s => ValidScope s = true) (sa_Scopes sa) -> keeps accounts_ok (UpdateServiceAccount sa).
Proof.
  intros Hs. apply keeps_op. intros t d Hd. destruct (accounts d !! sa_ID sa) as [r|] eqn:Er; [|done].
  destruct (negb (sa_visible r)); [done|]. destruct (other_row _ _ _); [done|]. cbn.
  destruct Hd as (Ha & Ht & Hu). split_and!; cbn; [| |done].
  - intros k r' [[<- <-]|[_ Hr]]%lookup_insert_Some; [|by apply Ha]. split; [|done].
    cbn. by destruct (Ha _ _ Er).
  - intros k x Hx. destruct (Ht k x Hx) as [Hid Hsome]. split; [done|].
    rewrite lookup_insert_is_Some'. by right.
Qed.

Lemma DeleteServiceAccount_ok id : keeps accounts_ok (DeleteServiceAccount id).
Proof. apply keeps_write. intros t d. by apply accounts_ok_alter. Qed.

Lemma SetServiceAccountAvatar_ok id a : keeps accounts_ok (SetServiceAccountAvatar id a).
Proof.
  apply keeps_write. intros t d. apply accounts_ok_alter; intros r; by destruct (sa_visible r).
Qed.

Lemma RevokeToken_ok id : keeps accounts_ok (RevokeToken id).
Proof. apply keeps_write. intros t d. by apply accounts_ok_token. Qed.

Lemma CreateToken_ok tok : keeps accounts_ok (CreateToken tok).
Proof.
  unfold CreateToken. solve_keeps. apply keeps_op. intros t d (Ha & Ht & Hu).
  destruct (_ || _) eqn:E; [done|]. rewrite !orb_false_iff in E. destruct E as [[[E1 E2] E3] E4].
  apply negb_false_iff, found_true in E2. rewrite exists_row_false in E3. split_and!; cbn; [done| |].
  - intros k x [[<- <-]|[_ Hx]]%lookup_insert_Some; [by split|by apply Ht].
  - intros k1 k2 t1 t2 [[<- <-]|[_ H1]]%lookup_insert_Some [[<- <-]|[_ H2]]%lookup_insert_Some; cbn.
    + done.
    + intros Hp. specialize (E3 _ _ H2). apply String.eqb_neq in E3. congruence.
    + intros Hp. specialize (E3 _ _ H1). apply String.eqb_neq in E3. congruence.
    + by apply Hu.
Qed.

Lemma SetUserAvatar_ok id a : keeps accounts_ok (SetUserAvatar id a).
Proof. apply keeps_write. intros t d. by apply accounts_ok_same. Qed.
Lemma SetOrgLogo_ok id a : keeps accounts_ok (SetOrgLogo id a).
Proof. apply keeps_write. intros t d. by apply accounts_ok_same. Qed.
End Statements.
#[global] Hint Resolve CreateServiceAccount_ok UpdateServiceAccount_ok DeleteServiceAccount_ok
  SetServiceAccountAvatar_ok RevokeToken_ok CreateToken_ok SetUserAvatar_ok SetOrgLogo_ok : keeps.
#[global] Hint Extern 1 (Forall _ (sa_Scopes _)) => cbn [sa_Scopes]; apply knownScopes_valid : keeps.

(** ** Operations *)

Section Operations.
Context `{Collation} `{Sha256} `{UuidGen} `{TimeParser}.
Context (cache : bool) (presign : string -> option string).

(** A request to one of the handlers of this file. *)
Inductive account_request : Type :=
| ReqList (orgID : string) | ReqCreate (orgID : string) (req : option createServiceAccountRequest)
| ReqGet (saID : string) | ReqUpdate (saID : string) (req : option updateServiceAccountRequest)
| ReqDelete (saID : string) | ReqListTokens (saID : string)
| ReqCreateToken (saID : string) (req : option createTokenRequest) | ReqRevokeToken (tokenID : string)
| ReqListScopes
| ReqPrepareUser (ctx : option Principal) | ReqPrepareSA (saID : string) | ReqPrepareOrg (orgID : string)
| ReqPutUser (ctx : option Principal) | ReqDeleteUser (ctx : option Principal)
| ReqPutSA (saID : string) | ReqDeleteSA (saID : string)
| ReqPutOrg (orgID : string) | ReqDeleteOrg (orgID : string).

Definition serve (rq : account_request) : Eff (World AuthDB) (AdminReply account_body) :=
  match rq with
  | ReqList o => List_ o | ReqCreate o r => Create o r | ReqGet s => Get s
  | ReqUpdate s r => Update cache s r | ReqDelete s => Delete cache s
  | ReqListTokens s => ListTokens_ s | ReqCreateToken s r => CreateToken_ s r
  | ReqRevokeToken t => RevokeToken_ t | ReqListScopes => ListScopes
  | ReqPrepareUser c => PrepareUserAvatarUpload presign c
  | ReqPrepareSA s => PrepareServiceAccountAvatarUpload presign s
  | ReqPrepareOrg o => PrepareOrgLogoUpload presign o
  | ReqPutUser c => PutUserAvatar cache c | ReqDeleteUser c => DeleteUserAvatar cache c
  | ReqPutSA s => PutServiceAccountAvatar cache s | ReqDeleteSA s => DeleteServiceAccountAvatar cache s
  | ReqPutOrg o => PutOrgLogo cache o | ReqDeleteOrg o => DeleteOrgLogo cache o
  end.

Lemma Generate_keeps P : keeps P (Generate (DB := AuthDB)).
Proof.
  unfold Generate. solve_keeps. intros w Hw. unfold new_uuid.
  pose proof (rand_read_db 16 w) as Hd. destruct (rand_read 16 w). cbn in *. by rewrite Hd.
Qed.
Lemma new_uuid_keeps P : keeps P (new_uuid (DB := AuthDB)).
Proof.
  intros w Hw. unfold new_uuid. pose proof (rand_read_db 16 w) as Hd.
  destruct (rand_read 16 w). cbn in *. by rewrite Hd.
Qed.
Hint Resolve Generate_keeps new_uuid_keeps : keeps.

Lemma serve_accounts_ok rq : keeps accounts_ok (serve rq).
Proof.
  destruct rq; cbn [serve];
    unfold List_, Create, Get, Update, Delete, ListTokens_, CreateToken_, RevokeToken_, ListScopes,
      PrepareUserAvatarUpload, PrepareServiceAccountAvatarUpload, PrepareOrgLogoUpload, PutUserAvatar,
      DeleteUserAvatar, PutServiceAccountAvatar, DeleteServiceAccountAvatar, PutOrgLogo, DeleteOrgLogo,
      presignUpload, caller_user, existing_account, existing_org, editable,
      GetServiceAccount, ListServiceAccounts, ListTokens, GetOrg; solve_keeps.
Qed.

(** What [editable] lets through. *)
Lemma editable_spec saID (Qr : AdminReply account_body -> World AuthDB -> Prop)
    (Q : ServiceAccount -> World AuthDB -> Prop) w :
  (forall rep w', w_db w' = w_db w -> status (ar_resp rep) <> 204%Z -> ar_evicted rep = [] -> Qr rep w') ->
  (forall r w', w_db w' = w_db w -> accounts (w_db w) !! saID = Some r -> sar_DeletedAt r = None ->
     sa_IsInternal (sar r) = false -> Q (sar r) w') ->
  wp (editable saID) Qr Q w.
Proof.
  intros Hr Hq. unfold editable. wp_step.
  destruct (GetServiceAccount saID w) as [[osa|e] w1] eqn:E1; pose proof (db_read_db _ _ _ _ E1) as Hd1;
    [|apply Hr; [done|by destruct e|done]].
  apply db_read_ok in E1 as [Hosa _]. wp_step. split; [intros _; by apply Hr|]. intros sa ->.
  wp_step. split; [intros _; by apply Hr|]. intros Hint.
  destruct (accounts (w_db w) !! saID) as [r|] eqn:Er; [|done].
  unfold sa_visible in Hosa. destruct (sar_DeletedAt r) eqn:Ed; [done|]. injection Hosa as ->.
  by apply (Hq r).
Qed.

(** The row a successful update leaves. *)
Definition updated_account (rq : updateServiceAccountRequest) (t : Z) (r : ServiceAccount) : ServiceAccount :=
  mkServiceAccount (sa_ID r) (sa_OrgID r) (us_Name rq) (us_Description rq) (knownScopes (us_Scopes rq))
    (us_Disabled rq) (sa_IsInternal r) (sa_AvatarAssetID r) (sa_CreatedBy r) (sa_CreatedAt r) t.

Lemma HttpError_not_204 {B} e : status (HttpError (B:=B) e) <> 204%Z.
Proof. by destruct e. Qed.

Lemma Update_Delete_spec saID req w :
  (let '(rep, w') := Update cache saID req w in
   (status (ar_resp rep) = 204%Z /\ exists rq r t, req = Some rq /\ us_Name rq <> EmptyString /\
      accounts (w_db w) !! saID = Some r /\ sar_DeletedAt r = None /\ sa_IsInternal (sar r) = false /\
      w_db w' = set_accounts (w_db w)
        (<[saID := mkSARow (updated_account rq t (sar r)) None]> (accounts (w_db w))) /\
      ar_evicted rep = evict cache [ActorKey saID]) \/
   (status (ar_resp rep) <> 204%Z /\ w_db w' = w_db w /\ ar_evicted rep = [])) /\
  (let '(rep, w') := Delete cache saID w in
   (status (ar_resp rep) = 204%Z /\ exists r t,
      accounts (w_db w) !! saID = Some r /\ sar_DeletedAt r = None /\ sa_IsInternal (sar r) = false /\
      w_db w' = set_accounts (w_db w) (<[saID := mkSARow (sar r) (Some t)]> (accounts (w_db w))) /\
      ar_evicted rep = evict cache [ActorKey saID]) \/
   (status (ar_resp rep) <> 204%Z /\ w_db w' = w_db w /\ ar_evicted rep = [])).
Proof.
  split.
  - unfold Update. apply wp_let. wp_step. apply editable_spec; [auto|]. intros r w1 Hd1 Hr Hdel Hint.
    wp_step. split; [intros _; by right|]. intros rq ->. wp_step. split; [intros _; by right|].
    intros Hname%str_empty_false. wp_step.
    unfold UpdateServiceAccount. destruct (db_op _ w1) as [res w2] eqn:E2.
    apply db_op_cases in E2 as [[-> Hd2]|(d & Hf & Hd2)];
      [right; split_and!; [apply HttpError_not_204|congruence|done]|].
    cbn [sa_ID sa_Name] in Hf. rewrite Hd1, Hr in Hf. unfold sa_visible in Hf. rewrite Hdel in Hf. cbn in Hf.
    destruct (other_row _ _ _); simplify_eq; [right; split_and!; [done|congruence|done]|].
    left. split; [done|]. exists rq, r, (w_clock w1). by split_and!.
  - unfold Delete. apply wp_let. wp_step. apply editable_spec; [auto|]. intros r w1 Hd1 Hr Hdel Hint.
    wp_step. unfold DeleteServiceAccount, db_write. destruct (db_op _ w1) as [res w2] eqn:E2.
    apply db_op_cases in E2 as [[-> Hd2]|(d & Hf & Hd2)];
      [right; split_and!; [apply HttpError_not_204|congruence|done]|].
    injection Hf as <- <-. left. split; [done|]. exists r, (w_clock w1). split_and!; try done.
    rewrite Hd2, Hd1. f_equal. apply map_eq. intros k.
    destruct (decide (k = saID)) as [->|Hne].
    + by rewrite lookup_alter_eq, lookup_insert_eq, Hr.
    + by rewrite lookup_alter_ne, lookup_insert_ne by done.
Qed.

(** (lemma) Editing and deleting a service account: 204 only for an existing account
    that is not built in, whose row then has the requested name and the known
    ones of the requested scopes, or is marked deleted, and whose cached copy is
    evicted.  Any other reply changes nothing. *)
Theorem Update_Delete_correct saID req w :
  (let '(rep, w') := Update cache saID req w in
   (status (ar_resp rep) = 204%Z /\ exists rq r t, req = Some rq /\ us_Name rq <> EmptyString /\
      accounts (w_db w) !! saID = Some r /\ sar_DeletedAt r = None /\ sa_IsInternal (sar r) = false /\
      w_db w' = set_accounts (w_db w)
        (<[saID := mkSARow (updated_account rq t (sar r)) None]> (accounts (w_db w))) /\
      ar_evicted rep = evict cache [ActorKey saID]) \/
   (status (ar_resp rep) <> 204%Z /\ w_db w' = w_db w /\ ar_evicted rep = [])) /\
  (let '(rep, w') := Delete cache saID w in
   (status (ar_resp rep) = 204%Z /\ exists r t,
      accounts (w_db w) !! saID = Some r /\ sar_DeletedAt r = None /\ sa_IsInternal (sar r) = false /\
      w_db w' = set_accounts (w_db w) (<[saID := mkSARow (sar r) (Some t)]> (accounts (w_db w))) /\
      ar_evicted rep = evict cache [ActorKey saID]) \/
   (status (ar_resp rep) <> 204%Z /\ w_db w' = w_db w /\ ar_evicted rep = [])).
Proof. apply Update_Delete_spec. Qed.

Lemma Delete_ok saID : keeps accounts_ok (Delete cache saID).
Proof. unfold Delete, editable, GetServiceAccount. solve_keeps. Qed.

(** A deleted account's keys authenticate nobody. *)
Lemma deleted_no_key d saID t key p :
  accounts_ok d -> (forall r, accounts d !! saID = Some r -> sar_DeletedAt r <> None) ->
  key_grants d t key p -> p_ServiceAccountID p <> saID.
Proof.
  intros (Ha & _ & _) Hdel (k & tok & r & _ & _ & _ & _ & _ & Hr & Hlive & _ & ->). cbn.
  destruct (Ha _ _ Hr) as [Hid _]. rewrite Hid. intros He. rewrite He in Hr. by apply (Hdel r).
Qed.

(** (lemma) After a 204 to a deletion, on sound tables, none of the account's tokens
    authenticates any more, though they are not marked revoked. *)
Theorem Delete_disables_keys saID w :
  accounts_ok (w_db w) ->
  let '(rep, w') := Delete cache saID w in
  status (ar_resp rep) = 204%Z ->
  tokens (w_db w') = tokens (w_db w) /\
  forall key w1 p, w_db w1 = w_db w' -> (verifyAPIKey key w1).1 = Ok p -> p_ServiceAccountID p <> saID.
Proof.
  intros Hok. pose proof (proj2 (Update_Delete_spec saID None w)) as Hspec.
  pose proof (Delete_ok saID w Hok) as Hok'.
  destruct (Delete cache saID w) as [rep w']. cbn in Hok'. intros Hst.
  destruct Hspec as [(_ & r & t & _ & _ & _ & Hd & _)|[Hno _]]; [|done].
  split; [by rewrite Hd|]. intros key w1 p Hw1 Hp.
  pose proof (verifyAPIKey_grants key w1) as Hg. destruct (verifyAPIKey key w1) as [res w2].
  cbn in Hp. destruct Hg as [_ Hg]. destruct (Hg p Hp) as (t' & _ & Hkey). rewrite Hw1 in Hkey.
  eapply deleted_no_key; [exact Hok'| |exact Hkey].
  intros r' Hr'. rewrite Hd in Hr'. cbn in Hr'. rewrite lookup_insert_eq in Hr'. by simplify_eq.
Qed.
End Operations.

(** ** A created token authenticates *)

Section Authenticate.
Context `{Collation} `{Sha256} `{UuidGen} `{TimeParser}.

(** Without failures a statement runs. *)
Lemma db_op_run {A} (f : Z -> AuthDB -> result store_err A * AuthDB) w :
  no_faults w ->
  db_op f w = ((f (w_clock w) (w_db w)).1,
               mkWorld (f (w_clock w) (w_db w)).2 (tail (w_faults w)) (w_clock w) (w_ticks w) (w_entropy w)).
Proof.
  unfold no_faults, db_op. destruct w as [d fs t ts e]. cbn. intros Hf.
  destruct Hf as [|b fs <- Hf]; by destruct (f t d).
Qed.
Lemma no_faults_tail w d t ts e :
  no_faults w -> no_faults (mkWorld d (tail (w_faults w)) t ts e).
Proof. unfold no_faults. cbn. by destruct 1. Qed.

Definition account_principal (sa : ServiceAccount) : Principal :=
  {| p_Kind := PrincipalServiceAccount; p_UserID := sa_ID sa; p_OrgID := sa_OrgID sa;
     p_IsServerAdmin := false; p_ServiceAccountID := sa_ID sa; p_Scopes := sa_Scopes sa;
     p_AuthProvider := EmptyString |}.

Lemma verifyAPIKey_accepts key w k tok r :
  no_faults w -> tokens (w_db w) !! k = Some tok ->
  (forall k' t', tokens (w_db w) !! k' = Some t' -> tok_Prefix t' = Prefix key -> t' = tok) ->
  tok_Prefix tok = Prefix key -> tok_Hash tok = Hash key -> tok_Revoked tok = false ->
  (forall e, tok_ExpiresAt tok = Some e -> ((time_now w).1 <= e)%Z) ->
  accounts (w_db w) !! tok_ServiceAccountID tok = Some r -> sar_DeletedAt r = None ->
  sa_Disabled (sar r) = false ->
  (verifyAPIKey key w).1 = Ok (account_principal (sar r)).
Proof.
  intros Hw Htok Huniq Hp Hh Hrev Hexp Hr Hdel Hdis.
  unfold verifyAPIKey, func, try, gbind, call, GetTokenByPrefix, db_read.
  rewrite db_op_run by done.
  rewrite (select_one_unique tok _ _ k); [|done|by apply String.eqb_eq|].
  2: { intros k' t' Hk' Heq%String.eqb_eq. by apply (Huniq k'). }
  cbn [fst snd option_map non_nil gret scan_token tok_Revoked tok_ExpiresAt tok_Hash tok_ID
       tok_ServiceAccountID]. rewrite Hrev. cbn [return_if gret].
  pose proof (no_faults_tail w (w_db w) (w_clock w) (w_ticks w) (w_entropy w) Hw) as Hw1.
  set (w1 := mkWorld _ _ _ _ _) in *.
  assert (exists now w2, now_if (R := result auth_err Principal) (tok_ExpiresAt tok) w1 = (inr now, w2) /\
            expired (tok_ExpiresAt tok) now = false /\ no_faults w2 /\ w_db w2 = w_db w) as
    (now & w2 & Hnow & He & Hw2 & Hd2).
  { unfold now_if, expired. destruct (tok_ExpiresAt tok) as [e|]; [|by exists 0%Z, w1].
    unfold call. specialize (Hexp e eq_refl).
    assert ((time_now w1).1 = (time_now w).1 /\ no_faults (time_now w1).2 /\ w_db (time_now w1).2 = w_db w)
      as (Ht & Hf & Hd).
    { subst w1. unfold time_now, no_faults in *. cbn in *. destruct (w_ticks w); by cbn. }
    destruct (time_now w1) as [now w2]. cbn in *. exists now, w2. split_and!; [done| |done|done].
    apply Z.ltb_ge. lia. }
  rewrite Hnow. cbn beta iota. rewrite He. cbn [return_if gret].
  rewrite (proj2 (Verify_iff key (tok_Hash tok))) by done. cbn [negb return_if gret].
  unfold TouchToken, db_write. rewrite db_op_run by done. cbn beta iota.
  unfold GetServiceAccount, db_read. rewrite db_op_run by (by apply no_faults_tail).
  cbn [w_db w_clock set_tokens accounts fst snd]. rewrite Hd2, Hr. unfold sa_visible. rewrite Hdel.
  cbn. by rewrite Hdis.
Qed.

Lemma CreateToken_spec saID req w :
  let '(rep, w') := CreateToken_ saID req w in
  match payload (ar_resp rep) with
  | Json (CreatedToken id name token) =>
      exists rq expiry now, req = Some rq /\ name = ct_Name rq /\ token_expiry rq = Some expiry /\
        is_Some (accounts (w_db w) !! saID) /\
        (forall k t, tokens (w_db w) !! k = Some t -> tok_Prefix t <> Prefix token) /\
        w_db w' = set_tokens (w_db w)
          (<[id := mkToken id saID name (Prefix token) (Hash token) expiry None false EmptyString now]>
             (tokens (w_db w)))
  | _ => w_db w' = w_db w
  end.
Proof.
  unfold CreateToken_. apply wp_let. wp_step. split; [by intros _|]. intros rq ->.
  wp_step. split; [by intros _|]. intros _. wp_step.
  pose proof (Generate_spec w) as Hg. destruct (Generate w) as [[[[id plaintext] hash]|e] w1];
    [|destruct Hg as [Hd1 _]; by destruct e].
  destruct Hg as [Hd1 Hh]. wp_step. split; [by intros _|]. intros expiry Hexp. wp_step.
  unfold CreateToken. 
  match goal with |- context [func ?m w1] => pose proof (wp_let m (fun res w2 =>
    match res with
    | Ok _ => exists now, is_Some (accounts (w_db w) !! saID) /\
        (forall k t, tokens (w_db w) !! k = Some t -> tok_Prefix t <> Prefix plaintext) /\
        w_db w2 = set_tokens (w_db w)
          (<[id := mkToken id saID (ct_Name rq) (Prefix plaintext) hash expiry None false EmptyString now]>
             (tokens (w_db w)))
    | Err _ => w_db w2 = w_db w end) w1) as Hc end.
  match type of Hc with ?A -> _ => assert A as HA; [|specialize (Hc HA); clear HA] end.
  { wp_step. pose proof (time_now_db w1) as Hd2. destruct (time_now w1) as [now w2]. cbn in Hd2 |- *.
    wp_step. destruct (db_op _ w2) as [res w3] eqn:E3.
    apply db_op_cases in E3 as [[-> Hd3]|(d & Hf & Hd3)]; cbn; [congruence|].
    rewrite Hd2, Hd1 in Hf. destruct (_ || _) eqn:Eg; injection Hf as <- <-; [cbn; congruence|].
    rewrite !orb_false_iff in Eg. destruct Eg as [[[E1 E2] E3] _]. cbn in E2, E3.
    apply negb_false_iff, found_true in E2. exists now. split_and!; [done| |by rewrite Hd3].
    rewrite exists_row_false in E3. intros k t Hk. apply String.eqb_neq. by apply (E3 k t). }
  destruct (func _ w1) as [[[]|e] w2]; [|by destruct e].
  destruct Hc as (now & Hsa & Huniq & Hd2). cbn. exists rq, expiry, now. by rewrite Hh in Hd2.
Qed.

(** (lemma) The token a request creates authenticates as its service account, with
    the account's org and scopes, as long as the account is enabled and neither
    the token has expired; whoever asked for it, in whatever organization. *)
Theorem CreateToken_authenticates saID req w id name token r w1 :
  let '(rep, w') := CreateToken_ saID req w in
  payload (ar_resp rep) = Json (CreatedToken id name token) ->
  accounts (w_db w) !! saID = Some r -> sar_DeletedAt r = None -> sa_Disabled (sar r) = false ->
  w_db w1 = w_db w' -> no_faults w1 ->
  (forall rq e, req = Some rq -> token_expiry rq = Some (Some e) -> ((time_now w1).1 <= e)%Z) ->
  (verifyAPIKey token w1).1 = Ok (account_principal (sar r)).
Proof.
  pose proof (CreateToken_spec saID req w) as Hs. destruct (CreateToken_ saID req w) as [rep w'].
  intros Hp Hr Hdel Hdis Hw1 Hf Hexp. rewrite Hp in Hs.
  destruct Hs as (rq & expiry & now & -> & -> & He & _ & Huniq & Hd).
  rewrite Hd in Hw1.
  apply (verifyAPIKey_accepts token w1 id
    (mkToken id saID (ct_Name rq) (Prefix token) (Hash token) expiry None false EmptyString now)); [done| | |done|done|done| | |done|done];
    rewrite ?Hw1; cbn.
  - by rewrite lookup_insert_eq.
  - intros k' t' [[_ <-]|[_ Hk']]%lookup_insert_Some Hpre; [done|]. by destruct (Huniq k' t').
  - intros e Hx. subst expiry. by apply (Hexp rq e).
  - done.
Qed.

(** (lemma) Whatever the requests served, accounts and tokens stay sound: stored
    under their ids, with scopes of the catalog, tokens of stored accounts with
    distinct prefixes. *)
Theorem reachable_accounts_ok cache presign rqs w :
  accounts_ok (w_db w) ->
  accounts_ok (w_db (fold_left (fun w rq => (serve cache presign rq w).2) rqs w)).
Proof.
  revert w. induction rqs as [|rq rqs IH]; cbn; intros w Hw; [done|]. apply IH. by apply serve_accounts_ok.
Qed.
End Authenticate.

(** ** Requests across tenants *)

From S2P Require Import Session.

Module AccountsDemo.
Import Session.Demo.
#[local] Instance no_times : TimeParser := {| ParseRFC3339 _ := None |}.

Definition respond {B} (m : Eff (World AuthDB) (AdminReply B)) : Eff (World AuthDB) (Response B) :=
  fun w => let '(rep, w') := m w in (ar_resp rep, w').

(** Ada administers org1; org2 has its built-in account. *)
Definition system2 : ServiceAccount := NewSystemServiceAccount "sys2" "org2" AllScopes.
Definition reader1 : ServiceAccount :=
  mkServiceAccount "sa1" "org1" "CI" EmptyString ["docs:read"] false false None EmptyString 1 1.
Definition tenants : World AuthDB :=
  mkWorld
    (set_accounts (set_members (set_users empty_db {[ "u1" := ada ]})
        {[ ("u1", "org1") := member_row "u1" "org1" "admin" "manual" 1 1 ]})
      (list_to_map [("sys2", mkSARow system2 None); ("sa1", mkSARow reader1 None)]))
    [] 1000 [] (replicate 96 7%N).
Definition ada_principal : Principal := user_principal "u1" EmptyString.
Definition ask_token := Some (mkCreateToken "ci" None).
Definition minted (r : Response account_body) : string :=
  match payload r with Json (CreatedToken _ _ token) => token | _ => EmptyString end.

(** (lemma) An administrator of org1, who is no member of org2, asks org1's route
    for a token of org2's built-in service account, and gets a token that acts in
    org2 with every scope of the catalog: no handler of service accounts compares
    the account's organization with the one the route was authorized for. *)
Theorem token_crosses_tenants :
  let '(rep, w1) := requireScope "serviceaccounts:create-token" (Some ada_principal) "org1"
                      (fun _ => respond (CreateToken_ "sys2" ask_token)) tenants in
  status rep = 201%Z /\ members (w_db tenants) !! ("u1", "org2") = None /\
  (verifyAPIKey (minted rep) w1).1 = Ok (account_principal system2).
Proof. vm_compute. auto. Qed.

Lemma Delete_disables_keys_witness :
  accounts_ok (w_db tenants) /\
  tokens (w_db (Delete true "sa1" tenants).2) = tokens (w_db tenants).
Proof.
  assert (accounts_ok (w_db tenants)) as Hok.
  { split_and!; cbn.
    - intros k r [[<- <-]|[_ [[<- <-]|[_ Hr]]%lookup_insert_Some]]%lookup_insert_Some;
        [split; [done|]|split; [done|]|by rewrite lookup_empty in Hr];
        apply Forall_forall; intros s Hs; apply list_elem_of_In in Hs;
        repeat (destruct Hs as [<-|Hs]; [reflexivity|]); destruct Hs.
    - intros k t Ht. by rewrite lookup_empty in Ht.
    - intros k k' t t' Ht. by rewrite lookup_empty in Ht. }
  split; [exact Hok|].
  pose proof (Delete_disables_keys true "sa1" tenants Hok) as H.
  destruct (Delete true "sa1" tenants) as [rep w'] eqn:E. apply H.
  change rep with (rep, w').1. rewrite <-E. vm_compute. reflexivity.
Defined.

Lemma CreateToken_authenticates_witness :
  let '(rep, w1) := CreateToken_ "sa1" ask_token tenants in
  (verifyAPIKey (minted (ar_resp rep)) w1).1 = Ok (account_principal reader1).
Proof.
  destruct (CreateToken_ "sa1" ask_token tenants) as [rep w1] eqn:E.
  pose proof (CreateToken_authenticates "sa1" ask_token tenants (hex_encode (replicate 16 7%N)) "ci"
    (minted (ar_resp rep)) (mkSARow reader1 None) w1) as H.
  rewrite E in H. apply H; try reflexivity.
  - change rep with (rep, w1).1. rewrite <-E. vm_compute. reflexivity.
  - change w1 with (rep, w1).2. rewrite <-E. vm_compute. repeat constructor.
  - by intros rq e [= <-].
Defined.

Lemma reachable_accounts_ok_witness :
  accounts_ok (w_db demo_world) /\
  accounts_ok (w_db (serve true Some (ReqCreate "org1" (Some (mkCreateSA "CI" EmptyString ["docs:read"; "x:y"])))
                       demo_world).2).
Proof.
  assert (accounts_ok (w_db demo_world)) as Hok
    by (split_and!; cbn; intros *; rewrite lookup_empty; done).
  split; [exact Hok|].
  exact (reachable_accounts_ok true Some
    [ReqCreate "org1" (Some (mkCreateSA "CI" EmptyString ["docs:read"; "x:y"]))] demo_world Hok).
Defined.
End AccountsDemo.
