(* ===== verification/Orgs.v ===== *)
(** * Orgs: organizations and the instance overview

    Models [internal/api/auth/org.go] and [internal/api/admin/handler.go] over
    the identity tables.  Creating an organization is up to three statements
    without a transaction: [run k steps] is what the first [k] of them leave. *)

From S2P Require Import Prelude GoStrings Effects Table Authz RoleMap Identity AuthStore.
From S2P Require Import Middleware Session Members Accounts.
Set Warnings "-clear-no-such-hyp".

(** ** Requests and replies *)

Record orgResponse := mkOrgResponse {
  or_ID : string; or_Name : string; or_LogoURL : string; or_Disabled : bool; or_AutoJoin : bool;
  or_CreatedAt : Z; or_UpdatedAt : Z
}.
Record createOrgRequest := mkCreateOrg { co_Name : string; co_AutoJoin : bool }.
Record updateOrgRequest := mkUpdateOrg {
  uo_Name : option string; uo_Disabled : option bool; uo_AutoJoin : option bool
}.
Record overviewResponse := mkOverview { ov_TotalUsers : nat; ov_ActiveUsers : nat; ov_TotalOrgs : nat }.
Record configResponse := mkConfig {
  cf_StorageBackend : string; cf_StorageBucket : string; cf_StorageEndpoint : string;
  cf_StorageRegion : string; cf_VectorBackend : string; cf_EmbeddingBackend : string;
  cf_EmbeddingModel : string
}.

Inductive org_body : Type :=
| OrgList (l : list orgResponse)
| OneOrg (o : orgResponse)
| OverviewBody (o : overviewResponse)
| ConfigBody (c : configResponse).

(** [*asset.Resolver], which may be nil: the URL of an asset, empty without one. *)
Definition resolve_asset (assets : option (string -> option string)) (assetID : option string) : string :=
  match assetID, assets with
  | Some id, Some resolve => if str_empty id then EmptyString else default EmptyString (resolve id)
  | _, _ => EmptyString
  end.

Definition allScopeStrings : list string := AllScopes.

(** ** Handlers *)

Section Handlers.
Context `{Collation} `{UuidGen}.
Context (assets : option (string -> option string)).
Local Abbreviation W := (World AuthDB).
Local Abbreviation Reply := (Response org_body).

Definition logoURL (assetID : option string) : string := resolve_asset assets assetID.

Definition orgToResponse (o : Org) : orgResponse :=
  mkOrgResponse (o_ID o) (o_Name o) (logoURL (o_LogoAssetID o)) (o_Disabled o) (o_AutoJoin o)
                (o_CreatedAt o) (o_UpdatedAt o).

Definition List_ : Eff W Reply :=
  func (
    orgs <- try ListOrgs HttpError ;;
    gret (JSON 200 (OrgList (map orgToResponse orgs)))).

Definition ListMine (ctx : option Principal) : Eff W Reply :=
  func (
    p <- non_nil ctx Unauthorized ;;
    if String.eqb (p_Kind p) PrincipalServiceAccount then
      o <- try (GetOrg (p_OrgID p)) HttpError ;;
      gret (JSON 200 (OrgList (match o with Some o => [orgToResponse o] | None => [] end)))
    else if p_IsServerAdmin p then
      orgs <- try ListOrgs HttpError ;;
      gret (JSON 200 (OrgList (map orgToResponse orgs)))
    else
      views <- try (ListOrgsForUser (p_UserID p)) HttpError ;;
      gret (JSON 200 (OrgList (map (fun v => orgToResponse (mv_Org v)) views)))).

Definition Create (ctx : option Principal) (req : option createOrgRequest) : Eff W Reply :=
  func (
    p <- non_nil ctx Unauthorized ;;
    req <- non_nil req (BadRequest "invalid JSON") ;;
    return_if (str_empty (co_Name req)) (BadRequest "name is required") ;;;
    id <- try new_uuid (fun _ => panicked) ;;
    let o := mkOrg id (co_Name req) None false (co_AutoJoin req) false 0 0 in
    _ <- try (CreateOrg o) HttpError ;;
    (if String.eqb (p_Kind p) PrincipalUser
     then try (AddMember (member_row (p_UserID p) id "admin" "manual" 0 0)) HttpError
     else gret tt) ;;;
    said <- try new_uuid (fun _ => panicked) ;;
    _ <- try (CreateServiceAccount (NewSystemServiceAccount said id allScopeStrings)) HttpError ;;
    gret (JSON 201 (OneOrg (orgToResponse o)))).

Definition Get (orgID : string) : Eff W Reply :=
  func (
    o <- try (GetOrg orgID) HttpError ;;
    o <- non_nil o (HttpError ErrNotFound) ;;
    gret (JSON 200 (OneOrg (orgToResponse o)))).

Definition GetMine (ctx : option Principal) (orgID : string) : Eff W Reply :=
  func (
    p <- non_nil ctx Unauthorized ;;
    (if String.eqb (p_Kind p) PrincipalServiceAccount
     then return_if (negb (String.eqb (p_OrgID p) orgID)) Forbidden
     else if negb (p_IsServerAdmin p) then
       member <- try (GetMember (p_UserID p) orgID) HttpError ;;
       _ <- non_nil member (HttpError ErrNotFound) ;;
       gret tt
     else gret tt) ;;;
    o <- try (GetOrg orgID) HttpError ;;
    o <- non_nil o (HttpError ErrNotFound) ;;
    gret (JSON 200 (OneOrg (orgToResponse o)))).

(** The row a request asks for; absent fields keep their values. *)
Definition apply_org (req : updateOrgRequest) (o : Org) : Org :=
  mkOrg (o_ID o) (default (o_Name o) (uo_Name req)) (o_LogoAssetID o)
        (default (o_Disabled o) (uo_Disabled req)) (default (o_AutoJoin o) (uo_AutoJoin req))
        (o_OnboardingDone o) (o_CreatedAt o) (o_UpdatedAt o).

Definition Update (orgID : string) (req : option updateOrgRequest) : Eff W Reply :=
  func (
    req <- non_nil req (BadRequest "invalid JSON") ;;
    return_if (match uo_Name req with Some n => str_empty n | None => false end)
              (BadRequest "name is required") ;;;
    o <- try (GetOrg orgID) HttpError ;;
    o <- non_nil o (HttpError ErrNotFound) ;;
    let o := apply_org req o in
    _ <- try (UpdateOrg o) HttpError ;;
    gret (JSON 200 (OneOrg (orgToResponse o)))).

Definition Delete (orgID : string) : Eff W Reply :=
  func (
    _ <- try (DeleteOrg orgID) HttpError ;;
    gret no_content).

Definition CompleteOnboarding (orgID : string) : Eff W Reply :=
  func (
    o <- try (GetOrg orgID) HttpError ;;
    _ <- non_nil o (HttpError ErrNotFound) ;;
    _ <- try (SetOnboardingDone orgID) HttpError ;;
    gret no_content).

(** ** The instance overview: [api/admin/handler.go] *)

Definition Overview : Eff W Reply :=
  func (
    totalUsers <- try CountAllUsers HttpError ;;
    activeUsers <- try CountActiveUsers HttpError ;;
    totalOrgs <- try CountAllOrgs HttpError ;;
    gret (JSON 200 (OverviewBody (mkOverview totalUsers activeUsers totalOrgs)))).

(** [cfg] is the part of the configuration the handler shows. *)
Definition Config (cfg : configResponse) : Eff W Reply := func (gret (JSON 200 (ConfigBody cfg))).
End Handlers.

(** ** Creating an organization *)

(** The first [k] of a sequence of statements. *)
Definition run (k : nat) (steps : list (AuthDB -> AuthDB)) (d : AuthDB) : AuthDB :=
  fold_left (fun d f => f d) (take k steps) d.

Definition put_user (u : User) (d : AuthDB) : AuthDB := set_users d (<[u_ID u := u]> (users d)).
Definition put_org (o : Org) (d : AuthDB) : AuthDB := set_orgs d (<[o_ID o := o]> (orgs d)).
Definition put_member (m : Member) (d : AuthDB) : AuthDB :=
  set_members d (<[(m_UserID m, m_OrgID m) := m]> (members d)).
Definition put_account (r : SARow) (d : AuthDB) : AuthDB :=
  set_accounts d (<[sa_ID (sar r) := r]> (accounts d)).

(** The rows of a new organization: itself, its first admin, its built-in account. *)
Definition new_org (id : string) (req : createOrgRequest) (t : Z) : Org :=
  mkOrg id (co_Name req) None false (co_AutoJoin req) false t t.
Definition admin_row (userID orgID : string) (t : Z) : Member := member_row userID orgID "admin" "manual" t t.
Definition system_row (id orgID : string) (t : Z) : SARow :=
  mkSARow (stamp_sa (NewSystemServiceAccount id orgID allScopeStrings) None t t) None.

Lemma HttpError_not_201 {B} e : status (HttpError (B := B) e) <> 201%Z.
Proof. by destruct e. Qed.

Section StoreLemmas.
Context `{Collation} `{UuidGen}.

Lemma new_uuid_db (w : World AuthDB) : w_db (new_uuid w).2 = w_db w.
Proof. unfold new_uuid. pose proof (rand_read_db 16 w). by destruct (rand_read 16 w). Qed.

Lemma CreateOrg_spec o w :
  let '(r, w') := CreateOrg o w in
  match r with
  | Ok _ => orgs (w_db w) !! o_ID o = None /\ exists t, w_db w' = put_org (stamp_org o t) (w_db w)
  | Err _ => w_db w' = w_db w
  end.
Proof.
  unfold CreateOrg. apply wp_let. wp_step. pose proof (time_now_db w) as Hd.
  destruct (time_now w) as [t w1]. cbn in Hd |- *. wp_step. destruct (db_op _ w1) as [r w2] eqn:E. cbn.
  apply db_op_cases in E as [[-> ->]|(d & Hf & ->)]; [done|]. rewrite Hd in Hf.
  destruct (found _) eqn:Ef; simplify_eq; [done|]. apply found_false in Ef. split; [done|]. by exists t.
Qed.

Lemma CreateServiceAccount_spec sa w :
  let '(r, w') := CreateServiceAccount sa w in
  match r with
  | Ok _ => exists t, w_db w' = put_account (mkSARow (stamp_sa sa None t t) None) (w_db w)
  | Err _ => w_db w' = w_db w
  end.
Proof.
  unfold CreateServiceAccount. apply wp_let. wp_step. pose proof (time_now_db w) as Hd.
  destruct (time_now w) as [t w1]. cbn in Hd |- *. wp_step. destruct (db_op _ w1) as [r w2] eqn:E. cbn.
  apply db_op_cases in E as [[-> ->]|(d & Hf & ->)]; [done|]. rewrite Hd in Hf.
  destruct (_ || _); simplify_eq; [done|]. by exists t.
Qed.
End StoreLemmas.

Section Creation.
Context `{Collation} `{UuidGen}.
Context (assets : option (string -> option string)).

(** The statements of [Create] for a principal and a request. *)
Definition create_steps (p : Principal) (o : Org) (t : Z) (sa : SARow) : list (AuthDB -> AuthDB) :=
  [put_org o] ++
  (if String.eqb (p_Kind p) PrincipalUser then [put_member (admin_row (p_UserID p) (o_ID o) t)] else []) ++
  [put_account sa].

(** A reply to [Create] and the tables it leaves: the first [k] statements ran. *)
Inductive create_outcome (p : Principal) (rq : createOrgRequest) (rep : Response org_body) (d d' : AuthDB) : Prop :=
| CreateOutcome id t1 t2 said t3 k :
    orgs d !! id = None ->
    let steps := create_steps p (new_org id rq t1) t2 (system_row said id t3) in
    d' = run k steps d -> 1 <= k <= length steps -> (status rep = 201%Z <-> k = length steps) ->
    (status rep = 201%Z ->
       rep = JSON 201 (OneOrg (mkOrgResponse id (co_Name rq) EmptyString false (co_AutoJoin rq) 0 0))) ->
    create_outcome p rq rep d d'.

Lemma create_stopped p rq rep d d' id t1 t2 said t3 k :
  orgs d !! id = None -> status rep <> 201%Z ->
  d' = run k (create_steps p (new_org id rq t1) t2 (system_row said id t3)) d ->
  1 <= k < length (create_steps p (new_org id rq t1) t2 (system_row said id t3)) ->
  create_outcome p rq rep d d'.
Proof.
  intros Hn Hs Hd Hk. apply (CreateOutcome _ _ _ _ _ id t1 t2 said t3 k); [done|done|lia| |done].
  split; [done|lia].
Qed.

Lemma Create_spec ctx req w :
  let '(rep, w') := Create assets ctx req w in
  (status rep <> 201%Z /\ w_db w' = w_db w) \/
  exists p rq, ctx = Some p /\ req = Some rq /\ co_Name rq <> EmptyString /\
               create_outcome p rq rep (w_db w) (w_db w').
Proof.
  unfold Create. apply wp_let. wp_step. split; [intros _; by left|]. intros p ->.
  wp_step. split; [intros _; by left|]. intros rq ->.
  wp_step. split; [intros _; by left|]. intros Hname%str_empty_false.
  wp_step. pose proof (new_uuid_db w) as Hd1. destruct (new_uuid w) as [[id|e] w1]; [|by left].
  cbn in Hd1. wp_step.
  match goal with |- context [CreateOrg ?o w1] => pose proof (CreateOrg_spec o w1) as Ho;
    destruct (CreateOrg o w1) as [[[]|e] w2] end;
    [|left; split; [apply HttpError_not_201|congruence]].
  destruct Ho as (Hnew & t1 & Hd2). rewrite Hd1 in Hd2, Hnew. cbn in Hnew. apply wp_bind.
  set (n := if String.eqb (p_Kind p) PrincipalUser then 2 else 1).
  assert (forall t2 sa, length (create_steps p (new_org id rq t1) t2 sa) = S n) as Hlen
    by (intros; unfold create_steps, n; by destruct (String.eqb _ _)).
  assert (forall t2 sa, run 1 (create_steps p (new_org id rq t1) t2 sa) (w_db w) = w_db w2) as H1
    by (intros; by rewrite Hd2).
  apply (wp_mono _ (fun rep w' => status rep <> 201%Z /\ w_db w' = w_db w2) _
    (fun _ w' => exists t2, forall sa, w_db w' = run n (create_steps p (new_org id rq t1) t2 sa) (w_db w))).
  - subst n. unfold create_steps in *. destruct (String.eqb (p_Kind p) PrincipalUser); wp_step.
    + match goal with |- context [AddMember ?m w2] => pose proof (AddMember_spec m w2) as Hm;
        destruct (AddMember m w2) as [[[]|e] w3] end; [|split; [apply HttpError_not_201|done]].
      destruct Hm as (t2 & Hd3 & _). exists t2. intros sa. rewrite Hd3, Hd2. done.
    + exists 0%Z. intros sa. by rewrite Hd2.
  - intros rep w' [Hs Hd]. right. exists p, rq. split_and!; try done.
    apply (create_stopped _ _ _ _ _ id t1 0%Z EmptyString 0%Z 1); [done|done|by rewrite H1|].
    rewrite Hlen. unfold n. destruct (String.eqb _ _); lia.
  - intros [] w3 [t2 Hd3]. wp_step. pose proof (new_uuid_db w3) as Hd4.
    assert (forall rep w', status rep <> 201%Z -> w_db w' = w_db w3 ->
      create_outcome p rq rep (w_db w) (w_db w')) as Hstop.
    { intros rep w' Hs Hd. apply (create_stopped _ _ _ _ _ id t1 t2 EmptyString 0%Z n); [done|done| |].
      - by rewrite Hd.
      - rewrite Hlen. unfold n. destruct (String.eqb _ _); lia. }
    destruct (new_uuid w3) as [[said|e] w4]; cbn in Hd4; [|right; exists p, rq; split_and!; auto].
    wp_step. match goal with |- context [CreateServiceAccount ?sa w4] => pose proof (CreateServiceAccount_spec sa w4) as Hsa;
        destruct (CreateServiceAccount sa w4) as [[[]|e] w5] end;
      [|right; exists p, rq; split_and!; try done; apply Hstop; [apply HttpError_not_201|congruence]].
    destruct Hsa as (t3 & Hd5). right. exists p, rq. split_and!; try done.
    apply (CreateOutcome _ _ _ _ _ id t1 t2 said t3 (S n)); rewrite ?Hlen; [done| |lia|done|done].
    rewrite Hd5, Hd4, (Hd3 (system_row said id t3)). unfold create_steps, n.
    by destruct (String.eqb _ _).
Qed.

(** (lemma) Creating an organization is three statements without a transaction: 201
    exactly when all ran - the organization under a new id, the caller's admin
    membership when the caller is a user, the built-in account with every
    scope - and any other reply to a well-formed request leaves a proper prefix
    of them behind, an organization without an administrator among them.  The
    201 reply shows the zero time for both timestamps. *)
Theorem Create_correct ctx req w :
  let '(rep, w') := Create assets ctx req w in
  (status rep <> 201%Z /\ w_db w' = w_db w) \/
  exists p rq, ctx = Some p /\ req = Some rq /\ co_Name rq <> EmptyString /\
               create_outcome p rq rep (w_db w) (w_db w').
Proof. apply Create_spec. Qed.
End Creation.

(** ** Seeing organizations *)

(** A service account sees its own organization, a server admin every one, a
    user those it is a member of. *)
Definition may_see (p : Principal) (d : AuthDB) (orgID : string) : Prop :=
  if String.eqb (p_Kind p) PrincipalServiceAccount then p_OrgID p = orgID
  else p_IsServerAdmin p = true \/ is_Some (members d !! (p_UserID p, orgID)).

(** Rows are stored under the keys they carry. *)
Definition orgs_keyed (d : AuthDB) : Prop :=
  (forall k o, orgs d !! k = Some o -> o_ID o = k) /\
  (forall k m, members d !! k = Some m -> k = (m_UserID m, m_OrgID m)).

Section Visibility.
Context `{Collation}.
Context (assets : option (string -> option string)).

Lemma GetMine_spec ctx orgID w :
  let '(rep, w') := GetMine assets ctx orgID w in
  w_db w' = w_db w /\
  (status rep = 200%Z -> exists p o, ctx = Some p /\ orgs (w_db w) !! orgID = Some o /\
     may_see p (w_db w) orgID /\ rep = JSON 200 (OneOrg (orgToResponse assets o))).
Proof.
  unfold GetMine. apply wp_let.
  assert (forall e, status (HttpError (B := org_body) e) = 200%Z -> False) as Hno by (by intros []).
  wp_step. split; [by intros _|]. intros p ->. apply wp_bind.
  apply (wp_mono _ (fun rep w' => w_db w' = w_db w /\ status rep <> 200%Z) _
           (fun _ w' => w_db w' = w_db w /\ may_see p (w_db w) orgID)).
  - unfold may_see. destruct (String.eqb (p_Kind p) PrincipalServiceAccount).
    + wp_step. split; [by intros _|]. intros Ho%negb_false_iff%String.eqb_eq. done.
    + destruct (p_IsServerAdmin p); cbn [negb]; [by wp_step; split; [|left]|].
      wp_step. destruct (GetMember _ _ w) as [[om|e] w1] eqn:E1; pose proof (db_read_db _ _ _ _ E1) as Hd1;
        [|by split; [|apply HttpError_not_200]].
      apply db_read_ok in E1 as [Hom _]. wp_step. split; [intros _; by split|]. intros m ->. wp_step.
      split; [done|]. right. by exists m.
  - intros rep w' [Hd Hs]. by split.
  - intros _ w1 [Hd1 Hsee]. wp_step.
    destruct (GetOrg orgID w1) as [[oo|e] w2] eqn:E2; pose proof (db_read_db _ _ _ _ E2) as Hd2;
      [|split; [congruence|by intros ?%Hno]].
    apply db_read_ok in E2 as [Hoo _]. wp_step. split; [intros _; split; [congruence|done]|]. intros o ->.
    wp_step. split; [congruence|]. intros _. exists p, o. split_and!; congruence || done.
Qed.

Lemma GetMine_answers p orgID o w :
  no_faults w -> orgs (w_db w) !! orgID = Some o -> may_see p (w_db w) orgID ->
  (GetMine assets (Some p) orgID w).1 = JSON 200 (OneOrg (orgToResponse assets o)).
Proof.
  intros Hw Ho Hsee. unfold GetMine, func, gbind, non_nil, gret. cbn beta iota. unfold may_see in Hsee.
  destruct (String.eqb (p_Kind p) PrincipalServiceAccount).
  - subst. rewrite String.eqb_refl. cbn [negb return_if gret]. unfold try, gbind, call, GetOrg, db_read.
    rewrite db_op_run by done. cbn. by rewrite Ho.
  - destruct (p_IsServerAdmin p); cbn [negb].
    + unfold gret, try, gbind, call, GetOrg, db_read. rewrite db_op_run by done. cbn. by rewrite Ho.
    + destruct Hsee as [?|[m Hm]]; [done|]. unfold try, gbind, call, GetMember, GetOrg, db_read.
      rewrite db_op_run by done. cbn. rewrite Hm. cbn. rewrite db_op_run by (by apply no_faults_tail).
      cbn. by rewrite Ho.
Qed.

Lemma all_orgs_listed d id :
  orgs_keyed d ->
  id ∈ map or_ID (map (orgToResponse assets) (order_by (by_text o_Name) (rows (orgs d)))) <->
  is_Some (orgs d !! id).
Proof.
  intros [Hk _]. rewrite map_map, list_elem_of_In, in_map_iff. cbn. split.
  - intros (o & <- & Ho). apply list_elem_of_In, sort_stable_elem, rows_elem in Ho as [k Ho].
    rewrite (Hk _ _ Ho). by exists o.
  - intros [o Ho]. exists o. split; [by apply Hk|].
    apply list_elem_of_In, sort_stable_elem, rows_elem. by exists id.
Qed.

Lemma member_orgs_listed d u id :
  orgs_keyed d ->
  id ∈ map or_ID (map (fun v => orgToResponse assets (mv_Org v))
    (order_by (by_text (fun v => o_Name (mv_Org v)))
       (omap (membership_view d) (select (fun m => String.eqb (m_UserID m) u) (members d))))) <->
  is_Some (orgs d !! id) /\ is_Some (members d !! (u, id)).
Proof.
  intros [Hk Hm]. rewrite map_map, list_elem_of_In, in_map_iff. split.
  - intros (v & <- & Hv). apply list_elem_of_In, sort_stable_elem, list_elem_of_omap in Hv as (m & Hin & Hv).
    apply select_elem in Hin as [[k Hmk] Hu%String.eqb_eq]. unfold membership_view in Hv.
    destruct (orgs d !! m_OrgID m) as [o|] eqn:Ho; [|done]. injection Hv as <-. cbn.
    rewrite (Hk _ _ Ho). split; [by exists o|]. rewrite (Hm _ _ Hmk) in Hmk. subst u. by exists m.
  - intros [[o Ho] [m Hmk]]. pose proof (Hm _ _ Hmk) as [= Hu Hid].
    assert (membership_view d m = Some (mkMembershipView (mkOrg (o_ID o) (o_Name o) (o_LogoAssetID o)
      (o_Disabled o) false (o_OnboardingDone o) (o_CreatedAt o) (o_UpdatedAt o)) (m_Role m))) as Hv
      by (unfold membership_view; by rewrite <-Hid, Ho).
    eexists. split; [|apply list_elem_of_In, sort_stable_elem, list_elem_of_omap; exists m; split; [|exact Hv]].
    + cbn. by apply Hk.
    + apply select_elem. split; [by eexists|]. by apply String.eqb_eq.
Qed.

(** (lemma) The list of one's organizations and the organizations one may open are
    the same: without failures the list of any principal holds exactly the
    stored organizations that [GetMine] shows it.  But the list of an ordinary
    user reports every organization as not auto-joining. *)
Theorem ListMine_correct p w :
  no_faults w -> orgs_keyed (w_db w) ->
  exists l, (ListMine assets (Some p) w).1 = JSON 200 (OrgList l) /\
    (forall id, id ∈ map or_ID l <->
       exists o, orgs (w_db w) !! id = Some o /\
                 (GetMine assets (Some p) id w).1 = JSON 200 (OneOrg (orgToResponse assets o))) /\
    (p_Kind p = PrincipalUser -> p_IsServerAdmin p = false -> Forall (fun r => or_AutoJoin r = false) l).
Proof.
  intros Hw Hk.
  assert (forall id, (is_Some (orgs (w_db w) !! id) /\ may_see p (w_db w) id) <->
    exists o, orgs (w_db w) !! id = Some o /\
      (GetMine assets (Some p) id w).1 = JSON 200 (OneOrg (orgToResponse assets o))) as Hsee.
  { intros id. split.
    - intros [[o Ho] Hs]. exists o. split; [done|]. by apply GetMine_answers.
    - intros (o & Ho & Hr). split; [by exists o|]. pose proof (GetMine_spec (Some p) id w) as Hg.
      destruct (GetMine _ _ _ w) as [rep w']. cbn in Hr. destruct Hg as [_ Hg].
      destruct Hg as (p' & o' & [= <-] & _ & Hm & _); [by rewrite Hr|done]. }
  setoid_rewrite <-Hsee. unfold ListMine, func, gbind, non_nil, gret, may_see. cbn beta iota.
  destruct (String.eqb_spec (p_Kind p) PrincipalServiceAccount) as [Hkind|Hkind].
  - unfold try, gbind, call, GetOrg, db_read. rewrite db_op_run by done. cbn.
    eexists. split; [reflexivity|]. split; [|by rewrite Hkind]. intros id. destruct Hk as [Hk _].
    destruct (orgs (w_db w) !! p_OrgID p) as [o|] eqn:Ho; cbn.
    + rewrite (Hk _ _ Ho), list_elem_of_singleton. split; [by intros ->; split; [eexists|]|by intros [_ <-]].
    + split; [by intros ?%elem_of_nil|]. intros [[o Ho'] <-]. congruence.
  - destruct (p_IsServerAdmin p) eqn:Hsa; unfold try, gbind, call, ListOrgs, ListOrgsForUser, db_read;
      rewrite db_op_run by done; cbn [fst snd gret].
    + eexists. split; [reflexivity|]. split; [|done]. intros id. rewrite all_orgs_listed by done.
      split; [by intros; split; [|left]|by intros [? _]].
    + eexists. split; [reflexivity|]. split.
      * intros id. rewrite member_orgs_listed by done. split; [by intros [? ?]; split; [|right]|].
        by intros [? [?|?]].
      * intros _ _. apply Forall_forall. intros r. rewrite list_elem_of_In, in_map_iff.
        intros (v & <- & Hv). apply list_elem_of_In, sort_stable_elem, list_elem_of_omap in Hv as (m & _ & Hv).
        unfold membership_view in Hv. destruct (orgs _ !! _); [by injection Hv as <-|done].
Qed.
End Visibility.

(** ** Deleting an organization *)

(** Every foreign key of the identity tables points to a row. *)
Record fk_ok (d : AuthDB) : Prop := mkFkOk {
  fk_domains k x : domains d !! k = Some x -> is_Some (orgs d !! od_OrgID x);
  fk_members k x : members d !! k = Some x -> is_Some (orgs d !! m_OrgID x) /\ is_Some (users d !! m_UserID x);
  fk_teams k x : teams d !! k = Some x -> is_Some (orgs d !! t_OrgID x);
  fk_team_members k x : team_members d !! k = Some x ->
    is_Some (orgs d !! tm_OrgID x) /\ is_Some (teams d !! tm_TeamID x) /\ is_Some (users d !! tm_UserID x);
  fk_sessions k x : sessions d !! k = Some x -> is_Some (users d !! s_UserID x);
  fk_providers k x : providers d !! k = Some x -> is_Some (orgs d !! ap_OrgID x);
  fk_rules k x : rules d !! k = Some x -> is_Some (providers d !! r_ProviderID (rr_Rule x));
  fk_states k x : states d !! k = Some x ->
    is_Some (orgs d !! ls_OrgID x) /\ is_Some (providers d !! ls_ProviderID x);
  fk_identities k x : identities d !! k = Some x -> is_Some (users d !! ai_UserID x);
  fk_accounts k x : accounts d !! k = Some x -> is_Some (orgs d !! sa_OrgID (sar x));
  fk_tokens k x : tokens d !! k = Some x -> is_Some (accounts d !! tok_ServiceAccountID x)
}.

(** A row survives when its organization is not the deleted one. *)
Lemma org_survives {V} (t : gmap string V) (id k : string) : k <> id -> is_Some (t !! k) -> is_Some (delete id t !! k).
Proof. intros Hne. by rewrite lookup_delete_ne. Qed.

Lemma row_survives {V} (t : gmap string V) (p : V -> bool) k :
  match t !! k with Some r => p r | None => false end = false -> is_Some (t !! k) ->
  is_Some (delete_where p t !! k).
Proof.
  intros Hp [r Hr]. rewrite Hr in Hp. exists r. by apply lookup_delete_where.
Qed.

Lemma cascade_fk_ok id d : fk_ok d -> fk_ok (cascade_org id d).
Proof.
  intros Hd. split; cbn [domains members teams team_members sessions providers rules states identities
    accounts tokens orgs users cascade_org]; intros k x Hx;
    try (apply lookup_delete_where in Hx as [Hx Hp]; rewrite ?orb_false_iff in Hp).
  - apply String.eqb_neq in Hp. apply org_survives; [done|]. by apply (fk_domains d Hd k).
  - apply String.eqb_neq in Hp. destruct (fk_members d Hd k x Hx). split; [by apply org_survives|done].
  - apply String.eqb_neq in Hp. apply org_survives; [done|]. by apply (fk_teams d Hd k).
  - destruct Hp as [Hp%String.eqb_neq Ht]. destruct (fk_team_members d Hd k x Hx) as (Ho & Hteam & Hu).
    split_and!; [by apply org_survives|by apply row_survives|done].
  - by apply (fk_sessions d Hd k).
  - apply String.eqb_neq in Hp. apply org_survives; [done|]. by apply (fk_providers d Hd k).
  - apply row_survives; [done|]. by apply (fk_rules d Hd k).
  - destruct Hp as [Hp%String.eqb_neq Ht]. destruct (fk_states d Hd k x Hx).
    split; [by apply org_survives|by apply row_survives].
  - by apply (fk_identities d Hd k).
  - apply String.eqb_neq in Hp. apply org_survives; [done|]. by apply (fk_accounts d Hd k).
  - apply row_survives; [done|]. by apply (fk_tokens d Hd k).
Qed.

Section Deletion.
Context `{Collation} `{Sha256}.

(** (lemma) Deleting an organization: any reply but 204 leaves the tables alone.
    After a 204 every foreign key still points to a row, so nothing refers to
    the organization: nobody is a member of it and no API key acts
    for it.  Users, their sessions, and the rows of other organizations stay. *)
Theorem Delete_erases orgID w :
  fk_ok (w_db w) ->
  let '(rep, w') := Delete orgID w in
  (status rep <> 204%Z -> w_db w' = w_db w) /\ fk_ok (w_db w') /\
  (status rep = 204%Z ->
     orgs (w_db w') = delete orgID (orgs (w_db w)) /\
     users (w_db w') = users (w_db w) /\ sessions (w_db w') = sessions (w_db w) /\
     (forall k m, members (w_db w') !! k = Some m <-> members (w_db w) !! k = Some m /\ m_OrgID m <> orgID) /\
     (forall k r, accounts (w_db w') !! k = Some r <->
        accounts (w_db w) !! k = Some r /\ sa_OrgID (sar r) <> orgID) /\
     (forall key w1 p, w_db w1 = w_db w' -> (verifyAPIKey key w1).1 = Ok p -> p_OrgID p <> orgID)).
Proof.
  intros Hd. unfold Delete. apply wp_let. wp_step. unfold DeleteOrg, db_write.
  destruct (db_op _ w) as [r w1] eqn:E. apply db_op_cases in E as [[-> Hd1]|(d & Hf & Hd1)].
  { split_and!; [by intros _|by rewrite Hd1|done]. }
  injection Hf as <- <-. wp_step. split_and!; [done|rewrite Hd1; by apply cascade_fk_ok|].
  intros _. rewrite Hd1. cbn [orgs users sessions members accounts cascade_org]. split_and!; try done.
  - intros k m. by rewrite lookup_delete_where, String.eqb_neq.
  - intros k x. by rewrite lookup_delete_where, String.eqb_neq.
  - intros key w2 p Hw2 Hp He. pose proof (verifyAPIKey_grants key w2) as Hg.
    destruct (verifyAPIKey key w2) as [res w3]. cbn in Hp. destruct Hg as [_ Hg].
    destruct (Hg p Hp) as (t & _ & kk & tok & r & _ & _ & _ & _ & _ & Hr & _ & _ & ->).
    rewrite Hw2 in Hr. cbn in Hr, He. apply lookup_delete_where in Hr as [_ Hr].
    by apply String.eqb_neq in Hr.
Qed.
End Deletion.

(** ** The creator of an organization *)

Section Creator.
Context `{Collation} `{UuidGen}.
Context (assets : option (string -> option string)).

(** (lemma) A user whose request to create an organization is answered 201 is its
    administrator and can open it from then on; the built-in account has every
    scope, and nobody else's membership changed. *)
Theorem creator_enters p req r w :
  let '(rep, w') := Create assets (Some p) req w in
  rep = JSON 201 (OneOrg r) -> p_Kind p = PrincipalUser ->
  (exists m, members (w_db w') !! (p_UserID p, or_ID r) = Some m /\ m_Role m = "admin") /\
  (forall k, k <> (p_UserID p, or_ID r) -> members (w_db w') !! k = members (w_db w) !! k) /\
  (exists k sa, accounts (w_db w') !! k = Some (mkSARow sa None) /\ sa_OrgID sa = or_ID r /\
                sa_IsInternal sa = true /\ sa_Scopes sa = AllScopes) /\
  (forall w1, w_db w1 = w_db w' -> no_faults w1 ->
     exists o, (GetMine assets (Some p) (or_ID r) w1).1 = JSON 200 (OneOrg (orgToResponse assets o)) /\
               o_ID o = or_ID r /\ Some (o_Name o) = option_map co_Name req).
Proof.
  pose proof (Create_spec assets (Some p) req w) as Hs. destruct (Create _ _ _ w) as [rep w'].
  intros -> Hkind. destruct Hs as [[Hs _]|(p' & rq & [= <-] & -> & _ & Hout)]; [done|].
  destruct Hout as [id t1 t2 said t3 k Hnew steps Hd Hk Hst Hrep]. specialize (Hrep eq_refl).
  rewrite (proj1 Hst eq_refl) in Hd. clear Hst Hk. injection Hrep as ->. subst steps. cbn [or_ID].
  unfold create_steps in Hd. rewrite Hkind in Hd. cbn in Hd. rewrite Hd.
  cbn [put_account put_member put_org set_accounts set_members set_orgs members accounts orgs].
  split_and!.
  - eexists. split; [apply lookup_insert_eq|done].
  - intros x Hx. by rewrite lookup_insert_ne.
  - exists said, (sar (system_row said id t3)). split_and!; [apply lookup_insert_eq|done..].
  - intros w1 Hw1 Hf. exists (new_org id rq t1). split_and!; [|done|done].
    apply GetMine_answers; [done| |]; rewrite Hw1.
    + cbn. by rewrite lookup_insert_eq.
    + unfold may_see. rewrite Hkind. cbn. right. eexists. apply lookup_insert_eq.
Qed.

(** (lemma) [GetMine] reveals an organization only to a principal that may see it, and
    changes nothing. *)
Theorem GetMine_correct ctx orgID w :
  let '(rep, w') := GetMine assets ctx orgID w in
  w_db w' = w_db w /\
  (status rep = 200%Z -> exists p o, ctx = Some p /\ orgs (w_db w) !! orgID = Some o /\
     may_see p (w_db w) orgID /\ rep = JSON 200 (OneOrg (orgToResponse assets o))).
Proof. apply GetMine_spec. Qed.
End Creator.

Module OrgsDemo.
Import Session.Demo.

Definition acme : Org := mkOrg "org1" "Acme" None false true false 1 1.
Definition one_org : AuthDB :=
  set_members (set_users (set_orgs empty_db {[ "org1" := acme ]}) {[ "u1" := ada ]})
    {[ ("u1", "org1") := member_row "u1" "org1" "admin" "manual" 1 1 ]}.
Definition demo : World AuthDB := mkWorld one_org [] 1000 [] (replicate 96 7%N).
Definition ada_principal : Principal := user_principal "u1" EmptyString.
Definition ask := Some (mkCreateOrg "Umbrella" true).
Definition new_id : string := hex_encode (replicate 16 7%N).

Lemma one_org_keyed : orgs_keyed one_org.
Proof.
  split.
  - intros k o Ho. cbn in Ho. apply lookup_singleton_Some in Ho as [<- <-]. done.
  - intros k m Hm. cbn in Hm. apply lookup_singleton_Some in Hm as [<- <-]. done.
Qed.
Lemma one_org_fk : fk_ok one_org.
Proof.
  split; intros k x Hx; cbn in Hx; try (rewrite lookup_empty in Hx; discriminate);
    try (apply lookup_singleton_Some in Hx as [<- <-]; vm_compute; eauto).
Qed.

Lemma ListMine_correct_witness :
  orgs_keyed (w_db demo) /\
  exists l, (ListMine None (Some ada_principal) demo).1 = JSON 200 (OrgList l) /\ map or_ID l = ["org1"] /\
            Forall (fun r => or_AutoJoin r = false) l.
Proof.
  split; [exact one_org_keyed|].
  destruct (ListMine_correct None ada_principal demo (Forall_nil_2 _) one_org_keyed) as (l & Hl & _ & Ha).
  exists l. split; [exact Hl|]. split; [|exact (Ha eq_refl eq_refl)].
  vm_compute in Hl. injection Hl as <-. reflexivity.
Defined.

Lemma Delete_erases_witness :
  fk_ok (w_db demo) /\ orgs (w_db (Delete "org1" demo).2) !! "org1" = None /\
  members (w_db (Delete "org1" demo).2) !! ("u1", "org1") = None.
Proof.
  split; [exact one_org_fk|]. pose proof (Delete_erases "org1" demo one_org_fk) as H.
  destruct (Delete "org1" demo) as [rep w'] eqn:E.
  assert (status rep = 204%Z) as Hs by (change rep with (rep, w').1; rewrite <-E; vm_compute; reflexivity).
  destruct H as (_ & _ & H). destruct (H Hs) as (Ho & _ & _ & Hm & _). cbn [snd]. rewrite Ho. split.
  - apply lookup_delete_eq.
  - destruct (members (w_db w') !! ("u1", "org1")) as [m|] eqn:Em; [|reflexivity].
    apply Hm in Em as [Em Hne]. vm_compute in Em. injection Em as <-. by destruct Hne.
Defined.

(** The first of two failures of transport leaves an organization nobody administers. *)
Definition failing : World AuthDB := mkWorld one_org [false; true] 1000 [] (replicate 96 7%N).
Example orphan_org :
  let '(rep, w') := Create None (Some ada_principal) ask failing in
  status rep = 500%Z /\ option_map o_Name (orgs (w_db w') !! new_id) = Some "Umbrella" /\
  members (w_db w') = members one_org.
Proof. vm_compute. auto. Qed.

Lemma creator_enters_witness :
  let r := mkOrgResponse new_id "Umbrella" EmptyString false true 0 0 in
  (Create None (Some ada_principal) ask demo).1 = JSON 201 (OneOrg r) /\
  exists m, members (w_db (Create None (Some ada_principal) ask demo).2) !! ("u1", new_id) = Some m /\
            m_Role m = "admin".
Proof.
  intros r. pose proof (creator_enters None ada_principal ask r demo) as H.
  destruct (Create None (Some ada_principal) ask demo) as [rep w'] eqn:E.
  assert (rep = JSON 201 (OneOrg r)) as Hr by (change rep with (rep, w').1; rewrite <-E; vm_compute; reflexivity).
  split; [exact Hr|]. exact (proj1 (H Hr eq_refl)).
Defined.
End OrgsDemo.
