(* ===== verification/Users.v ===== *)
(** * Users: the users of the instance, and account provisioning

    Models [internal/api/auth/user.go] and [signup.go] over the identity
    tables.  bcrypt is an argument: hashing as in [Members], comparing as in
    [Session]; that a hash matches the password it was made from is a named
    hypothesis. *)

From S2P Require Import Prelude GoStrings Effects Table Authz Identity Crypto AuthStore.
From S2P Require Import Middleware Session Members Accounts Orgs.
Set Warnings "-clear-no-such-hyp".

(** ** Requests and replies *)

Record userResponse := mkUserResponse {
  ur_ID : string; ur_Email : string; ur_Name : string; ur_Login : string; ur_Disabled : bool;
  ur_Role : string; ur_AvatarURL : string; ur_LastSeenAt : option Z; ur_CreatedAt : Z; ur_UpdatedAt : Z
}.
Record createUserRequest := mkCreateUser {
  cu_Email : string; cu_Name : string; cu_Password : string; cu_Role : string
}.
Record updateUserRequest := mkUpdateUser {
  uu_Name : string; uu_Role : string; uu_Disabled : option bool
}.
Record provisionAccountRequest := mkProvision {
  pa_Email : string; pa_Password : string; pa_Name : string; pa_OrgName : string
}.

Inductive user_body : Type :=
| UserList (l : list userResponse)
| OneUser (u : userResponse)
| TemporaryPassword (password : string)
| Provisioned (sessionToken : string) (expiresAt : Z) (userID orgID : string)
| AccountLookup (userID name email : string).

Definition validUserRole (role : string) : bool :=
  String.eqb role "user" || String.eqb role "server_admin".

(** ** Handlers of [UserHandler] *)

Section Handlers.
Context `{Collation} `{PasswordHash}.
Context (cache : bool) (assets : option (string -> option string)).
Local Abbreviation W := (World AuthDB).
Local Abbreviation Reply := (AdminReply user_body).
Local Abbreviation fail e := (just (HttpError e)).

Definition userToResponse (u : User) : userResponse :=
  mkUserResponse (u_ID u) (u_Email u) (u_Name u) (u_Login u) (u_Disabled u) (u_Role u)
    (resolve_asset assets (u_AvatarAssetID u)) (u_LastSeenAt u) (u_CreatedAt u) (u_UpdatedAt u).

Definition List_ : Eff W Reply :=
  func (
    users <- try ListAllUsers (fun e => fail e) ;;
    gret (just (JSON 200 (UserList (map userToResponse users))))).

Definition hash_password (password : string) : Go W Reply string :=
  non_nil (GenerateFromPassword password) (fail (ErrOther "bcrypt")).

Definition Create (req : option createUserRequest) : Eff W Reply :=
  func (
    req <- non_nil req (just (BadRequest "invalid JSON")) ;;
    return_if (str_empty (cu_Email req) || str_empty (cu_Name req) || str_empty (cu_Password req))
              (just (BadRequest "email, name, and password are required")) ;;;
    hash <- hash_password (cu_Password req) ;;
    let role := if str_empty (cu_Role req) then "user" else cu_Role req in
    return_if (negb (validUserRole role))
              (just (BadRequest "role must be 'user' or 'server_admin'")) ;;;
    existing <- try (GetUserByEmail (cu_Email req)) (fun e => fail e) ;;
    return_if (found existing) (fail ErrConflict) ;;;
    now <- call time_now ;;
    id <- call newID ;;
    let u := mkUser id (cu_Email req) (cu_Name req) (cu_Email req) hash false false role None None now now in
    _ <- try (CreateUser u) (fun e => fail e) ;;
    gret (just (JSON 201 (OneUser (userToResponse u))))).

(** The user of a route. *)
Definition existing_user (userID : string) : Go W Reply User :=
  u <- try (GetUser userID) (fun e => fail e) ;;
  non_nil u (fail ErrNotFound).

Definition Get (userID : string) : Eff W Reply :=
  func (
    u <- existing_user userID ;;
    gret (just (JSON 200 (OneUser (userToResponse u))))).

(** The fields a request sets; empty texts keep theirs. *)
Definition apply_user (req : updateUserRequest) (u : User) : User :=
  mkUser (u_ID u) (u_Email u) (if str_empty (uu_Name req) then u_Name u else uu_Name req) (u_Login u)
    (u_PasswordHash u) (u_MustChangePassword u) (default (u_Disabled u) (uu_Disabled req))
    (if str_empty (uu_Role req) then u_Role u else uu_Role req)
    (u_AvatarAssetID u) (u_LastSeenAt u) (u_CreatedAt u) (u_UpdatedAt u).

Definition Update (userID : string) (req : option updateUserRequest) : Eff W Reply :=
  func (
    req <- non_nil req (just (BadRequest "invalid JSON")) ;;
    u <- existing_user userID ;;
    return_if (negb (str_empty (uu_Role req)) && negb (validUserRole (uu_Role req)))
              (just (BadRequest "role must be 'user' or 'server_admin'")) ;;;
    let u := apply_user req u in
    _ <- try (UpdateUser u) (fun e => fail e) ;;
    gret (mkAdminReply (JSON 200 (OneUser (userToResponse u))) (evict cache [ActorKey userID]) [])).

Definition with_password (u : User) (hash : string) (mustChange : bool) : User :=
  mkUser (u_ID u) (u_Email u) (u_Name u) (u_Login u) hash mustChange (u_Disabled u) (u_Role u)
    (u_AvatarAssetID u) (u_LastSeenAt u) (u_CreatedAt u) (u_UpdatedAt u).

Definition ResetPassword (userID : string) : Eff W Reply :=
  func (
    u <- existing_user userID ;;
    temp <- try generateTemporaryPassword (fun e => fail e) ;;
    hash <- hash_password temp ;;
    _ <- try (UpdateUser (with_password u hash true)) (fun e => fail e) ;;
    gret (mkAdminReply (JSON 200 (TemporaryPassword temp)) (evict cache [ActorKey userID]) [])).

Definition Disable (userID : string) : Eff W Reply :=
  func (
    _ <- try (DisableUser userID) (fun e => fail e) ;;
    gret (mkAdminReply no_content (evict cache [ActorKey userID]) [])).

(** ** Handlers of [SignupHandler] *)

Section Signup.
Context `{Sha256} `{UuidGen}.
Context (internalToken : string).

(** [header] is X-Internal-Token. *)
Definition internal_guard (header : string) : Go W Reply unit :=
  return_if (str_empty internalToken || negb (String.eqb header internalToken)) (just Unauthorized).

(** The session literal: like that of the sign-in handlers. *)
Definition provisioned_session (userID hash : string) (r : Request) : Go W Reply Identity.Session :=
  id <- call newID ;;
  created <- call time_now ;;
  expires <- call time_now ;;
  lastActive <- call time_now ;;
  rotated <- call time_now ;;
  gret {| s_ID := id; s_UserID := userID; s_TokenHash := hash; s_PrevTokenHash := EmptyString;
          s_AuthTokenSeen := false; s_SeenAt := None; s_UserAgent := rq_UserAgent r;
          s_ClientIP := rq_RemoteAddr r; s_RotatedAt := rotated; s_CreatedAt := created;
          s_ExpiresAt := (expires + sessionTTL)%Z; s_LastActiveAt := lastActive;
          s_SAMLSessionIdx := EmptyString; s_SAMLNameIDHash := EmptyString;
          s_AuthProvider := "password" |}.

Definition ProvisionAccount (header : string) (r : Request) (req : option provisionAccountRequest) :
    Eff W Reply :=
  func (
    internal_guard header ;;;
    req <- non_nil req (just (BadRequest "invalid JSON")) ;;
    return_if (str_empty (pa_Email req) || str_empty (pa_Password req) || str_empty (pa_Name req) ||
               str_empty (pa_OrgName req))
              (just (BadRequest "email, password, name, and orgName are required")) ;;;
    existing <- try (GetUserByEmail (pa_Email req)) (fun e => fail e) ;;
    return_if (found existing) (fail ErrConflict) ;;;
    hash <- hash_password (pa_Password req) ;;
    uid <- call newID ;;
    let u := mkUser uid (pa_Email req) (pa_Name req) (pa_Email req) hash false false "user" None None 0 0 in
    _ <- try (CreateUser u) (fun e => fail e) ;;
    oid <- try new_uuid (fun _ => just panicked) ;;
    let o := mkOrg oid (pa_OrgName req) None false false false 0 0 in
    _ <- try (CreateOrg o) (fun e => fail e) ;;
    _ <- try (AddMember (member_row uid oid "admin" "manual" 0 0)) (fun e => fail e) ;;
    said <- try new_uuid (fun _ => just panicked) ;;
    _ <- try (CreateServiceAccount (NewSystemServiceAccount said oid allScopeStrings)) (fun e => fail e) ;;
    tok <- try generateSessionToken (fun e => fail e) ;;
    sess <- provisioned_session uid tok.2 r ;;
    _ <- try (CreateSession sess) (fun e => fail e) ;;
    gret (just (JSON 201 (Provisioned tok.1 (s_ExpiresAt sess) uid oid)))).

Definition LookupAccountByEmail (header email : string) : Eff W Reply :=
  func (
    internal_guard header ;;;
    return_if (str_empty email) (just (BadRequest "email is required")) ;;;
    u <- try (GetUserByEmail email) (fun e => fail e) ;;
    u <- non_nil u (fail ErrNotFound) ;;
    gret (just (JSON 200 (AccountLookup (u_ID u) (u_Name u) (u_Email u))))).

Definition SetAccountPassword (header userID : string) (req : option string) : Eff W Reply :=
  func (
    internal_guard header ;;;
    password <- non_nil req (just (BadRequest "invalid JSON")) ;;
    return_if (String.length password <? 8)
              (just (BadRequest "password must be at least 8 characters")) ;;;
    u <- existing_user userID ;;
    hash <- hash_password password ;;
    _ <- try (UpdateUser (with_password u hash false)) (fun e => fail e) ;;
    gret (just no_content)).
End Signup.
End Handlers.

(** ** Invariant: users

    Users are stored under their ids, with one of the two roles, and no two
    share an email or a login. *)

Definition users_ok (d : AuthDB) : Prop :=
  (forall k u, users d !! k = Some u -> u_ID u = k /\ validUserRole (u_Role u) = true) /\
  (forall k k' u u', users d !! k = Some u -> users d !! k' = Some u' ->
     u_Email u = u_Email u' \/ u_Login u = u_Login u' -> k = k').

Lemma users_ok_same d d' : users d' = users d -> users_ok d -> users_ok d'.
Proof. unfold users_ok. by intros ->. Qed.

Lemma user_clash_false id email login t :
  user_clash id email login t = false ->
  forall k u, k <> id -> t !! k = Some u -> u_Email u <> email /\ u_Login u <> login.
Proof.
  unfold user_clash. rewrite other_row_false. intros Hc k u Hne Hk.
  specialize (Hc k u Hne Hk). apply orb_false_iff in Hc as [?%String.eqb_neq ?%String.eqb_neq]. done.
Qed.

Lemma put_user_ok u d :
  validUserRole (u_Role u) = true -> user_clash (u_ID u) (u_Email u) (u_Login u) (users d) = false ->
  users_ok d -> users_ok (put_user u d).
Proof.
  intros Hr Hc [Hk Hu]. pose proof (user_clash_false _ _ _ _ Hc) as Hne. split; cbn.
  - intros k x [[<- <-]|[_ Hx]]%lookup_insert_Some; [done|by apply Hk].
  - intros k k' x x' [[<- <-]|[Hk1 H1]]%lookup_insert_Some [[<- <-]|[Hk2 H2]]%lookup_insert_Some He; [done| | |].
    + destruct (Hne k' x'); [done..|]. intuition congruence.
    + destruct (Hne k x); [done..|]. intuition congruence.
    + by apply (Hu k k' x x').
Qed.

(** An update that keeps who the user is. *)
Lemma alter_user_ok f id d :
  (forall u, users d !! id = Some u ->
     u_ID (f u) = u_ID u /\ u_Email (f u) = u_Email u /\
     validUserRole (u_Role (f u)) = true /\
     forall k u', k <> id -> users d !! k = Some u' -> u_Login u' <> u_Login (f u)) ->
  users_ok d -> users_ok (set_users d (alter f id (users d))).
Proof.
  intros Hf [Hk Hu]. split; cbn.
  - intros k x [(<- & r & Hr & ->)|(_ & Hr)]%lookup_alter_Some; [|by apply Hk].
    destruct (Hf r Hr) as (-> & _ & ? & _). by destruct (Hk _ _ Hr).
  - intros k k' x x' [(<- & r & Hr & ->)|(Hk1 & H1)]%lookup_alter_Some
      [(<- & r' & Hr' & ->)|(Hk2 & H2)]%lookup_alter_Some He; [done| | |].
    + destruct (Hf r Hr) as (_ & Em & _ & Hl). destruct He as [He|He].
      * apply (Hu id k' r x'); [done..|left; congruence].
      * exfalso. by apply (Hl k' x').
    + destruct (Hf r' Hr') as (_ & Em & _ & Hl). destruct He as [He|He].
      * apply (Hu k id x r'); [done..|left; congruence].
      * exfalso. by apply (Hl k x).
    + by apply (Hu k k' x x').
Qed.

Section Statements.
Lemma CreateUser_users_ok u : validUserRole (u_Role u) = true -> keeps users_ok (CreateUser u).
Proof.
  intros Hr. unfold CreateUser. solve_keeps. apply keeps_op. intros t d Hd. unfold insert_user.
  destruct (_ || _) eqn:E; [done|]. apply orb_false_iff in E as [_ E]. by apply put_user_ok.
Qed.

Lemma UpdateUser_users_ok u : validUserRole (u_Role u) = true -> keeps users_ok (UpdateUser u).
Proof.
  intros Hr. apply keeps_op. intros t d Hd. destruct (_ && _) eqn:E; [done|]. cbn.
  apply alter_user_ok; [|done]. intros r Hx. rewrite Hx in E. cbn in E. rewrite other_row_false in E.
  split_and!; [done..|]. intros k u' Hne Hk. apply String.eqb_neq. by apply (E k u').
Qed.

Lemma DisableUser_users_ok id : keeps users_ok (DisableUser id).
Proof.
  apply keeps_write. intros t d Hd. apply alter_user_ok; [|done]. intros r Hr. destruct Hd as [Hk Hu].
  split_and!; [done|done|by destruct (Hk _ _ Hr)|]. intros k u' Hne Hk' He. cbn in He.
  apply Hne. by apply (Hu k id u' r); [..|right].
Qed.
End Statements.

(** ** Lemmas on the handlers *)

Section Lemmas.
Context `{Collation} `{PasswordHash}.
Local Abbreviation W := (World AuthDB).
Local Abbreviation Reply := (AdminReply user_body).

(** The outcomes of a step that only reads: a reply that is an error, or a value. *)
Definition refusal (w : W) (rep : Reply) (w' : W) : Prop :=
  w_db w' = w_db w /\ (400 <= status (ar_resp rep))%Z.

Lemma HttpError_refusal e w w' : w_db w' = w_db w -> refusal w (just (HttpError e)) w'.
Proof. split; [done|]. by destruct e. Qed.

Lemma existing_user_spec userID w :
  wp (existing_user userID) (refusal w) (fun u w' => w_db w' = w_db w /\ users (w_db w) !! userID = Some u) w.
Proof.
  unfold existing_user. wp_step.
  destruct (GetUser userID w) as [[ou|e] w1] eqn:E; pose proof (db_read_db _ _ _ _ E) as Hd;
    [|by apply HttpError_refusal].
  apply db_read_ok in E as [Hou _]. wp_step. split; [intros _; by apply HttpError_refusal|]. by intros u ->.
Qed.

Lemma generateTemporaryPassword_spec w :
  let '(r, w') := generateTemporaryPassword (DB := AuthDB) w in
  w_db w' = w_db w /\ forall temp, r = Ok temp -> temp <> EmptyString.
Proof.
  unfold generateTemporaryPassword, func, try, gbind, call. pose proof (rand_read_db 18 w) as Hd.
  unfold rand_read in *. destruct (18 <=? length (w_entropy w)) eqn:E; cbn -[take Nat.leb] in *; [|done].
  split; [done|]. intros temp [= <-]. apply Nat.leb_le in E.
  assert (length (take 18 (w_entropy w)) = 18) as Hl by (rewrite length_take; lia).
  by destruct (take 18 (w_entropy w)) as [|? [|? [|? ?]]].
Qed.

(** What [UpdateUser] answers. *)
Lemma UpdateUser_spec u w :
  let '(r, w') := UpdateUser u w in
  match r with
  | Ok _ => exists t, w_db w' = set_users (w_db w) (alter (update_user_row u t) (u_ID u) (users (w_db w)))
  | Err _ => w_db w' = w_db w
  end.
Proof.
  unfold UpdateUser. destruct (db_op _ w) as [r w'] eqn:E.
  apply db_op_cases in E as [[-> ->]|(d & Hf & ->)]; [done|]. destruct (_ && _); simplify_eq; [done|].
  by exists (w_clock w).
Qed.

(** A step of a body that preserves [users_ok], with what is known of its value. *)
Lemma users_ok_wp {A} (m : Go W Reply A) (R : A -> Prop) (f : A -> Go W Reply Reply) w :
  wp m (refusal w) (fun a w' => w_db w' = w_db w /\ R a) w ->
  (forall a, R a -> gkeeps users_ok (f a)) ->
  users_ok (w_db w) -> users_ok (w_db (gbind m f w).2).
Proof.
  unfold wp, gbind. intros Hm Hf Hw. destruct (m w) as [[rep|a] w1].
  - destruct Hm as [Hd _]. cbn. by rewrite Hd.
  - destruct Hm as [Hd Ha]. apply (Hf a Ha). by rewrite Hd.
Qed.
End Lemmas.

Section Operations.
Context `{Collation} `{PasswordHash} `{Sha256} `{UuidGen}.
Context (cache : bool) (assets : option (string -> option string)) (internalToken : string).

(** A request to one of the handlers of this file. *)
Inductive user_request : Type :=
| ReqList | ReqCreate (req : option createUserRequest) | ReqGet (userID : string)
| ReqUpdate (userID : string) (req : option updateUserRequest) | ReqReset (userID : string)
| ReqDisable (userID : string)
| ReqProvision (header : string) (r : Request) (req : option provisionAccountRequest)
| ReqLookup (header email : string) | ReqSetPassword (header userID : string) (req : option string).

Definition serve (rq : user_request) : Eff (World AuthDB) (AdminReply user_body) :=
  match rq with
  | ReqList => List_ assets | ReqCreate r => Create assets r | ReqGet u => Get assets u
  | ReqUpdate u r => Update cache assets u r | ReqReset u => ResetPassword cache u
  | ReqDisable u => Disable cache u
  | ReqProvision h r q => ProvisionAccount internalToken h r q
  | ReqLookup h e => LookupAccountByEmail internalToken h e
  | ReqSetPassword h u r => SetAccountPassword internalToken h u r
  end.

#[local] Hint Resolve new_uuid_keeps DisableUser_users_ok : keeps.

Lemma newID_keeps P : keeps P (newID (DB := AuthDB)).
Proof. intros w Hw. by rewrite newID_db. Qed.
Lemma temp_keeps P : keeps P (generateTemporaryPassword (DB := AuthDB)).
Proof. unfold generateTemporaryPassword. solve_keeps. Qed.
Lemma token_keeps P : keeps P (generateSessionToken (DB := AuthDB)).
Proof. unfold generateSessionToken. solve_keeps. Qed.
#[local] Hint Resolve newID_keeps temp_keeps token_keeps : keeps.

Lemma CreateOrg_users_ok o : keeps users_ok (CreateOrg o).
Proof.
  unfold CreateOrg. solve_keeps. apply keeps_op. intros t d. by destruct (found _).
Qed.
Lemma AddMember_users_ok m : keeps users_ok (AddMember m).
Proof. apply keeps_op. intros t d. by destruct (_ || _). Qed.
Lemma CreateServiceAccount_users_ok sa : keeps users_ok (CreateServiceAccount sa).
Proof.
  unfold CreateServiceAccount. solve_keeps. apply keeps_op. intros t d. by destruct (_ || _).
Qed.
Lemma CreateSession_users_ok s : keeps users_ok (CreateSession s).
Proof.
  unfold CreateSession. solve_keeps. apply keeps_op. intros t d. unfold insert_session.
  by destruct (_ || _).
Qed.
#[local] Hint Resolve CreateOrg_users_ok AddMember_users_ok CreateServiceAccount_users_ok
  CreateSession_users_ok : keeps.
#[local] Hint Extern 1 (keeps users_ok (CreateUser _)) =>
  apply CreateUser_users_ok; solve [reflexivity | by apply negb_false_iff] : keeps.
#[local] Hint Extern 1 (keeps users_ok (UpdateUser _)) => apply UpdateUser_users_ok : keeps.

(** A handler that changes a stored user, keeping a valid role. *)
Lemma update_existing_ok userID (f : User -> Go (World AuthDB) (AdminReply user_body) (AdminReply user_body)) w :
  (forall u, validUserRole (u_Role u) = true -> gkeeps users_ok (f u)) ->
  users_ok (w_db w) -> users_ok (w_db (gbind (existing_user userID) f w).2).
Proof.
  intros Hf Hw. apply (users_ok_wp _ (fun u => users (w_db w) !! userID = Some u)); [|intros u Hu|done].
  - apply existing_user_spec.
  - apply Hf. by destruct (proj1 Hw _ _ Hu).
Qed.

Lemma gkeeps_existing userID (f : User -> Go (World AuthDB) (AdminReply user_body) (AdminReply user_body)) :
  (forall u, validUserRole (u_Role u) = true -> gkeeps users_ok (f u)) ->
  gkeeps users_ok (gbind (existing_user userID) f).
Proof. intros Hf w Hw. by apply update_existing_ok. Qed.

(** The role a request leaves. *)
Lemma apply_user_role req u :
  validUserRole (u_Role u) = true ->
  negb (str_empty (uu_Role req)) && negb (validUserRole (uu_Role req)) = false ->
  validUserRole (u_Role (apply_user req u)) = true.
Proof. cbn. destruct (str_empty _); [done|]. by intros _ ?%negb_false_iff. Qed.
#[local] Hint Resolve apply_user_role : keeps.

Lemma serve_users_ok rq : keeps users_ok (serve rq).
Proof.
  destruct rq; cbn [serve];
    unfold List_, Create, Get, Update, ResetPassword, Disable, ProvisionAccount, LookupAccountByEmail,
      SetAccountPassword, internal_guard, hash_password, provisioned_session, ListAllUsers, GetUserByEmail;
    repeat first [apply gkeeps_existing | keeps_step].
Qed.

(** (lemma) Whatever the requests served, users stay sound: stored under their ids,
    with role user or server_admin, no two with the same email or login. *)
Theorem reachable_users_ok rqs w :
  users_ok (w_db w) -> users_ok (w_db (fold_left (fun w rq => (serve rq w).2) rqs w)).
Proof.
  revert w. induction rqs as [|rq rqs IH]; cbn; intros w Hw; [done|]. apply IH. by apply serve_users_ok.
Qed.
End Operations.

(** ** Provisioning an account *)

Section Provisioning.
Context `{Collation} `{PasswordHash} `{Sha256} `{UuidGen}.
Context (internalToken : string).

(** (lemma) Without the shared token - or when none is configured - the internal
    routes answer 401 and do nothing at all: no statement runs, no time passes,
    no entropy is drawn. *)
Theorem internal_routes_guarded header r preq email userID preq' w :
  internalToken = EmptyString \/ header <> internalToken ->
  ProvisionAccount internalToken header r preq w = (just Unauthorized, w) /\
  LookupAccountByEmail internalToken header email w = (just Unauthorized, w) /\
  SetAccountPassword internalToken header userID preq' w = (just Unauthorized, w).
Proof.
  intros Hg. assert (str_empty internalToken || negb (String.eqb header internalToken) = true) as Hc.
  { destruct Hg as [->|Hne]; [done|]. apply String.eqb_neq in Hne. rewrite Hne. apply orb_true_r. }
  unfold ProvisionAccount, LookupAccountByEmail, SetAccountPassword, internal_guard, func, gbind. by rewrite Hc.
Qed.

Definition put_session (s : Identity.Session) (d : AuthDB) : AuthDB :=
  set_sessions d (<[s_ID s := s]> (sessions d)).

(** The statements of a provisioning, and the rows they insert. *)
Definition provision_steps (u : User) (o : Org) (t : Z) (sa : SARow) (s : Identity.Session) :
    list (AuthDB -> AuthDB) :=
  [put_user u; put_org o; put_member (admin_row (u_ID u) (o_ID o) t); put_account sa; put_session s].

Definition new_account (id hash : string) (req : provisionAccountRequest) (t : Z) : User :=
  mkUser id (pa_Email req) (pa_Name req) (pa_Email req) hash false false "user" None None t t.
Definition new_account_org (id : string) (req : provisionAccountRequest) (t : Z) : Org :=
  mkOrg id (pa_OrgName req) None false false false t t.

(** A reply and the tables it leaves: the first [k] statements ran. *)
Inductive provision_outcome (req : provisionAccountRequest) (rep : Response user_body) (d d' : AuthDB) : Prop :=
| ProvisionOutcome uid hash t1 oid t2 t3 said t4 s k :
    GenerateFromPassword (pa_Password req) = Some hash -> users d !! uid = None ->
    (forall i u, users d !! i = Some u -> u_Email u <> pa_Email req) ->
    let steps := provision_steps (new_account uid hash req t1) (new_account_org oid req t2) t3
                   (system_row said oid t4) s in
    d' = run k steps d -> 1 <= k <= 5 -> (status rep = 201%Z <-> k = 5) ->
    (status rep = 201%Z -> exists token, rep = JSON 201 (Provisioned token (s_ExpiresAt s) uid oid) /\
       s_UserID s = uid /\ s_TokenHash s = Hash token /\ s_AuthProvider s = "password" /\
       sessions d !! s_ID s = None) ->
    provision_outcome req rep d d'.

Lemma provision_stopped req rep d d' uid hash t1 oid t2 t3 said t4 s k :
  GenerateFromPassword (pa_Password req) = Some hash -> users d !! uid = None ->
  (forall i u, users d !! i = Some u -> u_Email u <> pa_Email req) ->
  status rep <> 201%Z -> 1 <= k < 5 ->
  d' = run k (provision_steps (new_account uid hash req t1) (new_account_org oid req t2) t3
                (system_row said oid t4) s) d ->
  provision_outcome req rep d d'.
Proof.
  intros Hh Hn He Hs Hk Hd. apply (ProvisionOutcome _ _ _ _ uid hash t1 oid t2 t3 said t4 s k); try done; [lia|].
  split; [done|lia].
Qed.

(** What is known of the session literal. *)
Lemma provisioned_session_spec uid hash r (Qr : AdminReply user_body -> World AuthDB -> Prop) w :
  wp (provisioned_session uid hash r) Qr
     (fun s w' => w_db w' = w_db w /\ s_UserID s = uid /\ s_TokenHash s = hash /\
                  s_AuthProvider s = "password") w.
Proof.
  unfold provisioned_session. wp_step. pose proof (newID_db w) as Hd. destruct (newID w) as [id w0]. cbn in *.
  do 4 (wp_step; match goal with |- context [time_now ?x] =>
    pose proof (time_now_db x); destruct (time_now x) as [? ?]; cbn in * end).
  wp_step. split_and!; [congruence|done..].
Qed.

Definition blank_session : Identity.Session :=
  mkSession EmptyString EmptyString EmptyString EmptyString false None EmptyString EmptyString 0 0 0 0
    EmptyString EmptyString EmptyString.

Lemma ProvisionAccount_spec header r req w :
  let '(rep, w') := ProvisionAccount internalToken header r req w in
  (status (ar_resp rep) <> 201%Z /\ w_db w' = w_db w) \/
  exists rq, req = Some rq /\ header = internalToken /\
             provision_outcome rq (ar_resp rep) (w_db w) (w_db w').
Proof.
  unfold ProvisionAccount, internal_guard. apply wp_let. wp_step. split; [intros _; by left|].
  intros [_ Htok%negb_false_iff%String.eqb_eq]%orb_false_iff.
  wp_step. split; [intros _; by left|]. intros rq ->.
  wp_step. split; [intros _; by left|]. intros _. wp_step.
  destruct (GetUserByEmail _ w) as [[ou|e] w1] eqn:E1; pose proof (db_read_db _ _ _ _ E1) as Hd1;
    [|left; split; [apply HttpError_not_201|done]].
  apply db_read_ok in E1 as [Hou _]. wp_step. split; [intros _; by left|]. intros Hno.
  apply found_false in Hno as ->. symmetry in Hou. rewrite select_one_None in Hou.
  assert (forall i u, users (w_db w) !! i = Some u -> u_Email u <> pa_Email rq) as Hmail
    by (intros i u Hi; apply String.eqb_neq; by apply (Hou i u)).
  unfold hash_password. wp_step. split; [intros _; by left|]. intros hash Hhash. wp_step.
  pose proof (newID_db w1) as Hd2. destruct (newID w1) as [uid w2]. cbn in Hd2 |- *. wp_step.
  match goal with |- context [CreateUser ?u w2] => pose proof (CreateUser_spec u w2) as Hu;
    destruct (CreateUser u w2) as [[[]|e] w3] end;
    [|left; split; [apply HttpError_not_201|congruence]].
  destruct Hu as (t1 & Hd3 & Hfresh). assert (w_db w2 = w_db w) as Hdw by congruence.
  rewrite Hdw in Hd3, Hfresh. cbn in Hfresh.
  change (w_db w3 = put_user (new_account uid hash rq t1) (w_db w)) in Hd3.
  assert (forall rep w' oid t2 t3 said t4 k, status rep <> 201%Z -> 1 <= k < 5 ->
    w_db w' = run k (provision_steps (new_account uid hash rq t1) (new_account_org oid rq t2) t3
                (system_row said oid t4) blank_session) (w_db w) ->
    (status rep <> 201%Z /\ w_db w' = w_db w) \/
    exists rq', Some rq = Some rq' /\ header = internalToken /\
                provision_outcome rq' rep (w_db w) (w_db w')) as Hstop.
  { intros rep w' oid t2 t3 said t4 k Hs Hk Hd. right. exists rq. split_and!; [done..|].
    by eapply provision_stopped. }
  wp_step. pose proof (new_uuid_db w3) as Hd4. destruct (new_uuid w3) as [[oid|e] w4]; cbn in Hd4;
    [|apply (Hstop panicked w4 EmptyString 0%Z 0%Z EmptyString 0%Z 1); [done|lia|by rewrite Hd4, Hd3]].
  wp_step. match goal with |- context [CreateOrg ?o w4] => pose proof (CreateOrg_spec o w4) as Ho;
    destruct (CreateOrg o w4) as [[[]|e] w5] end;
    [|apply (Hstop (HttpError e) w5 EmptyString 0%Z 0%Z EmptyString 0%Z 1);
      [apply HttpError_not_201|lia|by rewrite Ho, Hd4, Hd3]].
  destruct Ho as (_ & t2 & Hd5). change (w_db w5 = put_org (new_account_org oid rq t2) (w_db w4)) in Hd5.
  wp_step. match goal with |- context [AddMember ?m w5] => pose proof (AddMember_spec m w5) as Hm;
    destruct (AddMember m w5) as [[[]|e] w6] end;
    [|apply (Hstop (HttpError e) w6 oid t2 0%Z EmptyString 0%Z 2);
      [apply HttpError_not_201|lia|by rewrite Hm, Hd5, Hd4, Hd3]].
  destruct Hm as (t3 & Hd6 & _). change (w_db w6 = put_member (admin_row uid oid t3) (w_db w5)) in Hd6.
  wp_step. pose proof (new_uuid_db w6) as Hd7. destruct (new_uuid w6) as [[said|e] w7]; cbn in Hd7;
    [|apply (Hstop panicked w7 oid t2 t3 EmptyString 0%Z 3); [done|lia|by rewrite Hd7, Hd6, Hd5, Hd4, Hd3]].
  wp_step. match goal with |- context [CreateServiceAccount ?sa w7] => pose proof (CreateServiceAccount_spec sa w7) as Hsa;
    destruct (CreateServiceAccount sa w7) as [[[]|e] w8] end;
    [|apply (Hstop (HttpError e) w8 oid t2 t3 EmptyString 0%Z 3);
      [apply HttpError_not_201|lia|by rewrite Hsa, Hd7, Hd6, Hd5, Hd4, Hd3]].
  destruct Hsa as (t4 & Hd8). change (w_db w8 = put_account (system_row said oid t4) (w_db w7)) in Hd8.
  assert (w_db w8 = run 4 (provision_steps (new_account uid hash rq t1) (new_account_org oid rq t2) t3
    (system_row said oid t4) blank_session) (w_db w)) as Hrun by (by rewrite Hd8, Hd7, Hd6, Hd5, Hd4, Hd3).
  assert (sessions (w_db w8) = sessions (w_db w)) as Hsess by (by rewrite Hrun).
  wp_step. pose proof (generateSessionToken_spec w8) as Hg. destruct (generateSessionToken w8) as [[[token h]|e] w9];
    destruct Hg as (Hd9 & _ & Hth);
    [|apply (Hstop (HttpError e) w9 oid t2 t3 said t4 4); [apply HttpError_not_201|lia|by rewrite Hd9]].
  specialize (Hth token h eq_refl). cbn [fst snd]. apply wp_bind.
  eapply wp_mono; [apply provisioned_session_spec|intros ? ? Hx; exact Hx|]. intros s w10 (Hd10 & Hsu & Hsh & Hsp). wp_step.
  pose proof (CreateSession_spec s w10) as Hs. destruct (CreateSession s w10) as [[[]|e] w11]; wp_step;
    [|apply (Hstop (HttpError e) w11 oid t2 t3 said t4 4); [apply HttpError_not_201|lia|by rewrite Hs, Hd10, Hd9]].
  destruct Hs as (now & Hd11 & Hsn & _). right. exists rq. split_and!; [done..|].
  apply (ProvisionOutcome _ _ _ _ uid hash t1 oid t2 t3 said t4 (stamp_session s now) 5); [done..| |lia|done|].
  - rewrite Hd11, Hd10, Hd9, Hrun. done.
  - intros _. exists token. cbn. rewrite Hsp. cbn. split_and!; [done..|congruence|done|].
    rewrite Hd10, Hd9, Hsess in Hsn. done.
Qed.

(** (lemma) Provisioning is five statements without a transaction: 201 exactly when
    all ran - a user of an address nobody had, with the hashed password and no
    server-admin rights, an organization, the user's admin membership, the
    built-in account and a session whose token is returned once.  Any other
    reply leaves the tables alone or a proper prefix of the five. *)
Theorem ProvisionAccount_correct header r req w :
  let '(rep, w') := ProvisionAccount internalToken header r req w in
  (status (ar_resp rep) <> 201%Z /\ w_db w' = w_db w) \/
  exists rq, req = Some rq /\ header = internalToken /\
             provision_outcome rq (ar_resp rep) (w_db w) (w_db w').
Proof. apply ProvisionAccount_spec. Qed.
End Provisioning.

(** ** Passwords and sign-in *)

Section Passwords.
Context `{Collation} `{PasswordHash} `{Sha256} `{SignInLib}.
(** bcrypt: a hash is not empty and matches the password it was made from. *)
Context (bcrypt_law : forall p h, GenerateFromPassword p = Some h ->
           h <> EmptyString /\ CompareHashAndPassword h p = true).

(** The token and the id the next sign-in draws are not in use. *)
Definition next_token (w : World AuthDB) : string := hex_encode (take 32 (w_entropy w)).
Definition next_session_id (w : World AuthDB) : string :=
  format_uuid (uuid_bytes (take 16 (drop 32 (w_entropy w)))).
Definition fresh_session (w : World AuthDB) : Prop :=
  48 <= length (w_entropy w) /\
  forall k s, sessions (w_db w) !! k = Some s -> k <> next_session_id w /\ s_TokenHash s <> Hash (next_token w).

(** Readings of the clock leave failures and entropy alone. *)
Lemma time_now_rest (w : World AuthDB) :
  w_faults (time_now w).2 = w_faults w /\ w_entropy (time_now w).2 = w_entropy w.
Proof. unfold time_now. by destruct (w_ticks w). Qed.

Lemma CreateSession_runs s w :
  no_faults w -> is_Some (users (w_db w) !! s_UserID s) -> sessions (w_db w) !! s_ID s = None ->
  (forall k x, sessions (w_db w) !! k = Some x -> s_TokenHash x <> s_TokenHash s) ->
  (CreateSession s w).1 = Ok tt.
Proof.
  intros Hw [u Hu] Hn Hx. unfold CreateSession, func, gbind, call.
  pose proof (time_now_db w) as Hd. destruct (time_now_rest w) as [Hf _].
  destruct (time_now w) as [now w1]. cbn in Hd, Hf |- *.
  rewrite db_op_run by (unfold no_faults; by rewrite Hf). cbn [fst snd]. unfold insert_session.
  rewrite Hd. cbn. rewrite Hn, Hu. cbn.
  rewrite (proj2 (exists_row_false _ _)); [done|]. intros k x Hk. apply String.eqb_neq. by eapply Hx.
Qed.

Lemma generateSessionToken_runs (w : World AuthDB) :
  32 <= length (w_entropy w) ->
  generateSessionToken w = (Ok (next_token w, Hash (next_token w)),
    mkWorld (w_db w) (w_faults w) (w_clock w) (w_ticks w) (drop 32 (w_entropy w))).
Proof.
  intros Hl. unfold generateSessionToken, func, try, gbind, call, rand_read.
  by rewrite (proj2 (Nat.leb_le _ _) Hl).
Qed.

Lemma new_session_runs uid hash rq prov w :
  16 <= length (w_entropy w) -> exists s w',
  new_session uid hash rq prov w = (inr s, w') /\ w_db w' = w_db w /\ w_faults w' = w_faults w /\
  s_ID s = format_uuid (uuid_bytes (take 16 (w_entropy w))) /\ s_UserID s = uid /\ s_TokenHash s = hash.
Proof.
  intros Hl. unfold new_session, gbind, call, newID, rand_read. rewrite (proj2 (Nat.leb_le _ _) Hl).
  set (w0 := mkWorld _ _ _ _ _).
  pose proof (time_now_db w0). pose proof (time_now_rest w0). destruct (time_now w0) as [t1 w1]; cbn in *.
  pose proof (time_now_db w1). pose proof (time_now_rest w1). destruct (time_now w1) as [t2 w2]; cbn in *.
  pose proof (time_now_db w2). pose proof (time_now_rest w2). destruct (time_now w2) as [t3 w3]; cbn in *.
  pose proof (time_now_db w3). pose proof (time_now_rest w3). destruct (time_now w3) as [t4 w4]; cbn in *.
  eexists _, w4. split_and!; [reflexivity| | |done..]; intuition congruence.
Qed.

(** With a stored password, a sign-in succeeds when nothing fails. *)
Lemma Login_accepts h rq password id u w :
  users_ok (w_db w) -> no_faults w -> fresh_session w ->
  users (w_db w) !! id = Some u -> u_Email u <> EmptyString ->
  password <> EmptyString -> u_Disabled u = false ->
  u_PasswordHash u <> EmptyString -> CompareHashAndPassword (u_PasswordHash u) password = true ->
  exists c, (Login h rq (Some (mkLoginRequest (u_Email u) password)) w).1 =
            mkReply (JSON 200 (LoginResponse (next_token w) (u_MustChangePassword u))) (Some c).
Proof.
  intros [Hkey Huniq] Hw [Hlen Hfresh] Hu He0 Hp0 Hdis Hh0 Hcmp.
  apply str_empty_false in He0, Hp0, Hh0.
  unfold Login, func, gbind, non_nil, gret. cbn [lr_Email lr_Password]. rewrite He0, Hp0. cbn [orb return_if gret].
  unfold try at 1, gbind, call, GetUserByEmail, db_read. rewrite db_op_run by done. cbn [fst snd].
  rewrite (select_one_unique u _ _ id); [|done|by apply String.eqb_eq|].
  2: { intros k' u' Hk' He'%String.eqb_eq. assert (k' = id) as -> by (eapply Huniq; [done..|by left]).
       congruence. }
  cbn [gret]. rewrite Hh0, Hdis, Hcmp. cbn [negb return_if gret].
  set (w1 := mkWorld _ _ _ _ _).
  assert (no_faults w1) as Hw1 by (by apply no_faults_tail).
  unfold try at 1, gbind, call. rewrite generateSessionToken_runs by (cbn; lia).
  cbn [fst snd gret]. set (w2 := mkWorld _ _ _ _ _).
  destruct (new_session_runs (u_ID u) (Hash (next_token w1)) rq EmptyString w2) as
    (s & w3 & -> & Hd3 & Hf3 & Hid & Hsu & Hsh); [cbn; rewrite length_drop; lia|].
  unfold try, gbind, call. pose proof (CreateSession_runs s w3) as Hs.
  destruct (CreateSession s w3) as [r w4]. cbn [fst] in Hs. rewrite Hs; [by eexists| | | |].
  - unfold no_faults. rewrite Hf3. exact Hw1.
  - rewrite Hd3, Hsu. cbn. destruct (Hkey _ _ Hu) as [-> _]. by exists u.
  - rewrite Hd3, Hid. cbn. destruct (sessions (w_db w) !! _) as [x|] eqn:Ex; [|done].
    by destruct (Hfresh _ _ Ex).
  - intros k x Hx. rewrite Hd3 in Hx. rewrite Hsh. by apply (Hfresh k x).
Qed.

(** Setting a password through [UpdateUser], and then signing in. *)
Lemma set_password_opens h rq userID u hash password must t w w1 :
  users_ok (w_db w) -> users (w_db w) !! userID = Some u ->
  GenerateFromPassword password = Some hash -> password <> EmptyString ->
  w_db w1 = set_users (w_db w) (alter (update_user_row (with_password u hash must) t) (u_ID u) (users (w_db w))) ->
  u_Disabled u = false -> u_Email u <> EmptyString -> users_ok (w_db w1) -> no_faults w1 -> fresh_session w1 ->
  exists c, (Login h rq (Some (mkLoginRequest (u_Email u) password)) w1).1 =
            mkReply (JSON 200 (LoginResponse (next_token w1) must)) (Some c).
Proof.
  intros Hok Hu Hh Hp Hd Hdis He Hok1 Hw1 Hf1. destruct (bcrypt_law _ _ Hh) as [Hh0 Hcmp].
  destruct (proj1 Hok _ _ Hu) as [Hid _].
  assert (users (w_db w1) !! userID = Some (update_user_row (with_password u hash must) t u)) as Hu1.
  { rewrite Hd. cbn. rewrite Hid, lookup_alter_eq, Hu. done. }
  by apply (Login_accepts h rq password userID (update_user_row (with_password u hash must) t u) w1).
Qed.

Context `{UuidGen} (cache : bool) (internalToken : string).

(** The row a password change leaves. *)
Definition password_set (w : World AuthDB) (userID password : string) (must : bool) (d' : AuthDB) : Prop :=
  exists u hash t, users (w_db w) !! userID = Some u /\ password <> EmptyString /\
    GenerateFromPassword password = Some hash /\
    d' = set_users (w_db w) (alter (update_user_row (with_password u hash must) t) (u_ID u) (users (w_db w))).

Lemma set_password_spec userID password must (k : AdminReply user_body) (w0 w : World AuthDB) (u : User)
    (Q : AdminReply user_body -> World AuthDB -> Prop) :
  w_db w = w_db w0 -> users (w_db w0) !! userID = Some u -> password <> EmptyString ->
  (forall rep w', refusal w0 rep w' -> Q rep w') ->
  (forall w', password_set w0 userID password must (w_db w') -> Q k w') ->
  wp (hash <- hash_password password ;;
      _ <- try (UpdateUser (with_password u hash must)) (fun e => just (HttpError e)) ;;
      gret k) Q Q w.
Proof.
  intros Hd Hu Hp Hr Hk. unfold hash_password. wp_step. split; [intros _; by apply Hr|]. intros hash Hh. wp_step.
  pose proof (UpdateUser_spec (with_password u hash must) w) as Hs.
  destruct (UpdateUser _ w) as [[[]|e] w1]; wp_step; [|apply Hr, HttpError_refusal; congruence].
  destruct Hs as [t Ht]. apply Hk. exists u, hash, t. split_and!; [done..|]. by rewrite Ht, Hd.
Qed.

Lemma ResetPassword_spec userID w :
  let '(rep, w') := ResetPassword cache userID w in
  refusal w rep w' \/
  exists temp, rep = mkAdminReply (JSON 200 (TemporaryPassword temp)) (evict cache [ActorKey userID]) [] /\
               password_set w userID temp true (w_db w').
Proof.
  unfold ResetPassword. apply wp_let, wp_bind. eapply wp_mono; [apply existing_user_spec|by left|].
  intros u w1 [Hd1 Hu]. wp_step. pose proof (generateTemporaryPassword_spec w1) as Ht.
  destruct (generateTemporaryPassword w1) as [[temp|e] w2]; destruct Ht as [Hd2 Ht];
    [|left; apply HttpError_refusal; congruence].
  apply (set_password_spec userID _ _ _ w); [congruence|done|by apply Ht|by left|]. intros w3 Hs. right. by exists temp.
Qed.

Lemma SetAccountPassword_spec header userID req w :
  let '(rep, w') := SetAccountPassword internalToken header userID req w in
  refusal w rep w' \/
  exists password, req = Some password /\ rep = just no_content /\ 8 <= String.length password /\
                   header = internalToken /\ password_set w userID password false (w_db w').
Proof.
  unfold SetAccountPassword, internal_guard. apply wp_let. wp_step. split; [intros _; by left|].
  intros [_ Htok%negb_false_iff%String.eqb_eq]%orb_false_iff. wp_step. split; [intros _; by left|].
  intros password ->. wp_step. split; [intros _; by left|]. intros Hl%Nat.ltb_ge.
  apply wp_bind. eapply wp_mono; [apply existing_user_spec|by left|]. intros u w1 [Hd1 Hu].
  apply (set_password_spec userID _ _ _ w); [done|done|by destruct password; [cbn in Hl; lia|]|by left|].
  intros w2 Hs. right. by exists password.
Qed.

(** (lemma) Changing a password opens the account: after a reset answered 200, the
    temporary password it returned signs the user in and the sign-in asks for a
    new one; after the internal route answered 204, the new password of at
    least eight characters does, without asking.  Disabled accounts stay
    closed, and any other reply changes nothing. *)
Theorem password_change_opens h rq header userID req w :
  users_ok (w_db w) ->
  let opens password must d' := forall u w1,
    users (w_db w) !! userID = Some u -> u_Disabled u = false -> u_Email u <> EmptyString ->
    w_db w1 = d' -> no_faults w1 -> fresh_session w1 ->
    exists c, (Login h rq (Some (mkLoginRequest (u_Email u) password)) w1).1 =
              mkReply (JSON 200 (LoginResponse (next_token w1) must)) (Some c) in
  (let '(rep, w') := ResetPassword cache userID w in
   refusal w rep w' \/
   exists temp, ar_resp rep = JSON 200 (TemporaryPassword temp) /\ opens temp true (w_db w')) /\
  (let '(rep, w') := SetAccountPassword internalToken header userID req w in
   refusal w rep w' \/
   exists password, req = Some password /\ 8 <= String.length password /\ rep = just no_content /\
     opens password false (w_db w')).
Proof.
  intros Hok opens.
  assert (forall password must d', users_ok d' -> password_set w userID password must d' ->
    opens password must d') as Hopen.
  { intros password must d' Hok' (u & hash & t & Hu & Hp & Hh & Hd) u' w1 Hu' Hdis He Hw1 Hf Hfr.
    rewrite Hu in Hu'. injection Hu' as <-.
    apply (set_password_opens h rq userID u hash password must t w w1); try done; by rewrite Hw1. }
  pose proof (serve_users_ok cache None internalToken (ReqReset userID) w Hok) as Hok1.
  pose proof (serve_users_ok cache None internalToken (ReqSetPassword header userID req) w Hok) as Hok2.
  pose proof (ResetPassword_spec userID w) as H1'. pose proof (SetAccountPassword_spec header userID req w) as H2'.
  cbn [serve] in Hok1, Hok2. split.
  - destruct (ResetPassword cache userID w) as [rep w']. destruct H1' as [?|(temp & -> & Hs)]; [by left|].
    right. exists temp. split; [done|]. by apply Hopen.
  - destruct (SetAccountPassword _ _ _ _ w) as [rep w']. destruct H2' as [?|(pw & -> & -> & Hl & _ & Hs)]; [by left|].
    right. exists pw. split_and!; [done..|]. by apply Hopen.
Qed.
End Passwords.

Module UsersDemo.
Import Session.Demo.
#[local] Instance plain_hash : PasswordHash :=
  {| GenerateFromPassword p := if 72 <? String.length p then None else Some ("$" +:+ p) |}.
#[local] Instance plain_compare : SignInLib :=
  {| CompareHashAndPassword h p := String.eqb h ("$" +:+ p); ParseAddress := Some; fmt_v := fun _ => EmptyString |}.

Definition demo : World AuthDB :=
  mkWorld (set_users empty_db {[ "u1" := ada ]}) [] 1000 [] (map N.of_nat (seq 0 200)).

Lemma plain_law p h : GenerateFromPassword p = Some h -> h <> EmptyString /\ CompareHashAndPassword h p = true.
Proof.
  unfold GenerateFromPassword, CompareHashAndPassword, plain_hash, plain_compare.
  destruct (72 <? String.length p); [discriminate|]. intros [= <-]. split; [done|apply String.eqb_refl].
Qed.

Lemma demo_users_ok : users_ok (w_db demo).
Proof.
  split; cbn.
  - intros k u Hu. apply lookup_singleton_Some in Hu as [<- <-]. done.
  - intros k k' u u' Hu Hu' _. apply lookup_singleton_Some in Hu as [<- _], Hu' as [<- _]. done.
Qed.

Lemma reachable_users_ok_witness :
  users_ok (w_db demo) /\
  users_ok (w_db (serve true None "key"
    (ReqCreate (Some (mkCreateUser "bob@example.com" "Bob" "hunter2" EmptyString))) demo).2).
Proof.
  split; [exact demo_users_ok|].
  exact (reachable_users_ok true None "key"
    [ReqCreate (Some (mkCreateUser "bob@example.com" "Bob" "hunter2" EmptyString))] demo demo_users_ok).
Defined.

Lemma internal_routes_guarded_witness :
  "guess" <> "key" /\
  SetAccountPassword "key" "guess" "u1" (Some "long enough") demo = (just Unauthorized, demo).
Proof.
  assert ("guess" <> "key") as Hne by discriminate. split; [exact Hne|].
  apply (internal_routes_guarded "key" "guess" demo_request None EmptyString "u1" (Some "long enough") demo).
  right. exact Hne.
Defined.

(** A provisioning that runs to its end. *)
Example provisioned :
  status (ar_resp (ProvisionAccount "key" "key" demo_request
    (Some (mkProvision "bob@example.com" "hunter2" "Bob" "Umbrella")) demo).1) = 201%Z.
Proof. vm_compute. reflexivity. Qed.

Definition after_set : World AuthDB :=
  (SetAccountPassword "key" "key" "u1" (Some "long enough") demo).2.
Lemma password_change_opens_witness :
  users_ok (w_db demo) /\
  exists c, (Login demo_handler demo_request (Some (mkLoginRequest "ada@example.com" "long enough")) after_set).1 =
            mkReply (JSON 200 (LoginResponse (next_token after_set) false)) (Some c).
Proof.
  split; [exact demo_users_ok|].
  destruct (password_change_opens plain_law true "key" demo_handler demo_request "key" "u1"
    (Some "long enough") demo demo_users_ok) as [_ H].
  unfold after_set. destruct (SetAccountPassword _ _ _ _ demo) as [rep w'] eqn:E.
  assert (status (ar_resp rep) = 204%Z) as Hs by (change rep with (rep, w').1; rewrite <-E; vm_compute; reflexivity).
  destruct H as [[_ H]|(pw & [= <-] & _ & _ & H)]; [rewrite Hs in H; lia|].
  assert (w_faults w' = [] /\ w_entropy w' = map N.of_nat (seq 0 200) /\ sessions (w_db w') = ∅) as (Hf & He & Hn).
  { change w' with (rep, w').2. rewrite <-E. vm_compute. auto. }
  apply (H ada w'); try reflexivity; try discriminate.
  - unfold no_faults. rewrite Hf. constructor.
  - split; [rewrite He; vm_compute; lia|]. intros k s Hk. rewrite Hn, lookup_empty in Hk. discriminate.
Defined.
End UsersDemo.
