(* ===== verification/Teams.v ===== *)
(** * Teams: named groups within an organization

    Models [internal/api/auth/team.go] and [internal/store/postgres/team_store.go]
    over the identity tables.  A team read from the store comes with its number
    of members. *)

From S2P Require Import Prelude GoStrings Effects Table Authz Identity AuthStore.
From S2P Require Import Middleware Session Accounts.
Set Warnings "-clear-no-such-hyp".

(** ** The store *)

Section Store.
Context `{Collation}.

(** The UNIQUE (org_id, name) constraint, for a row of id [id]. *)
Definition team_clash (id orgID name : string) (t : gmap string Team) : bool :=
  other_row id (fun r => String.eqb (t_OrgID r) orgID && String.eqb (t_Name r) name) t.

Definition CreateTeam (t : Team) : AuthEff unit :=
  func (
    now <- call time_now ;;
    call (db_op (fun _ d =>
      if found (teams d !! t_ID t) || negb (found (orgs d !! t_OrgID t)) ||
         team_clash (t_ID t) (t_OrgID t) (t_Name t) (teams d)
      then (violation, d)
      else (Ok tt, set_teams d
              (<[t_ID t := mkTeam (t_ID t) (t_OrgID t) (t_Name t) (t_Email t) (t_ExternalID t)
                             (or_now (t_CreatedAt t) now) (or_now (t_UpdatedAt t) now)]> (teams d)))))).

Definition in_team (teamID : string) (x : TeamMember) : bool := String.eqb (tm_TeamID x) teamID.
Definition member_count (d : AuthDB) (teamID : string) : nat :=
  length (select (in_team teamID) (team_members d)).
Definition scanTeam (d : AuthDB) (t : Team) : Team * nat := (t, member_count d (t_ID t)).

Definition GetTeam (id : string) : AuthEff (option (Team * nat)) :=
  db_read (fun _ d => option_map (scanTeam d) (teams d !! id)).

Definition ListTeams (orgID : string) : AuthEff (list (Team * nat)) :=
  db_read (fun _ d =>
    map (scanTeam d) (order_by (by_text t_Name) (select (fun t => String.eqb (t_OrgID t) orgID) (teams d)))).

Definition UpdateTeam (t : Team) : AuthEff unit :=
  db_op (fun now d =>
    match teams d !! t_ID t with
    | Some r =>
        if team_clash (t_ID t) (t_OrgID r) (t_Name t) (teams d) then (violation, d)
        else (Ok tt, set_teams d
                (<[t_ID t := mkTeam (t_ID r) (t_OrgID r) (t_Name t) (t_Email t) (t_ExternalID t)
                               (t_CreatedAt r) now]> (teams d)))
    | None => (Ok tt, d)
    end).

(** With the ON DELETE CASCADE reference of [team_members]. *)
Definition DeleteTeam (id : string) : AuthEff unit :=
  db_write (fun _ d =>
    if found (teams d !! id)
    then set_team_members (set_teams d (delete id (teams d))) (delete_where (in_team id) (team_members d))
    else d).

Definition ListTeamMembers (teamID : string) : AuthEff (list TeamMember) :=
  db_read (fun _ d => order_by (by_key tm_CreatedAt) (select (in_team teamID) (team_members d))).

Definition RemoveTeamMember (teamID userID : string) : AuthEff unit :=
  db_write (fun _ d => set_team_members d (delete (teamID, userID) (team_members d))).
End Store.

(** ** Handlers *)

Record teamResponse := mkTeamResponse {
  tr_ID : string; tr_OrgID : string; tr_Name : string; tr_Email : string; tr_ExternalID : string;
  tr_MemberCount : nat; tr_CreatedAt : Z; tr_UpdatedAt : Z
}.
Record teamMemberResponse := mkTeamMemberResponse {
  tmr_TeamID : string; tmr_UserID : string; tmr_Permission : string; tmr_CreatedAt : Z
}.
Record teamRequest := mkTeamRequest { tq_Name : string; tq_Email : string }.
Record addTeamMemberRequest := mkAddTeamMember { atm_UserID : string; atm_Permission : string }.

Inductive team_body : Type :=
| TeamList (l : list teamResponse)
| OneTeam (t : teamResponse)
| TeamMemberList (l : list teamMemberResponse).

Section Handlers.
Context `{Collation} `{UuidGen}.
Local Abbreviation W := (World AuthDB).
Local Abbreviation Reply := (Response team_body).

Definition teamToResponse (t : Team * nat) : teamResponse :=
  mkTeamResponse (t_ID t.1) (t_OrgID t.1) (t_Name t.1) (t_Email t.1) (t_ExternalID t.1) t.2
                 (t_CreatedAt t.1) (t_UpdatedAt t.1).
Definition teamMemberToResponse (m : TeamMember) : teamMemberResponse :=
  mkTeamMemberResponse (tm_TeamID m) (tm_UserID m) (tm_Permission m) (tm_CreatedAt m).

Definition List_ (orgID : string) : Eff W Reply :=
  func (
    teams <- try (ListTeams orgID) HttpError ;;
    gret (JSON 200 (TeamList (map teamToResponse teams)))).

Definition Create (orgID : string) (req : option teamRequest) : Eff W Reply :=
  func (
    req <- non_nil req (BadRequest "invalid JSON") ;;
    return_if (str_empty (tq_Name req)) (BadRequest "name is required") ;;;
    id <- try new_uuid (fun _ => panicked) ;;
    let t := mkTeam id orgID (tq_Name req) (tq_Email req) EmptyString 0 0 in
    _ <- try (CreateTeam t) HttpError ;;
    gret (JSON 201 (OneTeam (teamToResponse (t, 0))))).

Definition Get (teamID : string) : Eff W Reply :=
  func (
    t <- try (GetTeam teamID) HttpError ;;
    t <- non_nil t (HttpError ErrNotFound) ;;
    gret (JSON 200 (OneTeam (teamToResponse t)))).

Definition Update (teamID : string) (req : option teamRequest) : Eff W Reply :=
  func (
    req <- non_nil req (BadRequest "invalid JSON") ;;
    return_if (str_empty (tq_Name req)) (BadRequest "name is required") ;;;
    t <- try (GetTeam teamID) HttpError ;;
    t <- non_nil t (HttpError ErrNotFound) ;;
    let '(t, n) := t in
    let t := mkTeam (t_ID t) (t_OrgID t) (tq_Name req) (tq_Email req) (t_ExternalID t)
                    (t_CreatedAt t) (t_UpdatedAt t) in
    _ <- try (UpdateTeam t) HttpError ;;
    gret (JSON 200 (OneTeam (teamToResponse (t, n))))).

Definition Delete (teamID : string) : Eff W Reply :=
  func (
    _ <- try (DeleteTeam teamID) HttpError ;;
    gret no_content).

Definition ListMembers (teamID : string) : Eff W Reply :=
  func (
    members <- try (ListTeamMembers teamID) HttpError ;;
    gret (JSON 200 (TeamMemberList (map teamMemberToResponse members)))).

Definition AddMember (orgID teamID : string) (req : option addTeamMemberRequest) : Eff W Reply :=
  func (
    req <- non_nil req (BadRequest "invalid JSON") ;;
    return_if (str_empty (atm_UserID req)) (BadRequest "userId is required") ;;;
    let perm := if str_empty (atm_Permission req) then "member" else atm_Permission req in
    _ <- try (AddTeamMember (mkTeamMember teamID (atm_UserID req) orgID perm 0 0)) HttpError ;;
    gret (mkResponse 201 NoContent)).

Definition RemoveMember (teamID userID : string) : Eff W Reply :=
  func (
    _ <- try (RemoveTeamMember teamID userID) HttpError ;;
    gret no_content).
End Handlers.

(** ** Invariant

    Rows are stored under their keys, a team's organization, a membership's
    team, user and organization exist, and no two teams of an organization have
    the same name. *)

Record teams_ok (d : AuthDB) : Prop := mkTeamsOk {
  teams_keyed k t : teams d !! k = Some t -> t_ID t = k /\ is_Some (orgs d !! t_OrgID t);
  teams_named k k' t t' : teams d !! k = Some t -> teams d !! k' = Some t' ->
    t_OrgID t = t_OrgID t' -> t_Name t = t_Name t' -> k = k';
  team_members_keyed k m : team_members d !! k = Some m -> k = (tm_TeamID m, tm_UserID m) /\
    is_Some (teams d !! tm_TeamID m) /\ is_Some (users d !! tm_UserID m) /\ is_Some (orgs d !! tm_OrgID m)
}.

Lemma team_clash_false id orgID name t :
  team_clash id orgID name t = false ->
  forall k r, k <> id -> t !! k = Some r -> t_OrgID r = orgID -> t_Name r <> name.
Proof.
  unfold team_clash. rewrite other_row_false. intros Hc k r Hne Hk <- Hn.
  specialize (Hc k r Hne Hk). by rewrite Hn, !String.eqb_refl in Hc.
Qed.

(** Inserting or replacing a team, with a name nobody else in its organization has. *)
Lemma put_team_ok t d :
  is_Some (orgs d !! t_OrgID t) -> team_clash (t_ID t) (t_OrgID t) (t_Name t) (teams d) = false ->
  teams_ok d -> teams_ok (set_teams d (<[t_ID t := t]> (teams d))).
Proof.
  intros Ho Hc [Hk Hn Hm]. pose proof (team_clash_false _ _ _ _ Hc) as Hne. split; cbn.
  - intros k x [[<- <-]|[_ Hx]]%lookup_insert_Some; [done|by apply Hk].
  - intros k k' x x' [[<- <-]|[Hk1 H1]]%lookup_insert_Some [[<- <-]|[Hk2 H2]]%lookup_insert_Some Eo En; [done| | |].
    + by destruct (Hne k' x').
    + by destruct (Hne k x).
    + by apply (Hn k k' x x').
  - intros k m Hx. destruct (Hm k m Hx) as (? & ? & ? & ?). split_and!; [done| |done|done].
    rewrite lookup_insert_is_Some'. by right.
Qed.

Section Statements.
Context `{Collation}.

Lemma CreateTeam_ok t : keeps teams_ok (CreateTeam t).
Proof.
  unfold CreateTeam. solve_keeps. apply keeps_op. intros now d Hd.
  destruct (_ || _) eqn:E; [done|]. rewrite !orb_false_iff in E. destruct E as [[_ Ho%negb_false_iff%found_true] Hc].
  by apply (put_team_ok (mkTeam (t_ID t) _ _ _ _ _ _)).
Qed.

Lemma UpdateTeam_ok t : keeps teams_ok (UpdateTeam t).
Proof.
  apply keeps_op. intros now d Hd. destruct (teams d !! t_ID t) as [r|] eqn:Er; [|done].
  destruct (team_clash _ _ _ _) eqn:Ec; [done|]. destruct (teams_keyed _ Hd _ _ Er) as [Hid Ho].
  pose proof (put_team_ok (mkTeam (t_ID r) (t_OrgID r) (t_Name t) (t_Email t) (t_ExternalID t)
    (t_CreatedAt r) now) d) as Hp. cbn in Hp. rewrite Hid in Hp. cbn. rewrite Hid. by apply Hp.
Qed.

Lemma DeleteTeam_ok id : keeps teams_ok (DeleteTeam id).
Proof.
  apply keeps_write. intros t d Hd. destruct (found _); [|done]. destruct Hd as [Hk Hn Hm]. split; cbn.
  - intros k x [_ Hx]%lookup_delete_Some. by apply Hk.
  - intros k k' x x' [_ Hx]%lookup_delete_Some [_ Hx']%lookup_delete_Some. by apply Hn.
  - intros k m [Hx Hne]%lookup_delete_where. destruct (Hm k m Hx) as (? & ? & ? & ?).
    split_and!; [done| |done|done]. apply String.eqb_neq in Hne. by rewrite lookup_delete_ne.
Qed.

Lemma RemoveTeamMember_ok a u : keeps teams_ok (RemoveTeamMember a u).
Proof.
  apply keeps_write. intros t d [Hk Hn Hm]. split; cbn; [done..|].
  intros k m [_ Hx]%lookup_delete_Some. by apply Hm.
Qed.

Lemma AddTeamMember_ok m : keeps teams_ok (AddTeamMember m).
Proof.
  apply keeps_op. intros t d Hd. cbn zeta. destruct (team_members d !! _) as [r|] eqn:Er.
  - destruct Hd as [Hk Hn Hm]. split; cbn; [done..|].
    intros k x [[<- <-]|[_ Hx]]%lookup_insert_Some; [|by apply Hm]. cbn.
    destruct (Hm _ _ Er) as (Hkey & ? & ? & ?). by injection Hkey as -> ->.
  - destruct (_ || _) eqn:E; [done|]. apply orb_false_iff in E as [Ht%negb_false_iff%found_true Hf].
    unfold fk_member in Hf. apply negb_false_iff, andb_true_iff in Hf as [Hu%found_true Ho%found_true].
    destruct Hd as [Hk Hn Hm]. split; cbn; [done..|].
    intros k x [[<- <-]|[_ Hx]]%lookup_insert_Some; [done|by apply Hm].
Qed.
End Statements.
#[global] Hint Resolve CreateTeam_ok UpdateTeam_ok DeleteTeam_ok RemoveTeamMember_ok AddTeamMember_ok : keeps.

(** ** Operations *)

Section Operations.
Context `{Collation} `{UuidGen}.

Inductive team_request : Type :=
| ReqList (orgID : string) | ReqCreate (orgID : string) (req : option teamRequest)
| ReqGet (teamID : string) | ReqUpdate (teamID : string) (req : option teamRequest)
| ReqDelete (teamID : string) | ReqListMembers (teamID : string)
| ReqAdd (orgID teamID : string) (req : option addTeamMemberRequest) | ReqRemove (teamID userID : string).

Definition serve (rq : team_request) : Eff (World AuthDB) (Response team_body) :=
  match rq with
  | ReqList o => List_ o | ReqCreate o r => Create o r | ReqGet t => Get t | ReqUpdate t r => Update t r
  | ReqDelete t => Delete t | ReqListMembers t => ListMembers t | ReqAdd o t r => AddMember o t r
  | ReqRemove t u => RemoveMember t u
  end.

#[local] Hint Resolve new_uuid_keeps : keeps.
Lemma serve_teams_ok rq : keeps teams_ok (serve rq).
Proof.
  destruct rq; cbn [serve];
    unfold List_, Create, Get, Update, Delete, ListMembers, AddMember, RemoveMember, ListTeams, GetTeam,
      ListTeamMembers; solve_keeps.
Qed.

(** (lemma) Whatever the requests served, teams stay sound: an existing organization,
    a name unique in it, memberships of existing teams and users. *)
Theorem reachable_teams_ok rqs w :
  teams_ok (w_db w) -> teams_ok (w_db (fold_left (fun w rq => (serve rq w).2) rqs w)).
Proof.
  revert w. induction rqs as [|rq rqs IH]; cbn; intros w Hw; [done|]. apply IH. by apply serve_teams_ok.
Qed.

(** The members a listing of the team shows. *)
Definition lists_members (teamID : string) (w : World AuthDB) (l : list teamMemberResponse) : Prop :=
  (ListMembers teamID w).1 = JSON 200 (TeamMemberList l).

Lemma ListMembers_runs teamID w :
  no_faults w -> exists l, lists_members teamID w l /\ length l = member_count (w_db w) teamID /\
    forall u p, (exists t, In (mkTeamMemberResponse teamID u p t) l) <->
                exists m k, team_members (w_db w) !! k = Some m /\ tm_TeamID m = teamID /\
                            tm_UserID m = u /\ tm_Permission m = p.
Proof.
  intros Hw. unfold lists_members, ListMembers, func, try, gbind, call, ListTeamMembers, db_read.
  rewrite db_op_run by done. cbn [fst snd gret]. eexists. split; [reflexivity|]. split.
  - rewrite length_map. unfold order_by. by rewrite sort_stable_length.
  - intros u p. split.
    + intros (t & (m & Hm & Hin)%in_map_iff). apply list_elem_of_In, sort_stable_elem, select_elem in Hin as [[k Hk] _].
      injection Hm as <- <- <- _. by exists m, k.
    + intros (m & k & Hk & <- & <- & <-). exists (tm_CreatedAt m). apply in_map_iff. exists m. split; [done|].
      apply list_elem_of_In, sort_stable_elem, select_elem. split; [by exists k|]. apply String.eqb_refl.
Qed.

(** (lemma) Listings agree: without failures the member count a team is listed with is
    the length of its list of members, whether it is read alone or in the list
    of its organization, and that list holds every team of the organization. *)
Theorem member_counts_agree orgID w :
  no_faults w -> teams_ok (w_db w) ->
  exists l, (List_ orgID w).1 = JSON 200 (TeamList l) /\
    (forall id, In id (map tr_ID l) <-> exists t, teams (w_db w) !! id = Some t /\ t_OrgID t = orgID) /\
    forall r, In r l -> (Get (tr_ID r) w).1 = JSON 200 (OneTeam r) /\
      exists ms, lists_members (tr_ID r) w ms /\ length ms = tr_MemberCount r.
Proof.
  intros Hw Hok. unfold List_, func, try, gbind, call, ListTeams, db_read. rewrite db_op_run by done.
  cbn [fst snd gret]. eexists. split; [reflexivity|]. split.
  - intros id. rewrite !map_map. cbn. rewrite in_map_iff. split.
    + intros (t & <- & Hin). apply list_elem_of_In, sort_stable_elem, select_elem in Hin as [[k Hk] Ho%String.eqb_eq].
      destruct (teams_keyed _ Hok _ _ Hk) as [-> _]. by exists t.
    + intros (t & Ht & <-). exists t. destruct (teams_keyed _ Hok _ _ Ht) as [Hid _]. split; [done|].
      apply list_elem_of_In, sort_stable_elem, select_elem. split; [by exists id|]. apply String.eqb_refl.
  - intros r Hr. rewrite map_map in Hr. apply in_map_iff in Hr as (t & <- & Hin).
    apply list_elem_of_In, sort_stable_elem, select_elem in Hin as [[k Hk] _].
    destruct (teams_keyed _ Hok _ _ Hk) as [Hid _]. subst k. split.
    + cbn. unfold Get, func, try, gbind, call, GetTeam, db_read. rewrite db_op_run by done. cbn. by rewrite Hk.
    + destruct (ListMembers_runs (t_ID t) w Hw) as (ms & Hl & Hlen & _). by exists ms.
Qed.

Lemma shown_iff teamID w l :
  no_faults w -> lists_members teamID w l -> forall u p,
  (exists t, In (mkTeamMemberResponse teamID u p t) l) <->
  exists m k, team_members (w_db w) !! k = Some m /\ tm_TeamID m = teamID /\ tm_UserID m = u /\ tm_Permission m = p.
Proof.
  intros Hw Hl. destruct (ListMembers_runs teamID w Hw) as (l' & Hl' & _ & Hiff).
  unfold lists_members in *. rewrite Hl in Hl'. by injection Hl' as <-.
Qed.

Lemma AddTeamMember_spec x w :
  teams_ok (w_db w) ->
  let '(r, w') := AddTeamMember x w in
  match r with
  | Ok _ => exists m, w_db w' = set_team_members (w_db w)
              (<[(tm_TeamID x, tm_UserID x) := m]> (team_members (w_db w))) /\
              tm_TeamID m = tm_TeamID x /\ tm_UserID m = tm_UserID x /\ tm_Permission m = tm_Permission x
  | Err _ => w_db w' = w_db w
  end.
Proof.
  intros Hok. unfold AddTeamMember. destruct (db_op _ w) as [r w1] eqn:E.
  apply db_op_cases in E as [[-> ->]|(d & Hf & ->)]; [done|]. cbn zeta in Hf.
  destruct (team_members (w_db w) !! _) as [m|] eqn:Em.
  - injection Hf as <- <-. eexists. split; [reflexivity|].
    destruct (team_members_keyed _ Hok _ _ Em) as [Hkey _]. by injection Hkey as -> ->.
  - destruct (_ || _); injection Hf as <- <-; [done|]. eexists. by split.
Qed.

(** (lemma) Adding and removing: after a 201 the team's list shows the user with the
    requested permission - member by default, any other text as it is - and after
    a 204 to a removal it does not show the user; nobody else is touched. *)
Theorem AddMember_RemoveMember orgID teamID req userID w :
  teams_ok (w_db w) ->
  (let '(rep, w') := AddMember orgID teamID req w in
   (status rep <> 201%Z /\ w_db w' = w_db w) \/
   exists rq m, status rep = 201%Z /\ req = Some rq /\
     team_members (w_db w') = <[(teamID, atm_UserID rq) := m]> (team_members (w_db w)) /\
     tm_Permission m = (if str_empty (atm_Permission rq) then "member" else atm_Permission rq) /\
     forall w1 l, w_db w1 = w_db w' -> no_faults w1 -> lists_members teamID w1 l ->
       exists t, In (mkTeamMemberResponse teamID (atm_UserID rq) (tm_Permission m) t) l) /\
  (let '(rep, w') := RemoveMember teamID userID w in
   (status rep <> 204%Z /\ w_db w' = w_db w) \/
   (status rep = 204%Z /\ team_members (w_db w') = delete (teamID, userID) (team_members (w_db w)) /\
    forall w1 l, w_db w1 = w_db w' -> no_faults w1 -> lists_members teamID w1 l ->
      forall p t, ~ In (mkTeamMemberResponse teamID userID p t) l)).
Proof.
  intros Hok. split.
  - unfold AddMember. apply wp_let. wp_step. split; [intros _; by left|]. intros rq ->.
    wp_step. split; [intros _; by left|]. intros _. wp_step.
    match goal with |- context [AddTeamMember ?x w] => pose proof (AddTeamMember_spec x w Hok) as Hs;
      destruct (AddTeamMember x w) as [[[]|e] w1] end; wp_step; [|by left; split; [destruct e|]].
    destruct Hs as (m & Hd & Ht & Hu & Hp). cbn in Hd, Ht, Hu, Hp. right. exists rq, m. split_and!; try done.
    + by rewrite Hd.
    + intros w2 l Hw2 Hf Hl. apply (shown_iff teamID w2 l Hf Hl). rewrite Hw2, Hd. cbn.
      exists m, (teamID, atm_UserID rq). split_and!; [apply lookup_insert_eq|done..].
  - unfold RemoveMember. apply wp_let. wp_step. unfold RemoveTeamMember, db_write.
    destruct (db_op _ w) as [r w1] eqn:E. apply db_op_cases in E as [[-> Hd]|(d & Hf & Hd)]; [by left|].
    injection Hf as <- <-. wp_step. right. split_and!; [done|by rewrite Hd|].
    intros w2 l Hw2 Hf Hl p t Hin.
    destruct (proj1 (shown_iff teamID w2 l Hf Hl userID p) (ex_intro _ t Hin)) as (m & k & Hk & Ht & Hu & _).
    rewrite Hw2, Hd in Hk. cbn in Hk. apply lookup_delete_Some in Hk as [Hne Hk].
    destruct (team_members_keyed _ Hok _ _ Hk) as [-> _]. by rewrite Ht, Hu in Hne.
Qed.
End Operations.

(** ** Requests across tenants *)

Module TeamsDemo.
Import Session.Demo.
Definition ada_principal : Principal := user_principal "u1" EmptyString.
Definition core2 : Team := mkTeam "t2" "org2" "Core" EmptyString EmptyString 1 1.

(** Ada administers org1; the team Core belongs to org2. *)
Definition tenants : AuthDB :=
  set_teams
    (set_members
      (set_orgs (set_users empty_db {[ "u1" := ada ]})
         (list_to_map [("org1", mkOrg "org1" "Acme" None false false false 1 1);
                       ("org2", mkOrg "org2" "Umbrella" None false false false 1 1)]))
      {[ ("u1", "org1") := member_row "u1" "org1" "admin" "manual" 1 1 ]})
    {[ "t2" := core2 ]}.
Definition demo : World AuthDB := mkWorld tenants [] 1000 [] (replicate 96 7%N).

(** (lemma) An administrator of org1, who is no member of org2, uses org1's route to
    rename a team of org2 and then to join it as its administrator: no handler
    of teams compares the team's organization with the one the route was
    authorized for. *)
Theorem team_crosses_tenants :
  members tenants !! ("u1", "org2") = None /\
  let '(rep1, w1) := requireScope "teams:edit" (Some ada_principal) "org1"
                       (fun _ => Update "t2" (Some (mkTeamRequest "Pwned" EmptyString))) demo in
  let '(rep2, w2) := requireScope "teams:add-member" (Some ada_principal) "org1"
                       (fun _ => AddMember "org1" "t2" (Some (mkAddTeamMember "u1" "admin"))) w1 in
  status rep1 = 200%Z /\ status rep2 = 201%Z /\
  option_map (fun t => (t_OrgID t, t_Name t)) (teams (w_db w2) !! "t2") = Some ("org2", "Pwned") /\
  option_map (fun m => (tm_OrgID m, tm_Permission m)) (team_members (w_db w2) !! ("t2", "u1"))
    = Some ("org1", "admin").
Proof. vm_compute. auto. Qed.

Lemma tenants_ok : teams_ok tenants.
Proof.
  split.
  - intros k t Ht. cbn in Ht. apply lookup_singleton_Some in Ht as [<- <-]. split; [done|]. vm_compute. eauto.
  - intros k k' t t' Ht Ht' _ _. cbn in Ht, Ht'. apply lookup_singleton_Some in Ht as [<- _], Ht' as [<- _]. done.
  - intros k m Hm. cbn in Hm. rewrite lookup_empty in Hm. done.
Qed.

Lemma reachable_teams_ok_witness :
  teams_ok (w_db demo) /\
  teams_ok (w_db (serve (ReqAdd "org2" "t2" (Some (mkAddTeamMember "u1" EmptyString))) demo).2).
Proof.
  split; [exact tenants_ok|].
  exact (reachable_teams_ok [ReqAdd "org2" "t2" (Some (mkAddTeamMember "u1" EmptyString))] demo tenants_ok).
Defined.

Lemma member_counts_agree_witness :
  teams_ok (w_db demo) /\
  exists l, (List_ "org2" demo).1 = JSON 200 (TeamList l) /\ map tr_ID l = ["t2"] /\ map tr_MemberCount l = [0].
Proof.
  split; [exact tenants_ok|].
  destruct (member_counts_agree "org2" demo (Forall_nil_2 _) tenants_ok) as (l & Hl & _ & _).
  exists l. split; [exact Hl|]. vm_compute in Hl. injection Hl as <-. split; reflexivity.
Defined.

Lemma AddMember_RemoveMember_witness :
  teams_ok (w_db demo) /\
  team_members (w_db (RemoveMember "t2" "u1" demo).2) = delete ("t2", "u1") (team_members tenants).
Proof.
  split; [exact tenants_ok|].
  destruct (AddMember_RemoveMember "org2" "t2" None "u1" demo tenants_ok) as [_ H].
  destruct (RemoveMember "t2" "u1" demo) as [rep w'] eqn:E.
  assert (status rep = 204%Z) as Hs by (change rep with (rep, w').1; rewrite <-E; vm_compute; reflexivity).
  destruct H as [[H _]|(_ & H & _)]; [contradiction|exact H].
Defined.
End TeamsDemo.
