(* ===== verification/ProviderAdmin.v ===== *)
(** * ProviderAdmin: administration of auth providers

    Models [internal/api/auth/authprovider.go] over the identity tables: the
    providers of an organization with their icons and SAML metadata, their role
    mappings, and the organization's domain.  Secrets are encrypted with the
    cipher of [Crypto]; SAML metadata parsing and key generation ([internal/saml],
    a wrapper of third-party code), presigning, and the error text of the regexp
    compiler are arguments. *)

From S2P Require Import Prelude GoStrings Effects Table Authz RoleMap Identity Crypto AuthStore.
From S2P Require Import Middleware OAuth Session Accounts.
Set Warnings "-clear-no-such-hyp".

Definition secretMask : string := "***".

(** ** Error texts: [identity/provider.go], [rolemap.go] *)

Definition identity_err_text (e : identity_err) : string :=
  match e with
  | SlugRequired => "identity: slug is required"
  | SlugLength => "identity: slug must be between 2 and 63 characters"
  | SlugPattern => "identity: slug must be lowercase letters, digits and single hyphens, e.g. acme-okta"
  | OrgIDRequired => "identity: orgId is required"
  | DisplayNameRequired => "identity: displayName is required"
  | UnknownDefaultRole r => "identity: unknown default role " +:+ Quote r
  | UnknownOIDCType t => "identity: unknown oidc type " +:+ Quote t
  | ClientIDRequired => "identity: clientId is required for oidc providers"
  | URLsRequired => "identity: authUrl and tokenUrl are required for oidc providers"
  | IDPSSOURLRequired => "identity: idpSsoUrl is required for saml providers"
  | IDPCertRequired => "identity: idpCert is required for saml providers"
  | UnknownKind k => "identity: unknown provider kind " +:+ Quote k
  | InvalidOrgDomain => "identity: invalid organization domain"
  end.

Definition rolemap_err_text (regexp_error : string -> string) (e : rolemap_err) : string :=
  match e with
  | KeyRequired => "rolemap: attribute key is required"
  | UnknownOperator op => "rolemap: unknown operator " +:+ Quote op
  | ValueRequired op => "rolemap: operator " +:+ Quote op +:+ " requires a value"
  | InvalidRegex re => "rolemap: invalid regex " +:+ Quote re +:+ ": " +:+ regexp_error re
  | UnknownRole r => "rolemap: unknown role " +:+ Quote r
  end.

(** ** The SAML wrapper *)

Record Metadata := mkMetadata { md_EntityID : string; md_SSOURL : string; md_Cert : string }.

(** [sp_keypair entityID entropy] is a certificate and key, and how many bytes
    of the entropy it used. *)
Class SamlAdmin := {
  ParseMetadata : string -> string -> result string Metadata;
  sp_keypair : string -> list N -> result string (string * string) * nat
}.
Definition GenerateSPKeypair `{SamlAdmin} {DB} (entityID : string) :
    Eff (World DB) (result string (string * string)) :=
  fun w => let '(r, n) := sp_keypair entityID (w_entropy w) in
           (r, mkWorld (w_db w) (w_faults w) (w_clock w) (w_ticks w) (drop n (w_entropy w))).

(** ** Requests and replies *)

Record authProviderRequest := mkProviderRequest {
  pq_Slug : string; pq_Kind : string; pq_Type : string; pq_DisplayName : string;
  pq_Enabled : bool; pq_AllowSignUp : bool; pq_AllowedDomains : string; pq_DefaultRole : Role;
  pq_ClientID : string; pq_ClientSecret : string; pq_AuthURL : string; pq_TokenURL : string;
  pq_UserinfoURL : string; pq_APIURL : string; pq_Scopes : string; pq_EmailClaim : string;
  pq_NameClaim : string; pq_SubClaim : string; pq_GroupsClaim : string;
  pq_IDPMetadataURL : string; pq_IDPMetadataXML : string; pq_IDPEntityID : string;
  pq_IDPSSOURL : string; pq_IDPCert : string; pq_SignRequests : bool; pq_NameIDFormat : string;
  pq_EmailAttribute : string; pq_NameAttribute : string; pq_GroupsAttribute : string
}.
Record roleMappingRequest := mkMappingRequest {
  mq_Priority : Z; mq_AttributeKey : string; mq_Operator : string; mq_AttributeValue : string;
  mq_Role : Role
}.

Inductive provider_body : Type :=
| ProviderList (l : list AuthProvider)
| OneProvider (p : AuthProvider)
| IconUpload (assetID url : string)
| IconSet (assetID : string)
| SPMetadataDoc (entityID acs metadataURL doc : string)
| RuleList (l : list Rule)
| OneRule (r : Rule)
| OperatorList (l : list (string * bool))
| DomainList (l : list OrgDomain)
| OneDomain (d : OrgDomain).

(** [AuthProviderHandler], without its store. *)
Record AuthProviderHandler := mkProviderHandler {
  ph_assets : option (string -> option string);
  ph_presign : string -> option string;
  ph_cipher : option Cipher;
  ph_publicURL : string
}.

Definition AuthProviderIconAssetID (providerID : string) : string := "authprovider_" +:+ providerID.

(** ** Assignments to the fields of a provider *)

Definition with_common (req : authProviderRequest) (p : AuthProvider) : AuthProvider :=
  mkAuthProvider (ap_ID p) (ap_Slug p) (ap_OrgID p) (pq_Kind req) (ap_Type p)
    (TrimSpace (pq_DisplayName req)) (ap_IconAssetID p) (ap_IconURL p) (pq_Enabled req)
    (pq_AllowSignUp req) (TrimSpace (pq_AllowedDomains req)) (pq_DefaultRole req) (ap_ClientID p)
    (ap_ClientSecret p) (ap_AuthURL p) (ap_TokenURL p) (ap_UserinfoURL p) (ap_APIURL p) (ap_Scopes p)
    (ap_EmailClaim p) (ap_NameClaim p) (ap_SubClaim p) (ap_GroupsClaim p) (ap_IDPMetadataURL p)
    (ap_IDPMetadataXML p) (ap_IDPEntityID p) (ap_IDPSSOURL p) (ap_IDPCert p) (ap_SPEntityID p)
    (ap_SPCert p) (ap_SPKey p) (ap_SignRequests p) (ap_NameIDFormat p) (ap_EmailAttribute p)
    (ap_NameAttribute p) (ap_GroupsAttribute p) (ap_CreatedAt p) (ap_UpdatedAt p).

Definition with_oidc (req : authProviderRequest) (type auth token info : string) (p : AuthProvider) :
    AuthProvider :=
  mkAuthProvider (ap_ID p) (ap_Slug p) (ap_OrgID p) (ap_Kind p) type (ap_DisplayName p)
    (ap_IconAssetID p) (ap_IconURL p) (ap_Enabled p) (ap_AllowSignUp p) (ap_AllowedDomains p)
    (ap_DefaultRole p) (TrimSpace (pq_ClientID req)) (ap_ClientSecret p) auth token info
    (TrimSpace (pq_APIURL req)) (pq_Scopes req) (pq_EmailClaim req) (pq_NameClaim req)
    (pq_SubClaim req) (pq_GroupsClaim req) (ap_IDPMetadataURL p) (ap_IDPMetadataXML p)
    (ap_IDPEntityID p) (ap_IDPSSOURL p) (ap_IDPCert p) (ap_SPEntityID p) (ap_SPCert p) (ap_SPKey p)
    (ap_SignRequests p) (ap_NameIDFormat p) (ap_EmailAttribute p) (ap_NameAttribute p)
    (ap_GroupsAttribute p) (ap_CreatedAt p) (ap_UpdatedAt p).

Definition with_saml (req : authProviderRequest) (entity sso cert : string) (p : AuthProvider) :
    AuthProvider :=
  mkAuthProvider (ap_ID p) (ap_Slug p) (ap_OrgID p) (ap_Kind p) TypeGeneric (ap_DisplayName p)
    (ap_IconAssetID p) (ap_IconURL p) (ap_Enabled p) (ap_AllowSignUp p) (ap_AllowedDomains p)
    (ap_DefaultRole p) (ap_ClientID p) (ap_ClientSecret p) (ap_AuthURL p) (ap_TokenURL p)
    (ap_UserinfoURL p) (ap_APIURL p) (ap_Scopes p) (ap_EmailClaim p) (ap_NameClaim p) (ap_SubClaim p)
    (ap_GroupsClaim p) (TrimSpace (pq_IDPMetadataURL req)) (pq_IDPMetadataXML req) entity sso cert
    (ap_SPEntityID p) (ap_SPCert p) (ap_SPKey p) (pq_SignRequests req) (pq_NameIDFormat req)
    (pq_EmailAttribute req) (pq_NameAttribute req) (pq_GroupsAttribute req) (ap_CreatedAt p)
    (ap_UpdatedAt p).

(** The icon URL, the SP entity id, and the three fields that are or hold secrets. *)
Definition with_secrets (iconURL entity secret cert key : string) (p : AuthProvider) : AuthProvider :=
  mkAuthProvider (ap_ID p) (ap_Slug p) (ap_OrgID p) (ap_Kind p) (ap_Type p) (ap_DisplayName p)
    (ap_IconAssetID p) iconURL (ap_Enabled p) (ap_AllowSignUp p) (ap_AllowedDomains p)
    (ap_DefaultRole p) (ap_ClientID p) secret (ap_AuthURL p) (ap_TokenURL p) (ap_UserinfoURL p)
    (ap_APIURL p) (ap_Scopes p) (ap_EmailClaim p) (ap_NameClaim p) (ap_SubClaim p) (ap_GroupsClaim p)
    (ap_IDPMetadataURL p) (ap_IDPMetadataXML p) (ap_IDPEntityID p) (ap_IDPSSOURL p) (ap_IDPCert p)
    entity cert key (ap_SignRequests p) (ap_NameIDFormat p) (ap_EmailAttribute p)
    (ap_NameAttribute p) (ap_GroupsAttribute p) (ap_CreatedAt p) (ap_UpdatedAt p).
Definition set_secret (s : string) (p : AuthProvider) : AuthProvider :=
  with_secrets (ap_IconURL p) (ap_SPEntityID p) s (ap_SPCert p) (ap_SPKey p) p.
Definition set_keypair (cert key : string) (p : AuthProvider) : AuthProvider :=
  with_secrets (ap_IconURL p) (ap_SPEntityID p) (ap_ClientSecret p) cert key p.

(** [identity.AuthProvider{ID, Slug, OrgID}], the zero value otherwise. *)
Definition new_provider (id slug orgID : string) : AuthProvider :=
  mkAuthProvider id slug orgID EmptyString EmptyString EmptyString EmptyString EmptyString false false
    EmptyString EmptyString EmptyString EmptyString EmptyString EmptyString EmptyString EmptyString
    EmptyString EmptyString EmptyString EmptyString EmptyString EmptyString EmptyString EmptyString
    EmptyString EmptyString EmptyString EmptyString EmptyString false EmptyString EmptyString
    EmptyString EmptyString 0 0.

(** ** Handlers *)

Section Handlers.
Context `{Collation} `{UnicodeCase} `{Sha256} `{Aead} `{SamlAdmin} `{Saml} `{Regexp}.
Context (regexp_error : string -> string) (h : AuthProviderHandler).
Local Abbreviation W := (World AuthDB).
Local Abbreviation Reply := (AdminReply provider_body).
Local Abbreviation fail e := (just (HttpError e)).

Definition sp_entity (p : AuthProvider) : string :=
  samlMetadataURL (ph_publicURL h) (ap_OrgID p) (ap_Slug p).

Definition load (orgID slug : string) : Go W Reply AuthProvider :=
  p <- try (GetAuthProviderBySlug orgID slug) (fun e => fail e) ;;
  non_nil p (fail ErrNotFound).

Definition decrypt (ciphertext : string) : result store_err string :=
  if str_empty ciphertext then Ok EmptyString
  else match ph_cipher h with
       | None => Err (ErrOther "no secret key is configured, provider secrets cannot be read")
       | Some c => match Decrypt c ciphertext with
                   | Ok s => Ok s
                   | Err e => Err (ErrOther e)
                   end
       end.

Definition present (p : AuthProvider) : AuthProvider :=
  with_secrets
    (match ph_assets h with
     | Some resolve => if str_empty (ap_IconAssetID p) then ap_IconURL p
                       else default (ap_IconURL p) (resolve (ap_IconAssetID p))
     | None => ap_IconURL p
     end)
    (if String.eqb (ap_Kind p) KindSAML then sp_entity p else ap_SPEntityID p)
    (if str_empty (ap_ClientSecret p) then EmptyString else secretMask)
    (ap_SPCert p)
    (if str_empty (ap_SPKey p) then EmptyString else secretMask)
    p.

(** The three endpoints of an OIDC provider: as requested, or derived when one is missing. *)
Definition oidc_endpoints (req : authProviderRequest) (type : string) :
    result string (string * string * string) :=
  let auth := TrimSpace (pq_AuthURL req) in
  let token := TrimSpace (pq_TokenURL req) in
  let info := TrimSpace (pq_UserinfoURL req) in
  let api := TrimSpace (pq_APIURL req) in
  if str_empty auth || str_empty token || str_empty info then
    if String.eqb type TypeEntra then
      if str_empty api then Err "an entra provider needs apiUrl (the directory/tenant ID)"
      else Ok (EntraEndpoints api)
    else if String.eqb type TypeOkta then
      if str_empty api then Err "an okta provider needs apiUrl (the okta domain)"
      else Ok (OktaEndpoints api)
    else Ok (auth, token, info)
  else Ok (auth, token, info).

Definition no_secret_key : string := "no secret key is configured, secrets cannot be stored".

(** [h.cipher.Encrypt], as the error a handler reports. *)
Definition encrypt (c : Cipher) (plaintext : string) : Eff W (result string string) :=
  func (
    enc <- try (Encrypt c plaintext) (fun e => Err (err_text e)) ;;
    gret (Ok enc)).

Definition applyOIDC (req : authProviderRequest) (p : AuthProvider) : Eff W (result string AuthProvider) :=
  func (
    let type := if str_empty (pq_Type req) then TypeGeneric else pq_Type req in
    urls <- try (fun w => (oidc_endpoints req type, w)) Err ;;
    let p := with_oidc req type urls.1.1 urls.1.2 urls.2 p in
    let secret := TrimSpace (pq_ClientSecret req) in
    return_if (str_empty secret || String.eqb secret secretMask) (Ok p) ;;;
    c <- non_nil (ph_cipher h) (Err no_secret_key) ;;
    enc <- try (encrypt c secret) Err ;;
    gret (Ok (set_secret enc p))).

(** A new SP keypair, the key encrypted. *)
Definition new_keypair (c : Cipher) (p : AuthProvider) : Eff W (result string AuthProvider) :=
  func (
    kp <- try (GenerateSPKeypair (sp_entity p)) Err ;;
    enc <- try (encrypt c kp.2) Err ;;
    gret (Ok (set_keypair kp.1 enc p))).

Definition or_else (a b : string) : string := if str_empty a then b else a.

Definition applySAML (req : authProviderRequest) (p : AuthProvider) : Eff W (result string AuthProvider) :=
  func (
    let url := TrimSpace (pq_IDPMetadataURL req) in
    let xml := pq_IDPMetadataXML req in
    let entity := TrimSpace (pq_IDPEntityID req) in
    let sso := TrimSpace (pq_IDPSSOURL req) in
    let cert := TrimSpace (pq_IDPCert req) in
    p <- (if negb (str_empty url) || negb (str_empty xml) then
            md <- try (fun w => (ParseMetadata url xml, w)) Err ;;
            gret (with_saml req (or_else entity (md_EntityID md)) (or_else sso (md_SSOURL md))
                            (or_else cert (md_Cert md)) p)
          else gret (with_saml req entity sso cert p)) ;;
    return_if (negb (str_empty (ap_SPCert p)) && negb (str_empty (ap_SPKey p))) (Ok p) ;;;
    c <- non_nil (ph_cipher h) (Err no_secret_key) ;;
    p <- try (new_keypair c p) Err ;;
    gret (Ok p)).

Definition apply (req : authProviderRequest) (p : AuthProvider) : Eff W (result string AuthProvider) :=
  let p := with_common req p in
  if String.eqb (pq_Kind req) KindOIDC then applyOIDC req p
  else if String.eqb (pq_Kind req) KindSAML then applySAML req p
  else func (gret (Err ("unknown provider kind " +:+ Quote (pq_Kind req)))).

(** [if err := p.Validate(); err != nil { httputil.BadRequest(w, err.Error()) }] *)
Definition check_valid (p : AuthProvider) : Go W Reply unit :=
  match Validate p with
  | Some e => greturn (just (BadRequest (identity_err_text e)))
  | None => gret tt
  end.

Definition ListProviders (orgID : string) : Eff W Reply :=
  func (
    providers <- try (ListAuthProviders orgID) (fun e => fail e) ;;
    gret (just (JSON 200 (ProviderList (map present providers))))).

Definition GetProvider (orgID slug : string) : Eff W Reply :=
  func (
    p <- load orgID slug ;;
    gret (just (JSON 200 (OneProvider (present p))))).

Definition CreateProvider (orgID : string) (req : option authProviderRequest) : Eff W Reply :=
  func (
    req <- non_nil req (just (BadRequest "invalid JSON")) ;;
    id <- call newID ;;
    p <- try (apply req (new_provider id (pq_Slug req) orgID)) (fun m => just (BadRequest m)) ;;
    check_valid p ;;;
    _ <- try (CreateAuthProvider p) (fun e => fail e) ;;
    gret (just (JSON 201 (OneProvider (present p))))).

Definition UpdateProvider (orgID slug : string) (req : option authProviderRequest) : Eff W Reply :=
  func (
    p <- load orgID slug ;;
    req <- non_nil req (just (BadRequest "invalid JSON")) ;;
    return_if (negb (String.eqb (pq_Slug req) (ap_Slug p)))
              (just (BadRequest "slug cannot be changed after the provider is created")) ;;;
    p <- try (apply req p) (fun m => just (BadRequest m)) ;;
    check_valid p ;;;
    _ <- try (UpdateAuthProvider p) (fun e => fail e) ;;
    gret (just (JSON 200 (OneProvider (present p))))).

Definition DeleteProvider (orgID slug : string) : Eff W Reply :=
  func (
    p <- load orgID slug ;;
    _ <- try (DeleteAuthProvider (ap_OrgID p) (ap_ID p)) (fun e => fail e) ;;
    gret (just no_content)).

Definition PrepareProviderIconUpload (orgID slug : string) : Eff W Reply :=
  func (
    p <- load orgID slug ;;
    let assetID := AuthProviderIconAssetID (ap_ID p) in
    url <- non_nil (ph_presign h (AssetKey assetID)) (fail (ErrOther "storage: presign")) ;;
    gret (just (JSON 200 (IconUpload assetID url)))).

Definition PutProviderIcon (orgID slug : string) : Eff W Reply :=
  func (
    p <- load orgID slug ;;
    let assetID := AuthProviderIconAssetID (ap_ID p) in
    _ <- try (SetAuthProviderIcon (ap_OrgID p) (ap_ID p) (Some assetID)) (fun e => fail e) ;;
    gret (just (JSON 200 (IconSet assetID)))).

(** The object is deleted before the row is changed. *)
Definition DeleteProviderIcon (orgID slug : string) : Eff W Reply :=
  func (
    p <- load orgID slug ;;
    let gone := [AssetKey (AuthProviderIconAssetID (ap_ID p))] in
    _ <- try (SetAuthProviderIcon (ap_OrgID p) (ap_ID p) None)
             (fun e => mkAdminReply (HttpError e) [] gone) ;;
    gret (mkAdminReply no_content [] gone)).

(** The provider with a keypair, which is stored when it is new. *)
Definition ensureSPKeypair (p : AuthProvider) : Eff W (result store_err AuthProvider) :=
  func (
    return_if (negb (str_empty (ap_SPCert p)) && negb (str_empty (ap_SPKey p))) (Ok p) ;;;
    c <- non_nil (ph_cipher h)
           (Err (ErrOther "no secret key is configured, an SP keypair cannot be generated")) ;;
    p <- try (new_keypair c p) (fun m => Err (ErrOther m)) ;;
    _ <- try (UpdateAuthProvider p) Err ;;
    gret (Ok p)).

Definition SAMLMetadata (orgID slug : string) : Eff W Reply :=
  func (
    p <- load orgID slug ;;
    return_if (negb (String.eqb (ap_Kind p) KindSAML))
              (just (BadRequest "provider is not a SAML provider")) ;;;
    p <- try (ensureSPKeypair p) (fun e => fail e) ;;
    key <- try (fun w => (decrypt (ap_SPKey p), w)) (fun e => fail e) ;;
    let acs := acsURL (ph_publicURL h) (ap_OrgID p) (ap_Slug p) in
    let metadataURL := sp_entity p in
    doc <- non_nil (SPMetadata (samlProviderFor p (ph_publicURL h) key) acs metadataURL)
             (fail (ErrOther "saml: metadata")) ;;
    gret (just (JSON 200 (SPMetadataDoc metadataURL acs metadataURL doc)))).

(** *** Role mappings *)

Definition ListRoleMappings_ (orgID slug : string) : Eff W Reply :=
  func (
    p <- load orgID slug ;;
    rules <- try (ListRoleMappings (ap_ID p)) (fun e => fail e) ;;
    gret (just (JSON 200 (RuleList rules)))).

Definition mapping_rule (id providerID : string) (req : roleMappingRequest) : Rule :=
  mkRule id providerID (mq_Priority req) (TrimSpace (mq_AttributeKey req)) (mq_Operator req)
         (mq_AttributeValue req) (mq_Role req).

Definition check_rule (rule : Rule) : Go W Reply unit :=
  match ValidateRule rule with
  | Some e => greturn (just (BadRequest (rolemap_err_text regexp_error e)))
  | None => gret tt
  end.

Definition CreateRoleMapping_ (orgID slug : string) (req : option roleMappingRequest) : Eff W Reply :=
  func (
    p <- load orgID slug ;;
    req <- non_nil req (just (BadRequest "invalid JSON")) ;;
    id <- call newID ;;
    let rule := mapping_rule id (ap_ID p) req in
    check_rule rule ;;;
    _ <- try (CreateRoleMapping rule) (fun e => fail e) ;;
    gret (just (JSON 201 (OneRule rule)))).

Definition UpdateRoleMapping_ (orgID slug mappingID : string) (req : option roleMappingRequest) : Eff W Reply :=
  func (
    p <- load orgID slug ;;
    req <- non_nil req (just (BadRequest "invalid JSON")) ;;
    let rule := mapping_rule mappingID (ap_ID p) req in
    check_rule rule ;;;
    _ <- try (UpdateRoleMapping rule) (fun e => fail e) ;;
    gret (just (JSON 200 (OneRule rule)))).

Definition DeleteRoleMapping_ (orgID slug mappingID : string) : Eff W Reply :=
  func (
    p <- load orgID slug ;;
    _ <- try (DeleteRoleMapping (ap_ID p) mappingID) (fun e => fail e) ;;
    gret (just no_content)).

Definition MappingOperators : Eff W Reply :=
  func (gret (just (JSON 200 (OperatorList (map (fun op => (op, TakesValue op)) ValidOperators))))).

(** *** The organization's domain *)

Definition ListDomains (orgID : string) : Eff W Reply :=
  func (
    domains <- try (ListOrgDomains orgID) (fun e => fail e) ;;
    gret (just (JSON 200 (DomainList domains)))).

(** The normalized domain of a request. *)
Definition requested_domain (req : option string) : Go W Reply string :=
  req <- non_nil req (just (BadRequest "invalid JSON")) ;;
  try (fun w => (NormalizeOrgDomain req, w))
      (fun _ => just (BadRequest "a valid email domain is required")).

Definition CreateDomain (orgID : string) (req : option string) : Eff W Reply :=
  func (
    domain <- requested_domain req ;;
    domains <- try (ListOrgDomains orgID) (fun e => fail e) ;;
    return_if (negb (length domains =? 0))
              (just (Conflict "an organization can currently have only one domain")) ;;;
    id <- call newID ;;
    let d := mkOrgDomain id orgID domain 0 0 in
    _ <- try (CreateOrgDomain d) (fun e => fail e) ;;
    gret (just (JSON 201 (OneDomain d)))).

Definition UpdateDomain (orgID domainID : string) (req : option string) : Eff W Reply :=
  func (
    domain <- requested_domain req ;;
    let d := mkOrgDomain domainID orgID domain 0 0 in
    _ <- try (UpdateOrgDomain d) (fun e => fail e) ;;
    gret (just (JSON 200 (OneDomain d)))).

Definition DeleteDomain (orgID domainID : string) : Eff W Reply :=
  func (
    _ <- try (DeleteOrgDomain orgID domainID) (fun e => fail e) ;;
    gret (just no_content)).
End Handlers.

(** ** Invariant

    Providers are stored under their ids, pass [Validate], and hold secrets only
    as ciphertexts of the configured cipher; rules pass [ValidateRule]; domains
    are well formed, at most one for an organization. *)

Section Invariant.
Context `{Sha256} `{Aead} `{Regexp}.
Context (cipher : option Cipher).

Definition secret_ok (s : string) : Prop :=
  s = EmptyString \/ exists c plaintext, cipher = Some c /\ Decrypt c s = Ok plaintext.

Definition provider_ok (p : AuthProvider) : Prop :=
  Validate p = None /\ secret_ok (ap_ClientSecret p) /\ secret_ok (ap_SPKey p).

Record providers_ok (d : AuthDB) : Prop := mkProvidersOk {
  po_provider k p : providers d !! k = Some p -> ap_ID p = k /\ provider_ok p;
  po_rule k r : rules d !! k = Some r -> r_ID (rr_Rule r) = k /\ ValidateRule (rr_Rule r) = None;
  po_domain k x : domains d !! k = Some x -> od_ID x = k /\ domain_check (od_Domain x) = true;
  po_one_domain k k' x x' : domains d !! k = Some x -> domains d !! k' = Some x' ->
    od_OrgID x = od_OrgID x' -> k = k'
}.

(** What a request of organization [o] may do to the tables. *)
Inductive admin_step (o : string) (d : AuthDB) : AuthDB -> Prop :=
| step_provider p :
    ap_OrgID p = o -> provider_ok p ->
    (forall r, providers d !! ap_ID p = Some r -> ap_OrgID r = o /\ ap_Slug r = ap_Slug p) ->
    admin_step o d (set_providers d (<[ap_ID p := p]> (providers d)))
| step_delete_provider id r :
    providers d !! id = Some r -> ap_OrgID r = o ->
    admin_step o d
      (set_states (set_rules (set_providers d (delete id (providers d)))
                     (delete_where (fun x => String.eqb (r_ProviderID (rr_Rule x)) id) (rules d)))
         (delete_where (fun x => String.eqb (ls_ProviderID x) id) (states d)))
| step_rule rule t p :
    ValidateRule rule = None -> providers d !! r_ProviderID rule = Some p -> ap_OrgID p = o ->
    (forall r, rules d !! r_ID rule = Some r -> r_ProviderID (rr_Rule r) = r_ProviderID rule) ->
    admin_step o d (set_rules d (<[r_ID rule := mkRuleRow rule t]> (rules d)))
| step_delete_rule id r p :
    rules d !! id = Some r -> providers d !! r_ProviderID (rr_Rule r) = Some p -> ap_OrgID p = o ->
    admin_step o d (set_rules d (delete id (rules d)))
| step_domain x :
    od_OrgID x = o -> domain_check (od_Domain x) = true ->
    (forall k r, domains d !! k = Some r -> od_OrgID r = o -> k = od_ID x) ->
    (forall r, domains d !! od_ID x = Some r -> od_OrgID r = o) ->
    admin_step o d (set_domains d (<[od_ID x := x]> (domains d)))
| step_delete_domain id r :
    domains d !! id = Some r -> od_OrgID r = o ->
    admin_step o d (set_domains d (delete id (domains d))).

Lemma admin_step_ok o d d' : admin_step o d d' -> providers_ok d -> providers_ok d'.
Proof.
  intros Hs [Hp Hr Hd Hu].
  destruct Hs as [p Ho Hok Hr0|id r Hr0 Ho|rule t p Hv Hp0 Ho Hsame|id r p Hr0 Hp0 Ho|x Ho Hc Hone Hold|id r Hr0 Ho];
    split; cbn; try done.
  - by intros k q [[<- <-]|[_ Hq]]%lookup_insert_Some; [|apply Hp].
  - intros k q [_ Hq]%lookup_delete_Some. by apply Hp.
  - intros k x [Hx _]%lookup_delete_where. by apply Hr.
  - by intros k q [[<- <-]|[_ Hq]]%lookup_insert_Some; [|apply Hr].
  - intros k q [_ Hq]%lookup_delete_Some. by apply Hr.
  - by intros k q [[<- <-]|[_ Hq]]%lookup_insert_Some; [|apply Hd].
  - intros k k' y y' [[<- <-]|[Hk1 H1']]%lookup_insert_Some [[<- <-]|[Hk2 H2']]%lookup_insert_Some He; [done| | |].
    + symmetry. apply (Hone k' y'); congruence.
    + apply (Hone k y); congruence.
    + by apply (Hu k k' y y').
  - intros k q [_ Hq]%lookup_delete_Some. by apply Hd.
  - intros k k' y y' [_ Hy]%lookup_delete_Some [_ Hy']%lookup_delete_Some. by apply Hu.
Qed.

(** Rows of other organizations. *)
Definition confined (o : string) (d d' : AuthDB) : Prop :=
  (forall k p, ap_OrgID p <> o -> providers d !! k = Some p -> providers d' !! k = Some p) /\
  (forall k x, od_OrgID x <> o -> domains d !! k = Some x -> domains d' !! k = Some x) /\
  (forall k r p, rules d !! k = Some r -> providers d !! r_ProviderID (rr_Rule r) = Some p ->
     ap_OrgID p <> o -> rules d' !! k = Some r) /\
  orgs d' = orgs d /\ users d' = users d /\ members d' = members d /\ sessions d' = sessions d /\
  accounts d' = accounts d /\ tokens d' = tokens d /\ teams d' = teams d.

Lemma confined_refl o d : confined o d d.
Proof. by split_and!. Qed.

Lemma admin_step_confined o d d' : admin_step o d d' -> confined o d d'.
Proof.
  intros Hs.
  destruct Hs as [p Ho Hok Hr0|id r Hr0 Ho|rule t p Hv Hp0 Ho Hsame|id r p Hr0 Hp0 Ho|x Ho Hc Hone Hold|id r Hr0 Ho];
    split_and!; cbn; try done.
  - intros k q Hq Hk. rewrite lookup_insert_ne; [done|]. intros <-. by destruct (Hr0 _ Hk).
  - intros k q Hq Hk. rewrite lookup_delete_ne; [done|]. intros <-. congruence.
  - intros k q r' Hk Hq Hne. apply lookup_delete_where. split; [done|]. apply String.eqb_neq. congruence.
  - intros k q r' Hk Hq Hne. rewrite lookup_insert_ne; [done|]. intros <-.
    rewrite (Hsame _ Hk) in Hq. congruence.
  - intros k q r' Hk Hq Hne. rewrite lookup_delete_ne; [done|]. intros <-. congruence.
  - intros k q Hq Hk. rewrite lookup_insert_ne; [done|]. intros <-. by apply Hq, Hold.
  - intros k q Hq Hk. rewrite lookup_delete_ne; [done|]. intros <-. congruence.
Qed.
End Invariant.

(** ** Lemmas on the handlers *)

Section Lemmas.
Context `{Collation} `{UnicodeCase} `{Sha256} `{Aead} `{SamlAdmin} `{Saml} `{Regexp}.
Context (regexp_error : string -> string) (h : AuthProviderHandler).
Context (cipher_made : forall c, ph_cipher h = Some c -> made_cipher c).
Local Abbreviation W := (World AuthDB).
Local Abbreviation Reply := (AdminReply provider_body).
Local Abbreviation secret_ok := (secret_ok (ph_cipher h)).
Local Abbreviation provider_ok := (provider_ok (ph_cipher h)).
Local Abbreviation providers_ok := (providers_ok (ph_cipher h)).
Local Abbreviation admin_step := (admin_step (ph_cipher h)).

(** A provider as a reply may show it: its secrets are masked. *)
Definition masked (s : string) : Prop := s = EmptyString \/ s = secretMask.
Definition hidden (p : AuthProvider) : Prop := masked (ap_ClientSecret p) /\ masked (ap_SPKey p).
Definition hidden_reply (rep : Reply) : Prop :=
  match payload (ar_resp rep) with
  | Json (ProviderList l) => Forall hidden l
  | Json (OneProvider p) => hidden p
  | _ => True
  end.

Lemma present_hidden p : hidden (present h p).
Proof. unfold hidden, masked, present. cbn. destruct (str_empty _), (str_empty _); auto. Qed.

(** What a handler may answer, and leave behind. *)
Definition outcome (o : string) (w : W) (rep : Reply) (w' : W) : Prop :=
  hidden_reply rep /\ (w_db w' = w_db w \/ admin_step o (w_db w) (w_db w')).

Lemma outcome_same o w rep w' : hidden_reply rep -> w_db w' = w_db w -> outcome o w rep w'.
Proof. by split; [|left]. Qed.
Lemma outcome_fail o w e w' : w_db w' = w_db w -> outcome o w (just (HttpError e)) w'.
Proof. apply outcome_same. by destruct e. Qed.

(** A statement that fails without effect or is a step. *)
Lemma outcome_op {A} (f : Z -> AuthDB -> result store_err A * AuthDB) o w0 w (k : A -> Reply) (kerr : store_err -> Reply) :
  w_db w = w_db w0 -> (forall a, hidden_reply (k a)) -> (forall e, hidden_reply (kerr e)) ->
  (match f (w_clock w) (w_db w) with
   | (Ok _, d) => d = w_db w \/ admin_step o (w_db w) d
   | (Err _, d) => d = w_db w
   end) ->
  wp (a <- try (db_op f) kerr ;; gret (k a)) (outcome o w0) (outcome o w0) w.
Proof.
  intros Hd Hk Hke Hf. wp_step. destruct (db_op f w) as [r w1] eqn:E.
  apply db_op_cases in E as [[-> Hd1]|(d & He & Hd1)].
  - wp_step. split; [apply Hke|left; congruence].
  - rewrite He in Hf. destruct r as [a|e]; wp_step.
    + split; [apply Hk|]. rewrite Hd1, <-Hd. exact Hf.
    + split; [apply Hke|left; congruence].
Qed.

Lemma load_spec o slug w :
  wp (load o slug) (outcome o w)
     (fun p w' => w_db w' = w_db w /\ w_entropy w' = w_entropy w /\
        exists k, providers (w_db w) !! k = Some p /\ ap_OrgID p = o /\ ap_Slug p = slug) w.
Proof.
  unfold load. wp_step. destruct (GetAuthProviderBySlug o slug w) as [[op|e] w1] eqn:E1;
    pose proof (db_read_db _ _ _ _ E1) as Hd1; [|by apply outcome_fail].
  assert (w_entropy w1 = w_entropy w) as He.
  { unfold GetAuthProviderBySlug, db_read, db_op in E1. destruct (w_faults w) as [|[]]; by simplify_eq/=. }
  apply db_read_ok in E1 as [Hop _]. wp_step. split; [intros _; by apply outcome_fail|]. intros p ->.
  symmetry in Hop. apply select_one_Some in Hop as [[k Hk] [Ho%String.eqb_eq Hs%String.eqb_eq]%andb_true_iff].
  split_and!; [done..|]. by exists k.
Qed.

(** The provider [apply] makes of another. *)
Definition same_ids (p q : AuthProvider) : Prop :=
  ap_ID q = ap_ID p /\ ap_Slug q = ap_Slug p /\ ap_OrgID q = ap_OrgID p.

Lemma encrypt_spec c s w :
  ph_cipher h = Some c -> byte_entropy w ->
  let '(r, w') := encrypt c s w in
  w_db w' = w_db w /\ forall enc, r = Ok enc -> Decrypt c enc = Ok s.
Proof.
  intros Hc Hw. unfold encrypt. apply wp_let. wp_step. pose proof (Encrypt_db c s w) as Hd.
  destruct (Encrypt_spec c s w (cipher_made c Hc) Hw) as [_ Hdec].
  destruct (Encrypt c s w) as [[enc|e] w1]; cbn in *; [|done]. split; [done|]. intros enc' [= <-]. by apply Hdec.
Qed.

Lemma keypair_spec p (w : W) :
  byte_entropy w ->
  let w' := (GenerateSPKeypair (sp_entity h p) w).2 in w_db w' = w_db w /\ byte_entropy w'.
Proof.
  intros Hw. unfold GenerateSPKeypair. destruct (sp_keypair _ _) as [r n]. split; [done|].
  by apply Forall_drop.
Qed.

Lemma new_keypair_spec c p w :
  ph_cipher h = Some c -> byte_entropy w ->
  let '(r, w') := new_keypair h c p w in
  w_db w' = w_db w /\ forall q, r = Ok q -> exists cert key, q = set_keypair cert key p /\ secret_ok key.
Proof.
  intros Hc Hw. unfold new_keypair. apply wp_let. wp_step. pose proof (keypair_spec p w Hw) as Hk.
  destruct (GenerateSPKeypair _ w) as [[[cert key]|e] w1]; cbn in Hk; destruct Hk as [Hd1 Hw1]; [|done].
  wp_step. pose proof (encrypt_spec c key w1 Hc Hw1) as Henc. cbn [snd fst].
  destruct (encrypt c key w1) as [[enc|e] w2]; destruct Henc as [Hd2 Henc]; wp_step; [|by split; [congruence|]].
  split; [congruence|]. intros q [= <-]. exists cert, enc. split; [done|]. right. exists c, key.
  split; [done|]. by apply Henc.
Qed.

Definition masked_request (req : authProviderRequest) : Prop :=
  TrimSpace (pq_ClientSecret req) = EmptyString \/ TrimSpace (pq_ClientSecret req) = secretMask.

(** The client secret after a request. *)
Definition secret_after (req : authProviderRequest) (p q : AuthProvider) : Prop :=
  if String.eqb (pq_Kind req) KindOIDC && negb (str_empty (TrimSpace (pq_ClientSecret req))) &&
     negb (String.eqb (TrimSpace (pq_ClientSecret req)) secretMask)
  then exists c, ph_cipher h = Some c /\ Decrypt c (ap_ClientSecret q) = Ok (TrimSpace (pq_ClientSecret req))
  else ap_ClientSecret q = ap_ClientSecret p.

Lemma apply_spec req p w :
  byte_entropy w ->
  let '(r, w') := apply h req p w in
  w_db w' = w_db w /\ forall q, r = Ok q ->
    same_ids p q /\ secret_after req p q /\ (secret_ok (ap_SPKey p) -> secret_ok (ap_SPKey q)).
Proof.
  intros Hw. unfold apply, secret_after. destruct (String.eqb_spec (pq_Kind req) KindOIDC) as [Hkind|Hkind].
  - unfold applyOIDC. apply wp_let. wp_step. destruct (oidc_endpoints req _) as [urls|e]; [|done].
    wp_step. split.
    + intros Hm. split; [done|]. intros q [= <-]. cbn. split_and!; [done| |done].
      rewrite <-negb_orb. by rewrite Hm.
    + intros Hm. wp_step. split; [done|]. intros c Hc. wp_step.
      pose proof (encrypt_spec c (TrimSpace (pq_ClientSecret req)) w Hc Hw) as Henc.
      destruct (encrypt c _ w) as [[enc|e] w1]; destruct Henc as [Hd1 Henc]; [|done]. wp_step.
      split; [done|]. intros q [= <-]. cbn. split_and!; [done| |done].
      rewrite <-negb_orb, Hm. cbn. exists c. split; [done|]. by apply Henc.
  - destruct (String.eqb (pq_Kind req) KindSAML); [|done]. unfold applySAML. apply wp_let.
    set (P := fun (r : result string AuthProvider) (w' : W) => w_db w' = w_db w /\ forall q, r = Ok q ->
      same_ids p q /\ ap_ClientSecret q = ap_ClientSecret p /\
      (secret_ok (ap_SPKey p) -> secret_ok (ap_SPKey q))).
    apply wp_bind, (wp_mono _ P _ (fun q w' => w' = w /\ same_ids p q /\ ap_ClientSecret q = ap_ClientSecret p /\
      ap_SPKey q = ap_SPKey p /\ ap_SPCert q = ap_SPCert p)).
    + destruct (_ || _); [|by wp_step]. wp_step. by destruct (ParseMetadata _ _) as [md|e].
    + done.
    + intros q ? (-> & (Hi & Hs & Ho) & Hsec & Hkey & Hcert). wp_step. split.
      { intros _. split; [done|]. intros q' [= <-]. split_and!; [done|done|by rewrite Hkey]. }
      intros _. wp_step. split; [done|]. intros c Hc. wp_step. pose proof (new_keypair_spec c q w Hc Hw) as Hn.
      destruct (new_keypair h c q w) as [[q'|e] w1]; destruct Hn as [Hd1 Hn]; [|done]. wp_step. split; [done|].
      intros q'' [= <-]. destruct (Hn q' eq_refl) as (cert & key & -> & Hok). cbn. by split_and!.
Qed.
(** *** The statements *)

Lemma Validate_stamp p icon t t' : Validate (stamp_provider p icon t t') = Validate p.
Proof. done. Qed.
Lemma Validate_update p t r :
  ap_Slug r = ap_Slug p -> ap_OrgID r = ap_OrgID p -> Validate (update_provider_row p t r) = Validate p.
Proof. intros Hs Ho. unfold Validate, update_provider_row. cbn. by rewrite Hs, Ho. Qed.

Lemma create_step o p w0 w k :
  w_db w = w_db w0 -> ap_OrgID p = o -> provider_ok p -> hidden_reply (k tt) ->
  wp (u <- try (CreateAuthProvider p) (fun e => just (HttpError e)) ;; gret (k u)) (outcome o w0) (outcome o w0) w.
Proof.
  intros Hd Ho Hok Hk. apply outcome_op; [done|by intros []|by intros []|].
  destruct (found _ || _) eqn:E1; [done|]. apply orb_false_iff in E1 as [E1%found_false _].
  destruct (exists_row _ _); [done|]. destruct (exists_row _ _); [done|]. right.
  apply (step_provider _ o _ (stamp_provider p (ap_IconAssetID p) (w_clock w) (w_clock w))); [done|done|].
  intros r Hr. cbn in Hr. congruence.
Qed.

Lemma update_step o p w0 w r0 k :
  w_db w = w_db w0 -> providers_ok (w_db w0) -> providers (w_db w0) !! ap_ID p = Some r0 ->
  ap_Slug r0 = ap_Slug p -> ap_OrgID r0 = o -> ap_OrgID p = o ->
  provider_ok p -> hidden_reply (k tt) ->
  wp (u <- try (UpdateAuthProvider p) (fun e => just (HttpError e)) ;; gret (k u)) (outcome o w0) (outcome o w0) w.
Proof.
  intros Hd Hall Hr0 Hs Ho Hop Hok Hk. apply outcome_op; [done|by intros []|by intros []|].
  rewrite Hd, Hr0. destruct (negb _); [done|]. destruct (other_row _ _ _); [done|]. right.
  destruct (po_provider _ _ Hall _ _ Hr0) as [Hid _].
  replace (ap_ID p) with (ap_ID (update_provider_row p (w_clock w) r0)) by exact Hid. destruct Hok as (Hv & Hsec & Hkey).
  apply step_provider; [done| |].
  - split_and!; [|done|done]. rewrite Validate_update by congruence. done.
  - cbn. rewrite Hid. intros r Hr. assert (r = r0) as -> by congruence. done.
Qed.

Lemma delete_provider_step o id w0 w k :
  w_db w = w_db w0 -> hidden_reply (k tt) ->
  wp (u <- try (DeleteAuthProvider o id) (fun e => just (HttpError e)) ;; gret (k u)) (outcome o w0) (outcome o w0) w.
Proof.
  intros Hd Hk. apply outcome_op; [done|by intros []|by intros []|].
  destruct (providers (w_db w) !! id) as [r|] eqn:Hr; [|by left].
  destruct (String.eqb_spec (ap_OrgID r) o) as [Ho|]; [|by left]. right. by apply (step_delete_provider _ o _ id r).
Qed.

Lemma icon_step o p w0 w icon k kerr :
  w_db w = w_db w0 -> providers_ok (w_db w0) -> providers (w_db w0) !! ap_ID p = Some p -> ap_OrgID p = o ->
  hidden_reply (k tt) -> (forall e, hidden_reply (kerr e)) ->
  wp (u <- try (SetAuthProviderIcon o (ap_ID p) icon) kerr ;; gret (k u)) (outcome o w0) (outcome o w0) w.
Proof.
  intros Hd Hall Hp Ho Hk Hke. apply outcome_op; [done|by intros []|done|].
  right. rewrite Hd. destruct (po_provider _ _ Hall _ _ Hp) as [_ Hok].
  set (q := stamp_provider p (default EmptyString icon) (ap_CreatedAt p) (w_clock w)).
  assert (alter (fun r => if String.eqb (ap_OrgID r) o
    then stamp_provider r (default EmptyString icon) (ap_CreatedAt r) (w_clock w) else r) (ap_ID p) (providers (w_db w0))
    = <[ap_ID q := q]> (providers (w_db w0))) as ->.
  { apply map_eq. intros k'. destruct (decide (k' = ap_ID p)) as [->|Hne].
    - rewrite lookup_alter_eq, Hp. change (ap_ID q) with (ap_ID p). rewrite lookup_insert_eq. cbn.
      by rewrite (proj2 (String.eqb_eq _ _) Ho).
    - rewrite lookup_alter_ne by done. change (ap_ID q) with (ap_ID p). by rewrite lookup_insert_ne. }
  apply step_provider; [done|done|]. cbn. intros r Hr. assert (r = p) as -> by congruence. done.
Qed.

Lemma rule_create_step o rule p w0 w k :
  w_db w = w_db w0 -> ValidateRule rule = None -> providers (w_db w0) !! r_ProviderID rule = Some p ->
  ap_OrgID p = o -> hidden_reply (k tt) ->
  wp (u <- try (CreateRoleMapping rule) (fun e => just (HttpError e)) ;; gret (k u)) (outcome o w0) (outcome o w0) w.
Proof.
  intros Hd Hv Hp Ho Hk. apply outcome_op; [done|by intros []|by intros []|].
  destruct (_ || _) eqn:E; [done|]. apply orb_false_iff in E as [E%found_false _]. rewrite Hd in *. right.
  apply (step_rule _ o _ rule (w_clock w) p); [done..|]. intros r Hr. congruence.
Qed.

Lemma rule_update_step o rule p w0 w k :
  w_db w = w_db w0 -> ValidateRule rule = None -> providers (w_db w0) !! r_ProviderID rule = Some p ->
  ap_OrgID p = o -> hidden_reply (k tt) ->
  wp (u <- try (UpdateRoleMapping rule) (fun e => just (HttpError e)) ;; gret (k u)) (outcome o w0) (outcome o w0) w.
Proof.
  intros Hd Hv Hp Ho Hk. apply outcome_op; [done|by intros []|by intros []|]. rewrite Hd in *.
  destruct (rules (w_db w0) !! r_ID rule) as [r|] eqn:Hr; [|done].
  destruct (String.eqb_spec (r_ProviderID (rr_Rule r)) (r_ProviderID rule)) as [Hs|]; [|done]. right.
  apply (step_rule _ o _ rule (rr_CreatedAt r) p); [done..|]. intros r' Hr'. congruence.
Qed.

Lemma rule_delete_step o pid mid p w0 w k :
  w_db w = w_db w0 -> providers (w_db w0) !! pid = Some p -> ap_OrgID p = o -> hidden_reply (k tt) ->
  wp (u <- try (DeleteRoleMapping pid mid) (fun e => just (HttpError e)) ;; gret (k u)) (outcome o w0) (outcome o w0) w.
Proof.
  intros Hd Hp Ho Hk. apply outcome_op; [done|by intros []|by intros []|]. rewrite Hd in *.
  destruct (rules (w_db w0) !! mid) as [r|] eqn:Hr; [|by left].
  destruct (String.eqb_spec (r_ProviderID (rr_Rule r)) pid) as [Hs|]; [|by left]. right.
  apply (step_delete_rule _ o _ mid r p); [done| |done]. by rewrite Hs.
Qed.

Lemma domain_create_step o dom w0 w k :
  w_db w = w_db w0 -> od_OrgID dom = o -> (forall kk r, domains (w_db w0) !! kk = Some r -> od_OrgID r <> o) ->
  hidden_reply (k tt) ->
  wp (u <- try (CreateOrgDomain dom) (fun e => just (HttpError e)) ;; gret (k u)) (outcome o w0) (outcome o w0) w.
Proof.
  intros Hd Ho Hno Hk. apply outcome_op; [done|by intros []|by intros []|]. cbn zeta.
  destruct (_ || _) eqn:E; [done|]. apply orb_false_iff in E as [E%negb_false_iff _]. rewrite Hd in *.
  destruct (exists_row _ _); [by left|]. destruct (found _) eqn:Ef; [done|]. apply found_false in Ef. right.
  apply (step_domain _ o _ (mkOrgDomain (od_ID dom) (od_OrgID dom) (text_lower (od_Domain dom)) (w_clock w) (w_clock w)));
    [done|done| |].
  - intros kk r Hr Hro. by destruct (Hno kk r).
  - intros r Hr. cbn in Hr. congruence.
Qed.

Lemma domain_update_step o dom w0 w k :
  w_db w = w_db w0 -> providers_ok (w_db w0) -> od_OrgID dom = o -> hidden_reply (k tt) ->
  wp (u <- try (UpdateOrgDomain dom) (fun e => just (HttpError e)) ;; gret (k u)) (outcome o w0) (outcome o w0) w.
Proof.
  intros Hd Hall Ho Hk. apply outcome_op; [done|by intros []|by intros []|]. rewrite Hd in *.
  destruct (domains (w_db w0) !! od_ID dom) as [r|] eqn:Hr; [|done]. cbn zeta.
  destruct (String.eqb_spec (od_OrgID r) (od_OrgID dom)) as [Hs|]; [|done]. cbn [negb].
  destruct (_ || _) eqn:E; [done|]. apply orb_false_iff in E as [E%negb_false_iff _]. right.
  destruct (po_domain _ _ Hall _ _ Hr) as [Hid _].
  pose proof (step_domain (ph_cipher h) o (w_db w0)
    (mkOrgDomain (od_ID r) (od_OrgID r) (text_lower (od_Domain dom)) (od_CreatedAt r) (w_clock w))) as Hstep.
  cbn in Hstep. rewrite Hid in Hstep |- *. apply Hstep; [congruence|done| |].
  - intros kk x Hx Hxo. apply (po_one_domain _ _ Hall kk (od_ID dom) x r); congruence.
  - intros x Hx. congruence.
Qed.

Lemma domain_delete_step o id w0 w k :
  w_db w = w_db w0 -> hidden_reply (k tt) ->
  wp (u <- try (DeleteOrgDomain o id) (fun e => just (HttpError e)) ;; gret (k u)) (outcome o w0) (outcome o w0) w.
Proof.
  intros Hd Hk. apply outcome_op; [done|by intros []|by intros []|]. rewrite Hd in *.
  destruct (domains (w_db w0) !! id) as [r|] eqn:Hr; [|by left].
  destruct (String.eqb_spec (od_OrgID r) o) as [Hs|]; [|by left]. right. by apply (step_delete_domain _ o _ id r).
Qed.
(** ** The handlers, one by one *)

(** A request of one organization to the handlers of this file. *)
Inductive provider_request : Type :=
| ReqList | ReqGet (slug : string) | ReqCreate (req : option authProviderRequest)
| ReqUpdate (slug : string) (req : option authProviderRequest) | ReqDelete (slug : string)
| ReqPrepareIcon (slug : string) | ReqPutIcon (slug : string) | ReqDeleteIcon (slug : string)
| ReqMetadata (slug : string) | ReqListRules (slug : string)
| ReqCreateRule (slug : string) (req : option roleMappingRequest)
| ReqUpdateRule (slug mappingID : string) (req : option roleMappingRequest)
| ReqDeleteRule (slug mappingID : string) | ReqOperators | ReqListDomains
| ReqCreateDomain (req : option string) | ReqUpdateDomain (domainID : string) (req : option string)
| ReqDeleteDomain (domainID : string).

Definition serve (o : string) (rq : provider_request) : Eff W Reply :=
  match rq with
  | ReqList => ListProviders h o | ReqGet s => GetProvider h o s | ReqCreate r => CreateProvider h o r
  | ReqUpdate s r => UpdateProvider h o s r | ReqDelete s => DeleteProvider o s
  | ReqPrepareIcon s => PrepareProviderIconUpload h o s | ReqPutIcon s => PutProviderIcon o s
  | ReqDeleteIcon s => DeleteProviderIcon o s | ReqMetadata s => SAMLMetadata h o s
  | ReqListRules s => ListRoleMappings_ o s | ReqCreateRule s r => CreateRoleMapping_ regexp_error o s r
  | ReqUpdateRule s m r => UpdateRoleMapping_ regexp_error o s m r
  | ReqDeleteRule s m => DeleteRoleMapping_ o s m | ReqOperators => MappingOperators
  | ReqListDomains => ListDomains o | ReqCreateDomain r => CreateDomain o r
  | ReqUpdateDomain i r => UpdateDomain o i r | ReqDeleteDomain i => DeleteDomain o i
  end.

Ltac loaded p k :=
  apply wp_bind; eapply wp_mono;
  [apply load_spec|intros ? ? Hx; exact Hx|
   let w1 := fresh "w1" in
   intros p w1 (Hd1 & He1 & k & Hk & Ho & Hs)].

Lemma read_outcome {A} (f : Z -> AuthDB -> A) o w0 w (k : A -> Reply) :
  w_db w = w_db w0 -> (forall a, hidden_reply (k a)) ->
  wp (a <- try (db_read f) (fun e => just (HttpError e)) ;; gret (k a)) (outcome o w0) (outcome o w0) w.
Proof. intros Hd Hk. apply outcome_op; [done|done|by intros []|by left]. Qed.

Lemma newID_rest (w : W) :
  byte_entropy w -> w_db (newID w).2 = w_db w /\ byte_entropy (newID w).2.
Proof.
  intros Hw. split; [apply newID_db|]. unfold newID.
  destruct (rand_read_bytes 16 w Hw) as [Hw' _]. by destruct (rand_read 16 w).
Qed.

Lemma check_valid_spec o p w0 w f :
  w_db w = w_db w0 -> (Validate p = None -> wp f (outcome o w0) (outcome o w0) w) ->
  wp (check_valid p ;;; f) (outcome o w0) (outcome o w0) w.
Proof.
  intros Hd Hf. unfold check_valid. apply wp_bind. destruct (Validate p); [|by apply Hf].
  by apply outcome_same.
Qed.

Lemma check_rule_spec o rule w0 w f :
  w_db w = w_db w0 -> (ValidateRule rule = None -> wp f (outcome o w0) (outcome o w0) w) ->
  wp (check_rule regexp_error rule ;;; f) (outcome o w0) (outcome o w0) w.
Proof.
  intros Hd Hf. unfold check_rule. apply wp_bind. destruct (ValidateRule rule); [|by apply Hf].
  by apply outcome_same.
Qed.

Lemma secret_after_ok req p q : secret_after req p q -> secret_ok (ap_ClientSecret p) -> secret_ok (ap_ClientSecret q).
Proof.
  unfold secret_after. destruct (_ && _); [|by intros ->]. intros (c & Hc & Hd) _. right. eauto.
Qed.

Lemma CreateProvider_outcome o req w :
  byte_entropy w -> let '(rep, w') := CreateProvider h o req w in outcome o w rep w'.
Proof.
  intros Hw. unfold CreateProvider. apply wp_let. wp_step. split; [intros _; by apply outcome_same|].
  intros rq ->. wp_step. destruct (newID_rest w Hw) as [Hd1 Hw1]. destruct (newID w) as [id w1]. cbn in Hd1, Hw1 |- *.
  wp_step. pose proof (apply_spec rq (new_provider id (pq_Slug rq) o) w1 Hw1) as Ha.
  destruct (apply h rq _ w1) as [[q|e] w2]; destruct Ha as [Hd2 Ha]; [|apply outcome_same; [done|congruence]].
  destruct (Ha q eq_refl) as ((Hi & Hs & Ho) & Hsec & Hkey). cbn in Hi, Hs, Ho, Hkey.
  apply check_valid_spec; [congruence|]. intros Hv.
  apply create_step; [congruence|done| |apply present_hidden]. split_and!; [done| |apply Hkey; by left].
  apply (secret_after_ok _ _ _ Hsec). by left.
Qed.

Lemma UpdateProvider_outcome o slug req w :
  byte_entropy w -> providers_ok (w_db w) -> let '(rep, w') := UpdateProvider h o slug req w in outcome o w rep w'.
Proof.
  intros Hw Hall. unfold UpdateProvider. apply wp_let. loaded p k.
  wp_step. split; [intros _; by apply outcome_same|]. intros rq ->.
  wp_step. split; [intros _; by apply outcome_same|]. intros Hslug%negb_false_iff%String.eqb_eq.
  assert (byte_entropy w1) as Hw1 by (unfold byte_entropy; by rewrite He1).
  wp_step. pose proof (apply_spec rq p w1 Hw1) as Ha.
  destruct (apply h rq p w1) as [[q|e] w2]; destruct Ha as [Hd2 Ha]; [|apply outcome_same; [done|congruence]].
  destruct (Ha q eq_refl) as ((Hi & Hsl & Hoo) & Hsec & Hkey).
  destruct (po_provider _ _ Hall _ _ Hk) as [Hid (_ & Hsec0 & Hkey0)].
  apply check_valid_spec; [congruence|]. intros Hv.
  apply (update_step o q w w2 p); [congruence|done|congruence|done|done|congruence| |apply present_hidden].
  split_and!; [done|by apply (secret_after_ok _ _ _ Hsec)|by apply Hkey].
Qed.

Lemma SAMLMetadata_outcome o slug w :
  byte_entropy w -> providers_ok (w_db w) -> let '(rep, w') := SAMLMetadata h o slug w in outcome o w rep w'.
Proof.
  intros Hw Hall. unfold SAMLMetadata. apply wp_let. loaded p k.
  wp_step. split; [intros _; by apply outcome_same|]. intros _. wp_step.
  assert (byte_entropy w1) as Hw1 by (unfold byte_entropy; by rewrite He1).
  destruct (po_provider _ _ Hall _ _ Hk) as [Hid (Hv & Hsec & Hkey)].
  assert (let '(r, w2) := ensureSPKeypair h p w1 in
    w_db w2 = w_db w \/ admin_step o (w_db w) (w_db w2)) as Hens.
  { unfold ensureSPKeypair. apply wp_let. wp_step. split; [by left|]. intros _. wp_step. split; [by left|].
    intros c Hc. wp_step. pose proof (new_keypair_spec c p w1 Hc Hw1) as Hn.
    destruct (new_keypair h c p w1) as [[q|e] w2]; destruct Hn as [Hd2 Hn]; [|left; congruence].
    destruct (Hn q eq_refl) as (cert & key & -> & Hok).
    pose proof (update_step o (set_keypair cert key p) w w2 p (fun _ => just no_content)) as Hu.
    assert (w_db w2 = w_db w) as Hd2' by congruence. specialize (Hu Hd2' Hall).
    cbn in Hu. rewrite Hid in Hu. specialize (Hu Hk eq_refl Ho Ho).
    assert (provider_ok (set_keypair cert key p)) as Hpo by (by split_and!). specialize (Hu Hpo I).
    apply wp_bind, wp_try in Hu. wp_step. destruct (UpdateAuthProvider _ w2) as [[[]|e] w3]; cbn in Hu; apply Hu. }
  destruct (ensureSPKeypair h p w1) as [[q|e] w2]; [|by split; [destruct e|]].
  wp_step. destruct (decrypt h (ap_SPKey q)) as [key|e]; [|by split; [destruct e|]].
  wp_step. split; [intros _; by split|]. intros doc _. wp_step. by split.
Qed.

Lemma serve_outcome o rq w :
  byte_entropy w -> providers_ok (w_db w) -> let '(rep, w') := serve o rq w in outcome o w rep w'.
Proof.
  intros Hw Hall. destruct rq; cbn [serve].
  - unfold ListProviders. apply wp_let, read_outcome; [done|]. intros l. apply Forall_map, Forall_true.
    intros p. apply present_hidden.
  - unfold GetProvider. apply wp_let. loaded p k. wp_step. apply outcome_same; [apply present_hidden|done].
  - by apply CreateProvider_outcome.
  - by apply UpdateProvider_outcome.
  - unfold DeleteProvider. apply wp_let. loaded p k. rewrite Ho. by apply delete_provider_step.
  - unfold PrepareProviderIconUpload. apply wp_let. loaded p k. wp_step.
    split; [intros _; by apply outcome_fail|]. intros u _. wp_step. by apply outcome_same.
  - unfold PutProviderIcon. apply wp_let. loaded p k. rewrite Ho.
    destruct (po_provider _ _ Hall _ _ Hk) as [Hid _]. apply icon_step; try done; [congruence|by intros []].
  - unfold DeleteProviderIcon. apply wp_let. loaded p k. rewrite Ho.
    destruct (po_provider _ _ Hall _ _ Hk) as [Hid _]. apply icon_step; try done; [congruence|by intros []].
  - by apply SAMLMetadata_outcome.
  - unfold ListRoleMappings_. apply wp_let. loaded p k. by apply read_outcome.
  - unfold CreateRoleMapping_. apply wp_let. loaded p k. wp_step. split; [intros _; by apply outcome_same|].
    intros r ->. wp_step. pose proof (newID_db w1) as Hd2. destruct (newID w1) as [id w2]. cbn in Hd2 |- *.
    destruct (po_provider _ _ Hall _ _ Hk) as [Hid _].
    apply check_rule_spec; [congruence|]. intros Hv.
    apply (rule_create_step o _ p); [congruence|done|cbn; congruence|done|done].
  - unfold UpdateRoleMapping_. apply wp_let. loaded p k. wp_step. split; [intros _; by apply outcome_same|].
    intros r ->. destruct (po_provider _ _ Hall _ _ Hk) as [Hid _].
    apply check_rule_spec; [congruence|]. intros Hv.
    apply (rule_update_step o _ p); [congruence|done|cbn; congruence|done|done].
  - unfold DeleteRoleMapping_. apply wp_let. loaded p k. destruct (po_provider _ _ Hall _ _ Hk) as [Hid _].
    apply (rule_delete_step o _ _ p); [done|congruence|done|done].
  - by apply outcome_same.
  - unfold ListDomains. by apply wp_let, read_outcome.
  - unfold CreateDomain, requested_domain. apply wp_let. rewrite wp_bind. wp_step.
    split; [intros _; by apply outcome_same|]. intros r ->. wp_step.
    destruct (NormalizeOrgDomain r) as [dom|e]; [|by apply outcome_same]. wp_step.
    destruct (ListOrgDomains o w) as [[l|e] w1] eqn:El; pose proof (db_read_db _ _ _ _ El) as Hd1;
      [|by apply outcome_fail].
    apply db_read_ok in El as [Hl _]. wp_step. split; [intros _; by apply outcome_same|].
    intros Hlen%negb_false_iff%Nat.eqb_eq. wp_step. pose proof (newID_db w1) as Hd2.
    destruct (newID w1) as [id w2]. cbn in Hd2 |- *. apply domain_create_step; [congruence|done| |done].
    intros kk x Hx Hxo. assert (x ∈ l) as Hin.
    { rewrite Hl. apply sort_stable_elem, select_elem. split; [by exists kk|]. by apply String.eqb_eq. }
    destruct l; [inversion Hin|done].
  - unfold UpdateDomain, requested_domain. apply wp_let. rewrite wp_bind. wp_step.
    split; [intros _; by apply outcome_same|]. intros r ->. wp_step.
    destruct (NormalizeOrgDomain r) as [dom|e]; [|by apply outcome_same]. by apply domain_update_step.
  - unfold DeleteDomain. by apply wp_let, domain_delete_step.
Qed.
End Lemmas.

(** ** Properties *)

(** The cipher as the sign-in handlers use it. *)
Definition session_cipher `{Aead} (c : option Cipher) : option (string -> option string) :=
  option_map (fun c s => match Decrypt c s with Ok p => Some p | Err _ => None end) c.

Section Properties.
Context `{Collation} `{UnicodeCase} `{Sha256} `{Aead} `{SamlAdmin} `{Saml} `{Regexp}.
Context (regexp_error : string -> string) (h : AuthProviderHandler).

(** A request served in an environment of its own: only the tables carry over. *)
Definition request_step (d d' : AuthDB) : Prop :=
  exists o rq w, byte_entropy w /\ w_db w = d /\ w_db (serve regexp_error h o rq w).2 = d'.

Lemma request_step_outcome o rq w :
  (forall c, ph_cipher h = Some c -> made_cipher c) -> byte_entropy w -> providers_ok (ph_cipher h) (w_db w) ->
  let '(rep, w') := serve regexp_error h o rq w in
  hidden_reply rep /\ confined o (w_db w) (w_db w') /\ providers_ok (ph_cipher h) (w_db w').
Proof.
  intros Hc Hw Hall. pose proof (serve_outcome regexp_error h Hc o rq w Hw Hall) as Ho.
  destruct (serve regexp_error h o rq w) as [rep w']. destruct Ho as [Hh [->|Hs]].
  - split_and!; [done|apply confined_refl|done].
  - split_and!; [done|by eapply admin_step_confined|by eapply admin_step_ok].
Qed.

Lemma reachable_ok d d' :
  (forall c, ph_cipher h = Some c -> made_cipher c) ->
  providers_ok (ph_cipher h) d -> rtc request_step d d' -> providers_ok (ph_cipher h) d'.
Proof.
  intros Hc Hd Hr. induction Hr as [|d d1 d2 (o & rq & w & Hw & <- & <-) _ IH]; [done|]. apply IH.
  pose proof (request_step_outcome o rq w Hc Hw Hd) as Ho. destruct (serve _ _ _ _ w). apply Ho.
Qed.

Lemma secret_ok_decrypts sh s :
  h_cipher sh = session_cipher (ph_cipher h) -> secret_ok (ph_cipher h) s -> exists v, Session.decrypt sh s = Ok v.
Proof.
  intros Hsh [->|(c & v & Hc & Hd)]; unfold Session.decrypt; [by exists EmptyString|].
  destruct (str_empty s); [by exists EmptyString|]. rewrite Hsh, Hc. cbn. rewrite Hd. by exists v.
Qed.

(** (C9) Whatever requests administrators of whatever organizations make, in
    whatever order and with whatever failures: stored providers pass validation,
    rules pass theirs, an organization has at most one, well-formed domain, and
    secrets are stored as ciphertexts only - so that a sign-in with the same
    cipher can always read them. *)
Theorem reachable_providers_ok d d' sh :
  (forall c, ph_cipher h = Some c -> made_cipher c) -> h_cipher sh = session_cipher (ph_cipher h) ->
  providers_ok (ph_cipher h) d -> rtc request_step d d' ->
  providers_ok (ph_cipher h) d' /\
  forall k p, providers d' !! k = Some p ->
    (exists prov, oauthProvider sh p = Ok prov) /\ (exists prov, samlProvider sh p = Ok prov).
Proof.
  intros Hc Hsh Hd Hr. pose proof (reachable_ok d d' Hc Hd Hr) as Hok. split; [done|]. intros k p Hp.
  destruct (po_provider _ _ Hok _ _ Hp) as (_ & _ & Hsec & Hkey).
  destruct (secret_ok_decrypts sh _ Hsh Hsec) as [v Hv]. destruct (secret_ok_decrypts sh _ Hsh Hkey) as [v' Hv'].
  unfold oauthProvider, samlProvider. rewrite Hv, Hv'. split; by eexists.
Qed.

(** (lemma) Tenants are confined: a request for an organization leaves the providers,
    role mappings and domains of every other organization alone, and users,
    memberships, sessions, accounts, tokens and teams altogether; and no reply
    shows a secret or a ciphertext, only a mask. *)
Theorem requests_confined o rq w :
  (forall c, ph_cipher h = Some c -> made_cipher c) -> byte_entropy w -> providers_ok (ph_cipher h) (w_db w) ->
  let '(rep, w') := serve regexp_error h o rq w in
  hidden_reply rep /\ confined o (w_db w) (w_db w').
Proof.
  intros Hc Hw Hall. pose proof (request_step_outcome o rq w Hc Hw Hall) as Ho.
  destruct (serve _ _ _ _ w). by destruct Ho as (? & ? & _).
Qed.

Lemma UpdateProvider_spec o slug req w :
  (forall c, ph_cipher h = Some c -> made_cipher c) -> byte_entropy w -> providers_ok (ph_cipher h) (w_db w) ->
  let '(rep, w') := UpdateProvider h o slug req w in
  (status (ar_resp rep) <> 200%Z /\ w_db w' = w_db w) \/
  exists rq p q, req = Some rq /\ status (ar_resp rep) = 200%Z /\
    providers (w_db w) !! ap_ID p = Some p /\ ap_OrgID p = o /\ ap_Slug p = slug /\
    w_db w' = set_providers (w_db w) (<[ap_ID p := q]> (providers (w_db w))) /\
    same_ids p q /\ ap_IconAssetID q = ap_IconAssetID p /\ Validate q = None /\ secret_after h rq p q.
Proof.
  intros Hc Hw Hall. unfold UpdateProvider. apply wp_let, wp_bind.
  unfold load. wp_step. destruct (GetAuthProviderBySlug o slug w) as [[op|e] w1] eqn:E1;
    pose proof (db_read_db _ _ _ _ E1) as Hd1; [|by left; split; [destruct e|]].
  assert (w_entropy w1 = w_entropy w) as He1.
  { unfold GetAuthProviderBySlug, db_read, db_op in E1. destruct (w_faults w) as [|[]]; by simplify_eq/=. }
  apply db_read_ok in E1 as [Hop _]. wp_step. split; [intros _; by left|]. intros p ->.
  symmetry in Hop. apply select_one_Some in Hop as [[k Hk] [Ho%String.eqb_eq Hs%String.eqb_eq]%andb_true_iff].
  destruct (po_provider _ _ Hall _ _ Hk) as [<- _].
  wp_step. split; [intros _; by left|]. intros rq ->.
  wp_step. split; [intros _; by left|]. intros _.
  assert (byte_entropy w1) as Hw1 by (unfold byte_entropy; by rewrite He1).
  wp_step. pose proof (apply_spec h Hc rq p w1 Hw1) as Ha.
  destruct (apply h rq p w1) as [[q|e] w2]; destruct Ha as [Hd2 Ha]; [|left; split; [done|congruence]].
  destruct (Ha q eq_refl) as ((Hi & Hsl & Hoo) & Hsec & _).
  unfold check_valid. wp_step. destruct (Validate q) as [e|] eqn:Hv; wp_step; [left; split; [done|congruence]|].
  assert (w_db w2 = w_db w) as Hdw by congruence.
  wp_step. destruct (UpdateAuthProvider q w2) as [r w3] eqn:E3.
  apply db_op_cases in E3 as [[-> Hd3]|(d & Hf & Hd3)]; cbn beta iota.
  { left. split; [discriminate|congruence]. }
  rewrite Hdw, Hi, Hk in Hf.
  destruct (negb _); [injection Hf as <- <-; left; by split; [|]|].
  destruct (other_row _ _ _); [injection Hf as <- <-; left; by split|].
  injection Hf as <- <-. wp_step. right. exists rq, p, (update_provider_row q (w_clock w2) p).
  split_and!; try done. rewrite Validate_update; congruence.
Qed.

(** (lemma) Editing a provider: 200 exactly when its row was replaced by a valid one
    with the same id, slug, organization and icon.  A blank or masked client
    secret keeps the stored one; any other becomes the one a sign-in uses. *)
Theorem UpdateProvider_correct o slug req w sh :
  (forall c, ph_cipher h = Some c -> made_cipher c) -> byte_entropy w -> providers_ok (ph_cipher h) (w_db w) ->
  h_cipher sh = session_cipher (ph_cipher h) ->
  let '(rep, w') := UpdateProvider h o slug req w in
  (status (ar_resp rep) <> 200%Z /\ w_db w' = w_db w) \/
  exists rq p q, req = Some rq /\ status (ar_resp rep) = 200%Z /\
    providers (w_db w) !! ap_ID p = Some p /\ ap_OrgID p = o /\ ap_Slug p = slug /\
    w_db w' = set_providers (w_db w) (<[ap_ID p := q]> (providers (w_db w))) /\
    same_ids p q /\ ap_IconAssetID q = ap_IconAssetID p /\ Validate q = None /\
    (masked_request rq -> ap_ClientSecret q = ap_ClientSecret p) /\
    (~ masked_request rq -> pq_Kind rq = KindOIDC ->
       exists prov, oauthProvider sh q = Ok prov /\ op_ClientSecret prov = TrimSpace (pq_ClientSecret rq)).
Proof.
  intros Hc Hw Hall Hsh. pose proof (UpdateProvider_spec o slug req w Hc Hw Hall) as Hs.
  destruct (UpdateProvider h o slug req w) as [rep w'].
  destruct Hs as [?|(rq & p & q & Hreq & Hst & Hp & Ho & Hsl & Hd & Hids & Hicon & Hv & Hsec)]; [by left|].
  right. exists rq, p, q. split_and!; try done; unfold secret_after, masked_request in *.
  - intros [Hm|Hm]; rewrite Hm in Hsec; cbn in Hsec; by rewrite ?andb_false_r in Hsec.
  - intros Hm Hk. rewrite Hk in Hsec. cbn [andb] in Hsec. rewrite String.eqb_refl in Hsec.
    destruct (str_empty _) eqn:E1; [apply str_empty_true in E1; by destruct Hm; left|].
    destruct (String.eqb_spec (TrimSpace (pq_ClientSecret rq)) secretMask) as [E2|E2]; [by destruct Hm; right|].
    cbn in Hsec. destruct Hsec as (c & Hci & Hdec). unfold oauthProvider, Session.decrypt.
    destruct (str_empty (ap_ClientSecret q)) eqn:E3.
    + apply str_empty_true in E3. rewrite E3 in Hdec. discriminate Hdec.
    + rewrite Hsh, Hci. cbn. rewrite Hdec. by eexists.
Qed.
End Properties.

Module ProviderDemo.
Import Session.Demo CryptoDemo.
#[local] Existing Instance demo_sha.
#[local] Instance demo_saml_admin : SamlAdmin :=
  {| ParseMetadata _ _ := Err "saml: metadata"; sp_keypair _ _ := (Ok ("CERT", "KEY"), 0) |}.

Definition demo_cipher : Cipher := mkCipher (sha256 (Sha256 := demo_sha) "master").
Definition demo_admin : AuthProviderHandler :=
  mkProviderHandler None Some (Some demo_cipher) "https://app.example.com".
Definition demo_session : SessionHandler :=
  mkSessionHandler None (session_cipher (Some demo_cipher)) "https://app.example.com" EmptyString EmptyString None.
Lemma demo_made c : ph_cipher demo_admin = Some c -> made_cipher c.
Proof. intros [= <-]. by exists "master". Qed.

Definition start : World AuthDB :=
  mkWorld (set_orgs empty_db {[ "org1" := mkOrg "org1" "Acme" None false false false 1 1 ]})
          [] 1000 [] (map N.of_nat (seq 0 200)).
Definition okta (secret : string) : authProviderRequest :=
  mkProviderRequest "acme-okta" "oidc" "okta" " Acme SSO " true true EmptyString "viewer" "client1" secret
    EmptyString EmptyString EmptyString "acme.okta.com" "openid" EmptyString EmptyString EmptyString EmptyString
    EmptyString EmptyString EmptyString EmptyString EmptyString false EmptyString EmptyString EmptyString EmptyString.
Definition created : AdminReply provider_body * World AuthDB :=
  CreateProvider demo_admin "org1" (Some (okta "s3cret")) start.

(** The reply masks the secret, the endpoints are Okta's. *)
Example created_reply :
  match payload (ar_resp created.1) with
  | Json (OneProvider p) => (ap_DisplayName p, ap_ClientSecret p, ap_TokenURL p)
                            = ("Acme SSO", "***", "https://acme.okta.com/oauth2/v1/token")
  | _ => False
  end.
Proof. vm_compute. reflexivity. Qed.

Lemma start_ok : providers_ok (Some demo_cipher) (w_db start).
Proof. split; cbn; intros *; rewrite lookup_empty; discriminate. Qed.
Lemma start_bytes : byte_entropy start.
Proof. vm_compute. repeat constructor. Qed.

Lemma created_step : rtc (request_step (fun _ => EmptyString) demo_admin) (w_db start) (w_db created.2).
Proof.
  apply rtc_once. exists "org1", (ReqCreate (Some (okta "s3cret"))), start.
  split; [exact start_bytes|]. split; reflexivity.
Qed.

Lemma reachable_providers_ok_witness :
  providers_ok (Some demo_cipher) (w_db start) /\ providers_ok (Some demo_cipher) (w_db created.2).
Proof.
  split; [exact start_ok|].
  exact (proj1 (reachable_providers_ok (fun _ => EmptyString) demo_admin (w_db start) (w_db created.2) demo_session
    demo_made eq_refl start_ok created_step)).
Defined.

Lemma requests_confined_witness :
  byte_entropy start /\ providers_ok (Some demo_cipher) (w_db start) /\
  hidden_reply created.1 /\ confined "org1" (w_db start) (w_db created.2).
Proof.
  split; [exact start_bytes|]. split; [exact start_ok|].
  pose proof (requests_confined (fun _ => EmptyString) demo_admin "org1" (ReqCreate (Some (okta "s3cret"))) start
    demo_made start_bytes start_ok) as Hc.
  cbn [serve] in Hc. unfold created. destruct (CreateProvider demo_admin "org1" (Some (okta "s3cret")) start).
  exact Hc.
Defined.

Definition later : World AuthDB := mkWorld (w_db created.2) [] 2000 [] (map N.of_nat (seq 50 100)).
Lemma UpdateProvider_correct_witness :
  byte_entropy later /\ providers_ok (Some demo_cipher) (w_db later) /\
  exists q, providers (w_db (UpdateProvider demo_admin "org1" "acme-okta" (Some (okta "n3w")) later).2) !! ap_ID q = Some q /\
  exists prov, oauthProvider demo_session q = Ok prov /\ op_ClientSecret prov = "n3w".
Proof.
  assert (byte_entropy later) as Hb by (vm_compute; repeat constructor).
  assert (providers_ok (Some demo_cipher) (w_db later)) as Hok.
  { exact (reachable_ok (fun _ => EmptyString) demo_admin (w_db start) (w_db created.2) demo_made start_ok created_step). }
  split; [exact Hb|]. split; [exact Hok|].
  pose proof (UpdateProvider_correct demo_admin "org1" "acme-okta" (Some (okta "n3w")) later demo_session
    demo_made Hb Hok eq_refl) as Hu.
  destruct (UpdateProvider demo_admin "org1" "acme-okta" (Some (okta "n3w")) later) as [rep w'] eqn:E.
  assert (status (ar_resp rep) = 200%Z) as Hst by (change rep with (rep, w').1; rewrite <-E; vm_compute; reflexivity).
  destruct Hu as [[Hno _]|(rq & p & q & [= <-] & _ & _ & _ & _ & Hd & (Hi & _) & _ & _ & _ & Hs)]; [contradiction|].
  exists q. cbn [snd]. rewrite Hd, Hi. split; [apply lookup_insert_eq|]. apply Hs; [|reflexivity].
  unfold masked_request. vm_compute. intros [Hm|Hm]; discriminate Hm.
Defined.
End ProviderDemo.
