(* ===== verification/GithubStore.v ===== *)
(** * GithubStore: repository imports and their jobs

    Models [internal/githubapp/domain.go] and
    [internal/store/postgres/githubapp_store.go]: the state of an import, the
    job queue with leases, the install states, the webhook log, and the
    statements and transactions on them.  A transaction is one step: a failure
    inside rolls back.  The JSON column [steps] is the list it encodes.  The
    catalog's services are a read-only table here; the git URL comparison of
    Postgres ([LOWER], [REGEXP_REPLACE]) is [git_key]. *)

From S2P Require Import Prelude GoStrings Effects Table Authz Identity AuthStore.
Set Warnings "-clear-no-such-hyp".

(** ** Domain *)

Inductive State : Type :=
| StateSelected | StateRunQueued | StateRunRunning | StateCompleted | StateFailed.

#[export] Instance State_eq_dec : EqDecision State.
Proof. solve_decision. Defined.

Definition state_text (s : State) : string :=
  match s with
  | StateSelected => "selected" | StateRunQueued => "run_queued" | StateRunRunning => "run_running"
  | StateCompleted => "completed" | StateFailed => "failed"
  end.

Record Installation := mkInstallation {
  in_OrgID : string; in_GitHubInstallationID : Z; in_CreatedAt : Z;
  in_AccountID : Z; in_AccountLogin : string; in_AccountType : string; in_Suspended : bool
}.

Record Repository := mkRepository {
  rp_GitHubID : Z; rp_OwnerID : Z; rp_Owner : string; rp_Name : string; rp_FullName : string;
  rp_URL : string; rp_DefaultBranch : string; rp_Private : bool; rp_Archived : bool
}.

Record Step := mkStep {
  st_JobID : Z; st_JobName : string; st_Number : Z; st_Name : string; st_Status : string;
  st_Conclusion : string; st_StartedAt : option Z; st_CompletedAt : option Z
}.

Record Import := mkImport {
  im_ID : string; im_OrgID : string; im_GitHubOwnerID : Z; im_GitHubRepo : string;
  im_TeamID : string; im_TeamName : string; im_Status : State; im_Steps : list Step;
  im_Branch : string; im_RunID : Z; im_RunURL : string; im_PRURL : string; im_Error : string;
  im_ServiceID : string; im_CreatedAt : Z; im_UpdatedAt : Z; im_RunStartedAt : option Z;
  im_RunCompletedAt : option Z; im_CompletedAt : option Z
}.

Record Job := mkJob {
  j_ID : string; j_OrgID : string; j_ImportID : string; j_Kind : string;
  j_Attempts : Z; j_MaxAttempts : Z
}.

Definition JobStart := "start".
Definition JobOpenPR := "open_pr".

Record WorkflowRun := mkWorkflowRun {
  wr_ID : Z; wr_RunAttempt : Z; wr_Event : string; wr_Status : string; wr_Conclusion : string;
  wr_HeadBranch : string; wr_HTMLURL : string; wr_Path : string
}.

Definition OnboardingWorkflowPath := ".github/workflows/uigraph-onboarding.yml".
Definition EnterpriseOnboardingWorkflowPath := ".github/workflows/uigraph-enterprise-onboarding.yml".
Definition IsOnboardingWorkflowPath (path : string) : bool :=
  String.eqb path OnboardingWorkflowPath || String.eqb path EnterpriseOnboardingWorkflowPath.
Definition Branch (importID : string) : string := "uigraph/onboarding/" +:+ importID.

(** ** Tables *)

Record ImportRow := mkImportRow {
  i_ID : string; i_OrgID : string; i_OwnerID : Z; i_Repo : string; i_TeamID : string;
  i_Status : State; i_Steps : list Step; i_Branch : string; i_RunID : option Z;
  i_RunAttempt : Z; i_RunURL : string; i_PRURL : string; i_Error : string; i_ServiceID : string;
  i_CreatedAt : Z; i_UpdatedAt : Z; i_RunStartedAt : option Z; i_RunCompletedAt : option Z;
  i_CompletedAt : option Z
}.

Record JobRow := mkJobRow {
  jr_ID : string; jr_OrgID : string; jr_ImportID : string; jr_Kind : string;
  jr_AvailableAt : Z; jr_LeaseOwner : option string; jr_LeaseExpiresAt : option Z;
  jr_Attempts : Z; jr_MaxAttempts : Z; jr_LastError : string; jr_CompletedAt : option Z;
  jr_CreatedAt : Z
}.

Record InstallState := mkInstallState {
  is_OrgID : string; is_UserID : string; is_GitHubUserID : option Z; is_AuthorizedAt : option Z;
  is_ExpiresAt : Z; is_ConsumedAt : option Z
}.

Record InstallationRow := mkInstallationRow { ir_InstallationID : Z; ir_CreatedAt : Z }.

(** The columns of [services] the import reads. *)
Record ServiceRow := mkServiceRow {
  sv_ID : string; sv_OrgID : string; sv_GitRepoURL : string; sv_CreatedAt : Z; sv_Deleted : bool
}.

Record GithubDB := mkGithubDB {
  g_auth : AuthDB;
  g_services : gmap string ServiceRow;
  g_states : gmap string InstallState;
  g_installations : gmap string InstallationRow;
  g_imports : gmap string ImportRow;
  g_jobs : gmap string JobRow;
  g_deliveries : gset string
}.

Definition set_g_auth (d : GithubDB) t :=
  mkGithubDB t (g_services d) (g_states d) (g_installations d) (g_imports d) (g_jobs d) (g_deliveries d).
Definition set_g_states (d : GithubDB) t :=
  mkGithubDB (g_auth d) (g_services d) t (g_installations d) (g_imports d) (g_jobs d) (g_deliveries d).
Definition set_g_installations (d : GithubDB) t :=
  mkGithubDB (g_auth d) (g_services d) (g_states d) t (g_imports d) (g_jobs d) (g_deliveries d).
Definition set_g_imports (d : GithubDB) t :=
  mkGithubDB (g_auth d) (g_services d) (g_states d) (g_installations d) t (g_jobs d) (g_deliveries d).
Definition set_g_jobs (d : GithubDB) t :=
  mkGithubDB (g_auth d) (g_services d) (g_states d) (g_installations d) (g_imports d) t (g_deliveries d).
Definition set_g_deliveries (d : GithubDB) t :=
  mkGithubDB (g_auth d) (g_services d) (g_states d) (g_installations d) (g_imports d) (g_jobs d) t.

Definition set_g_services (d : GithubDB) t :=
  mkGithubDB (g_auth d) t (g_states d) (g_installations d) (g_imports d) (g_jobs d) (g_deliveries d).

Definition GEff (A : Type) : Type := Eff (World GithubDB) (result store_err A).

(** Run a statement of the identity tables. *)
Definition lift_auth {A} (m : Eff (World AuthDB) A) : Eff (World GithubDB) A :=
  fun w => let '(a, w') := m (mkWorld (g_auth (w_db w)) (w_faults w) (w_clock w) (w_ticks w) (w_entropy w)) in
           (a, mkWorld (set_g_auth (w_db w) (w_db w')) (w_faults w') (w_clock w') (w_ticks w') (w_entropy w')).

(** ** Column updates of an import *)

Definition with_status (s : State) (t : Z) (r : ImportRow) : ImportRow :=
  mkImportRow (i_ID r) (i_OrgID r) (i_OwnerID r) (i_Repo r) (i_TeamID r) s (i_Steps r) (i_Branch r)
    (i_RunID r) (i_RunAttempt r) (i_RunURL r) (i_PRURL r) (i_Error r) (i_ServiceID r) (i_CreatedAt r)
    t (i_RunStartedAt r) (i_RunCompletedAt r) (i_CompletedAt r).
Definition with_steps (l : list Step) (r : ImportRow) : ImportRow :=
  mkImportRow (i_ID r) (i_OrgID r) (i_OwnerID r) (i_Repo r) (i_TeamID r) (i_Status r) l (i_Branch r)
    (i_RunID r) (i_RunAttempt r) (i_RunURL r) (i_PRURL r) (i_Error r) (i_ServiceID r) (i_CreatedAt r)
    (i_UpdatedAt r) (i_RunStartedAt r) (i_RunCompletedAt r) (i_CompletedAt r).
Definition with_run (id : option Z) (attempt : Z) (url : string) (r : ImportRow) : ImportRow :=
  mkImportRow (i_ID r) (i_OrgID r) (i_OwnerID r) (i_Repo r) (i_TeamID r) (i_Status r) (i_Steps r)
    (i_Branch r) id attempt url (i_PRURL r) (i_Error r) (i_ServiceID r) (i_CreatedAt r)
    (i_UpdatedAt r) (i_RunStartedAt r) (i_RunCompletedAt r) (i_CompletedAt r).
Definition with_pr (url : string) (r : ImportRow) : ImportRow :=
  mkImportRow (i_ID r) (i_OrgID r) (i_OwnerID r) (i_Repo r) (i_TeamID r) (i_Status r) (i_Steps r)
    (i_Branch r) (i_RunID r) (i_RunAttempt r) (i_RunURL r) url (i_Error r) (i_ServiceID r)
    (i_CreatedAt r) (i_UpdatedAt r) (i_RunStartedAt r) (i_RunCompletedAt r) (i_CompletedAt r).
Definition with_error (e : string) (r : ImportRow) : ImportRow :=
  mkImportRow (i_ID r) (i_OrgID r) (i_OwnerID r) (i_Repo r) (i_TeamID r) (i_Status r) (i_Steps r)
    (i_Branch r) (i_RunID r) (i_RunAttempt r) (i_RunURL r) (i_PRURL r) e (i_ServiceID r)
    (i_CreatedAt r) (i_UpdatedAt r) (i_RunStartedAt r) (i_RunCompletedAt r) (i_CompletedAt r).
Definition with_service (id : string) (r : ImportRow) : ImportRow :=
  mkImportRow (i_ID r) (i_OrgID r) (i_OwnerID r) (i_Repo r) (i_TeamID r) (i_Status r) (i_Steps r)
    (i_Branch r) (i_RunID r) (i_RunAttempt r) (i_RunURL r) (i_PRURL r) (i_Error r) id
    (i_CreatedAt r) (i_UpdatedAt r) (i_RunStartedAt r) (i_RunCompletedAt r) (i_CompletedAt r).
Definition with_times (started runCompleted completed : option Z) (r : ImportRow) : ImportRow :=
  mkImportRow (i_ID r) (i_OrgID r) (i_OwnerID r) (i_Repo r) (i_TeamID r) (i_Status r) (i_Steps r)
    (i_Branch r) (i_RunID r) (i_RunAttempt r) (i_RunURL r) (i_PRURL r) (i_Error r) (i_ServiceID r)
    (i_CreatedAt r) (i_UpdatedAt r) started runCompleted completed.

(** [COALESCE(run_started_at, NOW())] *)
Definition or_at (o : option Z) (t : Z) : option Z := match o with Some s => Some s | None => Some t end.

Section Store.
Context `{Collation} `{UuidGen}.

(** ** The catalog's statements on the services

    What CreateService, UpdateService and SoftDeleteService of the catalog
    (modelled in full in ServiceStore) do to the columns the import reads: a
    service is deleted by marking its row, never by removing it.  A statement
    the catalog refuses for other columns is one that fails. *)

Definition CatalogCreate (id orgID url : string) : GEff unit :=
  db_op (fun t d =>
    if found (g_services d !! id) || negb (found (orgs (g_auth d) !! orgID)) then (violation, d)
    else (Ok tt, set_g_services d (<[id := mkServiceRow id orgID url t false]> (g_services d)))).

Definition CatalogUpdate (id url : string) : GEff unit :=
  db_write (fun _ d =>
    set_g_services d (alter (fun s =>
      if sv_Deleted s then s else mkServiceRow (sv_ID s) (sv_OrgID s) url (sv_CreatedAt s) false)
      id (g_services d))).

Definition CatalogDelete (id : string) : GEff unit :=
  db_write (fun _ d =>
    set_g_services d (alter (fun s =>
      mkServiceRow (sv_ID s) (sv_OrgID s) (sv_GitRepoURL s) (sv_CreatedAt s) true) id (g_services d))).

(** ** Installing the app: one-use states *)

Definition CreateInstallState (orgID userID stateHash : string) (expiresAt : Z) : GEff unit :=
  db_op (fun _ d =>
    if found (g_states d !! stateHash) || negb (fk_member userID orgID (g_auth d)) then (violation, d)
    else (Ok tt, set_g_states d
            (<[stateHash := mkInstallState orgID userID None None expiresAt None]> (g_states d)))).

Definition AuthorizeInstallState (stateHash : string) (githubUserID : Z) : GEff string :=
  db_op (fun t d =>
    match g_states d !! stateHash with
    | Some s =>
        if negb (found (is_ConsumedAt s)) && (t <? is_ExpiresAt s)%Z && negb (found (is_AuthorizedAt s))
        then (Ok (is_OrgID s), set_g_states d
                (<[stateHash := mkInstallState (is_OrgID s) (is_UserID s) (Some githubUserID) (Some t)
                                  (is_ExpiresAt s) (is_ConsumedAt s)]> (g_states d)))
        else (Err ErrNotFound, d)
    | None => (Err ErrNotFound, d)
    end).

Definition ConsumeInstallState (stateHash : string) (githubUserID : Z) : GEff string :=
  db_op (fun t d =>
    match g_states d !! stateHash with
    | Some s =>
        if negb (found (is_ConsumedAt s)) && (t <? is_ExpiresAt s)%Z && found (is_AuthorizedAt s) &&
           bool_decide (is_GitHubUserID s = Some githubUserID)
        then (Ok (is_OrgID s), set_g_states d
                (<[stateHash := mkInstallState (is_OrgID s) (is_UserID s) (is_GitHubUserID s)
                                  (is_AuthorizedAt s) (is_ExpiresAt s) (Some t)]> (g_states d)))
        else (Err ErrNotFound, d)
    | None => (Err ErrNotFound, d)
    end).

(** [github_installation_id] is UNIQUE: an installation serves one org. *)
Definition UpsertInstallation (orgID : string) (installationID : Z) : GEff unit :=
  db_op (fun t d =>
    if negb (found (orgs (g_auth d) !! orgID)) ||
       other_row orgID (fun r => Z.eqb (ir_InstallationID r) installationID) (g_installations d)
    then (violation, d)
    else
      let created := match g_installations d !! orgID with Some r => ir_CreatedAt r | None => t end in
      (Ok tt, set_g_installations d
         (<[orgID := mkInstallationRow installationID created]> (g_installations d)))).

Definition GetInstallation (orgID : string) : GEff (option Installation) :=
  db_read (fun _ d =>
    option_map (fun r => mkInstallation orgID (ir_InstallationID r) (ir_CreatedAt r) 0
                           EmptyString EmptyString false) (g_installations d !! orgID)).

Definition DeleteInstallation (orgID : string) : GEff unit :=
  db_op (fun _ d =>
    match g_installations d !! orgID with
    | Some _ => (Ok tt, set_g_installations d (delete orgID (g_installations d)))
    | None => (Err ErrNotFound, d)
    end).

(** ** Imports *)

(** INSERT of a job; the id is the database's, the counters its defaults. *)
Definition new_job (id orgID importID kind : string) (t : Z) : JobRow :=
  mkJobRow id orgID importID kind t None None 0 8 EmptyString None t.

Definition insert_job (orgID importID kind : string) (t : Z) (d : GithubDB) : GithubDB :=
  let id := fresh (dom (g_jobs d)) in
  set_g_jobs d (<[id := new_job id orgID importID kind t]> (g_jobs d)).

(** The unique index on the unfinished job of an import and kind. *)
Definition active_job (importID kind : string) (j : JobRow) : bool :=
  String.eqb (jr_ImportID j) importID && String.eqb (jr_Kind j) kind &&
  negb (found (jr_CompletedAt j)).

Definition scan_import (d : GithubDB) (r : ImportRow) : option Import :=
  match teams (g_auth d) !! i_TeamID r with
  | Some tm =>
      Some (mkImport (i_ID r) (i_OrgID r) (i_OwnerID r) (i_Repo r) (i_TeamID r) (t_Name tm)
              (i_Status r) (i_Steps r) (i_Branch r) (default 0%Z (i_RunID r)) (i_RunURL r) (i_PRURL r)
              (i_Error r) (i_ServiceID r) (i_CreatedAt r) (i_UpdatedAt r) (i_RunStartedAt r)
              (i_RunCompletedAt r) (i_CompletedAt r))
  | None => None
  end.

Definition find_import (orgID importID : string) (d : GithubDB) : option ImportRow :=
  match g_imports d !! importID with
  | Some r => if String.eqb (i_OrgID r) orgID then Some r else None
  | None => None
  end.

Definition GetImport (orgID importID : string) : GEff Import :=
  db_op (fun _ d =>
    (match find_import orgID importID d with
     | Some r => match scan_import d r with Some v => Ok v | None => Err ErrNotFound end
     | None => Err ErrNotFound
     end, d)).

Definition GetLatestImport (orgID : string) : GEff (option Import) :=
  db_read (fun _ d =>
    head (omap (scan_import d)
      (order_by (desc (by_key i_CreatedAt))
        (select (fun r => String.eqb (i_OrgID r) orgID) (g_imports d))))).

Definition insert_import (importID orgID teamID : string) (ownerID : Z) (repo : string) (t : Z)
    (d : GithubDB) : result store_err unit * GithubDB :=
  if found (g_imports d !! importID) ||
     exists_row (fun r => String.eqb (i_OrgID r) orgID && String.eqb (i_Branch r) (Branch importID))
                (g_imports d) ||
     negb (found (orgs (g_auth d) !! orgID)) || negb (found (teams (g_auth d) !! teamID))
  then (violation, d)
  else
    let r := mkImportRow importID orgID ownerID repo teamID StateSelected [] (Branch importID) None 1
               EmptyString EmptyString EmptyString EmptyString t t None None None in
    (Ok tt, insert_job orgID importID JobStart t (set_g_imports d (<[importID := r]> (g_imports d)))).

Definition CreateImport (orgID teamID : string) (ownerID : Z) (repo : string) : GEff Import :=
  func (
    _ <- try (db_op (fun _ d =>
           (match teams (g_auth d) !! teamID with
            | Some tm => if String.eqb (t_OrgID tm) orgID then Ok tt else Err ErrTeamNotFound
            | None => Err ErrTeamNotFound
            end, d))) (fun err => Err err) ;;
    importID <- try new_uuid (fun err => Err err) ;;
    _ <- try (db_op (insert_import importID orgID teamID ownerID repo)) (fun err => Err err) ;;
    call (GetImport orgID importID)).

(** UPDATE ... WHERE org_id = $1 AND id = $2 AND cond. *)
Definition update_import (orgID importID : string) (cond : ImportRow -> bool) (f : ImportRow -> ImportRow)
    (d : GithubDB) : GithubDB :=
  match find_import orgID importID d with
  | Some r => if cond r then set_g_imports d (<[importID := f r]> (g_imports d)) else d
  | None => d
  end.

Definition always {A} (_ : A) : bool := true.
Definition has_status (s : State) (r : ImportRow) : bool := bool_decide (i_Status r = s).

Definition SetImportRunQueued (orgID importID : string) : GEff unit :=
  db_write (fun t =>
    update_import orgID importID (has_status StateSelected) (with_status StateRunQueued t)).

Definition touch_import (t : Z) (r : ImportRow) : ImportRow := with_status (i_Status r) t r.

Definition SetImportPullRequest (orgID importID url : string) : GEff unit :=
  db_write (fun t => update_import orgID importID always (fun r => with_pr url (touch_import t r))).

Definition resumable (r : ImportRow) : bool := has_status StateFailed r && found (i_RunID r).

Definition resume_row (t : Z) (r : ImportRow) : ImportRow :=
  with_times (Some t) None None
    (with_run (i_RunID r) (i_RunAttempt r + 1)%Z (i_RunURL r)
      (with_steps [] (with_error EmptyString (with_status StateRunRunning t r)))).

Definition ResumeImportRun (orgID importID : string) : GEff unit :=
  db_op (fun t d =>
    match find_import orgID importID d with
    | Some r =>
        if resumable r
        then (Ok tt, set_g_imports d (<[importID := resume_row t r]> (g_imports d)))
        else (Err ErrConflict, d)
    | None => (Err ErrConflict, d)
    end).

Definition reset_row (t : Z) (r : ImportRow) : ImportRow :=
  with_times None None None
    (with_run None 1 EmptyString
      (with_steps [] (with_error EmptyString (with_status StateSelected t r)))).

(** The start job is made available again, or inserted when none is active. *)
Definition reset_job (t : Z) (j : JobRow) : JobRow :=
  mkJobRow (jr_ID j) (jr_OrgID j) (jr_ImportID j) (jr_Kind j) t None None 0 (jr_MaxAttempts j)
           EmptyString (jr_CompletedAt j) (jr_CreatedAt j).

Definition requeue_job (orgID importID kind : string) (t : Z) (d : GithubDB) : GithubDB :=
  match select_one (active_job importID kind) (g_jobs d) with
  | Some j => set_g_jobs d (<[jr_ID j := reset_job t j]> (g_jobs d))
  | None => insert_job orgID importID kind t d
  end.

Definition RetryImport (orgID importID : string) : GEff unit :=
  db_op (fun t d =>
    match find_import orgID importID d with
    | None => (Err ErrNotFound, d)
    | Some r =>
        if negb (has_status StateFailed r) then (Err ErrConflict, d)
        else (Ok tt, requeue_job orgID importID JobStart t
                       (set_g_imports d (<[importID := reset_row t r]> (g_imports d))))
    end).

(** ** Jobs *)

Definition claimable (t : Z) (j : JobRow) : bool :=
  negb (found (jr_CompletedAt j)) && (jr_AvailableAt j <=? t)%Z &&
  match jr_LeaseExpiresAt j with None => true | Some e => (e <? t)%Z end.

Definition claim_order : JobRow -> JobRow -> bool := then_by (by_key jr_AvailableAt) (by_key jr_CreatedAt).
#[export] Instance claim_order_strict : StrictWeak claim_order := then_by_strict _ _.

Definition claim_row (owner : string) (lease t : Z) (j : JobRow) : JobRow :=
  mkJobRow (jr_ID j) (jr_OrgID j) (jr_ImportID j) (jr_Kind j) (jr_AvailableAt j) (Some owner)
           (Some (t + lease)%Z) (jr_Attempts j + 1)%Z (jr_MaxAttempts j) (jr_LastError j)
           (jr_CompletedAt j) (jr_CreatedAt j).

Definition scan_job (j : JobRow) : Job :=
  mkJob (jr_ID j) (jr_OrgID j) (jr_ImportID j) (jr_Kind j) (jr_Attempts j) (jr_MaxAttempts j).

Definition ClaimJob (owner : string) (lease : Z) : GEff (option Job) :=
  db_op (fun t d =>
    match head (order_by claim_order (select (claimable t) (g_jobs d))) with
    | Some j =>
        let j' := claim_row owner lease t j in
        (Ok (Some (scan_job j')), set_g_jobs d (<[jr_ID j := j']> (g_jobs d)))
    | None => (Ok None, d)
    end).

(** UPDATE ... WHERE id = $1 AND lease_owner = $2. *)
Definition update_leased (jobID owner : string) (f : JobRow -> JobRow) (d : GithubDB) : GithubDB :=
  match g_jobs d !! jobID with
  | Some j => if bool_decide (jr_LeaseOwner j = Some owner)
              then set_g_jobs d (<[jobID := f j]> (g_jobs d)) else d
  | None => d
  end.

Definition finish_row (message : string) (t : Z) (j : JobRow) : JobRow :=
  mkJobRow (jr_ID j) (jr_OrgID j) (jr_ImportID j) (jr_Kind j) (jr_AvailableAt j) None None
           (jr_Attempts j) (jr_MaxAttempts j) message (Some t) (jr_CreatedAt j).

Definition release_row (message : string) (next : Z) (j : JobRow) : JobRow :=
  mkJobRow (jr_ID j) (jr_OrgID j) (jr_ImportID j) (jr_Kind j) next None None
           (jr_Attempts j) (jr_MaxAttempts j) message (jr_CompletedAt j) (jr_CreatedAt j).

Definition CompleteJob (jobID owner : string) : GEff unit :=
  db_write (fun t => update_leased jobID owner (fun j => finish_row (jr_LastError j) t j)).

(** The last attempt finishes the job; a start job fails its import too. *)
Definition RetryJob (job : Job) (owner : string) (next : Z) (message : string) : GEff unit :=
  db_write (fun t d =>
    if (j_MaxAttempts job <=? j_Attempts job)%Z then
      let d1 := update_leased (j_ID job) owner (finish_row message t) d in
      if negb (String.eqb (j_Kind job) JobStart) then d1
      else update_import (j_OrgID job) (j_ImportID job) always
             (fun r => with_error message (with_status StateFailed t r)) d1
    else update_leased (j_ID job) owner (release_row message next) d).

(** ** Webhooks *)

Definition RecordWebhook (deliveryID : string) : GEff bool :=
  db_op (fun _ d =>
    if decide (deliveryID ∈ g_deliveries d) then (Ok false, d)
    else (Ok true, set_g_deliveries d ({[deliveryID]} ∪ g_deliveries d))).

Definition terminal (s : State) : bool :=
  match s with StateCompleted | StateFailed => true | _ => false end.

(** [activeImportSelect] *)
Definition active_import (branch : string) (r : ImportRow) : bool :=
  String.eqb (i_Branch r) branch && negb (terminal (i_Status r)).

(** An event of an earlier run, or of an earlier attempt of the run, is stale. *)
Definition stale (r : ImportRow) (runID attempt : Z) : bool :=
  let current := default 0%Z (i_RunID r) in
  (runID <? current)%Z ||
  (Z.eqb runID current && negb (Z.eqb attempt 0) && (attempt <? i_RunAttempt r)%Z).

(** The key under which git URLs are compared. *)
Definition git_key (url : string) : string :=
  let s := text_lower (TrimRightByte url "/") in
  if HasSuffix s ".git" then take_bytes (String.length s - 4) s else s.

Definition matching_service (orgID url : string) (d : GithubDB) : option ServiceRow :=
  head (order_by (by_key sv_CreatedAt)
    (select (fun s => String.eqb (sv_OrgID s) orgID && negb (sv_Deleted s) &&
                      String.eqb (git_key (sv_GitRepoURL s)) (git_key url)) (g_services d))).

Definition run_failed_message :=
  "UiGraph import run failed; verify the repository AI settings and review the run logs".
Definition no_service_message := "Sync succeeded but no service matched the canonical repository URL".

Definition running_row (run : WorkflowRun) (t : Z) (r : ImportRow) : ImportRow :=
  with_times (or_at (i_RunStartedAt r) t) (i_RunCompletedAt r) (i_CompletedAt r)
    (with_run (Some (wr_ID run)) (i_RunAttempt r) (wr_HTMLURL run) (with_status StateRunRunning t r)).

Definition failed_row (message : string) (run : WorkflowRun) (t : Z) (r : ImportRow) : ImportRow :=
  with_times (i_RunStartedAt r) (Some t) (i_CompletedAt r)
    (with_run (Some (wr_ID run)) (i_RunAttempt r) (wr_HTMLURL run)
      (with_error message (with_status StateFailed t r))).

Definition completed_row (serviceID : string) (run : WorkflowRun) (t : Z) (r : ImportRow) : ImportRow :=
  with_times (i_RunStartedAt r) (Some t) (Some t)
    (with_service serviceID
      (with_run (Some (wr_ID run)) (i_RunAttempt r) (wr_HTMLURL run) (with_status StateCompleted t r))).

(** INSERT ... ON CONFLICT DO NOTHING. *)
Definition ensure_job (orgID importID kind : string) (t : Z) (d : GithubDB) : GithubDB :=
  match select_one (active_job importID kind) (g_jobs d) with
  | Some _ => d
  | None => insert_job orgID importID kind t d
  end.

Definition put_import (r : ImportRow) (d : GithubDB) : GithubDB :=
  set_g_imports d (<[i_ID r := r]> (g_imports d)).

Definition apply_run (run : WorkflowRun) (repositoryURL : string) (t : Z) (r : ImportRow) (d : GithubDB) :
    GithubDB :=
  if negb (String.eqb (wr_Status run) "completed") then put_import (running_row run t r) d
  else if negb (String.eqb (wr_Conclusion run) "success")
  then put_import (failed_row run_failed_message run t r) d
  else match matching_service (i_OrgID r) repositoryURL d with
       | None => put_import (failed_row no_service_message run t r) d
       | Some s => ensure_job (i_OrgID r) (i_ID r) JobOpenPR t
                     (put_import (completed_row (sv_ID s) run t r) d)
       end.

Definition ApplyWorkflowRunEvent (run : WorkflowRun) (repositoryURL : string) : GEff unit :=
  if negb (String.eqb (wr_Event run) "push") || negb (IsOnboardingWorkflowPath (wr_Path run))
  then fun w => (Ok tt, w)
  else db_write (fun t d =>
    match select_one (active_import (wr_HeadBranch run)) (g_imports d) with
    | None => d
    | Some r => if stale r (wr_ID run) (wr_RunAttempt run) then d
                else apply_run run repositoryURL t r d
    end).

(** The steps of the jobs in the event replace those stored for these jobs.
    [sort.Slice] may list steps with the same job and number in any order; here
    they keep theirs. *)
Definition step_order : Step -> Step -> bool := then_by (by_key st_JobID) (by_key st_Number).
#[export] Instance step_order_strict : StrictWeak step_order := then_by_strict _ _.

Definition merge_steps (current steps : list Step) : list Step :=
  let incoming j := existsb (fun s => Z.eqb (st_JobID s) j) steps in
  sort_stable step_order (List.filter (fun s => negb (incoming (st_JobID s))) current ++ steps).

Definition steps_row (runID : Z) (steps : list Step) (t : Z) (r : ImportRow) : ImportRow :=
  with_times (or_at (i_RunStartedAt r) t) (i_RunCompletedAt r) (i_CompletedAt r)
    (with_run (Some runID) (i_RunAttempt r) (i_RunURL r)
      (with_steps (merge_steps (i_Steps r) steps) (touch_import t r))).

Definition ApplyWorkflowJobEvent (branch : string) (runID runAttempt : Z) (steps : list Step) : GEff unit :=
  match steps with
  | [] => fun w => (Ok tt, w)
  | _ => db_write (fun t d =>
      match select_one (active_import branch) (g_imports d) with
      | None => d
      | Some r => if stale r runID runAttempt then d else put_import (steps_row runID steps t r) d
      end)
  end.

(** ** Import tokens *)

Definition importServiceAccountName := "GitHub Import".

Definition import_account (id orgID : string) : ServiceAccount :=
  mkServiceAccount id orgID importServiceAccountName
    "Token used by repository import artifact and sync workflows" (ScopesForRole RoleEditor)
    false false None EmptyString 0 0.

Definition FindImportAccount (orgID : string) : AuthEff (option ServiceAccount) :=
  db_read (fun _ d =>
    head (order_by (by_key sa_CreatedAt)
      (map sar (select (fun r => String.eqb (sa_OrgID (sar r)) orgID &&
                                 String.eqb (sa_Name (sar r)) importServiceAccountName &&
                                 negb (sa_IsInternal (sar r)) && sa_visible r) (accounts d))))).

Definition CreateImportToken `{Sha256} (orgID repository : string) (expiresAt : Z) : AuthEff string :=
  func (
    found_ <- try (FindImportAccount orgID) (fun err => Err err) ;;
    accountID <- (match found_ with
                  | Some sa => gret (sa_ID sa)
                  | None =>
                      id <- try new_uuid (fun err => Err err) ;;
                      _ <- try (CreateServiceAccount (import_account id orgID)) (fun err => Err err) ;;
                      gret id
                  end) ;;
    old <- try (ListTokens accountID) (fun err => Err err) ;;
    gfor old (fun token =>
      if negb (String.eqb (tok_Name token) repository) || tok_Revoked token then gret tt
      else try (RevokeToken (tok_ID token)) (fun err => Err err)) ;;;
    tok <- try Generate (fun err => Err err) ;;
    let '(id, plaintext, hash) := tok in
    _ <- try (CreateToken (mkToken id accountID repository (Prefix plaintext) hash (Some expiresAt)
                             None false EmptyString 0)) (fun err => Err err) ;;
    gret (Ok plaintext)).
End Store.
