(* ===== verification/ImportLife.v ===== *)
(** * ImportLife: how the rows of an import evolve

    The statements of GithubStore as the operations of a state machine, and
    what holds of every sequence of them: the tables stay well formed, the
    status moves along the edges of the import's life cycle, a completed import
    is final, a lease is exclusive, late webhooks change nothing. *)

From S2P Require Import Prelude GoStrings Effects Table Authz Identity AuthStore GithubStore.
Set Warnings "-clear-no-such-hyp".

(** ** Operations and traces *)

(** Every operation of the store that writes the tables of this component, and
    those of the catalog that write the services it reads. *)
Inductive Op : Type :=
| OpCreateInstallState (orgID userID stateHash : string) (expiresAt : Z)
| OpAuthorizeInstallState (stateHash : string) (githubUserID : Z)
| OpConsumeInstallState (stateHash : string) (githubUserID : Z)
| OpUpsertInstallation (orgID : string) (installationID : Z)
| OpDeleteInstallation (orgID : string)
| OpCreateImport (orgID teamID : string) (ownerID : Z) (repo : string)
| OpSetImportRunQueued (orgID importID : string)
| OpSetImportPullRequest (orgID importID url : string)
| OpResumeImportRun (orgID importID : string)
| OpRetryImport (orgID importID : string)
| OpClaimJob (owner : string) (lease : Z)
| OpCompleteJob (jobID owner : string)
| OpRetryJob (job : Job) (owner : string) (next : Z) (message : string)
| OpRecordWebhook (deliveryID : string)
| OpApplyWorkflowRunEvent (run : WorkflowRun) (repositoryURL : string)
| OpApplyWorkflowJobEvent (branch : string) (runID runAttempt : Z) (steps : list Step)
| OpCatalogCreate (id orgID url : string)
| OpCatalogUpdate (id url : string)
| OpCatalogDelete (id : string).

Definition after {A} (m : GEff A) (w : World GithubDB) : World GithubDB := (m w).2.

Section Life.
Context `{HC : Collation} `{HU : UuidGen}.

Definition run_op (o : Op) : World GithubDB -> World GithubDB :=
  match o with
  | OpCreateInstallState orgID userID stateHash expiresAt =>
      after (CreateInstallState orgID userID stateHash expiresAt)
  | OpAuthorizeInstallState stateHash githubUserID => after (AuthorizeInstallState stateHash githubUserID)
  | OpConsumeInstallState stateHash githubUserID => after (ConsumeInstallState stateHash githubUserID)
  | OpUpsertInstallation orgID installationID => after (UpsertInstallation orgID installationID)
  | OpDeleteInstallation orgID => after (DeleteInstallation orgID)
  | OpCreateImport orgID teamID ownerID repo => after (CreateImport orgID teamID ownerID repo)
  | OpSetImportRunQueued orgID importID => after (SetImportRunQueued orgID importID)
  | OpSetImportPullRequest orgID importID url => after (SetImportPullRequest orgID importID url)
  | OpResumeImportRun orgID importID => after (ResumeImportRun orgID importID)
  | OpRetryImport orgID importID => after (RetryImport orgID importID)
  | OpClaimJob owner lease => after (ClaimJob owner lease)
  | OpCompleteJob jobID owner => after (CompleteJob jobID owner)
  | OpRetryJob job owner next message => after (RetryJob job owner next message)
  | OpRecordWebhook deliveryID => after (RecordWebhook deliveryID)
  | OpApplyWorkflowRunEvent run url => after (ApplyWorkflowRunEvent run url)
  | OpApplyWorkflowJobEvent branch runID runAttempt steps =>
      after (ApplyWorkflowJobEvent branch runID runAttempt steps)
  | OpCatalogCreate id orgID url => after (CatalogCreate id orgID url)
  | OpCatalogUpdate id url => after (CatalogUpdate id url)
  | OpCatalogDelete id => after (CatalogDelete id)
  end.

(** A trace: each operation, then some time. *)
Definition run_ops (ops : list Op) (w : World GithubDB) : World GithubDB :=
  fold_left (fun w o => (time_now (run_op o w)).2) ops w.

(** ** Well-formed tables *)

(** A completed import names the service it produced, and when; the service may
    have been deleted since, its row stays. *)
Definition completion_ok (d : GithubDB) (r : ImportRow) : Prop :=
  i_Status r = StateCompleted ->
  found (i_CompletedAt r) = true /\
  exists s, s ∈ rows (g_services d) /\ sv_ID s = i_ServiceID r /\ sv_OrgID s = i_OrgID r.

Record imports_ok (d : GithubDB) : Prop := {
  ok_ids k r : g_imports d !! k = Some r -> i_ID r = k /\ i_Branch r = Branch k;
  ok_attempts k r : g_imports d !! k = Some r -> (1 <= i_RunAttempt r)%Z;
  ok_completed k r : g_imports d !! k = Some r -> completion_ok d r;
  ok_jobs k j : g_jobs d !! k = Some j ->
    jr_ID j = k /\ exists r, g_imports d !! jr_ImportID j = Some r /\ i_OrgID r = jr_OrgID j;
  ok_leases k j : g_jobs d !! k = Some j ->
    found (jr_LeaseOwner j) = found (jr_LeaseExpiresAt j) /\
    (found (jr_CompletedAt j) = true -> jr_LeaseOwner j = None);
  ok_active k1 k2 j1 j2 importID kind :
    g_jobs d !! k1 = Some j1 -> g_jobs d !! k2 = Some j2 ->
    active_job importID kind j1 = true -> active_job importID kind j2 = true -> k1 = k2
}.

(** ** The statements, one table at a time *)

#[local] Ltac proj := unfold set_g_imports, set_g_jobs, set_g_states, set_g_installations, set_g_deliveries,
  insert_job in *; cbn [g_auth g_services g_states g_installations g_imports g_jobs g_deliveries] in *.

(** The tables the invariant speaks of are unchanged. *)
Definition same_core (d d' : GithubDB) : Prop :=
  g_imports d' = g_imports d /\ g_jobs d' = g_jobs d /\ g_services d' = g_services d.

Lemma same_core_ok d d' : same_core d d' -> imports_ok d -> imports_ok d'.
Proof.
  intros (Hi & Hj & Hs) [H1 H2 H3 H4 H5 H6]. split; rewrite ?Hi, ?Hj; try done.
  unfold completion_ok in *. by rewrite Hs.
Qed.

(** One row of the imports is replaced by one with the same identity. *)
Lemma put_import_ok d k r r' :
  imports_ok d -> g_imports d !! k = Some r ->
  i_ID r' = i_ID r -> i_OrgID r' = i_OrgID r -> i_Branch r' = i_Branch r ->
  (1 <= i_RunAttempt r')%Z -> completion_ok d r' ->
  imports_ok (set_g_imports d (<[k := r']> (g_imports d))).
Proof.
  intros [H1 H2 H3 H4 H5 H6] Hk Hid Horg Hbr Hat Hco. split; proj; try done.
  - intros k0 r0 [[<- <-]|[Hne Hk0]]%lookup_insert_Some; [|by apply H1].
    rewrite Hid, Hbr. by apply H1.
  - intros k0 r0 [[<- <-]|[Hne Hk0]]%lookup_insert_Some; [done|by eapply H2].
  - intros k0 r0 [[<- <-]|[Hne Hk0]]%lookup_insert_Some; [done|by eapply H3].
  - intros k0 j0 [Hj (r0 & Hr0 & Ho)]%H4. split; [done|].
    destruct (decide (k = jr_ImportID j0)) as [Hk0|Hne].
    + subst k. exists r'. rewrite lookup_insert_eq. split; [done|]. congruence.
    + exists r0. by rewrite lookup_insert_ne.
Qed.

(** A new import, and a new job for an import without an active one. *)
Lemma new_import_ok d k r :
  imports_ok d -> g_imports d !! k = None -> i_ID r = k -> i_Branch r = Branch k ->
  (1 <= i_RunAttempt r)%Z -> completion_ok d r ->
  imports_ok (set_g_imports d (<[k := r]> (g_imports d))).
Proof.
  intros [H1 H2 H3 H4 H5 H6] Hk Hid Hbr Hat Hco. split; proj; try done.
  - intros k0 r0 [[<- <-]|[Hne Hk0]]%lookup_insert_Some; [done|by apply H1].
  - intros k0 r0 [[<- <-]|[Hne Hk0]]%lookup_insert_Some; [done|by eapply H2].
  - intros k0 r0 [[<- <-]|[Hne Hk0]]%lookup_insert_Some; [done|by eapply H3].
  - intros k0 j0 [Hj (r0 & Hr0 & Ho)]%H4. split; [done|]. exists r0.
    rewrite lookup_insert_ne; [done|]. intros Hc. rewrite <-Hc in Hr0. congruence.
Qed.

Lemma active_job_true importID kind j :
  active_job importID kind j = true <->
  jr_ImportID j = importID /\ jr_Kind j = kind /\ jr_CompletedAt j = None.
Proof.
  unfold active_job. rewrite !andb_true_iff, !String.eqb_eq, negb_true_iff, found_false. tauto.
Qed.

Lemma put_job_ok d k j j' :
  imports_ok d -> g_jobs d !! k = Some j ->
  jr_ID j' = jr_ID j -> jr_OrgID j' = jr_OrgID j -> jr_ImportID j' = jr_ImportID j ->
  jr_Kind j' = jr_Kind j -> (found (jr_CompletedAt j) = true -> found (jr_CompletedAt j') = true) ->
  found (jr_LeaseOwner j') = found (jr_LeaseExpiresAt j') ->
  (found (jr_CompletedAt j') = true -> jr_LeaseOwner j' = None) ->
  imports_ok (set_g_jobs d (<[k := j']> (g_jobs d))).
Proof.
  intros [H1 H2 H3 H4 H5 H6] Hk Hid Horg Him Hkind Hdone Hl1 Hl2.
  assert (forall importID kind, active_job importID kind j' = true -> active_job importID kind j = true)
    as Hact.
  { intros importID kind. rewrite !active_job_true, Him, Hkind. intros (? & ? & Hn). split_and!; [done..|].
    apply found_false. destruct (found (jr_CompletedAt j)); [|done]. rewrite <-Hdone by done. by rewrite Hn. }
  split; proj; try done.
  - intros k0 j0 [[<- <-]|[Hne Hk0]]%lookup_insert_Some; [|by apply H4].
    rewrite Hid, Him, Horg. by apply H4.
  - intros k0 j0 [[<- <-]|[Hne Hk0]]%lookup_insert_Some; [done|by eapply H5].
  - intros k1 k2 j1 j2 importID kind [[<- <-]|[Hne1 Hk1]]%lookup_insert_Some
      [[<- <-]|[Hne2 Hk2]]%lookup_insert_Some A1 A2; [done|..]; eauto.
Qed.

(** The services change: their rows stay, with their organizations. *)
Definition services_kept (d d' : GithubDB) : Prop :=
  forall id s, g_services d !! id = Some s -> exists s', g_services d' !! id = Some s' /\
    sv_ID s' = sv_ID s /\ sv_OrgID s' = sv_OrgID s.

Lemma services_kept_ok d d' :
  g_imports d' = g_imports d -> g_jobs d' = g_jobs d -> services_kept d d' ->
  imports_ok d -> imports_ok d'.
Proof.
  intros Hi Hj Hs [H1 H2 H3 H4 H5 H6]. split; rewrite ?Hi, ?Hj; try done.
  intros k r Hk Hst. destruct (H3 k r Hk Hst) as (Hc & s & [id Hin]%rows_elem & Hid & Ho). split; [done|].
  destruct (Hs id s Hin) as (s' & Hs' & Hid' & Ho'). exists s'.
  split_and!; [apply rows_elem; eauto|congruence..].
Qed.

Lemma alter_kept f id d :
  (forall s, sv_ID (f s) = sv_ID s /\ sv_OrgID (f s) = sv_OrgID s) ->
  services_kept d (set_g_services d (alter f id (g_services d))).
Proof.
  intros Hf k s Hk. cbn. destruct (decide (id = k)) as [->|Hne].
  - rewrite lookup_alter_eq, Hk. cbn. destruct (Hf s). eauto.
  - rewrite lookup_alter_ne by done. eauto.
Qed.

Lemma new_service_kept id s d :
  g_services d !! id = None -> services_kept d (set_g_services d (<[id := s]> (g_services d))).
Proof.
  intros Hno k s0 Hk. cbn. exists s0. rewrite lookup_insert_ne; [done|]. intros ->. congruence.
Qed.

Lemma fresh_job d : g_jobs d !! fresh (dom (g_jobs d)) = None.
Proof. apply not_elem_of_dom, is_fresh. Qed.

Lemma insert_job_ok d orgID importID kind t r :
  imports_ok d -> g_imports d !! importID = Some r -> i_OrgID r = orgID ->
  select_one (active_job importID kind) (g_jobs d) = None ->
  imports_ok (insert_job orgID importID kind t d).
Proof.
  intros [H1 H2 H3 H4 H5 H6] Hr Horg Hno. rewrite select_one_None in Hno.
  unfold insert_job. set (id := fresh _). split; proj; try done.
  - intros k0 j0 [[<- <-]|[Hne Hk0]]%lookup_insert_Some; [|by apply H4]. split; [done|]. eauto.
  - intros k0 j0 [[<- <-]|[Hne Hk0]]%lookup_insert_Some; [done|by eapply H5].
  - intros k1 k2 j1 j2 im ki [[<- <-]|[Hne1 Hk1]]%lookup_insert_Some
      [[<- <-]|[Hne2 Hk2]]%lookup_insert_Some A1 A2; [done| | |by eauto].
    + apply active_job_true in A1 as (E1 & E2 & _). cbn in E1, E2. subst im ki.
      by rewrite (Hno _ _ Hk2) in A2.
    + apply active_job_true in A2 as (E1 & E2 & _). cbn in E1, E2. subst im ki.
      by rewrite (Hno _ _ Hk1) in A1.
Qed.

Lemma new_import_no_job d k kind :
  imports_ok d -> g_imports d !! k = None -> select_one (active_job k kind) (g_jobs d) = None.
Proof.
  intros Hok Hk. apply select_one_None. intros k0 j0 [_ (r & Hr & _)]%(ok_jobs _ Hok).
  apply not_true_iff_false. intros (<- & _)%active_job_true. congruence.
Qed.

Lemma find_import_Some orgID importID d r :
  find_import orgID importID d = Some r <-> g_imports d !! importID = Some r /\ i_OrgID r = orgID.
Proof.
  unfold find_import. destruct (g_imports d !! importID) as [r0|]; [|naive_solver].
  destruct (String.eqb (i_OrgID r0) orgID) eqn:E; bool_to_prop; naive_solver.
Qed.

Lemma update_import_ok orgID importID cond f d :
  imports_ok d ->
  (forall r, g_imports d !! importID = Some r -> cond r = true ->
     i_ID (f r) = i_ID r /\ i_OrgID (f r) = i_OrgID r /\ i_Branch (f r) = i_Branch r /\
     i_RunAttempt (f r) = i_RunAttempt r /\ completion_ok d (f r)) ->
  imports_ok (update_import orgID importID cond f d).
Proof.
  intros Hok Hf. unfold update_import. destruct (find_import orgID importID d) as [r|] eqn:E; [|done].
  apply find_import_Some in E as [Hr _]. destruct (cond r) eqn:Ec; [|done].
  destruct (Hf r Hr Ec) as (H1 & H2 & H3 & H4 & H5). eapply put_import_ok; eauto.
  rewrite H4. by eapply ok_attempts.
Qed.

Lemma update_leased_ok jobID owner f d :
  imports_ok d ->
  (forall j, jr_ID (f j) = jr_ID j /\ jr_OrgID (f j) = jr_OrgID j /\ jr_ImportID (f j) = jr_ImportID j /\
     jr_Kind (f j) = jr_Kind j /\ (found (jr_CompletedAt j) = true -> found (jr_CompletedAt (f j)) = true) /\
     jr_LeaseOwner (f j) = None /\ jr_LeaseExpiresAt (f j) = None) ->
  imports_ok (update_leased jobID owner f d).
Proof.
  intros Hok Hf. unfold update_leased. destruct (g_jobs d !! jobID) as [j|] eqn:E; [|done].
  case_bool_decide; [|done]. destruct (Hf j) as (H1 & H2 & H3 & H4 & H5 & H6 & H7).
  eapply put_job_ok; eauto. by rewrite H6, H7.
Qed.

(** A completion already recorded stays one when status, service and time do. *)
Lemma completion_keep d k r r' :
  imports_ok d -> g_imports d !! k = Some r -> i_OrgID r' = i_OrgID r ->
  i_ServiceID r' = i_ServiceID r -> i_CompletedAt r' = i_CompletedAt r ->
  (i_Status r' = StateCompleted -> i_Status r = StateCompleted) -> completion_ok d r'.
Proof.
  intros Hok Hk Ho Hs Hc Hst Hr'. rewrite Ho, Hs, Hc. by apply (ok_completed _ Hok k r Hk), Hst.
Qed.

Lemma completion_trivial d r : i_Status r <> StateCompleted -> completion_ok d r.
Proof. by intros ? ?. Qed.

Lemma put_same_ok d r r' :
  imports_ok d -> g_imports d !! i_ID r = Some r ->
  i_ID r' = i_ID r -> i_OrgID r' = i_OrgID r -> i_Branch r' = i_Branch r ->
  (1 <= i_RunAttempt r')%Z -> completion_ok d r' -> imports_ok (put_import r' d).
Proof. intros Hok Hr Hid. unfold put_import. rewrite Hid. by apply put_import_ok. Qed.

Lemma active_import_found d branch r :
  imports_ok d -> select_one (active_import branch) (g_imports d) = Some r ->
  g_imports d !! i_ID r = Some r /\ branch = Branch (i_ID r) /\ terminal (i_Status r) = false.
Proof.
  intros Hok [[k Hk] Hp]%select_one_Some. destruct (ok_ids _ Hok k r Hk) as [<- Hbr].
  unfold active_import in Hp. bool_to_prop. split_and!; congruence.
Qed.

Lemma matching_service_Some orgID url d s :
  matching_service orgID url d = Some s ->
  s ∈ rows (g_services d) /\ sv_OrgID s = orgID /\ sv_Deleted s = false /\
  git_key (sv_GitRepoURL s) = git_key url.
Proof.
  unfold matching_service. intros (Hk & Hp & _)%first_by_Some; [|apply _]. bool_to_prop.
  split_and!; [by apply rows_elem|done..].
Qed.

(** ** Every operation keeps the tables well formed *)

#[local] Ltac by_core := eapply same_core_ok; [|eassumption]; split_and!; reflexivity.

Lemma GetImport_db orgID importID w : w_db (GetImport orgID importID w).2 = w_db w.
Proof. by apply (db_op_post _ (fun d => d = w_db w)). Qed.

(** The only statement of CreateImport that writes is the INSERT. *)
Lemma CreateImport_effect orgID teamID ownerID repo w :
  let d' := w_db (CreateImport orgID teamID ownerID repo w).2 in
  d' = w_db w \/
  exists id, d' = (insert_import id orgID teamID ownerID repo (w_clock w) (w_db w)).2.
Proof.
  set (P := fun d' => d' = w_db w \/
    exists id, d' = (insert_import id orgID teamID ownerID repo (w_clock w) (w_db w)).2).
  cbn zeta. change (P (w_db (CreateImport orgID teamID ownerID repo w).2)).
  unfold CreateImport. apply (wp_func _ (fun _ w' => P (w_db w'))). wp_step.
  destruct (db_op _ w) as [[[]|e] w1] eqn:E1.
  2: { wp_step. left. apply (f_equal snd) in E1. cbn in E1. subst w1. by apply (db_op_post _ (fun d => d = w_db w)). }
  assert (w_db w1 = w_db w /\ w_clock w1 = w_clock w) as [D1 T1].
  { split; [|by eapply db_op_clock]. apply (f_equal snd) in E1. cbn in E1. subst w1. by apply (db_op_post _ (fun d => d = w_db w)). }
  wp_step. unfold new_uuid. pose proof (rand_read_db 16 w1) as D2. pose proof (rand_read_clock 16 w1) as T2.
  destruct (rand_read 16 w1) as [[b|e] w2]; cbn in D2, T2; [|left; congruence].
  wp_step. destruct (db_op (insert_import _ _ _ _ _) w2) as [a w3] eqn:E3.
  assert (w_db w3 = w_db w \/
    w_db w3 = (insert_import (uuid_of b) orgID teamID ownerID repo (w_clock w) (w_db w)).2) as Hw3.
  { apply (f_equal snd) in E3. cbn in E3. subst w3.
    apply (db_op_post _ (fun d => d = _ \/ d = _)); [left; congruence|right].
    by rewrite T2, T1, D2, D1. }
  destruct a as [u|e]; wp_step; rewrite ?GetImport_db; (destruct Hw3 as [Hw3|Hw3]; [by left|right; eauto]).
Qed.

Lemma insert_import_ok id orgID teamID ownerID repo t d :
  imports_ok d -> imports_ok (insert_import id orgID teamID ownerID repo t d).2.
Proof.
  intros Hok. unfold insert_import. destruct (_ || _) eqn:E; [done|]. cbn [snd]. bool_to_prop.
  match goal with HF : found (g_imports d !! id) = false |- _ => apply found_false in HF as Hno end.
  match goal with |- context [<[id := ?r0]> _] => set (r := r0) end.
  assert (imports_ok (set_g_imports d (<[id := r]> (g_imports d)))) as Hok'.
  { apply new_import_ok; subst r; cbn; [done..|lia|by apply completion_trivial]. }
  eapply insert_job_ok; [done|apply lookup_insert_eq|done|].
  proj. by apply new_import_no_job.
Qed.

Lemma requeue_job_ok orgID importID kind t d r :
  imports_ok d -> g_imports d !! importID = Some r -> i_OrgID r = orgID ->
  imports_ok (requeue_job orgID importID kind t d).
Proof.
  intros Hok Hr Ho. unfold requeue_job. destruct (select_one _ _) as [j|] eqn:E; [|by eapply insert_job_ok].
  apply select_one_Some in E as [[k Hk] (_ & _ & Hc)%active_job_true].
  destruct (ok_jobs _ Hok k j Hk) as [<- _].
  eapply put_job_ok; eauto; unfold reset_job; cbn; by rewrite ?Hc.
Qed.

Lemma apply_run_ok run url t r d :
  imports_ok d -> g_imports d !! i_ID r = Some r -> terminal (i_Status r) = false ->
  imports_ok (apply_run run url t r d).
Proof.
  intros Hok Hr Ht. pose proof (ok_attempts _ Hok _ _ Hr) as Hat. unfold apply_run.
  destruct (negb (String.eqb (wr_Status run) _));
    [by eapply put_same_ok; eauto; apply completion_trivial|].
  destruct (negb (String.eqb (wr_Conclusion run) _));
    [by eapply put_same_ok; eauto; apply completion_trivial|].
  destruct (matching_service _ _ _) as [s|] eqn:E;
    [|by eapply put_same_ok; eauto; apply completion_trivial].
  apply matching_service_Some in E as (Hs & Ho & Hdel & _).
  assert (imports_ok (put_import (completed_row (sv_ID s) run t r) d)) as Hok'.
  { apply (put_same_ok _ r); [done..|]. intros _. split; [done|]. exists s. by split_and!. }
  unfold ensure_job. destruct (select_one _ _) eqn:Ej; [done|].
  eapply insert_job_ok; [done| | |done]; [apply lookup_insert_eq|done].
Qed.

(** [imports_ok] is preserved by every operation, whichever of its statements fail. *)
Lemma run_op_ok o w : imports_ok (w_db w) -> imports_ok (w_db (run_op o w)).
Proof.
  intros Hok. destruct o; unfold run_op, after.
  - apply (db_op_post _ imports_ok); [done|]. destruct (_ || _); [done|by_core].
  - apply (db_op_post _ imports_ok); [done|]. repeat case_match; first [done|by_core].
  - apply (db_op_post _ imports_ok); [done|]. repeat case_match; first [done|by_core].
  - apply (db_op_post _ imports_ok); [done|]. destruct (_ || _); [done|by_core].
  - apply (db_op_post _ imports_ok); [done|]. repeat case_match; first [done|by_core].
  - destruct (CreateImport_effect orgID teamID ownerID repo w) as [->|[id ->]]; [done|].
    by apply insert_import_ok.
  - apply (db_write_post _ imports_ok); [done|]. apply update_import_ok; [done|]. by intros r Hr Hc; split_and!.
  - apply (db_write_post _ imports_ok); [done|]. apply update_import_ok; [done|]. 
    intros r Hr Hc. split_and!; [done..|by eapply completion_keep].
  - apply (db_op_post _ imports_ok); [done|]. destruct (find_import _ _ _) as [r|] eqn:E; [|done].
    apply find_import_Some in E as [Hr _]. destruct (resumable r); [|done].
    eapply put_import_ok; eauto; [|by apply completion_trivial].
    pose proof (ok_attempts _ Hok _ _ Hr). cbn. lia.
  - apply (db_op_post _ imports_ok); [done|]. destruct (find_import _ _ _) as [r|] eqn:E; [|done].
    apply find_import_Some in E as [Hr Ho]. destruct (negb _); [done|]. cbn [snd].
    eapply requeue_job_ok; [|apply lookup_insert_eq|done].
    eapply put_import_ok; eauto; [done|by apply completion_trivial].
  - apply (db_op_post _ imports_ok); [done|]. destruct (head _) as [j|] eqn:E; [|done]. cbn [snd].
    destruct (first_by_Some claim_order _ _ _ E) as ([k Hk] & Hc & _).
    destruct (ok_jobs _ Hok k j Hk) as [<- _].
    unfold claimable in Hc. bool_to_prop. by eapply put_job_ok; eauto; cbn; congruence.
  - apply (db_write_post _ imports_ok); [done|]. by apply update_leased_ok.
  - apply (db_write_post _ imports_ok); [done|]. destruct (_ <=? _)%Z; [|by apply update_leased_ok].
    destruct (negb _); [by apply update_leased_ok|].
    apply update_import_ok; [by apply update_leased_ok|]. by intros r Hr Hc; split_and!.
  - apply (db_op_post _ imports_ok); [done|]. destruct (decide _); [done|by_core].
  - unfold ApplyWorkflowRunEvent. destruct (_ || _); [done|]. apply (db_write_post _ imports_ok); [done|].
    destruct (select_one _ _) as [r|] eqn:E; [|done]. destruct (stale _ _ _); [done|].
    apply active_import_found in E as (Hr & _ & Ht); [|done]. by apply apply_run_ok.
  - unfold ApplyWorkflowJobEvent. destruct steps; [done|]. apply (db_write_post _ imports_ok); [done|].
    destruct (select_one _ _) as [r|] eqn:E; [|done]. destruct (stale _ _ _); [done|].
    apply active_import_found in E as (Hr & _ & Ht); [|done]. eapply put_same_ok; eauto.
    + apply (ok_attempts _ Hok _ _ Hr).
    + apply completion_trivial. cbn. intros Hc. by rewrite Hc in Ht.
  - apply (db_op_post _ imports_ok); [done|]. destruct (_ || _) eqn:E; [done|]. bool_to_prop.
    eapply services_kept_ok; [..|exact Hok]; [done..|]. apply new_service_kept. by apply found_false.
  - apply (db_write_post _ imports_ok); [done|]. eapply services_kept_ok; [..|exact Hok]; [done..|].
    apply alter_kept. intros s. by destruct (sv_Deleted s).
  - apply (db_write_post _ imports_ok); [done|]. eapply services_kept_ok; [..|exact Hok]; [done..|].
    by apply alter_kept.
Qed.

(** ** How an operation changes the row of an import *)

Inductive row_effect (k : string) : Op -> ImportRow -> ImportRow -> Prop :=
| re_same o r : row_effect k o r r
| re_queue orgID t r : i_Status r = StateSelected ->
    row_effect k (OpSetImportRunQueued orgID k) r (with_status StateRunQueued t r)
| re_pr orgID url t r :
    row_effect k (OpSetImportPullRequest orgID k url) r (with_pr url (touch_import t r))
| re_resume orgID t r : i_Status r = StateFailed -> i_RunID r <> None ->
    row_effect k (OpResumeImportRun orgID k) r (resume_row t r)
| re_reset orgID t r : i_Status r = StateFailed ->
    row_effect k (OpRetryImport orgID k) r (reset_row t r)
| re_dead job owner next message t r :
    j_Kind job = JobStart -> j_ImportID job = k -> (j_MaxAttempts job <= j_Attempts job)%Z ->
    row_effect k (OpRetryJob job owner next message) r (with_error message (with_status StateFailed t r))
| re_running run url t r :
    active_import (wr_HeadBranch run) r = true -> stale r (wr_ID run) (wr_RunAttempt run) = false ->
    wr_Status run <> "completed" ->
    row_effect k (OpApplyWorkflowRunEvent run url) r (running_row run t r)
| re_failed run url message t r :
    active_import (wr_HeadBranch run) r = true -> stale r (wr_ID run) (wr_RunAttempt run) = false ->
    wr_Status run = "completed" ->
    row_effect k (OpApplyWorkflowRunEvent run url) r (failed_row message run t r)
| re_completed run url serviceID t r :
    active_import (wr_HeadBranch run) r = true -> stale r (wr_ID run) (wr_RunAttempt run) = false ->
    wr_Status run = "completed" -> wr_Conclusion run = "success" ->
    row_effect k (OpApplyWorkflowRunEvent run url) r (completed_row serviceID run t r)
| re_steps branch runID runAttempt steps t r :
    active_import branch r = true -> stale r runID runAttempt = false -> steps <> [] ->
    row_effect k (OpApplyWorkflowJobEvent branch runID runAttempt steps) r (steps_row runID steps t r).

Definition row_step (k : string) (o : Op) (r : ImportRow) (d : GithubDB) : Prop :=
  exists r', g_imports d !! k = Some r' /\ row_effect k o r r'.

Lemma row_step_same k o r d d' :
  g_imports d !! k = Some r -> g_imports d' = g_imports d -> row_step k o r d'.
Proof. intros Hr Hi. exists r. rewrite Hi. split; [done|constructor]. Qed.

Lemma row_step_insert k o r d d' id r0 r' :
  g_imports d !! k = Some r -> g_imports d' = <[id := r']> (g_imports d) ->
  g_imports d !! id = Some r0 -> row_effect id o r0 r' -> row_step k o r d'.
Proof.
  intros Hr Hi H0 He. destruct (decide (id = k)) as [->|Hne].
  - simplify_eq. exists r'. by rewrite Hi, lookup_insert_eq.
  - exists r. rewrite Hi, lookup_insert_ne by done. split; [done|constructor].
Qed.

Lemma update_leased_imports jobID owner f d : g_imports (update_leased jobID owner f d) = g_imports d.
Proof. unfold update_leased. destruct (g_jobs d !! jobID); [|done]. by case_bool_decide. Qed.
Lemma requeue_job_imports orgID importID kind t d :
  g_imports (requeue_job orgID importID kind t d) = g_imports d.
Proof. unfold requeue_job. by destruct (select_one _ _). Qed.
Lemma ensure_job_imports orgID importID kind t d :
  g_imports (ensure_job orgID importID kind t d) = g_imports d.
Proof. unfold ensure_job. by destruct (select_one _ _). Qed.

Lemma update_import_step k o r d d' orgID id cond f :
  g_imports d !! k = Some r -> g_imports d' = g_imports d ->
  (forall r0, cond r0 = true -> row_effect id o r0 (f r0)) ->
  row_step k o r (update_import orgID id cond f d').
Proof.
  intros Hr Hd Hf. unfold update_import. destruct (find_import orgID id d') as [r0|] eqn:E;
    [|by eapply row_step_same].
  apply find_import_Some in E as [H0 _]. destruct (cond r0) eqn:Ec; [|by eapply row_step_same].
  eapply (row_step_insert _ _ _ d); [done|cbn; by rewrite Hd|by rewrite <-Hd|by apply Hf].
Qed.

Lemma apply_run_step k r run url t r0 d :
  g_imports d !! k = Some r -> g_imports d !! i_ID r0 = Some r0 ->
  active_import (wr_HeadBranch run) r0 = true -> stale r0 (wr_ID run) (wr_RunAttempt run) = false ->
  row_step k (OpApplyWorkflowRunEvent run url) r (apply_run run url t r0 d).
Proof.
  intros Hr H0 Ha Hs. unfold apply_run.
  destruct (negb (String.eqb (wr_Status run) _)) eqn:E1; bool_to_prop;
    [by eapply (row_step_insert _ _ _ d); [..|apply re_running]|].
  destruct (negb (String.eqb (wr_Conclusion run) _)) eqn:E2; bool_to_prop;
    [by eapply (row_step_insert _ _ _ d); [..|apply re_failed]|].
  destruct (matching_service _ _ _) as [s|];
    [|by eapply (row_step_insert _ _ _ d); [..|apply re_failed]].
  eapply (row_step_insert _ _ _ d); [done|by rewrite ensure_job_imports|done|by apply re_completed].
Qed.

(** An import is never deleted, and its row changes as [row_effect] says. *)
Lemma run_op_row o w k r :
  imports_ok (w_db w) -> g_imports (w_db w) !! k = Some r -> row_step k o r (w_db (run_op o w)).
Proof.
  intros Hok Hr. assert (row_step k o r (w_db w)) as Hs by by eapply row_step_same.
  destruct o; unfold run_op, after; match type of Hs with row_step _ ?o _ _ => set (op := o) in * end.
  - apply (db_op_post _ (row_step k op r)); [done|]. by destruct (_ || _).
  - apply (db_op_post _ (row_step k op r)); [done|]. by repeat case_match.
  - apply (db_op_post _ (row_step k op r)); [done|]. by repeat case_match.
  - apply (db_op_post _ (row_step k op r)); [done|]. by destruct (_ || _).
  - apply (db_op_post _ (row_step k op r)); [done|]. by repeat case_match.
  - destruct (CreateImport_effect orgID teamID ownerID repo w) as [->|[id ->]]; [done|].
    unfold insert_import. destruct (_ || _) eqn:E; [done|]. bool_to_prop.
    match goal with HF : found (_ !! id) = false |- _ => apply found_false in HF as Hno end.
    exists r. split; [|constructor]. cbn. rewrite lookup_insert_ne; [done|]. intros ->. congruence.
  - apply (db_write_post _ (row_step k op r)); [done|]. eapply update_import_step; [done..|].
    intros r0 Hc. apply re_queue. unfold has_status in Hc. by bool_to_prop.
  - apply (db_write_post _ (row_step k op r)); [done|]. eapply update_import_step; [done..|].
    intros r0 Hc. apply re_pr.
  - apply (db_op_post _ (row_step k op r)); [done|]. destruct (find_import _ _ _) as [r0|] eqn:E; [|done].
    apply find_import_Some in E as [H0 _]. destruct (resumable r0) eqn:Er; [|done].
    unfold resumable, has_status in Er. bool_to_prop.
    match goal with HF : found _ = true |- _ => apply found_true in HF as [v Hv] end.
    eapply (row_step_insert _ _ _ (w_db w)); [done..|]. apply re_resume; [done|congruence].
  - apply (db_op_post _ (row_step k op r)); [done|]. destruct (find_import _ _ _) as [r0|] eqn:E; [|done].
    apply find_import_Some in E as [H0 _]. destruct (negb _) eqn:Ef; [done|].
    unfold has_status in Ef. bool_to_prop. cbn [snd].
    eapply (row_step_insert _ _ _ (w_db w)); [done|by rewrite requeue_job_imports|done|by apply re_reset].
  - apply (db_op_post _ (row_step k op r)); [done|]. by destruct (head _).
  - apply (db_write_post _ (row_step k op r)); [done|]. eapply row_step_same; [done|apply update_leased_imports].
  - apply (db_write_post _ (row_step k op r)); [done|]. destruct (_ <=? _)%Z eqn:E1;
      [|eapply row_step_same; [done|apply update_leased_imports]].
    destruct (negb _) eqn:E2; [eapply row_step_same; [done|apply update_leased_imports]|]. bool_to_prop.
    eapply update_import_step; [done|apply update_leased_imports|]. intros r0 _. by apply re_dead.
  - apply (db_op_post _ (row_step k op r)); [done|]. by destruct (decide _).
  - unfold ApplyWorkflowRunEvent. destruct (_ || _); [done|].
    apply (db_write_post _ (row_step k op r)); [done|].
    destruct (select_one _ _) as [r0|] eqn:E; [|done]. destruct (stale _ _ _) eqn:Es; [done|].
    pose proof (select_one_Some _ _ _ E) as [_ Ha].
    apply active_import_found in E as (H0 & _ & _); [|done]. by apply apply_run_step.
  - unfold ApplyWorkflowJobEvent. destruct steps as [|st l] eqn:El; [done|].
    apply (db_write_post _ (row_step k op r)); [done|].
    destruct (select_one _ _) as [r0|] eqn:E; [|done]. destruct (stale _ _ _) eqn:Es; [done|].
    pose proof (select_one_Some _ _ _ E) as [_ Ha].
    apply active_import_found in E as (H0 & _ & _); [|done].
    eapply (row_step_insert _ _ _ (w_db w)); [done|done|done|]. by apply re_steps.
  - apply (db_op_post _ (row_step k op r)); [done|]. by destruct (_ || _).
  - by apply (db_write_post _ (row_step k op r)).
  - by apply (db_write_post _ (row_step k op r)).
Qed.

(** ** How an operation changes a job *)

Inductive job_effect (t : Z) : Op -> JobRow -> JobRow -> Prop :=
| je_same o j : job_effect t o j j
| je_claim owner lease j : claimable t j = true ->
    job_effect t (OpClaimJob owner lease) j (claim_row owner lease t j)
| je_complete owner message j : jr_LeaseOwner j = Some owner ->
    job_effect t (OpCompleteJob (jr_ID j) owner) j (finish_row message t j)
| je_finish job owner next message j :
    jr_LeaseOwner j = Some owner -> j_ID job = jr_ID j -> (j_MaxAttempts job <= j_Attempts job)%Z ->
    job_effect t (OpRetryJob job owner next message) j (finish_row message t j)
| je_release job owner next message j :
    jr_LeaseOwner j = Some owner -> j_ID job = jr_ID j -> (j_Attempts job < j_MaxAttempts job)%Z ->
    job_effect t (OpRetryJob job owner next message) j (release_row message next j)
| je_reset orgID j : jr_Kind j = JobStart -> jr_CompletedAt j = None ->
    job_effect t (OpRetryImport orgID (jr_ImportID j)) j (reset_job t j).

Definition job_step (t : Z) (id : string) (o : Op) (j : JobRow) (d : GithubDB) : Prop :=
  exists j', g_jobs d !! id = Some j' /\ job_effect t o j j'.

Lemma job_step_same t id o j d d' :
  g_jobs d !! id = Some j -> g_jobs d' = g_jobs d -> job_step t id o j d'.
Proof. intros Hj Hd. exists j. rewrite Hd. split; [done|constructor]. Qed.

Lemma job_step_put t id o j d id0 j0 j' :
  g_jobs d !! id = Some j -> g_jobs d !! id0 = Some j0 -> job_effect t o j0 j' ->
  job_step t id o j (set_g_jobs d (<[id0 := j']> (g_jobs d))).
Proof.
  intros Hj H0 He. destruct (decide (id0 = id)) as [->|Hne].
  - simplify_eq. exists j'. split; [apply lookup_insert_eq|done].
  - exists j. split; [cbn; by rewrite lookup_insert_ne|constructor].
Qed.

Lemma job_step_insert t id o j d orgID importID kind t0 :
  g_jobs d !! id = Some j -> job_step t id o j (insert_job orgID importID kind t0 d).
Proof.
  intros Hj. exists j. split; [|constructor]. cbn. rewrite lookup_insert_ne; [done|].
  intros Hc. pose proof (fresh_job d) as Hf. rewrite Hc in Hf. congruence.
Qed.

Lemma job_step_leased t id o j d jobID owner f :
  g_jobs d !! id = Some j ->
  (forall j0, g_jobs d !! jobID = Some j0 -> jr_LeaseOwner j0 = Some owner -> job_effect t o j0 (f j0)) ->
  job_step t id o j (update_leased jobID owner f d).
Proof.
  intros Hj Hf. unfold update_leased. destruct (g_jobs d !! jobID) as [j0|] eqn:E;
    [|by eapply job_step_same].
  case_bool_decide; [|by eapply job_step_same]. eapply job_step_put; eauto.
Qed.

Lemma job_step_requeue t id j d d0 orgID importID :
  imports_ok d0 -> g_jobs d = g_jobs d0 -> g_jobs d !! id = Some j ->
  job_step t id (OpRetryImport orgID importID) j (requeue_job orgID importID JobStart t d).
Proof.
  intros Hok Hd Hj. unfold requeue_job. destruct (select_one _ _) as [j0|] eqn:E; [|by apply job_step_insert].
  apply select_one_Some in E as [[k Hk] (<- & Hki & Hc)%active_job_true].
  assert (jr_ID j0 = k) as -> by (rewrite Hd in Hk; by destruct (ok_jobs _ Hok k j0 Hk)).
  eapply job_step_put; [done..|]. by apply je_reset.
Qed.

Lemma job_step_update_import t id o j d orgID im cond f :
  job_step t id o j d -> job_step t id o j (update_import orgID im cond f d).
Proof.
  intros (j' & Hj & He). exists j'. split; [|done]. unfold update_import.
  destruct (find_import orgID im d); [|done]. by destruct (cond _).
Qed.

(** A job is never deleted, and its row changes as [job_effect] says. *)
Lemma run_op_job o w id j :
  imports_ok (w_db w) -> g_jobs (w_db w) !! id = Some j ->
  job_step (w_clock w) id o j (w_db (run_op o w)).
Proof.
  intros Hok Hj. assert (job_step (w_clock w) id o j (w_db w)) as Hs by by eapply job_step_same.
  destruct o; unfold run_op, after; match type of Hs with job_step _ _ ?o _ _ => set (op := o) in * end.
  - apply (db_op_post _ (job_step _ id op j)); [done|]. by destruct (_ || _).
  - apply (db_op_post _ (job_step _ id op j)); [done|]. by repeat case_match.
  - apply (db_op_post _ (job_step _ id op j)); [done|]. by repeat case_match.
  - apply (db_op_post _ (job_step _ id op j)); [done|]. by destruct (_ || _).
  - apply (db_op_post _ (job_step _ id op j)); [done|]. by repeat case_match.
  - destruct (CreateImport_effect orgID teamID ownerID repo w) as [->|[im ->]]; [done|].
    unfold insert_import. destruct (_ || _); [done|]. by apply job_step_insert.
  - apply (db_write_post _ (job_step _ id op j)); [done|]. by apply job_step_update_import.
  - apply (db_write_post _ (job_step _ id op j)); [done|]. by apply job_step_update_import.
  - apply (db_op_post _ (job_step _ id op j)); [done|]. destruct (find_import _ _ _); [|done].
    by destruct (resumable _).
  - apply (db_op_post _ (job_step _ id op j)); [done|]. destruct (find_import _ _ _) as [r0|] eqn:E; [|done].
    apply find_import_Some in E as [_ _]. destruct (negb _); [done|]. cbn [snd].
    by apply (job_step_requeue _ _ _ _ (w_db w)).
  - apply (db_op_post _ (job_step _ id op j)); [done|]. destruct (head _) as [j0|] eqn:E; [|done]. cbn [snd].
    destruct (first_by_Some claim_order _ _ _ E) as ([k Hk] & Hc & _).
    destruct (ok_jobs _ Hok k j0 Hk) as [<- _]. eapply job_step_put; [done..|]. by apply je_claim.
  - apply (db_write_post _ (job_step _ id op j)); [done|]. apply job_step_leased; [done|].
    intros j0 H0 Hl. destruct (ok_jobs _ Hok _ _ H0) as [<- _]. by apply je_complete.
  - apply (db_write_post _ (job_step _ id op j)); [done|].
    destruct (_ <=? _)%Z eqn:E1; bool_to_prop; [|apply job_step_leased; [done|]].
    + assert (job_step (w_clock w) id op j
        (update_leased (j_ID job) owner (finish_row message (w_clock w)) (w_db w))) as Hf.
      { apply job_step_leased; [done|]. intros j0 H0 Hl. destruct (ok_jobs _ Hok _ _ H0) as [Hid _].
        by apply je_finish. }
      destruct (negb _); [done|by apply job_step_update_import].
    + intros j0 H0 Hl. destruct (ok_jobs _ Hok _ _ H0) as [Hid _]. by apply je_release.
  - apply (db_op_post _ (job_step _ id op j)); [done|]. by destruct (decide _).
  - unfold ApplyWorkflowRunEvent. destruct (_ || _); [done|].
    apply (db_write_post _ (job_step _ id op j)); [done|].
    destruct (select_one _ _) as [r0|]; [|done]. destruct (stale _ _ _); [done|].
    unfold apply_run. destruct (negb _); [done|]. destruct (negb _); [done|].
    destruct (matching_service _ _ _); [|done]. unfold ensure_job.
    destruct (select_one _ _); [done|by apply job_step_insert].
  - unfold ApplyWorkflowJobEvent. destruct steps as [|st l] eqn:El; [done|].
    apply (db_write_post _ (job_step _ id op j)); [done|].
    destruct (select_one _ _) as [r0|]; [|done]. by destruct (stale _ _ _).
  - apply (db_op_post _ (job_step _ id op j)); [done|]. by destruct (_ || _).
  - by apply (db_write_post _ (job_step _ id op j)).
  - by apply (db_write_post _ (job_step _ id op j)).
Qed.

(** ** Traces *)

Lemma db_op_clock_snd {DB A} (f : Z -> DB -> result store_err A * DB) w :
  w_clock (db_op f w).2 = w_clock w.
Proof. destruct (db_op f w) eqn:E. by apply db_op_clock in E. Qed.

Lemma run_op_clock o w : w_clock (run_op o w) = w_clock w.
Proof.
  destruct o; unfold run_op, after; try apply db_op_clock_snd.
  - unfold CreateImport. apply (wp_func _ (fun _ w' => w_clock w' = w_clock w)). wp_step.
    destruct (db_op _ w) as [[[]|e] w1] eqn:E1; apply db_op_clock in E1; [|done].
    wp_step. unfold new_uuid. pose proof (rand_read_clock 16 w1) as T2.
    destruct (rand_read 16 w1) as [[b|e] w2]; cbn in T2; [|congruence].
    wp_step. destruct (db_op (insert_import _ _ _ _ _) w2) as [[u|e] w3] eqn:E3;
      apply db_op_clock in E3; wp_step; [|congruence].
    unfold GetImport. rewrite db_op_clock_snd. congruence.
  - unfold ApplyWorkflowRunEvent. destruct (_ || _); [done|apply db_op_clock_snd].
  - unfold ApplyWorkflowJobEvent. destruct steps; [done|apply db_op_clock_snd].
Qed.

Lemma run_ops_app ops1 ops2 w : run_ops (ops1 ++ ops2) w = run_ops ops2 (run_ops ops1 w).
Proof. apply fold_left_app. Qed.

Lemma run_ops_snoc ops o w : run_ops (ops ++ [o]) w = (time_now (run_op o (run_ops ops w))).2.
Proof. by rewrite run_ops_app. Qed.

Lemma run_ops_step_db ops o w : w_db (run_ops (ops ++ [o]) w) = w_db (run_op o (run_ops ops w)).
Proof. by rewrite run_ops_snoc, time_now_db. Qed.

Lemma run_ops_step_clock ops o w : (w_clock (run_ops ops w) <= w_clock (run_ops (ops ++ [o]) w))%Z.
Proof.
  rewrite run_ops_snoc. pose proof (time_now_clock (run_op o (run_ops ops w))) as [E Hle].
  rewrite run_op_clock in Hle. lia.
Qed.

Lemma run_ops_ok ops w : imports_ok (w_db w) -> imports_ok (w_db (run_ops ops w)).
Proof.
  intros Hok. induction ops as [|o ops IH] using rev_ind; [done|].
  rewrite run_ops_step_db. by apply run_op_ok.
Qed.

Lemma empty_imports_ok d : g_imports d = ∅ -> g_jobs d = ∅ -> imports_ok d.
Proof. intros Hi Hj. split; rewrite ?Hi, ?Hj; intros *; rewrite ?lookup_empty; done. Qed.

(** ** The life cycle of an import *)

(** The moves of the status, by operation. *)
Definition edge (k : string) (o : Op) (s s' : State) : bool :=
  match o with
  | OpSetImportRunQueued _ id =>
      String.eqb id k && bool_decide (s = StateSelected) && bool_decide (s' = StateRunQueued)
  | OpResumeImportRun _ id =>
      String.eqb id k && bool_decide (s = StateFailed) && bool_decide (s' = StateRunRunning)
  | OpRetryImport _ id =>
      String.eqb id k && bool_decide (s = StateFailed) && bool_decide (s' = StateSelected)
  | OpRetryJob job _ _ _ =>
      String.eqb (j_ImportID job) k && String.eqb (j_Kind job) JobStart &&
      (j_MaxAttempts job <=? j_Attempts job)%Z && bool_decide (s' = StateFailed)
  | OpApplyWorkflowRunEvent run _ =>
      String.eqb (wr_HeadBranch run) (Branch k) && negb (terminal s) &&
      match s' with
      | StateRunRunning => negb (String.eqb (wr_Status run) "completed")
      | StateFailed => String.eqb (wr_Status run) "completed"
      | StateCompleted =>
          String.eqb (wr_Status run) "completed" && String.eqb (wr_Conclusion run) "success"
      | _ => false
      end
  | _ => false
  end.

(** The columns no operation writes. *)
Definition same_identity (r r' : ImportRow) : Prop :=
  i_ID r' = i_ID r /\ i_OrgID r' = i_OrgID r /\ i_OwnerID r' = i_OwnerID r /\ i_Repo r' = i_Repo r /\
  i_TeamID r' = i_TeamID r /\ i_Branch r' = i_Branch r /\ i_CreatedAt r' = i_CreatedAt r.

Lemma active_import_true branch r :
  active_import branch r = true <-> i_Branch r = branch /\ terminal (i_Status r) = false.
Proof. unfold active_import. rewrite andb_true_iff, String.eqb_eq, negb_true_iff. done. Qed.

Lemma row_effect_edge k o r r' :
  i_Branch r = Branch k -> row_effect k o r r' ->
  same_identity r r' /\ (i_Status r' = i_Status r \/ edge k o (i_Status r) (i_Status r') = true).
Proof.
  intros Hb He. destruct He as [o r|orgID t r Hs|orgID url t r|orgID t r Hs Hn|orgID t r Hs
    |job owner next message t r Hj Hi Ha|run url t r Ha Hst Hs|run url message t r Ha Hst Hs
    |run url sid t r Ha Hst Hs Hc|branch runID at_ steps t r Ha Hst Hn];
    (split; [by split_and!|]); cbn; try (by left); right; rewrite ?Hs; cbn.
  - by rewrite String.eqb_refl.
  - by rewrite String.eqb_refl.
  - by rewrite String.eqb_refl.
  - rewrite Hi, Hj, !String.eqb_refl. apply Z.leb_le in Ha. by rewrite Ha.
  - apply active_import_true in Ha as [<- Ht]. rewrite Ht, Hb, String.eqb_refl. cbn.
    by apply String.eqb_neq in Hs as ->.
  - apply active_import_true in Ha as [<- Ht]. by rewrite Ht, Hb, String.eqb_refl.
  - apply active_import_true in Ha as [<- Ht]. by rewrite Ht, Hb, Hc, !String.eqb_refl.
Qed.

Lemma life_cycle_spec o w k r :
  imports_ok (w_db w) -> g_imports (w_db w) !! k = Some r ->
  exists r', g_imports (w_db (run_op o w)) !! k = Some r' /\ same_identity r r' /\
    (i_Status r' = i_Status r \/ edge k o (i_Status r) (i_Status r') = true).
Proof.
  intros Hok Hr. destruct (run_op_row o w k r Hok Hr) as (r' & Hr' & He).
  destruct (ok_ids _ Hok k r Hr) as [_ Hb]. destruct (row_effect_edge k o r r' Hb He). eauto.
Qed.

(** A worker that gives up on the start job of the import [k]. *)
Definition gives_up (k : string) (o : Op) : bool :=
  match o with
  | OpRetryJob job _ _ _ =>
      String.eqb (j_ImportID job) k && String.eqb (j_Kind job) JobStart &&
      (j_MaxAttempts job <=? j_Attempts job)%Z
  | _ => false
  end.

(** [r'] is [r] but for the pull request and the time of the last change. *)
Definition up_to_pr (r r' : ImportRow) : Prop := exists url t, r' = with_pr url (touch_import t r).

Lemma up_to_pr_refl r : up_to_pr r r.
Proof. exists (i_PRURL r), (i_UpdatedAt r). by destruct r. Qed.

Lemma up_to_pr_trans r1 r2 r3 : up_to_pr r1 r2 -> up_to_pr r2 r3 -> up_to_pr r1 r3.
Proof. intros (u1 & t1 & ->) (u2 & t2 & ->). by exists u2, t2. Qed.

Lemma completed_effect k o r r' :
  i_Status r = StateCompleted -> gives_up k o = false -> row_effect k o r r' -> up_to_pr r r'.
Proof.
  intros Hr Hg He. destruct He as [o r|orgID t r Hs|orgID url t r|orgID t r Hs Hn|orgID t r Hs
    |job owner next message t r Hj Hi Ha|run url t r Ha Hst Hs|run url message t r Ha Hst Hs
    |run url sid t r Ha Hst Hs Hc|branch runID at_ steps t r Ha Hst Hn]; try congruence;
    try (apply active_import_true in Ha as [_ Ht]; by rewrite Hr in Ht).
  - apply up_to_pr_refl.
  - by exists url, t.
  - cbn in Hg. rewrite Hi, Hj, !String.eqb_refl in Hg. apply Z.leb_le in Ha. by rewrite Ha in Hg.
Qed.

Lemma completed_final_spec ops w k r :
  imports_ok (w_db w) -> g_imports (w_db w) !! k = Some r -> i_Status r = StateCompleted ->
  forallb (fun o => negb (gives_up k o)) ops = true ->
  exists r', g_imports (w_db (run_ops ops w)) !! k = Some r' /\ up_to_pr r r'.
Proof.
  intros Hok Hr Hs. induction ops as [|o ops IH] using rev_ind; intros Hg.
  - exists r. split; [done|apply up_to_pr_refl].
  - rewrite forallb_app in Hg. cbn in Hg. bool_to_prop.
    destruct IH as (r1 & Hr1 & Hu1); [done|]. rewrite run_ops_step_db.
    destruct (run_op_row o (run_ops ops w) k r1) as (r2 & Hr2 & He); [by apply run_ops_ok|done|].
    exists r2. split; [done|]. eapply up_to_pr_trans; [done|].
    eapply completed_effect; [|done|done]. destruct Hu1 as (u & t & ->). done.
Qed.

(** ** Leases *)

Definition held (owner : string) (until : Z) (importID id : string) (d : GithubDB) : Prop :=
  exists j, g_jobs d !! id = Some j /\ jr_CompletedAt j = None /\ jr_ImportID j = importID /\
    jr_LeaseOwner j = Some owner /\ jr_LeaseExpiresAt j = Some until.

(** The operations that end a lease before its time. *)
Definition ends_lease (owner importID id : string) (o : Op) : bool :=
  match o with
  | OpCompleteJob jobID owner' => String.eqb jobID id && String.eqb owner' owner
  | OpRetryJob job owner' _ _ => String.eqb (j_ID job) id && String.eqb owner' owner
  | OpRetryImport _ im => String.eqb im importID
  | _ => false
  end.

Lemma claimable_expired t j until :
  jr_LeaseExpiresAt j = Some until -> claimable t j = true -> (until < t)%Z.
Proof. unfold claimable. intros -> Hc. by bool_to_prop. Qed.

Lemma held_step o w owner until importID id :
  imports_ok (w_db w) -> held owner until importID id (w_db w) -> (w_clock w <= until)%Z ->
  ends_lease owner importID id o = false -> held owner until importID id (w_db (run_op o w)).
Proof.
  intros Hok (j & Hj & Hc & Him & Ho & Hu) Ht He.
  destruct (run_op_job o w id j Hok Hj) as (j' & Hj' & Hs).
  destruct (ok_jobs _ Hok id j Hj) as [Hid _].
  destruct Hs as [o j|owner' lease j Hcl|owner' message j Hl|job owner' next message j Hl Hjid Ha
    |job owner' next message j Hl Hjid Ha|orgID j Hk Hn]; [by exists j| | | | |].
  - apply (claimable_expired _ _ until) in Hcl; [lia|done].
  - cbn in He. assert (owner' = owner) as -> by congruence. by rewrite Hid, !String.eqb_refl in He.
  - cbn in He. assert (owner' = owner) as -> by congruence. by rewrite Hjid, Hid, !String.eqb_refl in He.
  - cbn in He. assert (owner' = owner) as -> by congruence. by rewrite Hjid, Hid, !String.eqb_refl in He.
  - cbn in He. by rewrite Him, String.eqb_refl in He.
Qed.

Lemma held_trace ops w owner until importID id :
  imports_ok (w_db w) -> held owner until importID id (w_db w) ->
  (w_clock (run_ops ops w) <= until)%Z ->
  forallb (fun o => negb (ends_lease owner importID id o)) ops = true ->
  held owner until importID id (w_db (run_ops ops w)).
Proof.
  intros Hok Hh. induction ops as [|o ops IH] using rev_ind; intros Ht Hg; [done|].
  rewrite forallb_app in Hg. cbn in Hg. bool_to_prop. pose proof (run_ops_step_clock ops o w).
  rewrite run_ops_step_db. apply held_step; [by apply run_ops_ok|apply IH; [lia|done]|lia|done].
Qed.


(** ** Webhook events *)

Lemma Branch_inj a b : Branch a = Branch b -> a = b.
Proof. unfold Branch. cbn. by intros [= ->]. Qed.

(** The branch names one import at most. *)
Lemma active_import_unique d k r branch :
  imports_ok d -> g_imports d !! k = Some r -> branch = Branch k ->
  select_one (active_import branch) (g_imports d) = if terminal (i_Status r) then None else Some r.
Proof.
  intros Hok Hr ->. destruct (ok_ids _ Hok k r Hr) as [Hid Hb].
  assert (forall k' r', g_imports d !! k' = Some r' -> active_import (Branch k) r' = true -> r' = r) as Hu.
  { intros k' r' Hk' [Hb' _]%active_import_true. destruct (ok_ids _ Hok k' r' Hk') as [_ Hb2].
    rewrite Hb2 in Hb'. apply Branch_inj in Hb' as ->. congruence. }
  destruct (terminal (i_Status r)) eqn:Et.
  - apply select_one_None. intros k' r' Hk'. apply not_true_iff_false. intros Ha.
    pose proof (Hu _ _ Hk' Ha) as ->. apply active_import_true in Ha as [_ ?]. congruence.
  - eapply select_one_unique; [done| |done]. by apply active_import_true.
Qed.

(** Events for a finished import leave every table as it is. *)
Lemma late_events_spec w k r run url runID runAttempt steps :
  imports_ok (w_db w) -> g_imports (w_db w) !! k = Some r -> terminal (i_Status r) = true ->
  wr_HeadBranch run = Branch k ->
  w_db (run_op (OpApplyWorkflowRunEvent run url) w) = w_db w /\
  w_db (run_op (OpApplyWorkflowJobEvent (Branch k) runID runAttempt steps) w) = w_db w.
Proof.
  intros Hok Hr Ht Hb. split; unfold run_op, after.
  - unfold ApplyWorkflowRunEvent. destruct (_ || _); [done|].
    apply (db_write_post _ (fun d => d = w_db w)); [done|].
    by rewrite (active_import_unique _ k r _ Hok Hr Hb), Ht.
  - unfold ApplyWorkflowJobEvent. destruct steps; [done|].
    apply (db_write_post _ (fun d => d = w_db w)); [done|].
    by rewrite (active_import_unique _ k r _ Hok Hr eq_refl), Ht.
Qed.

(** What a workflow run event does, for the import [k] of its branch. *)
Definition run_outcome (run : WorkflowRun) (url : string) (k : string) (r r' : ImportRow)
    (d d' : GithubDB) : Prop :=
  match i_Status r' with
  | StateRunRunning => wr_Status run <> "completed" /\ found (i_RunStartedAt r') = true /\ g_jobs d' = g_jobs d
  | StateFailed =>
      wr_Status run = "completed" /\ i_Error r' <> EmptyString /\ g_jobs d' = g_jobs d /\
      (wr_Conclusion run = "success" -> forall id s, g_services d !! id = Some s ->
         sv_OrgID s = i_OrgID r -> git_key (sv_GitRepoURL s) = git_key url -> sv_Deleted s = true)
  | StateCompleted =>
      wr_Status run = "completed" /\ wr_Conclusion run = "success" /\
      (exists s, s ∈ rows (g_services d) /\ sv_ID s = i_ServiceID r' /\ sv_OrgID s = i_OrgID r /\
         sv_Deleted s = false /\ git_key (sv_GitRepoURL s) = git_key url) /\
      exists id j, g_jobs d' !! id = Some j /\ active_job k JobOpenPR j = true /\
        (forall id2 j2, g_jobs d' !! id2 = Some j2 -> active_job k JobOpenPR j2 = true -> id2 = id)
  | _ => False
  end.

Lemma apply_run_outcome run url t k r d :
  imports_ok d -> g_imports d !! k = Some r -> terminal (i_Status r) = false ->
  let d' := apply_run run url t r d in
  exists r', g_imports d' = <[k := r']> (g_imports d) /\ i_RunID r' = Some (wr_ID run) /\
    run_outcome run url k r r' d d'.
Proof.
  intros Hok Hr Ht. assert (imports_ok (apply_run run url t r d)) as Hok'.
  { apply apply_run_ok; [done| |done]. by destruct (ok_ids _ Hok k r Hr) as [-> _]. }
  revert Hok'. destruct (ok_ids _ Hok k r Hr) as [Hid _]. cbn zeta. unfold apply_run, put_import.
  destruct (negb (String.eqb (wr_Status run) _)) eqn:E1; bool_to_prop.
  { intros _. exists (running_row run t r). split_and!; [cbn; by rewrite Hid|done|].
    split_and!; [done| |done]. cbn. by destruct (i_RunStartedAt r). }
  destruct (negb (String.eqb (wr_Conclusion run) _)) eqn:E2; bool_to_prop.
  { intros _. exists (failed_row run_failed_message run t r). split_and!; [cbn; by rewrite Hid|done|].
    by split_and!. }
  destruct (matching_service _ _ _) as [s|] eqn:Es; intros Hok'.
  - apply matching_service_Some in Es as (Hs & Ho & Hdel & Hk). exists (completed_row (sv_ID s) run t r).
    split_and!; [rewrite ensure_job_imports; cbn; by rewrite Hid|done|].
    split_and!; [done|done|by exists s|]. revert Hok'. unfold ensure_job. rewrite Hid.
    destruct (select_one _ _) as [j|] eqn:Ej; intros Hok'.
    + apply select_one_Some in Ej as [[id Hj] Ha]. exists id, j. split_and!; [done..|].
      intros id2 j2 H2 Ha2. by eapply (ok_active _ Hok').
    + eexists _, _. split_and!; [apply lookup_insert_eq|by apply active_job_true|].
      intros id2 j2 H2 Ha2. eapply (ok_active _ Hok'); [done|apply lookup_insert_eq|done|].
      by apply active_job_true.
  - exists (failed_row no_service_message run t r). split_and!; [cbn; by rewrite Hid|done|].
    split_and!; [done|done|done|]. intros _ id s Hs Ho Hk. unfold matching_service in Es.
    rewrite first_by_None in Es. specialize (Es id s Hs). cbn in Es.
    rewrite Ho, Hk, !String.eqb_refl in Es. by destruct (sv_Deleted s).
Qed.

Lemma run_event_spec run url w w' :
  imports_ok (w_db w) -> ApplyWorkflowRunEvent run url w = (Ok tt, w') ->
  (w_db w' = w_db w /\
     (wr_Event run <> "push" \/ IsOnboardingWorkflowPath (wr_Path run) = false \/
      forall k r, g_imports (w_db w) !! k = Some r -> wr_HeadBranch run = Branch k ->
        terminal (i_Status r) = true \/ stale r (wr_ID run) (wr_RunAttempt run) = true)) \/
  exists k r r', g_imports (w_db w) !! k = Some r /\ wr_HeadBranch run = Branch k /\
    terminal (i_Status r) = false /\ stale r (wr_ID run) (wr_RunAttempt run) = false /\
    g_imports (w_db w') = <[k := r']> (g_imports (w_db w)) /\ i_RunID r' = Some (wr_ID run) /\
    run_outcome run url k r r' (w_db w) (w_db w').
Proof.
  intros Hok. unfold ApplyWorkflowRunEvent. destruct (_ || _) eqn:E0.
  { intros [= <-]. left. split; [done|]. apply orb_true_iff in E0 as [E0|E0]; bool_to_prop; auto. }
  intros Hw%db_write_ok. destruct (select_one _ _) as [r|] eqn:E.
  - destruct (active_import_found _ _ _ Hok E) as (Hr & Hb & Ht). destruct (stale _ _ _) eqn:Est.
    + left. split; [done|]. right; right. intros k r0 H0 Hk. rewrite Hb in Hk. apply Branch_inj in Hk as <-.
      simplify_eq. by right.
    + right. destruct (apply_run_outcome run url (w_clock w) (i_ID r) r (w_db w) Hok Hr Ht)
        as (r' & Hi & Hrun & Ho). rewrite <-Hw in Hi, Ho. by exists (i_ID r), r, r'.
  - left. split; [done|]. right; right. intros k r0 H0 Hk. left.
    rewrite (active_import_unique _ k r0 _ Hok H0 Hk) in E. by destruct (terminal (i_Status r0)).
Qed.

(** A run superseded by a new one with a smaller attempt number than the
    import's: its first event is taken, every later one is stale. *)
Lemma superseded_spec w w' k r run run2 url url2 :
  imports_ok (w_db w) -> g_imports (w_db w) !! k = Some r -> terminal (i_Status r) = false ->
  wr_HeadBranch run = Branch k -> wr_Event run = "push" -> IsOnboardingWorkflowPath (wr_Path run) = true ->
  wr_Status run <> "completed" ->
  (default 0 (i_RunID r) < wr_ID run)%Z -> (1 <= wr_RunAttempt run2 < i_RunAttempt r)%Z ->
  wr_ID run2 = wr_ID run -> wr_HeadBranch run2 = Branch k ->
  ApplyWorkflowRunEvent run url w = (Ok tt, w') ->
  (exists r', g_imports (w_db w') !! k = Some r' /\ i_Status r' = StateRunRunning /\
     i_RunAttempt r' = i_RunAttempt r /\ i_RunID r' = Some (wr_ID run)) /\
  w_db (run_op (OpApplyWorkflowRunEvent run2 url2) w') = w_db w'.
Proof.
  intros Hok Hr Ht Hb Hev Hp Hs Hid Hat Hid2 Hb2. unfold ApplyWorkflowRunEvent at 1.
  rewrite Hev, Hp. cbn [negb orb String.eqb]. intros Hw%db_write_ok.
  pose proof (active_import_unique _ k r _ Hok Hr Hb) as Hsel. rewrite Ht in Hsel. rewrite Hsel in Hw.
  assert (stale r (wr_ID run) (wr_RunAttempt run) = false) as Hst.
  { unfold stale. apply Z.lt_nge in Hid as Hn. destruct (_ <? _)%Z eqn:E1; bool_to_prop; [lia|].
    destruct (Z.eqb _ _) eqn:E2; bool_to_prop; [lia|done]. }
  rewrite Hst in Hw. unfold apply_run in Hw. apply String.eqb_neq in Hs. rewrite Hs in Hw. cbn [negb] in Hw.
  destruct (ok_ids _ Hok k r Hr) as [Hk _].
  set (r' := running_row run (w_clock w) r) in *.
  assert (g_imports (w_db w') !! k = Some r') as Hr'.
  { rewrite Hw. unfold put_import. cbn. rewrite Hk. apply lookup_insert_eq. }
  split; [exists r'; by split_and!|].
  assert (imports_ok (w_db w')) as Hok'.
  { rewrite Hw. apply (put_same_ok _ r); [done|by rewrite Hk|done..| |by apply completion_trivial].
    apply (ok_attempts _ Hok _ _ Hr). }
  unfold run_op, after, ApplyWorkflowRunEvent. destruct (_ || _); [done|].
  apply (db_write_post _ (fun d => d = w_db w')); [done|].
  rewrite (active_import_unique _ k r' _ Hok' Hr' Hb2). change (terminal (i_Status r')) with false. cbv beta iota.
  assert (stale r' (wr_ID run2) (wr_RunAttempt run2) = true) as ->; [|done].
  unfold stale, r'. cbn. rewrite Hid2, Z.eqb_refl. apply orb_true_iff. right.
  destruct (Z.eqb _ 0) eqn:E0; bool_to_prop; [lia|]. apply Z.ltb_lt. lia.
Qed.

(** ** The steps of a run *)

Definition incoming (steps : list Step) (s : Step) : bool :=
  existsb (fun n => Z.eqb (st_JobID n) (st_JobID s)) steps.

Lemma merge_steps_eq current steps :
  merge_steps current steps =
  sort_stable step_order (List.filter (fun s => negb (incoming steps s)) current ++ steps).
Proof. done. Qed.

Lemma incoming_true steps s : incoming steps s = true <-> exists n, n ∈ steps /\ st_JobID n = st_JobID s.
Proof.
  unfold incoming. rewrite existsb_exists. split; intros (n & Hn & He); exists n.
  - bool_to_prop. by apply list_elem_of_In in Hn.
  - split; [by apply list_elem_of_In|by apply Z.eqb_eq].
Qed.

Lemma filter_elem {A} (p : A -> bool) l x : x ∈ List.filter p l <-> x ∈ l /\ p x = true.
Proof. rewrite !list_elem_of_In. apply List.filter_In. Qed.

Lemma filter_none {A} (p : A -> bool) l : (forall x, x ∈ l -> p x = false) -> List.filter p l = [].
Proof.
  induction l as [|x l IH]; intros Hp; cbn; [done|]. rewrite (Hp x) by left.
  apply IH. intros y Hy. apply Hp. by right.
Qed.

Lemma filter_all {A} (p : A -> bool) l : (forall x, x ∈ l -> p x = true) -> List.filter p l = l.
Proof.
  induction l as [|x l IH]; intros Hp; cbn; [done|]. rewrite (Hp x) by left. f_equal.
  apply IH. intros y Hy. apply Hp. by right.
Qed.

Lemma filter_filter_comm {A} (p q : A -> bool) l :
  List.filter p (List.filter q l) = List.filter q (List.filter p l).
Proof.
  induction l as [|x l IH]; cbn; [done|].
  destruct (q x) eqn:Eq, (p x) eqn:Ep; cbn; rewrite ?Ep, ?Eq, ?IH; done.
Qed.

Lemma merge_merge current A B :
  (forall a b, a ∈ A -> b ∈ B -> st_JobID a <> st_JobID b) ->
  merge_steps (merge_steps current A) B =
  sort_stable step_order
    (List.filter (fun s => negb (incoming B s)) (List.filter (fun s => negb (incoming A s)) current) ++ A ++ B).
Proof.
  intros Hd. rewrite !merge_steps_eq, filter_sort_stable, List.filter_app by apply _.
  rewrite (filter_all _ A).
  - rewrite sort_stable_app_sort by apply _. by rewrite <-app_assoc.
  - intros a Ha. apply negb_true_iff, not_true_iff_false. intros (b & Hb & He)%incoming_true.
    by apply (Hd a b).
Qed.

Lemma step_order_total x y :
  st_JobID x <> st_JobID y -> step_order x y = true \/ step_order y x = true.
Proof.
  intros Hne. unfold step_order, then_by, by_key.
  destruct (st_JobID x <? st_JobID y)%Z eqn:E1; [by left|].
  destruct (st_JobID y <? st_JobID x)%Z eqn:E2; [by right|]. bool_to_prop. lia.
Qed.

Lemma merge_steps_spec current A B :
  sorted_by step_order (merge_steps current A) /\
  (forall s, s ∈ merge_steps current A <->
     s ∈ A \/ (s ∈ current /\ forall a, a ∈ A -> st_JobID a <> st_JobID s)) /\
  merge_steps (merge_steps current A) A = merge_steps current A /\
  ((forall a b, a ∈ A -> b ∈ B -> st_JobID a <> st_JobID b) ->
     merge_steps (merge_steps current A) B = merge_steps (merge_steps current B) A).
Proof.
  split_and!.
  - apply sort_stable_sorted. apply _.
  - intros s. rewrite merge_steps_eq, sort_stable_elem, elem_of_app.
    rewrite filter_elem, negb_true_iff, <-not_true_iff_false, incoming_true. naive_solver.
  - rewrite !merge_steps_eq, filter_sort_stable, List.filter_app by apply _.
    rewrite (filter_none _ A).
    + rewrite app_nil_r, sort_stable_app_sort by apply _. do 2 f_equal.
      apply filter_all. by intros s [_ Hs]%filter_elem.
    + intros a Ha. apply negb_false_iff, incoming_true. eauto.
  - intros Hd. rewrite (merge_merge _ A B Hd), (merge_merge _ B A) by (intros b a ?? ?; by apply (Hd a b)).
    rewrite filter_filter_comm, !(sort_stable_app _ (List.filter _ _)). f_equal.
    apply sort_stable_swap; [apply _|]. intros a b Ha Hb. apply step_order_total. auto.
Qed.

(** ** Claiming *)

Lemma ClaimJob_spec owner lease w o w' :
  imports_ok (w_db w) -> ClaimJob owner lease w = (Ok o, w') ->
  match o with
  | Some job => exists j, g_jobs (w_db w) !! j_ID job = Some j /\ claimable (w_clock w) j = true /\
      (forall id2 j2, g_jobs (w_db w) !! id2 = Some j2 -> claimable (w_clock w) j2 = true ->
         claim_order j2 j = false) /\
      j_Attempts job = (jr_Attempts j + 1)%Z /\
      held owner (w_clock w + lease) (jr_ImportID j) (j_ID job) (w_db w') /\
      g_imports (w_db w') = g_imports (w_db w)
  | None => w_db w' = w_db w /\
      forall id j, g_jobs (w_db w) !! id = Some j -> claimable (w_clock w) j = false
  end.
Proof.
  intros Hok Hc%db_op_ok. destruct (head _) as [j|] eqn:E; simplify_eq/=.
  - destruct (first_by_Some claim_order _ _ _ E) as ([k Hk] & Hcl & Hmin).
    destruct (ok_jobs _ Hok k j Hk) as [<- _]. exists j.
    match goal with Hd : _ = w_db w' |- _ => rewrite <-Hd end. cbn. split_and!; [done..| |done].
    eexists. split; [apply lookup_insert_eq|]. cbn. unfold claimable in Hcl. bool_to_prop.
    split_and!; [by apply found_false|done..].
  - split; [done|]. rewrite first_by_None in E. done.
Qed.

Lemma lease_spec ops w owner lease job w' :
  imports_ok (w_db w) -> ClaimJob owner lease w = (Ok (Some job), w') ->
  forallb (fun o => negb (ends_lease owner (j_ImportID job) (j_ID job) o)) ops = true ->
  (w_clock (run_ops ops w') <= w_clock w + lease)%Z ->
  held owner (w_clock w + lease) (j_ImportID job) (j_ID job) (w_db (run_ops ops w')) /\
  forall owner2 lease2 job2 w2,
    ClaimJob owner2 lease2 (run_ops ops w') = (Ok (Some job2), w2) -> j_ID job2 <> j_ID job.
Proof.
  intros Hok Hc Hg Ht.
  assert (imports_ok (w_db w')) as Hok'.
  { replace w' with (run_op (OpClaimJob owner lease) w) by (unfold run_op, after; by rewrite Hc).
    by apply run_op_ok. }
  destruct (ClaimJob_spec _ _ _ _ _ Hok Hc) as (j & Hj & _ & _ & _ & Hh & _).
  assert (jr_ImportID j = j_ImportID job) as Him.
  { apply db_op_ok in Hc. destruct (head _) as [j0|] eqn:E; simplify_eq/=.
    destruct (first_by_Some claim_order _ _ _ E) as ([k Hk] & _ & _).
    destruct (ok_jobs _ Hok k j0 Hk) as [<- _]. by simplify_eq. }
  rewrite Him in Hh. pose proof (held_trace ops w' _ _ _ _ Hok' Hh Ht Hg) as Hh'. split; [done|].
  intros owner2 lease2 job2 w2 Hc2 Heq.
  destruct (ClaimJob_spec _ _ _ _ _ (run_ops_ok ops w' Hok') Hc2) as (j2 & Hj2 & Hcl & _).
  destruct Hh' as (j3 & Hj3 & _ & _ & _ & Hu). rewrite Heq in Hj2. simplify_eq.
  apply (claimable_expired _ _ _ Hu) in Hcl. lia.
Qed.

(** ** The properties *)

(** (C5) Well-formed tables, after any sequence of the import's operations and the
    catalog's on services - created, given another repository, deleted -
    whichever statements fail: every import has its own branch, every job an
    import of its organization, a finished job no lease, an import and kind at
    most one unfinished job, and a completed import names a service of its
    organization (its row: the service may have been deleted since). *)
Theorem reachable_imports_ok ops w :
  g_imports (w_db w) = ∅ -> g_jobs (w_db w) = ∅ -> imports_ok (w_db (run_ops ops w)).
Proof. intros Hi Hj. by apply run_ops_ok, empty_imports_ok. Qed.

(** (C6) The life cycle: an operation keeps an import and the columns that
    identify it, and moves its status along an [edge] of that operation or not
    at all - so only the worker queues a run, only a failed import is retried or
    resumed, only a run event of the import's own branch completes it. *)
Theorem import_life_cycle o w k r :
  imports_ok (w_db w) -> g_imports (w_db w) !! k = Some r ->
  exists r', g_imports (w_db (run_op o w)) !! k = Some r' /\ same_identity r r' /\
    (i_Status r' = i_Status r \/ edge k o (i_Status r) (i_Status r') = true).
Proof. apply life_cycle_spec. Qed.

(** (lemma) A completed import is final: whatever events and requests follow, its
    row changes only in the pull request's URL and the time of the change,
    unless a worker gives up on its start job. *)
Theorem completed_is_final ops w k r :
  imports_ok (w_db w) -> g_imports (w_db w) !! k = Some r -> i_Status r = StateCompleted ->
  forallb (fun o => negb (gives_up k o)) ops = true ->
  exists r', g_imports (w_db (run_ops ops w)) !! k = Some r' /\ up_to_pr r r'.
Proof. apply completed_final_spec. Qed.

(** (C10) A workflow run event that is stored: nothing changes when the event is
    not a push of the onboarding workflow, names no unfinished import or is
    stale; otherwise exactly one import row changes, it records the run, and its
    status says what happened - running, failed with a message, or completed
    with a live service of the organization whose repository URL matches and
    exactly one unfinished job to open the pull request. *)
Theorem ApplyWorkflowRunEvent_correct run url w w' :
  imports_ok (w_db w) -> ApplyWorkflowRunEvent run url w = (Ok tt, w') ->
  (w_db w' = w_db w /\
     (wr_Event run <> "push" \/ IsOnboardingWorkflowPath (wr_Path run) = false \/
      forall k r, g_imports (w_db w) !! k = Some r -> wr_HeadBranch run = Branch k ->
        terminal (i_Status r) = true \/ stale r (wr_ID run) (wr_RunAttempt run) = true)) \/
  exists k r r', g_imports (w_db w) !! k = Some r /\ wr_HeadBranch run = Branch k /\
    terminal (i_Status r) = false /\ stale r (wr_ID run) (wr_RunAttempt run) = false /\
    g_imports (w_db w') = <[k := r']> (g_imports (w_db w)) /\ i_RunID r' = Some (wr_ID run) /\
    run_outcome run url k r r' (w_db w) (w_db w').
Proof. apply run_event_spec. Qed.

(** (lemma) Events for a finished import are ignored outright: run and job events
    leave every table as it is. *)
Theorem late_events_ignored w k r run url runID runAttempt steps :
  imports_ok (w_db w) -> g_imports (w_db w) !! k = Some r -> terminal (i_Status r) = true ->
  wr_HeadBranch run = Branch k ->
  w_db (run_op (OpApplyWorkflowRunEvent run url) w) = w_db w /\
  w_db (run_op (OpApplyWorkflowJobEvent (Branch k) runID runAttempt steps) w) = w_db w.
Proof. apply late_events_spec. Qed.

(** (lemma) Claiming takes an unfinished, available job nobody holds a live lease
    on - the first of these by availability, then age - counts the attempt and
    leases it to the caller; nothing is claimed only when no job qualifies. *)
Theorem ClaimJob_correct owner lease w o w' :
  imports_ok (w_db w) -> ClaimJob owner lease w = (Ok o, w') ->
  match o with
  | Some job => exists j, g_jobs (w_db w) !! j_ID job = Some j /\ claimable (w_clock w) j = true /\
      (forall id2 j2, g_jobs (w_db w) !! id2 = Some j2 -> claimable (w_clock w) j2 = true ->
         claim_order j2 j = false) /\
      j_Attempts job = (jr_Attempts j + 1)%Z /\
      held owner (w_clock w + lease) (jr_ImportID j) (j_ID job) (w_db w') /\
      g_imports (w_db w') = g_imports (w_db w)
  | None => w_db w' = w_db w /\
      forall id j, g_jobs (w_db w) !! id = Some j -> claimable (w_clock w) j = false
  end.
Proof. apply ClaimJob_spec. Qed.

(** (lemma) A lease is exclusive: until it expires, and as long as its owner does not
    finish or return the job and the import is not retried, the job stays the
    owner's through any sequence of operations, and no claim returns it. *)
Theorem lease_exclusive ops w owner lease job w' :
  imports_ok (w_db w) -> ClaimJob owner lease w = (Ok (Some job), w') ->
  forallb (fun o => negb (ends_lease owner (j_ImportID job) (j_ID job) o)) ops = true ->
  (w_clock (run_ops ops w') <= w_clock w + lease)%Z ->
  held owner (w_clock w + lease) (j_ImportID job) (j_ID job) (w_db (run_ops ops w')) /\
  forall owner2 lease2 job2 w2,
    ClaimJob owner2 lease2 (run_ops ops w') = (Ok (Some job2), w2) -> j_ID job2 <> j_ID job.
Proof. apply lease_spec. Qed.

(** (lemma) The steps shown for a run: sorted by job and number; the steps of the
    jobs an event carries replace those stored for these jobs and the others
    stay; delivering an event twice is delivering it once, and the events of
    different jobs can arrive in either order. *)
Theorem merge_steps_correct current A B :
  sorted_by step_order (merge_steps current A) /\
  (forall s, s ∈ merge_steps current A <->
     s ∈ A \/ (s ∈ current /\ forall a, a ∈ A -> st_JobID a <> st_JobID s)) /\
  merge_steps (merge_steps current A) A = merge_steps current A /\
  ((forall a b, a ∈ A -> b ∈ B -> st_JobID a <> st_JobID b) ->
     merge_steps (merge_steps current A) B = merge_steps (merge_steps current B) A).
Proof. apply merge_steps_spec. Qed.

(** (lemma) A new run of the branch of a resumed import takes over its run id but not
    its attempt number, which the import keeps: the new run's later events have
    a smaller attempt, are taken for stale ones and change nothing, and the
    import stays running. *)
Theorem superseded_run_stuck w w' k r run run2 url url2 :
  imports_ok (w_db w) -> g_imports (w_db w) !! k = Some r -> terminal (i_Status r) = false ->
  wr_HeadBranch run = Branch k -> wr_Event run = "push" -> IsOnboardingWorkflowPath (wr_Path run) = true ->
  wr_Status run <> "completed" ->
  (default 0 (i_RunID r) < wr_ID run)%Z -> (1 <= wr_RunAttempt run2 < i_RunAttempt r)%Z ->
  wr_ID run2 = wr_ID run -> wr_HeadBranch run2 = Branch k ->
  ApplyWorkflowRunEvent run url w = (Ok tt, w') ->
  (exists r', g_imports (w_db w') !! k = Some r' /\ i_Status r' = StateRunRunning /\
     i_RunAttempt r' = i_RunAttempt r /\ i_RunID r' = Some (wr_ID run)) /\
  w_db (run_op (OpApplyWorkflowRunEvent run2 url2) w') = w_db w'.
Proof. apply superseded_spec. Qed.
End Life.

(** ** A concrete instance *)

Module LifeDemo.
#[export] Instance demo_collation : Collation :=
  {| text_less := by_key (fun s => Z.of_nat (String.length s)); text_lower := map_bytes lower_byte;
     text_less_strict := by_key_strict_weak _ |}.
#[export] Instance demo_uuid : UuidGen := {| uuid_of := hex_encode |}.

Definition demo_auth : AuthDB :=
  mkAuthDB ∅ {[ "o1" := mkOrg "o1" "Acme" None false false true 1 1 ]} ∅ ∅
    {[ "t1" := mkTeam "t1" "o1" "Core" EmptyString EmptyString 1 1 ]} ∅ ∅ ∅ ∅ ∅ ∅ [] ∅ ∅.
Definition demo_url := "https://github.com/acme/shop.git".
Definition demo_db : GithubDB :=
  mkGithubDB demo_auth {[ "s1" := mkServiceRow "s1" "o1" "https://github.com/Acme/shop/" 1 false ]}
    ∅ ∅ ∅ ∅ ∅.
Definition demo_world : World GithubDB := mkWorld demo_db [] 1000 [] (replicate 64 7%N).
Definition k1 : string := hex_encode (replicate 16 7%N).
Definition j1 : string := fresh (dom (g_jobs demo_db)).
Definition push (id attempt : Z) (st conclusion : string) : WorkflowRun :=
  mkWorkflowRun id attempt "push" st conclusion (Branch k1) "https://github.com/run" OnboardingWorkflowPath.

Definition created := run_ops [OpCreateImport "o1" "t1" 5 "shop"] demo_world.
Definition finished := run_ops [OpApplyWorkflowRunEvent (push 10 1 "completed" "success") demo_url] created.
Definition resumed :=
  run_ops [OpApplyWorkflowRunEvent (push 10 1 "completed" "failure") demo_url; OpResumeImportRun "o1" k1]
    created.
Definition row (w : World GithubDB) : ImportRow :=
  default (mkImportRow EmptyString EmptyString 0 EmptyString EmptyString StateFailed [] EmptyString None 0
             EmptyString EmptyString EmptyString EmptyString 0 0 None None None) (g_imports (w_db w) !! k1).

Lemma created_ok : imports_ok (w_db created).
Proof. by apply run_ops_ok, empty_imports_ok. Qed.
Lemma finished_ok : imports_ok (w_db finished).
Proof. apply run_ops_ok, created_ok. Qed.
Lemma resumed_ok : imports_ok (w_db resumed).
Proof. apply run_ops_ok, created_ok. Qed.

(** The runs of the example: completed with its service, and resumed. *)
Example finished_row : i_Status (row finished) = StateCompleted /\ i_ServiceID (row finished) = "s1".
Proof. vm_compute. split; reflexivity. Qed.
Example resumed_row : i_Status (row resumed) = StateRunRunning /\ i_RunAttempt (row resumed) = 2%Z.
Proof. vm_compute. split; reflexivity. Qed.

(** The service of a completed import is deleted: the import still names its row. *)
Definition service_gone : list Op :=
  [OpCreateImport "o1" "t1" 5 "shop";
   OpApplyWorkflowRunEvent (push 10 1 "completed" "success") demo_url; OpCatalogDelete "s1"].

Lemma reachable_imports_ok_witness :
  let w' := run_ops service_gone demo_world in
  i_Status (row w') = StateCompleted /\ i_ServiceID (row w') = "s1" /\
  sv_Deleted <$> g_services (w_db w') !! "s1" = Some true /\ imports_ok (w_db w').
Proof. split_and!; [vm_compute; reflexivity..|]. apply reachable_imports_ok; reflexivity. Defined.

Lemma import_life_cycle_witness :
  exists r', g_imports (w_db (run_op (OpSetImportRunQueued "o1" k1) created)) !! k1 = Some r' /\
    same_identity (row created) r' /\
    (i_Status r' = i_Status (row created) \/
     edge k1 (OpSetImportRunQueued "o1" k1) (i_Status (row created)) (i_Status r') = true).
Proof. apply import_life_cycle; [apply created_ok|]. vm_compute. reflexivity. Defined.

Lemma completed_is_final_witness :
  exists r', g_imports (w_db (run_ops [OpRetryImport "o1" k1] finished)) !! k1 = Some r' /\
    up_to_pr (row finished) r'.
Proof. apply completed_is_final; [apply finished_ok|vm_compute; reflexivity..]. Defined.

Lemma ApplyWorkflowRunEvent_correct_witness :
  let run := push 10 1 "completed" "success" in
  let w' := (ApplyWorkflowRunEvent run demo_url created).2 in
  (w_db w' = w_db created /\
     (wr_Event run <> "push" \/ IsOnboardingWorkflowPath (wr_Path run) = false \/
      forall k r, g_imports (w_db created) !! k = Some r -> wr_HeadBranch run = Branch k ->
        terminal (i_Status r) = true \/ stale r (wr_ID run) (wr_RunAttempt run) = true)) \/
  exists k r r', g_imports (w_db created) !! k = Some r /\ wr_HeadBranch run = Branch k /\
    terminal (i_Status r) = false /\ stale r (wr_ID run) (wr_RunAttempt run) = false /\
    g_imports (w_db w') = <[k := r']> (g_imports (w_db created)) /\ i_RunID r' = Some (wr_ID run) /\
    run_outcome run demo_url k r r' (w_db created) (w_db w').
Proof. apply ApplyWorkflowRunEvent_correct; [apply created_ok|vm_compute; reflexivity]. Defined.

Lemma late_events_ignored_witness :
  w_db (run_op (OpApplyWorkflowRunEvent (push 11 1 "completed" "failure") demo_url) finished) = w_db finished /\
  w_db (run_op (OpApplyWorkflowJobEvent (Branch k1) 11 1 []) finished) = w_db finished.
Proof. apply (late_events_ignored finished k1 (row finished)); [apply finished_ok|vm_compute; reflexivity..]. Defined.

Lemma ClaimJob_correct_witness :
  exists job, (ClaimJob "w1" 120 created).1 = Ok (Some job) /\
    exists j, g_jobs (w_db created) !! j_ID job = Some j /\ claimable (w_clock created) j = true.
Proof.
  eexists. split; [vm_compute; reflexivity|].
  destruct (ClaimJob_correct "w1" 120 created
    (Some (mkJob j1 "o1" k1 JobStart 1 8)) (ClaimJob "w1" 120 created).2
    created_ok ltac:(vm_compute; reflexivity)) as (j & Hj & Hc & _).
  exists j. split; [exact Hj|exact Hc].
Defined.

Lemma lease_exclusive_witness :
  exists job, (ClaimJob "w1" 120 created).1 = Ok (Some job) /\
    held "w1" 1120 k1 (j_ID job)
      (w_db (run_ops [OpClaimJob "w2" 120; OpCompleteJob (j_ID job) "w2"] (ClaimJob "w1" 120 created).2)).
Proof.
  exists (mkJob j1 "o1" k1 JobStart 1 8). split; [vm_compute; reflexivity|].
  apply (lease_exclusive [OpClaimJob "w2" 120; OpCompleteJob j1 "w2"] created "w1" 120
    (mkJob j1 "o1" k1 JobStart 1 8) (ClaimJob "w1" 120 created).2 created_ok);
    [vm_compute; reflexivity|vm_compute; reflexivity|vm_compute; intros Hc; discriminate Hc].
Defined.

Lemma superseded_run_stuck_witness :
  let w' := (ApplyWorkflowRunEvent (push 11 1 "in_progress" EmptyString) demo_url resumed).2 in
  (exists r', g_imports (w_db w') !! k1 = Some r' /\ i_Status r' = StateRunRunning /\
     i_RunAttempt r' = i_RunAttempt (row resumed) /\ i_RunID r' = Some 11%Z) /\
  w_db (run_op (OpApplyWorkflowRunEvent (push 11 1 "completed" "success") demo_url) w') = w_db w'.
Proof.
  apply (superseded_run_stuck resumed _ k1 (row resumed) (push 11 1 "in_progress" EmptyString)
    (push 11 1 "completed" "success") demo_url demo_url); [apply resumed_ok|vm_compute; try reflexivity..].
  - intros Hc. discriminate Hc.
  - split; [intros Hc; discriminate Hc|reflexivity].
Defined.
End LifeDemo.
