(* ===== verification/GithubApp.v ===== *)
(** * GithubApp: the GitHub App's worker and HTTP handlers

    Models [internal/githubapp/worker.go], the pure parts of [workflows.go] and
    [client.go], and [internal/api/githubapp/handler.go] over the tables of
    GithubStore.  The GitHub API behind the handlers' [Client] interface and
    the worker's [APIClient] is a class of functions; so are HMAC-SHA256 and
    the JSON decoder of webhook payloads.  The JSON bodies are constructors of
    [github_body]. *)

From S2P Require Import Prelude GoStrings Effects Table Authz Identity AuthStore GithubStore.
From S2P Require Import ImportLife Faults.
Set Warnings "-clear-no-such-hyp".

Local Open Scope Z_scope.

Definition second : Z := 1000000000.
Definition day_ns : Z := 86400 * second.

(** ** Errors *)

(** An error of a handler or of the worker: of the store, of the GitHub API
    (is it a 404?), or made on the spot. *)
Inductive app_err : Type :=
| StoreErr (e : store_err)
| ClientErr (is404 : bool) (msg : string)
| PlainErr (msg : string).

Definition message (e : app_err) : string :=
  match e with StoreErr e => err_text e | ClientErr _ m => m | PlainErr m => m end.

Definition notFound (e : app_err) : bool := match e with ClientErr b _ => b | _ => false end.

(** ** The GitHub API *)

Class GithubClient := {
  AuthorizationURL : string -> string -> string;
  InstallationURL : string -> string;
  ExchangeCode : string -> result app_err string;
  AuthenticatedUserID : string -> result app_err Z;
  FindUserInstallation : string -> result app_err (option Z);
  VerifyUserInstallation : string -> Z -> result app_err unit;
  ListInstallationRepositories : Z -> result app_err (list Repository);
  GetRepository : Z -> string -> string -> result app_err Repository;
  GetInstallationAccount : Z -> result app_err Installation;
  DeleteUserInstallation : Z -> result app_err unit;
  GetWorkflowRun : Z -> Repository -> string -> Z -> result app_err WorkflowRun;
  ListWorkflowRunJobs : Z -> Repository -> Z -> result app_err (list Step);
  RerunFailedJobs_ : Z -> Repository -> Z -> result app_err unit;
  StartRun : Z -> Import -> Repository -> result app_err unit;
  OpenPullRequest : Z -> Import -> Repository -> result app_err string
}.

Class Hmac := {
  hmac_sha256 : string -> string -> list N;
  hmac_bytes key body : Forall (fun b => (b < 256)%N) (hmac_sha256 key body)
}.

(** A step of a job as GitHub sends it, a job, and the payload of a webhook. *)
Record TaskStep := mkTaskStep {
  ts_Name : string; ts_Status : string; ts_Conclusion : string; ts_Number : Z;
  ts_StartedAt : option Z; ts_CompletedAt : option Z
}.
Record WorkflowJob := mkWorkflowJob {
  wj_ID : Z; wj_Name : string; wj_HeadBranch : string; wj_RunID : Z; wj_RunAttempt : Z;
  wj_Steps : list TaskStep
}.
Record Payload := mkPayload {
  pl_Action : string; pl_InstallationID : Z; pl_RepositoryURL : string;
  pl_WorkflowRun : WorkflowRun; pl_WorkflowJob : option WorkflowJob
}.
Class PayloadDecoder := { decode_payload : string -> option Payload }.

Definition JobSteps (jobID : Z) (jobName : string) (steps : list TaskStep) : list Step :=
  map (fun s => mkStep jobID jobName (ts_Number s) (ts_Name s) (ts_Status s) (ts_Conclusion s)
                       (ts_StartedAt s) (ts_CompletedAt s)) steps.

(** ** Standard library *)

(** [strconv.ParseInt(s, 10, 64)] with its error ignored: 0 on a syntax error,
    the nearest bound on a range error. *)
Definition maxUint64 : Z := 18446744073709551615.
Fixpoint parse_uint (n : Z) (s : string) : option Z :=
  match s with
  | EmptyString => Some n
  | String a s' =>
      if is_digit a then
        if (1844674407370955162 <=? n) then Some maxUint64
        else let n1 := n * 10 + (Z.of_N (N_of_ascii a) - 48) in
             if (maxUint64 <? n1) then Some maxUint64 else parse_uint n1 s'
      else None
  end.
Definition ParseInt64 (s : string) : Z :=
  let '(neg, digits) := match s with
                        | String a s' => if Ascii.eqb a "-" then (true, s')
                                         else if Ascii.eqb a "+" then (false, s') else (false, s)
                        | EmptyString => (false, s)
                        end in
  if str_empty digits then 0
  else match parse_uint 0 digits with
       | None => 0
       | Some n => if neg then Z.max (- n) (- 2 ^ 63) else Z.min n (2 ^ 63 - 1)
       end.

(** [t.AddDate(1, 0, 0)] in UTC: the same day a year on, March 1 for a leap day.
    Years start on March 1; day 0 is January 1 of year 1. *)
Definition march_start (y : Z) : Z := 365 * y + y / 4 - y / 100 + y / 400.
Definition AddYear (t : Z) : Z :=
  let z := t / day_ns + 306 in
  let era := z / 146097 in
  let doe := z mod 146097 in
  let yoe := (doe - doe / 1460 + doe / 36524 - doe / 146096) / 365 in
  let doy := doe - (365 * yoe + yoe / 4 - yoe / 100) in
  (march_start (400 * era + yoe + 1) + doy - 306) * day_ns + t mod day_ns.

(** int64 *)
Definition wrap64 (z : Z) : Z := (z + 2 ^ 63) mod 2 ^ 64 - 2 ^ 63.

(** ** The worker *)

Section Worker.
Context `{Collation} `{GithubClient} (owner : string).

#[local] Abbreviation W := (World GithubDB).

(** A call to the GitHub API leaves our tables alone. *)
Definition github {A} (r : result app_err A) : Eff W (result app_err A) := fun w => (r, w).

Definition resolveRepository (installationID : Z) (value : Import) : Eff W (result app_err Repository) :=
  func (
    account <- try (github (GetInstallationAccount installationID)) (fun err => Err err) ;;
    return_if (negb (in_AccountID account =? im_GitHubOwnerID value))
      (Err (PlainErr ("repository " +:+ Quote (im_GitHubRepo value) +:+
                      " is not owned by the connected GitHub account"))) ;;;
    call (github (GetRepository installationID (in_AccountLogin account) (im_GitHubRepo value)))).

Definition stored {A} (m : GEff A) : Eff W (result app_err A) :=
  fun w => let '(r, w') := m w in
           (match r with Ok a => Ok a | Err e => Err (StoreErr e) end, w').

Definition process (job : Job) : Eff W (result app_err unit) :=
  func (
    value <- try (stored (GetImport (j_OrgID job) (j_ImportID job))) (fun err => Err err) ;;
    installation <- try (stored (GetInstallation (j_OrgID job))) (fun err => Err err) ;;
    installation <- non_nil installation (Err (PlainErr "GitHub App is not connected")) ;;
    repository <- try (resolveRepository (in_GitHubInstallationID installation) value) (fun err => Err err) ;;
    if String.eqb (j_Kind job) JobStart then
      _ <- try (github (StartRun (in_GitHubInstallationID installation) value repository))
               (fun err => Err err) ;;
      call (stored (SetImportRunQueued (j_OrgID job) (j_ImportID job)))
    else if String.eqb (j_Kind job) JobOpenPR then
      url <- try (github (OpenPullRequest (in_GitHubInstallationID installation) value repository))
                 (fun err => Err err) ;;
      call (stored (SetImportPullRequest (j_OrgID job) (j_ImportID job) url))
    else gret (Err (PlainErr ("unknown GitHub import job kind " +:+ Quote (j_Kind job))))).

(** [min(time.Duration(1<<job.Attempts), 300) * time.Second] *)
Definition backoff (attempts : Z) : Z := wrap64 (Z.min (wrap64 (2 ^ attempts)) 300 * second).

Definition lease_time : Z := 120 * second.

Definition runOne : Eff W (result app_err unit) :=
  func (
    job <- try (stored (ClaimJob owner lease_time)) (fun err => Err err) ;;
    job <- non_nil job (Ok tt) ;;
    r <- call (process job) ;;
    match r with
    | Ok _ => call (stored (CompleteJob (j_ID job) owner))
    | Err err =>
        now <- call time_now ;;
        _ <- try (stored (RetryJob job owner (now + backoff (j_Attempts job)) (message err)))
                 (fun retryErr => Err (PlainErr ("process: " +:+ message err +:+ "; persist retry: " +:+
                                                 message retryErr))) ;;
        gret (Err err)
    end).
End Worker.

(** ** The handlers *)

Inductive github_body : Type :=
| BodyInstallation (enabled : bool) (installation : option Installation)
| BodyURL (url : string)
| BodyRepositories (l : list Repository)
| BodyEnvironment (apiUrl gatewayUrl : string)
| BodyToken (name token : string)
| BodyImport (v : Import)
| BodyLatest (v : option Import)
| BodyHTML (html : string).

Definition GReply : Type := Response github_body.

(** [h.client == nil] when the app is not configured. *)
Record GithubHandler := mkGithubHandler {
  gh_client : bool; gh_callbackURL : string; gh_webhookSecret : string;
  gh_apiURL : string; gh_gatewayURL : string
}.

Definition TokenSecret := "UIGRAPH_TOKEN".
Definition maxWebhookBody : Z := 1048576.
Definition close_window :=
  "<!doctype html><meta charset=" +:+ Quote "utf-8" +:+ "><script>window.close()</script>".

Definition httpError (err : app_err) : GReply :=
  match err with
  | StoreErr ErrNotFound => HttpError ErrNotFound
  | StoreErr (ErrConflict as e) | StoreErr (ErrTeamNotFound as e) => BadRequest (err_text e)
  | _ => HttpError (ErrOther ("github app: " +:+ message err))
  end.

Definition not_configured : GReply := mkResponse 503 (RawError "GitHub App is not configured").

Record CallbackQuery := mkCallbackQuery {
  cq_state : string; cq_code : string; cq_installation_id : string
}.
Record createImportRequest := mkCreateImportRequest {
  ci_TeamID : string; ci_Owner : string; ci_Repo : string
}.
Record webhookRequest := mkWebhookRequest {
  wh_body : string; wh_signature : string; wh_delivery : string; wh_event : string
}.

Section Handlers.
Context `{Collation} `{UuidGen} `{Sha256} `{Hmac} `{GithubClient} `{PayloadDecoder}.
Context (h : GithubHandler).

#[local] Abbreviation W := (World GithubDB).
#[local] Abbreviation Handler := (Eff W GReply).

Definition GetInstallation_ (orgID : string) : Handler :=
  func (
    return_if (negb (gh_client h)) (JSON 200 (BodyInstallation false None)) ;;;
    installation <- try (stored (GetInstallation orgID)) httpError ;;
    installation <- non_nil installation (JSON 200 (BodyInstallation true None)) ;;
    match GetInstallationAccount (in_GitHubInstallationID installation) with
    | Err err =>
        if notFound err then greturn (JSON 200 (BodyInstallation true None)) else greturn (httpError err)
    | Ok account =>
        gret (JSON 200 (BodyInstallation true (Some (mkInstallation
          (in_OrgID installation) (in_GitHubInstallationID installation) (in_CreatedAt installation)
          (in_AccountID account) (in_AccountLogin account) (in_AccountType account)
          (in_Suspended account)))))
    end).

Definition state_hash (state : string) : string := hex_encode (sha256 state).

Definition Install (principal : option Principal) (orgID : string) : Handler :=
  func (
    return_if (negb (gh_client h)) not_configured ;;;
    p <- non_nil principal Forbidden ;;
    return_if (negb (String.eqb (p_Kind p) PrincipalUser) || str_empty (p_UserID p)) Forbidden ;;;
    raw <- try (stored (rand_read 32)) httpError ;;
    let state := hex_encode raw in
    now <- call time_now ;;
    _ <- try (stored (CreateInstallState orgID (p_UserID p) (state_hash state) (now + 600 * second)))
             httpError ;;
    gret (JSON 201 (BodyURL (AuthorizationURL state (gh_callbackURL h))))).

(** Without an installation id the state is tied to the GitHub user who
    authorized it; with one, or with the user's existing installation, it is
    consumed. *)
Definition authorize (stateHash state token : string) (githubUserID installationID : Z) :
    Go W GReply Z :=
  if installationID =? 0 then
    _ <- try (stored (AuthorizeInstallState stateHash githubUserID)) httpError ;;
    existing <- try (github (FindUserInstallation token)) httpError ;;
    non_nil existing (mkResponse 302 (RedirectTo (InstallationURL state)))
  else gret installationID.

Definition Callback (q : CallbackQuery) : Handler :=
  func (
    return_if (negb (gh_client h)) (mkResponse 404 (RawError "404 page not found")) ;;;
    let state := cq_state q in
    return_if (str_empty state) (BadRequest "state is required") ;;;
    let stateHash := state_hash state in
    let code := cq_code q in
    let installationID := ParseInt64 (cq_installation_id q) in
    return_if (negb (installationID =? 0) && str_empty code)
      (mkResponse 302 (RedirectTo (AuthorizationURL state
        (gh_callbackURL h +:+ "?installation_id=" +:+ Itoa installationID)))) ;;;
    return_if (str_empty code) (BadRequest "code is required") ;;;
    token <- try (github (ExchangeCode code)) httpError ;;
    githubUserID <- try (github (AuthenticatedUserID token)) httpError ;;
    installationID <- authorize stateHash state token githubUserID installationID ;;
    _ <- try (github (VerifyUserInstallation token installationID)) httpError ;;
    orgID <- try (stored (ConsumeInstallState stateHash githubUserID)) httpError ;;
    _ <- try (stored (UpsertInstallation orgID installationID)) httpError ;;
    gret (mkResponse 200 (Json (BodyHTML close_window)))).

Definition DeleteInstallation_ (orgID : string) : Handler :=
  func (
    return_if (negb (gh_client h)) not_configured ;;;
    installation <- try (stored (GetInstallation orgID)) httpError ;;
    installation <- non_nil installation (httpError (StoreErr ErrNotFound)) ;;
    _ <- try (github (DeleteUserInstallation (in_GitHubInstallationID installation))) httpError ;;
    _ <- try (stored (DeleteInstallation orgID)) httpError ;;
    gret (mkResponse 204 NoContent)).

Definition ListRepositories (orgID : string) : Handler :=
  func (
    return_if (negb (gh_client h)) not_configured ;;;
    installation <- try (stored (GetInstallation orgID)) httpError ;;
    installation <- non_nil installation (httpError (StoreErr ErrNotFound)) ;;
    repositories <- try (github (ListInstallationRepositories (in_GitHubInstallationID installation)))
                        httpError ;;
    gret (JSON 200 (BodyRepositories repositories))).

Definition GetImportEnvironment : Handler :=
  func (gret (JSON 200 (BodyEnvironment (gh_apiURL h) (gh_gatewayURL h)))).

Definition no_access : GReply := BadRequest "the GitHub App cannot access this repository".

(** The repository, as the organization's installation sees it. *)
Definition accessible (orgID owner repo : string) : Go W GReply Repository :=
  installation <- try (stored (GetInstallation orgID)) httpError ;;
  installation <- non_nil installation (httpError (StoreErr ErrNotFound)) ;;
  try (github (GetRepository (in_GitHubInstallationID installation) owner repo))
      (fun err => if notFound err then no_access else httpError err).

Definition CreateImportToken_ (orgID owner repo : string) : Handler :=
  func (
    return_if (negb (gh_client h)) not_configured ;;;
    repository <- accessible orgID owner repo ;;
    now <- call time_now ;;
    plaintext <- try (stored (lift_auth (CreateImportToken orgID (rp_FullName repository) (AddYear now))))
                     httpError ;;
    gret (JSON 201 (BodyToken TokenSecret plaintext))).

Definition CreateImport_ (orgID : string) (req : option createImportRequest) : Handler :=
  func (
    return_if (negb (gh_client h)) not_configured ;;;
    request <- non_nil req (BadRequest "teamId, owner and repo are required") ;;
    return_if (str_empty (ci_TeamID request) || str_empty (ci_Owner request) || str_empty (ci_Repo request))
      (BadRequest "teamId, owner and repo are required") ;;;
    repository <- accessible orgID (ci_Owner request) (ci_Repo request) ;;
    value <- try (stored (CreateImport orgID (ci_TeamID request) (rp_OwnerID repository)
                            (rp_Name repository))) httpError ;;
    gret (JSON 201 (BodyImport value))).

(** Polling: only an import that is queued or running is looked up at GitHub.
    The first component says whether events were applied. *)
Definition reconcileImport (value : Import) : Eff W (bool * result app_err unit) :=
  func (
    return_if (negb (gh_client h) || negb (bool_decide (im_Status value = StateRunQueued) ||
                                           bool_decide (im_Status value = StateRunRunning)))
      (false, Ok tt) ;;;
    installation <- try (stored (GetInstallation (im_OrgID value))) (fun err => (false, Err err)) ;;
    installation <- non_nil installation (false, Ok tt) ;;
    let id := in_GitHubInstallationID installation in
    account <- try (github (GetInstallationAccount id)) (fun err => (false, Err err)) ;;
    repository <- try (github (GetRepository id (in_AccountLogin account) (im_GitHubRepo value)))
                      (fun err => (false, Err err)) ;;
    run <- try (github (GetWorkflowRun id repository (im_Branch value) (im_RunID value)))
               (fun err => (false, Err err)) ;;
    return_if (wr_ID run =? 0) (false, Ok tt) ;;;
    steps <- try (github (ListWorkflowRunJobs id repository (wr_ID run))) (fun err => (false, Err err)) ;;
    (match steps with
     | [] => gret tt
     | _ => try (stored (ApplyWorkflowJobEvent (wr_HeadBranch run) (wr_ID run) (wr_RunAttempt run) steps))
                (fun err => (false, Err err))
     end) ;;;
    r <- call (stored (ApplyWorkflowRunEvent run (rp_URL repository))) ;;
    gret (true, r)).

Definition reconciled (value : Import) : Eff W Import :=
  func (
    applied <- call (reconcileImport value) ;;
    return_if (negb applied.1) value ;;;
    refreshed <- try (stored (GetImport (im_OrgID value) (im_ID value))) (fun _ => value) ;;
    gret refreshed).

Definition GetImport_ (orgID importID : string) : Handler :=
  func (
    value <- try (stored (GetImport orgID importID)) httpError ;;
    v <- call (reconciled value) ;;
    gret (JSON 200 (BodyImport v))).

Definition GetLatestImport_ (orgID : string) : Handler :=
  func (
    value <- try (stored (GetLatestImport orgID)) httpError ;;
    value <- non_nil value (JSON 200 (BodyLatest None)) ;;
    v <- call (reconciled value) ;;
    gret (JSON 200 (BodyLatest (Some v)))).

Definition Retry (orgID importID : string) : Handler :=
  func (
    _ <- try (stored (RetryImport orgID importID)) httpError ;;
    value <- try (stored (GetImport orgID importID)) httpError ;;
    gret (JSON 202 (BodyImport value))).

Definition RerunFailedJobs (orgID importID : string) : Handler :=
  func (
    value <- try (stored (GetImport orgID importID)) httpError ;;
    return_if (negb (gh_client h) || (im_RunID value =? 0))
      (BadRequest "this import has no GitHub Actions run to re-run") ;;;
    installation <- try (stored (GetInstallation orgID)) httpError ;;
    installation <- non_nil installation (BadRequest "this organization has no GitHub App installation") ;;
    let id := in_GitHubInstallationID installation in
    account <- try (github (GetInstallationAccount id)) httpError ;;
    repository <- try (github (GetRepository id (in_AccountLogin account) (im_GitHubRepo value))) httpError ;;
    _ <- try (github (RerunFailedJobs_ id repository (im_RunID value))) httpError ;;
    _ <- try (stored (ResumeImportRun orgID importID)) httpError ;;
    refreshed <- try (stored (GetImport orgID importID)) httpError ;;
    gret (JSON 202 (BodyImport refreshed))).

Definition validSignature (body signature secret : string) : bool :=
  if negb (HasPrefix signature "sha256=") || str_empty secret then false
  else match hex_decode (TrimPrefix signature "sha256=") with
       | None => false
       | Some received => bool_decide (received = hmac_sha256 secret body)
       end.

Definition accepted : GReply := mkResponse 202 NoContent.

(** What an accepted delivery does. *)
Definition apply_event (event : string) (payload : Payload) : Go W GReply unit :=
  if String.eqb event "workflow_run" then
    try (stored (ApplyWorkflowRunEvent (pl_WorkflowRun payload) (pl_RepositoryURL payload))) httpError
  else if String.eqb event "workflow_job" then
    job <- non_nil (pl_WorkflowJob payload) (BadRequest "invalid workflow_job payload") ;;
    try (stored (ApplyWorkflowJobEvent (wj_HeadBranch job) (wj_RunID job) (wj_RunAttempt job)
                   (JobSteps (wj_ID job) (wj_Name job) (wj_Steps job)))) httpError
  else gret tt.

Definition Webhook (r : webhookRequest) : Handler :=
  func (
    return_if (maxWebhookBody <? Z.of_nat (String.length (wh_body r)))
      (BadRequest "webhook body is too large") ;;;
    return_if (negb (validSignature (wh_body r) (wh_signature r) (gh_webhookSecret h)))
      (mkResponse 401 (RawError "invalid signature")) ;;;
    return_if (str_empty (wh_delivery r) || str_empty (wh_event r))
      (BadRequest "GitHub delivery and event headers are required") ;;;
    payload <- non_nil (decode_payload (wh_body r)) (BadRequest "invalid webhook JSON") ;;
    created <- try (stored (RecordWebhook (wh_delivery r))) httpError ;;
    return_if (negb created) accepted ;;;
    apply_event (wh_event r) payload ;;;
    gret accepted).
End Handlers.

(** ** Lemmas *)

Section Rules.
Context {A R : Type}.
Implicit Types (Qr : R -> World GithubDB -> Prop) (Q : A -> World GithubDB -> Prop).

Lemma wp_try_stored (m : GEff A) (f : app_err -> R) Qr Q w :
  wp (try (stored m) f) Qr Q w <->
  match m w with (Ok a, w') => Q a w' | (Err e, w') => Qr (f (StoreErr e)) w' end.
Proof. rewrite wp_try. unfold stored. by destruct (m w) as [[a|e] w']. Qed.

Lemma wp_try_github (r : result app_err A) (f : app_err -> R) Qr Q w :
  wp (try (github r) f) Qr Q w <-> match r with Ok a => Q a w | Err e => Qr (f e) w end.
Proof. rewrite wp_try. unfold github. by destruct r. Qed.

Lemma wp_call_stored (m : GEff A) Qr (Q' : result app_err A -> World GithubDB -> Prop) w :
  wp (call (stored m)) Qr Q' w <->
  match m w with (Ok a, w') => Q' (Ok a) w' | (Err e, w') => Q' (Err (StoreErr e)) w' end.
Proof. rewrite wp_call. unfold stored. by destruct (m w) as [[a|e] w']. Qed.
End Rules.

#[local] Ltac gstep_ := rewrite ?wp_bind, ?wp_try_stored, ?wp_try_github, ?wp_call_stored, ?wp_call,
  ?wp_return_if, ?wp_non_nil, ?wp_ret, ?wp_return; cbn beta iota.

(** ** Webhooks *)

Section WebhookFacts.
Context `{HC : Collation} `{HU : UuidGen} `{HM : Hmac} `{HP : PayloadDecoder}.
Context (h : GithubHandler).

(** The signature is the HMAC of the body, in hexadecimal of either case. *)
Lemma validSignature_iff body signature secret :
  validSignature body signature secret = true <->
  secret <> EmptyString /\
  exists s, signature = "sha256=" +:+ s /\ hex_decode s = Some (hmac_sha256 secret body).
Proof.
  unfold validSignature. pose proof (HasPrefix_iff signature "sha256=") as Hp. unfold TrimPrefix.
  destruct (HasPrefix signature "sha256=") eqn:E; cbn [negb orb].
  2: { split; [done|]. intros (_ & s & Hs & _).
       pose proof (proj2 Hp (ex_intro _ s Hs)). congruence. }
  destruct (proj1 Hp eq_refl) as [s ->]. rewrite (proj2 (strip_prefix_Some _ _ s) eq_refl).
  assert (forall s2, "sha256=" +:+ s = "sha256=" +:+ s2 -> s2 = s) as Hinj.
  { intros s2 Heq. apply strip_prefix_Some in Heq.
    pose proof (proj2 (strip_prefix_Some "sha256=" _ s) eq_refl). congruence. }
  pose proof (str_empty_true secret) as He. destruct (str_empty secret) eqn:E2.
  { split; [done|]. intros [Hn _]. by destruct Hn; apply He. }
  assert (secret <> EmptyString) as Hne by (intros Hc; apply He in Hc; congruence).
  destruct (hex_decode s) as [l|] eqn:El.
  - rewrite bool_decide_eq_true. split.
    + intros ->. split; [done|]. by exists s.
    + intros (_ & s2 & <-%Hinj & Hl). congruence.
  - split; [done|]. intros (_ & s2 & <-%Hinj & Hl). congruence.
Qed.

(** The operation an event stands for. *)
Definition event_op (event : string) (payload : Payload) : option Op :=
  if String.eqb event "workflow_run" then
    Some (OpApplyWorkflowRunEvent (pl_WorkflowRun payload) (pl_RepositoryURL payload))
  else if String.eqb event "workflow_job" then
    match pl_WorkflowJob payload with
    | Some job => Some (OpApplyWorkflowJobEvent (wj_HeadBranch job) (wj_RunID job) (wj_RunAttempt job)
                          (JobSteps (wj_ID job) (wj_Name job) (wj_Steps job)))
    | None => None
    end
  else None.

Definition record_delivery (id : string) (d : GithubDB) : GithubDB :=
  set_g_deliveries d (({[id]} : gset string) ∪ g_deliveries d).

Lemma RecordWebhook_cases id w r w' :
  RecordWebhook id w = (r, w') ->
  (r = Err ErrDriver /\ w_db w' = w_db w) \/
  (r = Ok false /\ id ∈ g_deliveries (w_db w) /\ w_db w' = w_db w) \/
  (r = Ok true /\ (id ∉ g_deliveries (w_db w)) /\ w_db w' = record_delivery id (w_db w)).
Proof.
  intros [[-> Hd]|(d & Hf & Hd)]%db_op_cases; [by left|right]. rewrite Hd. revert Hf.
  destruct (decide (id ∈ g_deliveries (w_db w))); intros [= <- <-]; [left|right]; done.
Qed.

(** An event changes the tables as its operation does. *)
Lemma apply_event_wp event payload (P : GReply -> World GithubDB -> Prop) Q w :
  (forall rep, status rep = 400%Z -> event_op event payload = None -> P rep w) ->
  (forall o w' e, event_op event payload = Some o -> w' = run_op o w -> P (httpError (StoreErr e)) w') ->
  (forall o w', event_op event payload = Some o -> w' = run_op o w -> Q tt w') ->
  (event_op event payload = None -> Q tt w) ->
  wp (apply_event event payload) P Q w.
Proof.
  unfold apply_event, event_op. intros H400 Herr Hok Hnone.
  destruct (String.eqb event "workflow_run"); [|destruct (String.eqb event "workflow_job")].
  - gstep_. destruct (ApplyWorkflowRunEvent _ _ w) as [[[]|e] w1] eqn:E;
      [eapply Hok|eapply Herr]; try done; unfold run_op, after; by rewrite E.
  - destruct (pl_WorkflowJob payload) as [job|]; cbn [non_nil]; gstep_.
    + gstep_. destruct (ApplyWorkflowJobEvent _ _ _ _ w) as [[[]|e] w1] eqn:E;
        [eapply Hok|eapply Herr]; try done; unfold run_op, after; by rewrite E.
    + by apply H400.
  - gstep_. by apply Hnone.
Qed.

Definition webhook_effect (r : webhookRequest) (d d' : GithubDB) : Prop :=
  d' = d \/
  (validSignature (wh_body r) (wh_signature r) (gh_webhookSecret h) = true /\
   (wh_delivery r ∉ g_deliveries d) /\
   exists payload w1, decode_payload (wh_body r) = Some payload /\
     w_db w1 = record_delivery (wh_delivery r) d /\
     (d' = w_db w1 \/ exists o, event_op (wh_event r) payload = Some o /\ d' = w_db (run_op o w1))).

Lemma Webhook_effect r w :
  let '(rep, w') := Webhook h r w in
  webhook_effect r (w_db w) (w_db w') /\
  (validSignature (wh_body r) (wh_signature r) (gh_webhookSecret h) = false ->
     (status rep = 400%Z \/ status rep = 401%Z) /\ w_db w' = w_db w).
Proof.
  apply wp_let. gstep_. split; intros Hsz; [split; [by left|]; intros; by split; [left|]|].
  gstep_. split; intros Hsig; bool_to_prop; [split; [by left|]; intros; by split; [right|]|].
  assert (forall d d' (Q : Prop), webhook_effect r d d' ->
    webhook_effect r d d' /\
    (validSignature (wh_body r) (wh_signature r) (gh_webhookSecret h) = false -> Q)) as Hval
    by (intros ???; split; [done|congruence]).
  gstep_. split; intros Hhd; [apply Hval; by left|].
  gstep_. split; [intros _; apply Hval; by left|intros payload Hpl].
  gstep_. destruct (RecordWebhook (wh_delivery r) w) as [rr w1] eqn:E.
  apply RecordWebhook_cases in E as [[-> Hd]|[(-> & Hin & Hd)|(-> & Hnin & Hd)]].
  - apply Hval. by left.
  - gstep_. split; [intros _|done]. apply Hval. by left.
  - gstep_. split; [done|intros _]. gstep_. apply apply_event_wp.
    + intros rep _ _. apply Hval. right. split_and!; [done..|]. exists payload, w1. by split_and!; [..|left].
    + intros o w' e Ho ->. apply Hval. right. split_and!; [done..|]. exists payload, w1.
      split_and!; [done..|]. right. by exists o.
    + intros o w' Ho ->. gstep_. apply Hval. right. split_and!; [done..|]. exists payload, w1.
      split_and!; [done..|]. right. by exists o.
    + intros _. gstep_. apply Hval. right. split_and!; [done..|]. exists payload, w1.
      by split_and!; [..|left].
Qed.

Lemma event_op_deliveries event payload o w :
  event_op event payload = Some o -> g_deliveries (w_db (run_op o w)) = g_deliveries (w_db w).
Proof.
  unfold event_op. intros Ho. repeat case_match; simplify_eq; unfold run_op, after.
  - unfold ApplyWorkflowRunEvent. destruct (_ || _); [done|].
    apply (db_write_post _ (fun d => g_deliveries d = g_deliveries (w_db w))); [done|].
    destruct (select_one _ _); [|done]. destruct (stale _ _ _); [done|]. unfold apply_run.
    destruct (negb _); [done|]. destruct (negb _); [done|]. destruct (matching_service _ _ _); [|done].
    unfold ensure_job. by destruct (select_one _ _).
  - unfold ApplyWorkflowJobEvent. destruct (JobSteps _ _ _); [done|].
    apply (db_write_post _ (fun d => g_deliveries d = g_deliveries (w_db w))); [done|].
    destruct (select_one _ _); [|done]. by destruct (stale _ _ _).
Qed.

Lemma record_delivery_ok id d : imports_ok d -> imports_ok (record_delivery id d).
Proof. by apply same_core_ok. Qed.

Lemma Webhook_safe_spec r w :
  imports_ok (w_db w) ->
  let '(rep, w') := Webhook h r w in
  imports_ok (w_db w') /\
  (validSignature (wh_body r) (wh_signature r) (gh_webhookSecret h) = false ->
     (status rep = 400%Z \/ status rep = 401%Z) /\ w_db w' = w_db w) /\
  (wh_delivery r ∈ g_deliveries (w_db w) -> w_db w' = w_db w) /\
  (w_db w' = w_db w \/
   (g_deliveries (w_db w') = {[wh_delivery r]} ∪ g_deliveries (w_db w) /\
    exists payload w1, decode_payload (wh_body r) = Some payload /\
      w_db w1 = record_delivery (wh_delivery r) (w_db w) /\
      (w_db w' = w_db w1 \/
       exists o, event_op (wh_event r) payload = Some o /\ w_db w' = w_db (run_op o w1)))).
Proof.
  intros Hok. pose proof (Webhook_effect r w) as Hw. destruct (Webhook h r w) as [rep w'].
  destruct Hw as [[Hd|(Hsig & Hnin & payload & w1 & Hp & H1 & Hd)] Hbad].
  - rewrite Hd. split_and!; [done| |done|by left]. intros Hf. split; [by apply Hbad|done].
  - assert (imports_ok (w_db w1)) as Hok1 by (rewrite H1; by apply record_delivery_ok).
    split_and!; [|done|done|right].
    + destruct Hd as [->|(o & Ho & ->)]; [done|by apply run_op_ok].
    + split; [|by exists payload, w1]. destruct Hd as [->|(o & Ho & ->)].
      * by rewrite H1.
      * rewrite (event_op_deliveries _ _ _ _ Ho). by rewrite H1.
Qed.

(** An authentic delivery whose event could not be stored is not applied when
    GitHub sends it again. *)
Lemma Webhook_lost_spec r w fs payload :
  w_faults w = false :: true :: fs ->
  (Z.of_nat (String.length (wh_body r)) <= maxWebhookBody)%Z ->
  validSignature (wh_body r) (wh_signature r) (gh_webhookSecret h) = true ->
  wh_delivery r <> EmptyString -> wh_event r = "workflow_run" ->
  decode_payload (wh_body r) = Some payload ->
  wr_Event (pl_WorkflowRun payload) = "push" ->
  IsOnboardingWorkflowPath (wr_Path (pl_WorkflowRun payload)) = true ->
  wh_delivery r ∉ g_deliveries (w_db w) ->
  let '(rep, w') := Webhook h r w in
  status rep = 500%Z /\ w_db w' = record_delivery (wh_delivery r) (w_db w) /\
  let '(rep2, w2) := Webhook h r w' in
  (status rep2 = 202%Z \/ status rep2 = 500%Z) /\ w_db w2 = w_db w'.
Proof.
  intros Hf Hsz Hsig Hdel Hev Hpl Hpush Hpath Hnin.
  apply str_empty_false in Hdel. apply Z.ltb_ge in Hsz.
  set (d1 := record_delivery (wh_delivery r) (w_db w)).
  set (w1 := mkWorld d1 fs (w_clock w) (w_ticks w) (w_entropy w)).
  assert (RecordWebhook (wh_delivery r) w = (Ok true, with_faults w1 (true :: fs))) as Hrec.
  { unfold RecordWebhook, db_op. by rewrite Hf, decide_False. }
  assert (ApplyWorkflowRunEvent (pl_WorkflowRun payload) (pl_RepositoryURL payload)
            (with_faults w1 (true :: fs)) = (Err ErrDriver, w1)) as Happ.
  { unfold ApplyWorkflowRunEvent. rewrite Hpush, Hpath. done. }
  apply wp_let. gstep_. rewrite Hsz. split; [done|intros _]. gstep_. rewrite Hsig. split; [done|intros _].
  gstep_. rewrite Hdel, Hev. split; [done|intros _]. gstep_. rewrite Hpl. split; [done|intros pl [= <-]].
  gstep_. rewrite Hrec. gstep_. split; [done|intros _]. gstep_. unfold apply_event. cbn [String.eqb Ascii.eqb Bool.eqb].
  gstep_. rewrite Happ. split_and!; [done|done|].
  assert (wh_delivery r ∈ g_deliveries (w_db w1)) as Hin by (cbn; set_solver).
  apply wp_let. gstep_. rewrite Hsz. split; [done|intros _]. gstep_. rewrite Hsig. split; [done|intros _].
  gstep_. rewrite Hdel, Hev. split; [done|intros _]. gstep_. rewrite Hpl. split; [done|intros pl [= <-]].
  gstep_. destruct (RecordWebhook (wh_delivery r) w1) as [rr w2] eqn:E.
  apply RecordWebhook_cases in E as [[-> Hd]|[(-> & _ & Hd)|(-> & Hn & _)]].
  - split; [by right|done].
  - gstep_. split; [intros _|done]. split; [by left|done].
  - done.
Qed.
End WebhookFacts.

(** ** Connecting an organization *)

Section CallbackFacts.
Context `{HC : Collation} `{HS : Sha256} `{HG : GithubClient}.
Context (h : GithubHandler).

(** A state that can still be consumed by a GitHub user. *)
Definition usable_state (t : Z) (uid : Z) (s : InstallState) : Prop :=
  is_ConsumedAt s = None /\ (t < is_ExpiresAt s)%Z /\
  (is_AuthorizedAt s = None \/ is_GitHubUserID s = Some uid).

Lemma AuthorizeInstallState_spec sh uid w r w' :
  AuthorizeInstallState sh uid w = (r, w') ->
  g_installations (w_db w') = g_installations (w_db w) /\ w_clock w' = w_clock w /\
  (w_db w' = w_db w \/
   exists s t, g_states (w_db w) !! sh = Some s /\ is_ConsumedAt s = None /\
     (w_clock w < is_ExpiresAt s)%Z /\ is_AuthorizedAt s = None /\
     g_states (w_db w') = <[sh := mkInstallState (is_OrgID s) (is_UserID s) (Some uid) (Some t)
                                    (is_ExpiresAt s) None]> (g_states (w_db w))).
Proof.
  intros Hr. pose proof (db_op_clock _ _ _ _ Hr) as Hc.
  apply db_op_cases in Hr as [[-> Hd]|(d & Hf & <-)]; [by rewrite Hd; split_and!; [..|left]|].
  destruct (g_states (w_db w) !! sh) as [s|] eqn:E; cbn beta in Hf; rewrite ?E in Hf;
    [|injection Hf as _ <-; by split_and!; [..|left]].
  destruct (_ && _) eqn:Eg in Hf; injection Hf as _ <-; [|by split_and!; [..|left]]. bool_to_prop.
  repeat match goal with HF : found _ = false |- _ => apply found_false in HF end.
  split_and!; [done..|right]. exists s, (w_clock w). split_and!; try done. cbn. congruence.
Qed.

Lemma ConsumeInstallState_spec sh uid w r w' :
  ConsumeInstallState sh uid w = (r, w') ->
  g_installations (w_db w') = g_installations (w_db w) /\
  match r with
  | Ok orgID => exists s, g_states (w_db w) !! sh = Some s /\ is_OrgID s = orgID /\
      is_ConsumedAt s = None /\ (w_clock w < is_ExpiresAt s)%Z /\ is_GitHubUserID s = Some uid /\
      found (is_AuthorizedAt s) = true /\
      exists s', g_states (w_db w') !! sh = Some s' /\ found (is_ConsumedAt s') = true
  | Err _ => w_db w' = w_db w
  end.
Proof.
  intros [[-> Hd]|(d & Hf & <-)]%db_op_cases; [by rewrite Hd|].
  destruct (g_states (w_db w) !! sh) as [s|] eqn:E; cbn beta in Hf; rewrite ?E in Hf;
    [|by injection Hf as <- <-].
  destruct (_ && _) eqn:Eg in Hf; injection Hf as <- <-; [|done]. bool_to_prop.
  repeat match goal with HF : found _ = false |- _ => apply found_false in HF end.
  split; [done|]. exists s. split_and!; try done. eexists. split; [apply lookup_insert_eq|done].
Qed.

Lemma UpsertInstallation_spec orgID id w r w' :
  UpsertInstallation orgID id w = (r, w') ->
  g_states (w_db w') = g_states (w_db w) /\
  (g_installations (w_db w') = g_installations (w_db w) \/
   exists t, g_installations (w_db w') = <[orgID := mkInstallationRow id t]> (g_installations (w_db w))).
Proof.
  intros [[-> Hd]|(d & Hf & <-)]%db_op_cases; [by rewrite Hd; split; [|left]|].
  destruct (_ || _) in Hf; injection Hf as <- <-; [by split; [|left]|]. split; [done|]. right. eauto.
Qed.

(** What makes a callback change the installations. *)
Definition connects (q : CallbackQuery) (w : World GithubDB) (d' : GithubDB) : Prop :=
  exists s token uid id t, g_states (w_db w) !! state_hash (cq_state q) = Some s /\
    usable_state (w_clock w) uid s /\
    ExchangeCode (cq_code q) = Ok token /\ AuthenticatedUserID token = Ok uid /\
    VerifyUserInstallation token id = Ok tt /\
    g_installations d' = <[is_OrgID s := mkInstallationRow id t]> (g_installations (w_db w)) /\
    exists s', g_states d' !! state_hash (cq_state q) = Some s' /\ found (is_ConsumedAt s') = true.

(** The end of a callback, once the state may have been authorized. *)
Definition finish_callback (stateHash token : string) (uid id : Z) :
    Go (World GithubDB) GReply GReply :=
  _ <- try (github (VerifyUserInstallation token id)) httpError ;;
  orgID <- try (stored (ConsumeInstallState stateHash uid)) httpError ;;
  _ <- try (stored (UpsertInstallation orgID id)) httpError ;;
  gret (mkResponse 200 (Json (BodyHTML close_window))).

Lemma finish_callback_wp q token uid id w w1 :
  ExchangeCode (cq_code q) = Ok token -> AuthenticatedUserID token = Ok uid ->
  g_installations (w_db w1) = g_installations (w_db w) ->
  (forall s1, g_states (w_db w1) !! state_hash (cq_state q) = Some s1 -> is_ConsumedAt s1 = None ->
     (w_clock w1 < is_ExpiresAt s1)%Z -> is_GitHubUserID s1 = Some uid ->
     exists s, g_states (w_db w) !! state_hash (cq_state q) = Some s /\ is_OrgID s = is_OrgID s1 /\
       usable_state (w_clock w) uid s) ->
  let P := fun (_ : GReply) w' =>
    g_installations (w_db w') = g_installations (w_db w) \/ connects q w (w_db w') in
  wp (finish_callback (state_hash (cq_state q)) token uid id) P P w1.
Proof.
  intros Htok Huid Hi Hs. cbn zeta. unfold finish_callback. gstep_.
  destruct (VerifyUserInstallation token id) as [[]|e] eqn:Ev; [|by left].
  gstep_. destruct (ConsumeInstallState _ uid w1) as [rc w2] eqn:E2.
  apply ConsumeInstallState_spec in E2 as [Hi2 Hc]. destruct rc as [orgID|e]; [|left; congruence].
  destruct Hc as (s1 & H1 & <- & Hcons & Hexp & Hgh & _ & s' & Hs' & Hs'c).
  destruct (Hs s1 H1 Hcons Hexp Hgh) as (s & Hs0 & Horg & Hu).
  gstep_. destruct (UpsertInstallation _ _ w2) as [ru w3] eqn:E3.
  apply UpsertInstallation_spec in E3 as [Hst3 Hi3].
  assert (g_installations (w_db w3) = g_installations (w_db w) \/ connects q w (w_db w3)) as Hfin.
  { destruct Hi3 as [Hi3|[t Hi3]]; [left; congruence|right].
    exists s, token, uid, id, t. split_and!; try done.
    - by rewrite Hi3, Horg, Hi2, Hi.
    - exists s'. split; [congruence|done]. }
  destruct ru; gstep_; exact Hfin.
Qed.

#[local] Ltac keep := cbv beta iota; by left.

Lemma Callback_spec q w :
  let '(_, w') := Callback h q w in
  g_installations (w_db w') = g_installations (w_db w) \/ connects q w (w_db w').
Proof.
  apply wp_let. unfold Callback. gstep_. split; intros _; [keep|].
  gstep_. split; intros _; [keep|]. gstep_. split; intros _; [keep|].
  gstep_. split; intros _; [keep|]. gstep_. destruct (ExchangeCode (cq_code q)) as [token|e] eqn:Et; [|keep].
  gstep_. destruct (AuthenticatedUserID token) as [uid|e] eqn:Eu; [|keep]. gstep_.
  unfold authorize. destruct (_ =? 0)%Z.
  - gstep_. destruct (AuthorizeInstallState _ uid w) as [ra w1] eqn:E1.
    apply AuthorizeInstallState_spec in E1 as (Hi1 & Hc1 & Hs1).
    destruct ra as [o|e]; [|keep]. gstep_. destruct (FindUserInstallation token) as [[id|]|e];
      [|keep..]. gstep_. split; [keep|]. intros ? [= <-].
    apply finish_callback_wp; [done..|]. intros s1 Hst Hcons Hexp Hgh. rewrite Hc1 in Hexp.
    destruct Hs1 as [Hd|(s & t & Hs & Hsc & Hse & Hsa & Hst1)].
    + rewrite Hd in Hst. exists s1.
      split_and!; [done..|]. unfold usable_state. split_and!; [done..|by right].
    + rewrite Hst1, lookup_insert_eq in Hst. simplify_eq/=. exists s.
      split_and!; [done..|]. unfold usable_state. split_and!; [done..|by left].
  - gstep_. apply finish_callback_wp; [done..|]. intros s1 Hst Hcons Hexp Hgh. exists s1.
    split_and!; [done..|]. unfold usable_state. split_and!; [done..|by right].
Qed.
End CallbackFacts.

(** ** The worker *)

Section WorkerFacts.
Context `{HC : Collation} `{HU : UuidGen} `{HG : GithubClient} (owner : string).

Lemma wrap64_id z : (- 2 ^ 63 <= z < 2 ^ 63)%Z -> wrap64 z = z.
Proof. intros Hz. unfold wrap64. rewrite Z.mod_small by lia. lia. Qed.

Lemma backoff_eq a : (0 <= a <= 62)%Z -> backoff a = (Z.min (2 ^ a) 300 * second)%Z.
Proof.
  intros Ha. assert (1 <= 2 ^ a <= 2 ^ 62)%Z as Hp.
  { split; [pose proof (Z.pow_pos_nonneg 2 a); lia|apply Z.pow_le_mono_r; lia]. }
  unfold backoff. rewrite (wrap64_id (2 ^ a)) by lia. apply wrap64_id. unfold second. lia.
Qed.

(** A claimed job: its row is leased to the caller, and nothing else changed. *)
Lemma ClaimJob_row lease w job w1 :
  imports_ok (w_db w) -> ClaimJob owner lease w = (Ok (Some job), w1) ->
  w_clock w1 = w_clock w /\ exists j, g_jobs (w_db w1) !! j_ID job = Some j /\ job = scan_job j /\
    jr_CompletedAt j = None /\ jr_LeaseOwner j = Some owner /\
    jr_LeaseExpiresAt j = Some (w_clock w + lease)%Z /\ g_imports (w_db w1) = g_imports (w_db w) /\
    (forall id, id <> j_ID job -> g_jobs (w_db w1) !! id = g_jobs (w_db w) !! id).
Proof.
  intros Hok Hc. split; [by eapply db_op_clock|]. apply db_op_ok in Hc.
  destruct (head _) as [j0|] eqn:E; [|done]. injection Hc as <- <-.
  destruct (first_by_Some claim_order _ _ _ E) as ([k Hk] & Hcl & _).
  destruct (ok_jobs _ Hok k j0 Hk) as [<- _]. unfold claimable in Hcl. bool_to_prop.
  exists (claim_row owner lease (w_clock w) j0). split_and!; try done; cbn.
  - apply lookup_insert_eq.
  - by apply found_false.
  - intros id Hne. by rewrite lookup_insert_ne.
Qed.

Lemma db_write_cases (f : Z -> GithubDB -> GithubDB) w r w' :
  db_write f w = (r, w') ->
  w_clock w' = w_clock w /\
  ((r = Ok tt /\ w_db w' = f (w_clock w) (w_db w)) \/ (r = Err ErrDriver /\ w_db w' = w_db w)).
Proof.
  intros Hw. split; [by eapply db_op_clock|].
  apply db_op_cases in Hw as [[-> Hd]|(d & Hf & <-)]; [by right|]. injection Hf as <- <-. by left.
Qed.

Lemma update_import_jobs orgID id cond f d : g_jobs (update_import orgID id cond f d) = g_jobs d.
Proof. unfold update_import. destruct (find_import _ _ _); [|done]. by destruct (cond _). Qed.

(** Processing leaves the jobs alone, and everything when it fails. *)
Lemma process_spec job w r w' :
  process job w = (r, w') ->
  g_jobs (w_db w') = g_jobs (w_db w) /\ w_clock w' = w_clock w /\
  match r with Err _ => w_db w' = w_db w | Ok _ => True end.
Proof.
  set (P := fun (r : result app_err unit) (w' : World GithubDB) =>
    g_jobs (w_db w') = g_jobs (w_db w) /\ w_clock w' = w_clock w /\
    match r with Err _ => w_db w' = w_db w | Ok _ => True end).
  intros Hp. enough (let '(r, w') := process job w in P r w') as Hx by (by rewrite Hp in Hx).
  clear Hp r w'. apply wp_let. gstep_.
  destruct (GetImport _ _ w) as [[v|e] w1] eqn:E1;
    pose proof (GetImport_db (j_OrgID job) (j_ImportID job) w) as D1; rewrite E1 in D1; cbn in D1;
    apply db_op_clock in E1; [|by split_and!; congruence].
  gstep_. destruct (GetInstallation _ w1) as [[i|e] w2] eqn:E2; pose proof (db_read_db _ _ _ _ E2) as D2;
    apply db_op_clock in E2; [|unfold P; split_and!; congruence].
  gstep_. split; [intros _; unfold P; split_and!; congruence|intros inst _].
  gstep_. rewrite wp_try.
  assert ((resolveRepository (in_GitHubInstallationID inst) v w2).2 = w2) as D3.
  { apply (wp_func _ (fun _ w' => w' = w2)). gstep_.
    destruct (GetInstallationAccount _); [|done]. gstep_. split; intros _; [done|]. by gstep_. }
  destruct (resolveRepository _ _ w2) as [[rp|e] w3]; cbn in D3; subst w3;
    [|unfold P; split_and!; congruence].
  destruct (String.eqb _ _); [|destruct (String.eqb _ _)]; gstep_.
  - destruct (StartRun _ _ _); [|unfold P; split_and!; congruence]. gstep_.
    destruct (SetImportRunQueued _ _ w2) as [ru w4] eqn:E4. apply db_write_cases in E4 as [C4 [[-> D4]|[-> D4]]];
      unfold P; split_and!; try done; rewrite ?D4, ?update_import_jobs; congruence.
  - destruct (OpenPullRequest _ _ _); [|unfold P; split_and!; congruence]. gstep_.
    destruct (SetImportPullRequest _ _ _ w2) as [ru w4] eqn:E4.
    apply db_write_cases in E4 as [C4 [[-> D4]|[-> D4]]];
      unfold P; split_and!; try done; rewrite ?D4, ?update_import_jobs; congruence.
  - unfold P; split_and!; congruence.
Qed.

(** What processing a job did to its import: the run was started and the import
    queued, if it was still waiting for that; or the pull request was opened
    and its address recorded. *)
Definition advanced (job : Job) (d d' : GithubDB) : Prop :=
  exists r0 v t inst repo, g_imports d !! j_ImportID job = Some r0 /\ i_OrgID r0 = j_OrgID job /\
    scan_import d r0 = Some v /\
    ((j_Kind job = JobStart /\ StartRun inst v repo = Ok tt /\
      g_imports d' = <[j_ImportID job := if has_status StateSelected r0 then with_status StateRunQueued t r0
                                         else r0]> (g_imports d)) \/
     (j_Kind job = JobOpenPR /\ exists url, OpenPullRequest inst v repo = Ok url /\
      g_imports d' = <[j_ImportID job := with_pr url (touch_import t r0)]> (g_imports d))).

Lemma update_import_row orgID id cond f d r :
  g_imports d !! id = Some r -> i_OrgID r = orgID ->
  g_imports (update_import orgID id cond f d) = <[id := if cond r then f r else r]> (g_imports d).
Proof.
  intros Hr Ho. unfold update_import. rewrite (proj2 (find_import_Some _ _ _ r)) by done.
  destruct (cond r); [done|]. by rewrite insert_id.
Qed.

Lemma process_effect job w r w' :
  process job w = (r, w') -> later w w' /\ (r = Ok tt -> advanced job (w_db w) (w_db w')).
Proof.
  set (P := fun (r : result app_err unit) (w' : World GithubDB) =>
    later w w' /\ (r = Ok tt -> advanced job (w_db w) (w_db w'))).
  intros Hp. enough (let '(r, w') := process job w in P r w') as Hx by (by rewrite Hp in Hx).
  clear Hp r w'. apply wp_let. gstep_. unfold P.
  destruct (GetImport _ _ w) as [[v|e] w1] eqn:E1; pose proof (db_op_split _ _ _ _ E1) as [L1 S1]; [|done].
  destruct S1 as [(_ & ? & _)|S1]; [done|]. injection S1 as S1 D1.
  destruct (find_import _ _ _) as [r0|] eqn:F; [|done]. destruct (scan_import _ r0) as [v0|] eqn:V; [|done].
  injection S1 as ->. apply find_import_Some in F as [Hr Ho].
  gstep_. destruct (GetInstallation _ w1) as [[i|e] w2] eqn:E2; pose proof (db_op_split _ _ _ _ E2) as [L2 _];
    pose proof (db_read_db _ _ _ _ E2) as D2; [|split; [by eapply later_trans|done]].
  assert (later w w2) as L by by eapply later_trans.
  gstep_. split; [done|intros inst _]. gstep_. rewrite wp_try.
  assert ((resolveRepository (in_GitHubInstallationID inst) v w2).2 = w2) as D3.
  { apply (wp_func _ (fun _ w' => w' = w2)). gstep_.
    destruct (GetInstallationAccount _); [|done]. gstep_. split; intros _; [done|]. by gstep_. }
  destruct (resolveRepository _ _ w2) as [[rp|e] w3]; cbn in D3; subst w3; [|done].
  assert (w_db w2 = w_db w) as D by congruence.
  destruct (String.eqb (j_Kind job) JobStart) eqn:K1;
    [|destruct (String.eqb (j_Kind job) JobOpenPR) eqn:K2]; gstep_; bool_to_prop; [..|done].
  - destruct (StartRun _ _ _) as [[]|] eqn:St; [|done]. gstep_.
    destruct (SetImportRunQueued _ _ w2) as [ru w4] eqn:E4. apply db_write_split in E4 as [L4 E4].
    assert (later w w4) as L' by by eapply later_trans.
    destruct E4 as [(_ & -> & _)|(-> & D4)]; (split; [done|]); [done|intros _].
    exists r0, v, (w_clock w2), (in_GitHubInstallationID inst), rp. split_and!; [done..|]. left.
    split_and!; [done..|]. rewrite D4, D. by apply update_import_row.
  - destruct (OpenPullRequest _ _ _) as [url|] eqn:St; [|done]. gstep_.
    destruct (SetImportPullRequest _ _ _ w2) as [ru w4] eqn:E4. apply db_write_split in E4 as [L4 E4].
    assert (later w w4) as L' by by eapply later_trans.
    destruct E4 as [(_ & -> & _)|(-> & D4)]; (split; [done|]); [done|intros _].
    exists r0, v, (w_clock w2), (in_GitHubInstallationID inst), rp. split_and!; [done..|]. right.
    split; [done|]. exists url. split; [done|]. rewrite D4, D.
    by rewrite (update_import_row _ _ _ _ _ r0).
Qed.

(** Where a claimed job is after the turn from [w] to [w'] that processed it with
    the result [rp], and what the turn did to the imports. *)
Definition job_outcome (job : Job) (w : World GithubDB) (rp r : result app_err unit)
    (w' : World GithubDB) : Prop :=
  let d := w_db w in let d' := w_db w' in
  exists j, g_jobs d' !! j_ID job = Some j /\ jr_Attempts j = j_Attempts job /\
  match rp with
  | Ok _ => advanced job d d' /\
      ((r = Ok tt /\ found (jr_CompletedAt j) = true) \/
       (r = Err (StoreErr ErrDriver) /\ failed_between w w' /\
        held owner (w_clock w + lease_time) (j_ImportID job) (j_ID job) d'))
  | Err err =>
      (failed_between w w' /\ r <> Ok tt /\ g_imports d' = g_imports d /\
       held owner (w_clock w + lease_time) (j_ImportID job) (j_ID job) d') \/
      (r = Err err /\ jr_LeaseOwner j = None /\ jr_LastError j = message err /\
       if (j_MaxAttempts job <=? j_Attempts job)%Z then
         found (jr_CompletedAt j) = true /\
         (if String.eqb (j_Kind job) JobStart
          then exists r0 t, g_imports d !! j_ImportID job = Some r0 /\
                 g_imports d' = <[j_ImportID job := with_error (message err) (with_status StateFailed t r0)]>
                                  (g_imports d)
          else g_imports d' = g_imports d)
       else
         jr_CompletedAt j = None /\ g_imports d' = g_imports d /\
         exists now, (w_clock w <= now)%Z /\ jr_AvailableAt j = (now + backoff (j_Attempts job))%Z)
  end.

Lemma RetryJob_outcome job next msg w r w' j :
  imports_ok (w_db w) -> g_jobs (w_db w) !! j_ID job = Some j -> job = scan_job j ->
  jr_LeaseOwner j = Some owner -> RetryJob job owner next msg w = (r, w') ->
  later w w' /\ (forall id, id <> j_ID job -> g_jobs (w_db w') !! id = g_jobs (w_db w) !! id) /\
  ((failed_between w w' /\ r = Err ErrDriver /\ w_db w' = w_db w) \/
   (r = Ok tt /\ exists j', g_jobs (w_db w') !! j_ID job = Some j' /\ jr_Attempts j' = jr_Attempts j /\
      jr_LeaseOwner j' = None /\ jr_LastError j' = msg /\
      if (j_MaxAttempts job <=? j_Attempts job)%Z then
        found (jr_CompletedAt j') = true /\
        (if String.eqb (j_Kind job) JobStart
         then exists r0 t, g_imports (w_db w) !! j_ImportID job = Some r0 /\
                g_imports (w_db w') = <[j_ImportID job := with_error msg (with_status StateFailed t r0)]>
                                        (g_imports (w_db w))
         else g_imports (w_db w') = g_imports (w_db w))
      else jr_CompletedAt j' = jr_CompletedAt j /\ g_imports (w_db w') = g_imports (w_db w) /\
           jr_AvailableAt j' = next)).
Proof.
  intros Hok Hj Hjob Hl [L Hr]%db_write_split. split; [done|].
  destruct Hr as [(Hf & -> & Hd)|[-> Hd]]; [rewrite Hd; split; [done|by left]|].
  assert (forall f, update_leased (j_ID job) owner f (w_db w) =
    set_g_jobs (w_db w) (<[j_ID job := f j]> (g_jobs (w_db w)))) as Hup.
  { intros f. unfold update_leased. by rewrite Hj, bool_decide_true. }
  rewrite !Hup in Hd. destruct (_ <=? _)%Z.
  2: { rewrite Hd. split; [intros id Hne; cbn; by rewrite lookup_insert_ne|right]. split; [done|].
       exists (release_row msg next j). split_and!; try done. apply lookup_insert_eq. }
  destruct (ok_jobs _ Hok _ _ Hj) as [_ (r0 & Hr0 & Ho)].
  assert (g_jobs (w_db w') = <[j_ID job := finish_row msg (w_clock w) j]> (g_jobs (w_db w))) as Hg.
  { rewrite Hd. destruct (negb _); [done|by rewrite update_import_jobs]. }
  rewrite Hg. split; [intros id Hne; by rewrite lookup_insert_ne|right]. split; [done|].
  exists (finish_row msg (w_clock w) j). split_and!; try done; [apply lookup_insert_eq|].
  destruct (String.eqb (j_Kind job) JobStart) eqn:Ek; cbn [negb] in Hd; rewrite Hd; [|done].
  exists r0, (w_clock w). subst job. cbn in *. split; [done|].
  by rewrite (update_import_row _ _ _ _ _ r0).
Qed.

(** What the worker did with the job it had claimed. *)
Definition worked (job : Job) (w1 w : World GithubDB) (r : result app_err unit) (w' : World GithubDB) : Prop :=
  exists rp w2, process job w1 = (rp, w2) /\ job_outcome job w rp r w' /\
    forall id, id <> j_ID job -> g_jobs (w_db w') !! id = g_jobs (w_db w) !! id.

Lemma ClaimJob_auth lease w o w1 : ClaimJob owner lease w = (Ok o, w1) -> g_auth (w_db w1) = g_auth (w_db w).
Proof. intros Hc%db_op_ok. destruct (head _); by injection Hc as _ <-. Qed.

Lemma advanced_same job d1 d2 d1' d2' :
  g_imports d1 = g_imports d2 -> g_auth d1 = g_auth d2 -> g_imports d1' = g_imports d2' ->
  advanced job d1 d1' -> advanced job d2 d2'.
Proof.
  intros Hi Ha Hi' (r0 & v & t & inst & repo & H1 & H2 & H3 & H4). exists r0, v, t, inst, repo.
  rewrite <-Hi, <-Hi'. split_and!; [done..| |done]. revert H3. unfold scan_import. by rewrite Ha.
Qed.

Lemma claimed_outcome job w w1 rp w2 r w' :
  imports_ok (w_db w) -> imports_ok (w_db w1) -> ClaimJob owner lease_time w = (Ok (Some job), w1) ->
  process job w1 = (rp, w2) ->
  match rp with
  | Ok _ => stored (CompleteJob (j_ID job) owner) w2 = (r, w')
  | Err err => exists w3 rr, w_db w3 = w_db w2 /\ (w_clock w2 <= w_clock w3)%Z /\ later w2 w3 /\
      RetryJob job owner (w_clock w3 + backoff (j_Attempts job)) (message err) w3 = (rr, w') /\
      match rr with Ok _ => r = Err err | Err _ => r <> Ok tt end
  end ->
  worked job w1 w r w'.
Proof.
  intros Hok Hok1 E Ep Hrest. destruct (ClaimJob_row _ _ _ _ Hok E) as (C1 & j & Hj & Hjob & Hc & Hl & Hexp & Him & Hoth).
  destruct (db_op_split _ _ _ _ E) as [L1 _].
  assert (jr_Attempts j = j_Attempts job /\ jr_ImportID j = j_ImportID job) as [Hatt Hijob] by by subst job.
  pose proof (process_spec _ _ _ _ Ep) as (J2 & C2 & D2). pose proof (process_effect _ _ _ _ Ep) as (L2 & A2).
  assert (later w w2) as L by by eapply later_trans.
  assert (forall d, g_jobs d !! j_ID job = Some j ->
    held owner (w_clock w + lease_time) (j_ImportID job) (j_ID job) d) as Hheld by (intros d Hd; by exists j).
  exists rp, w2. split; [done|]. destruct rp as [[]|err].
  - unfold stored in Hrest. destruct (CompleteJob _ _ w2) as [rc w3] eqn:E3. injection Hrest as <- <-.
    apply db_write_split in E3 as [L3 E3].
    assert (forall d, g_imports d = g_imports (w_db w2) -> advanced job (w_db w) d) as A.
    { intros d Hd. eapply advanced_same; [exact Him|by eapply ClaimJob_auth|symmetry; exact Hd|by apply A2]. }
    destruct E3 as [(F3 & -> & D3)|[-> D3]]; rewrite D3.
    + split; [|intros id Hne; rewrite J2; by apply Hoth]. exists j. rewrite D3, J2. split_and!; [done|done|by apply A|right].
      split_and!; [done|by eapply failed_after|]. apply Hheld. by rewrite J2.
    + assert (g_jobs (w_db w3) = <[j_ID job := finish_row (jr_LastError j) (w_clock w2) j]> (g_jobs (w_db w1))) as Hg.
      { rewrite D3. unfold update_leased. cbv beta. by rewrite J2, Hj, bool_decide_true. }
      rewrite <-D3, Hg. split; [|intros id Hne; rewrite lookup_insert_ne by done; by apply Hoth].
      eexists. rewrite Hg. split_and!; [apply lookup_insert_eq|done| |by left].
      apply A. rewrite D3. apply update_leased_imports.
  - destruct Hrest as (w3 & rr & D3 & C3 & L3 & E4 & Hrr). rewrite <-D2 in Hok1, Hj, Him, Hoth.
    rewrite <-D3 in Hok1, Hj, Him, Hoth.
    destruct (RetryJob_outcome _ _ _ _ _ _ _ Hok1 Hj Hjob Hl E4) as (L4 & Hoth4 & Hcase).
    split; [|intros id Hne; rewrite Hoth4 by done; by apply Hoth].
    destruct Hcase as [(F4 & -> & D4)|(-> & j' & Hj' & Ha & Hl' & He & Ho)].
    + unfold job_outcome. rewrite D4. exists j. split_and!; [done..|]. left. split_and!; [|done..|by apply Hheld].
      eapply failed_after; [exact L|]. by eapply failed_after.
    + exists j'. split_and!; [done|congruence|]. right. subst r. split_and!; [done..|]. revert Ho.
      rewrite Him. destruct (_ <=? _)%Z; [done|]. intros (Hc' & Hi' & Hav).
      split_and!; [congruence|done|]. exists (w_clock w3). split; [lia|done].
Qed.

(** A turn that took no job up: nothing was claimable, or claiming failed. *)
Definition idle (w : World GithubDB) (r : result app_err unit) (w' : World GithubDB) : Prop :=
  w_db w' = w_db w /\
  ((r = Ok tt /\ forall id j, g_jobs (w_db w) !! id = Some j -> claimable (w_clock w) j = false) \/
   (r = Err (StoreErr ErrDriver) /\ failed_between w w')).

Lemma runOne_spec w r w' :
  imports_ok (w_db w) -> runOne owner w = (r, w') ->
  idle w r w' \/
  exists job w1, ClaimJob owner lease_time w = (Ok (Some job), w1) /\ worked job w1 w r w'.
Proof.
  intros Hok Hr. set (P := fun (r : result app_err unit) (w' : World GithubDB) => idle w r w' \/
    exists job w1, ClaimJob owner lease_time w = (Ok (Some job), w1) /\ worked job w1 w r w').
  enough (let '(r, w') := runOne owner w in P r w') as Hx by (by rewrite Hr in Hx).
  clear Hr r w'. apply wp_let. gstep_.
  destruct (ClaimJob owner lease_time w) as [[[job|]|e] w1] eqn:E.
  2: { gstep_. split; [intros _|done]. left. pose proof (ClaimJob_spec _ _ _ _ _ Hok E) as [D Hn].
       split; [done|by left]. }
  2: { left. apply db_op_split in E as [_ [(F & [= ->] & D)|E]]; [by split; [|right]|]. by destruct (head _). }
  assert (imports_ok (w_db w1)) as Hok1.
  { replace w1 with (run_op (OpClaimJob owner lease_time) w) by (unfold run_op, after; by rewrite E).
    by apply run_op_ok. }
  gstep_. split; [done|intros ? [= <-]]. gstep_.
  destruct (process job w1) as [rp w2] eqn:Ep. cbn [fst snd].
  assert (forall r w', worked job w1 w r w' -> P r w') as Hout
    by (intros r w' Hx; right; by exists job, w1).
  destruct rp as [[]|err]; gstep_.
  - destruct (CompleteJob _ _ w2) as [[[]|e] w3] eqn:E3; apply Hout, (claimed_outcome _ _ _ _ _ _ _ Hok Hok1 E Ep);
      unfold stored; by rewrite E3.
  - pose proof (time_now_db w2) as DT. pose proof (time_now_clock w2) as [TT CT]. pose proof (time_now_later w2) as LT.
    destruct (time_now w2) as [now w3]; cbn [fst snd] in *. gstep_. subst now.
    destruct (RetryJob job owner _ _ w3) as [[[]|e] w4] eqn:E4; gstep_;
      apply Hout, (claimed_outcome _ _ _ _ _ _ _ Hok Hok1 E Ep); exists w3; eexists;
      (split_and!; [done|lia|done|exact E4|done]).
Qed.

Lemma without_lease_spec job next msg w w' j r0 :
  g_jobs (w_db w) !! j_ID job = Some j -> jr_LeaseOwner j <> Some owner -> j_Kind job = JobStart ->
  (j_MaxAttempts job <= j_Attempts job)%Z ->
  g_imports (w_db w) !! j_ImportID job = Some r0 -> i_OrgID r0 = j_OrgID job ->
  RetryJob job owner next msg w = (Ok tt, w') ->
  g_jobs (w_db w') = g_jobs (w_db w) /\
  exists r', g_imports (w_db w') !! j_ImportID job = Some r' /\ i_Status r' = StateFailed.
Proof.
  intros Hj Hl Hk Hm Hr Ho Hw%db_write_ok. apply Z.leb_le in Hm. rewrite Hm, Hk in Hw.
  cbn [negb String.eqb Ascii.eqb Bool.eqb] in Hw.
  assert (update_leased (j_ID job) owner (finish_row msg (w_clock w)) (w_db w) = w_db w) as Hu
    by (unfold update_leased; by rewrite Hj, bool_decide_false).
  rewrite Hu, String.eqb_refl in Hw. cbn [negb] in Hw. rewrite Hw. split; [apply update_import_jobs|].
  unfold update_import. rewrite (proj2 (find_import_Some _ _ _ r0)) by done. cbn.
  eexists. split; [apply lookup_insert_eq|done].
Qed.
End WorkerFacts.

(** ** The properties *)

Section Properties.
Context `{HC : Collation} `{HU : UuidGen} `{HS : Sha256} `{HM : Hmac} `{HG : GithubClient}
  `{HP : PayloadDecoder}.

(** (lemma) A webhook changes the tables only when its signature is the HMAC of its
    body and its delivery id is new; then the id is recorded and at most one
    operation follows, the one its event names, so no delivery is applied
    twice.  A bad signature is answered 400 or 401. *)
Theorem Webhook_safe h r w :
  imports_ok (w_db w) ->
  let '(rep, w') := Webhook h r w in
  imports_ok (w_db w') /\
  (validSignature (wh_body r) (wh_signature r) (gh_webhookSecret h) = false ->
     (status rep = 400%Z \/ status rep = 401%Z) /\ w_db w' = w_db w) /\
  (wh_delivery r ∈ g_deliveries (w_db w) -> w_db w' = w_db w) /\
  (w_db w' = w_db w \/
   (g_deliveries (w_db w') = {[wh_delivery r]} ∪ g_deliveries (w_db w) /\
    exists payload w1, decode_payload (wh_body r) = Some payload /\
      w_db w1 = record_delivery (wh_delivery r) (w_db w) /\
      (w_db w' = w_db w1 \/
       exists o, event_op (wh_event r) payload = Some o /\ w_db w' = w_db (run_op o w1)))).
Proof. apply Webhook_safe_spec. Qed.

(** (lemma) The delivery is recorded before its event is stored: when storing the
    event fails the sender is told 500, and its redelivery - the same request -
    is acknowledged and changes nothing, so the event is lost. *)
Theorem Webhook_lost h r w fs payload :
  w_faults w = false :: true :: fs ->
  (Z.of_nat (String.length (wh_body r)) <= maxWebhookBody)%Z ->
  validSignature (wh_body r) (wh_signature r) (gh_webhookSecret h) = true ->
  wh_delivery r <> EmptyString -> wh_event r = "workflow_run" ->
  decode_payload (wh_body r) = Some payload ->
  wr_Event (pl_WorkflowRun payload) = "push" ->
  IsOnboardingWorkflowPath (wr_Path (pl_WorkflowRun payload)) = true ->
  wh_delivery r ∉ g_deliveries (w_db w) ->
  let '(rep, w') := Webhook h r w in
  status rep = 500%Z /\ w_db w' = record_delivery (wh_delivery r) (w_db w) /\
  let '(rep2, w2) := Webhook h r w' in
  (status rep2 = 202%Z \/ status rep2 = 500%Z) /\ w_db w2 = w_db w'.
Proof. apply Webhook_lost_spec. Qed.

(** (lemma) Connecting an organization: a callback changes the installations only
    through an install state with the hash of the presented secret that is
    unexpired, not consumed before and consumed by this call, and not
    authorized by another GitHub user; the installation is one GitHub confirmed
    for that user, and it is stored for the organization of the state. *)
Theorem Callback_connects h q w :
  let '(_, w') := Callback h q w in
  g_installations (w_db w') = g_installations (w_db w) \/ connects q w (w_db w').
Proof. apply Callback_spec. Qed.


(** (lemma) A worker that gives up on a start job fails the import even when it no
    longer holds the job's lease, and whatever the import's status is: the job
    of the new owner goes on, for an import marked failed. *)
Theorem RetryJob_without_lease owner job next msg w w' j r0 :
  g_jobs (w_db w) !! j_ID job = Some j -> jr_LeaseOwner j <> Some owner -> j_Kind job = JobStart ->
  (j_MaxAttempts job <= j_Attempts job)%Z ->
  g_imports (w_db w) !! j_ImportID job = Some r0 -> i_OrgID r0 = j_OrgID job ->
  RetryJob job owner next msg w = (Ok tt, w') ->
  g_jobs (w_db w') = g_jobs (w_db w) /\
  exists r', g_imports (w_db w') !! j_ImportID job = Some r' /\ i_Status r' = StateFailed.
Proof. apply without_lease_spec. Qed.
End Properties.

(** ** A concrete instance *)

Module AppDemo.
Import LifeDemo.

Lemma zeros_bytes n : Forall (fun b => (b < 256)%N) (replicate n 0%N).
Proof. by apply Forall_replicate. Qed.
#[export] Instance demo_hmac : Hmac :=
  {| hmac_sha256 := fun _ _ => replicate 32 0%N; hmac_bytes := fun _ _ => zeros_bytes 32 |}.
Definition demo_repository : Repository :=
  mkRepository 1 5 "acme" "shop" "acme/shop" "https://github.com/acme/shop" "main" false false.
#[export] Instance demo_client : GithubClient :=
  {| AuthorizationURL := fun s _ => s; InstallationURL := fun s => s; ExchangeCode := fun c => Ok c;
     AuthenticatedUserID := fun _ => Ok 9; FindUserInstallation := fun _ => Ok (Some 77);
     VerifyUserInstallation := fun _ _ => Ok tt; ListInstallationRepositories := fun _ => Ok [];
     GetRepository := fun _ _ _ => Ok demo_repository;
     GetInstallationAccount := fun i => Ok (mkInstallation EmptyString i 0 5 "acme" "Organization" false);
     DeleteUserInstallation := fun _ => Ok tt;
     GetWorkflowRun := fun _ _ _ _ => Err (ClientErr true "not found");
     ListWorkflowRunJobs := fun _ _ _ => Ok []; RerunFailedJobs_ := fun _ _ _ => Ok tt;
     StartRun := fun _ _ _ => Ok tt; OpenPullRequest := fun _ _ _ => Ok "https://github.com/pr/1" |}.
Definition demo_payload : Payload :=
  mkPayload "completed" 77 demo_url (push 10 1 "completed" "success") None.
#[export] Instance demo_payloads : PayloadDecoder := {| decode_payload := fun _ => Some demo_payload |}.

Definition demo_handler : GithubHandler :=
  mkGithubHandler true "https://api.example.com/callback" "secret" "https://api.example.com" EmptyString.
Definition demo_request : webhookRequest :=
  mkWebhookRequest "{}" ("sha256=" +:+ hex_encode (replicate 32 0%N)) "d1" "workflow_run".
Definition flaky : World GithubDB := with_faults created [false; true].

(** The delivery of the example completes the import. *)
Example demo_webhook_completes :
  let '(rep, w') := Webhook demo_handler demo_request created in
  status rep = 202%Z /\ i_Status (row w') = StateCompleted.
Proof. vm_compute. split; reflexivity. Qed.

Lemma Webhook_safe_witness :
  let '(rep, w') := Webhook demo_handler demo_request created in imports_ok (w_db w').
Proof.
  pose proof (Webhook_safe demo_handler demo_request created created_ok) as Hw.
  destruct (Webhook demo_handler demo_request created) as [rep w']. apply Hw.
Defined.

Lemma Webhook_lost_witness :
  let '(rep, w') := Webhook demo_handler demo_request flaky in
  status rep = 500%Z /\ w_db w' = record_delivery "d1" (w_db flaky) /\
  let '(rep2, w2) := Webhook demo_handler demo_request w' in
  (status rep2 = 202%Z \/ status rep2 = 500%Z) /\ w_db w2 = w_db w'.
Proof.
  apply (Webhook_lost demo_handler demo_request flaky [] demo_payload); try (vm_compute; reflexivity).
  - vm_compute. intros Hc. discriminate Hc.
  - vm_compute. intros Hc. discriminate Hc.
  - intros Hin. assert (g_deliveries (w_db flaky) = ∅) as He by (vm_compute; reflexivity).
    rewrite He in Hin. by apply not_elem_of_empty in Hin.
Defined.


(** The start job of a completed import, taken over by [w1]; [w0] gives up. *)
Definition taken_over :=
  run_op (OpApplyWorkflowRunEvent (push 10 1 "completed" "success") demo_url) (ClaimJob "w1" 120 created).2.
Definition late_job : Job := mkJob j1 "o1" k1 JobStart 8 8.
Definition claimed_row : JobRow :=
  mkJobRow j1 "o1" k1 JobStart 1000 (Some "w1") (Some 1120) 1 8 EmptyString None 1000.

Lemma RetryJob_without_lease_witness :
  i_Status (row taken_over) = StateCompleted /\
  let w' := (RetryJob late_job "w0" 2000 "timeout" taken_over).2 in
  g_jobs (w_db w') = g_jobs (w_db taken_over) /\
  exists r', g_imports (w_db w') !! k1 = Some r' /\ i_Status r' = StateFailed.
Proof.
  split; [vm_compute; reflexivity|].
  apply (RetryJob_without_lease "w0" late_job 2000 "timeout" taken_over _ claimed_row (row taken_over));
    try (vm_compute; reflexivity).
  - intros Hc. discriminate Hc.
  - vm_compute. intros Hc. discriminate Hc.
Defined.

(** A year on: from January 1, from a leap day (to March 1), and over one. *)
Example AddYear_days :
  map (fun d => AddYear (d * day_ns + 5)) [738520; 738944; 738580]%Z =
  map (fun d => d * day_ns + 5)%Z [738885; 739310; 738946]%Z.
Proof. vm_compute. reflexivity. Qed.
End AppDemo.
