(* ===== verification/WorkerLiveness.v ===== *)
(** * WorkerLiveness: the job queue drains

    The worker of [internal/githubapp/worker.go] ([runOne] of [GithubApp])
    finishes every job: a turn in which no statement fails takes one job nearer
    to its end, and the number of turns is bounded by the attempts left. *)

From S2P Require Import Prelude GoStrings Effects Table AuthStore GithubStore ImportLife GithubApp.
Set Warnings "-clear-no-such-hyp".

(** ** Without failures *)

Definition fault_free {DB} (w : World DB) : Prop := Forall (eq false) (w_faults w).

(** [fkeeps m]: the call does not bring failures back. *)
Definition fkeeps {DB A} (m : Eff (World DB) A) : Prop := forall w, fault_free w -> fault_free (m w).2.
Definition gfkeeps {DB R A} (m : Go (World DB) R A) : Prop := forall w, fault_free w -> fault_free (m w).2.

Section FaultFree.
Context {DB : Type}.

Lemma fkeeps_func {R} (m : Go (World DB) R R) : gfkeeps m -> fkeeps (func m).
Proof. intros Hm w Hw. specialize (Hm w Hw). unfold func. by destruct (m w) as [[?|?] ?]. Qed.
Lemma gfkeeps_bind {R A B} (m : Go (World DB) R A) (f : A -> Go (World DB) R B) :
  gfkeeps m -> (forall a, gfkeeps (f a)) -> gfkeeps (gbind m f).
Proof.
  intros Hm Hf w Hw. specialize (Hm w Hw). unfold gbind. destruct (m w) as [[r|a] w']; [done|]. by apply Hf.
Qed.
Lemma gfkeeps_call {R A} (m : Eff (World DB) A) : fkeeps m -> gfkeeps (call (R := R) m).
Proof. intros Hm w Hw. specialize (Hm w Hw). unfold call. by destruct (m w). Qed.
Lemma gfkeeps_try {R E A} (m : Eff (World DB) (result E A)) (on_err : E -> R) : fkeeps m -> gfkeeps (try m on_err).
Proof. intros Hm. apply gfkeeps_bind; [by apply gfkeeps_call|]. by intros [a|e] w Hw. Qed.
Lemma gfkeeps_pure {R A} (m : Go (World DB) R A) : (forall w, (m w).2 = w) -> gfkeeps m.
Proof. intros Hm w Hw. by rewrite Hm. Qed.
Lemma fkeeps_op {A} (f : Z -> DB -> result store_err A * DB) : fkeeps (db_op f).
Proof.
  intros w Hw. unfold fault_free, db_op in *. destruct (w_faults w) as [|[] fs] eqn:E; cbn.
  - by destruct (f _ _).
  - by inversion Hw.
  - destruct (f _ _). by inversion Hw.
Qed.

(** A statement without failures runs. *)
Lemma db_op_fault_free {A} (f : Z -> DB -> result store_err A * DB) w r w' :
  fault_free w -> db_op f w = (r, w') -> fault_free w' /\ w_clock w' = w_clock w /\ f (w_clock w) (w_db w) = (r, w_db w').
Proof.
  intros Hw He. pose proof (fkeeps_op f w Hw) as Hw'. rewrite He in Hw'.
  split; [exact Hw'|]. split; [by eapply db_op_clock|]. unfold fault_free, db_op in *.
  destruct (w_faults w) as [|[] fs]; [|by inversion Hw|]; destruct (f _ _); by simplify_eq/=.
Qed.
End FaultFree.

(** ** The work left in the queue *)

Definition job_finished (j : JobRow) : bool := found (jr_CompletedAt j).

(** The turns a job can still take. *)
Definition cost (j : JobRow) : nat :=
  if job_finished j then 0 else Nat.max 1 (Z.to_nat (jr_MaxAttempts j - jr_Attempts j)).
Definition total (l : list JobRow) : nat := sum_list_with cost l.
Definition work (d : GithubDB) : nat := total (rows (g_jobs d)).

Lemma total_perm l1 l2 : l1 ≡ₚ l2 -> total l1 = total l2.
Proof. unfold total. by intros ->. Qed.

Lemma work_at (t : gmap string JobRow) k j :
  t !! k = Some j -> total (rows t) = cost j + total (rows (delete k t)).
Proof.
  intros Hk. unfold rows. rewrite <-(total_perm _ _ (fmap_Permutation snd _ _ (map_to_list_delete t k j Hk))). done.
Qed.

Lemma work_insert (t : gmap string JobRow) k j j' :
  t !! k = Some j -> total (rows (<[k := j']> t)) + cost j = total (rows t) + cost j'.
Proof.
  intros Hk. rewrite (work_at t k j Hk), (work_at (<[k := j']> t) k j') by apply lookup_insert_eq.
  rewrite delete_insert_eq. lia.
Qed.

Lemma work_zero d k j : work d = 0 -> g_jobs d !! k = Some j -> job_finished j = true.
Proof.
  intros H0 Hj. unfold work in H0. rewrite (work_at _ _ _ Hj) in H0. unfold cost in H0.
  destruct (job_finished j); [done|lia].
Qed.

Definition jobs_keyed (d : GithubDB) : Prop := forall k j, g_jobs d !! k = Some j -> jr_ID j = k.

(** ** A turn of the worker *)

Section Turns.
Context `{Collation} `{GithubClient}.

Lemma claim_fault_free owner w r w1 :
  fault_free w -> jobs_keyed (w_db w) -> ClaimJob owner lease_time w = (r, w1) ->
  fault_free w1 /\ w_clock w1 = w_clock w /\
  ((r = Ok None /\ w_db w1 = w_db w /\ forall k j, g_jobs (w_db w) !! k = Some j -> claimable (w_clock w) j = false) \/
   exists j, g_jobs (w_db w) !! jr_ID j = Some j /\ claimable (w_clock w) j = true /\
     let j' := claim_row owner lease_time (w_clock w) j in
     r = Ok (Some (scan_job j')) /\ w_db w1 = set_g_jobs (w_db w) (<[jr_ID j := j']> (g_jobs (w_db w)))).
Proof.
  intros Hw Hk Hc. unfold ClaimJob in Hc. destruct (db_op_fault_free _ _ _ _ Hw Hc) as (Hw1 & Hcl & Hf).
  split; [done|]. split; [done|]. destruct (head _) as [j|] eqn:E; injection Hf as <- <-.
  - right. destruct (first_by_Some claim_order _ _ _ E) as ([k Hj] & Hcj & _). rewrite <-(Hk _ _ Hj) in Hj. by exists j.
  - left. split_and!; [done|done|]. by rewrite first_by_None in E.
Qed.

Lemma stored_fkeeps {A} (m : GEff A) : fkeeps m -> fkeeps (stored m).
Proof. intros Hm w Hw. specialize (Hm w Hw). unfold stored. by destruct (m w). Qed.

Lemma github_fkeeps {A} (r : result app_err A) : fkeeps (github r).
Proof. by intros w. Qed.

Lemma process_fault_free job : fkeeps (process job).
Proof.
  unfold process. apply fkeeps_func.
  apply gfkeeps_bind; [apply gfkeeps_try, stored_fkeeps, fkeeps_op|intros v].
  apply gfkeeps_bind; [apply gfkeeps_try, stored_fkeeps, fkeeps_op|intros inst].
  apply gfkeeps_bind; [apply gfkeeps_pure; by destruct inst|intros i].
  apply gfkeeps_bind; [apply gfkeeps_try|intros rp].
  { unfold resolveRepository. apply fkeeps_func, gfkeeps_bind; [apply gfkeeps_try, github_fkeeps|intros a].
    apply gfkeeps_bind; [apply gfkeeps_pure; intros w; by destruct (negb _)|]. intros _. apply gfkeeps_call, github_fkeeps. }
  destruct (String.eqb _ _); [|destruct (String.eqb _ _)].
  - apply gfkeeps_bind; [apply gfkeeps_try, github_fkeeps|]. intros _. apply gfkeeps_call, stored_fkeeps, fkeeps_op.
  - apply gfkeeps_bind; [apply gfkeeps_try, github_fkeeps|]. intros u. apply gfkeeps_call, stored_fkeeps, fkeeps_op.
  - by apply gfkeeps_pure.
Qed.

(** Where a claimed job ends: finished, or released for a later attempt. *)
Definition ended (j j' : JobRow) : Prop :=
  jr_ID j' = jr_ID j /\ jr_MaxAttempts j' = jr_MaxAttempts j /\ jr_Attempts j' = (jr_Attempts j + 1)%Z /\
  (job_finished j' = true \/ (job_finished j' = false /\ (jr_Attempts j' < jr_MaxAttempts j')%Z)).

Lemma update_leased_row id owner f d j :
  g_jobs d !! id = Some j -> jr_LeaseOwner j = Some owner ->
  g_jobs (update_leased id owner f d) = <[id := f j]> (g_jobs d).
Proof. intros Hj Ho. unfold update_leased. by rewrite Hj, bool_decide_true. Qed.

Lemma runOne_turn owner w r w' :
  fault_free w -> jobs_keyed (w_db w) -> runOne owner w = (r, w') ->
  (g_jobs (w_db w') = g_jobs (w_db w) /\
   forall k j, g_jobs (w_db w) !! k = Some j -> claimable (w_clock w) j = false) \/
  exists j j', g_jobs (w_db w) !! jr_ID j = Some j /\ job_finished j = false /\ ended j j' /\
    g_jobs (w_db w') = <[jr_ID j := j']> (g_jobs (w_db w)).
Proof.
  intros Hw Hk Hr. unfold runOne, func, gbind, try, gbind, call, stored in Hr.
  destruct (ClaimJob owner lease_time w) as [rc w1] eqn:E1.
  destruct (claim_fault_free _ _ _ _ Hw Hk E1) as (Hw1 & Hc1 & [(-> & Hd1 & Hnone)|(j & Hj & Hcl & Hok & Hd1)]).
  { cbn in Hr. injection Hr as <- <-. left. by rewrite Hd1. }
  right. cbn zeta in Hok, Hd1. subst rc. set (jc := claim_row owner lease_time (w_clock w) j) in *.
  cbn beta iota delta [non_nil gret call] in Hr.
  destruct (process (scan_job jc) w1) as [rp w2] eqn:Ep in Hr. pose proof (process_fault_free (scan_job jc) w1 Hw1) as Hw2.
  rewrite Ep in Hw2. cbn in Hw2. apply process_spec in Ep as (J2 & _ & D2).
  assert (g_jobs (w_db w2) !! jr_ID j = Some jc) as Hjc by (rewrite J2, Hd1; apply lookup_insert_eq).
  assert (job_finished j = false) as Hfin.
  { unfold claimable in Hcl. unfold job_finished. by destruct (found (jr_CompletedAt j)). }
  exists j. destruct rp as [[]|err].
  - destruct (CompleteJob _ _ w2) as [r3 w3] eqn:E3. unfold CompleteJob, db_write in E3. cbn [j_ID scan_job] in E3.
    destruct (db_op_fault_free _ _ _ _ Hw2 E3) as (_ & _ & Hf).
    injection Hf as <- Hd3. cbn in Hr. injection Hr as <- <-.
    exists (finish_row (jr_LastError jc) (w_clock w2) jc). split_and!; [done|done| |].
    + split_and!; [done..|]. by left.
    + rewrite <-Hd3, (update_leased_row _ _ _ _ jc), J2, Hd1 by done. cbn. apply insert_insert_eq.
  - pose proof (time_now_db w2) as DT.
    assert (fault_free (time_now w2).2) as Hw3 by (unfold time_now; by destruct (w_ticks w2)).
    destruct (time_now w2) as [now w3]. cbn in DT, Hw3. cbn beta iota in Hr.
    destruct (RetryJob _ _ _ _ w3) as [r4 w4] eqn:E4. unfold RetryJob, db_write in E4.
    destruct (db_op_fault_free _ _ _ _ Hw3 E4) as (_ & _ & Hf).
    injection Hf as <- Hd4. cbn in Hr. injection Hr as <- <-. rewrite DT in Hd4.
    assert (forall f, g_jobs (update_leased (jr_ID j) owner f (w_db w2)) = <[jr_ID j := f jc]> (g_jobs (w_db w))) as Hul.
    { intros f. rewrite (update_leased_row _ _ _ _ jc), J2, Hd1 by done. cbn. apply insert_insert_eq. }
    destruct (_ <=? _)%Z eqn:Em.
    + exists (finish_row (message err) (w_clock w3) jc). split_and!; [done|done|split_and!; [done..|by left]|].
      rewrite <-Hd4. destruct (negb _); [|rewrite update_import_jobs]; apply Hul.
    + exists (release_row (message err) (now + backoff (j_Attempts (scan_job jc)))%Z jc).
      split_and!; [done|done| |by rewrite <-Hd4].
      apply Z.leb_gt in Em. split_and!; [done..|]. right. split; [exact Hfin|exact Em].
Qed.

(** A turn of some worker: nothing fails, and it comes late enough that a job is
    due, when one is unfinished.  Time and everything else the environment
    chooses may change between turns; the tables carry over. *)
Definition unfinished (d : GithubDB) : Prop := exists k j, g_jobs d !! k = Some j /\ job_finished j = false.
Definition turn (d d' : GithubDB) : Prop :=
  exists owner w r w', fault_free w /\ w_db w = d /\ runOne owner w = (r, w') /\ w_db w' = d' /\
    (unfinished d -> exists k j, g_jobs d !! k = Some j /\ claimable (w_clock w) j = true).

Lemma ended_cost j j' : job_finished j = false -> ended j j' -> cost j' < cost j.
Proof.
  intros Hf (_ & Hm & Ha & [He|[He Hl]]); unfold cost; rewrite Hf, He; lia.
Qed.

Lemma turn_progress d d' :
  jobs_keyed d -> turn d d' -> jobs_keyed d' /\ (work d' < work d \/ (work d' = work d /\ ~ unfinished d')).
Proof.
  intros Hk (owner & w & r & w' & Hw & <- & Hr & <- & Hdue).
  destruct (runOne_turn owner w r w' Hw Hk Hr) as [[Hg Hnone]|(j & j' & Hj & Hf & He & Hg)].
  - unfold jobs_keyed, work, unfinished. rewrite Hg. split; [done|]. right. split; [done|].
    intros Hun. destruct (Hdue Hun) as (k & j & Hj & Hc). by rewrite (Hnone k j Hj) in Hc.
  - split.
    + intros k x. rewrite Hg. intros [[<- <-]|[_ Hx]]%lookup_insert_Some; [apply He|by apply Hk].
    + left. unfold work. rewrite Hg. pose proof (work_insert _ _ _ j' Hj) as Hi.
      pose proof (ended_cost _ _ Hf He). lia.
Qed.

Lemma turn_drained d d' : jobs_keyed d -> turn d d' -> ~ unfinished d -> ~ unfinished d'.
Proof.
  intros Hk (owner & w & r & w' & Hw & <- & Hr & <- & _) Hun.
  destruct (runOne_turn owner w r w' Hw Hk Hr) as [[Hg _]|(j & j' & Hj & Hf & _)].
  - unfold unfinished. by rewrite Hg.
  - destruct Hun. by exists (jr_ID j), j.
Qed.

Lemma stay_drained n d d' : jobs_keyed d -> nsteps turn n d d' -> ~ unfinished d -> ~ unfinished d'.
Proof.
  intros Hk Hn. induction Hn as [d|n d1 d2 d3 H12 Hn IH]; intros Hun; [exact Hun|].
  destruct (turn_progress _ _ Hk H12) as [Hk2 _]. apply (IH Hk2). exact (turn_drained _ _ Hk H12 Hun).
Qed.

Lemma drained n d d' : jobs_keyed d -> nsteps turn n d d' -> work d <= n -> ~ unfinished d'.
Proof.
  intros Hk Hn. induction Hn as [d|n d1 d2 d3 H12 Hn IH]; intros Hle.
  - intros (k & j & Hj & Hf). assert (work d = 0) as Hz by lia. by rewrite (work_zero d k j Hz Hj) in Hf.
  - destruct (turn_progress _ _ Hk H12) as [Hk2 [Hlt|[_ Hun]]]; [apply (IH Hk2); lia|].
    exact (stay_drained _ _ _ Hk2 Hn Hun).
Qed.

(** There is always a next turn. *)
Lemma turn_total (owner : string) d : exists d', turn d d'.
Proof.
  set (due := fun j => match jr_LeaseExpiresAt j with Some e => Z.max (jr_AvailableAt j) (e + 1) | None => jr_AvailableAt j end).
  set (t := match select_one (fun j => negb (job_finished j)) (g_jobs d) with Some j => due j | None => 0%Z end).
  destruct (runOne owner (mkWorld d [] t [] [])) as [r w'] eqn:E.
  exists (w_db w'), owner, (mkWorld d [] t [] []), r, w'. split_and!; [constructor|done|done|done|].
  intros (k0 & j0 & Hj0 & Hf0). subst t. cbn [w_clock].
  destruct (select_one _ _) as [j|] eqn:Es.
  - apply select_one_Some in Es as [[k Hk] Hf]. exists k, j. split; [done|].
    unfold claimable. unfold job_finished in Hf. rewrite Hf. subst due. cbn.
    destruct (jr_LeaseExpiresAt j) as [e|]; rewrite ?andb_true_iff, ?Z.leb_le, ?Z.ltb_lt; lia.
  - rewrite select_one_None in Es. specialize (Es k0 j0 Hj0). by rewrite Hf0 in Es.
Qed.

(** (C8) The queue drains: while statements do not fail, every turn that comes when
    a job is due brings the queue nearer to its end, whatever GitHub answers, so
    after as many turns as attempts are left - at most one turn for a job on
    its last attempt - every job is finished, and stays so; and a next turn is
    always possible. *)
Theorem queue_drains n (owner : string) d d' :
  jobs_keyed d -> nsteps turn n d d' -> work d <= n ->
  (forall k j, g_jobs d' !! k = Some j -> job_finished j = true) /\ exists d'', turn d' d''.
Proof.
  intros Hk Hn Hle. split; [|by apply (turn_total owner)]. intros k j Hj.
  apply not_false_iff_true. intros Hf. apply (drained n d d' Hk Hn Hle). by exists k, j.
Qed.
End Turns.

(** The start job of an import that has no installation: every attempt fails. *)
Module WorkerDemo.
Import LifeDemo AppDemo.

Definition at_time (d : GithubDB) (t : Z) : World GithubDB := mkWorld d [] t [] [].
Definition after_turn (d : GithubDB) (t : Z) : GithubDB := w_db (runOne "w1" (at_time d t)).2.
Definition days (n : Z) : Z := (n * day_ns)%Z.
Fixpoint after_turns (n : nat) (d : GithubDB) (t : Z) : GithubDB :=
  match n with O => d | S n => after_turns n (after_turn d t) (t + days 1)%Z end.

(** Eight refusals, a day apart, finish the job. *)
Example eight_attempts :
  map (fun n => map (fun j => (job_finished j, jr_Attempts j)) (rows (g_jobs (after_turns n (w_db created) (days 1))))) [0; 1; 7; 8]%nat
  = [[(false, 0)]; [(false, 1)]; [(false, 7)]; [(true, 8)]]%Z.
Proof. vm_compute. reflexivity. Qed.

Lemma due_turn d t : 
  existsb (fun j => claimable t j) (rows (g_jobs d)) = true -> turn d (after_turn d t).
Proof.
  intros Hc. exists "w1", (at_time d t), (runOne "w1" (at_time d t)).1, (runOne "w1" (at_time d t)).2.
  split; [constructor|]. split; [done|]. split; [by destruct (runOne _ _)|]. split; [done|]. intros _.
  apply existsb_exists in Hc as (j & Hin & Hj). apply list_elem_of_In, rows_elem in Hin as [k Hk]. by exists k, j.
Qed.

Fixpoint all_due (n : nat) (d : GithubDB) (t : Z) : bool :=
  match n with
  | O => true
  | S n => existsb (fun j => claimable t j) (rows (g_jobs d)) && all_due n (after_turn d t) (t + days 1)%Z
  end.
Lemma due_turns n d t : all_due n d t = true -> nsteps turn n d (after_turns n d t).
Proof.
  revert d t. induction n as [|n IH]; intros d t Hd; cbn in *; [constructor|].
  apply andb_true_iff in Hd as [H1 H2]. econstructor; [apply due_turn, H1|]. by apply IH.
Qed.

Lemma queue_drains_witness :
  jobs_keyed (w_db created) /\ work (w_db created) = 8 /\
  nsteps turn 8 (w_db created) (after_turns 8 (w_db created) (days 1)) /\
  forall k j, g_jobs (after_turns 8 (w_db created) (days 1)) !! k = Some j -> job_finished j = true.
Proof.
  assert (jobs_keyed (w_db created)) as Hk by (intros k j Hj; by destruct (ok_jobs _ created_ok k j Hj)).
  assert (nsteps turn 8 (w_db created) (after_turns 8 (w_db created) (days 1))) as Hn.
  { apply due_turns. vm_compute. reflexivity. }
  assert (work (w_db created) = 8) as Hw by (vm_compute; reflexivity).
  split; [exact Hk|]. split; [exact Hw|]. split; [exact Hn|].
  apply (queue_drains 8 "w1" _ _ Hk Hn). rewrite Hw. reflexivity.
Defined.
End WorkerDemo.
