(* ===== verification/Dependencies.v ===== *)
(** * Dependencies: the graph of services that depend on each other

    Models [internal/store/postgres/service_dependencies.go] and
    [internal/api/catalog/service_dependencies.go]: the sync of a service's
    declared dependencies, the lists of edges, and the walk of the graph behind
    the dependency graph and the impact analysis.  Of [services] the columns
    these statements read are modelled.  The recursive query is [walk]: a
    search over simple paths of bounded length. *)

From S2P Require Import Prelude GoStrings Effects Table Authz Identity AuthStore.
Set Warnings "-clear-no-such-hyp".

(** ** Tables *)

Record ServiceRow := mkServiceRow {
  sv_ID : string; sv_OrgID : string; sv_Name : string; sv_Description : string; sv_Status : string;
  sv_Tier : string; sv_Category : string; sv_Language : string; sv_GitRepoURL : option string;
  sv_UpdatedAt : Z; sv_Metadata : string; sv_DeletedAt : option Z
}.

Record ServiceDependency := mkServiceDependency {
  sd_ID : string; sd_ServiceID : string; sd_DependencyID : option string; sd_DependencyName : string;
  sd_Direction : string; sd_OrgID : string; sd_Name : string; sd_Type : string; sd_Criticality : string;
  sd_Description : string; sd_APIGroupName : option string; sd_APIEndpointNames : list string;
  sd_DatabaseName : option string; sd_CreatedBy : string; sd_UpdatedBy : option string;
  sd_CreatedByCommitHash : option string; sd_UpdatedByCommitHash : option string;
  sd_CreatedAt : Z; sd_UpdatedAt : Z; sd_DeletedAt : option Z; sd_DeletedBy : option string
}.

(** The service object of an edge: the keys of [json_build_object]. *)
Record ServiceView := mkServiceView {
  vw_ID : string; vw_Name : string; vw_Description : string; vw_Status : string; vw_Tier : string;
  vw_Category : string; vw_Language : string; vw_GitRepoURL : option string; vw_UpdatedAt : Z;
  vw_Metadata : string
}.

Record ServiceDependencyEdge := mkEdge {
  ed_Dep : ServiceDependency; ed_Service : option ServiceView; ed_Dependency : option ServiceView
}.

Record CatalogDB := mkCatalogDB {
  c_services : gmap string ServiceRow;
  c_deps : gmap string ServiceDependency
}.

Definition set_c_deps (d : CatalogDB) t : CatalogDB := mkCatalogDB (c_services d) t.

Definition live {A} (deleted : A -> option Z) (r : A) : bool := negb (found (deleted r)).
Definition sv_live : ServiceRow -> bool := live sv_DeletedAt.
Definition sd_live : ServiceDependency -> bool := live sd_DeletedAt.
Definition sv_active (s : ServiceRow) : bool := String.eqb (sv_Status s) "active" && sv_live s.

(** ** Syncing *)

Definition mark_deleted (now : Z) (actorID : string) (r : ServiceDependency) : ServiceDependency :=
  mkServiceDependency (sd_ID r) (sd_ServiceID r) (sd_DependencyID r) (sd_DependencyName r) (sd_Direction r)
    (sd_OrgID r) (sd_Name r) (sd_Type r) (sd_Criticality r) (sd_Description r) (sd_APIGroupName r)
    (sd_APIEndpointNames r) (sd_DatabaseName r) (sd_CreatedBy r) (sd_UpdatedBy r)
    (sd_CreatedByCommitHash r) (sd_UpdatedByCommitHash r) (sd_CreatedAt r) (sd_UpdatedAt r)
    (Some now) (Some actorID).

(** The CHECK constraints of the table. *)
Definition dep_checks (r : ServiceDependency) : bool :=
  mem_str (sd_Type r) [EmptyString; "http"; "graphql"; "grpc"; "database"] &&
  mem_str (sd_Criticality r) ["hard"; "soft"] && mem_str (sd_Direction r) ["upstream"; "downstream"].

Section Sync.
Context (orgID serviceID actorID : string) (commitHash : option string) (now : Z).

(** The row of INSERT ... VALUES. *)
Definition inserted (id : string) (dep : ServiceDependency) (dependencyID : option string) :
    ServiceDependency :=
  mkServiceDependency id serviceID dependencyID (sd_DependencyName dep) (sd_Direction dep) orgID
    (sd_Name dep) (sd_Type dep) (sd_Criticality dep) (sd_Description dep) (sd_APIGroupName dep)
    (sd_APIEndpointNames dep) (sd_DatabaseName dep) actorID (Some actorID) commitHash commitHash now now
    None None.

(** ON CONFLICT (service_id, name) DO UPDATE SET ... *)
Definition updated (old new : ServiceDependency) : ServiceDependency :=
  mkServiceDependency (sd_ID old) (sd_ServiceID old) (sd_DependencyID new) (sd_DependencyName new)
    (sd_Direction new) (sd_OrgID old) (sd_Name old) (sd_Type new) (sd_Criticality new)
    (sd_Description new) (sd_APIGroupName new) (sd_APIEndpointNames new) (sd_DatabaseName new)
    (sd_CreatedBy old) (sd_UpdatedBy new) (sd_CreatedByCommitHash old) (sd_UpdatedByCommitHash new)
    (sd_CreatedAt old) (sd_UpdatedAt new) None None.

Definition same_key (name : string) (r : ServiceDependency) : bool :=
  String.eqb (sd_ServiceID r) serviceID && String.eqb (sd_Name r) name.

Definition upsert (dep : ServiceDependency) (dependencyID : option string)
    (t : gmap string ServiceDependency) : gmap string ServiceDependency :=
  match select_one (same_key (sd_Name dep)) t with
  | Some old => <[sd_ID old := updated old (inserted (sd_ID old) dep dependencyID)]> t
  | None => let id := fresh (dom t) in <[id := inserted id dep dependencyID]> t
  end.

(** The service a declared name stands for. *)
Definition resolve (services : gmap string ServiceRow) (name : string) : option string :=
  option_map sv_ID
    (select_one (fun s => String.eqb (sv_OrgID s) orgID && String.eqb (sv_Name s) name && sv_active s)
       services).

Fixpoint sync_rows (services : gmap string ServiceRow) (deps : list ServiceDependency)
    (t : gmap string ServiceDependency) : result store_err (gmap string ServiceDependency) :=
  match deps with
  | [] => Ok t
  | dep :: deps' =>
      let dependencyID := resolve services (sd_DependencyName dep) in
      if bool_decide (dependencyID = Some serviceID) then Err ErrInvalidDependency
      else if negb (dep_checks dep) || negb (found (services !! serviceID)) then violation
      else sync_rows services deps' (upsert dep dependencyID t)
  end.

Definition clear_rows (t : gmap string ServiceDependency) : gmap string ServiceDependency :=
  update_where (fun r => String.eqb (sd_ServiceID r) serviceID && sd_live r) (mark_deleted now actorID) t.

Definition sync_tx (deps : list ServiceDependency) (d : CatalogDB) : result store_err unit * CatalogDB :=
  match sync_rows (c_services d) deps (clear_rows (c_deps d)) with
  | Ok t => (Ok tt, set_c_deps d t)
  | Err e => (Err e, d)
  end.
End Sync.

#[local] Abbreviation W := (World CatalogDB).
Definition CEff (A : Type) : Type := Eff (World CatalogDB) (result store_err A).

Definition SyncServiceDependencies (orgID serviceID actorID : string) (commitHash : option string)
    (dependencies : list ServiceDependency) : CEff unit :=
  func (
    now <- call time_now ;;
    call (db_op (fun _ d => sync_tx orgID serviceID actorID commitHash now dependencies d))).

(** ** Edges *)

Definition view (s : ServiceRow) : ServiceView :=
  mkServiceView (sv_ID s) (sv_Name s) (sv_Description s) (sv_Status s) (sv_Tier s) (sv_Category s)
    (sv_Language s) (sv_GitRepoURL s) (sv_UpdatedAt s) (sv_Metadata s).

(** LEFT JOIN services ON id AND cond. *)
Definition join (d : CatalogDB) (cond : ServiceRow -> bool) (id : string) : option ServiceView :=
  match c_services d !! id with
  | Some s => if cond s then Some (view s) else None
  | None => None
  end.

Definition edge_of (d : CatalogDB) (r : ServiceDependency) : ServiceDependencyEdge :=
  mkEdge r (join d sv_live (sd_ServiceID r))
    (match sd_DependencyID r with Some id => join d sv_active id | None => None end).

(** The WHERE clause: an empty argument, and the direction [all], filter nothing. *)
Definition listed (orgID serviceID direction criticality : string) (r : ServiceDependency) : bool :=
  String.eqb (sd_OrgID r) orgID && sd_live r &&
  (str_empty serviceID || String.eqb (sd_ServiceID r) serviceID) &&
  (str_empty direction || String.eqb direction "all" || String.eqb (sd_Direction r) direction) &&
  (str_empty criticality || String.eqb (sd_Criticality r) criticality).

Section Edges.
Context `{Collation}.

Definition list_edges (orgID serviceID direction criticality : string) (d : CatalogDB) :
    list ServiceDependencyEdge :=
  map (edge_of d) (order_by (by_text sd_Name) (select (listed orgID serviceID direction criticality) (c_deps d))).

Definition ListServiceDependencies (orgID serviceID direction criticality : string) :
    CEff (list ServiceDependencyEdge) :=
  db_read (fun _ d => list_edges orgID serviceID direction criticality d).

Definition allDependencyEdges (orgID : string) : CEff (list ServiceDependencyEdge) :=
  ListServiceDependencies orgID EmptyString "all" EmptyString.

(** ** The walk *)

Definition sides (direction : string) : option (string * string) :=
  if String.eqb direction "upstream" then Some ("downstream", "upstream")
  else if String.eqb direction "downstream" then Some ("upstream", "downstream")
  else None.

(** The services one live edge away from [id], by the JOINs of the query. *)
Definition next_of (id : string) (r : ServiceDependency) : option string :=
  if String.eqb (sd_ServiceID r) id then sd_DependencyID r else Some (sd_ServiceID r).

Definition joins (orgID ownSide otherSide id : string) (r : ServiceDependency) : bool :=
  String.eqb (sd_OrgID r) orgID && sd_live r &&
  ((String.eqb (sd_ServiceID r) id && String.eqb (sd_Direction r) ownSide) ||
   (bool_decide (sd_DependencyID r = Some id) && String.eqb (sd_Direction r) otherSide)).

Definition in_org (orgID : string) (d : CatalogDB) (id : string) : bool :=
  match c_services d !! id with
  | Some s => String.eqb (sv_OrgID s) orgID && sv_active s
  | None => false
  end.

Definition neighbours (orgID ownSide otherSide : string) (d : CatalogDB) (id : string) : list string :=
  List.filter (in_org orgID d)
    (omap (next_of id) (select (joins orgID ownSide otherSide id) (c_deps d))).

(** The rows of the recursive query below a row with [path], [n] levels deep. *)
Fixpoint walk (next : string -> list string) (n : nat) (id : string) (path : list string) : list string :=
  id :: match n with
        | O => []
        | S n' => flat_map (fun x => if mem_str x path then [] else walk next n' x (path ++ [x])) (next id)
        end.

Definition depth_limit (maxDepth : Z) : nat := Z.to_nat (if (maxDepth <=? 0)%Z then 10 else maxDepth).

Definition keep_edge (allowed : string -> bool) (e : ServiceDependencyEdge) : bool :=
  allowed (sd_ServiceID (ed_Dep e)) &&
  match ed_Dependency e with Some v => allowed (vw_ID v) | None => true end.

Definition dependencyGraph (orgID serviceID direction : string) (maxDepth : Z) :
    CEff (list ServiceDependencyEdge) :=
  func (
    sd <- non_nil (sides direction)
            (Err (ErrOther ("postgres: dependency graph walk: direction must be upstream or downstream, got " +:+
                            Quote direction))) ;;
    ids <- try (db_read (fun _ d =>
             walk (neighbours orgID sd.1 sd.2 d) (depth_limit maxDepth) serviceID [serviceID]))
             (fun err => Err err) ;;
    all <- try (allDependencyEdges orgID) (fun err => Err err) ;;
    gret (Ok (List.filter (keep_edge (fun id => mem_str id ids)) all))).

Definition Impact := dependencyGraph.

Fixpoint dedupe (seen : gset string) (l : list ServiceDependencyEdge) : list ServiceDependencyEdge :=
  match l with
  | [] => []
  | e :: l' =>
      if decide (sd_ID (ed_Dep e) ∈ seen) then dedupe seen l'
      else e :: dedupe ({[sd_ID (ed_Dep e)]} ∪ seen) l'
  end.
Definition dedupeEdges (a b : list ServiceDependencyEdge) : list ServiceDependencyEdge := dedupe ∅ (a ++ b).

Definition DependencyGraph (orgID serviceID : string) : CEff (list ServiceDependencyEdge) :=
  if str_empty serviceID then allDependencyEdges orgID
  else func (
    up <- try (dependencyGraph orgID serviceID "upstream" 0) (fun err => Err err) ;;
    down <- try (dependencyGraph orgID serviceID "downstream" 0) (fun err => Err err) ;;
    gret (Ok (dedupeEdges up down))).
End Edges.

(** ** The handlers *)

Record dependencyInput := mkDependencyInput {
  di_Name : string; di_Service : string; di_Direction : string; di_Type : string; di_Criticality : string;
  di_Description : string; di_APIGroupName : option string; di_APIEndpointNames : list string;
  di_DatabaseName : option string
}.
Record syncRequest := mkSyncRequest {
  sr_Dependencies : list dependencyInput; sr_CommitHash : option string
}.

Inductive catalog_body : Type :=
| BodyDependencies (l : list ServiceDependency)
| BodyEdges (l : list ServiceDependencyEdge).

Definition CReply : Type := Response catalog_body.

Section Handlers.
Context `{Collation}.

#[local] Abbreviation W := (World CatalogDB).

Definition GetService (id : string) : CEff (option ServiceRow) := db_read (fun _ d => c_services d !! id).

Definition ensureServiceInOrg (orgID serviceID : string) : Go W CReply unit :=
  svc <- try (GetService serviceID) HttpError ;;
  match svc with
  | Some s => return_if (negb (sv_live s) || negb (String.eqb (sv_OrgID s) orgID)) (HttpError ErrNotFound)
  | None => greturn (HttpError ErrNotFound)
  end.

(** The loop over the endpoint names of one input. *)
Fixpoint check_endpoints (seen : gset string) (l : list string) : option string :=
  match l with
  | [] => None
  | n :: l' =>
      if str_empty n then Some "api endpoint names must not be empty"
      else if decide (n ∈ seen) then Some "api endpoint names must be unique within a dependency"
      else check_endpoints ({[n]} ∪ seen) l'
  end.

Definition check_input (names : gset string) (i : dependencyInput) : option string :=
  if str_empty (di_Name i) || str_empty (di_Service i)
  then Some "dependency name and service are required"
  else if decide (di_Name i ∈ names) then Some "dependency names must be unique"
  else if negb (mem_str (di_Direction i) ["upstream"; "downstream"])
  then Some "dependency direction is required and must be upstream or downstream"
  else if negb (mem_str (di_Type i) [EmptyString; "http"; "graphql"; "grpc"; "database"])
  then Some "dependency type must be http, graphql, grpc, or database"
  else if negb (mem_str (di_Criticality i) ["hard"; "soft"])
  then Some "dependency criticality must be hard or soft"
  else check_endpoints ∅ (di_APIEndpointNames i).

Definition to_dependency (i : dependencyInput) : ServiceDependency :=
  mkServiceDependency EmptyString EmptyString None (di_Service i) (di_Direction i) EmptyString (di_Name i)
    (di_Type i) (di_Criticality i) (di_Description i) (di_APIGroupName i) (di_APIEndpointNames i)
    (di_DatabaseName i) EmptyString None None None 0 0 None None.

(** The loop over the inputs: the first message, or the dependencies. *)
Fixpoint check_inputs (names : gset string) (l : list dependencyInput) : string + list ServiceDependency :=
  match l with
  | [] => inr []
  | i :: l' =>
      match check_input names i with
      | Some msg => inl msg
      | None => match check_inputs ({[di_Name i]} ∪ names) l' with
                | inl msg => inl msg
                | inr ds => inr (to_dependency i :: ds)
                end
      end
  end.

Definition SyncDependencies (ctx : option Principal) (orgID serviceID : string)
    (req : option syncRequest) : Eff W CReply :=
  func (
    ensureServiceInOrg orgID serviceID ;;;
    p <- non_nil ctx Unauthorized ;;
    body <- non_nil req (BadRequest "invalid request body") ;;
    match check_inputs ∅ (sr_Dependencies body) with
    | inl msg => greturn (BadRequest msg)
    | inr dependencies =>
        _ <- try (SyncServiceDependencies orgID serviceID (p_UserID p) (sr_CommitHash body) dependencies)
                 (fun err => match err with
                             | ErrInvalidDependency => BadRequest (err_text err)
                             | _ => HttpError err
                             end) ;;
        gret (JSON 200 (BodyDependencies dependencies))
    end).

Definition ListDependencies (orgID serviceID direction criticality : string) : Eff W CReply :=
  func (
    ensureServiceInOrg orgID serviceID ;;;
    let direction := if str_empty direction then "all" else direction in
    return_if (negb (mem_str direction ["all"; "upstream"; "downstream"]))
      (BadRequest "direction must be all, upstream, or downstream") ;;;
    return_if (negb (mem_str criticality [EmptyString; "hard"; "soft"]))
      (BadRequest "criticality must be hard or soft") ;;;
    edges <- try (ListServiceDependencies orgID serviceID direction criticality) HttpError ;;
    gret (JSON 200 (BodyEdges edges))).

Definition GetServiceDependencyGraph (orgID serviceID : string) : Eff W CReply :=
  func (
    ensureServiceInOrg orgID serviceID ;;;
    edges <- try (DependencyGraph orgID serviceID) HttpError ;;
    gret (JSON 200 (BodyEdges edges))).

Definition GetDependencyGraph (orgID : string) : Eff W CReply :=
  func (
    edges <- try (DependencyGraph orgID EmptyString) HttpError ;;
    gret (JSON 200 (BodyEdges edges))).

Definition bad_depth : CReply := BadRequest "maxDepth must be between 1 and 100".

Definition parse_depth (value : string) : Go W CReply Z :=
  if str_empty value then gret 10%Z
  else parsed <- non_nil (Atoi value) bad_depth ;;
       return_if ((parsed <? 1) || (100 <? parsed))%Z bad_depth ;;;
       gret parsed.

Definition GetImpact (orgID serviceID direction maxDepth : string) : Eff W CReply :=
  func (
    ensureServiceInOrg orgID serviceID ;;;
    return_if (negb (mem_str direction ["upstream"; "downstream"]))
      (BadRequest "direction must be upstream or downstream") ;;;
    depth <- parse_depth maxDepth ;;
    edges <- try (Impact orgID serviceID direction depth) HttpError ;;
    gret (JSON 200 (BodyEdges edges))).
End Handlers.

(** ** Paths *)

Section Paths.
Context (next : string -> list string).

(** [chain a l]: each element of [l] is one step after the one before it. *)
Fixpoint chain (a : string) (l : list string) : Prop :=
  match l with [] => True | x :: l' => x ∈ next a /\ chain x l' end.

Fixpoint last_of (a : string) (l : list string) : string :=
  match l with [] => a | x :: l' => last_of x l' end.

(** [b] is at most [n] steps from [a]. *)
Definition within (n : nat) (a b : string) : Prop :=
  exists l, chain a l /\ length l <= n /\ last_of a l = b.

Lemma chain_suffix x l l1 a l2 :
  x :: l = l1 ++ a :: l2 -> chain x l -> chain a l2 /\ last_of a l2 = last_of x l.
Proof.
  revert x l. induction l1 as [|y l1 IH]; intros x l; cbn; [by intros [= -> ->]|].
  intros [= -> ->] Hc. destruct (l1 ++ a :: l2) as [|z m] eqn:E; [by destruct l1|].
  destruct Hc as [_ Hc]. by apply (IH z m).
Qed.

(** A path can be shortened to one that visits nothing twice. *)
Lemma simple_path a l :
  chain a l -> exists l', chain a l' /\ length l' <= length l /\ last_of a l' = last_of a l /\ NoDup (a :: l').
Proof.
  revert a. induction l as [|x l IH]; intros a Hc.
  { exists []. split_and!; [done..|]. apply NoDup_singleton. }
  destruct Hc as [Hx Hc]. destruct (IH x Hc) as (l' & Hc' & Hlen & Hlast & Hnd).
  destruct (decide (a ∈ x :: l')) as [Hin|Hin].
  - apply list_elem_of_split in Hin as (l1 & l2 & Heq).
    destruct (chain_suffix _ _ _ _ _ Heq Hc') as [H2 Hl2]. exists l2.
    assert (length (x :: l') = length l1 + S (length l2)) as Hsz by (rewrite Heq, length_app; done).
    split_and!; [done|cbn in *; lia|cbn; congruence|].
    rewrite Heq in Hnd. by apply NoDup_app in Hnd as (_ & _ & ?).
  - exists (x :: l'). split_and!; [done|cbn; lia|done|]. by constructor.
Qed.

Lemma walk_elem n a path x :
  x ∈ walk next n a path <->
  exists l, chain a l /\ length l <= n /\ last_of a l = x /\ NoDup l /\ (forall y, y ∈ l -> y ∉ path).
Proof.
  revert a path. induction n as [|n IH]; intros a path.
  - cbn [walk]. rewrite list_elem_of_singleton. split.
    + intros ->. exists []. split_and!; [done..|constructor|]. intros y Hy. inversion Hy.
    + intros ([|y l] & _ & Hlen & <- & _); [done|cbn in Hlen; lia].
  - cbn [walk]. rewrite elem_of_cons, list_elem_of_In, in_flat_map. split.
    + intros [->|(y & Hy & Hx)].
      * exists []. split_and!; [done|cbn; lia|done|constructor|]. intros y Hy. inversion Hy.
      * destruct (mem_str y path) eqn:Em; [destruct Hx|]. apply mem_str_not_In in Em.
        apply list_elem_of_In, IH in Hx as (l & Hc & Hlen & Hl & Hnd & Hav).
        exists (y :: l). split_and!.
        -- split; [by apply list_elem_of_In|done].
        -- cbn. lia.
        -- done.
        -- constructor; [|done]. intros Hin. apply (Hav y Hin). apply elem_of_app. right. by left.
        -- intros z [->|Hz]%elem_of_cons; [done|]. intros Hp. apply (Hav z Hz). apply elem_of_app. by left.
    + intros ([|y l] & Hc & Hlen & Hl & Hnd & Hav); [by left|right]. destruct Hc as [Hy Hc].
      exists y. split; [by apply list_elem_of_In|].
      assert (mem_str y path = false) as -> by (apply mem_str_not_In, Hav; left).
      apply list_elem_of_In, IH. apply NoDup_cons in Hnd as [Hny Hnd].
      exists l. split_and!; [done|cbn in Hlen; lia|done|done|].
      intros z Hz [Hp| ->%list_elem_of_singleton]%elem_of_app; [|done]. by apply (Hav z); [right|].
Qed.

(** The bounded search over simple paths finds what any path of the bounded
    length reaches. *)
Lemma walk_within n a x : x ∈ walk next n a [a] <-> within n a x.
Proof.
  rewrite walk_elem. split.
  - intros (l & Hc & Hlen & Hl & _). by exists l.
  - intros (l & Hc & Hlen & Hl). destruct (simple_path a l Hc) as (l' & Hc' & Hlen' & Hl' & Hnd).
    apply NoDup_cons in Hnd as [Ha Hnd]. exists l'. split_and!; [done|lia|congruence|done|].
    intros y Hy ->%list_elem_of_singleton. done.
Qed.

Lemma last_of_snoc a l x : last_of a (l ++ [x]) = x.
Proof. revert a. induction l as [|y l IH]; intros a; [done|apply IH]. Qed.

Lemma chain_snoc a l x : chain a (l ++ [x]) <-> chain a l /\ x ∈ next (last_of a l).
Proof. revert a. induction l as [|y l IH]; intros a; cbn; [tauto|]. rewrite IH. tauto. Qed.
End Paths.

(** Paths run backwards in a graph whose steps are reversed among the nodes
    that satisfy [p]. *)
Lemma within_reverse next1 next2 (p : string -> Prop) n a b :
  (forall x y, p x -> y ∈ next1 x -> p y /\ x ∈ next2 y) ->
  p a -> within next1 n a b -> p b /\ within next2 n b a.
Proof.
  intros Hrev Ha (l & Hc & Hlen & <-).
  enough (p (last_of a l) /\ exists m, chain next2 (last_of a l) m /\ length m = length l /\
    last_of (last_of a l) m = a) as (Hp & m & Hm & Hml & Hlast)
    by (split; [done|]; exists m; split_and!; [done|lia|done]).
  clear Hlen. revert a Ha Hc. induction l as [|x l IH]; intros a Ha Hc; cbn.
  { split; [done|]. by exists []. }
  destruct Hc as [Hx Hc]. destruct (Hrev a x Ha Hx) as [Hpx Hax].
  destruct (IH x Hpx Hc) as (Hp & m & Hm & Hml & Hlast). split; [done|].
  exists (m ++ [a]). rewrite chain_snoc, Hlast, last_of_snoc, length_app, Hml. cbn. split_and!; [done..|lia|done].
Qed.

(** ** The graph *)

Record deps_ok (d : CatalogDB) : Prop := {
  do_services k s : c_services d !! k = Some s -> sv_ID s = k;
  do_ids k r : c_deps d !! k = Some r -> sd_ID r = k;
  do_names k1 k2 r1 r2 : c_deps d !! k1 = Some r1 -> c_deps d !! k2 = Some r2 ->
    sd_ServiceID r1 = sd_ServiceID r2 -> sd_Name r1 = sd_Name r2 -> k1 = k2;
  do_self k r : c_deps d !! k = Some r -> sd_DependencyID r <> Some (sd_ServiceID r)
}.

Section Graph.
Context `{HC : Collation}.

(** One step of the walk [own, other] from [a] to [b]. *)
Definition linked (orgID own other : string) (d : CatalogDB) (a b : string) : Prop :=
  exists k r, c_deps d !! k = Some r /\ sd_OrgID r = orgID /\ sd_DeletedAt r = None /\
    ((sd_ServiceID r = a /\ sd_DependencyID r = Some b /\ sd_Direction r = own) \/
     (sd_ServiceID r = b /\ sd_DependencyID r = Some a /\ sd_Direction r = other)).

Lemma sd_live_true r : sd_live r = true <-> sd_DeletedAt r = None.
Proof. unfold sd_live, live. by rewrite negb_true_iff, found_false. Qed.

Lemma filter_elem_of {A} (p : A -> bool) l x : x ∈ List.filter p l <-> x ∈ l /\ p x = true.
Proof. rewrite !list_elem_of_In. apply List.filter_In. Qed.

Lemma neighbours_iff orgID own other d a b :
  deps_ok d ->
  b ∈ neighbours orgID own other d a <-> linked orgID own other d a b /\ in_org orgID d b = true.
Proof.
  intros Hok. unfold neighbours. rewrite filter_elem_of, list_elem_of_omap. apply and_iff_compat_r.
  unfold linked, joins, next_of. split.
  - intros (r & [[k Hk] Hj]%select_elem & Hn). bool_to_prop.
    match goal with HL : sd_live r = true |- _ => apply sd_live_true in HL end.
    exists k, r. split_and!; [done..|]. pose proof (do_self _ Hok k r Hk) as Hself.
    destruct (String.eqb (sd_ServiceID r) a) eqn:Ea; cbn in *; bool_to_prop.
    + left. split_and!; [done..|].
      match goal with HO : _ || _ = true |- _ => apply orb_true_iff in HO as [Hd|Hd] end;
        bool_to_prop; [done|congruence].
    + right. simplify_eq. split_and!; done.
  - intros (k & r & Hk & Ho & Hl%sd_live_true & Hc). exists r. pose proof (do_self _ Hok k r Hk) as Hself.
    destruct Hc as [(Hs & Hd & Hdir)|(Hs & Hd & Hdir)].
    + split; [|by rewrite Hs, String.eqb_refl]. apply select_elem. split; [eauto|].
      by rewrite Ho, Hl, Hs, Hdir, !String.eqb_refl.
    + assert (sd_ServiceID r <> a) as Hne by congruence. apply String.eqb_neq in Hne as Hneb.
      split; [|rewrite Hneb; congruence]. apply select_elem. split; [eauto|].
      by rewrite Ho, Hl, Hdir, Hd, bool_decide_true, !String.eqb_refl, orb_true_r.
Qed.

Lemma list_edges_all orgID d e :
  e ∈ list_edges orgID EmptyString "all" EmptyString d <->
  exists k r, c_deps d !! k = Some r /\ sd_OrgID r = orgID /\ sd_DeletedAt r = None /\ e = edge_of d r.
Proof.
  unfold list_edges, order_by. rewrite list_elem_of_In, in_map_iff. split.
  - intros (r & <- & [[k Hk] Hl]%list_elem_of_In%sort_stable_elem%select_elem).
    unfold listed in Hl. bool_to_prop. exists k, r. split_and!; [done..|by apply sd_live_true|done].
  - intros (k & r & Hk & Ho & Hl%sd_live_true & ->). exists r. split; [done|].
    apply list_elem_of_In, sort_stable_elem, select_elem. split; [eauto|].
    unfold listed. by rewrite Ho, Hl, String.eqb_refl.
Qed.

(** The edges of a graph query: live edges of the organization whose service,
    and whose dependency when it is an active service, the walk reaches. *)
Definition graph_edge (orgID serviceID own other : string) (n : nat) (d : CatalogDB)
    (e : ServiceDependencyEdge) : Prop :=
  let reached := within (neighbours orgID own other d) n serviceID in
  (exists k r, c_deps d !! k = Some r /\ sd_OrgID r = orgID /\ sd_DeletedAt r = None /\ e = edge_of d r) /\
  reached (sd_ServiceID (ed_Dep e)) /\ (forall v, ed_Dependency e = Some v -> reached (vw_ID v)).

Lemma mem_str_walk next n a x : mem_str x (walk next n a [a]) = true <-> within next n a x.
Proof. by rewrite mem_str_In, walk_within. Qed.

Lemma dependencyGraph_spec orgID serviceID direction maxDepth w :
  let '(r, w') := dependencyGraph orgID serviceID direction maxDepth w in
  w_db w' = w_db w /\
  match r with
  | Ok edges => exists own other, sides direction = Some (own, other) /\
      forall e, e ∈ edges <-> graph_edge orgID serviceID own other (depth_limit maxDepth) (w_db w) e
  | Err e => sides direction = None \/ e = ErrDriver
  end.
Proof.
  unfold dependencyGraph. apply wp_let. wp_step. split; [intros Hn; split; [done|by left]|].
  intros [own other] Hs. wp_step. destruct (db_read _ w) as [[ids|e] w1] eqn:E1.
  2: { split; [by eapply db_read_db|]. right. apply db_op_cases in E1 as [[[= ->] _]|(? & ? & _)]; [done|congruence]. }
  apply db_read_ok in E1 as [-> D1]. wp_step. unfold allDependencyEdges, ListServiceDependencies.
  destruct (db_read _ w1) as [[all|e] w2] eqn:E2.
  2: { split; [rewrite <-D1; by eapply db_read_db|]. right.
       apply db_op_cases in E2 as [[[= ->] _]|(? & ? & _)]; [done|congruence]. }
  apply db_read_ok in E2 as [-> D2]. wp_step. split; [congruence|]. exists own, other. split; [done|].
  intros e. rewrite filter_elem_of, D1, list_edges_all. unfold graph_edge. apply and_iff_compat_l.
  unfold keep_edge. cbn [fst snd]. rewrite andb_true_iff, mem_str_walk. apply and_iff_compat_l.
  destruct (ed_Dependency e) as [v|]; [rewrite mem_str_walk|]; split.
  - by intros Hv ? [= <-].
  - auto.
  - done.
  - done.
Qed.

Lemma linked_reverse orgID x y d a b : linked orgID x y d a b -> linked orgID y x d b a.
Proof.
  intros (k & r & Hk & Ho & Hl & Hc). exists k, r. split_and!; [done..|]. destruct Hc as [Hc|Hc]; [right|left]; tauto.
Qed.

Lemma impact_dual_spec orgID n d a b :
  deps_ok d -> in_org orgID d a = true -> in_org orgID d b = true ->
  within (neighbours orgID "downstream" "upstream" d) n a b <->
  within (neighbours orgID "upstream" "downstream" d) n b a.
Proof.
  intros Hok Ha Hb. split; intros Hw;
    (eapply (within_reverse _ _ (fun x => in_org orgID d x = true)) in Hw; [by destruct Hw| |done]);
    intros x y Hx; rewrite !neighbours_iff by done; intros [Hl Hy]; split_and!; try done; by apply linked_reverse.
Qed.

(** ** The whole graph of a service *)

Lemma dedupe_elem seen l e :
  e ∈ dedupe seen l -> e ∈ l /\ sd_ID (ed_Dep e) ∉ seen.
Proof.
  revert seen. induction l as [|x l IH]; intros seen; cbn; [intros H; inversion H|].
  destruct (decide (sd_ID (ed_Dep x) ∈ seen)) as [Hin|Hin].
  - intros [? ?]%IH. split; [by right|done].
  - intros [->|Hl]%elem_of_cons; [split; [left|done]|]. apply IH in Hl as [? ?]. split; [by right|set_solver].
Qed.

Lemma dedupe_complete seen l e :
  e ∈ l -> sd_ID (ed_Dep e) ∉ seen ->
  exists e', e' ∈ dedupe seen l /\ sd_ID (ed_Dep e') = sd_ID (ed_Dep e).
Proof.
  revert seen. induction l as [|x l IH]; intros seen; cbn; [intros H; inversion H|].
  intros Hin Hns. destruct (decide (sd_ID (ed_Dep x) ∈ seen)) as [Hx|Hx].
  - apply elem_of_cons in Hin as [->|Hin]; [done|]. by apply IH.
  - destruct (decide (sd_ID (ed_Dep e) = sd_ID (ed_Dep x))) as [He|He].
    + exists x. split; [left|done].
    + apply elem_of_cons in Hin as [->|Hin]; [done|].
      destruct (IH ({[sd_ID (ed_Dep x)]} ∪ seen) Hin) as (e' & He' & Hid); [set_solver|].
      exists e'. split; [by right|done].
Qed.

Lemma dedupe_NoDup seen l : NoDup (map (fun e => sd_ID (ed_Dep e)) (dedupe seen l)).
Proof.
  revert seen. induction l as [|x l IH]; intros seen; cbn; [constructor|].
  destruct (decide _); [apply IH|]. cbn. constructor; [|apply IH].
  intros (e & He & Hin)%list_elem_of_In%in_map_iff. apply list_elem_of_In, dedupe_elem in Hin as [_ Hn].
  rewrite He in Hn. set_solver.
Qed.
End Graph.

(** ** Syncing *)

(** [r] is the live row of the declared dependency [dep]. *)
Definition declares (orgID serviceID : string) (services : gmap string ServiceRow)
    (dep r : ServiceDependency) : Prop :=
  sd_ServiceID r = serviceID /\ sd_Name r = sd_Name dep /\ sd_DeletedAt r = None /\
  sd_DependencyID r = resolve orgID services (sd_DependencyName dep) /\
  sd_DependencyName r = sd_DependencyName dep /\ sd_Direction r = sd_Direction dep /\
  sd_Type r = sd_Type dep /\ sd_Criticality r = sd_Criticality dep /\
  sd_Description r = sd_Description dep /\ sd_APIGroupName r = sd_APIGroupName dep /\
  sd_APIEndpointNames r = sd_APIEndpointNames dep /\ sd_DatabaseName r = sd_DatabaseName dep.

Section SyncFacts.
Context (orgID serviceID actorID : string) (commitHash : option string) (now : Z).
Context (services : gmap string ServiceRow).

#[local] Abbreviation tbl := (gmap string ServiceDependency).
#[local] Abbreviation declares_ := (declares orgID serviceID services).

Definition rows_ok (t : tbl) : Prop := deps_ok (mkCatalogDB services t).

(** What holds of the table [t] when the dependencies [done_] are stored,
    starting from [t0]. *)
Record synced (done_ : list ServiceDependency) (t0 t : tbl) : Prop := {
  sy_ok : rows_ok t;
  sy_other k r : sd_ServiceID r <> serviceID -> t !! k = Some r <-> t0 !! k = Some r;
  sy_keeps k r : t0 !! k = Some r -> exists r', t !! k = Some r' /\ sd_ID r' = sd_ID r /\
    sd_ServiceID r' = sd_ServiceID r /\ sd_Name r' = sd_Name r /\ sd_CreatedAt r' = sd_CreatedAt r /\
    sd_CreatedBy r' = sd_CreatedBy r;
  sy_sound k r : t !! k = Some r -> sd_ServiceID r = serviceID -> sd_DeletedAt r = None ->
    exists dep, dep ∈ done_ /\ declares_ dep r;
  sy_complete dep : dep ∈ done_ -> exists k r, t !! k = Some r /\ declares_ dep r
}.

Lemma clear_synced t0 : rows_ok t0 -> synced [] t0 (clear_rows serviceID actorID now t0).
Proof.
  intros [Hs Hi Hn Hf]. unfold clear_rows.
  assert (forall k r, update_where (fun r => String.eqb (sd_ServiceID r) serviceID && sd_live r)
      (mark_deleted now actorID) t0 !! k = Some r ->
    exists r0, t0 !! k = Some r0 /\ sd_ID r = sd_ID r0 /\ sd_ServiceID r = sd_ServiceID r0 /\
      sd_Name r = sd_Name r0 /\ sd_DependencyID r = sd_DependencyID r0 /\
      (sd_ServiceID r0 <> serviceID -> r = r0) /\
      (sd_ServiceID r0 = serviceID -> sd_DeletedAt r <> None)) as Hrow.
  { intros k r. rewrite lookup_update_where. intros (r0 & H0 & ->)%fmap_Some_1.
    exists r0. destruct (String.eqb (sd_ServiceID r0) serviceID) eqn:E; bool_to_prop; cbn [andb].
    - destruct (sd_live r0) eqn:El; split_and!; try done.
      intros _ Hd%sd_live_true. congruence.
    - by split_and!. }
  split.
  - split; cbn; [done| | |].
    + intros k r Hk. destruct (Hrow k r Hk) as (r0 & H0 & -> & _). by apply Hi.
    + intros k1 k2 r1 r2 H1 H2 Hsv Hnm.
      destruct (Hrow _ _ H1) as (q1 & Q1 & _ & E1 & N1 & _), (Hrow _ _ H2) as (q2 & Q2 & _ & E2 & N2 & _).
      eapply Hn; [exact Q1|exact Q2|congruence..].
    + intros k r Hk. destruct (Hrow k r Hk) as (r0 & H0 & _ & -> & _ & -> & _). by eapply Hf.
  - intros k r Hne. split.
    + intros Hk. destruct (Hrow k r Hk) as (r0 & H0 & _ & E & _ & _ & Hs0 & _).
      rewrite Hs0 by congruence. done.
    + intros Hk. rewrite lookup_update_where, Hk. cbn. by apply String.eqb_neq in Hne as ->.
  - intros k r Hk. rewrite lookup_update_where, Hk. cbn. eexists. split; [done|].
    by destruct (_ && _).
  - intros k r Hk Hsv Hd. destruct (Hrow k r Hk) as (r0 & H0 & _ & E & _ & _ & _ & Hdel).
    by destruct Hdel; [congruence|].
  - intros dep Hdep. inversion Hdep.
Qed.

Lemma upsert_row dep dependencyID t :
  rows_ok t ->
  exists k r, upsert orgID serviceID actorID commitHash now dep dependencyID t = <[k := r]> t /\
    sd_ID r = k /\ sd_ServiceID r = serviceID /\ sd_Name r = sd_Name dep /\ sd_DeletedAt r = None /\
    sd_DependencyID r = dependencyID /\
    sd_DependencyName r = sd_DependencyName dep /\ sd_Direction r = sd_Direction dep /\
    sd_Type r = sd_Type dep /\ sd_Criticality r = sd_Criticality dep /\
    sd_Description r = sd_Description dep /\ sd_APIGroupName r = sd_APIGroupName dep /\
    sd_APIEndpointNames r = sd_APIEndpointNames dep /\ sd_DatabaseName r = sd_DatabaseName dep /\
    (forall k0 r0, t !! k0 = Some r0 -> sd_ServiceID r0 = serviceID -> sd_Name r0 = sd_Name dep -> k0 = k) /\
    (forall r0, t !! k = Some r0 -> sd_ServiceID r0 = serviceID /\ sd_Name r0 = sd_Name dep /\
       sd_ID r0 = k /\ sd_CreatedAt r = sd_CreatedAt r0 /\ sd_CreatedBy r = sd_CreatedBy r0).
Proof.
  intros [Hs Hi Hn Hf]. unfold upsert. destruct (select_one _ t) as [old|] eqn:E.
  - apply select_one_Some in E as [[k Hk] Hkey]. unfold same_key in Hkey. bool_to_prop.
    pose proof (Hi k old Hk) as Hid. cbn in Hid.
    exists (sd_ID old), (updated old (inserted orgID serviceID actorID commitHash now (sd_ID old) dep dependencyID)).
    split_and!; try done.
    + intros k0 r0 Q0 Hsv Hnm. rewrite Hid. eapply Hn; [exact Q0|exact Hk|congruence..].
    + intros r0 Q0. rewrite Hid in Q0. simplify_eq. by split_and!.
  - rewrite select_one_None in E.
    exists (fresh (dom t)), (inserted orgID serviceID actorID commitHash now (fresh (dom t)) dep dependencyID).
    split_and!; try done.
    + intros k0 r0 Q0 Hsv Hnm. specialize (E k0 r0 Q0). unfold same_key in E.
      by rewrite Hsv, Hnm, !String.eqb_refl in E.
    + intros r0 Q0. assert (t !! fresh (dom t) = None) as Hn0 by apply not_elem_of_dom, is_fresh. congruence.
Qed.

Lemma upsert_synced dep done_ t0 t :
  synced done_ t0 t -> sd_Name dep ∉ map sd_Name done_ ->
  resolve orgID services (sd_DependencyName dep) <> Some serviceID ->
  synced (done_ ++ [dep]) t0
    (upsert orgID serviceID actorID commitHash now dep (resolve orgID services (sd_DependencyName dep)) t).
Proof.
  intros [Hok Hoth Hkeep Hsnd Hcmp] Hnew Hres.
  destruct (upsert_row dep (resolve orgID services (sd_DependencyName dep)) t Hok)
    as (k & r & -> & Hid & Hsv & Hnm & Hdel & Hdep & Hrest).
  destruct Hrest as (F1 & F2 & F3 & F4 & F5 & F6 & F7 & F8 & Huniq & Hold).
  assert (declares_ dep r) as Hr by (unfold declares; split_and!; done).
  destruct Hok as [Hs Hi Hn Hf]. cbn in *. split.
  - split; cbn; [done| | |].
    + intros k0 r0 [[<- <-]|[_ H0]]%lookup_insert_Some; [done|by apply Hi].
    + intros k1 k2 r1 r2 [[<- <-]|[N1 H1]]%lookup_insert_Some [[<- <-]|[N2 H2]]%lookup_insert_Some Es En.
      * done.
      * symmetry. apply (Huniq k2 r2); congruence.
      * apply (Huniq k1 r1); congruence.
      * by apply (Hn k1 k2 r1 r2).
    + intros k0 r0 [[<- <-]|[_ H0]]%lookup_insert_Some; [congruence|by eapply Hf].
  - intros k0 r0 Hne. rewrite <-Hoth by done. destruct (decide (k = k0)) as [<-|Hk].
    + rewrite lookup_insert_eq. split; [intros [= <-]; done|]. intros H0. by destruct (Hold r0 H0) as [? _].
    + by rewrite lookup_insert_ne.
  - intros k0 r0 H0. destruct (Hkeep k0 r0 H0) as (r1 & H1 & E1 & E2 & E3 & E4 & E5).
    destruct (decide (k = k0)) as [<-|Hk]; [|exists r1; by rewrite lookup_insert_ne].
    exists r. rewrite lookup_insert_eq. destruct (Hold r1 H1) as (G1 & G2 & G3 & G4 & G5).
    split_and!; congruence.
  - intros k0 r0 [[<- <-]|[Hk H0]]%lookup_insert_Some Hs0 Hd0.
    + exists dep. split; [apply elem_of_app; right; by left|done].
    + destruct (Hsnd k0 r0 H0 Hs0 Hd0) as (dep' & Hin & Hdec). exists dep'.
      split; [apply elem_of_app; by left|done].
  - intros dep' [Hin| ->%list_elem_of_singleton]%elem_of_app.
    + destruct (Hcmp dep' Hin) as (k' & r' & H' & Hdec). exists k', r'. split; [|done].
      rewrite lookup_insert_ne; [done|]. intros ->. destruct (Hold r' H') as (_ & Hname & _).
      destruct Hdec as (_ & Hn' & _). apply Hnew. apply list_elem_of_In, in_map_iff. exists dep'.
      split; [congruence|by apply list_elem_of_In].
    + exists k, r. split; [apply lookup_insert_eq|done].
Qed.

Lemma sync_rows_synced deps done_ t0 t t' :
  synced done_ t0 t -> NoDup (map sd_Name (done_ ++ deps)) ->
  sync_rows orgID serviceID actorID commitHash now services deps t = Ok t' ->
  synced (done_ ++ deps) t0 t'.
Proof.
  revert done_ t. induction deps as [|dep deps IH]; intros done_ t Hsy Hnd; cbn.
  { intros [= <-]. by rewrite app_nil_r. }
  case_bool_decide as Hself; [done|]. destruct (_ || _); [done|]. intros Hrun.
  replace (done_ ++ dep :: deps) with ((done_ ++ [dep]) ++ deps) in * by (by rewrite <-app_assoc).
  apply (IH (done_ ++ [dep])) in Hrun; [done| |done]. apply upsert_synced; [done| |done].
  rewrite <-app_assoc, map_app in Hnd. cbn in Hnd. intros Hin.
  apply NoDup_app in Hnd as (_ & Hdis & _). by apply (Hdis _ Hin); left.
Qed.
End SyncFacts.

Lemma Sync_spec orgID serviceID actorID commitHash deps w r w' :
  deps_ok (w_db w) -> NoDup (map sd_Name deps) ->
  SyncServiceDependencies orgID serviceID actorID commitHash deps w = (r, w') ->
  match r with
  | Ok _ => synced orgID serviceID (c_services (w_db w)) deps (c_deps (w_db w)) (c_deps (w_db w')) /\
            c_services (w_db w') = c_services (w_db w)
  | Err _ => w_db w' = w_db w
  end.
Proof.
  intros Hok Hnd. unfold SyncServiceDependencies, func, gbind, call.
  pose proof (time_now_db w) as D1. destruct (time_now w) as [now w1]. cbn in D1.
  destruct (db_op _ w1) as [a w2] eqn:E. intros [= <- <-].
  apply db_op_cases in E as [[-> D2]|(d & Hf & <-)]; [congruence|]. unfold sync_tx in Hf.
  destruct (sync_rows _ _ _ _ _ _ _ _) as [t|e] eqn:Es; injection Hf as <- Hd; [|congruence].
  rewrite <-Hd, <-D1. split; [|done]. cbn. rewrite <-(app_nil_l deps).
  eapply sync_rows_synced; [|exact Hnd|exact Es]. apply clear_synced.
  rewrite D1. destruct (w_db w). exact Hok.
Qed.

(** ** The sync handler *)

Lemma check_inputs_spec names l ds :
  check_inputs names l = inr ds ->
  ds = map to_dependency l /\ NoDup (map sd_Name ds) /\ forall n, n ∈ names -> n ∉ map sd_Name ds.
Proof.
  revert names ds. induction l as [|i l IH]; intros names ds; cbn.
  { intros [= <-]. split_and!; [done|constructor|]. intros n _ Hin. inversion Hin. }
  destruct (check_input names i) as [msg|] eqn:E; [done|].
  destruct (check_inputs _ l) as [msg|ds'] eqn:El; [done|]. intros [= <-].
  destruct (IH _ _ El) as (-> & Hnd & Hdis).
  assert (di_Name i ∉ names) as Hnew.
  { unfold check_input in E. destruct (_ || _); [done|]. by destruct (decide (di_Name i ∈ names)). }
  split_and!; [done| |].
  - cbn. constructor; [|done]. apply Hdis. set_solver.
  - intros n Hn [->|Hin]%elem_of_cons; [done|]. revert Hin. apply Hdis. set_solver.
Qed.

Lemma ensureServiceInOrg_wp orgID serviceID (P : CReply -> World CatalogDB -> Prop) Q w :
  (forall rep w', status rep <> 200%Z -> w_db w' = w_db w -> P rep w') ->
  (forall w' s, w_db w' = w_db w -> c_services (w_db w) !! serviceID = Some s -> sv_OrgID s = orgID ->
     sv_DeletedAt s = None -> Q tt w') ->
  wp (ensureServiceInOrg orgID serviceID) P Q w.
Proof.
  intros HP HQ. unfold ensureServiceInOrg. wp_step. destruct (GetService serviceID w) as [[svc|e] w1] eqn:E.
  2: { apply HP; [by destruct e|by eapply db_read_db]. }
  apply db_read_ok in E as [-> D1]. destruct (c_services (w_db w) !! serviceID) as [s|] eqn:Es.
  - wp_step. split; intros Hc; [by apply HP|]. bool_to_prop. apply (HQ _ s); try done.
    match goal with HL : sv_live s = true |- _ => unfold sv_live, live in HL end. bool_to_prop. by apply found_false.
  - wp_step. by apply HP.
Qed.

Lemma deps_ok_eq d : rows_ok (c_services d) (c_deps d) <-> deps_ok d.
Proof. unfold rows_ok. by destruct d. Qed.

Lemma SyncDependencies_spec ctx orgID serviceID req w :
  deps_ok (w_db w) ->
  let '(rep, w') := SyncDependencies ctx orgID serviceID req w in
  deps_ok (w_db w') /\ c_services (w_db w') = c_services (w_db w) /\
  ((status rep <> 200%Z /\ w_db w' = w_db w) \/
   (status rep = 200%Z /\ exists body s, req = Some body /\ ctx <> None /\
      c_services (w_db w) !! serviceID = Some s /\ sv_OrgID s = orgID /\ sv_DeletedAt s = None /\
      synced orgID serviceID (c_services (w_db w)) (map to_dependency (sr_Dependencies body))
        (c_deps (w_db w)) (c_deps (w_db w')))).
Proof.
  intros Hok. apply wp_let. wp_step.
  assert (forall (rep : CReply) w', status rep <> 200%Z -> w_db w' = w_db w ->
    deps_ok (w_db w') /\ c_services (w_db w') = c_services (w_db w) /\
    ((status rep <> 200%Z /\ w_db w' = w_db w) \/
     (status rep = 200%Z /\ exists body s, req = Some body /\ ctx <> None /\
        c_services (w_db w) !! serviceID = Some s /\ sv_OrgID s = orgID /\ sv_DeletedAt s = None /\
        synced orgID serviceID (c_services (w_db w)) (map to_dependency (sr_Dependencies body))
          (c_deps (w_db w)) (c_deps (w_db w'))))) as Hno
    by (intros rep w' Hst ->; split_and!; [done..|by left]).
  apply ensureServiceInOrg_wp; [done|]. intros w1 s D1 Hs Ho Hd. wp_step.
  split; [intros _; by apply Hno|intros p Hp]. wp_step.
  split; [intros _; by apply Hno|intros body Hb]. wp_step.
  destruct (check_inputs ∅ (sr_Dependencies body)) as [msg|ds] eqn:Ec; [by apply Hno|].
  destruct (check_inputs_spec _ _ _ Ec) as (-> & Hnd & _). wp_step.
  destruct (SyncServiceDependencies _ _ _ _ _ w1) as [a w2] eqn:E.
  apply Sync_spec in E; [|by rewrite D1|done]. rewrite D1 in E. destruct a as [u|e].
  - destruct E as [Hsy Hsv]. wp_step. split_and!; [|done|right].
    + apply deps_ok_eq. rewrite Hsv. apply (sy_ok _ _ _ _ _ _ Hsy).
    + split; [done|]. exists body, s. split_and!; try done. congruence.
  - apply Hno; [by destruct e|done].
Qed.

(** ** The properties *)

Section Properties.
Context `{HC : Collation}.

(** (C34) Syncing the dependencies of a service, all or nothing: any reply but 200
    leaves the tables as they were; after a 200 the live rows of the service are
    exactly the declared dependencies, each with the declared columns and
    resolved to the active service of that name in the organization; a
    dependency of a name known before keeps its row, its id and its creation;
    the rows of other services stay, and no row depends on its own service. *)
Theorem SyncDependencies_correct ctx orgID serviceID req w :
  deps_ok (w_db w) ->
  let '(rep, w') := SyncDependencies ctx orgID serviceID req w in
  deps_ok (w_db w') /\ c_services (w_db w') = c_services (w_db w) /\
  ((status rep <> 200%Z /\ w_db w' = w_db w) \/
   (status rep = 200%Z /\ exists body s, req = Some body /\ ctx <> None /\
      c_services (w_db w) !! serviceID = Some s /\ sv_OrgID s = orgID /\ sv_DeletedAt s = None /\
      synced orgID serviceID (c_services (w_db w)) (map to_dependency (sr_Dependencies body))
        (c_deps (w_db w)) (c_deps (w_db w')))).
Proof. apply SyncDependencies_spec. Qed.

(** (C35) A graph query changes nothing and ends on every graph, cycles included:
    its edges are exactly the live edges of the organization whose service -
    and dependency, when it is an active service - can be reached from the
    start along at most [maxDepth] (by default 10) edges, by any path.  The
    query itself searches simple paths only. *)
Theorem dependencyGraph_correct orgID serviceID direction maxDepth w :
  let '(r, w') := dependencyGraph orgID serviceID direction maxDepth w in
  w_db w' = w_db w /\
  match r with
  | Ok edges => exists own other, sides direction = Some (own, other) /\
      forall e, e ∈ edges <-> graph_edge orgID serviceID own other (depth_limit maxDepth) (w_db w) e
  | Err e => sides direction = None \/ e = ErrDriver
  end.
Proof. apply dependencyGraph_spec. Qed.

(** (lemma) The two directions are each other's reverse: of two active services of
    an organization, one is within n steps upstream of the other exactly when
    the other is within n steps downstream of it. *)
Theorem impact_dual orgID n d a b :
  deps_ok d -> in_org orgID d a = true -> in_org orgID d b = true ->
  within (neighbours orgID "downstream" "upstream" d) n a b <->
  within (neighbours orgID "upstream" "downstream" d) n b a.
Proof. apply impact_dual_spec. Qed.
End Properties.

(** ** A concrete instance *)

Module DepsDemo.
#[export] Instance demo_collation : Collation :=
  {| text_less := by_key (fun s => Z.of_nat (String.length s)); text_lower := map_bytes lower_byte;
     text_less_strict := by_key_strict_weak _ |}.
Definition demo_service (id name : string) : ServiceRow :=
  mkServiceRow id "o1" name EmptyString "active" "tier1" EmptyString "go" None 1 "{}" None.
Definition demo_db : CatalogDB :=
  mkCatalogDB {[ "s1" := demo_service "s1" "shop"; "s2" := demo_service "s2" "billing" ]} ∅.
Definition demo_world : World CatalogDB := mkWorld demo_db [] 1000 [] [].
Definition demo_principal : Principal :=
  {| p_Kind := PrincipalUser; p_UserID := "u1"; p_OrgID := EmptyString; p_IsServerAdmin := false;
     p_ServiceAccountID := EmptyString; p_Scopes := []; p_AuthProvider := EmptyString |}.
Definition uses_billing : syncRequest :=
  mkSyncRequest [mkDependencyInput "charges" "billing" "downstream" "http" "hard" EmptyString None [] None] None.
Definition synced_world := (SyncDependencies (Some demo_principal) "o1" "s1" (Some uses_billing) demo_world).2.

Lemma demo_ok : deps_ok demo_db.
Proof.
  split; cbn.
  - by intros k s [[<- <-]|[_ [<- <-]%lookup_singleton_Some]]%lookup_insert_Some.
  - intros k r Hk. by rewrite lookup_empty in Hk.
  - intros k1 k2 r1 r2 Hk. by rewrite lookup_empty in Hk.
  - intros k r Hk. by rewrite lookup_empty in Hk.
Qed.

(** The sync of the example is stored and resolved; the walk follows it. *)
Example demo_sync :
  (SyncDependencies (Some demo_principal) "o1" "s1" (Some uses_billing) demo_world).1 =
    JSON 200 (BodyDependencies (map to_dependency (sr_Dependencies uses_billing))) /\
  walk (neighbours "o1" "downstream" "upstream" (w_db synced_world)) 10 "s1" ["s1"] = ["s1"; "s2"].
Proof. vm_compute. split; reflexivity. Qed.

Lemma SyncDependencies_correct_witness :
  let '(rep, w') := SyncDependencies (Some demo_principal) "o1" "s1" (Some uses_billing) demo_world in
  deps_ok (w_db w').
Proof.
  pose proof (SyncDependencies_correct (Some demo_principal) "o1" "s1" (Some uses_billing) demo_world demo_ok) as Hs.
  destruct (SyncDependencies _ _ _ _ _) as [rep w']. apply Hs.
Defined.

Lemma synced_ok : deps_ok (w_db synced_world).
Proof.
  pose proof (SyncDependencies_spec (Some demo_principal) "o1" "s1" (Some uses_billing) demo_world demo_ok) as Hs.
  unfold synced_world. destruct (SyncDependencies _ _ _ _ _) as [rep w']. apply Hs.
Qed.

Lemma impact_dual_witness :
  within (neighbours "o1" "downstream" "upstream" (w_db synced_world)) 1 "s1" "s2" <->
  within (neighbours "o1" "upstream" "downstream" (w_db synced_world)) 1 "s2" "s1".
Proof. apply (impact_dual "o1" 1 (w_db synced_world) "s1" "s2" synced_ok); vm_compute; reflexivity. Defined.
End DepsDemo.
