(* ===== verification/Requests.v ===== *)
(** * Requests: what the handlers of the catalog share

    Statements with UUIDs among their arguments, the prologue of a handler on a service
    ([ensureServiceInOrg] of [internal/api/catalog/service_logic.go], a row found by its id),
    query values, and rules by which a handler is walked through: a reply that refuses
    leaves the tables as they were, so that only the last call of a handler is left to
    reason about.  The tables are a parameter, with the services among them. *)

From S2P Require Import Prelude GoStrings Effects ApiSpec Authz Identity Dependencies Table.
From Stdlib Require Import Sorting.Sorted.
#[local] Open Scope nat_scope.
#[local] Open Scope string_scope.

(** ** Query values *)

(** [httputil.Exact] *)
Definition Exact (value : string) : option string :=
  let v := TrimSpace value in if str_empty v then None else Some v.
(** [if v := q.Get(name); v != "" { p = &v }] *)
Definition query_param (v : string) : option string := if str_empty v then None else Some v.

(** [if v != nil { x = v }], [if v != "" { x = v }]. *)
Definition or_old {A} (new old : option A) : option A := match new with Some _ => new | None => old end.
Definition or_old_str (new old : string) : string := if str_empty new then old else new.

(** ** Statements *)

Definition bad_syntax {A} : result store_err A := Err (ErrOther "pq: invalid input").
Definition int4 (n : Z) : bool := (-2147483648 <=? n)%Z && (n <=? 2147483647)%Z.
Definition opt_ok {A} (ok : A -> bool) (o : option A) : bool := match o with Some x => ok x | None => true end.

(** What a [jsonb] column gives back for a document, if it takes it. *)
Class JsonColumn (T : Type) := {
  column : T -> option T;
  column_idem : forall x y, column x = Some y -> column y = Some y
}.
(** A nullable column: [nullableJSON] on the way in, [decodeJSONPtr] on the way out. *)
Definition nullable {T} `{JsonColumn T} (o : option T) : option (option T) :=
  match o with None => Some None | Some x => option_map Some (column x) end.
(** A payload as a column gives it back. *)
Definition kept_payload {T} `{JsonColumn T} (o : option T) : Prop := nullable o = Some o.
Lemma nullable_kept {T} `{JsonColumn T} (o o' : option T) : nullable o = Some o' -> kept_payload o'.
Proof.
  unfold kept_payload, nullable. destruct o as [x|]; [|by intros [= <-]].
  destruct (column x) as [y|] eqn:E; cbn; [|done]. intros [= <-]. by rewrite (column_idem x y E).
Qed.

(** ORDER BY (name = exact) DESC, when an exact name is asked for. *)
Definition exact_first {R} (name : R -> string) (exact : option string) (x y : R) : bool :=
  match exact with Some n => String.eqb (name x) n && negb (String.eqb (name y) n) | None => false end.
Definition exact_match `{Collation} {R} (name : R -> string) (exact : option string) (x : R) : bool :=
  match exact with Some n => String.eqb (text_lower (name x)) (text_lower n) | None => true end.
Definition by_id {R} (id : R -> string) (x y : R) : bool := str_less (id x) (id y).
#[export] Typeclasses Opaque exact_first by_id.
#[export] Instance by_id_strict {R} (id : R -> string) : StrictWeak (by_id id).
Proof. apply by_str_strict. Qed.
#[export] Instance exact_first_strict {R} (name : R -> string) o : StrictWeak (exact_first name o).
Proof.
  destruct o as [n|]; split; cbn; try done; intros *.
  - by destruct (String.eqb _ _).
  - destruct (String.eqb (name x) n), (String.eqb (name y) n); cbn; done.
  - destruct (String.eqb (name x) n), (String.eqb (name y) n), (String.eqb (name z) n); cbn; done.
Qed.

(** The rows of an ordered list satisfy its WHERE clause. *)
Lemma listed_rows {K R} `{Countable K} (less : R -> R -> bool) (p : R -> bool) (t : gmap K R) (P : R -> Prop) :
  (forall k r, t !! k = Some r -> p r = true -> P r) -> Forall P (order_by less (select p t)).
Proof.
  intros HP. apply Forall_forall. intros r Hr. unfold order_by in Hr. rewrite sort_stable_elem, select_elem in Hr.
  destruct Hr as [[k Hk] Hp]. by apply (HP k).
Qed.

(** Rows that lie under their ids have different ids, and sorted by an order that ends with
    the id they come strictly one after the other. *)
Lemma select_NoDup {R} (id : R -> string) p (t : gmap string R) :
  (forall k r, t !! k = Some r -> id r = k) -> NoDup (map id (select p t)).
Proof.
  intros Hid. assert (map id (rows t) = (map_to_list t).*1) as Hrows.
  { unfold rows. rewrite <-list_fmap_compose. apply list_fmap_ext. intros i [k r] Hi. cbn.
    apply Hid, elem_of_map_to_list, list_elem_of_lookup. eauto. }
  pose proof (NoDup_fst_map_to_list t) as Hn. rewrite <-Hrows in Hn. unfold select. clear Hrows Hid.
  induction (rows t) as [|r l IH]; cbn in *; [done|]. apply NoDup_cons in Hn as [Hr Hn].
  destruct (p r); cbn; [|by apply IH]. apply NoDup_cons. split; [|by apply IH]. intros Hin. apply Hr.
  apply list_elem_of_In, in_map_iff in Hin as (x & Hx & Hin). apply List.filter_In in Hin as [Hin _].
  rewrite <-Hx. apply list_elem_of_In, in_map_iff. eauto.
Qed.
(** Rows an order does not tell apart have the same id. *)
Definition tells {R} (id : R -> string) (less : R -> R -> bool) : Prop :=
  forall x y, less x y = false -> less y x = false -> id x = id y.
Lemma by_id_tells {R} (id : R -> string) : tells id (by_id id).
Proof. intros x y H1 H2. destruct (str_less_total _ _ H1) as [?|H3]; [done|unfold by_id in *; congruence]. Qed.
Lemma then_by_tells {R} (id : R -> string) less1 less2 : tells id less2 -> tells id (then_by less1 less2).
Proof.
  intros Ht x y. unfold then_by. destruct (less1 x y) eqn:E1; [done|]. destruct (less1 y x) eqn:E2; [done|]. cbn. apply Ht.
Qed.
Lemma order_by_strict {R} (id : R -> string) less `{!StrictWeak less} p (t : gmap string R) :
  tells id less -> (forall k r, t !! k = Some r -> id r = k) ->
  StronglySorted (fun x y => less x y = true) (order_by less (select p t)).
Proof.
  intros Ht Hid. assert (NoDup (map id (order_by less (select p t)))) as Hn.
  { eapply NoDup_Permutation_proper; [apply Permutation_map, sort_stable_perm|by apply select_NoDup]. }
  pose proof (sort_stable_sorted less (select p t)) as Hs. unfold order_by in *.
  induction Hs as [|x l Hl IH Hx]; cbn in *; constructor; apply NoDup_cons in Hn as [Hnx Hn]; [by apply IH|].
  rewrite Forall_forall in Hx |- *. intros y Hy. destruct (less x y) eqn:E; [done|]. destruct Hnx.
  apply list_elem_of_In, in_map_iff. exists y. split; [|by apply list_elem_of_In]. symmetry. apply Ht; [done|by apply Hx].
Qed.

(** COUNT of the rows of a WHERE clause. *)
Lemma size_select {K R} `{Countable K} (p : R -> bool) (Q : K * R -> Prop) `{!forall x, Decision (Q x)} (t : gmap K R) :
  (forall k r, Q (k, r) <-> p r = true) -> length (select p t) = size (base.filter Q t).
Proof.
  intros HQ. induction t as [|k r t Hk IH] using map_ind; [done|].
  rewrite (select_insert k r p t Hk), length_app, IH. destruct (p r) eqn:Hp; cbn.
  - rewrite map_filter_insert_True by (by apply HQ). rewrite map_size_insert_None; [done|].
    apply map_lookup_filter_None. by left.
  - rewrite map_filter_insert_False, delete_id; [done|done|]. rewrite HQ. congruence.
Qed.

Section Statements.
Context {DB : Type} `{UuidText}.
#[local] Abbreviation StoreEff A := (Eff (World DB) (result store_err A)).

(** A query with UUIDs among its arguments, one whose rows are scanned, and a statement. *)
Definition query {A} (ids : list string) (f : DB -> A) : StoreEff A :=
  db_op (fun _ d => (if forallb valid_uuid ids then Ok (f d) else bad_syntax, d)).
Definition scan {A} (ids : list string) (f : DB -> result store_err A) : StoreEff A :=
  db_op (fun _ d => (if forallb valid_uuid ids then f d else bad_syntax, d)).
Definition exec (f : DB -> result store_err DB) : StoreEff unit :=
  db_op (fun _ d => match f d with Ok d' => (Ok tt, d') | Err e => (Err e, d) end).
(** A statement with a RETURNING clause. *)
Definition returning {A} (f : DB -> result store_err (A * DB)) : StoreEff A :=
  db_op (fun _ d => match f d with Ok (a, d') => (Ok a, d') | Err e => (Err e, d) end).

Lemma scan_cases {A} ids (f : DB -> result store_err A) w r w' :
  scan ids f w = (r, w') -> w_db w' = w_db w /\ forall a, r = Ok a -> forallb valid_uuid ids = true /\ f (w_db w) = Ok a.
Proof.
  unfold scan. intros [[-> ->]|(d & Hf & <-)]%db_op_cases; [done|].
  injection Hf as <- <-. split; [done|]. intros a. by destruct (forallb _ _).
Qed.
Lemma query_cases {A} ids (f : DB -> A) w r w' :
  query ids f w = (r, w') ->
  w_db w' = w_db w /\ forall a, r = Ok a -> forallb valid_uuid ids = true /\ a = f (w_db w).
Proof.
  unfold query. intros [[-> ->]|(d & Hf & <-)]%db_op_cases; [done|].
  injection Hf as <- <-. split; [done|]. intros a. destruct (forallb _ _); [|done]. by intros [= <-].
Qed.
(** A query answers when the database does. *)
Lemma query_runs {A} ids (f : DB -> A) w :
  w_faults w = [] -> forallb valid_uuid ids = true -> query ids f w = (Ok (f (w_db w)), with_faults w []).
Proof. intros Hf Hv. unfold query, db_op. rewrite Hf, Hv. cbn. destruct w; cbn in *. by subst. Qed.
Lemma exec_cases (f : DB -> result store_err DB) w r w' :
  exec f w = (r, w') ->
  (exists e, r = Err e /\ w_db w' = w_db w) \/ (r = Ok tt /\ f (w_db w) = Ok (w_db w')).
Proof.
  unfold exec. intros [[-> ->]|(d & Hf & <-)]%db_op_cases; [eauto|].
  destruct (f (w_db w)) as [d'|e]; injection Hf as <- <-; eauto.
Qed.
Lemma returning_cases {A} (f : DB -> result store_err (A * DB)) w r w' :
  returning f w = (r, w') ->
  (exists e, r = Err e /\ w_db w' = w_db w) \/ (exists a, r = Ok a /\ f (w_db w) = Ok (a, w_db w')).
Proof.
  unfold returning. intros [[-> ->]|(d & Hf & <-)]%db_op_cases; [eauto|].
  destruct (f (w_db w)) as [[a d']|e]; injection Hf as <- <-; eauto.
Qed.
(** Two queries of a store function, and what it makes of their answers. *)
Lemma two_queries {A B C} ids (f : DB -> A) (g : DB -> B) (h : A -> B -> C) w r w' :
  func (a <- try (query ids f) Err ;; b <- try (query ids g) Err ;; gret (Ok (h a b))) w = (r, w') ->
  w_db w' = w_db w /\ forall c, r = Ok c -> forallb valid_uuid ids = true /\ c = h (f (w_db w)) (g (w_db w)).
Proof.
  unfold func, try, gbind, call, gret, greturn.
  destruct (query ids f w) as [[a|e] w1] eqn:E1; apply query_cases in E1 as [D1 V1]; [|by intros [= <- <-]].
  destruct (query ids g w1) as [[b|e] w2] eqn:E2; apply query_cases in E2 as [D2 V2]; intros [= <- <-]; (split; [congruence|]); [|done].
  destruct (V1 a eq_refl) as [Hv ->], (V2 b eq_refl) as [_ ->]. intros c [= <-]. by rewrite D1.
Qed.
(** Statements that read the clock first. *)
Lemma timed_cases (g : Z -> DB -> result store_err DB) w r w' :
  func (now <- call time_now ;; call (exec (g now))) w = (r, w') ->
  (exists e, r = Err e /\ w_db w' = w_db w) \/
  (r = Ok tt /\ exists now, now = (time_now w).1 /\ g now (w_db w) = Ok (w_db w')).
Proof.
  unfold func, gbind, call. pose proof (time_now_db w) as Hd. destruct (time_now w) as [now w1]. cbn in *.
  destruct (exec (g now) w1) as [r1 w2] eqn:E. intros [= <- <-].
  apply exec_cases in E as [(e & -> & ->)|(-> & E)]; rewrite Hd in *; eauto 6.
Qed.
Lemma timed_returning_cases {A} (g : Z -> DB -> result store_err (A * DB)) w r w' :
  func (now <- call time_now ;; call (returning (g now))) w = (r, w') ->
  (exists e, r = Err e /\ w_db w' = w_db w) \/
  (exists a now, r = Ok a /\ now = (time_now w).1 /\ g now (w_db w) = Ok (a, w_db w')).
Proof.
  unfold func, gbind, call. pose proof (time_now_db w) as Hd. destruct (time_now w) as [now w1]. cbn in *.
  destruct (returning (g now) w1) as [r1 w2] eqn:E. intros [= <- <-].
  apply returning_cases in E as [(e & -> & ->)|(a & -> & E)]; rewrite Hd in *; eauto 6.
Qed.
End Statements.

(** ** Columns who and when *)

Definition au_live (a : Audit) : bool := negb (found (au_DeletedAt a)).
Definition inserted_audit (now : Z) (a : Audit) : Audit :=
  mkAudit (au_CreatedBy a) (au_UpdatedBy a) (au_CreatedByCommitHash a) None (or_now (au_CreatedAt a) now)
    (or_now (au_UpdatedAt a) now) None None.
Definition updated_audit (now : Z) (new old : Audit) : Audit :=
  mkAudit (au_CreatedBy old) (au_UpdatedBy new) (au_CreatedByCommitHash old) (au_UpdatedByCommitHash new)
    (au_CreatedAt old) now (au_DeletedAt old) (au_DeletedBy old).
Definition deleted_audit (by_ : string) (now : Z) (a : Audit) : Audit :=
  mkAudit (au_CreatedBy a) (au_UpdatedBy a) (au_CreatedByCommitHash a) (au_UpdatedByCommitHash a)
    (au_CreatedAt a) (au_UpdatedAt a) (Some now) (Some by_).

(** ** The prologue of a handler *)

(** The tables a handler works on have the services among them. *)
Class Services (DB : Type) := db_services : DB -> gmap string ServiceRow.

Section Prologue.
Context {DB B : Type} `{Services DB} `{UuidText}.
#[local] Abbreviation W := (World DB).
#[local] Abbreviation Reply := (Response B).

Definition fail (e : go_err) : Reply := match e with Failed e => HttpError e | _ => panicked end.
Definition bad_body : Reply := BadRequest "invalid request body".

Definition GetService (id : string) : Eff W (result store_err (option ServiceRow)) := query [id] (fun d => db_services d !! id).

Definition ensureServiceInOrg (orgID serviceID : string) : Go W Reply unit :=
  svc <- try (GetService serviceID) HttpError ;;
  match svc with
  | Some s => return_if (negb (sv_live s) || negb (String.eqb (sv_OrgID s) orgID)) (HttpError ErrNotFound)
  | None => greturn (HttpError ErrNotFound)
  end.

(** [x, err := get(id); if x == nil || x.DeletedAt != nil || x.ServiceID != serviceID { 404 }] *)
Definition live_in {R} (get : Eff W (result store_err (option R))) (ok : R -> bool) : Go W Reply R :=
  o <- try get HttpError ;;
  x <- non_nil o (HttpError ErrNotFound) ;;
  return_if (negb (ok x)) (HttpError ErrNotFound) ;;;
  gret x.
End Prologue.

(** ** Walking through a handler *)

Definition succeeded {B} (r : Response B) : bool := bool_decide (status r ∈ [200; 201; 204]%Z).
Definition refused {B} (r : Response B) : bool :=
  negb (succeeded r) && match payload r with Json _ => false | _ => true end.

Lemma HttpError_refused {B} e : refused (HttpError (B := B) e) = true.
Proof. by destruct e. Qed.
Lemma fail_refused {B} e : refused (fail (B := B) e) = true.
Proof. destruct e as [[]| |]; done. Qed.
#[export] Hint Resolve HttpError_refused fail_refused : core.

(** A reply that refuses, with the tables as they were, is one of the ends [P]. *)
Definition quiet {DB B} (d0 : DB) (P : Response B -> World DB -> Prop) : Prop :=
  forall r w', refused r = true -> w_db w' = d0 -> P r w'.

Section Body.
Context {DB B : Type} `{Services DB} `{UuidText} `{UuidGen}.
Context (oid sid : string) (d0 : DB) (P : Response B -> World DB -> Prop).
Hypothesis Hquiet : quiet d0 P.
#[local] Abbreviation W := (World DB).
#[local] Abbreviation Reply := (Response B).
Implicit Types w : W.

Lemma ends_query {A} ids (f : DB -> A) (Q : A -> W -> Prop) w :
  w_db w = d0 -> (forall w', w_db w' = d0 -> Q (f d0) w') -> wp (try (query ids f) HttpError) P Q w.
Proof using Hquiet.
  intros Hw HQ. apply wp_try. destruct (query ids f w) as [[a|e] w'] eqn:E; apply query_cases in E as [Hd Ha].
  - destruct (Ha a) as [_ ->]; [done|]. rewrite Hw. apply HQ. congruence.
  - apply Hquiet; [done|congruence].
Qed.
Lemma ends_scan {A} ids (f : DB -> result store_err A) (Q : A -> W -> Prop) w :
  w_db w = d0 -> (forall a w', f d0 = Ok a -> w_db w' = d0 -> Q a w') -> wp (try (scan ids f) HttpError) P Q w.
Proof using Hquiet.
  intros Hw HQ. apply wp_try. destruct (scan ids f w) as [[a|e] w'] eqn:E; apply scan_cases in E as [Hd Ha].
  - destruct (Ha a) as [_ Hf]; [done|]. rewrite Hw in Hf. apply HQ; [done|congruence].
  - apply Hquiet; [done|congruence].
Qed.
Lemma ends_live_in {R} ids (f : DB -> option R) (ok : R -> bool) (Q : R -> W -> Prop) w :
  w_db w = d0 -> (forall x w', f d0 = Some x -> ok x = true -> w_db w' = d0 -> Q x w') ->
  wp (live_in (query ids f) ok) P Q w.
Proof using Hquiet.
  intros Hw HQ. unfold live_in. apply wp_bind, ends_query; [done|]. intros w1 Hw1. wp_step. split.
  - intros _. by apply Hquiet.
  - intros x Hx. rewrite wp_bind, wp_return_if. split; [intros _; by apply Hquiet|].
    intros Hc%negb_false_iff. by apply HQ.
Qed.
(** The service is a live one of the org. *)
Definition service_in (d : DB) : Prop := exists s, db_services d !! sid = Some s /\ sv_OrgID s = oid /\ sv_live s = true.
Lemma ends_ensure {A} (m : Go W Reply A) (Q : A -> W -> Prop) w :
  w_db w = d0 -> (forall w', service_in d0 -> w_db w' = d0 -> wp m P Q w') ->
  wp (ensureServiceInOrg oid sid ;;; m) P Q w.
Proof using Hquiet.
  intros Hw HQ. unfold ensureServiceInOrg. apply wp_bind, wp_bind. apply ends_query; [done|]. intros w1 Hw1.
  destruct (db_services d0 !! sid) as [s|] eqn:Hs; [|by apply Hquiet]. apply wp_return_if.
  split; [intros _; by apply Hquiet|]. intros [Hl%negb_false_iff Ho%negb_false_iff%String.eqb_eq]%orb_false_iff.
  apply HQ; [|done]. by exists s.
Qed.
Lemma ends_non_nil {A C} (p : option A) r (f : A -> Go W Reply C) (Q : C -> W -> Prop) w :
  w_db w = d0 -> refused r = true -> (forall a, p = Some a -> wp (f a) P Q w) -> wp (x <- non_nil p r ;; f x) P Q w.
Proof using Hquiet.
  intros Hw Hr HQ. rewrite wp_bind, wp_non_nil. split; [intros _; by apply Hquiet|done].
Qed.
Lemma ends_return_if {C} c r (m : Go W Reply C) (Q : C -> W -> Prop) w :
  w_db w = d0 -> refused r = true -> (c = false -> wp m P Q w) -> wp (return_if c r ;;; m) P Q w.
Proof using Hquiet.
  intros Hw Hr HQ. rewrite wp_bind, wp_return_if. split; [intros _; by apply Hquiet|done].
Qed.
Lemma ends_now {C} (f : Z -> Go W Reply C) (Q : C -> W -> Prop) w :
  w_db w = d0 -> (forall t w', w_db w' = d0 -> wp (f t) P Q w') -> wp (t <- call time_now ;; f t) P Q w.
Proof using Hquiet. intros Hw HQ. rewrite wp_bind, wp_call. apply HQ. by rewrite time_now_db. Qed.
Lemma ends_new_id {C} (f : string -> Go W Reply C) (Q : C -> W -> Prop) w :
  w_db w = d0 -> (forall id w', w_db w' = d0 -> wp (f id) P Q w') -> wp (id <- try NewString fail ;; f id) P Q w.
Proof using Hquiet.
  intros Hw HQ. rewrite wp_bind, wp_try. pose proof (NewString_db w) as Hd.
  destruct (NewString w) as [[id|e] w']; cbn in Hd; [apply HQ; congruence|]. apply Hquiet; [done|congruence].
Qed.
(** The last call of a handler: a statement, then the reply. *)
Lemma ends_exec (g : Z -> DB -> result store_err DB) (on_err : store_err -> Reply) r w :
  w_db w = d0 -> (forall e, refused (on_err e) = true) -> (forall now w', g now d0 = Ok (w_db w') -> P r w') ->
  wp (_ <- try (func (now <- call time_now ;; call (exec (g now)))) on_err ;; gret r) P P w.
Proof using Hquiet.
  intros Hw He Hg. rewrite wp_bind, wp_try. destruct (func _ w) as [a w'] eqn:E.
  apply timed_cases in E as [(e & -> & Hd)|(-> & now & _ & Hd)]; [apply Hquiet; [done|congruence]|].
  rewrite Hw in Hd. by apply (Hg now).
Qed.
Lemma ends_write (g : Z -> DB -> result store_err DB) r w :
  w_db w = d0 -> (forall now w', g now d0 = Ok (w_db w') -> P r w') ->
  wp (_ <- try (func (now <- call time_now ;; call (exec (g now)))) HttpError ;; gret r) P P w.
Proof using Hquiet. intros Hw. apply ends_exec; [done|]. intros e. apply HttpError_refused. Qed.
Lemma ends_returning {A} (g : Z -> DB -> result store_err (A * DB)) (r : A -> Reply) w :
  w_db w = d0 -> (forall a now w', g now d0 = Ok (a, w_db w') -> P (r a) w') ->
  wp (a <- try (func (now <- call time_now ;; call (returning (g now)))) HttpError ;; gret (r a)) P P w.
Proof using Hquiet.
  intros Hw Hg. rewrite wp_bind, wp_try. destruct (func _ w) as [b w'] eqn:E.
  apply timed_returning_cases in E as [(e & -> & Hd)|(a & now & -> & _ & Hd)]; [apply Hquiet; [done|congruence]|].
  rewrite Hw in Hd. by apply (Hg a now).
Qed.
(** A statement in the middle of a handler, and two queries. *)
Lemma ends_exec_now {C} (f : DB -> result store_err DB) (on_err : store_err -> Reply) (k : Go W Reply C) (Q : C -> W -> Prop) w :
  w_db w = d0 -> (forall e, refused (on_err e) = true) -> (forall w', f d0 = Ok (w_db w') -> wp k P Q w') ->
  wp (_ <- try (exec f) on_err ;; k) P Q w.
Proof using Hquiet.
  intros Hw He HQ. rewrite wp_bind, wp_try. destruct (exec f w) as [r w'] eqn:E.
  apply exec_cases in E as [(e & -> & Hd)|(-> & Hf)]; [apply Hquiet; [done|congruence]|]. apply HQ. by rewrite <-Hw.
Qed.
Lemma ends_two {A B' C E} ids (f : DB -> A) (g : DB -> B') (h : A -> B' -> C) (k : C -> Go W Reply E) (Q : E -> W -> Prop) w :
  w_db w = d0 -> (forall w', w_db w' = d0 -> wp (k (h (f d0) (g d0))) P Q w') ->
  wp (c <- try (func (a <- try (query ids f) Err ;; b <- try (query ids g) Err ;; gret (Ok (h a b)))) HttpError ;; k c) P Q w.
Proof using Hquiet.
  intros Hw HQ. rewrite wp_bind, wp_try. destruct (func _ w) as [[c|e] w'] eqn:Ew; apply two_queries in Ew as [Hd Hr].
  - destruct (Hr c eq_refl) as [_ ->]. rewrite Hw. apply HQ. congruence.
  - apply Hquiet; [done|congruence].
Qed.
Lemma func_ends (m : Go W Reply Reply) w : wp m P P w -> P (func m w).1 (func m w).2.
Proof. intros Hm. by apply wp_func. Qed.
End Body.

(** One call of a handler. *)
Ltac ends_step :=
  lazymatch goal with
  | |- wp (ensureServiceInOrg _ _ ;;; _) _ _ _ => eapply ends_ensure; [done|done|]; intros ? ? ?
  | |- wp (_ <- live_in _ _ ;; _) _ _ _ => apply wp_bind; eapply ends_live_in; [done|done|]; intros ? ? ? ? ?
  | |- wp (_ <- try NewString _ ;; _) _ _ _ => eapply ends_new_id; [done|done|]; intros ? ? ?
  | |- wp (_ <- try _ _ ;; _) _ _ _ => apply wp_bind; eapply ends_query; [done|done|]; intros ? ?
  | |- wp (_ <- call time_now ;; _) _ _ _ => eapply ends_now; [done|done|]; intros ? ? ?
  | |- wp (_ <- non_nil _ _ ;; _) _ _ _ => eapply ends_non_nil; [done|done|done|]; intros ? ?
  | |- wp (return_if _ _ ;;; _) _ _ _ => eapply ends_return_if; [done|done|done|]; intros ?
  end.

(** ** Past the checks of a statement *)

Ltac past :=
  repeat match goal with
  | |- match ?x with _ => _ end = Ok _ -> _ => destruct x eqn:?; try done
  | |- (if ?b then _ else _) = Ok _ -> _ => destruct b eqn:?; try done
  end; try (intros [= <-]).
Ltac bools :=
  repeat match goal with
  | Hx : _ || _ = false |- _ => apply orb_false_iff in Hx as [? ?]
  | Hx : negb _ = false |- _ => apply negb_false_iff in Hx
  | Hx : found (_ !! _) = true |- _ => apply found_true in Hx
  | Hx : found (_ !! _) = false |- _ => apply found_false in Hx
  end.

(** A row that stays: it keeps its owner, and does not change once it is deleted. *)
Definition stays {R O} (owner : R -> O) (live : R -> bool) (x x' : R) : Prop :=
  owner x' = owner x /\ (live x = false -> x' = x).
Lemma stays_refl {R O} (owner : R -> O) (live : R -> bool) x : stays owner live x x.
Proof. by split. Qed.
Lemma stays_trans {R O} (owner : R -> O) (live : R -> bool) x y z :
  stays owner live x y -> stays owner live y z -> stays owner live x z.
Proof. intros [E1 L1] [E2 L2]. split; [congruence|]. intros Hl. specialize (L1 Hl). subst. auto. Qed.
#[export] Hint Resolve stays_refl : core.
(** A new row, or a live row changed in place. *)
Lemma evolves_put {R O} (mine : R -> Prop) (owner : R -> O) (live : R -> bool) (t : gmap string R) k v :
  mine v -> (forall v0, t !! k = Some v0 -> live v0 = true /\ mine v0 /\ owner v = owner v0) ->
  evolves mine (stays owner live) t (<[k := v]> t).
Proof.
  intros Hm Hk. apply evolves_insert; [done|done|]. intros v0 Hv. destruct (Hk v0 Hv) as (Hl & Hm0 & Ho).
  split; [done|]. split; [done|]. by rewrite Hl.
Qed.
Lemma insert_is_Some {V} (t : gmap string V) k v j : is_Some (t !! j) -> is_Some (<[k := v]> t !! j).
Proof. intros Hj. apply lookup_insert_is_Some'. by right. Qed.
#[export] Hint Resolve insert_is_Some : core.
