(* ===== verification/TestPacks.v ===== *)
(** * TestPacks: test packs, cases, runs and results of a service

    Models the test records of [internal/catalog/catalog.go] and
    [internal/store/postgres/service_tests.go], on the tables of migrations 0022,
    0046 and 0062.  Ids are canonical texts of UUIDs; a [jsonb] column keeps a
    document of its own for a payload, or refuses it.  Of [services] the columns of
    Dependencies are read; of [orgs] only the ids matter. *)

From S2P Require Import Prelude GoStrings Effects ApiSpec Authz Identity Dependencies Table Requests.
From Stdlib Require Import QArith.
#[local] Open Scope nat_scope.
#[local] Open Scope string_scope.

(** ** Payloads *)

Record KeyValue := mkKeyValue { kv_Key : string; kv_Value : string }.
Record Assertion := mkAssertion { as_Field : string; as_Type : string; as_Value : string }.
Record AuthConfig := mkAuthConfig {
  ac_Type : string; ac_BearerToken : option string; ac_APIKeyHeader : option string;
  ac_APIKeyValue : option string; ac_BasicUsername : option string; ac_BasicPassword : option string
}.
Record TestCaseStep := mkStep { ts_Order : Z; ts_Action : string; ts_ExpectedResult : string }.
Record ManualTestCase := mkManual {
  mt_Preconditions : option string; mt_TestData : option string; mt_Steps : list TestCaseStep;
  mt_ExpectedOutcome : option string; mt_Postconditions : option string
}.
Record APITestCase := mkAPITest {
  at_HTTPMethod : string; at_APISpecID : option string; at_OperationID : option string;
  at_Auth : option AuthConfig; at_RequestHeaders : list KeyValue; at_QueryParams : list KeyValue;
  at_RequestBody : option string; at_ExpectedStatusCode : option Z; at_MaxResponseTimeMs : option Z;
  at_ResponseBody : option string; at_Assertions : list Assertion
}.
Record GraphQLTestCase := mkGraphQLTest {
  gt_OperationType : string; gt_OperationName : option string; gt_Query : string;
  gt_Variables : option string; gt_ResponseBody : option string; gt_Assertions : list Assertion;
  gt_ExpectError : bool
}.
Record DatabaseTestCase := mkDatabaseTest {
  dt_Dialect : string; dt_SchemaID : option string; dt_Query : string; dt_Assertions : list Assertion;
  dt_SetupQuery : option string; dt_TeardownQuery : option string
}.
Record GRPCTestCase := mkGRPCTest {
  pt_ServiceName : string; pt_MethodName : string; pt_CallMode : string; pt_ProtoFileID : option string;
  pt_ServerAddress : option string; pt_RequestMessage : option string; pt_Metadata : list KeyValue;
  pt_ExpectedStatus : string; pt_DeadlineMs : option Z; pt_ResponseBody : option string;
  pt_Assertions : list Assertion; pt_UseTLS : bool; pt_ExpectError : bool
}.
Record LoadPackConfig := mkLoadConfig {
  lp_TargetEndpoints : list string; lp_Thresholds : list LoadTestThreshold
}.
Record LoadTestTimeSeriesPoint := mkSeriesPoint {
  sp_TSec : Z; sp_RPS : Q; sp_ErrorRate : Q; sp_P95LatencyMs : Q; sp_ActiveVUs : Z
}.
Record LoadTestEndpointBreakdown := mkBreakdown {
  eb_Endpoint : string; eb_Method : string; eb_RequestCount : Z; eb_RequestsPerSec : Q; eb_ErrorRate : Q;
  eb_AvgLatencyMs : Q; eb_P50LatencyMs : Q; eb_P90LatencyMs : Q; eb_P95LatencyMs : Q; eb_P99LatencyMs : Q;
  eb_APIEndpointID : option string
}.
Record CustomMetricPoint := mkMetricPoint { mp_T : Q; mp_V : Q }.
Record CustomMetric := mkCustomMetric {
  cm_Name : string; cm_Value : option Q; cm_Unit : option string; cm_TimeSeries : list CustomMetricPoint
}.
Record LoadTestMetrics := mkLoadMetrics {
  lm_DurationSec : Q; lm_TotalRequests : Z; lm_RequestsPerSec : Q; lm_ErrorRate : Q; lm_MinLatencyMs : Q;
  lm_AvgLatencyMs : Q; lm_MaxLatencyMs : Q; lm_P50LatencyMs : Q; lm_P90LatencyMs : Q; lm_P95LatencyMs : Q;
  lm_P99LatencyMs : Q; lm_VirtualUsers : Z; lm_TimeSeries : list LoadTestTimeSeriesPoint;
  lm_PerEndpoint : list LoadTestEndpointBreakdown; lm_CustomMetrics : list CustomMetric;
  lm_Notes : option string; lm_ScreenshotURLs : list string
}.

(** ** Rows

    Of a test case the columns an UPDATE sets are grouped as [CaseContent]; who
    made and changed a row when is [Audit].  A nil slice is [None]. *)

Record TestPack := mkTestPack {
  tp_ID : string; tp_ServiceID : string; tp_OrgID : string; tp_Name : string; tp_Type : string;
  tp_LoadConfig : option LoadPackConfig; tp_BaselineRunID : option string; tp_Audit : Audit
}.
Record CaseContent := mkCaseContent {
  cc_Title : string; cc_Order : Q; cc_Type : string; cc_Description : option string;
  cc_Priority : option string; cc_Labels : option (list string); cc_LinkedTicket : option string;
  cc_EstimatedDurationMins : option Z; cc_TestOwner : option string; cc_LinkedMapNodeID : option string;
  cc_IsCritical : bool; cc_EvidenceRequired : bool; cc_ScreenshotURLs : option (list string);
  cc_Manual : option ManualTestCase; cc_API : option APITestCase; cc_GraphQL : option GraphQLTestCase;
  cc_Database : option DatabaseTestCase; cc_GRPC : option GRPCTestCase; cc_Status : string;
  cc_Version : Z; cc_BaselineRunResultID : option string; cc_Dependencies : option (list string)
}.
Record TestCase := mkTestCase {
  tc_ID : string; tc_TestPackID : string; tc_ServiceID : string; tc_OrgID : string;
  tc_Content : CaseContent; tc_Audit : Audit
}.
Record TestRun := mkTestRun {
  tr_ID : string; tr_TestPackID : string; tr_ServiceID : string; tr_OrgID : string;
  tr_Environment : string; tr_ReleaseLabel : option string; tr_StartedAt : option Z;
  tr_CompletedAt : option Z; tr_Status : string; tr_StartedBy : option string; tr_ExecutedBy : string;
  tr_ExecutedAt : Z; tr_OverallStatus : string; tr_LoadMetrics : option LoadTestMetrics;
  tr_CreatedBy : string; tr_UpdatedBy : option string; tr_CreatedAt : Z; tr_UpdatedAt : Z;
  tr_DeletedAt : option Z
}.
Record TestRunResult := mkTestRunResult {
  rr_ID : string; rr_TestRunID : string; rr_TestCaseID : string; rr_ServiceID : string; rr_OrgID : string;
  rr_Status : string; rr_BlockedReason : option string; rr_ResponseStatus : option Z;
  rr_ResponseBody : option string; rr_ResponseTimeMs : option Z; rr_Notes : option string;
  rr_ScreenshotURLs : option (list string); rr_ExecutedAt : Z; rr_ExecutedBy : string;
  rr_CreatedAt : Z; rr_UpdatedAt : Z; rr_DeletedAt : option Z
}.
Record TestRunSummary := mkRunSummary {
  sm_TestRunID : string; sm_TestPackID : string; sm_ServiceID : string; sm_Environment : string;
  sm_ReleaseLabel : option string; sm_StartedAt : option Z; sm_CompletedAt : option Z; sm_Status : string;
  sm_StartedBy : option string; sm_ExecutedBy : string; sm_ExecutedAt : Z; sm_OverallStatus : string;
  sm_PassedCount : Z; sm_FailedCount : Z; sm_SkippedCount : Z; sm_BlockedCount : Z
}.
Record TestRunSummaryFilter := mkSummaryFilter {
  sf_TestPackID : option string; sf_Environment : option string; sf_Status : option string;
  sf_ExecutedBy : option string; sf_FromDate : option Z; sf_ToDate : option Z
}.

Record TestDB := mkTestDB {
  t_orgs : gset string; t_services : gmap string ServiceRow;
  t_packs : gmap string TestPack; t_cases : gmap string TestCase;
  t_runs : gmap string TestRun; t_results : gmap string TestRunResult
}.
Definition set_packs (d : TestDB) t := mkTestDB (t_orgs d) (t_services d) t (t_cases d) (t_runs d) (t_results d).
Definition set_cases (d : TestDB) t := mkTestDB (t_orgs d) (t_services d) (t_packs d) t (t_runs d) (t_results d).
Definition set_runs (d : TestDB) t := mkTestDB (t_orgs d) (t_services d) (t_packs d) (t_cases d) t (t_results d).
Definition set_results (d : TestDB) t := mkTestDB (t_orgs d) (t_services d) (t_packs d) (t_cases d) (t_runs d) t.

#[export] Instance test_services : Services TestDB := t_services.
Definition TestEff (A : Type) : Type := Eff (World TestDB) (result store_err A).

Class TestPayloads := {
  #[global] load_config_column :: JsonColumn LoadPackConfig;
  #[global] load_metrics_column :: JsonColumn LoadTestMetrics;
  #[global] manual_column :: JsonColumn ManualTestCase;
  #[global] api_column :: JsonColumn APITestCase;
  #[global] graphql_column :: JsonColumn GraphQLTestCase;
  #[global] database_column :: JsonColumn DatabaseTestCase;
  #[global] grpc_column :: JsonColumn GRPCTestCase
}.

(** ** Rows that are not deleted *)

Definition tp_live (p : TestPack) : bool := au_live (tp_Audit p).
Definition tc_live (c : TestCase) : bool := au_live (tc_Audit c).
Definition tr_live (r : TestRun) : bool := negb (found (tr_DeletedAt r)).
Definition rr_live (r : TestRunResult) : bool := negb (found (rr_DeletedAt r)).

Definition tp_with (p : TestPack) (lc : option LoadPackConfig) (a : Audit) : TestPack :=
  mkTestPack (tp_ID p) (tp_ServiceID p) (tp_OrgID p) (tp_Name p) (tp_Type p) lc (tp_BaselineRunID p) a.
Definition tc_with (c : TestCase) (cc : CaseContent) (a : Audit) : TestCase :=
  mkTestCase (tc_ID c) (tc_TestPackID c) (tc_ServiceID c) (tc_OrgID c) cc a.

Section Store.
Context `{Collation} `{UuidText} `{TestPayloads}.
Implicit Types d : TestDB.

Definition owner_fks (serviceID orgID : string) d : bool :=
  found (t_services d !! serviceID) && bool_decide (orgID ∈ t_orgs d).

Definition opt_eqb (o : option string) (s : string) : bool := match o with Some x => String.eqb s x | None => true end.

(** ** Test packs *)

Definition pack_checks (p : TestPack) : bool := mem_str (tp_Type p) ["smoke"; "regression"; "manual"; "load"].
Definition pack_params (p : TestPack) : bool :=
  forallb valid_uuid [tp_ID p; tp_ServiceID p; tp_OrgID p; au_CreatedBy (tp_Audit p)] &&
  opt_ok valid_uuid (tp_BaselineRunID p) && opt_ok valid_uuid (au_UpdatedBy (tp_Audit p)).

Definition insert_pack (now : Z) (p : TestPack) d : result store_err TestDB :=
  match nullable (tp_LoadConfig p) with
  | None => bad_syntax
  | Some lc =>
      if negb (pack_params p) then bad_syntax
      else if found (t_packs d !! tp_ID p) || negb (owner_fks (tp_ServiceID p) (tp_OrgID p) d) || negb (pack_checks p)
      then violation
      else Ok (set_packs d (<[tp_ID p := tp_with p lc (inserted_audit now (tp_Audit p))]> (t_packs d)))
  end.
Definition CreateTestPack (p : TestPack) : TestEff unit :=
  func (now <- call time_now ;; call (exec (insert_pack now p))).

Definition GetTestPack (id : string) : TestEff (option TestPack) := query [id] (fun d => t_packs d !! id).

Definition ListTestPacks (serviceID : string) (exactName : option string) : TestEff (list TestPack) :=
  query [serviceID] (fun d =>
    order_by (then_by (exact_first tp_Name exactName)
             (then_by (by_key (fun p => au_CreatedAt (tp_Audit p))) (by_id tp_ID)))
      (select (fun p => String.eqb (tp_ServiceID p) serviceID && tp_live p && exact_match tp_Name exactName p)
         (t_packs d))).

Definition updated_pack (now : Z) (p old : TestPack) (lc : option LoadPackConfig) : TestPack :=
  mkTestPack (tp_ID old) (tp_ServiceID old) (tp_OrgID old) (tp_Name p) (tp_Type p) lc (tp_BaselineRunID p)
    (updated_audit now (tp_Audit p) (tp_Audit old)).
Definition update_pack (now : Z) (p : TestPack) d : result store_err TestDB :=
  match nullable (tp_LoadConfig p) with
  | None => bad_syntax
  | Some lc =>
      if negb (valid_uuid (tp_ID p) && opt_ok valid_uuid (tp_BaselineRunID p) &&
               opt_ok valid_uuid (au_UpdatedBy (tp_Audit p))) then bad_syntax else
      match t_packs d !! tp_ID p with
      | Some old =>
          if negb (tp_live old) then Ok d
          else if negb (pack_checks p) then violation
          else Ok (set_packs d (<[tp_ID p := updated_pack now p old lc]> (t_packs d)))
      | None => Ok d
      end
  end.
Definition UpdateTestPack (p : TestPack) : TestEff unit :=
  func (now <- call time_now ;; call (exec (update_pack now p))).

Definition delete_pack (now : Z) (id deletedBy : string) d : result store_err TestDB :=
  if negb (valid_uuid id && valid_uuid deletedBy) then bad_syntax else
  match t_packs d !! id with
  | Some p => if tp_live p
              then Ok (set_packs d (<[id := tp_with p (tp_LoadConfig p) (deleted_audit deletedBy now (tp_Audit p))]> (t_packs d)))
              else Ok d
  | None => Ok d
  end.
Definition SoftDeleteTestPack (id deletedBy : string) : TestEff unit :=
  func (now <- call time_now ;; call (exec (delete_pack now id deletedBy))).

(** ** Test cases *)

Definition case_checks (c : CaseContent) : bool :=
  mem_str (cc_Type c) ["manual"; "api"; "graphql"; "database"; "grpc"] &&
  opt_ok (fun p => mem_str p ["p0"; "p1"; "p2"; "p3"]) (cc_Priority c) &&
  mem_str (cc_Status c) ["active"; "draft"; "deprecated"].

(** The columns of the content; [None]: one of them refuses its value. *)
Definition stored_case (c : CaseContent) : option CaseContent :=
  m ← nullable (cc_Manual c); a ← nullable (cc_API c); g ← nullable (cc_GraphQL c);
  db ← nullable (cc_Database c); rpc ← nullable (cc_GRPC c);
  if opt_ok int4 (cc_EstimatedDurationMins c) && int4 (cc_Version c) &&
     opt_ok valid_uuid (cc_BaselineRunResultID c) && forallb valid_uuid (default [] (cc_Dependencies c))
  then Some (mkCaseContent (cc_Title c) (cc_Order c) (cc_Type c) (cc_Description c) (cc_Priority c)
               (Some (default [] (cc_Labels c))) (cc_LinkedTicket c) (cc_EstimatedDurationMins c) (cc_TestOwner c)
               (cc_LinkedMapNodeID c) (cc_IsCritical c) (cc_EvidenceRequired c)
               (Some (default [] (cc_ScreenshotURLs c))) m a g db rpc (cc_Status c) (cc_Version c)
               (cc_BaselineRunResultID c) (Some (default [] (cc_Dependencies c))))
  else None.

(** An INSERT replaces an empty status and a zero version. *)
Definition case_defaults (c : CaseContent) : CaseContent :=
  mkCaseContent (cc_Title c) (cc_Order c) (cc_Type c) (cc_Description c) (cc_Priority c) (cc_Labels c)
    (cc_LinkedTicket c) (cc_EstimatedDurationMins c) (cc_TestOwner c) (cc_LinkedMapNodeID c) (cc_IsCritical c)
    (cc_EvidenceRequired c) (cc_ScreenshotURLs c) (cc_Manual c) (cc_API c) (cc_GraphQL c) (cc_Database c) (cc_GRPC c)
    (if str_empty (cc_Status c) then "active" else cc_Status c) (if (cc_Version c =? 0)%Z then 1%Z else cc_Version c)
    (cc_BaselineRunResultID c) (cc_Dependencies c).

Definition insert_case (now : Z) (tc : TestCase) d : result store_err TestDB :=
  match stored_case (case_defaults (tc_Content tc)) with
  | None => bad_syntax
  | Some cc =>
      if negb (forallb valid_uuid [tc_ID tc; tc_TestPackID tc; tc_ServiceID tc; tc_OrgID tc; au_CreatedBy (tc_Audit tc)] &&
               opt_ok valid_uuid (au_UpdatedBy (tc_Audit tc))) then bad_syntax
      else if found (t_cases d !! tc_ID tc) || negb (found (t_packs d !! tc_TestPackID tc)) ||
              negb (owner_fks (tc_ServiceID tc) (tc_OrgID tc) d) || negb (case_checks cc) then violation
      else Ok (set_cases d (<[tc_ID tc := tc_with tc cc (inserted_audit now (tc_Audit tc))]> (t_cases d)))
  end.
Definition CreateTestCase (tc : TestCase) : TestEff unit :=
  func (now <- call time_now ;; call (exec (insert_case now tc))).

Definition GetTestCase (id : string) : TestEff (option TestCase) := query [id] (fun d => t_cases d !! id).

Definition by_order (x y : TestCase) : bool := negb (Qle_bool (cc_Order (tc_Content y)) (cc_Order (tc_Content x))).
Definition case_title (c : TestCase) : string := cc_Title (tc_Content c).

Definition ListTestCases (serviceID : string) (testPackID exactTitle : option string) : TestEff (list TestCase) :=
  query (serviceID :: option_list testPackID) (fun d =>
    order_by (then_by (exact_first case_title exactTitle)
             (then_by by_order (then_by (by_key (fun c => au_CreatedAt (tc_Audit c))) (by_id tc_ID))))
      (select (fun c => String.eqb (tc_ServiceID c) serviceID && tc_live c && opt_eqb testPackID (tc_TestPackID c) &&
                 exact_match case_title exactTitle c) (t_cases d))).

Definition updated_case (now : Z) (tc old : TestCase) (cc : CaseContent) : TestCase :=
  mkTestCase (tc_ID old) (tc_TestPackID tc) (tc_ServiceID old) (tc_OrgID old) cc
    (updated_audit now (tc_Audit tc) (tc_Audit old)).
Definition update_case (now : Z) (tc : TestCase) d : result store_err TestDB :=
  match stored_case (tc_Content tc) with
  | None => bad_syntax
  | Some cc =>
      if negb (valid_uuid (tc_TestPackID tc) && valid_uuid (tc_ID tc) && opt_ok valid_uuid (au_UpdatedBy (tc_Audit tc)))
      then bad_syntax else
      match t_cases d !! tc_ID tc with
      | Some old =>
          if negb (tc_live old) then Ok d
          else if negb (found (t_packs d !! tc_TestPackID tc)) || negb (case_checks cc) then violation
          else Ok (set_cases d (<[tc_ID tc := updated_case now tc old cc]> (t_cases d)))
      | None => Ok d
      end
  end.
Definition UpdateTestCase (tc : TestCase) : TestEff unit :=
  func (now <- call time_now ;; call (exec (update_case now tc))).

Definition delete_case (now : Z) (id deletedBy : string) d : result store_err TestDB :=
  if negb (valid_uuid id && valid_uuid deletedBy) then bad_syntax else
  match t_cases d !! id with
  | Some c => if tc_live c
              then Ok (set_cases d (<[id := tc_with c (tc_Content c) (deleted_audit deletedBy now (tc_Audit c))]> (t_cases d)))
              else Ok d
  | None => Ok d
  end.
Definition SoftDeleteTestCase (id deletedBy : string) : TestEff unit :=
  func (now <- call time_now ;; call (exec (delete_case now id deletedBy))).

(** ** Test runs *)

Definition run_checks (r : TestRun) : bool :=
  mem_str (tr_Status r) ["running"; "completed"; "aborted"] && mem_str (tr_OverallStatus r) ["passed"; "failed"; "partial"].

(** An INSERT replaces an empty status, and the times that are zero. *)
Definition stored_run (now : Z) (r : TestRun) (lm : option LoadTestMetrics) : TestRun :=
  mkTestRun (tr_ID r) (tr_TestPackID r) (tr_ServiceID r) (tr_OrgID r) (tr_Environment r) (tr_ReleaseLabel r)
    (tr_StartedAt r) (tr_CompletedAt r) (if str_empty (tr_Status r) then "running" else tr_Status r) (tr_StartedBy r)
    (tr_ExecutedBy r) (or_now (tr_ExecutedAt r) now) (tr_OverallStatus r) lm (tr_CreatedBy r) (tr_UpdatedBy r)
    (or_now (tr_CreatedAt r) now) (or_now (tr_UpdatedAt r) now) None.
Definition insert_run (now : Z) (r : TestRun) d : result store_err TestDB :=
  match nullable (tr_LoadMetrics r) with
  | None => bad_syntax
  | Some lm =>
      let row := stored_run now r lm in
      if negb (forallb valid_uuid [tr_ID r; tr_TestPackID r; tr_ServiceID r; tr_OrgID r; tr_ExecutedBy r; tr_CreatedBy r] &&
               opt_ok valid_uuid (tr_StartedBy r) && opt_ok valid_uuid (tr_UpdatedBy r)) then bad_syntax
      else if found (t_runs d !! tr_ID r) || negb (found (t_packs d !! tr_TestPackID r)) ||
              negb (owner_fks (tr_ServiceID r) (tr_OrgID r) d) || negb (run_checks row) then violation
      else Ok (set_runs d (<[tr_ID r := row]> (t_runs d)))
  end.
Definition CreateTestRun (r : TestRun) : TestEff unit :=
  func (now <- call time_now ;; call (exec (insert_run now r))).

Definition GetTestRun (id : string) : TestEff (option TestRun) := query [id] (fun d => t_runs d !! id).

Definition ListTestRuns (serviceID : string) (testPackID : option string) : TestEff (list TestRun) :=
  query (serviceID :: option_list testPackID) (fun d =>
    order_by (then_by (desc (by_key tr_ExecutedAt)) (desc (by_key tr_CreatedAt)))
      (select (fun r => String.eqb (tr_ServiceID r) serviceID && tr_live r && opt_eqb testPackID (tr_TestPackID r))
         (t_runs d))).

Definition updated_run (now : Z) (r old : TestRun) (lm : option LoadTestMetrics) : TestRun :=
  mkTestRun (tr_ID old) (tr_TestPackID old) (tr_ServiceID old) (tr_OrgID old) (tr_Environment r) (tr_ReleaseLabel r)
    (tr_StartedAt r) (tr_CompletedAt r) (tr_Status r) (tr_StartedBy r) (tr_ExecutedBy old) (tr_ExecutedAt old)
    (tr_OverallStatus r) lm (tr_CreatedBy old) (tr_UpdatedBy r) (tr_CreatedAt old) now (tr_DeletedAt old).
Definition update_run (now : Z) (r : TestRun) d : result store_err TestDB :=
  match nullable (tr_LoadMetrics r) with
  | None => bad_syntax
  | Some lm =>
      if negb (valid_uuid (tr_ID r) && opt_ok valid_uuid (tr_StartedBy r) && opt_ok valid_uuid (tr_UpdatedBy r))
      then bad_syntax else
      match t_runs d !! tr_ID r with
      | Some old =>
          if negb (tr_live old) then Ok d
          else if negb (run_checks r) then violation
          else Ok (set_runs d (<[tr_ID r := updated_run now r old lm]> (t_runs d)))
      | None => Ok d
      end
  end.
Definition UpdateTestRun (r : TestRun) : TestEff unit :=
  func (now <- call time_now ;; call (exec (update_run now r))).

(** *** The summary of the runs of a service *)

(** LEFT JOIN test_run_results ON test_run_id = tr.id AND deleted_at IS NULL. *)
Definition results_of (runID : string) d : list TestRunResult :=
  select (fun x => String.eqb (rr_TestRunID x) runID && rr_live x) (t_results d).
Definition joined_results (runID : string) d : list (option TestRunResult) :=
  match results_of runID d with [] => [None] | l => map Some l end.
(** SUM(CASE WHEN trr.status = s THEN 1 ELSE 0 END) over the rows of a group. *)
Definition sum_case (s : string) (l : list (option TestRunResult)) : Z :=
  foldr (fun x n => ((match x with Some r => if String.eqb (rr_Status r) s then 1 else 0 | None => 0 end) + n)%Z) 0%Z l.

Definition in_summary (serviceID : string) (f : TestRunSummaryFilter) (r : TestRun) : bool :=
  String.eqb (tr_ServiceID r) serviceID && tr_live r && opt_eqb (sf_TestPackID f) (tr_TestPackID r) &&
  opt_eqb (sf_Environment f) (tr_Environment r) && opt_eqb (sf_Status f) (tr_Status r) &&
  opt_eqb (sf_ExecutedBy f) (tr_ExecutedBy r) &&
  opt_ok (fun t => (t <=? tr_ExecutedAt r)%Z) (sf_FromDate f) && opt_ok (fun t => (tr_ExecutedAt r <=? t)%Z) (sf_ToDate f).
Definition summary_of d (r : TestRun) : TestRunSummary :=
  let l := joined_results (tr_ID r) d in
  mkRunSummary (tr_ID r) (tr_TestPackID r) (tr_ServiceID r) (tr_Environment r) (tr_ReleaseLabel r) (tr_StartedAt r)
    (tr_CompletedAt r) (tr_Status r) (tr_StartedBy r) (tr_ExecutedBy r) (tr_ExecutedAt r) (tr_OverallStatus r)
    (sum_case "passed" l) (sum_case "failed" l) (sum_case "skipped" l) (sum_case "blocked" l).

Definition ListTestRunsSummary (serviceID : string) (f : TestRunSummaryFilter) : TestEff (list TestRunSummary) :=
  query (serviceID :: option_list (sf_TestPackID f) ++ option_list (sf_ExecutedBy f))%list (fun d =>
    map (summary_of d) (order_by (desc (by_key tr_ExecutedAt)) (select (in_summary serviceID f) (t_runs d)))).

(** ** Test run results *)

Definition result_checks (r : TestRunResult) : bool :=
  mem_str (rr_Status r) ["passed"; "failed"; "skipped"; "blocked"].

Definition stored_result (now : Z) (r : TestRunResult) : TestRunResult :=
  mkTestRunResult (rr_ID r) (rr_TestRunID r) (rr_TestCaseID r) (rr_ServiceID r) (rr_OrgID r) (rr_Status r)
    (rr_BlockedReason r) (rr_ResponseStatus r) (rr_ResponseBody r) (rr_ResponseTimeMs r) (rr_Notes r)
    (Some (default [] (rr_ScreenshotURLs r))) (or_now (rr_ExecutedAt r) now) (rr_ExecutedBy r)
    (or_now (rr_CreatedAt r) now) (or_now (rr_UpdatedAt r) now) None.
(** UNIQUE (test_run_id, test_case_id) *)
Definition same_outcome (r x : TestRunResult) : bool :=
  String.eqb (rr_TestRunID x) (rr_TestRunID r) && String.eqb (rr_TestCaseID x) (rr_TestCaseID r).
Definition insert_result (now : Z) (r : TestRunResult) d : result store_err TestDB :=
  if negb (forallb valid_uuid [rr_ID r; rr_TestRunID r; rr_TestCaseID r; rr_ServiceID r; rr_OrgID r; rr_ExecutedBy r] &&
           opt_ok int4 (rr_ResponseStatus r)) then bad_syntax
  else if found (t_results d !! rr_ID r) || negb (found (t_runs d !! rr_TestRunID r)) ||
          negb (found (t_cases d !! rr_TestCaseID r)) || negb (owner_fks (rr_ServiceID r) (rr_OrgID r) d) ||
          negb (result_checks r) || exists_row (same_outcome r) (t_results d) then violation
  else Ok (set_results d (<[rr_ID r := stored_result now r]> (t_results d))).
Definition CreateTestRunResult (r : TestRunResult) : TestEff unit :=
  func (now <- call time_now ;; call (exec (insert_result now r))).

Definition GetTestRunResult (id : string) : TestEff (option TestRunResult) := query [id] (fun d => t_results d !! id).

Definition ListTestRunResults (serviceID testRunID : string) : TestEff (list TestRunResult) :=
  query [serviceID; testRunID] (fun d =>
    order_by (then_by (by_key rr_ExecutedAt) (by_key rr_CreatedAt))
      (select (fun x => String.eqb (rr_ServiceID x) serviceID && String.eqb (rr_TestRunID x) testRunID && rr_live x)
         (t_results d))).

Definition updated_result (now : Z) (r old : TestRunResult) : TestRunResult :=
  mkTestRunResult (rr_ID old) (rr_TestRunID old) (rr_TestCaseID old) (rr_ServiceID old) (rr_OrgID old) (rr_Status r)
    (rr_BlockedReason r) (rr_ResponseStatus r) (rr_ResponseBody r) (rr_ResponseTimeMs r) (rr_Notes r)
    (Some (default [] (rr_ScreenshotURLs r))) (rr_ExecutedAt r) (rr_ExecutedBy r) (rr_CreatedAt old) now (rr_DeletedAt old).
Definition update_result (now : Z) (r : TestRunResult) d : result store_err TestDB :=
  if negb (forallb valid_uuid [rr_ID r; rr_ExecutedBy r] && opt_ok int4 (rr_ResponseStatus r)) then bad_syntax else
  match t_results d !! rr_ID r with
  | Some old =>
      if negb (rr_live old) then Ok d
      else if negb (result_checks r) then violation
      else Ok (set_results d (<[rr_ID r := updated_result now r old]> (t_results d)))
  | None => Ok d
  end.
Definition UpdateTestRunResult (r : TestRunResult) : TestEff unit :=
  func (now <- call time_now ;; call (exec (update_result now r))).
End Store.
