(* ===== verification/TestHandlers.v ===== *)
(** * TestHandlers: the requests on test packs, cases, runs and results

    Models [internal/api/catalog/testpack.go] and [GetTestPackByID] of [byid.go].
    A handler takes the principal of the context, the path values, the query values
    and the decoded body ([None]: it does not decode); [serve] is the dispatch of
    the routes [Register] of [handler.go] mounts for them. *)

From S2P Require Import Prelude GoStrings Effects ApiSpec Authz Identity Dependencies Table Requests TestPacks.
From Stdlib Require Import QArith.
#[local] Open Scope nat_scope.
#[local] Open Scope string_scope.

Record createPackRequest := mkCreatePack {
  cp_Name : string; cp_Type : string; cp_LoadConfig : option LoadPackConfig; cp_CommitHash : option string
}.
Record updatePackRequest := mkUpdatePack {
  up_Name : option string; up_Type : option string; up_LoadConfig : option LoadPackConfig;
  up_BaselineRunID : option string; up_CommitHash : option string
}.
Record caseRequest := mkCaseRequest { cq_TestCase : TestCase; cq_CommitHash : option string }.
Record updateRunRequest := mkUpdateRun {
  ur_OverallStatus : option string; ur_CompletedAt : option string; ur_Status : option string;
  ur_LoadMetrics : option LoadTestMetrics
}.
Record summaryQuery := mkSummaryQuery {
  qs_testPackId : string; qs_environment : string; qs_status : string; qs_executedBy : string;
  qs_fromDate : string; qs_toDate : string
}.

Inductive test_body : Type :=
| PackList (l : list TestPack)
| OnePack (p : TestPack)
| CaseList (l : list TestCase)
| OneCase (c : TestCase)
| RunList (l : list TestRun)
| OneRun (r : TestRun)
| SummaryList (l : list TestRunSummary)
| ResultList (l : list TestRunResult)
| OneResult (r : TestRunResult).
Definition TReply : Type := Response test_body.

(** [x.UpdatedBy = &p.UserID; x.UpdatedByCommitHash = hash] *)
Definition touched_audit (actorID : string) (hash : option string) (a : Audit) : Audit :=
  mkAudit (au_CreatedBy a) (Some actorID) (au_CreatedByCommitHash a) hash (au_CreatedAt a) (au_UpdatedAt a)
    (au_DeletedAt a) (au_DeletedBy a).
Definition merge_pack (p : TestPack) (b : updatePackRequest) (actorID : string) : TestPack :=
  mkTestPack (tp_ID p) (tp_ServiceID p) (tp_OrgID p) (default (tp_Name p) (up_Name b)) (default (tp_Type p) (up_Type b))
    (or_old (up_LoadConfig b) (tp_LoadConfig p)) (or_old (up_BaselineRunID b) (tp_BaselineRunID p))
    (touched_audit actorID (up_CommitHash b) (tp_Audit p)).

Definition merge_content (c b : CaseContent) : CaseContent :=
  mkCaseContent (or_old_str (cc_Title b) (cc_Title c))
    (if Qeq_bool (cc_Order b) 0 then cc_Order c else cc_Order b)
    (or_old_str (cc_Type b) (cc_Type c)) (or_old (cc_Description b) (cc_Description c))
    (or_old (cc_Priority b) (cc_Priority c)) (or_old (cc_Labels b) (cc_Labels c))
    (or_old (cc_LinkedTicket b) (cc_LinkedTicket c)) (or_old (cc_EstimatedDurationMins b) (cc_EstimatedDurationMins c))
    (or_old (cc_TestOwner b) (cc_TestOwner c)) (or_old (cc_LinkedMapNodeID b) (cc_LinkedMapNodeID c))
    (cc_IsCritical b) (cc_EvidenceRequired b) (or_old (cc_ScreenshotURLs b) (cc_ScreenshotURLs c))
    (or_old (cc_Manual b) (cc_Manual c)) (or_old (cc_API b) (cc_API c)) (or_old (cc_GraphQL b) (cc_GraphQL c))
    (or_old (cc_Database b) (cc_Database c)) (or_old (cc_GRPC b) (cc_GRPC c)) (or_old_str (cc_Status b) (cc_Status c))
    (if (0 <? cc_Version b)%Z then cc_Version b else cc_Version c)
    (or_old (cc_BaselineRunResultID b) (cc_BaselineRunResultID c)) (or_old (cc_Dependencies b) (cc_Dependencies c)).
Definition merge_case (c : TestCase) (b : caseRequest) (actorID : string) : TestCase :=
  mkTestCase (tc_ID c) (or_old_str (tc_TestPackID (cq_TestCase b)) (tc_TestPackID c)) (tc_ServiceID c) (tc_OrgID c)
    (merge_content (tc_Content c) (tc_Content (cq_TestCase b))) (touched_audit actorID (cq_CommitHash b) (tc_Audit c)).

Definition merge_result (r b : TestRunResult) (actorID : string) (now : Z) : TestRunResult :=
  mkTestRunResult (rr_ID r) (rr_TestRunID r) (rr_TestCaseID r) (rr_ServiceID r) (rr_OrgID r)
    (or_old_str (rr_Status b) (rr_Status r)) (or_old (rr_BlockedReason b) (rr_BlockedReason r))
    (or_old (rr_ResponseStatus b) (rr_ResponseStatus r)) (or_old (rr_ResponseBody b) (rr_ResponseBody r))
    (or_old (rr_ResponseTimeMs b) (rr_ResponseTimeMs r)) (or_old (rr_Notes b) (rr_Notes r))
    (or_old (rr_ScreenshotURLs b) (rr_ScreenshotURLs r)) now actorID (rr_CreatedAt r) (rr_UpdatedAt r) (rr_DeletedAt r).

Section Handlers.
Context `{Collation} `{UuidText} `{TestPayloads} `{UuidGen} `{TimeParser}.
#[local] Abbreviation W := (World TestDB).

Definition pack_of (serviceID : string) (p : TestPack) : bool := tp_live p && String.eqb (tp_ServiceID p) serviceID.
Definition case_of (serviceID : string) (c : TestCase) : bool := tc_live c && String.eqb (tc_ServiceID c) serviceID.
Definition run_of (serviceID : string) (r : TestRun) : bool := tr_live r && String.eqb (tr_ServiceID r) serviceID.
Definition result_of (serviceID : string) (r : TestRunResult) : bool := rr_live r && String.eqb (rr_ServiceID r) serviceID.

(** ** Packs *)

Definition ListTestPacks_ (orgID serviceID exact_name : string) : Eff W TReply :=
  func (
    ensureServiceInOrg orgID serviceID ;;;
    packs <- try (ListTestPacks serviceID (Exact exact_name)) HttpError ;;
    gret (JSON 200 (PackList packs))).

Definition CreateTestPack_ (ctx : option Principal) (orgID serviceID : string) (req : option createPackRequest) :
    Eff W TReply :=
  func (
    ensureServiceInOrg orgID serviceID ;;;
    p <- non_nil ctx Unauthorized ;;
    body <- non_nil req bad_body ;;
    return_if (str_empty (cp_Name body)) (BadRequest "name is required") ;;;
    now <- call time_now ;;
    id <- try NewString fail ;;
    let pack := mkTestPack id serviceID orgID (cp_Name body) (or_old_str (cp_Type body) "manual") (cp_LoadConfig body)
                  None (mkAudit (p_UserID p) (Some (p_UserID p)) (cp_CommitHash body) None now now None None) in
    _ <- try (CreateTestPack pack) HttpError ;;
    gret (JSON 201 (OnePack pack))).

Definition UpdateTestPack_ (ctx : option Principal) (orgID serviceID testPackID : string)
    (req : option updatePackRequest) : Eff W TReply :=
  func (
    ensureServiceInOrg orgID serviceID ;;;
    p <- non_nil ctx Unauthorized ;;
    pack <- live_in (GetTestPack testPackID) (pack_of serviceID) ;;
    body <- non_nil req bad_body ;;
    let pack' := merge_pack pack body (p_UserID p) in
    _ <- try (UpdateTestPack pack') HttpError ;;
    gret (JSON 200 (OnePack pack'))).

Definition DeleteTestPack (ctx : option Principal) (orgID serviceID testPackID : string) : Eff W TReply :=
  func (
    ensureServiceInOrg orgID serviceID ;;;
    p <- non_nil ctx Unauthorized ;;
    pack <- live_in (GetTestPack testPackID) (pack_of serviceID) ;;
    _ <- try (SoftDeleteTestPack testPackID (p_UserID p)) HttpError ;;
    gret no_content).

(** [byid.go] *)
Definition GetTestPackByID (orgID testPackID : string) : Eff W TReply :=
  func (
    p <- live_in (GetTestPack testPackID) (fun p => tp_live p && String.eqb (tp_OrgID p) orgID) ;;
    gret (JSON 200 (OnePack p))).

(** ** Cases *)

Definition ListTestCases_ (orgID serviceID testPackId exact_title : string) : Eff W TReply :=
  func (
    ensureServiceInOrg orgID serviceID ;;;
    cases <- try (ListTestCases serviceID (query_param testPackId) (Exact exact_title)) HttpError ;;
    gret (JSON 200 (CaseList cases))).

Definition CreateTestCase_ (ctx : option Principal) (orgID serviceID : string) (req : option caseRequest) :
    Eff W TReply :=
  func (
    ensureServiceInOrg orgID serviceID ;;;
    p <- non_nil ctx Unauthorized ;;
    reqBody <- non_nil req bad_body ;;
    let b := cq_TestCase reqBody in
    return_if (str_empty (tc_TestPackID b) || str_empty (cc_Title (tc_Content b)) || str_empty (cc_Type (tc_Content b)))
      (BadRequest "testPackId, title and type are required") ;;;
    o <- try (GetTestPack (tc_TestPackID b)) HttpError ;;
    pack <- non_nil o (BadRequest "invalid testPackId") ;;
    return_if (negb (pack_of serviceID pack)) (BadRequest "invalid testPackId") ;;;
    now <- call time_now ;;
    id <- try NewString fail ;;
    let a := tc_Audit b in
    let tc := mkTestCase id (tc_TestPackID b) serviceID orgID (case_defaults (tc_Content b))
                (mkAudit (p_UserID p) (Some (p_UserID p)) (cq_CommitHash reqBody) (au_UpdatedByCommitHash a) now now
                   (au_DeletedAt a) (au_DeletedBy a)) in
    _ <- try (CreateTestCase tc) HttpError ;;
    gret (JSON 201 (OneCase tc))).

Definition UpdateTestCase_ (ctx : option Principal) (orgID serviceID testCaseID : string) (req : option caseRequest) :
    Eff W TReply :=
  func (
    ensureServiceInOrg orgID serviceID ;;;
    p <- non_nil ctx Unauthorized ;;
    tc <- live_in (GetTestCase testCaseID) (case_of serviceID) ;;
    reqBody <- non_nil req bad_body ;;
    let tc' := merge_case tc reqBody (p_UserID p) in
    _ <- try (UpdateTestCase tc') HttpError ;;
    gret (JSON 200 (OneCase tc'))).

Definition DeleteTestCase (ctx : option Principal) (orgID serviceID testCaseID : string) : Eff W TReply :=
  func (
    ensureServiceInOrg orgID serviceID ;;;
    p <- non_nil ctx Unauthorized ;;
    tc <- live_in (GetTestCase testCaseID) (case_of serviceID) ;;
    _ <- try (SoftDeleteTestCase testCaseID (p_UserID p)) HttpError ;;
    gret no_content).

(** ** Runs *)

Definition CreateTestRun_ (ctx : option Principal) (orgID serviceID : string) (req : option TestRun) : Eff W TReply :=
  func (
    ensureServiceInOrg orgID serviceID ;;;
    p <- non_nil ctx Unauthorized ;;
    b <- non_nil req bad_body ;;
    return_if (str_empty (tr_TestPackID b) || str_empty (tr_Environment b))
      (BadRequest "testPackId and environment are required") ;;;
    now <- call time_now ;;
    id <- try NewString fail ;;
    let u := p_UserID p in
    let tr := mkTestRun id (tr_TestPackID b) serviceID orgID (tr_Environment b) (tr_ReleaseLabel b) (Some now)
                (tr_CompletedAt b) (or_old_str (tr_Status b) "running") (Some u) u now
                (or_old_str (tr_OverallStatus b) "partial") (tr_LoadMetrics b) u (Some u) now now (tr_DeletedAt b) in
    _ <- try (CreateTestRun tr) HttpError ;;
    gret (JSON 201 (OneRun tr))).

Definition GetTestRun_ (orgID serviceID testRunID : string) : Eff W TReply :=
  func (
    ensureServiceInOrg orgID serviceID ;;;
    tr <- live_in (GetTestRun testRunID) (run_of serviceID) ;;
    gret (JSON 200 (OneRun tr))).

Definition ListTestRuns_ (orgID serviceID testPackId : string) : Eff W TReply :=
  func (
    ensureServiceInOrg orgID serviceID ;;;
    runs <- try (ListTestRuns serviceID (query_param testPackId)) HttpError ;;
    gret (JSON 200 (RunList runs))).

(** A date that does not parse filters nothing. *)
Definition summary_filter (q : summaryQuery) : TestRunSummaryFilter :=
  mkSummaryFilter (query_param (qs_testPackId q)) (query_param (qs_environment q)) (query_param (qs_status q))
    (query_param (qs_executedBy q)) (query_param (qs_fromDate q) ≫= ParseRFC3339) (query_param (qs_toDate q) ≫= ParseRFC3339).

Definition ListTestRunsSummary_ (orgID serviceID : string) (q : summaryQuery) : Eff W TReply :=
  func (
    ensureServiceInOrg orgID serviceID ;;;
    summary <- try (ListTestRunsSummary serviceID (summary_filter q)) HttpError ;;
    gret (JSON 200 (SummaryList summary))).

(** A [completedAt] that does not parse changes nothing. *)
Definition merge_run (r : TestRun) (b : updateRunRequest) (actorID : string) : TestRun :=
  mkTestRun (tr_ID r) (tr_TestPackID r) (tr_ServiceID r) (tr_OrgID r) (tr_Environment r) (tr_ReleaseLabel r)
    (tr_StartedAt r)
    (or_old ((ur_CompletedAt b ≫= query_param) ≫= ParseRFC3339) (tr_CompletedAt r))
    (default (tr_Status r) (ur_Status b)) (tr_StartedBy r) (tr_ExecutedBy r) (tr_ExecutedAt r)
    (default (tr_OverallStatus r) (ur_OverallStatus b)) (or_old (ur_LoadMetrics b) (tr_LoadMetrics r)) (tr_CreatedBy r)
    (Some actorID) (tr_CreatedAt r) (tr_UpdatedAt r) (tr_DeletedAt r).

Definition UpdateTestRun_ (ctx : option Principal) (orgID serviceID testRunID : string) (req : option updateRunRequest) :
    Eff W TReply :=
  func (
    ensureServiceInOrg orgID serviceID ;;;
    p <- non_nil ctx Unauthorized ;;
    tr <- live_in (GetTestRun testRunID) (run_of serviceID) ;;
    body <- non_nil req bad_body ;;
    let tr' := merge_run tr body (p_UserID p) in
    _ <- try (UpdateTestRun tr') HttpError ;;
    gret (JSON 200 (OneRun tr'))).

(** ** Results *)

Definition CreateTestRunResult_ (ctx : option Principal) (orgID serviceID : string) (req : option TestRunResult) :
    Eff W TReply :=
  func (
    ensureServiceInOrg orgID serviceID ;;;
    p <- non_nil ctx Unauthorized ;;
    b <- non_nil req bad_body ;;
    return_if (str_empty (rr_TestRunID b) || str_empty (rr_TestCaseID b) || str_empty (rr_Status b))
      (BadRequest "testRunId, testCaseId and status are required") ;;;
    now <- call time_now ;;
    id <- try NewString fail ;;
    let rr := mkTestRunResult id (rr_TestRunID b) (rr_TestCaseID b) serviceID orgID (rr_Status b) (rr_BlockedReason b)
                (rr_ResponseStatus b) (rr_ResponseBody b) (rr_ResponseTimeMs b) (rr_Notes b) (rr_ScreenshotURLs b) now
                (p_UserID p) now now (rr_DeletedAt b) in
    _ <- try (CreateTestRunResult rr) HttpError ;;
    gret (JSON 201 (OneResult rr))).

Definition ListTestRunResults_ (orgID serviceID testRunId : string) : Eff W TReply :=
  func (
    ensureServiceInOrg orgID serviceID ;;;
    return_if (str_empty testRunId) (BadRequest "testRunId is required") ;;;
    results <- try (ListTestRunResults serviceID testRunId) HttpError ;;
    gret (JSON 200 (ResultList results))).

Definition UpdateTestRunResult_ (ctx : option Principal) (orgID serviceID resultID : string) (req : option TestRunResult) :
    Eff W TReply :=
  func (
    ensureServiceInOrg orgID serviceID ;;;
    p <- non_nil ctx Unauthorized ;;
    rr <- live_in (GetTestRunResult resultID) (result_of serviceID) ;;
    body <- non_nil req bad_body ;;
    now <- call time_now ;;
    let rr' := merge_result rr body (p_UserID p) now in
    _ <- try (UpdateTestRunResult rr') HttpError ;;
    gret (JSON 200 (OneResult rr'))).

(** ** Routes *)

Inductive test_request : Type :=
| TListPacks (exact_name : string)
| TCreatePack (req : option createPackRequest)
| TUpdatePack (testPackID : string) (req : option updatePackRequest)
| TDeletePack (testPackID : string)
| TListCases (testPackId exact_title : string)
| TCreateCase (req : option caseRequest)
| TUpdateCase (testCaseID : string) (req : option caseRequest)
| TDeleteCase (testCaseID : string)
| TCreateRun (req : option TestRun)
| TGetRun (testRunID : string)
| TListRuns (testPackId : string)
| TSummary (q : summaryQuery)
| TUpdateRun (testRunID : string) (req : option updateRunRequest)
| TCreateResult (req : option TestRunResult)
| TListResults (testRunId : string)
| TUpdateResult (resultID : string) (req : option TestRunResult)
| TPackByID (testPackID : string).

(** A request of [orgID] on [serviceID]; [TPackByID] has no service in its path. *)
Definition serve (ctx : option Principal) (orgID serviceID : string) (q : test_request) : Eff W TReply :=
  match q with
  | TListPacks n => ListTestPacks_ orgID serviceID n
  | TCreatePack b => CreateTestPack_ ctx orgID serviceID b
  | TUpdatePack id b => UpdateTestPack_ ctx orgID serviceID id b
  | TDeletePack id => DeleteTestPack ctx orgID serviceID id
  | TListCases p t => ListTestCases_ orgID serviceID p t
  | TCreateCase b => CreateTestCase_ ctx orgID serviceID b
  | TUpdateCase id b => UpdateTestCase_ ctx orgID serviceID id b
  | TDeleteCase id => DeleteTestCase ctx orgID serviceID id
  | TCreateRun b => CreateTestRun_ ctx orgID serviceID b
  | TGetRun id => GetTestRun_ orgID serviceID id
  | TListRuns p => ListTestRuns_ orgID serviceID p
  | TSummary f => ListTestRunsSummary_ orgID serviceID f
  | TUpdateRun id b => UpdateTestRun_ ctx orgID serviceID id b
  | TCreateResult b => CreateTestRunResult_ ctx orgID serviceID b
  | TListResults id => ListTestRunResults_ orgID serviceID id
  | TUpdateResult id b => UpdateTestRunResult_ ctx orgID serviceID id b
  | TPackByID id => GetTestPackByID orgID id
  end.
End Handlers.
