(* ===== verification/TestLife.v ===== *)
(** * TestLife: what requests on test packs keep

    The invariant of the test tables ([tests_ok]), what a request on a service may
    change ([changes]), and that every handler stays within it; then what the
    answers of the handlers mean. *)

From S2P Require Import Prelude GoStrings Effects ApiSpec Authz Identity Dependencies Table Requests TestPacks TestHandlers.
From Stdlib Require Import QArith.
#[local] Open Scope nat_scope.
#[local] Open Scope string_scope.
Set Warnings "-clear-no-such-hyp".

Section Life.
Context `{Collation} `{UuidText} `{TestPayloads} `{UuidGen} `{TimeParser}.
#[local] Abbreviation W := (World TestDB).
Implicit Types d : TestDB.

(** ** The invariant *)

(** [orgID] is the org of the service. *)
Definition owned d (serviceID orgID : string) : Prop :=
  exists s, t_services d !! serviceID = Some s /\ sv_OrgID s = orgID.
Record pack_ok d (k : string) (p : TestPack) : Prop := {
  pk_id : tp_ID p = k; pk_owned : owned d (tp_ServiceID p) (tp_OrgID p);
  pk_checks : pack_checks p = true; pk_payload : kept_payload (tp_LoadConfig p)
}.
Record case_ok d (k : string) (c : TestCase) : Prop := {
  ca_id : tc_ID c = k; ca_owned : owned d (tc_ServiceID c) (tc_OrgID c);
  ca_checks : case_checks (tc_Content c) = true; ca_stored : stored_case (tc_Content c) = Some (tc_Content c);
  ca_pack : is_Some (t_packs d !! tc_TestPackID c)
}.
Record run_ok d (k : string) (r : TestRun) : Prop := {
  ru_id : tr_ID r = k; ru_owned : owned d (tr_ServiceID r) (tr_OrgID r);
  ru_checks : run_checks r = true; ru_payload : kept_payload (tr_LoadMetrics r);
  ru_pack : is_Some (t_packs d !! tr_TestPackID r)
}.
Record result_ok d (k : string) (r : TestRunResult) : Prop := {
  re_id : rr_ID r = k; re_owned : owned d (rr_ServiceID r) (rr_OrgID r);
  re_checks : result_checks r = true; re_shots : is_Some (rr_ScreenshotURLs r);
  re_run : is_Some (t_runs d !! rr_TestRunID r); re_case : is_Some (t_cases d !! rr_TestCaseID r)
}.

Record tests_ok d : Prop := {
  ok_packs k p : t_packs d !! k = Some p -> pack_ok d k p;
  ok_cases k c : t_cases d !! k = Some c -> case_ok d k c;
  ok_runs k r : t_runs d !! k = Some r -> run_ok d k r;
  ok_results k r : t_results d !! k = Some r -> result_ok d k r;
  ok_outcomes k k' r r' : t_results d !! k = Some r -> t_results d !! k' = Some r' -> same_outcome r r' = true -> k = k'
}.

(** ** What a request on a service changes

    Rows of the service only; a row keeps its owner, and a deleted row stays as it is. *)

Definition pack_owner (p : TestPack) := (tp_ServiceID p, tp_OrgID p).
Definition case_owner (c : TestCase) := (tc_ServiceID c, tc_OrgID c).
Definition run_owner (r : TestRun) := (tr_ServiceID r, tr_OrgID r).
Definition result_owner (r : TestRunResult) := (rr_ServiceID r, rr_OrgID r).

Record changes (serviceID : string) d d' : Prop := {
  ch_orgs : t_orgs d' = t_orgs d;
  ch_services : t_services d' = t_services d;
  ch_packs : evolves (fun p => tp_ServiceID p = serviceID) (stays pack_owner tp_live) (t_packs d) (t_packs d');
  ch_cases : evolves (fun c => tc_ServiceID c = serviceID) (stays case_owner tc_live) (t_cases d) (t_cases d');
  ch_runs : evolves (fun r => tr_ServiceID r = serviceID) (stays run_owner tr_live) (t_runs d) (t_runs d');
  ch_results : evolves (fun r => rr_ServiceID r = serviceID) (stays result_owner rr_live) (t_results d) (t_results d')
}.

Lemma changes_refl sid d : changes sid d d.
Proof. split; try done; by apply evolves_refl. Qed.

Lemma changes_packs sid d k p :
  tp_ServiceID p = sid -> (forall p0, t_packs d !! k = Some p0 -> tp_live p0 = true /\ pack_owner p = pack_owner p0) ->
  changes sid d (set_packs d (<[k := p]> (t_packs d))).
Proof.
  intros Hp Hk. split; cbn; try done; try (by apply evolves_refl). apply evolves_put; [done|]. intros p0 Hp0.
  destruct (Hk p0 Hp0) as [Hl Ho]. split_and!; [done| |done]. unfold pack_owner in Ho. congruence.
Qed.
Lemma changes_cases sid d k p :
  tc_ServiceID p = sid -> (forall p0, t_cases d !! k = Some p0 -> tc_live p0 = true /\ case_owner p = case_owner p0) ->
  changes sid d (set_cases d (<[k := p]> (t_cases d))).
Proof.
  intros Hp Hk. split; cbn; try done; try (by apply evolves_refl). apply evolves_put; [done|]. intros p0 Hp0.
  destruct (Hk p0 Hp0) as [Hl Ho]. split_and!; [done| |done]. unfold case_owner in Ho. congruence.
Qed.
Lemma changes_runs sid d k p :
  tr_ServiceID p = sid -> (forall p0, t_runs d !! k = Some p0 -> tr_live p0 = true /\ run_owner p = run_owner p0) ->
  changes sid d (set_runs d (<[k := p]> (t_runs d))).
Proof.
  intros Hp Hk. split; cbn; try done; try (by apply evolves_refl). apply evolves_put; [done|]. intros p0 Hp0.
  destruct (Hk p0 Hp0) as [Hl Ho]. split_and!; [done| |done]. unfold run_owner in Ho. congruence.
Qed.
Lemma changes_results sid d k p :
  rr_ServiceID p = sid -> (forall p0, t_results d !! k = Some p0 -> rr_live p0 = true /\ result_owner p = result_owner p0) ->
  changes sid d (set_results d (<[k := p]> (t_results d))).
Proof.
  intros Hp Hk. split; cbn; try done; try (by apply evolves_refl). apply evolves_put; [done|]. intros p0 Hp0.
  destruct (Hk p0 Hp0) as [Hl Ho]. split_and!; [done| |done]. unfold result_owner in Ho. congruence.
Qed.

(** ** Statements *)

(** The rows of the other tables stay good, and so do those of the table but the new one. *)
#[local] Ltac rows_stay Hrows :=
  let k := fresh "k" in let r := fresh "r" in let Hl := fresh "Hl" in
  intros k r Hl; destruct (Hrows k r Hl); split; cbn; auto.
#[local] Ltac row_put Hrows Hk :=
  let k := fresh "k" in let r := fresh "r" in let Hl := fresh "Hl" in
  intros k r [[<- <-]|[_ Hl]]%lookup_insert_Some; [destruct Hk|destruct (Hrows k r Hl)]; split; cbn; auto.

Lemma ok_put_pack d k p : tests_ok d -> pack_ok d k p -> tests_ok (set_packs d (<[k := p]> (t_packs d))).
Proof.
  intros [Hp Hc Hr Hx Hu] Hk. split; cbn; [row_put Hp Hk|rows_stay Hc|rows_stay Hr|rows_stay Hx|done].
Qed.
Lemma ok_put_case d k c : tests_ok d -> case_ok d k c -> tests_ok (set_cases d (<[k := c]> (t_cases d))).
Proof.
  intros [Hp Hc Hr Hx Hu] Hk. split; cbn; [rows_stay Hp|row_put Hc Hk|rows_stay Hr|rows_stay Hx|done].
Qed.
Lemma ok_put_run d k r : tests_ok d -> run_ok d k r -> tests_ok (set_runs d (<[k := r]> (t_runs d))).
Proof.
  intros [Hp Hc Hr Hx Hu] Hk. split; cbn; [rows_stay Hp|rows_stay Hc|row_put Hr Hk|rows_stay Hx|done].
Qed.
Lemma same_outcome_true r x :
  same_outcome r x = true <-> rr_TestRunID x = rr_TestRunID r /\ rr_TestCaseID x = rr_TestCaseID r.
Proof. unfold same_outcome. by rewrite andb_true_iff, !String.eqb_eq. Qed.
Lemma ok_put_result d k r :
  tests_ok d -> result_ok d k r ->
  (forall k' r', k' <> k -> t_results d !! k' = Some r' -> same_outcome r r' = false) ->
  tests_ok (set_results d (<[k := r]> (t_results d))).
Proof.
  intros [Hp Hc Hr Hx Hu] Hk Hn. split; cbn; [rows_stay Hp|rows_stay Hc|rows_stay Hr|row_put Hx Hk|].
  intros k1 k2 r1 r2 [[<- <-]|[N1 L1]]%lookup_insert_Some [[<- <-]|[N2 L2]]%lookup_insert_Some Hs; [done| | |eauto].
  - by rewrite (Hn k2 r2) in Hs.
  - apply same_outcome_true in Hs as [E1 E2].
    assert (same_outcome r r1 = true) as Hs by (by apply same_outcome_true). by rewrite (Hn k1 r1) in Hs.
Qed.

(** What a column gives back it takes again. *)
Lemma stored_case_kept c c' : stored_case c = Some c' -> stored_case c' = Some c'.
Proof.
  unfold stored_case. destruct (nullable (cc_Manual c)) as [m|] eqn:Em; [|done].
  destruct (nullable (cc_API c)) as [a|] eqn:Ea; [|done]. destruct (nullable (cc_GraphQL c)) as [g|] eqn:Eg; [|done].
  destruct (nullable (cc_Database c)) as [db|] eqn:Ed; [|done]. destruct (nullable (cc_GRPC c)) as [rpc|] eqn:Er; [|done].
  cbn. destruct (_ && _) eqn:E; [|done]. intros [= <-]. cbn.
  rewrite (nullable_kept _ _ Em), (nullable_kept _ _ Ea), (nullable_kept _ _ Eg), (nullable_kept _ _ Ed), (nullable_kept _ _ Er).
  cbn. by rewrite E.
Qed.

Section Step.
Context (sid oid : string) (d d' : TestDB) (now : Z).
Hypothesis Hok : tests_ok d.
#[local] Abbreviation step := (tests_ok d' /\ changes sid d d').

Lemma insert_pack_step p :
  tp_ServiceID p = sid -> tp_OrgID p = oid -> owned d sid oid -> insert_pack now p d = Ok d' -> step.
Proof using Hok.
  intros Hs Ho Hown. unfold insert_pack. past. bools. split.
  - apply ok_put_pack; [done|]. split; cbn; [done|by subst|done|by eapply nullable_kept].
  - apply changes_packs; [done|]. intros p0. congruence.
Qed.
Lemma update_pack_step p :
  (forall old, t_packs d !! tp_ID p = Some old -> tp_ServiceID old = sid) -> update_pack now p d = Ok d' -> step.
Proof using Hok.
  intros Hs. unfold update_pack. past; try (split; [done|apply changes_refl]). bools.
  destruct (ok_packs _ Hok _ _ Heqo0) as [Hid Hown _ _]. split.
  - apply ok_put_pack; [done|]. split; cbn; [done|done|done|by eapply nullable_kept].
  - apply changes_packs; [cbn; auto|]. intros p0 [= <-]%(eq_trans (eq_sym Heqo0)). done.
Qed.
Lemma delete_pack_step id by_ :
  (forall old, t_packs d !! id = Some old -> tp_ServiceID old = sid) -> delete_pack now id by_ d = Ok d' -> step.
Proof using Hok.
  intros Hs. unfold delete_pack. past; try (split; [done|apply changes_refl]).
  destruct (ok_packs _ Hok _ _ Heqo) as [Hid Hown Hck Hpl]. split.
  - apply ok_put_pack; [done|]. by split.
  - apply changes_packs; [cbn; auto|]. intros p0 [= <-]%(eq_trans (eq_sym Heqo)). done.
Qed.

Lemma insert_case_step c :
  tc_ServiceID c = sid -> tc_OrgID c = oid -> owned d sid oid -> insert_case now c d = Ok d' -> step.
Proof using Hok.
  intros Hs Ho Hown. unfold insert_case. past. bools. split.
  - apply ok_put_case; [done|]. split; cbn; [done|by subst|done|by eapply stored_case_kept|].
    by destruct (t_packs d !! tc_TestPackID c).
  - apply changes_cases; [done|]. intros p0. congruence.
Qed.
Lemma update_case_step c :
  (forall old, t_cases d !! tc_ID c = Some old -> tc_ServiceID old = sid) -> update_case now c d = Ok d' -> step.
Proof using Hok.
  intros Hs. unfold update_case. past; try (split; [done|apply changes_refl]). bools.
  destruct (ok_cases _ Hok _ _ Heqo0) as [Hid Hown _ _ _]. split.
  - apply ok_put_case; [done|]. split; cbn; [done|done|done|by eapply stored_case_kept|].
    by destruct (t_packs d !! tc_TestPackID c).
  - apply changes_cases; [cbn; auto|]. intros p0 [= <-]%(eq_trans (eq_sym Heqo0)). done.
Qed.
Lemma delete_case_step id by_ :
  (forall old, t_cases d !! id = Some old -> tc_ServiceID old = sid) -> delete_case now id by_ d = Ok d' -> step.
Proof using Hok.
  intros Hs. unfold delete_case. past; try (split; [done|apply changes_refl]).
  destruct (ok_cases _ Hok _ _ Heqo) as [Hid Hown Hck Hpl Hpk]. split.
  - apply ok_put_case; [done|]. by split.
  - apply changes_cases; [cbn; auto|]. intros p0 [= <-]%(eq_trans (eq_sym Heqo)). done.
Qed.

Lemma insert_run_step r :
  tr_ServiceID r = sid -> tr_OrgID r = oid -> owned d sid oid -> insert_run now r d = Ok d' -> step.
Proof using Hok.
  intros Hs Ho Hown. unfold insert_run. past. bools. split.
  - apply ok_put_run; [done|]. split; cbn; [done|by subst|done|by eapply nullable_kept|].
    by destruct (t_packs d !! tr_TestPackID r).
  - apply changes_runs; [done|]. intros p0. congruence.
Qed.
Lemma update_run_step r :
  (forall old, t_runs d !! tr_ID r = Some old -> tr_ServiceID old = sid) -> update_run now r d = Ok d' -> step.
Proof using Hok.
  intros Hs. unfold update_run. past; try (split; [done|apply changes_refl]). bools.
  destruct (ok_runs _ Hok _ _ Heqo0) as [Hid Hown _ _ Hpk]. split.
  - apply ok_put_run; [done|]. split; cbn; [done|done|done|by eapply nullable_kept|done].
  - apply changes_runs; [cbn; auto|]. intros p0 [= <-]%(eq_trans (eq_sym Heqo0)). done.
Qed.

Lemma insert_result_step r :
  rr_ServiceID r = sid -> rr_OrgID r = oid -> owned d sid oid -> insert_result now r d = Ok d' -> step.
Proof using Hok.
  intros Hs Ho Hown. unfold insert_result. past. bools. split.
  - apply ok_put_result; [done| |].
    + split; cbn; [done|by subst|done|done| |]; [by destruct (t_runs d !! rr_TestRunID r)|by destruct (t_cases d !! rr_TestCaseID r)].
    + intros k' r' _ Hr'. by apply (proj1 (exists_row_false _ _) ltac:(eassumption) k' r').
  - apply changes_results; [done|]. intros p0. congruence.
Qed.
Lemma update_result_step r :
  (forall old, t_results d !! rr_ID r = Some old -> rr_ServiceID old = sid) -> update_result now r d = Ok d' -> step.
Proof using Hok.
  intros Hs. unfold update_result. past; try (split; [done|apply changes_refl]). bools.
  destruct (ok_results _ Hok _ _ Heqo) as [Hid Hown _ _ Hrun Hcase]. split.
  - apply ok_put_result; [done|by split|]. intros k' r' Hne Hr'. apply not_true_iff_false. intros Hs'.
    apply Hne. symmetry. by apply (ok_outcomes _ Hok _ _ t r').
  - apply changes_results; [cbn; auto|]. intros p0 [= <-]%(eq_trans (eq_sym Heqo)). done.
Qed.
End Step.

(** ** Bodies

    [post sid shown d0]: how a handler on the service may end, from the tables [d0]. *)

(** Rows are listed when they are live. *)
Definition answers (own : string * string -> Prop) (sid : string) (b : test_body) : Prop :=
  match b with
  | PackList l => Forall (fun p => own (pack_owner p) /\ tp_live p = true) l
  | OnePack p => own (pack_owner p)
  | CaseList l => Forall (fun c => own (case_owner c) /\ tc_live c = true) l
  | OneCase c => own (case_owner c)
  | RunList l => Forall (fun r => own (run_owner r) /\ tr_live r = true) l
  | OneRun r => own (run_owner r)
  | SummaryList l => Forall (fun s => sm_ServiceID s = sid) l
  | ResultList l => Forall (fun r => own (result_owner r) /\ rr_live r = true) l
  | OneResult r => own (result_owner r)
  end.
Record post (own : string * string -> Prop) (sid : string) d0 (r : TReply) (w' : W) : Prop := mkPost {
  po_ok : tests_ok (w_db w'); po_changes : changes sid d0 (w_db w');
  po_atomic : succeeded r = false -> w_db w' = d0;
  po_answer : match payload r with Json b => answers own sid b | _ => True end
}.
Lemma post_quiet own sid d0 r w' : tests_ok d0 -> refused r = true -> w_db w' = d0 -> post own sid d0 r w'.
Proof.
  intros Hok Hr <-. split; [done|apply changes_refl|done|].
  apply andb_true_iff in Hr as [_ Hr]. by destruct (payload r).
Qed.
Lemma post_read own sid d0 st b w' : tests_ok d0 -> answers own sid b -> w_db w' = d0 -> post own sid d0 (JSON st b) w'.
Proof. intros Hok Hb <-. split; [done|apply changes_refl|done|done]. Qed.
Lemma post_quiet_ends own sid d0 : tests_ok d0 -> quiet d0 (post own sid d0).
Proof. intros Hok r w'. by apply post_quiet. Qed.

(** ** Handlers *)

Lemma owned_unique d sid o o' : owned d sid o -> owned d sid o' -> o' = o.
Proof. intros (s & Hs & <-) (s' & Hs' & <-). congruence. Qed.
Lemma pack_in d sid oid k p :
  tests_ok d -> owned d sid oid -> t_packs d !! k = Some p -> pack_of sid p = true -> pack_owner p = (sid, oid).
Proof.
  intros Hok Ho Hp [_ Hs%String.eqb_eq]%andb_true_iff. destruct (ok_packs _ Hok k p Hp) as [_ Ho' _ _].
  unfold pack_owner. rewrite Hs in *. f_equal. by eapply owned_unique.
Qed.
Lemma case_in d sid oid k c :
  tests_ok d -> owned d sid oid -> t_cases d !! k = Some c -> case_of sid c = true -> case_owner c = (sid, oid).
Proof.
  intros Hok Ho Hp [_ Hs%String.eqb_eq]%andb_true_iff. destruct (ok_cases _ Hok k c Hp) as [_ Ho' _ _ _].
  unfold case_owner. rewrite Hs in *. f_equal. by eapply owned_unique.
Qed.
Lemma run_in d sid oid k r :
  tests_ok d -> owned d sid oid -> t_runs d !! k = Some r -> run_of sid r = true -> run_owner r = (sid, oid).
Proof.
  intros Hok Ho Hp [_ Hs%String.eqb_eq]%andb_true_iff. destruct (ok_runs _ Hok k r Hp) as [_ Ho' _ _ _].
  unfold run_owner. rewrite Hs in *. f_equal. by eapply owned_unique.
Qed.
Lemma result_in d sid oid k r :
  tests_ok d -> owned d sid oid -> t_results d !! k = Some r -> result_of sid r = true -> result_owner r = (sid, oid).
Proof.
  intros Hok Ho Hp [_ Hs%String.eqb_eq]%andb_true_iff. destruct (ok_results _ Hok k r Hp) as [_ Ho' _ _ _].
  unfold result_owner. rewrite Hs in *. f_equal. by eapply owned_unique.
Qed.

End Life.

Section Serving.
Context `{Collation} `{UuidText} `{TestPayloads} `{UuidGen} `{TimeParser}.
#[local] Abbreviation W := (World TestDB).
Implicit Types d : TestDB.

Definition own_of (q : test_request) (sid oid : string) : string * string -> Prop :=
  match q with TPackByID _ => fun o => o.2 = oid | _ => fun o => o = (sid, oid) end.

Section Serve.
Context (ctx : option Principal) (oid sid : string) (w : W).
Hypothesis Hok : tests_ok (w_db w).
#[local] Abbreviation ends_in m := (post (fun o => o = (sid, oid)) sid (w_db w) (m w).1 (m w).2).

Lemma service_owned d : service_in oid sid d -> owned d sid oid.
Proof. intros (s & Hs & Ho & _). by exists s. Qed.
(** Walk through a handler to its last call. *)
#[local] Ltac walk :=
  pose proof (post_quiet_ends (fun o => o = (sid, oid)) sid (w_db w) Hok);
  apply (func_ends (post (fun o => o = (sid, oid)) sid (w_db w))); repeat ends_step; cbn zeta;
  match goal with Hs : service_in _ _ _ |- _ => apply service_owned in Hs end.
#[local] Ltac reads := apply wp_ret, post_read; [done| |done]; cbn.
#[local] Ltac writes := eapply ends_write; [done|done|].
Lemma post_step st b d' w' :
  answers (fun o => o = (sid, oid)) sid b -> tests_ok d' /\ changes sid (w_db w) d' -> w_db w' = d' ->
  succeeded (JSON st b) = true -> post (fun o => o = (sid, oid)) sid (w_db w) (JSON st b) w'.
Proof using Hok. intros Hb [Ho Hc] <- Hs. split; [done|done|congruence|done]. Qed.
Lemma post_gone d' w' :
  tests_ok d' /\ changes sid (w_db w) d' -> w_db w' = d' -> post (fun o => o = (sid, oid)) sid (w_db w) no_content w'.
Proof using Hok. intros [Ho Hc] <-. by split. Qed.

Lemma lists_ends n p t id f :
  ends_in (ListTestPacks_ oid sid n) /\
  ends_in (ListTestCases_ oid sid p t) /\
  ends_in (ListTestRuns_ oid sid p) /\
  ends_in (ListTestRunsSummary_ oid sid f) /\
  ends_in (ListTestRunResults_ oid sid id).
Proof using Hok.
  split_and!; walk; reads.
  - apply listed_rows. intros k x Hk [[Hs Hl]%andb_true_iff _]%andb_true_iff. split; [|done].
    eapply pack_in; [done|done|done|]. unfold pack_of. by rewrite Hl, Hs.
  - apply listed_rows. intros k x Hk [[[Hs Hl]%andb_true_iff _]%andb_true_iff _]%andb_true_iff. split; [|done].
    eapply case_in; [done|done|done|]. unfold case_of. by rewrite Hl, Hs.
  - apply listed_rows. intros k x Hk [[Hs Hl]%andb_true_iff _]%andb_true_iff. split; [|done].
    eapply run_in; [done|done|done|]. unfold run_of. by rewrite Hl, Hs.
  - apply Forall_fmap. cbn. apply listed_rows. intros k x Hk Hx. unfold in_summary in Hx. rewrite !andb_true_iff in Hx.
    destruct_and!. by apply String.eqb_eq.
  - apply listed_rows. intros k x Hk [[Hs _]%andb_true_iff Hl]%andb_true_iff. split; [|done].
    eapply result_in; [done|done|done|]. unfold result_of. by rewrite Hl, Hs.
Qed.

(** The step of the INSERT or UPDATE that ran. *)
#[local] Ltac step_of L Hd := eapply L; [| | | |exact Hd]; done.
#[local] Ltac inserted Hd :=
  first [step_of insert_pack_step Hd|step_of insert_case_step Hd|step_of insert_run_step Hd|step_of insert_result_step Hd].

Lemma creates_end b1 b2 b3 b4 :
  ends_in (CreateTestPack_ ctx oid sid b1) /\
  ends_in (CreateTestCase_ ctx oid sid b2) /\
  ends_in (CreateTestRun_ ctx oid sid b3) /\
  ends_in (CreateTestRunResult_ ctx oid sid b4).
Proof using Hok.
  split_and!; walk; writes; intros now w2 Hd; (eapply post_step; [done|inserted Hd|done|done]).
Qed.

(** A row found under an id is the row of that id. *)
Lemma own_pack id p old : t_packs (w_db w) !! id = Some p -> pack_of sid p = true ->
  t_packs (w_db w) !! tp_ID p = Some old -> tp_ServiceID old = sid.
Proof using Hok.
  intros Hp [_ Hs%String.eqb_eq]%andb_true_iff. destruct (ok_packs _ Hok id p Hp) as [-> _ _ _]. congruence.
Qed.
Lemma own_case id p old : t_cases (w_db w) !! id = Some p -> case_of sid p = true ->
  t_cases (w_db w) !! tc_ID p = Some old -> tc_ServiceID old = sid.
Proof using Hok.
  intros Hp [_ Hs%String.eqb_eq]%andb_true_iff. destruct (ok_cases _ Hok id p Hp) as [-> _ _ _ _]. congruence.
Qed.
Lemma own_run id p old : t_runs (w_db w) !! id = Some p -> run_of sid p = true ->
  t_runs (w_db w) !! tr_ID p = Some old -> tr_ServiceID old = sid.
Proof using Hok.
  intros Hp [_ Hs%String.eqb_eq]%andb_true_iff. destruct (ok_runs _ Hok id p Hp) as [-> _ _ _ _]. congruence.
Qed.
Lemma own_result id p old : t_results (w_db w) !! id = Some p -> result_of sid p = true ->
  t_results (w_db w) !! rr_ID p = Some old -> rr_ServiceID old = sid.
Proof using Hok.
  intros Hp [_ Hs%String.eqb_eq]%andb_true_iff. destruct (ok_results _ Hok id p Hp) as [-> _ _ _ _ _]. congruence.
Qed.

Lemma updates_end id b1 b2 b3 b4 :
  ends_in (UpdateTestPack_ ctx oid sid id b1) /\
  ends_in (UpdateTestCase_ ctx oid sid id b2) /\
  ends_in (UpdateTestRun_ ctx oid sid id b3) /\
  ends_in (UpdateTestRunResult_ ctx oid sid id b4).
Proof using Hok.
  split_and!; walk; writes; intros now w2 Hd; (eapply post_step; [cbn| |done|done]).
  - match goal with Hx : pack_of sid ?x = true |- _ => by apply (pack_in _ _ _ id x Hok) end.
  - eapply update_pack_step; [done| |exact Hd]. intros old.
    match goal with Hx : pack_of sid ?x = true |- _ => by apply (own_pack id x) end.
  - match goal with Hx : case_of sid ?x = true |- _ => by apply (case_in _ _ _ id x Hok) end.
  - eapply update_case_step; [done| |exact Hd]. intros old.
    match goal with Hx : case_of sid ?x = true |- _ => by apply (own_case id x) end.
  - match goal with Hx : run_of sid ?x = true |- _ => by apply (run_in _ _ _ id x Hok) end.
  - eapply update_run_step; [done| |exact Hd]. intros old.
    match goal with Hx : run_of sid ?x = true |- _ => by apply (own_run id x) end.
  - match goal with Hx : result_of sid ?x = true |- _ => by apply (result_in _ _ _ id x Hok) end.
  - eapply update_result_step; [done| |exact Hd]. intros old.
    match goal with Hx : result_of sid ?x = true |- _ => by apply (own_result id x) end.
Qed.
Lemma deletes_end id :
  ends_in (DeleteTestPack ctx oid sid id) /\
  ends_in (DeleteTestCase ctx oid sid id).
Proof using Hok.
  split_and!; walk; writes; intros now w2 Hd; (eapply post_gone; [|done]).
  - eapply delete_pack_step; [done| |exact Hd]. intros old Hold. simplify_option_eq.
    match goal with Hx : pack_of sid _ = true |- _ => apply andb_true_iff in Hx as [_ Hs%String.eqb_eq] end. done.
  - eapply delete_case_step; [done| |exact Hd]. intros old Hold. simplify_option_eq.
    match goal with Hx : case_of sid _ = true |- _ => apply andb_true_iff in Hx as [_ Hs%String.eqb_eq] end. done.
Qed.

Lemma serve_post q : post (own_of q sid oid) sid (w_db w) (serve ctx oid sid q w).1 (serve ctx oid sid q w).2.
Proof using Hok.
  set (f0 := mkSummaryQuery "" "" "" "" "" "").
  destruct q as [n|b|id b|id|p t|b|id b|id|b|id|p|f|id b|b|id|id b|id]; cbn [serve own_of].
  - apply (lists_ends n "" "" "" f0).
  - apply (creates_end b None None None).
  - apply (updates_end id b None None None).
  - apply (deletes_end id).
  - apply (lists_ends "" p t "" f0).
  - apply (creates_end None b None None).
  - apply (updates_end id None b None None).
  - apply (deletes_end id).
  - apply (creates_end None None b None).
  - walk. reads. by eapply run_in.
  - apply (lists_ends "" p "" "" f0).
  - apply (lists_ends "" "" "" "" f).
  - apply (updates_end id None None b None).
  - apply (creates_end None None None b).
  - apply (lists_ends "" "" "" id f0).
  - apply (updates_end id None None None b).
  - apply (func_ends (post (fun o => o.2 = oid) sid (w_db w))), wp_bind.
    eapply ends_live_in; [by apply post_quiet_ends|done|]. intros p w' Hp Hl Hd.
    apply wp_ret, post_read; [done| |done]. apply andb_true_iff in Hl as [_ Ho%String.eqb_eq]. done.
Qed.
End Serve.
End Serving.
