(* ===== verification/TestFlow.v ===== *)
(** * TestFlow: the properties of test packs

    Requests stay within their service and keep the tables well formed; the
    summary of the runs of a service counts their results; what an update of a case
    and the creation of a run leave behind. *)

From S2P Require Import Prelude GoStrings Effects ApiSpec Authz Identity Dependencies Table Requests TestPacks TestHandlers TestLife.
From Stdlib Require Import QArith Sorting.Sorted.
#[local] Open Scope nat_scope.
#[local] Open Scope string_scope.
Set Warnings "-clear-no-such-hyp".

Section Flow.
Context `{Collation} `{UuidText} `{TestPayloads} `{UuidGen} `{TimeParser}.
#[local] Abbreviation W := (World TestDB).
Implicit Types (d : TestDB) (w : W).

(** ** Confinement *)

Lemma service_needed ctx oid sid q w :
  (forall id, q <> TPackByID id) -> succeeded (serve ctx oid sid q w).1 = true -> service_in oid sid (w_db w).
Proof.
  intros Hq. assert (exists m, serve ctx oid sid q = func (ensureServiceInOrg oid sid ;;; m)) as [m ->].
  { destruct q; cbn; try (eexists; reflexivity). by destruct (Hq testPackID). }
  apply (func_ends (fun r _ => succeeded r = true -> service_in oid sid (w_db w))).
  unfold ensureServiceInOrg. rewrite !wp_bind. apply wp_try.
  destruct (GetService sid w) as [[o|e] w1] eqn:E; [|by destruct e].
  apply query_cases in E as [_ Ho]. destruct (Ho o eq_refl) as [_ ->].
  destruct (db_services (w_db w) !! sid) as [s|] eqn:Hs; [|done]. apply wp_return_if. split; [done|].
  intros [Hl%negb_false_iff Hoid%negb_false_iff%String.eqb_eq]%orb_false_iff.
  unfold wp. destruct (m w1) as [[r|r] w2]; intros _; by exists s.
Qed.

(** (C20) A request on a service, of any caller and with any body: it changes rows of
    that service only, no row changes its owner or disappears, and a deleted row stays as it
    is; a request that does not succeed changes nothing; one that succeeds names a live
    service of the org of its path; and an answer shows rows of that service and org
    only - of the org, where the path names a test pack alone - and lists live ones. *)
Theorem test_requests_confined ctx oid sid q w :
  tests_ok (w_db w) ->
  let '(r, w') := serve ctx oid sid q w in
  changes sid (w_db w) (w_db w') /\
  (succeeded r = false -> w_db w' = w_db w) /\
  (succeeded r = true -> (exists id, q = TPackByID id) \/ service_in oid sid (w_db w)) /\
  match payload r with Json b => answers (own_of q sid oid) sid b | _ => True end.
Proof.
  intros Hok. pose proof (serve_post ctx oid sid w Hok q) as [_ Hc Ha Hb].
  pose proof (service_needed ctx oid sid q w) as Hs. destruct (serve ctx oid sid q w) as [r w'].
  split_and!; [done|done| |done]. intros Hr.
  destruct q; try (right; apply Hs; done). left. eauto.
Qed.

(** ** Invariant *)

Definition served (rqs : list (option Principal * string * string * test_request)) (w : W) : W :=
  fold_left (fun w rq => (serve rq.1.1.1 rq.1.1.2 rq.1.2 rq.2 w).2) rqs w.

Lemma served_post rqs w :
  tests_ok (w_db w) ->
  tests_ok (w_db (served rqs w)) /\
  all_kept (stays pack_owner tp_live) (t_packs (w_db w)) (t_packs (w_db (served rqs w))) /\
  all_kept (stays case_owner tc_live) (t_cases (w_db w)) (t_cases (w_db (served rqs w))) /\
  all_kept (stays run_owner tr_live) (t_runs (w_db w)) (t_runs (w_db (served rqs w))) /\
  all_kept (stays result_owner rr_live) (t_results (w_db w)) (t_results (w_db (served rqs w))).
Proof.
  revert w. induction rqs as [|[[[ctx oid] sid] q] rqs IH]; intros w Hok; cbn.
  { split_and!; [done|apply all_kept_refl; done..]. }
  pose proof (serve_post ctx oid sid w Hok q) as [Hok' [_ _ [_ Hp] [_ Hc] [_ Hr] [_ Hx]] _ _].
  destruct (IH _ Hok') as (Ho & P2 & C2 & R2 & X2). split_and!; [done|..]; (eapply all_kept_trans; [apply stays_trans|done|done]).
Qed.

(** (C21) Whatever requests are served, in whatever order and by whichever
    callers, the test tables stay well formed: each row lies under its id, belongs to a
    service and that service's org, satisfies the checks of its table with payloads as their
    columns give them back, and refers to rows that exist; a run has one result of a case.  And
    no pack, case, run or result disappears or changes its service or org, and what was
    deleted stays as it was. *)
Theorem reachable_tests_ok rqs w :
  tests_ok (w_db w) ->
  let d := w_db w in
  let d' := w_db (served rqs w) in
  tests_ok d' /\
  (forall k p, t_packs d !! k = Some p -> exists p', t_packs d' !! k = Some p' /\
     pack_owner p' = pack_owner p /\ (tp_live p = false -> p' = p)) /\
  (forall k c, t_cases d !! k = Some c -> exists c', t_cases d' !! k = Some c' /\
     case_owner c' = case_owner c /\ (tc_live c = false -> c' = c)) /\
  (forall k r, t_runs d !! k = Some r -> exists r', t_runs d' !! k = Some r' /\
     run_owner r' = run_owner r /\ (tr_live r = false -> r' = r)) /\
  (forall k x, t_results d !! k = Some x -> exists x', t_results d' !! k = Some x' /\
     result_owner x' = result_owner x /\ (rr_live x = false -> x' = x)).
Proof. intros Hok. exact (served_post rqs w Hok). Qed.

(** ** The summary of runs *)

(** The live results of a run with a status. *)
Definition outcomes (runID st : string) d : nat :=
  size (base.filter (fun kx => rr_TestRunID kx.2 = runID /\ rr_live kx.2 = true /\ rr_Status kx.2 = st) (t_results d)).
Definition live_results (runID : string) d : nat :=
  size (base.filter (fun kx => rr_TestRunID kx.2 = runID /\ rr_live kx.2 = true) (t_results d)).

Lemma sum_case_some st l :
  sum_case st (map Some l) = Z.of_nat (length (List.filter (fun r => String.eqb (rr_Status r) st) l)).
Proof.
  unfold sum_case. induction l as [|r l IH]; cbn; [done|]. rewrite IH. destruct (String.eqb _ _); cbn; lia.
Qed.
Lemma filter_twice {A} (p q : A -> bool) l : List.filter q (List.filter p l) = List.filter (fun x => p x && q x) l.
Proof. induction l as [|x l IH]; cbn; [done|]. destruct (p x); cbn; [destruct (q x)|]; by rewrite IH. Qed.
Lemma sum_case_joined st id d : sum_case st (joined_results id d) = Z.of_nat (outcomes id st d).
Proof.
  transitivity (sum_case st (map Some (results_of id d))).
  { unfold joined_results. by destruct (results_of id d). }
  rewrite sum_case_some. f_equal. unfold outcomes, results_of.
  rewrite <-(size_select (fun x => (String.eqb (rr_TestRunID x) id && rr_live x) && String.eqb (rr_Status x) st)).
  - unfold select. by rewrite filter_twice.
  - intros k r. cbn. rewrite !andb_true_iff, !String.eqb_eq. tauto.
Qed.

(** With the four statuses the CHECK allows, the counts add up. *)
Lemma statuses_sum l :
  Forall (fun r => result_checks r = true) l ->
  (sum_case "passed" (map Some l) + sum_case "failed" (map Some l) + sum_case "skipped" (map Some l) +
   sum_case "blocked" (map Some l))%Z = Z.of_nat (length l).
Proof.
  unfold sum_case. induction 1 as [|r l Hr _ IH]; [done|]. unfold result_checks, mem_str in Hr. cbn in *.
  destruct (String.eqb_spec (rr_Status r) "passed") as [E|]; [rewrite ?E; cbn; lia|].
  destruct (String.eqb_spec (rr_Status r) "failed") as [E|]; [rewrite ?E; cbn; lia|].
  destruct (String.eqb_spec (rr_Status r) "skipped") as [E|]; [rewrite ?E; cbn; lia|].
  destruct (String.eqb_spec (rr_Status r) "blocked") as [E|]; [rewrite ?E; cbn; lia|done].
Qed.

(** (C22) The summary of the runs of a service: it lists each live run of the
    service that meets the filters once, the latest first, with the number of the run's live
    results of each status - and these four numbers add up to the number of its live results. *)
Theorem run_summary_correct oid sid q w r w' l :
  tests_ok (w_db w) -> ListTestRunsSummary_ oid sid q w = (r, w') -> payload r = Json (SummaryList l) ->
  let d := w_db w in
  w_db w' = d /\
  Permutation (map sm_TestRunID l) (map tr_ID (select (in_summary sid (summary_filter q)) (t_runs d))) /\
  StronglySorted (fun s s' => (sm_ExecutedAt s' <= sm_ExecutedAt s)%Z) l /\
  forall s, s ∈ l ->
    (exists run, t_runs d !! sm_TestRunID s = Some run /\ in_summary sid (summary_filter q) run = true /\
       sm_Status s = tr_Status run /\ sm_OverallStatus s = tr_OverallStatus run) /\
    sm_PassedCount s = Z.of_nat (outcomes (sm_TestRunID s) "passed" d) /\
    sm_FailedCount s = Z.of_nat (outcomes (sm_TestRunID s) "failed" d) /\
    sm_SkippedCount s = Z.of_nat (outcomes (sm_TestRunID s) "skipped" d) /\
    sm_BlockedCount s = Z.of_nat (outcomes (sm_TestRunID s) "blocked" d) /\
    (sm_PassedCount s + sm_FailedCount s + sm_SkippedCount s + sm_BlockedCount s)%Z =
      Z.of_nat (live_results (sm_TestRunID s) d).
Proof.
  intros Hok E Hl. cbv zeta.
  set (rows := order_by (desc (by_key tr_ExecutedAt)) (select (in_summary sid (summary_filter q)) (t_runs (w_db w)))).
  assert (w_db w' = w_db w /\ l = map (summary_of (w_db w)) rows) as [Hd ->].
  { revert Hl. replace r with (ListTestRunsSummary_ oid sid q w).1 by (by rewrite E).
    replace w' with (ListTestRunsSummary_ oid sid q w).2 by (by rewrite E). clear E.
    pattern (ListTestRunsSummary_ oid sid q w).1, (ListTestRunsSummary_ oid sid q w).2. apply func_ends.
    assert (quiet (w_db w) (fun r w' => payload r = Json (SummaryList l) ->
      w_db w' = w_db w /\ l = map (summary_of (w_db w)) rows)) as Hq.
    { intros r0 w0 [_ Hr]%andb_true_iff _ Hp. by rewrite Hp in Hr. }
    repeat ends_step. apply wp_ret. intros [= <-]. by split. }
  split; [done|]. split_and!.
  - rewrite map_map. cbn. apply Permutation_map. unfold rows, order_by. apply sort_stable_perm.
  - pose proof (sort_stable_sorted (desc (by_key tr_ExecutedAt)) (select (in_summary sid (summary_filter q)) (t_runs (w_db w)))) as Hs.
    fold rows in Hs. clear -Hs. unfold rows, order_by in *. induction Hs as [|x l Hl IH Hx]; cbn; constructor; [done|].
    rewrite Forall_map. eapply Forall_impl; [exact Hx|]. intros y. unfold desc, by_key. cbn. lia.
  - intros s (run & -> & Hrun)%list_elem_of_fmap. unfold rows, order_by in Hrun.
    rewrite sort_stable_elem, select_elem in Hrun. destruct Hrun as [[k Hk] Hin].
    destruct (ok_runs _ Hok k run Hk) as [Hid _ _ _ _]. cbn. rewrite !sum_case_joined. split_and!; try done.
    + exists run. by rewrite Hid.
    + rewrite <-!sum_case_joined. unfold joined_results.
      assert (length (results_of (tr_ID run) (w_db w)) = live_results (tr_ID run) (w_db w)) as <-.
      { apply size_select. intros k0 r0. cbn. by rewrite andb_true_iff, String.eqb_eq. }
      rewrite <-(statuses_sum (results_of (tr_ID run) (w_db w))).
      * by destruct (results_of (tr_ID run) (w_db w)).
      * apply Forall_forall. intros x [[j Hj] _]%select_elem. apply (ok_results _ Hok j x Hj).
Qed.

(** ** Updating a case *)

Definition set_flags (critical evidence : bool) (c : CaseContent) : CaseContent :=
  mkCaseContent (cc_Title c) (cc_Order c) (cc_Type c) (cc_Description c) (cc_Priority c) (cc_Labels c)
    (cc_LinkedTicket c) (cc_EstimatedDurationMins c) (cc_TestOwner c) (cc_LinkedMapNodeID c) critical evidence
    (cc_ScreenshotURLs c) (cc_Manual c) (cc_API c) (cc_GraphQL c) (cc_Database c) (cc_GRPC c) (cc_Status c)
    (cc_Version c) (cc_BaselineRunResultID c) (cc_Dependencies c).
(** What a body that names no field decodes to. *)
Definition zero_content : CaseContent :=
  mkCaseContent "" 0 "" None None None None None None None false false None None None None None None "" 0 None None.
Definition bare (b : caseRequest) : Prop :=
  tc_TestPackID (cq_TestCase b) = "" /\ exists c e, tc_Content (cq_TestCase b) = set_flags c e zero_content.

Lemma merge_flags old c e : merge_content old (set_flags c e zero_content) = set_flags c e old.
Proof. done. Qed.
Lemma stored_flags c e x : stored_case x = Some x -> stored_case (set_flags c e x) = Some (set_flags c e x).
Proof.
  unfold stored_case. cbn [set_flags cc_Manual cc_API cc_GraphQL cc_Database cc_GRPC cc_EstimatedDurationMins cc_Version
    cc_BaselineRunResultID cc_Dependencies]. 
  destruct (nullable (cc_Manual x)), (nullable (cc_API x)), (nullable (cc_GraphQL x)), (nullable (cc_Database x)),
    (nullable (cc_GRPC x)); cbn; try done.
  destruct (_ && _); [|done]. intros [= Hx]. f_equal. rewrite <-Hx. done.
Qed.

Lemma UpdateTestCase_run ctx oid sid id req w r w' :
  UpdateTestCase_ ctx oid sid id req w = (r, w') -> succeeded r = true ->
  exists p b old cc now, ctx = Some p /\ req = Some b /\ t_cases (w_db w) !! id = Some old /\ case_of sid old = true /\
    update_case now (merge_case old b (p_UserID p)) (w_db w) = Ok (w_db w') /\
    stored_case (tc_Content (merge_case old b (p_UserID p))) = Some cc /\
    r = JSON 200 (OneCase (merge_case old b (p_UserID p))).
Proof.
  intros E. replace r with (UpdateTestCase_ ctx oid sid id req w).1 by (by rewrite E).
  replace w' with (UpdateTestCase_ ctx oid sid id req w).2 by (by rewrite E). clear E.
  pattern (UpdateTestCase_ ctx oid sid id req w).1, (UpdateTestCase_ ctx oid sid id req w).2. apply func_ends.
  match goal with |- wp _ ?P _ _ => assert (quiet (w_db w) P) as Hq end.
  { intros r0 w0 [Hn%negb_true_iff _]%andb_true_iff _ Hs. congruence. }
  repeat ends_step. cbn zeta. eapply ends_write; [done|done|]. intros now w2 Hd _. subst.
  destruct (stored_case (tc_Content (merge_case x a0 (p_UserID a)))) as [cc|] eqn:Ecc;
    [|unfold update_case in Hd; by rewrite Ecc in Hd]. exists a, a0, x, cc, now. by split_and!.
Qed.

(** (lemma) Updating a case with a body that names no field of its content: if it
    succeeds, the case keeps its pack and every column of its content, but whether it is
    critical and whether it requires evidence become what the body says - false, when the body
    does not name them - and no other row of any table changes. *)
Theorem bare_update_sets_flags ctx oid sid id b w r w' :
  tests_ok (w_db w) -> bare b -> UpdateTestCase_ ctx oid sid id (Some b) w = (r, w') -> succeeded r = true ->
  exists old new, t_cases (w_db w) !! id = Some old /\ w_db w' = set_cases (w_db w) (<[id := new]> (t_cases (w_db w))) /\
    tc_TestPackID new = tc_TestPackID old /\ case_owner new = case_owner old /\ tc_live new = true /\
    tc_Content new = set_flags (cc_IsCritical (tc_Content (cq_TestCase b)))
                       (cc_EvidenceRequired (tc_Content (cq_TestCase b))) (tc_Content old).
Proof.
  intros Hok [Hp (c & e & Hc)] E Hs. destruct (UpdateTestCase_run _ _ _ _ _ _ _ _ E Hs) as
    (p & b' & old & cc & now & -> & [= <-] & Hold & Hcase & Hu & Hcc & _).
  destruct (ok_cases _ Hok id old Hold) as [Hid _ _ Hst _]. apply andb_true_iff in Hcase as [Hl _].
  unfold update_case, merge_case in Hu, Hcc. cbn [tc_Content] in Hcc. rewrite Hc, merge_flags in Hcc.
  rewrite (stored_flags c e _ Hst) in Hcc. injection Hcc as <-.
  cbn [tc_Content tc_ID tc_TestPackID tc_Audit] in Hu. rewrite Hp, Hc, merge_flags, (stored_flags c e _ Hst), Hid, Hold, Hl in Hu.
  cbn in Hu. repeat (case_match; try done). injection Hu as Hu. rewrite Hc.
  exists old. eexists. split_and!; [done|symmetry; exact Hu|done..].
Qed.

(** ** Creating a run and reading it *)

Lemma CreateTestRun_run ctx oid sid b w r w' :
  CreateTestRun_ ctx oid sid (Some b) w = (r, w') -> succeeded r = true ->
  exists run now, r = JSON 201 (OneRun run) /\ service_in oid sid (w_db w) /\ insert_run now run (w_db w) = Ok (w_db w') /\
    tr_ServiceID run = sid /\ tr_LoadMetrics run = tr_LoadMetrics b /\ tr_DeletedAt run = tr_DeletedAt b /\
    str_empty (tr_Status run) = false /\ tr_ExecutedAt run = tr_CreatedAt run /\ tr_UpdatedAt run = tr_CreatedAt run.
Proof.
  intros E. replace r with (CreateTestRun_ ctx oid sid (Some b) w).1 by (by rewrite E).
  replace w' with (CreateTestRun_ ctx oid sid (Some b) w).2 by (by rewrite E). clear E.
  pattern (CreateTestRun_ ctx oid sid (Some b) w).1, (CreateTestRun_ ctx oid sid (Some b) w).2. apply func_ends.
  match goal with |- wp _ ?P _ _ => assert (quiet (w_db w) P) as Hq end.
  { intros r0 w0 [Hn%negb_true_iff _]%andb_true_iff _ Hs. congruence. }
  repeat ends_step. cbn zeta. eapply ends_write; [done|done|]. intros now w2 Hd _.
  eexists _, now. split; [reflexivity|]. simplify_eq. cbn. split_and!; try done.
  unfold or_old_str. by destruct (str_empty (tr_Status a0)) eqn:?.
Qed.

(** (lemma) A run that was created reads back: as long as the database answers, the
    request for it gives the run the creation answered with, to the last column - for a body
    that sets no deletion time, with metrics their column keeps, when the clock did not read
    the zero time. *)
Theorem created_run_reads_back ctx oid sid b w run w' :
  CreateTestRun_ ctx oid sid (Some b) w = (JSON 201 (OneRun run), w') ->
  tr_DeletedAt b = None -> kept_payload (tr_LoadMetrics b) -> tr_CreatedAt run <> 0%Z -> w_faults w' = [] ->
  exists w2, GetTestRun_ oid sid (tr_ID run) w' = (JSON 200 (OneRun run), w2) /\ w_db w2 = w_db w'.
Proof.
  intros E Hdel Hm Ht Hf. destruct (CreateTestRun_run _ _ _ _ _ _ _ E eq_refl) as
    (run' & now & [= <-] & (s & Hs & Ho & Hl) & Hi & Hsv & Hlm & Hd & Hst & He & Hu).
  unfold insert_run in Hi. rewrite Hlm, Hm in Hi. repeat (case_match; try done).
  match goal with Hx : negb _ = false |- _ => rename Hx into Hv end. injection Hi as Hi.
  assert (stored_run now run (tr_LoadMetrics b) = run) as Hrow.
  { unfold stored_run, or_now. rewrite Hst, He, Hu. apply Z.eqb_neq in Ht. rewrite Ht, <-Hlm.
    destruct run; cbn in *. congruence. }
  rewrite Hrow in Hi. apply negb_false_iff in Hv. rewrite !andb_true_iff in Hv. destruct Hv as [[Hv _] _].
  assert (valid_uuid sid = true) as Hsid by (rewrite <-Hsv; cbn in Hv; rewrite !andb_true_iff in Hv; tauto).
  assert (db_services (w_db w') !! sid = Some s) as Hsv' by (by rewrite <-Hi).
  assert (t_runs (w_db w') !! tr_ID run = Some run) as Hrun by (rewrite <-Hi; apply lookup_insert_eq).
  assert (run_of sid run = true) as Hof by (unfold run_of, tr_live; by rewrite Hd, Hdel, Hsv, String.eqb_refl).
  exists (GetTestRun_ oid sid (tr_ID run) w').2.
  assert ((GetTestRun_ oid sid (tr_ID run) w').1 = JSON 200 (OneRun run) /\
          w_db (GetTestRun_ oid sid (tr_ID run) w').2 = w_db w') as [<- ->]; [|split; [by destruct (GetTestRun_ _ _ _ _)|done]].
  apply (func_ends (fun r w2 => r = JSON 200 (OneRun run) /\ w_db w2 = w_db w')).
  unfold ensureServiceInOrg, live_in, GetService, GetTestRun. rewrite !wp_bind. apply wp_try.
  rewrite query_runs by (cbn; by rewrite ?Hsid). rewrite Hsv', wp_return_if, Hl, Ho, String.eqb_refl.
  split; [done|intros _]. rewrite !wp_bind. apply wp_try.
  rewrite query_runs; [|done|cbn in Hv |- *; by destruct (valid_uuid (tr_ID run))].
  cbn [w_db with_faults]. rewrite Hrun. cbn [non_nil]. rewrite wp_bind, wp_ret, wp_bind, Hof. by split.
Qed.
End Flow.
