(* ===== verification/TestDemo.v ===== *)
(** * TestDemo: test packs at work

    Two organizations with a service each: a pack, a case and a run; inputs that meet
    the hypotheses of the theorems of TestFlow, and what the code lets through. *)

From S2P Require Import Prelude GoStrings Effects ApiSpec Authz Identity Dependencies Table Requests TestPacks TestHandlers TestLife TestFlow.
From Stdlib Require Import QArith.
#[local] Open Scope nat_scope.
#[local] Open Scope string_scope.

Module TestDemo.
#[local] Instance demo_collation : Collation :=
  {| text_less := by_key (fun s => Z.of_nat (String.length s)); text_lower := map_bytes lower_byte;
     text_less_strict := by_key_strict_weak _ |}.
Definition new_text (X : gset string) : string := fresh (X ∪ {[ "" ]}).
#[local] Program Instance any_text : UuidText := {|
  valid_uuid s := negb (str_empty s); gen_random_uuid := new_text |}.
Next Obligation. intros Hin. apply (is_fresh (X ∪ {[ "" ]})). set_solver. Qed.
Next Obligation.
  apply negb_true_iff, str_empty_false. intros E. apply (is_fresh (X ∪ {[ "" ]})).
  unfold new_text in E. rewrite E. set_solver.
Qed.
#[local] Instance as_it_is {T} : JsonColumn T.
Proof. refine {| column := Some |}. done. Defined.
#[local] Instance payloads : TestPayloads := ltac:(split; apply as_it_is).
#[local] Instance hex_ids : UuidGen := {| uuid_of := hex_encode |}.
#[local] Instance no_times : TimeParser := {| ParseRFC3339 _ := None |}.

Definition service (id org : string) : ServiceRow := mkServiceRow id org id "" "active" "" "" "" None 0 "" None.
Definition start : World TestDB :=
  mkWorld (mkTestDB {[ "a"; "b" ]} {[ "sa" := service "sa" "a"; "sb" := service "sb" "b" ]} ∅ ∅ ∅ ∅) [] 100 []
    (map N.of_nat (seq 0 160)).
Definition user (name org : string) : option Principal := Some (mkPrincipal "user" name org false "" [] "local").

Definition pack_body : createPackRequest := mkCreatePack "checkout" "" None None.
Definition audit0 : Audit := mkAudit "" None None None 0 0 None None.
Definition case_body (pack title : string) (critical : bool) : caseRequest :=
  mkCaseRequest (mkTestCase "" pack "" "" (mkCaseContent title 0 (if str_empty title then "" else "manual") None None None None
    None None None critical false None None None None None None "" 0 None None) audit0) None.
Definition run_body (pack : string) : TestRun :=
  mkTestRun "" pack "" "" "staging" None None None "" None "" 0 "" None "" None 0 0 None.
Definition result_body (run case st : string) : TestRunResult :=
  mkTestRunResult "" run case "" "" st None None None None None None 0 "" 0 0 None.

(** The ids, in the order they are drawn. *)
Definition nth_id (n : nat) : string := hex_encode (map N.of_nat (seq (16 * n) 16)).
Definition in_a (q : test_request) := (user "ann" "a", "a", "sa", q).
Definition in_b (q : test_request) := (user "bob" "b", "b", "sb", q).

(** Ann's pack, case and run; Bob's pack and case. *)
Definition setup := [in_a (TCreatePack (Some pack_body)); in_a (TCreateCase (Some (case_body (nth_id 0) "pays" true)));
  in_a (TCreateRun (Some (run_body (nth_id 0)))); in_b (TCreatePack (Some pack_body));
  in_b (TCreateCase (Some (case_body (nth_id 3) "spies" false)))].
Definition w0 : World TestDB := served setup start.

Lemma start_tests_ok : tests_ok (w_db start).
Proof. split; cbn; intros *; by rewrite lookup_empty. Qed.
Lemma w0_ok : tests_ok (w_db w0).
Proof. by apply served_post, start_tests_ok. Qed.

Definition no_query : summaryQuery := mkSummaryQuery "" "" "" "" "" "".
Definition failures (r : TReply) : option (list Z) :=
  match payload r with Json (SummaryList l) => Some (map sm_FailedCount l) | _ => None end.
Definition result_ids (r : TReply) : option (list string) :=
  match payload r with Json (ResultList l) => Some (map rr_ID l) | _ => None end.
Definition ask rq (w : World TestDB) : TReply := (serve rq.1.1.1 rq.1.1.2 rq.1.2 rq.2 w).1.

Definition intrude : option Principal * string * string * test_request :=
  in_b (TCreateResult (Some (result_body (nth_id 2) (nth_id 4) "failed"))).

(** (lemma) A result of another organization counts: Bob, of org b, records a
    failed result of his own test case for a run of org a; the request succeeds, and the
    summary of that run in org a has a failure from then on, though the list of the run's
    results there is empty. *)
Theorem result_crosses_tenants :
  failures (ask (in_a (TSummary no_query)) w0) = Some [0%Z] /\
  status (ask intrude w0) = 201%Z /\
  failures (ask (in_a (TSummary no_query)) (served [intrude] w0)) = Some [1%Z] /\
  result_ids (ask (in_a (TListResults (nth_id 2))) (served [intrude] w0)) = Some [].
Proof. vm_compute. repeat split. Qed.

Definition squat : option Principal * string * string * test_request :=
  in_b (TCreateResult (Some (result_body (nth_id 2) (nth_id 1) "passed"))).
Definition report : option Principal * string * string * test_request :=
  in_a (TCreateResult (Some (result_body (nth_id 2) (nth_id 1) "failed"))).
(** (lemma) The slot of a run and a case can be taken by another organization. *)
Lemma slot_taken :
  status (ask report w0) = 201%Z /\ status (ask squat w0) = 201%Z /\ status (ask report (served [squat] w0)) = 500%Z.
Proof. vm_compute. repeat split. Qed.

(** ** Witnesses *)

Lemma test_requests_confined_witness :
  tests_ok (w_db w0) /\ status (ask intrude w0) = 201%Z /\
  changes "sb" (w_db w0) (w_db (served [intrude] w0)).
Proof.
  pose proof (test_requests_confined (user "bob" "b") "b" "sb" (TCreateResult (Some (result_body (nth_id 2) (nth_id 4) "failed")))
    w0 w0_ok) as Hc.
  split_and!; [exact w0_ok|vm_compute; reflexivity|].
  unfold served, fold_left, intrude, in_b. cbn [fst snd].
  destruct (serve _ _ _ _ _) as [r w']. by destruct Hc.
Defined.

Lemma reachable_tests_ok_witness : tests_ok (w_db start) /\ tests_ok (w_db (served (setup ++ [intrude])%list start)).
Proof. split; [exact start_tests_ok|]. by apply (reachable_tests_ok (setup ++ [intrude])%list start), start_tests_ok. Defined.

Definition summaries (r : TReply) : list TestRunSummary := match payload r with Json (SummaryList l) => l | _ => [] end.
Definition summary : TReply * World TestDB := ListTestRunsSummary_ "a" "sa" no_query w0.

Lemma run_summary_correct_witness :
  tests_ok (w_db w0) /\ payload summary.1 = Json (SummaryList (summaries summary.1)) /\
  Permutation (map sm_TestRunID (summaries summary.1)) (map tr_ID (select (in_summary "sa" (summary_filter no_query)) (t_runs (w_db w0)))).
Proof.
  assert (payload summary.1 = Json (SummaryList (summaries summary.1))) as Hp by (vm_compute; reflexivity).
  split_and!; [exact w0_ok|exact Hp|]. unfold summary in *.
  destruct (ListTestRunsSummary_ "a" "sa" no_query w0) as [r w'] eqn:E. cbn [fst snd] in *.
  destruct (run_summary_correct "a" "sa" no_query w0 r w' (summaries r) w0_ok E Hp) as (_ & Hperm & _). exact Hperm.
Defined.

(** An update that names nothing. *)
Definition nothing : caseRequest := case_body "" "" false.
Definition updated : TReply * World TestDB := UpdateTestCase_ (user "ann" "a") "a" "sa" (nth_id 1) (Some nothing) w0.
Definition critical (w : World TestDB) : option bool := cc_IsCritical ∘ tc_Content <$> t_cases (w_db w) !! nth_id 1.

Lemma bare_update_sets_flags_witness :
  tests_ok (w_db w0) /\ bare nothing /\ succeeded updated.1 = true /\ critical w0 = Some true /\ critical updated.2 = Some false.
Proof.
  assert (succeeded updated.1 = true) as Hs by (vm_compute; reflexivity).
  assert (bare nothing) as Hb by (split; [reflexivity|by exists false, false]).
  split_and!; [exact w0_ok|exact Hb|exact Hs|vm_compute; reflexivity|].
  unfold updated in *. destruct (UpdateTestCase_ (user "ann" "a") "a" "sa" (nth_id 1) (Some nothing) w0) as [r w'] eqn:E.
  cbn [fst snd] in *.
  destruct (bare_update_sets_flags (user "ann" "a") "a" "sa" (nth_id 1) nothing w0 r w' w0_ok Hb E Hs)
    as (old & new & _ & Hw & _ & _ & _ & Hc).
  unfold critical. rewrite Hw. cbn [t_cases set_cases]. rewrite lookup_insert_eq. cbn. by rewrite Hc.
Defined.

Definition created : TReply * World TestDB := CreateTestRun_ (user "ann" "a") "a" "sa" (Some (run_body (nth_id 0))) w0.
Definition the_run (r : TReply) : TestRun := match payload r with Json (OneRun x) => x | _ => run_body "" end.

Lemma created_run_reads_back_witness :
  created.1 = JSON 201 (OneRun (the_run created.1)) /\ tr_CreatedAt (the_run created.1) <> 0%Z /\
  (GetTestRun_ "a" "sa" (tr_ID (the_run created.1)) created.2).1 = JSON 200 (OneRun (the_run created.1)).
Proof.
  assert (created.1 = JSON 201 (OneRun (the_run created.1))) as Hr by (vm_compute; reflexivity).
  assert (tr_CreatedAt (the_run created.1) <> 0%Z) as Ht by (vm_compute; discriminate).
  assert (w_faults created.2 = []) as Hf by (vm_compute; reflexivity).
  split_and!; [exact Hr|exact Ht|].
  destruct (created_run_reads_back (user "ann" "a") "a" "sa" (run_body (nth_id 0)) w0 (the_run created.1) created.2)
    as (w2 & E & _); [|done..|].
  - rewrite <-Hr. exact (surjective_pairing created).
  - by rewrite E.
Defined.
End TestDemo.
