(* ===== verification/ServiceStore.v ===== *)
(** * ServiceStore: the services of an organization

    Models [Service], [DocLink] and [ListParams] of [internal/catalog/catalog.go] and the
    service statements of [internal/store/postgres/catalog.go], on the tables of migrations
    0011, 0043, 0044, 0046 and 0062, with the dependencies a new service adopts.  Of [orgs]
    and [folders] only the ids matter; ILIKE is the database's. *)

From S2P Require Import Prelude GoStrings Effects ApiSpec Authz Identity AuthStore Dependencies Table Requests.
#[local] Open Scope nat_scope.
#[local] Open Scope string_scope.

Record DocLink := mkDocLink { dl_ID : string; dl_Label : string; dl_URL : string }.

(** The columns an UPDATE sets are grouped; who made and changed a row when is [Audit]. *)
Record ServiceContent := mkServiceContent {
  sc_FolderID : option string; sc_TeamID : option string; sc_Name : string; sc_Description : string;
  sc_Status : string; sc_Tier : string; sc_Category : string; sc_Language : string;
  sc_GitRepoURL : option string; sc_JiraProjectURL : option string; sc_SlackChannelURL : option string;
  sc_LastCommitSha : option string; sc_Labels : option (list string); sc_Metadata : option string;
  sc_DocLinks : option (list DocLink)
}.
(** [TeamName] has no column: it names a team in a request. *)
Record Service := mkService {
  s_ID : string; s_OrgID : string; s_TeamName : string; s_Content : ServiceContent; s_Audit : Audit
}.
Definition s_Name (s : Service) : string := sc_Name (s_Content s).
Definition s_TeamID (s : Service) : option string := sc_TeamID (s_Content s).
Definition s_live (s : Service) : bool := au_live (s_Audit s).

Record ListParams := mkListParams {
  lp_SortBy : string; lp_SortDir : string; lp_Limit : Z; lp_Offset : Z; lp_FolderID : option string;
  lp_TeamID : option string; lp_Search : option string; lp_ExactName : option string
}.

Record ServiceTables := mkServiceTables {
  v_orgs : gset string; v_folders : gset string; v_teams : gmap string Team;
  v_services : gmap string Service; v_deps : gmap string ServiceDependency
}.
Definition set_services (d : ServiceTables) t deps : ServiceTables :=
  mkServiceTables (v_orgs d) (v_folders d) (v_teams d) t deps.
Definition ServiceEff (A : Type) : Type := Eff (World ServiceTables) (result store_err A).

Class ServicePayloads := {
  #[global] metadata_column :: JsonColumn string;
  #[global] doc_links_column :: JsonColumn (list DocLink)
}.
(** [text ILIKE pattern] *)
Class Ilike := { ilike : string -> string -> bool }.

Section Store.
Context `{Collation} `{UuidText} `{ServicePayloads} `{Ilike}.
#[local] Abbreviation W := (World ServiceTables).
Implicit Types d : ServiceTables.

Definition with_team (s : Service) (id : option string) : Service :=
  let c := s_Content s in
  mkService (s_ID s) (s_OrgID s) (s_TeamName s)
    (mkServiceContent (sc_FolderID c) id (sc_Name c) (sc_Description c) (sc_Status c) (sc_Tier c) (sc_Category c)
       (sc_Language c) (sc_GitRepoURL c) (sc_JiraProjectURL c) (sc_SlackChannelURL c) (sc_LastCommitSha c)
       (sc_Labels c) (sc_Metadata c) (sc_DocLinks c)) (s_Audit s).

Definition named_team (orgID name : string) (t : Team) : bool := String.eqb (t_OrgID t) orgID && String.eqb (t_Name t) name.
Definition resolveTeamID (orgID name : string) : ServiceEff string :=
  scan [orgID] (fun d => match select_one (named_team orgID name) (v_teams d) with
                         | Some t => Ok (t_ID t)
                         | None => Err ErrTeamNotFound
                         end).

(** [if (s.TeamID == nil || *s.TeamID == "") && s.TeamName != "" { ... s.TeamID = &id }] *)
Definition team_resolved (s : Service) : Go W (result store_err unit) Service :=
  if str_empty (default "" (s_TeamID s)) && negb (str_empty (s_TeamName s)) then
    id <- try (resolveTeamID (s_OrgID s) (s_TeamName s)) Err ;;
    gret (with_team s (Some id))
  else gret s.

(** The columns of the content; [None]: one of them refuses its value. *)
Definition stored_content (c : ServiceContent) : option ServiceContent :=
  meta ← column (default "{}" (sc_Metadata c));
  links ← nullable (sc_DocLinks c);
  if opt_ok valid_uuid (sc_FolderID c) && opt_ok valid_uuid (sc_TeamID c)
  then Some (mkServiceContent (sc_FolderID c) (sc_TeamID c) (sc_Name c) (sc_Description c) (sc_Status c) (sc_Tier c)
               (sc_Category c) (sc_Language c) (sc_GitRepoURL c) (sc_JiraProjectURL c) (sc_SlackChannelURL c)
               (sc_LastCommitSha c) (Some (default [] (sc_Labels c))) (Some meta) links)
  else None.
Definition service_checks (c : ServiceContent) : bool :=
  mem_str (sc_Status c) ["active"; "inactive"; "deprecated"; "development"; "maintenance"] &&
  mem_str (sc_Tier c) ["tier1"; "tier2"; "tier3"; "tier4"].
Definition service_fks (c : ServiceContent) d : bool :=
  opt_ok (fun f => bool_decide (f ∈ v_folders d)) (sc_FolderID c) && opt_ok (fun t => found (v_teams d !! t)) (sc_TeamID c).
(** idx_services_org_name *)
Definition same_name (orgID name : string) (s : Service) : bool :=
  String.eqb (s_OrgID s) orgID && String.eqb (s_Name s) name && s_live s.

(** The dependencies of other services that name a new one. *)
Definition adoptable (s : Service) (r : ServiceDependency) : bool :=
  String.eqb (sd_OrgID r) (s_OrgID s) && String.eqb (sd_DependencyName r) (s_Name s) && negb (found (sd_DependencyID r)) &&
  negb (String.eqb (sd_ServiceID r) (s_ID s)) && sd_live r.
Definition adopted (s : Service) (r : ServiceDependency) : ServiceDependency :=
  mkServiceDependency (sd_ID r) (sd_ServiceID r) (Some (s_ID s)) (sd_DependencyName r) (sd_Direction r)
    (sd_OrgID r) (sd_Name r) (sd_Type r) (sd_Criticality r) (sd_Description r) (sd_APIGroupName r)
    (sd_APIEndpointNames r) (sd_DatabaseName r) (sd_CreatedBy r) (sd_UpdatedBy r)
    (sd_CreatedByCommitHash r) (sd_UpdatedByCommitHash r) (sd_CreatedAt r) (au_UpdatedAt (s_Audit s))
    (sd_DeletedAt r) (sd_DeletedBy r).
Definition adopt (s : Service) (t : gmap string ServiceDependency) : gmap string ServiceDependency :=
  update_where (adoptable s) (adopted s) t.

Definition created_service (now : Z) (s : Service) (c : ServiceContent) : Service :=
  let a := s_Audit s in
  mkService (s_ID s) (s_OrgID s) "" c
    (mkAudit (au_CreatedBy a) None (au_CreatedByCommitHash a) None (or_now (au_CreatedAt a) now)
       (or_now (au_UpdatedAt a) now) None None).
(** The transaction: INSERT, then the dependencies. *)
Definition create_tx (now : Z) (s : Service) d : result store_err ServiceTables :=
  match stored_content (s_Content s) with
  | None => bad_syntax
  | Some c =>
      if negb (forallb valid_uuid [s_ID s; s_OrgID s; au_CreatedBy (s_Audit s)]) then bad_syntax
      else if negb (service_checks c) || found (v_services d !! s_ID s) then violation
      else if exists_row (same_name (s_OrgID s) (s_Name s)) (v_services d) then Err (ErrServiceNameExists (s_Name s))
      else if negb (bool_decide (s_OrgID s ∈ v_orgs d)) || negb (service_fks c d) then violation
      else let row := created_service now s c in
           Ok (set_services d (<[s_ID s := row]> (v_services d))
                 (if String.eqb (sc_Status c) "active" then adopt row (v_deps d) else v_deps d))
  end.
Definition CreateService (s : Service) : ServiceEff unit :=
  func (
    s' <- team_resolved s ;;
    now <- call time_now ;;
    call (exec (create_tx now s'))).

Definition GetService (id : string) : ServiceEff (option Service) := query [id] (fun d => v_services d !! id).

(** ** Lists *)

Definition search_pattern (p : ListParams) : option string :=
  match lp_Search p with
  | Some v => if str_empty v then None else Some ("%" +:+ v +:+ "%")
  | None => None
  end.
Definition opt_is (o : option string) (v : option string) : bool :=
  match o with Some x => bool_decide (v = Some x) | None => true end.
Definition in_list (orgID : string) (p : ListParams) (s : Service) : bool :=
  String.eqb (s_OrgID s) orgID && s_live s && opt_is (lp_FolderID p) (sc_FolderID (s_Content s)) &&
  opt_is (lp_TeamID p) (s_TeamID s) &&
  (match search_pattern p with
   | Some v => ilike (s_Name s) v || ilike (sc_Description (s_Content s)) v
   | None => true
   end) && exact_match s_Name (lp_ExactName p) s.
(** [strings.EqualFold(p.SortDir, "desc")]; the long s folds to s. *)
Definition descending (p : ListParams) : bool :=
  EqualFold (lp_SortDir p) "desc" || EqualFold (lp_SortDir p) "deſc".
Definition sort_col (sortBy : string) : Service -> Service -> bool :=
  if String.eqb sortBy "created" then by_key (fun s => au_CreatedAt (s_Audit s))
  else if String.eqb sortBy "updated" then by_key (fun s => au_UpdatedAt (s_Audit s))
  else by_text s_Name.
Definition list_order (p : ListParams) : Service -> Service -> bool :=
  then_by (exact_first s_Name (lp_ExactName p))
    (then_by (if descending p then desc (sort_col (lp_SortBy p)) else sort_col (lp_SortBy p)) (by_id s_ID)).
(** LIMIT and OFFSET, when a limit is asked for. *)
Definition page (p : ListParams) (l : list Service) : list Service :=
  if (0 <? lp_Limit p)%Z then take (Z.to_nat (lp_Limit p)) (drop (Z.to_nat (lp_Offset p)) l) else l.
Definition listed_all (orgID : string) (p : ListParams) d : list Service :=
  order_by (list_order p) (select (in_list orgID p) (v_services d)).

Definition list_ids (orgID : string) (p : ListParams) : list string :=
  orgID :: (option_list (lp_FolderID p) ++ option_list (lp_TeamID p))%list.
Definition ListServices (orgID : string) (p : ListParams) : ServiceEff (list Service * Z) :=
  func (
    total <- try (query (list_ids orgID p) (fun d => Z.of_nat (length (select (in_list orgID p) (v_services d))))) Err ;;
    out <- try (query (list_ids orgID p) (fun d => page p (listed_all orgID p d))) Err ;;
    gret (Ok (out, total))).

(** ** Changes *)

Definition updated_service (now : Z) (s old : Service) (c : ServiceContent) : Service :=
  mkService (s_ID old) (s_OrgID old) "" c (updated_audit now (s_Audit s) (s_Audit old)).
Definition update_service (now : Z) (s : Service) d : result store_err ServiceTables :=
  match stored_content (s_Content s) with
  | None => bad_syntax
  | Some c =>
      if negb (valid_uuid (s_ID s) && opt_ok valid_uuid (au_UpdatedBy (s_Audit s))) then bad_syntax else
      match v_services d !! s_ID s with
      | Some old =>
          if negb (s_live old) then Ok d
          else if negb (service_checks c) then violation
          else if other_row (s_ID s) (same_name (s_OrgID old) (s_Name s)) (v_services d)
          then Err (ErrServiceNameExists (s_Name s))
          else if negb (service_fks c d) then violation
          else Ok (set_services d (<[s_ID s := updated_service now s old c]> (v_services d)) (v_deps d))
      | None => Ok d
      end
  end.
Definition UpdateService (s : Service) : ServiceEff unit :=
  func (
    s' <- team_resolved s ;;
    now <- call time_now ;;
    call (exec (update_service now s'))).

Definition deleted_service (now : Z) (by_ : string) (s : Service) : Service :=
  mkService (s_ID s) (s_OrgID s) (s_TeamName s) (s_Content s) (deleted_audit by_ now (s_Audit s)).
Definition delete_service (now : Z) (id deletedBy : string) d : result store_err ServiceTables :=
  if negb (valid_uuid id && valid_uuid deletedBy) then bad_syntax else
  match v_services d !! id with
  | Some s => if s_live s
              then Ok (set_services d (<[id := deleted_service now deletedBy s]> (v_services d)) (v_deps d))
              else Ok d
  | None => Ok d
  end.
Definition SoftDeleteService (id deletedBy : string) : ServiceEff unit :=
  func (now <- call time_now ;; call (exec (delete_service now id deletedBy))).
End Store.
