(* ===== verification/ServiceHandlers.v ===== *)
(** * ServiceHandlers: the requests on services

    Models [internal/api/catalog/service.go] without the cached statistics, and
    [internal/httputil/list.go].  [serve] is the dispatch of the routes [Register] of
    [handler.go] mounts for them; reading, changing and deleting a service by its id
    take no organization, as the handlers look at none. *)

From S2P Require Import Prelude GoStrings Effects ApiSpec Authz Identity AuthStore OAuth Enterprise Dependencies Table Requests ServiceStore.
#[local] Open Scope nat_scope.
#[local] Open Scope string_scope.

Definition defaultListLimit : Z := 24.
Definition maxListLimit : Z := 100.
Definition ListLimit (raw : string) : Z :=
  if str_empty raw then defaultListLimit else
  match Atoi raw with
  | Some n => if (n <=? 0)%Z then defaultListLimit else if (maxListLimit <? n)%Z then maxListLimit else n
  | None => defaultListLimit
  end.
Definition ListOffset (raw : string) : Z :=
  if str_empty raw then 0%Z else
  match Atoi raw with Some n => if (n <? 0)%Z then 0%Z else n | None => 0%Z end.

Record listQuery := mkListQuery {
  lq_limit : string; lq_offset : string; lq_folderId : string; lq_teamId : string; lq_search : string;
  lq_sortBy : string; lq_sortDir : string; lq_exact_name : string
}.
Record createRequest := mkCreateRequest {
  cr_Content : ServiceContent; cr_TeamName : string; cr_CommitHash : option string
}.
Record updateRequest := mkUpdateRequest {
  ur_Name : option string; ur_Description : option string; ur_Status : option string; ur_Tier : option string;
  ur_Category : option string; ur_Language : option string; ur_FolderID : option string; ur_TeamID : option string;
  ur_TeamName : option string; ur_GitRepoURL : option string; ur_JiraProjectURL : option string;
  ur_SlackChannelURL : option string; ur_LastCommitSha : option string; ur_Labels : option (list string);
  ur_Metadata : option string; ur_DocLinks : option (list DocLink); ur_CommitHash : option string
}.

Inductive service_body : Type :=
| ServiceList (services : list Service) (total : Z)
| OneService (s : Service).
Definition SReply : Type := Response service_body.

Definition list_params (q : listQuery) : ListParams :=
  let limited := negb (str_empty (lq_limit q)) in
  mkListParams (lq_sortBy q) (lq_sortDir q) (if limited then ListLimit (lq_limit q) else 0%Z)
    (if limited then ListOffset (lq_offset q) else 0%Z) (query_param (lq_folderId q)) (query_param (lq_teamId q))
    (query_param (lq_search q)) (Exact (lq_exact_name q)).
(** [ListParams{Limit: 1}] *)
Definition count_params : ListParams := mkListParams "" "" 1 0 None None None None.

(** The errors of the store a handler explains. *)
Definition store_error (teamName name : string) (e : store_err) : SReply :=
  match e with
  | ErrTeamNotFound => BadRequest ("team " +:+ Quote teamName +:+ " does not exist")
  | ErrServiceNameExists _ => Conflict ("a service named " +:+ Quote name +:+ " already exists in this organization")
  | _ => HttpError e
  end.

(** The empty texts of a body replaced, and what no body names. *)
Definition with_defaults (c : ServiceContent) : ServiceContent :=
  mkServiceContent (sc_FolderID c) (sc_TeamID c) (sc_Name c) (sc_Description c) (or_old_str (sc_Status c) "active")
    (or_old_str (sc_Tier c) "tier3") (sc_Category c) (sc_Language c) (sc_GitRepoURL c) (sc_JiraProjectURL c)
    (sc_SlackChannelURL c) None (sc_Labels c) (sc_Metadata c) (sc_DocLinks c).

Definition merge_service (c : ServiceContent) (b : updateRequest) : ServiceContent :=
  let names_id := negb (str_empty (default "" (ur_TeamID b))) in
  let names_team := negb (str_empty (default "" (ur_TeamName b))) in
  mkServiceContent (or_old (ur_FolderID b) (sc_FolderID c))
    (if names_team then None else if names_id then ur_TeamID b else sc_TeamID c)
    (default (sc_Name c) (ur_Name b)) (default (sc_Description c) (ur_Description b))
    (default (sc_Status c) (ur_Status b)) (default (sc_Tier c) (ur_Tier b)) (default (sc_Category c) (ur_Category b))
    (default (sc_Language c) (ur_Language b)) (or_old (ur_GitRepoURL b) (sc_GitRepoURL c))
    (or_old (ur_JiraProjectURL b) (sc_JiraProjectURL c)) (or_old (ur_SlackChannelURL b) (sc_SlackChannelURL c))
    (or_old (ur_LastCommitSha b) (sc_LastCommitSha c)) (or_old (ur_Labels b) (sc_Labels c))
    (or_old (ur_Metadata b) (sc_Metadata c)) (or_old (ur_DocLinks b) (sc_DocLinks c)).
Definition changed_service (s : Service) (b : updateRequest) (actorID : string) : Service :=
  let a := s_Audit s in
  mkService (s_ID s) (s_OrgID s) (or_old_str (default "" (ur_TeamName b)) (s_TeamName s)) (merge_service (s_Content s) b)
    (mkAudit (au_CreatedBy a) (Some actorID) (au_CreatedByCommitHash a) (ur_CommitHash b) (au_CreatedAt a)
       (au_UpdatedAt a) (au_DeletedAt a) (au_DeletedBy a)).

Section Handlers.
Context `{Collation} `{UuidText} `{ServicePayloads} `{Ilike} `{UuidGen} `{HN : HttpClient} `{LimitDecoder}.
Context (ent : option Client).
#[local] Abbreviation W := (World ServiceTables).

Definition List_ (orgID : string) (q : listQuery) : Eff W SReply :=
  func (
    out <- try (ListServices orgID (list_params q)) HttpError ;;
    gret (JSON 200 (ServiceList out.1 out.2))).

(** [if h.enterprise != nil { ... }] *)
Definition check_limit (orgID : string) : Go W SReply unit :=
  match ent with
  | None => gret tt
  | Some _ =>
      out <- try (ListServices orgID count_params) HttpError ;;
      match ResourceLimitReached ent orgID "service" out.2 sl_MaxServices with
      | Some r => greturn r
      | None => gret tt
      end
  end.

Definition Create (ctx : option Principal) (orgID : string) (req : option createRequest) : Eff W SReply :=
  func (
    p <- non_nil ctx Unauthorized ;;
    body <- non_nil req bad_body ;;
    let c := cr_Content body in
    return_if (str_empty (sc_Name c)) (BadRequest "name is required") ;;;
    let hasTeamID := negb (str_empty (default "" (sc_TeamID c))) in
    let hasTeamName := negb (str_empty (cr_TeamName body)) in
    return_if (hasTeamID && hasTeamName) (BadRequest "provide either teamId or teamName, not both") ;;;
    return_if (negb hasTeamID && negb hasTeamName) (BadRequest "team is required") ;;;
    check_limit orgID ;;;
    now <- call time_now ;;
    id <- try NewString fail ;;
    let svc := mkService id orgID (cr_TeamName body) (with_defaults c)
                 (mkAudit (p_UserID p) None (cr_CommitHash body) None now now None None) in
    _ <- try (CreateService svc) (store_error (cr_TeamName body) (sc_Name c)) ;;
    gret (JSON 201 (OneService svc))).

Definition Get (serviceID : string) : Eff W SReply :=
  func (
    svc <- live_in (GetService serviceID) s_live ;;
    gret (JSON 200 (OneService svc))).

Definition Update (ctx : option Principal) (serviceID : string) (req : option updateRequest) : Eff W SReply :=
  func (
    p <- non_nil ctx Unauthorized ;;
    svc <- live_in (GetService serviceID) s_live ;;
    body <- non_nil req bad_body ;;
    return_if (negb (str_empty (default "" (ur_TeamID body))) && negb (str_empty (default "" (ur_TeamName body))))
      (BadRequest "provide either teamId or teamName, not both") ;;;
    let svc' := changed_service svc body (p_UserID p) in
    _ <- try (UpdateService svc') (store_error (s_TeamName svc') (s_Name svc')) ;;
    gret (JSON 200 (OneService svc'))).

Definition Delete (ctx : option Principal) (serviceID : string) : Eff W SReply :=
  func (
    p <- non_nil ctx Unauthorized ;;
    _ <- try (SoftDeleteService serviceID (p_UserID p)) HttpError ;;
    gret no_content).

Inductive service_request : Type :=
| SvList (q : listQuery)
| SvCreate (req : option createRequest)
| SvGet (serviceID : string)
| SvUpdate (serviceID : string) (req : option updateRequest)
| SvDelete (serviceID : string).

Definition serve (ctx : option Principal) (orgID : string) (q : service_request) : Eff W SReply :=
  match q with
  | SvList q => List_ orgID q
  | SvCreate b => Create ctx orgID b
  | SvGet id => Get id
  | SvUpdate id b => Update ctx id b
  | SvDelete id => Delete ctx id
  end.
End Handlers.
