(* ===== verification/ServiceLife.v ===== *)
(** * ServiceLife: what requests on services keep

    The invariant of the service tables, what a request may change of them, and that every
    statement and handler stays within it. *)

From S2P Require Import Prelude GoStrings Effects ApiSpec Authz Identity AuthStore OAuth Enterprise Dependencies Table Requests ServiceStore ServiceHandlers.
#[local] Open Scope nat_scope.
#[local] Open Scope string_scope.
Set Warnings "-clear-no-such-hyp".

Section Life.
Context `{Collation} `{UuidText} `{ServicePayloads} `{Ilike} `{UuidGen} `{HN : HttpClient} `{LimitDecoder}.
#[local] Abbreviation W := (World ServiceTables).
Implicit Types (d : ServiceTables) (s : Service).

(** ** The invariant *)

Record service_ok d (k : string) s : Prop := {
  so_id : s_ID s = k; so_org : s_OrgID s ∈ v_orgs d; so_checks : service_checks (s_Content s) = true;
  so_stored : stored_content (s_Content s) = Some (s_Content s); so_fks : service_fks (s_Content s) d = true
}.
Record services_ok d : Prop := {
  ok_services k s : v_services d !! k = Some s -> service_ok d k s;
  ok_names k k' s s' : v_services d !! k = Some s -> v_services d !! k' = Some s' -> s_live s = true ->
    same_name (s_OrgID s) (s_Name s) s' = true -> k = k';
  ok_deps k r i : v_deps d !! k = Some r -> sd_DependencyID r = Some i -> is_Some (v_services d !! i)
}.

(** ** What a request changes *)

Definition service_owner s : string * string * Z := (s_OrgID s, au_CreatedBy (s_Audit s), au_CreatedAt (s_Audit s)).
Definition keeps_service s s' : Prop := s_ID s' = s_ID s /\ stays service_owner s_live s s'.

(** At most the row of [id] changes, or it is a new one of the org [oid]. *)
Record changes (id : string) (oid : option string) d d' : Prop := {
  ch_orgs : v_orgs d' = v_orgs d; ch_folders : v_folders d' = v_folders d; ch_teams : v_teams d' = v_teams d;
  ch_services : all_kept keeps_service (v_services d) (v_services d');
  ch_others k : k <> id -> v_services d' !! k = v_services d !! k;
  ch_new s : v_services d !! id = None -> v_services d' !! id = Some s -> oid = Some (s_OrgID s);
  ch_deps : all_kept (fun r r' => r' = r \/ sd_DependencyID r = None /\ sd_DependencyID r' = Some id /\ oid = Some (sd_OrgID r))
    (v_deps d) (v_deps d')
}.
Lemma keeps_service_refl s : keeps_service s s.
Proof. split; [done|apply stays_refl]. Qed.
#[local] Hint Resolve keeps_service_refl : core.
Lemma keeps_service_trans s1 s2 s3 : keeps_service s1 s2 -> keeps_service s2 s3 -> keeps_service s1 s3.
Proof. intros [E1 S1] [E2 S2]. split; [congruence|by eapply stays_trans]. Qed.
Lemma service_changes_refl id oid d : changes id oid d d.
Proof. split; try done; [by apply all_kept_refl|congruence|]. apply all_kept_refl. by left. Qed.

(** A new row, or a live row changed in place. *)
Lemma changes_put id oid d s deps :
  (v_services d !! id = None -> oid = Some (s_OrgID s)) ->
  (forall s0, v_services d !! id = Some s0 -> keeps_service s0 s) ->
  all_kept (fun r r' => r' = r \/ sd_DependencyID r = None /\ sd_DependencyID r' = Some id /\ oid = Some (sd_OrgID r)) (v_deps d) deps ->
  changes id oid d (set_services d (<[id := s]> (v_services d)) deps).
Proof.
  intros Hn Hk Hd. split; cbn; try done.
  - by apply all_kept_insert.
  - intros k Hne. by rewrite lookup_insert_ne.
  - intros s' Hnone. rewrite lookup_insert_eq. intros [= <-]. auto.
Qed.

(** ** Statements *)

Lemma stored_content_kept c c' : stored_content c = Some c' -> stored_content c' = Some c'.
Proof.
  unfold stored_content. destruct (column (default "{}" (sc_Metadata c))) as [m|] eqn:Em; [|done].
  destruct (nullable (sc_DocLinks c)) as [l|] eqn:El; [|done]. cbn. destruct (_ && _) eqn:E; [|done].
  intros [= <-]. cbn. rewrite (column_idem _ _ Em), (nullable_kept _ _ El). cbn. by rewrite E.
Qed.
Lemma same_name_true oid n s : same_name oid n s = true <-> s_OrgID s = oid /\ s_Name s = n /\ s_live s = true.
Proof. unfold same_name. rewrite !andb_true_iff, !String.eqb_eq. tauto. Qed.
Lemma stored_name c c' : stored_content c = Some c' -> sc_Name c' = sc_Name c.
Proof.
  unfold stored_content. destruct (column _); [|done]. destruct (nullable _); [|done]. cbn.
  destruct (_ && _); [|done]. by intros [= <-].
Qed.

Lemma ok_put d id s deps :
  services_ok d -> service_ok d id s ->
  (forall k' s', k' <> id -> v_services d !! k' = Some s' -> s_live s = true -> same_name (s_OrgID s) (s_Name s) s' = false) ->
  (forall k r i, deps !! k = Some r -> sd_DependencyID r = Some i -> i = id \/ is_Some (v_services d !! i)) ->
  services_ok (set_services d (<[id := s]> (v_services d)) deps).
Proof.
  intros [Hs Hn _] Hk Hfree Hd. split; cbn.
  - intros k r [[<- <-]|[_ Hl]]%lookup_insert_Some; [destruct Hk|destruct (Hs k r Hl)]; by split.
  - intros k1 k2 s1 s2 [[<- <-]|[N1 L1]]%lookup_insert_Some [[<- <-]|[N2 L2]]%lookup_insert_Some Hl Hsame; [done| | |eauto].
    + by rewrite (Hfree k2 s2) in Hsame.
    + apply same_name_true in Hsame as (Ho & Hname & Hl').
      assert (same_name (s_OrgID s) (s_Name s) s1 = true) as Hx by (by apply same_name_true).
      by rewrite (Hfree k1 s1) in Hx.
  - intros k r i Hr Hi. destruct (Hd k r i Hr Hi) as [->|Hi']; [by rewrite lookup_insert_eq|auto].
Qed.

Section Step.
Context (d d' : ServiceTables) (now : Z).
Hypothesis Hok : services_ok d.

Lemma adopt_lookup s t k r' :
  adopt s t !! k = Some r' -> exists r, t !! k = Some r /\ r' = if adoptable s r then adopted s r else r.
Proof using.
  unfold adopt. rewrite lookup_update_where. destruct (t !! k) as [r|]; [|done]. cbn. intros [= <-]. eauto.
Qed.

Lemma create_service_step s :
  create_tx now s d = Ok d' ->
  services_ok d' /\ changes (s_ID s) (Some (s_OrgID s)) d d' /\ v_services d !! s_ID s = None /\
  exists c, stored_content (s_Content s) = Some c /\ v_services d' !! s_ID s = Some (created_service now s c).
Proof using Hok.
  unfold create_tx. past. bools. rename s0 into c, Heqo into Hc.
  match goal with Hx : v_services d !! s_ID s = None |- _ => rename Hx into Hnone end.
  split_and!; [| |done|by exists c; split; [|cbn; rewrite lookup_insert_eq]].
  - apply ok_put; [done| | |].
    + split; cbn; [done|eapply bool_decide_eq_true_1; eassumption|done|by eapply stored_content_kept|done].
    + intros k' s' _ Hs' _. unfold s_Name. cbn. rewrite (stored_name _ _ Hc).
      match goal with Hx : exists_row _ _ = false |- _ => by apply (proj1 (exists_row_false _ _) Hx k' s') end.
    + intros k r i Hr Hi. destruct (String.eqb (sc_Status c) "active"); [|right; by eapply ok_deps].
      apply adopt_lookup in Hr as (r0 & Hr0 & ->). destruct (adoptable _ r0); cbn in Hi; [left; congruence|].
      right. by eapply ok_deps.
  - apply changes_put; [done|congruence|]. destruct (String.eqb (sc_Status c) "active"); [|by apply all_kept_refl; left].
    intros k r Hr. exists (if adoptable (created_service now s c) r then adopted (created_service now s c) r else r).
    split; [unfold adopt; by rewrite lookup_update_where, Hr|].
    destruct (adoptable _ r) eqn:Ha; [right|by left]. unfold adoptable in Ha. rewrite !andb_true_iff in Ha. cbn in Ha.
    destruct_and!. cbn. split_and!; [by apply found_false, negb_true_iff|done|]. f_equal. symmetry. by apply String.eqb_eq.
Qed.

Lemma update_service_step s oid :
  (forall old, v_services d !! s_ID s = Some old -> s_ID old = s_ID s) ->
  update_service now s d = Ok d' -> services_ok d' /\ changes (s_ID s) oid d d'.
Proof using Hok.
  intros Hid. unfold update_service. past; try (split; [done|apply service_changes_refl]). bools.
  rename s0 into c, Heqo into Hc, s1 into old, Heqo0 into Hold. destruct (ok_services _ Hok _ _ Hold) as [_ Horg _ _ _]. split.
  - apply ok_put; [done| | |].
    + split; cbn; [by apply Hid|done|done|by eapply stored_content_kept|done].
    + intros k' s' Hne Hs' _. unfold s_Name. cbn. rewrite (stored_name _ _ Hc).
      match goal with Hx : other_row _ _ _ = false |- _ => by apply (proj1 (other_row_false _ _ _) Hx k' s') end.
    + intros k r i Hr Hi. right. by eapply ok_deps.
  - apply changes_put; [congruence| |apply all_kept_refl; by left]. intros s0 [= <-]%(eq_trans (eq_sym Hold)).
    split; [done|]. split; [done|]. congruence.
Qed.

Lemma delete_service_step id by_ oid :
  delete_service now id by_ d = Ok d' -> services_ok d' /\ changes id oid d d'.
Proof using Hok.
  unfold delete_service. past; try (split; [done|apply service_changes_refl]).
  destruct (ok_services _ Hok _ _ Heqo) as [Hid Horg Hck Hst Hfk]. split.
  - apply ok_put; [done|by split|done|]. intros k r i Hr Hi. right. by eapply ok_deps.
  - apply changes_put; [congruence| |apply all_kept_refl; by left]. intros s0 [= <-]%(eq_trans (eq_sym Heqo)).
    split; [done|]. split; [done|]. congruence.
Qed.
End Step.

(** ** Store calls *)

Lemma ListServices_cases oid p w r w' :
  ListServices oid p w = (r, w') ->
  w_db w' = w_db w /\
  forall l n, r = Ok (l, n) -> forallb valid_uuid (list_ids oid p) = true /\ l = page p (listed_all oid p (w_db w)) /\
    n = Z.of_nat (length (select (in_list oid p) (v_services (w_db w)))).
Proof.
  intros E. destruct (two_queries (list_ids oid p) _ _ (fun total out => (out, total)) w r w' E) as [Hd Hr].
  split; [done|]. intros l n Ho. by destruct (Hr _ Ho) as [Hv [= -> ->]].
Qed.
Lemma ends_list (P : SReply -> W -> Prop) Q d0 oid p w :
  quiet d0 P -> w_db w = d0 ->
  (forall w', w_db w' = d0 ->
     Q (page p (listed_all oid p d0), Z.of_nat (length (select (in_list oid p) (v_services d0)))) w') ->
  wp (try (ListServices oid p) HttpError) P Q w.
Proof.
  intros Hq Hw HQ. apply wp_try. destruct (ListServices oid p w) as [[[l n]|e] w'] eqn:E; apply ListServices_cases in E as [Hd Hr].
  - destruct (Hr l n eq_refl) as (_ & -> & ->). rewrite Hw. apply HQ. congruence.
  - apply Hq; [apply HttpError_refused|congruence].
Qed.

(** The service with the team its [TeamName] names. *)
Definition team_of s d : result store_err Service :=
  if str_empty (default "" (s_TeamID s)) && negb (str_empty (s_TeamName s)) then
    match select_one (named_team (s_OrgID s) (s_TeamName s)) (v_teams d) with
    | Some t => Ok (with_team s (Some (t_ID t)))
    | None => Err ErrTeamNotFound
    end
  else Ok s.
Lemma team_resolved_wp s P Q w :
  (forall e w', w_db w' = w_db w -> P (Err e) w') ->
  (forall s' w', team_of s (w_db w) = Ok s' -> w_db w' = w_db w -> Q s' w') ->
  wp (team_resolved s) P Q w.
Proof.
  intros HP HQ. unfold team_resolved, team_of in *. destruct (_ && _); [|by apply wp_ret, HQ].
  rewrite wp_bind, wp_try. destruct (resolveTeamID _ _ w) as [[id|e] w'] eqn:E; apply scan_cases in E as [Hd Ha]; [|by apply HP].
  destruct (Ha id eq_refl) as [_ Hid]. apply wp_ret, HQ; [|done]. by destruct (select_one _ _); simplify_eq.
Qed.
(** A statement on a service whose team is resolved first. *)
Lemma team_write_cases (g : Z -> Service -> ServiceTables -> result store_err ServiceTables) s w r w' :
  func (s' <- team_resolved s ;; now <- call time_now ;; call (exec (g now s'))) w = (r, w') ->
  (exists e, r = Err e /\ w_db w' = w_db w) \/
  (exists s' now, r = Ok tt /\ team_of s (w_db w) = Ok s' /\ g now s' (w_db w) = Ok (w_db w')).
Proof.
  intros E. replace r with (func (s' <- team_resolved s ;; now <- call time_now ;; call (exec (g now s'))) w).1 by (by rewrite E).
  replace w' with (func (s' <- team_resolved s ;; now <- call time_now ;; call (exec (g now s'))) w).2 by (by rewrite E). clear E.
  apply (wp_func _ (fun r w' => (exists e, r = Err e /\ w_db w' = w_db w) \/
    (exists s' now, r = Ok tt /\ team_of s (w_db w) = Ok s' /\ g now s' (w_db w) = Ok (w_db w')))), wp_bind, team_resolved_wp; [eauto|].
  intros s' w1 Ht Hd. rewrite wp_bind, wp_call, wp_call. pose proof (time_now_db w1) as Hd1.
  destruct (exec _ _) as [r2 w2] eqn:E. apply exec_cases in E as [(e & -> & Hd2)|(-> & E)]; cbn.
  - left. exists e. split; [done|cbn in *; congruence].
  - right. rewrite Hd1, Hd in E. eauto.
Qed.

(** ** Handlers *)

Definition reads (q : service_request) : bool := match q with SvList _ | SvGet _ => true | _ => false end.
(** The row a request is about: that of its path, or a new one. *)
Definition subject (q : service_request) (id : string) d : Prop :=
  match q with SvCreate _ => v_services d !! id = None | SvUpdate i _ | SvDelete i => id = i | _ => True end.
Definition creates (q : service_request) (oid : string) : option string := match q with SvCreate _ => Some oid | _ => None end.
Definition shown (q : service_request) (oid : string) d (b : service_body) : Prop :=
  match q, b with
  | SvList _, ServiceList l _ => Forall (fun s => s_OrgID s = oid /\ s_live s = true) l
  | SvGet id, OneService s => v_services d !! id = Some s /\ s_live s = true
  | SvCreate _, OneService s => s_OrgID s = oid
  | SvUpdate id _, OneService s => s_ID s = id
  | _, _ => False
  end.
Record post (q : service_request) (oid : string) d0 (r : SReply) (w' : W) : Prop := {
  po_ok : services_ok (w_db w');
  po_changes : exists id, subject q id d0 /\ changes id (creates q oid) d0 (w_db w');
  po_atomic : succeeded r = false \/ reads q = true -> w_db w' = d0;
  po_answer : match payload r with Json b => shown q oid d0 b | _ => True end
}.

Section Serve.
Context (ent : option Client) (ctx : option Principal) (oid : string) (w : W).
Hypothesis Hok : services_ok (w_db w).

Lemma some_subject q : exists id, subject q id (w_db w).
Proof using.
  destruct q as [q|b|id|id b|id]; cbn; [by exists ""| |by exists ""|by exists id|by exists id].
  exists (fresh (dom (v_services (w_db w)))). apply not_elem_of_dom, is_fresh.
Qed.
Lemma service_post_quiet q : quiet (w_db w) (post q oid (w_db w)).
Proof using Hok.
  intros r w' Hr Hd. split; [congruence| |done|].
  - destruct (some_subject q) as [id Hid]. exists id. split; [done|]. rewrite Hd. apply service_changes_refl.
  - apply andb_true_iff in Hr as [_ Hr]. by destruct (payload r).
Qed.
Lemma service_post_read q st b w' :
  reads q = true -> shown q oid (w_db w) b -> w_db w' = w_db w -> post q oid (w_db w) (JSON st b) w'.
Proof using Hok.
  intros Hq Hb Hd. split; [congruence| |done|done]. destruct (some_subject q) as [id Hid]. exists id. split; [done|].
  rewrite Hd. apply service_changes_refl.
Qed.
Lemma store_error_refused t n e : refused (store_error t n e) = true.
Proof using. by destruct e. Qed.

Lemma check_limit_ends q {A} (m : Go W SReply A) Q w1 :
  w_db w1 = w_db w -> (forall w', w_db w' = w_db w -> wp m (post q oid (w_db w)) Q w') ->
  wp (check_limit ent oid ;;; m) (post q oid (w_db w)) Q w1.
Proof using Hok.
  intros Hw HQ. unfold check_limit. destruct ent as [c|]; [|by apply wp_bind, wp_ret, HQ].
  apply wp_bind, wp_bind. eapply ends_list; [apply service_post_quiet|done|]. intros w2 Hw2. cbn [fst snd].
  destruct (ResourceLimitReached (B := service_body) (Some c) oid "service" _ sl_MaxServices) as [r|] eqn:E; [|by apply wp_ret, HQ].
  apply service_post_quiet; [|done]. unfold ResourceLimitReached in E. destruct (SeatLimit c oid); [|done].
  destruct (_ || _); [done|]. by injection E as <-.
Qed.

Lemma team_of_same s d s' : team_of s d = Ok s' -> s_ID s' = s_ID s /\ s_OrgID s' = s_OrgID s.
Proof using. unfold team_of. destruct (_ && _); [destruct (select_one _ _); [|done]|]; by intros [= <-]. Qed.

#[local] Ltac quiets q := pose proof (service_post_quiet q) as Hq;
  apply (func_ends (post q oid (w_db w))); repeat (cbv zeta; ends_step); cbv zeta.

Lemma serve_service_post q : post q oid (w_db w) (serve ent ctx oid q w).1 (serve ent ctx oid q w).2.
Proof using Hok.
  destruct q as [q|b|id|id b|id]; cbn [serve].
  - apply (func_ends (post (SvList q) oid (w_db w))), wp_bind. eapply ends_list; [apply service_post_quiet|done|].
    intros w' Hd. apply wp_ret, service_post_read; [done| |done]. cbn. unfold page.
    assert (Forall (fun s => s_OrgID s = oid /\ s_live s = true) (listed_all oid (list_params q) (w_db w))) as Hall.
    { apply listed_rows. intros k s _ Hs. unfold in_list in Hs. rewrite !andb_true_iff in Hs. destruct_and!.
      split; [by apply String.eqb_eq|done]. }
    case_match; [by apply Forall_take, Forall_drop|done].
  - quiets (SvCreate b). apply check_limit_ends; [done|]. intros w1 Hw1. repeat ends_step. cbv zeta.
    rewrite wp_bind, wp_try. destruct (CreateService _ _) as [r2 w4] eqn:E.
    apply team_write_cases in E as [(e & -> & Hd)|(s' & now & -> & Ht & E)].
    { apply Hq; [apply store_error_refused|congruence]. }
    apply team_of_same in Ht as [Hid Horg]. cbn in Hid, Horg.
    match goal with Hw : w_db ?w0 = w_db w, Hx : create_tx now s' (w_db ?w0) = _ |- _ => rewrite Hw in Hx end.
    apply create_service_step in E as (Hok' & Hch & Hnone & _); [|done]. rewrite Hid, Horg in *.
    apply wp_ret. split; [done|eauto|by intros [|]|done].
  - quiets (SvGet id). apply wp_ret, service_post_read; [done| |done]. by split.
  - quiets (SvUpdate id b). rewrite wp_bind, wp_try. destruct (UpdateService _ _) as [r2 w4] eqn:E.
    apply team_write_cases in E as [(e & -> & Hd)|(s' & now & -> & Ht & E)].
    { apply Hq; [apply store_error_refused|congruence]. }
    apply team_of_same in Ht as [Hid Horg]. cbn in Hid, Horg.
    match goal with Hw : w_db ?w0 = w_db w, Hx : update_service now s' (w_db ?w0) = _ |- _ => rewrite Hw in Hx end.
    match goal with Hx : v_services (w_db w) !! id = Some ?x |- _ =>
      destruct (ok_services _ Hok id x Hx) as [Hx' _ _ _ _]; rewrite Hx' in Hid end.
    apply (update_service_step _ _ _ Hok _ None) in E as [Hok' Hch]; [|by intros old Hold; apply (ok_services _ Hok _ _ Hold)].
    rewrite Hid in Hch. apply wp_ret. split; [done|by exists id|by intros [|]|done].
  - quiets (SvDelete id). eapply ends_write; [done|done|]. intros now w2 Hd.
    apply (delete_service_step _ _ _ Hok _ _ None) in Hd as [Hok' Hch]. split; [done|by exists id|by intros [|]|done].
Qed.
End Serve.
End Life.
