(* ===== verification/ServiceFlow.v ===== *)
(** * ServiceFlow: the properties of services

    Requests change the row they name or add one of the organization, and keep the tables
    well formed; the plan's limit is kept; creating a service adopts the dependencies that
    name it; pages partition the list. *)

From S2P Require Import Prelude GoStrings Effects ApiSpec Authz Identity AuthStore OAuth Enterprise Dependencies Table Requests ServiceStore ServiceHandlers ServiceLife Faults.
From Stdlib Require Import Sorting.Sorted.
#[local] Open Scope nat_scope.
#[local] Open Scope string_scope.
Set Warnings "-clear-no-such-hyp".

Section Gate.
Context `{Collation} `{UuidText} `{ServicePayloads} `{Ilike} `{UuidGen} `{HN : HttpClient} `{LimitDecoder}.
#[local] Abbreviation W := (World ServiceTables).
Implicit Types (d : ServiceTables) (s : Service) (w : W).

(** ** The plan's limit *)

Definition is_live_of (oid : string) (ks : string * Service) : Prop := s_OrgID ks.2 = oid /\ s_live ks.2 = true.
#[local] Instance is_live_of_dec oid ks : Decision (is_live_of oid ks).
Proof. unfold is_live_of. apply _. Defined.
(** The live services of an org. *)
Definition live_services (oid : string) d : gmap string Service := base.filter (is_live_of oid) (v_services d).

Lemma live_services_count oid d :
  length (select (in_list oid count_params) (v_services d)) = size (live_services oid d).
Proof.
  apply size_select. intros k s. unfold is_live_of, in_list. cbn. rewrite !andb_true_r, andb_true_iff, String.eqb_eq. done.
Qed.

(** A row that was there and is live after a request was live before. *)
Lemma live_before oid id o d d' k s' :
  changes id o d d' -> live_services oid d' !! k = Some s' ->
  is_Some (live_services oid d !! k) \/ k = id /\ v_services d !! id = None /\ o = Some oid.
Proof.
  intros [_ _ _ Hk Ho Hn _] [Hs' [Horg Hl]]%map_lookup_filter_Some. cbn in *.
  destruct (v_services d !! k) as [s|] eqn:Hs.
  - left. exists s. apply map_lookup_filter_Some. split; [done|]. cbn.
    destruct (Hk k s Hs) as (s1 & [= <-]%(eq_trans (eq_sym Hs')) & _ & Eo & El). split; [injection Eo as Eo _ _; cbn; congruence|].
    destruct (s_live s) eqn:E; [done|]. by rewrite (El eq_refl) in Hl; rewrite E in Hl.
  - right. destruct (decide (k = id)) as [->|Hne]; [|rewrite (Ho k Hne) in Hs'; congruence].
    split_and!; [done|done|]. rewrite (Hn s' Hs Hs'). congruence.
Qed.
Lemma live_services_le oid id o d d' :
  changes id o d d' -> o <> Some oid ->
  size (live_services oid d') <= size (live_services oid d).
Proof.
  intros Hch Hne. rewrite <-!size_dom. apply subseteq_size. intros k [s' Hs']%elem_of_dom.
  destruct (live_before _ _ _ _ _ _ _ Hch Hs') as [Hk|(-> & Hn & Ho)]; [by apply elem_of_dom|done].
Qed.
Lemma live_services_S oid id d d' :
  changes id (Some oid) d d' -> size (live_services oid d') <= S (size (live_services oid d)).
Proof.
  intros Hch. rewrite <-!size_dom. transitivity (size ({[id]} ∪ dom (live_services oid d))).
  - apply subseteq_size. intros k [s' Hs']%elem_of_dom.
    destruct (live_before _ _ _ _ _ _ _ Hch Hs') as [Hk|(-> & _)]; [|set_solver].
    apply elem_of_union. right. by apply elem_of_dom.
  - rewrite size_union_alt, size_singleton. apply le_n_S, subseteq_size. set_solver.
Qed.

(** The gate of the plan lets a request pass below the limit only. *)
Lemma gate_below {B} ent oid name n limit :
  ResourceLimitReached (B := B) ent oid name n limit = None ->
  forall max, limit_in_force ent oid limit = Some max -> (n < max)%Z.
Proof.
  unfold ResourceLimitReached, limit_in_force. destruct ent as [c|]; [|done]. destruct (SeatLimit c oid) as [info|]; [|done].
  cbv zeta. intros Hg max. destruct (limit info <? 0)%Z; [done|]. intros [= <-]. cbn in Hg.
  destruct (n <? limit info)%Z eqn:E; [by apply Z.ltb_lt|done].
Qed.
Lemma gate_refused {B} ent oid name n limit r :
  ResourceLimitReached (B := B) ent oid name n limit = Some r -> refused r = true.
Proof.
  unfold ResourceLimitReached. destruct ent as [c|]; [|done]. destruct (SeatLimit c oid); [|done].
  cbv zeta. destruct (_ || _); [done|]. by intros [= <-].
Qed.
Definition below_limit (ent : option Client) (oid : string) d : Prop :=
  forall max, limit_in_force ent oid sl_MaxServices = Some max -> (Z.of_nat (size (live_services oid d)) < max)%Z.
Lemma ends_check_limit ent oid d0 (P : SReply -> W -> Prop) {A} (m : Go W SReply A) (Q : A -> W -> Prop) w :
  quiet d0 P -> w_db w = d0 -> (forall w', w_db w' = d0 -> below_limit ent oid d0 -> wp m P Q w') ->
  wp (check_limit ent oid ;;; m) P Q w.
Proof.
  intros Hq Hw HQ. unfold check_limit. destruct ent as [c|]; [|by apply wp_bind, wp_ret, HQ].
  apply wp_bind, wp_bind. eapply ends_list; [exact Hq|done|]. intros w1 Hw1. cbn [fst snd]. rewrite live_services_count.
  destruct (ResourceLimitReached _ _ _ _ _) as [r|] eqn:E.
  - apply Hq; [by eapply gate_refused|done].
  - apply wp_ret, HQ; [done|]. intros max. by apply (gate_below _ _ _ _ _ E).
Qed.

Definition requested (p : Principal) (oid id : string) (now : Z) (b : createRequest) : Service :=
  mkService id oid (cr_TeamName b) (with_defaults (cr_Content b))
    (mkAudit (p_UserID p) None (cr_CommitHash b) None now now None None).
Lemma Create_run ent ctx oid req w r w' :
  Create ent ctx oid req w = (r, w') -> succeeded r = true ->
  exists p b id t s now, ctx = Some p /\ req = Some b /\ r = JSON 201 (OneService (requested p oid id t b)) /\
    (str_empty (cr_TeamName b) = false -> str_empty (default "" (sc_TeamID (cr_Content b))) = true) /\
    (forall max, limit_in_force ent oid sl_MaxServices = Some max -> (Z.of_nat (size (live_services oid (w_db w))) < max)%Z) /\
    team_of (requested p oid id t b) (w_db w) = Ok s /\ create_tx now s (w_db w) = Ok (w_db w').
Proof.
  intros E. replace r with (Create ent ctx oid req w).1 by (by rewrite E).
  replace w' with (Create ent ctx oid req w).2 by (by rewrite E). clear E.
  pattern (Create ent ctx oid req w).1, (Create ent ctx oid req w).2. apply func_ends.
  match goal with |- wp _ ?P _ _ => assert (quiet (w_db w) P) as Hq end.
  { intros r0 w0 [Hn%negb_true_iff _]%andb_true_iff _ Hs. congruence. }
  repeat (cbv zeta; ends_step). cbv zeta. eapply ends_check_limit; [exact Hq|done|]. intros w1 Hw1 Hlim.
  repeat ends_step. cbv zeta. rewrite wp_bind, wp_try. destruct (CreateService _ _) as [r2 w4] eqn:E.
  apply team_write_cases in E as [(e & -> & Hd)|(s & now & -> & Ht & E)].
  { apply Hq; [apply store_error_refused|congruence]. }
  match goal with Hw : w_db ?w0 = w_db w, Hx : create_tx now s (w_db ?w0) = _ |- _ => rewrite Hw in Hx, Ht end.
  apply wp_ret. intros _. eexists _, _, _, _, s, now. split_and!; try done. intros Hn.
  match goal with Hx : negb _ && negb _ = false |- _ => by rewrite Hn, andb_true_r in Hx; apply negb_false_iff in Hx end.
Qed.

End Gate.

Section Visits.
Context `{Collation} `{UuidText} `{ServicePayloads} `{Ilike} `{UuidGen} `{LimitDecoder}.
#[local] Abbreviation W := (World ServiceTables).
Implicit Types (d : ServiceTables) (s : Service) (w : W).

(** ** Requests *)

(** A request, and the network while it is served: what the billing service
    answers may change from one request to the next, or not come at all. *)
Record visit := mkVisit {
  vi_Network : HttpClient; vi_Context : option Principal; vi_OrgID : string; vi_Request : service_request
}.
Definition serve_over (net : HttpClient) (ent : option Client) ctx oid q : Eff W SReply :=
  serve (HN := net) ent ctx oid q.
Definition served (ent : option Client) (rqs : list visit) w : W :=
  fold_left (fun w v => (serve_over (vi_Network v) ent (vi_Context v) (vi_OrgID v) (vi_Request v) w).2) rqs w.

Lemma services_served ent rqs w :
  services_ok (w_db w) ->
  services_ok (w_db (served ent rqs w)) /\
  all_kept keeps_service (v_services (w_db w)) (v_services (w_db (served ent rqs w))).
Proof.
  revert w. induction rqs as [|[net ctx oid q] rqs IH]; intros w Hok; cbn.
  { split; [done|apply all_kept_refl, keeps_service_refl]. }
  pose proof (serve_service_post (HN := net) ent ctx oid w Hok q) as [Hok' (id & _ & Hch) _ _].
  destruct (IH _ Hok') as [Ho Hk]. split; [done|]. eapply all_kept_trans; [apply keeps_service_trans|apply Hch|done].
Qed.

(** (C23) Whatever requests are served, in whatever order, by whichever callers
    and whatever the billing service answers to each, the service tables stay well formed: each row lies under its id, is of an org
    that exists and refers to a folder and a team that exist, satisfies the checks of the
    table with payloads as their columns give them back; no two live services of an org
    share a name; and a dependency that is resolved leads to a service.  No row disappears,
    changes its org or its creator, and what was deleted stays as it was. *)
Theorem reachable_services_ok ent rqs w :
  services_ok (w_db w) ->
  services_ok (w_db (served ent rqs w)) /\
  forall k s, v_services (w_db w) !! k = Some s -> exists s', v_services (w_db (served ent rqs w)) !! k = Some s' /\
    s_ID s' = s_ID s /\ service_owner s' = service_owner s /\ (s_live s = false -> s' = s).
Proof. intros Hok. destruct (services_served ent rqs w Hok) as [Ho Hk]. split; [done|exact Hk]. Qed.

(** The limit on services of [oid] in force for a visit: none when the billing
    service does not answer, or the plan has none. *)
Definition limit_at (ent : option Client) (oid : string) (v : visit) : option Z :=
  limit_in_force (HN := vi_Network v) ent oid sl_MaxServices.
(** Requests to create a service of [oid] that no limit holds back. *)
Definition unlimited (ent : option Client) (oid : string) (v : visit) : bool :=
  bool_decide (creates (vi_Request v) (vi_OrgID v) = Some oid) && negb (found (limit_at ent oid v)).

(** (C24) The plan's limit on services, when the answers of the billing service may
    change or fail to come with every request.  Where the answers that come allow
    at most [max] services, an org ends with no more than [max], or than it had,
    and those created while no limit was in force: the gate fails open, so that
    each such request may add one.  If the billing service answers every time
    with a limit, an org within [max] stays within it. *)
Theorem service_limit_kept ent oid rqs w max :
  services_ok (w_db w) -> (forall v m, v ∈ rqs -> limit_at ent oid v = Some m -> (m <= max)%Z) ->
  (Z.of_nat (size (live_services oid (w_db (served ent rqs w)))) <=
   Z.max max (Z.of_nat (size (live_services oid (w_db w)))) + Z.of_nat (length (List.filter (unlimited ent oid) rqs)))%Z.
Proof.
  revert w. induction rqs as [|v rqs IH]; intros w Hok Hmax; cbn [served fold_left List.filter length]; [lia|].
  specialize (IH (serve_over (vi_Network v) ent (vi_Context v) (vi_OrgID v) (vi_Request v) w).2).
  pose proof (serve_service_post (HN := vi_Network v) ent (vi_Context v) (vi_OrgID v) w Hok (vi_Request v)) as Hp.
  specialize (IH ltac:(apply Hp) ltac:(intros u m Hu; apply Hmax; by right)). unfold served in IH.
  set (w1 := (serve_over _ _ _ _ _ w).2) in *.
  assert (Z.of_nat (size (live_services oid (w_db w1))) <= (if unlimited ent oid v then 1 else 0) +
    Z.max max (Z.of_nat (size (live_services oid (w_db w)))))%Z as Hstep; [|destruct (unlimited ent oid v); cbn [length]; lia].
  clear IH. assert (forall m, limit_at ent oid v = Some m -> (m <= max)%Z) as Hm by (intros m; apply Hmax; by left).
  destruct v as [net ctx o q]. unfold unlimited, limit_at in *. cbn [vi_Network vi_Context vi_OrgID vi_Request] in *.
  destruct Hp as [_ (id & _ & Hch) Ha _]. unfold w1, serve_over. destruct (decide (creates q o = Some oid)) as [Hq|Hne].
  - destruct q as [q|b|i|i b|i]; try done. cbn [creates] in Hq. injection Hq as ->. rewrite bool_decide_true by done. cbn [andb].
    cbn [serve] in *. destruct (Create (HN := net) ent ctx oid b w) as [r w'] eqn:E. cbn [fst snd] in *. destruct (succeeded r) eqn:Hs.
    + destruct (Create_run (HN := net) _ _ _ _ _ _ _ E Hs) as (_ & _ & _ & _ & _ & _ & _ & _ & _ & _ & Hlim & _).
      pose proof (live_services_S _ _ _ _ Hch). destruct (limit_in_force _ _ _) as [m|]; cbn [found negb]; [|lia].
      pose proof (Hlim m eq_refl). pose proof (Hm m eq_refl). lia.
    + rewrite Ha by (by left). destruct (negb _); lia.
  - rewrite bool_decide_false by done. cbn [andb]. pose proof (live_services_le _ _ _ _ _ Hch Hne). lia.
Qed.

End Visits.

Section Flow.
Context `{Collation} `{UuidText} `{ServicePayloads} `{Ilike} `{UuidGen} `{HN : HttpClient} `{LimitDecoder}.
#[local] Abbreviation W := (World ServiceTables).
Implicit Types (d : ServiceTables) (s : Service) (w : W).

(** ** A new service *)

Lemma create_tx_run now s d d' :
  create_tx now s d = Ok d' ->
  exists c, stored_content (s_Content s) = Some c /\ d' = set_services d (<[s_ID s := created_service now s c]> (v_services d))
     (if String.eqb (sc_Status c) "active" then adopt (created_service now s c) (v_deps d) else v_deps d) /\
    v_services d !! s_ID s = None /\ exists_row (same_name (s_OrgID s) (s_Name s)) (v_services d) = false /\ service_fks c d = true.
Proof. unfold create_tx. past. bools. eexists. split_and!; try done. Qed.
Lemma stored_parts c c' :
  stored_content c = Some c' -> sc_Name c' = sc_Name c /\ sc_Status c' = sc_Status c /\ sc_TeamID c' = sc_TeamID c.
Proof.
  unfold stored_content. destruct (column _); [|done]. destruct (nullable _); [|done]. cbn.
  destruct (_ && _); [|done]. by intros [= <-].
Qed.
Lemma team_of_parts s d s' :
  team_of s d = Ok s' ->
  s_ID s' = s_ID s /\ s_OrgID s' = s_OrgID s /\ s_Name s' = s_Name s /\ s_Audit s' = s_Audit s /\
  sc_Status (s_Content s') = sc_Status (s_Content s) /\
  (str_empty (default "" (s_TeamID s)) = true -> str_empty (s_TeamName s) = false ->
   exists k t, v_teams d !! k = Some t /\ t_OrgID t = s_OrgID s /\ t_Name t = s_TeamName s /\ s_TeamID s' = Some (t_ID t)).
Proof.
  unfold team_of. destruct (_ && _) eqn:E.
  - destruct (select_one _ _) as [t|] eqn:Et; [|done]. intros [= <-]. apply select_one_Some in Et as [Hk Hp].
    unfold named_team in Hp. apply andb_true_iff in Hp as [Ho%String.eqb_eq Hn%String.eqb_eq].
    split_and!; try done. destruct Hk as [k Hk]. by exists k, t.
  - intros [= <-]. split_and!; try done. intros E1 E2. by rewrite E1, E2 in E.
Qed.

(** What is declared on a name and leads nowhere. *)
Definition awaits (oid name id : string) (x : ServiceDependency) : Prop :=
  sd_OrgID x = oid /\ sd_DependencyName x = name /\ sd_DependencyID x = None /\ sd_ServiceID x <> id /\ sd_live x = true.
Lemma adoptable_iff s x : adoptable s x = true <-> awaits (s_OrgID s) (s_Name s) (s_ID s) x.
Proof.
  unfold adoptable, awaits. rewrite !andb_true_iff, !String.eqb_eq, !negb_true_iff, String.eqb_neq, found_false. tauto.
Qed.
(** Of the dependencies, those that await an active service lead to it, and the others stay. *)
Definition adoption (active : bool) s (deps deps' : gmap string ServiceDependency) : Prop :=
  (forall k, deps' !! k = None <-> deps !! k = None) /\
  forall k x, deps !! k = Some x -> exists x', deps' !! k = Some x' /\
    (active = true /\ awaits (s_OrgID s) (s_Name s) (s_ID s) x -> x' = adopted s x /\ sd_DependencyID x' = Some (s_ID s)) /\
    (~ (active = true /\ awaits (s_OrgID s) (s_Name s) (s_ID s) x) -> x' = x).
Lemma adopt_adoption s active deps : adoption active s deps (if active then adopt s deps else deps).
Proof.
  destruct active; split; [intros k; unfold adopt; rewrite lookup_update_where; apply fmap_None| |done|].
  - intros k x Hx. unfold adopt. rewrite lookup_update_where, Hx. eexists. split; [done|]. cbn.
    split; [by intros [_ ->%adoptable_iff]|]. intros Hn. destruct (adoptable s x) eqn:Ha; [|done].
    destruct Hn. split; [done|by apply adoptable_iff].
  - intros k x Hx. exists x. split_and!; [done|by intros [Ha _]|done].
Qed.

(** The columns of a row are what the body said, with its defaults; those of JSON as
    the database gives them back. *)
Definition row_of_body (b : createRequest) (row : Service) : Prop :=
  let c := cr_Content b in
  let rc := s_Content row in
  sc_FolderID rc = sc_FolderID c /\ sc_Name rc = sc_Name c /\ sc_Description rc = sc_Description c /\
  sc_Status rc = (if str_empty (sc_Status c) then "active" else sc_Status c) /\
  sc_Tier rc = (if str_empty (sc_Tier c) then "tier3" else sc_Tier c) /\
  sc_Category rc = sc_Category c /\ sc_Language rc = sc_Language c /\ sc_GitRepoURL rc = sc_GitRepoURL c /\
  sc_JiraProjectURL rc = sc_JiraProjectURL c /\ sc_SlackChannelURL rc = sc_SlackChannelURL c /\
  sc_Labels rc = Some (default [] (sc_Labels c)) /\ column (default "{}" (sc_Metadata c)) = sc_Metadata rc /\
  nullable (sc_DocLinks c) = Some (sc_DocLinks rc) /\ au_CreatedByCommitHash (s_Audit row) = cr_CommitHash b.
Lemma stored_columns c c' :
  stored_content c = Some c' ->
  c' = mkServiceContent (sc_FolderID c) (sc_TeamID c) (sc_Name c) (sc_Description c) (sc_Status c) (sc_Tier c) (sc_Category c)
         (sc_Language c) (sc_GitRepoURL c) (sc_JiraProjectURL c) (sc_SlackChannelURL c) (sc_LastCommitSha c)
         (Some (default [] (sc_Labels c))) (sc_Metadata c') (sc_DocLinks c') /\
  column (default "{}" (sc_Metadata c)) = sc_Metadata c' /\ nullable (sc_DocLinks c) = Some (sc_DocLinks c').
Proof.
  unfold stored_content. destruct (column _); [|done]. destruct (nullable _); [|done]. cbn.
  destruct (_ && _); [|done]. by intros [= <-].
Qed.
Lemma team_of_content s d s' :
  team_of s d = Ok s' -> exists team, s' = with_team s team /\
    (str_empty (default "" (s_TeamID s)) = false \/ str_empty (s_TeamName s) = true -> team = s_TeamID s).
Proof.
  unfold team_of. destruct (_ && _) eqn:E.
  - destruct (select_one _ _); [|done]. intros [= <-]. eexists. split; [done|]. bool_to_prop.
    destruct (str_empty (s_TeamName s)); [done|]. intros [?|?]; congruence.
  - intros [= <-]. exists (s_TeamID s). split; [|done]. by destruct s as [? ? ? [] ?].
Qed.

(** (C25) A service that was created is there: under a new id, in the org of the
    path, live, made by the caller, with the columns of the body ([row_of_body]), among them
    a name that no live service of the org had.  Its team is the one the body's teamId gives,
    or else a team of the org with the name its teamName gives.  No row of another service
    changes.  When the service is active, every live dependency another service of the org
    declared on its name and that led nowhere leads to it from then on; when it is not, none
    does; and no other dependency changes. *)
Theorem CreateService_correct ent ctx oid req w r w' :
  services_ok (w_db w) -> Create ent ctx oid req w = (r, w') -> succeeded r = true ->
  exists p b s row, ctx = Some p /\ req = Some b /\ r = JSON 201 (OneService s) /\ s_OrgID s = oid /\
    s_Name s = sc_Name (cr_Content b) /\
    v_services (w_db w) !! s_ID s = None /\ v_services (w_db w') = <[s_ID s := row]> (v_services (w_db w)) /\
    s_ID row = s_ID s /\ s_OrgID row = oid /\ s_Name row = s_Name s /\ s_live row = true /\
    au_CreatedBy (s_Audit row) = p_UserID p /\ row_of_body b row /\
    (forall k x, v_services (w_db w) !! k = Some x -> same_name oid (s_Name s) x = false) /\
    (str_empty (cr_TeamName b) = true -> s_TeamID row = sc_TeamID (cr_Content b)) /\
    (str_empty (cr_TeamName b) = false -> exists k t, v_teams (w_db w) !! k = Some t /\ t_OrgID t = oid /\
       t_Name t = cr_TeamName b /\ s_TeamID row = Some (t_ID t)) /\
    adoption (String.eqb (sc_Status (s_Content row)) "active") row (v_deps (w_db w)) (v_deps (w_db w')).
Proof.
  intros Hok E Hs. destruct (Create_run _ _ _ _ _ _ _ E Hs) as (p & b & id & t & s & now & -> & -> & -> & Hone & _ & Ht & Hc).
  set (q := requested p oid id t b) in *.
  destruct (create_tx_run _ _ _ _ Hc) as (c & Hst & -> & Hnone & Hname & _).
  destruct (team_of_parts _ _ _ Ht) as (Eid & Eorg & En & Ea & Es & Hteam).
  destruct (team_of_content _ _ _ Ht) as (team & Hs' & Hsame).
  destruct (stored_columns _ _ Hst) as (Ec & Hmeta & Hlinks).
  assert (s_Name s = sc_Name (cr_Content b)) as Hn by (by rewrite En).
  exists p, b, q, (created_service now s c). rewrite Eid, Eorg in *. cbn [v_services v_deps set_services w_db].
  split_and!; try done.
  - unfold s_Name at 1. cbn. by rewrite Ec, Hs'.
  - cbn. by rewrite Ea.
  - unfold row_of_body. cbn [s_Content created_service s_Audit au_CreatedByCommitHash]. rewrite Hs' in Hmeta, Hlinks.
    rewrite <-Hmeta, <-Hlinks, Ea, Ec, Hs'. cbn. unfold or_old_str. by split_and!.
  - intros k x Hk. apply exists_row_false with (k := k) (r := x) in Hname; [|done]. by rewrite En in Hname.
  - intros Hb. unfold s_TeamID at 1. cbn. rewrite Ec, Hs'. cbn. apply Hsame. by right.
  - intros Hb. destruct (Hteam (Hone Hb) Hb) as (k & u & Hu & Hou & Hnu & Hid). exists k, u. split_and!; try done.
    unfold s_TeamID at 1. cbn. by rewrite Ec.
  - cbn. apply adopt_adoption.
Qed.

(** ** Services of other organizations *)

(** (C40) A live service is read and deleted by whoever may call the routes of any
    organization: the path's organization [o] need not be the service's, and no handler looks
    at it.  Without a failing statement the read answers with the row, and the delete marks it
    as deleted by the caller and changes no other. *)
Theorem service_crosses_tenants ent p o i s w :
  v_services (w_db w) !! i = Some s -> s_live s = true -> valid_uuid i = true -> valid_uuid (p_UserID p) = true ->
  true ∉ w_faults w ->
  (serve ent (Some p) o (SvGet i) w).1 = JSON 200 (OneService s) /\
  let '(r, w') := serve ent (Some p) o (SvDelete i) w in
  r = no_content /\ exists now, w_db w' =
    set_services (w_db w) (<[i := deleted_service now (p_UserID p) s]> (v_services (w_db w))) (v_deps (w_db w)).
Proof.
  intros Hs Hl Hi Hu Hf. split.
  - cbn [serve]. unfold Get, live_in, func, try, non_nil, return_if, gbind, call.
    destruct (GetService i w) as [r w1] eqn:E. apply db_op_split in E as [_ [(Hx & _)|E]]; [by eapply not_failed in Hx|].
    cbn in E. rewrite Hi in E. cbn in E. injection E as <- _. by rewrite Hs; cbn; rewrite Hl.
  - cbn [serve]. unfold Delete, SoftDeleteService, func, try, non_nil, gbind, call. cbn [gret].
    pose proof (time_now_later w) as Lt. pose proof (time_now_db w) as Dt. destruct (time_now w) as [now w1]. cbn in Lt, Dt |- *.
    destruct (exec _ w1) as [r w2] eqn:E. apply db_op_split in E as [_ [(Hx & _)|E]].
    { exfalso. eapply (not_failed w w2); [done|]. by eapply failed_after. }
    unfold delete_service in E. rewrite Hi, Hu, Dt, Hs, Hl in E. cbn in E. injection E as <- E. split; [done|]. by exists now.
Qed.

(** ** Pages *)

Lemma page_all (l : list Service) p : lp_Limit p = 0%Z -> page p l = l.
Proof. intros Hl. unfold page. by rewrite Hl. Qed.
Lemma pages_concat {A} (n k : nat) (l : list A) :
  0 < n -> length l <= k * n -> concat (map (fun i => take n (drop (i * n) l)) (seq 0 k)) = l.
Proof.
  intros Hn. revert l. induction k as [|k IH]; intros l Hk; cbn.
  - destruct l; [done|cbn in Hk; lia].
  - rewrite <-(take_drop n l) at 2. f_equal. rewrite <-seq_shift, map_map.
    rewrite <-(IH (drop n l)) by (rewrite length_drop; lia). f_equal. apply map_ext. intros i. rewrite drop_drop. f_equal; f_equal; lia.
Qed.

(** The query with another page. *)
Definition with_page (p : ListParams) (limit offset : Z) : ListParams :=
  mkListParams (lp_SortBy p) (lp_SortDir p) limit offset (lp_FolderID p) (lp_TeamID p) (lp_Search p) (lp_ExactName p).

Lemma sort_col_strict b : StrictWeak (sort_col b).
Proof. unfold sort_col. repeat case_match; apply _. Qed.
#[local] Existing Instance sort_col_strict.
Lemma list_order_strict p : StrictWeak (list_order p).
Proof. unfold list_order. destruct (descending p); apply _. Qed.
#[local] Existing Instance list_order_strict.

(** (C32) Listing the services of an org answers with all the live ones that meet
    the filters, each once, in the order asked for, or with the page asked for, and with
    their number; and whatever the page size, the pages put together are the whole list. *)
Theorem pages_correct oid p w l n w' :
  services_ok (w_db w) -> ListServices oid p w = (Ok (l, n), w') ->
  let full := listed_all oid p (w_db w) in
  w_db w' = w_db w /\ n = Z.of_nat (length full) /\
  (forall s, s ∈ full <-> (exists k, v_services (w_db w) !! k = Some s) /\ in_list oid p s = true) /\
  StronglySorted (fun x y => list_order p x y = true) full /\
  l = (if (0 <? lp_Limit p)%Z then take (Z.to_nat (lp_Limit p)) (drop (Z.to_nat (lp_Offset p)) full) else full) /\
  forall size pages, 0 < size -> length full <= pages * size ->
    concat (map (fun i => page (with_page p (Z.of_nat size) (Z.of_nat (i * size)))
                            (listed_all oid (with_page p (Z.of_nat size) (Z.of_nat (i * size))) (w_db w))) (seq 0 pages)) = full.
Proof.
  intros Hok E full. apply ListServices_cases in E as [Hd Hr]. destruct (Hr l n eq_refl) as (_ & -> & ->).
  split_and!; [done| | | |done|].
  - unfold full, listed_all, order_by. by rewrite sort_stable_length.
  - intros s. unfold full, listed_all, order_by. by rewrite sort_stable_elem, select_elem.
  - apply (order_by_strict s_ID (list_order p)); [|intros k s Hs; apply (ok_services _ Hok _ _ Hs)].
    apply then_by_tells, then_by_tells, by_id_tells.
  - intros sz pages Hsz Hlen. rewrite <-(pages_concat sz pages full Hsz Hlen). f_equal. apply map_ext. intros i.
    unfold page. cbn. destruct (Z.ltb_spec 0 (Z.of_nat sz)) as [_|]; [|lia]. by rewrite !Nat2Z.id.
Qed.
End Flow.
