(* ===== verification/ServiceDemo.v ===== *)
(** * ServiceDemo: services at work

    Two organizations, one of them at the limit of its plan: inputs that meet the hypotheses
    of the theorems of ServiceFlow, and what the code lets through. *)

From S2P Require Import Prelude GoStrings Effects ApiSpec Authz Identity AuthStore OAuth Enterprise Dependencies Table Requests ServiceStore ServiceHandlers ServiceLife ServiceFlow.
#[local] Open Scope nat_scope.
#[local] Open Scope string_scope.

Module ServiceDemo.
#[local] Instance demo_collation : Collation :=
  {| text_less := by_key (fun s => Z.of_nat (String.length s)); text_lower := map_bytes lower_byte;
     text_less_strict := by_key_strict_weak _ |}.
Definition new_text (X : gset string) : string := fresh (X ∪ {[ "" ]}).
#[local] Instance any_text : UuidText.
Proof.
  refine {| valid_uuid s := negb (str_empty s); gen_random_uuid := new_text |}; [done| |].
  - intros X Hin. apply (is_fresh (X ∪ {[ "" ]})). set_solver.
  - intros X. apply negb_true_iff, str_empty_false. intros E. apply (is_fresh (X ∪ {[ "" ]})).
    unfold new_text in E. rewrite E. set_solver.
Defined.
#[local] Instance as_it_is {T} : JsonColumn T.
Proof. refine {| column := Some |}. done. Defined.
#[local] Instance payloads : ServicePayloads := ltac:(split; apply as_it_is).
#[local] Instance no_search : Ilike := {| ilike _ _ := true |}.
#[local] Instance hex_ids : UuidGen := {| uuid_of := hex_encode |}.
(** The billing service knows one plan, of two services. *)
#[local] Instance billing : HttpClient := {| http_do _ := Some (200%Z, "two") |}.
#[local] Instance two_services : LimitDecoder := {| decode_limits _ := Some (mkSeatLimitInfo (-1) "team" (-1) 2 (-1) false) |}.
Definition plan : option Client := Some (New "https://billing" "token").

Definition team (id org name : string) : Team := mkTeam id org name "" "" 0 0.
Definition start : World ServiceTables :=
  mkWorld (mkServiceTables {[ "a"; "b" ]} ∅ {[ "ta" := team "ta" "a" "core"; "tb" := team "tb" "b" "core" ]} ∅ ∅) [] 100 []
    (map N.of_nat (seq 0 160)).
Definition user (name org : string) : option Principal := Some (mkPrincipal "user" name org false "" [] "local").

Definition content (name status : string) : ServiceContent :=
  mkServiceContent None None name "" status "" "" "" None None None None None None None.
Definition create_body (name status : string) : createRequest := mkCreateRequest (content name status) "core" None.
Definition nothing : updateRequest :=
  mkUpdateRequest None None None None None None None None None None None None None None None None None.
Definition rename (name : string) : updateRequest :=
  mkUpdateRequest (Some name) None None None None None None None None None None None None None None None None.
Definition nth_id (n : nat) : string := hex_encode (map N.of_nat (seq (16 * n) 16)).
Definition in_a (q : service_request) : visit := mkVisit billing (user "ann" "a") "a" q.
Definition in_b (q : service_request) : visit := mkVisit billing (user "bob" "b") "b" q.
Definition ask v (w : World ServiceTables) : SReply :=
  (serve_over (vi_Network v) plan (vi_Context v) (vi_OrgID v) (vi_Request v) w).1.
Definition after rqs (w : World ServiceTables) : World ServiceTables := served plan rqs w.

(** Ann's two services, the second of them inactive; then the plan is full. *)
Definition setup := [in_a (SvCreate (Some (create_body "pay" ""))); in_a (SvCreate (Some (create_body "ship" "inactive")))].
Definition w0 : World ServiceTables := after setup start.

Lemma start_services_ok : services_ok (w_db start).
Proof. split; cbn; intros *; by rewrite lookup_empty. Qed.
Lemma w0_services_ok : services_ok (w_db w0).
Proof. by apply services_served, start_services_ok. Qed.

Definition name_of (r : SReply) : option string :=
  match payload r with Json (OneService s) => Some (s_Name s) | _ => None end.
Definition names_of (r : SReply) : option (list string) :=
  match payload r with Json (ServiceList l _) => Some (map s_Name l) | _ => None end.
Definition all : service_request := SvList (mkListQuery "" "" "" "" "" "" "" "").
Definition svc : string := nth_id 0.

(** Bob, of org b, gives Ann's service another name; Ann's list shows it. *)
Example renamed_by_another_org :
  names_of (ask (in_a all) w0) = Some ["pay"; "ship"] /\
  names_of (ask (in_b all) w0) = Some [] /\
  status (ask (in_b (SvUpdate svc (Some (rename "mine")))) w0) = 200%Z /\
  names_of (ask (in_a all) (after [in_b (SvUpdate svc (Some (rename "mine")))] w0)) = Some ["mine"; "ship"].
Proof. vm_compute. repeat split. Qed.

(** The plan is full for org a, not for org b. *)
Example limit_demo :
  status (ask (in_a (SvCreate (Some (create_body "more" "")))) w0) = 409%Z /\
  status (ask (in_b (SvCreate (Some (create_body "more" "")))) w0) = 201%Z.
Proof. vm_compute. repeat split. Qed.

(** ** Witnesses *)

Lemma reachable_services_ok_witness : services_ok (w_db start) /\ services_ok (w_db (after setup start)).
Proof. split; [exact start_services_ok|]. by apply (reachable_services_ok plan setup start), start_services_ok. Defined.

(** The billing service does not answer while Ann asks for a third service; then it does. *)
Definition down : HttpClient := {| http_do _ := None |}.
Definition more : list visit :=
  [mkVisit down (user "ann" "a") "a" (SvCreate (Some (create_body "more" "")));
   in_a (SvCreate (Some (create_body "again" ""))); in_b (SvCreate (Some (create_body "more" "")))].
Lemma service_limit_kept_witness :
  size (live_services "a" (w_db (after (setup ++ more)%list start))) = 3 /\
  (Z.of_nat (size (live_services "a" (w_db (after (setup ++ more)%list start)))) <= Z.max 2 0 + 1)%Z.
Proof.
  split; [vm_compute; reflexivity|].
  refine (service_limit_kept plan "a" (setup ++ more)%list start 2 start_services_ok _).
  intros v m Hv Hm. unfold setup, more in Hv. cbn in Hv.
  repeat (apply elem_of_cons in Hv as [->|Hv]; [vm_compute in Hm; by simplify_eq|]). by apply elem_of_nil in Hv.
Defined.

(** Bob reads and deletes Ann's service through the routes of his own organization. *)
Definition anns : Service :=
  default (mkService "" "" "" (content "" "") (mkAudit "" None None None 0 0 None None)) (v_services (w_db w0) !! svc).
Lemma service_crosses_tenants_witness :
  s_OrgID anns = "a" /\ ask (in_b (SvGet svc)) w0 = JSON 200 (OneService anns) /\
  ask (in_b (SvDelete svc)) w0 = no_content.
Proof.
  split; [vm_compute; reflexivity|].
  destruct (service_crosses_tenants plan (mkPrincipal "user" "bob" "b" false "" [] "local") "b" svc anns w0) as [Hg Hd];
    [vm_compute; reflexivity..|vm_compute; apply not_elem_of_nil|].
  split; [exact Hg|]. unfold ask. cbn [vi_Network vi_Context vi_OrgID vi_Request in_b].
  revert Hd. unfold serve_over. destruct (serve plan _ "b" (SvDelete svc) w0) as [r w'] eqn:E. intros [-> _]. exact (f_equal fst E).
Defined.

Definition created : SReply * World ServiceTables := Create plan (user "bob" "b") "b" (Some (create_body "pay" "")) w0.
Lemma CreateService_correct_witness :
  services_ok (w_db w0) /\ succeeded created.1 = true /\
  exists s row, created.1 = JSON 201 (OneService s) /\ v_services (w_db created.2) !! s_ID s = Some row /\
    s_OrgID row = "b" /\ s_TeamID row = Some "tb".
Proof.
  assert (succeeded created.1 = true) as Hs by (vm_compute; reflexivity).
  split_and!; [exact w0_services_ok|exact Hs|]. unfold created in *.
  destruct (Create plan (user "bob" "b") "b" (Some (create_body "pay" "")) w0) as [r w'] eqn:E. cbn [fst snd] in *.
  destruct (CreateService_correct plan (user "bob" "b") "b" (Some (create_body "pay" "")) w0 r w' w0_services_ok E Hs)
    as (p & b & s & row & _ & [= <-] & Hr & _ & _ & _ & Hw & _ & Ho & _ & _ & _ & _ & _ & _ & Ht & _).
  exists s, row. split_and!; [exact Hr|by rewrite Hw, lookup_insert_eq|exact Ho|].
  destruct (Ht eq_refl) as (k & t & Hk & Hto & _ & ->). f_equal.
  change (v_teams (w_db w0)) with (v_teams (w_db start)) in Hk. unfold start in Hk. cbn in Hk.
  apply lookup_insert_Some in Hk as [[<- <-]|[_ Hk]]; [done|]. by apply lookup_singleton_Some in Hk as [<- <-].
Defined.

Definition listed : result store_err (list Service * Z) * World ServiceTables :=
  ListServices "a" (mkListParams "" "DESC" 1 1 None None None None) w0.
Definition names_in (r : result store_err (list Service * Z)) : option (list string * Z) :=
  match r with Ok (l, n) => Some (map s_Name l, n) | Err _ => None end.
Definition list_in (r : result store_err (list Service * Z)) : list Service := match r with Ok (l, _) => l | Err _ => [] end.
Lemma pages_correct_witness :
  names_in listed.1 = Some (["pay"], 2%Z) /\ list_in listed.1 = take 1 (drop 1 (listed_all "a" (mkListParams "" "DESC" 1 1 None None None None) (w_db w0))).
Proof.
  split; [vm_compute; reflexivity|]. unfold listed.
  destruct (ListServices "a" (mkListParams "" "DESC" 1 1 None None None None) w0) as [[[l n]|e] w'] eqn:E; cbn [list_in fst].
  - apply (pages_correct "a" (mkListParams "" "DESC" 1 1 None None None None) w0 l n w' w0_services_ok E).
  - exfalso. assert (match (ListServices "a" (mkListParams "" "DESC" 1 1 None None None None) w0).1 with Ok _ => true | Err _ => false end = true) as Hx
      by (vm_compute; reflexivity). by rewrite E in Hx.
Defined.
End ServiceDemo.
