(* ===== verification/QueryStore.v ===== *)
(** * QueryStore: the databases of a service and the queries saved for them

    Models [ServiceDB], [ServiceDBVersion], [SavedQueryFolder] and [SavedQuery] of
    [internal/catalog/catalog.go], [internal/store/postgres/service_dbs.go] and
    [saved_queries.go], on the tables of migrations 0020, 0028, 0042 and 0045 to 0047.  A
    schema is a JSON text that its [jsonb] column gives back in a form of its own. *)

From S2P Require Import Prelude GoStrings Effects ApiSpec Authz Identity Dependencies Table Requests.
#[local] Open Scope nat_scope.
#[local] Open Scope string_scope.

(** ** Rows

    What an UPDATE sets is grouped as content; who made and changed a row when is [Audit]. *)

Record DBContent := mkDBContent {
  dc_DBName : string; dc_DBType : string; dc_Dialect : string; dc_SchemaJSON : option string;
  dc_Source : option string; dc_SourceTS : option Z; dc_SchemaTokenCount : Z
}.
Record ServiceDB := mkServiceDB {
  db_ID : string; db_ServiceID : string; db_OrgID : string; db_Content : DBContent; db_Audit : Audit
}.
Record ServiceDBVersion := mkServiceDBVersion {
  ve_ID : string; ve_ServiceDBID : string; ve_VersionNumber : Z; ve_Label : option string;
  ve_SchemaJSON : option string; ve_Source : option string; ve_SourceTS : option Z; ve_IsAutoVersion : bool;
  ve_CreatedBy : string; ve_CreatedByCommitHash : option string; ve_CreatedAt : Z
}.
Definition SavedQueryScopePersonal : string := "personal".
Definition SavedQueryScopeTeam : string := "team".
Record SavedQueryFolder := mkFolder {
  fo_ID : string; fo_OrgID : string; fo_ServiceDBID : string; fo_Scope : string; fo_OwnerUserID : option string;
  fo_TeamID : option string; fo_Name : string; fo_Audit : Audit
}.
Record QueryContent := mkQueryContent {
  qc_FolderID : option string; qc_Title : string; qc_Description : string; qc_QueryText : string;
  qc_Tags : option (list string)
}.
Record SavedQuery := mkSavedQuery {
  sq_ID : string; sq_OrgID : string; sq_ServiceDBID : string; sq_Scope : string; sq_OwnerUserID : option string;
  sq_TeamID : option string; sq_Content : QueryContent; sq_Source : option string; sq_SourceRef : option string;
  sq_Audit : Audit
}.

Record QueryTables := mkQueryTables {
  q_orgs : gset string; q_teams : gset string; q_services : gmap string ServiceRow;
  q_dbs : gmap string ServiceDB; q_versions : gmap string ServiceDBVersion;
  q_folders : gmap string SavedQueryFolder; q_queries : gmap string SavedQuery
}.
#[export] Instance query_services : Services QueryTables := q_services.
Definition set_dbs (d : QueryTables) t :=
  mkQueryTables (q_orgs d) (q_teams d) (q_services d) t (q_versions d) (q_folders d) (q_queries d).
Definition set_versions (d : QueryTables) t :=
  mkQueryTables (q_orgs d) (q_teams d) (q_services d) (q_dbs d) t (q_folders d) (q_queries d).
Definition set_folders (d : QueryTables) t :=
  mkQueryTables (q_orgs d) (q_teams d) (q_services d) (q_dbs d) (q_versions d) t (q_queries d).
Definition set_queries (d : QueryTables) t :=
  mkQueryTables (q_orgs d) (q_teams d) (q_services d) (q_dbs d) (q_versions d) (q_folders d) t.
Definition QueryEff (A : Type) : Type := Eff (World QueryTables) (result store_err A).

Definition db_live (x : ServiceDB) : bool := au_live (db_Audit x).
Definition fo_live (x : SavedQueryFolder) : bool := au_live (fo_Audit x).
Definition sq_live (x : SavedQuery) : bool := au_live (sq_Audit x).
Definition db_Name (x : ServiceDB) : string := dc_DBName (db_Content x).
Definition sq_FolderID (x : SavedQuery) : option string := qc_FolderID (sq_Content x).

Class SchemaColumn := { #[global] schema_column :: JsonColumn string }.
(** In [return n, row.Scan(&n)] Go leaves open whether [n] is read before or after the call. *)
Class ResultOrder := { scan_before_result : bool }.

Section Store.
Context `{Collation} `{UuidText} `{SchemaColumn} `{ResultOrder}.
Implicit Types d : QueryTables.

(** ** Databases *)

(** [if schema == nil { schema = "{}" }], then the column. *)
Definition stored_schema (o : option string) : option (option string) := option_map Some (column (default "{}" o)).
Definition stored_db (c : DBContent) : option DBContent :=
  schema ← stored_schema (dc_SchemaJSON c);
  if int4 (dc_SchemaTokenCount c)
  then Some (mkDBContent (dc_DBName c) (dc_DBType c) (dc_Dialect c) schema (dc_Source c) (dc_SourceTS c) (dc_SchemaTokenCount c))
  else None.
(** idx_service_dbs_service_name *)
Definition same_db_name (serviceID name : string) (x : ServiceDB) : bool :=
  String.eqb (db_ServiceID x) serviceID && String.eqb (db_Name x) name && db_live x.

Definition insert_db (now : Z) (x : ServiceDB) d : result store_err QueryTables :=
  match stored_db (db_Content x) with
  | None => bad_syntax
  | Some c =>
      if negb (forallb valid_uuid [db_ID x; db_ServiceID x; db_OrgID x; au_CreatedBy (db_Audit x)] &&
               opt_ok valid_uuid (au_UpdatedBy (db_Audit x))) then bad_syntax
      else if found (q_dbs d !! db_ID x) then violation
      else if exists_row (same_db_name (db_ServiceID x) (db_Name x)) (q_dbs d) then Err (ErrDataSourceNameExists (db_Name x))
      else if negb (found (q_services d !! db_ServiceID x)) || negb (bool_decide (db_OrgID x ∈ q_orgs d)) then violation
      else Ok (set_dbs d (<[db_ID x := mkServiceDB (db_ID x) (db_ServiceID x) (db_OrgID x) c
                                         (inserted_audit now (db_Audit x))]> (q_dbs d)))
  end.
Definition CreateServiceDB (x : ServiceDB) : QueryEff unit := func (now <- call time_now ;; call (exec (insert_db now x))).

Definition GetServiceDB (id : string) : QueryEff (option ServiceDB) := query [id] (fun d => q_dbs d !! id).

Definition ListServiceDBs (serviceID : string) (exactDBName : option string) : QueryEff (list ServiceDB) :=
  query [serviceID] (fun d =>
    order_by (then_by (exact_first db_Name exactDBName)
             (then_by (desc (by_key (fun x => au_CreatedAt (db_Audit x)))) (by_id db_ID)))
      (select (fun x => String.eqb (db_ServiceID x) serviceID && db_live x && exact_match db_Name exactDBName x) (q_dbs d))).

Definition update_db (now : Z) (x : ServiceDB) d : result store_err QueryTables :=
  match stored_db (db_Content x) with
  | None => bad_syntax
  | Some c =>
      if negb (valid_uuid (db_ID x) && opt_ok valid_uuid (au_UpdatedBy (db_Audit x))) then bad_syntax else
      match q_dbs d !! db_ID x with
      | Some old =>
          if negb (db_live old) then Ok d
          else if other_row (db_ID x) (same_db_name (db_ServiceID old) (db_Name x)) (q_dbs d)
          then Err (ErrDataSourceNameExists (db_Name x))
          else Ok (set_dbs d (<[db_ID x := mkServiceDB (db_ID old) (db_ServiceID old) (db_OrgID old) c
                                             (updated_audit now (db_Audit x) (db_Audit old))]> (q_dbs d)))
      | None => Ok d
      end
  end.
Definition UpdateServiceDB (x : ServiceDB) : QueryEff unit := func (now <- call time_now ;; call (exec (update_db now x))).

Definition delete_db (now : Z) (id deletedBy : string) d : result store_err QueryTables :=
  if negb (valid_uuid id && valid_uuid deletedBy) then bad_syntax else
  match q_dbs d !! id with
  | Some x => if db_live x
              then Ok (set_dbs d (<[id := mkServiceDB (db_ID x) (db_ServiceID x) (db_OrgID x) (db_Content x)
                                            (deleted_audit deletedBy now (db_Audit x))]> (q_dbs d)))
              else Ok d
  | None => Ok d
  end.
Definition SoftDeleteServiceDB (id deletedBy : string) : QueryEff unit :=
  func (now <- call time_now ;; call (exec (delete_db now id deletedBy))).

(** ** Versions *)

Definition version_of (serviceDBID : string) (v : ServiceDBVersion) : bool := String.eqb (ve_ServiceDBID v) serviceDBID.
Definition insert_version (now : Z) (v : ServiceDBVersion) d : result store_err QueryTables :=
  match stored_schema (ve_SchemaJSON v) with
  | None => bad_syntax
  | Some schema =>
      if negb (forallb valid_uuid [ve_ID v; ve_ServiceDBID v; ve_CreatedBy v] && int4 (ve_VersionNumber v)) then bad_syntax
      else if found (q_versions d !! ve_ID v) ||
              exists_row (fun y => version_of (ve_ServiceDBID v) y && Z.eqb (ve_VersionNumber y) (ve_VersionNumber v)) (q_versions d) ||
              negb (found (q_dbs d !! ve_ServiceDBID v)) then violation
      else Ok (set_versions d (<[ve_ID v := mkServiceDBVersion (ve_ID v) (ve_ServiceDBID v) (ve_VersionNumber v) (ve_Label v)
                 schema (ve_Source v) (ve_SourceTS v) (ve_IsAutoVersion v) (ve_CreatedBy v) (ve_CreatedByCommitHash v) now]> (q_versions d)))
  end.
Definition CreateServiceDBVersion (v : ServiceDBVersion) : QueryEff unit :=
  func (
    now <- (if Z.eqb (ve_CreatedAt v) 0 then call time_now else gret (ve_CreatedAt v)) ;;
    call (exec (insert_version now v))).

Definition GetServiceDBVersion (id : string) : QueryEff (option ServiceDBVersion) := query [id] (fun d => q_versions d !! id).

(** The statement selects eleven columns, and each row is scanned into ten variables. *)
Definition scan_versions (l : list ServiceDBVersion) : result store_err (list ServiceDBVersion) :=
  match l with
  | [] => Ok []
  | _ => Err (ErrOther "sql: expected 11 destination arguments in Scan, not 10")
  end.
Definition ListServiceDBVersions (serviceDBID : string) : QueryEff (list ServiceDBVersion) :=
  scan [serviceDBID] (fun d =>
    scan_versions (order_by (desc (by_key ve_VersionNumber)) (select (version_of serviceDBID) (q_versions d)))).

Definition max_version (serviceDBID : string) d : Z :=
  foldr Z.max 0%Z (map ve_VersionNumber (select (version_of serviceDBID) (q_versions d))).
Definition LatestServiceDBVersionNumber (serviceDBID : string) : QueryEff Z :=
  query [serviceDBID] (fun d => if scan_before_result then max_version serviceDBID d else 0%Z).

(** ** Folders of saved queries *)

(** An INSERT without the columns for commits. *)
Definition plain_audit (now : Z) (a : Audit) : Audit :=
  mkAudit (au_CreatedBy a) (au_UpdatedBy a) None None (or_now (au_CreatedAt a) now) (or_now (au_UpdatedAt a) now) None None.
(** scope IN (...) and ..._scope_owner_chk *)
Definition scope_checks (scope : string) (owner : option string) : bool :=
  String.eqb scope SavedQueryScopePersonal && found owner || String.eqb scope SavedQueryScopeTeam && negb (found owner).
Definition query_fks (orgID dbID : string) (teamID : option string) d : bool :=
  bool_decide (orgID ∈ q_orgs d) && found (q_dbs d !! dbID) && opt_ok (fun t => bool_decide (t ∈ q_teams d)) teamID.

Definition insert_folder (now : Z) (f : SavedQueryFolder) d : result store_err QueryTables :=
  if negb (forallb valid_uuid [fo_ID f; fo_OrgID f; fo_ServiceDBID f; au_CreatedBy (fo_Audit f)] &&
           forallb (opt_ok valid_uuid) [fo_OwnerUserID f; fo_TeamID f; au_UpdatedBy (fo_Audit f)]) then bad_syntax
  else if negb (scope_checks (fo_Scope f) (fo_OwnerUserID f)) || found (q_folders d !! fo_ID f) ||
          negb (query_fks (fo_OrgID f) (fo_ServiceDBID f) (fo_TeamID f) d) then violation
  else Ok (set_folders d (<[fo_ID f := mkFolder (fo_ID f) (fo_OrgID f) (fo_ServiceDBID f) (fo_Scope f) (fo_OwnerUserID f)
                                         (fo_TeamID f) (fo_Name f) (plain_audit now (fo_Audit f))]> (q_folders d))).
Definition CreateSavedQueryFolder (f : SavedQueryFolder) : QueryEff unit :=
  func (now <- call time_now ;; call (exec (insert_folder now f))).

Definition GetSavedQueryFolder (id : string) : QueryEff (option SavedQueryFolder) := query [id] (fun d => q_folders d !! id).

(** ($3::uuid IS NULL OR owner_user_id = $3) *)
Definition owner_is (ownerUserID : option string) (owner : option string) : bool :=
  match ownerUserID with Some u => bool_decide (owner = Some u) | None => true end.
Definition ListSavedQueryFolders (serviceDBID scope : string) (ownerUserID : option string) : QueryEff (list SavedQueryFolder) :=
  query (serviceDBID :: option_list ownerUserID) (fun d =>
    order_by (by_text fo_Name)
      (select (fun f => String.eqb (fo_ServiceDBID f) serviceDBID && String.eqb (fo_Scope f) scope && fo_live f &&
                        owner_is ownerUserID (fo_OwnerUserID f)) (q_folders d))).

Definition unfiled (now : Z) (x : SavedQuery) : SavedQuery :=
  let c := sq_Content x in let a := sq_Audit x in
  mkSavedQuery (sq_ID x) (sq_OrgID x) (sq_ServiceDBID x) (sq_Scope x) (sq_OwnerUserID x) (sq_TeamID x)
    (mkQueryContent None (qc_Title c) (qc_Description c) (qc_QueryText c) (qc_Tags c)) (sq_Source x) (sq_SourceRef x)
    (mkAudit (au_CreatedBy a) (au_UpdatedBy a) (au_CreatedByCommitHash a) (au_UpdatedByCommitHash a) (au_CreatedAt a) now
       (au_DeletedAt a) (au_DeletedBy a)).
Definition clear_children (now : Z) (id : string) d : result store_err QueryTables :=
  if valid_uuid id then Ok (set_queries d (update_where (fun x => bool_decide (sq_FolderID x = Some id) && sq_live x)
                                             (unfiled now) (q_queries d)))
  else bad_syntax.
Definition delete_folder (now : Z) (id deletedBy : string) d : result store_err QueryTables :=
  if negb (valid_uuid id && valid_uuid deletedBy) then bad_syntax else
  match q_folders d !! id with
  | Some f => if fo_live f
              then Ok (set_folders d (<[id := mkFolder (fo_ID f) (fo_OrgID f) (fo_ServiceDBID f) (fo_Scope f) (fo_OwnerUserID f)
                                                (fo_TeamID f) (fo_Name f) (deleted_audit deletedBy now (fo_Audit f))]> (q_folders d)))
              else Ok d
  | None => Ok d
  end.
(** Two statements, not in a transaction. *)
Definition SoftDeleteSavedQueryFolder (id deletedBy : string) : QueryEff unit :=
  func (
    now <- call time_now ;;
    _ <- try (exec (clear_children now id)) Err ;;
    call (exec (delete_folder now id deletedBy))).

(** ** Saved queries *)

Definition nonNilTags (tags : option (list string)) : option (list string) := Some (default [] tags).
Definition stored_query (x : SavedQuery) (a : Audit) : SavedQuery :=
  let c := sq_Content x in
  mkSavedQuery (sq_ID x) (sq_OrgID x) (sq_ServiceDBID x) (sq_Scope x) (sq_OwnerUserID x) (sq_TeamID x)
    (mkQueryContent (qc_FolderID c) (qc_Title c) (qc_Description c) (qc_QueryText c) (nonNilTags (qc_Tags c)))
    (sq_Source x) (sq_SourceRef x) a.
Definition query_params (x : SavedQuery) : bool :=
  forallb valid_uuid [sq_ID x; sq_OrgID x; sq_ServiceDBID x; au_CreatedBy (sq_Audit x)] &&
  forallb (opt_ok valid_uuid) [sq_FolderID x; sq_OwnerUserID x; sq_TeamID x; au_UpdatedBy (sq_Audit x)].
Definition folder_fk (o : option string) d : bool := opt_ok (fun f => found (q_folders d !! f)) o.
(** uq_saved_queries_source_ref *)
Definition same_ref (dbID : string) (ref : option string) (x : SavedQuery) : bool :=
  String.eqb (sq_ServiceDBID x) dbID && found ref && bool_decide (sq_SourceRef x = ref) && sq_live x.

Definition insert_query (x : SavedQuery) (a : Audit) d : result store_err QueryTables :=
  if negb (scope_checks (sq_Scope x) (sq_OwnerUserID x)) || found (q_queries d !! sq_ID x) ||
     exists_row (same_ref (sq_ServiceDBID x) (sq_SourceRef x)) (q_queries d) ||
     negb (query_fks (sq_OrgID x) (sq_ServiceDBID x) (sq_TeamID x) d) || negb (folder_fk (sq_FolderID x) d) then violation
  else Ok (set_queries d (<[sq_ID x := stored_query x a]> (q_queries d))).
Definition create_query (now : Z) (x : SavedQuery) d : result store_err QueryTables :=
  if query_params x then insert_query x (plain_audit now (sq_Audit x)) d else bad_syntax.
Definition CreateSavedQuery (x : SavedQuery) : QueryEff unit := func (now <- call time_now ;; call (exec (create_query now x))).

Definition GetSavedQuery (id : string) : QueryEff (option SavedQuery) := query [id] (fun d => q_queries d !! id).

Definition ListSavedQueries (serviceDBID scope : string) (ownerUserID : option string) : QueryEff (list SavedQuery) :=
  query (serviceDBID :: option_list ownerUserID) (fun d =>
    order_by (desc (by_key (fun x => au_UpdatedAt (sq_Audit x))))
      (select (fun x => String.eqb (sq_ServiceDBID x) serviceDBID && String.eqb (sq_Scope x) scope && sq_live x &&
                        owner_is ownerUserID (sq_OwnerUserID x)) (q_queries d))).

Definition with_query (old : SavedQuery) (teamID : option string) (c : QueryContent) (a : Audit) : SavedQuery :=
  mkSavedQuery (sq_ID old) (sq_OrgID old) (sq_ServiceDBID old) (sq_Scope old) (sq_OwnerUserID old) teamID
    (mkQueryContent (qc_FolderID c) (qc_Title c) (qc_Description c) (qc_QueryText c) (nonNilTags (qc_Tags c)))
    (sq_Source old) (sq_SourceRef old) a.
Definition update_query (now : Z) (x : SavedQuery) d : result store_err QueryTables :=
  if negb (valid_uuid (sq_ID x) && opt_ok valid_uuid (sq_FolderID x) && opt_ok valid_uuid (au_UpdatedBy (sq_Audit x)))
  then bad_syntax else
  match q_queries d !! sq_ID x with
  | Some old =>
      if negb (sq_live old) then Ok d
      else if negb (folder_fk (sq_FolderID x) d) then violation
      else let a := sq_Audit old in
           Ok (set_queries d (<[sq_ID x := with_query old (sq_TeamID old) (sq_Content x)
             (mkAudit (au_CreatedBy a) (au_UpdatedBy (sq_Audit x)) (au_CreatedByCommitHash a) (au_UpdatedByCommitHash a)
                (au_CreatedAt a) now (au_DeletedAt a) (au_DeletedBy a))]> (q_queries d)))
  | None => Ok d
  end.
Definition UpdateSavedQuery (x : SavedQuery) : QueryEff unit := func (now <- call time_now ;; call (exec (update_query now x))).

Definition delete_query (now : Z) (id deletedBy : string) d : result store_err QueryTables :=
  if negb (valid_uuid id && valid_uuid deletedBy) then bad_syntax else
  match q_queries d !! id with
  | Some x => if sq_live x
              then Ok (set_queries d (<[id := mkSavedQuery (sq_ID x) (sq_OrgID x) (sq_ServiceDBID x) (sq_Scope x) (sq_OwnerUserID x)
                     (sq_TeamID x) (sq_Content x) (sq_Source x) (sq_SourceRef x) (deleted_audit deletedBy now (sq_Audit x))]> (q_queries d)))
              else Ok d
  | None => Ok d
  end.
Definition SoftDeleteSavedQuery (id deletedBy : string) : QueryEff unit :=
  func (now <- call time_now ;; call (exec (delete_query now id deletedBy))).

(** INSERT ... ON CONFLICT (service_db_id, source_ref) DO UPDATE; the flag says whether a row was inserted. *)
Definition upsert_query (now : Z) (x : SavedQuery) d : result store_err ((SavedQuery * bool) * QueryTables) :=
  if negb (query_params x) then bad_syntax
  else if negb (scope_checks (sq_Scope x) (sq_OwnerUserID x)) then violation
  else match select_one (same_ref (sq_ServiceDBID x) (sq_SourceRef x)) (q_queries d) with
       | Some old =>
           if negb (folder_fk (sq_FolderID x) d) || negb (opt_ok (fun t => bool_decide (t ∈ q_teams d)) (sq_TeamID x)) then violation
           else let a := sq_Audit old in
                let row := with_query old (sq_TeamID x) (sq_Content x)
                  (mkAudit (au_CreatedBy a) (au_UpdatedBy (sq_Audit x)) (au_CreatedByCommitHash a)
                     (au_UpdatedByCommitHash (sq_Audit x)) (au_CreatedAt a) now (au_DeletedAt a) (au_DeletedBy a)) in
                Ok ((row, false), set_queries d (<[sq_ID old := row]> (q_queries d)))
       | None =>
           let a := sq_Audit x in
           let audit := mkAudit (au_CreatedBy a) (au_UpdatedBy a) (au_CreatedByCommitHash a) (au_UpdatedByCommitHash a)
                          (or_now (au_CreatedAt a) now) now None None in
           match insert_query x audit d with
           | Ok d' => Ok ((stored_query x audit, true), d')
           | Err e => Err e
           end
       end.
Definition UpsertSavedQueryBySourceRef (x : SavedQuery) : QueryEff (SavedQuery * bool) :=
  func (now <- call time_now ;; call (returning (upsert_query now x))).
End Store.
