(* ===== verification/QueryHandlers.v ===== *)
(** * QueryHandlers: the requests on databases and saved queries

    Models [internal/api/catalog/db.go] and [saved_query.go].  A handler takes the
    principal of the context, the path values, the query values and the decoded body
    ([None]: it does not decode); [serve] is the dispatch of the routes [Register] of
    [handler.go] mounts for them. *)

From S2P Require Import Prelude GoStrings Effects ApiSpec Authz Identity Dependencies Table Requests QueryStore.
#[local] Open Scope nat_scope.
#[local] Open Scope string_scope.

Record createDBRequest := mkCreateDB {
  cd_DBName : string; cd_DBType : string; cd_Dialect : string; cd_SchemaJSON : option string;
  cd_Source : option string; cd_SourceTS : option Z; cd_CommitHash : option string
}.
Record updateDBRequest := mkUpdateDB {
  ud_DBName : option string; ud_DBType : option string; ud_Dialect : option string; ud_SchemaJSON : option string;
  ud_Source : option string; ud_SourceTS : option Z; ud_CommitHash : option string
}.
Record versionRequest := mkVersionRequest {
  vr_Label : option string; vr_IsAutoVersion : option bool; vr_DBName : option string; vr_DBType : option string;
  vr_Dialect : option string; vr_SchemaJSON : option string; vr_Source : option string; vr_SourceTS : option Z
}.
Record folderRequest := mkFolderRequest { fq_Name : string; fq_Scope : string }.
Record queryRequest := mkQueryRequest {
  qr_Title : string; qr_Description : string; qr_QueryText : string; qr_Tags : option (list string);
  qr_FolderID : option string; qr_Scope : string
}.
Record updateQueryRequest := mkUpdateQuery {
  uq_Title : option string; uq_Description : option string; uq_QueryText : option string;
  uq_Tags : option (list string); uq_FolderID : option string
}.
Record syncQueryRequest := mkSyncQuery {
  sy_SourceRef : string; sy_Title : string; sy_Description : string; sy_QueryText : string;
  sy_Tags : option (list string); sy_CommitHash : option string
}.

Inductive query_body : Type :=
| DBList (l : list ServiceDB)
| OneDB (x : ServiceDB)
| VersionList (l : list ServiceDBVersion)
| OneVersion (v : ServiceDBVersion)
| FolderList (l : list SavedQueryFolder)
| OneFolder (f : SavedQueryFolder)
| QueryList (l : list SavedQuery)
| OneQuery (x : SavedQuery)
| Synced (id : string) (created : bool).
Definition QReply : Type := Response query_body.

(** The error of the store the handlers of databases explain. *)
Definition db_error (name : string) (e : store_err) : QReply :=
  match e with
  | ErrDataSourceNameExists _ => Conflict ("a data source named " +:+ Quote name +:+ " already exists in this service")
  | _ => HttpError e
  end.

Definition merge_db (c : DBContent) (name type dialect schema source : option string) (ts : option Z) : DBContent :=
  mkDBContent (default (dc_DBName c) name) (default (dc_DBType c) type) (default (dc_Dialect c) dialect)
    (or_old schema (dc_SchemaJSON c)) source ts (dc_SchemaTokenCount c).
(** [db.UpdatedBy = &p.UserID; db.UpdatedByCommitHash = hash] *)
Definition touched (actorID : string) (hash : option string) (a : Audit) : Audit :=
  mkAudit (au_CreatedBy a) (Some actorID) (au_CreatedByCommitHash a) hash (au_CreatedAt a) (au_UpdatedAt a)
    (au_DeletedAt a) (au_DeletedBy a).
Definition changed_db (x : ServiceDB) (c : DBContent) (actorID : string) (hash : option string) : ServiceDB :=
  mkServiceDB (db_ID x) (db_ServiceID x) (db_OrgID x) c (touched actorID hash (db_Audit x)).

(** [personal] or [team]. *)
Definition is_scope (s : string) : bool := String.eqb s SavedQueryScopePersonal || String.eqb s SavedQueryScopeTeam.
Definition bad_scope : QReply := BadRequest "scope must be 'personal' or 'team'".
(** [if scope == personal { ownerUserID = &p.UserID }] *)
Definition owner_for (scope userID : string) : option string :=
  if String.eqb scope SavedQueryScopePersonal then Some userID else None.
(** [scope == personal && (owner == nil || *owner != p.UserID)] *)
Definition not_mine (scope : string) (owner : option string) (userID : string) : bool :=
  String.eqb scope SavedQueryScopePersonal && negb (bool_decide (owner = Some userID)).

Section Handlers.
Context `{Collation} `{UuidText} `{SchemaColumn} `{ResultOrder} `{UuidGen}.
#[local] Abbreviation W := (World QueryTables).

Definition db_of (serviceID : string) (x : ServiceDB) : bool := db_live x && String.eqb (db_ServiceID x) serviceID.

(** ** Databases *)

Definition ListDBs (orgID serviceID exact_db_name : string) : Eff W QReply :=
  func (
    ensureServiceInOrg orgID serviceID ;;;
    dbs <- try (ListServiceDBs serviceID (Exact exact_db_name)) HttpError ;;
    gret (JSON 200 (DBList dbs))).

Definition GetDB (orgID serviceID dbID : string) : Eff W QReply :=
  func (
    ensureServiceInOrg orgID serviceID ;;;
    db <- live_in (GetServiceDB dbID) (db_of serviceID) ;;
    gret (JSON 200 (OneDB db))).

Definition new_version (id : string) (db : ServiceDB) (number : Z) (label : option string) (isAuto : bool)
    (userID : string) (commitHash : option string) (now : Z) : ServiceDBVersion :=
  let c := db_Content db in
  mkServiceDBVersion id (db_ID db) number label (dc_SchemaJSON c) (dc_Source c) (dc_SourceTS c) isAuto userID commitHash now.
Definition createServiceDBVersionSnapshot (db : ServiceDB) (label : option string) (isAuto : bool) (userID : string)
    (commitHash : option string) : Eff W (result go_err ServiceDBVersion) :=
  func (
    latest <- try (LatestServiceDBVersionNumber (db_ID db)) (fun e => Err (Failed e)) ;;
    id <- try NewString Err ;;
    now <- call time_now ;;
    let version := new_version id db (latest + 1)%Z label isAuto userID commitHash now in
    _ <- try (CreateServiceDBVersion version) (fun e => Err (Failed e)) ;;
    gret (Ok version)).
(** [_, _ = h.createServiceDBVersionSnapshot(...)]: only a panic is not ignored. *)
Definition ignoring_errors {A} (m : Eff W (result go_err A)) : Go W QReply unit :=
  r <- call m ;;
  match r with
  | Ok _ | Err (Failed _) => gret tt
  | Err e => greturn (fail e)
  end.

Definition CreateDB (ctx : option Principal) (orgID serviceID : string) (req : option createDBRequest) : Eff W QReply :=
  func (
    p <- non_nil ctx Unauthorized ;;
    ensureServiceInOrg orgID serviceID ;;;
    body <- non_nil req bad_body ;;
    return_if (str_empty (cd_DBName body)) (BadRequest "dbName is required") ;;;
    let schema := or_old_str (default "" (cd_SchemaJSON body)) "{}" in
    now <- call time_now ;;
    id <- try NewString fail ;;
    let db := mkServiceDB id serviceID orgID
                (mkDBContent (cd_DBName body) (cd_DBType body) (cd_Dialect body) (Some schema) (cd_Source body) (cd_SourceTS body) 0)
                (mkAudit (p_UserID p) (Some (p_UserID p)) (cd_CommitHash body) None now now None None) in
    _ <- try (CreateServiceDB db) (db_error (db_Name db)) ;;
    ignoring_errors (createServiceDBVersionSnapshot db None true (p_UserID p) (cd_CommitHash body)) ;;;
    gret (JSON 201 (OneDB db))).

Definition UpdateDB (ctx : option Principal) (orgID serviceID dbID : string) (req : option updateDBRequest) : Eff W QReply :=
  func (
    p <- non_nil ctx Unauthorized ;;
    ensureServiceInOrg orgID serviceID ;;;
    db <- live_in (GetServiceDB dbID) (db_of serviceID) ;;
    body <- non_nil req bad_body ;;
    let db' := changed_db db (merge_db (db_Content db) (ud_DBName body) (ud_DBType body) (ud_Dialect body) (ud_SchemaJSON body)
                 (ud_Source body) (ud_SourceTS body)) (p_UserID p) (ud_CommitHash body) in
    _ <- try (UpdateServiceDB db') (db_error (db_Name db')) ;;
    (if String.eqb (default "" (dc_SchemaJSON (db_Content db))) (default "" (dc_SchemaJSON (db_Content db'))) then gret tt
     else ignoring_errors (createServiceDBVersionSnapshot db' None true (p_UserID p) (ud_CommitHash body))) ;;;
    gret (JSON 200 (OneDB db'))).

Definition DeleteDB (ctx : option Principal) (orgID serviceID dbID : string) : Eff W QReply :=
  func (
    p <- non_nil ctx Unauthorized ;;
    ensureServiceInOrg orgID serviceID ;;;
    db <- live_in (GetServiceDB dbID) (db_of serviceID) ;;
    _ <- try (SoftDeleteServiceDB dbID (p_UserID p)) HttpError ;;
    gret no_content).

Definition ListDBVersions (orgID serviceID dbID : string) : Eff W QReply :=
  func (
    ensureServiceInOrg orgID serviceID ;;;
    db <- live_in (GetServiceDB dbID) (db_of serviceID) ;;
    versions <- try (ListServiceDBVersions dbID) HttpError ;;
    gret (JSON 200 (VersionList versions))).

Definition CreateDBVersion (ctx : option Principal) (orgID serviceID dbID : string) (req : option versionRequest) : Eff W QReply :=
  func (
    p <- non_nil ctx Unauthorized ;;
    ensureServiceInOrg orgID serviceID ;;;
    db <- live_in (GetServiceDB dbID) (db_of serviceID) ;;
    body <- non_nil req bad_body ;;
    let c := db_Content db in
    let db' := changed_db db (merge_db c (vr_DBName body) (vr_DBType body) (vr_Dialect body) (vr_SchemaJSON body)
                 (or_old (vr_Source body) (dc_Source c)) (or_old (vr_SourceTS body) (dc_SourceTS c))) (p_UserID p) None in
    _ <- try (UpdateServiceDB db') (db_error (db_Name db')) ;;
    version <- try (createServiceDBVersionSnapshot db' (vr_Label body) (default false (vr_IsAutoVersion body)) (p_UserID p) None) fail ;;
    gret (JSON 201 (OneVersion version))).

Definition RestoreDBVersion (ctx : option Principal) (orgID serviceID dbID versionID : string) : Eff W QReply :=
  func (
    p <- non_nil ctx Unauthorized ;;
    ensureServiceInOrg orgID serviceID ;;;
    db <- live_in (GetServiceDB dbID) (db_of serviceID) ;;
    version <- live_in (GetServiceDBVersion versionID) (version_of dbID) ;;
    ignoring_errors (createServiceDBVersionSnapshot db (Some ("Restored from v" +:+ Itoa (ve_VersionNumber version))) true
                       (p_UserID p) None) ;;;
    let c := db_Content db in
    let db' := changed_db db (mkDBContent (dc_DBName c) (dc_DBType c) (dc_Dialect c) (ve_SchemaJSON version) (ve_Source version)
                 (ve_SourceTS version) (dc_SchemaTokenCount c)) (p_UserID p) None in
    _ <- try (UpdateServiceDB db') HttpError ;;
    gret (JSON 200 (OneDB db'))).

(** ** Saved queries *)

Definition ensureDBInService (serviceID dbID : string) : Go W QReply ServiceDB := live_in (GetServiceDB dbID) (db_of serviceID).
(** The prologue of every handler of saved queries. *)
Definition in_database {A} (ctx : option Principal) (orgID serviceID dbID : string) (k : Principal -> Go W QReply A) : Go W QReply A :=
  p <- non_nil ctx Unauthorized ;;
  ensureServiceInOrg orgID serviceID ;;;
  db <- ensureDBInService serviceID dbID ;;
  k p.

Definition ListSavedQueryFolders_ (ctx : option Principal) (orgID serviceID dbID scope : string) : Eff W QReply :=
  func (in_database ctx orgID serviceID dbID (fun p =>
    return_if (negb (is_scope scope)) bad_scope ;;;
    folders <- try (ListSavedQueryFolders dbID scope (owner_for scope (p_UserID p))) HttpError ;;
    gret (JSON 200 (FolderList folders)))).

Definition CreateSavedQueryFolder_ (ctx : option Principal) (orgID serviceID dbID : string) (req : option folderRequest) :
    Eff W QReply :=
  func (in_database ctx orgID serviceID dbID (fun p =>
    body <- non_nil req bad_body ;;
    return_if (str_empty (fq_Name body)) (BadRequest "name is required") ;;;
    return_if (negb (is_scope (fq_Scope body))) bad_scope ;;;
    now <- call time_now ;;
    id <- try NewString fail ;;
    let folder := mkFolder id orgID dbID (fq_Scope body) (owner_for (fq_Scope body) (p_UserID p)) None (fq_Name body)
                    (mkAudit (p_UserID p) (Some (p_UserID p)) None None now now None None) in
    _ <- try (CreateSavedQueryFolder folder) HttpError ;;
    gret (JSON 201 (OneFolder folder)))).

Definition folder_of (dbID : string) (f : SavedQueryFolder) : bool := fo_live f && String.eqb (fo_ServiceDBID f) dbID.
Definition query_of (dbID : string) (x : SavedQuery) : bool := sq_live x && String.eqb (sq_ServiceDBID x) dbID.

Definition DeleteSavedQueryFolder (ctx : option Principal) (orgID serviceID dbID folderID : string) : Eff W QReply :=
  func (in_database ctx orgID serviceID dbID (fun p =>
    folder <- live_in (GetSavedQueryFolder folderID) (folder_of dbID) ;;
    return_if (not_mine (fo_Scope folder) (fo_OwnerUserID folder) (p_UserID p)) Forbidden ;;;
    _ <- try (SoftDeleteSavedQueryFolder folderID (p_UserID p)) HttpError ;;
    gret no_content)).

Definition ListSavedQueries_ (ctx : option Principal) (orgID serviceID dbID scope : string) : Eff W QReply :=
  func (in_database ctx orgID serviceID dbID (fun p =>
    return_if (negb (is_scope scope)) bad_scope ;;;
    queries <- try (ListSavedQueries dbID scope (owner_for scope (p_UserID p))) HttpError ;;
    gret (JSON 200 (QueryList queries)))).

Definition CreateSavedQuery_ (ctx : option Principal) (orgID serviceID dbID : string) (req : option queryRequest) : Eff W QReply :=
  func (in_database ctx orgID serviceID dbID (fun p =>
    body <- non_nil req bad_body ;;
    return_if (str_empty (qr_Title body)) (BadRequest "title is required") ;;;
    return_if (negb (is_scope (qr_Scope body))) bad_scope ;;;
    now <- call time_now ;;
    id <- try NewString fail ;;
    let q := mkSavedQuery id orgID dbID (qr_Scope body) (owner_for (qr_Scope body) (p_UserID p)) None
               (mkQueryContent (qr_FolderID body) (qr_Title body) (qr_Description body) (qr_QueryText body) (qr_Tags body))
               (Some "ui") None (mkAudit (p_UserID p) (Some (p_UserID p)) None None now now None None) in
    _ <- try (CreateSavedQuery q) HttpError ;;
    gret (JSON 201 (OneQuery q)))).

Definition merge_query (c : QueryContent) (b : updateQueryRequest) : QueryContent :=
  mkQueryContent (uq_FolderID b) (default (qc_Title c) (uq_Title b)) (default (qc_Description c) (uq_Description b))
    (default (qc_QueryText c) (uq_QueryText b)) (or_old (uq_Tags b) (qc_Tags c)).
Definition UpdateSavedQuery_ (ctx : option Principal) (orgID serviceID dbID queryID : string) (req : option updateQueryRequest) :
    Eff W QReply :=
  func (in_database ctx orgID serviceID dbID (fun p =>
    q <- live_in (GetSavedQuery queryID) (query_of dbID) ;;
    return_if (not_mine (sq_Scope q) (sq_OwnerUserID q) (p_UserID p)) Forbidden ;;;
    body <- non_nil req bad_body ;;
    let a := sq_Audit q in
    let q' := mkSavedQuery (sq_ID q) (sq_OrgID q) (sq_ServiceDBID q) (sq_Scope q) (sq_OwnerUserID q) (sq_TeamID q)
                (merge_query (sq_Content q) body) (sq_Source q) (sq_SourceRef q)
                (touched (p_UserID p) (au_UpdatedByCommitHash a) a) in
    _ <- try (UpdateSavedQuery q') HttpError ;;
    gret (JSON 200 (OneQuery q')))).

Definition DeleteSavedQuery (ctx : option Principal) (orgID serviceID dbID queryID : string) : Eff W QReply :=
  func (in_database ctx orgID serviceID dbID (fun p =>
    q <- live_in (GetSavedQuery queryID) (query_of dbID) ;;
    return_if (not_mine (sq_Scope q) (sq_OwnerUserID q) (p_UserID p)) Forbidden ;;;
    _ <- try (SoftDeleteSavedQuery queryID (p_UserID p)) HttpError ;;
    gret no_content)).

Definition sync_row (id orgID dbID userID : string) (b : syncQueryRequest) : SavedQuery :=
  mkSavedQuery id orgID dbID SavedQueryScopeTeam None None
    (mkQueryContent None (sy_Title b) (sy_Description b) (sy_QueryText b) (sy_Tags b)) (Some "ci") (Some (sy_SourceRef b))
    (mkAudit userID (Some userID) (sy_CommitHash b) (sy_CommitHash b) 0 0 None None).
Definition SyncSavedQuery (ctx : option Principal) (orgID serviceID dbID : string) (req : option syncQueryRequest) : Eff W QReply :=
  func (in_database ctx orgID serviceID dbID (fun p =>
    body <- non_nil req bad_body ;;
    return_if (str_empty (sy_SourceRef body)) (BadRequest "sourceRef is required") ;;;
    return_if (str_empty (sy_Title body)) (BadRequest "title is required") ;;;
    id <- try NewString fail ;;
    out <- try (UpsertSavedQueryBySourceRef (sync_row id orgID dbID (p_UserID p) body)) HttpError ;;
    gret (JSON 200 (Synced (sq_ID out.1) out.2)))).

(** ** Routes *)

Inductive db_request : Type :=
| QListDBs (exact_db_name : string)
| QCreateDB (req : option createDBRequest)
| QGetDB (dbID : string)
| QUpdateDB (dbID : string) (req : option updateDBRequest)
| QDeleteDB (dbID : string)
| QListVersions (dbID : string)
| QCreateVersion (dbID : string) (req : option versionRequest)
| QRestore (dbID versionID : string).
Inductive query_request : Type :=
| QListFolders (scope : string)
| QCreateFolder (req : option folderRequest)
| QDeleteFolder (folderID : string)
| QListQueries (scope : string)
| QCreateQuery (req : option queryRequest)
| QUpdateQuery (queryID : string) (req : option updateQueryRequest)
| QDeleteQuery (queryID : string)
| QSync (req : option syncQueryRequest).

Definition serve_db (ctx : option Principal) (orgID serviceID : string) (q : db_request) : Eff W QReply :=
  match q with
  | QListDBs n => ListDBs orgID serviceID n
  | QCreateDB b => CreateDB ctx orgID serviceID b
  | QGetDB id => GetDB orgID serviceID id
  | QUpdateDB id b => UpdateDB ctx orgID serviceID id b
  | QDeleteDB id => DeleteDB ctx orgID serviceID id
  | QListVersions id => ListDBVersions orgID serviceID id
  | QCreateVersion id b => CreateDBVersion ctx orgID serviceID id b
  | QRestore id v => RestoreDBVersion ctx orgID serviceID id v
  end.
Definition serve_query (ctx : option Principal) (orgID serviceID dbID : string) (q : query_request) : Eff W QReply :=
  match q with
  | QListFolders s => ListSavedQueryFolders_ ctx orgID serviceID dbID s
  | QCreateFolder b => CreateSavedQueryFolder_ ctx orgID serviceID dbID b
  | QDeleteFolder id => DeleteSavedQueryFolder ctx orgID serviceID dbID id
  | QListQueries s => ListSavedQueries_ ctx orgID serviceID dbID s
  | QCreateQuery b => CreateSavedQuery_ ctx orgID serviceID dbID b
  | QUpdateQuery id b => UpdateSavedQuery_ ctx orgID serviceID dbID id b
  | QDeleteQuery id => DeleteSavedQuery ctx orgID serviceID dbID id
  | QSync b => SyncSavedQuery ctx orgID serviceID dbID b
  end.
End Handlers.
