(* ===== verification/QueryLife.v ===== *)
(** * QueryLife: what requests on databases and saved queries keep

    The invariant of their tables, what a request may change, and that every statement
    stays within it. *)

From S2P Require Import Prelude GoStrings Effects ApiSpec Authz Identity Dependencies Table Requests QueryStore QueryHandlers.
#[local] Open Scope nat_scope.
#[local] Open Scope string_scope.
Set Warnings "-clear-no-such-hyp".

Section Life.
Context `{Collation} `{UuidText} `{SchemaColumn} `{ResultOrder}.
Implicit Types d : QueryTables.

(** ** The invariant *)

Definition in_service d (sid oid : string) : Prop := exists s, q_services d !! sid = Some s /\ sv_OrgID s = oid.
Definition in_db d (dbID oid : string) : Prop := exists x, q_dbs d !! dbID = Some x /\ db_OrgID x = oid.

Record db_ok d (k : string) (x : ServiceDB) : Prop := {
  do_id : db_ID x = k; do_owned : in_service d (db_ServiceID x) (db_OrgID x);
  do_stored : stored_db (db_Content x) = Some (db_Content x)
}.
Record version_ok d (k : string) (v : ServiceDBVersion) : Prop := {
  vo_id : ve_ID v = k; vo_db : is_Some (q_dbs d !! ve_ServiceDBID v); vo_number : (1 <= ve_VersionNumber v)%Z;
  vo_stored : stored_schema (ve_SchemaJSON v) = Some (ve_SchemaJSON v)
}.
Record folder_ok d (k : string) (f : SavedQueryFolder) : Prop := {
  fo_id : fo_ID f = k; fo_owned : in_db d (fo_ServiceDBID f) (fo_OrgID f);
  fo_checks : scope_checks (fo_Scope f) (fo_OwnerUserID f) = true
}.
Record query_ok d (k : string) (x : SavedQuery) : Prop := {
  qo_id : sq_ID x = k; qo_owned : in_db d (sq_ServiceDBID x) (sq_OrgID x);
  qo_checks : scope_checks (sq_Scope x) (sq_OwnerUserID x) = true; qo_tags : is_Some (qc_Tags (sq_Content x));
  qo_folder : folder_fk (sq_FolderID x) d = true;
  qo_ref : is_Some (sq_SourceRef x) -> sq_Scope x = SavedQueryScopeTeam
}.
Definition same_number (v v' : ServiceDBVersion) : Prop :=
  ve_ServiceDBID v' = ve_ServiceDBID v /\ ve_VersionNumber v' = ve_VersionNumber v.
Record databases_ok d : Prop := {
  ok_dbs k x : q_dbs d !! k = Some x -> db_ok d k x;
  ok_versions k v : q_versions d !! k = Some v -> version_ok d k v;
  ok_folders k f : q_folders d !! k = Some f -> folder_ok d k f;
  ok_queries k x : q_queries d !! k = Some x -> query_ok d k x;
  ok_names k k' x x' : q_dbs d !! k = Some x -> q_dbs d !! k' = Some x' -> db_live x = true ->
    same_db_name (db_ServiceID x) (db_Name x) x' = true -> k = k';
  ok_numbers k k' v v' : q_versions d !! k = Some v -> q_versions d !! k' = Some v' -> same_number v v' -> k = k';
  ok_refs k k' x x' : q_queries d !! k = Some x -> q_queries d !! k' = Some x' -> sq_live x = true ->
    same_ref (sq_ServiceDBID x) (sq_SourceRef x) x' = true -> k = k'
}.

(** ** What a request changes *)

Definition db_owner (x : ServiceDB) := (db_ServiceID x, db_OrgID x).
(** A request on the databases of a service. *)
Record db_changes (sid : string) d d' : Prop := {
  dc_orgs : q_orgs d' = q_orgs d; dc_teams : q_teams d' = q_teams d; dc_services : q_services d' = q_services d;
  dc_dbs : evolves (fun x => db_ServiceID x = sid) (stays db_owner db_live) (q_dbs d) (q_dbs d');
  dc_versions : all_kept eq (q_versions d) (q_versions d');
  dc_folders : q_folders d' = q_folders d; dc_queries : q_queries d' = q_queries d
}.
Lemma db_changes_refl sid d : db_changes sid d d.
Proof. split; try done; first [by apply evolves_refl|by apply all_kept_refl]. Qed.
Lemma db_changes_trans sid d1 d2 d3 : db_changes sid d1 d2 -> db_changes sid d2 d3 -> db_changes sid d1 d3.
Proof.
  intros [A1 A2 A3 [A4 A4'] A5 A6 A7] [B1 B2 B3 [B4 B4'] B5 B6 B7]. split; try congruence.
  - split; [|eapply all_kept_trans; [apply stays_trans|done|done]]. eapply untouched_trans; [|done|done]. done.
  - eapply all_kept_trans; [apply eq_trans|done|done].
Qed.

(** What the user may change: the items of the database that are not another user's. *)
Definition my_folder (uid dbID : string) (f : SavedQueryFolder) : Prop :=
  fo_ServiceDBID f = dbID /\ (fo_Scope f = SavedQueryScopePersonal -> fo_OwnerUserID f = Some uid).
Definition my_query (uid dbID : string) (x : SavedQuery) : Prop :=
  sq_ServiceDBID x = dbID /\ (sq_Scope x = SavedQueryScopePersonal -> sq_OwnerUserID x = Some uid).
Definition folder_owner (f : SavedQueryFolder) := (fo_ServiceDBID f, fo_OrgID f, fo_Scope f, fo_OwnerUserID f).
Definition query_owner (x : SavedQuery) := (sq_ServiceDBID x, sq_OrgID x, sq_Scope x, sq_OwnerUserID x).

(** What becomes of a query: a deleted folder, one of [gone], lets its queries go, whoever's they are. *)
Definition query_kept (uid dbID : string) (gone : string -> Prop) (x x' : SavedQuery) : Prop :=
  x' = x \/ my_query uid dbID x /\ stays query_owner sq_live x x' \/
  exists f now, gone f /\ sq_FolderID x = Some f /\ sq_live x = true /\ x' = unfiled now x.
Record query_changes (uid dbID oid : string) (gone : string -> Prop) d d' : Prop := {
  qc_orgs : q_orgs d' = q_orgs d; qc_teams : q_teams d' = q_teams d; qc_services : q_services d' = q_services d;
  qc_dbs : q_dbs d' = q_dbs d; qc_versions : q_versions d' = q_versions d;
  qc_folders : evolves (my_folder uid dbID) (stays folder_owner fo_live) (q_folders d) (q_folders d');
  qc_queries : all_kept (query_kept uid dbID gone) (q_queries d) (q_queries d');
  qc_new k x : q_queries d !! k = None -> q_queries d' !! k = Some x -> my_query uid dbID x /\ sq_OrgID x = oid
}.
Lemma query_kept_refl uid dbID gone x : query_kept uid dbID gone x x.
Proof. by left. Qed.
#[local] Hint Resolve query_kept_refl : core.
Lemma query_changes_refl uid dbID oid gone d : query_changes uid dbID oid gone d d.
Proof. split; try done; first [by apply evolves_refl|by apply all_kept_refl|congruence]. Qed.

(** ** Rows put into a table *)

Lemma in_db_put d k x dbID oid :
  (forall x0, q_dbs d !! k = Some x0 -> db_OrgID x = db_OrgID x0) -> in_db d dbID oid ->
  in_db (set_dbs d (<[k := x]> (q_dbs d))) dbID oid.
Proof.
  intros Hk (y & Hy & Ho). unfold in_db. cbn. destruct (decide (dbID = k)) as [->|Hne].
  - rewrite lookup_insert_eq. exists x. split; [done|]. rewrite (Hk y Hy). done.
  - rewrite lookup_insert_ne by done. eauto.
Qed.
#[local] Ltac rows_stay Hrows :=
  let k := fresh "k" in let r := fresh "r" in let Hl := fresh "Hl" in
  intros k r Hl; destruct (Hrows k r Hl); split; cbn; auto using in_db_put.
#[local] Ltac row_put Hrows Hk :=
  let k := fresh "k" in let r := fresh "r" in let Hl := fresh "Hl" in
  intros k r [[<- <-]|[_ Hl]]%lookup_insert_Some; [destruct Hk|destruct (Hrows k r Hl)]; split; cbn; auto.

Lemma folder_fk_put d k f o : folder_fk o d = true -> folder_fk o (set_folders d (<[k := f]> (q_folders d))) = true.
Proof.
  unfold folder_fk. destruct o as [i|]; [|done]. cbn. rewrite !found_true. intros [y Hy]. destruct (decide (i = k)) as [->|Hne].
  - rewrite lookup_insert_eq. eauto.
  - rewrite lookup_insert_ne by done. eauto.
Qed.
#[local] Hint Resolve folder_fk_put : core.
Lemma same_db_name_true sid n x : same_db_name sid n x = true <-> db_ServiceID x = sid /\ db_Name x = n /\ db_live x = true.
Proof. unfold same_db_name. rewrite !andb_true_iff, !String.eqb_eq. tauto. Qed.
Lemma same_ref_true dbID ref x :
  same_ref dbID ref x = true <-> sq_ServiceDBID x = dbID /\ is_Some ref /\ sq_SourceRef x = ref /\ sq_live x = true.
Proof.
  unfold same_ref. rewrite !andb_true_iff, String.eqb_eq, bool_decide_eq_true, found_true.
  split; [intros [[[? [r ->]] ?] ?]|intros (? & [r ->] & ? & ?)]; split_and!; eauto.
Qed.

Lemma ok_put_db d k x :
  databases_ok d -> db_ok d k x -> (forall x0, q_dbs d !! k = Some x0 -> db_OrgID x = db_OrgID x0) ->
  (forall k' x', k' <> k -> q_dbs d !! k' = Some x' -> db_live x = true -> same_db_name (db_ServiceID x) (db_Name x) x' = false) ->
  databases_ok (set_dbs d (<[k := x]> (q_dbs d))).
Proof.
  intros [Hd Hv Hf Hq Hn Hm Hr] Hk Ho Hfree. split; cbn; [row_put Hd Hk|rows_stay Hv|rows_stay Hf|rows_stay Hq| |done|done].
  intros k1 k2 x1 x2 [[<- <-]|[N1 L1]]%lookup_insert_Some [[<- <-]|[N2 L2]]%lookup_insert_Some Hl Hs; [done| | |eauto].
  - by rewrite (Hfree k2 x2) in Hs.
  - apply same_db_name_true in Hs as (Es & En & El).
    assert (same_db_name (db_ServiceID x) (db_Name x) x1 = true) as Hx by (by apply same_db_name_true).
    by rewrite (Hfree k1 x1) in Hx.
Qed.
Lemma ok_put_version d k v :
  databases_ok d -> version_ok d k v ->
  (forall k' v', k' <> k -> q_versions d !! k' = Some v' -> ~ same_number v v') ->
  databases_ok (set_versions d (<[k := v]> (q_versions d))).
Proof.
  intros [Hd Hv Hf Hq Hn Hm Hr] Hk Hfree. split; cbn; [rows_stay Hd|row_put Hv Hk|rows_stay Hf|rows_stay Hq|done| |done].
  intros k1 k2 x1 x2 [[<- <-]|[N1 L1]]%lookup_insert_Some [[<- <-]|[N2 L2]]%lookup_insert_Some Hs; [done| | |eauto].
  - by destruct (Hfree k2 x2).
  - destruct (Hfree k1 x1); [done|done|]. destruct Hs. by split.
Qed.
Lemma ok_put_folder d k f :
  databases_ok d -> folder_ok d k f -> databases_ok (set_folders d (<[k := f]> (q_folders d))).
Proof.
  intros [Hd Hv Hf Hq Hn Hm Hr] Hk. split; cbn; [rows_stay Hd|rows_stay Hv|row_put Hf Hk|rows_stay Hq|done|done|done].
Qed.
Lemma ok_put_query d k x :
  databases_ok d -> query_ok d k x ->
  (forall k' x', k' <> k -> q_queries d !! k' = Some x' -> sq_live x = true -> same_ref (sq_ServiceDBID x) (sq_SourceRef x) x' = false) ->
  databases_ok (set_queries d (<[k := x]> (q_queries d))).
Proof.
  intros [Hd Hv Hf Hq Hn Hm Hr] Hk Hfree. split; cbn; [rows_stay Hd|rows_stay Hv|rows_stay Hf|row_put Hq Hk|done|done|].
  intros k1 k2 x1 x2 [[<- <-]|[N1 L1]]%lookup_insert_Some [[<- <-]|[N2 L2]]%lookup_insert_Some Hl Hs; [done| | |eauto].
  - by rewrite (Hfree k2 x2) in Hs.
  - apply same_ref_true in Hs as (Es & Er & En & El).
    assert (same_ref (sq_ServiceDBID x) (sq_SourceRef x) x1 = true) as Hx.
    { apply same_ref_true. split_and!; [done|by rewrite En|done|done]. }
    by rewrite (Hfree k1 x1) in Hx.
Qed.

Lemma query_changes_put uid dbID oid gone d k x :
  my_query uid dbID x -> (q_queries d !! k = None -> sq_OrgID x = oid) ->
  (forall x0, q_queries d !! k = Some x0 -> sq_live x0 = true /\ my_query uid dbID x0 /\ query_owner x = query_owner x0) ->
  query_changes uid dbID oid gone d (set_queries d (<[k := x]> (q_queries d))).
Proof.
  intros Hm Ho Hk. split; cbn; try done; [by apply evolves_refl| |].
  - apply all_kept_insert; [done|]. intros x0 Hx0. destruct (Hk x0 Hx0) as (Hl & Hm0 & Eo). right. left.
    split; [done|]. split; [done|congruence].
  - intros k' x' Hn [[<- <-]|[_ Hl]]%lookup_insert_Some; [auto|congruence].
Qed.
Lemma query_changes_folder uid dbID oid gone d k f :
  my_folder uid dbID f ->
  (forall f0, q_folders d !! k = Some f0 -> fo_live f0 = true /\ my_folder uid dbID f0 /\ folder_owner f = folder_owner f0) ->
  query_changes uid dbID oid gone d (set_folders d (<[k := f]> (q_folders d))).
Proof.
  intros Hm Hk. split; cbn; try done; [by apply evolves_put|by apply all_kept_refl|congruence].
Qed.
End Life.
