(* ===== verification/QuerySteps.v ===== *)
(** * QuerySteps: every statement and handler of databases and saved queries

    keeps the invariant of QueryLife and changes no more than it says. *)

From S2P Require Import Prelude GoStrings Effects ApiSpec Authz Identity Dependencies Table Requests QueryStore QueryHandlers QueryLife.
#[local] Open Scope nat_scope.
#[local] Open Scope string_scope.
Set Warnings "-clear-no-such-hyp".

Section Statements.
Context `{Collation} `{UuidText} `{SchemaColumn} `{ResultOrder}.
Context (d d' : QueryTables) (now : Z).
Hypothesis Hok : databases_ok d.

Lemma stored_schema_kept o o' : stored_schema o = Some o' -> stored_schema o' = Some o'.
Proof using.
  unfold stored_schema. destruct (column (default "{}" o)) as [s|] eqn:E; [|done]. cbn. intros [= <-]. cbn.
  by rewrite (column_idem _ _ E).
Qed.
Lemma stored_db_kept c c' : stored_db c = Some c' -> stored_db c' = Some c' /\ dc_DBName c' = dc_DBName c.
Proof using.
  unfold stored_db. destruct (stored_schema (dc_SchemaJSON c)) as [s|] eqn:E; [|done]. cbn. destruct (int4 _) eqn:Ei; [|done].
  intros [= <-]. cbn. by rewrite (stored_schema_kept _ _ E), Ei.
Qed.

(** ** Databases *)

Section Databases.
Context (sid oid : string).
#[local] Abbreviation step := (databases_ok d' /\ db_changes sid d d').

Lemma db_changes_put k x :
  db_ServiceID x = sid ->
  (forall x0, q_dbs d !! k = Some x0 -> db_live x0 = true /\ db_ServiceID x0 = sid /\ db_owner x = db_owner x0) ->
  db_changes sid d (set_dbs d (<[k := x]> (q_dbs d))).
Proof using.
  intros Hm Hk. split; cbn; try done; first [by apply evolves_put|by apply all_kept_refl].
Qed.

Lemma insert_db_step x :
  db_ServiceID x = sid -> db_OrgID x = oid -> in_service d sid oid -> insert_db now x d = Ok d' -> step.
Proof using Hok.
  intros Hs Ho Hown. unfold insert_db. past. bools.
  match goal with Hx : stored_db _ = Some _ |- _ => apply stored_db_kept in Hx as [Hst Hname] end. split.
  - apply ok_put_db; [done| |congruence|].
    + split; cbn; [done|by subst|done].
    + intros k' x' _ Hx' _. unfold db_Name. cbn. rewrite Hname.
      match goal with Hx : exists_row _ _ = false |- _ => by apply (proj1 (exists_row_false _ _) Hx k' x') end.
  - apply db_changes_put; [done|congruence].
Qed.
Lemma update_db_step x :
  (forall old, q_dbs d !! db_ID x = Some old -> db_ServiceID old = sid) -> update_db now x d = Ok d' -> step.
Proof using Hok.
  intros Hs. unfold update_db. past; try (split; [done|apply db_changes_refl]). bools.
  match goal with Hx : stored_db _ = Some _ |- _ => apply stored_db_kept in Hx as [Hst Hname] end.
  match goal with Hx : q_dbs d !! _ = Some ?o |- _ => rename o into old; rename Hx into Hold end.
  destruct (ok_dbs _ Hok _ _ Hold) as [Hid Hown _]. split.
  - apply ok_put_db; [done| | |].
    + by split.
    + intros x0. rewrite Hold. by intros [= <-].
    + intros k' x' Hne Hx' _. unfold db_Name. cbn. rewrite Hname.
      match goal with Hx : other_row _ _ _ = false |- _ => by apply (proj1 (other_row_false _ _ _) Hx k' x') end.
  - apply db_changes_put; [by apply (Hs old)|]. intros x0. rewrite Hold. intros [= <-]. split_and!; [done|by apply Hs|done].
Qed.
Lemma delete_db_step id by_ :
  (forall old, q_dbs d !! id = Some old -> db_ServiceID old = sid) -> delete_db now id by_ d = Ok d' -> step.
Proof using Hok.
  intros Hs. unfold delete_db. past; try (split; [done|apply db_changes_refl]).
  match goal with Hx : q_dbs d !! _ = Some ?o |- _ => rename o into old; rename Hx into Hold end.
  destruct (ok_dbs _ Hok _ _ Hold) as [Hid Hown Hst]. split.
  - apply ok_put_db; [done|by split| |done]. intros x0. rewrite Hold. by intros [= <-].
  - apply db_changes_put; [by apply (Hs old)|]. intros x0. rewrite Hold. intros [= <-]. split_and!; [done|by apply Hs|done].
Qed.
Lemma insert_version_step v : (1 <= ve_VersionNumber v)%Z -> insert_version now v d = Ok d' -> step.
Proof using Hok.
  intros Hn. unfold insert_version. past. bools.
  match goal with Hx : stored_schema _ = Some _ |- _ => apply stored_schema_kept in Hx as Hst end.
  match goal with Hx : q_versions d !! _ = None |- _ => rename Hx into Hnone end. split.
  - apply ok_put_version; [done| |].
    + split; cbn; [done| |done|done]. by destruct (q_dbs d !! ve_ServiceDBID v).
    + intros k' v' _ Hv' [E1 E2]. cbn in *.
      match goal with Hx : exists_row _ _ = false |- _ => pose proof (proj1 (exists_row_false _ _) Hx k' v' Hv') as Hf end.
      cbn in Hf. unfold version_of in Hf. by rewrite E1, E2, String.eqb_refl, Z.eqb_refl in Hf.
  - split; cbn; try done; [by apply evolves_refl|]. apply all_kept_insert; [done|congruence].
Qed.
End Databases.

(** ** Saved queries *)

Section Queries.
Context (uid dbID oid : string) (gone : string -> Prop).
#[local] Abbreviation step := (databases_ok d' /\ query_changes uid dbID oid gone d d').

Lemma insert_folder_step f :
  my_folder uid dbID f -> fo_OrgID f = oid -> in_db d dbID oid -> insert_folder now f d = Ok d' -> step.
Proof using Hok.
  intros [Hdb Hp] Ho Hin. unfold insert_folder. past. bools. split.
  - apply ok_put_folder; [done|]. split; cbn; [done|by subst|done].
  - apply query_changes_folder; [by split|]. congruence.
Qed.
Lemma delete_folder_step id by_ :
  (forall f, q_folders d !! id = Some f -> my_folder uid dbID f) -> delete_folder now id by_ d = Ok d' -> step.
Proof using Hok.
  intros Hm. unfold delete_folder. past; try (split; [done|apply query_changes_refl]).
  match goal with Hx : q_folders d !! _ = Some ?o |- _ => rename o into f; rename Hx into Hf end.
  destruct (ok_folders _ Hok _ _ Hf) as [Hid Hown Hck]. split.
  - apply ok_put_folder; [done|by split].
  - apply query_changes_folder; [by apply (Hm f)|]. intros f0. rewrite Hf. intros [= <-]. split_and!; [done|by apply Hm|done].
Qed.

Lemma folder_fk_unfiled x : folder_fk (sq_FolderID (unfiled now x)) d = true.
Proof using. done. Qed.
Lemma clear_children_step id : gone id -> clear_children now id d = Ok d' -> step.
Proof using Hok.
  intros Hgone. unfold clear_children. past.
  set (p := fun x => bool_decide (sq_FolderID x = Some id) && sq_live x).
  assert (forall k x', update_where p (unfiled now) (q_queries d) !! k = Some x' ->
    exists x, q_queries d !! k = Some x /\ x' = if p x then unfiled now x else x) as Hrow.
  { intros k x'. rewrite lookup_update_where. destruct (q_queries d !! k) as [x|]; [|done]. cbn. intros [= <-]. eauto. }
  split.
  - destruct Hok as [Hd Hv Hf Hq Hn Hm Hr]. split; cbn; try done.
    + intros k r Hl. destruct (Hd k r Hl). by split.
    + intros k r Hl. destruct (Hv k r Hl). by split.
    + intros k r Hl. destruct (Hf k r Hl). by split.
    + intros k x' (x & Hx & ->)%Hrow. destruct (Hq k x Hx). destruct (p x); by split.
    + intros k k' x1 x2 (y1 & Hy1 & ->)%Hrow (y2 & Hy2 & ->)%Hrow Hl Hs. apply (Hr k k' y1 y2); [done|done| |].
      * by destruct (p y1).
      * by destruct (p y1), (p y2).
  - split; cbn; try done; [by apply evolves_refl| |].
    + intros k x Hx. exists (if p x then unfiled now x else x). split; [by rewrite lookup_update_where, Hx|].
      destruct (p x) eqn:E; [|by left]. right. right. apply andb_true_iff in E as [Ef%bool_decide_eq_true El]. eauto 7.
    + intros k x' Hn (x & Hx & _)%Hrow. congruence.
Qed.

Lemma insert_query_step x a :
  my_query uid dbID x -> sq_OrgID x = oid -> in_db d dbID oid -> (is_Some (sq_SourceRef x) -> sq_Scope x = SavedQueryScopeTeam) ->
  insert_query x a d = Ok d' -> step.
Proof using Hok.
  intros [Hdb Hp] Ho Hin Href. unfold insert_query. past. bools. split.
  - apply ok_put_query; [done| |].
    + split; cbn; [done|by subst|done|eauto|done|done].
    + intros k' x' _ Hx' _.
      match goal with Hx : exists_row _ _ = false |- _ => by apply (proj1 (exists_row_false _ _) Hx k' x') end.
  - apply query_changes_put; [by split|done|]. congruence.
Qed.
Lemma create_query_step x :
  my_query uid dbID x -> sq_OrgID x = oid -> in_db d dbID oid -> (is_Some (sq_SourceRef x) -> sq_Scope x = SavedQueryScopeTeam) ->
  create_query now x d = Ok d' -> step.
Proof using Hok.
  intros Hm Ho Hin Href. unfold create_query. destruct (query_params x); [|done]. by apply insert_query_step.
Qed.

(** A row that keeps what a query is known by. *)
Lemma put_query_step old team c a :
  q_queries d !! sq_ID old = Some old -> sq_live old = true -> my_query uid dbID old ->
  folder_fk (qc_FolderID c) d = true -> found (au_DeletedAt a) = false ->
  let row := with_query old team c a in
  databases_ok (set_queries d (<[sq_ID old := row]> (q_queries d))) /\
  query_changes uid dbID oid gone d (set_queries d (<[sq_ID old := row]> (q_queries d))).
Proof using Hok.
  intros Hold Hl Hm Hfk Ha row. destruct (ok_queries _ Hok _ _ Hold) as [Hid Hown Hck Htags Hf Href]. split.
  - apply ok_put_query; [done| |].
    + split; cbn; [done|done|done|eauto|done|done].
    + intros k' x' Hne Hx' _. apply not_true_iff_false. intros Hs. apply Hne. symmetry.
      by apply (ok_refs _ Hok (sq_ID old) k' old x').
  - apply query_changes_put; [done|congruence|]. intros x0. rewrite Hold. intros [= <-]. by split_and!.
Qed.
Lemma update_query_step x :
  (forall old, q_queries d !! sq_ID x = Some old -> my_query uid dbID old) -> update_query now x d = Ok d' -> step.
Proof using Hok.
  intros Hm. unfold update_query. past; try (split; [done|apply query_changes_refl]). bools.
  match goal with Hx : q_queries d !! _ = Some ?o |- _ => rename o into old; rename Hx into Hold end.
  pose proof (Hm old eq_refl) as Hmy. destruct (ok_queries _ Hok _ _ Hold) as [Hid _ _ _ _ _]. rewrite <-Hid in Hold |- *.
  apply put_query_step; [done|done|done|done|].
  match goal with Hx : sq_live old = true |- _ => by apply negb_true_iff in Hx end.
Qed.
Lemma delete_query_step id by_ :
  (forall old, q_queries d !! id = Some old -> my_query uid dbID old) -> delete_query now id by_ d = Ok d' -> step.
Proof using Hok.
  intros Hm. unfold delete_query. past; try (split; [done|apply query_changes_refl]).
  match goal with Hx : q_queries d !! _ = Some ?o |- _ => rename o into old; rename Hx into Hold end.
  destruct (ok_queries _ Hok _ _ Hold) as [Hid Hown Hck Htags Hf Href]. split.
  - apply ok_put_query; [done|by split|done].
  - apply query_changes_put; [by apply (Hm old)|congruence|]. intros x0. rewrite Hold. intros [= <-]. split_and!; [done|by apply Hm|done].
Qed.
Lemma upsert_query_step x out :
  my_query uid dbID x -> sq_OrgID x = oid -> in_db d dbID oid -> sq_Scope x = SavedQueryScopeTeam ->
  (forall k old, q_queries d !! k = Some old -> same_ref dbID (sq_SourceRef x) old = true -> my_query uid dbID old) ->
  upsert_query now x d = Ok (out, d') -> step.
Proof using Hok.
  intros Hm Ho Hin Hsc Hold. unfold upsert_query. past; bools.
  - match goal with Hx : select_one _ _ = Some ?o |- _ => rename o into old; apply select_one_Some in Hx as [[k Hk] Hs] end.
    destruct (ok_queries _ Hok _ _ Hk) as [Hid _ _ _ _ _]. destruct Hm as [Edb _]. rewrite Edb in Hs. subst d'.
    destruct (proj1 (same_ref_true _ _ _) Hs) as (_ & _ & _ & Hl).
    apply put_query_step; [by rewrite Hid|done|by eapply Hold|done|by apply negb_true_iff in Hl].
  - subst a. by eapply insert_query_step.
Qed.
End Queries.
End Statements.

(** ** Handlers *)

Section Handlers.
Context `{Collation} `{UuidText} `{SchemaColumn} `{ResultOrder} `{UuidGen}.
#[local] Abbreviation W := (World QueryTables).

(** A snapshot adds a version, or nothing. *)
Lemma snapshot_wp x label isAuto uid hash (Q : result go_err ServiceDBVersion -> W -> Prop) w :
  (forall r w', w_db w' = w_db w -> match r with Ok _ => False | _ => True end -> Q r w') ->
  (forall v now w', insert_version now v (w_db w) = Ok (w_db w') -> (1 <= ve_VersionNumber v)%Z ->
     (exists id t, v = new_version id x (ve_VersionNumber v) label isAuto uid hash t) ->
     ve_VersionNumber v = ((if scan_before_result then max_version (db_ID x) (w_db w) else 0) + 1)%Z ->
     Q (Ok v) w') ->
  Q (createServiceDBVersionSnapshot x label isAuto uid hash w).1 (createServiceDBVersionSnapshot x label isAuto uid hash w).2.
Proof.
  intros Herr Hok. unfold createServiceDBVersionSnapshot. apply (wp_func _ Q). unfold LatestServiceDBVersionNumber. rewrite wp_bind, wp_try.
  destruct (query _ _ w) as [[n|e] w1] eqn:E; apply query_cases in E as [Hd Hn]; [|by apply Herr].
  destruct (Hn n eq_refl) as [_ ->]. rewrite wp_bind, wp_try. pose proof (NewString_db w1) as Hd1.
  destruct (NewString w1) as [[id|e] w2]; cbn in Hd1; [|apply Herr; [congruence|done]].
  rewrite wp_bind, wp_call. pose proof (time_now_db w2) as Hd2. destruct (time_now w2) as [now w3]. cbn [fst snd] in *.
  set (n := (if scan_before_result then max_version (db_ID x) (w_db w) else 0)%Z).
  assert (0 <= n)%Z as Hpos.
  { unfold n, max_version. destruct scan_before_result; [|done]. generalize (map ve_VersionNumber (select (version_of (db_ID x)) (q_versions (w_db w)))).
    intros l. induction l; cbn; lia. }
  rewrite wp_bind, wp_try. destruct (CreateServiceDBVersion _ w3) as [r w4] eqn:E. unfold CreateServiceDBVersion in E.
  set (v := new_version id x (n + 1) label isAuto uid hash now) in *.
  assert ((exists e, r = Err e /\ w_db w4 = w_db w3) \/ (r = Ok tt /\ exists t, insert_version t v (w_db w3) = Ok (w_db w4))) as Hr.
  { destruct (ve_CreatedAt v =? 0)%Z.
    - apply timed_cases in E as [?|(-> & t & _ & E)]; eauto.
    - unfold func, gbind, gret, call in E. destruct (exec (insert_version (ve_CreatedAt v) v) w3) as [r0 w0] eqn:Ee.
      injection E as <- <-. apply exec_cases in Ee as [?|[-> Ee]]; eauto. }
  destruct Hr as [(e & -> & Hd4)|(-> & t & Hi)]; [apply Herr; [congruence|done]|].
  apply wp_ret. apply (Hok v t); [congruence| |exists id, now; done|done]. cbn. lia.
Qed.

Section Serve.
Context (ctx : option Principal) (oid sid : string) (w : W).
Hypothesis Hok : databases_ok (w_db w).

(** ** Databases *)

Definition shown_db (b : query_body) : Prop :=
  match b with
  | DBList l => Forall (fun x => db_owner x = (sid, oid) /\ db_live x = true) l
  | OneDB x => db_owner x = (sid, oid)
  | OneVersion v => exists x, q_dbs (w_db w) !! ve_ServiceDBID v = Some x /\ db_owner x = (sid, oid)
  | VersionList l => l = []
  | _ => False
  end.
Record db_post (r : QReply) (w' : W) : Prop := {
  dp_ok : databases_ok (w_db w'); dp_changes : db_changes sid (w_db w) (w_db w');
  dp_answer : match payload r with Json b => shown_db b | _ => True end
}.
Definition good (d : QueryTables) : Prop := databases_ok d /\ db_changes sid (w_db w) d.

Lemma good_quiet d : good d -> quiet d db_post.
Proof using.
  intros [Ho Hc] r w' [_ Hr]%andb_true_iff <-. split; [done|done|]. by destruct (payload r).
Qed.
Lemma good_start : good (w_db w).
Proof using Hok. split; [done|apply db_changes_refl]. Qed.
Lemma good_step d d' : good d -> databases_ok d' /\ db_changes sid d d' -> good d'.
Proof using. intros [_ Hc] [Ho Hc']. split; [done|by eapply db_changes_trans]. Qed.
Lemma good_reply d r w' :
  good d -> w_db w' = d -> match payload r with Json b => shown_db b | _ => True end -> db_post r w'.
Proof using. intros [Ho Hc] <- Hr. by split. Qed.

Lemma db_service_owned d : service_in oid sid d -> in_service d sid oid.
Proof using. intros (s & Hs & Ho & _). by exists s. Qed.
Lemma db_in d k x : databases_ok d -> in_service d sid oid -> q_dbs d !! k = Some x -> db_of sid x = true -> db_owner x = (sid, oid).
Proof using.
  intros Ho (s & Hs & Hso) Hx [_ Hd%String.eqb_eq]%andb_true_iff. destruct (ok_dbs _ Ho k x Hx) as [_ (s' & Hs' & Ho') _].
  unfold db_owner. rewrite Hd in *. f_equal. congruence.
Qed.

Lemma snapshot_ends d x label isAuto uid hash r w1 :
  good d -> w_db w1 = d -> (forall w', good (w_db w') -> db_post r w') ->
  wp (ignoring_errors (createServiceDBVersionSnapshot x label isAuto uid hash) ;;; gret r) db_post db_post w1.
Proof using.
  intros Hg Hw Hr. apply wp_bind. unfold ignoring_errors. rewrite wp_bind, wp_call.
  apply (snapshot_wp x label isAuto uid hash (fun r0 w' => wp match r0 with Ok _ | Err (Failed _) => gret tt | Err e => greturn (fail e) end
    db_post (fun _ w' => wp (gret r) db_post db_post w') w')).
  - intros [v|[e| |]] w' Hd Hx; [done|..].
    + apply wp_ret, wp_ret, Hr. by rewrite Hd, Hw.
    + apply wp_return. apply (good_quiet d); [done|done|congruence].
    + apply wp_return. apply (good_quiet d); [done|done|congruence].
  - intros v now w' Hi Hn _ _. apply wp_ret, wp_ret, Hr. apply (good_step d); [done|]. rewrite Hw in Hi.
    by eapply insert_version_step; [apply Hg|..].
Qed.

(** A statement in the middle of a handler. *)
Lemma ends_mid {C} d (g : Z -> QueryTables -> result store_err QueryTables) (on_err : store_err -> QReply) (k : Go W QReply C)
    (Q : C -> W -> Prop) w1 :
  good d -> w_db w1 = d -> (forall e, refused (on_err e) = true) ->
  (forall now w', g now d = Ok (w_db w') -> wp k db_post Q w') ->
  wp (_ <- try (func (now <- call time_now ;; call (exec (g now)))) on_err ;; k) db_post Q w1.
Proof using.
  intros Hg Hw He Hk. rewrite wp_bind, wp_try. destruct (func _ w1) as [a w'] eqn:E.
  apply timed_cases in E as [(e & -> & Hd)|(-> & now & _ & Hd)]; [apply (good_quiet d); [done|apply He|congruence]|].
  rewrite Hw in Hd. by apply (Hk now).
Qed.
Lemma db_error_refused n e : refused (db_error n e) = true.
Proof using. by destruct e. Qed.

#[local] Ltac walk := pose proof (good_quiet _ good_start) as Hq;
  apply (func_ends db_post); repeat (cbv zeta; ends_step); cbv zeta;
  match goal with Hs : service_in _ _ _ |- _ => apply db_service_owned in Hs end.

Lemma serve_db_post q : db_post (serve_db ctx oid sid q w).1 (serve_db ctx oid sid q w).2.
Proof using Hok.
  destruct q as [n|b|id|id b|id|id|id b|id vid]; cbn [serve_db].
  - walk. apply wp_ret, (good_reply (w_db w)); [apply good_start|done|]. cbn. apply listed_rows.
    intros k x Hk [[Hs Hl]%andb_true_iff _]%andb_true_iff. split; [|done]. eapply db_in; [done|done|done|].
    unfold db_of. by rewrite Hl, Hs.
  - walk. eapply ends_mid; [apply good_start|done|apply db_error_refused|]. intros now w2 Hd. eapply snapshot_ends; [|done|].
    + apply (good_step (w_db w)); [apply good_start|]. eapply insert_db_step; [done| | | |exact Hd]; done.
    + intros wz Hg. by apply (good_reply (w_db wz)).
  - walk. apply wp_ret, (good_reply (w_db w)); [apply good_start|done|]. by eapply db_in.
  - walk. eapply ends_mid; [apply good_start|done|apply db_error_refused|]. intros now w2 Hd.
    match goal with Hx : q_dbs (w_db w) !! id = Some ?x, Ho : db_of sid ?x = true |- _ =>
      destruct (ok_dbs _ Hok _ _ Hx) as [Hid _ _]; pose proof (db_in _ _ _ Hok ltac:(eassumption) Hx Ho) as Hown end.
    assert (good (w_db w2)) as Hg.
    { apply (good_step (w_db w)); [apply good_start|]. eapply update_db_step; [done| |exact Hd]. cbn. rewrite Hid. intros old.
      match goal with Hx : q_dbs (w_db w) !! id = Some ?x |- _ => rewrite Hx; intros [= <-] end. by injection Hown. }
    destruct (String.eqb _ _).
    + apply wp_bind, wp_ret, wp_ret. by apply (good_reply (w_db w2)).
    + eapply snapshot_ends; [exact Hg|done|]. intros wz Hg'. by apply (good_reply (w_db wz)).
  - walk. eapply ends_mid; [apply good_start|done|by intros []|]. intros now w2 Hd. apply wp_ret, (good_reply (w_db w2)); [|done|done].
    apply (good_step (w_db w)); [apply good_start|]. eapply delete_db_step; [done| |exact Hd]. intros old Hold. simplify_option_eq.
    match goal with Hx : db_of sid _ = true |- _ => by apply andb_true_iff in Hx as [_ ?%String.eqb_eq] end.
  - pose proof (good_quiet _ good_start) as Hq. apply (func_ends db_post). do 2 ends_step.
    apply wp_bind. eapply ends_scan; [done|done|]. intros l w2 Hl Hw2. apply wp_ret, (good_reply (w_db w)); [apply good_start|done|].
    cbn. unfold scan_versions in Hl. by destruct (order_by _ _); simplify_eq.
  - walk. match goal with Hx : q_dbs (w_db w) !! id = Some ?x, Ho : db_of sid ?x = true |- _ =>
      destruct (ok_dbs _ Hok _ _ Hx) as [Hid _ _]; pose proof (db_in _ _ _ Hok ltac:(eassumption) Hx Ho) as Hown; rename x into db; rename Hx into Hdb end.
    eapply ends_mid; [apply good_start|done|apply db_error_refused|]. intros now w2 Hd.
    assert (good (w_db w2)) as Hg.
    { apply (good_step (w_db w)); [apply good_start|]. eapply update_db_step; [done| |exact Hd]. cbn. rewrite Hid, Hdb.
      intros old [= <-]. by injection Hown. }
    rewrite wp_bind, wp_try. set (db' := changed_db _ _ _ _).
    match goal with |- let '(_, _) := ?m in _ => rewrite (surjective_pairing m) end.
    apply (snapshot_wp db' _ _ _ _ (fun r0 w' => match r0 with
      | Ok v => wp (gret (JSON 201 (OneVersion v))) db_post db_post w' | Err e => db_post (fail e) w' end)).
    + intros [v|e] wz Hdz Hx; [done|]. apply (good_quiet (w_db w2)); [done|apply fail_refused|done].
    + intros v t wz Hi Hn (i & t' & Hv) _. apply wp_ret, (good_reply (w_db wz)); [|done|].
      * apply (good_step (w_db w2)); [done|]. by eapply insert_version_step; [apply Hg|..].
      * cbn. exists db. rewrite Hv. cbn. by rewrite Hid.
  - walk. match goal with Hx : q_dbs (w_db w) !! id = Some ?x, Ho : db_of sid ?x = true |- _ =>
      destruct (ok_dbs _ Hok _ _ Hx) as [Hid _ _]; pose proof (db_in _ _ _ Hok ltac:(eassumption) Hx Ho) as Hown; rename x into db; rename Hx into Hdb end.
    rewrite wp_bind. unfold ignoring_errors. rewrite wp_bind, wp_call.
    match goal with |- wp _ _ ?R _ => set (rest := R) end.
    assert (forall wz, good (w_db wz) -> rest tt wz) as Hrest.
    { intros wz Hg. unfold rest. eapply ends_mid; [exact Hg|done|intros e; apply HttpError_refused|]. intros now w2 Hd.
      apply wp_ret, (good_reply (w_db w2)); [|done|done]. apply (good_step (w_db wz)); [done|].
      eapply update_db_step; [apply Hg| |exact Hd]. cbn. rewrite Hid. intros old Hold.
      destruct Hg as [_ [_ _ _ [_ Hkept] _ _ _]]. destruct (Hkept _ _ Hdb) as (x' & Hx' & Eo & _).
      rewrite Hold in Hx'. injection Hx' as <-. unfold db_owner in Eo, Hown. congruence. }
    eapply (snapshot_wp _ _ _ _ _ (fun r0 w' => wp match r0 with Ok _ | Err (Failed _) => gret tt | Err e => greturn (fail e) end
      db_post rest w')).
    + intros [v|[e| |]] wz Hdz Hx; [done|..].
      * apply wp_ret, Hrest. rewrite Hdz. match goal with Hw : w_db _ = w_db w |- _ => rewrite Hw end. apply good_start.
      * apply wp_return, (good_quiet (w_db w)); [apply good_start|done|congruence].
      * apply wp_return, (good_quiet (w_db w)); [apply good_start|done|congruence].
    + intros v t wz Hi Hn _ _. apply wp_ret, Hrest, (good_step (w_db w)); [apply good_start|].
      match goal with Hw : w_db ?w1 = w_db w, Hi : insert_version _ _ (w_db ?w1) = _ |- _ => rewrite Hw in Hi end.
      by eapply insert_version_step.
Qed.
End Serve.

(** ** Saved queries *)

Lemma clear_children_frame now id d d' : clear_children now id d = Ok d' -> q_folders d' = q_folders d.
Proof. unfold clear_children. by past. Qed.
Lemma delete_folder_frame now id by_ d d' : delete_folder now id by_ d = Ok d' -> q_queries d' = q_queries d.
Proof. unfold delete_folder. by past. Qed.
(** First the queries change, then the folders. *)
Lemma query_changes_both uid dbID oid gone d1 d2 d3 :
  q_folders d2 = q_folders d1 -> q_queries d3 = q_queries d2 -> query_changes uid dbID oid gone d1 d2 ->
  query_changes uid dbID oid gone d2 d3 -> query_changes uid dbID oid gone d1 d3.
Proof.
  intros Hf Hq [A1 A2 A3 A4 A5 _ A7 A8] [B1 B2 B3 B4 B5 B6 _ _]. split; try congruence; rewrite ?Hq; try done; by rewrite Hf in B6.
Qed.

Section ServeQueries.
Context (ctx : option Principal) (oid sid dbID : string) (w : W).
Hypothesis Hok : databases_ok (w_db w).

(** The user the request comes from; without one it is refused. *)
Definition caller : string := match ctx with Some p => p_UserID p | None => "" end.
(** The folder the request deletes: a live one of the database that is not another user's. *)
Definition gone_of (q : query_request) (id : string) : Prop :=
  q = QDeleteFolder id /\ exists f, q_folders (w_db w) !! id = Some f /\ fo_live f = true /\ my_folder caller dbID f.
Definition shown_query (b : query_body) : Prop :=
  match b with
  | FolderList l => Forall (fun f => my_folder caller dbID f /\ fo_OrgID f = oid /\ fo_live f = true) l
  | OneFolder f => my_folder caller dbID f /\ fo_OrgID f = oid
  | QueryList l => Forall (fun x => my_query caller dbID x /\ sq_OrgID x = oid /\ sq_live x = true) l
  | OneQuery x => my_query caller dbID x /\ sq_OrgID x = oid
  | Synced _ _ => True
  | _ => False
  end.
Record query_post (q : query_request) (r : QReply) (w' : W) : Prop := {
  qp_ok : databases_ok (w_db w'); qp_changes : query_changes caller dbID oid (gone_of q) (w_db w) (w_db w');
  qp_atomic : succeeded r = false -> (forall id, q <> QDeleteFolder id) -> w_db w' = w_db w;
  qp_answer : match payload r with Json b => shown_query b | _ => True end
}.
Lemma query_quiet q : quiet (w_db w) (query_post q).
Proof using Hok.
  intros r w' [_ Hr]%andb_true_iff Hd. split; [by rewrite Hd|rewrite Hd; apply query_changes_refl|done|]. by destruct (payload r).
Qed.
Lemma query_read q st b w' : shown_query b -> w_db w' = w_db w -> query_post q (JSON st b) w'.
Proof using Hok. intros Hb Hd. split; [by rewrite Hd|rewrite Hd; apply query_changes_refl|done|done]. Qed.
Lemma query_write q r w' :
  succeeded r = true -> match payload r with Json b => shown_query b | _ => True end ->
  databases_ok (w_db w') /\ query_changes caller dbID oid (gone_of q) (w_db w) (w_db w') -> query_post q r w'.
Proof using. intros Hs Hb [Ho Hc]. split; [done|done|congruence|done]. Qed.

Lemma db_in_org x :
  service_in oid sid (w_db w) -> q_dbs (w_db w) !! dbID = Some x -> db_of sid x = true -> in_db (w_db w) dbID oid.
Proof using Hok.
  intros Hs Hx Ho. exists x. split; [done|]. pose proof (db_in oid sid _ _ _ Hok (db_service_owned _ _ _ Hs) Hx Ho) as E. by injection E.
Qed.
Lemma in_db_unique d o o' : in_db d dbID o -> in_db d dbID o' -> o' = o.
Proof using. intros (x & Hx & <-) (x' & Hx' & <-). congruence. Qed.
Lemma folder_in k f :
  in_db (w_db w) dbID oid -> q_folders (w_db w) !! k = Some f -> fo_ServiceDBID f = dbID -> fo_OrgID f = oid.
Proof using Hok. intros Hin Hf E. destruct (ok_folders _ Hok k f Hf) as [_ Ho _]. rewrite E in Ho. by eapply in_db_unique. Qed.
Lemma query_in k x :
  in_db (w_db w) dbID oid -> q_queries (w_db w) !! k = Some x -> sq_ServiceDBID x = dbID -> sq_OrgID x = oid.
Proof using Hok. intros Hin Hf E. destruct (ok_queries _ Hok k x Hf) as [_ Ho _ _ _ _]. rewrite E in Ho. by eapply in_db_unique. Qed.

#[local] Ltac enter q := pose proof (query_quiet q) as Hq;
  apply (func_ends (query_post q)); unfold in_database, ensureDBInService; repeat (cbv zeta; ends_step); cbv zeta;
  match goal with Hs : service_in oid sid _, Hx : q_dbs _ !! dbID = Some ?x, Ho : db_of sid ?x = true |- _ =>
    pose proof (db_in_org x Hs Hx Ho) as Hin end.
(** The caller is the principal of the context. *)
#[local] Ltac the_caller := match goal with Hc : ctx = Some ?p |- _ =>
  assert (caller = p_UserID p) as Hcaller by (unfold caller; by rewrite Hc) end.

Lemma owner_for_mine scope : is_scope scope = true -> scope = SavedQueryScopePersonal -> owner_for scope caller = Some caller.
Proof using. intros _ ->. done. Qed.
Lemma not_mine_mine scope o : not_mine scope o caller = false -> scope = SavedQueryScopePersonal -> o = Some caller.
Proof using. unfold not_mine. intros Hn ->. cbn in Hn. by apply negb_false_iff, bool_decide_eq_true in Hn. Qed.
Lemma owner_is_mine scope o : owner_is (owner_for scope caller) o = true -> scope = SavedQueryScopePersonal -> o = Some caller.
Proof using. unfold owner_is, owner_for. intros Ho ->. cbn in Ho. by apply bool_decide_eq_true in Ho. Qed.
Lemma team_mine x k ref :
  q_queries (w_db w) !! k = Some x -> same_ref dbID ref x = true -> sq_Scope x = SavedQueryScopeTeam -> my_query caller dbID x.
Proof using. intros _ (Hd & _)%same_ref_true Hs. split; [done|]. rewrite Hs. done. Qed.

Lemma serve_query_post q : query_post q (serve_query ctx oid sid dbID q w).1 (serve_query ctx oid sid dbID q w).2.
Proof using Hok.
  destruct q as [s|b|id|s|b|id b|id|b]; cbn [serve_query].
  - enter (QListFolders s). the_caller. apply wp_ret, query_read; [|done]. cbn. apply listed_rows. rewrite <-Hcaller.
    intros k f Hk [[[Hd%String.eqb_eq Hs%String.eqb_eq]%andb_true_iff Hl]%andb_true_iff Ho]%andb_true_iff.
    split_and!; [|by eapply folder_in|done]. split; [done|]. rewrite Hs. by apply owner_is_mine.
  - enter (QCreateFolder b). the_caller. rewrite <-Hcaller. eapply ends_write; [done|done|]. intros now w2 Hd.
    match goal with Hs : negb (is_scope _) = false |- _ => apply negb_false_iff in Hs; rename Hs into Hsc end.
    eapply query_write; [done|split; [split; [done|by apply owner_for_mine]|done]|].
    eapply insert_folder_step; [done| | | |exact Hd]; [split; [done|by apply owner_for_mine]|done|done].
  - enter (QDeleteFolder id). the_caller. rewrite <-Hcaller.
    match goal with Hx : folder_of dbID ?x = true |- _ => rename x into f; apply andb_true_iff in Hx as [Hl Hdb%String.eqb_eq] end.
    match goal with Hx : not_mine _ _ _ = false, Hf : q_folders _ !! id = Some f |- _ => rename Hx into Hnm; rename Hf into Hfo end.
    rewrite <-Hcaller in Hnm.
    assert (forall f0, q_folders (w_db w) !! id = Some f0 -> my_folder caller dbID f0) as Hmine.
    { intros f0. rewrite Hfo. intros [= <-]. split; [done|]. by apply not_mine_mine. }
    assert (gone_of (QDeleteFolder id) id) as Hgone by (split; [done|]; exists f; by auto).
    rewrite wp_bind, wp_try. unfold SoftDeleteSavedQueryFolder.
    match goal with |- let '(_, _) := ?m in _ => rewrite (surjective_pairing m) end.
    match goal with |- context [func ?m ?w0] =>
      apply (wp_func m (fun r0 w9 => match r0 with Ok _ => wp (gret no_content) (query_post (QDeleteFolder id)) (query_post (QDeleteFolder id)) w9
        | Err e => query_post (QDeleteFolder id) (HttpError e) w9 end)) end.
    match goal with Hw : w_db ?w0 = w_db w |- wp _ _ _ ?w0 => pose proof (time_now_db w0) as Hd1; rewrite wp_bind, wp_call; rewrite Hw in Hd1 end.
    destruct (time_now _) as [now w1]. cbn [fst snd] in *.
    rewrite wp_bind, wp_try. destruct (exec (clear_children now id) w1) as [r1 w2] eqn:E1.
    apply exec_cases in E1 as [(e & -> & Hd2)|(-> & E1)]; [apply Hq; [apply HttpError_refused|congruence]|].
    rewrite Hd1 in E1. pose proof (clear_children_frame _ _ _ _ E1) as Hfs. apply (clear_children_step _ _ _ Hok caller dbID oid (gone_of (QDeleteFolder id))) in E1 as [Ho1 Hc1]; [|done].
    rewrite wp_call. destruct (exec (delete_folder now id caller) w2) as [r2 w3] eqn:E2. cbn [fst snd].
    apply exec_cases in E2 as [(e & -> & Hd3)|(-> & E2)].
    + split; [by rewrite Hd3|by rewrite Hd3|intros _ Hno; by destruct (Hno id)|]. by destruct e.
    + pose proof (delete_folder_frame _ _ _ _ _ E2) as Hqs.
      apply (delete_folder_step _ _ _ Ho1 caller dbID oid (gone_of (QDeleteFolder id))) in E2 as [Ho2 Hc2]; [|by rewrite Hfs].
      apply wp_ret, query_write; [done|done|]. split; [done|]. by eapply query_changes_both.
  - enter (QListQueries s). the_caller. apply wp_ret, query_read; [|done]. cbn. apply listed_rows. rewrite <-Hcaller.
    intros k f Hk [[[Hd%String.eqb_eq Hs%String.eqb_eq]%andb_true_iff Hl]%andb_true_iff Ho]%andb_true_iff.
    split_and!; [|by eapply query_in|done]. split; [done|]. rewrite Hs. by apply owner_is_mine.
  - enter (QCreateQuery b). the_caller. rewrite <-Hcaller. eapply ends_write; [done|done|]. intros now w2 Hd.
    match goal with Hs : negb (is_scope _) = false |- _ => apply negb_false_iff in Hs; rename Hs into Hsc end.
    eapply query_write; [done|split; [split; [done|by apply owner_for_mine]|done]|].
    eapply create_query_step; [done| | | | |exact Hd]; [split; [done|by apply owner_for_mine]|done|done|by intros []].
  - enter (QUpdateQuery id b). the_caller. rewrite <-Hcaller. eapply ends_write; [done|done|]. intros now w2 Hd.
    match goal with Hx : query_of dbID ?x = true |- _ => rename x into q; apply andb_true_iff in Hx as [Hl Hdb%String.eqb_eq] end.
    match goal with Hx : not_mine _ _ _ = false, Hf : q_queries _ !! id = Some q |- _ => rename Hx into Hnm; rename Hf into Hqo end.
    rewrite <-Hcaller in Hnm. pose proof (not_mine_mine _ _ Hnm) as Hown. destruct (ok_queries _ Hok _ _ Hqo) as [Hid _ _ _ _ _].
    eapply query_write; [done|split; [by split|exact (query_in _ _ Hin Hqo Hdb)]|].
    eapply update_query_step; [done| |exact Hd]. cbn. rewrite Hid, Hqo. intros old [= <-]. by split.
  - enter (QDeleteQuery id). the_caller. rewrite <-Hcaller. eapply ends_write; [done|done|]. intros now w2 Hd.
    match goal with Hx : query_of dbID ?x = true |- _ => rename x into q; apply andb_true_iff in Hx as [Hl Hdb%String.eqb_eq] end.
    match goal with Hx : not_mine _ _ _ = false, Hf : q_queries _ !! id = Some q |- _ => rename Hx into Hnm; rename Hf into Hqo end.
    rewrite <-Hcaller in Hnm. pose proof (not_mine_mine _ _ Hnm) as Hown.
    eapply query_write; [done|done|]. eapply delete_query_step; [done| |exact Hd]. rewrite Hqo. intros old [= <-]. by split.
  - enter (QSync b). the_caller. rewrite <-Hcaller. eapply (ends_returning); [done|done|]. intros out now w2 Hd. cbv beta.
    eapply query_write; [done|done|]. eapply upsert_query_step; [done| | | | | |exact Hd]; [by split|done|done|done|].
    intros k old Hold Hs. destruct (ok_queries _ Hok _ _ Hold) as [_ _ _ _ _ Href].
    eapply team_mine; [done|exact Hs|]. apply Href. apply same_ref_true in Hs as (_ & Hr & -> & _). done.
Qed.
End ServeQueries.
End Handlers.
