(* ===== verification/QueryFlow.v ===== *)
(** * QueryFlow: the properties of databases and saved queries

    Another user's personal queries stay private; the tables stay well formed; a
    synchronisation finds its query again; restoring a version; the list of versions. *)

From S2P Require Import Prelude GoStrings Effects ApiSpec Authz Identity Dependencies Table Requests QueryStore QueryHandlers QueryLife QuerySteps Faults.
#[local] Open Scope nat_scope.
#[local] Open Scope string_scope.
Set Warnings "-clear-no-such-hyp".

Section Flow.
Context `{Collation} `{UuidText} `{SchemaColumn} `{ResultOrder} `{UuidGen}.
#[local] Abbreviation W := (World QueryTables).
Implicit Types (d : QueryTables) (w : W).

(** ** Privacy *)

(** (C29) A request on the saved queries of a database, of any caller and with any
    body: it shows queries and folders of that database and org only, and of the personal
    ones only the caller's own; it changes no folder and no query of another user or
    another database, with one exception: a query filed in a folder that the caller deletes - a live
    one, the team's or the caller's own - leaves the folder, whoever's the query is, and nothing
    of it changes but its folder and its time of update; what the request adds is of the database
    and the org, and the caller's own when it is personal; and when it does not succeed it
    changes nothing, but deleting a folder may have emptied it. *)
Theorem personal_queries_private ctx oid sid dbID q w :
  databases_ok (w_db w) ->
  let '(r, w') := serve_query ctx oid sid dbID q w in
  let mine_f := my_folder (caller ctx) dbID in let mine_q := my_query (caller ctx) dbID in
  (match payload r with
   | Json (FolderList l) => Forall (fun f => mine_f f /\ fo_OrgID f = oid) l
   | Json (QueryList l) => Forall (fun x => mine_q x /\ sq_OrgID x = oid) l
   | Json (OneFolder f) => mine_f f /\ fo_OrgID f = oid
   | Json (OneQuery x) => mine_q x /\ sq_OrgID x = oid
   | Json (Synced _ _) => True
   | Json _ => False
   | _ => True
   end) /\
  (forall k f, q_folders (w_db w) !! k = Some f -> ~ mine_f f -> q_folders (w_db w') !! k = Some f) /\
  (forall k x, q_queries (w_db w) !! k = Some x -> ~ mine_q x -> exists x', q_queries (w_db w') !! k = Some x' /\
     (x' = x \/ exists f fo now, q = QDeleteFolder f /\ q_folders (w_db w) !! f = Some fo /\ fo_live fo = true /\ mine_f fo /\
        sq_FolderID x = Some f /\ sq_live x = true /\ x' = unfiled now x)) /\
  (forall k x, q_queries (w_db w) !! k = None -> q_queries (w_db w') !! k = Some x -> mine_q x /\ sq_OrgID x = oid) /\
  (succeeded r = false -> (forall f, q <> QDeleteFolder f) -> w_db w' = w_db w).
Proof.
  intros Hok. pose proof (serve_query_post ctx oid sid dbID w Hok q) as [_ Hc Ha Hb].
  destruct (serve_query ctx oid sid dbID q w) as [r w']. cbn [fst snd] in *. cbv zeta. split_and!.
  - destruct (payload r) as [|b| | |]; try done. destruct b; try done; (eapply Forall_impl; [exact Hb|]); cbn; tauto.
  - intros k f Hf Hn. destruct (qc_folders _ _ _ _ _ _ Hc) as [Hu _]. by apply (Hu k f Hn).
  - intros k x Hx Hn. destruct (qc_queries _ _ _ _ _ _ Hc k x Hx) as (x' & Hx' & [->|[[Hm _]|(f & now & (Hg & fo & Hfo & Hl & Hm) & Hf & Hlx & ->)]]).
    + eauto.
    + done.
    + eexists. split; [done|]. right. by exists f, fo, now.
  - apply (qc_new _ _ _ _ _ _ Hc).
  - done.
Qed.

(** ** Invariant *)

Inductive request : Type := OnDBs (q : db_request) | OnQueries (dbID : string) (q : query_request).
Definition serve (ctx : option Principal) (oid sid : string) (q : request) : Eff W QReply :=
  match q with OnDBs q => serve_db ctx oid sid q | OnQueries dbID q => serve_query ctx oid sid dbID q end.
Definition served (rqs : list (option Principal * string * string * request)) w : W :=
  fold_left (fun w rq => (serve rq.1.1.1 rq.1.1.2 rq.1.2 rq.2 w).2) rqs w.

Lemma serve_kept ctx oid sid q w :
  databases_ok (w_db w) ->
  databases_ok (w_db (serve ctx oid sid q w).2) /\
  all_kept eq (q_versions (w_db w)) (q_versions (w_db (serve ctx oid sid q w).2)) /\
  all_kept (stays db_owner db_live) (q_dbs (w_db w)) (q_dbs (w_db (serve ctx oid sid q w).2)).
Proof.
  intros Hok. destruct q as [q|dbID q]; cbn [serve].
  - pose proof (serve_db_post ctx oid sid w Hok q) as [Ho [_ _ _ [_ Hd] Hv _ _] _]. by split_and!.
  - pose proof (serve_query_post ctx oid sid dbID w Hok q) as [Ho [_ _ _ Hd Hv _ _ _] _ _].
    rewrite Hd, Hv. split_and!; [done|by apply all_kept_refl|apply all_kept_refl; intros; apply stays_refl].
Qed.

Lemma served_kept rqs w :
  databases_ok (w_db w) ->
  databases_ok (w_db (served rqs w)) /\ all_kept eq (q_versions (w_db w)) (q_versions (w_db (served rqs w))) /\
  all_kept (stays db_owner db_live) (q_dbs (w_db w)) (q_dbs (w_db (served rqs w))).
Proof.
  revert w. induction rqs as [|[[[ctx oid] sid] q] rqs IH]; intros w Hok; cbn.
  { split_and!; [done|by apply all_kept_refl|apply all_kept_refl; intros; apply stays_refl]. }
  destruct (serve_kept ctx oid sid q w Hok) as (Ho & Hv & Hd), (IH _ Ho) as (Ho' & Hv' & Hd').
  split_and!; [done|eapply all_kept_trans; [apply eq_trans|done|done]|eapply all_kept_trans; [apply stays_trans|done|done]].
Qed.
Lemma databases_served rqs w : databases_ok (w_db w) -> databases_ok (w_db (served rqs w)).
Proof. intros Hok. by apply served_kept. Qed.

(** (C30) Whatever requests on databases and saved queries are served, in whatever
    order and by whichever callers, their tables stay well formed: each row lies under its id;
    a database belongs to a service and that service's org, a folder and a query to a database
    and its org, and they are personal exactly when they have an owner; a query lies in a
    folder that exists; no two live databases of a service share a name, no two versions of a
    database a number, and no two live queries of a database a source reference.  A version
    never changes or disappears, and a database keeps its service and org. *)
Theorem reachable_databases_ok rqs w :
  databases_ok (w_db w) ->
  databases_ok (w_db (served rqs w)) /\
  (forall k v, q_versions (w_db w) !! k = Some v -> q_versions (w_db (served rqs w)) !! k = Some v) /\
  (forall k x, q_dbs (w_db w) !! k = Some x -> exists x', q_dbs (w_db (served rqs w)) !! k = Some x' /\
     db_owner x' = db_owner x /\ (db_live x = false -> x' = x)).
Proof.
  intros Hok. destruct (served_kept rqs w Hok) as (Ho & Hv & Hd). split_and!; [done| |exact Hd].
  intros k v Hk. by destruct (Hv k v Hk) as (v' & Hv' & <-).
Qed.

(** ** Synchronisation *)

Lemma Sync_run ctx oid sid dbID req w r w' :
  SyncSavedQuery ctx oid sid dbID req w = (r, w') -> succeeded r = true ->
  exists p b id now out, ctx = Some p /\ req = Some b /\ r = JSON 200 (Synced (sq_ID out.1) out.2) /\
    upsert_query now (sync_row id oid dbID (p_UserID p) b) (w_db w) = Ok (out, w_db w').
Proof.
  intros E. replace r with (SyncSavedQuery ctx oid sid dbID req w).1 by (by rewrite E).
  replace w' with (SyncSavedQuery ctx oid sid dbID req w).2 by (by rewrite E). clear E.
  pattern (SyncSavedQuery ctx oid sid dbID req w).1, (SyncSavedQuery ctx oid sid dbID req w).2. apply func_ends.
  match goal with |- wp _ ?P _ _ => assert (quiet (w_db w) P) as Hq end.
  { intros r0 w0 [Hn%negb_true_iff _]%andb_true_iff _ Hs. congruence. }
  unfold in_database, ensureDBInService. repeat (cbv zeta; ends_step). cbv zeta.
  eapply ends_returning; [exact Hq|done|]. intros out now w2 Hd _. eexists _, _, _, now, out. by split_and!.
Qed.

Lemma sync_ref id oid dbID uid b : is_Some (sq_SourceRef (sync_row id oid dbID uid b)).
Proof. by eexists. Qed.
(** What an upsert leaves. *)
Lemma upsert_query_run now x d out d' :
  databases_ok d -> is_Some (sq_SourceRef x) -> upsert_query now x d = Ok (out, d') ->
  q_queries d' = <[sq_ID out.1 := out.1]> (q_queries d) /\
  sq_ServiceDBID out.1 = sq_ServiceDBID x /\ sq_SourceRef out.1 = sq_SourceRef x /\ sq_live out.1 = true /\
  sq_Content out.1 = mkQueryContent (sq_FolderID x) (qc_Title (sq_Content x)) (qc_Description (sq_Content x))
                       (qc_QueryText (sq_Content x)) (nonNilTags (qc_Tags (sq_Content x))) /\
  match select_one (same_ref (sq_ServiceDBID x) (sq_SourceRef x)) (q_queries d) with
  | Some old => out.2 = false /\ sq_ID out.1 = sq_ID old /\ sq_Scope out.1 = sq_Scope old
  | None => out.2 = true /\ q_queries d !! sq_ID out.1 = None /\ sq_Scope out.1 = sq_Scope x
  end.
Proof.
  intros Hok [ref Href]. unfold upsert_query. destruct (negb (query_params x)); [done|]. destruct (negb _); [done|].
  destruct (select_one _ _) as [old|] eqn:Eo.
  - apply select_one_Some in Eo as [_ (Hdb & _ & Hr & Hl)%same_ref_true]. destruct (_ || _); [done|]. intros [= <- <-]. cbn.
    by split_and!.
  - destruct (insert_query _ _ _) as [d1|] eqn:Ei; [|done]. intros [= <- <-]. unfold insert_query in Ei.
    revert Ei. past. bools. by split_and!.
Qed.

(** (lemma) A synchronisation finds its query again: when it succeeds, the query it
    names is the one live query of the database with the source reference, with the title,
    texts and tags of the body, shared with the team and in no folder; it says [created]
    exactly when there was none before; no other query changes; and the same synchronisation,
    by whomever, names the same query again and creates nothing. *)
Theorem SyncSavedQuery_correct ctx oid sid dbID b w r w' :
  databases_ok (w_db w) -> SyncSavedQuery ctx oid sid dbID (Some b) w = (r, w') -> succeeded r = true ->
  exists id created row, r = JSON 200 (Synced id created) /\ q_queries (w_db w') = <[id := row]> (q_queries (w_db w)) /\
    same_ref dbID (Some (sy_SourceRef b)) row = true /\ sq_Scope row = SavedQueryScopeTeam /\ sq_OwnerUserID row = None /\
    sq_Content row = mkQueryContent None (sy_Title b) (sy_Description b) (sy_QueryText b) (Some (default [] (sy_Tags b))) /\
    (created = true <-> exists_row (same_ref dbID (Some (sy_SourceRef b))) (q_queries (w_db w)) = false) /\
    (forall k x, q_queries (w_db w') !! k = Some x -> same_ref dbID (Some (sy_SourceRef b)) x = true -> k = id) /\
    (forall ctx' w1 r1 w1', w_db w1 = w_db w' -> SyncSavedQuery ctx' oid sid dbID (Some b) w1 = (r1, w1') ->
       succeeded r1 = true -> r1 = JSON 200 (Synced id false)).
Proof.
  intros Hok E Hs. destruct (Sync_run _ _ _ _ _ _ _ _ E Hs) as (p & b' & i & now & out & -> & [= <-] & -> & Hu).
  destruct (upsert_query_run _ (sync_row i oid dbID (p_UserID p) b) _ _ _ Hok (sync_ref _ _ _ _ _) Hu) as (Hq & Hdb & Href & Hl & Hc & Hcase). cbn in Hdb, Href.
  assert (same_ref dbID (Some (sy_SourceRef b)) out.1 = true) as Hsame by (apply same_ref_true; by split_and!).
  assert (databases_ok (w_db w')) as Hok'.
  { pose proof (serve_query_post (Some p) oid sid dbID w Hok (QSync (Some b))) as [Ho _ _ _]. cbn [serve_query] in Ho. by rewrite E in Ho. }
  assert (q_queries (w_db w') !! sq_ID out.1 = Some out.1) as Hout by (rewrite Hq; apply lookup_insert_eq).
  assert (forall k x, q_queries (w_db w') !! k = Some x -> same_ref dbID (Some (sy_SourceRef b)) x = true -> k = sq_ID out.1) as Hone.
  { intros k x Hx Hsx. apply same_ref_true in Hsx as (Ex & _ & Er & Elx).
    apply (ok_refs _ Hok' _ _ x out.1 Hx Hout); [done|]. by rewrite Ex, Er. }
  assert (sq_Scope out.1 = SavedQueryScopeTeam) as Hsc by (apply (ok_queries _ Hok' _ _ Hout); by rewrite Href).
  exists (sq_ID out.1), out.2, out.1. split_and!; try done.
  - destruct (ok_queries _ Hok' _ _ Hout) as [_ _ Hck _ _ _]. rewrite Hsc in Hck. cbn in Hck. by destruct (sq_OwnerUserID out.1).
  - cbn in Hcase. rewrite exists_row_false. destruct (select_one _ _) as [old|] eqn:Eo.
    + destruct Hcase as [-> _]. apply select_one_Some in Eo as [[k Hk] Hsk]. split; [done|]. intros Hn. by rewrite (Hn k old Hk) in Hsk.
    + destruct Hcase as [-> _]. rewrite select_one_None in Eo. done.
  - intros ctx' w1 r1 w1' Hw1 E1 Hs1. destruct (Sync_run _ _ _ _ _ _ _ _ E1 Hs1) as (p1 & b1 & i1 & now1 & out1 & -> & [= <-] & -> & Hu1).
    rewrite Hw1 in Hu1. destruct (upsert_query_run _ (sync_row i1 oid dbID (p_UserID p1) b) _ _ _ Hok' (sync_ref _ _ _ _ _) Hu1) as (_ & _ & _ & _ & _ & Hcase1). cbn in Hcase1.
    destruct (select_one (same_ref dbID (Some (sy_SourceRef b))) (q_queries (w_db w'))) as [old|] eqn:Eo.
    + destruct Hcase1 as (-> & -> & _). apply select_one_Some in Eo as [[k Hk] Hsk].
      destruct (ok_queries _ Hok' _ _ Hk) as [-> _ _ _ _ _]. by rewrite (Hone k old Hk Hsk).
    + rewrite select_one_None in Eo. by rewrite (Eo _ _ Hout) in Hsame.
Qed.

(** ** Versions *)

(** (C39) The versions of a database that has one are never listed: the request for
    them changes nothing, an answer is the empty list of a database without versions, and for
    a live database of a live service that has a version the request fails with an internal
    error even when the database answers every statement. *)
Theorem versions_unlisted oid sid dbID w r w' :
  ListDBVersions oid sid dbID w = (r, w') ->
  w_db w' = w_db w /\
  (succeeded r = true -> r = JSON 200 (VersionList []) /\ forall k v, q_versions (w_db w) !! k = Some v -> ve_ServiceDBID v <> dbID) /\
  forall x k v, w_faults w = [] -> valid_uuid sid = true -> valid_uuid dbID = true -> service_in oid sid (w_db w) ->
    q_dbs (w_db w) !! dbID = Some x -> db_of sid x = true -> q_versions (w_db w) !! k = Some v -> ve_ServiceDBID v = dbID ->
    status r = 500%Z.
Proof.
  intros E. replace r with (ListDBVersions oid sid dbID w).1 by (by rewrite E).
  replace w' with (ListDBVersions oid sid dbID w).2 by (by rewrite E). clear E. split; [|split].
  - apply (func_ends (fun r w' => w_db w' = w_db w)). assert (quiet (w_db w) (fun (r : QReply) (w' : W) => w_db w' = w_db w)) as Hq by (by intros ? ? _ ?).
    do 2 ends_step. apply wp_bind. eapply ends_scan; [exact Hq|done|]. intros l w2 _ Hd. by apply wp_ret.
  - pattern (ListDBVersions oid sid dbID w).1, (ListDBVersions oid sid dbID w).2. apply func_ends.
    match goal with |- wp _ ?P _ _ => assert (quiet (w_db w) P) as Hq end.
    { intros r0 w0 [Hn%negb_true_iff _]%andb_true_iff _ Hs. congruence. }
    do 2 ends_step. apply wp_bind. eapply ends_scan; [exact Hq|done|]. intros l w2 Hl _. apply wp_ret. intros _.
    unfold scan_versions, order_by in Hl. destruct (sort_stable _ _) as [|v0 l0] eqn:Es; [|done]. injection Hl as <-. split; [done|].
    intros k v Hv Hdb. assert (v ∈ sort_stable (desc (by_key ve_VersionNumber)) (select (version_of dbID) (q_versions (w_db w)))) as Hin.
    { rewrite sort_stable_elem, select_elem. split; [eauto|]. by apply String.eqb_eq. }
    rewrite Es in Hin. by apply not_elem_of_nil in Hin.
  - intros x k v Hf Hs Hd (s & Hsv & Ho & Hl) Hx Hof Hv Hdb.
    apply (func_ends (fun r w' => status r = 500%Z)). unfold ensureServiceInOrg, live_in, GetService, GetServiceDB, ListServiceDBVersions.
    rewrite !wp_bind. apply wp_try. rewrite query_runs by (cbn; by rewrite ?Hs). change (db_services (w_db w)) with (q_services (w_db w)).
    change (q_services (w_db w) !! sid = Some s) in Hsv. rewrite Hsv, wp_return_if, Hl, Ho, String.eqb_refl. split; [done|intros _].
    rewrite !wp_bind. apply wp_try. rewrite query_runs by (cbn; by rewrite ?Hd). cbn [w_db with_faults]. rewrite Hx.
    cbn [non_nil]. rewrite wp_bind, wp_ret, wp_bind, Hof. cbn [negb]. unfold return_if. rewrite !wp_ret.
    rewrite wp_bind. apply wp_try. unfold scan, db_op. cbn [w_faults with_faults w_db forallb]. rewrite Hd. cbn [andb].
    unfold scan_versions, order_by. destruct (sort_stable _ _) as [|v0 l0] eqn:Es; [|done].
    assert (v ∈ sort_stable (desc (by_key ve_VersionNumber)) (select (version_of dbID) (q_versions (w_db w)))) as Hin.
    { rewrite sort_stable_elem, select_elem. split; [eauto|]. by apply String.eqb_eq. }
    cbn [w_db with_faults] in Es. rewrite Es in Hin. by apply not_elem_of_nil in Hin.
Qed.

(** The state a restored version gives back. *)
Definition restored_content (x : ServiceDB) (v : ServiceDBVersion) : DBContent :=
  let c := db_Content x in
  mkDBContent (dc_DBName c) (dc_DBType c) (dc_Dialect c) (ve_SchemaJSON v) (ve_Source v) (ve_SourceTS v) (dc_SchemaTokenCount c).
(** The number a new version of the database gets. *)
Definition next_number (dbID : string) d : Z := ((if scan_before_result then max_version dbID d else 0) + 1)%Z.
(** The tables refuse a version [id] by [uid] with the number: an id or the number is none of the
    column's, or taken. *)
Definition version_refused (dbID uid id : string) (n : Z) d : Prop :=
  forallb valid_uuid [id; dbID; uid] = false \/ int4 n = false \/ is_Some (q_versions d !! id) \/
  exists k y, q_versions d !! k = Some y /\ ve_ServiceDBID y = dbID /\ ve_VersionNumber y = n.

Lemma insert_version_run now v d d' :
  insert_version now v d = Ok d' -> exists schema, stored_schema (ve_SchemaJSON v) = Some schema /\
    q_versions d !! ve_ID v = None /\ q_dbs d' = q_dbs d /\
    q_versions d' = <[ve_ID v := mkServiceDBVersion (ve_ID v) (ve_ServiceDBID v) (ve_VersionNumber v) (ve_Label v)
      schema (ve_Source v) (ve_SourceTS v) (ve_IsAutoVersion v) (ve_CreatedBy v) (ve_CreatedByCommitHash v) now]> (q_versions d).
Proof. unfold insert_version. past. bools. eexists. by split_and!. Qed.
Lemma insert_version_err now v d e :
  insert_version now v d = Err e -> is_Some (stored_schema (ve_SchemaJSON v)) -> is_Some (q_dbs d !! ve_ServiceDBID v) ->
  version_refused (ve_ServiceDBID v) (ve_CreatedBy v) (ve_ID v) (ve_VersionNumber v) d.
Proof.
  unfold insert_version. intros E [schema Hs] [x Hx]. unfold version_refused. rewrite Hs, Hx in E.
  destruct (forallb valid_uuid _); [|by left]. destruct (int4 _); [|by right; left].
  destruct (q_versions d !! ve_ID v); [by right; right; left; eexists|]. cbn in E. rewrite orb_false_r in E.
  destruct (exists_row _ _) eqn:Ex; [|done]. right; right; right. apply exists_row_true in Ex as (k & y & Hk & Hy).
  apply andb_true_iff in Hy as [Hd%String.eqb_eq Hn%Z.eqb_eq]. eauto.
Qed.
Lemma stored_db_schema c : stored_db c = Some c -> stored_schema (dc_SchemaJSON c) = Some (dc_SchemaJSON c).
Proof.
  unfold stored_db. destruct (stored_schema (dc_SchemaJSON c)) as [s|]; [|done]. cbn. destruct (int4 _); [|done].
  intros [= E]. by rewrite <-E.
Qed.

Lemma restored_stored x v :
  stored_db (db_Content x) = Some (db_Content x) -> stored_schema (ve_SchemaJSON v) = Some (ve_SchemaJSON v) ->
  stored_db (restored_content x v) = Some (restored_content x v).
Proof.
  unfold stored_db, restored_content. cbn. intros Hst Hv. rewrite Hv. cbn. destruct (stored_schema _); [|done]. cbn in Hst. by destruct (int4 _).
Qed.
Lemma update_db_run now x d d' :
  stored_db (db_Content x) = Some (db_Content x) -> update_db now x d = Ok d' ->
  forall old, q_dbs d !! db_ID x = Some old -> db_live old = true ->
  d' = set_dbs d (<[db_ID x := mkServiceDB (db_ID old) (db_ServiceID old) (db_OrgID old) (db_Content x)
                                 (updated_audit now (db_Audit x) (db_Audit old))]> (q_dbs d)).
Proof.
  unfold update_db. intros -> Hu old Hx Hl. destruct (negb _); [done|]. rewrite Hx, Hl in Hu. cbn in Hu.
  destruct (other_row _ _ _); [done|]. by injection Hu as <-.
Qed.

(** *** Statements that only read *)

(** [w'] is [w] after some queries. *)
Definition read_to w w' : Prop := later w w' /\ w_db w' = w_db w /\ w_entropy w' = w_entropy w.
Lemma read_to_trans w1 w2 w3 : read_to w1 w2 -> read_to w2 w3 -> read_to w1 w3.
Proof. intros (L1 & D1 & E1) (L2 & D2 & E2). split_and!; [by eapply later_trans|congruence..]. Qed.
Lemma timed_later (g : Z -> QueryTables -> result store_err QueryTables) w r w' :
  func (now <- call time_now ;; call (exec (g now))) w = (r, w') -> later w w'.
Proof.
  unfold func. rewrite call_then. pose proof (time_now_later w) as L. destruct (time_now w) as [now w1]. unfold call.
  destruct (exec (g now) w1) as [r1 w2] eqn:E. intros [= <- <-]. apply db_op_split in E as [L1 _]. by eapply later_trans.
Qed.
Lemma bind_then {R A B} (m : Go W R A) (k : A -> Go W R B) w :
  gbind m k w = match m w with (inl r, w') => (inl r, w') | (inr a, w') => k a w' end.
Proof. done. Qed.
Lemma non_nil_then {R A B} (a : A) (r : R) (k : A -> Go W R B) w : gbind (non_nil (Some a) r) k w = k a w.
Proof. done. Qed.
Lemma ignoring_then {A B} (m : Eff W (result go_err A)) (k : unit -> Go W QReply B) w :
  gbind (ignoring_errors m) k w =
  match m w with
  | (r, w') => match r with Ok _ | Err (Failed _) => k tt w' | Err e => (inl (fail e), w') end
  end.
Proof. unfold ignoring_errors, gbind, call. by destruct (m w) as [[a|[e| |]] w']. Qed.
Lemma query_read_to {A} ids (f : QueryTables -> A) w r w' : query ids f w = (r, w') -> read_to w w'.
Proof.
  intros E. pose proof (query_cases _ _ _ _ _ E) as [Hd _]. split_and!; [|done|].
  - by apply db_op_split in E as [L _].
  - revert E. unfold query, db_op. destruct (w_faults w) as [|[] fs]; by intros [= <- <-].
Qed.
Lemma live_in_read {R} ids (f : QueryTables -> option R) ok w (x : QReply + R) w' :
  live_in (query ids f) ok w = (x, w') ->
  read_to w w' /\ match x with inl r => succeeded r = false | inr a => f (w_db w) = Some a /\ ok a = true end.
Proof.
  unfold live_in, try, non_nil, return_if, gbind, call. destruct (query ids f w) as [[o|e] w1] eqn:E;
    pose proof (query_read_to _ _ _ _ _ E) as Hr; apply query_cases in E as [_ Hq].
  - destruct (Hq o eq_refl) as [_ ->]. destruct (f (w_db w)) as [a|]; cbn; [|by intros [= <- <-]].
    destruct (ok a) eqn:Ok_; cbn; by intros [= <- <-].
  - intros [= <- <-]. split; [done|]. pose proof (HttpError_refused (B := query_body) e) as Hn. by apply andb_true_iff in Hn as [Hn%negb_true_iff _].
Qed.
Lemma ensure_read oid sid w (x : QReply + unit) w' :
  ensureServiceInOrg oid sid w = (x, w') -> read_to w w' /\ match x with inl r => succeeded r = false | inr _ => True end.
Proof.
  unfold ensureServiceInOrg, GetService, try, return_if, gbind, call. destruct (query _ _ w) as [[o|e] w1] eqn:E;
    apply query_read_to in E as Hr.
  - cbn. destruct o as [s|]; [|by intros [= <- <-]]. destruct (_ || _); by intros [= <- <-].
  - intros [= <- <-]. split; [done|]. pose proof (HttpError_refused (B := query_body) e) as Hn. by apply andb_true_iff in Hn as [Hn%negb_true_iff _].
Qed.

Lemma new_id_run w r w' :
  NewString w = (r, w') ->
  later w w' /\ w_db w' = w_db w /\ match r with Ok id => id = uuid_of (take 16 (w_entropy w)) | Err e => e = Panicked end.
Proof.
  unfold NewString, new_uuid, rand_read, func, try, gbind, call. destruct (_ <=? _)%nat; intros [= <- <-]; [|done].
  split; [by apply later_same|done].
Qed.
Lemma create_version_run v w r w' :
  CreateServiceDBVersion v w = (r, w') ->
  later w w' /\ exists t, match r with
    | Ok _ => insert_version t v (w_db w) = Ok (w_db w')
    | Err e => w_db w' = w_db w /\ (failed_between w w' \/ insert_version t v (w_db w) = Err e)
    end.
Proof.
  intros E. assert (exists t w1, later w w1 /\ w_db w1 = w_db w /\ exec (insert_version t v) w1 = (r, w')) as (t & w1 & L & D & E1).
  { unfold CreateServiceDBVersion, func, gbind, gret, call in E. destruct (ve_CreatedAt v =? 0)%Z.
    - pose proof (time_now_later w) as Lt. pose proof (time_now_db w) as Dt. destruct (time_now w) as [t w1].
      destruct (exec _ w1) as [r0 w0] eqn:Ee. injection E as <- <-. by exists t, w1.
    - destruct (exec _ w) as [r0 w0] eqn:Ee. injection E as <- <-. by exists (ve_CreatedAt v), w. }
  clear E. apply db_op_split in E1 as [L1 E1]. split; [by eapply later_trans|]. exists t. rewrite D in E1.
  destruct E1 as [(Hf & -> & D1)|E1]; [split; [congruence|left; by eapply failed_after]|].
  destruct (insert_version t v (w_db w)) as [d'|e]; injection E1 as <- <-; [done|]. split; [done|by right].
Qed.
(** A snapshot adds the state of the database under the next number, or the row is refused or
    a statement failed. *)
Lemma snapshot_run x label isAuto uid w r w' :
  let id := uuid_of (take 16 (w_entropy w)) in
  let n := next_number (db_ID x) (w_db w) in
  stored_schema (dc_SchemaJSON (db_Content x)) = Some (dc_SchemaJSON (db_Content x)) -> is_Some (q_dbs (w_db w) !! db_ID x) ->
  createServiceDBVersionSnapshot x label isAuto uid None w = (r, w') ->
  later w w' /\
  match r with
  | Ok _ => q_versions (w_db w) !! id = None /\
      exists t, w_db w' = set_versions (w_db w) (<[id := new_version id x n label isAuto uid None t]> (q_versions (w_db w)))
  | Err (Failed _) => w_db w' = w_db w /\ (failed_between w w' \/ version_refused (db_ID x) uid id n (w_db w))
  | Err _ => True
  end.
Proof.
  cbv zeta. intros Hs Hx. unfold createServiceDBVersionSnapshot, func. rewrite try_then.
  unfold LatestServiceDBVersionNumber. destruct (query _ _ w) as [[n|e] w1] eqn:E; pose proof (query_read_to _ _ _ _ _ E) as (L1 & D1 & Ent1).
  2: { apply db_op_split in E as [_ [(Hf & _)|E]]; intros [= <- <-]; (split; [done|]); (split; [done|]); [by left|right; left].
       cbn in E |- *. destruct (valid_uuid (db_ID x)); [done|]. by rewrite andb_false_r. }
  apply query_cases in E as [_ Hn]. destruct (Hn n eq_refl) as [_ ->]. clear Hn. rewrite try_then.
  destruct (NewString w1) as [rid w2] eqn:E2. apply new_id_run in E2 as (L2 & D2 & Hid).
  assert (later w w2) as L by by eapply later_trans.
  destruct rid as [id|e]; [|destruct e; [done|..]; by intros [= <- <-]]. rewrite Ent1 in Hid. subst id.
  rewrite call_then. pose proof (time_now_later w2) as L3. pose proof (time_now_db w2) as D3.
  destruct (time_now w2) as [now w3]. cbn [snd] in L3, D3. fold (next_number (db_ID x) (w_db w)).
  set (v := new_version _ x _ label isAuto uid None now). assert (w_db w3 = w_db w) as D by congruence.
  assert (later w w3) as L' by by eapply later_trans. rewrite try_then.
  destruct (CreateServiceDBVersion v w3) as [r4 w4] eqn:E4. apply create_version_run in E4 as (L4 & t & E4). rewrite D in E4.
  assert (later w w4) as LL by by eapply later_trans.
  destruct r4 as [[]|e]; intros [= <- <-]; (split; [done|]).
  - destruct (insert_version_run _ _ _ _ E4) as (schema & Hsch & Hnone & _). split; [done|]. exists t.
    unfold insert_version in E4. cbn in Hsch. rewrite Hs in Hsch. injection Hsch as <-. cbn [ve_SchemaJSON v new_version] in E4.
    rewrite Hs in E4. repeat case_match; try done. by injection E4 as <-.
  - destruct E4 as [D4 [Hf|E4]]; (split; [done|]); [left; exact (failed_after _ _ _ L' Hf)|right].
    apply (insert_version_err _ _ _ _ E4); [by eexists|done].
Qed.

Lemma Restore_run ctx oid sid dbID versionID w r w' :
  RestoreDBVersion ctx oid sid dbID versionID w = (r, w') -> succeeded r = true ->
  exists p x v w1 rs w2 now, ctx = Some p /\ q_dbs (w_db w) !! dbID = Some x /\ db_of sid x = true /\
    q_versions (w_db w) !! versionID = Some v /\ ve_ServiceDBID v = dbID /\ read_to w w1 /\
    createServiceDBVersionSnapshot x (Some ("Restored from v" +:+ Itoa (ve_VersionNumber v))) true (p_UserID p) None w1 = (rs, w2) /\
    match rs with Err Panicked | Err Exhausted => False | _ => True end /\ later w2 w' /\
    let x' := changed_db x (restored_content x v) (p_UserID p) None in
    update_db now x' (w_db w2) = Ok (w_db w') /\ r = JSON 200 (OneDB x').
Proof.
  intros E Hs. revert E. unfold RestoreDBVersion, func. destruct ctx as [p|]; [|by intros [= <- <-]].
  rewrite non_nil_then, bind_then. destruct (ensureServiceInOrg oid sid w) as [x0 w1] eqn:E1. apply ensure_read in E1 as [R1 S1].
  destruct x0 as [r0|[]]; [intros [= <- <-]; congruence|]. rewrite bind_then. unfold GetServiceDB.
  destruct (live_in _ (db_of sid) w1) as [x0 w2] eqn:E2. apply live_in_read in E2 as [R2 S2].
  destruct x0 as [r0|x]; [intros [= <- <-]; congruence|]. destruct S2 as [Hx Hof]. rewrite bind_then. unfold GetServiceDBVersion.
  destruct (live_in _ (version_of dbID) w2) as [x0 w3] eqn:E3. apply live_in_read in E3 as [R3 S3].
  destruct x0 as [r0|v]; [intros [= <- <-]; congruence|]. destruct S3 as [Hv Hvd%String.eqb_eq].
  assert (read_to w w3) as R by (eapply read_to_trans; [exact R1|]; by eapply read_to_trans).
  destruct R1 as (_ & D1 & _), R2 as (_ & D2 & _). rewrite D1 in Hx. rewrite D2, D1 in Hv.
  rewrite ignoring_then. destruct (createServiceDBVersionSnapshot _ _ _ _ _ w3) as [rs w4] eqn:E4.
  assert ((match rs with Err Panicked | Err Exhausted => False | _ => True end) \/ rs = Err Panicked \/ rs = Err Exhausted) as [Hrs|Hrs]
    by (destruct rs as [z|[]]; auto).
  2: { destruct Hrs as [-> | ->]; by intros [= <- <-]. }
  assert (forall (k : Go W QReply QReply), match rs with Ok _ | Err (Failed _) => k w4 | Err e => (inl (fail e), w4) end = k w4) as Hk
    by (intros k; by destruct rs as [z|[e| |]]).
  rewrite (Hk _), try_then. destruct (UpdateServiceDB _ w4) as [r5 w5] eqn:E5. pose proof (timed_later _ _ _ _ E5) as L5.
  apply timed_cases in E5 as [(e & -> & _)|(-> & now & _ & E5)]; intros [= <- <-]; [by destruct e|].
  by exists p, x, v, w3, rs, w4, now.
Qed.

(** (C31) Restoring a version: when it succeeds, the database has the version's schema,
    source and time of source again, keeps its name, type, dialect and token count, its service
    and its org, and nothing else changes but one row: the state before it becomes a version of
    its own, by the caller, labelled with the number restored and numbered next - where the number of
    the latest is read after the row is scanned.  That row is missing only when a statement
    failed on the way, or the version table refuses it: an id or the number is none of the
    column's or is taken. *)
Theorem RestoreDBVersion_correct ctx oid sid dbID versionID w r w' :
  databases_ok (w_db w) -> RestoreDBVersion ctx oid sid dbID versionID w = (r, w') -> succeeded r = true ->
  exists p x v d1 now, ctx = Some p /\ q_dbs (w_db w) !! dbID = Some x /\ db_of sid x = true /\
    q_versions (w_db w) !! versionID = Some v /\ ve_ServiceDBID v = dbID /\
    r = JSON 200 (OneDB (changed_db x (restored_content x v) (p_UserID p) None)) /\
    w_db w' = set_dbs d1 (<[dbID := mkServiceDB dbID (db_ServiceID x) (db_OrgID x) (restored_content x v)
                             (updated_audit now (touched (p_UserID p) None (db_Audit x)) (db_Audit x))]> (q_dbs (w_db w))) /\
    let id := uuid_of (take 16 (w_entropy w)) in
    let n := next_number dbID (w_db w) in
    ((d1 = w_db w /\ (failed_between w w' \/ version_refused dbID (p_UserID p) id n (w_db w))) \/
     (q_versions (w_db w) !! id = None /\
      exists t, d1 = set_versions (w_db w)
        (<[id := new_version id x n (Some ("Restored from v" +:+ Itoa (ve_VersionNumber v))) true (p_UserID p) None t]>
           (q_versions (w_db w))))).
Proof.
  intros Hok E Hs. destruct (Restore_run _ _ _ _ _ _ _ _ E Hs) as
    (p & x & v & w1 & rs & w2 & now & -> & Hx & Hof & Hv & Hvd & (L1 & D1 & Ent1) & Es & Hrs & L2 & Hu & ->).
  destruct (ok_dbs _ Hok _ _ Hx) as [Hid _ Hst]. destruct (ok_versions _ Hok _ _ Hv) as [_ _ _ Hvs].
  pose proof Hof as [Hl _]%andb_true_iff.
  destruct (snapshot_run _ _ _ _ _ _ _ (stored_db_schema _ Hst) ltac:(rewrite D1, Hid; by eexists) Es) as [L Hsnap].
  rewrite D1, Ent1, Hid in Hsnap. exists p, x, v, (w_db w2), now. cbv zeta.
  assert (q_dbs (w_db w2) = q_dbs (w_db w)) as Hq.
  { destruct rs as [z|[e| |]]; [|by destruct Hsnap as [-> _]|done..]. by destruct Hsnap as (_ & t & ->). }
  split_and!; [done..| |].
  - assert (q_dbs (w_db w2) !! db_ID (changed_db x (restored_content x v) (p_UserID p) None) = Some x) as Hx2 by (by rewrite Hq; cbn; rewrite Hid).
    rewrite (update_db_run _ _ _ _ (restored_stored _ _ Hst Hvs : stored_db (db_Content (changed_db x _ _ _)) = Some _) Hu x Hx2 Hl).
    cbn. by rewrite Hid, Hq.
  - destruct rs as [z|[e| |]]; [by right| |done..]. left. destruct Hsnap as [D2 [Hf|Hr]]; (split; [done|]); [left|by right].
    eapply failed_after; [exact L1|]. by eapply failed_before.
Qed.
End Flow.
