(* ===== verification/QueryDemo.v ===== *)
(** * QueryDemo: databases and saved queries at work

    A service with a database and two users of one organization: inputs that meet the
    hypotheses of the theorems of QueryFlow. *)

From S2P Require Import Prelude GoStrings Effects ApiSpec Authz Identity Dependencies Table Requests QueryStore QueryHandlers QueryLife QuerySteps QueryFlow.
#[local] Open Scope nat_scope.
#[local] Open Scope string_scope.

Module QueryDemo.
#[local] Instance demo_collation : Collation :=
  {| text_less := by_key (fun s => Z.of_nat (String.length s)); text_lower := map_bytes lower_byte;
     text_less_strict := by_key_strict_weak _ |}.
Definition new_text (X : gset string) : string := fresh (X ∪ {[ "" ]}).
#[local] Instance any_text : UuidText.
Proof.
  refine {| valid_uuid s := negb (str_empty s); gen_random_uuid := new_text |}; [done| |].
  - intros X Hin. apply (is_fresh (X ∪ {[ "" ]})). set_solver.
  - intros X. apply negb_true_iff, str_empty_false. intros E. apply (is_fresh (X ∪ {[ "" ]})).
    unfold new_text in E. rewrite E. set_solver.
Defined.
#[local] Instance as_it_is : SchemaColumn.
Proof. refine {| schema_column := {| column := Some |} |}. done. Defined.
#[local] Instance scan_first : ResultOrder := {| scan_before_result := true |}.
#[local] Instance hex_ids : UuidGen := {| uuid_of := hex_encode |}.

Definition service (id org : string) : ServiceRow := mkServiceRow id org id "" "active" "" "" "" None 0 "" None.
Definition start : World QueryTables :=
  mkWorld (mkQueryTables {[ "a" ]} ∅ {[ "sa" := service "sa" "a" ]} ∅ ∅ ∅ ∅) [] 100 [] (map N.of_nat (seq 0 208)).
Definition user (name : string) : option Principal := Some (mkPrincipal "user" name "a" false "" [] "local").
Definition by_user (name : string) (q : request) := (user name, "a", "sa", q).

(** The ids, in the order they are drawn. *)
Definition nth_id (n : nat) : string := hex_encode (map N.of_nat (seq (16 * n) 16)).
Definition db : string := nth_id 0.
Definition folder : string := nth_id 2.
Definition create : createDBRequest := mkCreateDB "orders" "" "" (Some "[1]") None None None.
Definition change : updateDBRequest := mkUpdateDB None None None (Some "[2]") None None None.
Definition private (fo : option string) (title : string) : queryRequest := mkQueryRequest title "" "" None fo "personal".
Definition sync : syncQueryRequest := mkSyncQuery "q.sql" "orders" "" "select" None None.

(** Ann's database, with a version; the team's folder; Ann's and Bob's queries, hers in the folder; a synchronised one;
    then a changed schema. *)
Definition setup := [by_user "ann" (OnDBs (QCreateDB (Some create)));
  by_user "ann" (OnQueries db (QCreateFolder (Some (mkFolderRequest "shared" "team"))));
  by_user "ann" (OnQueries db (QCreateQuery (Some (private (Some folder) "hers"))));
  by_user "bob" (OnQueries db (QCreateQuery (Some (private None "his"))));
  by_user "bob" (OnQueries db (QSync (Some sync)));
  by_user "ann" (OnDBs (QUpdateDB db (Some change)))].
Definition w0 : World QueryTables := served setup start.
Definition ask rq (w : World QueryTables) : QReply := (serve rq.1.1.1 rq.1.1.2 rq.1.2 rq.2 w).1.

Lemma start_databases_ok : databases_ok (w_db start).
Proof. split; cbn; intros *; by rewrite lookup_empty. Qed.
Lemma w0_databases_ok : databases_ok (w_db w0).
Proof. by apply databases_served, start_databases_ok. Qed.

Definition titles (r : QReply) : option (list string) :=
  match payload r with Json (QueryList l) => Some (map (fun x => qc_Title (sq_Content x)) l) | _ => None end.
Definition numbers (w : World QueryTables) : list Z := map ve_VersionNumber (rows (q_versions (w_db w))).
Definition schema (w : World QueryTables) : option (option string) := dc_SchemaJSON ∘ db_Content <$> q_dbs (w_db w) !! db.

(** (lemma) Each user sees their own queries; Bob deletes the team's folder, and Ann's query leaves it. *)
Example privacy_demo :
  titles (ask (by_user "ann" (OnQueries db (QListQueries "personal"))) w0) = Some ["hers"] /\
  titles (ask (by_user "bob" (OnQueries db (QListQueries "personal"))) w0) = Some ["his"] /\
  status (ask (by_user "bob" (OnQueries db (QUpdateQuery (nth_id 3) (Some (mkUpdateQuery None None None None None))))) w0) = 403%Z /\
  status (ask (by_user "bob" (OnQueries db (QDeleteFolder folder))) w0) = 204%Z.
Proof. vm_compute. repeat split. Qed.
(** (lemma) The versions are there and are not listed. *)
Example versions_demo : length (numbers w0) = 2 /\ status (ask (by_user "ann" (OnDBs (QListVersions db))) w0) = 500%Z.
Proof. vm_compute. repeat split. Qed.

(** ** Witnesses *)

Definition clearing : QReply * World QueryTables := serve_query (user "bob") "a" "sa" db (QDeleteFolder folder) w0.
Definition in_folder (w : World QueryTables) : option (option string) := sq_FolderID <$> q_queries (w_db w) !! nth_id 3.
Lemma personal_queries_private_witness :
  databases_ok (w_db w0) /\ status clearing.1 = 204%Z /\ in_folder w0 = Some (Some folder) /\ in_folder clearing.2 = Some None /\
  exists x x' : SavedQuery, q_queries (w_db w0) !! nth_id 3 = Some x /\ ~ my_query "bob" db x /\ q_queries (w_db clearing.2) !! nth_id 3 = Some x' /\
    (x' = x \/ exists now, sq_FolderID x = Some folder /\ x' = unfiled now x).
Proof.
  assert (is_Some (q_queries (w_db w0) !! nth_id 3)) as [x Hx].
  { assert (found (q_queries (w_db w0) !! nth_id 3) = true) as Hf by (vm_compute; reflexivity). by apply found_true. }
  assert (match q_queries (w_db w0) !! nth_id 3 with Some x => String.eqb (sq_Scope x) "personal" && bool_decide (sq_OwnerUserID x = Some "ann")
    | None => false end = true) as Ho by (vm_compute; reflexivity).
  rewrite Hx in Ho. apply andb_true_iff in Ho as [Hs%String.eqb_eq Hu%bool_decide_eq_true].
  assert (~ my_query "bob" db x) as Hn. { intros [_ Hm]. rewrite (Hm Hs) in Hu. by injection Hu. }
  split_and!; [exact w0_databases_ok|vm_compute; reflexivity|vm_compute; reflexivity|vm_compute; reflexivity|].
  pose proof (personal_queries_private (user "bob") "a" "sa" db (QDeleteFolder folder) w0 w0_databases_ok) as Hp.
  unfold clearing. destruct (serve_query (user "bob") "a" "sa" db (QDeleteFolder folder) w0) as [r w'].
  destruct Hp as (_ & _ & Hq & _). destruct (Hq _ _ Hx Hn) as (x' & Hx' & Hk). exists x, x'. split; [exact Hx|]. split; [exact Hn|]. split; [exact Hx'|].
  destruct Hk as [Hk|(f & fo & now & Hf & _ & _ & _ & Hfx & _ & Hk)]; [left; exact Hk|right; exists now]. injection Hf as Hf. rewrite Hf.
  split; [exact Hfx|exact Hk].
Defined.

Lemma reachable_databases_ok_witness : databases_ok (w_db start) /\ databases_ok (w_db (served setup start)).
Proof. split; [exact start_databases_ok|]. by apply (reachable_databases_ok setup start), start_databases_ok. Defined.

Definition again : QReply * World QueryTables := SyncSavedQuery (user "ann") "a" "sa" db (Some sync) w0.
Lemma SyncSavedQuery_correct_witness :
  databases_ok (w_db w0) /\ succeeded again.1 = true /\ exists id created, again.1 = JSON 200 (Synced id created).
Proof.
  assert (succeeded again.1 = true) as Hs by (vm_compute; reflexivity). split_and!; [exact w0_databases_ok|exact Hs|].
  unfold again in *. destruct (SyncSavedQuery (user "ann") "a" "sa" db (Some sync) w0) as [r w'] eqn:E. cbn [fst] in *.
  destruct (SyncSavedQuery_correct (user "ann") "a" "sa" db sync w0 r w' w0_databases_ok E Hs) as (id & created & row & Hr & _).
  by exists id, created.
Defined.

Lemma versions_unlisted_witness : numbers w0 <> [] /\ status (ListDBVersions "a" "sa" db w0).1 = 500%Z.
Proof.
  split; [vm_compute; discriminate|]. destruct (ListDBVersions "a" "sa" db w0) as [r w'] eqn:E. cbn [fst].
  destruct (versions_unlisted "a" "sa" db w0 r w' E) as (_ & _ & Hv).
  assert (is_Some (q_versions (w_db w0) !! nth_id 1)) as [v Hvk].
  { assert (found (q_versions (w_db w0) !! nth_id 1) = true) as Hf by (vm_compute; reflexivity). by apply found_true. }
  assert (is_Some (q_dbs (w_db w0) !! db)) as [x Hx].
  { assert (found (q_dbs (w_db w0) !! db) = true) as Hf by (vm_compute; reflexivity). by apply found_true. }
  assert (match q_dbs (w_db w0) !! db with Some x => db_of "sa" x | None => false end = true) as Hof by (vm_compute; reflexivity).
  assert (match q_versions (w_db w0) !! nth_id 1 with Some v => String.eqb (ve_ServiceDBID v) db | None => false end = true) as Hvd
    by (vm_compute; reflexivity).
  assert (w_faults w0 = []) as Hf by (vm_compute; reflexivity).
  assert (service_in "a" "sa" (w_db w0)) as Hin.
  { assert (match q_services (w_db w0) !! "sa" with Some s => String.eqb (sv_OrgID s) "a" && sv_live s | None => false end = true) as Hs
      by (vm_compute; reflexivity).
    destruct (q_services (w_db w0) !! "sa") as [s|] eqn:Es; [|discriminate]. apply andb_true_iff in Hs as [Ho%String.eqb_eq Hl].
    exists s. split_and!; [exact Es|exact Ho|exact Hl]. }
  rewrite Hx in Hof. rewrite Hvk in Hvd.
  exact (Hv x (nth_id 1) v Hf eq_refl eq_refl Hin Hx Hof Hvk (proj1 (String.eqb_eq _ _) Hvd)).
Defined.

Definition restoring : QReply * World QueryTables := RestoreDBVersion (user "bob") "a" "sa" db (nth_id 1) w0.
Lemma RestoreDBVersion_correct_witness :
  databases_ok (w_db w0) /\ succeeded restoring.1 = true /\ schema w0 = Some (Some "[2]") /\ schema restoring.2 = Some (Some "[1]") /\
  length (map_to_list (q_versions (w_db w0))) = 2 /\ length (map_to_list (q_versions (w_db restoring.2))) = 3 /\
  exists v d1 x', q_versions (w_db w0) !! nth_id 1 = Some v /\ w_db restoring.2 = set_dbs d1 (<[db := x']> (q_dbs (w_db w0))) /\
    dc_SchemaJSON (db_Content x') = ve_SchemaJSON v /\
    (d1 = w_db w0 \/ exists id s, q_versions (w_db w0) !! id = None /\ d1 = set_versions (w_db w0) (<[id := s]> (q_versions (w_db w0)))).
Proof.
  assert (succeeded restoring.1 = true) as Hs by (vm_compute; reflexivity).
  do 2 (split; [first [exact w0_databases_ok|exact Hs]|]). do 4 (split; [vm_compute; reflexivity|]).
  unfold restoring in *. destruct (RestoreDBVersion (user "bob") "a" "sa" db (nth_id 1) w0) as [r w'] eqn:E. cbn [fst snd] in *.
  destruct (RestoreDBVersion_correct (user "bob") "a" "sa" db (nth_id 1) w0 r w' w0_databases_ok E Hs)
    as (p & x & v & d1 & now & _ & _ & _ & Hv & _ & _ & Hd & Hver).
  exists v, d1. eexists. split; [exact Hv|]. split; [exact Hd|]. split; [reflexivity|].
  destruct Hver as [[Hsame _]|(Hn & t & Hnew)]; [left; exact Hsame|right]. eexists _, _. split; [exact Hn|exact Hnew].
Defined.
End QueryDemo.
