(* ===== verification/AgentStore.v ===== *)
(** * AgentStore: the runs of agents, their steps, and what they cost

    Models [internal/agentsession/agentsession.go], [internal/modelpricing/modelpricing.go]
    and [internal/store/postgres/agent_sessions.go], on the tables of migration 0063.  Costs
    are kept exactly, in units of 10^-8 (NUMERIC(16,8)); their conversion from and to
    float64, and the order in which the database adds float64s, are the database's
    ([CostColumn]).  Of [orgs], [users] and [service_accounts] only the ids matter. *)

From S2P Require Import Prelude GoStrings Effects Float64 ApiSpec Authz Table Requests.
#[local] Open Scope nat_scope.
#[local] Open Scope string_scope.

(** ** Prices *)

Record Model := mkModel {
  mo_ModelID : string; mo_Provider : string; mo_DisplayName : string;
  mo_InputCostPerMillion : float64; mo_OutputCostPerMillion : float64
}.
(** A decimal literal, n/10^k. *)
Definition decimal (n : Z) (k : Z) : float64 := fdiv (float_of n) (float_of (10 ^ k)).
Definition catalog : list Model := [
  mkModel "gpt-5.5" "openai" "GPT-5.5" (decimal 5 0) (decimal 30 0);
  mkModel "gpt-5" "openai" "GPT-5" (decimal 125 2) (decimal 10 0);
  mkModel "claude-opus-4-8" "anthropic" "Claude Opus 4.8" (decimal 5 0) (decimal 25 0);
  mkModel "claude-sonnet-4-6" "anthropic" "Claude Sonnet 4.6" (decimal 3 0) (decimal 15 0);
  mkModel "claude-sonnet-5" "anthropic" "Claude Sonnet 5" (decimal 2 0) (decimal 10 0);
  mkModel "claude-haiku-4-5" "anthropic" "Claude Haiku 4.5" (decimal 1 0) (decimal 5 0);
  mkModel "gemini-2.5-pro" "google" "Gemini 2.5 Pro" (decimal 125 2) (decimal 10 0);
  mkModel "gemini-2.5-flash" "google" "Gemini 2.5 Flash" (decimal 3 1) (decimal 25 1);
  mkModel "glm-5.2" "zhipuai" "GLM-5.2" (decimal 14 1) (decimal 44 1);
  mkModel "grok-4.3" "xai" "Grok 4.3" (decimal 125 2) (decimal 25 1)].

(** The embedded price list, decoded: per provider, per model its name and costs. *)
Record PricedModel := mkPriced { pr_Name : string; pr_Input : float64; pr_Output : float64 }.
Definition repriced (raw : gmap string (gmap string PricedModel)) (m : Model) : Model :=
  match raw !! mo_Provider m ≫= lookup (mo_ModelID m) with
  | Some md => mkModel (mo_ModelID m) (mo_Provider m) (if str_empty (pr_Name md) then mo_DisplayName m else pr_Name md)
                 (pr_Input md) (pr_Output md)
  | None => m
  end.
(** [New]: the catalog, with the prices of the list when it decodes. *)
Definition load (raw : option (gmap string (gmap string PricedModel))) : list Model :=
  match raw with Some raw => map (repriced raw) catalog | None => catalog end.
Definition Lookup (models : list Model) (modelID : string) : option Model :=
  List.find (fun m => String.eqb (mo_ModelID m) modelID) models.

(** ** Domain *)

Definition StatusRunning := "running".
Definition StatusCompleted := "completed".
Definition StatusFailed := "failed".
Definition StatusCancelled := "cancelled".
Definition KindLLM := "llm".
Definition KindTool := "tool".
Definition Types : list string := ["artifacts"; "impact"].
Definition ValidType (t : string) : bool := mem_str t Types.
Definition ValidTerminalStatus (s : string) : bool :=
  String.eqb s StatusCompleted || String.eqb s StatusFailed || String.eqb s StatusCancelled.
Definition ValidKind (kind : string) : bool := String.eqb kind KindLLM || String.eqb kind KindTool.

(** A session as it is stored, and as it is read, with its totals. *)
Record AgentSession := mkAgentSession {
  as_ID : string; as_OrgID : string; as_Type : string; as_Status : string; as_UserID : option string;
  as_ServiceAccountID : option string; as_Title : option string; as_ModelName : option string;
  as_Metadata : option string; as_Report : option string; as_Error : option string; as_StartedAt : Z;
  as_UpdatedAt : Z; as_CompletedAt : option Z
}.
Record SessionTotals := mkTotals {
  to_StepCount : Z; to_InputTokens : Z; to_OutputTokens : Z; to_ReasoningTokens : Z; to_CachedInputTokens : Z;
  to_CachedOutputTokens : Z; to_CostUSD : option float64; to_UnpricedSteps : Z; to_StepDurationMs : Z
}.
Record Session := mkSession { ss_Row : AgentSession; ss_Totals : SessionTotals }.
(** A step: its cost is a float64 in the program and a NUMERIC in the table. *)
Record Step (C : Type) := mkStep {
  sp_ID : string; sp_SessionID : string; sp_Seq : Z; sp_Kind : string; sp_Name : option string;
  sp_ModelName : option string; sp_Input : option string; sp_Output : option string; sp_Text : option string;
  sp_FinishReason : option string; sp_Error : option string; sp_InputTokens : option Z; sp_OutputTokens : option Z;
  sp_ReasoningTokens : option Z; sp_CachedInputTokens : option Z; sp_CachedOutputTokens : option Z;
  sp_CostUSD : option C; sp_StartedAt : Z; sp_CompletedAt : Z
}.
#[global] Arguments mkStep {C}.
#[global] Arguments sp_ID {C}. #[global] Arguments sp_SessionID {C}. #[global] Arguments sp_Seq {C}.
#[global] Arguments sp_Kind {C}. #[global] Arguments sp_Name {C}. #[global] Arguments sp_ModelName {C}.
#[global] Arguments sp_Input {C}. #[global] Arguments sp_Output {C}. #[global] Arguments sp_Text {C}.
#[global] Arguments sp_FinishReason {C}. #[global] Arguments sp_Error {C}. #[global] Arguments sp_InputTokens {C}.
#[global] Arguments sp_OutputTokens {C}. #[global] Arguments sp_ReasoningTokens {C}.
#[global] Arguments sp_CachedInputTokens {C}. #[global] Arguments sp_CachedOutputTokens {C}.
#[global] Arguments sp_CostUSD {C}. #[global] Arguments sp_StartedAt {C}. #[global] Arguments sp_CompletedAt {C}.
Definition with_payload {C D} (st : Step C) (seq : Z) (input output : option string) (cost : option D) : Step D :=
  mkStep (sp_ID st) (sp_SessionID st) seq (sp_Kind st) (sp_Name st) (sp_ModelName st) input output (sp_Text st)
    (sp_FinishReason st) (sp_Error st) (sp_InputTokens st) (sp_OutputTokens st) (sp_ReasoningTokens st)
    (sp_CachedInputTokens st) (sp_CachedOutputTokens st) cost (sp_StartedAt st) (sp_CompletedAt st).

Record SessionFilter := mkFilter {
  sf_Type : option string; sf_Status : option string; sf_Since : Z; sf_Limit : Z; sf_Offset : Z
}.
(** The columns the two queries of a summary share; [TypeSummary] adds the type. *)
Record Aggregates := mkAggregates {
  ag_TotalSessions : Z; ag_CompletedSessions : Z; ag_FailedSessions : Z; ag_RunningSessions : Z;
  ag_TotalDurationMs : Z; ag_Totals : SessionTotals
}.
Record Summary := mkSummary { su_All : Aggregates; su_ByType : list (string * Aggregates) }.

Record AgentTables := mkAgentTables {
  a_orgs : gset string; a_users : gset string; a_accounts : gset string;
  a_sessions : gmap string AgentSession; a_steps : gmap string (Step Z)
}.
Definition set_sessions (d : AgentTables) t := mkAgentTables (a_orgs d) (a_users d) (a_accounts d) t (a_steps d).
Definition set_steps (d : AgentTables) t := mkAgentTables (a_orgs d) (a_users d) (a_accounts d) (a_sessions d) t.
Definition AgentEff (A : Type) : Type := Eff (World AgentTables) (result store_err A).

(** NUMERIC(16,8) in ([None]: out of range) and out ([::float8]), and SUM over float8. *)
Class CostColumn := { cost_in : float64 -> option Z; cost_out : Z -> float64; float8_sum : list float64 -> float64 }.
Class AgentPayload := { #[global] agent_column :: JsonColumn string }.

(** ** Aggregates *)

Definition zsum (l : list Z) : Z := foldr Z.add 0%Z l.
(** COALESCE(SUM(x), 0), and SUM(x), which is NULL without values. *)
Definition sum0 {R} (f : R -> option Z) (l : list R) : Z := zsum (omap f l).
Definition sum_of {A} (sum : list A -> A) (l : list A) : option A := match l with [] => None | _ => Some (sum l) end.
Definition count {R} (p : R -> bool) (l : list R) : Z := Z.of_nat (length (List.filter p l)).
(** EXTRACT(EPOCH FROM ...) * 1000, rounded as a cast to bigint does. *)
Definition millis (ns : Z) : Z := (Z.sgn ns * ((2 * Z.abs ns + 1000000) / 2000000))%Z.

Section Store.
Context `{UuidText} `{AgentPayload} `{CostColumn}.
Implicit Types d : AgentTables.

Definition unpriced (st : Step Z) : bool := String.eqb (sp_Kind st) KindLLM && negb (found (sp_CostUSD st)).
Definition duration {C} (st : Step C) : Z := (sp_CompletedAt st - sp_StartedAt st)%Z.
(** agentSessionTotalsJoin, of the steps of one session. *)
Definition totals_of (l : list (Step Z)) : SessionTotals :=
  mkTotals (Z.of_nat (length l)) (sum0 sp_InputTokens l) (sum0 sp_OutputTokens l) (sum0 sp_ReasoningTokens l)
    (sum0 sp_CachedInputTokens l) (sum0 sp_CachedOutputTokens l) (cost_out <$> sum_of zsum (omap sp_CostUSD l))
    (count unpriced l) (millis (zsum (map duration l))).
Definition step_of (sessionID : string) (st : Step Z) : bool := String.eqb (sp_SessionID st) sessionID.
Definition steps_of (sessionID : string) d : list (Step Z) := select (step_of sessionID) (a_steps d).
Definition read_session d (s : AgentSession) : Session := mkSession s (totals_of (steps_of (as_ID s) d)).

(** ** Sessions *)

(** [if len(raw) > 0 { column = raw }] *)
Definition raw_column (raw : option string) : option (option string) :=
  nullable (if str_empty (default "" raw) then None else raw).
Definition insert_session (s : AgentSession) d : result store_err AgentTables :=
  match raw_column (as_Metadata s) with
  | None => bad_syntax
  | Some metadata =>
      if negb (forallb valid_uuid [as_ID s; as_OrgID s] && opt_ok valid_uuid (as_UserID s) &&
               opt_ok valid_uuid (as_ServiceAccountID s)) then bad_syntax
      else if found (a_sessions d !! as_ID s) || negb (bool_decide (as_OrgID s ∈ a_orgs d)) ||
              negb (opt_ok (fun u => bool_decide (u ∈ a_users d)) (as_UserID s)) ||
              negb (opt_ok (fun u => bool_decide (u ∈ a_accounts d)) (as_ServiceAccountID s)) then violation
      else Ok (set_sessions d (<[as_ID s := mkAgentSession (as_ID s) (as_OrgID s) (as_Type s) (as_Status s) (as_UserID s)
                 (as_ServiceAccountID s) (as_Title s) (as_ModelName s) metadata None None (as_StartedAt s) (as_UpdatedAt s)
                 None]> (a_sessions d)))
  end.
Definition CreateAgentSession (s : AgentSession) : AgentEff unit := exec (insert_session s).

Definition GetAgentSession (id : string) : AgentEff (option Session) :=
  query [id] (fun d => read_session d <$> a_sessions d !! id).

Definition in_period (orgID : string) (since : Z) (s : AgentSession) : bool :=
  String.eqb (as_OrgID s) orgID && (since <=? as_StartedAt s)%Z.
Definition opt_eq (o : option string) (v : string) : bool := match o with Some x => String.eqb v x | None => true end.
Definition in_filter (orgID : string) (f : SessionFilter) (s : AgentSession) : bool :=
  in_period orgID (sf_Since f) s && opt_eq (sf_Type f) (as_Type s) && opt_eq (sf_Status f) (as_Status s).
Definition ListAgentSessions (orgID : string) (f : SessionFilter) : AgentEff (list Session * Z) :=
  func (
    total <- try (query [orgID] (fun d => Z.of_nat (length (select (in_filter orgID f) (a_sessions d))))) Err ;;
    out <- try (query [orgID] (fun d =>
             map (read_session d) (take (Z.to_nat (sf_Limit f)) (drop (Z.to_nat (sf_Offset f))
               (order_by (desc (by_key as_StartedAt)) (select (in_filter orgID f) (a_sessions d))))))) Err ;;
    gret (Ok (out, total))).

Definition finished (status : string) (report errMsg : option string) (completedAt : Z) (s : AgentSession) : AgentSession :=
  mkAgentSession (as_ID s) (as_OrgID s) (as_Type s) status (as_UserID s) (as_ServiceAccountID s) (as_Title s)
    (as_ModelName s) (as_Metadata s) report errMsg (as_StartedAt s) completedAt (Some completedAt).
(** WHERE id=$5 AND status='running'; no row affected is a conflict. *)
Definition finish_session (id status : string) (report errMsg : option string) (completedAt : Z) d :
    result store_err AgentTables :=
  if negb (valid_uuid id) then bad_syntax else
  match a_sessions d !! id with
  | Some s => if String.eqb (as_Status s) StatusRunning
              then Ok (set_sessions d (<[id := finished status report errMsg completedAt s]> (a_sessions d)))
              else Err ErrConflict
  | None => Err ErrConflict
  end.
Definition FinishAgentSession (id status : string) (report errMsg : option string) (completedAt : Z) : AgentEff unit :=
  exec (finish_session id status report errMsg completedAt).

(** ** Steps *)

(** COALESCE(MAX(seq), 0) + 1 *)
Definition next_seq (sessionID : string) d : Z := (foldr Z.max 0 (map sp_Seq (steps_of sessionID d)) + 1)%Z.
Definition token_columns {C} (st : Step C) : bool :=
  forallb (opt_ok int4) [sp_InputTokens st; sp_OutputTokens st; sp_ReasoningTokens st; sp_CachedInputTokens st; sp_CachedOutputTokens st].
Definition stored_step (st : Step float64) (seq : Z) : option (Step Z) :=
  input ← raw_column (sp_Input st);
  output ← raw_column (sp_Output st);
  cost ← match sp_CostUSD st with None => Some None | Some c => option_map Some (cost_in c) end;
  if token_columns st && int4 seq then Some (with_payload st seq input output cost) else None.
Definition insert_step (st : Step float64) d : result store_err (Z * AgentTables) :=
  let seq := next_seq (sp_SessionID st) d in
  match stored_step st seq with
  | None => bad_syntax
  | Some row =>
      if negb (forallb valid_uuid [sp_ID st; sp_SessionID st]) then bad_syntax
      else if found (a_steps d !! sp_ID st) || negb (found (a_sessions d !! sp_SessionID st)) ||
              existsb (fun x => Z.eqb (sp_Seq x) seq) (steps_of (sp_SessionID st) d) then violation
      else Ok (seq, set_steps d (<[sp_ID st := row]> (a_steps d)))
  end.
Definition touched_session (t : Z) (s : AgentSession) : AgentSession :=
  mkAgentSession (as_ID s) (as_OrgID s) (as_Type s) (as_Status s) (as_UserID s) (as_ServiceAccountID s) (as_Title s)
    (as_ModelName s) (as_Metadata s) (as_Report s) (as_Error s) (as_StartedAt s) t (as_CompletedAt s).
Definition bump_session (id : string) (t : Z) d : result store_err AgentTables :=
  if negb (valid_uuid id) then bad_syntax else
  match a_sessions d !! id with
  | Some s => Ok (set_sessions d (<[id := touched_session t s]> (a_sessions d)))
  | None => Ok d
  end.
(** Two statements, not in a transaction. *)
Definition CreateAgentSessionStep (st : Step float64) : AgentEff Z :=
  func (
    seq <- try (returning (insert_step st)) Err ;;
    _ <- try (exec (bump_session (sp_SessionID st) (sp_CompletedAt st))) Err ;;
    gret (Ok seq)).

Definition read_step (st : Step Z) : Step float64 :=
  with_payload st (sp_Seq st) (sp_Input st) (sp_Output st) (cost_out <$> sp_CostUSD st).
Definition ListAgentSessionSteps (sessionID : string) : AgentEff (list (Step float64)) :=
  query [sessionID] (fun d => map read_step (order_by (by_key sp_Seq) (steps_of sessionID d))).

(** ** Summaries *)

Definition with_status (status : string) (s : Session) : bool := String.eqb (as_Status (ss_Row s)) status.
Definition run_time (s : Session) : option Z := (fun t => (t - as_StartedAt (ss_Row s))%Z) <$> as_CompletedAt (ss_Row s).
Definition added (f : SessionTotals -> Z) (l : list Session) : Z := zsum (map (fun s => f (ss_Totals s)) l).
Definition aggregates (l : list Session) : Aggregates :=
  mkAggregates (Z.of_nat (length l)) (count (with_status StatusCompleted) l) (count (with_status StatusFailed) l)
    (count (with_status StatusRunning) l) (millis (sum0 run_time l))
    (mkTotals (added to_StepCount l) (added to_InputTokens l) (added to_OutputTokens l) (added to_ReasoningTokens l)
       (added to_CachedInputTokens l) (added to_CachedOutputTokens l)
       (sum_of float8_sum (omap (fun s => to_CostUSD (ss_Totals s)) l)) (added to_UnpricedSteps l)
       (added to_StepDurationMs l)).
Definition in_summary (orgID : string) (since : Z) (sessionType : option string) (s : AgentSession) : bool :=
  in_period orgID since s && opt_eq sessionType (as_Type s).
Definition summed (orgID : string) (since : Z) (sessionType : option string) d : list Session :=
  map (read_session d) (select (in_summary orgID since sessionType) (a_sessions d)).
Definition of_type (t : string) (s : Session) : bool := String.eqb (as_Type (ss_Row s)) t.
(** GROUP BY s.type ORDER BY total_sessions DESC *)
Definition by_type (l : list Session) : list (string * Aggregates) :=
  order_by (desc (by_key (fun ta : string * Aggregates => ag_TotalSessions ta.2)))
    (map (fun t => (t, aggregates (List.filter (of_type t) l))) (remove_dups (map (fun s => as_Type (ss_Row s)) l))).
Definition GetAgentSessionSummary (orgID : string) (since : Z) (sessionType : option string) : AgentEff Summary :=
  func (
    all <- try (query [orgID] (fun d => aggregates (summed orgID since sessionType d))) Err ;;
    types <- try (query [orgID] (fun d => by_type (summed orgID since sessionType d))) Err ;;
    gret (Ok (mkSummary all types))).
End Store.
