(* ===== verification/AgentHandlers.v ===== *)
(** * AgentHandlers: the requests on the runs of agents

    Models [internal/api/agentsession].  A handler takes the principal of the context, the
    path values, the query values and the decoded body ([None]: it does not decode); the
    prices are those of [modelpricing], loaded once.  [serve] is the dispatch of the routes
    [Register] mounts. *)

From S2P Require Import Prelude GoStrings Effects Float64 ApiSpec Authz Identity Table Requests ServiceHandlers AgentStore.
#[local] Open Scope nat_scope.
#[local] Open Scope string_scope.

Record createRequest := mkCreateRequest {
  ca_Type : string; ca_Title : option string; ca_ModelName : option string; ca_Metadata : option string
}.
Record finishRequest := mkFinishRequest {
  fi_Status : string; fi_Report : option string; fi_Error : option string; fi_CompletedAt : option Z
}.
Record stepRequest := mkStepRequest {
  sr_Kind : string; sr_Name : option string; sr_ModelName : option string; sr_Input : option string;
  sr_Output : option string; sr_Text : option string; sr_FinishReason : option string; sr_Error : option string;
  sr_InputTokens : option Z; sr_OutputTokens : option Z; sr_ReasoningTokens : option Z;
  sr_CachedInputTokens : option Z; sr_CachedOutputTokens : option Z; sr_StartedAt : option Z; sr_CompletedAt : option Z
}.
Record sessionQuery := mkSessionQuery {
  qu_period : string; qu_limit : string; qu_offset : string; qu_type : string; qu_status : string
}.

Inductive agent_body : Type :=
| OneSession (s : option Session)
| SessionList (l : list Session) (total : Z) (period : string) (limit offset : Z)
| SessionSteps (s : Session) (steps : list (Step float64))
| OneStep (st : Step float64)
| SummaryOf (period : string) (s : Summary).
Definition AReply : Type := Response agent_body.

(** Wrapped sentinels keep the text of what wraps them. *)
Definition session_not_found : AReply := mkResponse 404 (ApiError "not_found" "agent session: not found").
Definition finish_error (e : store_err) : AReply :=
  match e with
  | ErrConflict => mkResponse 409 (ApiError "conflict" "postgres: FinishAgentSession: conflict")
  | _ => HttpError e
  end.

Definition hour : Z := 3600000000000.
Definition parsePeriod (raw : string) (now : Z) : string * Z :=
  if String.eqb raw "1d" then ("1d", now - 24 * hour)%Z
  else if String.eqb raw "30d" then ("30d", now - 30 * 24 * hour)%Z
  else if String.eqb raw "1y" then ("1y", now - 365 * 24 * hour)%Z
  else ("7d", now - 7 * 24 * hour)%Z.

(** [float64(n)/1_000_000*cost], twice; no fused operations. *)
Definition costUSD (inputTokens outputTokens : Z) (m : Model) : float64 :=
  fadd (fmul (fdiv (float_of inputTokens) (float_of 1000000)) (mo_InputCostPerMillion m))
    (fmul (fdiv (float_of outputTokens) (float_of 1000000)) (mo_OutputCostPerMillion m)).

Section Handlers.
Context `{UuidText} `{AgentPayload} `{CostColumn} `{UuidGen}.
Context (models : list Model).
#[local] Abbreviation W := (World AgentTables).

Definition priceStep (st : Step float64) (sessionModel : option string) : option float64 :=
  if String.eqb (sp_Kind st) KindTool then None
  else if negb (found (sp_InputTokens st)) && negb (found (sp_OutputTokens st)) then None
  else
    name ← or_old (sp_ModelName st) sessionModel;
    price ← Lookup models name;
    Some (costUSD (default 0%Z (sp_InputTokens st)) (default 0%Z (sp_OutputTokens st)) price).

Definition loadSession (orgID sessionID : string) : Go W AReply Session :=
  o <- try (GetAgentSession sessionID) HttpError ;;
  s <- non_nil o session_not_found ;;
  return_if (negb (String.eqb (as_OrgID (ss_Row s)) orgID)) session_not_found ;;;
  gret s.

Definition no_totals : SessionTotals := mkTotals 0 0 0 0 0 0 None 0 0.
Definition new_session (id orgID : string) (p : Principal) (b : createRequest) (now : Z) : AgentSession :=
  let account := String.eqb (p_Kind p) PrincipalServiceAccount in
  mkAgentSession id orgID (ca_Type b) StatusRunning (if account then None else Some (p_UserID p))
    (if account then Some (p_UserID p) else None) (ca_Title b) (ca_ModelName b) (ca_Metadata b) None None now now None.
Definition Create (ctx : option Principal) (orgID : string) (req : option createRequest) : Eff W AReply :=
  func (
    p <- non_nil ctx Unauthorized ;;
    body <- non_nil req bad_body ;;
    return_if (negb (ValidType (ca_Type body))) (BadRequest "unknown agent session type") ;;;
    now <- call time_now ;;
    id <- try NewString fail ;;
    let s := new_session id orgID p body now in
    _ <- try (CreateAgentSession s) HttpError ;;
    gret (JSON 201 (OneSession (Some (mkSession s no_totals))))).

Definition Finish (orgID sessionID : string) (req : option finishRequest) : Eff W AReply :=
  func (
    body <- non_nil req bad_body ;;
    return_if (negb (ValidTerminalStatus (fi_Status body))) (BadRequest "status must be one of completed, failed, cancelled") ;;;
    sess <- loadSession orgID sessionID ;;
    now <- call time_now ;;
    let completedAt := default now (fi_CompletedAt body) in
    _ <- try (FinishAgentSession (as_ID (ss_Row sess)) (fi_Status body) (fi_Report body) (fi_Error body) completedAt) finish_error ;;
    updated <- try (GetAgentSession (as_ID (ss_Row sess))) HttpError ;;
    gret (JSON 200 (OneSession updated))).

Definition List_ (orgID : string) (q : sessionQuery) : Eff W AReply :=
  func (
    now <- call time_now ;;
    let ps := parsePeriod (qu_period q) now in
    let t := query_param (qu_type q) in
    let s := query_param (qu_status q) in
    return_if (negb (opt_ok ValidType t)) (BadRequest "unknown agent session type") ;;;
    return_if (negb (opt_ok (fun s => String.eqb s StatusRunning || ValidTerminalStatus s) s))
      (BadRequest "unknown agent session status") ;;;
    let f := mkFilter t s ps.2 (ListLimit (qu_limit q)) (ListOffset (qu_offset q)) in
    out <- try (ListAgentSessions orgID f) HttpError ;;
    gret (JSON 200 (SessionList out.1 out.2 ps.1 (sf_Limit f) (sf_Offset f)))).

Definition Get (orgID sessionID : string) : Eff W AReply :=
  func (
    sess <- loadSession orgID sessionID ;;
    steps <- try (ListAgentSessionSteps (as_ID (ss_Row sess))) HttpError ;;
    gret (JSON 200 (SessionSteps sess steps))).

Definition new_step (id sessionID : string) (b : stepRequest) (startedAt completedAt : Z) (cost : option float64) : Step float64 :=
  mkStep id sessionID 0 (sr_Kind b) (sr_Name b) (sr_ModelName b) (sr_Input b) (sr_Output b) (sr_Text b) (sr_FinishReason b)
    (sr_Error b) (sr_InputTokens b) (sr_OutputTokens b) (sr_ReasoningTokens b) (sr_CachedInputTokens b)
    (sr_CachedOutputTokens b) cost startedAt completedAt.
Definition CreateStep (orgID sessionID : string) (req : option stepRequest) : Eff W AReply :=
  func (
    body <- non_nil req bad_body ;;
    return_if (negb (ValidKind (sr_Kind body))) (BadRequest "kind must be one of llm, tool") ;;;
    return_if (String.eqb (sr_Kind body) KindTool && negb (found (sr_Name body))) (BadRequest "name is required on tool steps") ;;;
    startedAt <- non_nil (sr_StartedAt body) (BadRequest "startedAt and completedAt are required") ;;
    completedAt <- non_nil (sr_CompletedAt body) (BadRequest "startedAt and completedAt are required") ;;
    sess <- loadSession orgID sessionID ;;
    id <- try NewString fail ;;
    let st := new_step id (as_ID (ss_Row sess)) body startedAt completedAt None in
    let priced := with_payload st 0 (sp_Input st) (sp_Output st) (priceStep st (as_ModelName (ss_Row sess))) in
    seq <- try (CreateAgentSessionStep priced) HttpError ;;
    gret (JSON 201 (OneStep (with_payload priced seq (sp_Input st) (sp_Output st) (sp_CostUSD priced))))).

Definition Summary_ (orgID period type : string) : Eff W AReply :=
  func (
    now <- call time_now ;;
    let ps := parsePeriod period now in
    let t := query_param type in
    return_if (negb (opt_ok ValidType t)) (BadRequest "unknown agent session type") ;;;
    sum <- try (GetAgentSessionSummary orgID ps.2 t) HttpError ;;
    gret (JSON 200 (SummaryOf ps.1 sum))).

Inductive agent_request : Type :=
| AgCreate (req : option createRequest)
| AgFinish (sessionID : string) (req : option finishRequest)
| AgStep (sessionID : string) (req : option stepRequest)
| AgList (q : sessionQuery)
| AgSummary (period type : string)
| AgGet (sessionID : string).
Definition serve (ctx : option Principal) (orgID : string) (q : agent_request) : Eff W AReply :=
  match q with
  | AgCreate b => Create ctx orgID b
  | AgFinish id b => Finish orgID id b
  | AgStep id b => CreateStep orgID id b
  | AgList q => List_ orgID q
  | AgSummary p t => Summary_ orgID p t
  | AgGet id => Get orgID id
  end.
End Handlers.
