(* ===== verification/AgentLife.v ===== *)
(** * AgentLife: what requests on the runs of agents keep

    The invariant ([agents_ok]): a session is running without an outcome or finished with
    one, and the steps of a session are numbered from one without gaps.  What a request of
    an org may change ([changes]), and that every handler stays within it. *)

From S2P Require Import Prelude GoStrings Effects Float64 ApiSpec Authz Identity Table Requests ServiceHandlers AgentStore AgentHandlers.
#[local] Open Scope nat_scope.
#[local] Open Scope string_scope.
Set Warnings "-clear-no-such-hyp".

Section Life.
Context `{UuidText} `{AgentPayload} `{CostColumn} `{UuidGen}.
#[local] Abbreviation W := (World AgentTables).
Implicit Types (d : AgentTables) (s : AgentSession) (w : W).

(** ** The invariant *)

Definition unfinished s : Prop := as_Status s = StatusRunning /\ as_Report s = None /\ as_Error s = None /\ as_CompletedAt s = None.
Definition ended s : Prop := ValidTerminalStatus (as_Status s) = true /\ is_Some (as_CompletedAt s).
Record session_ok d (k : string) s : Prop := {
  se_id : as_ID s = k; se_org : as_OrgID s ∈ a_orgs d; se_type : ValidType (as_Type s) = true;
  se_actor : found (as_UserID s) = negb (found (as_ServiceAccountID s)); se_metadata : kept_payload (as_Metadata s);
  se_status : unfinished s \/ ended s
}.
Record step_ok d (k : string) (st : Step Z) : Prop := {
  sk_id : sp_ID st = k; sk_session : is_Some (a_sessions d !! sp_SessionID st); sk_kind : ValidKind (sp_Kind st) = true;
  sk_tool : sp_Kind st = KindTool -> found (sp_Name st) = true /\ sp_CostUSD st = None
}.
(** 1, 2, ..., n in some order. *)
Definition numbered (l : list (Step Z)) : Prop := map sp_Seq l ≡ₚ map Z.of_nat (seq 1 (length l)).
Record agents_ok d : Prop := {
  ok_sessions k s : a_sessions d !! k = Some s -> session_ok d k s;
  ok_steps k st : a_steps d !! k = Some st -> step_ok d k st;
  ok_seqs sessionID : numbered (steps_of sessionID d)
}.

Lemma not_both s : as_Status s = StatusRunning -> ValidTerminalStatus (as_Status s) = false.
Proof. by intros ->. Qed.

(** ** What a request changes *)

(** What a session keeps for ever, and what it keeps once it is finished. *)
Definition origin s := (as_ID s, as_OrgID s, as_Type s, as_UserID s, as_ServiceAccountID s, as_Title s, as_ModelName s,
  as_Metadata s, as_StartedAt s).
Definition outcome s := (as_Status s, as_Report s, as_Error s, as_CompletedAt s).
Definition kept_session s s' : Prop := origin s' = origin s /\ (as_Status s <> StatusRunning -> outcome s' = outcome s).
Lemma kept_session_refl s : kept_session s s.
Proof. by split. Qed.
#[local] Hint Resolve kept_session_refl : core.
Lemma kept_session_trans s1 s2 s3 : kept_session s1 s2 -> kept_session s2 s3 -> kept_session s1 s3.
Proof.
  intros [O1 F1] [O2 F2]. split; [congruence|]. intros Hn. specialize (F1 Hn). rewrite <-F1. apply F2.
  unfold outcome in F1. congruence.
Qed.

Record changes (oid : string) d d' : Prop := {
  ch_orgs : a_orgs d' = a_orgs d; ch_users : a_users d' = a_users d; ch_accounts : a_accounts d' = a_accounts d;
  ch_sessions : evolves (fun s => as_OrgID s = oid) kept_session (a_sessions d) (a_sessions d');
  ch_steps : all_kept eq (a_steps d) (a_steps d');
  ch_new k st : a_steps d !! k = None -> a_steps d' !! k = Some st ->
    exists s, a_sessions d' !! sp_SessionID st = Some s /\ as_OrgID s = oid
}.
Lemma changes_same oid d : changes oid d d.
Proof. split; try done; [by apply evolves_refl|by apply all_kept_refl|congruence]. Qed.

Lemma changes_then oid d1 d2 d3 : changes oid d1 d2 -> changes oid d2 d3 -> changes oid d1 d3.
Proof.
  intros [A1 A2 A3 [A4 A4'] A5 A6] [B1 B2 B3 [B4 B4'] B5 B6]. split; try congruence.
  - split; [eapply untouched_trans; [|done|done]; done|eapply all_kept_trans; [apply kept_session_trans|done|done]].
  - eapply all_kept_trans; [apply eq_trans|done|done].
  - intros k st Hn Hs. destruct (a_steps d2 !! k) as [st2|] eqn:E; [|by apply (B6 k)].
    destruct (B5 k st2 E) as (st' & Hs' & <-). rewrite Hs in Hs'. injection Hs' as ->.
    destruct (A6 k st2 Hn E) as (s & Hk & Ho). destruct (B4' _ s Hk) as (s' & Hk' & [Eo _]). exists s'. split; [done|].
    unfold origin in Eo. congruence.
Qed.

Lemma changes_session oid d k s :
  as_OrgID s = oid -> (forall s0, a_sessions d !! k = Some s0 -> as_OrgID s0 = oid /\ kept_session s0 s) ->
  changes oid d (set_sessions d (<[k := s]> (a_sessions d))).
Proof.
  intros Hs Hk. split; cbn; try done; [by apply evolves_insert|by apply all_kept_refl|congruence].
Qed.

Lemma steps_of_sessions sid d t : steps_of sid (set_sessions d t) = steps_of sid d.
Proof. done. Qed.
Lemma ok_put_session d k s :
  agents_ok d -> session_ok d k s -> agents_ok (set_sessions d (<[k := s]> (a_sessions d))).
Proof.
  intros [Hs Hst Hn] Hk. split; cbn; [| |done].
  - intros k' s' [[<- <-]|[_ Hl]]%lookup_insert_Some; [by destruct Hk|by destruct (Hs k' s' Hl)].
  - intros k' st Hl. destruct (Hst k' st Hl). split; cbn; auto.
Qed.

(** ** Numbers of steps *)

Lemma max_perm (l l' : list Z) : l ≡ₚ l' -> foldr Z.max 0%Z l = foldr Z.max 0%Z l'.
Proof. induction 1; cbn; try lia. Qed.
Lemma max_range i n : foldr Z.max 0%Z (map Z.of_nat (seq i n)) = match n with O => 0%Z | S _ => Z.of_nat (i + n - 1) end.
Proof.
  revert i. induction n as [|n IH]; intros i; [done|]. cbn [seq map foldr]. rewrite IH.
  destruct n; lia.
Qed.
Lemma next_seq_length sid d : numbered (steps_of sid d) -> next_seq sid d = Z.of_nat (S (length (steps_of sid d))).
Proof.
  intros Hn. unfold next_seq. rewrite (max_perm _ _ Hn), max_range. destruct (length _); lia.
Qed.
Lemma steps_of_insert sid d k st :
  a_steps d !! k = None ->
  steps_of sid (set_steps d (<[k := st]> (a_steps d))) ≡ₚ (if step_of sid st then [st] else []) ++ steps_of sid d.
Proof. intros Hk. unfold steps_of. cbn. by apply select_insert. Qed.
Lemma numbered_insert sid d k st :
  a_steps d !! k = None -> numbered (steps_of sid d) -> (step_of sid st = true -> sp_Seq st = next_seq sid d) ->
  numbered (steps_of sid (set_steps d (<[k := st]> (a_steps d)))).
Proof.
  intros Hk Hn Hs. pose proof (steps_of_insert sid d k st Hk) as Hp. unfold numbered in *.
  rewrite (Permutation_length Hp), Hp. destruct (step_of sid st); [|done]. cbn [app map length].
  rewrite Hs, (next_seq_length sid d Hn), Hn by done. rewrite (seq_S (length _) 1), map_app. cbn [map].
  by rewrite (Permutation_app_comm _ [_]).
Qed.

(** ** Statements *)

Definition owned_by (oid k : string) d : Prop := forall s, a_sessions d !! k = Some s -> as_OrgID s = oid.
Definition preserved (oid : string) d d' : Prop := agents_ok d' /\ changes oid d d'.
Context (oid : string) (d d' : AgentTables).
Hypothesis Hok : agents_ok d.

Lemma insert_session_step s :
  as_OrgID s = oid -> ValidType (as_Type s) = true -> as_Status s = StatusRunning ->
  found (as_UserID s) = negb (found (as_ServiceAccountID s)) -> insert_session s d = Ok d' -> preserved oid d d'.
Proof using Hok.
  intros Ho Ht Hs Ha. unfold insert_session, raw_column. past. bools. split.
  - apply ok_put_session; [done|]. split; cbn; try done.
    + by eapply bool_decide_eq_true_1.
    + eapply nullable_kept; eassumption.
    + by left.
  - apply changes_session; [done|]. intros s0 Hs0. congruence.
Qed.
Lemma finish_step id status report errMsg t :
  ValidTerminalStatus status = true -> owned_by oid id d -> finish_session id status report errMsg t d = Ok d' ->
  preserved oid d d'.
Proof using Hok.
  intros Hs Ho. unfold finish_session. past. bools.
  match goal with Hx : a_sessions d !! id = Some ?x |- _ => rename x into s; rename Hx into Hk end.
  destruct (ok_sessions _ Hok _ _ Hk). apply String.eqb_eq in Heqb0 as Hrun. split.
  - apply ok_put_session; [done|]. split; cbn; try done. right. by split.
  - apply changes_session; [by apply (Ho s)|]. intros s0 Hs0. rewrite Hk in Hs0. injection Hs0 as <-.
    split; [by apply Ho|]. split; [done|]. by rewrite Hrun.
Qed.
Lemma bump_step id t : owned_by oid id d -> bump_session id t d = Ok d' -> preserved oid d d'.
Proof using Hok.
  intros Ho. unfold bump_session. past; [|split; [done|apply changes_same]].
  match goal with Hx : a_sessions d !! id = Some ?x |- _ => rename x into s; rename Hx into Hk end.
  destruct (ok_sessions _ Hok _ _ Hk) as [Hid Horg Hty Hac Hme Hst]. split.
  - by apply ok_put_session; [|split].
  - apply changes_session; [by apply (Ho s)|]. intros s0 Hs0. rewrite Hk in Hs0. injection Hs0 as <-.
    split; [by apply Ho|by split].
Qed.

Lemma stored_step_parts st n row :
  stored_step st n = Some row -> sp_ID row = sp_ID st /\ sp_SessionID row = sp_SessionID st /\ sp_Seq row = n /\
    sp_Kind row = sp_Kind st /\ sp_Name row = sp_Name st /\ (sp_CostUSD st = None -> sp_CostUSD row = None).
Proof.
  unfold stored_step. destruct (raw_column (sp_Input st)); [|done]. destruct (raw_column (sp_Output st)); [|done]. cbn.
  destruct (match sp_CostUSD st with None => _ | Some _ => _ end) as [c|] eqn:Hc; [|done]. cbn.
  destruct (_ && _); [|done]. intros [= <-]. split_and!; try done. cbn. intros E. rewrite E in Hc. congruence.
Qed.
Lemma insert_step_run st n :
  insert_step st d = Ok (n, d') ->
  n = next_seq (sp_SessionID st) d /\ a_steps d !! sp_ID st = None /\ is_Some (a_sessions d !! sp_SessionID st) /\
  exists row, stored_step st n = Some row /\ d' = set_steps d (<[sp_ID st := row]> (a_steps d)).
Proof using.
  unfold insert_step. past. bools.
  split_and!; [done|done|done|by eexists].
Qed.
Lemma insert_step_step st n :
  ValidKind (sp_Kind st) = true -> (sp_Kind st = KindTool -> found (sp_Name st) = true /\ sp_CostUSD st = None) ->
  owned_by oid (sp_SessionID st) d -> insert_step st d = Ok (n, d') -> preserved oid d d'.
Proof using Hok.
  intros Hkind Htool Ho E. apply insert_step_run in E as (-> & Hnone & [s Hs] & row & Hrow & ->).
  destruct (stored_step_parts _ _ _ Hrow) as (Ri & Rs & Rq & Rk & Rn & Rc). split; [split; cbn|split; cbn; try done].
  - intros k' s' Hl. destruct (ok_sessions _ Hok k' s' Hl). by split.
  - intros k' st' [[<- <-]|[_ Hl]]%lookup_insert_Some; [|by destruct (ok_steps _ Hok k' st' Hl)].
    split; [done|rewrite Rs; cbn; by rewrite Hs|by rewrite Rk|]. rewrite Rk, Rn. intros Ht. destruct (Htool Ht). auto.
  - intros sid. apply numbered_insert; [done|by apply ok_seqs|]. unfold step_of. rewrite Rs, Rq. by intros <-%String.eqb_eq.
  - by apply evolves_refl.
  - by apply all_kept_insert; [|congruence].
  - intros k' st' Hn' [[<- <-]|[_ Hl]]%lookup_insert_Some; [|congruence]. rewrite Rs. eauto.
Qed.

Lemma preserved_then (dm : AgentTables) : preserved oid d dm -> (agents_ok dm -> preserved oid dm d') -> preserved oid d d'.
Proof using. intros [Om Cm] Hn. destruct (Hn Om) as [O' C']. split; [done|]. by eapply changes_then. Qed.
End Life.

(** ** Handlers *)

Section Load.
Context `{UuidText} `{AgentPayload} `{CostColumn}.
#[local] Abbreviation W := (World AgentTables).
Context (d0 : AgentTables) (P : AReply -> W -> Prop).
Hypothesis Hquiet : quiet d0 P.
Lemma ends_load {C} oid sid (f : Session -> Go W AReply C) (Q : C -> W -> Prop) w :
  w_db w = d0 ->
  (forall s w', a_sessions d0 !! sid = Some s -> as_OrgID s = oid -> w_db w' = d0 -> wp (f (read_session d0 s)) P Q w') ->
  wp (x <- loadSession oid sid ;; f x) P Q w.
Proof using Hquiet.
  intros Hw HQ. unfold loadSession. apply wp_bind, wp_bind. eapply ends_query; [exact Hquiet|done|]. intros w2 Hw2.
  destruct (a_sessions d0 !! sid) as [s|] eqn:Hs; cbn [fmap option_fmap option_map non_nil].
  - rewrite wp_bind, wp_ret, wp_bind, wp_return_if. split; [intros _; by apply Hquiet|].
    intros Ho%negb_false_iff%String.eqb_eq. by apply wp_ret, HQ.
  - rewrite wp_bind, wp_return. by apply Hquiet.
Qed.
End Load.

Section Serve.
Context `{UuidText} `{AgentPayload} `{CostColumn} `{UuidGen}.
Context (models : list Model) (ctx : option Principal) (oid : string).
#[local] Abbreviation W := (World AgentTables).
Context (w : W).
Hypothesis Hok : agents_ok (w_db w).

Definition of_org (s : Session) : Prop := as_OrgID (ss_Row s) = oid.
Definition shown_agents (b : agent_body) (d : AgentTables) : Prop :=
  match b with
  | OneSession o => match o with Some s => of_org s | None => True end
  | SessionList l _ _ _ _ => Forall of_org l
  | SessionSteps s steps => of_org s /\ Forall (fun st => sp_SessionID st = as_ID (ss_Row s)) steps
  | OneStep st => owned_by oid (sp_SessionID st) d
  | SummaryOf _ _ => True
  end.
Record agent_post (r : AReply) (w' : W) : Prop := {
  ap_ok : agents_ok (w_db w'); ap_changes : changes oid (w_db w) (w_db w');
  ap_fails : succeeded r = false -> status r <> 500%Z -> w_db w' = w_db w;
  ap_shown : match payload r with Json b => shown_agents b (w_db w') | _ => True end
}.

Lemma agent_quiet : quiet (w_db w) agent_post.
Proof using Hok.
  intros r w' [_ Hn]%andb_true_iff Hd. split; rewrite ?Hd; [done|apply changes_same|done|by destruct (payload r)].
Qed.
Lemma agent_read st b w' : shown_agents b (w_db w) -> w_db w' = w_db w -> agent_post (JSON st b) w'.
Proof using Hok. intros Hb Hd. split; rewrite ?Hd; [done|apply changes_same|done|done]. Qed.
Lemma agent_wrote r w' :
  preserved oid (w_db w) (w_db w') -> succeeded r = true \/ status r = 500%Z ->
  match payload r with Json b => shown_agents b (w_db w') | _ => True end -> agent_post r w'.
Proof using. intros [Ho Hc] Hr Hb. split; [done|done|destruct Hr; congruence|done]. Qed.
(** A query that fails is an internal error. *)
Lemma query_500 {A} ids (f : AgentTables -> A) w1 e w2 : query ids f w1 = (Err e, w2) -> status (HttpError (B := agent_body) e) = 500%Z.
Proof using.
  unfold query. intros [[[= ->] _]|(d2 & Ea & _)]%db_op_cases; [done|]. destruct (forallb valid_uuid ids); [done|]. by injection Ea as <-.
Qed.

(** Reading the session again, after it changed. *)
Lemma reread id (d : AgentTables) w1 :
  preserved oid (w_db w) d -> w_db w1 = d -> owned_by oid id d ->
  wp (updated <- try (GetAgentSession id) HttpError ;; gret (JSON 200 (OneSession updated))) agent_post agent_post w1.
Proof using.
  intros Hp Hd Ho. rewrite wp_bind, wp_try. destruct (GetAgentSession id w1) as [[o|e] w2] eqn:E; unfold GetAgentSession in E;
    pose proof (query_cases _ _ _ _ _ E) as [Hd2 Ha].
  - apply wp_ret, agent_wrote; [by rewrite Hd2, Hd|by left|]. destruct (Ha o eq_refl) as [_ ->]. cbn. rewrite Hd.
    destruct (a_sessions d !! id) as [s|] eqn:Hs; [|done]. by apply (Ho s).
  - apply agent_wrote; [by rewrite Hd2, Hd|right; by eapply query_500|by destruct e].
Qed.

(** The two statements of a step: nothing, both, or the first alone, reported as an internal error. *)
Lemma step_cases st w1 r w2 :
  CreateAgentSessionStep st w1 = (r, w2) ->
  (exists e, r = Err e /\ w_db w2 = w_db w1) \/
  exists n d1, insert_step st (w_db w1) = Ok (n, d1) /\
    ((r = Ok n /\ bump_session (sp_SessionID st) (sp_CompletedAt st) d1 = Ok (w_db w2)) \/
     (exists e, r = Err e /\ status (HttpError (B := agent_body) e) = 500%Z /\ w_db w2 = d1)).
Proof using.
  unfold CreateAgentSessionStep, func, try, gbind, call, gret, greturn.
  destruct (returning (insert_step st) w1) as [[n|e] w3] eqn:E1; apply returning_cases in E1 as [(e1 & [=] & Hd)|(a & [=] & Hi)];
    subst; [|by intros [= <- <-]; left; eauto].
  destruct (exec _ w3) as [[u|e] w4] eqn:E2; intros [= <- <-]; right; exists a, (w_db w3); (split; [done|]).
  - apply exec_cases in E2 as [(e1 & [=] & _)|(_ & E2)]. by left.
  - right. exists e. split; [done|]. unfold exec in E2. apply db_op_cases in E2 as [[[= ->] Hd]|(d & Ed & <-)]; [done|].
    destruct (bump_session _ _ _) as [d'|e'] eqn:Eb; [done|]. injection Ed as <- <-. split; [|done].
    unfold bump_session in Eb. destruct (negb _); [by injection Eb as <-|]. by destruct (a_sessions _ !! _).
Qed.

Lemma Create_post b : agent_post (Create ctx oid b w).1 (Create ctx oid b w).2.
Proof using Hok.
  pose proof agent_quiet as Hq. apply (func_ends agent_post). repeat (cbv zeta; ends_step). cbv zeta.
  eapply ends_exec_now; [done|done|apply HttpError_refused|]. intros w9 E9. apply wp_ret, agent_wrote; [|by left|done].
  eapply insert_session_step; [exact Hok|..|exact E9]; cbn; try done; [by apply negb_false_iff|]. by destruct (String.eqb _ _).
Qed.
Lemma Finish_post sid b : agent_post (Finish oid sid b w).1 (Finish oid sid b w).2.
Proof using Hok.
  pose proof agent_quiet as Hq. apply (func_ends agent_post). do 2 ends_step. eapply ends_load; [done|done|].
  intros s w8 Hs Ho Hw8. assert (as_ID s = sid) as Hid by (by apply (ok_sessions _ Hok)). cbn [ss_Row read_session]. rewrite Hid. ends_step. cbv zeta.
  assert (owned_by oid sid (w_db w)) as Hown by (intros s0 Hs0; congruence).
  eapply ends_exec_now; [done|done|by intros []|]. intros w9 E9.
  assert (preserved oid (w_db w) (w_db w9)) as Hp.
  { eapply finish_step; [exact Hok|by apply negb_false_iff|exact Hown|exact E9]. }
  eapply reread; [exact Hp|done|]. intros s0 Hs0. destruct Hp as [_ [_ _ _ [_ Hk] _ _]].
  destruct (Hk sid s Hs) as (s1 & Hs1 & [Eo _]). rewrite Hs0 in Hs1. injection Hs1 as ->. unfold origin in Eo. congruence.
Qed.
Lemma CreateStep_post sid b : agent_post (CreateStep models oid sid b w).1 (CreateStep models oid sid b w).2.
Proof using Hok.
  pose proof agent_quiet as Hq. apply (func_ends agent_post). do 5 ends_step. eapply ends_load; [done|done|].
  intros s w8 Hs Ho Hw8. assert (as_ID s = sid) as Hid by (by apply (ok_sessions _ Hok)). cbn [ss_Row read_session]. ends_step. cbv zeta.
  assert (owned_by oid sid (w_db w)) as Hown by (intros s0 Hs0; congruence).
  rewrite Hid, wp_bind, wp_try.
  match goal with |- context [CreateAgentSessionStep ?st ?w0] => set (p := st); destruct (CreateAgentSessionStep p w0) as [r9 w9] eqn:E9 end.
  apply step_cases in E9 as [(e & -> & Hd)|(n & d1 & Hi & Hr)]; [apply Hq; [done|congruence]|].
  match goal with Hw : w_db ?w0 = w_db w, Hx : insert_step p (w_db ?w0) = _ |- _ => rewrite Hw in Hx end.
  assert (preserved oid (w_db w) d1) as Hp.
  { apply (insert_step_step _ _ _ Hok p n); [| |exact Hown|exact Hi]; cbn; [by apply negb_false_iff|]. intros Ht.
    match goal with Hx : _ && _ = false |- _ => rewrite Ht in Hx; apply negb_false_iff in Hx; split; [done|] end.
    unfold priceStep. cbn. by rewrite Ht. }
  assert (owned_by oid sid d1) as Hown1 by (destruct (insert_step_run _ _ _ _ Hi) as (_ & _ & _ & row & _ & ->); done).
  destruct Hr as [[-> Hb]|(e & -> & He & Hd)].
  - assert (preserved oid (w_db w) (w_db w9)) as Hp9.
    { eapply preserved_then; [exact Hp|]. intros Ho1. by eapply bump_step. }
    apply wp_ret, agent_wrote; [done|by left|]. cbn. intros s0 Hs0. destruct Hp9 as [_ [_ _ _ [_ Hk] _ _]].
    destruct (Hk sid s Hs) as (s1 & Hs1 & [Eo _]). rewrite Hs0 in Hs1. injection Hs1 as ->. unfold origin in Eo. congruence.
  - apply agent_wrote; [by rewrite Hd|by right|by destruct e].
Qed.
Lemma serve_agents_post q : agent_post (serve models ctx oid q w).1 (serve models ctx oid q w).2.
Proof using Hok.
  destruct q as [b|sid b|sid b|q|p t|sid]; cbn [serve]; [apply Create_post|apply Finish_post|apply CreateStep_post|..];
    pose proof agent_quiet as Hq; apply (func_ends agent_post).
  - repeat (cbv zeta; ends_step). cbv zeta. eapply ends_two; [done|done|]. intros w9 Hw9. apply wp_ret, agent_read; [|done]. cbn.
    apply Forall_forall. intros x Hx. apply list_elem_of_fmap in Hx as (s & -> & Hs).
    apply elem_of_take in Hs as (i & Hs & _). rewrite lookup_drop in Hs. apply list_elem_of_lookup_2 in Hs.
    unfold order_by in Hs. rewrite sort_stable_elem, select_elem in Hs. destruct Hs as [_ Hs].
    unfold in_filter, in_period in Hs. bool_to_prop. done.
  - repeat (cbv zeta; ends_step). cbv zeta. eapply ends_two; [done|done|]. intros w9 Hw9. by apply wp_ret, agent_read.
  - eapply ends_load; [done|done|]. intros s w8 Hs Ho Hw8. ends_step. apply wp_ret, agent_read; [|done]. split; [done|].
    apply Forall_forall. intros st Hst. apply list_elem_of_fmap in Hst as (x & -> & Hx).
    unfold order_by in Hx. rewrite sort_stable_elem in Hx. unfold steps_of in Hx. rewrite select_elem in Hx.
    destruct Hx as [_ Hx%String.eqb_eq]. done.
Qed.
End Serve.
