(* ===== verification/AgentFlow.v ===== *)
(** * AgentFlow: the properties of the runs of agents

    Runs end once and keep their steps; requests stay in their organization; what a step
    and an end leave; summaries add up. *)

From S2P Require Import Prelude GoStrings Effects Float64 ApiSpec Authz Identity Table Requests ServiceHandlers AgentStore AgentHandlers AgentLife.
From Stdlib Require Import Sorting.Sorted.
#[local] Open Scope nat_scope.
#[local] Open Scope string_scope.
Set Warnings "-clear-no-such-hyp".

Section Flow.
Context `{UuidText} `{AgentPayload} `{CostColumn} `{UuidGen}.
Context (models : list Model).
#[local] Abbreviation W := (World AgentTables).
Implicit Types (d : AgentTables) (s : AgentSession) (w : W).

(** ** Requests *)

Definition served (rqs : list (option Principal * string * agent_request)) w : W :=
  fold_left (fun w rq => (serve models rq.1.1 rq.1.2 rq.2 w).2) rqs w.
Lemma agents_served rqs w :
  agents_ok (w_db w) ->
  agents_ok (w_db (served rqs w)) /\ all_kept kept_session (a_sessions (w_db w)) (a_sessions (w_db (served rqs w))) /\
  all_kept eq (a_steps (w_db w)) (a_steps (w_db (served rqs w))).
Proof.
  revert w. induction rqs as [|[[ctx oid] q] rqs IH]; intros w Hok; cbn.
  { split_and!; [done|apply all_kept_refl, kept_session_refl|by apply all_kept_refl]. }
  pose proof (serve_agents_post models ctx oid w Hok q) as [Ho [_ _ _ [_ Hs] Ht _] _ _]. destruct (IH _ Ho) as (Ho' & Hs' & Ht').
  split_and!; [done|eapply all_kept_trans; [apply kept_session_trans|done|done]|eapply all_kept_trans; [apply eq_trans|done|done]].
Qed.

(** (C26) Whatever requests are served, in whatever order and by whichever callers, the
    tables of agent runs stay well formed: a session is of an org that exists and of a known
    type, was opened by a user or by a service account, and is either running, without
    report, error and end, or ended, in one of three ways; a step is of a session that
    exists; and the steps of a session are numbered from one without gaps.  No session and
    no step disappears, a step never changes, a session keeps its origin, and once it has
    ended it keeps its status, report, error and end for ever. *)
Theorem reachable_agents_ok rqs w :
  agents_ok (w_db w) ->
  agents_ok (w_db (served rqs w)) /\
  (forall k s, a_sessions (w_db w) !! k = Some s -> exists s', a_sessions (w_db (served rqs w)) !! k = Some s' /\
     origin s' = origin s /\ (as_Status s <> StatusRunning -> outcome s' = outcome s)) /\
  (forall k st, a_steps (w_db w) !! k = Some st -> a_steps (w_db (served rqs w)) !! k = Some st).
Proof.
  intros Hok. destruct (agents_served rqs w Hok) as (Ho & Hs & Ht). split_and!; [done|exact Hs|].
  intros k st Hk. by destruct (Ht k st Hk) as (st' & Hk' & <-).
Qed.

(** (lemma) A request on the agent runs of an org, of any caller and with any body, shows
    sessions and steps of that org only, changes sessions of that org only and no step, adds
    steps to sessions of that org only; and unless it succeeds or fails with an internal
    error it changes nothing. *)
Theorem agent_requests_confined ctx oid q w :
  agents_ok (w_db w) ->
  let '(r, w') := serve models ctx oid q w in
  match payload r with
  | Json (OneSession (Some x)) => as_OrgID (ss_Row x) = oid
  | Json (SessionList l _ _ _ _) => Forall (fun x => as_OrgID (ss_Row x) = oid) l
  | Json (SessionSteps x steps) => as_OrgID (ss_Row x) = oid /\ Forall (fun st => sp_SessionID st = as_ID (ss_Row x)) steps
  | Json (OneStep st) => forall s, a_sessions (w_db w') !! sp_SessionID st = Some s -> as_OrgID s = oid
  | _ => True
  end /\
  (forall k s, as_OrgID s <> oid -> (a_sessions (w_db w') !! k = Some s <-> a_sessions (w_db w) !! k = Some s)) /\
  (forall k st, a_steps (w_db w) !! k = Some st -> a_steps (w_db w') !! k = Some st) /\
  (forall k st, a_steps (w_db w) !! k = None -> a_steps (w_db w') !! k = Some st ->
     exists s, a_sessions (w_db w') !! sp_SessionID st = Some s /\ as_OrgID s = oid) /\
  (succeeded r = false -> status r <> 500%Z -> w_db w' = w_db w).
Proof.
  intros Hok. pose proof (serve_agents_post models ctx oid w Hok q) as Hp.
  destruct (serve models ctx oid q w) as [r w']. destruct Hp as [_ [_ _ _ [Hu _] Hst Hn] Hf Hsh]. cbn [fst snd] in *.
  split_and!; [|exact Hu| |exact Hn|exact Hf].
  - by destruct (payload r) as [|[[]| | | |]| | |].
  - intros k st Hk. by destruct (Hst k st Hk) as (st' & Hk' & <-).
Qed.

(** ** Totals *)

Lemma zsum_perm l l' : l ≡ₚ l' -> zsum l = zsum l'.
Proof. unfold zsum. induction 1; cbn; lia. Qed.
Lemma sum0_perm {R} (f : R -> option Z) l l' : l ≡ₚ l' -> sum0 f l = sum0 f l'.
Proof. intros Hp. apply zsum_perm. by rewrite Hp. Qed.
Lemma count_perm {R} (p : R -> bool) l l' : l ≡ₚ l' -> count p l = count p l'.
Proof.
  intros Hp. unfold count. f_equal. induction Hp as [|x l l' _ IH|x y l|a b c _ IH1 _ IH2]; cbn; [done| | |congruence].
  - destruct (p x); cbn; congruence.
  - by destruct (p x), (p y).
Qed.
(** The totals of a session do not depend on the order its steps are read in. *)
Lemma totals_perm l l' : l ≡ₚ l' -> totals_of l = totals_of l'.
Proof.
  intros Hp. unfold totals_of. rewrite (Permutation_length Hp), !(sum0_perm _ _ _ Hp), (count_perm _ _ _ Hp).
  rewrite (zsum_perm (map duration l) (map duration l')) by (by rewrite Hp). f_equal.
  assert (omap sp_CostUSD l ≡ₚ omap sp_CostUSD l') as Hc by (by rewrite Hp). f_equal.
  unfold sum_of. pose proof (zsum_perm _ _ Hc) as Hz. pose proof (Permutation_length Hc) as Hl.
  destruct (omap sp_CostUSD l), (omap sp_CostUSD l'); try done. by rewrite Hz.
Qed.

(** ** Steps *)

Lemma CreateStep_run oid sid b w r w' :
  agents_ok (w_db w) -> CreateStep models oid sid (Some b) w = (r, w') ->
  (succeeded r = false /\ w_db w' = w_db w) \/
  exists s id startedAt completedAt n d1,
    a_sessions (w_db w) !! sid = Some s /\ as_OrgID s = oid /\ sr_StartedAt b = Some startedAt /\ sr_CompletedAt b = Some completedAt /\
    let st := new_step id sid b startedAt completedAt None in
    let priced := with_payload st 0 (sp_Input st) (sp_Output st) (priceStep models st (as_ModelName s)) in
    insert_step priced (w_db w) = Ok (n, d1) /\
    (r = JSON 201 (OneStep (with_payload priced n (sp_Input st) (sp_Output st) (sp_CostUSD priced))) /\
       bump_session sid completedAt d1 = Ok (w_db w') \/
     status r = 500%Z /\ w_db w' = d1).
Proof.
  intros Hok E. replace r with (CreateStep models oid sid (Some b) w).1 by (by rewrite E).
  replace w' with (CreateStep models oid sid (Some b) w).2 by (by rewrite E). clear E.
  pattern (CreateStep models oid sid (Some b) w).1, (CreateStep models oid sid (Some b) w).2. apply func_ends.
  match goal with |- wp _ ?P _ _ => set (Pr := P); assert (quiet (w_db w) Pr) as Hq end.
  { intros r0 w0 [Hn%negb_true_iff _]%andb_true_iff Hd. by left. }
  ends_step. match goal with Hx : Some b = Some _ |- _ => injection Hx as <- end. do 4 ends_step. eapply ends_load; [exact Hq|done|]. intros s w8 Hs Ho Hw8. assert (as_ID s = sid) as Hid by (by apply (ok_sessions _ Hok)).
  cbn [ss_Row read_session]. ends_step. cbv zeta. rewrite Hid, wp_bind, wp_try.
  match goal with |- context [CreateAgentSessionStep ?st ?w0] => destruct (CreateAgentSessionStep st w0) as [r9 w9] eqn:E9 end.
  apply step_cases in E9 as [(e & -> & Hd)|(n & d1 & Hi & Hr)]; [apply Hq; [done|congruence]|].
  match goal with Hw : w_db ?w0 = w_db w, Hx : insert_step _ (w_db ?w0) = _ |- _ => rewrite Hw in Hx end.
  destruct Hr as [[-> Hb]|(e & -> & He & Hd)].
  - apply wp_ret. right. eexists s, _, _, _, n, d1. split_and!; [done|done|done|done|split; [exact Hi|by left]].
  - right. eexists s, _, _, _, n, d1. split_and!; [done|done|done|done|split; [exact Hi|by right]].
Qed.

(** What a price means: it is known exactly for a step of a model that is in the list and
    reports tokens, and is then the price of both counts. *)
Lemma priceStep_Some (st : Step float64) sessionModel c :
  priceStep models st sessionModel = Some c <->
  sp_Kind st <> KindTool /\ (found (sp_InputTokens st) || found (sp_OutputTokens st) = true) /\
  exists name m, or_old (sp_ModelName st) sessionModel = Some name /\ Lookup models name = Some m /\
    c = costUSD (default 0%Z (sp_InputTokens st)) (default 0%Z (sp_OutputTokens st)) m.
Proof.
  unfold priceStep. destruct (String.eqb (sp_Kind st) KindTool) eqn:Hk.
  { apply String.eqb_eq in Hk. split; [done|by intros []]. }
  apply String.eqb_neq in Hk. rewrite <-negb_orb. destruct (found _ || found _); cbn [negb].
  2: { split; [done|by intros (_ & [=] & _)]. }
  destruct (or_old _ _) as [name|]; [|split; [done|by intros (_ & _ & n & m & [=] & _)]]. cbn.
  destruct (Lookup models name) as [m|] eqn:Hm; cbn.
  - split; [intros [= <-]; eauto 8|]. by intros (_ & _ & n & m' & [= <-] & [= <-]%(eq_trans (eq_sym Hm)) & ->).
  - split; [done|]. by intros (_ & _ & n & m' & [= <-] & [=]%(eq_trans (eq_sym Hm)) & _).
Qed.

(** A step or its row says what the body said; the payloads and the cost apart. *)
Definition of_body {C} (b : stepRequest) (sid : string) (st : Step C) : Prop :=
  sp_SessionID st = sid /\ sp_Kind st = sr_Kind b /\ sp_Name st = sr_Name b /\ sp_ModelName st = sr_ModelName b /\
  sp_Text st = sr_Text b /\ sp_FinishReason st = sr_FinishReason b /\ sp_Error st = sr_Error b /\
  sp_InputTokens st = sr_InputTokens b /\ sp_OutputTokens st = sr_OutputTokens b /\
  sp_ReasoningTokens st = sr_ReasoningTokens b /\ sp_CachedInputTokens st = sr_CachedInputTokens b /\
  sp_CachedOutputTokens st = sr_CachedOutputTokens b /\
  sr_StartedAt b = Some (sp_StartedAt st) /\ sr_CompletedAt b = Some (sp_CompletedAt st).
(** The price of the step: known exactly for a step that is not a tool's, reports tokens and
    names a model of the list, or else is of a session that does. *)
Definition priced_as (b : stepRequest) (s : AgentSession) (cost : option float64) : Prop :=
  forall c, cost = Some c <->
    sr_Kind b <> "tool" /\ (is_Some (sr_InputTokens b) \/ is_Some (sr_OutputTokens b)) /\
    exists name m, (sr_ModelName b = Some name \/ sr_ModelName b = None /\ as_ModelName s = Some name) /\
      Lookup models name = Some m /\ c = costUSD (default 0%Z (sr_InputTokens b)) (default 0%Z (sr_OutputTokens b)) m.
(** [row] is the step [st] of the body as the table keeps it: the payloads as their columns give
    them back, the cost as the database rounds it. *)
Definition recorded (b : stepRequest) (s : AgentSession) (sid : string) (n : Z) (st : Step float64) (row : Step Z) : Prop :=
  of_body b sid st /\ of_body b sid row /\ sp_ID row = sp_ID st /\ sp_Seq st = n /\ sp_Seq row = n /\
  sp_Input st = sr_Input b /\ sp_Output st = sr_Output b /\
  raw_column (sr_Input b) = Some (sp_Input row) /\ raw_column (sr_Output b) = Some (sp_Output row) /\
  priced_as b s (sp_CostUSD st) /\
  match sp_CostUSD st with Some c => cost_in c = sp_CostUSD row | None => sp_CostUSD row = None end.

Lemma priceStep_priced b s id t1 t2 : priced_as b s (priceStep models (new_step id (as_ID s) b t1 t2 None) (as_ModelName s)).
Proof.
  intros c. rewrite priceStep_Some. cbn. unfold KindTool. rewrite orb_true_iff, !found_true. unfold or_old.
  destruct (sr_ModelName b) as [m|]; naive_solver.
Qed.
Lemma step_recorded b s sid id t1 t2 n row :
  as_ID s = sid -> sr_StartedAt b = Some t1 -> sr_CompletedAt b = Some t2 ->
  let st := new_step id sid b t1 t2 None in
  let priced := with_payload st 0 (sp_Input st) (sp_Output st) (priceStep models st (as_ModelName s)) in
  stored_step priced n = Some row ->
  recorded b s sid n (with_payload priced n (sp_Input st) (sp_Output st) (sp_CostUSD priced)) row.
Proof.
  intros <- Hs1 Hs2 st priced. pose proof (priceStep_priced b s id t1 t2) as Hp. fold st in Hp.
  unfold stored_step. cbn [sp_Input sp_Output sp_CostUSD priced with_payload st new_step].
  destruct (raw_column (sr_Input b)) as [i|] eqn:Ei; [|done]. destruct (raw_column (sr_Output b)) as [o|] eqn:Eo; [|done]. cbn.
  fold st. destruct (match priceStep _ _ _ with None => _ | Some _ => _ end) as [c|] eqn:Hc; [|done]. cbn.
  destruct (_ && _); [|done]. intros [= <-]. unfold recorded, of_body. cbn. split_and!; try done.
  fold st. destruct (priceStep models st (as_ModelName s)) as [x|]; [|by injection Hc as <-].
  destruct (cost_in x); [|done]. by injection Hc as <-.
Qed.

(** (C27) Recording a step: when it succeeds, the session is one of the org; the step says
    what the body said, has the next number and costs what the list of prices says today of
    the tokens of the body for the model it names, or else the session's ([recorded]); exactly
    the row of this step is added; the totals of the session become those of its steps with
    this one; of the session itself only the time of its last change moves.  When it fails,
    nothing changed, or the answer is an internal error, the row of exactly this step is
    there, and only that time is not. *)
Theorem CreateStep_correct oid sid b w r w' :
  agents_ok (w_db w) -> CreateStep models oid sid (Some b) w = (r, w') ->
  let next := Z.of_nat (S (length (steps_of sid (w_db w)))) in
  (succeeded r = true -> exists s st row,
     a_sessions (w_db w) !! sid = Some s /\ as_OrgID s = oid /\ r = JSON 201 (OneStep st) /\ recorded b s sid next st row /\
     a_steps (w_db w) !! sp_ID st = None /\ a_steps (w_db w') = <[sp_ID st := row]> (a_steps (w_db w)) /\
     a_sessions (w_db w') = <[sid := touched_session (sp_CompletedAt st) s]> (a_sessions (w_db w)) /\
     steps_of sid (w_db w') ≡ₚ row :: steps_of sid (w_db w) /\
     totals_of (steps_of sid (w_db w')) = totals_of (row :: steps_of sid (w_db w))) /\
  (succeeded r = false -> w_db w' = w_db w \/
     status r = 500%Z /\ exists s st row, a_sessions (w_db w) !! sid = Some s /\ as_OrgID s = oid /\
       recorded b s sid next st row /\ a_steps (w_db w) !! sp_ID st = None /\
       a_steps (w_db w') = <[sp_ID st := row]> (a_steps (w_db w)) /\ a_sessions (w_db w') = a_sessions (w_db w)).
Proof.
  intros Hok E. cbv zeta. destruct (CreateStep_run _ _ _ _ _ _ Hok E) as [[Hs Hd]|(s & id & t1 & t2 & n & d1 & Hs & Ho & Hs1 & Hs2 & Hi & Hr)].
  { split; [congruence|by left]. }
  destruct (insert_step_run _ _ _ _ Hi) as (Hn & Hnone & _ & row & Hrow & ->).
  assert (as_ID s = sid) as Hid by (by apply (ok_sessions _ Hok)).
  pose proof (step_recorded b s sid id t1 t2 n row Hid Hs1 Hs2 Hrow) as Hrec.
  destruct (stored_step_parts _ _ _ Hrow) as (Ri & Rs & _). cbn in Hn, Hnone, Ri, Rs.
  rewrite next_seq_length in Hn by apply (ok_seqs _ Hok). subst n.
  destruct Hr as [[-> Hb]|[Hr Hd]]; split; intros Hsucc; [|done| |].
  - unfold bump_session in Hb. cbn in Hb. destruct (negb _); [done|]. rewrite Hs in Hb. injection Hb as Hb.
    eexists s, _, row. split; [exact Hs|]. split; [exact Ho|]. split; [reflexivity|]. split; [exact Hrec|]. rewrite <-Hb. cbn.
    assert (steps_of sid (set_steps (w_db w) (<[id := row]> (a_steps (w_db w)))) ≡ₚ row :: steps_of sid (w_db w)) as Hp.
    { rewrite steps_of_insert by done. unfold step_of. by rewrite Rs, String.eqb_refl. }
    split_and!; try done. by apply totals_perm.
  - unfold succeeded in Hsucc. by rewrite Hr in Hsucc.
  - right. split; [done|]. eexists s, _, row. split; [exact Hs|]. split; [exact Ho|]. split; [exact Hrec|]. by rewrite Hd.
Qed.

(** (lemma) Ending a session: while it runs, a request that succeeds gives it the status,
    report and error of the body and the time of its end, and changes nothing else; one that
    fails has either done just that too - only reading the session back failed - or changed
    nothing.  A session that has ended cannot be ended again: the request fails and changes
    nothing. *)
Theorem Finish_correct oid sid b w r w' :
  agents_ok (w_db w) -> Finish oid sid (Some b) w = (r, w') ->
  (w_db w' = w_db w /\ succeeded r = false \/
   exists s t, a_sessions (w_db w) !! sid = Some s /\ as_OrgID s = oid /\ as_Status s = StatusRunning /\
     ValidTerminalStatus (fi_Status b) = true /\ (forall c, fi_CompletedAt b = Some c -> t = c) /\
     w_db w' = set_sessions (w_db w) (<[sid := finished (fi_Status b) (fi_Report b) (fi_Error b) t s]> (a_sessions (w_db w))) /\
     (r = JSON 200 (OneSession (Some (read_session (w_db w') (finished (fi_Status b) (fi_Report b) (fi_Error b) t s)))) \/
      status r = 500%Z)) /\
  (forall s, a_sessions (w_db w) !! sid = Some s -> as_Status s <> StatusRunning -> succeeded r = false /\ w_db w' = w_db w).
Proof.
  intros Hok E.
  assert (w_db w' = w_db w /\ succeeded r = false \/
   exists s t, a_sessions (w_db w) !! sid = Some s /\ as_OrgID s = oid /\ as_Status s = StatusRunning /\
     ValidTerminalStatus (fi_Status b) = true /\ (forall c, fi_CompletedAt b = Some c -> t = c) /\
     w_db w' = set_sessions (w_db w) (<[sid := finished (fi_Status b) (fi_Report b) (fi_Error b) t s]> (a_sessions (w_db w))) /\
     (r = JSON 200 (OneSession (Some (read_session (w_db w') (finished (fi_Status b) (fi_Report b) (fi_Error b) t s)))) \/
      status r = 500%Z)) as Hor.
  2: { split; [exact Hor|]. intros s Hs Hn. destruct Hor as [[? ?]|(s' & _ & Hs' & _ & Hrun & _)]; [done|congruence]. }
  replace r with (Finish oid sid (Some b) w).1 by (by rewrite E). replace w' with (Finish oid sid (Some b) w).2 by (by rewrite E).
  clear E. pattern (Finish oid sid (Some b) w).1, (Finish oid sid (Some b) w).2. apply func_ends.
  match goal with |- wp _ ?P _ _ => set (Pr := P); assert (quiet (w_db w) Pr) as Hq end.
  { intros r0 w0 [Hn%negb_true_iff _]%andb_true_iff Hd. by left. }
  ends_step. match goal with Hx : Some b = Some _ |- _ => injection Hx as <- end. ends_step.
  eapply ends_load; [exact Hq|done|]. intros s w8 Hs Ho Hw8. assert (as_ID s = sid) as Hid by (by apply (ok_sessions _ Hok)).
  cbn [ss_Row read_session]. rewrite Hid. ends_step. cbv zeta. eapply ends_exec_now; [exact Hq|done|by intros []|]. intros w9 E9.
  unfold finish_session in E9. destruct (negb (valid_uuid sid)); [done|]. rewrite Hs in E9.
  destruct (String.eqb (as_Status s) StatusRunning) eqn:Hrun; [|done]. injection E9 as E9. apply String.eqb_eq in Hrun.
  rewrite wp_bind, wp_try. destruct (GetAgentSession sid w9) as [[o|e] w10] eqn:Eg; unfold GetAgentSession in Eg;
    pose proof (query_cases _ _ _ _ _ Eg) as [Hd2 Ha].
  - apply wp_ret. right. eexists s, _. split_and!; [done|done|done|by apply negb_false_iff| |by rewrite Hd2, <-E9|left]; [by intros c ->|].
    destruct (Ha o eq_refl) as [_ ->]. rewrite Hd2, <-E9. cbn. by rewrite lookup_insert_eq.
  - right. eexists s, _. split_and!; [done|done|done|by apply negb_false_iff| |by rewrite Hd2, <-E9|right; by eapply query_500]. by intros c ->.
Qed.

(** ** Summaries *)

(** The whole numbers of a summary; durations of runs are rounded once per summary, and
    costs are float64s, whose sums depend on the order. *)
Definition counters : list (Aggregates -> Z) :=
  [ag_TotalSessions; ag_CompletedSessions; ag_FailedSessions; ag_RunningSessions] ++
  map (fun (f : SessionTotals -> Z) a => f (ag_Totals a))
    [to_StepCount; to_InputTokens; to_OutputTokens; to_ReasoningTokens; to_CachedInputTokens; to_CachedOutputTokens;
     to_UnpricedSteps; to_StepDurationMs].

Lemma zsum_app l l' : zsum (l ++ l') = (zsum l + zsum l')%Z.
Proof. induction l as [|x l IH]; cbn; [done|]. unfold zsum in *. cbn. lia. Qed.
Lemma count_sum {R} (p : R -> bool) l : count p l = zsum (map (fun x => if p x then 1%Z else 0%Z) l).
Proof. unfold count. induction l as [|x l IH]; [done|]. cbn. destruct (p x); cbn [length]; unfold zsum in IH; lia. Qed.
(** Every counter is a sum over the sessions. *)
Lemma counters_additive f : f ∈ counters -> exists g, forall l, f (aggregates l) = zsum (map g l).
Proof.
  unfold counters. intros Hf. repeat (apply elem_of_cons in Hf as [->|Hf]); [..|by apply not_elem_of_nil in Hf].
  { exists (fun _ => 1%Z). intros l. cbn. induction l as [|x l IH]; cbn; [done|]. unfold zsum in IH. lia. }
  all: first [by eexists; intros l; apply count_sum|by eexists].
Qed.

(** A sum over groups that cover a list is the sum over the list. *)
Lemma zsum_zero {A} (f : A -> Z) l : (forall x, x ∈ l -> f x = 0%Z) -> zsum (map f l) = 0%Z.
Proof.
  induction l as [|x l IH]; intros Hf; [done|]. cbn. rewrite (Hf x) by left. apply IH. intros y Hy. apply Hf. by right.
Qed.
Lemma zsum_add {A} (f g : A -> Z) l : zsum (map (fun x => f x + g x)%Z l) = (zsum (map f l) + zsum (map g l))%Z.
Proof. unfold zsum. induction l as [|x l IH]; cbn; [done|]. lia. Qed.
Lemma zsum_one {A} `{!EqDecision A} (x : A) (z : Z) ts :
  NoDup ts -> x ∈ ts -> zsum (map (fun t => if decide (t = x) then z else 0%Z) ts) = z.
Proof.
  induction 1 as [|t ts Hnot Hnd IH]; intros Hx; [by apply not_elem_of_nil in Hx|]. cbn.
  apply elem_of_cons in Hx as [->|Hx].
  - rewrite decide_True by done. pose proof (zsum_zero (fun t' => if decide (t' = t) then z else 0%Z) ts) as Hz.
    unfold zsum in Hz. rewrite Hz; [lia|]. intros y Hy. apply decide_False. by intros ->.
  - rewrite decide_False by (by intros ->). apply IH, Hx.
Qed.
Lemma groups_sum (g : Session -> Z) (ty : Session -> string) ts l :
  NoDup ts -> (forall x, x ∈ l -> ty x ∈ ts) ->
  zsum (map (fun t => zsum (map g (List.filter (fun x => String.eqb (ty x) t) l))) ts) = zsum (map g l).
Proof.
  intros Hnd. induction l as [|x l IH]; intros Hcov; [by apply zsum_zero|].
  transitivity (zsum (map (fun t => (if decide (t = ty x) then g x else 0) +
                                     zsum (map g (List.filter (fun x => String.eqb (ty x) t) l)))%Z ts)).
  - f_equal. apply map_ext. intros t. cbn. destruct (decide (t = ty x)) as [->|Hne].
    + by rewrite String.eqb_refl.
    + destruct (String.eqb_spec (ty x) t); [congruence|done].
  - rewrite zsum_add, zsum_one by (done || apply Hcov; left). cbn. rewrite IH; [done|]. intros y Hy. apply Hcov. by right.
Qed.

Definition type_of (x : Session) : string := as_Type (ss_Row x).
Definition bigger (x y : string * Aggregates) : Prop := (ag_TotalSessions y.2 <= ag_TotalSessions x.2)%Z.
Lemma by_type_perm l : by_type l ≡ₚ map (fun t => (t, aggregates (List.filter (of_type t) l))) (remove_dups (map type_of l)).
Proof. apply sort_stable_perm. Qed.

Lemma sorted_bigger l : sorted_by (desc (by_key (fun ta : string * Aggregates => ag_TotalSessions ta.2))) l -> StronglySorted bigger l.
Proof.
  induction 1 as [|x l Hl IH Hx]; constructor; [done|]. eapply Forall_impl; [exact Hx|].
  intros y Hy%Z.ltb_ge. exact Hy.
Qed.

Lemma in_summary_iff oid since ty s :
  in_summary oid since ty s = true <->
  as_OrgID s = oid /\ (since <= as_StartedAt s)%Z /\ (forall t, ty = Some t -> as_Type s = t).
Proof.
  unfold in_summary, in_period, opt_eq. rewrite !andb_true_iff, String.eqb_eq, Z.leb_le. split.
  - intros [[? ?] Ht]. split_and!; [done|done|]. intros t ->. by apply String.eqb_eq in Ht.
  - intros (? & ? & Ht). split_and!; [done|done|]. destruct ty as [t|]; [|done]. by apply String.eqb_eq, Ht.
Qed.

(** What the figures of a summary are of the rows of some sessions: how many there are, and
    how many of each status; the sums of the tokens their steps report, a step that reports
    none counting for nothing; how many steps there are, and how many of a model without a
    price; the times, in milliseconds; and the costs of the sessions that have any. *)
Definition tokens d (f : Step Z -> option Z) (row : AgentSession) : Z :=
  zsum (omap f (steps_of (as_ID row) d)).
Definition ended_as (status : string) (rows : list AgentSession) : Z :=
  Z.of_nat (length (List.filter (fun row => String.eqb (as_Status row) status) rows)).
Record adds_up d (rows : list AgentSession) (a : Aggregates) : Prop := {
  up_sessions : ag_TotalSessions a = Z.of_nat (length rows);
  up_completed : ag_CompletedSessions a = ended_as "completed" rows;
  up_failed : ag_FailedSessions a = ended_as "failed" rows;
  up_running : ag_RunningSessions a = ended_as "running" rows;
  up_duration : ag_TotalDurationMs a =
    millis (zsum (omap (fun row => t ← as_CompletedAt row; Some (t - as_StartedAt row)%Z) rows));
  up_steps : to_StepCount (ag_Totals a) = zsum (map (fun row => Z.of_nat (length (steps_of (as_ID row) d))) rows);
  up_input : to_InputTokens (ag_Totals a) = zsum (map (tokens d sp_InputTokens) rows);
  up_output : to_OutputTokens (ag_Totals a) = zsum (map (tokens d sp_OutputTokens) rows);
  up_reasoning : to_ReasoningTokens (ag_Totals a) = zsum (map (tokens d sp_ReasoningTokens) rows);
  up_cached_input : to_CachedInputTokens (ag_Totals a) = zsum (map (tokens d sp_CachedInputTokens) rows);
  up_cached_output : to_CachedOutputTokens (ag_Totals a) = zsum (map (tokens d sp_CachedOutputTokens) rows);
  up_unpriced : to_UnpricedSteps (ag_Totals a) =
    zsum (map (fun row => Z.of_nat (length (List.filter
      (fun st => String.eqb (sp_Kind st) "llm" && negb (found (sp_CostUSD st))) (steps_of (as_ID row) d)))) rows);
  up_step_duration : to_StepDurationMs (ag_Totals a) =
    zsum (map (fun row => millis (zsum (map (fun st => (sp_CompletedAt st - sp_StartedAt st)%Z) (steps_of (as_ID row) d)))) rows);
  up_cost : to_CostUSD (ag_Totals a) =
    let costs := omap (fun row => match omap sp_CostUSD (steps_of (as_ID row) d) with
                                  | [] => None | l => Some (cost_out (zsum l)) end) rows in
    match costs with [] => None | _ => Some (float8_sum costs) end
}.

Lemma omap_of_map {R S V} (figure : S -> option V) (read : R -> S) rows :
  omap figure (map read rows) = omap (fun row => figure (read row)) rows.
Proof. induction rows as [|row rows IHrows]; [done|]. cbn. by destruct (figure (read row)); rewrite IHrows. Qed.
Lemma filter_of_map {A B} (f : A -> B) (p : B -> bool) l : List.filter p (map f l) = map f (List.filter (fun x => p (f x)) l).
Proof. induction l as [|x l IH]; cbn; [done|]. destruct (p (f x)); cbn; by rewrite IH. Qed.
Lemma omap_same {A B} (f g : A -> option B) (l : list A) : (forall x, f x = g x) -> omap f l = omap g l.
Proof. intros E. induction l as [|x l IH]; cbn; [done|]. by rewrite E, IH. Qed.
Lemma aggregates_add_up d rows : adds_up d rows (aggregates (map (read_session d) rows)).
Proof.
  split; unfold aggregates, count, added, sum0, with_status, run_time, tokens, ended_as; cbn -[omap];
    rewrite ?length_map, ?filter_of_map, ?map_map, ?omap_of_map, ?length_map; cbn -[omap]; try done.
  cbv zeta. erewrite omap_same; [unfold sum_of at 1; reflexivity|].
  intros row. cbn. by destruct (omap sp_CostUSD (steps_of (as_ID row) d)).
Qed.

(** (C28) The summary of a period is of the sessions of the org that started in it - of one
    type, if one is asked for - each once: its figures are those their rows and the rows of
    their steps say ([adds_up]).  By type, every type that occurs has one entry, with the
    figures of the sessions of that type, the type with the most sessions first; and each count
    and each sum of tokens, steps and durations of steps over all sessions is the sum of those
    of the types. *)
Theorem summary_adds_up oid since ty w sum w' :
  GetAgentSessionSummary oid since ty w = (Ok sum, w') ->
  w_db w' = w_db w /\ exists rows,
  (forall row, row ∈ rows <-> (exists k, a_sessions (w_db w) !! k = Some row) /\ as_OrgID row = oid /\
     (since <= as_StartedAt row)%Z /\ (forall t, ty = Some t -> as_Type row = t)) /\
  (agents_ok (w_db w) -> NoDup (map as_ID rows)) /\
  adds_up (w_db w) rows (su_All sum) /\
  NoDup (map fst (su_ByType sum)) /\
  (forall t, t ∈ map fst (su_ByType sum) <-> exists row, row ∈ rows /\ as_Type row = t) /\
  Forall (fun ta => adds_up (w_db w) (List.filter (fun row => String.eqb (as_Type row) ta.1) rows) ta.2) (su_ByType sum) /\
  StronglySorted bigger (su_ByType sum) /\
  Forall (fun f => f (su_All sum) = zsum (map (fun ta => f ta.2) (su_ByType sum))) counters.
Proof.
  intros E. set (l := summed oid since ty (w_db w)). apply (two_queries [oid] _ _ mkSummary) in E as [Hd Hr].
  destruct (Hr sum eq_refl) as [_ ->]. clear Hr. split; [done|].
  set (rows := select (in_summary oid since ty) (a_sessions (w_db w))). exists rows.
  assert (l = map (read_session (w_db w)) rows) as El by done.
  cbn [su_All su_ByType]. fold l. split_and!.
  - intros row. unfold rows. rewrite select_elem, in_summary_iff. done.
  - intros Hok. unfold rows. apply select_NoDup. intros k row Hk. by destruct (ok_sessions _ Hok k row Hk).
  - rewrite El. apply aggregates_add_up.
  - rewrite (by_type_perm l), map_map. cbn. rewrite map_id. apply NoDup_remove_dups.
  - intros t. rewrite (by_type_perm l), map_map. cbn. rewrite map_id, elem_of_remove_dups, El, map_map, list_elem_of_fmap.
    unfold type_of. cbn. split; intros (row & ? & ?); exists row; naive_solver.
  - rewrite (by_type_perm l). apply Forall_fmap, Forall_forall. intros t _. cbn. rewrite El, filter_of_map.
    unfold of_type. cbn. apply aggregates_add_up.
  - apply (sorted_bigger _ (sort_stable_sorted (desc (by_key (fun ta : string * Aggregates => ag_TotalSessions ta.2))) _)).
  - apply Forall_forall. intros f Hf. destruct (counters_additive f Hf) as [g Hg].
    rewrite (zsum_perm _ (map (fun ta => f ta.2) (map (fun t => (t, aggregates (List.filter (of_type t) l))) (remove_dups (map type_of l)))))
      by (by rewrite (by_type_perm l)).
    rewrite map_map. cbn. rewrite Hg, <-(groups_sum g type_of (remove_dups (map type_of l)) l).
    + f_equal. apply map_ext. intros t. symmetry. apply Hg.
    + apply NoDup_remove_dups.
    + intros x Hx. apply elem_of_remove_dups, list_elem_of_fmap. eauto.
Qed.
End Flow.
