(* ===== verification/AgentDemo.v ===== *)
(** * AgentDemo: runs of agents at work

    A service account and a user of one organization record runs: inputs that meet the
    hypotheses of the theorems of AgentFlow. *)

From S2P Require Import Prelude GoStrings Effects Float64 ApiSpec Authz Identity Table Requests ServiceHandlers AgentStore AgentHandlers AgentLife AgentFlow.
From Stdlib Require Import SpecFloat.
#[local] Open Scope nat_scope.
#[local] Open Scope string_scope.

Module AgentDemo.
Definition new_text (X : gset string) : string := fresh (X ∪ {[ "" ]}).
#[local] Instance any_text : UuidText.
Proof.
  refine {| valid_uuid s := negb (str_empty s); gen_random_uuid := new_text |}; [done| |].
  - intros X Hin. apply (is_fresh (X ∪ {[ "" ]})). set_solver.
  - intros X. apply negb_true_iff, str_empty_false. intros E. apply (is_fresh (X ∪ {[ "" ]})).
    unfold new_text in E. rewrite E. set_solver.
Defined.
#[local] Instance as_it_is : AgentPayload.
Proof. refine {| agent_column := {| column := Some |} |}. intros x y _. reflexivity. Defined.
(** Units of 10^-8, rounded half away from zero, below 10^8. *)
Definition half_away (n q : Z) : Z := ((2 * n + q) / (2 * q))%Z.
Definition cents8 (x : float64) : option Z :=
  match x with
  | S754_zero _ => Some 0%Z
  | S754_finite s m e =>
      let n := (Z.pos m * 10 ^ 8)%Z in
      let z := if (0 <=? e)%Z then (n * 2 ^ e)%Z else half_away n (2 ^ (- e)) in
      if (z <? 10 ^ 16)%Z then Some (if s then - z else z)%Z else None
  | _ => None
  end.
#[local] Instance eight_digits : CostColumn :=
  {| cost_in := cents8; cost_out z := fdiv (float_of z) (float_of (10 ^ 8)); float8_sum := float_sum |}.
#[local] Instance hex_ids : UuidGen := {| uuid_of := hex_encode |}.

Definition start : World AgentTables :=
  mkWorld (mkAgentTables {[ "a"; "b" ]} {[ "ann" ]} {[ "bot" ]} ∅ ∅) [] 100 [] (map N.of_nat (seq 0 208)).
Definition models : list Model := load None.
Definition bot : option Principal := Some (mkPrincipal "service_account" "bot" "a" false "" [] "local").
Definition ann : option Principal := Some (mkPrincipal "user" "ann" "a" false "" [] "local").
Definition nth_id (n : nat) : string := hex_encode (map N.of_nat (seq (16 * n) 16)).
Definition run : string := nth_id 0.

Definition open (ty : string) : createRequest := mkCreateRequest ty None (Some "gpt-5") (Some "{}").
Definition turn (model : option string) (input output : Z) : stepRequest :=
  mkStepRequest "llm" None model None (Some "{}") None None None (Some input) (Some output) None None None
    (Some 1000000000%Z) (Some 3000000000%Z).
Definition call_tool : stepRequest :=
  mkStepRequest "tool" (Some "grep") None None None None None None None None None None None (Some 3000000000%Z) (Some 3500000000%Z).
Definition done_with : finishRequest := mkFinishRequest "completed" (Some "all good") None (Some 5000000000%Z).

(** The bot's run has two turns - one of the session's model, one of a model nobody knows - and a call of a tool,
    and ends; Ann's only starts. *)
Definition setup := [(bot, "a", AgCreate (Some (open "artifacts"))); (bot, "a", AgStep run (Some (turn None 1000000 100000)));
  (bot, "a", AgStep run (Some (turn (Some "unknown") 10 10))); (bot, "a", AgStep run (Some call_tool));
  (ann, "a", AgCreate (Some (open "impact")))].
Definition w0 : World AgentTables := served models setup start.
Definition ending : AReply * World AgentTables := Finish "a" run (Some done_with) w0.
Definition again : AReply * World AgentTables := Finish "a" run (Some done_with) ending.2.

Lemma start_agents_ok : agents_ok (w_db start).
Proof. split; cbn; [intros *; by rewrite lookup_empty|intros *; by rewrite lookup_empty|]. intros sid. apply Permutation_refl. Qed.
Lemma w0_agents_ok : agents_ok (w_db w0).
Proof. apply agents_served, start_agents_ok. Qed.

(** (lemma) What the run cost: 1.25 + 1 dollars, one step without a price; it ends once. *)
Example costs_demo :
  match payload ending.1 with
  | Json (OneSession (Some x)) =>
      ss_Totals x = mkTotals 3 1000010 100010 0 0 0 (Some (fdiv (float_of 225) (float_of 100))) 1 4500
  | _ => False
  end /\ status again.1 = 409%Z.
Proof. vm_compute. repeat split. Qed.
(** (lemma) The price list overrides the catalog, and an empty name does not. *)
Example prices_demo :
  let listed := load (Some {[ "openai" := {[ "gpt-5" := mkPriced "" (decimal 15 1) (decimal 12 0) ]} ]}) in
  mo_InputCostPerMillion <$> Lookup listed "gpt-5" = Some (decimal 15 1) /\
  mo_DisplayName <$> Lookup listed "gpt-5" = Some "GPT-5" /\ Lookup listed "grok-4.3" = Lookup catalog "grok-4.3".
Proof. vm_compute. repeat split. Qed.

(** ** Witnesses *)

Lemma reachable_agents_ok_witness : agents_ok (w_db start) /\ agents_ok (w_db (served models setup start)).
Proof. split; [exact start_agents_ok|]. by apply (reachable_agents_ok models setup start), start_agents_ok. Defined.

Definition intruding : AReply * World AgentTables := serve models ann "b" (AgFinish run (Some done_with)) w0.
Lemma agent_requests_confined_witness :
  agents_ok (w_db w0) /\ status intruding.1 = 404%Z /\ w_db intruding.2 = w_db w0.
Proof.
  split_and!; [exact w0_agents_ok|vm_compute; reflexivity|].
  pose proof (agent_requests_confined models ann "b" (AgFinish run (Some done_with)) w0 w0_agents_ok) as Hc.
  assert (status intruding.1 = 404%Z /\ succeeded intruding.1 = false) as [Hs Hf] by (vm_compute; repeat split).
  unfold intruding in *. destruct (serve models ann "b" (AgFinish run (Some done_with)) w0) as [r w']. cbn [fst snd] in *.
  destruct Hc as (_ & _ & _ & _ & Hn). apply Hn; [exact Hf|]. rewrite Hs. discriminate.
Defined.

Definition stepping : AReply * World AgentTables := CreateStep models "a" run (Some (turn None 2000000 0)) w0.
Lemma CreateStep_correct_witness :
  agents_ok (w_db w0) /\ succeeded stepping.1 = true /\ exists st, stepping.1 = JSON 201 (OneStep st) /\ sp_Seq st = 4%Z.
Proof.
  assert (succeeded stepping.1 = true) as Hs by (vm_compute; reflexivity). split_and!; [exact w0_agents_ok|exact Hs|].
  assert (length (steps_of run (w_db w0)) = 3) as Hl by (vm_compute; reflexivity).
  unfold stepping in *. destruct (CreateStep models "a" run (Some (turn None 2000000 0)) w0) as [r w'] eqn:E. cbn [fst] in *.
  destruct (CreateStep_correct models "a" run (turn None 2000000 0) w0 r w' w0_agents_ok E) as [Hc _].
  destruct (Hc Hs) as (s & st & row & _ & _ & Hr & (_ & _ & _ & Hq & _) & _). exists st. split; [exact Hr|]. rewrite Hq, Hl. reflexivity.
Defined.

Lemma Finish_correct_witness :
  agents_ok (w_db w0) /\ status ending.1 = 200%Z /\
  exists s t, a_sessions (w_db w0) !! run = Some s /\ a_sessions (w_db ending.2) !! run = Some (finished "completed" (Some "all good") None t s).
Proof.
  assert (status ending.1 = 200%Z /\ succeeded ending.1 = true) as [Hs Hf] by (vm_compute; repeat split).
  split_and!; [exact w0_agents_ok|exact Hs|].
  unfold ending in *. destruct (Finish "a" run (Some done_with) w0) as [r w'] eqn:E. cbn [fst snd] in *.
  destruct (Finish_correct "a" run done_with w0 r w' w0_agents_ok E) as [[[_ Hn]|(s & t & Hk & _ & _ & _ & _ & Hd & _)] _].
  - rewrite Hf in Hn. discriminate Hn.
  - exists s, t. split; [exact Hk|]. rewrite Hd. apply lookup_insert_eq.
Defined.

Definition summary : result store_err Summary * World AgentTables := GetAgentSessionSummary "a" 0 None ending.2.
Lemma summary_adds_up_witness :
  exists sum, summary.1 = Ok sum /\ map fst (su_ByType sum) ≡ₚ ["artifacts"; "impact"] /\
    ag_TotalSessions (su_All sum) = zsum (map (fun ta => ag_TotalSessions ta.2) (su_ByType sum)).
Proof.
  assert (match summary.1 with Ok sum => bool_decide (map fst (su_ByType sum) ≡ₚ ["artifacts"; "impact"]) | Err _ => false end = true)
    as Hb by (vm_compute; reflexivity).
  unfold summary in *. destruct (GetAgentSessionSummary "a" 0 None ending.2) as [[sum|e] w'] eqn:E; [|discriminate Hb]. cbn [fst] in *.
  destruct (summary_adds_up "a" 0 None ending.2 sum w' E) as (_ & rows & _ & _ & _ & _ & _ & _ & _ & Hf).
  exists sum. split; [reflexivity|]. split; [exact (bool_decide_eq_true_1 _ Hb)|]. by inversion Hf.
Defined.
End AgentDemo.
